(* ===== verification/_CoqProject ===== *)
-Q . S2P
Prelude.v
Machine.v
ListLib.v
Errors.v
Validated.v
Arrow.v
Catalog.v
Loader.v
LoaderSpec.v
Integers.v
ArrowReference.v
Counting.v
BlockIndex.v
Pairs.v
Rows.v
KeyColumns.v
SemiJoin.v
Hierarchical.v
Addresses.v
AddressLookup.v
AddressBuild.v
Keys.v
Projection.v
Weight.v
RowOrder.v
Render.v
Names.v
Encoder.v
Escape.v
EncoderSpec.v
Json.v
Sets.v
Predicate.v
PredicateSpec.v
Pruning.v
RowPredicate.v
ItemLists.v
Scan.v
ScanParts.v
Returned.v
KeyCells.v
Follow.v
Columnar.v
ColumnarSpec.v
ColumnarScan.v
Parse.v
Plan.v
Compile.v
CompileSpec.v
ItemSpec.v
Reader.v
Parquet.v
ParquetRead.v
DecodedColumns.v
ParquetScan.v
Sources.v
Fork.v
Prepare.v
Tables.v
TablesSpec.v
TablesRange.v
PlanSpec.v
CatalogSpec.v
Retain.v
Page.v
PageSpec.v
Parallel.v
ParallelSpec.v
Materialize.v
MaterializeSpec.v
ArrowOut.v
ArrowOutSpec.v
RowWriter.v
RowWriterSpec.v
Writer.v
WriterSpec.v
Execute.v
ExecuteSpec.v
