(* ===== verification/Prelude.v ===== *)
(** * The query engine: a verification library of its core

    sqd-query-engine answers one JSON request about a dataset's blocks: it compiles
    the request into a plan over the dataset's tables (src/query), reads the rows the
    plan selects from a chunk (src/scan), follows relations from rows to rows of other
    tables (src/join, src/execution/tables.rs), keeps a page of whole blocks within
    the response's budget (src/execution/page.rs, src/output/weight.rs), and writes
    the rows out in a fixed order (src/output). This library models that core as
    executable definitions and proves what makes each part correct.

    ** How code is read

    A function that returns [Result] is a function to [outcome] (this file): [Ok],
    [Err] of an error kind, or [Panic], so that a theorem that it returns [Ok] also
    says that nothing it indexes or unwraps is missing. Out-of-range indexing is
    [vec_get] or [expect]. Integers are [Z] with wrapping, saturating and checked
    operations written at their width ([Machine]); [usize] has 64 bits. Rust's maps
    and sets are stdpp's [gmap] and [gset] where their order is not seen, association
    lists where it is ([IndexMap], [BTreeMap]). A loop is a fold, or a [Fixpoint] on
    what it consumes; the one loop whose end is not evident, that of page selection,
    takes fuel ([Page.page_loop]), and [PageSpec.select_page_ends] shows that one unit
    for each block of the request is enough. [parallel::map] is the loop in order:
    results are gathered by index.

    Third-party code is a parameter with laws: Arrow's kernels ([Arrow.ArrowKernels],
    [ArrowLaws]), its row format ([Keys.RowFormat]), [RecordBatch::try_new]
    ([Columnar.BatchKernels]), the hashes xxh3 ([Sets.Xxh3], [Xxh3Laws]) and base64,
    and hex encoding ([Render.HexKernel]). Each has a reference instance
    (the [...Instances] modules), so the laws hold together and the witnesses evaluate.

    ** The files

    - [Prelude], [Machine], [ListLib], [Counting]: outcomes, integers at their width,
      slices as the standard library treats them, the counting pass two components
      share.
    - [Errors] (error.rs), [Arrow] and [ArrowReference] (arrays, batches and kernels),
      [Catalog] (crates/metadata types.rs), [Integers] (integers.rs, text.rs).
    - [BlockIndex] (output/block_index.rs): the rows of each block of a page.
    - [Pairs] (scan/pairs.rs), [Rows] (scan/rows.rs), [KeyColumns]
      (scan/key_columns.rs): sets of key pairs; rows with their positions and tags;
      key parts and the bytes they are written as, injectively.
    - [SemiJoin], [Hierarchical] (src/join): joins in memory by key and by address.
    - [Addresses], [AddressLookup], [AddressBuild] (scan/addresses.rs), [Keys]
      (scan/keys.rs): the filters a relation's scan is given, in all their forms.
    - [Projection], [Weight], [RowOrder], [Render], [Sources], [Fork], [Retain]
      (src/output): columns read for a selection, weights of blocks and the choice of
      a page, the order of rows, texts of byte strings, the response's sources, the
      fork check, filtering to blocks.
    - [Json], [Sets] (sets.rs): declared sets as binary fuse filters.
    - [Predicate], [PredicateSpec], [Pruning], [RowPredicate] (scan/predicate.rs):
      the predicates, their meaning, pruning by statistics, rows' predicates.
    - [Scan], [ScanParts], [Returned] (scan/mod.rs, the shared half of
      scan/scanner.rs): what a scan is asked, checks and returns, for any reader.
    - [Columnar], [ColumnarSpec], [ColumnarScan] (scan/columnar.rs): the column-store
      reader, with what it caches between requests; [Reader] (the [ChunkReader] trait):
      a record of operations and the class [ReaderLaws] execution relies on, which the
      column-store reader is an instance of.
    - [Plan] (query/plan.rs, its data), [Prepare], [Tables], [Page] (src/execution):
      what is settled before a row is read; a block range of every table plan; the
      loop over ranges. [KeyCells], [Follow], [TablesSpec], [TablesRange], [PageSpec]
      are their theorems.

    ** What the theorems show

    - Scans: the column-store reader returns exactly the selected rows, in order, with
      positions and tags ([columnar_scan_spec], [columnar_positions_spec]), refuses
      what it must in order ([columnar_scan_refuses]), and its caches keep an invariant
      and change no answer ([open_tables_invariant], [open_tables_irrelevant]).
    - Predicates: a mask says what the predicate means at every stored type
      ([evaluate_spec], [row_evaluate_spec], [check_stored_type_spec]); no row group
      with a matching row is pruned and a proved predicate may be dropped
      ([can_skip_sound], [can_skip_row_group_sound], [matches_every_value_sound],
      [without_proven_spec], [listed_union_sound]).
    - Joins and filters: each form a relation's filter takes picks exactly the rows
      related to a source row ([semi_join_masks_spec], [children_masks_spec],
      [parents_masks_spec], [key_filter_spec], [hierarchical_filter_spec],
      [for_rows_spec], [forms_agree], [has_block_within_spec], [PairSet_contains_spec]).
    - A block range of a query holds exactly the matched and the related rows
      ([scan_tables_spec]), whichever reader satisfies [ReaderLaws]; page selection
      ends ([select_page_ends]).
    - Weights and pages: [compute_block_weights_spec], [accumulate_dedup_spec],
      [selection_spec]; order: [ro_sort_spec], [prepared_keys_agree]; the response's
      tables, the fork check and the block index ([output_tables_spec],
      [check_parent_block_spec], [BlockIndex_build_spec], [position_is_index]).
    - Values: [stored_keys_match_declared_value], [fuse8_contains_in_bounds],
      [encode_base58_spec], [column_type_roundtrip], [resolve_spec].
    ** Not modelled

    The parquet row-group path of scan/scanner.rs, scan/columns.rs and scan/chunk.rs
    (bound to the parquet crate's decoder; execution is proved against [ReaderLaws]
    instead), the request parser and the plan compiler beyond the plan's data, the
    catalog loader, the JSON writers, Arrow IPC framing, rayon's thread pool
    (parallel.rs), profiling and the text of error messages, tests and benches.
*)
From stdpp Require Import base gmap sets list strings sorting.
From Stdlib Require Import ZArith Lia.

(** ** Outcomes

    A Rust function that returns [Result] may succeed, fail with an error, or
    panic: an index out of range, a failed [expect] or assertion. [outcome]
    keeps the three apart, so a theorem that a function returns [Ok] also says
    that it does not panic. *)
Inductive outcome (E A : Type) : Type :=
  | Ok (a : A)
  | Err (e : E)
  | Panic.
Arguments Ok {E A} a.
Arguments Err {E A} e.
Arguments Panic {E A}.

Definition obind {E A B} (x : outcome E A) (f : A -> outcome E B) : outcome E B :=
  match x with
  | Ok a => f a
  | Err e => Err e
  | Panic => Panic
  end.

Definition omap_ok {E A B} (f : A -> B) (x : outcome E A) : outcome E B :=
  obind x (fun a => Ok (f a)).

(** [Option::ok_or_else]. *)
Definition ok_or {E A} (x : option A) (e : E) : outcome E A :=
  match x with Some a => Ok a | None => Err e end.

(** [Option::expect], or an index: absent is a panic. *)
Definition expect {E A} (x : option A) : outcome E A :=
  match x with Some a => Ok a | None => Panic end.

(** [ensure!]: an error unless the condition holds. *)
Definition ensure {E} (b : bool) (e : E) : outcome E unit :=
  if b then Ok tt else Err e.

Declare Scope outcome_scope.
Delimit Scope outcome_scope with outcome.
Notation "'let*' p ':=' x 'in' k" := (obind x (fun p => k))
  (at level 200, p pattern, x at level 100, k at level 200) : outcome_scope.
Open Scope outcome_scope.

(** [iter().map(f).collect::<Result<Vec<_>>>()]: the first failure wins. *)
Fixpoint mapM_ok {E A B} (f : A -> outcome E B) (l : list A) : outcome E (list B) :=
  match l with
  | [] => Ok []
  | a :: l =>
      let* b := f a in
      let* bs := mapM_ok f l in
      Ok (b :: bs)
  end.

(** A [for] loop that threads a state through its body. *)
Fixpoint foldM {E A S} (f : S -> A -> outcome E S) (l : list A) (s : S) : outcome E S :=
  match l with
  | [] => Ok s
  | a :: l => let* s' := f s a in foldM f l s'
  end.

Definition is_ok {E A} (x : outcome E A) : bool :=
  match x with Ok _ => true | _ => false end.

Lemma obind_ok {E A B} (x : outcome E A) (f : A -> outcome E B) b :
  obind x f = Ok b <-> exists a, x = Ok a /\ f a = Ok b.
Proof.
  destruct x; simpl; split; intros H; try naive_solver.
Qed.

Lemma mapM_ok_Forall2 {E A B} (f : A -> outcome E B) l bs :
  mapM_ok f l = Ok bs <-> Forall2 (fun a b => f a = Ok b) l bs.
Proof.
  revert bs; induction l as [|a l IH]; intros bs; simpl.
  - split; [intros [= <-]; constructor | by inversion 1].
  - rewrite obind_ok. setoid_rewrite obind_ok. split.
    + intros (b & Hb & bs' & Hbs & [= <-]). constructor; [done | by apply IH].
    + inversion 1; subst. eexists; split; [done|].
      eexists; split; [by apply IH | done].
Qed.

Lemma mapM_ok_pure {E A B} (f : A -> outcome E B) (g : A -> B) l :
  Forall (fun a => f a = Ok (g a)) l -> mapM_ok f l = Ok (g <$> l).
Proof.
  intros H. apply mapM_ok_Forall2. induction H; simpl; by constructor.
Qed.

(** A loop over the row numbers that decides a property of each. *)
Lemma mapM_seq_decides {E} (f : nat -> outcome E bool) (P : nat -> Prop) n :
  (forall i, i < n -> exists b, f i = Ok b /\ (b = true <-> P i)) ->
  exists bs, mapM_ok f (seq 0 n) = Ok bs /\ length bs = n /\
    forall i, i < n -> bs !! i = Some true <-> P i.
Proof.
  intros H. assert (Hgen : forall k, k <= n -> exists bs, mapM_ok f (seq (n - k) k) = Ok bs /\
    length bs = k /\ forall i, i < k -> bs !! i = Some true <-> P (n - k + i)).
  { induction k as [|k IH]; intros Hk.
    { exists []. split_and!; [done|done|lia]. }
    destruct IH as (bs & Eb & Hl & Hb); [lia|]. destruct (H (n - S k)) as (b & Ef & Hf); [lia|].
    exists (b :: bs). cbn [seq mapM_ok]. rewrite Ef; cbn [obind].
    replace (S (n - S k)) with (n - k) by lia. rewrite Eb. split_and!; [done|cbn; lia|].
    intros [|i] Hi; cbn.
    - rewrite Nat.add_0_r, <- Hf. naive_solver.
    - rewrite Hb by lia. by replace (n - S k + S i) with (n - k + i) by lia. }
  destruct (Hgen n (Nat.le_refl n)) as (bs & Eb & Hl & Hb). rewrite Nat.sub_diag in Eb, Hb. eauto.
Qed.

Lemma foldM_ext {E A S} (f g : S -> A -> outcome E S) (l : list A) s :
  (forall s a, a ∈ l -> f s a = g s a) -> foldM f l s = foldM g l s.
Proof.
  revert s. induction l as [|a l IH]; intros s Hfg; [done|]. cbn [foldM]. rewrite Hfg by left.
  destruct (g s a) as [s'| |]; [|done..]. apply IH. intros; apply Hfg. by right.
Qed.

Lemma foldM_app {E A S} (f : S -> A -> outcome E S) l1 l2 s :
  foldM f (l1 ++ l2) s = obind (foldM f l1 s) (foldM f l2).
Proof.
  revert s; induction l1 as [|a l1 IH]; intros s; simpl; [done|].
  destruct (f s a); simpl; [apply IH | done | done].
Qed.

(** Invert every successful step of a monadic computation. *)
Ltac inv_ok :=
  repeat match goal with
  | H : obind _ _ = Ok _ |- _ =>
      let a := fresh "a" in let Ha := fresh "Hok" in
      apply obind_ok in H; destruct H as (a & Ha & H)
  | H : Ok _ = Ok _ |- _ => injection H as H; subst
  | H : Err _ = Ok _ |- _ => discriminate H
  | H : Panic = Ok _ |- _ => discriminate H
  | H : expect ?o = Ok _ |- _ =>
      let E := fresh "E" in destruct o eqn:E; simpl in H
  | H : ok_or ?o _ = Ok _ |- _ =>
      let E := fresh "E" in destruct o eqn:E; simpl in H
  | H : ensure ?b _ = Ok _ |- _ =>
      let E := fresh "E" in destruct b eqn:E; simpl in H
  end.

(** Two computations that go on the same way from the same outcome. *)
Lemma obind_ext {E A B} (x : outcome E A) (f g : A -> outcome E B) : (forall a, f a = g a) -> obind x f = obind x g.
Proof. intros Hf. destruct x; cbn; auto. Qed.

(** ** Checks *)

(** A check that passes exactly when [P] holds, refuses with an error of [E], and does
    not panic. *)
Definition settles {Er A} (P : Prop) (E : Er -> Prop) (x : outcome Er A) : Prop :=
  match x with Ok _ => P | Err e => ~ P /\ E e | Panic => False end.

Lemma settles_iff {Er A} (P Q : Prop) (E : Er -> Prop) (x : outcome Er A) : settles P E x -> (P <-> Q) -> settles Q E x.
Proof. destruct x; cbn; tauto. Qed.

Lemma settles_ensure {Er} b (P : Prop) (E : Er -> Prop) e : (b = true <-> P) -> E e -> settles P E (ensure b e).
Proof. intros Hb He. destruct b; cbn; [by apply Hb|]. split; [|done]. by intros ?%Hb. Qed.

Lemma settles_then {Er A B} (P Q : Prop) (E : Er -> Prop) (x : outcome Er A) (y : outcome Er B) : settles P E x -> settles Q E y -> settles (P /\ Q) E (let* _ := x in y).
Proof. destruct x; cbn; [|tauto..]. destruct y; cbn; tauto. Qed.

Lemma settles_each {Er A} (P : A -> Prop) (E : Er -> Prop) (f : unit -> A -> outcome Er unit) l :
  (forall a, a ∈ l -> settles (P a) E (f tt a)) -> settles (Forall P l) E (foldM f l tt).
Proof.
  induction l as [|a l IH]; intros Hf; [constructor|]. cbn [foldM].
  eapply settles_iff; [|symmetry; apply Forall_cons]. pose proof (Hf a ltac:(left)) as Ha.
  destruct (f tt a) as [[]|e|]; cbn in *; [|tauto..].
  specialize (IH ltac:(intros; apply Hf; by right)). destruct (foldM f l tt); cbn in *; tauto.
Qed.

(** A check of what an earlier one returned. *)
Lemma settles_bind {Er A B} (P Q : Prop) (E : Er -> Prop) (x : outcome Er A) (f : A -> outcome Er B) :
  settles P E x -> (forall a, x = Ok a -> settles Q E (f a)) -> settles (P /\ Q) E (obind x f).
Proof. destruct x as [a|e|]; cbn; [|tauto..]. intros HP HQ. specialize (HQ a eq_refl). destruct (f a); cbn in *; tauto. Qed.

Lemma settles_map {Er A B} (P : A -> Prop) (E : Er -> Prop) (f : A -> outcome Er B) l :
  (forall a, a ∈ l -> settles (P a) E (f a)) -> settles (Forall P l) E (mapM_ok f l).
Proof.
  induction l as [|a l IH]; intros Hf; [constructor|]. cbn [mapM_ok].
  eapply settles_iff; [|symmetry; apply Forall_cons]. pose proof (Hf a ltac:(left)) as Ha.
  destruct (f a) as [b|e|]; cbn in *; [|tauto..].
  specialize (IH ltac:(intros; apply Hf; by right)). destruct (mapM_ok f l); cbn in *; tauto.
Qed.

Lemma settles_weaken {Er A} (P : Prop) (E E' : Er -> Prop) (x : outcome Er A) : (forall e, E e -> E' e) -> settles P E x -> settles P E' x.
Proof. intros HE. destruct x; cbn; [done| |done]. intros [??]; auto. Qed.

Create HintDb settles.
#[export] Hint Resolve settles_then settles_each : settles.

(** A loop over the row numbers that appends each row's answer, threading a
    state that keeps an invariant. *)
Lemma foldM_rows {E S} (f : list bool * S -> nat -> outcome E (list bool * S)) (I : S -> Prop) (P : nat -> Prop) n :
  (forall out s i, i < n -> I s -> exists b s', f (out, s) i = Ok (out ++ [b], s') /\ I s' /\ (b = true <-> P i)) ->
  forall s, I s -> exists bs s', foldM f (seq 0 n) ([], s) = Ok (bs, s') /\ length bs = n /\ I s' /\
    forall i, i < n -> bs !! i = Some true <-> P i.
Proof.
  intros Hf s Hs. induction n as [|n IH]; [by exists [], s; split_and!; [..|lia]|].
  destruct IH as (bs & s1 & E1 & Hl & H1 & Hb); [intros; apply Hf; auto with lia|].
  rewrite seq_S, foldM_app, E1. cbn [obind foldM Nat.add].
  destruct (Hf bs s1 n ltac:(lia) H1) as (b & s2 & -> & H2 & Hn). exists (bs ++ [b]), s2. cbn [obind].
  split_and!; [done|rewrite length_app; cbn; lia|done|]. intros i Hi. destruct (decide (i = n)) as [->|Hne].
  - rewrite lookup_app_r by lia. rewrite Hl, Nat.sub_diag. cbn. rewrite <- Hn. split; [by intros [= ->]|by intros ->].
  - rewrite lookup_app_l by lia. apply Hb. lia.
Qed.
