(* ===== verification/Machine.v ===== *)
(** Machine integers at their width, their byte encodings, and lexicographic
    comparison of slices. An [n]-bit integer is a [Z]; what Rust does past the
    range (wrap, saturate, refuse) is written out. Bytes are [Z] in [0, 256). *)
From stdpp Require Import base strings list.
From Stdlib Require Import ZArith Lia Ascii.
From S2P Require Import Prelude.

Open Scope Z_scope.

(** ** Widths *)

Definition u64_max : Z := 2 ^ 64 - 1.
Definition is_u64 (z : Z) : Prop := 0 <= z < 2 ^ 64.

(** [x as uN]: the low [bits] bits. *)
Definition as_unsigned (bits : Z) (z : Z) : Z := z mod 2 ^ bits.

(** [x as iN]: the low [bits] bits, read in two's complement. *)
Definition as_signed (bits : Z) (z : Z) : Z :=
  (z + 2 ^ (bits - 1)) mod 2 ^ bits - 2 ^ (bits - 1).

Definition as_u64 : Z -> Z := as_unsigned 64.
Definition as_i64 : Z -> Z := as_signed 64.
Definition as_u32 : Z -> Z := as_unsigned 32.

(** [u64::saturating_add] and [u64::saturating_sub]. *)
Definition sat_add (a b : Z) : Z := Z.min (a + b) u64_max.
Definition sat_sub (a b : Z) : Z := Z.max (a - b) 0.
Definition sat_mul (a b : Z) : Z := Z.min (a * b) u64_max.

(** [u64::wrapping_add], [wrapping_sub] and [wrapping_mul]. *)
Definition wrapping_add (a b : Z) : Z := as_u64 (a + b).
Definition wrapping_sub (a b : Z) : Z := as_u64 (a - b).
Definition wrapping_mul (a b : Z) : Z := as_u64 (a * b).

(** [u64::checked_add] and [checked_sub]. *)
Definition checked_add (a b : Z) : option Z :=
  if a + b <=? u64_max then Some (a + b) else None.
Definition checked_sub (a b : Z) : option Z :=
  if b <=? a then Some (a - b) else None.

(** [div_ceil] on unsigned integers. *)
Definition div_ceil (a b : Z) : Z := (a + b - 1) / b.

Lemma as_unsigned_range bits z : 0 <= bits -> 0 <= as_unsigned bits z < 2 ^ bits.
Proof. intros. unfold as_unsigned. apply Z.mod_pos_bound. lia. Qed.

Lemma as_signed_range bits z :
  0 < bits -> - 2 ^ (bits - 1) <= as_signed bits z < 2 ^ (bits - 1).
Proof.
  intros H. unfold as_signed.
  pose proof (Z.mod_pos_bound (z + 2 ^ (bits - 1)) (2 ^ bits) ltac:(lia)).
  replace (2 ^ bits) with (2 * 2 ^ (bits - 1)) in *; [lia|].
  rewrite <- Z.pow_succ_r by lia. f_equal; lia.
Qed.

Lemma as_unsigned_id bits z : 0 <= z < 2 ^ bits -> as_unsigned bits z = z.
Proof. intros. by apply Z.mod_small. Qed.

Lemma as_signed_id bits z :
  0 < bits -> - 2 ^ (bits - 1) <= z < 2 ^ (bits - 1) -> as_signed bits z = z.
Proof.
  intros Hb H. unfold as_signed.
  assert (2 ^ bits = 2 * 2 ^ (bits - 1)).
  { rewrite <- Z.pow_succ_r by lia. f_equal; lia. }
  rewrite Z.mod_small; lia.
Qed.

(** Casts only see a value through its residue. *)
Lemma as_unsigned_mod bits z z' :
  z mod 2 ^ bits = z' mod 2 ^ bits -> as_unsigned bits z = as_unsigned bits z'.
Proof. done. Qed.

Lemma as_signed_mod bits z z' :
  0 <= bits ->
  z mod 2 ^ bits = z' mod 2 ^ bits -> as_signed bits z = as_signed bits z'.
Proof.
  intros Hb H. unfold as_signed. f_equal.
  rewrite Z.add_mod, H, <- Z.add_mod by lia. done.
Qed.

Lemma as_signed_eqm bits z : 0 < bits -> as_signed bits z mod 2 ^ bits = z mod 2 ^ bits.
Proof.
  intros Hb. unfold as_signed.
  rewrite Zminus_mod, Zmod_mod, <- Zminus_mod. f_equal. lia.
Qed.

Lemma as_unsigned_eqm bits z : as_unsigned bits z mod 2 ^ bits = z mod 2 ^ bits.
Proof. apply Zmod_mod. Qed.

(** Reducing to a narrower width forgets what the wider cast did. *)
Lemma mod_pow_narrow (a b z : Z) :
  0 <= b <= a -> (z mod 2 ^ a) mod 2 ^ b = z mod 2 ^ b.
Proof.
  intros H. replace a with (b + (a - b)) by lia.
  rewrite Z.pow_add_r, Z.rem_mul_r by lia.
  rewrite Z.mul_comm, Z_mod_plus_full. apply Zmod_mod.
Qed.

Lemma sat_add_assoc a b c :
  0 <= a -> 0 <= b -> 0 <= c -> sat_add (sat_add a b) c = sat_add a (sat_add b c).
Proof. unfold sat_add, u64_max. lia. Qed.

Lemma sat_add_comm a b : sat_add a b = sat_add b a.
Proof. unfold sat_add. by rewrite Z.add_comm. Qed.

Lemma sat_add_range a b : 0 <= a -> 0 <= b -> 0 <= sat_add a b <= u64_max.
Proof. unfold sat_add, u64_max. lia. Qed.

(** ** Lexicographic comparison: [Ord] on slices *)

Fixpoint lex_compare {A} (cmp : A -> A -> comparison) (x y : list A) : comparison :=
  match x, y with
  | [], [] => Eq
  | [], _ :: _ => Lt
  | _ :: _, [] => Gt
  | a :: x, b :: y =>
      match cmp a b with Eq => lex_compare cmp x y | c => c end
  end.

(** [Ordering::then]. *)
Definition then_cmp (c d : comparison) : comparison :=
  match c with Eq => d | _ => c end.

Definition is_eq (c : comparison) : bool := match c with Eq => true | _ => false end.
Definition is_ne (c : comparison) : bool := negb (is_eq c).

Abbreviation slice_cmp := (lex_compare Z.compare).

Lemma slice_cmp_eq x y : slice_cmp x y = Eq <-> x = y.
Proof.
  revert y; induction x as [|a x IH]; intros [|b y]; simpl; try done.
  destruct (Z.compare_spec a b); subst.
  - rewrite IH. split; [by intros -> | by intros [= ->]].
  - split; [done | intros [= -> ->]; lia].
  - split; [done | intros [= -> ->]; lia].
Qed.

Lemma slice_cmp_antisym x y : slice_cmp y x = CompOpp (slice_cmp x y).
Proof.
  revert y; induction x as [|a x IH]; intros [|b y]; simpl; try done.
  rewrite (Z.compare_antisym a b). destruct (a ?= b); simpl; auto.
Qed.

Lemma slice_cmp_app x1 x2 y1 y2 :
  length x1 = length y1 ->
  slice_cmp (x1 ++ x2) (y1 ++ y2) = then_cmp (slice_cmp x1 y1) (slice_cmp x2 y2).
Proof.
  revert y1; induction x1 as [|a x1 IH]; intros [|b y1]; simpl; try done.
  intros [= H]. destruct (a ?= b); simpl; auto.
Qed.

Lemma slice_cmp_prefix_lt x y : y <> [] -> slice_cmp x (x ++ y) = Lt.
Proof.
  intros Hy. induction x as [|a x IH]; simpl; [by destruct y|].
  by rewrite Z.compare_refl.
Qed.

Lemma slice_cmp_trans x y z :
  slice_cmp x y = Lt -> slice_cmp y z = Lt -> slice_cmp x z = Lt.
Proof.
  revert y z; induction x as [|a x IH]; intros [|b y] [|c z]; simpl; try done.
  destruct (Z.compare_spec a b), (Z.compare_spec b c); subst; try done; intros.
  - rewrite Z.compare_refl. eauto.
  - by rewrite (proj2 (Z.compare_lt_iff b c)).
  - by rewrite (proj2 (Z.compare_lt_iff a c)).
  - by rewrite (proj2 (Z.compare_lt_iff a c)) by lia.
Qed.

(** ** Byte encodings *)

(** [to_be_bytes] and [to_le_bytes] of an [n]-byte unsigned integer. *)
Fixpoint to_be_bytes (n : nat) (z : Z) : list Z :=
  match n with
  | O => []
  | S n => (z / 256 ^ Z.of_nat n) mod 256 :: to_be_bytes n z
  end.

Fixpoint to_le_bytes (n : nat) (z : Z) : list Z :=
  match n with
  | O => []
  | S n => z mod 256 :: to_le_bytes n (z / 256)
  end.

(** [from_be_bytes] and [from_le_bytes]. *)
Fixpoint from_le_bytes (l : list Z) : Z :=
  match l with
  | [] => 0
  | b :: l => b + 256 * from_le_bytes l
  end.

Definition from_be_bytes (l : list Z) : Z := from_le_bytes (rev l).

Lemma length_to_be_bytes n z : length (to_be_bytes n z) = n.
Proof. induction n; simpl; congruence. Qed.

Lemma length_to_le_bytes n z : length (to_le_bytes n z) = n.
Proof. revert z; induction n; intros; simpl; congruence. Qed.

Lemma to_be_bytes_mod n z k :
  to_be_bytes n (z + k * 256 ^ Z.of_nat n) = to_be_bytes n z.
Proof.
  revert k; induction n as [|n IH]; intros k; [done|]. cbn [to_be_bytes].
  rewrite Nat2Z.inj_succ, Z.pow_succ_r by lia. f_equal.
  - rewrite Z.mul_assoc, Z.div_add by lia. rewrite Z.mod_add by lia. done.
  - rewrite Z.mul_assoc. apply IH.
Qed.

Lemma to_be_bytes_cmp n x y :
  0 <= x < 256 ^ Z.of_nat n -> 0 <= y < 256 ^ Z.of_nat n ->
  slice_cmp (to_be_bytes n x) (to_be_bytes n y) = (x ?= y).
Proof.
  revert x y; induction n as [|n IH]; intros x y Hx Hy.
  { change (256 ^ Z.of_nat 0) with 1 in *. assert (x = 0 /\ y = 0) as [-> ->] by lia. done. }
  rewrite Nat2Z.inj_succ, Z.pow_succ_r in * by lia.
  set (p := 256 ^ Z.of_nat n) in *. assert (0 < p) by (unfold p; lia).
  pose proof (Z.div_mod x p ltac:(lia)) as Ex. pose proof (Z.mod_pos_bound x p ltac:(lia)).
  pose proof (Z.div_mod y p ltac:(lia)) as Ey. pose proof (Z.mod_pos_bound y p ltac:(lia)).
  assert (0 <= x / p < 256) by (split; [apply Z.div_pos; lia | apply Z.div_lt_upper_bound; lia]).
  assert (0 <= y / p < 256) by (split; [apply Z.div_pos; lia | apply Z.div_lt_upper_bound; lia]).
  cbn [to_be_bytes lex_compare]. fold p. rewrite !(Z.mod_small _ 256) by lia.
  assert (to_be_bytes n x = to_be_bytes n (x mod p)) as ->.
  { rewrite Ex at 1. rewrite Z.add_comm, Z.mul_comm. apply to_be_bytes_mod. }
  assert (to_be_bytes n y = to_be_bytes n (y mod p)) as ->.
  { rewrite Ey at 1. rewrite Z.add_comm, Z.mul_comm. apply to_be_bytes_mod. }
  rewrite IH by lia. destruct (Z.compare_spec (x / p) (y / p)) as [E|E|E].
  - destruct (Z.compare_spec (x mod p) (y mod p)); symmetry.
    + apply Z.compare_eq_iff. nia.
    + apply Z.compare_lt_iff. nia.
    + apply Z.compare_gt_iff. nia.
  - symmetry. apply Z.compare_lt_iff. nia.
  - symmetry. apply Z.compare_gt_iff. nia.
Qed.

Lemma from_to_le_bytes n z :
  0 <= z < 256 ^ Z.of_nat n -> from_le_bytes (to_le_bytes n z) = z.
Proof.
  revert z; induction n as [|n IH]; intros z Hz; cbn [to_le_bytes from_le_bytes].
  - change (256 ^ Z.of_nat 0) with 1 in Hz. lia.
  - rewrite Nat2Z.inj_succ, Z.pow_succ_r in Hz by lia.
    rewrite IH; [|split; [apply Z.div_pos; lia | apply Z.div_lt_upper_bound; lia]].
    pose proof (Z.div_mod z 256 ltac:(lia)). lia.
Qed.

Lemma to_le_bytes_inj n x y :
  0 <= x < 256 ^ Z.of_nat n -> 0 <= y < 256 ^ Z.of_nat n ->
  to_le_bytes n x = to_le_bytes n y -> x = y.
Proof.
  intros Hx Hy H. rewrite <- (from_to_le_bytes n x), <- (from_to_le_bytes n y) by done.
  by rewrite H.
Qed.

Lemma to_be_bytes_inj n x y :
  0 <= x < 256 ^ Z.of_nat n -> 0 <= y < 256 ^ Z.of_nat n ->
  to_be_bytes n x = to_be_bytes n y -> x = y.
Proof.
  intros Hx Hy H. apply Z.compare_eq_iff. rewrite <- (to_be_bytes_cmp n) by done.
  rewrite H. by apply slice_cmp_eq.
Qed.

(** Runs of equally long encodings decide equality piece by piece. *)
Lemma app_inj_length {A} (x1 x2 y1 y2 : list A) :
  length x1 = length y1 -> x1 ++ x2 = y1 ++ y2 -> x1 = y1 /\ x2 = y2.
Proof. apply app_inj_1. Qed.

(** Paths of integers written out big-endian, eight bytes an element, compare
    as the paths do. *)
Lemma flat_be_bytes_cmp n xs ys :
  (0 < n)%nat ->
  Forall (fun x => 0 <= x < 256 ^ Z.of_nat n) xs ->
  Forall (fun y => 0 <= y < 256 ^ Z.of_nat n) ys ->
  slice_cmp (xs ≫= to_be_bytes n) (ys ≫= to_be_bytes n) = slice_cmp xs ys.
Proof.
  intros Hn Hxs; revert ys; induction Hxs as [|x xs Hx Hxs IH]; intros ys Hys.
  - destruct ys as [|y ys]; simpl; [done|].
    destruct n; [lia|]. done.
  - destruct Hys as [|y ys Hy Hys]; cbn [mbind list_bind].
    + destruct n; [lia|]. done.
    + rewrite slice_cmp_app by by rewrite !length_to_be_bytes.
      rewrite to_be_bytes_cmp by done. simpl. destruct (x ?= y); simpl; auto.
Qed.

Lemma flat_be_bytes_inj n xs ys :
  (0 < n)%nat ->
  Forall (fun x => 0 <= x < 256 ^ Z.of_nat n) xs ->
  Forall (fun y => 0 <= y < 256 ^ Z.of_nat n) ys ->
  xs ≫= to_be_bytes n = ys ≫= to_be_bytes n -> xs = ys.
Proof.
  intros Hn Hxs Hys H. apply slice_cmp_eq. rewrite <- (flat_be_bytes_cmp n) by done.
  by apply slice_cmp_eq.
Qed.

Create HintDb machine.
Create Rewrite HintDb machine.
#[export] Hint Resolve as_unsigned_range as_signed_range sat_add_range : machine.
#[export] Hint Rewrite length_to_be_bytes length_to_le_bytes : machine.

(** ** Total orders *)

(** A comparison that is a total preorder. *)
Class TotalCmp {A} (cmp : A -> A -> comparison) : Prop := {
  total_flip : forall x y, cmp y x = CompOpp (cmp x y);
  total_trans : forall x y z, cmp x y = Lt -> cmp y z = Lt -> cmp x z = Lt;
  total_eq : forall x y z, cmp x y = Eq -> cmp x z = cmp y z;
}.

#[export] Instance z_total : TotalCmp Z.compare.
Proof.
  split; [apply Z.compare_antisym|intros x y z; rewrite !Z.compare_lt_iff; lia|].
  by intros x y z ->%Z.compare_eq.
Qed.

#[export] Instance nat_total : TotalCmp Nat.compare.
Proof.
  split; [apply Nat.compare_antisym|intros x y z; rewrite !Nat.compare_lt_iff; lia|].
  by intros x y z ->%Nat.compare_eq.
Qed.

#[export] Instance pull_total {A B} (cmp : B -> B -> comparison) (f : A -> B) `{!TotalCmp cmp} :
  TotalCmp (fun x y => cmp (f x) (f y)).
Proof.
  split; [intros; apply total_flip|intros x y z; apply total_trans|intros x y z; apply total_eq].
Qed.

#[export] Instance then_total {A} (c d : A -> A -> comparison) `{!TotalCmp c, !TotalCmp d} :
  TotalCmp (fun x y => then_cmp (c x y) (d x y)).
Proof.
  split.
  - intros x y. rewrite (total_flip (cmp:=c) x y). destruct (c x y); cbn; [apply total_flip|done..].
  - intros x y z. destruct (c x y) eqn:E; cbn; [|intros _|done].
    + rewrite (total_eq (cmp:=c) x y z E). destruct (c y z); cbn; [apply total_trans|done..].
    + destruct (c y z) eqn:E'; cbn; [|intros _|done].
      * intros _. assert (Ezx : c x z = Lt); [|by rewrite Ezx].
        pose proof (total_flip (cmp:=c) x z) as Hf. rewrite <- (total_eq (cmp:=c) y z x E'), (total_flip (cmp:=c) x y), E in Hf.
        by destruct (c x z).
      * by rewrite (total_trans (cmp:=c) x y z E E').
  - intros x y z. destruct (c x y) eqn:E; cbn; [|done..]. intros Ed.
    by rewrite (total_eq (cmp:=c) x y z E), (total_eq (cmp:=d) x y z Ed).
Qed.

#[export] Instance lex_total {A} (cmp : A -> A -> comparison) `{!TotalCmp cmp} : TotalCmp (lex_compare cmp).
Proof.
  split.
  - intros x; induction x as [|a x IH]; intros [|b y]; cbn; try done.
    rewrite (total_flip (cmp:=cmp) a b). destruct (cmp a b); cbn; [apply IH|done..].
  - intros x; induction x as [|a x IH]; intros [|b y] [|c z]; cbn; try done.
    destruct (cmp a b) eqn:E; [|intros _|done].
    + rewrite (total_eq (cmp:=cmp) a b c E). destruct (cmp b c); [apply IH|done..].
    + destruct (cmp b c) eqn:E'; [|intros _|done].
      * intros _. pose proof (total_flip (cmp:=cmp) a c) as Hf.
        rewrite <- (total_eq (cmp:=cmp) b c a E'), (total_flip (cmp:=cmp) a b), E in Hf. by destruct (cmp a c).
      * by rewrite (total_trans (cmp:=cmp) a b c E E').
  - intros x; induction x as [|a x IH]; intros [|b y] [|c z]; cbn; try done.
    destruct (cmp a b) eqn:E; [|done..]. intros Exy. rewrite (total_eq (cmp:=cmp) a b c E).
    destruct (cmp b c); [by apply IH|done..].
Qed.

(** ** Bytes of a text: [str::as_bytes] *)

Definition text_bytes (s : string) : list Z :=
  (fun a => Z.of_nat (nat_of_ascii a)) <$> String.list_ascii_of_string s.

Lemma length_text_bytes s : length (text_bytes s) = String.length s.
Proof. unfold text_bytes. rewrite length_fmap. induction s; simpl; auto. Qed.

Lemma text_bytes_inj s t : text_bytes s = text_bytes t -> s = t.
Proof.
  unfold text_bytes. intros H. rewrite <- (String.string_of_list_ascii_of_string s),
    <- (String.string_of_list_ascii_of_string t). f_equal.
  eapply (list_fmap_eq_inj (fun a => Z.of_nat (nat_of_ascii a))); [|exact H].
  intros a b E. apply Nat2Z.inj in E. rewrite <- (ascii_nat_embedding a), E. apply ascii_nat_embedding.
Qed.

(** [str]'s order: its bytes'. *)
Definition text_cmp (a b : string) : comparison := slice_cmp (text_bytes a) (text_bytes b).

Definition text_le (a b : string) : bool := match text_cmp a b with Gt => false | _ => true end.

#[export] Instance text_total : TotalCmp text_cmp.
Proof. exact (pull_total slice_cmp text_bytes). Qed.

Lemma text_cmp_eq a b : text_cmp a b = Eq <-> a = b.
Proof. unfold text_cmp. rewrite slice_cmp_eq. split; [apply text_bytes_inj|by intros ->]. Qed.
