(* ===== verification/ListLib.v ===== *)
(** Slices as Rust's standard library treats them: sorting, searching a sorted
    slice, dropping repeats, grouping runs. Each function is the documented
    result of the method it names, and the lemmas are what the components
    reason by. *)
From stdpp Require Import base list sorting gmap.
From Stdlib Require Import ZArith Lia Sorting.Sorted.
From S2P Require Import Prelude Machine.

(** ** Sorting *)

Section sort.
Context {A : Type} (leb : A -> A -> bool).

Fixpoint insert_sorted (x : A) (l : list A) : list A :=
  match l with
  | [] => [x]
  | y :: l' => if leb x y then x :: l else y :: insert_sorted x l'
  end.

(** [sort_by]: stable. Where the order is total on the elements,
    [sort_unstable_by] gives the same result (see [sort_by_unique]). *)
Definition sort_by (l : list A) : list A := foldr insert_sorted [] l.

Lemma insert_sorted_Permutation x l : insert_sorted x l ≡ₚ x :: l.
Proof.
  induction l as [|y l IH]; simpl; [done|].
  destruct (leb x y); [done|]. rewrite IH. apply Permutation_swap.
Qed.

Lemma sort_by_Permutation l : sort_by l ≡ₚ l.
Proof.
  induction l as [|x l IH]; simpl; [done|].
  by rewrite insert_sorted_Permutation, IH.
Qed.

Lemma elem_of_sort_by x l : x ∈ sort_by l <-> x ∈ l.
Proof. by rewrite sort_by_Permutation. Qed.

Lemma length_sort_by l : length (sort_by l) = length l.
Proof. apply Permutation_length, sort_by_Permutation. Qed.

Context (leb_total : forall x y, leb x y = true \/ leb y x = true).
Context (leb_trans : forall x y z, leb x y = true -> leb y z = true -> leb x z = true).

Lemma insert_sorted_sorted x l :
  StronglySorted (fun a b => leb a b = true) l ->
  StronglySorted (fun a b => leb a b = true) (insert_sorted x l).
Proof.
  induction 1 as [|y l Hl IH Hy]; simpl; [repeat constructor|].
  destruct (leb x y) eqn:E.
  - constructor; [by constructor|]. constructor; [done|].
    eapply Forall_impl; [exact Hy|]. eauto.
  - constructor; [done|].
    rewrite insert_sorted_Permutation. constructor; [|done].
    destruct (leb_total x y); congruence.
Qed.

Lemma sort_by_sorted l : StronglySorted (fun a b => leb a b = true) (sort_by l).
Proof. induction l; simpl; [constructor | by apply insert_sorted_sorted]. Qed.

(** A sorted permutation is unique where the order tells the elements apart. *)
Lemma sorted_Permutation_unique l1 l2 :
  (forall x y, x ∈ l1 -> y ∈ l1 -> leb x y = true -> leb y x = true -> x = y) ->
  StronglySorted (fun a b => leb a b = true) l1 ->
  StronglySorted (fun a b => leb a b = true) l2 ->
  l1 ≡ₚ l2 -> l1 = l2.
Proof.
  intros Hanti H1; revert l2; induction H1 as [|x l1 Hl1 IH Hx]; intros l2 H2 HP.
  { by apply Permutation_nil_l in HP. }
  destruct H2 as [|y l2 Hl2 Hy]; [by apply Permutation_nil_r in HP|].
  assert (x = y) as ->.
  { assert (Hin : y ∈ x :: l1) by (rewrite HP; left).
    assert (Hin' : x ∈ y :: l2) by (rewrite <- HP; left).
    apply elem_of_cons in Hin as [->|Hin]; [done|].
    apply elem_of_cons in Hin' as [->|Hin']; [done|].
    rewrite Forall_forall in Hx, Hy.
    apply Hanti; [left | by right | |]; [apply Hx | apply Hy]; done. }
  f_equal. apply IH; [|done|by apply Permutation_cons_inv in HP].
  intros a b Ha Hb. apply Hanti; by right.
Qed.

Lemma sort_by_unique l l' :
  (forall x y, x ∈ l -> y ∈ l -> leb x y = true -> leb y x = true -> x = y) ->
  StronglySorted (fun a b => leb a b = true) l' -> l' ≡ₚ l -> sort_by l = l'.
Proof.
  intros Hanti Hs HP. apply sorted_Permutation_unique; [|apply sort_by_sorted|done|].
  - intros x y. rewrite !elem_of_sort_by. apply Hanti.
  - by rewrite sort_by_Permutation.
Qed.
End sort.

Lemma insert_sorted_ext {A} (leb1 leb2 : A -> A -> bool) x l :
  (forall y, y ∈ l -> leb1 x y = leb2 x y) ->
  insert_sorted leb1 x l = insert_sorted leb2 x l.
Proof.
  induction l as [|y l IH]; simpl; intros H; [done|].
  rewrite H by left. destruct (leb2 x y); [done|].
  f_equal. apply IH. intros z Hz. apply H. by right.
Qed.

(** Two comparators that agree on the elements sort them the same way. *)
Lemma sort_by_ext {A} (leb1 leb2 : A -> A -> bool) l :
  (forall x y, x ∈ l -> y ∈ l -> leb1 x y = leb2 x y) -> sort_by leb1 l = sort_by leb2 l.
Proof.
  induction l as [|x l IH]; simpl; intros H; [done|].
  rewrite IH by (intros; apply H; by right). apply insert_sorted_ext.
  intros y Hy. apply elem_of_sort_by in Hy. apply H; [left | by right].
Qed.

(** Ascending integers: [sort_unstable] on a [Vec<u64>]. *)
Definition sort_ints : list Z -> list Z := sort_by Z.leb.

Lemma sort_ints_sorted l : StronglySorted Z.le (sort_ints l).
Proof.
  assert (StronglySorted (fun a b => Z.leb a b = true) (sort_ints l)) as H.
  { apply sort_by_sorted; intros; lia. }
  induction H as [|x l' Hl IH Hx]; constructor; [done|].
  eapply Forall_impl; [exact Hx|]. simpl; intros; lia.
Qed.

(** ** Ascending slices without repeats *)

(** Entries of distinct keys do not overwrite each other. *)
Lemma fold_insert_distinct {K A} `{Countable K} (l : list (K * A)) : NoDup l.*1 ->
  fold_left (fun m e => <[e.1 := e.2]> m) l ∅ = (list_to_map l : gmap K A).
Proof.
  intros Hnd. rewrite <- (right_id_L ∅ (∪) (list_to_map l)). generalize (∅ : gmap K A).
  induction l as [|[key a] l IH]; intros m; cbn [fold_left fst snd]; [|rewrite list_to_map_cons, fmap_cons in *].
  { cbn. by rewrite (left_id_L ∅ (∪)). }
  apply NoDup_cons in Hnd as [Hkey Hnd]. rewrite IH by done. cbn [fst snd].
  rewrite <- insert_union_r by (by apply not_elem_of_list_to_map). by rewrite insert_union_l.
Qed.

Lemma lt_sorted_NoDup (l : list nat) : StronglySorted lt l -> NoDup l.
Proof.
  induction 1 as [|n l Hs IH Hall]; constructor; [|done]. intros Hin. rewrite Forall_forall in Hall. apply Hall in Hin. lia.
Qed.

Lemma sorted_weaken {A} (P Q : A -> A -> Prop) (l : list A) :
  (forall x y, x ∈ l -> y ∈ l -> P x y -> Q x y) -> StronglySorted P l -> StronglySorted Q l.
Proof.
  intros Hpq. induction 1 as [|x l Hl IH Hx]; constructor; [apply IH; intros y z Hy Hz; apply Hpq; by right|].
  rewrite Forall_forall in Hx |- *. intros y Hy. apply Hpq; [by left|by right|by apply Hx].
Qed.

Lemma sorted_sublist {A} (P : A -> A -> Prop) (l k : list A) : l `sublist_of` k -> StronglySorted P k -> StronglySorted P l.
Proof.
  induction 1 as [|x l k Hs IH|x l k Hs IH]; intros Hk; [done| |].
  - apply StronglySorted_inv in Hk as [Hk Hx]. constructor; [by apply IH|]. rewrite Forall_forall in Hx |- *. intros y Hy. apply Hx.
    exact (elem_of_submseteq _ _ _ Hy (sublist_submseteq _ _ Hs)).
  - apply StronglySorted_inv in Hk as [Hk _]. by apply IH.
Qed.

Abbreviation ascending := (StronglySorted Z.lt).

Lemma ascending_NoDup l : ascending l -> NoDup l.
Proof.
  induction 1 as [|x l Hl IH Hx]; constructor; [|done].
  intros Hin. rewrite Forall_forall in Hx. specialize (Hx x Hin). lia.
Qed.

Lemma sorted_NoDup_ascending l : StronglySorted Z.le l -> NoDup l -> ascending l.
Proof.
  induction 1 as [|x l Hl IH Hx]; intros Hnd; constructor.
  - apply NoDup_cons in Hnd as [_ ?]; auto.
  - apply NoDup_cons in Hnd as [Hni _]. rewrite Forall_forall in *.
    intros y Hy. specialize (Hx y Hy). assert (x <> y) by (by intros ->). lia.
Qed.

Lemma ascending_lookup_lt l i j x y :
  ascending l -> l !! i = Some x -> l !! j = Some y -> (i < j)%nat -> x < y.
Proof.
  intros Hs; revert i j; induction Hs as [|z l Hl IH Hz]; intros [|i] [|j]; simpl;
    try done; try lia.
  - intros [= ->] Hj _. rewrite Forall_forall in Hz. apply Hz.
    by eapply list_elem_of_lookup_2.
  - intros Hi Hj ?. eapply IH; eauto. lia.
Qed.

Lemma ascending_ext l1 l2 :
  ascending l1 -> ascending l2 -> (forall x, x ∈ l1 <-> x ∈ l2) -> l1 = l2.
Proof.
  intros H1 H2 Hiff.
  assert (forall l, ascending l -> StronglySorted (fun a b => Z.leb a b = true) l) as Hle.
  { induction 1 as [|x l Hl IH Hx]; constructor; [done|].
    eapply Forall_impl; [exact Hx|]. simpl; lia. }
  apply (sorted_Permutation_unique Z.leb); [intros; lia | auto | auto |].
  apply NoDup_Permutation; auto using ascending_NoDup.
Qed.

Lemma ascending_app l1 l2 :
  ascending l1 -> ascending l2 -> (forall x y, x ∈ l1 -> y ∈ l2 -> x < y) ->
  ascending (l1 ++ l2).
Proof.
  intros H1 H2 Hlt; induction H1 as [|x l1 Hl IH Hx]; simpl; [done|].
  constructor; [apply IH; intros; apply Hlt; [by right|done]|].
  apply Forall_app; split; [done|]. apply Forall_forall. intros y Hy.
  apply Hlt; [left|done].
Qed.

(** The elements of a set, ascending: [into_iter().collect()] and a sort. *)
Definition set_to_ascending (s : gset Z) : list Z := sort_ints (elements s).

Lemma elem_of_set_to_ascending s x : x ∈ set_to_ascending s <-> x ∈ s.
Proof. unfold set_to_ascending, sort_ints. by rewrite elem_of_sort_by, elem_of_elements. Qed.

Lemma set_to_ascending_ascending s : ascending (set_to_ascending s).
Proof.
  apply sorted_NoDup_ascending; [apply sort_ints_sorted|].
  unfold set_to_ascending, sort_ints. rewrite sort_by_Permutation. apply NoDup_elements.
Qed.

(** ** Searching a sorted slice *)

(** The halving loop of [binary_search_by]: the slice's answer lies in the
    [size] elements from [base] on. The fuel is the slice's length: [size]
    shrinks by at least one a round. *)
Fixpoint bisect_from {A} (fuel : nat) (cmp : A -> comparison) (l : list A) (base size : nat) : nat :=
  match fuel with
  | O => base
  | S fuel =>
      if (size <=? 1)%nat then base else
      let half := (size / 2)%nat in
      let mid := (base + half)%nat in
      let base := match cmp <$> l !! mid with Some Gt | None => base | _ => mid end in
      bisect_from fuel cmp l base (size - half)
  end.

(** [binary_search_by]: [Ok] of a matching index ([inl]) or [Err] of where one
    would go ([inr]). *)
Definition bisect {A} (cmp : A -> comparison) (l : list A) : nat + nat :=
  match l with
  | [] => inr O
  | _ =>
      let base := bisect_from (length l) cmp l 0 (length l) in
      match cmp <$> l !! base with
      | Some Eq => inl base
      | Some Lt => inr (S base)
      | _ => inr base
      end
  end.

Definition binary_search_by {A} (cmp : A -> comparison) (l : list A) : option nat :=
  match bisect cmp l with inl i => Some i | inr _ => None end.

Definition binary_search (l : list Z) (x : Z) : option nat :=
  binary_search_by (fun y => y ?= x) l.

(** [partition_point]: the same search for where the predicate stops holding. *)
Definition partition_point {A} (p : A -> bool) (l : list A) : nat :=
  match bisect (fun x => if p x then Lt else Gt) l with inl i | inr i => i end.

(** A slice sorted with respect to a search: what is less comes first, what is
    greater last. *)
Definition search_sorted {A} (cmp : A -> comparison) (l : list A) : Prop :=
  StronglySorted (fun x y => (cmp x = Gt -> cmp y = Gt) /\ (cmp y = Lt -> cmp x = Lt)) l.

Lemma search_sorted_lookup {A} (cmp : A -> comparison) l i j x y :
  search_sorted cmp l -> (i <= j)%nat -> l !! i = Some x -> l !! j = Some y ->
  (cmp x = Gt -> cmp y = Gt) /\ (cmp y = Lt -> cmp x = Lt).
Proof.
  intros Hs; revert i j; induction Hs as [|z l Hl IH Hz]; intros [|i] [|j] Hij Hx Hy;
    simpl in *; try done; try lia; simplify_eq; auto.
  - rewrite Forall_forall in Hz. apply Hz. by eapply list_elem_of_lookup_2.
  - eapply (IH i j); [lia|done|done].
Qed.

(** The loop ends at an element the answer is next to. *)
Lemma bisect_from_spec {A} (cmp : A -> comparison) l fuel base size :
  (size <= S fuel)%nat -> (0 < size)%nat -> (base + size <= length l)%nat ->
  (forall x, (0 < base)%nat -> l !! base = Some x -> cmp x <> Gt) ->
  (forall i x, (base + size <= i)%nat -> search_sorted cmp l -> l !! i = Some x -> cmp x = Gt) ->
  let r := bisect_from fuel cmp l base size in
  (r < length l)%nat /\
  (forall x, (0 < r)%nat -> l !! r = Some x -> cmp x <> Gt) /\
  (forall i x, (r < i)%nat -> search_sorted cmp l -> l !! i = Some x -> cmp x = Gt).
Proof.
  revert base size; induction fuel as [|fuel IH]; intros base size Hf Hs Hl Hb Ha; cbn [bisect_from].
  { assert (size = 1)%nat as -> by lia. split_and!; [lia|done|].
    intros i x Hi. apply Ha. lia. }
  destruct (Nat.leb_spec size 1) as [H1|H1].
  { assert (size = 1)%nat as -> by lia. split_and!; [lia|done|].
    intros i x Hi. apply Ha. lia. }
  assert (Hh : (0 < size / 2 < size)%nat).
  { split; [apply Nat.div_str_pos; lia | apply Nat.div_lt; lia]. }
  assert (Hh2 : (2 * (size / 2) <= size)%nat) by apply Nat.Div0.mul_div_le.
  cbv zeta. generalize dependent (size / 2)%nat. intros half Hh Hh2.
  destruct (lookup_lt_is_Some_2 l (base + half)) as [m Hm]; [lia|]. rewrite Hm; cbn.
  destruct (cmp m) eqn:Em.
  1,2: apply IH; [lia|lia|lia|intros x _ Hx; rewrite Hm in Hx; injection Hx as <-; congruence|];
    intros i x Hi Hss Hx; apply (Ha i x); [lia|done|done].
  apply IH; [lia|lia|lia|done|]. intros i x Hi Hss Hx.
  destruct (decide (base + size <= i)%nat); [by apply (Ha i x)|].
  apply (search_sorted_lookup cmp l (base + half) i m x); [done|lia|done|done|done].
Qed.

Lemma bisect_spec {A} (cmp : A -> comparison) l :
  match bisect cmp l with
  | inl i => exists x, l !! i = Some x /\ cmp x = Eq
  | inr i =>
      search_sorted cmp l ->
      (i <= length l)%nat /\ Forall (fun x => cmp x = Lt) (take i l) /\
      Forall (fun x => cmp x = Gt) (drop i l)
  end.
Proof.
  destruct l as [|y l]; [intros _; split_and!; [done|constructor..]|].
  unfold bisect. set (L := y :: l).
  destruct (bisect_from_spec cmp L (length L) 0 (length L)) as (Hr & Hb & Ha);
    [lia|cbn; lia|lia|intros; lia|intros i x Hi _ Hx; apply lookup_lt_Some in Hx; lia|].
  set (r := bisect_from (length L) cmp L 0 (length L)) in *.
  destruct (lookup_lt_is_Some_2 L r Hr) as [x Hx]. rewrite Hx; cbn [fmap option_fmap option_map].
  destruct (cmp x) eqn:Ex.
  - eauto.
  - intros Hss. split_and!; [lia| |].
    + apply Forall_lookup. intros i z Hz. apply lookup_take_Some in Hz as [Hz Hi].
      by apply (search_sorted_lookup cmp L i r z x Hss); [lia|..].
    + apply Forall_lookup. intros i z Hz. rewrite lookup_drop in Hz. apply (Ha (S r + i)%nat z); [lia|done|done].
  - intros Hss. split_and!; [lia| |].
    + destruct (decide (0 < r)%nat) as [Hr0|]; [by destruct (Hb x Hr0 Hx)|].
      assert (r = 0)%nat as -> by lia. constructor.
    + apply Forall_lookup. intros i z Hz. rewrite lookup_drop in Hz.
      apply (search_sorted_lookup cmp L r (r + i) x z Hss); [lia|done..].
Qed.

Lemma binary_search_by_Some {A} (cmp : A -> comparison) l i :
  binary_search_by cmp l = Some i -> exists x, l !! i = Some x /\ cmp x = Eq.
Proof.
  unfold binary_search_by. pose proof (bisect_spec cmp l) as H.
  destruct (bisect cmp l); [by intros [= ->]|done].
Qed.

Lemma binary_search_by_is_Some {A} (cmp : A -> comparison) l :
  search_sorted cmp l ->
  is_Some (binary_search_by cmp l) <-> exists x, x ∈ l /\ cmp x = Eq.
Proof.
  intros Hs. unfold binary_search_by. pose proof (bisect_spec cmp l) as H.
  destruct (bisect cmp l) as [i|i].
  - split; [|eauto]. intros _. destruct H as (x & Hx & E). exists x.
    split; [by eapply list_elem_of_lookup_2|done].
  - split; [by intros []|]. intros (x & Hx & E). exfalso.
    destruct (H Hs) as (_ & Hl & Hg). rewrite <- (take_drop i l) in Hx.
    rewrite Forall_forall in Hl, Hg.
    apply elem_of_app in Hx as [Hx|Hx]; [apply Hl in Hx|apply Hg in Hx]; congruence.
Qed.

Lemma ascending_search_sorted l x : StronglySorted Z.le l -> search_sorted (fun y => y ?= x) l.
Proof.
  induction 1 as [|z l Hl IH Hz]; constructor; [done|].
  eapply Forall_impl; [exact Hz|]. intros y Hy; cbn. rewrite !Z.compare_gt_iff, !Z.compare_lt_iff. lia.
Qed.

Lemma ascending_le l : ascending l -> StronglySorted Z.le l.
Proof.
  induction 1 as [|z l Hl IH Hz]; constructor; [done|].
  eapply Forall_impl; [exact Hz|]. cbn; lia.
Qed.

Lemma binary_search_Some l x i : binary_search l x = Some i -> l !! i = Some x.
Proof.
  intros (y & Hy & E)%binary_search_by_Some. apply Z.compare_eq_iff in E. by subst.
Qed.

Lemma binary_search_None l x : StronglySorted Z.le l -> binary_search l x = None -> x ∉ l.
Proof.
  intros Hs H Hin. assert (is_Some (binary_search l x)) as [i Hi]; [|congruence].
  apply binary_search_by_is_Some; [by apply ascending_search_sorted|].
  exists x. split; [done|]. apply Z.compare_refl.
Qed.

(** Where a predicate holds for a front of the slice and fails behind it, the
    partition point is the front's end. *)
Lemma partition_point_spec {A} (R : A -> A -> Prop) (p : A -> bool) l :
  (forall x y, R x y -> p y = true -> p x = true) -> StronglySorted R l ->
  (partition_point p l <= length l)%nat /\
  Forall (fun x => p x = true) (take (partition_point p l) l) /\
  Forall (fun x => p x = false) (drop (partition_point p l) l).
Proof.
  intros Hmono Hs. unfold partition_point.
  pose proof (bisect_spec (fun x => if p x then Lt else Gt) l) as H.
  destruct (bisect _ l) as [i|i].
  { destruct H as (x & _ & E). by destruct (p x). }
  destruct H as (Hi & Hl & Hg).
  { induction Hs as [|z l Hl IH Hz]; constructor; [done|].
    eapply Forall_impl; [exact Hz|]. intros y Hy; cbn. specialize (Hmono z y Hy).
    destruct (p z), (p y); try done; naive_solver. }
  split_and!; [done| |].
  - eapply Forall_impl; [exact Hl|]. cbn. intros x. by destruct (p x).
  - eapply Forall_impl; [exact Hg|]. cbn. intros x. by destruct (p x).
Qed.

(** ** Repeats and runs *)

(** [dedup_by] on consecutive elements. *)
Fixpoint dedup {A} (eqb : A -> A -> bool) (l : list A) : list A :=
  match l with
  | [] => []
  | x :: l' =>
      match dedup eqb l' with
      | y :: r => if eqb x y then x :: r else x :: y :: r
      | [] => [x]
      end
  end.

Lemma dedup_head {A} (eqb : A -> A -> bool) x l :
  exists r, dedup eqb (x :: l) = x :: r.
Proof. simpl. destruct (dedup eqb l) as [|y r]; [eauto|]. destruct (eqb x y); eauto. Qed.

Lemma elem_of_dedup {A} (eqb : A -> A -> bool) x l :
  (forall a b, eqb a b = true <-> a = b) -> x ∈ dedup eqb l <-> x ∈ l.
Proof.
  intros Heq; induction l as [|y l IH]; [done|].
  simpl. destruct (dedup eqb l) as [|z r] eqn:E.
  - rewrite !elem_of_cons, <- IH. done.
  - destruct (eqb y z) eqn:Eb.
    + apply Heq in Eb as ->. rewrite (elem_of_cons l), <- IH, !elem_of_cons. naive_solver.
    + rewrite (elem_of_cons l), <- IH, !elem_of_cons. naive_solver.
Qed.

Lemma dedup_sorted_ascending l : StronglySorted Z.le l -> ascending (dedup Z.eqb l).
Proof.
  induction 1 as [|x l Hl IH Hx]; simpl; [constructor|].
  destruct (dedup Z.eqb l) as [|y r] eqn:E; [repeat constructor|].
  assert (Hy : y ∈ l).
  { rewrite <- (elem_of_dedup Z.eqb), E by (intros; apply Z.eqb_eq). left. }
  rewrite Forall_forall in Hx. specialize (Hx y Hy).
  apply StronglySorted_inv in IH as [IH Hr].
  destruct (Z.eqb_spec x y) as [->|]; [by constructor|].
  constructor; [by constructor|]. constructor; [lia|].
  eapply Forall_impl; [exact Hr|]. simpl; lia.
Qed.

(** [chunk_by]: maximal runs of consecutive elements [same] relates. *)
Fixpoint chunk_by {A} (same : A -> A -> bool) (l : list A) : list (list A) :=
  match l with
  | [] => []
  | x :: l' =>
      match chunk_by same l' with
      | (y :: g) :: gs => if same x y then (x :: y :: g) :: gs else [x] :: (y :: g) :: gs
      | gs => [x] :: gs
      end
  end.

Lemma chunk_by_concat {A} (same : A -> A -> bool) l : concat (chunk_by same l) = l.
Proof.
  induction l as [|x l IH]; simpl; [done|].
  destruct (chunk_by same l) as [|[|y g] gs]; simpl in *; subst; try done.
  destruct (same x y); done.
Qed.

Lemma chunk_by_nonempty {A} (same : A -> A -> bool) l : Forall (fun g => g <> []) (chunk_by same l).
Proof.
  induction l as [|x l IH]; simpl; [constructor|].
  destruct (chunk_by same l) as [|[|y g] gs]; [repeat constructor; done|..].
  - constructor; done.
  - destruct (same x y); inversion IH; constructor; done.
Qed.

Lemma filter_strongly_sorted {A} (R : A -> A -> Prop) (P : A -> Prop) `{!forall x, Decision (P x)} l :
  StronglySorted R l -> StronglySorted R (filter P l).
Proof.
  induction 1 as [|x l _ IH Hx]; [constructor|]. rewrite filter_cons. case_decide; [|done]. constructor; [done|].
  apply Forall_forall. intros y [_ Hy]%list_elem_of_filter. rewrite Forall_forall in Hx. auto.
Qed.

(** Every position of a list with its element, as [iter().enumerate()]. *)
Definition enumerate {A} (l : list A) : list (nat * A) := zip (seq 0 (length l)) l.

Lemma elem_of_enumerate {A} (l : list A) i x : (i, x) ∈ enumerate l <-> l !! i = Some x.
Proof.
  unfold enumerate. rewrite list_elem_of_lookup. split.
  - intros [j Hj]. apply lookup_zip_with_Some in Hj as (a & b & [= -> ->] & Ha & Hb).
    apply lookup_seq in Ha as [-> _]. done.
  - intros H. exists i. apply lookup_zip_with_Some. exists i, x. split_and!; try done.
    apply lookup_seq. split; [done|]. by eapply lookup_lt_Some.
Qed.

Lemma elem_of_concat {A} (x : A) ll : x ∈ concat ll <-> exists l, x ∈ l /\ l ∈ ll.
Proof.
  rewrite !list_elem_of_In, in_concat. setoid_rewrite list_elem_of_In. naive_solver.
Qed.

(** Sorting by a comparison that agrees with a total one on the elements. *)
Lemma sort_by_cmp {A} (cmp total : A -> A -> comparison) `{!TotalCmp total} l :
  (forall x y, x ∈ l -> y ∈ l -> cmp x y = total x y) ->
  let sorted := sort_by (fun a b => negb (bool_decide (cmp a b = Gt))) l in
  sorted ≡ₚ l /\ StronglySorted (fun a b => cmp a b <> Gt) sorted.
Proof.
  intros Hext. rewrite (sort_by_ext _ (fun a b => negb (bool_decide (total a b = Gt)))) by (intros; by rewrite Hext).
  set (sorted := sort_by _ l). assert (Hp : sorted ≡ₚ l) by apply sort_by_Permutation. split; [done|].
  assert (Hs : StronglySorted (fun a b => negb (bool_decide (total a b = Gt)) = true) sorted).
  { apply sort_by_sorted.
    - intros x y. rewrite !negb_true_iff, !bool_decide_eq_false, (total_flip (cmp:=total) x y).
      destruct (total x y); [by left|by left|by right].
    - intros x y z. rewrite !negb_true_iff, !bool_decide_eq_false. intros Hxy Hyz Hxz.
      assert (Hzx : total z x = Lt) by by rewrite (total_flip (cmp:=total) x z), Hxz.
      destruct (total x y) eqn:E; [|clear Hxy|done].
      + rewrite (total_eq (cmp:=total) x y z E) in Hxz. done.
      + rewrite (total_flip (cmp:=total) z y) in Hyz. rewrite (total_trans (cmp:=total) z x y Hzx E) in Hyz. done. }
  assert (Hin : forall x, x ∈ sorted -> x ∈ l) by (intros x; by rewrite Hp).
  clearbody sorted. clear Hp. induction Hs as [|x s Hs IH Hx]; constructor.
  - apply IH. intros y Hy. apply Hin. by right.
  - rewrite Forall_forall in Hx |- *. intros y Hy. specialize (Hx y Hy).
    rewrite negb_true_iff, bool_decide_eq_false in Hx. rewrite Hext; [done|apply Hin; by left|apply Hin; by right].
Qed.

Lemma StronglySorted_seq start n : StronglySorted lt (seq start n).
Proof.
  revert start. induction n as [|n IH]; intros start; cbn; constructor; [done|]. apply Forall_forall. intros x Hx%elem_of_seq. lia.
Qed.
