(* ===== verification/Errors.v ===== *)
(** The kinds an error carries (src/error.rs) and the error type the engine's
    functions return. The message text is not part of the contract (INV-E6) and
    is not modelled, but for [UnexpectedBaseBlock], whose text is. *)
From stdpp Require Import base strings list.
From Stdlib Require Import ZArith.
From S2P Require Import Prelude.

(** [src/src/error.rs:17-77] ErrorKind. *)
Inductive ErrorKind : Type :=
  | MalformedRequest
  | UnknownDataset
  | UnknownTable
  | UnknownFilter
  | UnknownFieldGroup
  | UnknownField
  | InvalidBlockRange
  | InvalidBlockNumber
  | TooManyItemRequests
  | TooManyBloomValues
  | ConflictingFilters
  | InvalidHex
  | DiscriminatorTooLong
  | InvalidFilterValue
  | UnknownSet
  | InvalidSet
  | SetCanaryMismatch
  | SetFieldNotSelected
  | RequestTooLarge
  | UnsupportedRequestField
  | TableNotFound
  | ColumnNotFound
  | UnexpectedBaseBlockKind
  | UnsupportedKeyType
  | MalformedChunkData.

#[export] Instance ErrorKind_eq_dec : EqDecision ErrorKind.
Proof. solve_decision. Defined.

(** [src/src/error.rs:80-109] ErrorKind::as_str. *)
Definition as_str (k : ErrorKind) : string :=
  match k with
  | MalformedRequest => "MalformedRequest"
  | UnknownDataset => "UnknownDataset"
  | UnknownTable => "UnknownTable"
  | UnknownFilter => "UnknownFilter"
  | UnknownFieldGroup => "UnknownFieldGroup"
  | UnknownField => "UnknownField"
  | InvalidBlockRange => "InvalidBlockRange"
  | InvalidBlockNumber => "InvalidBlockNumber"
  | TooManyItemRequests => "TooManyItemRequests"
  | TooManyBloomValues => "TooManyBloomValues"
  | ConflictingFilters => "ConflictingFilters"
  | InvalidHex => "InvalidHex"
  | DiscriminatorTooLong => "DiscriminatorTooLong"
  | InvalidFilterValue => "InvalidFilterValue"
  | UnknownSet => "UnknownSet"
  | InvalidSet => "InvalidSet"
  | SetCanaryMismatch => "SetCanaryMismatch"
  | SetFieldNotSelected => "SetFieldNotSelected"
  | RequestTooLarge => "RequestTooLarge"
  | UnsupportedRequestField => "UnsupportedRequestField"
  | TableNotFound => "TableNotFound"
  | ColumnNotFound => "ColumnNotFound"
  | UnexpectedBaseBlockKind => "UnexpectedBaseBlock"
  | UnsupportedKeyType => "UnsupportedKeyType"
  | MalformedChunkData => "MalformedChunkData"
  end.

(** [src/src/error.rs:111-122] ErrorKind::is_validation. *)
Definition is_validation (k : ErrorKind) : bool :=
  match k with
  | TableNotFound | ColumnNotFound | UnexpectedBaseBlockKind
  | UnsupportedKeyType | MalformedChunkData => false
  | _ => true
  end.

(** [src/src/output/fork.rs:19-24] BlockRef. *)
Record BlockRef := { br_number : Z; br_hash : string }.

(** [src/src/output/fork.rs:26-34] UnexpectedBaseBlock. *)
Record UnexpectedBaseBlock := { expected_hash : string; prev_blocks : list BlockRef }.

(** What [anyhow::Error] carries out of the engine: an [EngineError], the fork
    report, or any other failure (an [anyhow::ensure!], an Arrow error). *)
Inductive error : Type :=
  | EngineError (kind : ErrorKind)
  | BaseBlockError (report : UnexpectedBaseBlock)
  | OtherError.

(** [src/src/error.rs:155-170] error_kind. *)
Definition error_kind (err : error) : option ErrorKind :=
  match err with
  | EngineError kind => Some kind
  | BaseBlockError _ => Some UnexpectedBaseBlockKind
  | OtherError => None
  end.

Abbreviation result := (outcome error).

(** Clients switch on the spelling, so no two kinds share one. *)
Lemma as_str_inj k k' : as_str k = as_str k' -> k = k'.
Proof. by destruct k, k'. Qed.
