(* ===== verification/Validated.v ===== *)
(** Computations on a client's request: they succeed with a value of which something
    holds, or refuse the request by a validation error, and neither panic nor fail
    otherwise. [validated] is closed under the ways the code composes them. *)
From stdpp Require Import base list.
From Stdlib Require Import ZArith.
From S2P Require Import Prelude Errors.

Definition validated {A} (P : A -> Prop) (x : result A) : Prop :=
  match x with
  | Ok a => P a
  | Err (EngineError kind) => is_validation kind = true
  | _ => False
  end.

Lemma validated_ret {A} (P : A -> Prop) a : P a -> validated P (Ok a).
Proof. done. Qed.

Lemma validated_bind {A B} (P : A -> Prop) (Q : B -> Prop) x (f : A -> result B) :
  validated P x -> (forall a, P a -> validated Q (f a)) -> validated Q (obind x f).
Proof. destruct x as [a|[k| |]|]; cbn; auto. Qed.

Lemma validated_weaken {A} (P Q : A -> Prop) x : validated P x -> (forall a, P a -> Q a) -> validated Q x.
Proof. destruct x as [a|[k| |]|]; cbn; auto. Qed.

Lemma validated_ensure b kind : is_validation kind = true -> validated (fun _ => b = true) (ensure b (EngineError kind)).
Proof. destruct b; done. Qed.

Lemma validated_ok_or {A} (o : option A) kind : is_validation kind = true -> validated (fun a => o = Some a) (ok_or o (EngineError kind)).
Proof. destruct o; done. Qed.

Lemma validated_expect {A} (o : option A) : is_Some o -> validated (fun a => o = Some a) (expect o).
Proof. by intros [a ->]. Qed.

Lemma validated_err {A} (P : A -> Prop) kind : is_validation kind = true -> validated P (Err (EngineError kind)).
Proof. done. Qed.

(** A loop keeps an invariant, given the elements left. *)
Lemma validated_foldM {A S} (I : S -> Prop) (f : S -> A -> result S) l :
  (forall s a, a ∈ l -> I s -> validated I (f s a)) -> forall s, I s -> validated I (foldM f l s).
Proof.
  induction l as [|a l IH]; intros Hf s Hs; [done|]. cbn [foldM].
  apply (validated_bind I); [apply Hf; [by left|done]|]. intros s' Hs'. apply IH; [|done]. intros s'' b Hb. apply Hf. by right.
Qed.

Lemma validated_mapM {A B} (P : A -> B -> Prop) (f : A -> result B) l :
  (forall a, a ∈ l -> validated (P a) (f a)) -> validated (Forall2 P l) (mapM_ok f l).
Proof.
  induction l as [|a l IH]; intros Hf; [by constructor|]. cbn [mapM_ok].
  apply (validated_bind (P a)); [apply Hf; by left|]. intros b Hb.
  apply (validated_bind (Forall2 P l)); [apply IH; intros; apply Hf; by right|]. intros bs Hbs. by constructor.
Qed.

(** The same, knowing which elements are done. *)
Lemma validated_foldM_prefix {A S} (I : list A -> S -> Prop) (f : S -> A -> result S) l :
  (forall done a rest s, l = done ++ a :: rest -> I done s -> validated (I (done ++ [a])) (f s a)) ->
  forall s, I [] s -> validated (I l) (foldM f l s).
Proof.
  intros Hf s Hs. assert (Hgen : forall rest done s, l = done ++ rest -> I done s -> validated (I l) (foldM f rest s)).
  { induction rest as [|a rest IH]; intros done s' El Hs'; cbn [foldM]; [by rewrite El, app_nil_r|].
    eapply validated_bind; [by eapply Hf|]. intros s'' Hs''. apply (IH (done ++ [a])); [|done]. by rewrite El, <- app_assoc. }
  by apply (Hgen l []).
Qed.

(** What a validated computation returned. *)
Lemma validated_ok {A} (P : A -> Prop) x a : validated P x -> x = Ok a -> P a.
Proof. by intros H ->. Qed.

Lemma validated_total {A} (P : A -> Prop) x :
  validated P x <-> (exists a, x = Ok a /\ P a) \/ exists kind, x = Err (EngineError kind) /\ is_validation kind = true.
Proof.
  split.
  - destruct x as [a|[k| |]|]; cbn; [by left; exists a|by right; exists k|done..].
  - by intros [(a & -> & Ha)|(k & -> & Hk)].
Qed.

#[export] Hint Resolve validated_ret validated_ensure validated_ok_or validated_err : validated.

(** One step of a computation: name what it returned and what is known of it. *)
Tactic Notation "vstep" "as" simple_intropattern(a) simple_intropattern(H) :=
  eapply validated_bind; [first [by eauto with validated|idtac]|intros a H].
