(* ===== verification/Arrow.v ===== *)
(** Arrow data as the engine reads it. An array is its slots and, when it has
    one, its validity buffer; the slot under a null holds whatever was written
    there, as in Arrow. A list array is its offsets into a child array, a large
    one's offsets being wider; a dictionary array is its keys into one; a struct
    array is a child array for each of its fields. Floats, timestamps and decimals,
    which the engine only passes on or renders, are numbers of a primitive type, a
    float being its bits; other types it passes on or reads as bytes are one
    constructor, by name.

    The data is modelled; the compute kernels the engine calls ([filter],
    [gt_eq], ...) are third-party code, so they are a parameter,
    [ArrowKernels], with their documented behaviour stated by [ArrowLaws].
    Reads past an array's end are panics in Rust; the readers here return a
    default, and every caller modelled in this library stays below [array_len]. *)
From stdpp Require Import base countable strings list.
From Stdlib Require Import ZArith Lia Sorting.Sorted.
From S2P Require Import Prelude Machine ListLib.

Open Scope Z_scope.

(** ** Types *)

(** [src/src/integers.rs:17-33] for_each_int_type. *)
Inductive int_type :=
  | UInt64 | UInt32 | UInt16 | UInt8 | Int64 | Int32 | Int16 | Int8.

Inductive text_type := Utf8 | LargeUtf8 | Utf8View.

Inductive time_unit := Second | Millisecond | Microsecond | Nanosecond.

(** Types of a number a slot, other than the integers. *)
Inductive prim_type :=
  | Float64
  | Timestamp (unit : time_unit) (zone : option string)
  | Decimal128 (precision scale : Z).

Inductive data_type :=
  | DInt (t : int_type)
  | DText (t : text_type)
  | DBoolean
  | DFixedSizeBinary (size : Z)
  | DList (element : data_type)
  | DLargeList (element : data_type)
  | DDictionary (key : int_type) (value : data_type)
  | DOther (name : string)
  | DPrim (t : prim_type)
  | DStruct (fields : list (string * data_type)).

#[export] Instance int_type_eq_dec : EqDecision int_type.
Proof. solve_decision. Defined.
#[export] Instance text_type_eq_dec : EqDecision text_type.
Proof. solve_decision. Defined.
#[export] Instance time_unit_eq_dec : EqDecision time_unit.
Proof. solve_decision. Defined.
#[export] Instance prim_type_eq_dec : EqDecision prim_type.
Proof. solve_decision. Defined.

(** A type as a tree, to decide equality of types. *)
Fixpoint type_tree (d : data_type) : gen_tree (int_type + text_type + Z + string + prim_type) :=
  match d with
  | DInt t => GenLeaf (inl (inl (inl (inl t))))
  | DText t => GenLeaf (inl (inl (inl (inr t))))
  | DBoolean => GenNode 0 []
  | DFixedSizeBinary size => GenLeaf (inl (inl (inr size)))
  | DList element => GenNode 1 [type_tree element]
  | DLargeList element => GenNode 2 [type_tree element]
  | DDictionary key value => GenNode 3 [GenLeaf (inl (inl (inl (inl key)))); type_tree value]
  | DOther name => GenLeaf (inl (inr name))
  | DPrim t => GenLeaf (inr t)
  | DStruct fields => GenNode 4 ((fun f : string * data_type => GenNode 0 [GenLeaf (inl (inr f.1)); type_tree f.2]) <$> fields)
  end.

Fixpoint tree_type (t : gen_tree (int_type + text_type + Z + string + prim_type)) : data_type :=
  match t with
  | GenLeaf (inl (inl (inl (inl t)))) => DInt t
  | GenLeaf (inl (inl (inl (inr t)))) => DText t
  | GenLeaf (inl (inl (inr size))) => DFixedSizeBinary size
  | GenLeaf (inl (inr name)) => DOther name
  | GenLeaf (inr t) => DPrim t
  | GenNode 1 [element] => DList (tree_type element)
  | GenNode 2 [element] => DLargeList (tree_type element)
  | GenNode 3 [GenLeaf (inl (inl (inl (inl key)))); value] => DDictionary key (tree_type value)
  | GenNode 4 fields => DStruct ((fun f => match f with GenNode _ [GenLeaf (inl (inr name)); t] => (name, tree_type t) | _ => (""%string, DBoolean) end) <$> fields)
  | GenNode _ _ => DBoolean
  end.

Lemma tree_type_tree : forall d, tree_type (type_tree d) = d.
Proof.
  fix self 1. intros [t|t| |size|element|element|key value|name|t|fields]; cbn; try done; try (by rewrite self).
  f_equal. induction fields as [|[name d] fields IH]; [done|]. rewrite !fmap_cons. f_equal; [cbn; by rewrite self|exact IH].
Qed.

#[export] Instance data_type_eq_dec : EqDecision data_type.
Proof.
  intros c d. destruct (decide (type_tree c = type_tree d)) as [E|Hne]; [left|right].
  - by rewrite <- (tree_type_tree c), E, tree_type_tree.
  - intros ->. done.
Defined.

(** ** Arrays *)

(** Which slots hold a value ([true]); no buffer means all do. *)
Definition null_buffer := option (list bool).

Definition is_valid_in (nulls : null_buffer) (row : nat) : bool :=
  match nulls with None => true | Some valid => default false (valid !! row) end.

Inductive array :=
  | AInt (t : int_type) (values : list Z) (nulls : null_buffer)
  | AText (t : text_type) (values : list string) (nulls : null_buffer)
  | ABool (values : list bool) (nulls : null_buffer)
  | AFixed (size : Z) (values : list (list Z)) (nulls : null_buffer)
  | AList (offsets : list Z) (values : array) (nulls : null_buffer)
  | AOther (name : string) (values : list (list Z)) (nulls : null_buffer)
  | ALarge (offsets : list Z) (values : array) (nulls : null_buffer)
  | ADict (key : int_type) (keys : list Z) (values : array) (nulls : null_buffer)
  | APrim (t : prim_type) (values : list Z) (nulls : null_buffer)
  | AStruct (fields : list (string * array)) (len : nat) (nulls : null_buffer).

(** Induction that reaches a struct's fields. *)
Lemma array_fields_ind (P : array -> Prop) :
  (forall t values nulls, P (AInt t values nulls)) -> (forall t values nulls, P (AText t values nulls)) ->
  (forall values nulls, P (ABool values nulls)) -> (forall size values nulls, P (AFixed size values nulls)) ->
  (forall offsets values nulls, P values -> P (AList offsets values nulls)) -> (forall name values nulls, P (AOther name values nulls)) ->
  (forall offsets values nulls, P values -> P (ALarge offsets values nulls)) ->
  (forall key keys values nulls, P values -> P (ADict key keys values nulls)) -> (forall t values nulls, P (APrim t values nulls)) ->
  (forall fields len nulls, Forall (fun f => P f.2) fields -> P (AStruct fields len nulls)) ->
  forall a, P a.
Proof.
  intros H1 H2 H3 H4 H5 H6 H7 H8 H9 H10. fix self 1.
  intros [| | | |offsets values nulls| |offsets values nulls|key keys values nulls| |fields len nulls];
    [apply H1|apply H2|apply H3|apply H4|apply H5, self|apply H6|apply H7, self|apply H8, self|apply H9|apply H10].
  induction fields as [|[name a] fields IH]; constructor; [apply self|exact IH].
Qed.

Fixpoint array_type (a : array) : data_type :=
  match a with
  | AInt t _ _ => DInt t
  | AText t _ _ => DText t
  | ABool _ _ => DBoolean
  | AFixed size _ _ => DFixedSizeBinary size
  | AList _ values _ => DList (array_type values)
  | AOther name _ _ => DOther name
  | ALarge _ values _ => DLargeList (array_type values)
  | ADict key _ values _ => DDictionary key (array_type values)
  | APrim t _ _ => DPrim t
  | AStruct fields _ _ => DStruct ((fun f : string * array => (f.1, array_type f.2)) <$> fields)
  end.

Definition array_len (a : array) : nat :=
  match a with
  | AInt _ values _ => length values
  | AText _ values _ => length values
  | ABool values _ => length values
  | AFixed _ values _ => length values
  | AList offsets _ _ | ALarge offsets _ _ => pred (length offsets)
  | AOther _ values _ => length values
  | ADict _ keys _ _ => length keys
  | APrim _ values _ => length values
  | AStruct _ len _ => len
  end.

Definition array_nulls (a : array) : null_buffer :=
  match a with
  | AInt _ _ n | AText _ _ n | ABool _ n | AFixed _ _ n | AList _ _ n | AOther _ _ n => n
  | ALarge _ _ n | ADict _ _ _ n | APrim _ _ n | AStruct _ _ n => n
  end.

Definition is_null (a : array) (row : nat) : bool := negb (is_valid_in (array_nulls a) row).

Definition count_nulls (nulls : null_buffer) : nat :=
  match nulls with None => O | Some valid => length (filter (fun b => b = false) valid) end.

Definition null_count (a : array) : nat := count_nulls (array_nulls a).

(** The offsets of a list's row: [offsets[row]..offsets[row + 1]]. *)
Definition offset_at (offsets : list Z) (row : nat) : nat :=
  Z.to_nat (default 0 (offsets !! row)).

(** [values[start..end]]. *)
Definition slice {A} (l : list A) (start stop : nat) : list A :=
  take (stop - start) (drop start l).

(** The part of an array at [start..stop], validity included: [Array::slice]. *)
Definition slice_nulls (nulls : null_buffer) (start stop : nat) : null_buffer :=
  (fun valid => slice valid start stop) <$> nulls.

Fixpoint array_slice (a : array) (start stop : nat) : array :=
  match a with
  | AInt t v n => AInt t (slice v start stop) (slice_nulls n start stop)
  | AText t v n => AText t (slice v start stop) (slice_nulls n start stop)
  | ABool v n => ABool (slice v start stop) (slice_nulls n start stop)
  | AFixed s v n => AFixed s (slice v start stop) (slice_nulls n start stop)
  | AList o v n => AList (slice o start (S stop)) v (slice_nulls n start stop)
  | AOther s v n => AOther s (slice v start stop) (slice_nulls n start stop)
  | ALarge o v n => ALarge (slice o start (S stop)) v (slice_nulls n start stop)
  | ADict t k v n => ADict t (slice k start stop) v (slice_nulls n start stop)
  | APrim t v n => APrim t (slice v start stop) (slice_nulls n start stop)
  | AStruct f len n => AStruct ((fun c : string * array => (c.1, array_slice c.2 start stop)) <$> f) (stop - start) (slice_nulls n start stop)
  end.

(** What a row of an array says, apart from how it is stored; a struct's row says what
    its fields do, in their order. *)
Inductive cell :=
  | CNull
  | CInt (z : Z)
  | CText (s : string)
  | CBool (b : bool)
  | CBytes (l : list Z)
  | CList (l : list cell).

Fixpoint cell_at (a : array) (row : nat) : cell :=
  if is_null a row then CNull else
  match a with
  | AInt _ values _ => CInt (default 0 (values !! row))
  | AText _ values _ => CText (default ""%string (values !! row))
  | ABool values _ => CBool (default false (values !! row))
  | AFixed _ values _ => CBytes (default [] (values !! row))
  | AList offsets values _ | ALarge offsets values _ =>
      let start := offset_at offsets row in
      let stop := offset_at offsets (S row) in
      CList (cell_at values <$> seq start (stop - start))
  | AOther _ values _ => CBytes (default [] (values !! row))
  | ADict _ keys values _ => cell_at values (offset_at keys row)
  | APrim _ values _ => CInt (default 0 (values !! row))
  | AStruct fields _ _ => CList ((fun f : string * array => cell_at f.2 row) <$> fields)
  end.

(** A cell as a tree, to decide equality of cells and to number them. *)
Fixpoint cell_tree (c : cell) : gen_tree (Z + string + (bool + list Z)) :=
  match c with
  | CNull => GenNode 0 []
  | CInt z => GenLeaf (inl (inl z))
  | CText s => GenLeaf (inl (inr s))
  | CBool b => GenLeaf (inr (inl b))
  | CBytes l => GenLeaf (inr (inr l))
  | CList l => GenNode 1 (cell_tree <$> l)
  end.

Fixpoint tree_cell (t : gen_tree (Z + string + (bool + list Z))) : cell :=
  match t with
  | GenNode 0 _ => CNull
  | GenNode _ l => CList (tree_cell <$> l)
  | GenLeaf (inl (inl z)) => CInt z
  | GenLeaf (inl (inr s)) => CText s
  | GenLeaf (inr (inl b)) => CBool b
  | GenLeaf (inr (inr l)) => CBytes l
  end.

Lemma tree_cell_tree : forall c, tree_cell (cell_tree c) = c.
Proof.
  fix self 1. intros [|z|s|b|l|l]; cbn; try done. f_equal.
  induction l as [|c l IH]; [done|]. rewrite !fmap_cons. f_equal; [apply self|exact IH].
Qed.

Lemma cell_tree_inj c d : cell_tree c = cell_tree d -> c = d.
Proof. intros E. by rewrite <- (tree_cell_tree c), E, tree_cell_tree. Qed.

#[export] Instance cell_eq_dec : EqDecision cell.
Proof.
  intros c d. destruct (decide (cell_tree c = cell_tree d)) as [E|Hne]; [left|right].
  - by apply cell_tree_inj.
  - intros ->. done.
Defined.

(** ** Record batches *)

Record RecordBatch := { columns : list (string * array); num_rows : nat }.

(** [RecordBatch::column_by_name] and [Schema::index_of]: the first column of
    that name. *)
Fixpoint assoc {A} (name : string) (l : list (string * A)) : option A :=
  match l with
  | [] => None
  | (n, a) :: l => if decide (n = name) then Some a else assoc name l
  end.

Definition column_by_name (batch : RecordBatch) (name : string) : option array :=
  assoc name (columns batch).

Fixpoint index_of_name {A} (name : string) (l : list (string * A)) : option nat :=
  match l with
  | [] => None
  | (n, _) :: l => if decide (n = name) then Some O else S <$> index_of_name name l
  end.

Definition index_of (batch : RecordBatch) (name : string) : option nat :=
  index_of_name name (columns batch).

Lemma index_of_column batch name :
  column_by_name batch name =
  index_of batch name ≫= fun i => snd <$> columns batch !! i.
Proof.
  destruct batch as [cols rows]. unfold column_by_name, index_of; simpl.
  induction cols as [|[n a] cols IH]; simpl; [done|].
  case_decide; simpl; [done|]. rewrite IH.
  by destruct (index_of_name name cols).
Qed.

(** ** Well-formed data: what Arrow's constructors check *)

Definition int_bits (t : int_type) : Z :=
  match t with
  | UInt64 | Int64 => 64
  | UInt32 | Int32 => 32
  | UInt16 | Int16 => 16
  | UInt8 | Int8 => 8
  end.

Definition int_signed (t : int_type) : bool :=
  match t with
  | UInt64 | UInt32 | UInt16 | UInt8 => false
  | Int64 | Int32 | Int16 | Int8 => true
  end.

(** The values an integer type holds. *)
Definition in_int_type (t : int_type) (z : Z) : Prop :=
  if int_signed t then - 2 ^ (int_bits t - 1) <= z < 2 ^ (int_bits t - 1)
  else 0 <= z < 2 ^ int_bits t.

Definition nulls_ok (nulls : null_buffer) (len : nat) : Prop :=
  match nulls with None => True | Some valid => length valid = len end.

(** The numbers a primitive type holds: the bits of a float, 64 of a timestamp, 128 of a
    decimal, whose scale is no more than its digits. *)
Definition in_prim_type (t : prim_type) (z : Z) : Prop :=
  match t with
  | Float64 => 0 <= z < 2 ^ 64
  | Timestamp _ _ => - 2 ^ 63 <= z < 2 ^ 63
  | Decimal128 _ scale => - 2 ^ 127 <= z < 2 ^ 127 /\ scale <= 38
  end.

Fixpoint array_ok (a : array) : Prop :=
  nulls_ok (array_nulls a) (array_len a) /\
  match a with
  | AInt t values _ => Forall (in_int_type t) values
  | AText _ values _ => Forall (fun s => Z.of_nat (String.length s) < 2 ^ 31) values
  | ABool _ _ => True
  | AFixed size values _ => Forall (fun v => Z.of_nat (length v) = size) values
  | AList offsets values _ | ALarge offsets values _ =>
      array_ok values /\ (0 < length offsets)%nat /\ StronglySorted Z.le offsets /\
      Forall (fun o => 0 <= o <= Z.of_nat (array_len values)) offsets /\
      match a with AList _ _ _ => Forall (fun o => o < 2 ^ 31) offsets | _ => True end
  | AOther _ _ _ => True
  | ADict _ keys values nulls =>
      array_ok values /\
      forall row, (row < length keys)%nat -> is_valid_in nulls row = true ->
        0 <= default 0 (keys !! row) < Z.of_nat (array_len values)
  | APrim t values _ => Forall (in_prim_type t) values
  | AStruct fields len _ =>
      (fix fields_ok (fields : list (string * array)) : Prop :=
         match fields with [] => True | f :: fields => (array_ok f.2 /\ array_len f.2 = len) /\ fields_ok fields end) fields
  end.

Lemma struct_ok fields len nulls :
  array_ok (AStruct fields len nulls) <-> nulls_ok nulls len /\ Forall (fun f => array_ok f.2 /\ array_len f.2 = len) fields.
Proof.
  cbn. split; (intros [Hn Hf]; split; [done|]).
  - induction fields as [|f fields IH]; constructor; [tauto|]. apply IH. tauto.
  - induction Hf; [done|]. by split.
Qed.

(** Offsets of a list are [i32], so it is no longer than one holds. *)
Fixpoint array_i32 (a : array) : Prop :=
  match a with
  | AList offsets values _ => array_i32 values /\ Forall (fun o => o < 2 ^ 31) offsets
  | ALarge _ values _ | ADict _ _ values _ => array_i32 values
  | _ => True
  end.

Lemma array_ok_i32 a : array_ok a -> array_i32 a.
Proof. induction a; cbn; tauto. Qed.

Definition batch_ok (batch : RecordBatch) : Prop :=
  Forall (fun c => array_ok c.2 /\ array_len c.2 = num_rows batch) (columns batch).

Lemma assoc_elem_of {A} name (l : list (string * A)) a :
  assoc name l = Some a -> (name, a) ∈ l.
Proof.
  induction l as [|[n x] l IH]; simpl; [done|].
  case_decide as E; [intros [= ->]; subst; left | intros H; right; auto].
Qed.

Lemma column_ok batch name a :
  batch_ok batch -> column_by_name batch name = Some a ->
  array_ok a /\ array_len a = num_rows batch.
Proof.
  intros Hok H. apply assoc_elem_of in H. unfold batch_ok in Hok.
  rewrite Forall_forall in Hok. apply (Hok _ H).
Qed.

Lemma array_ok_nulls a : array_ok a -> nulls_ok (array_nulls a) (array_len a).
Proof. destruct a; simpl; tauto. Qed.

Lemma count_nulls_zero nulls len row :
  nulls_ok nulls len -> count_nulls nulls = O -> (row < len)%nat ->
  is_valid_in nulls row = true.
Proof.
  destruct nulls as [valid|]; simpl; [|done]. intros Hlen Hc Hrow.
  destruct (lookup_lt_is_Some_2 valid row) as [b Hb]; [lia|]. rewrite Hb; simpl.
  destruct b; [done|]. exfalso.
  assert (false ∈ filter (fun b => b = false) valid) as Hin.
  { apply list_elem_of_filter; split; [done|]. by eapply list_elem_of_lookup_2. }
  destruct (filter _ valid); [by apply not_elem_of_nil in Hin | done].
Qed.

(** ** Boolean masks and the compute kernels *)

(** A [BooleanArray]: per row, its answer, or none where it is null. *)
Abbreviation mask := (list (option bool)).

Definition of_bools (l : list bool) : mask := Some <$> l.
Definition selects (m : option bool) : bool := default false m.
Definition true_count (m : mask) : nat := length (filter (fun b => b = Some true) m).

(** The elements a mask selects; a null selects nothing. *)
Fixpoint masked {A} (m : mask) (l : list A) : list A :=
  match m, l with
  | b :: m, x :: l => if selects b then x :: masked m l else masked m l
  | _, _ => []
  end.

Class ArrowKernels := {
  (** [arrow::compute::filter_record_batch]. *)
  filter_record_batch : RecordBatch -> mask -> RecordBatch;
  (** [RecordBatch::slice], by start and length. *)
  slice_batch : RecordBatch -> nat -> nat -> RecordBatch;
  (** [RecordBatch::project], by column index. *)
  project_batch : RecordBatch -> list nat -> RecordBatch;
  (** [arrow::compute::filter] on a [UInt64Array] without nulls, and on a
      [BooleanArray]. *)
  filter_u64 : list Z -> mask -> list Z;
  filter_bool : mask -> mask -> mask;
  (** [cmp::gt_eq] and [cmp::lt_eq] of a column against a scalar. *)
  cmp_gt_eq : list Z -> null_buffer -> Z -> mask;
  cmp_lt_eq : list Z -> null_buffer -> Z -> mask;
  (** [cmp::eq] of a [BooleanArray] against a scalar. *)
  cmp_eq_bool : list bool -> null_buffer -> bool -> mask;
  (** [cmp::gt_eq] and [cmp::lt_eq] of a text column against a scalar. *)
  cmp_text_gt_eq : list string -> null_buffer -> string -> mask;
  cmp_text_lt_eq : list string -> null_buffer -> string -> mask;
  (** [boolean::and] and [boolean::or_kleene]. *)
  boolean_and : mask -> mask -> mask;
  or_kleene : mask -> mask -> mask;
  (** [arrow::compute::take] of a [BooleanArray], by keys and their validity. *)
  take_mask : mask -> list Z -> null_buffer -> mask;
  (** [arrow::compute::concat]. *)
  concat_arrays : list array -> option array;
  (** [NullBuffer::union] and [Array::logical_nulls]. *)
  null_union : null_buffer -> null_buffer -> null_buffer;
  logical_nulls : array -> null_buffer;
}.

(** Whether a row says something: a dictionary's key may be of a null value. *)
Fixpoint logically_valid (a : array) (row : nat) : bool :=
  is_valid_in (array_nulls a) row &&
  match a with
  | ADict _ keys values _ => logically_valid values (offset_at keys row)
  | _ => true
  end.

(** A null operand gives a null answer. *)
Definition lift_null {A} (nulls : null_buffer) (p : A -> bool) (values : list A) : mask :=
  imap (fun i v => if is_valid_in nulls i then Some (p v) else None) values.

(** Kleene's or: true when either is. *)
Definition or_null (a b : option bool) : option bool :=
  match a, b with
  | Some true, _ | _, Some true => Some true
  | Some false, Some false => Some false
  | _, _ => None
  end.

(** Every row's cell. *)
Definition cells (a : array) : list cell := cell_at a <$> seq 0 (array_len a).

Definition and_null (a b : option bool) : option bool :=
  match a, b with Some a, Some b => Some (a && b) | _, _ => None end.

(** A row of a batch: each column's name and cell. *)
Definition row_of (batch : RecordBatch) (row : nat) : list (string * cell) :=
  (fun c => (c.1, cell_at c.2 row)) <$> columns batch.

Definition rows_of (batch : RecordBatch) : list (list (string * cell)) :=
  row_of batch <$> seq 0 (num_rows batch).

(** The names and types of a batch's columns. *)
Definition batch_schema (batch : RecordBatch) : list (string * data_type) :=
  (fun c => (c.1, array_type c.2)) <$> columns batch.

Class ArrowLaws (K : ArrowKernels) : Prop := {
  filter_record_batch_rows : forall batch m,
    batch_ok batch -> length m = num_rows batch ->
    batch_ok (filter_record_batch batch m) /\
    num_rows (filter_record_batch batch m) = true_count m /\
    rows_of (filter_record_batch batch m) = masked m (rows_of batch) /\
    batch_schema (filter_record_batch batch m) = batch_schema batch;
  slice_batch_rows : forall batch start len,
    batch_ok batch -> (start + len <= num_rows batch)%nat ->
    batch_ok (slice_batch batch start len) /\
    num_rows (slice_batch batch start len) = len /\
    rows_of (slice_batch batch start len) = slice (rows_of batch) start (start + len) /\
    batch_schema (slice_batch batch start len) = batch_schema batch;
  project_batch_columns : forall batch indices,
    Forall (fun i => (i < length (columns batch))%nat) indices ->
    num_rows (project_batch batch indices) = num_rows batch /\
    columns (project_batch batch indices) = omap (fun i => columns batch !! i) indices;
  filter_u64_masked : forall values m,
    length m = length values -> filter_u64 values m = masked m values;
  filter_bool_masked : forall values m,
    length m = length values -> filter_bool values m = masked m values;
  cmp_gt_eq_spec : forall values nulls x,
    cmp_gt_eq values nulls x = lift_null nulls (fun v => x <=? v) values;
  cmp_lt_eq_spec : forall values nulls x,
    cmp_lt_eq values nulls x = lift_null nulls (fun v => v <=? x) values;
  cmp_eq_bool_spec : forall values nulls x,
    cmp_eq_bool values nulls x = lift_null nulls (fun v => Bool.eqb v x) values;
  cmp_text_gt_eq_spec : forall values nulls x,
    cmp_text_gt_eq values nulls x = lift_null nulls (text_le x) values;
  cmp_text_lt_eq_spec : forall values nulls x,
    cmp_text_lt_eq values nulls x = lift_null nulls (fun v => text_le v x) values;
  boolean_and_spec : forall a b,
    length a = length b -> boolean_and a b = zip_with and_null a b;
  or_kleene_spec : forall a b,
    length a = length b -> or_kleene a b = zip_with or_null a b;
  take_mask_spec : forall m keys nulls,
    (forall i, (i < length keys)%nat -> is_valid_in nulls i = true ->
       0 <= default 0 (keys !! i) < Z.of_nat (length m)) ->
    take_mask m keys nulls =
      imap (fun i key => if is_valid_in nulls i then default None (m !! Z.to_nat key) else None) keys;
  concat_arrays_cells : forall l a,
    Forall array_ok l -> concat_arrays l = Some a ->
    array_ok a /\ cells a = concat (cells <$> l) /\ Forall (fun b => array_type b = array_type a) l;
  null_union_valid : forall a b len row,
    nulls_ok a len -> nulls_ok b len ->
    nulls_ok (null_union a b) len /\
    is_valid_in (null_union a b) row = is_valid_in a row && is_valid_in b row /\
    (null_union a b = None <-> a = None /\ b = None);
  logical_nulls_valid : forall a row,
    array_ok a ->
    nulls_ok (logical_nulls a) (array_len a) /\
    ((row < array_len a)%nat -> is_valid_in (logical_nulls a) row = logically_valid a row);
}.

Lemma rows_of_length batch : length (rows_of batch) = num_rows batch.
Proof. unfold rows_of. by rewrite length_fmap, length_seq. Qed.

Lemma true_count_cons b m :
  true_count (b :: m) = ((if selects b then 1 else 0) + true_count m)%nat.
Proof. unfold true_count. destruct b as [[]|]; by cbn. Qed.

Lemma true_count_le m : (true_count m <= length m)%nat.
Proof. apply length_filter. Qed.

Lemma length_masked {A} (m : mask) (l : list A) :
  length m = length l -> length (masked m l) = true_count m.
Proof.
  revert l; induction m as [|b m IH]; intros [|x l]; simpl; try done.
  intros [= H]. rewrite true_count_cons, <- (IH l H). by destruct (selects b).
Qed.

Lemma masked_fmap {A B} (f : A -> B) m l : masked m (f <$> l) = f <$> masked m l.
Proof.
  revert l; induction m as [|b m IH]; intros [|x l]; simpl; try done.
  destruct (selects b); simpl; by rewrite IH.
Qed.

Lemma elem_of_masked {A} m (l : list A) x :
  x ∈ masked m l <-> exists i, m !! i = Some (Some true) /\ l !! i = Some x.
Proof.
  revert l; induction m as [|b m IH]; intros [|y l]; cbn [masked].
  - split; [by intros ?%not_elem_of_nil | intros ([|] & ? & ?); done].
  - split; [by intros ?%not_elem_of_nil | intros ([|] & ? & ?); done].
  - split; [by intros ?%not_elem_of_nil | intros ([|] & ? & ?); done].
  - destruct b as [[]|]; cbn [selects from_option]; unfold id.
    + rewrite elem_of_cons, IH. split.
      * intros [->|(i & ? & ?)]; [by exists O | by exists (S i)].
      * intros ([|i] & ? & ?); simpl in *; [left; congruence | right; eauto].
    + rewrite IH. split.
      * intros (i & ? & ?); by exists (S i).
      * intros ([|i] & ? & ?); simpl in *; [done | eauto].
    + rewrite IH. split.
      * intros (i & ? & ?); by exists (S i).
      * intros ([|i] & ? & ?); simpl in *; [done | eauto].
Qed.

Lemma masked_none {A} m (l : list A) : true_count m = O -> masked m l = [].
Proof.
  revert l; induction m as [|b m IH]; intros [|x l]; simpl; try done.
  rewrite true_count_cons. destruct (selects b); simpl; [done|]. apply IH.
Qed.

Lemma masked_all {A} m (l : list A) :
  length m = length l -> true_count m = length l -> masked m l = l.
Proof.
  revert l; induction m as [|b m IH]; intros [|x l]; simpl; try done.
  intros [= H]. pose proof (true_count_le m).
  rewrite true_count_cons. destruct (selects b); simpl; [|lia].
  intros [= Hc]. f_equal. by apply IH.
Qed.
