(* ===== verification/Catalog.v ===== *)
(** The catalog: what a dataset's tables hold, what a client may send and ask to
    see (crates/metadata/src/types.rs). Checking a catalog is modelled in Loader.v;
    reading it from YAML is serde's. An [IndexMap] is the list of its
    entries in insertion order, a [BTreeMap] in key order. *)
From stdpp Require Import base strings list.
From Stdlib Require Import ZArith Lia Ascii DecimalString DecimalN.
From S2P Require Import Prelude Machine ListLib Errors Arrow.

#[local] Open Scope Z_scope.

(** ** Columns *)

(** [src/crates/metadata/src/types.rs:365-390] ColumnType. *)
Inductive ColumnType :=
  | CtUInt8 | CtUInt16 | CtUInt32 | CtUInt64 | CtInt16 | CtInt32 | CtInt64 | CtFloat64
  | CtBoolean | CtString | CtTimestampSecond | CtTimestampMillisecond
  | CtListUInt8 | CtListUInt32 | CtListString | CtListStruct | CtStruct | CtDecimal128
  | CtFixedBinary (size : Z).

(** [src/crates/metadata/src/types.rs:393-402] ColumnType::is_list. *)
Definition is_list (t : ColumnType) : bool :=
  match t with
  | CtListUInt8 | CtListUInt32 | CtListString | CtListStruct => true
  | _ => false
  end.

(** [src/crates/metadata/src/types.rs:468-491] JsonEncoding. *)
Inductive JsonEncoding :=
  | HexBytes | Base58 | DecimalString | JsonVerbatim | HexNumber | SolanaTxVersion
  | EncodedMillisecond.

#[export] Instance encoding_eq_dec : EqDecision JsonEncoding.
Proof. solve_decision. Defined.

(** [src/crates/metadata/src/types.rs:293-299] WeightSource. *)
Inductive WeightSource :=
  | WeightColumn (name : string)
  | WeightFixed (weight : Z).

(** [src/crates/metadata/src/types.rs:345-356] MemberDescription. *)
Inductive MemberDescription :=
  Member (encoding : option JsonEncoding) (members : option (list (string * MemberDescription))).

(** [src/crates/metadata/src/types.rs:301-343] ColumnDescription. *)
Record ColumnDescription := {
  cd_data_type : ColumnType;
  cd_encoding : option JsonEncoding;
  cd_weight : option WeightSource;
  cd_system : bool;
  cd_fold_case : bool;
  cd_members : option (list (string * MemberDescription));
}.

(** [src/crates/metadata/src/types.rs:359-362] ColumnDescription::folds_case. *)
Definition folds_case (c : ColumnDescription) : bool :=
  cd_fold_case c || bool_decide (cd_encoding c = Some HexBytes).

(** ** What a client may send *)

(** [src/crates/metadata/src/types.rs:529-536] RelationKind. *)
Inductive RelationKind := RkJoin | RkChildren | RkParents.

#[export] Instance relation_kind_eq_dec : EqDecision RelationKind.
Proof. solve_decision. Defined.

(** [src/crates/metadata/src/types.rs:493-510] RelationDef. *)
Record RelationDef := {
  rd_table : string;
  rd_kind : RelationKind;
  rd_key : list string;
  rd_left_key : list string;
  rd_right_key : list string;
}.

(** [src/crates/metadata/src/types.rs:513-519] RelationDef::effective_left_key. *)
Definition effective_left_key (r : RelationDef) : list string :=
  match rd_left_key r with [] => rd_key r | key => key end.

(** [src/crates/metadata/src/types.rs:520-526] RelationDef::effective_right_key. *)
Definition effective_right_key (r : RelationDef) : list string :=
  match rd_right_key r with [] => rd_key r | key => key end.

(** [src/crates/metadata/src/types.rs:538-549] RESERVED_REQUEST_KEYS. *)
Definition RESERVED_REQUEST_KEYS : list string :=
  ["type"; "fromBlock"; "toBlock"; "includeAllBlocks"; "fields"; "parentBlockHash"; "sets"]%string.

(** [src/crates/metadata/src/types.rs:551-554] MAX_DISCRIMINATOR_BYTES. *)
Definition MAX_DISCRIMINATOR_BYTES : nat := 16.

(** [src/crates/metadata/src/types.rs:6-15] SCHEMA_VERSION. *)
Definition SCHEMA_VERSION : string := "v2".

(** [src/crates/metadata/src/types.rs:556-588] SpecialFilter. *)
Inductive SpecialFilter :=
  | Discriminator (by_length : list (string * string))
  | Bloom (column : string) (bytes hashes : Z)
  | RangeGte (column : string)
  | RangeLte (column : string)
  | ColumnAlias (column : string)
  | GteConst (column value : string).

(** [src/crates/metadata/src/types.rs:130-160] RequestSurface. *)
Record RequestSurface := {
  rs_name : option string;
  rs_filters : list string;
  rs_special_filters : list (string * SpecialFilter);
  rs_relations : list (string * RelationDef);
}.

(** [RequestSurface::default()]. *)
Definition empty_surface : RequestSurface :=
  {| rs_name := None; rs_filters := []; rs_special_filters := []; rs_relations := [] |}.

(** [src/crates/metadata/src/types.rs:35-62] Alias. *)
Record Alias := {
  al_table : string;
  al_implicit_filters : list (string * list string);
  al_filters : list string;
  al_special_filters : list (string * SpecialFilter);
  al_relations : list (string * RelationDef);
}.

(** ** What a client may ask to see *)

(** [src/crates/metadata/src/types.rs:640-648] VirtualField. *)
Inductive VirtualField := Roll (columns : list string).

(** [src/crates/metadata/src/types.rs:590-609] FieldMapping. *)
Record FieldMapping := {
  fm_column : string;
  fm_field_key : option string;
  fm_json_name : string;
}.

(** [src/crates/metadata/src/types.rs:612-615] FieldMapping::field. *)
Definition mapping_field (m : FieldMapping) : string := default (fm_column m) (fm_field_key m).

(** [src/crates/metadata/src/types.rs:162-214] OutputSurface. *)
Record OutputSurface := {
  os_name : option string;
  os_fields : list string;
  os_virtual_fields : list (string * VirtualField);
  os_variant_column : option string;
  os_variants : list (string * list (string * list FieldMapping));
}.

(** ** Tables *)

(** [src/crates/metadata/src/types.rs:64-128] TableDescription. *)
Record TableDescription := {
  td_request_surface : option RequestSurface;
  td_output : OutputSurface;
  td_block_number_column : string;
  td_parent_hash_column : option string;
  td_parent_number_column : option string;
  td_address_column : option string;
  td_item_order_keys : list string;
  td_declared_weight_key : option (list string);
  td_sort_key : list string;
  td_columns : list (string * ColumnDescription);
}.

(** [src/crates/metadata/src/types.rs:17-33] DatasetDescription. *)
Record DatasetDescription := {
  dd_version : string;
  dd_name : string;
  dd_tables : list (string * TableDescription);
  dd_aliases : list (string * Alias);
}.

(** [src/crates/metadata/src/types.rs:651-654] DatasetDescription::table. *)
Definition table (d : DatasetDescription) (name : string) : option TableDescription :=
  assoc name (dd_tables d).

(** [src/crates/metadata/src/types.rs:217-227] TableDescription::request. *)
Definition request (t : TableDescription) : RequestSurface :=
  default empty_surface (td_request_surface t).

(** [src/crates/metadata/src/types.rs:229-233] TableDescription::request_name. *)
Definition request_name (t : TableDescription) (key : string) : string :=
  default key (rs_name (request t)).

(** [src/crates/metadata/src/types.rs:618-626] FieldSource. *)
Inductive FieldSource :=
  | SourceColumn (column : string)
  | SourceRoll (columns : list string).

(** [src/crates/metadata/src/types.rs:629-637] FieldSource::columns. *)
Definition source_columns (s : FieldSource) : list string :=
  match s with
  | SourceColumn column => [column]
  | SourceRoll columns => columns
  end.

(** Every mapping of every group of every variant, in order. *)
Definition all_mappings (t : TableDescription) : list FieldMapping :=
  os_variants (td_output t) ≫= fun variant => variant.2 ≫= snd.

(** [src/crates/metadata/src/types.rs:264-278] TableDescription::variant_source. *)
Definition variant_source (t : TableDescription) (field : string) : option string :=
  fm_column <$> head (filter (fun m => mapping_field m = field) (all_mappings t)).

(** [src/crates/metadata/src/types.rs:235-254] TableDescription::field_source. *)
Definition field_source (t : TableDescription) (field : string) : option FieldSource :=
  match assoc field (os_virtual_fields (td_output t)) with
  | Some (Roll columns) => Some (SourceRoll columns)
  | None =>
      match assoc field (td_columns t) with
      | Some _ => Some (SourceColumn field)
      | None => SourceColumn <$> variant_source t field
      end
  end.

(** [src/crates/metadata/src/types.rs:256-262] TableDescription::field_columns. *)
Definition field_columns (t : TableDescription) (field : string) : list string :=
  match field_source t field with
  | Some source => source_columns source
  | None => []
  end.

(** [src/crates/metadata/src/types.rs:280-286] TableDescription::is_selectable_field. *)
Definition is_selectable_field (t : TableDescription) (name : string) : bool :=
  existsb (fun f => bool_decide (f = name)) (os_fields (td_output t)).

(** [src/crates/metadata/src/types.rs:658-667] TableDescription::is_block_table. *)
Definition is_block_table (t : TableDescription) : bool :=
  bool_decide (td_item_order_keys t = []) && bool_decide (td_address_column t = None).

(** [src/crates/metadata/src/types.rs:669-683] TableDescription::weight_key. *)
Definition weight_key (t : TableDescription) : list string :=
  match td_declared_weight_key t with
  | Some declared => declared
  | None =>
      [td_block_number_column t] ++ td_item_order_keys t ++
      option_list (td_address_column t) ++ option_list (os_variant_column (td_output t))
  end.

(** [src/crates/metadata/src/types.rs:685-688] TableDescription::column. *)
Definition column (t : TableDescription) (name : string) : option ColumnDescription :=
  assoc name (td_columns t).

(** ** Column types as text *)

(** A [usize]'s decimal text. *)
Definition print_usize (n : Z) : string := NilZero.string_of_uint (N.to_uint (Z.to_N n)).

(** [str::parse::<usize>]: digits, a plus sign before them or not, that fit. *)
Definition parse_usize (s : string) : option Z :=
  let digits := match s with String "+"%char rest => rest | _ => s end in
  u ← NilZero.uint_of_string digits;
  let n := Z.of_N (N.of_uint u) in
  if n <? 2 ^ 64 then Some n else None.

Definition FIXED_BINARY : string := "fixed_binary_".

(** [src/crates/metadata/src/types.rs:L405-430] ColumnType::serialize. *)
Definition print_column_type (t : ColumnType) : string :=
  match t with
  | CtUInt8 => "uint8" | CtUInt16 => "uint16" | CtUInt32 => "uint32" | CtUInt64 => "uint64"
  | CtInt16 => "int16" | CtInt32 => "int32" | CtInt64 => "int64" | CtFloat64 => "float64"
  | CtBoolean => "boolean" | CtString => "string"
  | CtTimestampSecond => "timestamp_second" | CtTimestampMillisecond => "timestamp_millisecond"
  | CtListUInt8 => "list_uint8" | CtListUInt32 => "list_uint32" | CtListString => "list_string"
  | CtListStruct => "list_struct" | CtStruct => "struct" | CtDecimal128 => "decimal128"
  | CtFixedBinary size => FIXED_BINARY +:+ print_usize size
  end%string.

(** The types whose names are fixed, in the order they are tried. *)
Definition named_types : list ColumnType :=
  [CtUInt8; CtUInt16; CtUInt32; CtUInt64; CtInt16; CtInt32; CtInt64; CtFloat64; CtBoolean; CtString;
   CtTimestampSecond; CtTimestampMillisecond; CtListUInt8; CtListUInt32; CtListString; CtListStruct;
   CtStruct; CtDecimal128].

(** [src/crates/metadata/src/types.rs:L432-466] ColumnType::deserialize. *)
Definition parse_column_type (s : string) : option ColumnType :=
  match head (filter (fun t => print_column_type t = s) named_types) with
  | Some t => Some t
  | None =>
      if String.prefix FIXED_BINARY s
      then CtFixedBinary <$>
             parse_usize (String.substring (String.length FIXED_BINARY)
                            (String.length s - String.length FIXED_BINARY) s)
      else None
  end.

(** ** Properties *)

Lemma parse_print_usize n : 0 <= n < 2 ^ 64 -> parse_usize (print_usize n) = Some n.
Proof.
  intros Hn. unfold parse_usize, print_usize.
  assert (Hd : forall u, u <> Decimal.Nil -> match NilZero.string_of_uint u with
    | String "+"%char rest => rest | _ => NilZero.string_of_uint u end = NilZero.string_of_uint u).
  { intros []; done. }
  assert (Hnil : N.to_uint (Z.to_N n) <> Decimal.Nil).
  { destruct (Z.to_N n); [done|]. apply DecimalPos.Unsigned.to_uint_nonnil. }
  rewrite Hd, NilZero.usu by done.
  cbn [mbind option_bind]. rewrite DecimalN.Unsigned.of_to, Z2N.id by lia.
  by destruct (Z.ltb_spec n (2 ^ 64)); [|lia].
Qed.

Lemma substring_all s : String.substring 0 (String.length s) s = s.
Proof. induction s as [|c s IH]; [done|]. cbn. by rewrite IH. Qed.

Lemma substring_prefix p s :
  String.substring (String.length p) (String.length (p +:+ s) - String.length p) (p +:+ s) = s.
Proof.
  induction p as [|c p IH]; [cbn; by rewrite Nat.sub_0_r, substring_all|]. cbn. exact IH.
Qed.

Lemma prefix_app p s : String.prefix p (p +:+ s) = true.
Proof. induction p as [|c p IH]; [by destruct s|]. change (String c p +:+ s) with (String c (p +:+ s)). cbn. destruct (ascii_dec c c); [exact IH|congruence]. Qed.

(** No fixed name starts as a sized one does. *)
Lemma named_not_sized t size : t ∈ named_types -> print_column_type t <> FIXED_BINARY +:+ size.
Proof.
  assert (Hn : Forall (fun t => String.prefix FIXED_BINARY (print_column_type t) = false) named_types)
    by (repeat constructor).
  rewrite Forall_forall in Hn. intros Ht E. specialize (Hn t Ht). by rewrite E, prefix_app in Hn.
Qed.

(** Every column type is read back from the name it is written under. *)
Theorem column_type_roundtrip t :
  (forall size, t = CtFixedBinary size -> 0 <= size < 2 ^ 64) ->
  parse_column_type (print_column_type t) = Some t.
Proof.
  intros Hsize. destruct t; [reflexivity..|]. unfold parse_column_type.
  assert (filter (fun t => print_column_type t = print_column_type (CtFixedBinary size)) named_types = []) as ->.
  { apply elem_of_nil_inv. intros t [E Ht]%list_elem_of_filter. by apply named_not_sized in E. }
  cbn [head print_column_type]. rewrite prefix_app, substring_prefix, parse_print_usize by eauto. done.
Qed.

Lemma column_type_roundtrip_witness :
  parse_column_type (print_column_type (CtFixedBinary 256)) = Some (CtFixedBinary 256).
Proof. apply column_type_roundtrip. intros size [= <-]. lia. Defined.

(** A name no type has, and a size that is none, are refused. *)
Example parse_column_type_refuses :
  parse_column_type "int8" = None /\ parse_column_type "fixed_binary_" = None /\
  parse_column_type "fixed_binary_18446744073709551616" = None /\
  parse_column_type "fixed_binary_64" = Some (CtFixedBinary 64).
Proof. vm_compute. auto. Qed.
