(* ===== verification/Loader.v ===== *)
(** Checking a catalog (crates/metadata/src/loader.rs): a dataset description is used
    only when it passes [validate]. Reading it from YAML is serde's, whose document
    is a parameter; which of a document's keys the description lacks is
    [unknown_keys]. What an error says is not modelled, so a refusal is
    [OtherError]. *)
From stdpp Require Import base strings list gmap.
From Stdlib Require Import ZArith Lia.
From S2P Require Import Prelude Machine ListLib Errors Arrow Catalog.

#[local] Open Scope Z_scope.

(** [anyhow::ensure!]. *)
Definition require (b : bool) : result () := ensure b OtherError.

(** A loop that only checks. *)
Definition each {A} (check : A -> result ()) (l : list A) : result () := foldM (fun _ a => check a) l tt.

Definition is_some {A} (o : option A) : bool := match o with Some _ => true | None => false end.

(** [table.columns.contains_key]. *)
Definition has_column (table : TableDescription) (name : string) : bool := is_some (column table name).

(** ** Relations *)

(** [src/crates/metadata/src/loader.rs:L979-1005] check_relation: the keys of one side. *)
Definition check_relation_side (side : list string * TableDescription) : result () :=
  let '(keys, table) := side in
  let* _ := each (fun key => require (has_column table key)) keys in
  require (bool_decide (head keys = Some (td_block_number_column table))).

(** [src/crates/metadata/src/loader.rs:L1036-1042] check_relation: a key without the
    address it walks. *)
Definition group_of (walked : option string) (keys : list string) : list string :=
  filter (fun key => Some key <> walked) keys.

(** [src/crates/metadata/src/loader.rs:930-1058] check_relation. *)
Definition check_relation (desc : DatasetDescription) (source : TableDescription) (relation : RelationDef) : result () :=
  let* target := ok_or (table desc (rd_table relation)) OtherError in
  let left_ := effective_left_key relation in
  let right_ := effective_right_key relation in
  let* _ := require (negb (bool_decide (left_ = [])) && negb (bool_decide (right_ = []))) in
  let* _ := require (length left_ =? length right_)%nat in
  let* _ := each check_relation_side [(left_, source); (right_, target)] in
  match rd_kind relation with
  | RkChildren | RkParents =>
      let* _ := each (fun table => require (is_some (td_address_column table))) [source; target] in
      let walked := td_address_column target in
      require (bool_decide (group_of walked left_ = group_of walked right_))
  | RkJoin => Ok tt
  end.

(** ** Filters and fields *)

(** [src/crates/metadata/src/loader.rs:734-771] check_filter_surface. *)
Definition check_filter_surface (filters special : list string) (table : TableDescription) : result () :=
  each (fun filter =>
    if decide (filter ∈ special) then Ok tt
    else
      let* col := ok_or (column table filter) OtherError in
      require (negb (cd_system col))) filters.

(** [src/crates/metadata/src/loader.rs:901-928] check_public_field_source. *)
Definition check_public_field_source (table : TableDescription) (physical : string) : result () :=
  let* col := ok_or (column table physical) OtherError in
  require (negb (cd_system col)).

(** [src/crates/metadata/src/loader.rs:773-806] check_field_surface. *)
Definition check_field_surface (table : TableDescription) : result () :=
  let output := td_output table in
  let* _ := require (negb (is_some (os_name output)) || negb (bool_decide (os_fields output = []))) in
  each (fun field =>
    let* source := ok_or (field_source table field) OtherError in
    each (check_public_field_source table) (source_columns source)) (os_fields output).

(** [src/crates/metadata/src/loader.rs:L323-330] validate: the columns a special filter
    reaches. *)
Definition special_columns (special : SpecialFilter) : list string :=
  match special with
  | Discriminator by_length => by_length.*2
  | Bloom column _ _ | RangeGte column | RangeLte column | ColumnAlias column | GteConst column _ => [column]
  end.

(** [src/crates/metadata/src/loader.rs:L379-394] validate: the lengths a discriminator
    maps. *)
Definition check_length (length : string) : result () :=
  let byte_count := parse_usize length ≫= fun n => if (1 <=? n) && (n <=? Z.of_nat MAX_DISCRIMINATOR_BYTES) then Some n else None in
  require (match byte_count with Some n => bool_decide (print_usize n = length) | None => false end).

(** [src/crates/metadata/src/loader.rs:L314-396] validate: one of the table's special
    filters. *)
Definition check_special_filter (table : TableDescription) (e : string * SpecialFilter) : result () :=
  let '(filter_name, special) := e in
  let* _ := require (bool_decide (filter_name ∈ rs_filters (request table))) in
  let* _ := each (fun name => require (has_column table name)) (special_columns special) in
  let* _ := match special with
    | Bloom name bytes _ =>
        let* col := expect (column table name) in
        match cd_data_type col with
        | CtFixedBinary width => require (width =? bytes)
        | _ => Err OtherError
        end
    | _ => Ok tt
    end in
  match special with
  | Discriminator by_length => each check_length by_length.*1
  | _ => Ok tt
  end.

(** [src/crates/metadata/src/loader.rs:L412-456] validate: one of the table's virtual
    fields. *)
Definition check_virtual_field (table : TableDescription) (e : string * VirtualField) : result () :=
  let '(field_name, Roll columns) := e in
  let* _ := each (fun name => require (has_column table name)) columns in
  let shares_name := has_column table field_name || is_some (variant_source table field_name) in
  let* _ := require (negb shares_name) in
  each (fun name => require (negb (match column table name with Some col => is_list (cd_data_type col) | None => false end)))
    (removelast columns).

(** ** Variants *)

(** [src/crates/metadata/src/loader.rs:L815-821] check_variant_mappings: columns that say
    which row this is. *)
Definition identity_columns (table : TableDescription) : list string :=
  [td_block_number_column table] ++ td_item_order_keys table ++ option_list (td_address_column table) ++
  option_list (os_variant_column (td_output table)).

(** [src/crates/metadata/src/loader.rs:L831-894] check_variant_mappings: one mapping; the
    columns the field keys read, and the names the group renders. *)
Definition check_mapping (table : TableDescription) (s : gmap string string * gmap string string) (m : FieldMapping) :
    result (gmap string string * gmap string string) :=
  let '(source_of, rendered) := s in
  let* _ := require (has_column table (fm_column m)) in
  let field := mapping_field m in
  let* _ := require (negb (bool_decide (field ∈ identity_columns table))) in
  let* _ := require (bool_decide (field = fm_column m) || negb (has_column table field)) in
  let* _ := match source_of !! field with
    | Some other => require (bool_decide (other = fm_column m))
    | None => Ok tt
    end in
  let* _ := require (negb (is_some (rendered !! fm_json_name m))) in
  Ok (<[field := fm_column m]> source_of, <[fm_json_name m := field]> rendered).

(** [src/crates/metadata/src/loader.rs:L828-895] check_variant_mappings: one group. *)
Definition check_group (table : TableDescription) (source_of : gmap string string) (group : string * list FieldMapping) : result (gmap string string) :=
  let* (source_of, _) := foldM (check_mapping table) group.2 (source_of, ∅) in
  Ok source_of.

(** [src/crates/metadata/src/loader.rs:808-899] check_variant_mappings. *)
Definition check_variant_mappings (table : TableDescription) : result () :=
  let* _ := foldM (fun source_of (variant : string * list (string * list FieldMapping)) => foldM (check_group table) variant.2 source_of)
    (os_variants (td_output table)) ∅ in
  Ok tt.

(** ** Tables *)

(** [src/crates/metadata/src/loader.rs:L167-225] validate: the columns a table's keys
    name. *)
Definition check_keys (table : TableDescription) : result () :=
  let* _ := require (has_column table (td_block_number_column table)) in
  let* _ := each (fun key => require (has_column table key)) (td_item_order_keys table) in
  let* _ := each (fun key => require (has_column table key)) (default [] (td_declared_weight_key table)) in
  let* _ := each (fun key =>
    match column table key with
    | None => Ok tt
    | Some col =>
        let* _ := require (match cd_weight col with Some (WeightColumn _) => false | _ => true end) in
        require (negb (cd_system col))
    end) (weight_key table) in
  each (fun key => require (has_column table key)) (td_sort_key table).

Definition is_unsigned_type (t : ColumnType) : bool :=
  match t with CtUInt8 | CtUInt16 | CtUInt32 | CtUInt64 => true | _ => false end.
Definition is_struct_type (t : ColumnType) : bool :=
  match t with CtStruct | CtListStruct => true | _ => false end.

(** [src/crates/metadata/src/loader.rs:L228-278] validate: a table's columns. *)
Definition check_columns (table : TableDescription) : result () :=
  let* _ := each (fun e : string * ColumnDescription =>
    match cd_weight e.2 with Some (WeightColumn size) => require (has_column table size) | _ => Ok tt end) (td_columns table) in
  let* _ := each (fun e : string * ColumnDescription =>
    if is_some (cd_members e.2) then require (is_struct_type (cd_data_type e.2)) else Ok tt) (td_columns table) in
  each (fun e : string * ColumnDescription =>
    if bool_decide (cd_encoding e.2 = Some HexNumber) then require (is_unsigned_type (cd_data_type e.2)) else Ok tt) (td_columns table).

(** [src/crates/metadata/src/loader.rs:L463-491] validate: a table's variants. *)
Definition check_variants (table : TableDescription) : result () :=
  let output := td_output table in
  let dispatches := is_some (os_variant_column output) in
  let has_variants := negb (bool_decide (os_variants output = [])) in
  let* _ := require (eqb dispatches has_variants) in
  let* _ := each (fun name => require (has_column table name)) (option_list (os_variant_column output)) in
  let* _ := check_variant_mappings table in
  require (negb (dispatches && is_block_table table)).

(** [src/crates/metadata/src/loader.rs:L165-525] validate: one table. *)
Definition check_table (desc : DatasetDescription) (e : string * TableDescription) : result () :=
  let table := e.2 in
  let* _ := check_keys table in
  let* _ := check_columns table in
  let* _ := require (is_block_table table || is_some (td_request_surface table)) in
  let surface := request table in
  let* _ := check_filter_surface (rs_filters surface) (rs_special_filters surface).*1 table in
  let* _ := check_field_surface table in
  let* _ := each (check_special_filter table) (rs_special_filters surface) in
  let* _ := each (fun name => require (has_column table name)) (option_list (td_address_column table)) in
  let* _ := each (check_virtual_field table) (os_virtual_fields (td_output table)) in
  let* _ := check_variants table in
  let* _ := each (fun r : string * RelationDef => check_relation desc table r.2) (rs_relations surface) in
  each (fun name => require (has_column table name)) (option_list (td_parent_hash_column table) ++ option_list (td_parent_number_column table)).

(** ** Aliases *)

(** [src/crates/metadata/src/loader.rs:L527-610] validate: one alias. *)
Definition check_alias (desc : DatasetDescription) (e : string * Alias) : result () :=
  let alias := e.2 in
  let* target := ok_or (table desc (al_table alias)) OtherError in
  let special := (al_special_filters alias).*1 ++ (rs_special_filters (request target)).*1 in
  let* _ := check_filter_surface (al_filters alias) special target in
  let* _ := each (fun f : string * SpecialFilter =>
    let* _ := require (bool_decide (f.1 ∈ al_filters alias)) in
    match f.2 with
    | ColumnAlias name => require (has_column target name)
    | _ => Err OtherError
    end) (al_special_filters alias) in
  let* _ := each (fun name => require (has_column target name)) (al_implicit_filters alias).*1 in
  each (fun r : string * RelationDef => check_relation desc target r.2) (al_relations alias).

(** ** The catalog *)

(** [src/crates/metadata/src/loader.rs:618-657] check_block_table. *)
Definition check_block_table (desc : DatasetDescription) : result () :=
  let block_tables := (filter (fun e : string * TableDescription => is_block_table e.2 = true) (dd_tables desc)).*1 in
  let* _ := require (length block_tables =? 1)%nat in
  let* first := expect (head block_tables) in
  require (bool_decide (head (dd_tables desc).*1 = Some first)).

(** [src/crates/metadata/src/loader.rs:712-732] claim. *)
Definition claim (name owner : string) (seen : gmap string string) : result (gmap string string) :=
  if is_some (seen !! name) then Err OtherError else Ok (<[name := owner]> seen).

(** [src/crates/metadata/src/loader.rs:659-710] check_names_are_unique. *)
Definition check_names_are_unique (desc : DatasetDescription) : result () :=
  let request_names : gmap string string :=
    fold_left (fun m key => <[key := "a reserved key of every request"%string]> m) RESERVED_REQUEST_KEYS ∅ in
  let* (request_names, _) := foldM (fun '(request_names, output_names) (e : string * TableDescription) =>
      let* request_names := claim (request_name e.2 e.1) e.1 request_names in
      let* output_names := match os_name (td_output e.2) with
        | Some name => claim name e.1 output_names
        | None => Ok output_names
        end in
      Ok (request_names, output_names)) (dd_tables desc) (request_names, ∅ : gmap string string) in
  let* _ := foldM (fun request_names (e : string * Alias) => claim e.1 e.1 request_names) (dd_aliases desc) request_names in
  Ok tt.

(** [src/crates/metadata/src/loader.rs:L157-616] validate. *)
Definition validate (desc : DatasetDescription) : result () :=
  let* _ := require (bool_decide (dd_version desc = SCHEMA_VERSION)) in
  let* _ := each (check_table desc) (dd_tables desc) in
  let* _ := each (check_alias desc) (dd_aliases desc) in
  let* _ := check_block_table desc in
  check_names_are_unique desc.
