(* ===== verification/LoaderSpec.v ===== *)
(** What a catalog that passes its checks promises (crates/metadata/src/loader.rs):
    [validate] decides [catalog_valid], and never panics. *)
From stdpp Require Import base strings list gmap.
From Stdlib Require Import ZArith Lia.
From S2P Require Import Prelude Machine ListLib Errors Arrow Catalog Loader.

#[local] Open Scope Z_scope.

(** ** Checks that decide *)

(** A check that succeeds exactly when [P] holds, with a value of which [R] holds, and
    otherwise fails without a panic. *)
Definition decided {A} (P : Prop) (R : A -> Prop) (x : result A) : Prop :=
  match x with
  | Ok a => P /\ R a
  | Err OtherError => ~ P
  | _ => False
  end.

Abbreviation decides P x := (decided P (fun _ => True) x).

Lemma decided_iff {A} (P Q : Prop) (R : A -> Prop) x : decided P R x -> (P <-> Q) -> decided Q R x.
Proof. destruct x as [a|[]|]; cbn; tauto. Qed.

Lemma decided_weaken {A} (P : Prop) (R S : A -> Prop) x : decided P R x -> (forall a, R a -> S a) -> decided P S x.
Proof. destruct x as [a|[]|]; cbn; naive_solver. Qed.

Lemma decided_bind {A B} (P Q : Prop) (R : A -> Prop) (S : B -> Prop) x f :
  decided P R x -> (forall a, P -> R a -> decided Q S (f a)) -> decided (P /\ Q) S (obind x f).
Proof.
  destruct x as [a|[]|]; cbn; try tauto. intros [HP HR] Hf. specialize (Hf a HP HR). destruct (f a) as [b|[]|]; cbn in *; tauto.
Qed.

Lemma decides_require b (P : Prop) : (b = true <-> P) -> decides P (require b).
Proof. intros HP. destruct b; cbn; [|intros ?%HP; done]. split; [by apply HP|done]. Qed.

Lemma decides_true (P : Prop) : P -> decides P (Ok tt).
Proof. done. Qed.

Lemma decided_ret {A} (R : A -> Prop) (P : Prop) a : P -> R a -> decided P R (Ok a).
Proof. done. Qed.

Lemma decided_ok_or {A} (o : option A) : decided (is_Some o) (fun a => o = Some a) (ok_or o OtherError).
Proof. destruct o; cbn; [by split|]. by intros []. Qed.

(** A loop decides what its steps decide, given what it saw: the property is one of
    the elements so far, and lost for good once lost. *)
Lemma decided_foldM {A S} (P : list A -> Prop) (I : list A -> S -> Prop) (f : S -> A -> result S) l s0 :
  (forall l1 l2, P (l1 ++ l2) -> P l1) -> P [] -> I [] s0 ->
  (forall l1 a l2 s, l = l1 ++ a :: l2 -> P l1 -> I l1 s -> decided (P (l1 ++ [a])) (I (l1 ++ [a])) (f s a)) ->
  decided (P l) (I l) (foldM f l s0).
Proof.
  intros Hmono HP HI Hf. assert (Hgen : forall l2 l1 s, l = l1 ++ l2 -> P l1 -> I l1 s -> decided (P l) (I l) (foldM f l2 s)).
  { induction l2 as [|a l2 IH]; intros l1 s El HP1 HI1; cbn [foldM]; [rewrite app_nil_r in El; by subst|].
    eapply decided_iff; [eapply (decided_bind (P (l1 ++ [a])) (P l) (I (l1 ++ [a]))); [by eapply Hf|]|].
    - intros s' HP' HI'. apply (IH (l1 ++ [a])); [|done..]. by rewrite El, <- app_assoc.
    - split; [tauto|]. intros HPl. split; [|done]. rewrite El in HPl. apply (Hmono _ l2). by rewrite <- app_assoc. }
  by apply (Hgen l [] s0).
Qed.

Lemma decides_each {A} (P : A -> Prop) check l : (forall a, a ∈ l -> decides (P a) (check a)) -> decides (Forall P l) (each check l).
Proof.
  intros Hc. unfold each. eapply decided_weaken; [apply (decided_foldM (Forall P) (fun _ _ => True))|]; try done.
  - by intros l1 l2 [? _]%Forall_app.
  - intros l1 a l2 s El HP _. eapply decided_iff; [apply Hc; rewrite El; apply elem_of_app; right; by left|].
    rewrite Forall_app, Forall_singleton. tauto.
Qed.
(** A check of what is there, before another. *)
Lemma decides_bind (P Q : Prop) (x y : result ()) : decides P x -> (P -> decides Q y) -> decides (P /\ Q) (let* _ := x in y).
Proof. intros Hx Hy. eapply decided_bind; [exact Hx|]. intros _ HP _. by apply Hy. Qed.

Lemma is_some_iff {A} (o : option A) : is_some o = true <-> is_Some o.
Proof. destruct o; cbn; [by split|]. split; [done|]. by intros []. Qed.

Lemma is_some_false {A} (o : option A) : is_some o = false <-> o = None.
Proof. by destruct o. Qed.

Lemma has_column_iff table name : has_column table name = true <-> is_Some (column table name).
Proof. apply is_some_iff. Qed.

Lemma decides_columns table names : decides (Forall (fun name => is_Some (column table name)) names) (each (fun name => require (has_column table name)) names).
Proof. apply decides_each. intros name _. apply decides_require, has_column_iff. Qed.

#[export] Hint Resolve decides_columns : loader.

(** ** What the catalog promises *)

(** A column the table has, and one a client may see. *)
Definition has (t : TableDescription) (name : string) : Prop := is_Some (column t name).
Definition public (t : TableDescription) (name : string) : Prop := exists col, column t name = Some col /\ cd_system col = false.

(** Keys start with the block number, so that nothing relates across blocks. *)
Definition side_valid (side : list string * TableDescription) : Prop :=
  Forall (has side.2) side.1 /\ head side.1 = Some (td_block_number_column side.2).

Definition relation_valid (desc : DatasetDescription) (source : TableDescription) (r : RelationDef) : Prop :=
  exists target, table desc (rd_table r) = Some target /\
    (effective_left_key r <> [] /\ effective_right_key r <> []) /\
    length (effective_left_key r) = length (effective_right_key r) /\
    side_valid (effective_left_key r, source) /\ side_valid (effective_right_key r, target) /\
    (rd_kind r <> RkJoin -> is_Some (td_address_column source) /\ is_Some (td_address_column target) /\
       group_of (td_address_column target) (effective_left_key r) = group_of (td_address_column target) (effective_right_key r)).

Definition filters_valid (filters special : list string) (t : TableDescription) : Prop :=
  Forall (fun filter => filter ∈ special \/ public t filter) filters.

Definition fields_valid (t : TableDescription) : Prop :=
  (is_Some (os_name (td_output t)) -> os_fields (td_output t) <> []) /\
  Forall (fun field => exists source, field_source t field = Some source /\ Forall (public t) (source_columns source)) (os_fields (td_output t)).

(** A byte count as a lookup prints it. *)
Definition length_valid (s : string) : Prop := exists n, 1 <= n <= Z.of_nat MAX_DISCRIMINATOR_BYTES /\ s = print_usize n.

Definition special_valid (t : TableDescription) (e : string * SpecialFilter) : Prop :=
  e.1 ∈ rs_filters (request t) /\ Forall (has t) (special_columns e.2) /\
  match e.2 with
  | Bloom name bytes _ => exists col, column t name = Some col /\ cd_data_type col = CtFixedBinary bytes
  | Discriminator by_length => Forall length_valid by_length.*1
  | _ => True
  end.

Definition virtual_valid (t : TableDescription) (e : string * VirtualField) : Prop :=
  let 'Roll columns := e.2 in
  Forall (has t) columns /\ (~ has t e.1 /\ variant_source t e.1 = None) /\
  Forall (fun name => forall col, column t name = Some col -> is_list (cd_data_type col) = false) (removelast columns).

Definition mapping_valid (t : TableDescription) (m : FieldMapping) : Prop :=
  has t (fm_column m) /\ mapping_field m ∉ identity_columns t /\ (mapping_field m = fm_column m \/ ~ has t (mapping_field m)).

(** One field reads one column. *)
Definition consistent (ms : list FieldMapping) : Prop :=
  forall m m', m ∈ ms -> m' ∈ ms -> mapping_field m = mapping_field m' -> fm_column m = fm_column m'.

Definition group_valid (t : TableDescription) (g : string * list FieldMapping) : Prop :=
  Forall (mapping_valid t) g.2 /\ NoDup (fm_json_name <$> g.2).

(** Every group of every variant. *)
Definition all_groups (t : TableDescription) : list (string * list FieldMapping) := os_variants (td_output t) ≫= snd.

Definition variants_valid (t : TableDescription) : Prop :=
  (is_Some (os_variant_column (td_output t)) <-> os_variants (td_output t) <> []) /\
  Forall (has t) (option_list (os_variant_column (td_output t))) /\
  (Forall (group_valid t) (all_groups t) /\ consistent (all_groups t ≫= snd)) /\
  ~ (is_Some (os_variant_column (td_output t)) /\ is_block_table t = true).

Definition keys_valid (t : TableDescription) : Prop :=
  has t (td_block_number_column t) /\ Forall (has t) (td_item_order_keys t) /\ Forall (has t) (default [] (td_declared_weight_key t)) /\
  Forall (fun key => forall col, column t key = Some col -> (forall size, cd_weight col <> Some (WeightColumn size)) /\ cd_system col = false) (weight_key t) /\
  Forall (has t) (td_sort_key t).

Definition columns_valid (t : TableDescription) : Prop :=
  Forall (fun e => forall size, cd_weight e.2 = Some (WeightColumn size) -> has t size) (td_columns t) /\
  Forall (fun e => is_Some (cd_members e.2) -> is_struct_type (cd_data_type e.2) = true) (td_columns t) /\
  Forall (fun e => cd_encoding e.2 = Some HexNumber -> is_unsigned_type (cd_data_type e.2) = true) (td_columns t).

Definition table_valid (desc : DatasetDescription) (t : TableDescription) : Prop :=
  keys_valid t /\ columns_valid t /\ (is_block_table t = true \/ is_Some (td_request_surface t)) /\
  filters_valid (rs_filters (request t)) (rs_special_filters (request t)).*1 t /\ fields_valid t /\
  Forall (special_valid t) (rs_special_filters (request t)) /\ Forall (has t) (option_list (td_address_column t)) /\
  Forall (virtual_valid t) (os_virtual_fields (td_output t)) /\ variants_valid t /\
  Forall (fun r => relation_valid desc t r.2) (rs_relations (request t)) /\
  Forall (has t) (option_list (td_parent_hash_column t) ++ option_list (td_parent_number_column t)).

Definition alias_valid (desc : DatasetDescription) (alias : Alias) : Prop :=
  exists t, table desc (al_table alias) = Some t /\
    filters_valid (al_filters alias) ((al_special_filters alias).*1 ++ (rs_special_filters (request t)).*1) t /\
    Forall (fun f => f.1 ∈ al_filters alias /\ exists name, f.2 = ColumnAlias name /\ has t name) (al_special_filters alias) /\
    Forall (has t) (al_implicit_filters alias).*1 /\
    Forall (fun r => relation_valid desc t r.2) (al_relations alias).

(** The one table of blocks, declared first. *)
Definition block_table_first (desc : DatasetDescription) : Prop :=
  exists block, filter (fun e : string * TableDescription => is_block_table e.2 = true) (dd_tables desc) = [block] /\
    head (dd_tables desc).*1 = Some block.1.

(** No two surfaces of a request share a name, nor two of a response. *)
Definition names_unique (desc : DatasetDescription) : Prop :=
  NoDup (RESERVED_REQUEST_KEYS ++ ((fun e => request_name e.2 e.1) <$> dd_tables desc) ++ (dd_aliases desc).*1) /\
  NoDup (omap (fun e : string * TableDescription => os_name (td_output e.2)) (dd_tables desc)).

Record catalog_valid (desc : DatasetDescription) : Prop := {
  cv_version : dd_version desc = SCHEMA_VERSION;
  cv_tables : Forall (fun e => table_valid desc e.2) (dd_tables desc);
  cv_aliases : Forall (fun e => alias_valid desc e.2) (dd_aliases desc);
  cv_block : block_table_first desc;
  cv_names : names_unique desc;
}.

(** ** Each check decides its part *)

(** One check, then the others: split the property where the code binds. *)
Ltac step_check := apply decides_bind; [|intros ?].

Lemma check_relation_side_decides side : decides (side_valid side) (check_relation_side side).
Proof. destruct side as [keys t]. apply decides_bind; [apply decides_columns|]. intros _. apply decides_require, bool_decide_eq_true. Qed.

Lemma each_two {A} (P : A -> Prop) check a b : decides (P a) (check a) -> decides (P b) (check b) -> decides (P a /\ P b) (each check [a; b]).
Proof.
  intros Ha Hb. eapply decided_iff; [apply (decides_each P)|].
  - intros x [->|[->|?%not_elem_of_nil]%elem_of_cons]%elem_of_cons; done.
  - by rewrite !Forall_cons, Forall_nil, (right_id True and).
Qed.

Lemma check_relation_decides desc source r : decides (relation_valid desc source r) (check_relation desc source r).
Proof.
  unfold check_relation. eapply decided_iff; [eapply (decided_bind _ (exists target, table desc (rd_table r) = Some target /\ _)); [apply decided_ok_or|]|].
  - intros target _ Et. eapply decided_iff.
    + step_check; [apply decides_require; rewrite andb_true_iff, !negb_true_iff, !bool_decide_eq_false; reflexivity|].
      step_check; [apply decides_require, Nat.eqb_eq|].
      step_check; [apply (each_two side_valid); apply check_relation_side_decides|].
      instantiate (1 := rd_kind r <> RkJoin -> is_Some (td_address_column source) /\ is_Some (td_address_column target) /\
         group_of (td_address_column target) (effective_left_key r) = group_of (td_address_column target) (effective_right_key r)).
      assert (Hwalk : decides ((is_Some (td_address_column source) /\ is_Some (td_address_column target)) /\
         group_of (td_address_column target) (effective_left_key r) = group_of (td_address_column target) (effective_right_key r))
        (let* _ := each (fun table => require (is_some (td_address_column table))) [source; target] in
         require (bool_decide (group_of (td_address_column target) (effective_left_key r) = group_of (td_address_column target) (effective_right_key r))))).
      { step_check; [apply (each_two (fun t => is_Some (td_address_column t))); apply decides_require, is_some_iff|].
        apply decides_require, bool_decide_eq_true. }
      destruct (rd_kind r); [done|eapply decided_iff; [exact Hwalk|]; (split; [tauto|]); intros Hx; (destruct Hx as (? & ? & ?); [done|tauto])..].
    + split; [intros Hx; exists target; split; [done|]; exact Hx|]. intros (t & Et' & Hx). rewrite Et in Et'. injection Et' as <-. exact Hx.
  - unfold relation_valid. split.
    + intros [_ (target & Et & H1 & H2 & H3 & H4)]. exists target. tauto.
    + intros (target & Et & H1 & H2 & H3 & H4 & H5). split; [by exists target|]. exists target. tauto.
Qed.

Lemma check_public_decides t name : decides (public t name) (check_public_field_source t name).
Proof.
  unfold check_public_field_source, public. destruct (column t name) as [col|]; cbn.
  - eapply decided_iff; [apply decides_require, negb_true_iff|]. split; [intros Hs; by exists col|]. by intros (? & [= <-] & ?).
  - by intros (? & ? & _).
Qed.

Lemma check_filter_surface_decides filters special t : decides (filters_valid filters special t) (check_filter_surface filters special t).
Proof.
  apply decides_each. intros f _. destruct (decide (f ∈ special)); [by split; [left|]|].
  eapply decided_iff; [apply check_public_decides|]. tauto.
Qed.

Lemma check_field_surface_decides t : decides (fields_valid t) (check_field_surface t).
Proof.
  unfold check_field_surface, fields_valid. step_check.
  - apply decides_require. destruct (os_name _); cbn; rewrite ?negb_true_iff, ?bool_decide_eq_false.
    + split; [done|]. intros Hne. apply Hne. by eexists.
    + split; [by intros _ []|done].
  - apply decides_each. intros field _. destruct (field_source t field) as [source|]; cbn; [|by intros (? & ? & _)].
    eapply decided_iff; [apply (decides_each (public t)); intros; apply check_public_decides|].
    split; [intros Hs; by exists source|]. by intros (? & [= <-] & ?).
Qed.

Lemma check_length_decides s : decides (length_valid s) (check_length s).
Proof.
  apply decides_require. unfold length_valid. destruct (parse_usize s) as [n|] eqn:En; cbn [mbind option_bind].
  - destruct (Z.leb_spec 1 n), (Z.leb_spec n (Z.of_nat MAX_DISCRIMINATOR_BYTES)); cbn [andb]; rewrite ?bool_decide_eq_true; split; try done.
    2-5: intros (m & Hm & ->); unfold MAX_DISCRIMINATOR_BYTES in *; rewrite parse_print_usize in En by lia; injection En as <-; try lia; done.
    intros E. by exists n.
  - split; [done|]. intros (m & Hm & ->). unfold MAX_DISCRIMINATOR_BYTES in Hm. rewrite parse_print_usize in En by lia. done.
Qed.

Lemma check_special_filter_decides t e : decides (special_valid t e) (check_special_filter t e).
Proof.
  destruct e as [name special]. unfold check_special_filter, special_valid. cbn [fst snd].
  step_check; [apply decides_require, bool_decide_eq_true|]. step_check; [apply decides_columns|].
  destruct special as [by_length|c bytes hashes| | | |]; cbn [obind special_columns] in *; try done.
  - apply decides_each. intros s _. apply check_length_decides.
  - match goal with H : Forall (has t) [c] |- _ => rewrite Forall_singleton in H; destruct H as [col Ecol] end. rewrite Ecol. cbn [expect obind].
    destruct (cd_data_type col) as [| | | | | | | | | | | | | | | | | |width] eqn:Et; cbn; try (intros (? & [= <-] & ?); congruence).
    destruct (Z.eqb_spec width bytes) as [->|Hne]; cbn; [split; [by exists col|done]|]. intros (? & [= <-] & ?). congruence.
Qed.

Lemma check_virtual_field_decides t e : decides (virtual_valid t e) (check_virtual_field t e).
Proof.
  destruct e as [name [columns]]. unfold check_virtual_field, virtual_valid. cbn [fst snd]. step_check; [apply decides_columns|]. step_check.
  - apply decides_require. by rewrite negb_true_iff, orb_false_iff, <- (not_true_iff_false (has_column t name)), has_column_iff, is_some_false.
  - apply decides_each. intros c _. apply decides_require. rewrite negb_true_iff. destruct (column t c) as [col|]; [|done].
    split; [by intros ? ? [= <-]|]. intros Hx. by apply Hx.
Qed.

(** ** Variants *)

Lemma consistent_app ms ms' : consistent (ms ++ ms') -> consistent ms.
Proof. intros Hc m m' Hm Hm'. apply Hc; apply elem_of_app; by left. Qed.

(** The columns remembered for the field keys are those of the mappings seen. *)
Definition remembers (seen : list FieldMapping) (source_of : gmap string string) : Prop :=
  forall field col, source_of !! field = Some col <-> exists m, m ∈ seen /\ mapping_field m = field /\ fm_column m = col.

Lemma consistent_push ms m : consistent ms -> (forall m', m' ∈ ms -> mapping_field m' = mapping_field m -> fm_column m' = fm_column m) -> consistent (ms ++ [m]).
Proof.
  intros Hc Hm x y [Hx| ->%list_elem_of_singleton]%elem_of_app [Hy| ->%list_elem_of_singleton]%elem_of_app E; [by apply Hc|by apply Hm|symmetry; by apply Hm|done].
Qed.

Lemma remembers_push ms m source_of : consistent (ms ++ [m]) -> remembers ms source_of -> remembers (ms ++ [m]) (<[mapping_field m := fm_column m]> source_of).
Proof.
  intros Hc Hs field col. destruct (decide (field = mapping_field m)) as [->|Hne].
  - rewrite lookup_insert_eq. split; [intros [= <-]; exists m; split; [apply elem_of_app; right; by left|done]|].
    intros (m' & Hm' & Ef & <-). f_equal. apply Hc; [apply elem_of_app; right; by left|done|done].
  - rewrite lookup_insert_ne by done. rewrite (Hs field col). split; intros (m' & Hm' & Ef & Ec); exists m'; (split; [|done]).
    + apply elem_of_app. by left.
    + apply elem_of_app in Hm' as [| ->%list_elem_of_singleton]; [done|congruence].
Qed.

Lemma check_mapping_decided t seen done m source_of rendered :
  consistent (seen ++ done) -> remembers (seen ++ done) source_of ->
  NoDup (fm_json_name <$> done) -> (forall name, is_Some (rendered !! name) <-> name ∈ fm_json_name <$> done) ->
  decided (mapping_valid t m /\ consistent (seen ++ done ++ [m]) /\ NoDup (fm_json_name <$> done ++ [m]))
    (fun s => remembers (seen ++ done ++ [m]) s.1 /\ forall name, is_Some (s.2 !! name) <-> name ∈ fm_json_name <$> done ++ [m])
    (check_mapping t (source_of, rendered) m).
Proof.
  intros Hcons Hsrc Hnd Hren. unfold check_mapping. rewrite (app_assoc seen). eapply decided_iff.
  - eapply decided_bind; [apply decides_require, has_column_iff|]. intros _ _ _.
    eapply decided_bind; [apply decides_require; rewrite negb_true_iff, bool_decide_eq_false; reflexivity|]. intros _ _ _.
    eapply decided_bind; [apply (decides_require _ (mapping_field m = fm_column m \/ ~ has t (mapping_field m)))|].
    { by rewrite orb_true_iff, bool_decide_eq_true, negb_true_iff, <- not_true_iff_false, has_column_iff. }
    intros _ _ _. eapply (decided_bind (consistent ((seen ++ done) ++ [m]))).
    { instantiate (1 := fun _ => True). destruct (source_of !! mapping_field m) as [other|] eqn:Eo.
      - apply decides_require. rewrite bool_decide_eq_true. apply Hsrc in Eo as (m0 & Hm0 & Ef & <-). split.
        + intros E. apply consistent_push; [done|]. intros m' Hm' Ef'. rewrite <- E. apply Hcons; [done..|congruence].
        + intros Hc. apply Hc; [apply elem_of_app; by left|apply elem_of_app; right; by left|done].
      - apply decides_true. apply consistent_push; [done|]. intros m' Hm' Ef'.
        assert (source_of !! mapping_field m = Some (fm_column m')) as E by (apply Hsrc; by exists m'). congruence. }
    intros _ Hc _. eapply (decided_bind (fm_json_name m ∉ fm_json_name <$> done)).
    { apply decides_require. rewrite negb_true_iff, is_some_false, <- Hren, eq_None_not_Some. reflexivity. }
    intros _ Hfresh _. apply (decided_ret _ True); [done|]. cbn [fst snd]. split.
    + apply remembers_push; done.
    + intros name. rewrite fmap_app, elem_of_app, <- Hren. destruct (decide (name = fm_json_name m)) as [->|Hne].
      * rewrite lookup_insert_eq. split; [intros _; right; by left|]. by eexists.
      * rewrite lookup_insert_ne by done. split; [by left|]. intros [|?%list_elem_of_singleton]; done.
  - unfold mapping_valid. rewrite fmap_app, NoDup_app. split.
    + intros (H1 & H2 & H3 & H4 & H5 & _). split; [done|]. split; [done|]. split; [done|]. split; [|apply NoDup_singleton].
      by intros name Hn ->%list_elem_of_singleton.
    + intros ((H1 & H2 & H3) & H4 & H5 & H6 & H7). do 4 (split; [done|]). split; [|done]. intros Hin. apply (H6 _ Hin). by left.
Qed.

Lemma check_group_decided t seen g source_of : consistent seen -> remembers seen source_of ->
  decided (group_valid t g /\ consistent (seen ++ g.2)) (remembers (seen ++ g.2)) (check_group t source_of g).
Proof.
  intros Hc Hs. unfold check_group. eapply decided_iff.
  - eapply (decided_bind _ True); [|].
    + apply (decided_foldM (fun done => Forall (mapping_valid t) done /\ consistent (seen ++ done) /\ NoDup (fm_json_name <$> done))
        (fun done s => remembers (seen ++ done) s.1 /\ forall name, is_Some (s.2 !! name) <-> name ∈ fm_json_name <$> done)).
      * intros l1 l2 (H1 & H2 & H3). apply Forall_app in H1 as [H1 _]. rewrite app_assoc in H2. apply consistent_app in H2.
        rewrite fmap_app in H3. by apply NoDup_app in H3 as [H3 _].
      * split; [constructor|]. split; [by rewrite app_nil_r|constructor].
      * split; [by rewrite app_nil_r|]. intros name. cbn [snd]. rewrite lookup_empty. split; [by intros []|by intros ?%not_elem_of_nil].
      * intros l1 m l2 [source_of' rendered] _ (H1 & H2 & H3) [H4 H5]. eapply decided_iff; [by apply check_mapping_decided|].
        rewrite Forall_app, Forall_singleton. tauto.
    + intros [source_of' rendered] _ [Hr _]. by apply decided_ret.
  - unfold group_valid. tauto.
Qed.

Lemma foldM_flat {A B S} (f : S -> B -> result S) (g : A -> list B) l s :
  foldM (fun s a => foldM f (g a) s) l s = foldM f (l ≫= g) s.
Proof.
  revert s. induction l as [|a l IH]; intros s; [done|]. cbn [foldM mbind list_bind]. rewrite foldM_app.
  destruct (foldM f (g a) s); cbn; [apply IH|done|done].
Qed.

Lemma check_variant_mappings_decides t : decides (Forall (group_valid t) (all_groups t) /\ consistent (all_groups t ≫= snd)) (check_variant_mappings t).
Proof.
  unfold check_variant_mappings. eapply decided_iff.
  - eapply (decided_bind _ True); [|intros ? _ _; by apply decides_true]. rewrite foldM_flat.
    apply (decided_foldM (fun done => Forall (group_valid t) done /\ consistent (done ≫= snd)) (fun done source_of => remembers (done ≫= snd) source_of)).
    + intros l1 l2 [H1 H2]. apply Forall_app in H1 as [H1 _]. rewrite bind_app in H2. by apply consistent_app in H2.
    + split; [constructor|]. by intros m m' ?%not_elem_of_nil.
    + intros field col. rewrite lookup_empty. split; [done|]. by intros (m & ?%not_elem_of_nil & _).
    + intros l1 g l2 source_of _ [H1 H2] H3. rewrite bind_app. cbn [mbind list_bind]. rewrite app_nil_r.
      eapply decided_iff; [by apply check_group_decided|]. rewrite Forall_app, Forall_singleton. tauto.
  - unfold all_groups. tauto.
Qed.

Lemma eq_true_iff_eq_iff (a b : bool) : a = b <-> (a = true <-> b = true).
Proof. destruct a, b; naive_solver. Qed.

Lemma check_variants_decides t : decides (variants_valid t) (check_variants t).
Proof.
  unfold check_variants, variants_valid. step_check.
  { apply decides_require. rewrite eqb_true_iff, <- is_some_iff, eq_true_iff_eq_iff, negb_true_iff, bool_decide_eq_false. reflexivity. }
  step_check; [apply decides_columns|]. step_check; [apply check_variant_mappings_decides|].
  apply decides_require. rewrite negb_true_iff, <- not_true_iff_false, andb_true_iff, is_some_iff. reflexivity.
Qed.

(** ** Tables, aliases and the catalog *)

Lemma check_keys_decides t : decides (keys_valid t) (check_keys t).
Proof.
  unfold check_keys, keys_valid. step_check; [apply decides_require, has_column_iff|]. do 2 (step_check; [apply decides_columns|]).
  step_check; [|apply decides_columns]. apply decides_each. intros key _. destruct (column t key) as [col|]; [|by apply decides_true].
  eapply decided_iff; [step_check|].
  - apply (decides_require _ (forall size, cd_weight col <> Some (WeightColumn size))). destruct (cd_weight col) as [[]|]; split; try done. intros Hx. by destruct (Hx name).
  - apply decides_require, negb_true_iff.
  - split; [by intros ? ? [= <-]|]. intros Hx. by apply Hx.
Qed.

Lemma decides_each_when {A} (b : A -> bool) (P Q : A -> Prop) (c : A -> bool) l :
  (forall a, b a = true <-> P a) -> (forall a, c a = true <-> Q a) ->
  decides (Forall (fun a => P a -> Q a) l) (each (fun a => if b a then require (c a) else Ok tt) l).
Proof.
  intros Hb Hc. apply decides_each. intros a _. specialize (Hb a). destruct (b a).
  - eapply decided_iff; [apply decides_require, Hc|]. tauto.
  - apply decides_true. intros HP%Hb. done.
Qed.

Lemma check_columns_decides t : decides (columns_valid t) (check_columns t).
Proof.
  unfold check_columns, columns_valid. step_check; [|step_check].
  - apply decides_each. intros e _. destruct (cd_weight e.2) as [[size|]|]; try by apply decides_true.
    eapply decided_iff; [apply decides_require, has_column_iff|]. split; [by intros ? ? [= <-]|]. intros Hx. by apply Hx.
  - apply decides_each_when; [intros e; apply is_some_iff|done].
  - apply decides_each_when; [intros e; apply bool_decide_eq_true|done].
Qed.

Lemma check_table_decides desc e : decides (table_valid desc e.2) (check_table desc e).
Proof.
  unfold check_table, table_valid.
  step_check; [apply check_keys_decides|]. step_check; [apply check_columns_decides|].
  step_check; [apply decides_require; by rewrite orb_true_iff, is_some_iff|].
  step_check; [apply check_filter_surface_decides|]. step_check; [apply check_field_surface_decides|].
  step_check; [apply decides_each; intros; apply check_special_filter_decides|]. step_check; [apply decides_columns|].
  step_check; [apply decides_each; intros; apply check_virtual_field_decides|]. step_check; [apply check_variants_decides|].
  step_check; [apply decides_each; intros; apply check_relation_decides|]. apply decides_columns.
Qed.

Lemma check_alias_decides desc e : decides (alias_valid desc e.2) (check_alias desc e).
Proof.
  unfold check_alias, alias_valid. destruct (table desc (al_table e.2)) as [t|] eqn:Et; cbn [ok_or obind]; [|by intros (? & ? & _)].
  eapply decided_iff.
  - step_check; [apply check_filter_surface_decides|]. step_check; [|step_check; [apply decides_columns|apply decides_each; intros; apply check_relation_decides]].
    apply (decides_each (fun f => f.1 ∈ al_filters e.2 /\ exists name, f.2 = ColumnAlias name /\ has t name)). intros f _.
    step_check; [apply decides_require, bool_decide_eq_true|]. destruct f.2 as [| | | |name|]; try by intros (? & ? & _).
    eapply decided_iff; [apply decides_require, has_column_iff|]. split; [intros Hh; by exists name|]. by intros (? & [= <-] & ?).
  - split; [intros Hx; by exists t|]. intros (? & [= <-] & Hx). exact Hx.
Qed.

Lemma check_block_table_decides desc : decides (block_table_first desc) (check_block_table desc).
Proof.
  unfold check_block_table, block_table_first. destruct (filter _ (dd_tables desc)) as [|block [|block' rest]]; cbn.
  - by intros (? & ? & _).
  - eapply decided_iff; [apply decides_require, bool_decide_eq_true|]. split; [intros Hh; by exists block|]. by intros (? & [= <-] & ?).
  - by intros (? & ? & _).
Qed.

(** The names claimed so far are those seen. *)
Definition claimed (l : list string) (seen : gmap string string) : Prop := forall name, is_Some (seen !! name) <-> name ∈ l.

Lemma claim_decided l name owner seen : NoDup l -> claimed l seen -> decided (NoDup (l ++ [name])) (claimed (l ++ [name])) (claim name owner seen).
Proof.
  intros Hnd Hl. unfold claim. destruct (is_some (seen !! name)) eqn:E.
  - apply is_some_iff, Hl in E. cbn. rewrite NoDup_app. intros (_ & Hx & _). apply (Hx _ E). by left.
  - apply is_some_false in E. cbn. split.
    + apply NoDup_app. split; [done|]. split; [|apply NoDup_singleton]. intros x Hx ->%list_elem_of_singleton. apply Hl in Hx as [? Hx]. congruence.
    + intros x. rewrite elem_of_app, list_elem_of_singleton. destruct (decide (x = name)) as [->|Hne].
      * rewrite lookup_insert_eq. split; [by right|]. by eexists.
      * rewrite lookup_insert_ne by done. rewrite (Hl x). tauto.
Qed.

Lemma reserved_claimed : claimed RESERVED_REQUEST_KEYS
  (fold_left (fun (m : gmap string string) key => <[key := "a reserved key of every request"%string]> m) RESERVED_REQUEST_KEYS ∅).
Proof.
  assert (Hgen : forall keys l (m : gmap string string), claimed l m ->
    claimed (l ++ keys) (fold_left (fun m key => <[key := "a reserved key of every request"%string]> m) keys m)).
  { induction keys as [|key keys IH]; intros l m Hm; cbn [fold_left]; [by rewrite app_nil_r|].
    replace (l ++ key :: keys) with ((l ++ [key]) ++ keys) by by rewrite <- app_assoc. apply IH. intros x. rewrite elem_of_app, list_elem_of_singleton.
    destruct (decide (x = key)) as [->|Hne].
    - rewrite lookup_insert_eq. split; [by right|]. by eexists.
    - rewrite lookup_insert_ne by done. rewrite (Hm x). tauto. }
  apply (Hgen _ []). intros x. rewrite lookup_empty. split; [by intros []|by intros ?%not_elem_of_nil].
Qed.

Lemma names_unique_decides desc : decides (names_unique desc) (check_names_are_unique desc).
Proof.
  unfold check_names_are_unique, names_unique. set (requests := fun done : list (string * TableDescription) => RESERVED_REQUEST_KEYS ++ ((fun e => request_name e.2 e.1) <$> done)).
  set (outputs := fun done : list (string * TableDescription) => omap (fun e : string * TableDescription => os_name (td_output e.2)) done).
  eapply decided_iff.
  - eapply decided_bind.
    + apply (decided_foldM (fun done => NoDup (requests done) /\ NoDup (outputs done)) (fun done s => claimed (requests done) s.1 /\ claimed (outputs done) s.2)).
      * intros l1 l2. unfold requests, outputs. rewrite fmap_app, omap_app, app_assoc, !NoDup_app. tauto.
      * split; [|constructor]. apply (bool_decide_unpack _). by vm_compute.
      * cbn [fst snd]. unfold requests. rewrite fmap_nil, app_nil_r. split; [apply reserved_claimed|].
        intros x. rewrite lookup_empty. split; [by intros []|by intros ?%not_elem_of_nil].
      * intros l1 e l2 [request_names output_names] _ [Hr Ho] [Hr' Ho']. cbn [fst snd] in *. eapply decided_iff.
        -- eapply decided_bind; [by apply (claim_decided (requests l1))|]. intros rn _ Hrn.
           eapply (decided_bind (NoDup (outputs (l1 ++ [e]))) True (claimed (outputs (l1 ++ [e])))).
           { unfold outputs. rewrite omap_app. cbn [omap list_omap]. destruct (os_name (td_output e.2)) as [name|]; [by apply (claim_decided (outputs l1))|]. rewrite app_nil_r. by apply decided_ret. }
           intros on _ Hon. apply decided_ret; [done|]. cbn [fst snd]. split; [|exact Hon]. unfold requests. rewrite fmap_app, app_assoc. exact Hrn.
        -- unfold requests at 2. rewrite fmap_app, app_assoc. unfold requests. tauto.
    + intros [request_names output_names] [Hr _] [Hr' _]. cbn [fst snd] in *. eapply (decided_bind _ True); [|intros ? _ _; by apply decides_true].
      apply (decided_foldM (fun done => NoDup (requests (dd_tables desc) ++ done.*1)) (fun done seen => claimed (requests (dd_tables desc) ++ done.*1) seen)).
      * intros l1 l2. rewrite fmap_app, app_assoc, NoDup_app. tauto.
      * by rewrite fmap_nil, app_nil_r.
      * by rewrite fmap_nil, app_nil_r.
      * intros l1 e l2 seen _ Hnd Hseen. rewrite fmap_app, app_assoc. by apply claim_decided.
  - unfold requests, outputs. rewrite !(app_assoc RESERVED_REQUEST_KEYS), (NoDup_app _ ((dd_aliases desc).*1)). tauto.
Qed.

Lemma validate_decides desc : decides (catalog_valid desc) (validate desc).
Proof.
  unfold validate. eapply decided_iff.
  - step_check; [apply decides_require, bool_decide_eq_true|]. step_check; [apply decides_each; intros; apply check_table_decides|].
    step_check; [apply decides_each; intros; apply check_alias_decides|]. step_check; [apply check_block_table_decides|apply names_unique_decides].
  - split; [by intros (? & ? & ? & ? & ?); split|by intros []].
Qed.

(** C20: A catalog's checks decide whether it is well formed, without a panic: it is
    accepted exactly when every name it uses resolves, no internal column is public,
    every relation's keys start with the block number and pair up, and a hierarchical
    one's group columns agree, lengths, blooms, variants and virtual fields are what
    the engine reads, one table, the first, is the block table, and no name is claimed
    twice. *)
Theorem validate_spec desc :
  (validate desc = Ok tt /\ catalog_valid desc) \/ (validate desc = Err OtherError /\ ~ catalog_valid desc).
Proof. pose proof (validate_decides desc) as Hd. destruct (validate desc) as [[]|[]|]; cbn in Hd; try done; [left; tauto|by right]. Qed.
