(* ===== verification/Integers.v ===== *)
(** src/integers.rs and src/text.rs: integer columns at every stored width, the
    readings of a stored value (as itself, as a block number, as a join key, as
    the catalog declares it), and text columns at every stored type. *)
From stdpp Require Import base strings list.
From Stdlib Require Import ZArith Lia.
From S2P Require Import Prelude Machine ListLib Errors Arrow.

Open Scope Z_scope.

(** ** Integer columns *)

(** [src/src/integers.rs:36-47] IntColumn. One variant per stored type: the
    type, the slots and the validity of the array it borrows. *)
Record IntColumn := { ic_type : int_type; ic_values : list Z; ic_nulls : null_buffer }.

(** [src/src/integers.rs:126-134] IntColumn::resolve. *)
Definition IntColumn_resolve (col : array) : option IntColumn :=
  match col with
  | AInt t values nulls => Some {| ic_type := t; ic_values := values; ic_nulls := nulls |}
  | _ => None
  end.

(** [src/src/integers.rs:253-259] width_of. *)
Definition width_of (dt : data_type) : option (Z * bool) :=
  match dt with
  | DInt t => Some (int_bits t, int_signed t)
  | _ => None
  end.

(** [src/src/integers.rs:107-110] is_integer. *)
Definition is_integer (dt : data_type) : bool :=
  match width_of dt with Some _ => true | None => false end.

(** [src/src/integers.rs:515-521] stored_key: [value as i64 as u64]. *)
Definition stored_key (value : Z) : Z := as_u64 (as_i64 value).

(** [src/src/integers.rs:144-153] IntColumn::value. *)
Definition int_value (c : IntColumn) (row : nat) : Z := default 0 (ic_values c !! row).

(** [src/src/integers.rs:155-167] IntColumn::block_number: the value's bits read
    unsigned at the stored width. *)
Definition block_number_of (t : int_type) (value : Z) : Z :=
  as_u64 (as_unsigned (int_bits t) value).
Definition int_block_number (c : IntColumn) (row : nat) : Z :=
  block_number_of (ic_type c) (int_value c row).

(** [src/src/integers.rs:193-202] IntColumn::join_key. *)
Definition int_join_key (c : IntColumn) (row : nat) : Z := stored_key (int_value c row).

(** [src/src/integers.rs:204-209] IntColumn::is_null. *)
Definition int_is_null (c : IntColumn) (row : nat) : bool := negb (is_valid_in (ic_nulls c) row).

(** [src/src/integers.rs:211-215] IntColumn::len. *)
Definition int_len (c : IntColumn) : nat := length (ic_values c).

(** [src/src/integers.rs:223-227] IntColumn::join_keys. *)
Definition join_keys (c : IntColumn) : list Z := stored_key <$> ic_values c.

(** [src/src/integers.rs:229-233] IntColumn::join_key_bytes. *)
Definition join_key_bytes (c : IntColumn) : list Z :=
  ic_values c ≫= fun value => to_be_bytes 8 (stored_key value).

(** [src/src/integers.rs:236-251] block_number_at: the block number a row-group
    statistic states, at the column's width. *)
Definition block_number_at (dt : data_type) (stat : Z) : option Z :=
  match dt with
  | DInt t =>
      let native :=
        if int_signed t then as_signed (int_bits t) stat else as_unsigned (int_bits t) stat in
      Some (as_u64 (as_unsigned (int_bits t) native))
  | _ => None
  end.

Section bounds.
Context `{K : ArrowKernels}.

(** [T::Native::try_from] of a [u64], for an unsigned native. *)
Definition try_native (bits x : Z) : option Z := if x <? 2 ^ bits then Some x else None.

(** [src/src/integers.rs:70-105] within. *)
Definition within (bits : Z) (values : list Z) (nulls : null_buffer) (from to : option Z) : mask :=
  let low : option (option mask) :=
    match from ≫= (fun f => if 0 <? f then Some f else None) with
    | Some f =>
        match try_native bits f with
        | None => None
        | Some f => Some (Some (cmp_gt_eq values nulls f))
        end
    | None => Some None
    end in
  match low with
  | None => of_bools (replicate (length values) false)
  | Some low =>
      let high :=
        match to with
        | Some t =>
            match try_native bits t with
            | Some t => Some (cmp_lt_eq values nulls t)
            | None => None
            end
        | None => None
        end in
      match low, high with
      | Some low, Some high => boolean_and low high
      | Some bound, None | None, Some bound => bound
      | None, None => lift_null nulls (fun _ => true) values
      end
  end.

(** [src/src/integers.rs:169-191] IntColumn::block_numbers_within. *)
Definition block_numbers_within (c : IntColumn) (from to : option Z) : mask :=
  within (int_bits (ic_type c)) (as_unsigned (int_bits (ic_type c)) <$> ic_values c)
    (ic_nulls c) from to.
End bounds.

(** ** The block-number column of a batch *)

(** [src/src/integers.rs:265-278] BlockNumbers. *)
Record BlockNumbers := { bn_reader : IntColumn }.

(** [src/src/integers.rs:281-302] BlockNumbers::resolve. *)
Definition BlockNumbers_resolve (column : array) : result BlockNumbers :=
  match IntColumn_resolve column with
  | None => Err (EngineError MalformedChunkData)
  | Some reader =>
      if (0 <? null_count column)%nat then Err (EngineError MalformedChunkData)
      else Ok {| bn_reader := reader |}
  end.

(** [src/src/integers.rs:304-307] BlockNumbers::at. *)
Definition block_at (b : BlockNumbers) (row : nat) : Z := int_block_number (bn_reader b) row.

(** ** Filter values at the declared signedness *)

(** [src/src/integers.rs:355-369] INT_TYPES, slot_of. *)
Definition INT_TYPES : Z := 8.
Definition slot_of (dt : data_type) : option Z :=
  match width_of dt with
  | None => None
  | Some (bits, signed) =>
      let width := if bits =? 8 then 0 else if bits =? 16 then 1 else if bits =? 32 then 2 else 3 in
      Some (if signed then width + 4 else width)
  end.

(** [src/src/integers.rs:371-381] IntValues. *)
Inductive IntValues :=
  | Unsigned (values : list Z)
  | Signed (values : list Z).

(** [src/src/integers.rs:383-446] Widen and IntValues::from_array. *)
Definition IntValues_from_array (a : array) : option IntValues :=
  match IntColumn_resolve a with
  | None => None
  | Some c =>
      Some (if int_signed (ic_type c) then Signed (as_i64 <$> ic_values c)
            else Unsigned (as_u64 <$> ic_values c))
  end.

(** [src/src/integers.rs:448-451] IntValues::signed. *)
Definition values_signed (v : IntValues) : bool :=
  match v with Signed _ => true | Unsigned _ => false end.

Definition values_list (v : IntValues) : list Z :=
  match v with Signed l | Unsigned l => l end.

(** [src/src/integers.rs:489-491] fits_unsigned. *)
Definition fits_unsigned (value bits : Z) : bool := (bits =? 64) || (Z.shiftr value bits =? 0).

(** [src/src/integers.rs:493-500] fits_signed. *)
Definition fits_signed (value bits : Z) : bool :=
  if bits =? 64 then true
  else let half := Z.shiftl 1 (bits - 1) in (- half <=? value) && (value <? half).

(** [src/src/integers.rs:502-505] sign_extend. *)
Definition sign_extend (bits_value bits : Z) : Z :=
  let shift := 64 - bits in
  as_u64 (Z.shiftr (as_i64 (as_u64 (Z.shiftl bits_value shift))) shift).

(** [src/src/integers.rs:507-513] zero_extend. *)
Definition zero_extend (bits_value bits : Z) : Z :=
  if bits =? 64 then bits_value else Z.land bits_value (Z.shiftl 1 bits - 1).

(** [src/src/integers.rs:453-486] IntValues::stored_keys. *)
Definition stored_keys (v : IntValues) (stored : data_type) : option (list Z) :=
  match width_of stored with
  | None => None
  | Some (bits, signed) =>
      Some match v with
      | Unsigned values =>
          (fun v => if signed then sign_extend v bits else v) <$>
            filter (fun v => fits_unsigned v bits = true) values
      | Signed values =>
          (fun v => if signed then as_u64 v else zero_extend (as_u64 v) bits) <$>
            filter (fun v => fits_signed v bits = true) values
      end
  end.

(** [src/src/integers.rs:523-539] declared_value. *)
Definition declared_value (stored bits : Z) (declared_signed : bool) : Z :=
  let key := stored_key stored in
  if declared_signed then as_i64 (sign_extend key bits) else zero_extend key bits.

(** ** Text columns *)

(** [src/src/text.rs:18-24] StringColumn. *)
Record StringColumn := { sc_type : text_type; sc_values : list string; sc_nulls : null_buffer }.

(** [src/src/text.rs:37-40] is_text. *)
Definition is_text (dt : data_type) : bool :=
  match dt with DText _ => true | _ => false end.

(** [src/src/text.rs:43-51] StringColumn::resolve. *)
Definition StringColumn_resolve (col : array) : option StringColumn :=
  match col with
  | AText t values nulls => Some {| sc_type := t; sc_values := values; sc_nulls := nulls |}
  | _ => None
  end.

(** [src/src/text.rs:53-59] StringColumn::value. *)
Definition string_value (c : StringColumn) (row : nat) : option string :=
  if is_valid_in (sc_nulls c) row then Some (default ""%string (sc_values c !! row)) else None.

(** ** The readings agree *)

Lemma int_bits_pos t : 0 < int_bits t <= 64.
Proof. destruct t; simpl; lia. Qed.

Lemma stored_key_mod x : stored_key x = x mod 2 ^ 64.
Proof. unfold stored_key, as_u64, as_i64, as_unsigned. by rewrite as_signed_eqm. Qed.

Lemma stored_key_range x : is_u64 (stored_key x).
Proof. rewrite stored_key_mod. apply Z.mod_pos_bound. lia. Qed.

Lemma pow2_split bits : 0 < bits <= 64 -> 2 ^ 64 = 2 ^ bits * 2 ^ (64 - bits).
Proof. intros. rewrite <- Z.pow_add_r by lia. f_equal; lia. Qed.

(** Shifting the narrow bits to the top and back reads their sign. *)
Lemma sign_extend_spec v bits :
  0 < bits <= 64 -> sign_extend v bits = as_u64 (as_signed bits v).
Proof.
  intros Hb. unfold sign_extend. f_equal.
  rewrite Z.shiftl_mul_pow2, Z.shiftr_div_pow2 by lia.
  set (s := 2 ^ (64 - bits)). assert (0 < s) by (unfold s; lia).
  assert (E63 : 2 ^ 63 = 2 ^ (bits - 1) * s).
  { unfold s. rewrite <- Z.pow_add_r by lia. f_equal; lia. }
  unfold as_i64. rewrite (as_signed_mod 64 _ (v * s)) by
    (try lia; unfold as_u64; apply as_unsigned_eqm).
  unfold as_signed. change (64 - 1) with 63. rewrite (pow2_split bits Hb), E63. fold s.
  rewrite <- Z.mul_add_distr_r, Z.mul_mod_distr_r, <- Z.mul_sub_distr_r by lia.
  by rewrite Z.div_mul by lia.
Qed.

Lemma zero_extend_spec v bits :
  0 < bits <= 64 -> is_u64 v -> zero_extend v bits = v mod 2 ^ bits.
Proof.
  intros Hb Hv. unfold zero_extend. destruct (Z.eqb_spec bits 64) as [->|].
  - by rewrite Z.mod_small.
  - rewrite Z.shiftl_1_l. replace (2 ^ bits - 1) with (Z.ones bits)
      by (rewrite Z.ones_equiv; lia). by rewrite Z.land_ones by lia.
Qed.

Lemma fits_unsigned_spec v bits :
  0 < bits <= 64 -> is_u64 v -> fits_unsigned v bits = true <-> v < 2 ^ bits.
Proof.
  intros Hb Hv. unfold fits_unsigned, is_u64 in *. rewrite orb_true_iff, !Z.eqb_eq.
  rewrite Z.shiftr_div_pow2 by lia. split.
  - intros [->|E]; [lia|]. apply Z.div_small_iff in E; lia.
  - intros Hlt. right. apply Z.div_small. lia.
Qed.

Lemma fits_signed_spec v bits :
  0 < bits <= 64 -> - 2 ^ 63 <= v < 2 ^ 63 ->
  fits_signed v bits = true <-> - 2 ^ (bits - 1) <= v < 2 ^ (bits - 1).
Proof.
  intros Hb Hv. unfold fits_signed. destruct (Z.eqb_spec bits 64) as [->|].
  - split; [intros _; change (64 - 1) with 63; lia | done].
  - rewrite Z.shiftl_1_l, andb_true_iff. lia.
Qed.

(** The declared reading of a stored value is its residue at the stored width,
    read at the declared signedness. *)
Lemma declared_value_spec t x s :
  declared_value x (int_bits t) s =
  if s then as_signed (int_bits t) x else as_unsigned (int_bits t) x.
Proof.
  pose proof (int_bits_pos t) as Hb. unfold declared_value.
  assert (E : stored_key x mod 2 ^ int_bits t = x mod 2 ^ int_bits t).
  { rewrite stored_key_mod. apply mod_pow_narrow. lia. }
  destruct s.
  - rewrite sign_extend_spec by done.
    rewrite (as_signed_mod (int_bits t) (stored_key x) x) by (done || lia).
    pose proof (as_signed_range (int_bits t) x ltac:(lia)).
    assert (2 ^ (int_bits t - 1) <= 2 ^ 63) by (apply Z.pow_le_mono_r; lia).
    unfold as_i64. rewrite (as_signed_mod 64 _ (as_signed (int_bits t) x)) by
      (try lia; unfold as_u64; apply as_unsigned_eqm).
    apply as_signed_id; change (64 - 1) with 63; lia.
  - rewrite zero_extend_spec by (done || apply stored_key_range). exact E.
Qed.

Definition in_values_range (v : IntValues) : Prop :=
  match v with
  | Unsigned l => Forall is_u64 l
  | Signed l => Forall (fun z => - 2 ^ 63 <= z < 2 ^ 63) l
  end.

Lemma in_int_type_mod t x :
  in_int_type t x ->
  x = if int_signed t then as_signed (int_bits t) x else as_unsigned (int_bits t) x.
Proof.
  pose proof (int_bits_pos t). unfold in_int_type. destruct (int_signed t); intros Hx.
  - symmetry. apply as_signed_id; lia.
  - symmetry. by apply as_unsigned_id.
Qed.

Lemma stored_keys_unsigned t x l :
  Forall is_u64 l -> in_int_type t x ->
  stored_key x ∈ ((fun v => if int_signed t then sign_extend v (int_bits t) else v) <$>
                  filter (fun v => fits_unsigned v (int_bits t) = true) l) <->
  as_unsigned (int_bits t) x ∈ l.
Proof.
  intros Hl Hx. pose proof (int_bits_pos t) as Hb. rewrite Forall_forall in Hl.
  rewrite stored_key_mod, list_elem_of_fmap. split.
  - intros (v & E & [Hfit Hin]%list_elem_of_filter). specialize (Hl v Hin).
    apply fits_unsigned_spec in Hfit; [|done|done].
    assert (as_unsigned (int_bits t) x = v) as ->; [|done].
    unfold as_unsigned. rewrite <- (mod_pow_narrow 64) by lia. rewrite E.
    destruct (int_signed t).
    + rewrite sign_extend_spec by done. unfold as_u64, as_unsigned.
      rewrite mod_pow_narrow by lia. rewrite as_signed_eqm by lia.
      apply Z.mod_small. unfold is_u64 in Hl. lia.
    + apply Z.mod_small. unfold is_u64 in Hl. lia.
  - intros Hin. exists (as_unsigned (int_bits t) x).
    pose proof (as_unsigned_range (int_bits t) x ltac:(lia)).
    split; [|apply list_elem_of_filter; split; [apply fits_unsigned_spec; auto; lia | done]].
    unfold in_int_type in Hx. destruct (int_signed t).
    + rewrite sign_extend_spec by done. unfold as_u64, as_unsigned.
      rewrite (as_signed_mod _ _ x) by (lia || apply Zmod_mod).
      by rewrite as_signed_id by lia.
    + rewrite as_unsigned_id by done.
      apply Z.mod_small. assert (2 ^ int_bits t <= 2 ^ 64) by (apply Z.pow_le_mono_r; lia). lia.
Qed.

Lemma stored_keys_signed t x l :
  Forall (fun z => - 2 ^ 63 <= z < 2 ^ 63) l -> in_int_type t x ->
  stored_key x ∈ ((fun v => if int_signed t then as_u64 v else zero_extend (as_u64 v) (int_bits t)) <$>
                  filter (fun v => fits_signed v (int_bits t) = true) l) <->
  as_signed (int_bits t) x ∈ l.
Proof.
  intros Hl Hx. pose proof (int_bits_pos t) as Hb. rewrite Forall_forall in Hl.
  assert (Hz : forall v, zero_extend (as_u64 v) (int_bits t) = v mod 2 ^ int_bits t).
  { intros v. rewrite zero_extend_spec by (done || apply as_unsigned_range; lia).
    apply mod_pow_narrow. lia. }
  rewrite stored_key_mod, list_elem_of_fmap. split.
  - intros (v & E & [Hfit Hin]%list_elem_of_filter). specialize (Hl v Hin).
    apply fits_signed_spec in Hfit; [|done|done].
    assert (as_signed (int_bits t) x = v) as ->; [|done].
    rewrite (as_signed_mod _ x v); [|lia|].
    2: { rewrite <- (mod_pow_narrow 64), E by lia. destruct (int_signed t).
         - unfold as_u64, as_unsigned. by rewrite mod_pow_narrow by lia.
         - rewrite Hz. apply Zmod_mod. }
    apply as_signed_id; lia.
  - intros Hin. exists (as_signed (int_bits t) x).
    pose proof (as_signed_range (int_bits t) x ltac:(lia)).
    split; [|apply list_elem_of_filter; split; [by apply fits_signed_spec; auto; lia | done]].
    rewrite (in_int_type_mod t x Hx) at 1. destruct (int_signed t); [done|].
    rewrite Hz, as_signed_eqm by lia. unfold as_unsigned.
    assert (2 ^ int_bits t <= 2 ^ 64) by (apply Z.pow_le_mono_r; lia).
    pose proof (Z.mod_pos_bound x (2 ^ int_bits t) ltac:(lia)).
    by rewrite Z.mod_small by lia.
Qed.

Lemma stored_keys_spec t x v keys :
  in_int_type t x -> in_values_range v -> stored_keys v (DInt t) = Some keys ->
  stored_key x ∈ keys <-> declared_value x (int_bits t) (values_signed v) ∈ values_list v.
Proof.
  intros Hx Hv. unfold stored_keys; simpl. intros [= <-].
  rewrite declared_value_spec. destruct v; simpl in *.
  - by apply stored_keys_unsigned.
  - by apply stored_keys_signed.
Qed.

(** C22: An equality filter and an order comparison read a stored integer the
    same way: the key of a stored value is among the filter's keys for the
    stored type exactly when the value the catalog declares it to be, at the
    filter's signedness, is one of the filter's values. So narrowing a column,
    or storing it at the other signedness, changes no answer. *)
Theorem stored_keys_match_declared_value t x v keys :
  in_int_type t x -> in_values_range v -> stored_keys v (DInt t) = Some keys ->
  stored_key x ∈ keys <-> declared_value x (int_bits t) (values_signed v) ∈ values_list v.
Proof. apply stored_keys_spec. Qed.

Lemma stored_keys_match_declared_value_witness :
  stored_key 65535 ∈ [65535; 7] <-> declared_value 65535 16 true ∈ [-1; 7; 40000].
Proof.
  apply (stored_keys_match_declared_value UInt16 65535 (Signed [-1; 7; 40000]) [65535; 7]).
  - vm_compute. split; discriminate || reflexivity.
  - repeat constructor; lia.
  - vm_compute. reflexivity.
Defined.

Lemma block_number_at_value t value stat :
  in_int_type t value -> stat mod 2 ^ int_bits t = value mod 2 ^ int_bits t ->
  block_number_at (DInt t) stat = Some (block_number_of t value).
Proof.
  intros Hv E. pose proof (int_bits_pos t). unfold block_number_at, block_number_of.
  f_equal. unfold as_u64. f_equal. apply as_unsigned_mod. destruct (int_signed t).
  - by rewrite as_signed_eqm by lia.
  - by rewrite as_unsigned_eqm.
Qed.

(** The block number a row-group statistic states is the block number the
    reader gives the value the statistic was taken of: a statistic is the stored
    value, widened to parquet's physical type, so it agrees with the value at
    the column's width. *)
Theorem block_number_at_statistic t value stat :
  in_int_type t value -> stat mod 2 ^ int_bits t = value mod 2 ^ int_bits t ->
  block_number_at (DInt t) stat = Some (block_number_of t value).
Proof. apply block_number_at_value. Qed.

(** Block 40 000 in a signed sixteen-bit column, as its [Int32] statistic. *)
Lemma block_number_at_statistic_witness :
  block_number_at (DInt Int16) (-25536) = Some 40000.
Proof.
  apply (block_number_at_statistic Int16 (-25536) (-25536)).
  - vm_compute. split; discriminate || reflexivity.
  - reflexivity.
Defined.

Lemma block_number_of_range t x : is_u64 (block_number_of t x).
Proof. apply as_unsigned_range. lia. Qed.

Lemma block_number_of_unsigned t x :
  block_number_of t x = as_unsigned (int_bits t) x.
Proof.
  pose proof (int_bits_pos t). pose proof (as_unsigned_range (int_bits t) x ltac:(lia)).
  assert (2 ^ int_bits t <= 2 ^ 64) by (apply Z.pow_le_mono_r; lia).
  apply as_unsigned_id. lia.
Qed.

(** A block number stored at the type it was written with reads back. *)
Lemma block_number_of_roundtrip t b :
  0 <= b < 2 ^ int_bits t ->
  block_number_of t (if int_signed t then as_signed (int_bits t) b else b) = b.
Proof.
  intros Hb. rewrite block_number_of_unsigned. pose proof (int_bits_pos t).
  unfold as_unsigned. destruct (int_signed t); rewrite ?as_signed_eqm by lia; by apply Z.mod_small.
Qed.

Lemma lift_null_lookup {A} nulls (p : A -> bool) values i :
  lift_null nulls p values !! i =
  (fun v => if is_valid_in nulls i then Some (p v) else None) <$> values !! i.
Proof. apply list_lookup_imap. Qed.

Lemma length_lift_null {A} nulls (p : A -> bool) values : length (lift_null nulls p values) = length values.
Proof. apply length_imap. Qed.

Lemma lift_null_and {A} nulls (p q : A -> bool) values :
  zip_with and_null (lift_null nulls p values) (lift_null nulls q values) =
  lift_null nulls (fun v => p v && q v) values.
Proof.
  apply list_eq. intros i. rewrite lookup_zip_with, !lift_null_lookup.
  destruct (values !! i); simpl; [|done]. by destruct (is_valid_in nulls i).
Qed.

Lemma lift_null_ext {A} nulls (p q : A -> bool) values :
  (forall v, v ∈ values -> p v = q v) -> lift_null nulls p values = lift_null nulls q values.
Proof.
  intros H. apply list_eq. intros i. rewrite !lift_null_lookup.
  destruct (values !! i) eqn:E; simpl; [|done].
  apply list_elem_of_lookup_2 in E. by rewrite H.
Qed.

Definition in_bounds (from to : option Z) (b : Z) : bool :=
  match from with Some f => f <=? b | None => true end &&
  match to with Some t => b <=? t | None => true end.

Section bounds_proofs.
Context `{L : ArrowLaws}.

(** Each stored type has a slot of its own, within the cache, so what one width left
    there is not read at another. *)
Lemma slot_of_inj t u slot : slot_of (DInt t) = Some slot -> slot_of (DInt u) = Some slot -> t = u.
Proof. destruct t, u; by intros [= <-] [=]. Qed.

Lemma slot_of_bound t slot : slot_of (DInt t) = Some slot -> 0 <= slot < INT_TYPES.
Proof. unfold INT_TYPES. destruct t; intros [= <-]; lia. Qed.

Lemma within_spec bits values nulls from to :
  Forall (fun v => 0 <= v < 2 ^ bits) values ->
  match from with Some f => f < 2 ^ bits | None => True end ->
  within bits values nulls from to = lift_null nulls (in_bounds from to) values.
Proof.
  intros Hv Hf. rewrite Forall_forall in Hv. unfold within, try_native.
  destruct from as [f|]; simpl; [destruct (Z.ltb_spec 0 f); simpl;
    [destruct (Z.ltb_spec f (2 ^ bits)); [|lia]|]|];
  (destruct to as [t|]; simpl; [destruct (Z.ltb_spec t (2 ^ bits)) as [?|Ht]|]);
  rewrite ?cmp_gt_eq_spec, ?cmp_lt_eq_spec;
  try (rewrite boolean_and_spec by (by rewrite !length_lift_null); rewrite lift_null_and);
  apply lift_null_ext; intros v Hin; specialize (Hv v Hin); unfold in_bounds; lia.
Qed.

(** The mask of block bounds marks a row exactly when its block number is
    within them, and is null where the row is null: a bound the stored width
    cannot hold is not truncated into it. Above the width, a lower bound
    matches no row at all, nulls included. *)
Theorem block_numbers_within_spec c from to :
  match from with Some f => f < 2 ^ int_bits (ic_type c) | None => True end ->
  block_numbers_within c from to =
    imap (fun i v => if is_valid_in (ic_nulls c) i
                     then Some (in_bounds from to (block_number_of (ic_type c) v)) else None)
         (ic_values c).
Proof.
  intros Hf. unfold block_numbers_within. rewrite within_spec; [|by
    apply Forall_fmap, Forall_true; intros; apply as_unsigned_range;
    pose proof (int_bits_pos (ic_type c)); lia | done].
  unfold lift_null. rewrite imap_fmap. apply imap_ext. intros i v _; simpl.
  by rewrite block_number_of_unsigned.
Qed.

Lemma block_numbers_within_above c f to :
  2 ^ int_bits (ic_type c) <= f ->
  block_numbers_within c (Some f) to = of_bools (replicate (length (ic_values c)) false).
Proof.
  intros Hf. pose proof (int_bits_pos (ic_type c)).
  unfold block_numbers_within, within, try_native; simpl.
  assert (0 < 2 ^ int_bits (ic_type c)) by lia.
  destruct (Z.ltb_spec 0 f); simpl; [|lia].
  destruct (Z.ltb_spec f (2 ^ int_bits (ic_type c))); [lia|]. by rewrite length_fmap.
Qed.
End bounds_proofs.

Lemma BlockNumbers_resolve_ok column b :
  BlockNumbers_resolve column = Ok b ->
  exists c, IntColumn_resolve column = Some c /\ null_count column = O /\ b = {| bn_reader := c |}.
Proof.
  unfold BlockNumbers_resolve. destruct (IntColumn_resolve column) as [c|]; [|done].
  destruct (Nat.ltb_spec 0 (null_count column)); [done|].
  intros [= <-]. eexists; split_and!; [done|lia|done].
Qed.

(** The bytes of a column's join keys order as its join keys do. *)
Lemma join_key_bytes_concat c : join_key_bytes c = join_keys c ≫= to_be_bytes 8.
Proof.
  unfold join_key_bytes, join_keys. induction (ic_values c) as [|v l IH]; [done|].
  cbn [mbind list_bind fmap list_fmap] in *. by rewrite IH.
Qed.
