(* ===== verification/ArrowReference.v ===== *)
(** Reference kernels: an implementation of [ArrowKernels] that satisfies
    [ArrowLaws], so the laws hold together and the witnesses evaluate. *)
From stdpp Require Import base strings list sorting.
From Stdlib Require Import ZArith Lia Sorting.Sorted.
From S2P Require Import Prelude Machine ListLib Arrow.

Open Scope Z_scope.

Definition take_nulls (nulls : null_buffer) (idx : list nat) : null_buffer :=
  match nulls with
  | None => None
  | Some valid => Some ((fun i => default false (valid !! i)) <$> idx)
  end.

(** The offsets of lists of the given lengths, from [start]. *)
Fixpoint offsets_from (start : Z) (lens : list nat) : list Z :=
  start :: match lens with
           | [] => []
           | n :: lens => offsets_from (start + Z.of_nat n) lens
           end.

Definition row_span (offsets : list Z) (row : nat) : list nat :=
  seq (offset_at offsets row) (offset_at offsets (S row) - offset_at offsets row).

Fixpoint array_take (a : array) (idx : list nat) : array :=
  match a with
  | AInt t v n => AInt t ((fun i => default 0 (v !! i)) <$> idx) (take_nulls n idx)
  | AText t v n => AText t ((fun i => default ""%string (v !! i)) <$> idx) (take_nulls n idx)
  | ABool v n => ABool ((fun i => default false (v !! i)) <$> idx) (take_nulls n idx)
  | AFixed s v n => AFixed s ((fun i => default [] (v !! i)) <$> idx) (take_nulls n idx)
  | AList o v n =>
      AList (offsets_from 0 ((fun i => length (row_span o i)) <$> idx))
            (array_take v (idx ≫= row_span o)) (take_nulls n idx)
  | AOther s v n => AOther s ((fun i => default [] (v !! i)) <$> idx) (take_nulls n idx)
  | ALarge o v n =>
      ALarge (offsets_from 0 ((fun i => length (row_span o i)) <$> idx))
             (array_take v (idx ≫= row_span o)) (take_nulls n idx)
  | ADict t k v n => ADict t ((fun i => default 0 (k !! i)) <$> idx) v (take_nulls n idx)
  | APrim t v n => APrim t ((fun i => default 0 (v !! i)) <$> idx) (take_nulls n idx)
  | AStruct f len n => AStruct ((fun c : string * array => (c.1, array_take c.2 idx)) <$> f) (length idx) (take_nulls n idx)
  end.

Definition reference_logical_nulls (a : array) : null_buffer :=
  match a with
  | ADict _ keys _ _ => Some (logically_valid a <$> seq 0 (length keys))
  | _ => array_nulls a
  end.

(** The rows a mask selects. *)
Definition selected (m : mask) : list nat := masked m (seq 0 (length m)).

(** Concatenation of integer columns of one type, and of text columns, without
    nulls. *)
Definition reference_concat (l : list array) : option array :=
  match l with
  | AInt t _ _ :: _ =>
      values ← mapM (fun a => match a with
        | AInt t' v None => if decide (t' = t) then Some v else None | _ => None end) l;
      Some (AInt t (concat values) None)
  | AText t _ _ :: _ =>
      values ← mapM (fun a => match a with
        | AText t' v None => if decide (t' = t) then Some v else None | _ => None end) l;
      Some (AText t (concat values) None)
  | _ => None
  end.

#[local] Instance reference_kernels : ArrowKernels := {|
  filter_record_batch batch m :=
    {| columns := (fun c => (c.1, array_take c.2 (selected m))) <$> columns batch;
       num_rows := true_count m |};
  slice_batch batch start len :=
    {| columns := (fun c => (c.1, array_take c.2 (seq start len))) <$> columns batch;
       num_rows := len |};
  project_batch batch indices :=
    {| columns := omap (fun i => columns batch !! i) indices; num_rows := num_rows batch |};
  filter_u64 values m := masked m values;
  filter_bool values m := masked m values;
  cmp_gt_eq values nulls x := lift_null nulls (fun v => x <=? v) values;
  cmp_lt_eq values nulls x := lift_null nulls (fun v => v <=? x) values;
  cmp_eq_bool values nulls x := lift_null nulls (fun v => Bool.eqb v x) values;
  cmp_text_gt_eq values nulls x := lift_null nulls (text_le x) values;
  cmp_text_lt_eq values nulls x := lift_null nulls (fun v => text_le v x) values;
  boolean_and a b := zip_with and_null a b;
  or_kleene a b := zip_with or_null a b;
  take_mask m keys nulls :=
    imap (fun i key => if is_valid_in nulls i then default None (m !! Z.to_nat key) else None) keys;
  concat_arrays := reference_concat;
  null_union a b :=
    match a, b with
    | Some a, Some b => Some (zip_with andb a b)
    | Some n, None | None, Some n => Some n
    | None, None => None
    end;
  logical_nulls := reference_logical_nulls;
|}.

(** ** The laws *)

Lemma length_offsets_from start lens : length (offsets_from start lens) = S (length lens).
Proof. revert start; induction lens; intros; simpl; auto. Qed.

Lemma offsets_from_lookup start lens j :
  (j <= length lens)%nat ->
  offsets_from start lens !! j = Some (start + Z.of_nat (sum_list (take j lens))).
Proof.
  revert start j; induction lens as [|n lens IH]; intros start [|j] Hj; simpl in *; try lia;
    try (f_equal; lia).
  rewrite IH by lia. f_equal. lia.
Qed.

Lemma offsets_from_sorted start lens :
  StronglySorted Z.le (offsets_from start lens) /\
  Forall (fun o => start <= o <= start + Z.of_nat (sum_list lens)) (offsets_from start lens).
Proof.
  revert start; induction lens as [|n lens IH]; intros start; simpl.
  { split; repeat constructor; simpl; lia. }
  destruct (IH (start + Z.of_nat n)) as [Hs Hb]. split.
  - constructor; [done|]. eapply Forall_impl; [exact Hb|]. simpl; lia.
  - constructor; [lia|]. eapply Forall_impl; [exact Hb|]. simpl; lia.
Qed.

Lemma length_take_nulls_ok nulls idx : nulls_ok (take_nulls nulls idx) (length idx).
Proof. destruct nulls; simpl; [by rewrite length_fmap | done]. Qed.

Lemma is_valid_take nulls idx j i :
  idx !! j = Some i -> is_valid_in (take_nulls nulls idx) j = is_valid_in nulls i.
Proof. intros H. destruct nulls; simpl; [|done]. by rewrite list_lookup_fmap, H. Qed.

Lemma array_nulls_take a idx : array_nulls (array_take a idx) = take_nulls (array_nulls a) idx.
Proof. by destruct a. Qed.

Lemma array_len_take a idx : array_len (array_take a idx) = length idx.
Proof.
  destruct a; simpl; rewrite ?length_fmap; try done.
  all: by rewrite length_offsets_from, length_fmap.
Qed.

Lemma offset_at_le offsets i j :
  StronglySorted Z.le offsets -> (i <= j)%nat -> (j < length offsets)%nat ->
  (offset_at offsets i <= offset_at offsets j)%nat.
Proof.
  unfold offset_at. intros Hs Hij Hj.
  destruct (lookup_lt_is_Some_2 offsets j Hj) as [y Hy].
  destruct (lookup_lt_is_Some_2 offsets i ltac:(lia)) as [x Hx].
  rewrite Hx, Hy; simpl.
  assert (x <= y); [|lia].
  clear Hj. revert i j Hij Hx Hy. induction Hs as [|z l Hl IH Hz]; intros [|i] [|j] Hij Hx Hy; simpl in *; try done; try lia.
  - injection Hx as ->; injection Hy as ->; lia.
  - injection Hx as ->. rewrite Forall_forall in Hz. apply Hz. by eapply list_elem_of_lookup_2.
  - eapply IH; [|done|done]. lia.
Qed.

Lemma row_span_bound offsets child row k :
  Forall (fun o => 0 <= o <= Z.of_nat child) offsets -> (S row < length offsets)%nat ->
  k ∈ row_span offsets row -> (k < child)%nat.
Proof.
  unfold row_span, offset_at. intros Hf Hrow Hk%elem_of_seq.
  destruct (lookup_lt_is_Some_2 offsets (S row) Hrow) as [y Hy].
  rewrite Hy in Hk; simpl in *. rewrite Forall_forall in Hf.
  apply list_elem_of_lookup_2 in Hy. specialize (Hf y Hy). lia.
Qed.

Lemma row_spans_bound offsets child idx :
  Forall (fun o => 0 <= o <= Z.of_nat child) offsets ->
  Forall (fun i => (i < pred (length offsets))%nat) idx ->
  Forall (fun k => (k < child)%nat) (idx ≫= row_span offsets).
Proof.
  intros Hf Hidx. apply Forall_forall. intros k Hk. apply list_elem_of_bind in Hk as (i & Hk & Hi).
  rewrite Forall_forall in Hidx. specialize (Hidx i Hi). eapply row_span_bound; [done| |done]. lia.
Qed.

Lemma array_type_take a idx : array_type (array_take a idx) = array_type a.
Proof.
  revert idx; induction a as [| | | | | | | | |fields len nulls IH] using array_fields_ind; intros; simpl; try done; try (by rewrite IHa).
  f_equal. rewrite <- list_fmap_compose. apply list_fmap_ext. intros i f Hf. cbn. f_equal. by apply (Forall_lookup_1 _ _ _ _ IH Hf).
Qed.

Lemma sum_length_concat (f : nat -> list nat) idx :
  length (idx ≫= f) = sum_list ((fun i => length (f i)) <$> idx).
Proof. induction idx; simpl; [done|]. rewrite length_app. auto. Qed.

(** Element [k] of run [j] of a concatenation. *)
Lemma bind_lookup_run (f : nat -> list nat) idx j i k :
  idx !! j = Some i -> (k < length (f i))%nat ->
  (idx ≫= f) !! (sum_list (take j ((fun i => length (f i)) <$> idx)) + k)%nat = f i !! k.
Proof.
  revert j; induction idx as [|x idx IH]; intros [|j] H Hk; simpl in *; try done.
  - injection H as ->. by rewrite lookup_app_l.
  - rewrite lookup_app_r by lia. rewrite <- Nat.add_assoc, Nat.add_sub_swap, Nat.sub_diag by lia.
    by apply IH.
Qed.

Lemma array_take_nulls_ok a idx :
  nulls_ok (array_nulls (array_take a idx)) (array_len (array_take a idx)).
Proof. rewrite array_nulls_take, array_len_take. apply length_take_nulls_ok. Qed.

(** The elements of the rows taken, in ascending order as the rows are. *)
Lemma row_spans_sorted offsets idx :
  StronglySorted Z.le offsets -> Forall (fun i => (i < pred (length offsets))%nat) idx -> StronglySorted lt idx ->
  StronglySorted lt (idx ≫= row_span offsets).
Proof.
  intros Ho Hb Hs. induction Hs as [|i idx Hs IH Hi]; cbn; [constructor|]. apply Forall_cons in Hb as [Hib Hb].
  apply StronglySorted_app_2.
  2: { unfold row_span. apply StronglySorted_seq. }
  2: { by apply IH. }
  - intros x y Hx Hy. unfold row_span in Hx. apply elem_of_seq in Hx. apply list_elem_of_bind in Hy as (j & Hy & Hj).
    unfold row_span in Hy. apply elem_of_seq in Hy. rewrite Forall_forall in Hi, Hb. specialize (Hi j Hj). specialize (Hb j Hj).
    pose proof (offset_at_le offsets (S i) j Ho ltac:(lia) ltac:(lia)). lia.
Qed.

(** They are no more than the list has. *)
Lemma row_spans_length offsets idx bound :
  StronglySorted Z.le offsets -> Forall (fun o => o < bound) offsets -> 0 < bound ->
  Forall (fun i => (i < pred (length offsets))%nat) idx -> StronglySorted lt idx ->
  Z.of_nat (length (idx ≫= row_span offsets)) < bound.
Proof.
  intros Ho Hlt Hpos Hb Hs. pose proof (row_spans_sorted offsets idx Ho Hb Hs) as Hsorted.
  assert (Hle : (length (idx ≫= row_span offsets) <= Z.to_nat (bound - 1))%nat); [|lia].
  rewrite <- (length_seq (Z.to_nat (bound - 1)) 0). apply submseteq_length, NoDup_submseteq.
  - clear -Hsorted. induction Hsorted as [|x l Hs IH Hx]; constructor; [|done]. intros Hin.
    rewrite Forall_forall in Hx. specialize (Hx x Hin). lia.
  - intros k Hk. apply elem_of_seq. apply list_elem_of_bind in Hk as (i & Hk & Hi). rewrite Forall_forall in Hb. specialize (Hb i Hi).
    unfold row_span in Hk. apply elem_of_seq in Hk. unfold offset_at in Hk.
    destruct (lookup_lt_is_Some_2 offsets (S i) ltac:(lia)) as [y Hy]. rewrite Hy in Hk. cbn in Hk.
    pose proof (Forall_lookup_1 _ _ _ _ Hlt Hy) as Hy'. cbn in Hy'. lia.
Qed.

Lemma array_take_ok a idx :
  array_ok a -> Forall (fun i => (i < array_len a)%nat) idx -> StronglySorted lt idx -> array_ok (array_take a idx).
Proof.
  revert idx; induction a as [| | | |offsets a nulls IHa| |offsets a nulls IHa|key keys a nulls IHa| |fields len nulls IH] using array_fields_ind; intros idx Hok Hidx Hsorted;
    [..|apply struct_ok in Hok as [Hn Hf]; apply struct_ok; split; [by apply length_take_nulls_ok|];
        apply Forall_fmap, Forall_forall; intros f Hin; rewrite Forall_forall in IH, Hf; destruct (Hf f Hin) as [Hfok Hflen]; cbn;
        split; [apply IH; [done|done|cbn in Hidx; by rewrite Hflen|done]|apply array_len_take] ];
    destruct Hok as [Hn Ha];
    match goal with |- array_ok (array_take ?a ?i) =>
      pose proof (array_take_nulls_ok a i) as Hnulls end;
    (split; [exact Hnulls|]);
    cbn [array_take]; simpl in Hidx, Ha; try done.
  6: { destruct Ha as [Hv Hk]. split; [done|]. rewrite length_fmap. intros j Hj Hval.
    destruct (lookup_lt_is_Some_2 idx j Hj) as [i Hi]. rewrite list_lookup_fmap, Hi; cbn.
    rewrite (is_valid_take _ _ _ _ Hi) in Hval. apply Hk; [|done]. exact (Forall_lookup_1 _ _ _ _ Hidx Hi). }
  1-3, 6: apply Forall_fmap, Forall_forall; intros i Hi; rewrite Forall_forall in Hidx;
    specialize (Hidx i Hi); destruct (lookup_lt_is_Some_2 _ _ Hidx) as [x Hx]; simpl;
    rewrite Hx; simpl; exact (Forall_lookup_1 _ _ _ _ Ha Hx).
  all: destruct Ha as (Hv & Hlen & Hs & Hf & Hi32).
  all: pose proof (row_spans_bound offsets (array_len a) idx Hf Hidx) as Hspan.
  all: rewrite array_len_take, sum_length_concat.
  all: split_and!; [by apply IHa, row_spans_sorted | rewrite length_offsets_from; lia
    | apply offsets_from_sorted | | ].
  1, 3: eapply Forall_impl; [apply offsets_from_sorted|]; simpl; lia.
  - pose proof (row_spans_length offsets idx _ Hs Hi32 ltac:(lia) Hidx Hsorted) as Hlt. rewrite sum_length_concat in Hlt.
    eapply Forall_impl; [apply offsets_from_sorted|]. simpl in *. lia.
  - done.
Qed.

Lemma is_null_take a idx j i :
  idx !! j = Some i -> is_null (array_take a idx) j = is_null a i.
Proof. intros H. unfold is_null. by rewrite array_nulls_take, (is_valid_take _ _ _ _ H). Qed.

(** The elements of a list's row, taken with it. *)
Lemma list_cells_take a offsets idx j i :
  (forall idx j i, array_ok a -> Forall (fun i => (i < array_len a)%nat) idx ->
     idx !! j = Some i -> cell_at (array_take a idx) j = cell_at a i) ->
  array_ok a -> Forall (fun o => 0 <= o <= Z.of_nat (array_len a)) offsets ->
  Forall (fun i => (i < pred (length offsets))%nat) idx -> idx !! j = Some i ->
  let lens := (fun i => length (row_span offsets i)) <$> idx in
  let taken := offsets_from 0 lens in
  cell_at (array_take a (idx ≫= row_span offsets)) <$>
    seq (offset_at taken j) (offset_at taken (S j) - offset_at taken j) =
  cell_at a <$> seq (offset_at offsets i) (offset_at offsets (S i) - offset_at offsets i).
Proof.
  intros IHa Hv Hf Hidx Hj. cbn zeta.
  set (lens := (fun i => length (row_span offsets i)) <$> idx).
  assert (Hjlt : (j < length idx)%nat) by by eapply lookup_lt_Some.
  assert (Hi : (S i < length offsets)%nat).
  { rewrite Forall_forall in Hidx. apply list_elem_of_lookup_2 in Hj. specialize (Hidx i Hj).
    simpl in Hidx. lia. }
  assert (Hstart : offset_at (offsets_from 0 lens) j = sum_list (take j lens)).
  { unfold offset_at. rewrite offsets_from_lookup by (unfold lens; rewrite length_fmap; lia).
    simpl. lia. }
  assert (Hstop : offset_at (offsets_from 0 lens) (S j)
                  = (sum_list (take j lens) + length (row_span offsets i))%nat).
  { unfold offset_at. rewrite offsets_from_lookup by (unfold lens; rewrite length_fmap; lia).
    erewrite take_S_r by (unfold lens; by rewrite list_lookup_fmap, Hj).
    rewrite sum_list_with_app. simpl. lia. }
  rewrite Hstart, Hstop. rewrite Nat.add_sub_swap, Nat.sub_diag by lia. simpl.
  assert (E : seq (offset_at offsets i) (offset_at offsets (S i) - offset_at offsets i)
              = row_span offsets i) by done. rewrite E.
  apply list_eq. intros k. rewrite !list_lookup_fmap.
  destruct (decide (k < length (row_span offsets i))%nat) as [Hk|Hk].
  - rewrite lookup_seq_lt by done. simpl.
    pose proof (bind_lookup_run (row_span offsets) idx j i k Hj Hk) as Hrun.
    destruct (lookup_lt_is_Some_2 (row_span offsets i) k Hk) as [p Hp].
    rewrite Hp; simpl. f_equal. apply IHa; [done| |by rewrite <- Hp, <- Hrun].
    by apply row_spans_bound.
  - rewrite lookup_seq_ge by lia. by rewrite (lookup_ge_None_2 (row_span _ _)) by lia.
Qed.

Lemma cell_take a idx j i :
  array_ok a -> Forall (fun i => (i < array_len a)%nat) idx ->
  idx !! j = Some i -> cell_at (array_take a idx) j = cell_at a i.
Proof.
  revert idx j i; induction a as [| | | |offsets a nulls IHa| |offsets a nulls IHa|key keys a nulls IHa| |fields len nulls IH] using array_fields_ind; intros idx j i Hok Hidx Hj;
    match goal with |- cell_at (array_take ?a _) _ = _ =>
      pose proof (is_null_take a idx j i Hj) as Hnull end;
    cbn [array_take] in *; cbn [cell_at]; rewrite Hnull;
    destruct (is_null _ i); try done; rewrite ?list_lookup_fmap, ?Hj; try done.
  3: { unfold offset_at. by rewrite list_lookup_fmap, Hj. }
  3: { apply struct_ok in Hok as [_ Hf]. f_equal. rewrite <- list_fmap_compose. apply list_fmap_ext. intros k f Hk. cbn.
       destruct (Forall_lookup_1 _ _ _ _ Hf Hk) as [Hfok Hlen]. cbn in Hidx. apply (Forall_lookup_1 _ _ _ _ IH Hk); [done|by rewrite Hlen|done]. }
  all: destruct Hok as (_ & Hv & Hlen & Hs & Hf & _).
  all: f_equal; by apply list_cells_take.
Qed.

Lemma selected_bound m n : length m = n -> Forall (fun i => (i < n)%nat) (selected m).
Proof.
  intros <-. apply Forall_forall. intros i (j & _ & Hj)%elem_of_masked.
  apply lookup_seq in Hj. lia.
Qed.

Lemma selected_sorted m : StronglySorted lt (selected m).
Proof.
  unfold selected. generalize (StronglySorted_seq 0 (length m)). generalize (seq 0 (length m)). intros l Hl. revert m.
  induction Hl as [|x l Hl IH Hx]; intros [|o m]; try constructor. cbn [masked]. destruct o as [[]|]; try apply IH.
  constructor; [apply IH|]. apply Forall_forall. intros y (j & _ & Hy)%elem_of_masked. apply list_elem_of_lookup_2 in Hy.
  rewrite Forall_forall in Hx. by apply Hx.
Qed.

Lemma length_selected m : length (selected m) = true_count m.
Proof. unfold selected. apply length_masked. by rewrite length_seq. Qed.

Lemma rows_of_take_at cols idx n :
  Forall (fun c => array_ok c.2 /\ array_len c.2 = n) cols ->
  Forall (fun i => (i < n)%nat) idx ->
  rows_of {| columns := (fun c => (c.1, array_take c.2 idx)) <$> cols;
             num_rows := length idx |} =
  row_of {| columns := cols; num_rows := n |} <$> idx.
Proof.
  intros Hok Hidx. unfold rows_of; cbn [num_rows]. apply list_eq. intros j.
  rewrite !list_lookup_fmap. destruct (idx !! j) as [i|] eqn:Hj; cbn.
  - rewrite lookup_seq_lt by (by eapply lookup_lt_Some). cbn. f_equal.
    unfold row_of; cbn [columns]. rewrite <- list_fmap_compose. apply list_fmap_ext.
    intros k c Hc; cbn. f_equal. rewrite Forall_forall in Hok.
    destruct (Hok c) as [Ha Hl]; [by eapply list_elem_of_lookup_2|].
    apply cell_take; [done| |done]. by rewrite Hl.
  - rewrite lookup_seq_ge; [done|]. apply lookup_ge_None in Hj. lia.
Qed.

Lemma batch_take_ok cols idx n :
  Forall (fun c => array_ok c.2 /\ array_len c.2 = n) cols ->
  Forall (fun i => (i < n)%nat) idx -> StronglySorted lt idx ->
  Forall (fun c => array_ok c.2 /\ array_len c.2 = length idx)
    ((fun c : string * array => (c.1, array_take c.2 idx)) <$> cols).
Proof.
  intros Hok Hidx Hsorted. apply Forall_fmap. eapply Forall_impl; [exact Hok|].
  intros c [Ha Hl]; cbn. rewrite array_len_take. split; [|done].
  apply array_take_ok; [done| |done]. by rewrite Hl.
Qed.

Lemma schema_take cols n idx :
  batch_schema {| columns := (fun c => (c.1, array_take c.2 idx)) <$> cols; num_rows := n |} =
  (fun c => (c.1, array_type c.2)) <$> cols.
Proof.
  unfold batch_schema; cbn [columns]. rewrite <- list_fmap_compose. apply list_fmap_ext. intros _ c _. cbn. by rewrite array_type_take.
Qed.

(** Cells of a column without nulls. *)
Lemma plain_cells {A} (a : array) (values : list A) (f : A -> cell) d :
  array_nulls a = None -> array_len a = length values ->
  (forall row, is_null a row = false -> cell_at a row = f (default d (values !! row))) -> cells a = f <$> values.
Proof.
  intros Hn Hl H. unfold cells. rewrite Hl. apply list_eq. intros i. rewrite !list_lookup_fmap.
  destruct (values !! i) as [v|] eqn:Ev; cbn.
  - rewrite lookup_seq_lt by (by eapply lookup_lt_Some). cbn. rewrite H; [by rewrite Ev|]. unfold is_null. by rewrite Hn.
  - rewrite lookup_seq_ge; [done|]. by apply lookup_ge_None.
Qed.

Lemma concat_values {A} (get : array -> option (list A)) (make : list A -> array) (f : A -> cell) (P : A -> Prop) l values :
  (forall a v, get a = Some v -> a = make v) ->
  (forall v, cells (make v) = f <$> v) -> (forall v, array_ok (make v) <-> Forall P v) ->
  (forall v w, array_type (make v) = array_type (make w)) ->
  Forall array_ok l -> mapM get l = Some values ->
  array_ok (make (concat values)) /\ cells (make (concat values)) = concat (cells <$> l) /\
  Forall (fun b => array_type b = array_type (make (concat values))) l.
Proof.
  intros Hget Hcells Hok Htype Hl Hv%mapM_Some. rewrite Hcells, Hok.
  assert (Forall P (concat values) /\ f <$> concat values = concat (cells <$> l) /\
    forall w, Forall (fun b => array_type b = array_type (make w)) l) as (H1 & H2 & H3); [|done].
  induction Hv as [|a v l values Ha Hv IH]; [by split_and!; constructor|].
  apply Forall_cons in Hl as [Hal Hl]. destruct (IH Hl) as (H1 & H2 & H3). rewrite (Hget a v Ha) in Hal |- *.
  split_and!; cbn [concat].
  - apply Forall_app. split; [by apply Hok|done].
  - rewrite fmap_app, fmap_cons. cbn [concat]. by rewrite Hcells, H2.
  - intros w. constructor; [apply Htype|done].
Qed.

Lemma reference_concat_cells l a : Forall array_ok l -> reference_concat l = Some a ->
  array_ok a /\ cells a = concat (cells <$> l) /\ Forall (fun b => array_type b = array_type a) l.
Proof.
  unfold reference_concat. intros Hl. destruct l as [|[t v n|t v n| | | | | | | |] l]; try done;
    destruct (mapM _ _) as [values|] eqn:E; cbn; try done; intros [= <-].
  - apply (concat_values _ (fun v => AInt t v None) CInt (in_int_type t) _ values) in E; try done.
    + intros [t' v' [n'|]| | | | | | | | |] w Hw; try done. case_decide; [subst|done]. by injection Hw as ->.
    + intros w. by apply (plain_cells _ w CInt 0).
    + intros w. cbn. tauto.
  - apply (concat_values _ (fun v => AText t v None) CText (fun s => Z.of_nat (String.length s) < 2 ^ 31) _ values) in E; try done.
    + intros [|t' v' [n'|]| | | | | | | |] w Hw; try done. case_decide; [subst|done]. by injection Hw as ->.
    + intros w. by apply (plain_cells _ w CText ""%string).
    + intros w. cbn. tauto.
Qed.

#[local] Instance reference_laws : ArrowLaws reference_kernels.
Proof.
  split; try done.
  - intros [cols n] m Hok Hm; cbn -[rows_of]. rewrite <- length_selected.
    pose proof (selected_bound m n Hm) as Hb. split_and!.
    + eapply batch_take_ok; [done..|]. apply selected_sorted.
    + done.
    + rewrite (rows_of_take_at _ _ n) by done. unfold rows_of, selected; cbn [num_rows].
      by rewrite masked_fmap, Hm.
    + exact (schema_take cols 0 _).
  - intros [cols n] start len Hok Hle; cbn -[rows_of] in *.
    assert (Hb : Forall (fun i => (i < n)%nat) (seq start len)).
    { apply Forall_forall. intros i Hi%elem_of_seq. lia. }
    pose proof (length_seq len start) as Hl. split_and!.
    + unfold batch_ok; cbn. pose proof (batch_take_ok cols _ n Hok Hb (StronglySorted_seq start len)) as H. by rewrite Hl in H.
    + done.
    + pose proof (rows_of_take_at cols _ n Hok Hb) as H. rewrite Hl in H. etrans; [exact H|].
      unfold rows_of, slice; cbn [num_rows]. rewrite skipn_map, firstn_map, drop_seq, take_seq.
      f_equal. f_equal; lia.
    + exact (schema_take cols 0 _).
  - exact reference_concat_cells.
  - intros [a|] [b|] len row Ha Hb; cbn in *.
    + split_and!; [rewrite length_zip_with; lia| |naive_solver].
      destruct (decide (row < length a)%nat) as [Hr|Hr].
      * destruct (lookup_lt_is_Some_2 a row Hr) as [x Hx].
        destruct (lookup_lt_is_Some_2 b row ltac:(lia)) as [y Hy].
        rewrite Hx, Hy. cbn. by rewrite (proj2 (lookup_zip_with_Some _ _ _ _ _)) by eauto.
      * rewrite !lookup_ge_None_2; [done|..]; rewrite ?length_zip_with; lia.
    + rewrite andb_true_r. naive_solver.
    + naive_solver.
    + naive_solver.
  - intros a row Ha; cbn. destruct a; cbn [reference_logical_nulls logically_valid array_nulls];
      try by (split; [by apply (array_ok_nulls _ Ha)|intros _; by rewrite andb_true_r]).
    split; [cbn; by rewrite length_fmap, length_seq|]. cbn [array_len]. intros Hr.
    cbn [is_valid_in]. by rewrite list_lookup_fmap, lookup_seq_lt.
Qed.

(** The reference instances, for witnesses to import. *)
Module ArrowInstances.
#[export] Existing Instance reference_kernels.
#[export] Existing Instance reference_laws.
End ArrowInstances.
