(* ===== verification/Counting.v ===== *)
(** The counting pass that groups entries by a small dense key, which the block
    index and the address index both spell out: count each key's entries into
    the slot after it, sum the slots in place, then write each entry at its
    key's next free position. Indexing is checked: an index past the end of a
    vector is a panic. *)
From stdpp Require Import base list.
From Stdlib Require Import Lia.
From S2P Require Import Prelude ListLib Arrow.

#[local] Open Scope nat_scope.

(** [v[i]] and [v[i] = x]. *)
Definition vec_get {E A} (v : list A) (i : nat) : outcome E A := expect (v !! i).
Definition vec_set {E A} (v : list A) (i : nat) (x : A) : outcome E (list A) :=
  if decide (i < length v) then Ok (<[i:=x]> v) else Panic.

Section counting.
Context {E A : Type}.
Implicit Types (entries : list (nat * A)) (starts next : list nat).

(** [starts[key + 1] += 1]. *)
Definition count_entry starts (e : nat * A) : outcome E (list nat) :=
  let* c := vec_get starts (S e.1) in
  vec_set starts (S e.1) (S c).

(** [starts[p] += starts[p - 1]]. *)
Definition add_previous starts (p : nat) : outcome E (list nat) :=
  let* prev := vec_get starts (pred p) in
  let* own := vec_get starts p in
  vec_set starts p (own + prev).

(** Where each of [n] keys' runs starts; the last slot is the total. *)
Definition run_starts (n : nat) entries : outcome E (list nat) :=
  let* starts := foldM count_entry entries (replicate (S n) 0) in
  foldM add_previous (seq 1 n) starts.

(** [rows[next[key]] = x; next[key] += 1]. *)
Definition place_entry (st : list nat * list A) (e : nat * A) : outcome E (list nat * list A) :=
  let* at_ := vec_get st.1 e.1 in
  let* rows := vec_set st.2 at_ e.2 in
  let* next := vec_set st.1 e.1 (S at_) in
  Ok (next, rows).

(** The starts, and the entries placed run by run in [vec![blank; total]]. *)
Definition group_runs (n : nat) (blank : A) entries : outcome E (list nat * list A) :=
  let* starts := run_starts n entries in
  let* total := vec_get starts n in
  let* placed := foldM place_entry entries (starts, replicate total blank) in
  Ok (starts, placed.2).

(** ** What the pass computes *)

Definition count_of (p : nat) entries : nat := length (filter (fun e => e.1 = p) entries).
Definition base_of (p : nat) entries : nat := length (filter (fun e => e.1 < p) entries).

(** The entries of one key, in order. *)
Definition run_of (p : nat) entries : list A := (filter (fun e => e.1 = p) entries).*2.

Lemma vec_get_ok (v : list A) i x : v !! i = Some x -> vec_get (E:=E) v i = Ok x.
Proof. unfold vec_get. by intros ->. Qed.

Lemma vec_set_ok {B} (v : list B) i x : i < length v -> vec_set (E:=E) v i x = Ok (<[i:=x]> v).
Proof. intros. unfold vec_set. by rewrite decide_True. Qed.

Lemma vec_get_nat_ok (v : list nat) i x : v !! i = Some x -> vec_get (E:=E) v i = Ok x.
Proof. unfold vec_get. by intros ->. Qed.

Lemma count_of_app p l1 l2 : count_of p (l1 ++ l2) = count_of p l1 + count_of p l2.
Proof. unfold count_of. by rewrite filter_app, length_app. Qed.

Lemma count_of_cons p e l :
  count_of p (e :: l) = (if decide (e.1 = p) then 1 else 0) + count_of p l.
Proof. unfold count_of. rewrite filter_cons. by case_decide. Qed.

Lemma base_of_succ p l : base_of (S p) l = base_of p l + count_of p l.
Proof.
  unfold base_of, count_of. induction l as [|e l IH]; [done|].
  rewrite !filter_cons. repeat case_decide; simpl; lia.
Qed.

Lemma base_of_0 l : base_of 0 l = 0.
Proof.
  unfold base_of. induction l as [|e l IH]; [done|].
  rewrite filter_cons. case_decide; [lia|done].
Qed.

Lemma base_of_mono p q l : p <= q -> base_of p l <= base_of q l.
Proof. induction 1; [done|]. rewrite base_of_succ. lia. Qed.

Lemma base_of_all n l : Forall (fun e => e.1 < n) l -> base_of n l = length l.
Proof.
  intros H. unfold base_of. induction H as [|e l He Hl IH]; [done|].
  rewrite filter_cons_True by done. simpl. by rewrite IH.
Qed.

Lemma length_run_of p l : length (run_of p l) = count_of p l.
Proof. apply length_fmap. Qed.

(** The counting loop. *)
Lemma count_entries_ok n entries starts :
  length starts = S n -> Forall (fun e => e.1 < n) entries ->
  exists starts', foldM count_entry entries starts = Ok starts' /\ length starts' = S n /\
    starts' !! 0 = starts !! 0 /\
    forall p, p < n -> starts' !! S p = (fun c => c + count_of p entries) <$> starts !! S p.
Proof.
  intros Hlen Hk; revert starts Hlen; induction Hk as [|[k x] l Hx Hl IH]; intros starts Hlen; simpl in *.
  { exists starts. split_and!; try done. intros p _.
    destruct (starts !! S p); simpl; [f_equal; unfold count_of; simpl; lia | done]. }
  destruct (lookup_lt_is_Some_2 starts (S k)) as [c Hc]; [lia|].
  unfold count_entry at 1; simpl. rewrite (vec_get_nat_ok _ _ _ Hc); simpl.
  rewrite vec_set_ok by lia; simpl.
  destruct (IH (<[S k:=S c]> starts)) as (s' & -> & Hl' & H0 & Hs); [by rewrite length_insert|].
  exists s'. split_and!; [done|done| by rewrite H0, list_lookup_insert_ne |].
  intros p Hp. rewrite Hs, count_of_cons by done; simpl. case_decide as Ep.
  - subst k. rewrite list_lookup_insert_eq by lia. rewrite Hc; simpl. f_equal; lia.
  - rewrite list_lookup_insert_ne by lia. done.
Qed.

(** The summing loop, up to position [m]. *)
Lemma add_previous_ok n (cnt : nat -> nat) m starts :
  m <= n -> length starts = S n -> starts !! 0 = Some 0 ->
  (forall p, p < n -> starts !! S p = Some (cnt p)) ->
  exists starts', foldM add_previous (seq 1 m) starts = Ok starts' /\ length starts' = S n /\
    forall p, p <= n -> starts' !! p =
      Some (if decide (p <= m) then sum_list (cnt <$> seq 0 p) else cnt (pred p)).
Proof.
  intros Hm Hlen H0 Hs; induction m as [|m IH].
  { exists starts. split_and!; [done|done|]. intros [|p] Hp; simpl; [done|].
    apply Hs. lia. }
  destruct IH as (s' & Hf & Hl' & Hp'); [lia|].
  rewrite seq_S, foldM_app, Hf; simpl. unfold add_previous at 1.
  rewrite (vec_get_nat_ok s' (pred (S m)) (sum_list (cnt <$> seq 0 m))).
  2: { simpl. rewrite Hp' by lia. by rewrite decide_True by lia. }
  rewrite (vec_get_nat_ok s' (S m) (cnt m)).
  2: { rewrite Hp' by lia. by rewrite decide_False by lia. }
  simpl. rewrite vec_set_ok by lia. simpl. eexists. split_and!; [done|by rewrite length_insert|].
  intros p Hp. destruct (decide (p = S m)) as [->|].
  - rewrite list_lookup_insert_eq by lia. rewrite decide_True by lia. f_equal.
    rewrite seq_S, fmap_app, sum_list_with_app. simpl. lia.
  - rewrite list_lookup_insert_ne by done. rewrite Hp' by done.
    repeat case_decide; lia || done.
Qed.

Lemma sum_counts p entries : sum_list ((fun q => count_of q entries) <$> seq 0 p) = base_of p entries.
Proof.
  induction p as [|p IH]; [by rewrite base_of_0|].
  rewrite seq_S, fmap_app, sum_list_with_app, IH, base_of_succ. simpl. lia.
Qed.

Lemma run_starts_ok n entries :
  Forall (fun e => e.1 < n) entries ->
  run_starts n entries = Ok ((fun p => base_of p entries) <$> seq 0 (S n)).
Proof.
  intros Hk. unfold run_starts.
  destruct (count_entries_ok n entries (replicate (S n) 0)) as (s & -> & Hl & H0 & Hs);
    [by rewrite length_replicate | done |]. cbn [obind].
  destruct (add_previous_ok n (fun p => count_of p entries) n s) as (s' & -> & Hl' & Hs');
    [done|done|by rewrite H0| |].
  - intros p Hp. rewrite Hs by done. by rewrite lookup_replicate_2 by lia.
  - f_equal. apply list_eq. intros p. rewrite list_lookup_fmap.
    destruct (decide (p <= n)).
    + rewrite Hs', lookup_seq_lt by lia. rewrite decide_True by done. by rewrite sum_counts.
    + rewrite lookup_seq_ge by lia. by rewrite lookup_ge_None_2 by lia.
Qed.

(** The placing loop: after a part of the entries, each key's entries of that
    part fill the front of its run, and [next] points behind them. *)
Definition placed_so_far (all part : list (nat * A)) (n : nat) (st : list nat * list A) : Prop :=
  length st.1 = S n /\ length st.2 = length all /\
  (forall p, p < n -> st.1 !! p = Some (base_of p all + count_of p part)) /\
  (forall p j x, p < n -> run_of p part !! j = Some x -> st.2 !! (base_of p all + j) = Some x).

Lemma place_entry_ok all part rest n e st :
  all = part ++ e :: rest -> Forall (fun e => e.1 < n) all ->
  placed_so_far all part n st ->
  exists st', place_entry st e = Ok st' /\ placed_so_far all (part ++ [e]) n st'.
Proof.
  intros Hall Hk (Hl1 & Hl2 & Hnext & Hrows). destruct e as [k x], st as [next rows]; simpl in *.
  assert (Hkn : k < n).
  { rewrite Hall in Hk. apply Forall_app in Hk as [_ Hk]. by apply Forall_cons in Hk as [? _]. }
  assert (Hroom : count_of k part < count_of k all).
  { rewrite Hall, count_of_app, count_of_cons; simpl. rewrite decide_True by done. lia. }
  assert (Hin : forall p j, p < n -> j < count_of p all -> base_of p all + j < length all).
  { intros p j Hp Hj. rewrite <- (base_of_all n all Hk).
    pose proof (base_of_mono (S p) n all ltac:(lia)). rewrite base_of_succ in *. lia. }
  assert (Hsep : forall p j, p < n -> p <> k -> j < count_of p part ->
                 base_of p all + j <> base_of k all + count_of k part).
  { intros p j Hp Hne Hj.
    assert (count_of p part <= count_of p all) by (rewrite Hall, count_of_app; lia).
    destruct (decide (p < k)).
    - pose proof (base_of_mono (S p) k all ltac:(lia)). rewrite base_of_succ in *. lia.
    - pose proof (base_of_mono (S k) p all ltac:(lia)). rewrite base_of_succ in *. lia. }
  unfold place_entry; simpl. rewrite (vec_get_nat_ok _ _ _ (Hnext k Hkn)); simpl.
  rewrite vec_set_ok by (rewrite Hl2; apply Hin; done). simpl.
  rewrite vec_set_ok by lia. simpl. eexists. split; [done|].
  split_and!; simpl; rewrite ?length_insert; try done.
  - intros p Hp. rewrite count_of_app, count_of_cons; simpl.
    destruct (decide (p = k)) as [->|].
    + rewrite list_lookup_insert_eq by lia. rewrite decide_True by done. f_equal.
      unfold count_of at 3; simpl. lia.
    + rewrite list_lookup_insert_ne by done. rewrite decide_False by done.
      rewrite Hnext by done. f_equal. unfold count_of at 3; simpl. lia.
  - intros p j y Hp Hj. unfold run_of in Hj. rewrite filter_app, fmap_app in Hj.
    fold (run_of p part) in Hj. apply lookup_app_Some in Hj as [Hj|[Hge Hj]].
    + pose proof (lookup_lt_Some _ _ _ Hj) as Hlt. rewrite length_run_of in Hlt.
      rewrite list_lookup_insert_ne; [by apply Hrows|].
      destruct (decide (p = k)) as [->|]; [lia|]. intros Heq. by apply (Hsep p j).
    + rewrite filter_cons in Hj; simpl in Hj. rewrite length_run_of in *. case_decide as Ek; simpl in Hj.
      * subst p. assert (j = count_of k part) as ->.
        { apply lookup_lt_Some in Hj. simpl in Hj. lia. }
        rewrite Nat.sub_diag in Hj. injection Hj as <-.
        apply list_lookup_insert_eq. rewrite Hl2. by apply Hin.
      * done.
Qed.

Lemma place_entries_ok all part rest n st :
  all = part ++ rest -> Forall (fun e => e.1 < n) all -> placed_so_far all part n st ->
  exists st', foldM place_entry rest st = Ok st' /\ placed_so_far all all n st'.
Proof.
  revert part st; induction rest as [|e rest IH]; intros part st Hall Hk Hst; simpl.
  { rewrite app_nil_r in Hall. subst. eauto. }
  destruct (place_entry_ok all part rest n e st Hall Hk Hst) as (st' & -> & Hst'). simpl.
  apply (IH (part ++ [e])); [by rewrite <- app_assoc | done | done].
Qed.

(** Grouping succeeds, and each key's run holds its entries in their order. *)
Lemma group_runs_ok n blank entries :
  Forall (fun e => e.1 < n) entries ->
  exists rows, group_runs n blank entries = Ok ((fun p => base_of p entries) <$> seq 0 (S n), rows) /\
    length rows = length entries /\
    forall p, p < n -> slice rows (base_of p entries) (base_of (S p) entries) = run_of p entries.
Proof.
  intros Hk. unfold group_runs. rewrite run_starts_ok by done. cbn [obind].
  rewrite (vec_get_nat_ok _ n (length entries)).
  2: { rewrite list_lookup_fmap, lookup_seq_lt by lia. simpl. by rewrite base_of_all. }
  cbn [obind].
  destruct (place_entries_ok entries [] entries n
    ((fun p => base_of p entries) <$> seq 0 (S n), replicate (length entries) blank))
    as ([next rows] & -> & Hl1 & Hl2 & _ & Hrows); [done|done| |].
  { split_and!; [cbn; by rewrite length_fmap, length_seq | apply length_replicate | |].
    - intros p Hp. cbn [fst]. rewrite list_lookup_fmap, lookup_seq_lt by lia.
      cbn. f_equal. unfold count_of; simpl. lia.
    - intros p j x _ Hj. unfold run_of in Hj; simpl in Hj. by rewrite lookup_nil in Hj. }
  cbn [fst snd obind] in *. exists rows. split_and!; [done|done|]. intros p Hp.
  pose proof (base_of_mono (S p) n entries Hp) as Hb. rewrite (base_of_all n) in Hb by done.
  rewrite base_of_succ in *. unfold slice.
  rewrite Nat.add_sub_swap, Nat.sub_diag by lia. simpl.
  apply list_eq_same_length with (count_of p entries); [by rewrite length_run_of| |].
  { rewrite length_take, length_drop. lia. }
  intros j x y Hj Hx Hy. apply lookup_take_Some in Hx as [Hx _]. rewrite lookup_drop in Hx.
  rewrite (Hrows p j y Hp Hy) in Hx. congruence.
Qed.
End counting.
