(* ===== verification/BlockIndex.v ===== *)
(** src/output/block_index.rs: the block numbers a set of batches carries, where
    each block of a page sits in it, and the rows of each block in file order. *)
From stdpp Require Import base strings list gmap sets.
From Stdlib Require Import ZArith Lia Sorting.Sorted.
From S2P Require Import Prelude Machine ListLib Errors Arrow Integers Counting.

#[local] Open Scope Z_scope.

(** One row the visitor is called with: batch, row, block number. *)
Definition visit : Type := nat * nat * Z.

(** What [for_each_block_number] visits in one batch. *)
Definition batch_visits (bn_column : string) (b : nat * RecordBatch) : result (list visit) :=
  match column_by_name b.2 bn_column with
  | None => Ok []
  | Some col =>
      match IntColumn_resolve col with
      | None => Err (EngineError UnsupportedKeyType)
      | Some reader =>
          Ok ((fun row => (b.1, row, int_block_number reader row)) <$> seq 0 (int_len reader))
      end
  end.

(** [src/src/output/block_index.rs:8-42] for_each_block_number. The visits in
    order; the callers fold over them, and drop what they folded on an error. *)
Definition for_each_block_number (batches : list RecordBatch) (bn_column : string)
    : result (list visit) :=
  omap_ok mjoin (mapM_ok (batch_visits bn_column) (enumerate batches)).

(** [src/src/output/block_index.rs:44-58] compute_block_range. *)
Definition compute_block_range (batches : list RecordBatch) (bn_column : string)
    : result (option Z * option Z) :=
  let* visits := for_each_block_number batches bn_column in
  Ok (fold_left (fun acc (v : visit) =>
        (Some (match acc.1 with Some m => Z.min m v.2 | None => v.2 end),
         Some (match acc.2 with Some m => Z.max m v.2 | None => v.2 end)))
      visits (None, None)).

(** [src/src/output/block_index.rs:60-67] BlockPositions. *)
Record BlockPositions := { bp_blocks : list Z; bp_dense : option (list Z) }.

(** [src/src/output/block_index.rs:70-88] BlockPositions::new. *)
Definition BlockPositions_new (blocks : list Z) : result BlockPositions :=
  let first := default 0 (head blocks) in
  let span :=
    match head blocks, last blocks with
    | Some first, Some last => wrapping_sub last first + 1
    | _, _ => 0
    end in
  let slots := Z.max (Z.of_nat (length blocks) * 4) (2 ^ 16) in
  if span <=? slots then
    let* dense :=
      foldM (fun dense (e : nat * Z) =>
               vec_set dense (Z.to_nat (wrapping_sub e.2 first)) (as_u32 (Z.of_nat e.1) + 1))
            (enumerate blocks) (replicate (Z.to_nat span) 0) in
    Ok {| bp_blocks := blocks; bp_dense := Some dense |}
  else Ok {| bp_blocks := blocks; bp_dense := None |}.

(** [src/src/output/block_index.rs:90-92] BlockPositions::len. *)
Definition bp_len (p : BlockPositions) : nat := length (bp_blocks p).

(** [src/src/output/block_index.rs:94-103] BlockPositions::position. *)
Definition position (p : BlockPositions) (block : Z) : option nat :=
  match bp_dense p with
  | Some dense =>
      first ← head (bp_blocks p);
      slot ← checked_sub block first;
      pos ← dense !! Z.to_nat slot;
      Z.to_nat <$> checked_sub pos 1
  | None => binary_search (bp_blocks p) block
  end.

(** [src/src/output/block_index.rs:106-113] BlockIndex. *)
Record BlockIndex := { bi_starts : list nat; bi_rows : list (nat * nat) }.

(** The rows of the page's blocks, keyed by the block's position. *)
Definition positioned (p : BlockPositions) (visits : list visit) : list (nat * (nat * nat)) :=
  omap (fun v : visit => (fun pos => (pos, v.1)) <$> position p v.2) visits.

(** [src/src/output/block_index.rs:116-144] BlockIndex::build. *)
Definition BlockIndex_build (batches : list RecordBatch) (bn_column : string)
    (positions : BlockPositions) : result BlockIndex :=
  let* visits := for_each_block_number batches bn_column in
  let* grouped := group_runs (bp_len positions) (O, O) (positioned positions visits) in
  Ok {| bi_starts := grouped.1; bi_rows := grouped.2 |}.

(** [src/src/output/block_index.rs:146-149] BlockIndex::rows. *)
Definition index_rows (i : BlockIndex) (pos : nat) : result (list (nat * nat)) :=
  let* start := vec_get (bi_starts i) pos in
  let* stop := vec_get (bi_starts i) (S pos) in
  Ok (slice (bi_rows i) start stop).

(** [src/src/output/block_index.rs:162-173] collect_block_numbers. *)
Definition collect_block_numbers (batches : list RecordBatch) (bn_column : string)
    (block_numbers : gset Z) : result (gset Z) :=
  let* visits := for_each_block_number batches bn_column in
  Ok (fold_left (fun s (v : visit) => {[v.2]} ∪ s) visits block_numbers).

(** [src/src/output/block_index.rs:175-187] collect_boundary_blocks. *)
Definition collect_boundary_blocks (batches : list RecordBatch) (bn_column : string)
    (block_numbers : gset Z) : result (gset Z) :=
  let* range := compute_block_range batches bn_column in
  let add o s := match o with Some b => {[b]} ∪ s | None => s end in
  Ok (add range.2 (add range.1 block_numbers)).

(** ** Visits *)

(** Reading the numbers is refused only where their column holds no integers. *)
Lemma for_each_block_number_refused batches bn :
  match for_each_block_number batches bn with Ok _ => True | Err e => e = EngineError UnsupportedKeyType | Panic => False end.
Proof.
  unfold for_each_block_number, omap_ok. induction (enumerate batches) as [|b l IH]; [done|]. cbn [mapM_ok].
  unfold batch_visits at 1. destruct (column_by_name b.2 bn) as [col|]; [destruct (IntColumn_resolve col)|]; cbn [obind]; [|done|];
    destruct (mapM_ok (batch_visits bn) l); done.
Qed.

(** A row visited is a row of its batch. *)
Lemma visits_rows batches bn visits v :
  Forall batch_ok batches -> for_each_block_number batches bn = Ok visits -> v ∈ visits ->
  exists b, batches !! v.1.1 = Some b /\ (v.1.2 < num_rows b)%nat.
Proof.
  unfold for_each_block_number, omap_ok. intros Hok H Hv. inv_ok.
  apply mapM_ok_Forall2 in Hok0. apply list_elem_of_join in Hv as (l & Hv & Hl).
  apply list_elem_of_lookup in Hl as [i Hi].
  destruct (Forall2_lookup_r _ _ _ _ _ Hok0 Hi) as ([j b] & Hj & Hb).
  unfold batch_visits in Hb; cbn [fst snd] in Hb.
  destruct (column_by_name b bn) as [col|] eqn:Hc; [|simplify_eq; by apply not_elem_of_nil in Hv].
  destruct (IntColumn_resolve col) as [r|] eqn:Hr; simplify_eq.
  apply list_elem_of_fmap in Hv as (row & -> & Hrow%elem_of_seq). cbn [fst snd]. exists b.
  apply list_elem_of_lookup_2, elem_of_enumerate in Hj. split; [done|].
  rewrite Forall_lookup in Hok. destruct (column_ok _ _ _ (Hok _ _ Hj) Hc) as [_ <-].
  destruct col; try done. injection Hr as <-. cbn in *. lia.
Qed.

Lemma visits_numbers (v : visit) batches bn visits :
  for_each_block_number batches bn = Ok visits -> v ∈ visits -> is_u64 v.2.
Proof.
  unfold for_each_block_number, omap_ok. intros H Hv. inv_ok.
  apply mapM_ok_Forall2 in Hok. apply list_elem_of_join in Hv as (l & Hv & Hl).
  apply list_elem_of_lookup in Hl as [i Hi].
  destruct (Forall2_lookup_r _ _ _ _ _ Hok Hi) as ([j b] & _ & Hb).
  unfold batch_visits in Hb; simpl in Hb.
  destruct (column_by_name b bn) as [col|]; [|simplify_eq; by apply not_elem_of_nil in Hv].
  destruct (IntColumn_resolve col); simplify_eq.
  apply list_elem_of_fmap in Hv as (row & -> & _). apply block_number_of_range.
Qed.

Lemma collect_block_numbers_elem batches bn s s' :
  collect_block_numbers batches bn s = Ok s' ->
  exists visits, for_each_block_number batches bn = Ok visits /\
    forall b, b ∈ s' <-> b ∈ s \/ b ∈ visits.*2.
Proof.
  unfold collect_block_numbers. intros H. inv_ok. exists a. split; [done|].
  clear Hok. revert s. induction a as [|v vs IH]; intros s b; simpl.
  - split; [by left | intros [?|?%not_elem_of_nil]; done].
  - rewrite IH, elem_of_cons. set_solver.
Qed.

(** The range is the least and the greatest visited number. *)
Lemma compute_block_range_spec batches bn lo hi :
  compute_block_range batches bn = Ok (lo, hi) ->
  exists visits, for_each_block_number batches bn = Ok visits /\
    match lo, hi with
    | Some lo, Some hi =>
        lo ∈ visits.*2 /\ hi ∈ visits.*2 /\ Forall (fun b => lo <= b <= hi) visits.*2
    | None, None => visits = []
    | _, _ => False
    end.
Proof.
  unfold compute_block_range. intros H. inv_ok. exists a. split; [done|]. clear Hok.
  assert (Hgen : forall (vs : list visit) l h, l <= h ->
    exists l' h', fold_left (fun acc (v : visit) =>
        (Some (match acc.1 with Some m => Z.min m v.2 | None => v.2 end),
         Some (match acc.2 with Some m => Z.max m v.2 | None => v.2 end))) vs (Some l, Some h)
      = (Some l', Some h') /\ (l' = l \/ l' ∈ vs.*2) /\ (h' = h \/ h' ∈ vs.*2) /\
      l' <= l /\ h <= h' /\ Forall (fun b => l' <= b <= h') vs.*2).
  { induction vs as [|v vs IH]; intros l h Hlh; simpl.
    - exists l, h. split_and!; auto; try lia.
    - destruct (IH (Z.min l v.2) (Z.max h v.2)) as (l' & h' & -> & Hl & Hh & Hl' & Hh' & Hf); [lia|].
      exists l', h'. rewrite !elem_of_cons. split_and!; [done| | |lia|lia|].
      + destruct Hl as [->|]; [|auto]. destruct (Z.min_spec l v.2) as [[_ ->]|[_ ->]]; auto.
      + destruct Hh as [->|]; [|auto]. destruct (Z.max_spec h v.2) as [[_ ->]|[_ ->]]; auto.
      + constructor; [lia|done]. }
  destruct a as [|v vs]; simpl in H; [by injection H as <- <-|].
  destruct (Hgen vs v.2 v.2) as (l' & h' & E & Hl & Hh & ? & ? & Hf); [lia|].
  rewrite E in H. injection H as <- <-. simpl. rewrite !elem_of_cons.
  split_and!; [tauto|tauto|]. constructor; [lia|done].
Qed.

(** ** Positions *)

Lemma ascending_index_range blocks i b :
  ascending blocks -> blocks !! i = Some b ->
  exists first last_, head blocks = Some first /\ last blocks = Some last_ /\ first <= b <= last_.
Proof.
  intros Hs Hi. destruct blocks as [|x l]; [done|].
  destruct (last (x :: l)) as [y|] eqn:Hl; [|by apply last_None in Hl].
  exists x, y. split_and!; [done|done| |].
  - destruct i as [|i]; [injection Hi as ->; lia|].
    apply Z.lt_le_incl. by eapply (ascending_lookup_lt (x :: l) 0 (S i)); [..|lia].
  - rewrite last_lookup in Hl. simpl in Hl.
    pose proof (lookup_lt_Some _ _ _ Hi) as Hlt. simpl in Hlt.
    destruct (decide (i = length l)) as [->|]; [rewrite Hl in Hi; injection Hi as ->; lia|].
    apply Z.lt_le_incl. by eapply (ascending_lookup_lt (x :: l) i (length l)); [..|lia].
Qed.

Definition page_ok (blocks : list Z) : Prop :=
  ascending blocks /\ Forall is_u64 blocks /\ Z.of_nat (length blocks) < 2 ^ 32.

Lemma page_elem_range blocks first b :
  page_ok blocks -> head blocks = Some first -> b ∈ blocks -> 0 <= b - first < 2 ^ 64 /\
  wrapping_sub b first = b - first.
Proof.
  intros (Hs & Hu & _) Hf Hb. apply list_elem_of_lookup in Hb as [i Hi].
  destruct (ascending_index_range _ _ _ Hs Hi) as (f & l & Hf' & Hl & Hr).
  rewrite Hf in Hf'. injection Hf' as <-.
  pose proof (Forall_lookup_1 _ _ _ _ Hu Hi) as Hb. unfold is_u64 in Hb.
  assert (is_u64 first) as Hfu.
  { rewrite Forall_forall in Hu. apply Hu. rewrite head_lookup in Hf. by eapply list_elem_of_lookup_2. }
  unfold is_u64 in Hfu. split; [lia|]. unfold wrapping_sub. apply as_unsigned_id. lia.
Qed.

(** The dense loop writes each block's position plus one into its slot. *)
Lemma dense_fill blocks first span es dense :
  page_ok blocks -> head blocks = Some first ->
  (forall b, b ∈ blocks -> (Z.to_nat (b - first) < span)%nat) ->
  (forall e, e ∈ es -> blocks !! e.1 = Some e.2) ->
  length dense = span ->
  exists dense',
    foldM (E:=error) (fun dense (e : nat * Z) =>
      vec_set dense (Z.to_nat (wrapping_sub e.2 first)) (as_u32 (Z.of_nat e.1) + 1)) es dense
      = Ok dense' /\ length dense' = span /\
    (forall i b, (i, b) ∈ es -> dense' !! Z.to_nat (b - first) = Some (Z.of_nat i + 1)) /\
    (forall s, (forall i b, (i, b) ∈ es -> Z.to_nat (b - first) <> s) -> dense' !! s = dense !! s).
Proof.
  intros Hp Hf Hspan. revert dense; induction es as [|[i b] es IH]; intros dense Hes Hlen; simpl.
  { exists dense. split_and!; try done. by intros ? ? ?%not_elem_of_nil. }
  assert (Hib : blocks !! i = Some b) by (apply (Hes (i, b)); left).
  pose proof (list_elem_of_lookup_2 _ _ _ Hib) as Hb.
  destruct (page_elem_range blocks first b Hp Hf Hb) as [Hr ->].
  assert (as_u32 (Z.of_nat i) = Z.of_nat i) as ->.
  { apply as_unsigned_id. destruct Hp as (_ & _ & Hl). apply lookup_lt_Some in Hib. lia. }
  rewrite vec_set_ok by (rewrite Hlen; auto). simpl.
  destruct (IH (<[Z.to_nat (b - first):=Z.of_nat i + 1]> dense)) as (d' & -> & Hl' & Hin & Hout).
  { intros e He. apply Hes. by right. }
  { by rewrite length_insert. }
  exists d'. split_and!; [done|done| |].
  - intros i' b' [[= -> ->]|Hin']%elem_of_cons; [|by apply Hin].
    destruct (decide ((i, b) ∈ es)) as [Hi'|Hno]; [by apply Hin|].
    rewrite Hout; [apply list_lookup_insert_eq; rewrite Hlen; auto|].
    intros j c Hj E. apply Hno.
    assert (Hjc : blocks !! j = Some c) by (apply (Hes (j, c)); by right).
    destruct (page_elem_range blocks first c Hp Hf (list_elem_of_lookup_2 _ _ _ Hjc)).
    assert (c = b) as -> by lia. destruct Hp as (Hs & _).
    assert (i = j) as ->; [|done]. by eapply (NoDup_lookup blocks); [by apply ascending_NoDup|..].
  - intros s Hs. rewrite Hout by (intros j c Hj; apply (Hs j); by right).
    apply list_lookup_insert_ne. apply (Hs i). left.
Qed.

Lemma BlockPositions_new_ok blocks :
  page_ok blocks ->
  exists p, BlockPositions_new blocks = Ok p /\ bp_blocks p = blocks /\
    forall b, is_u64 b -> position p b = binary_search blocks b.
Proof.
  intros Hp. unfold BlockPositions_new.
  destruct (head blocks) as [first|] eqn:Hf.
  2: { destruct blocks as [|x l]; [|done]. eexists. by split_and!. }
  destruct (last blocks) as [last_|] eqn:Hl; [|destruct blocks; [done|by apply last_None in Hl]].
  assert (Hlast : last_ ∈ blocks).
  { rewrite last_lookup in Hl. by eapply list_elem_of_lookup_2. }
  destruct (page_elem_range blocks first last_ Hp Hf Hlast) as [Hr ->]. simpl.
  destruct (Z.leb_spec (last_ - first + 1) (Z.max (Z.of_nat (length blocks) * 4) (2 ^ 16))).
  2: { eexists. split_and!; [done|done|]. done. }
  destruct (dense_fill blocks first (Z.to_nat (last_ - first + 1)) (enumerate blocks)
    (replicate (Z.to_nat (last_ - first + 1)) 0)) as (d & -> & Hd & Hin & Hout); try done.
  { intros b Hb. apply list_elem_of_lookup in Hb as [i Hi].
    destruct Hp as (Hs & _). destruct (ascending_index_range _ _ _ Hs Hi) as (f & l & Hf' & Hl' & ?).
    simplify_eq. lia. }
  { intros [i b] He. by apply elem_of_enumerate. }
  { apply length_replicate. }
  simpl. eexists. split_and!; [done|done|]. intros b Hb. unfold position; simpl.
  rewrite Hf; simpl. unfold checked_sub.
  assert (Hsearch : forall i, binary_search blocks b = Some i -> first <= b).
  { intros i Hi. apply binary_search_Some in Hi. destruct Hp as (Hs & _).
    destruct (ascending_index_range _ _ _ Hs Hi) as (f & l & ? & ? & ?). simplify_eq. lia. }
  destruct (Z.leb_spec first b); simpl.
  2: { destruct (binary_search blocks b) as [i|] eqn:E; [specialize (Hsearch i eq_refl); lia|done]. }
  destruct (binary_search blocks b) as [i|] eqn:E.
  - apply binary_search_Some in E. rewrite (Hin i b) by by apply elem_of_enumerate. simpl.
    destruct (Z.leb_spec 1 (Z.of_nat i + 1)); [|lia]. simpl. f_equal. lia.
  - apply binary_search_None in E; [|by apply ascending_le; destruct Hp]. rewrite Hout.
    + destruct (replicate _ _ !! _) as [z|] eqn:Ez; simpl; [|done].
      apply lookup_replicate in Ez as [-> _]. done.
    + intros i c Hc%elem_of_enumerate Ec. apply E.
      apply list_elem_of_lookup_2 in Hc.
      destruct (page_elem_range blocks first c Hp Hf Hc) as [Hr' _].
      assert (c = b) as <- by lia. done.
Qed.

(** C23: A block's position in a page is the same whether the page's blocks take
    a slot each or are searched: its index in the ascending list, or none. *)
Theorem position_is_index blocks p b :
  page_ok blocks -> is_u64 b -> BlockPositions_new blocks = Ok p ->
  match position p b with
  | Some i => blocks !! i = Some b
  | None => b ∉ blocks
  end.
Proof.
  intros Hp Hb H. destruct (BlockPositions_new_ok blocks Hp) as (p' & H' & _ & Hpos).
  rewrite H in H'. injection H' as <-. rewrite Hpos by done.
  destruct (binary_search blocks b) eqn:E; [by apply binary_search_Some|].
  apply binary_search_None; [|done]. apply ascending_le. by destruct Hp.
Qed.

Lemma position_is_index_witness :
  position {| bp_blocks := [5; 7; 9]; bp_dense := Some [1; 0; 2; 0; 3] |} 7 = Some 1%nat /\
  [5; 7; 9] !! 1%nat = Some 7.
Proof.
  split; [reflexivity|].
  apply (position_is_index [5; 7; 9] {| bp_blocks := [5; 7; 9]; bp_dense := Some [1; 0; 2; 0; 3] |} 7).
  - split_and!; [repeat constructor; lia | repeat constructor; lia | simpl; lia].
  - unfold is_u64; lia.
  - vm_compute. reflexivity.
Defined.

(** ** The index *)

(** A page's block's rows, in file order. *)
Definition rows_of_block (visits : list visit) (b : Z) : list (nat * nat) :=
  (filter (fun v : visit => v.2 = b) visits).*1.

Lemma run_of_positioned blocks p visits i b :
  page_ok blocks -> Forall (fun v : visit => is_u64 v.2) visits ->
  BlockPositions_new blocks = Ok p -> blocks !! i = Some b ->
  run_of i (positioned p visits) = rows_of_block visits b.
Proof.
  intros Hp Hv H Hi. destruct (BlockPositions_new_ok blocks Hp) as (p' & H' & _ & Hpos).
  rewrite H in H'. injection H' as <-.
  unfold run_of, positioned, rows_of_block. induction Hv as [|[r n] vs Hv Hvs IH]; [done|].
  simpl in *. rewrite Hpos by done. rewrite (filter_cons _ (r, n)); simpl.
  destruct (binary_search blocks n) as [j|] eqn:E; simpl.
  - apply binary_search_Some in E. rewrite filter_cons; simpl.
    destruct (decide (j = i)) as [->|Hne].
    + rewrite (decide_True (P := n = b)) by congruence. simpl. by f_equal.
    + rewrite decide_False; [done|]. intros ->. apply Hne.
      destruct Hp as (Hs & _). by eapply (NoDup_lookup blocks); [by apply ascending_NoDup|..].
  - apply binary_search_None in E; [|by apply ascending_le; destruct Hp].
    rewrite decide_False; [done|].
    intros ->. apply E. by eapply list_elem_of_lookup_2.
Qed.

Lemma positioned_bound blocks p visits :
  page_ok blocks -> Forall (fun v : visit => is_u64 v.2) visits ->
  BlockPositions_new blocks = Ok p ->
  Forall (fun e => (e.1 < length blocks)%nat) (positioned p visits).
Proof.
  intros Hp Hv H. destruct (BlockPositions_new_ok blocks Hp) as (p' & H' & _ & Hpos).
  rewrite H in H'. injection H' as <-. apply Forall_forall. intros [i r] Hin.
  unfold positioned in Hin. apply list_elem_of_omap in Hin as (v & Hvin & E).
  rewrite Forall_forall in Hv. rewrite Hpos in E by auto.
  destruct (binary_search blocks v.2) eqn:Es; [|done]. injection E as <- _.
  apply binary_search_Some in Es. by eapply lookup_lt_Some.
Qed.

(** The index's rows are the page's, run by run, between starts that grow. *)
Lemma BlockIndex_build_runs blocks p batches bn visits :
  page_ok blocks -> BlockPositions_new blocks = Ok p ->
  for_each_block_number batches bn = Ok visits ->
  exists base rows, BlockIndex_build batches bn p = Ok {| bi_starts := base <$> seq 0 (S (length blocks)); bi_rows := rows |} /\
    base O = O /\ base (length blocks) = length rows /\ (forall i j, (i <= j)%nat -> (base i <= base j)%nat) /\
    forall i b, blocks !! i = Some b -> slice rows (base i) (base (S i)) = rows_of_block visits b.
Proof.
  intros Hp H Hv. destruct (BlockPositions_new_ok blocks Hp) as (p' & H' & Hb & _).
  rewrite H in H'. injection H' as <-.
  assert (Hu : Forall (fun v : visit => is_u64 v.2) visits).
  { apply Forall_forall. intros v ?. by eapply visits_numbers. }
  unfold BlockIndex_build. rewrite Hv; cbn [obind]. unfold bp_len. rewrite Hb.
  pose proof (positioned_bound blocks p visits Hp Hu H) as Hk.
  destruct (group_runs_ok (E:=error) (length blocks) (O, O) (positioned p visits) Hk)
    as (rows & -> & Hlen & Hrows).
  cbn [obind fst snd]. exists (fun i => base_of i (positioned p visits)), rows.
  split_and!; [done|apply base_of_0|by rewrite base_of_all|intros; by apply base_of_mono|]. intros i b Hi.
  rewrite Hrows by by eapply lookup_lt_Some. by rewrite (run_of_positioned blocks p visits i b).
Qed.

Lemma index_rows_runs base rows n i :
  (i < n)%nat -> index_rows {| bi_starts := base <$> seq 0 (S n); bi_rows := rows |} i = Ok (slice rows (base i) (base (S i))).
Proof.
  intros Hi. unfold index_rows; cbn [bi_starts bi_rows].
  erewrite vec_get_nat_ok by (by rewrite list_lookup_fmap, lookup_seq_lt by lia). cbn [obind].
  erewrite vec_get_nat_ok by (by rewrite list_lookup_fmap, lookup_seq_lt by lia). done.
Qed.

Lemma BlockIndex_build_spec_rows blocks p batches bn visits :
  page_ok blocks -> BlockPositions_new blocks = Ok p ->
  for_each_block_number batches bn = Ok visits ->
  exists index, BlockIndex_build batches bn p = Ok index /\
    forall i b, blocks !! i = Some b -> index_rows index i = Ok (rows_of_block visits b).
Proof.
  intros Hp H Hv. destruct (BlockIndex_build_runs blocks p batches bn visits Hp H Hv) as (base & rows & E & _ & _ & _ & Hrows).
  eexists. split; [exact E|]. intros i b Hi. rewrite index_rows_runs by by eapply lookup_lt_Some. by rewrite (Hrows i b).
Qed.

(** The block index is built without a panic for every page and every set of
    batches whose block numbers can be read, and the rows it gives for the
    page's [i]th block are exactly the rows with that block's number, in file
    order; rows of blocks outside the page are left out. *)
Theorem BlockIndex_build_spec blocks p batches bn visits :
  page_ok blocks -> BlockPositions_new blocks = Ok p ->
  for_each_block_number batches bn = Ok visits ->
  exists index, BlockIndex_build batches bn p = Ok index /\
    forall i b, blocks !! i = Some b -> index_rows index i = Ok (rows_of_block visits b).
Proof. apply BlockIndex_build_spec_rows. Qed.

Definition two_batches : list RecordBatch :=
  [ {| columns := [("number"%string, AInt UInt32 [7; 5; 8] None)]; num_rows := 3 |};
    {| columns := [("number"%string, AInt Int16 [5; 7] None)]; num_rows := 2 |} ].

Definition two_visits : list visit :=
  [((0, 0)%nat, 7); ((0, 1)%nat, 5); ((0, 2)%nat, 8); ((1, 0)%nat, 5); ((1, 1)%nat, 7)].

Lemma BlockIndex_build_spec_witness :
  exists index,
    BlockIndex_build two_batches "number" {| bp_blocks := [5; 7; 9]; bp_dense := Some [1; 0; 2; 0; 3] |}
      = Ok index /\
    forall i b, [5; 7; 9] !! i = Some b ->
      index_rows index i = Ok (rows_of_block two_visits b).
Proof.
  apply (BlockIndex_build_spec [5; 7; 9]).
  - split_and!; [repeat constructor; lia | repeat constructor; lia | simpl; lia].
  - vm_compute. reflexivity.
  - vm_compute. reflexivity.
Defined.
