(* ===== verification/Pairs.v ===== *)
(** src/scan/pairs.rs: sets of two-integer join keys, as a hash set of packed
    keys or, where the keys are dense enough, as a bitmap of second components
    for each first component. *)
From stdpp Require Import base list gmap sets.
From Stdlib Require Import ZArith Lia Sorting.Sorted.
From S2P Require Import Prelude Machine ListLib Errors Arrow Counting.

#[local] Open Scope Z_scope.

(** [src/src/scan/pairs.rs:7-11] pack16. *)
Definition pack16 (a b : Z) : Z := Z.lor (Z.shiftl a 64) b.

(** [src/src/scan/pairs.rs:56-63] Slot. *)
Record Slot := { slot_start : Z; slot_low : Z; slot_width : Z }.
Definition default_slot : Slot := {| slot_start := 0; slot_low := 0; slot_width := 0 |}.

(** [src/src/scan/pairs.rs:45-54] DensePairs. *)
Record DensePairs := {
  dp_first : Z;
  dp_slots : list Slot;
  dp_bits : list Z;
  dp_len : nat;
}.

(** [src/src/scan/pairs.rs:13-16] PairSet. *)
Inductive PairSet :=
  | Dense (d : DensePairs)
  | Hashed (s : gset Z).

(** [src/src/scan/pairs.rs:65-69] MAX_SLOTS, KEY_BYTES. *)
Definition MAX_SLOTS : Z := 2 ^ 16.
Definition KEY_BYTES : Z := 16.

(** [std::mem::size_of::<Slot>()]: three words. *)
Definition SLOT_BYTES : Z := 24.

Definition same_first (x y : Z * Z) : bool := x.1 =? y.1.

Definition group_key (g : list (Z * Z)) : Z := default 0 (fst <$> head g).
Definition group_low (g : list (Z * Z)) : Z := default 0 (snd <$> head g).
Definition group_high (g : list (Z * Z)) : Z := default 0 (snd <$> last g).

(** The closure [width] of [build]: checked, as the last group can span all of
    [u64]. *)
Definition group_width (g : list (Z * Z)) : option Z :=
  checked_add (wrapping_sub (group_high g) (group_low g)) 1.

(** The bits all groups take together; none when they overflow. *)
Fixpoint total_width (groups : list (list (Z * Z))) (total : Z) : option Z :=
  match groups with
  | [] => Some total
  | g :: groups =>
      w ← group_width g;
      total ← checked_add total w;
      total_width groups total
  end.

(** The slot-filling loop. *)
Definition fill_slot (first : Z) (st : list Slot * Z) (g : list (Z * Z)) : result (list Slot * Z) :=
  let* width := expect (group_width g) in
  let* slots := vec_set st.1 (Z.to_nat (wrapping_sub (group_key g) first))
                  {| slot_start := st.2; slot_low := group_low g; slot_width := width |} in
  Ok (slots, st.2 + width).

(** The bit-setting loop: [bits[bit >> 6] |= 1 << (bit & 63)]. *)
Definition set_bit (bits : list Z) (bit : Z) : result (list Z) :=
  let i := Z.to_nat (Z.shiftr bit 6) in
  let* word := vec_get bits i in
  vec_set bits i (Z.lor word (Z.shiftl 1 (Z.land bit 63))).

Definition fill_bit (first : Z) (slots : list Slot) (bits : list Z) (p : Z * Z) : result (list Z) :=
  let* slot := vec_get slots (Z.to_nat (wrapping_sub p.1 first)) in
  set_bit bits (slot_start slot + wrapping_sub p.2 (slot_low slot)).

(** [src/src/scan/pairs.rs:72-125] DensePairs::build. [pairs] is sorted and
    unique. *)
Definition DensePairs_build (pairs : list (Z * Z)) : result (option DensePairs) :=
  match head pairs, last pairs with
  | Some (first, _), Some (last_, _) =>
      if MAX_SLOTS <=? wrapping_sub last_ first then Ok None else
      let span := wrapping_sub last_ first + 1 in
      let groups := chunk_by same_first pairs in
      match total_width groups 0 with
      | None => Ok None
      | Some total =>
          let slot_bytes := sat_mul span SLOT_BYTES in
          let dense_bytes := sat_add slot_bytes (sat_mul (div_ceil total 64) 8) in
          if sat_mul (Z.of_nat (length pairs)) KEY_BYTES <? dense_bytes then Ok None else
          let* filled :=
            foldM (fill_slot first) groups (replicate (Z.to_nat span) default_slot, 0) in
          let* bits :=
            foldM (fill_bit first filled.1) pairs (replicate (Z.to_nat (div_ceil total 64)) 0) in
          Ok (Some {| dp_first := first; dp_slots := filled.1; dp_bits := bits;
                      dp_len := length pairs |})
      end
  | _, _ => Ok (Some {| dp_first := 0; dp_slots := []; dp_bits := []; dp_len := 0 |})
  end.

(** [src/src/scan/pairs.rs:127-142] DensePairs::contains. *)
Definition dense_contains (d : DensePairs) (a b : Z) : result bool :=
  match dp_slots d !! Z.to_nat (wrapping_sub a (dp_first d)) with
  | None => Ok false
  | Some slot =>
      let offset := wrapping_sub b (slot_low slot) in
      if slot_width slot <=? offset then Ok false else
      let bit := slot_start slot + offset in
      let* word := vec_get (dp_bits d) (Z.to_nat (Z.shiftr bit 6)) in
      Ok (Z.land (Z.shiftr word (Z.land bit 63)) 1 =? 1)
  end.

Definition pair_leb (x y : Z * Z) : bool :=
  (x.1 <? y.1) || ((x.1 =? y.1) && (x.2 <=? y.2)).
Definition pair_eqb (x y : Z * Z) : bool := (x.1 =? y.1) && (x.2 =? y.2).

(** [src/src/scan/pairs.rs:19-27] PairSet::new. *)
Definition PairSet_new (pairs : list (Z * Z)) : result PairSet :=
  let pairs := dedup pair_eqb (sort_by pair_leb pairs) in
  let* dense := DensePairs_build pairs in
  Ok match dense with
     | Some d => Dense d
     | None => Hashed (list_to_set ((fun p => pack16 p.1 p.2) <$> pairs))
     end.

(** [src/src/scan/pairs.rs:29-34] PairSet::is_empty. *)
Definition pairs_is_empty (s : PairSet) : bool :=
  match s with
  | Dense d => (dp_len d =? 0)%nat
  | Hashed s => bool_decide (s = ∅)
  end.

(** [src/src/scan/pairs.rs:36-42] PairSet::contains. *)
Definition pairs_contains (s : PairSet) (a b : Z) : result bool :=
  match s with
  | Dense d => dense_contains d a b
  | Hashed s => Ok (bool_decide (pack16 a b ∈ s))
  end.

(** ** Packed keys *)

Lemma pack16_eq a b : is_u64 b -> pack16 a b = a * 2 ^ 64 + b.
Proof.
  intros Hb. unfold pack16, is_u64 in *. rewrite Z.shiftl_mul_pow2 by lia.
  rewrite <- Z.add_lor_land.
  assert (Z.land (a * 2 ^ 64) b = 0) as ->; [|lia].
  apply Z.bits_inj'. intros n Hn. rewrite Z.land_spec, Z.bits_0.
  destruct (Z.ltb_spec n 64).
  - by rewrite Z.mul_pow2_bits_low.
  - rewrite (Z.bits_above_log2 b); [by rewrite andb_false_r|lia|].
    destruct (decide (b = 0)) as [->|]; [simpl; lia|].
    apply Z.log2_lt_pow2; [lia|]. eapply Z.lt_le_trans; [apply Hb|]. by apply Z.pow_le_mono_r.
Qed.

Lemma pack16_inj a b c d :
  is_u64 b -> is_u64 d -> pack16 a b = pack16 c d -> a = c /\ b = d.
Proof. intros Hb Hd. rewrite !pack16_eq by done. unfold is_u64 in *. lia. Qed.

(** ** Sorted pairs and their groups *)

Definition pair_lt (x y : Z * Z) : Prop := x.1 < y.1 \/ (x.1 = y.1 /\ x.2 < y.2).

Lemma pair_eqb_eq x y : pair_eqb x y = true <-> x = y.
Proof.
  destruct x as [a b], y as [c d]. unfold pair_eqb; simpl. rewrite andb_true_iff, !Z.eqb_eq.
  split; [by intros [-> ->] | by intros [= -> ->]].
Qed.

Lemma sort_dedup_pairs pairs :
  StronglySorted pair_lt (dedup pair_eqb (sort_by pair_leb pairs)) /\
  forall p, p ∈ dedup pair_eqb (sort_by pair_leb pairs) <-> p ∈ pairs.
Proof.
  split.
  2: { intros p. rewrite elem_of_dedup by apply pair_eqb_eq. apply elem_of_sort_by. }
  assert (Hs : StronglySorted (fun x y => pair_leb x y = true) (sort_by pair_leb pairs)).
  { apply sort_by_sorted; unfold pair_leb; intros; lia. }
  induction Hs as [|x l Hl IH Hx]; simpl; [constructor|].
  destruct (dedup pair_eqb l) as [|y r] eqn:E; [repeat constructor|].
  assert (Hy : y ∈ l) by (rewrite <- (elem_of_dedup pair_eqb), E by apply pair_eqb_eq; left).
  rewrite Forall_forall in Hx. specialize (Hx y Hy).
  destruct (pair_eqb x y) eqn:Exy.
  - apply pair_eqb_eq in Exy as ->. done.
  - constructor; [done|].
    assert (pair_lt x y) as Hlt.
    { unfold pair_leb, pair_eqb, pair_lt in *. lia. }
    constructor; [done|]. apply StronglySorted_inv in IH as [_ Hr].
    eapply Forall_impl; [exact Hr|]. unfold pair_lt in *; simpl. lia.
Qed.

(** A group's pairs share the group's key and lie between its ends, and keys
    ascend from group to group. *)
Definition group_ok (g : list (Z * Z)) : Prop :=
  g <> [] /\ Forall (fun p => p.1 = group_key g /\ group_low g <= p.2 <= group_high g) g.

Lemma last_cons_ne {A} (x y : A) l : last (x :: y :: l) = last (y :: l).
Proof. done. Qed.

Lemma chunk_groups pairs :
  StronglySorted pair_lt pairs ->
  Forall group_ok (chunk_by same_first pairs) /\
  ascending (group_key <$> chunk_by same_first pairs).
Proof.
  induction 1 as [|x l Hl IH Hx]; cbn [chunk_by]; [split; constructor|].
  pose proof (chunk_by_concat same_first l) as Hc.
  destruct (chunk_by same_first l) as [|[|y g] gs] eqn:E.
  { split; [|repeat constructor]. repeat constructor; unfold group_low, group_high; simpl; (done || lia). }
  { destruct IH as [[[]]%Forall_cons _]. done. }
  simpl in Hc. destruct IH as [[[_ Hg] Hgs]%Forall_cons [Hk Hks]%StronglySorted_inv].
  rewrite <- Hc in Hx. apply Forall_cons in Hx as [Hxy Hx].
  unfold same_first. destruct (Z.eqb_spec x.1 y.1) as [Exy|Exy].
  - split.
    + constructor; [|done]. split; [done|]. assert (Hxl : x.2 < y.2) by (unfold pair_lt in Hxy; lia).
      assert (Hh : group_high (x :: y :: g) = group_high (y :: g)) by done.
      rewrite Hh. unfold group_key, group_low in *; cbn in *.
      apply Forall_cons; split; [apply Forall_cons in Hg as [? _]; lia|].
      eapply Forall_impl; [exact Hg|]. simpl; lia.
    + cbn [fmap list_fmap]. constructor; [done|]. cbn. rewrite Exy. done.
  - split.
    + constructor; [|by constructor]. split; [done|]. repeat constructor; unfold group_low, group_high; simpl; lia.
    + cbn [fmap list_fmap] in *. constructor; [by constructor|].
      assert (x.1 < y.1) by (unfold pair_lt in Hxy; lia).
      constructor; [done|]. eapply Forall_impl; [exact Hks|]. unfold group_key; simpl. lia.
Qed.

(** ** The layout of the slots *)

Definition width_of_group (g : list (Z * Z)) : Z := group_high g - group_low g + 1.

Fixpoint layout (start : Z) (groups : list (list (Z * Z))) : list (Z * Slot) :=
  match groups with
  | [] => []
  | g :: groups =>
      (group_key g, {| slot_start := start; slot_low := group_low g;
                       slot_width := width_of_group g |})
        :: layout (start + width_of_group g) groups
  end.

Definition pair_u64 (p : Z * Z) : Prop := is_u64 p.1 /\ is_u64 p.2.

Lemma group_ends g :
  group_ok g -> Forall pair_u64 g ->
  is_u64 (group_low g) /\ is_u64 (group_high g) /\ is_u64 (group_key g) /\
  group_low g <= group_high g.
Proof.
  intros [Hne Hg] Hu. destruct g as [|x g]; [done|].
  unfold group_high in *. destruct (last (x :: g)) as [y|] eqn:Hl; [|by apply last_None in Hl].
  assert (y ∈ x :: g) as Hy by (rewrite last_lookup in Hl; by eapply list_elem_of_lookup_2).
  rewrite Forall_forall in Hu. destruct (Hu x ltac:(left)), (Hu y Hy).
  apply Forall_cons in Hg as [? _]. unfold group_low, group_key in *; simpl in *. split_and!; done || lia.
Qed.

Lemma group_width_ok g :
  group_ok g -> Forall pair_u64 g -> forall w, group_width g = Some w -> w = width_of_group g.
Proof.
  intros Hg Hu w. destruct (group_ends g Hg Hu) as (Hlo & Hhi & _ & Hle).
  unfold group_width, checked_add, width_of_group, wrapping_sub, is_u64 in *.
  unfold as_u64. rewrite as_unsigned_id by lia. case_match; naive_solver.
Qed.

Lemma total_width_ok groups start total :
  Forall group_ok groups -> Forall (Forall pair_u64) groups ->
  total_width groups start = Some total -> 0 <= start ->
  start <= total /\ (groups <> [] -> total <= u64_max) /\
  Forall (fun g => group_width g = Some (width_of_group g)) groups /\
  Forall (fun e : Z * Slot => start <= slot_start e.2 /\ slot_start e.2 + slot_width e.2 <= total)
         (layout start groups).
Proof.
  intros Hg; revert start; induction Hg as [|g gs Hg Hgs IH]; intros start Hu; simpl.
  { intros [= <-] ?. split_and!; try done. }
  apply Forall_cons in Hu as [Hu Hus]. destruct (group_ends g Hg Hu) as (? & ? & _ & Hle).
  destruct (group_width g) as [w|] eqn:Ew; simpl; [|done].
  pose proof (group_width_ok g Hg Hu w Ew) as ->. unfold checked_add.
  destruct (Z.leb_spec (start + width_of_group g) u64_max); simpl; [|done].
  intros Ht Hst. assert (0 < width_of_group g) by (unfold width_of_group; lia).
  destruct (IH _ Hus Ht ltac:(lia)) as (Hle' & Hmax & Hw & Hf). split_and!.
  - lia.
  - intros _. destruct gs; [simpl in Ht; simplify_eq; lia | by apply Hmax].
  - by constructor.
  - constructor; simpl; [lia|]. eapply Forall_impl; [exact Hf|]. simpl; lia.
Qed.

Lemma layout_keys start groups : (layout start groups).*1 = group_key <$> groups.
Proof. revert start; induction groups; intros; simpl; f_equal; auto. Qed.

Lemma layout_lower start groups :
  Forall (fun g => 0 < width_of_group g) groups ->
  Forall (fun e : Z * Slot => start <= slot_start e.2) (layout start groups).
Proof.
  intros Hw; revert start; induction Hw as [|g gs Hg Hgs IH]; intros start; simpl; constructor; simpl; [lia|].
  eapply Forall_impl; [apply IH|]. simpl; lia.
Qed.

(** Slots of different keys take disjoint bits, and a key has one slot. *)
Lemma layout_disjoint start groups k s k' s' :
  Forall (fun g => 0 < width_of_group g) groups -> ascending (group_key <$> groups) ->
  (k, s) ∈ layout start groups -> (k', s') ∈ layout start groups ->
  (k = k' /\ s = s') \/ slot_start s + slot_width s <= slot_start s' \/
  slot_start s' + slot_width s' <= slot_start s.
Proof.
  intros Hw; revert start; induction Hw as [|g gs Hg Hgs IH]; intros start; simpl.
  { by intros _ ?%not_elem_of_nil. }
  intros [Hks Hk]%StronglySorted_inv. rewrite !elem_of_cons.
  pose proof (layout_lower (start + width_of_group g) gs Hgs) as Hlow. rewrite Forall_forall in Hlow.
  intros [[= -> ->]|H1] [[= -> ->]|H2]; simpl.
  - by left.
  - right; left. apply (Hlow _ H2).
  - right; right. apply (Hlow _ H1).
  - by eapply IH.
Qed.

Lemma layout_member start groups p :
  Forall group_ok groups -> p ∈ concat groups ->
  exists s, (p.1, s) ∈ layout start groups /\ slot_low s <= p.2 < slot_low s + slot_width s.
Proof.
  intros Hg; revert start; induction Hg as [|g gs [_ Hg] Hgs IH]; intros start; simpl.
  { by intros ?%not_elem_of_nil. }
  intros [Hp|Hp]%elem_of_app.
  - rewrite Forall_forall in Hg. destruct (Hg p Hp) as [-> ?]. eexists. split; [left|].
    simpl. unfold width_of_group. lia.
  - destruct (IH (start + width_of_group g) Hp) as (s & Hs & ?). exists s. split; [by right|done].
Qed.

Lemma layout_keyed start groups k s :
  Forall group_ok groups -> (k, s) ∈ layout start groups -> k ∈ (concat groups).*1.
Proof.
  intros Hg; revert start; induction Hg as [|g gs [Hne Hg] Hgs IH]; intros start; simpl.
  { by intros ?%not_elem_of_nil. }
  rewrite fmap_app, elem_of_app. intros [[= -> _]|Hin]%elem_of_cons; [left|right; eauto].
  destruct g as [|x g]; [done|]. left.
Qed.

(** ** Filling the slots *)

Lemma fill_slots_ok first span groups slots start total :
  Forall group_ok groups -> Forall (Forall pair_u64) groups ->
  ascending (group_key <$> groups) ->
  Forall (fun k => first <= k < first + Z.of_nat span) (group_key <$> groups) ->
  is_u64 first -> length slots = span -> 0 <= start -> total_width groups start = Some total ->
  exists slots', foldM (fill_slot first) groups (slots, start) = Ok (slots', total) /\
    length slots' = span /\
    (forall k s, (k, s) ∈ layout start groups -> slots' !! Z.to_nat (k - first) = Some s) /\
    (forall i, (forall k, k ∈ group_key <$> groups -> Z.to_nat (k - first) <> i) ->
       slots' !! i = slots !! i).
Proof.
  intros Hg; revert slots start; induction Hg as [|g gs Hg Hgs IH];
    intros slots start Hu Hks Hr Hf Hlen Hst Ht.
  { simpl in *. injection Ht as <-. exists slots. split_and!; try done. by intros ? ? ?%not_elem_of_nil. }
  destruct (total_width_ok (g :: gs) start total (Forall_cons_2 _ _ _ Hg Hgs) Hu Ht Hst)
    as (_ & _ & [Ew _]%Forall_cons & _).
  apply Forall_cons in Hu as [Hu Hus]. cbn [fmap list_fmap] in *.
  apply StronglySorted_inv in Hks as [Hks Hk]. apply Forall_cons in Hr as [Hkr Hr].
  destruct (group_ends g Hg Hu) as (? & ? & Hku & ?).
  cbn [total_width] in Ht. rewrite Ew in Ht; simpl in Ht. unfold checked_add in Ht.
  destruct (Z.leb_spec (start + width_of_group g) u64_max); simpl in Ht; [|done].
  assert (Hw : wrapping_sub (group_key g) first = group_key g - first).
  { apply as_unsigned_id. unfold is_u64 in *. lia. }
  cbn [foldM]. unfold fill_slot at 1. rewrite Ew; cbn [expect obind fst snd]. rewrite Hw.
  rewrite vec_set_ok by lia. cbn [obind].
  set (own := {| slot_start := start; slot_low := group_low g; slot_width := width_of_group g |}).
  destruct (IH (<[Z.to_nat (group_key g - first):=own]> slots) (start + width_of_group g))
    as (slots' & -> & Hlen' & Hin & Hout); try done; [by rewrite length_insert | |].
  { unfold width_of_group. lia. }
  rewrite Forall_forall in Hk, Hr.
  exists slots'. split_and!; [done|done| |].
  - intros k s [[= -> ->]|Hs]%elem_of_cons; [|by apply Hin].
    rewrite Hout; [by apply list_lookup_insert_eq; lia|].
    intros k Hin'. specialize (Hk k Hin'). lia.
  - intros i Hi. rewrite Hout by (intros k ?; apply Hi; by right).
    apply list_lookup_insert_ne. apply Hi. left.
Qed.

(** ** Bits *)

Definition bit_of (bits : list Z) (n : Z) : bool :=
  Z.testbit (default 0 (bits !! Z.to_nat (n / 64))) (n mod 64).

Lemma set_bit_ok bits n :
  0 <= n -> (Z.to_nat (n / 64) < length bits)%nat ->
  exists bits', set_bit bits n = Ok bits' /\ length bits' = length bits /\
    forall m, 0 <= m -> bit_of bits' m = bit_of bits m || (m =? n).
Proof.
  intros Hn Hlt. unfold set_bit.
  rewrite Z.shiftr_div_pow2 by lia. change (2 ^ 6) with 64.
  change 63 with (Z.ones 6). rewrite Z.land_ones by lia. change (2 ^ 6) with 64.
  destruct (lookup_lt_is_Some_2 bits _ Hlt) as [w Hw].
  unfold vec_get at 1. rewrite Hw; cbn [expect obind]. rewrite vec_set_ok by done.
  eexists. split_and!; [done|by rewrite length_insert|]. intros m Hm. unfold bit_of.
  pose proof (Z.mod_pos_bound n 64 ltac:(lia)). pose proof (Z.mod_pos_bound m 64 ltac:(lia)).
  destruct (decide (m / 64 = n / 64)) as [E|E].
  - rewrite E, list_lookup_insert_eq, Hw by done. cbn.
    rewrite Z.lor_spec, Z.shiftl_1_l, Z.pow2_bits_eqb by lia. f_equal.
    pose proof (Z.div_mod n 64 ltac:(lia)). pose proof (Z.div_mod m 64 ltac:(lia)).
    destruct (Z.eqb_spec (n mod 64) (m mod 64)), (Z.eqb_spec m n); lia || done.
  - assert (Z.to_nat (n / 64) <> Z.to_nat (m / 64)).
    { pose proof (Z.div_pos n 64 Hn ltac:(lia)). pose proof (Z.div_pos m 64 Hm ltac:(lia)). lia. }
    rewrite list_lookup_insert_ne by done.
    destruct (Z.eqb_spec m n); [congruence|]. by rewrite orb_false_r.
Qed.

Lemma bit_read word n : 0 <= n -> (Z.land (Z.shiftr word n) 1 =? 1) = Z.testbit word n.
Proof.
  intros Hn. rewrite (Z.land_ones _ 1) by lia. rewrite <- Z.bit0_mod, Z.shiftr_spec by lia.
  rewrite Z.add_0_l. by destruct (Z.testbit word n).
Qed.

(** A set of positions, all below the end of the bitmap. *)
Lemma fill_bits_ok first slots (at_ : Z * Z -> Z) pairs bits :
  (forall p, p ∈ pairs -> exists s, slots !! Z.to_nat (wrapping_sub p.1 first) = Some s /\
     slot_start s + wrapping_sub p.2 (slot_low s) = at_ p /\
     0 <= at_ p /\ (Z.to_nat (at_ p / 64) < length bits)%nat) ->
  exists bits', foldM (fill_bit first slots) pairs bits = Ok bits' /\ length bits' = length bits /\
    forall m, 0 <= m -> bit_of bits' m = bit_of bits m || bool_decide (m ∈ at_ <$> pairs).
Proof.
  revert bits; induction pairs as [|p pairs IH]; intros bits H; cbn [foldM].
  { exists bits. split_and!; [done|done|]. intros m _.
    rewrite bool_decide_eq_false_2 by (apply not_elem_of_nil). by rewrite orb_false_r. }
  destruct (H p ltac:(left)) as (s & Hs & Hat & Hpos & Hlt).
  unfold fill_bit at 1. unfold vec_get. rewrite Hs; cbn [expect obind]. rewrite Hat.
  destruct (set_bit_ok bits (at_ p) Hpos Hlt) as (b1 & -> & Hl1 & Hb1). cbn [obind].
  destruct (IH b1) as (b2 & -> & Hl2 & Hb2).
  { intros q Hq. rewrite Hl1. apply H. by right. }
  exists b2. split_and!; [done|congruence|]. intros m Hm. rewrite Hb2, Hb1 by done.
  cbn [fmap list_fmap]. rewrite <- orb_assoc. f_equal.
  destruct (Z.eqb_spec m (at_ p)) as [->|]; simpl.
  - symmetry. apply bool_decide_eq_true_2. left.
  - apply bool_decide_ext. rewrite elem_of_cons. naive_solver.
Qed.

(** ** The bitmap answers membership *)

(** Differences that wrap still tell [u64]s apart. *)
Lemma wrapping_sub_spec a f d :
  is_u64 a -> 0 <= f + d < 2 ^ 64 -> wrapping_sub a f = d -> a = f + d.
Proof.
  intros Ha Hfd Hd. unfold wrapping_sub, as_u64, as_unsigned, is_u64 in *.
  rewrite <- (Z.mod_small a (2 ^ 64)), <- (Z.mod_small (f + d) (2 ^ 64)), <- Hd by lia.
  rewrite Zplus_mod_idemp_r. f_equal. lia.
Qed.

Lemma wrapping_sub_id a f : is_u64 a -> is_u64 f -> f <= a -> wrapping_sub a f = a - f.
Proof. intros ? ? ?. unfold is_u64 in *. apply as_unsigned_id. lia. Qed.

Lemma sorted_firsts pairs first last_ p :
  StronglySorted pair_lt pairs -> fst <$> head pairs = Some first -> fst <$> last pairs = Some last_ ->
  p ∈ pairs -> first <= p.1 <= last_.
Proof.
  intros Hs Hf Hl Hp. destruct pairs as [|x l]; [done|]. simpl in Hf. injection Hf as <-. split.
  - apply StronglySorted_inv in Hs as [_ Hx]. rewrite Forall_forall in Hx.
    apply elem_of_cons in Hp as [->|Hp]; [lia|]. specialize (Hx p Hp). unfold pair_lt in Hx. lia.
  - clear -Hs Hl Hp. revert x Hs Hl Hp; induction l as [|y l IH]; intros x Hs Hl Hp.
    { simpl in Hl. injection Hl as <-. apply list_elem_of_singleton in Hp as ->. lia. }
    rewrite last_cons_ne in Hl. apply StronglySorted_inv in Hs as [Hs Hx].
    apply elem_of_cons in Hp as [->|Hp]; [|by apply (IH y)].
    apply Forall_cons in Hx as [Hxy _]. specialize (IH y Hs Hl). unfold pair_lt in Hxy.
    assert (y.1 <= last_) by (clear -Hl Hs; revert y Hs Hl; induction l as [|z l IH]; intros y Hs Hl;
      [simpl in Hl; injection Hl as <-; lia |
       rewrite last_cons_ne in Hl; apply StronglySorted_inv in Hs as [Hs Hy];
       apply Forall_cons in Hy as [Hyz _]; specialize (IH z Hs Hl); unfold pair_lt in Hyz; lia]).
    lia.
Qed.

Lemma concat_Forall {A} (P : A -> Prop) ls : Forall P (concat ls) -> Forall (Forall P) ls.
Proof. induction ls; simpl; constructor; apply Forall_app in H as [??]; auto. Qed.

Lemma layout_low groups start k s :
  Forall group_ok groups -> Forall (Forall pair_u64) groups -> (k, s) ∈ layout start groups ->
  is_u64 (slot_low s) /\ slot_low s + slot_width s <= 2 ^ 64.
Proof.
  intros Hg; revert start; induction Hg as [|g gs Hg Hgs IH]; intros start Hu; simpl.
  { by intros ?%not_elem_of_nil. }
  apply Forall_cons in Hu as [Hu Hus]. intros [[= -> ->]|?]%elem_of_cons; [|by eapply IH].
  destruct (group_ends g Hg Hu) as (? & ? & _). simpl. unfold width_of_group, is_u64 in *. lia.
Qed.

Section built.
Context (pairs : list (Z * Z)) (first last_ total : Z).
Context (Hs : StronglySorted pair_lt pairs) (Hu : Forall pair_u64 pairs).
Context (Hfirst : fst <$> head pairs = Some first) (Hlast : fst <$> last pairs = Some last_).
Context (Hfu : is_u64 first) (Hlu : is_u64 last_).
Context (Htotal : total_width (chunk_by same_first pairs) 0 = Some total).

Let groups := chunk_by same_first pairs.
Let span := Z.to_nat (last_ - first + 1).
Let words := Z.to_nat (div_ceil total 64).

Lemma built_member p :
  p ∈ pairs -> first <= p.1 <= last_ /\ pair_u64 p /\ wrapping_sub p.1 first = p.1 - first.
Proof.
  intros Hp. rewrite Forall_forall in Hu. pose proof (Hu p Hp) as Hpu.
  pose proof (sorted_firsts pairs first last_ p Hs Hfirst Hlast Hp).
  split_and!; try done; try lia. apply wrapping_sub_id; [apply Hpu|done|lia].
Qed.

Lemma built_groups :
  Forall group_ok groups /\ Forall (Forall pair_u64) groups /\ ascending (group_key <$> groups) /\
  Forall (fun k => first <= k < first + Z.of_nat span) (group_key <$> groups) /\
  Forall (fun g => 0 < width_of_group g) groups.
Proof.
  destruct (chunk_groups pairs Hs) as [Hg Hk].
  assert (Hgu : Forall (Forall pair_u64) groups).
  { apply concat_Forall. unfold groups. by rewrite chunk_by_concat. }
  split_and!; try done.
  - apply Forall_forall. intros k (g & -> & Hin)%list_elem_of_fmap.
    rewrite Forall_forall in Hg. destruct (Hg g Hin) as [Hne _].
    destruct g as [|x g]; [done|]. unfold group_key; simpl.
    assert (Hx : x ∈ pairs).
    { rewrite <- (chunk_by_concat same_first pairs). apply list_elem_of_In, in_concat.
      exists (x :: g). split; [by apply list_elem_of_In | by left]. }
    destruct (built_member x Hx) as [? _]. unfold span. lia.
  - apply Forall_forall. intros g Hin. rewrite Forall_forall in Hg, Hgu.
    destruct (group_ends g (Hg g Hin) (Hgu g Hin)) as (_ & _ & _ & ?). unfold width_of_group. lia.
Qed.

Lemma built_slot p :
  p ∈ pairs -> exists s, (p.1, s) ∈ layout 0 groups /\
    slot_low s <= p.2 < slot_low s + slot_width s /\
    0 <= slot_start s /\ slot_start s + slot_width s <= total /\
    wrapping_sub p.2 (slot_low s) = p.2 - slot_low s.
Proof.
  intros Hp. destruct built_groups as (Hg & Hgu & _).
  destruct (layout_member 0 groups p Hg) as (s & Hps & Hr).
  { unfold groups. by rewrite chunk_by_concat. }
  destruct (total_width_ok groups 0 total Hg Hgu Htotal ltac:(lia)) as (_ & _ & _ & Hlay).
  rewrite Forall_forall in Hlay. destruct (Hlay _ Hps); simpl in *.
  destruct (layout_low groups 0 p.1 s Hg Hgu Hps). destruct (built_member p Hp) as (_ & [_ ?] & _).
  exists s. split_and!; try done; try lia. by apply wrapping_sub_id; [..|lia].
Qed.

(** The slot a first component finds: its group's, or an empty one or none. *)
Lemma built_slots :
  exists slots, foldM (fill_slot first) groups (replicate span default_slot, 0) = Ok (slots, total) /\
    forall a, is_u64 a ->
      (forall s, (a, s) ∈ layout 0 groups -> slots !! Z.to_nat (wrapping_sub a first) = Some s) /\
      (a ∉ (layout 0 groups).*1 ->
         from_option slot_width 0 (slots !! Z.to_nat (wrapping_sub a first)) = 0).
Proof.
  destruct built_groups as (Hg & Hgu & Hk & Hr & _).
  destruct (fill_slots_ok first span groups (replicate span default_slot) 0 total)
    as (slots & Hfill & _ & Hin & Hout); try done; [by rewrite length_replicate|].
  exists slots. split; [done|]. rewrite Forall_forall in Hr. rewrite layout_keys.
  intros a Ha. split.
  - intros s Hs'. assert (Hak : a ∈ group_key <$> groups).
    { rewrite <- (layout_keys 0). apply list_elem_of_fmap. by exists (a, s). }
    rewrite wrapping_sub_id by (done || apply Hr in Hak; lia). by apply Hin.
  - intros Hak. rewrite Hout.
    + destruct (replicate _ _ !! _) eqn:E; [|done]. by apply lookup_replicate in E as [-> _].
    + intros k Hkin E. apply Hak. pose proof (Hr k Hkin).
      assert (0 <= wrapping_sub a first) by (apply as_unsigned_range; lia).
      rewrite (wrapping_sub_spec a first (k - first)); [by replace (first + (k - first)) with k by lia
        | done | unfold is_u64, span in *; lia | lia].
Qed.

Definition bit_position (slots : list Slot) (p : Z * Z) : Z :=
  match slots !! Z.to_nat (wrapping_sub p.1 first) with
  | Some s => slot_start s + (p.2 - slot_low s)
  | None => 0
  end.

Lemma word_in_range n : 0 <= n < total -> (Z.to_nat (n / 64) < words)%nat.
Proof.
  intros Hn. unfold words, div_ceil. apply Z2Nat.inj_lt; [apply Z.div_pos; lia | apply Z.div_pos; lia|].
  apply Z.div_lt_upper_bound; [lia|].
  pose proof (Z.div_mod (total + 64 - 1) 64 ltac:(lia)).
  pose proof (Z.mod_pos_bound (total + 64 - 1) 64 ltac:(lia)). lia.
Qed.

Lemma built_bits slots :
  (forall a, is_u64 a -> forall s, (a, s) ∈ layout 0 groups ->
     slots !! Z.to_nat (wrapping_sub a first) = Some s) ->
  exists bits, foldM (fill_bit first slots) pairs (replicate words 0) = Ok bits /\
    length bits = words /\
    forall m, 0 <= m -> bit_of bits m = bool_decide (m ∈ bit_position slots <$> pairs).
Proof.
  intros Hsl. destruct (fill_bits_ok first slots (bit_position slots) pairs (replicate words 0))
    as (bits & Hb & Hl & Hset).
  { intros p Hp. destruct (built_slot p Hp) as (s & Hps & Hr & Hlo & Hhi & Hw).
    destruct (built_member p Hp) as (_ & [Hp1 _] & _).
    unfold bit_position. rewrite (Hsl _ Hp1 _ Hps). exists s. rewrite Hw, length_replicate.
    split_and!; [done|done|lia|]. apply word_in_range. lia. }
  exists bits. rewrite length_replicate in Hl. split_and!; [done|done|].
  intros m Hm. rewrite Hset by done. unfold bit_of at 1.
  assert (default 0 (replicate words 0 !! Z.to_nat (m / 64)) = 0) as ->.
  { destruct (replicate _ _ !! _) eqn:E; [|done]. by apply lookup_replicate in E as [-> _]. }
  by rewrite Z.testbit_0_l.
Qed.

(** A slot's bit is set exactly for the pairs the slot's key has. *)
Lemma built_bit_set slots k s b :
  (forall a, is_u64 a -> forall s, (a, s) ∈ layout 0 groups ->
     slots !! Z.to_nat (wrapping_sub a first) = Some s) ->
  (k, s) ∈ layout 0 groups -> is_u64 k -> slot_low s <= b < slot_low s + slot_width s ->
  slot_start s + (b - slot_low s) ∈ bit_position slots <$> pairs <-> (k, b) ∈ pairs.
Proof.
  intros Hsl Hks Hku Hb. destruct built_groups as (_ & _ & Hk & _ & Hw). rewrite list_elem_of_fmap.
  split.
  - intros ([k' b'] & E & Hp). destruct (built_slot _ Hp) as (s' & Hps & Hr & _); simpl in *.
    destruct (built_member _ Hp) as (_ & [Hk' _] & _); simpl in *.
    unfold bit_position in E; simpl in E. rewrite (Hsl _ Hk' _ Hps) in E.
    destruct (layout_disjoint 0 groups k s k' s' Hw Hk Hks Hps) as [[-> ->]|[?|?]]; [|lia|lia].
    by replace b with b' by lia.
  - intros Hp. exists (k, b). split; [|done]. unfold bit_position; simpl.
    by rewrite (Hsl _ Hku _ Hks).
Qed.

Lemma built_ok :
  exists slots bits,
    foldM (fill_slot first) groups (replicate span default_slot, 0) = Ok (slots, total) /\
    foldM (fill_bit first slots) pairs (replicate words 0) = Ok bits /\
    forall a b, is_u64 a -> is_u64 b ->
      dense_contains {| dp_first := first; dp_slots := slots; dp_bits := bits;
                        dp_len := length pairs |} a b = Ok (bool_decide ((a, b) ∈ pairs)).
Proof.
  destruct built_slots as (slots & Hfill & Hslots). destruct built_groups as (Hg & Hgu & _).
  destruct (total_width_ok groups 0 total Hg Hgu Htotal ltac:(lia)) as (_ & _ & _ & Hlay).
  assert (Hsl : forall a, is_u64 a -> forall s, (a, s) ∈ layout 0 groups ->
     slots !! Z.to_nat (wrapping_sub a first) = Some s) by (intros; by apply Hslots).
  destruct (built_bits slots Hsl) as (bits & Hbits & Hlen & Hset).
  exists slots, bits. split_and!; [done|done|]. intros a b Ha Hb.
  unfold dense_contains; cbn [dp_slots dp_first dp_bits].
  destruct (decide (a ∈ (layout 0 groups).*1)) as [Hak|Hak].
  - apply list_elem_of_fmap in Hak as ([k s] & -> & Hks); simpl in *.
    rewrite (Hsl _ Ha _ Hks). destruct (layout_low groups 0 k s Hg Hgu Hks) as [Hlow Hcap].
    rewrite Forall_forall in Hlay. destruct (Hlay _ Hks) as [Hlo Hhi]; simpl in *.
    assert (Hoff : 0 <= wrapping_sub b (slot_low s)) by (apply as_unsigned_range; lia).
    destruct (Z.leb_spec (slot_width s) (wrapping_sub b (slot_low s))) as [Hge|Hlt].
    + f_equal. symmetry. apply bool_decide_eq_false_2. intros Hp.
      destruct (built_slot _ Hp) as (s' & Hps & Hr & _ & _ & Hw); simpl in *.
      assert (s' = s) as -> by (pose proof (Hsl _ Ha _ Hps); pose proof (Hsl _ Ha _ Hks); congruence).
      lia.
    + pose proof (wrapping_sub_spec b (slot_low s) (wrapping_sub b (slot_low s)) Hb
        ltac:(unfold is_u64 in *; lia) eq_refl) as Eb.
      set (o := wrapping_sub b (slot_low s)) in *.
      rewrite Z.shiftr_div_pow2 by lia. change (2 ^ 6) with 64.
      destruct (lookup_lt_is_Some_2 bits (Z.to_nat ((slot_start s + o) / 64))) as [w Hw].
      { rewrite Hlen. apply word_in_range. lia. }
      unfold vec_get. rewrite Hw; cbn [expect obind]. f_equal.
      change 63 with (Z.ones 6). rewrite Z.land_ones by lia. change (2 ^ 6) with 64.
      rewrite bit_read by (apply Z.mod_pos_bound; lia).
      pose proof (Hset (slot_start s + o) ltac:(lia)) as Hbit. unfold bit_of in Hbit.
      rewrite Hw in Hbit; simpl in Hbit. rewrite Hbit. apply bool_decide_ext.
      replace (slot_start s + o) with (slot_start s + (b - slot_low s)) by lia.
      apply built_bit_set; done || lia.
  - destruct (Hslots a Ha) as [_ Hempty]. specialize (Hempty Hak).
    assert (Hno : bool_decide ((a, b) ∈ pairs) = false).
    { apply bool_decide_eq_false_2. intros Hp. apply Hak.
      destruct (built_slot _ Hp) as (s & Hps & _). apply list_elem_of_fmap. by exists (a, s). }
    destruct (slots !! _) as [s|]; simpl in Hempty; [|by rewrite Hno].
    rewrite Hempty, Hno. pose proof (as_unsigned_range 64 (b - slot_low s) ltac:(lia)).
    unfold wrapping_sub, as_u64. destruct (Z.leb_spec 0 (as_unsigned 64 (b - slot_low s))); [done|lia].
Qed.
End built.

Lemma DensePairs_build_ok pairs :
  StronglySorted pair_lt pairs -> Forall pair_u64 pairs ->
  exists dense, DensePairs_build pairs = Ok dense /\
    forall d, dense = Some d -> forall a b, is_u64 a -> is_u64 b ->
      dense_contains d a b = Ok (bool_decide ((a, b) ∈ pairs)).
Proof.
  intros Hs Hu. unfold DensePairs_build.
  destruct (head pairs) as [[first f2]|] eqn:Hf.
  2: { destruct pairs; [|done]. simpl. eexists. split; [done|]. intros d [= <-] a b _ _. done. }
  destruct (last pairs) as [[last_ l2]|] eqn:Hl; [|destruct pairs; [done|by apply last_None in Hl]].
  assert (is_u64 first /\ is_u64 last_) as [Hfu Hlu].
  { rewrite Forall_forall in Hu. rewrite head_lookup in Hf. rewrite last_lookup in Hl.
    split; [apply (Hu (first, f2))|apply (Hu (last_, l2))]; by eapply list_elem_of_lookup_2. }
  destruct (MAX_SLOTS <=? _); [by eexists|].
  destruct (total_width _ 0) as [total|] eqn:Ht; [|by eexists].
  case_match; [by eexists|].
  destruct (built_ok pairs first last_ total) as (slots & bits & Hfill & Hbits & Hc); try done;
    [by rewrite Hf | by rewrite Hl |].
  assert (Hle : first <= last_).
  { apply (sorted_firsts pairs first last_ (first, f2) Hs); [by rewrite Hf|by rewrite Hl|].
    rewrite head_lookup in Hf. by eapply list_elem_of_lookup_2. }
  rewrite wrapping_sub_id by done. rewrite Hfill; cbn [obind fst]. rewrite Hbits; cbn [obind].
  eexists. split; [done|]. by intros d [= <-].
Qed.

Lemma PairSet_new_contains pairs :
  Forall pair_u64 pairs ->
  exists s, PairSet_new pairs = Ok s /\
    forall a b, is_u64 a -> is_u64 b -> pairs_contains s a b = Ok (bool_decide ((a, b) ∈ pairs)).
Proof.
  intros Hu. unfold PairSet_new. destruct (sort_dedup_pairs pairs) as [Hs Hin].
  set (sorted := dedup pair_eqb (sort_by pair_leb pairs)) in *.
  assert (Hsu : Forall pair_u64 sorted).
  { apply Forall_forall. intros p Hp. rewrite Forall_forall in Hu. apply Hu. by apply Hin. }
  destruct (DensePairs_build_ok sorted Hs Hsu) as (dense & -> & Hd). cbn [obind].
  eexists. split; [done|]. intros a b Ha Hb. destruct dense as [d|]; cbn [pairs_contains].
  - rewrite (Hd d eq_refl a b Ha Hb). f_equal. apply bool_decide_ext. apply Hin.
  - f_equal. apply bool_decide_ext. rewrite <- Hin, elem_of_list_to_set, list_elem_of_fmap. split.
    + intros ([c d] & E & Hp). rewrite Forall_forall in Hsu. destruct (Hsu _ Hp); simpl in *.
      apply pack16_inj in E as [-> ->]; done.
    + intros Hp. by exists (a, b).
Qed.

Lemma PairSet_new_empty pairs s : PairSet_new pairs = Ok s -> pairs_is_empty s = true <-> pairs = [].
Proof.
  unfold PairSet_new. destruct (sort_dedup_pairs pairs) as [_ Hin].
  set (sorted := dedup pair_eqb (sort_by pair_leb pairs)) in *.
  assert (Hnil : sorted = [] <-> pairs = []).
  { split; intros E; apply elem_of_nil_inv; intros p Hp; apply Hin in Hp; rewrite E in Hp; by apply not_elem_of_nil in Hp. }
  rewrite <- Hnil. clearbody sorted. clear Hin Hnil. unfold DensePairs_build.
  destruct (head sorted) as [[first ?]|] eqn:Eh.
  2: { destruct sorted; [|done]. by intros [= <-]. }
  assert (Hne : sorted <> []) by by intros ->. clear Eh.
  assert (Hhash : pairs_is_empty (Hashed (list_to_set ((fun p => pack16 p.1 p.2) <$> sorted))) = true <-> sorted = []).
  { cbn. rewrite bool_decide_eq_true. split; [|by intros ->]. intros E. destruct sorted as [|p l]; [done|]. csimpl in E.
    exfalso. set_solver. }
  destruct (last sorted) as [[last_ ?]|] eqn:El; [|destruct sorted; [done|by apply last_None in El]].
  case_match; [by intros [= <-]|]. case_match; [|by intros [= <-]]. case_match; [by intros [= <-]|].
  destruct (foldM (fill_slot first) _ _) as [st| |]; cbn [obind]; [|done..].
  destruct (foldM (fill_bit first st.1) _ _) as [bits| |]; cbn [obind]; [|done..]. intros [= <-]. cbn.
  rewrite Nat.eqb_eq. by destruct sorted.
Qed.

(** C33: A set of two-integer keys is built without a panic from any pairs, in
    whatever order and with whatever repeats, and holds exactly those pairs:
    the bitmaps, their wrapping offsets included, and the packed hash set
    answer every lookup the same way. *)
Theorem PairSet_contains_spec pairs :
  Forall pair_u64 pairs ->
  exists s, PairSet_new pairs = Ok s /\
    forall a b, is_u64 a -> is_u64 b -> pairs_contains s a b = Ok (bool_decide ((a, b) ∈ pairs)).
Proof. apply PairSet_new_contains. Qed.

Lemma PairSet_contains_spec_witness :
  exists s, PairSet_new [(7, 3); (5, 2); (7, 3); (7, 9)] = Ok s /\
    forall a b, is_u64 a -> is_u64 b ->
      pairs_contains s a b = Ok (bool_decide ((a, b) ∈ [(7, 3); (5, 2); (7, 3); (7, 9)])).
Proof. apply PairSet_contains_spec. repeat constructor; simpl; lia. Defined.

(** These pairs take the bitmap, and pairs far apart the hash set. *)
Example PairSet_dense_example :
  omap_ok (fun s => match s with Dense _ => true | _ => false end)
    (PairSet_new ((fun i => (7, Z.of_nat i)) <$> seq 0 40)) = Ok true.
Proof. vm_compute. reflexivity. Qed.

Example PairSet_hashed_example :
  omap_ok (fun s => match s with Hashed _ => true | _ => false end)
    (PairSet_new [(0, 0); (u64_max, u64_max)]) = Ok true.
Proof. vm_compute. reflexivity. Qed.
