(* ===== verification/Rows.v ===== *)
(** Rows read from one table (src/scan/rows.rs): batches with, when the scan
    recorded them, every row's physical position; what a scan returns with its
    item tags; and the batches of a scan while they are built.

    Every operation keeps rows and positions aligned. What it does is stated on
    the rows themselves, each with its position ([entries]). A closure of Rust
    that computes a mask is a function to [result mask]. *)
From stdpp Require Import base strings list.
From Stdlib Require Import ZArith Lia.
From S2P Require Import Prelude Machine ListLib Errors Arrow ArrowReference Counting.

#[local] Open Scope nat_scope.

(** ** Data *)

(** [src/src/scan/rows.rs:8-16] Rows. *)
Record Rows := { rw_batches : list RecordBatch; rw_positions : option (list (list Z)) }.

Section request.
(** The parts of a request this component does not look into. *)
Context {RowPredicate KeyFilter HierarchicalFilter ColumnCache Window : Type}.

(** [src/src/scan/scanner.rs:25-66] ScanRequest. *)
Record ScanRequest := {
  output_columns : list string;
  predicates : list RowPredicate;
  from_block : option Z;
  to_block : option Z;
  block_number_column : option string;
  batch_size : Z;
  key_filter : option KeyFilter;
  hierarchical_filter : option HierarchicalFilter;
  required_columns : list string;
  positions : bool;
  row_indices : option (list Z);
  item_tags : list (list nat);
  column_cache : option ColumnCache;
  window : option Window;
}.

(** [src/src/scan/scanner.rs:69-86] ScanRequest::new. *)
Definition ScanRequest_new (output_columns : list string) : ScanRequest := {|
  output_columns := output_columns;
  predicates := [];
  from_block := None;
  to_block := None;
  block_number_column := None;
  batch_size := u64_max;
  key_filter := None;
  hierarchical_filter := None;
  required_columns := [];
  positions := false;
  row_indices := None;
  item_tags := [];
  column_cache := None;
  window := None;
|}.
End request.
Arguments ScanRequest : clear implicits.

(** ** Rows *)

Section rows.
Context {K : ArrowKernels}.

(** [src/src/scan/rows.rs:19-25] Rows::new. *)
Definition Rows_new (batches : list RecordBatch) : Rows :=
  {| rw_batches := batches; rw_positions := None |}.

(** [src/src/scan/rows.rs:27-41] Rows::with_positions. *)
Definition with_positions (batches : list RecordBatch) (positions : list (list Z)) : result Rows :=
  let aligned :=
    (length batches =? length positions) &&
    forallb (fun bp : RecordBatch * list Z => num_rows bp.1 =? length bp.2)
      (zip batches positions) in
  let* _ := ensure aligned OtherError in
  Ok {| rw_batches := batches; rw_positions := Some positions |}.

(** [src/src/scan/rows.rs:56-58] Rows::num_rows. *)
Definition rows_num_rows (rows : Rows) : nat := sum_list (num_rows <$> rw_batches rows).

(** [src/src/scan/rows.rs:L68-83] Rows::filter: the body of its loop. The state
    is the batches and the positions kept so far. *)
Definition filter_batch (self : Rows) (mask_of : nat -> RecordBatch -> result mask)
    (st : list RecordBatch * option (list (list Z))) (e : nat * RecordBatch)
    : result (list RecordBatch * option (list (list Z))) :=
  let* m := mask_of e.1 e.2 in
  if true_count m =? 0 then Ok st else
  let batches := st.1 ++ [filter_record_batch e.2 m] in
  match st.2, rw_positions self with
  | Some kept, Some all =>
      let* p := vec_get all e.1 in
      Ok (batches, Some (kept ++ [filter_u64 p m]))
  | kept, _ => Ok (batches, kept)
  end.

(** [src/src/scan/rows.rs:60-86] Rows::filter. *)
Definition rows_filter (self : Rows) (mask_of : nat -> RecordBatch -> result mask) : result Rows :=
  let* st := foldM (filter_batch self mask_of) (enumerate (rw_batches self))
      ([], (fun _ => []) <$> rw_positions self) in
  Ok {| rw_batches := st.1; rw_positions := st.2 |}.

(** [src/src/scan/rows.rs:88-108] Rows::project. *)
Definition rows_project (self : Rows) (cols : list string) : Rows :=
  {| rw_batches := (fun batch => project_batch batch (omap (index_of batch) cols))
                     <$> rw_batches self;
     rw_positions := rw_positions self |}.

(** [src/src/scan/rows.rs:110-128] Rows::append. *)
Definition append (self other : Rows) : result Rows :=
  if decide (rw_batches other = []) then Ok self else
  if decide (rw_batches self = []) then Ok other else
  let* positions :=
    match rw_positions self, rw_positions other with
    | Some mine, Some theirs => Ok (Some (mine ++ theirs))
    | None, None => Ok None
    | _, _ => Err OtherError
    end in
  Ok {| rw_batches := rw_batches self ++ rw_batches other; rw_positions := positions |}.

(** [src/src/scan/rows.rs:130-140] Rows::sorted_positions. *)
Definition sorted_positions (self : Rows) : option (list Z) :=
  (fun positions => dedup Z.eqb (sort_ints (concat positions))) <$> rw_positions self.

(** ** A scan's result *)

(** [src/src/scan/rows.rs:143-150] Scanned. *)
Record Scanned := { sc_rows : Rows; sc_tags : list (list nat * list mask) }.

Context {RowPredicate KeyFilter HierarchicalFilter ColumnCache Window : Type}.
Abbreviation request_type :=
  (ScanRequest RowPredicate KeyFilter HierarchicalFilter ColumnCache Window).

(** [src/src/scan/rows.rs:153-183] Scanned::new. *)
Definition Scanned_new (request : request_type) (rows : Rows) (tags : list (list mask))
    : result Scanned :=
  let* _ := ensure (length tags =? length (item_tags request)) OtherError in
  let* _ := foldM (fun _ masks =>
      let aligned :=
        (length masks =? length (rw_batches rows)) &&
        forallb (fun mb : mask * RecordBatch => length mb.1 =? num_rows mb.2)
          (zip masks (rw_batches rows)) in
      ensure aligned OtherError) tags tt in
  let* _ := ensure (negb (positions request) || bool_decide (is_Some (rw_positions rows)))
      OtherError in
  Ok {| sc_rows := rows; sc_tags := zip (item_tags request) tags |}.

(** [src/src/scan/rows.rs:193-206] Scanned::matched_by. *)
Definition matched_by (self : Scanned) (items : list nat) : option (list RecordBatch) :=
  '(_, masks) ← head (filter (fun t : list nat * list mask => t.1 = items) (sc_tags self));
  Some ((fun bm : RecordBatch * mask => filter_record_batch bm.1 bm.2) <$>
    filter (fun bm : RecordBatch * mask => 0 < true_count bm.2)
      (zip (rw_batches (sc_rows self)) masks)).

(** [src/src/scan/rows.rs:236-242] ScannedBatch. *)
Record ScannedBatch := {
  sb_batch : RecordBatch;
  sb_positions : option (list Z);
  sb_tags : list mask;
}.

(** [src/src/scan/rows.rs:L213-225] Scanned::collect: the body of its loop. The
    state is the batches, the positions and each tag's masks so far. *)
Definition collect_part (st : list RecordBatch * option (list (list Z)) * list (list mask))
    (part : ScannedBatch) : result (list RecordBatch * option (list (list Z)) * list (list mask)) :=
  let '(batches, positions, tags) := st in
  let* _ := ensure (length (sb_tags part) =? length tags) OtherError in
  let* positions :=
    match positions with
    | Some positions =>
        let* recorded := ok_or (sb_positions part) OtherError in
        Ok (Some (positions ++ [recorded]))
    | None => Ok None
    end in
  let tags := zip_with (fun masks mask => masks ++ [mask]) tags (sb_tags part) in
  Ok (batches ++ [sb_batch part], positions, tags).

(** [src/src/scan/rows.rs:208-233] Scanned::collect. *)
Definition collect (request : request_type) (parts : list ScannedBatch) : result Scanned :=
  let* st := foldM collect_part parts
      ([], if positions request then Some [] else None, (fun _ => []) <$> item_tags request) in
  let '(batches, positions, tags) := st in
  let* rows :=
    match positions with
    | Some positions => with_positions batches positions
    | None => Ok (Rows_new batches)
    end in
  Scanned_new request rows tags.

(** ** A batch of a scan *)

(** [src/src/scan/rows.rs:245-269] ScannedBatch::split. *)
Definition split (self : ScannedBatch) (size : Z) : list ScannedBatch :=
  let size := Z.max size 1 in
  let rows := num_rows (sb_batch self) in
  if (Z.of_nat rows <=? size)%Z then [self] else
  let size := Z.to_nat size in
  (fun k =>
     let start := k * size in
     let len := min size (rows - start) in
     {| sb_batch := slice_batch (sb_batch self) start len;
        sb_positions := (fun p => slice p start (start + len)) <$> sb_positions self;
        sb_tags := (fun tag => slice tag start (start + len)) <$> sb_tags self |})
    <$> seq 0 ((rows + size - 1) / size).

(** [src/src/scan/rows.rs:271-289] ScannedBatch::filter. *)
Definition scanned_filter (self : ScannedBatch) (m : mask) : ScannedBatch :=
  {| sb_batch := filter_record_batch (sb_batch self) m;
     sb_positions := (fun p => filter_u64 p m) <$> sb_positions self;
     sb_tags := (fun tag => filter_bool tag m) <$> sb_tags self |}.

(** [src/src/scan/rows.rs:291-305] ScannedBatch::untagged. *)
Definition untagged (request : request_type) (batch : RecordBatch) (positions : option (list Z))
    : ScannedBatch :=
  let none := of_bools (replicate (num_rows batch) false) in
  {| sb_batch := batch; sb_positions := positions; sb_tags := (fun _ => none) <$> item_tags request |}.

End rows.

(** ** What rows hold *)

(** A row with its position, when recorded. *)
Abbreviation entry := (list (string * cell) * option Z)%type.

Definition batch_entries (batch : RecordBatch) (p : option (list Z)) : list entry :=
  match p with
  | None => (fun row => (row, None)) <$> rows_of batch
  | Some p => zip (rows_of batch) (Some <$> p)
  end.

Definition entries (rows : Rows) : list entry :=
  match rw_positions rows with
  | None => concat ((fun b => batch_entries b None) <$> rw_batches rows)
  | Some ps => concat (zip_with (fun b p => batch_entries b (Some p)) (rw_batches rows) ps)
  end.

(** Every batch is well formed and every row has exactly one position, where
    positions are recorded. *)
Definition rows_ok (rows : Rows) : Prop :=
  Forall batch_ok (rw_batches rows) /\
  match rw_positions rows with
  | None => True
  | Some ps => Forall2 (fun b p => num_rows b = length p) (rw_batches rows) ps
  end.

(** Positions past the batches already taken. *)
Definition drop_positions (k : nat) (p : option (list (list Z))) : option (list (list Z)) :=
  drop k <$> p.

Lemma masked_app {A} m1 m2 (l1 l2 : list A) :
  length m1 = length l1 -> masked (m1 ++ m2) (l1 ++ l2) = masked m1 l1 ++ masked m2 l2.
Proof.
  revert l1; induction m1 as [|b m1 IH]; intros [|x l1]; simpl; try done.
  intros [= H]. rewrite IH by done. by destruct (selects b).
Qed.

Lemma masked_zip {A B} m (l1 : list A) (l2 : list B) :
  length m = length l1 -> length m = length l2 ->
  masked m (zip l1 l2) = zip (masked m l1) (masked m l2).
Proof.
  revert l1 l2; induction m as [|b m IH]; intros [|x l1] [|y l2]; simpl; try done.
  intros [= H1] [= H2]. destruct (selects b); simpl; by rewrite IH.
Qed.

Lemma length_batch_entries b p :
  (forall q, p = Some q -> num_rows b = length q) -> length (batch_entries b p) = num_rows b.
Proof.
  intros H. destruct p as [q|]; simpl.
  - rewrite length_zip, length_fmap, rows_of_length, <- (H q) by done. lia.
  - by rewrite length_fmap, rows_of_length.
Qed.

(** The first batch's positions, and the rest's. *)
Definition head_positions (p : option (list (list Z))) : option (list Z) :=
  match p with Some (q :: _) => Some q | _ => None end.

Lemma entries_cons b bs p :
  p <> Some [] ->
  entries {| rw_batches := b :: bs; rw_positions := p |} =
  batch_entries b (head_positions p) ++
  entries {| rw_batches := bs; rw_positions := drop_positions 1 p |}.
Proof. by destruct p as [[|q ps]|]. Qed.

Lemma rows_ok_cons b bs p :
  rows_ok {| rw_batches := b :: bs; rw_positions := p |} ->
  batch_ok b /\ (forall q, head_positions p = Some q -> num_rows b = length q) /\
  p <> Some [] /\ rows_ok {| rw_batches := bs; rw_positions := drop_positions 1 p |}.
Proof.
  intros [Hb Hp]; simpl in *. apply Forall_cons in Hb as [Hb Hbs].
  destruct p as [[|q ps]|]; simpl in *; [by inversion Hp| |by split_and!; try done].
  apply Forall2_cons in Hp as [Hq Hp].
  split_and!; [done | by intros ? [= <-] | done | done].
Qed.

Lemma is_Some_iff_match {A B} (a : option A) (b : option B) :
  (is_Some a <-> is_Some b) ->
  match a, b with Some _, Some _ | None, None => True | _, _ => False end.
Proof.
  intros [H1 H2]. destruct a, b; try done; [destruct H1 | destruct H2]; done.
Qed.

Section laws.
Context {K : ArrowKernels} {L : ArrowLaws K}.

Lemma filter_batch_entries b m p :
  batch_ok b -> length m = num_rows b -> (forall q, p = Some q -> num_rows b = length q) ->
  batch_entries (filter_record_batch b m) ((fun q => filter_u64 q m) <$> p) =
  masked m (batch_entries b p).
Proof.
  intros Hb Hm Hp. destruct (filter_record_batch_rows b m Hb Hm) as (_ & _ & Hr & _).
  destruct p as [q|]; simpl; rewrite Hr.
  - rewrite filter_u64_masked by (rewrite Hm; auto).
    rewrite masked_zip, masked_fmap; [done|by rewrite rows_of_length|].
    rewrite length_fmap, Hm; auto.
  - by rewrite masked_fmap.
Qed.

(** One step of the loop keeps the batch's selected rows, or nothing. *)
Lemma filter_batch_step self mask_of k b m acc kept :
  mask_of k b = Ok m ->
  (is_Some kept <-> is_Some (rw_positions self)) ->
  drop_positions k (rw_positions self) <> Some [] ->
  filter_batch self mask_of (acc, kept) (k, b) =
    if true_count m =? 0 then Ok (acc, kept) else
    Ok (acc ++ [filter_record_batch b m],
        (fun l => l ++ option_list ((fun q => filter_u64 q m) <$>
           head_positions (drop_positions k (rw_positions self)))) <$> kept).
Proof.
  intros Hm Hkept Hne. unfold filter_batch; cbn [fst snd]. rewrite Hm; cbn [obind].
  destruct (true_count m =? 0); [done|].
  apply is_Some_iff_match in Hkept.
  destruct kept as [kept|], (rw_positions self) as [all|]; try done.
  simpl in Hne. destruct (drop k all) as [|p ps] eqn:Hd; [done|].
  assert (Hget : all !! k = Some p) by by rewrite <- (Nat.add_0_r k), <- lookup_drop, Hd.
  unfold vec_get; rewrite Hget; simpl. by rewrite Hd.
Qed.

(** The loop over the batches from the [k]th on. *)
Lemma filter_loop self mask_of bs ms k acc kept :
  rows_ok {| rw_batches := bs; rw_positions := drop_positions k (rw_positions self) |} ->
  Forall2 (fun e m => mask_of e.1 e.2 = Ok m /\ length m = num_rows e.2)
    (zip (seq k (length bs)) bs) ms ->
  (is_Some kept <-> is_Some (rw_positions self)) ->
  exists bs' ps',
    foldM (filter_batch self mask_of) (zip (seq k (length bs)) bs) (acc, kept) =
      Ok (acc ++ bs', (fun l => l ++ default [] ps') <$> kept) /\
    (is_Some ps' <-> is_Some kept) /\
    rows_ok {| rw_batches := bs'; rw_positions := ps' |} /\
    entries {| rw_batches := bs'; rw_positions := ps' |} =
      masked (concat ms)
        (entries {| rw_batches := bs; rw_positions := drop_positions k (rw_positions self) |}) /\
    Forall (fun b => 0 < num_rows b) bs'.
Proof.
  revert k ms acc kept; induction bs as [|b bs IH]; intros k ms acc kept Hok Hms Hkept.
  { inversion Hms; subst. exists [], (const [] <$> kept). simpl. rewrite app_nil_r.
    split_and!; [|by rewrite fmap_is_Some| |..].
    - destruct kept; simpl; by rewrite ?app_nil_r.
    - split; simpl; [constructor|]. destruct kept; simpl; constructor.
    - unfold entries; simpl. by destruct kept.
    - constructor. }
  simpl in Hms. apply Forall2_cons_inv_l in Hms as (m & ms' & [Hm Hlen] & Hms & ->).
  simpl in Hm, Hlen. apply rows_ok_cons in Hok as (Hb & Hhd & Hne & Hok).
  set (q := drop_positions k (rw_positions self)) in *.
  assert (Hd : drop_positions 1 q = drop_positions (S k) (rw_positions self)).
  { unfold q. destruct (rw_positions self) as [all|]; simpl; [|done].
    by rewrite skipn_skipn, Nat.add_1_r || by rewrite skipn_skipn. }
  rewrite Hd in Hok.
  destruct (filter_record_batch_rows b m Hb Hlen) as (Hok' & Hn' & _ & _).
  cbn [zip seq length zip_with foldM].
  rewrite (filter_batch_step _ _ _ _ m) by done. fold q.
  rewrite entries_cons, Hd by done. cbn [concat].
  rewrite masked_app by (rewrite length_batch_entries; done).
  destruct (Nat.eqb_spec (true_count m) 0) as [E|E]; cbn [obind].
  { destruct (IH (S k) ms' acc kept) as (bs' & ps' & E1 & E2 & E3 & E4 & E5); [done..|].
    exists bs', ps'. by rewrite (masked_none m). }
  destruct (IH (S k) ms' (acc ++ [filter_record_batch b m])
      ((fun l => l ++ option_list ((fun q => filter_u64 q m) <$> head_positions q)) <$> kept))
    as (bs' & ps' & E1 & E2 & E3 & E4 & E5); [done|done|by rewrite fmap_is_Some|].
  rewrite fmap_is_Some in E2.
  set (ps'' := (fun l => option_list ((fun q => filter_u64 q m) <$> head_positions q) ++ l) <$> ps').
  apply is_Some_iff_match in E2. apply is_Some_iff_match in Hkept.
  assert (Hhd'' : ps'' <> Some [] /\
    head_positions ps'' = (fun q => filter_u64 q m) <$> head_positions q /\
    drop_positions 1 ps'' = ps').
  { unfold ps'', q in *.
    destruct ps' as [ps'|], kept as [kept|], (rw_positions self) as [all|]; try done.
    simpl in *. by destruct (drop k all). }
  destruct Hhd'' as (Hne'' & Hhd1 & Hhd2).
  exists (filter_record_batch b m :: bs'), ps''. split_and!.
  - rewrite E1, <- app_assoc. f_equal. f_equal. unfold ps''.
    destruct kept, ps'; simpl; rewrite <- ?app_assoc; done.
  - unfold ps''. rewrite fmap_is_Some. destruct ps', kept; simpl; done.
  - destruct E3 as [E3 E3']. split; [by constructor|]. cbn [rw_batches rw_positions] in *.
    destruct ps' as [ps'|]; unfold ps'' in *; cbn in *; [|done].
    destruct (head_positions q) as [p|]; cbn in *; [|by destruct ps']. constructor; [|done].
    rewrite Hn', filter_u64_masked, length_masked; rewrite ?Hlen; auto.
  - rewrite entries_cons, Hhd1, Hhd2, E4 by done. f_equal. by apply filter_batch_entries.
  - constructor; [|done]. rewrite Hn'. lia.
Qed.
End laws.

(** ** Filtering, projecting, appending *)

Section theorems.
Context {K : ArrowKernels} {L : ArrowLaws K}.

(** Filtering keeps exactly the rows the masks select, each with its own
    position, in order; batches left without rows are dropped, and positions
    stay recorded exactly when they were. *)
Theorem rows_filter_spec self mask_of ms :
  rows_ok self ->
  Forall2 (fun e m => mask_of e.1 e.2 = Ok m /\ length m = num_rows e.2)
    (enumerate (rw_batches self)) ms ->
  exists kept, rows_filter self mask_of = Ok kept /\ rows_ok kept /\
    (is_Some (rw_positions kept) <-> is_Some (rw_positions self)) /\
    entries kept = masked (concat ms) (entries self) /\
    Forall (fun b => 0 < num_rows b) (rw_batches kept).
Proof.
  intros Hok Hms. assert (Hid : drop_positions 0 (rw_positions self) = rw_positions self).
  { by destruct (rw_positions self). }
  destruct (filter_loop self mask_of (rw_batches self) ms 0 []
      ((fun _ => []) <$> rw_positions self)) as (bs & ps & E & Hps & Hok' & He & Hb).
  - rewrite Hid. by destruct self.
  - done.
  - by rewrite fmap_is_Some.
  - rewrite fmap_is_Some in Hps. unfold rows_filter, enumerate. rewrite E; cbn [obind].
    eexists; split; [done|]. apply is_Some_iff_match in Hps as Hps'.
    assert (Eps : (fun l => l ++ default [] ps) <$> ((fun _ => []) <$> rw_positions self) = ps).
    { by destruct ps, (rw_positions self). }
    cbn [fst snd app]. rewrite Eps. split_and!; [done|apply Hps..| |done].
    rewrite He, Hid. by destruct self.
Qed.

(** A row cut down to some columns, in the order asked for. *)
Definition project_row (cols : list string) (row : list (string * cell)) : list (string * cell) :=
  omap (fun name => pair name <$> assoc name row) cols.

Lemma assoc_fmap {A B} (f : string * A -> B) name (l : list (string * A)) :
  assoc name ((fun c => (c.1, f c)) <$> l) =
  index_of_name name l ≫= fun i => f <$> l !! i.
Proof.
  induction l as [|[n a] l IH]; csimpl; [done|]. case_decide; csimpl; [done|].
  rewrite IH. by destruct (index_of_name name l).
Qed.

Lemma index_of_name_lookup {A} name (l : list (string * A)) i :
  index_of_name name l = Some i -> exists a, l !! i = Some (name, a).
Proof.
  revert i; induction l as [|[n a] l IH]; intros i; simpl; [done|].
  case_decide as E; [intros [= <-]; simpl; subst; eauto|].
  destruct (index_of_name name l) as [j|]; simpl; [|done]. intros [= <-]. simpl. auto.
Qed.

Lemma project_batch_row_of b cols row :
  row_of (project_batch b (omap (index_of b) cols)) row = project_row cols (row_of b row) /\
  num_rows (project_batch b (omap (index_of b) cols)) = num_rows b.
Proof.
  destruct (project_batch_columns b (omap (index_of b) cols)) as [Hn Hc].
  { apply Forall_forall. intros i (name & _ & Hi)%list_elem_of_omap.
    apply index_of_name_lookup in Hi as (a & Ha). by eapply lookup_lt_Some. }
  split; [|done]. unfold row_of. rewrite Hc. unfold project_row. clear.
  induction cols as [|name cols IH]; simpl; [done|]. rewrite assoc_fmap.
  unfold index_of at 1. destruct (index_of_name name (columns b)) as [i|] eqn:E; simpl; [|done].
  apply index_of_name_lookup in E as (a & Ha). rewrite Ha; simpl. by f_equal.
Qed.

(** Projecting cuts every row down to the named columns its batch has, in
    the order named, and leaves every row its position. *)
Lemma rows_project_spec self cols :
  entries (rows_project self cols) = (fun e : entry => (project_row cols e.1, e.2)) <$> entries self.
Proof.
  assert (Hrows : forall b, rows_of (project_batch b (omap (index_of b) cols)) =
    project_row cols <$> rows_of b).
  { intros b. unfold rows_of. rewrite <- list_fmap_compose.
    rewrite (proj2 (project_batch_row_of b cols 0)). apply list_fmap_ext. intros i r _.
    apply project_batch_row_of. }
  destruct self as [bs ps]; unfold entries, rows_project; simpl. destruct ps as [ps|].
  - revert ps; induction bs as [|b bs IH]; intros [|p ps]; simpl; try done.
    rewrite IH, fmap_app, Hrows. f_equal. generalize (rows_of b). clear.
    induction p as [|x p IH]; intros [|r l]; simpl; try done. by rewrite IH.
  - induction bs as [|b bs IH]; csimpl; [done|]. rewrite IH, fmap_app, Hrows. f_equal.
    by rewrite <- !list_fmap_compose.
Qed.

(** Appending puts the other rows after these, every row with its position;
    it fails exactly when both sides have batches and only one of them knows its
    rows' positions. *)
Theorem append_spec self other :
  rows_ok self -> rows_ok other ->
  match append self other with
  | Ok all => rows_ok all /\ entries all = entries self ++ entries other
  | Err _ =>
      rw_batches self <> [] /\ rw_batches other <> [] /\
      (is_Some (rw_positions self) <-> rw_positions other = None)
  | Panic => False
  end.
Proof.
  intros [Hs Hsp] [Ho Hop]. unfold append.
  assert (Hnil : forall r, rw_batches r = [] -> entries r = []).
  { intros [? [?|]]; simpl; intros ->; done. }
  case_decide as E1; [split; [done|]; by rewrite (Hnil other), app_nil_r|].
  case_decide as E2; [split; [done|]; by rewrite (Hnil self)|].
  destruct self as [bs [ps|]], other as [bs' [ps'|]]; cbn in *.
  - split; [split; cbn; [by apply Forall_app|by apply Forall2_app]|].
    rewrite <- concat_app. f_equal. unfold entries; cbn.
    apply zip_with_app. by eapply Forall2_length.
  - split_and!; [done|done|]. split; [done|eauto].
  - split_and!; [done|done|]. split; [by intros []|done].
  - split; [split; cbn; [by apply Forall_app|done]|].
    unfold entries; cbn. by rewrite fmap_app, concat_app.
Qed.

(** The sorted positions are strictly ascending and are exactly the
    positions recorded. *)
Lemma sorted_positions_spec self :
  match sorted_positions self, rw_positions self with
  | Some sorted, Some recorded =>
      ascending sorted /\ forall x, x ∈ sorted <-> x ∈ concat recorded
  | None, None => True
  | _, _ => False
  end.
Proof.
  unfold sorted_positions. destruct (rw_positions self) as [ps|]; simpl; [|done]. split.
  - apply dedup_sorted_ascending, sort_ints_sorted.
  - intros x. rewrite elem_of_dedup by (intros; apply Z.eqb_eq).
    unfold sort_ints. by rewrite elem_of_sort_by.
Qed.

End theorems.

(** ** Batches of a scan *)

Section scanned.
Context {K : ArrowKernels} {L : ArrowLaws K}.

Definition sb_ok (sb : ScannedBatch) : Prop :=
  batch_ok (sb_batch sb) /\
  (forall p, sb_positions sb = Some p -> length p = num_rows (sb_batch sb)) /\
  Forall (fun tag => length tag = num_rows (sb_batch sb)) (sb_tags sb).

(** What a scan says of a row: its columns, its position, and each tag's answer. *)
Definition sb_row (sb : ScannedBatch) (i : nat)
    : option (list (string * cell)) * option (option Z) * list (option (option bool)) :=
  (rows_of (sb_batch sb) !! i, (fun p : list Z => p !! i) <$> sb_positions sb,
   (fun tag : mask => tag !! i) <$> sb_tags sb).

Definition sb_rows (sb : ScannedBatch) := sb_row sb <$> seq 0 (num_rows (sb_batch sb)).

Lemma slice_lookup {A} (l : list A) start stop i :
  i < stop - start -> slice l start stop !! i = l !! (start + i).
Proof. intros. unfold slice. by rewrite lookup_take_lt, lookup_drop. Qed.

Lemma seq_chunks_lt size n k :
  1 <= size -> (k < (n + size - 1) / size)%nat -> k * size < n.
Proof.
  intros Hs Hk.
  destruct (Nat.lt_ge_cases (k * size) n) as [|Hge]; [done|].
  pose proof (Nat.Div0.mul_div_le (n + size - 1) size) as Hm.
  assert (S k <= (n + size - 1) / size) as Hk' by lia.
  apply (Nat.mul_le_mono_l _ _ size) in Hk'. lia.
Qed.

(** Consecutive chunks of at most [size] cover a range. *)
Lemma seq_chunks size n chunks s :
  n <= chunks * size ->
  concat ((fun k => seq (s + k * size) (min size (n - k * size))) <$> seq 0 chunks) = seq s n.
Proof.
  revert s n; induction chunks as [|c IH]; intros s n Hn; csimpl in *.
  - by replace n with 0 by lia.
  - rewrite Nat.add_0_r, Nat.sub_0_r.
    assert (E : (fun k => seq (s + k * size) (min size (n - k * size))) <$> seq 1 c =
      (fun k => seq ((s + size) + k * size) (min size ((n - size) - k * size))) <$> seq 0 c).
    { rewrite <- seq_shift, <- list_fmap_compose. apply list_fmap_ext. intros ? k _; cbn.
      f_equal; lia. }
    rewrite E. destruct (Nat.le_ge_cases n size).
    + rewrite Nat.min_r, IH by lia. replace (n - size) with 0 by lia. simpl. by rewrite app_nil_r.
    + rewrite Nat.min_l, IH by lia. rewrite <- seq_app. f_equal. lia.
Qed.

Lemma split_ok sb size :
  sb_ok sb ->
  Forall (fun part => sb_ok part /\ (Z.of_nat (num_rows (sb_batch part)) <= Z.max size 1)%Z /\
    (0 < num_rows (sb_batch sb) -> 0 < num_rows (sb_batch part))) (split sb size) /\
  concat (sb_rows <$> split sb size) = sb_rows sb.
Proof.
  intros (Hb & Hp & Ht). unfold split. set (n := num_rows (sb_batch sb)).
  set (sz := Z.to_nat (Z.max size 1)). destruct (Z.leb_spec (Z.of_nat n) (Z.max size 1)) as [Hle|Hgt].
  { split; [|simpl; by rewrite app_nil_r]. repeat constructor; done. }
  set (chunks := (n + sz - 1) / sz).
  assert (Hchunks : n <= chunks * sz).
  { pose proof (Nat.div_mod_eq (n + sz - 1) sz). pose proof (Nat.mod_upper_bound (n + sz - 1) sz ltac:(lia)).
    unfold chunks. lia. }
  assert (Hpart : forall k, k < chunks -> k * sz < n) by (intros; eapply seq_chunks_lt; [lia|done]).
  assert (Hslice : forall k, k < chunks ->
    batch_ok (slice_batch (sb_batch sb) (k * sz) (min sz (n - k * sz))) /\
    num_rows (slice_batch (sb_batch sb) (k * sz) (min sz (n - k * sz))) = min sz (n - k * sz) /\
    rows_of (slice_batch (sb_batch sb) (k * sz) (min sz (n - k * sz))) =
      slice (rows_of (sb_batch sb)) (k * sz) (k * sz + min sz (n - k * sz))).
  { intros k Hk. specialize (Hpart k Hk).
    destruct (slice_batch_rows (sb_batch sb) (k * sz) (min sz (n - k * sz)) Hb) as (? & ? & ? & _);
      [unfold n in *; lia|done]. }
  split.
  - apply Forall_fmap, Forall_forall. intros k [_ Hk]%elem_of_seq. cbn [compose].
    specialize (Hpart k Hk). destruct (Hslice k Hk) as (H1 & H2 & _). unfold sb_ok; cbn.
    rewrite H2. split_and!; [done| | |lia|lia].
    + intros p. rewrite fmap_Some. intros (q & Hq & ->). unfold slice.
      rewrite length_take, length_drop, (Hp q Hq). fold n. lia.
    + apply Forall_fmap. eapply Forall_impl; [exact Ht|]. intros tag Htag; cbn.
      unfold slice. rewrite length_take, length_drop, Htag. fold n. lia.
  - unfold sb_rows at 2. fold n. rewrite <- (seq_chunks sz n chunks 0 Hchunks).
    rewrite <- list_fmap_compose. trans (concat ((fmap (sb_row sb)) <$>
      ((fun k => seq (0 + k * sz) (min sz (n - k * sz))) <$> seq 0 chunks))).
    2: { symmetry. apply (concat_map (sb_row sb)). }
    rewrite <- list_fmap_compose. f_equal. apply list_fmap_ext.
    intros k' k Hk; cbn [compose]. apply lookup_seq in Hk as [-> Hk].
    rewrite (Nat.add_0_l k') in *. destruct (Hslice k' Hk) as (_ & H2 & H3).
    unfold sb_rows; cbn [sb_batch]. rewrite H2.
    replace (seq (0 + k' * sz) (min sz (n - k' * sz)))
      with (Nat.add (k' * sz) <$> seq 0 (min sz (n - k' * sz))) by (rewrite fmap_add_seq; f_equal; lia).
    rewrite <- list_fmap_compose. apply list_fmap_ext. intros i' i Hi.
    apply lookup_seq in Hi as [-> Hi]. unfold sb_row; cbn. rewrite H3.
    rewrite slice_lookup by lia. f_equal; [f_equal|].
    + destruct (sb_positions sb); cbn; [|done]. by rewrite slice_lookup by lia.
    + rewrite <- list_fmap_compose. apply list_fmap_ext. intros ? tag ?; unfold compose.
      by rewrite slice_lookup by lia.
Qed.

Lemma split_schema sb size : batch_ok (sb_batch sb) ->
  Forall (fun part => batch_schema (sb_batch part) = batch_schema (sb_batch sb)) (split sb size).
Proof.
  intros Hb. unfold split. set (n := num_rows (sb_batch sb)). set (sz := Z.to_nat (Z.max size 1)).
  destruct (Z.leb_spec (Z.of_nat n) (Z.max size 1)) as [Hle|Hgt]; [by repeat constructor|].
  apply Forall_fmap, Forall_forall. intros k [_ Hk]%elem_of_seq. cbn [compose sb_batch].
  assert (k * sz < n) by (eapply seq_chunks_lt; [lia|done]).
  apply (slice_batch_rows (sb_batch sb) (k * sz) (min sz (n - k * sz)) Hb). unfold n in *. lia.
Qed.

(** Splitting a batch yields batches of at most [size] rows (at least one),
    well formed, that read one after another say of every row what the batch
    said of it: its columns, its position and its tags. *)
Theorem split_spec sb size :
  sb_ok sb ->
  Forall (fun part => sb_ok part /\ (Z.of_nat (num_rows (sb_batch part)) <= Z.max size 1)%Z /\
    (0 < num_rows (sb_batch sb) -> 0 < num_rows (sb_batch part))) (split sb size) /\
  concat (sb_rows <$> split sb size) = sb_rows sb.
Proof. apply split_ok. Qed.

Lemma masked_lookup {A} m (l : list A) s i :
  length m = length l ->
  masked m l !! i = masked m (seq s (length m)) !! i ≫= fun k => l !! (k - s).
Proof.
  revert l s i; induction m as [|b m IH]; intros [|x l] s i; cbn; try done.
  intros [= H].
  assert (E : forall j, masked m (seq (S s) (length m)) !! j ≫= (fun k => (x :: l) !! (k - s))
           = masked m (seq (S s) (length m)) !! j ≫= (fun k => l !! (k - S s))).
  { intros j. destruct (masked m (seq (S s) (length m)) !! j) as [k|] eqn:Ej; cbn; [|done].
    apply list_elem_of_lookup_2, elem_of_masked in Ej as (? & _ & Hj).
    apply lookup_seq in Hj as [-> _]. by replace (S s + x0 - s) with (S (S s + x0 - S s)) by lia. }
  destruct (selects b); [destruct i as [|i]; cbn; [by rewrite Nat.sub_diag|]|];
    rewrite (IH l (S s)) by done; symmetry; apply E.
Qed.

(** Filtering a scan's batch keeps exactly the selected rows, each with what
    the scan said of it: its columns, its position and its tags. *)
Lemma scanned_filter_spec sb m :
  sb_ok sb -> length m = num_rows (sb_batch sb) ->
  sb_ok (scanned_filter sb m) /\ sb_rows (scanned_filter sb m) = masked m (sb_rows sb).
Proof.
  intros (Hb & Hp & Ht) Hm.
  destruct (filter_record_batch_rows (sb_batch sb) m Hb Hm) as (H1 & H2 & H3 & _).
  assert (Hpos : forall p, sb_positions sb = Some p -> filter_u64 p m = masked m p).
  { intros p E. apply filter_u64_masked. rewrite Hm. symmetry. auto. }
  assert (Htag : forall tag, tag ∈ sb_tags sb -> length tag = num_rows (sb_batch sb) /\
      filter_bool tag m = masked m tag).
  { intros tag Hin. rewrite Forall_forall in Ht. split; [auto|].
    apply filter_bool_masked. rewrite Hm, Ht; done. }
  split.
  - unfold sb_ok; cbn. rewrite H2. split_and!; [done| |].
    + intros p. rewrite fmap_Some. intros (q & Hq & ->). rewrite (Hpos q Hq), length_masked; [done|].
      by rewrite (Hp q Hq).
    + apply Forall_fmap, Forall_forall. intros tag Hin; cbn. destruct (Htag tag Hin) as [Hl ->].
      rewrite length_masked; [done|by rewrite Hl].
  - unfold sb_rows. rewrite masked_fmap; cbn. rewrite H2, <- Hm.
    rewrite <- (length_masked m (seq 0 (length m))) by by rewrite length_seq.
    apply list_eq. intros i. rewrite !list_lookup_fmap.
    destruct (masked m (seq 0 (length m)) !! i) as [k|] eqn:Hk; cbn.
    2: { apply lookup_ge_None in Hk. by rewrite lookup_seq_ge by lia. }
    rewrite lookup_seq_lt by (by eapply lookup_lt_Some). cbn. f_equal. unfold sb_row; cbn.
    assert (Hl : forall A (l : list A), length l = num_rows (sb_batch sb) -> masked m l !! i = l !! k).
    { intros A l E. rewrite (masked_lookup m l 0), Hk by congruence. cbn. by rewrite Nat.sub_0_r. }
    rewrite H3, Hl by apply rows_of_length. f_equal; [f_equal|].
    + destruct (sb_positions sb) as [p|] eqn:Ep; cbn; [|done].
      by rewrite (Hpos p eq_refl), Hl by auto.
    + rewrite <- list_fmap_compose. apply list_fmap_ext. intros j tag Hj; unfold compose.
      apply list_elem_of_lookup_2 in Hj. destruct (Htag tag Hj) as [Hlt ->]. by rewrite Hl.
Qed.

End scanned.

(** ** Collecting a scan's batches *)

Section collected.
Context {K : ArrowKernels} {L : ArrowLaws K}.
Context {RowPredicate KeyFilter HierarchicalFilter ColumnCache Window : Type}.
Abbreviation request_type :=
  (ScanRequest RowPredicate KeyFilter HierarchicalFilter ColumnCache Window).
Implicit Types (request : request_type) (parts : list ScannedBatch).

(** The batches a reader must hand over: one mask per tag of the request, and
    positions where the request asked for them. *)
Definition part_ok request (part : ScannedBatch) : Prop :=
  sb_ok part /\ length (sb_tags part) = length (item_tags request) /\
  (positions request = true -> is_Some (sb_positions part)).

(** Tag [t]'s mask over a batch. *)
Definition tag_of (t : nat) (part : ScannedBatch) : mask := default [] (sb_tags part !! t).

Lemma collect_loop request parts batches ps tags :
  Forall (part_ok request) parts -> length tags = length (item_tags request) ->
  (is_Some ps <-> positions request = true) ->
  exists tags',
    foldM (E:=error) collect_part parts (batches, ps, tags) =
      Ok (batches ++ (sb_batch <$> parts),
          (fun l => l ++ ((fun part => default [] (sb_positions part)) <$> parts)) <$> ps, tags') /\
    length tags' = length tags /\
    forall t masks, tags !! t = Some masks -> tags' !! t = Some (masks ++ (tag_of t <$> parts)).
Proof.
  intros Hparts. revert batches ps tags.
  induction Hparts as [|part parts (Hok & Hn & Hpos) Hparts IH]; intros batches ps tags Htags Hps.
  { exists tags. cbn. rewrite !app_nil_r. split_and!; [|done|].
    - destruct ps; cbn; by rewrite ?app_nil_r.
    - intros t masks H. by rewrite app_nil_r. }
  set (ps1 := (fun l => l ++ [default [] (sb_positions part)]) <$> ps).
  set (tags1 := zip_with (fun masks mask => masks ++ [mask]) tags (sb_tags part)).
  assert (Hl1 : length tags1 = length tags) by (unfold tags1; rewrite length_zip_with; lia).
  assert (E : collect_part (batches, ps, tags) part = Ok (batches ++ [sb_batch part], ps1, tags1)).
  { unfold collect_part. rewrite (proj2 (Nat.eqb_eq _ _)) by congruence. cbn [ensure obind].
    unfold ps1. destruct ps as [l|]; cbn; [|done].
    destruct Hpos as [p ->]; [by apply Hps|]. done. }
  cbn [foldM]. rewrite E; cbn [obind].
  destruct (IH (batches ++ [sb_batch part]) ps1 tags1) as (tags' & E1 & E2 & E3).
  { congruence. }
  { unfold ps1. by rewrite fmap_is_Some. }
  exists tags'. split_and!; [|congruence|].
  - rewrite E1. rewrite <- app_assoc. unfold ps1. destruct ps; cbn; [|done]. by rewrite <- app_assoc.
  - intros t masks Ht. destruct (lookup_lt_is_Some_2 (sb_tags part) t) as [m Hm].
    { apply lookup_lt_Some in Ht. lia. }
    rewrite (E3 t (masks ++ [m])).
    + rewrite <- app_assoc. unfold tag_of at 2. cbn. by rewrite Hm.
    + unfold tags1. apply lookup_zip_with_Some. eauto.
Qed.

Lemma tags_aligned request parts tags :
  Forall (part_ok request) parts -> length tags = length (item_tags request) ->
  (forall t masks, tags !! t = Some masks -> masks = tag_of t <$> parts) ->
  foldM (E:=error) (fun _ masks =>
      ensure ((length masks =? length (sb_batch <$> parts)) &&
        forallb (fun mb : mask * RecordBatch => length mb.1 =? num_rows mb.2)
          (zip masks (sb_batch <$> parts))) OtherError) tags tt = Ok tt.
Proof.
  intros Hparts Hl Htags.
  assert (H : Forall (fun masks : list mask => exists t, t < length (item_tags request) /\
      masks = tag_of t <$> parts) tags).
  { apply Forall_lookup. intros t masks Ht. exists t. split; [|by apply Htags].
    apply lookup_lt_Some in Ht. lia. }
  clear Hl Htags. induction H as [|masks tags (t & Ht & ->) _ IH]; [done|].
  cbn [foldM].
  match goal with |- obind (ensure ?b _) _ = _ => assert (b = true) as ->; [|exact IH] end.
  rewrite !length_fmap, Nat.eqb_refl; cbn [andb]. clear IH.
  induction Hparts as [|part parts (Hok & Hn & _) _ IH]; [done|]. cbn.
  rewrite IH, andb_true_r. apply Nat.eqb_eq. unfold tag_of.
  destruct (lookup_lt_is_Some_2 (sb_tags part) t) as [m Hm]; [lia|]. rewrite Hm; cbn.
  destruct Hok as (_ & _ & Hf). by rewrite (Forall_lookup_1 _ _ _ _ Hf Hm).
Qed.

Lemma collect_ok request parts :
  Forall (part_ok request) parts ->
  exists tags, collect request parts =
    Ok {| sc_rows :=
            {| rw_batches := sb_batch <$> parts;
               rw_positions := if positions request
                 then Some ((fun part => default [] (sb_positions part)) <$> parts) else None |};
          sc_tags := zip (item_tags request) tags |} /\
    length tags = length (item_tags request) /\
    forall t masks, tags !! t = Some masks -> masks = tag_of t <$> parts.
Proof.
  intros Hparts. unfold collect.
  destruct (collect_loop request parts [] (if positions request then Some [] else None)
    ((fun _ => []) <$> item_tags request)) as (tags & E & Hl & Ht); [done| | |].
  { by rewrite length_fmap. }
  { by destruct (positions request); split. }
  rewrite length_fmap in Hl.
  assert (Htags : forall t masks, tags !! t = Some masks -> masks = tag_of t <$> parts).
  { intros t masks H. destruct (lookup_lt_is_Some_2 (item_tags request) t) as [x Hx].
    { apply lookup_lt_Some in H. lia. }
    rewrite (Ht t []) in H by (by rewrite list_lookup_fmap, Hx). by injection H as <-. }
  exists tags. split_and!; [|done|done]. rewrite E; cbn [obind fst snd app].
  pose proof (tags_aligned request parts tags Hparts Hl Htags) as Hal.
  destruct (positions request) eqn:Epos; cbn [fmap option_fmap option_map app].
  - unfold with_positions. rewrite !length_fmap, Nat.eqb_refl; cbn [andb].
    replace (forallb _ (zip (sb_batch <$> parts) _)) with true.
    2: { symmetry. clear -Hparts Epos. induction Hparts as [|part parts ((_ & Hp & _) & _ & Hs) _ IH]; [done|].
         cbn. rewrite IH, andb_true_r. destruct (Hs Epos) as [p Ep]. rewrite Ep; cbn.
         apply Nat.eqb_eq. symmetry; auto. }
    cbn [ensure obind]. unfold Scanned_new. cbn [rw_batches rw_positions].
    rewrite Hl, Nat.eqb_refl, Hal, Epos; cbn. done.
  - cbn [obind]. unfold Scanned_new, Rows_new. cbn [rw_batches rw_positions].
    rewrite Hl, Nat.eqb_refl, Hal, Epos; cbn. done.
Qed.

(** What a scan collects from its batches holds their rows in order, with
    their positions where the request asked for them; and the rows it gives for
    a tag of the request are exactly those the tag's masks mark, in order. A
    list of items the request never named as a tag gives none. *)
Theorem collect_spec request parts :
  Forall (part_ok request) parts ->
  exists scanned, collect request parts = Ok scanned /\ rows_ok (sc_rows scanned) /\
    rw_batches (sc_rows scanned) = sb_batch <$> parts /\
    (is_Some (rw_positions (sc_rows scanned)) <-> positions request = true) /\
    forall items,
      match matched_by scanned items with
      | Some matched => exists t, item_tags request !! t = Some items /\
          concat (rows_of <$> matched) =
            concat ((fun part => masked (tag_of t part) (rows_of (sb_batch part))) <$> parts)
      | None => items ∉ item_tags request
      end.
Proof.
  intros Hparts. destruct (collect_ok request parts Hparts) as (tags & E & Hl & Htags).
  eexists. split; [exact E|]. cbn [sc_rows rw_batches rw_positions]. split_and!; [|done| |].
  - split; cbn.
    + apply Forall_fmap. eapply Forall_impl; [exact Hparts|]. by intros part ((? & _) & _).
    + destruct (positions request) eqn:Epos; [|done]. clear -Hparts Epos.
      induction Hparts as [|part parts ((_ & Hp & _) & _ & Hs) _ IH]; csimpl; constructor; [|done].
      destruct (Hs Epos) as [p Ep]. rewrite Ep; cbn. symmetry; auto.
  - by destruct (positions request); split.
  - intros items. unfold matched_by. cbn [sc_tags sc_rows rw_batches].
    destruct (head _) as [[its masks]|] eqn:Eh; cbn.
    + rewrite head_lookup in Eh. apply list_elem_of_lookup_2, list_elem_of_filter in Eh as [Ei Hin].
      cbn in Ei; subst its. apply list_elem_of_lookup in Hin as [t Ht].
      apply lookup_zip_Some in Ht as [Hi Hm]. exists t. split; [done|].
      rewrite (Htags t masks Hm). pose proof (lookup_lt_Some _ _ _ Hi) as Hlt.
      clear -Hparts Hlt L. induction Hparts as [|part parts ((Hb & _ & Hf) & Hn & _) _ IH]; [done|].
      cbn [fmap list_fmap zip_with zip].
      assert (Hm : length (tag_of t part) = num_rows (sb_batch part)).
      { unfold tag_of. destruct (lookup_lt_is_Some_2 (sb_tags part) t) as [m Hm]; [lia|].
        rewrite Hm; cbn. by rewrite (Forall_lookup_1 _ _ _ _ Hf Hm). }
      rewrite filter_cons. cbn [snd]. case_decide as Ec; cbn [fmap list_fmap concat fst snd].
      * rewrite IH. f_equal. by apply filter_record_batch_rows.
      * rewrite IH, masked_none by lia. done.
    + intros Hin. apply list_elem_of_lookup in Hin as [t Ht].
      destruct (lookup_lt_is_Some_2 tags t) as [masks Hm].
      { apply lookup_lt_Some in Ht. lia. }
      assert (Hz : (items, masks) ∈ filter (fun t0 : list nat * list mask => t0.1 = items)
        (zip (item_tags request) tags)).
      { apply list_elem_of_filter. split; [done|]. apply (list_elem_of_lookup_2 _ t).
        by apply lookup_zip_Some. }
      destruct (filter _ _); [by apply not_elem_of_nil in Hz|done].
Qed.

End collected.

(** ** Witnesses *)

Import ArrowInstances.

Definition numbers (l : list Z) : RecordBatch :=
  {| columns := [("number"%string, AInt UInt32 l None); ("flag"%string, ABool ((fun z => (z <? 8)%Z) <$> l) None)];
     num_rows := length l |}.

Lemma numbers_ok l : Forall (fun z => (0 <= z < 2 ^ 32)%Z) l -> batch_ok (numbers l).
Proof.
  intros H. unfold batch_ok, numbers; cbn -[Z.pow]. repeat constructor; cbn -[Z.pow]; try done.
  by rewrite length_fmap.
Qed.

Definition two_positioned : Rows :=
  {| rw_batches := [numbers [7; 9; 8]%Z; numbers [5]%Z]; rw_positions := Some [[0; 2; 5]%Z; [9]%Z] |}.

Lemma two_positioned_ok : rows_ok two_positioned.
Proof.
  split; [|repeat constructor].
  constructor; [|constructor; [|constructor]]; apply numbers_ok; repeat constructor; lia.
Qed.

Definition some_masks : list mask := [[Some true; Some false; None]; [Some false]].
Definition some_mask_of (i : nat) (_ : RecordBatch) : result mask := expect (some_masks !! i).

Lemma rows_filter_spec_witness :
  exists kept, rows_filter two_positioned some_mask_of = Ok kept /\ rows_ok kept /\
    (is_Some (rw_positions kept) <-> is_Some (rw_positions two_positioned)) /\
    entries kept = masked (concat some_masks) (entries two_positioned) /\
    Forall (fun b => 0 < num_rows b) (rw_batches kept).
Proof.
  apply (rows_filter_spec two_positioned some_mask_of some_masks).
  - apply two_positioned_ok.
  - repeat constructor.
Defined.

Lemma append_spec_witness :
  match append two_positioned two_positioned with
  | Ok all => rows_ok all /\ entries all = entries two_positioned ++ entries two_positioned
  | Err _ => rw_batches two_positioned <> [] /\ rw_batches two_positioned <> [] /\
      (is_Some (rw_positions two_positioned) <-> rw_positions two_positioned = None)
  | Panic => False
  end.
Proof. apply (append_spec two_positioned two_positioned); apply two_positioned_ok. Defined.

Definition five_rows : ScannedBatch :=
  {| sb_batch := numbers [7; 9; 8; 1; 4]%Z; sb_positions := Some [0; 2; 5; 6; 8]%Z;
     sb_tags := [of_bools [true; false; false; true; true]] |}.

Lemma five_rows_ok : sb_ok five_rows.
Proof.
  split_and!; [apply numbers_ok; repeat constructor; lia | by intros p [= <-] | repeat constructor].
Qed.

Lemma split_spec_witness :
  Forall (fun part => sb_ok part /\ (Z.of_nat (num_rows (sb_batch part)) <= Z.max 2 1)%Z /\
    (0 < num_rows (sb_batch five_rows) -> 0 < num_rows (sb_batch part))) (split five_rows 2) /\
  concat (sb_rows <$> split five_rows 2) = sb_rows five_rows /\ length (split five_rows 2) = 3.
Proof.
  destruct (split_spec five_rows 2 five_rows_ok) as [H1 H2].
  split_and!; [exact H1 | exact H2 | reflexivity].
Defined.

Definition tagged_request : ScanRequest unit unit unit unit unit := {|
  output_columns := ["number"%string]; predicates := [tt; tt]; from_block := None; to_block := None;
  block_number_column := None; batch_size := 2; key_filter := None; hierarchical_filter := None;
  required_columns := []; positions := true; row_indices := None; item_tags := [[1]];
  column_cache := None; window := None;
|}.

Lemma collect_spec_witness :
  exists scanned, collect tagged_request (split five_rows 2) = Ok scanned /\
    rows_ok (sc_rows scanned) /\
    rw_batches (sc_rows scanned) = sb_batch <$> split five_rows 2 /\
    (is_Some (rw_positions (sc_rows scanned)) <-> positions tagged_request = true) /\
    forall items,
      match matched_by scanned items with
      | Some matched => exists t, item_tags tagged_request !! t = Some items /\
          concat (rows_of <$> matched) =
            concat ((fun part => masked (tag_of t part) (rows_of (sb_batch part)))
              <$> split five_rows 2)
      | None => items ∉ item_tags tagged_request
      end.
Proof.
  apply (collect_spec tagged_request (split five_rows 2)).
  destruct (split_spec five_rows 2 five_rows_ok) as [H _].
  rewrite Forall_forall in H |- *. intros part Hin. destruct (H part Hin) as [Hok _].
  split; [exact Hok|]. cbn in Hin.
  repeat (apply elem_of_cons in Hin as [->|Hin]; [by split; [|eauto]|]).
  by apply not_elem_of_nil in Hin.
Defined.
