(* ===== verification/KeyColumns.v ===== *)
(** Key columns read at the type a chunk stores them (src/scan/key_columns.rs),
    and what the bytes of a composite key say: [key_part] is a column's value as
    a key compares it, [encode_part] the bytes it is written as, and
    [encode_parts_inj] that equal bytes are equal values where the columns hold
    keys of the same shape. *)
From stdpp Require Import base strings list.
From Stdlib Require Import ZArith Lia Ascii.
From S2P Require Import Prelude Machine ListLib Errors Arrow Integers Counting.

#[local] Open Scope Z_scope.

(** ** Typed key columns *)

(** [src/src/scan/key_columns.rs:9-16] TypedKeyColumn. *)
Inductive TypedKeyColumn :=
  | KeyInt (c : IntColumn)
  | KeyStr (c : StringColumn)
  | KeyList (offsets : list Z) (nulls : null_buffer) (elements : option IntColumn).

(** [src/src/scan/key_columns.rs:19-31] TypedKeyColumn::resolve. *)
Definition TypedKeyColumn_resolve (col : array) : option TypedKeyColumn :=
  match IntColumn_resolve col with
  | Some ints => Some (KeyInt ints)
  | None =>
      match StringColumn_resolve col with
      | Some text => Some (KeyStr text)
      | None =>
          match col with
          | AList offsets values nulls => Some (KeyList offsets nulls (IntColumn_resolve values))
          | _ => None
          end
      end
  end.

(** [src/src/scan/key_columns.rs:33-40] TypedKeyColumn::is_null. *)
Definition key_is_null (c : TypedKeyColumn) (row : nat) : bool :=
  match c with
  | KeyInt a => int_is_null a row
  | KeyStr a => bool_decide (string_value a row = None)
  | KeyList _ nulls _ => negb (is_valid_in nulls row)
  end.

(** [src/src/scan/key_columns.rs:42-76] TypedKeyColumn::append_to. The result is
    the buffer with the value appended, or none where the function reports that
    there is no value; [expect] is a panic. *)
Definition append_to (c : TypedKeyColumn) (buf : list Z) (row : nat) : result (option (list Z)) :=
  if key_is_null c row then Ok None else
  match c with
  | KeyInt a => Ok (Some (buf ++ to_le_bytes 8 (int_join_key a row)))
  | KeyStr a =>
      let* v := expect (string_value a row) in
      Ok (Some (buf ++ to_le_bytes 4 (as_u32 (Z.of_nat (String.length v))) ++ text_bytes v))
  | KeyList offsets _ elements =>
      match elements with
      | None => Ok None
      | Some elements =>
          let start := offset_at offsets row in
          let stop := offset_at offsets (S row) in
          Ok (Some (buf ++ to_le_bytes 4 (as_u32 (Z.of_nat (stop - start))) ++
            (seq start (stop - start) ≫= fun i => to_le_bytes 8 (int_join_key elements i))))
      end
  end.

(** [src/src/scan/key_columns.rs:78-82] TypedKeyColumn::is_integer. *)
Definition key_is_integer (c : TypedKeyColumn) : bool :=
  match c with KeyInt _ => true | _ => false end.

(** [src/src/scan/key_columns.rs:85-97] typed_key_columns. *)
Definition typed_key_columns (batch : RecordBatch) (names : list string)
    : list (option TypedKeyColumn) :=
  (fun name => column_by_name batch name ≫= TypedKeyColumn_resolve) <$> names.

(** [src/src/scan/key_columns.rs:99-115] keys_readable. *)
Definition keys_readable (batches : list RecordBatch) (names : list string) : bool :=
  let readable batch name :=
    match column_by_name batch name ≫= TypedKeyColumn_resolve with
    | Some (KeyList _ _ elements) => bool_decide (is_Some elements)
    | Some _ => true
    | None => false
    end in
  forallb (fun batch => forallb (readable batch) names)
    (filter (fun batch => (0 < num_rows batch)%nat) batches).

Section nulls.
Context {K : ArrowKernels}.

(** [src/src/scan/key_columns.rs:117-124] complete_keys. *)
Definition complete_keys (batch : RecordBatch) (names : list string) : null_buffer :=
  let nulls := omap (fun name =>
      column ← column_by_name batch name;
      logical_nulls column) names in
  match nulls with
  | [] => None
  | first :: rest => fold_left (fun all n => null_union all (Some n)) rest (Some first)
  end.

(** [src/src/scan/key_columns.rs:126-140] pair_keys. *)
Definition pair_keys (batch : RecordBatch) (cols : list string)
    : option (list Z * list Z * null_buffer) :=
  match cols with
  | [first; second] =>
      let column name := column_by_name batch name ≫= IntColumn_resolve in
      first ← column first;
      second ← column second;
      Some (join_keys first, join_keys second, null_union (ic_nulls first) (ic_nulls second))
  | _ => None
  end.
End nulls.

(** ** What a key says *)

(** A key column's value as keys compare it. *)
Inductive key_part :=
  | PInt (key : Z)
  | PText (s : string)
  | PBool (b : bool)
  | PBytes (l : list Z)
  | PPath (keys : list Z).

#[export] Instance key_part_eq_dec : EqDecision key_part.
Proof. solve_decision. Defined.

(** The kind of values a column's keys are; fixed-size binary carries its size. *)
Inductive key_shape := SInt | SText | SBool | SBytes (size : Z) | SPath.

#[export] Instance key_shape_eq_dec : EqDecision key_shape.
Proof. solve_decision. Defined.

Definition key_shape_of (dt : data_type) : option key_shape :=
  match dt with
  | DInt _ => Some SInt
  | DText _ => Some SText
  | DBoolean => Some SBool
  | DFixedSizeBinary size => Some (SBytes size)
  | DList (DInt _) => Some SPath
  | _ => None
  end.

Definition has_shape (p : key_part) (s : key_shape) : Prop :=
  match p, s with
  | PInt k, SInt => is_u64 k
  | PText s, SText => Z.of_nat (String.length s) < 2 ^ 32
  | PBool _, SBool => True
  | PBytes l, SBytes size => Z.of_nat (length l) = size
  | PPath l, SPath => Forall is_u64 l /\ Z.of_nat (length l) < 2 ^ 32
  | _, _ => False
  end.

Definition encode_part (p : key_part) : list Z :=
  match p with
  | PInt k => to_le_bytes 8 k
  | PText s => to_le_bytes 4 (as_u32 (Z.of_nat (String.length s))) ++ text_bytes s
  | PBool b => [Z.b2z b]
  | PBytes l => l
  | PPath l => to_le_bytes 4 (as_u32 (Z.of_nat (length l))) ++ (l ≫= to_le_bytes 8)
  end.

(** A row's value in a key column; none for a null or a type no key is read at.
    A list's element slots count, null or not. *)
Definition part_at (col : array) (row : nat) : option key_part :=
  if is_null col row then None else
  match col with
  | AInt _ values _ => Some (PInt (stored_key (default 0 (values !! row))))
  | AText _ values _ => Some (PText (default ""%string (values !! row)))
  | ABool values _ => Some (PBool (default false (values !! row)))
  | AFixed _ values _ => Some (PBytes (default [] (values !! row)))
  | AList offsets (AInt _ values _) _ =>
      Some (PPath ((fun i => stored_key (default 0 (values !! i))) <$>
        seq (offset_at offsets row) (offset_at offsets (S row) - offset_at offsets row)))
  | _ => None
  end.

(** A row's composite key: none where a column is absent or has no value. *)
Definition key_of (batch : RecordBatch) (names : list string) (row : nat) : option (list key_part) :=
  mapM (fun name => column_by_name batch name ≫= fun col => part_at col row) names.

Lemma key_of_cons batch name names row :
  key_of batch (name :: names) row =
  (p ← column_by_name batch name ≫= fun col => part_at col row;
   ps ← key_of batch names row; Some (p :: ps)).
Proof. done. Qed.

Lemma le_bytes_paths_inj xs ys :
  Forall is_u64 xs -> Forall is_u64 ys -> xs ≫= to_le_bytes 8 = ys ≫= to_le_bytes 8 -> xs = ys.
Proof.
  intros Hx; revert ys; induction Hx as [|x xs Hx Hxs IH]; intros ys [|y ys' Hy Hys]; try done.
  cbn [mbind list_bind]. intros H. apply app_inj_length in H as [H1 H2]; [|by rewrite !length_to_le_bytes].
  f_equal; [by apply (to_le_bytes_inj 8) | by apply IH].
Qed.

Lemma as_u32_small z : 0 <= z < 2 ^ 32 -> as_u32 z = z.
Proof. apply as_unsigned_id. Qed.

(** Two values of one shape that start two byte strings equally are the same. *)
Lemma encode_part_app_inj p q s x y :
  has_shape p s -> has_shape q s ->
  encode_part p ++ x = encode_part q ++ y -> p = q /\ x = y.
Proof.
  destruct s; destruct p, q; cbn [has_shape encode_part]; intros Hp Hq E; try done.
  - apply app_inj_length in E as [E ->]; [|by rewrite !length_to_le_bytes].
    by rewrite (to_le_bytes_inj 8 _ _ Hp Hq E).
  - rewrite <- !app_assoc in E. apply app_inj_length in E as [El E]; [|by rewrite !length_to_le_bytes].
    rewrite !as_u32_small in El by lia. apply (to_le_bytes_inj 4) in El; [|lia..].
    apply app_inj_length in E as [E ->]; [|rewrite !length_text_bytes; lia].
    by rewrite (text_bytes_inj _ _ E).
  - injection E as Eb ->. destruct b, b0; done.
  - apply app_inj_length in E as [-> ->]; [done|lia].
  - rewrite <- !app_assoc in E. destruct Hp as [Hp Hpl], Hq as [Hq Hql].
    apply app_inj_length in E as [El E]; [|by rewrite !length_to_le_bytes].
    rewrite !as_u32_small in El by lia. apply (to_le_bytes_inj 4) in El; [|lia..].
    assert (Hlen : forall l, length (l ≫= to_le_bytes 8) = (8 * length l)%nat).
    { induction l as [|z l IH]; [done|].
      rewrite bind_cons, length_app, length_to_le_bytes, IH. cbn [length]. lia. }
    apply app_inj_length in E as [E ->]; [|rewrite !Hlen; lia].
    by rewrite (le_bytes_paths_inj _ _ Hp Hq E).
Qed.

Lemma encode_parts_inj ps qs shapes :
  Forall2 has_shape ps shapes -> Forall2 has_shape qs shapes ->
  ps ≫= encode_part = qs ≫= encode_part -> ps = qs.
Proof.
  intros Hp; revert qs; induction Hp as [|p s ps shapes Hp Hps IH]; intros qs Hq E.
  - by inversion Hq.
  - apply Forall2_cons_inv_r in Hq as (q & qs' & Hq & Hqs & ->). cbn [mbind list_bind] in E.
    apply (encode_part_app_inj p q s) in E as [-> E]; [|done..]. f_equal. by apply IH.
Qed.

(** A well-formed column's values have its type's shape. *)
Lemma part_at_shape col row p :
  array_ok col -> array_i32 col -> (row < array_len col)%nat -> part_at col row = Some p ->
  exists s, key_shape_of (array_type col) = Some s /\ has_shape p s.
Proof.
  intros Hok Hi Hrow. unfold part_at. destruct (is_null col row); [done|].
  destruct col as [t v n|t v n|v n|sz v n|o c n|nm v n| | | |]; cbn in *; try done.
  - intros [= <-]. exists SInt. split; [done|]. apply stored_key_range.
  - intros [= <-]. exists SText. split; [done|]. destruct Hok as [_ Hf].
    destruct (lookup_lt_is_Some_2 v row Hrow) as [x Hx]. rewrite Hx; cbn.
    pose proof (Forall_lookup_1 _ _ _ _ Hf Hx) as Hlt; cbn in Hlt. lia.
  - intros [= <-]. by exists SBool.
  - intros [= <-]. exists (SBytes sz). split; [done|]. destruct Hok as [_ Hf].
    destruct (lookup_lt_is_Some_2 v row Hrow) as [x Hx]. rewrite Hx; cbn.
    by apply (Forall_lookup_1 _ _ _ _ Hf Hx).
  - destruct c as [t cv cn| | | | | | | | |]; try done. intros [= <-]. exists SPath. split; [done|]. split.
    + apply Forall_fmap, Forall_forall. intros i _. apply stored_key_range.
    + rewrite length_fmap, length_seq. destruct Hi as [_ Hf]. unfold offset_at.
      destruct (o !! S row) as [z|] eqn:Ez; cbn; [|lia].
      pose proof (Forall_lookup_1 _ _ _ _ Hf Ez) as Hz; cbn in Hz. lia.
Qed.

Lemma key_of_shape batch names row ps :
  batch_ok batch -> Forall (fun c => array_i32 c.2) (columns batch) ->
  (row < num_rows batch)%nat -> key_of batch names row = Some ps ->
  exists shapes,
    mapM (fun name => column_by_name batch name ≫= fun col => key_shape_of (array_type col)) names
      = Some shapes /\ Forall2 has_shape ps shapes.
Proof.
  intros Hok Hi Hrow. unfold key_of. revert ps.
  induction names as [|name names IH]; intros ps H; cbn in *.
  { injection H as <-. exists []. split; [done|constructor]. }
  destruct (column_by_name batch name) as [col|] eqn:Ec; cbn in *; [|done].
  destruct (part_at col row) as [p|] eqn:Ep; cbn in *; [|done].
  destruct (mapM _ names) as [ps'|] eqn:Em; cbn in *; [|done]. injection H as <-.
  destruct (IH ps' eq_refl) as (shapes & Es & Hf).
  destruct (column_ok batch name col Hok Ec) as [Hc Hl].
  assert (Hci : array_i32 col).
  { rewrite Forall_forall in Hi. by apply (Hi (name, col)), assoc_elem_of. }
  destruct (part_at_shape col row p) as (s & Hs & Hp); [done|done|lia|done|].
  exists (s :: shapes). rewrite Hs, Es. split; [done|by constructor].
Qed.

(** ** The typed columns write what the key says *)

Lemma append_to_spec col c buf row :
  array_ok col -> TypedKeyColumn_resolve col = Some c ->
  append_to c buf row = Ok ((fun p => buf ++ encode_part p) <$> part_at col row).
Proof.
  intros Hok H. unfold TypedKeyColumn_resolve in H.
  destruct col as [t v n|t v n|v n|sz v n|o child n|nm v n| | | |]; cbn in H; try done;
    injection H as <-; unfold append_to, part_at, is_null, key_is_null, int_is_null, string_value;
    cbn [ic_nulls sc_nulls array_nulls].
  - destruct (is_valid_in n row); done.
  - cbn. destruct (is_valid_in n row); done.
  - destruct (is_valid_in n row); cbn [negb]; [|done].
    destruct child as [t v cn| | | | | | | | |]; cbn [IntColumn_resolve]; try done.
    cbn [fmap option_fmap option_map encode_part]. do 2 f_equal. rewrite length_fmap, length_seq.
    f_equal. f_equal. unfold int_join_key, int_value; cbn [ic_values].
    generalize (seq (offset_at o row) (offset_at o (S row) - offset_at o row)). clear.
    induction l as [|i l IH]; [done|]. rewrite fmap_cons, !bind_cons. by rewrite IH.
Qed.
