(* ===== verification/SemiJoin.v ===== *)
(** Joins of record batches by key (src/join/mod.rs and src/join/semi_join.rs):
    composite keys written as bytes, the hash set of the build side, and the
    rows of the probe side whose key is in it. *)
From stdpp Require Import base strings list gmap.
From Stdlib Require Import ZArith Lia.
From S2P Require Import Prelude Machine ListLib Errors Arrow ArrowReference Integers Counting KeyColumns Rows.

#[local] Open Scope Z_scope.

(** ** Definitions *)

(** [CompositeKey] of semi_join.rs is its bytes. *)
Abbreviation CompositeKey := (list Z) (only parsing).

(** [src/src/join/semi_join.rs:21-35] resolve_key_indices. *)
Definition resolve_key_indices (batch : RecordBatch) (key_columns : list string)
    : result (list nat) :=
  mapM_ok (fun name => ok_or (index_of batch name) (EngineError ColumnNotFound)) key_columns.

(** [src/src/join/semi_join.rs:37-47] TypedExtractor. *)
Inductive TypedExtractor :=
  | ExInt (i : nat)
  | ExText (i : nat)
  | ExBoolean (i : nat)
  | ExFixedBinary (i : nat)
  | ExIntList (i : nat).

(** [batch.column(i)]: out of range is a panic. *)
Definition batch_column (batch : RecordBatch) (i : nat) : result array :=
  expect (snd <$> columns batch !! i).

(** [src/src/join/semi_join.rs:50-75] TypedExtractor::new. *)
Definition TypedExtractor_new (batch : RecordBatch) (col_idx : nat) : result TypedExtractor :=
  let* col := batch_column batch col_idx in
  let dt := array_type col in
  if is_integer dt then Ok (ExInt col_idx) else
  if is_text dt then Ok (ExText col_idx) else
  match dt with
  | DBoolean => Ok (ExBoolean col_idx)
  | DFixedSizeBinary _ => Ok (ExFixedBinary col_idx)
  | DList element => if is_integer element then Ok (ExIntList col_idx)
                     else Err (EngineError UnsupportedKeyType)
  | _ => Err (EngineError UnsupportedKeyType)
  end.

(** [src/src/join/semi_join.rs:77-86] TypedExtractor::col_idx. *)
Definition ex_col_idx (e : TypedExtractor) : nat :=
  match e with ExInt i | ExText i | ExBoolean i | ExFixedBinary i | ExIntList i => i end.

(** [src/src/join/semi_join.rs:88-131] TypedExtractor::append. The buffer with
    the value appended, or none for a null; an [expect] or a downcast that fails
    is a panic. *)
Definition append (e : TypedExtractor) (buf : list Z) (batch : RecordBatch) (row : nat)
    : result (option (list Z)) :=
  let* col := batch_column batch (ex_col_idx e) in
  if is_null col row then Ok None else
  let* bytes :=
    match e with
    | ExInt _ =>
        let* ints := expect (IntColumn_resolve col) in
        Ok (to_le_bytes 8 (int_join_key ints row))
    | ExText _ =>
        let* text := expect (StringColumn_resolve col) in
        let* s := expect (string_value text row) in
        Ok (to_le_bytes 4 (as_u32 (Z.of_nat (String.length s))) ++ text_bytes s)
    | ExBoolean _ =>
        match col with
        | ABool values _ => Ok [Z.b2z (default false (values !! row))]
        | _ => Panic
        end
    | ExFixedBinary _ =>
        match col with
        | AFixed _ values _ => Ok (default [] (values !! row))
        | _ => Panic
        end
    | ExIntList _ =>
        match col with
        | AList offsets child _ =>
            let values := array_slice child (offset_at offsets row) (offset_at offsets (S row)) in
            let* elements := expect (IntColumn_resolve values) in
            Ok (to_le_bytes 4 (as_u32 (Z.of_nat (array_len values))) ++
                (seq 0 (int_len elements) ≫= fun j => to_le_bytes 8 (int_join_key elements j)))
        | _ => Panic
        end
    end in
  Ok (Some (buf ++ bytes)).

(** [src/src/join/semi_join.rs:L142-147] write_key: the loop over the extractors. *)
Fixpoint write_key_from (buf : list Z) (batch : RecordBatch) (row : nat)
    (extractors : list TypedExtractor) : result (option (list Z)) :=
  match extractors with
  | [] => Ok (Some buf)
  | ext :: extractors =>
      let* appended := append ext buf batch row in
      match appended with
      | None => Ok None
      | Some buf => write_key_from buf batch row extractors
      end
  end.

(** [src/src/join/semi_join.rs:134-149] write_key. *)
Definition write_key (batch : RecordBatch) (row : nat) (extractors : list TypedExtractor)
    : result (option (list Z)) :=
  write_key_from [] batch row extractors.

Definition batch_extractors (batch : RecordBatch) (key_columns : list string)
    : result (list TypedExtractor) :=
  let* indices := resolve_key_indices batch key_columns in
  mapM_ok (TypedExtractor_new batch) indices.

(** [src/src/join/semi_join.rs:151-168] build_key_set. *)
Definition build_key_set (batches : list RecordBatch) (key_columns : list string)
    : result (gset CompositeKey) :=
  foldM (fun set batch =>
    let* extractors := batch_extractors batch key_columns in
    foldM (fun set row =>
      let* key := write_key batch row extractors in
      Ok match key with Some key => {[key]} ∪ set | None => set end)
      (seq 0 (num_rows batch)) set) batches ∅.

(** [src/src/join/mod.rs:28-34] no_rows. *)
Definition no_rows (batches : list RecordBatch) : list mask :=
  (fun batch => of_bools (replicate (num_rows batch) false)) <$> batches.

(** [src/src/join/semi_join.rs:189-227] semi_join_masks. *)
Definition semi_join_masks (build_batches : list RecordBatch) (build_key : list string)
    (probe_batches : list RecordBatch) (probe_key : list string) : result (list mask) :=
  if bool_decide (build_batches = []) || bool_decide (probe_batches = [])
  then Ok (no_rows probe_batches) else
  let* key_set := build_key_set build_batches build_key in
  if bool_decide (key_set = ∅) then Ok (no_rows probe_batches) else
  mapM_ok (fun batch =>
    let* extractors := batch_extractors batch probe_key in
    let* matches := mapM_ok (fun row =>
      let* key := write_key batch row extractors in
      Ok match key with Some key => bool_decide (key ∈ key_set) | None => false end)
      (seq 0 (num_rows batch)) in
    Ok (of_bools matches)) probe_batches.

Section kernels.
Context {K : ArrowKernels}.

(** [src/src/join/mod.rs:10-26] keep_matching. *)
Definition keep_matching (batches : list RecordBatch) (masks : list mask) : list RecordBatch :=
  omap (fun bm : RecordBatch * mask =>
    let count := true_count bm.2 in
    if (count =? 0)%nat then None else
    if (count =? num_rows bm.1)%nat then Some bm.1
    else Some (filter_record_batch bm.1 bm.2)) (zip batches masks).

(** [src/src/join/semi_join.rs:170-187] semi_join. *)
Definition semi_join (build_batches : list RecordBatch) (build_key : list string)
    (probe_batches : list RecordBatch) (probe_key : list string) : result (list RecordBatch) :=
  let* masks := semi_join_masks build_batches build_key probe_batches probe_key in
  Ok (keep_matching probe_batches masks).

(** [src/src/join/semi_join.rs:229-247] lookup_join. *)
Definition lookup_join (input_batches : list RecordBatch) (input_key : list string)
    (lookup_batches : list RecordBatch) (lookup_key : list string) : result (list RecordBatch) :=
  semi_join input_batches input_key lookup_batches lookup_key.
End kernels.

(** [src/src/join/semi_join.rs:249-257] lookup_join_masks. *)
Definition lookup_join_masks (input_batches : list RecordBatch) (input_key : list string)
    (lookup_batches : list RecordBatch) (lookup_key : list string) : result (list mask) :=
  semi_join_masks input_batches input_key lookup_batches lookup_key.

(** ** What keeping the matching rows keeps *)

Lemma keep_matching_rows {K : ArrowKernels} {L : ArrowLaws K} batches masks :
  Forall batch_ok batches -> Forall2 (fun b (m : mask) => length m = num_rows b) batches masks ->
  concat (rows_of <$> keep_matching batches masks) =
    concat (zip_with (fun b m => masked m (rows_of b)) batches masks) /\
  Forall (fun b => (0 < num_rows b)%nat) (keep_matching batches masks).
Proof.
  intros Hok; revert masks; induction Hok as [|b bs Hb Hbs IH]; intros masks Hm.
  { inversion Hm; subst. split; [done|constructor]. }
  apply Forall2_cons_inv_l in Hm as (m & ms & Hl & Hm & ->).
  destruct (IH ms Hm) as [IH1 IH2]. unfold keep_matching. cbn [zip zip_with omap list_omap].
  cbn [fst snd]. fold (keep_matching bs ms). destruct (filter_record_batch_rows b m Hb Hl) as (_ & Hn & Hr & _).
  destruct (Nat.eqb_spec (true_count m) 0) as [E|E].
  - cbn [concat]. rewrite (masked_none m) by done. by split.
  - destruct (Nat.eqb_spec (true_count m) (num_rows b)) as [E'|E']; split.
    + cbn [fmap list_fmap concat]. rewrite masked_all by (rewrite rows_of_length; done). f_equal. exact IH1.
    + constructor; [lia|done].
    + cbn [fmap list_fmap concat]. rewrite Hr. f_equal. exact IH1.
    + constructor; [rewrite Hn; lia|done].
Qed.

(** ** What the extractors write *)

(** Batches that hold the key columns, of the given shapes. *)
Definition keyed (batches : list RecordBatch) (names : list string) (shapes : list key_shape) : Prop :=
  Forall (fun b =>
    batch_ok b /\ Forall (fun c => array_i32 c.2) (columns b) /\
    mapM (fun name => column_by_name b name ≫= fun col => key_shape_of (array_type col)) names
      = Some shapes) batches.

Lemma extractor_append_spec col e i buf batch row :
  array_ok col -> (row < array_len col)%nat -> batch_column batch i = Ok col ->
  TypedExtractor_new batch i = Ok e ->
  append e buf batch row = Ok ((fun p => buf ++ encode_part p) <$> part_at col row).
Proof.
  intros Hok Hrow Hcol H. unfold TypedExtractor_new in H. rewrite Hcol in H; cbn [obind] in H.
  destruct col as [t v n|t v n|v n|sz v n|o child n|nm v n| | | |]; cbn in H; try done.
  1-4: injection H as <-; unfold append; cbn [ex_col_idx]; rewrite Hcol; cbn [obind];
    unfold part_at; destruct (is_null _ row) eqn:En; [done|]; try done.
  - unfold string_value; cbn. unfold is_null in En; cbn in En.
    destruct (is_valid_in n row); [done|done].
  - destruct (is_integer (array_type child)) eqn:Ei; [|done]. injection H as <-.
    unfold append; cbn [ex_col_idx]; rewrite Hcol; cbn [obind].
    unfold part_at; destruct (is_null _ row) eqn:En; [done|].
    destruct child as [t cv cn| | | | | | | | |]; cbn in Ei; try done.
    cbn [array_slice IntColumn_resolve expect obind fmap option_fmap option_map encode_part array_len].
    destruct Hok as (_ & _ & Hlen & Hs & Hf & _). cbn [array_len] in *.
    set (s := offset_at o row). set (e := offset_at o (S row)).
    assert (He : (e <= length cv)%nat).
    { unfold e, offset_at. destruct (o !! S row) as [z|] eqn:Ez; cbn; [|lia].
      pose proof (Forall_lookup_1 _ _ _ _ Hf Ez). cbn in *. lia. }
    assert (Hl : length (slice cv s e) = (e - s)%nat).
    { unfold slice. rewrite length_take, length_drop. lia. }
    unfold int_len; cbn [ic_values]. rewrite Hl, length_fmap, length_seq. do 4 f_equal.
    assert (Hgen : forall k n, (k + n <= e - s)%nat ->
      (seq k n ≫= fun j => to_le_bytes 8 (int_join_key {| ic_type := t; ic_values := slice cv s e;
                                          ic_nulls := slice_nulls cn s e |} j)) =
      ((fun i => stored_key (default 0 (cv !! i))) <$> seq (s + k) n) ≫= to_le_bytes 8).
    { intros k m. revert k; induction m as [|m IH]; intros k Hk; [done|].
      cbn [seq]. rewrite fmap_cons, !bind_cons, IH by lia. f_equal; [|do 3 f_equal; lia].
      unfold int_join_key, int_value; cbn [ic_values]. by rewrite slice_lookup by lia. }
    rewrite (Hgen O (e - s)%nat) by lia. by rewrite Nat.add_0_r.
Qed.

Lemma extractors_ok b names shapes :
  mapM (fun name => column_by_name b name ≫= fun col => key_shape_of (array_type col)) names
    = Some shapes ->
  exists exts, batch_extractors b names = Ok exts /\
    Forall2 (fun name e => exists i col, batch_column b i = Ok col /\
      column_by_name b name = Some col /\ TypedExtractor_new b i = Ok e) names exts.
Proof.
  unfold batch_extractors, resolve_key_indices. revert shapes.
  induction names as [|name names IH]; intros shapes H; cbn in *.
  { exists []. by repeat constructor. }
  destruct (column_by_name b name) as [col|] eqn:Ec; cbn in H; [|done].
  destruct (key_shape_of (array_type col)) as [s|] eqn:Es; cbn in H; [|done].
  destruct (mapM _ names) as [ss|]; cbn in H; [|done].
  destruct (IH ss eq_refl) as (exts & E & Hf).
  pose proof (index_of_column b name) as Hi. rewrite Ec in Hi.
  destruct (index_of b name) as [i|]; cbn in Hi; [|done].
  assert (Hcol : batch_column b i = Ok col).
  { unfold batch_column. by rewrite <- Hi. }
  assert (exists e, TypedExtractor_new b i = Ok e) as [e He].
  { unfold TypedExtractor_new. rewrite Hcol; cbn [obind].
    destruct (array_type col) as [?|?| |?|el|?| | | |]; cbn; eauto; try done.
    destruct el; cbn in *; eauto; done. }
  cbn [ok_or obind]. destruct (mapM_ok _ names) as [idx| |]; cbn [obind] in *; try done.
  cbn [mapM_ok]. rewrite He; cbn [obind]. rewrite E; cbn [obind].
  eexists; split; [done|]. constructor; [by exists i, col|done].
Qed.

Lemma write_key_spec b names exts row buf :
  batch_ok b -> (row < num_rows b)%nat ->
  Forall2 (fun name e => exists i col, batch_column b i = Ok col /\
      column_by_name b name = Some col /\ TypedExtractor_new b i = Ok e) names exts ->
  write_key_from buf b row exts =
    Ok ((fun ps => buf ++ (ps ≫= encode_part)) <$> key_of b names row).
Proof.
  intros Hok Hrow Hf. revert buf; induction Hf as [|name e names exts (i & col & H1 & H2 & H3) Hf IH];
    intros buf; [cbn; by rewrite app_nil_r|].
  destruct (column_ok b name col Hok H2) as [Hc Hl].
  cbn [write_key_from]. rewrite (extractor_append_spec col e i) by (done || lia).
  unfold key_of; cbn [mapM]. rewrite H2; cbn [mbind option_bind].
  destruct (part_at col row) as [p|]; cbn [fmap option_fmap option_map obind mbind option_bind]; [|done].
  rewrite IH. unfold key_of. destruct (mapM _ names) as [ps|]; cbn; [|done].
  by rewrite <- app_assoc.
Qed.

(** ** The join *)

(** A row of the build side with a given key. *)
Definition has_key (batches : list RecordBatch) (names : list string) (ps : list key_part) : Prop :=
  exists b row, b ∈ batches /\ (row < num_rows b)%nat /\ key_of b names row = Some ps.

(** A row joins when its key is complete and is a build row's key. *)
Definition joins (build : list RecordBatch) (bk : list string) (b : RecordBatch)
    (pk : list string) (row : nat) : Prop :=
  exists ps, key_of b pk row = Some ps /\ has_key build bk ps.

Lemma foldM_set_ok {A} (f : A -> result (option (list Z))) (key : A -> option (list Z)) (l : list A)
    (s : gset (list Z)) :
  Forall (fun a => f a = Ok (key a)) l ->
  exists s', foldM (fun s a => let* k := f a in
      Ok match k with Some k => {[k]} ∪ s | None => s end) l s = Ok s' /\
    forall k, k ∈ s' <-> k ∈ s \/ exists a, a ∈ l /\ key a = Some k.
Proof.
  intros H; revert s; induction H as [|a l Ha Hl IH]; intros s; cbn [foldM].
  { exists s. split; [done|]. intros k. split; [by left|].
    intros [|(a & Ha%not_elem_of_nil & _)]; done. }
  rewrite Ha; cbn [obind].
  destruct (IH (match key a with Some k => {[k]} ∪ s | None => s end)) as (s' & E & Hs).
  exists s'. split; [exact E|]. intros k. rewrite Hs. setoid_rewrite elem_of_cons.
  destruct (key a) as [k'|] eqn:Ek.
  - rewrite elem_of_union, elem_of_singleton. split.
    + intros [[->|]|(x & ? & ?)]; eauto 10.
    + intros [|(x & [->|] & Hx)]; [auto| |eauto 10]. left; left; congruence.
  - split; [intros [|(x & ? & ?)]; eauto 10|].
    intros [|(x & [->|] & Hx)]; [auto|congruence|eauto 10].
Qed.

(** The bytes of a row's composite key. *)
Definition key_bytes (b : RecordBatch) (names : list string) (row : nat) : option (list Z) :=
  (fun ps => ps ≫= encode_part) <$> key_of b names row.

Lemma build_key_set_spec batches names shapes :
  keyed batches names shapes ->
  exists set, build_key_set batches names = Ok set /\
    forall k, k ∈ set <-> exists b row, b ∈ batches /\ (row < num_rows b)%nat /\
      key_bytes b names row = Some k.
Proof.
  intros H. unfold build_key_set.
  assert (Hgen : forall s0 : gset CompositeKey, exists set : gset CompositeKey, foldM (fun set batch =>
      let* extractors := batch_extractors batch names in
      foldM (fun set row =>
        let* key := write_key batch row extractors in
        Ok match key with Some key => {[key]} ∪ set | None => set end)
        (seq 0 (num_rows batch)) set) batches s0 = Ok (E:=error) set /\
    forall k, k ∈ set <-> k ∈ s0 \/ exists b row, b ∈ batches /\ (row < num_rows b)%nat /\
      key_bytes b names row = Some k).
  2: { destruct (Hgen ∅) as (set & E & Hs). exists set. split; [exact E|].
       intros k. rewrite Hs, elem_of_empty. tauto. }
  induction H as [|b bs (Hok & Hi & Hs) Hbs IH]; intros s0; cbn [foldM].
  { exists s0. split; [done|]. intros k. split; [by left|].
    intros [|(b & row & Hb%not_elem_of_nil & _)]; done. }
  destruct (extractors_ok b names shapes Hs) as (exts & He & Hf). rewrite He; cbn [obind].
  destruct (foldM_set_ok (fun row => write_key b row exts) (key_bytes b names)
    (seq 0 (num_rows b)) s0) as (s1 & E1 & H1).
  { apply Forall_forall. intros row Hrow%elem_of_seq. unfold write_key.
    by rewrite (write_key_spec b names) by (done || lia). }
  rewrite E1; cbn [obind]. destruct (IH s1) as (set & E & Hset). exists set. split; [exact E|].
  intros k. rewrite Hset, H1. setoid_rewrite elem_of_cons. split.
  - intros [[|(row & Hr%elem_of_seq & ?)]|(b' & row & ? & ? & ?)]; [by left| |]; right.
    + exists b, row. split_and!; auto; lia.
    + exists b', row. auto.
  - intros [|(b' & row & [->|] & Hr & ?)]; [auto| |right; eauto 10].
    left; right. exists row. split; [apply elem_of_seq; lia|done].
Qed.

Lemma key_bytes_joins build bk b pk shapes row :
  keyed build bk shapes -> keyed [b] pk shapes -> (row < num_rows b)%nat ->
  (exists k, key_bytes b pk row = Some k /\
     exists b' row', b' ∈ build /\ (row' < num_rows b')%nat /\ key_bytes b' bk row' = Some k) <->
  joins build bk b pk row.
Proof.
  intros Hb Hp Hrow. unfold key_bytes, joins, has_key. split.
  - intros (k & Hk & b' & row' & Hin & Hrow' & Hk').
    apply fmap_Some in Hk as (ps & Hps & ->). apply fmap_Some in Hk' as (qs & Hqs & E).
    exists ps. split; [done|]. exists b', row'. split_and!; [done..|].
    unfold keyed in *. rewrite Forall_forall in Hb. destruct (Hb b' Hin) as (Hok' & Hi' & Hs').
    apply Forall_inv in Hp as (Hok & Hi & Hs).
    destruct (key_of_shape b pk row ps) as (sh & E1 & F1); [done..|].
    destruct (key_of_shape b' bk row' qs) as (sh' & E2 & F2); [done..|].
    simplify_eq. rewrite Hqs. f_equal. symmetry. by eapply encode_parts_inj.
  - intros (ps & Hps & b' & row' & Hin & Hrow' & Hqs). exists (ps ≫= encode_part).
    rewrite Hps. split; [done|]. exists b', row'. by rewrite Hqs.
Qed.

Lemma no_rows_spec batches i b :
  batches !! i = Some b ->
  no_rows batches !! i = Some (of_bools (replicate (num_rows b) false)).
Proof. intros H. unfold no_rows. by rewrite list_lookup_fmap, H. Qed.

Lemma probe_batch_spec (build : list RecordBatch) (bk : list string) (b : RecordBatch)
    (pk : list string) (shapes : list key_shape) (set : gset (list Z)) :
  keyed build bk shapes -> keyed [b] pk shapes ->
  (forall k, k ∈ set <-> exists b row, b ∈ build /\ (row < num_rows b)%nat /\
      key_bytes b bk row = Some k) ->
  exists ans,
    (let* extractors := batch_extractors b pk in
     let* matches := mapM_ok (fun row =>
       let* key := write_key b row extractors in
       Ok match key with Some key => bool_decide (key ∈ set) | None => false end)
       (seq 0 (num_rows b)) in
     Ok (E:=error) (of_bools matches)) = Ok (of_bools ans) /\ length ans = num_rows b /\
    forall row, (row < num_rows b)%nat -> ans !! row = Some true <-> joins build bk b pk row.
Proof.
  intros Hb Hp Hset. pose proof (Forall_inv Hp) as (Hok & Hi & Hs).
  destruct (extractors_ok b pk shapes Hs) as (exts & He & Hf). rewrite He; cbn [obind].
  set (answer row := match key_bytes b pk row with
    Some k => bool_decide (k ∈ set) | None => false end).
  rewrite (mapM_ok_pure _ answer).
  2: { apply Forall_forall. intros row Hrow%elem_of_seq. unfold write_key, answer, key_bytes.
       rewrite (write_key_spec b pk) by (done || lia). by destruct (key_of b pk row). }
  cbn [obind]. eexists; split_and!; [done|by rewrite length_fmap, length_seq|].
  intros row Hrow. rewrite list_lookup_fmap, lookup_seq_lt by done. cbn.
  rewrite <- (key_bytes_joins build bk b pk shapes row) by done.
  setoid_rewrite <- Hset. unfold answer. destruct (key_bytes b pk row) as [k|].
  - rewrite inj_iff by apply _. rewrite bool_decide_eq_true. naive_solver.
  - naive_solver.
Qed.

(** C24: The semi-join marks, in every probe batch, exactly the rows whose key
    columns all hold a value and whose key equals a build row's, compared by
    value whatever width or text type each side stores; it never fails when both
    sides hold the key columns at types of the same shapes. *)
Theorem semi_join_masks_spec build bk probe pk shapes :
  keyed build bk shapes -> keyed probe pk shapes ->
  exists masks, semi_join_masks build bk probe pk = Ok masks /\ length masks = length probe /\
    forall i b, probe !! i = Some b ->
      exists ans, masks !! i = Some (of_bools ans) /\ length ans = num_rows b /\
        forall row, (row < num_rows b)%nat ->
          ans !! row = Some true <-> joins build bk b pk row.
Proof.
  intros Hb Hp. unfold semi_join_masks.
  assert (Hnone : (forall ps, ~ has_key build bk ps) ->
    exists masks, Ok (no_rows probe) = Ok (E:=error) masks /\ length masks = length probe /\
    forall i b, probe !! i = Some b ->
      exists ans, masks !! i = Some (of_bools ans) /\ length ans = num_rows b /\
        forall row, (row < num_rows b)%nat ->
          ans !! row = Some true <-> joins build bk b pk row).
  { intros Hno. exists (no_rows probe).
    split_and!; [done|unfold no_rows; by rewrite length_fmap|]. intros i b Hi. exists (replicate (num_rows b) false).
    rewrite (no_rows_spec _ _ b), length_replicate by done. split_and!; [done|done|].
    intros row Hrow. rewrite lookup_replicate_2 by done. split; [done|].
    intros (ps & _ & Hk). by apply Hno in Hk. }
  destruct (bool_decide_reflect (build = [])) as [->|Hbn].
  { apply Hnone. intros ps (b & row & Hin%not_elem_of_nil & _). done. }
  destruct (bool_decide_reflect (probe = [])) as [->|Hpn]; cbn [orb].
  { exists []. split_and!; [done|done|]. by intros i b Hi. }
  destruct (build_key_set_spec build bk shapes Hb) as (set & E & Hset). rewrite E; cbn [obind].
  destruct (bool_decide_reflect (set = ∅)) as [->|Hne].
  { apply Hnone. intros ps (b & row & Hin & Hrow & Hk).
    apply (not_elem_of_empty (C:=gset CompositeKey) (ps ≫= encode_part)), Hset.
    exists b, row. unfold key_bytes. by rewrite Hk. }
  clear Hnone Hpn Hne. induction Hp as [|b bs Hpb Hps IH]; cbn [mapM_ok].
  { exists []. split_and!; [done|done|]. by intros i b Hi. }
  destruct (probe_batch_spec build bk b pk shapes set) as (ans & Ea & Hl & Ha);
    [done|by constructor|done|].
  rewrite Ea; cbn [obind]. destruct IH as (masks & Em & Hlm & Hm). rewrite Em; cbn [obind].
  exists (of_bools ans :: masks). split_and!; [done|cbn; congruence|].
  intros [|i] b' Hi; cbn in *; [|by apply Hm]. injection Hi as <-. by exists ans.
Qed.

(** ** Witness: calls join their parent transactions across stored widths *)

Import ArrowInstances.

Definition build_side : list RecordBatch :=
  [ {| columns := [("block"%string, AInt UInt32 [7; 7; 8] None);
                   ("hash"%string, AText Utf8 ["a"; "b"; "c"]%string (Some [true; false; true]))];
       num_rows := 3 |} ].

Definition probe_side : list RecordBatch :=
  [ {| columns := [("id"%string, AText LargeUtf8 ["c"; "b"; "a"]%string None);
                   ("number"%string, AInt Int64 [8; 7; 8] None)];
       num_rows := 3 |} ].

Lemma sides_keyed :
  keyed build_side ["block"; "hash"]%string [SInt; SText] /\
  keyed probe_side ["number"; "id"]%string [SInt; SText].
Proof.
  split; (constructor; [|constructor]; split_and!; [|repeat constructor|reflexivity]);
    unfold batch_ok; cbn -[Z.pow]; repeat constructor; cbn -[Z.pow]; try lia.
Qed.

Lemma semi_join_masks_spec_witness :
  semi_join_masks build_side ["block"; "hash"]%string probe_side ["number"; "id"]%string
    = Ok [of_bools [true; false; false]] /\
  exists masks,
    semi_join_masks build_side ["block"; "hash"]%string probe_side ["number"; "id"]%string = Ok masks /\
    length masks = length probe_side /\
    forall i b, probe_side !! i = Some b ->
      exists ans, masks !! i = Some (of_bools ans) /\ length ans = num_rows b /\
        forall row, (row < num_rows b)%nat -> ans !! row = Some true <->
          joins build_side ["block"; "hash"]%string b ["number"; "id"]%string row.
Proof.
  split; [vm_compute; reflexivity|].
  destruct sides_keyed as [Hb Hp].
  exact (semi_join_masks_spec build_side _ probe_side _ [SInt; SText] Hb Hp).
Defined.
