(* ===== verification/Hierarchical.v ===== *)
(** Hierarchical joins (src/join/hierarchical.rs): the rows of a target whose
    address extends a source's (children) or is extended by one (parents),
    within a group of rows of equal key. *)
From stdpp Require Import base strings list gmap.
From Stdlib Require Import ZArith Lia.
From S2P Require Import Prelude Machine ListLib Errors Arrow ArrowReference Integers Counting KeyColumns Rows SemiJoin.

#[local] Open Scope Z_scope.

(** ** Definitions *)

(** [src/src/join/hierarchical.rs:9-27] extract_address. *)
Definition extract_address (addresses : array) (row : nat) : list Z :=
  if is_null addresses row then [] else
  match addresses with
  | AList offsets child _ =>
      let values := array_slice child (offset_at offsets row) (offset_at offsets (S row)) in
      match IntColumn_resolve values with
      | None => []
      | Some elements => (fun i => as_u32 (int_block_number elements i)) <$> seq 0 (int_len elements)
      end
  | _ => []
  end.

(** [src/src/join/hierarchical.rs:33-59] make_group_key. *)
Fixpoint make_group_key (batch : RecordBatch) (row : nat) (key_indices : list nat) (buf : list Z)
    : result (option (list Z)) :=
  match key_indices with
  | [] => Ok (Some buf)
  | idx :: key_indices =>
      let* col := batch_column batch idx in
      match IntColumn_resolve col with
      | None => Err (EngineError UnsupportedKeyType)
      | Some ints =>
          if int_is_null ints row then Ok None
          else make_group_key batch row key_indices (buf ++ to_le_bytes 8 (int_join_key ints row))
      end
  end.

(** [src/src/join/hierarchical.rs:61-74] resolve_indices. *)
Definition resolve_indices (batch : RecordBatch) (cols : list string) : result (list nat) :=
  mapM_ok (fun name => ok_or (index_of batch name) (EngineError ColumnNotFound)) cols.

(** The group-key indices and the address array of a batch, as both loops of
    both functions resolve them. *)
Definition resolve_batch (batch : RecordBatch) (group_key_columns : list string)
    (address_column : string) : result (list nat * array) :=
  let* key_indices := resolve_indices batch group_key_columns in
  let* addr_idx := ok_or (index_of batch address_column) (EngineError ColumnNotFound) in
  let* column := batch_column batch addr_idx in
  match column with
  | AList _ _ _ => Ok (key_indices, column)
  | _ => Err (EngineError UnsupportedKeyType)
  end.

(** [src/src/join/hierarchical.rs:L123-163] children_masks: the addresses of the
    source rows, by group. The loop of [parents_masks] is the same. *)
Definition index_sources (source_batches : list RecordBatch) (group_key_columns : list string)
    (source_address_column : string) : result (gmap (list Z) (list (list Z))) :=
  foldM (fun sources batch =>
    let* resolved := resolve_batch batch group_key_columns source_address_column in
    let '(key_indices, addr_array) := resolved in
    foldM (fun (sources : gmap (list Z) (list (list Z))) row =>
      if is_null addr_array row then Ok sources else
      let* gk := make_group_key batch row key_indices [] in
      match gk with
      | None => Ok sources
      | Some gk =>
          let addr := extract_address addr_array row in
          Ok (<[gk := default [] (sources !! gk) ++ [addr]]> sources)
      end) (seq 0 (num_rows batch)) sources) source_batches ∅.

(** [src/src/join/hierarchical.rs:L165-222] children_masks: the loop over the
    target batches, for the function's test of a target address against a source
    address of its group. *)
Definition probe_targets (target_batches : list RecordBatch) (group_key_columns : list string)
    (target_address_column : string) (sources : gmap (list Z) (list (list Z)))
    (related : list Z -> list Z -> bool) : result (list mask) :=
  mapM_ok (fun batch =>
    let* resolved := resolve_batch batch group_key_columns target_address_column in
    let '(key_indices, addr_array) := resolved in
    let* matches := mapM_ok (fun row =>
      if is_null addr_array row then Ok false else
      let* gk := make_group_key batch row key_indices [] in
      match gk with
      | None => Ok false
      | Some gk =>
          let target_addr := extract_address addr_array row in
          Ok match sources !! gk with
             | Some addrs => existsb (related target_addr) addrs
             | None => false
             end
      end) (seq 0 (num_rows batch)) in
    Ok (of_bools matches)) target_batches.

(** [src/src/join/hierarchical.rs:L204-217] children_masks: whether a target
    address is a child of a source's. *)
Definition is_child (inclusive : bool) (target_addr parent : list Z) : bool :=
  (if inclusive then (length parent <=? length target_addr)%nat
   else (length parent <? length target_addr)%nat) &&
  bool_decide (take (length parent) target_addr = parent).

(** [src/src/join/hierarchical.rs:L349-362] parents_masks: whether a target
    address is a parent of a source's. *)
Definition is_parent (inclusive : bool) (target_addr child : list Z) : bool :=
  (if inclusive then (length target_addr <=? length child)%nat
   else (length target_addr <? length child)%nat) &&
  bool_decide (take (length target_addr) child = target_addr).

(** [src/src/join/hierarchical.rs:110-225] children_masks. *)
Definition children_masks (source_batches target_batches : list RecordBatch)
    (group_key_columns : list string) (source_address_column target_address_column : string)
    (inclusive : bool) : result (list mask) :=
  if bool_decide (source_batches = []) || bool_decide (target_batches = [])
  then Ok (no_rows target_batches) else
  let* sources := index_sources source_batches group_key_columns source_address_column in
  probe_targets target_batches group_key_columns target_address_column sources (is_child inclusive).

(** [src/src/join/hierarchical.rs:256-370] parents_masks. *)
Definition parents_masks (source_batches target_batches : list RecordBatch)
    (group_key_columns : list string) (source_address_column target_address_column : string)
    (inclusive : bool) : result (list mask) :=
  if bool_decide (source_batches = []) || bool_decide (target_batches = [])
  then Ok (no_rows target_batches) else
  let* sources := index_sources source_batches group_key_columns source_address_column in
  probe_targets target_batches group_key_columns target_address_column sources (is_parent inclusive).

Section kernels.
Context {K : ArrowKernels}.

(** [src/src/join/hierarchical.rs:76-108] find_children. *)
Definition find_children (source_batches target_batches : list RecordBatch)
    (group_key_columns : list string) (source_address_column target_address_column : string)
    (inclusive : bool) : result (list RecordBatch) :=
  let* masks := children_masks source_batches target_batches group_key_columns
      source_address_column target_address_column inclusive in
  Ok (keep_matching target_batches masks).

(** [src/src/join/hierarchical.rs:227-254] find_parents. *)
Definition find_parents (source_batches target_batches : list RecordBatch)
    (group_key_columns : list string) (source_address_column target_address_column : string)
    (inclusive : bool) : result (list RecordBatch) :=
  let* masks := parents_masks source_batches target_batches group_key_columns
      source_address_column target_address_column inclusive in
  Ok (keep_matching target_batches masks).
End kernels.

(** ** What a row's group and address are *)

(** A row's group: the join keys of its group columns; none where one is null
    or is not an integer column. *)
Definition group_of (batch : RecordBatch) (group_cols : list string) (row : nat) : option (list Z) :=
  mapM (fun name =>
    col ← column_by_name batch name;
    ints ← IntColumn_resolve col;
    if int_is_null ints row then None else Some (int_join_key ints row)) group_cols.

(** A row's address; none for a null. *)
Definition address_of (batch : RecordBatch) (address_col : string) (row : nat) : option (list Z) :=
  col ← column_by_name batch address_col;
  if is_null col row then None else Some (extract_address col row).

(** Batches that hold the group columns as integers and the address as a list. *)
Definition addressed (batches : list RecordBatch) (group_cols : list string) (address_col : string)
    : Prop :=
  Forall (fun b =>
    batch_ok b /\
    Forall (fun name => exists t v n, column_by_name b name = Some (AInt t v n)) group_cols /\
    exists o v n, column_by_name b address_col = Some (AList o v n)) batches.

Lemma column_index b name col :
  column_by_name b name = Some col ->
  exists i, index_of b name = Some i /\ batch_column b i = Ok col.
Proof.
  intros H. pose proof (index_of_column b name) as Hi. rewrite H in Hi.
  destruct (index_of b name) as [i|]; cbn in Hi; [|done].
  exists i. split; [done|]. unfold batch_column. by rewrite <- Hi.
Qed.

Lemma resolve_indices_ok b cols :
  Forall (fun name => exists t v n, column_by_name b name = Some (AInt t v n)) cols ->
  exists idx, resolve_indices b cols = Ok idx /\
    Forall2 (fun name i => exists t v n, column_by_name b name = Some (AInt t v n) /\
      batch_column b i = Ok (AInt t v n)) cols idx.
Proof.
  unfold resolve_indices. induction 1 as [|name cols (t & v & n & Hc) _ (idx & E & Hf)].
  { exists []. by split. }
  destruct (column_index _ _ _ Hc) as (i & Hi & Hcol). cbn [mapM_ok]. rewrite Hi, E; cbn.
  eexists; split; [done|]. constructor; [|done]. by exists t, v, n.
Qed.

Lemma resolve_batch_ok b group_cols address_col :
  addressed [b] group_cols address_col ->
  exists idx col, resolve_batch b group_cols address_col = Ok (idx, col) /\
    column_by_name b address_col = Some col /\
    Forall2 (fun name i => exists t v n, column_by_name b name = Some (AInt t v n) /\
      batch_column b i = Ok (AInt t v n)) group_cols idx.
Proof.
  intros H. apply Forall_inv in H as (Hok & Hg & o & v & n & Ha).
  destruct (resolve_indices_ok b group_cols Hg) as (idx & E & Hf).
  destruct (column_index _ _ _ Ha) as (i & Hi & Hcol).
  exists idx, (AList o v n). split_and!; [|done|done].
  unfold resolve_batch. by rewrite E, Hi; cbn; rewrite Hcol.
Qed.

Lemma make_group_key_spec b cols idx row buf :
  Forall2 (fun name i => exists t v n, column_by_name b name = Some (AInt t v n) /\
      batch_column b i = Ok (AInt t v n)) cols idx ->
  make_group_key b row idx buf =
    Ok ((fun ks => buf ++ (ks ≫= to_le_bytes 8)) <$> group_of b cols row).
Proof.
  intros Hf; revert buf; induction Hf as [|name i cols idx (t & v & n & Hc & Hi) Hf IH];
    intros buf; [cbn; by rewrite app_nil_r|].
  cbn [make_group_key]. rewrite Hi; cbn [obind IntColumn_resolve].
  unfold group_of; cbn [mapM]. rewrite Hc; cbn [mbind option_bind IntColumn_resolve].
  destruct (int_is_null _ row); [done|]. rewrite IH. unfold group_of.
  destruct (mapM _ cols) as [ks|]; cbn; [|done]. by rewrite <- app_assoc.
Qed.

Lemma group_of_u64 b cols row ks : group_of b cols row = Some ks -> Forall is_u64 ks.
Proof.
  unfold group_of. revert ks; induction cols as [|name cols IH]; intros ks H; cbn in H.
  { injection H as <-. constructor. }
  destruct (column_by_name b name); cbn in H; [|done].
  destruct (IntColumn_resolve _); cbn in H; [|done].
  destruct (int_is_null _ row); cbn in H; [done|].
  destruct (mapM _ cols) as [ks'|]; cbn in H; [|done]. injection H as <-.
  constructor; [apply stored_key_range | by apply IH].
Qed.

(** The bytes a group is held by. *)
Definition group_bytes (b : RecordBatch) (cols : list string) (row : nat) : option (list Z) :=
  (fun ks => ks ≫= to_le_bytes 8) <$> group_of b cols row.

Lemma group_bytes_inj b b' cols cols' row row' k :
  group_bytes b cols row = Some k -> group_bytes b' cols' row' = Some k ->
  group_of b cols row = group_of b' cols' row'.
Proof.
  unfold group_bytes. intros (ks & H & ->)%fmap_Some (ks' & H' & E)%fmap_Some.
  rewrite H, H'. f_equal. apply le_bytes_paths_inj; eauto using group_of_u64.
Qed.

(** ** The index of the sources *)

(** A source row of a group with an address. *)
Definition has_address (batches : list RecordBatch) (group_cols : list string) (address_col : string)
    (group addr : list Z) : Prop :=
  exists b row, b ∈ batches /\ (row < num_rows b)%nat /\
    group_of b group_cols row = Some group /\ address_of b address_col row = Some addr.

Definition row_entry (b : RecordBatch) (group_cols : list string) (address_col : string) (row : nat)
    : option (list Z * list Z) :=
  addr ← address_of b address_col row;
  gk ← group_bytes b group_cols row;
  Some (gk, addr).

Definition add_entry (sources : gmap (list Z) (list (list Z))) (e : option (list Z * list Z)) :=
  match e with
  | Some (gk, addr) => <[gk := default [] (sources !! gk) ++ [addr]]> sources
  | None => sources
  end.

Lemma add_entries_spec (es : list (option (list Z * list Z))) sources k a :
  a ∈ default [] (fold_left add_entry es sources !! k) <->
  a ∈ default [] (sources !! k) \/ Some (k, a) ∈ es.
Proof.
  revert sources; induction es as [|e es IH]; intros sources; cbn [fold_left].
  { split; [by left | intros [|?%not_elem_of_nil]; done]. }
  rewrite IH, elem_of_cons. destruct e as [[gk addr]|]; cbn [add_entry].
  - destruct (decide (gk = k)) as [->|Hne].
    + rewrite lookup_insert_eq; cbn. rewrite elem_of_app, list_elem_of_singleton. split.
      * intros [[?| ->]|?]; auto.
      * intros [?|[[= ->]|?]]; auto.
    + rewrite lookup_insert_ne by done. split; [intros [?|?]; auto|].
      intros [?|[[= -> ->]|?]]; auto. done.
  - split; [intros [?|?]; auto|]. intros [?|[?|?]]; auto. done.
Qed.

Lemma index_batch b group_cols address_col idx col sources :
  Forall2 (fun name i => exists t v n, column_by_name b name = Some (AInt t v n) /\
      batch_column b i = Ok (AInt t v n)) group_cols idx ->
  column_by_name b address_col = Some col ->
  forall rows,
  foldM (fun (sources : gmap (list Z) (list (list Z))) row =>
      if is_null col row then Ok sources else
      let* gk := make_group_key b row idx [] in
      match gk with
      | None => Ok sources
      | Some gk =>
          let addr := extract_address col row in
          Ok (<[gk := default [] (sources !! gk) ++ [addr]]> sources)
      end) rows sources =
    Ok (E:=error) (fold_left add_entry (row_entry b group_cols address_col <$> rows) sources).
Proof.
  intros Hf Hc rows. revert sources; induction rows as [|row rows IH]; intros sources; [done|].
  cbn [foldM]. rewrite (make_group_key_spec b group_cols) by done.
  rewrite fmap_cons; cbn [fold_left].
  assert (E : row_entry b group_cols address_col row =
    if is_null col row then None else
    (fun ks => (ks ≫= to_le_bytes 8, extract_address col row)) <$> group_of b group_cols row).
  { unfold row_entry, address_of, group_bytes. rewrite Hc; cbn.
    destruct (is_null col row); [done|]. cbn. by destruct (group_of b group_cols row). }
  rewrite E. destruct (is_null col row); cbn [obind]; [apply IH|].
  destruct (group_of b group_cols row) as [ks|]; cbn; apply IH.
Qed.

Lemma index_sources_spec batches group_cols address_col :
  addressed batches group_cols address_col ->
  exists sources, index_sources batches group_cols address_col = Ok sources /\
    forall k a, a ∈ default [] (sources !! k) <->
      exists b row, b ∈ batches /\ (row < num_rows b)%nat /\
        group_bytes b group_cols row = Some k /\ address_of b address_col row = Some a.
Proof.
  intros H. exists (fold_left add_entry (batches ≫= fun b =>
    row_entry b group_cols address_col <$> seq 0 (num_rows b)) ∅). split.
  - unfold index_sources. generalize (∅ : gmap (list Z) (list (list Z))).
    induction H as [|b bs Hb Hbs IH]; intros s; [done|]. cbn [foldM].
    destruct (resolve_batch_ok b group_cols address_col) as (idx & col & E & Hc & Hf); [by constructor|].
    rewrite E; cbn [obind]. rewrite (index_batch b group_cols address_col) by done. cbn [obind].
    rewrite IH, bind_cons, fold_left_app. done.
  - intros k a. rewrite add_entries_spec, lookup_empty; cbn. rewrite list_elem_of_bind. split.
    + intros [?%not_elem_of_nil|(b & Hin & Hb)]; [done|].
      apply list_elem_of_fmap in Hin as (row & E & Hrow%elem_of_seq).
      exists b, row. unfold row_entry in E.
      destruct (address_of b address_col row) as [x|]; cbn in E; [|done].
      destruct (group_bytes b group_cols row) as [g|] eqn:Eg; cbn in E; [|done].
      injection E as -> ->. split_and!; auto; lia.
    + intros (b & row & Hb & Hrow & Hg & Ha). right. exists b. split; [|done].
      apply list_elem_of_fmap. exists row. split; [|apply elem_of_seq; lia].
      unfold row_entry. by rewrite Ha; cbn; rewrite Hg.
Qed.

(** ** The masks *)

(** A row related to a source row of its group. *)
Definition relative (related : list Z -> list Z -> bool) (sources : list RecordBatch)
    (group_cols : list string) (source_col : string) (b : RecordBatch) (target_col : string)
    (row : nat) : Prop :=
  exists group addr source,
    group_of b group_cols row = Some group /\ address_of b target_col row = Some addr /\
    has_address sources group_cols source_col group source /\ related addr source = true.

Lemma probe_targets_spec related sources targets group_cols source_col target_col index :
  addressed sources group_cols source_col -> addressed targets group_cols target_col ->
  index_sources sources group_cols source_col = Ok index ->
  exists masks, probe_targets targets group_cols target_col index related = Ok masks /\
    length masks = length targets /\
    forall i b, targets !! i = Some b ->
      exists ans, masks !! i = Some (of_bools ans) /\ length ans = num_rows b /\
        forall row, (row < num_rows b)%nat -> ans !! row = Some true <->
          relative related sources group_cols source_col b target_col row.
Proof.
  intros Hs Ht Hi. destruct (index_sources_spec sources group_cols source_col Hs) as (ix & E & Hix).
  rewrite Hi in E. injection E as <-. unfold probe_targets.
  induction Ht as [|b bs Hb Hbs IH]; cbn [mapM_ok].
  { exists []. split_and!; [done|done|]. by intros i b Hb. }
  destruct (resolve_batch_ok b group_cols target_col) as (idx & col & E & Hc & Hf); [by constructor|].
  rewrite E; cbn [obind].
  set (answer row := match address_of b target_col row, group_bytes b group_cols row with
    | Some a, Some gk => existsb (related a) (default [] (index !! gk))
    | _, _ => false end).
  rewrite (mapM_ok_pure _ answer).
  2: { apply Forall_forall. intros row _. rewrite (make_group_key_spec b group_cols) by done.
       unfold answer, address_of, group_bytes. rewrite Hc; cbn.
       destruct (is_null col row); [done|]. cbn.
       destruct (group_of b group_cols row) as [ks|]; cbn; [|done].
       by match goal with |- context [index !! ?k] => destruct (index !! k) end. }
  cbn [obind]. destruct IH as (masks & Em & Hl & Hm). rewrite Em; cbn [obind].
  eexists; split_and!; [done|cbn; congruence|]. intros [|i] b' Hb'; cbn in Hb'; [|by apply Hm].
  injection Hb' as <-. eexists; split_and!; [done|by rewrite length_fmap, length_seq|].
  intros row Hrow. rewrite list_lookup_fmap, lookup_seq_lt by done. cbn. clear Hm.
  unfold relative, answer, group_bytes. destruct (address_of b target_col row) as [a|]; [|naive_solver].
  destruct (group_of b group_cols row) as [ks|] eqn:Eg; cbn; [|naive_solver].
  rewrite inj_iff, existsb_exists by apply _. split.
  - intros (src & Hin%list_elem_of_In & Hrel). exists ks, a, src. split_and!; try done.
    apply Hix in Hin as (b' & row' & ? & ? & Hg & ?). exists b', row'. split_and!; try done.
    rewrite <- Eg. symmetry. eapply (group_bytes_inj b b'); [|exact Hg].
    unfold group_bytes. by rewrite Eg.
  - intros (g & a' & src & [= <-] & [= <-] & (b' & row' & ? & ? & Hg & ?) & Hrel).
    exists src. split; [|done]. apply list_elem_of_In, Hix. exists b', row'.
    split_and!; try done. unfold group_bytes. by rewrite Hg.
Qed.

Lemma hierarchical_masks_spec related sources targets group_cols source_col target_col :
  addressed sources group_cols source_col -> addressed targets group_cols target_col ->
  exists masks,
    (if bool_decide (sources = []) || bool_decide (targets = []) then Ok (no_rows targets) else
     let* index := index_sources sources group_cols source_col in
     probe_targets targets group_cols target_col index related) = Ok masks /\
    length masks = length targets /\
    forall i b, targets !! i = Some b ->
      exists ans, masks !! i = Some (of_bools ans) /\ length ans = num_rows b /\
        forall row, (row < num_rows b)%nat -> ans !! row = Some true <->
          relative related sources group_cols source_col b target_col row.
Proof.
  intros Hs Ht. destruct (bool_decide_reflect (sources = [])) as [->|Hne]; cbn [orb].
  { exists (no_rows targets). split_and!; [done|unfold no_rows; by rewrite length_fmap|].
    intros i b Hi. exists (replicate (num_rows b) false).
    rewrite (no_rows_spec _ _ b), length_replicate by done. split_and!; [done|done|].
    intros row Hrow. rewrite lookup_replicate_2 by done. split; [done|].
    intros (g & a & s & _ & _ & (b' & row' & Hin%not_elem_of_nil & _) & _). done. }
  destruct (bool_decide_reflect (targets = [])) as [->|_].
  { exists []. split_and!; [done|done|]. by intros i b Hi. }
  destruct (index_sources_spec sources group_cols source_col Hs) as (index & E & _).
  rewrite E; cbn [obind]. by apply probe_targets_spec.
Qed.

Lemma is_child_spec inclusive target parent :
  is_child inclusive target parent = true <->
  parent `prefix_of` target /\ (inclusive = true \/ parent <> target).
Proof.
  unfold is_child. rewrite andb_true_iff, bool_decide_eq_true. split.
  - intros [Hl E]. assert (Hp : parent `prefix_of` target).
    { rewrite <- E. apply prefix_take. }
    split; [done|]. destruct inclusive; [by left|right]. intros ->.
    apply Nat.ltb_lt in Hl. lia.
  - intros [[k ->] Hi]. rewrite take_app_length. split; [|done].
    rewrite length_app. destruct inclusive; [apply Nat.leb_le; lia|]. apply Nat.ltb_lt.
    destruct Hi as [|Hne]; [done|]. destruct k; [by rewrite app_nil_r in Hne|cbn; lia].
Qed.

Lemma is_parent_child inclusive target child : is_parent inclusive target child = is_child inclusive child target.
Proof. done. Qed.

(** C25: A target row is a child exactly when some source row of its group has an
    address that is a prefix of the target's - a proper one, unless the join is
    inclusive; rows with a null address or group are never children. *)
Theorem children_masks_spec sources targets group_cols source_col target_col inclusive :
  addressed sources group_cols source_col -> addressed targets group_cols target_col ->
  exists masks,
    children_masks sources targets group_cols source_col target_col inclusive = Ok masks /\
    length masks = length targets /\
    forall i b, targets !! i = Some b ->
      exists ans, masks !! i = Some (of_bools ans) /\ length ans = num_rows b /\
        forall row, (row < num_rows b)%nat -> ans !! row = Some true <->
          exists group addr source,
            group_of b group_cols row = Some group /\ address_of b target_col row = Some addr /\
            has_address sources group_cols source_col group source /\
            source `prefix_of` addr /\ (inclusive = true \/ source <> addr).
Proof.
  intros Hs Ht.
  destruct (hierarchical_masks_spec (is_child inclusive) sources targets group_cols source_col
    target_col Hs Ht) as (masks & E & Hl & Hm).
  exists masks. split_and!; [exact E|done|]. intros i b Hi. destruct (Hm i b Hi) as (ans & ? & ? & Ha).
  exists ans. split_and!; [done|done|]. intros row Hrow. rewrite Ha by done. unfold relative.
  by setoid_rewrite is_child_spec.
Qed.

(** A target row is a parent exactly when its address is a prefix of the
    address of some source row of its group - a proper one, unless the join is
    inclusive. *)
Theorem parents_masks_spec sources targets group_cols source_col target_col inclusive :
  addressed sources group_cols source_col -> addressed targets group_cols target_col ->
  exists masks,
    parents_masks sources targets group_cols source_col target_col inclusive = Ok masks /\
    length masks = length targets /\
    forall i b, targets !! i = Some b ->
      exists ans, masks !! i = Some (of_bools ans) /\ length ans = num_rows b /\
        forall row, (row < num_rows b)%nat -> ans !! row = Some true <->
          exists group addr source,
            group_of b group_cols row = Some group /\ address_of b target_col row = Some addr /\
            has_address sources group_cols source_col group source /\
            addr `prefix_of` source /\ (inclusive = true \/ addr <> source).
Proof.
  intros Hs Ht.
  destruct (hierarchical_masks_spec (is_parent inclusive) sources targets group_cols source_col
    target_col Hs Ht) as (masks & E & Hl & Hm).
  exists masks. split_and!; [exact E|done|]. intros i b Hi. destruct (Hm i b Hi) as (ans & ? & ? & Ha).
  exists ans. split_and!; [done|done|]. intros row Hrow. rewrite Ha by done. unfold relative.
  setoid_rewrite is_parent_child. by setoid_rewrite is_child_spec.
Qed.

(** ** Witness: a small call tree *)

Import ArrowInstances.

Definition calls : list RecordBatch :=
  [ {| columns := [("block"%string, AInt UInt32 [7; 7; 8] None);
                   ("address"%string,
                    AList [0; 1; 3; 3] (AInt UInt16 [0; 0; 1] None) (Some [true; true; false]))];
       num_rows := 3 |} ].

Definition events : list RecordBatch :=
  [ {| columns := [("block"%string, AInt Int64 [7; 8; 7] None);
                   ("call"%string, AList [0; 2; 4; 5] (AInt UInt32 [0; 1; 0; 1; 0] None) None)];
       num_rows := 3 |} ].

Lemma call_tree_addressed :
  addressed calls ["block"%string] "address" /\ addressed events ["block"%string] "call".
Proof.
  split; (constructor; [|constructor]); (split_and!; [|constructor; [by eexists _, _, _|constructor]|by eexists _, _, _]);
    unfold batch_ok; cbn -[Z.pow]; repeat constructor; cbn -[Z.pow]; try lia; try done.
Qed.

Lemma children_masks_spec_witness :
  children_masks calls events ["block"%string] "address" "call" false = Ok [of_bools [true; false; false]] /\
  exists masks,
    children_masks calls events ["block"%string] "address" "call" false = Ok masks /\
    length masks = length events /\
    forall i b, events !! i = Some b ->
      exists ans, masks !! i = Some (of_bools ans) /\ length ans = num_rows b /\
        forall row, (row < num_rows b)%nat -> ans !! row = Some true <->
          exists group addr source,
            group_of b ["block"%string] row = Some group /\ address_of b "call" row = Some addr /\
            has_address calls ["block"%string] "address" group source /\
            source `prefix_of` addr /\ (false = true \/ source <> addr).
Proof.
  split; [vm_compute; reflexivity|]. destruct call_tree_addressed as [Hs Ht].
  exact (children_masks_spec calls events _ _ _ false Hs Ht).
Defined.

Lemma parents_masks_spec_witness :
  parents_masks calls events ["block"%string] "address" "call" false = Ok [of_bools [false; false; true]] /\
  exists masks,
    parents_masks calls events ["block"%string] "address" "call" false = Ok masks /\
    length masks = length events /\
    forall i b, events !! i = Some b ->
      exists ans, masks !! i = Some (of_bools ans) /\ length ans = num_rows b /\
        forall row, (row < num_rows b)%nat -> ans !! row = Some true <->
          exists group addr source,
            group_of b ["block"%string] row = Some group /\ address_of b "call" row = Some addr /\
            has_address calls ["block"%string] "address" group source /\
            addr `prefix_of` source /\ (false = true \/ addr <> source).
Proof.
  split; [vm_compute; reflexivity|]. destruct call_tree_addressed as [Hs Ht].
  exact (parents_masks_spec calls events _ _ _ false Hs Ht).
Defined.
