(* ===== verification/Addresses.v ===== *)
(** A relation's source addresses, indexed by group (src/scan/addresses.rs).
    The sources' paths are kept as big-endian bytes, ordered within their group
    by one counting pass and a sort, and a target row's relatives are found by
    binary search, or by hash where the paths are deep. [AddressesProof] shows
    that every form answers the prefix question on the paths themselves.

    Ids, starts and lengths are [u32] in the code: a [nat] cast by [u32] where
    the code casts. A range taken of a vector is [slice], which never panics;
    the invariant bounds every range that is taken. The lazily built prefix
    index is computed where it is first asked for. *)
From stdpp Require Import base strings list gmap.
From Stdlib Require Import ZArith Lia.
From S2P Require Import Prelude Machine ListLib Errors Arrow Integers Counting Pairs KeyColumns.

#[local] Open Scope nat_scope.

(** [n as u32]. *)
Definition u32 (n : nat) : nat := Z.to_nat (as_u32 (Z.of_nat n)).

(** [<[u8]>::as_chunks::<8>().0]: the whole chunks of eight. *)
Fixpoint chunks8 (l : list Z) : list (list Z) :=
  match l with
  | a :: b :: c :: d :: e :: f :: g :: h :: l => [a; b; c; d; e; f; g; h] :: chunks8 l
  | _ => []
  end.

(** ** Data *)

(** [src/src/scan/addresses.rs:14-21] HierarchicalMode. *)
Inductive HierarchicalMode := Children | Parents.

(** [src/src/scan/addresses.rs:152-158] GroupIds. *)
Inductive GroupIds :=
  | GPair (ids : gmap Z nat)
  | GBytes (ids : gmap (list Z) nat).

(** A path of the index: where it starts in [elements], and its length. *)
Abbreviation place := (nat * nat)%type.

(** [src/src/scan/addresses.rs:249-256] PathIndex. *)
Record PathIndex := {
  pi_first : gmap Z nat;
  pi_entries : list (Z * nat * place);
}.

(** [src/src/scan/addresses.rs:224-247] SourceAddresses. *)
Record SourceAddresses := {
  sa_groups : GroupIds;
  sa_ranges : list (nat * nat);
  sa_paths : list place;
  sa_elements : list Z;
  sa_exact : option PathIndex;
}.

(** [src/src/scan/addresses.rs:23-39] HierarchicalFilter. *)
Record HierarchicalFilter := {
  hf_sources : SourceAddresses;
  hf_group_key_columns : list string;
  hf_address_column : string;
  hf_mode : HierarchicalMode;
  hf_inclusive : bool;
}.

(** [src/src/scan/addresses.rs:97-105] AddressIndex. *)
Record AddressIndex := {
  ai_sources : SourceAddresses;
  ai_group_key_columns : list string;
  ai_readable : bool;
}.

(** ** Group ids *)

(** [src/src/scan/addresses.rs:161-166] GroupIds::len. *)
Definition groups_len (g : GroupIds) : nat :=
  match g with GPair ids => size ids | GBytes ids => size ids end.

(** [src/src/scan/addresses.rs:198-207] pair_key. *)
Definition pair_key (keys : list (option TypedKeyColumn)) (row : nat) : option Z :=
  match keys with
  | [Some (KeyInt first); Some (KeyInt second)] =>
      if negb (int_is_null first row) && negb (int_is_null second row)
      then Some (pack16 (int_join_key first row) (int_join_key second row)) else None
  | _ => None
  end.

(** [src/src/scan/addresses.rs:209-222] bytes_key. *)
Fixpoint bytes_key_from (buf : list Z) (keys : list (option TypedKeyColumn)) (row : nat)
    : result (option (list Z)) :=
  match keys with
  | [] => Ok (Some buf)
  | None :: _ => Ok None
  | Some key :: keys =>
      let* appended := append_to key buf row in
      match appended with
      | None => Ok None
      | Some buf => bytes_key_from buf keys row
      end
  end.

Definition bytes_key (keys : list (option TypedKeyColumn)) (row : nat) : result (option (list Z)) :=
  bytes_key_from [] keys row.

(** [ids.entry(key).or_insert(next)]: the id, and the map after. *)
Definition entry_or_insert `{Countable A} (ids : gmap A nat) (key : A) (next : nat)
    : nat * gmap A nat :=
  match ids !! key with
  | Some id => (id, ids)
  | None => (next, <[key := next]> ids)
  end.

(** [src/src/scan/addresses.rs:168-187] GroupIds::insert. *)
Definition groups_insert (self : GroupIds) (keys : list (option TypedKeyColumn)) (row : nat)
    : result (option nat * GroupIds) :=
  let next := u32 (groups_len self) in
  match self with
  | GPair ids =>
      Ok match pair_key keys row with
         | None => (None, self)
         | Some key => let '(id, ids) := entry_or_insert ids key next in (Some id, GPair ids)
         end
  | GBytes ids =>
      let* key := bytes_key keys row in
      Ok match key with
         | None => (None, self)
         | Some key => let '(id, ids) := entry_or_insert ids key next in (Some id, GBytes ids)
         end
  end.

(** [src/src/scan/addresses.rs:189-195] GroupIds::get. *)
Definition groups_get (self : GroupIds) (keys : list (option TypedKeyColumn)) (row : nat)
    : result (option nat) :=
  match self with
  | GPair ids => Ok (pair_key keys row ≫= fun key => ids !! key)
  | GBytes ids =>
      let* key := bytes_key keys row in
      Ok (key ≫= fun key => ids !! key)
  end.

(** ** Paths by hash *)

(** [x.rotate_left(k)] of a [u64]. *)
Definition rotate_left (x k : Z) : Z :=
  as_u64 (Z.lor (Z.shiftl x k) (Z.shiftr x (64 - k))).

(** [src/src/scan/addresses.rs:286-291] path_hash_start. *)
Definition path_hash_start (group : nat) : Z :=
  wrapping_mul (Z.lxor (Z.of_nat group) 0x9e3779b97f4a7c15) 0x517cc1b727220a95.

(** [src/src/scan/addresses.rs:293-297] path_hash_step. *)
Definition path_hash_step (hash : Z) (element : list Z) : Z :=
  wrapping_mul (Z.lxor (rotate_left hash 5) (from_be_bytes element)) 0x517cc1b727220a95.

(** [iter().take_while(p)]. *)
Fixpoint take_while {A} (p : A -> bool) (l : list A) : list A :=
  match l with
  | [] => []
  | x :: l => if p x then x :: take_while p l else []
  end.

Definition entry_hash (e : Z * nat * place) : Z := e.1.1.

(** [src/src/scan/addresses.rs:259-267] PathIndex::new. *)
Definition PathIndex_new (entries : list (Z * nat * place)) : PathIndex :=
  let entries := sort_by (fun a b => (entry_hash a <=? entry_hash b)%Z) entries in
  {| pi_first := fold_left (fun first (e : nat * (Z * nat * place)) =>
       <[entry_hash e.2 := u32 e.1]> first) (rev (enumerate entries)) ∅;
     pi_entries := entries |}.

(** [elements[start * 8..(start + len) * 8]]. *)
Definition place_bytes (elements : list Z) (p : place) : list Z :=
  slice elements (p.1 * 8) ((p.1 + p.2) * 8).

(** [src/src/scan/addresses.rs:269-280] PathIndex::contains. *)
Definition pi_contains (self : PathIndex) (hash : Z) (group : nat) (path elements : list Z) : bool :=
  match pi_first self !! hash with
  | None => false
  | Some first =>
      existsb (fun e : Z * nat * place =>
          (e.1.2 =? group) && bool_decide (place_bytes elements e.2 = path))
        (take_while (fun e => (entry_hash e =? hash)%Z) (drop first (pi_entries self)))
  end.

(** [src/src/scan/addresses.rs:283-284] HASHED_DEPTH. *)
Definition HASHED_DEPTH : nat := 4.

(** ** Walking the paths *)

(** How many leading elements two paths share. *)
Fixpoint shared_prefix (a b : list (list Z)) : nat :=
  match a, b with
  | x :: a, y :: b => if decide (x = y) then S (shared_prefix a b) else 0
  | _, _ => 0
  end.

(** A call of [walk]'s [visit]. *)
Record visited := { v_group : nat; v_place : place; v_new_from : nat; v_hashes : list Z }.

(** [src/src/scan/addresses.rs:L443-463] SourceAddresses::walk: a path's turn.
    The state is the hashes and the path before. *)
Definition walk_path (elements : list Z) (group : nat) (st : list Z * list (list Z)) (p : place)
    : visited * (list Z * list (list Z)) :=
  let '(hashes, previous) := st in
  let path := chunks8 (place_bytes elements p) in
  let shared := shared_prefix previous path in
  let new_from := if shared =? length previous then shared else S shared in
  let hashes := fold_left (fun hashes element =>
      hashes ++ [path_hash_step (default 0%Z (last hashes)) element])
    (drop shared path) (take (S shared) hashes) in
  ({| v_group := group; v_place := p; v_new_from := new_from; v_hashes := hashes |}, (hashes, path)).

Fixpoint walk_group (elements : list Z) (group : nat) (st : list Z * list (list Z))
    (places : list place) : list visited :=
  match places with
  | [] => []
  | p :: places =>
      let '(v, st) := walk_path elements group st p in
      v :: walk_group elements group st places
  end.

(** [src/src/scan/addresses.rs:427-465] SourceAddresses::walk: the calls of
    [visit], in order. *)
Definition walk (ranges : list (nat * nat)) (paths : list place) (elements : list Z) : list visited :=
  concat ((fun e : nat * (nat * nat) =>
    let group := u32 e.1 in
    walk_group elements group ([path_hash_start group], []) (slice paths e.2.1 e.2.2))
    <$> enumerate ranges).

(** [src/src/scan/addresses.rs:406-414] SourceAddresses::exact_index. *)
Definition exact_index (ranges : list (nat * nat)) (paths : list place) (elements : list Z)
    : PathIndex :=
  PathIndex_new ((fun v => (default 0%Z (v_hashes v !! (v_place v).2), v_group v, v_place v))
    <$> walk ranges paths elements).

(** [src/src/scan/addresses.rs:416-425] SourceAddresses::prefix_index. *)
Definition prefix_index (ranges : list (nat * nat)) (paths : list place) (elements : list Z)
    : PathIndex :=
  PathIndex_new (walk ranges paths elements ≫= fun v =>
    (fun dh : nat * Z => (dh.2, v_group v, ((v_place v).1, u32 dh.1))) <$>
      drop (v_new_from v) (enumerate (take (v_place v).2 (v_hashes v)))).

(** ** Building the index *)

(** [src/src/scan/addresses.rs:608-623] address_list: the offsets and validity of
    an address column, and its elements. *)
Definition address_list (batch : RecordBatch) (column : string)
    : option (list Z * null_buffer * IntColumn) :=
  col ← column_by_name batch column;
  match col with
  | AList offsets child nulls =>
      values ← IntColumn_resolve child;
      Some (offsets, nulls, values)
  | _ => None
  end.

(** [elements[offsets[row] * 8..offsets[row + 1] * 8]]. *)
Definition row_bytes (offsets element_bytes : list Z) (row : nat) : list Z :=
  slice element_bytes (offset_at offsets row * 8) (offset_at offsets (S row) * 8).

Section kernels.
Context {K : ArrowKernels}.

(** [src/src/scan/addresses.rs:L329-339] SourceAddresses::build: its closure
    [group_of]. *)
Definition group_of_row (pairs : option (list Z * list Z * null_buffer))
    (keys : list (option TypedKeyColumn)) (groups : GroupIds) (row : nat)
    : result (option nat * GroupIds) :=
  match pairs, groups with
  | Some (first, second, nulls), GPair ids =>
      let next := u32 (size ids) in
      if is_valid_in nulls row then
        let* a := vec_get first row in
        let* b := vec_get second row in
        let '(id, ids) := entry_or_insert ids (pack16 a b) next in
        Ok (Some id, GPair ids)
      else Ok (None, groups)
  | _, groups => groups_insert groups keys row
  end.

(** The groups, the elements and the entries read so far. *)
Abbreviation build_state := (GroupIds * list Z * list (nat * place))%type.

(** [src/src/scan/addresses.rs:L341-354] SourceAddresses::build: a row's turn. *)
Definition build_row (pairs : option (list Z * list Z * null_buffer))
    (keys : list (option TypedKeyColumn)) (offsets : list Z) (nulls : null_buffer)
    (element_bytes : list Z) (st : build_state) (row : nat) : result build_state :=
  let '(groups, elements, entries) := st in
  if negb (is_valid_in nulls row) then Ok st else
  let* placed := group_of_row pairs keys groups row in
  match placed.1 with
  | None => Ok (placed.2, elements, entries)
  | Some group =>
      let start := u32 (length elements / 8) in
      let elements := elements ++ row_bytes offsets element_bytes row in
      Ok (placed.2, elements, entries ++ [(group, (start, u32 (length elements / 8) - start))])
  end.

(** [src/src/scan/addresses.rs:L322-355] SourceAddresses::build: a batch's turn. *)
Definition build_batch (group_key_columns : list string) (address_column : string)
    (st : build_state) (batch : RecordBatch) : result build_state :=
  let keys := typed_key_columns batch group_key_columns in
  match address_list batch address_column with
  | None => Ok st
  | Some (offsets, nulls, values) =>
      let element_bytes := join_key_bytes values in
      let pairs := pair_keys batch group_key_columns in
      foldM (build_row pairs keys offsets nulls element_bytes) (seq 0 (num_rows batch)) st
  end.

(** [src/src/scan/addresses.rs:L380-386] SourceAddresses::build: a group's sorted
    path is kept unless it repeats the last one kept of the group. *)
Definition keep_path (elements : list Z) (first : nat) (paths : list place) (entry : place)
    : list place :=
  let repeated :=
    (first <? u32 (length paths)) &&
    match last paths with
    | Some p => bool_decide (place_bytes elements p = place_bytes elements entry)
    | None => false
    end in
  if repeated then paths else paths ++ [entry].

(** [src/src/scan/addresses.rs:L376-388] SourceAddresses::build: a group's turn in
    the loop that sorts the groups' paths. *)
Definition sort_group (elements : list Z) (starts : list nat) (ordered : list place)
    (st : list (nat * nat) * list place) (group : nat) : result (list (nat * nat) * list place) :=
  let* from := vec_get starts group in
  let* upto := vec_get starts (S group) in
  let own := sort_by (fun a b => match slice_cmp (place_bytes elements a) (place_bytes elements b)
                                 with Gt => false | _ => true end) (slice ordered from upto) in
  let first := u32 (length st.2) in
  let paths := fold_left (keep_path elements first) own st.2 in
  Ok (st.1 ++ [(first, u32 (length paths))], paths).

(** [src/src/scan/addresses.rs:300-404] SourceAddresses::build. *)
Definition SourceAddresses_build (batches : list RecordBatch) (group_key_columns : list string)
    (address_column : string) : result SourceAddresses :=
  let pair := (length group_key_columns =? 2) &&
    forallb (fun batch => forallb (fun name =>
        bool_decide (is_Some (column_by_name batch name ≫= IntColumn_resolve))) group_key_columns)
      (filter (fun batch => 0 < num_rows batch) batches) in
  let groups := if pair then GPair ∅ else GBytes ∅ in
  let* st := foldM (build_batch group_key_columns address_column) batches (groups, [], []) in
  let '(groups, elements, entries) := st in
  let* grouped := group_runs (groups_len groups) (0, 0) entries in
  let '(starts, ordered) := grouped in
  let* sorted := foldM (sort_group elements starts ordered) (seq 0 (groups_len groups)) ([], []) in
  let '(ranges, paths) := sorted in
  let deep := HASHED_DEPTH * length paths <? sum_list (snd <$> paths) in
  Ok {| sa_groups := groups; sa_ranges := ranges; sa_paths := paths; sa_elements := elements;
        sa_exact := if deep then Some (exact_index ranges paths elements) else None |}.
End kernels.

(** ** Asking the index *)

(** [src/src/scan/addresses.rs:467-469] SourceAddresses::is_empty. *)
Definition sa_is_empty (self : SourceAddresses) : bool := bool_decide (sa_paths self = []).

(** [src/src/scan/addresses.rs:521-523] SourceAddresses::path. *)
Definition sa_path (self : SourceAddresses) (p : place) : list Z := place_bytes (sa_elements self) p.

Definition group_paths (self : SourceAddresses) (group : nat) : result (list place) :=
  let* range := vec_get (sa_ranges self) group in
  Ok (slice (sa_paths self) range.1 range.2).

(** The hash of a whole path. *)
Definition path_hash (group : nat) (path : list (list Z)) : Z :=
  fold_left path_hash_step path (path_hash_start group).

(** [src/src/scan/addresses.rs:525-539] SourceAddresses::holds. *)
Definition holds (self : SourceAddresses) (group : nat) (target : list Z) : result bool :=
  match sa_exact self with
  | Some exact => Ok (pi_contains exact (path_hash group (chunks8 target)) group target (sa_elements self))
  | None =>
      let* paths := group_paths self group in
      Ok (bool_decide (is_Some (binary_search_by (fun p => slice_cmp (sa_path self p) target) paths)))
  end.

(** [src/src/scan/addresses.rs:L549-566] SourceAddresses::relates: a prefix of
    the target at each depth, from [d] on, with its hash. *)
Fixpoint deep_children (exact : PathIndex) (elements : list Z) (group : nat) (target : list Z)
    (inclusive : bool) (steps : list (list Z)) (hash : Z) (d : nat) : bool :=
  match steps with
  | [] => if negb inclusive then false
          else pi_contains exact hash group (take (d * 8) target) elements
  | step :: steps =>
      if pi_contains exact hash group (take (d * 8) target) elements then true
      else deep_children exact elements group target inclusive steps (path_hash_step hash step) (S d)
  end.

(** [path.starts_with(target)]. *)
Definition starts_with (path target : list Z) : bool := bool_decide (take (length target) path = target).

(** [src/src/scan/addresses.rs:541-605] SourceAddresses::relates. *)
Definition relates (self : SourceAddresses) (group : nat) (target : list Z)
    (mode : HierarchicalMode) (inclusive : bool) : result bool :=
  match sa_exact self with
  | Some exact =>
      let elements := sa_elements self in
      let steps := chunks8 target in
      Ok match mode with
         | Children =>
             deep_children exact elements group target inclusive steps (path_hash_start group) 0
         | Parents =>
             let prefixes := prefix_index (sa_ranges self) (sa_paths self) elements in
             let hash := path_hash group steps in
             pi_contains prefixes hash group target elements ||
             (inclusive && pi_contains exact hash group target elements)
         end
  | None =>
      let* paths := group_paths self group in
      Ok match mode with
         | Children =>
             let depth := length target / 8 in
             let depths := if inclusive then depth + 1 else depth in
             existsb (fun depth => bool_decide (is_Some (binary_search_by
                 (fun p => slice_cmp (sa_path self p) (take (depth * 8) target)) paths)))
               (seq 0 depths)
         | Parents =>
             let first := partition_point (fun p => match slice_cmp (sa_path self p) target with
                                                    Lt => true | _ => false end) paths in
             match sa_path self <$> drop first paths with
             | path :: rest =>
                 if bool_decide (path = target) then
                   inclusive || match rest with p :: _ => starts_with p target | [] => false end
                 else starts_with path target
             | [] => false
             end
         end
  end.

Section mask.
Context {K : ArrowKernels}.

(** [src/src/scan/addresses.rs:L498-506] SourceAddresses::mask: the group of a
    candidate row. *)
Definition row_group (self : SourceAddresses) (pairs : option (list Z * list Z * null_buffer))
    (keys : list (option TypedKeyColumn)) (row : nat) : result (option nat) :=
  match pairs, sa_groups self with
  | Some (first, second, nulls), GPair ids =>
      if is_valid_in nulls row then
        let* a := vec_get first row in
        let* b := vec_get second row in
        Ok (ids !! pack16 a b)
      else Ok None
  | _, groups => groups_get groups keys row
  end.

(** [src/src/scan/addresses.rs:471-519] SourceAddresses::mask. *)
Definition sa_mask (self : SourceAddresses) (batch : RecordBatch) (group_key_columns : list string)
    (address_column : string) (candidates : option (list bool))
    (related : SourceAddresses -> nat -> list Z -> result bool) : result mask :=
  let len := num_rows batch in
  match address_list batch address_column with
  | None => Ok (of_bools (replicate len false))
  | Some (offsets, nulls, values) =>
      let keys := typed_key_columns batch group_key_columns in
      let pairs := match sa_groups self with
                   | GPair _ => pair_keys batch group_key_columns
                   | GBytes _ => None
                   end in
      let element_bytes := join_key_bytes values in
      let* found := mapM_ok (fun row =>
        let candidate :=
          match candidates with None => true | Some c => default false (c !! row) end &&
          is_valid_in nulls row in
        if negb candidate then Ok false else
        let* group := row_group self pairs keys row in
        match group with
        | None => Ok false
        | Some group => related self group (row_bytes offsets element_bytes row)
        end) (seq 0 len) in
      Ok (of_bools found)
  end.

(** [src/src/scan/addresses.rs:79-94] HierarchicalFilter::mask. *)
Definition hf_mask (self : HierarchicalFilter) (batch : RecordBatch)
    (candidates : option (list bool)) : result mask :=
  sa_mask (hf_sources self) batch (hf_group_key_columns self) (hf_address_column self) candidates
    (fun sources group target => relates sources group target (hf_mode self) (hf_inclusive self)).

(** [src/src/scan/addresses.rs:108-125] AddressIndex::build. *)
Definition AddressIndex_build (primary_batches : list RecordBatch) (group_key_columns : list string)
    (source_address_column : string) : result AddressIndex :=
  let* sources := SourceAddresses_build primary_batches group_key_columns source_address_column in
  let addresses_readable :=
    forallb (fun batch => bool_decide (is_Some (address_list batch source_address_column)))
      (filter (fun batch => 0 < num_rows batch) primary_batches) in
  Ok {| ai_sources := sources; ai_group_key_columns := group_key_columns;
        ai_readable := addresses_readable && keys_readable primary_batches group_key_columns |}.

(** [src/src/scan/addresses.rs:127-132] AddressIndex::matches_nothing. *)
Definition matches_nothing (self : AddressIndex) : bool :=
  ai_readable self && sa_is_empty (ai_sources self).

(** [src/src/scan/addresses.rs:134-149] AddressIndex::filter. *)
Definition ai_filter (self : AddressIndex) (target_address_column : string)
    (mode : HierarchicalMode) (inclusive : bool) : HierarchicalFilter :=
  {| hf_sources := ai_sources self; hf_group_key_columns := ai_group_key_columns self;
     hf_address_column := target_address_column; hf_mode := mode; hf_inclusive := inclusive |}.

(** [src/src/scan/addresses.rs:42-57] HierarchicalFilter::build. *)
Definition HierarchicalFilter_build (primary_batches : list RecordBatch)
    (group_key_columns : list string) (source_address_column target_address_column : string)
    (mode : HierarchicalMode) (inclusive : bool) : result HierarchicalFilter :=
  let* index := AddressIndex_build primary_batches group_key_columns source_address_column in
  Ok (ai_filter index target_address_column mode inclusive).

(** [src/src/scan/addresses.rs:59-61] HierarchicalFilter::is_empty. *)
Definition hf_is_empty (self : HierarchicalFilter) : bool := sa_is_empty (hf_sources self).
End mask.
