(* ===== verification/AddressLookup.v ===== *)
(** The address index answers by the paths themselves (src/scan/addresses.rs):
    a hash lookup confirms by comparing, so it finds exactly the entries with
    the path; the walk over a group's paths gives every prefix its hash and
    leaves out only prefixes already given; and on paths sorted within their
    group the searches find exactly the related ones. *)
From stdpp Require Import base strings list gmap.
From Stdlib Require Import ZArith Lia Sorting.Sorted.
From S2P Require Import Prelude Machine ListLib Errors Arrow Integers Counting Pairs KeyColumns Addresses.

#[local] Open Scope nat_scope.

(** ** Casts and chunks *)

Lemma u32_small n : (Z.of_nat n < 2 ^ 32)%Z -> u32 n = n.
Proof. intros H. unfold u32. rewrite as_u32_small by lia. lia. Qed.

(** A path's bytes. *)
Definition flat (path : list Z) : list Z := path ≫= to_be_bytes 8.

Lemma flat_cons x path : flat (x :: path) = to_be_bytes 8 x ++ flat path.
Proof. done. Qed.

Lemma length_flat path : length (flat path) = length path * 8.
Proof.
  induction path as [|x path IH]; [done|].
  rewrite flat_cons, length_app, length_to_be_bytes, IH. cbn. lia.
Qed.

Lemma flat_app a b : flat (a ++ b) = flat a ++ flat b.
Proof. apply bind_app. Qed.

Lemma flat_take d path : take (d * 8) (flat path) = flat (take d path).
Proof.
  revert d; induction path as [|x path IH]; intros [|d]; try done.
  - rewrite flat_cons. cbn [take]. rewrite flat_cons.
    replace (S d * 8) with (length (to_be_bytes 8 x) + d * 8) by (rewrite length_to_be_bytes; lia).
    by rewrite take_app_add, IH.
Qed.

Lemma chunks8_flat path : chunks8 (flat path) = to_be_bytes 8 <$> path.
Proof. induction path as [|x path IH]; [done|]. rewrite fmap_cons, <- IH. done. Qed.

Lemma flat_inj a b : Forall is_u64 a -> Forall is_u64 b -> flat a = flat b -> a = b.
Proof. apply (flat_be_bytes_inj 8). lia. Qed.

Lemma flat_cmp a b : Forall is_u64 a -> Forall is_u64 b -> slice_cmp (flat a) (flat b) = slice_cmp a b.
Proof. apply (flat_be_bytes_cmp 8). lia. Qed.

Lemma be_chunks_inj a b :
  Forall is_u64 a -> Forall is_u64 b -> to_be_bytes 8 <$> a = to_be_bytes 8 <$> b -> a = b.
Proof.
  intros Ha; revert b; induction Ha as [|x a Hx Ha IH]; intros [|y b] Hb; csimpl; try done.
  apply Forall_cons in Hb as [Hy Hb]. intros [= E1 E2]. f_equal; [|auto].
  apply (to_be_bytes_inj 8); [done|done|]. cbn [to_be_bytes]. congruence.
Qed.

Lemma place_bytes_take elements start len d :
  d <= len -> place_bytes elements (start, d) = take (d * 8) (place_bytes elements (start, len)).
Proof.
  intros Hd. unfold place_bytes, slice; cbn [fst snd]. rewrite take_take. f_equal. lia.
Qed.

(** ** The hash index *)

Lemma take_while_sorted (l : list (Z * nat * place)) h e :
  StronglySorted (fun a b => (entry_hash a <=? entry_hash b)%Z = true) l ->
  Forall (fun x => (h <= entry_hash x)%Z) l ->
  e ∈ take_while (fun e => (entry_hash e =? h)%Z) l <-> e ∈ l /\ entry_hash e = h.
Proof.
  induction 1 as [|x l Hl IH Hx]; intros Hh; cbn [take_while].
  { split; [by intros ?%not_elem_of_nil | by intros [?%not_elem_of_nil _]]. }
  apply Forall_cons in Hh as [Hhx Hh]. destruct (Z.eqb_spec (entry_hash x) h) as [E|E].
  - rewrite !elem_of_cons, IH by done. naive_solver.
  - split; [by intros ?%not_elem_of_nil|]. intros [Hin Eh]. exfalso.
    apply elem_of_cons in Hin as [->|Hin]; [done|].
    rewrite Forall_forall in Hx. specialize (Hx e Hin). lia.
Qed.

(** The last insertion is of the first index. *)
Lemma first_index_spec (l : list (Z * nat * place)) s h :
  let first := foldr (fun (e : nat * (Z * nat * place)) first => <[entry_hash e.2 := u32 e.1]> first)
    (∅ : gmap Z nat) (zip (seq s (length l)) l) in
  match first !! h with
  | Some i => exists l1 x l2, l = l1 ++ x :: l2 /\ entry_hash x = h /\ i = u32 (s + length l1) /\
      Forall (fun e => entry_hash e <> h) l1
  | None => Forall (fun e => entry_hash e <> h) l
  end.
Proof.
  cbn zeta. revert s; induction l as [|e l IH]; intros s; [constructor|].
  cbn [length seq zip zip_with foldr fst snd].
  destruct (decide (entry_hash e = h)) as [<-|Hne].
  - rewrite lookup_insert_eq. exists [], e, l. cbn. by rewrite Nat.add_0_r.
  - rewrite lookup_insert_ne by done. specialize (IH (S s)).
    destruct (foldr _ _ _ !! h) as [i|].
    + destruct IH as (l1 & x & l2 & -> & ? & -> & ?). exists (e :: l1), x, l2.
      split_and!; [done|done|cbn; f_equal; lia|by constructor].
    + by constructor.
Qed.

Lemma pi_contains_spec entries h g path elements :
  (Z.of_nat (length entries) < 2 ^ 32)%Z ->
  pi_contains (PathIndex_new entries) h g path elements = true <->
  exists p, (h, g, p) ∈ entries /\ place_bytes elements p = path.
Proof.
  intros Hlen. unfold pi_contains, PathIndex_new; cbn [pi_first pi_entries].
  set (sorted := sort_by (fun a b => (entry_hash a <=? entry_hash b)%Z) entries).
  assert (Hs : StronglySorted (fun a b => (entry_hash a <=? entry_hash b)%Z = true) sorted).
  { apply sort_by_sorted; intros; lia. }
  assert (Hin : forall e, e ∈ sorted <-> e ∈ entries) by (intros; apply elem_of_sort_by).
  assert (Hl : length sorted = length entries) by apply length_sort_by.
  rewrite <- fold_left_rev_right, rev_involutive.
  pose proof (first_index_spec sorted 0 h) as Hf. cbn zeta in Hf. unfold enumerate.
  destruct (foldr _ _ _ !! h) as [i|].
  - destruct Hf as (l1 & x & l2 & E & Hx & -> & Hl1). cbn [plus].
    rewrite u32_small by (rewrite E, length_app in Hl; cbn in Hl; lia).
    rewrite E, drop_app_length. rewrite existsb_exists. rewrite E in Hs, Hin.
    assert (Hs2 : StronglySorted (fun a b => (entry_hash a <=? entry_hash b)%Z = true) (x :: l2)).
    { clear -Hs. induction l1 as [|y l1 IH]; [done|]. apply StronglySorted_inv in Hs as [? _]. auto. }
    assert (Hge : Forall (fun e => (h <= entry_hash e)%Z) (x :: l2)).
    { apply StronglySorted_inv in Hs2 as [_ Hx2]. constructor; [lia|].
      eapply Forall_impl; [exact Hx2|]. cbn. intros; lia. }
    split.
    + intros (e & Hin'%list_elem_of_In & Ht). apply take_while_sorted in Hin' as [Hin' Eh]; [|done..].
      apply andb_true_iff in Ht as [Hg Hp%bool_decide_eq_true]. apply Nat.eqb_eq in Hg.
      destruct e as [[h' g'] p]; cbn in *. unfold entry_hash in Eh; cbn in Eh. subst.
      exists p. split; [|done]. apply Hin, elem_of_app. by right.
    + intros (p & He & Hp). exists (h, g, p). split.
      * apply list_elem_of_In, take_while_sorted; [done..|]. split; [|done].
        apply Hin, elem_of_app in He as [He|He]; [|done].
        rewrite Forall_forall in Hl1. by apply Hl1 in He.
      * cbn. rewrite Nat.eqb_refl; cbn. by apply bool_decide_eq_true.
  - split; [done|]. intros (p & He & _). rewrite Forall_forall in Hf.
    apply Hin, Hf in He. done.
Qed.

(** ** The walk *)

Definition prefix_hashes (g : nat) (path : list (list Z)) : list Z :=
  (fun d => path_hash g (take d path)) <$> seq 0 (S (length path)).

Lemma path_hash_snoc g path x : path_hash g (path ++ [x]) = path_hash_step (path_hash g path) x.
Proof. unfold path_hash. by rewrite fold_left_app. Qed.

Lemma prefix_hashes_snoc g path x :
  prefix_hashes g (path ++ [x]) = prefix_hashes g path ++ [path_hash_step (path_hash g path) x].
Proof.
  unfold prefix_hashes. rewrite length_app, Nat.add_1_r, (seq_S (S (length path))), fmap_app.
  f_equal.
  - apply list_fmap_ext. intros i d Hd. apply lookup_seq in Hd as [-> Hd].
    rewrite take_app_le by lia. done.
  - cbn -[take]. rewrite take_ge by (rewrite length_app; cbn; lia). by rewrite path_hash_snoc.
Qed.

Lemma last_prefix_hashes g path : last (prefix_hashes g path) = Some (path_hash g path).
Proof.
  unfold prefix_hashes. rewrite seq_S, fmap_app, fmap_cons, fmap_nil, last_snoc.
  by rewrite Nat.add_0_l, firstn_all.
Qed.

Lemma push_hashes g a rest :
  fold_left (fun hashes element => hashes ++ [path_hash_step (default 0%Z (last hashes)) element])
    rest (prefix_hashes g a) = prefix_hashes g (a ++ rest).
Proof.
  revert a; induction rest as [|x rest IH]; intros a; cbn [fold_left]; [by rewrite app_nil_r|].
  rewrite last_prefix_hashes; cbn [default from_option id]. unfold id.
  by rewrite <- prefix_hashes_snoc, IH, <- app_assoc.
Qed.

Lemma take_prefix_hashes g path d :
  d <= length path -> take (S d) (prefix_hashes g path) = prefix_hashes g (take d path).
Proof.
  intros Hd. unfold prefix_hashes. rewrite firstn_map, take_seq, length_take.
  replace (S d `min` S (length path)) with (S d) by lia.
  replace (S (d `min` length path)) with (S d) by lia.
  apply list_fmap_ext. intros i k Hk. apply lookup_seq in Hk as [-> Hk].
  rewrite take_take. f_equal. f_equal. lia.
Qed.

Lemma shared_prefix_spec a b :
  shared_prefix a b <= length a /\ shared_prefix a b <= length b /\
  take (shared_prefix a b) a = take (shared_prefix a b) b /\
  forall d, d <= length a -> d <= length b -> take d a = take d b -> d <= shared_prefix a b.
Proof.
  revert b; induction a as [|x a IH]; intros [|y b]; cbn; try (split_and!; [lia..|done|intros; lia]).
  destruct (IH b) as (H1 & H2 & H3 & H4). case_decide as E.
  - split_and!; [lia|lia|cbn; congruence|]. intros [|d] Ha Hb; cbn; [lia|].
    intros [= _ Hd]. apply le_n_S, H4; [lia..|done].
  - split_and!; [lia|lia|done|]. intros [|d] Ha Hb; cbn; [lia|]. by intros [= ? _].
Qed.

Definition place_path (elements : list Z) (p : place) : list (list Z) := chunks8 (place_bytes elements p).

(** The depth from which a path's strict prefixes are new after [previous]. *)
Definition new_from (previous path : list (list Z)) : nat :=
  let shared := shared_prefix previous path in
  if shared =? length previous then shared else S shared.

Definition visit_of (elements : list Z) (g : nat) (previous : list (list Z)) (p : place) : visited :=
  {| v_group := g; v_place := p; v_new_from := new_from previous (place_path elements p);
     v_hashes := prefix_hashes g (place_path elements p) |}.

Lemma walk_path_spec elements g previous p :
  walk_path elements g (prefix_hashes g previous, previous) p =
  (visit_of elements g previous p,
   (prefix_hashes g (place_path elements p), place_path elements p)).
Proof.
  unfold walk_path. cbv zeta. fold (place_path elements p).
  destruct (shared_prefix_spec previous (place_path elements p)) as (H1 & H2 & H3 & _).
  rewrite take_prefix_hashes, H3, push_hashes, take_drop by done. done.
Qed.

Fixpoint visits_from (elements : list Z) (g : nat) (previous : list (list Z)) (places : list place)
    : list visited :=
  match places with
  | [] => []
  | p :: places => visit_of elements g previous p :: visits_from elements g (place_path elements p) places
  end.

Lemma walk_group_spec elements g previous places :
  walk_group elements g (prefix_hashes g previous, previous) places =
  visits_from elements g previous places.
Proof.
  revert previous; induction places as [|p places IH]; intros previous; [done|].
  cbn [walk_group visits_from]. rewrite walk_path_spec. by rewrite IH.
Qed.

Lemma visits_from_places elements g previous places v :
  v ∈ visits_from elements g previous places ->
  v_group v = g /\ v_place v ∈ places /\ v_hashes v = prefix_hashes g (place_path elements (v_place v)).
Proof.
  revert previous; induction places as [|p places IH]; intros previous; cbn [visits_from].
  { by intros ?%not_elem_of_nil. }
  intros [->|Hin]%elem_of_cons; [cbn; split_and!; [done|left|done]|].
  destruct (IH _ Hin) as (? & ? & ?). split_and!; [done|by right|done].
Qed.

Lemma visits_from_all elements g previous places p :
  p ∈ places -> exists v, v ∈ visits_from elements g previous places /\ v_place v = p.
Proof.
  revert previous; induction places as [|q places IH]; intros previous; [by intros ?%not_elem_of_nil|].
  intros [->|Hin]%elem_of_cons; cbn [visits_from].
  - eexists; split; [left|done].
  - destruct (IH (place_path elements q) Hin) as (v & ? & ?). exists v. split; [by right|done].
Qed.

Lemma new_from_le previous path d :
  d < length path -> ~ (d < length previous /\ take d previous = take d path) ->
  new_from previous path <= d.
Proof.
  intros Hd Hno. unfold new_from.
  destruct (shared_prefix_spec previous path) as (H1 & H2 & H3 & _).
  set (s := shared_prefix previous path) in *.
  assert (Hsd : s <= d).
  { destruct (decide (s <= d)); [done|]. exfalso. apply Hno. split; [lia|].
    replace d with (d `min` s) by lia. by rewrite <- !take_take, H3. }
  destruct (Nat.eqb_spec s (length previous)); [lia|].
  destruct (decide (s = d)) as [<-|]; [|lia]. exfalso. apply Hno. split; [lia|done].
Qed.

(** A strict prefix of some path is given by the first path that has it. *)
Lemma visits_from_prefix elements g previous places prefix d :
  ~ (d < length previous /\ take d previous = prefix) ->
  (exists p, p ∈ places /\ d < length (place_path elements p) /\ take d (place_path elements p) = prefix) ->
  exists v, v ∈ visits_from elements g previous places /\ v_new_from v <= d /\
    d < length (place_path elements (v_place v)) /\ take d (place_path elements (v_place v)) = prefix.
Proof.
  revert previous; induction places as [|q places IH]; intros previous Hprev (p & Hp & Hd & E).
  { by apply not_elem_of_nil in Hp. }
  cbn [visits_from].
  destruct (decide (d < length (place_path elements q) /\ take d (place_path elements q) = prefix))
    as [[Hq Eq]|Hq].
  - exists (visit_of elements g previous q). split_and!; [left| |done|done]. cbn.
    apply new_from_le; [done|]. by rewrite Eq.
  - destruct (IH (place_path elements q)) as (v & Hv & ?); [done| |].
    + apply elem_of_cons in Hp as [->|Hp]; [by destruct Hq|]. by exists p.
    + exists v. split; [by right|done].
Qed.

(** ** Prefixes and the order of paths *)

Lemma prefix_not_lt (t s : list Z) : t `prefix_of` s -> slice_cmp s t <> Lt.
Proof.
  intros [k ->]. rewrite slice_cmp_antisym. destruct k as [|z k].
  - by rewrite app_nil_r, (proj2 (slice_cmp_eq t t)).
  - by rewrite slice_cmp_prefix_lt.
Qed.

(** What lies between a path and one of its extensions extends it. *)
Lemma prefix_between (t n s : list Z) :
  slice_cmp n t <> Lt -> slice_cmp n s <> Gt -> t `prefix_of` s -> t `prefix_of` n.
Proof.
  revert n s; induction t as [|x t IH]; intros n s Hn Hs Hp; [apply prefix_nil|].
  destruct Hp as [k ->]. destruct n as [|y n]; cbn in *; [done|].
  destruct (Z.compare_spec y x) as [->|E|E]; [|done|done].
  apply prefix_cons, (IH n (t ++ k)); [done|done|]. by exists k.
Qed.

Lemma extensions_spec (l1 l2 : list (list Z)) t inclusive :
  StronglySorted (fun a b => slice_cmp a b = Lt) (l1 ++ l2) ->
  Forall (fun s => slice_cmp s t = Lt) l1 -> Forall (fun s => slice_cmp s t <> Lt) l2 ->
  (exists s, s ∈ l1 ++ l2 /\ t `prefix_of` s /\ (inclusive = true \/ s <> t)) <->
  match l2 with
  | x :: r =>
      if decide (x = t) then inclusive = true \/ match r with y :: _ => t `prefix_of` y | [] => False end
      else t `prefix_of` x
  | [] => False
  end.
Proof.
  intros Hs H1 H2.
  assert (Hs2 : StronglySorted (fun a b => slice_cmp a b = Lt) l2).
  { clear -Hs. induction l1 as [|y l1 IH]; [done|]. apply StronglySorted_inv in Hs as [? _]. auto. }
  assert (Hin : forall s, s ∈ l1 ++ l2 -> t `prefix_of` s -> s ∈ l2).
  { intros s [Hs1|]%elem_of_app Hp; [|done]. rewrite Forall_forall in H1.
    apply prefix_not_lt in Hp. by rewrite H1 in Hp. }
  destruct l2 as [|x r].
  { split; [|done]. intros (s & Hs' & Hp & _). by apply (Hin s), not_elem_of_nil in Hp. }
  apply Forall_cons in H2 as [Hx H2]. apply StronglySorted_inv in Hs2 as [Hr Hxr].
  rewrite Forall_forall in H2, Hxr.
  assert (Hle : forall s, s ∈ r -> slice_cmp x s <> Gt) by (intros s Hi; by rewrite Hxr).
  case_decide as E; [subst x|].
  - split.
    + intros (s & Hs' & Hp & Hi). apply (Hin s Hs') in Hp as Hs2.
      apply elem_of_cons in Hs2 as [->|Hs2]; [destruct Hi; [by left|done]|]. right.
      destruct r as [|y r]; [by apply not_elem_of_nil in Hs2|].
      apply (prefix_between t y s); [by apply H2; left| |done].
      apply StronglySorted_inv in Hr as [_ Hr]. rewrite Forall_forall in Hr.
      apply elem_of_cons in Hs2 as [->|Hs2]; [by rewrite (proj2 (slice_cmp_eq y y))|by rewrite Hr].
    + intros [->|Hy].
      * exists t. split_and!; [apply elem_of_app; right; left|done|by left].
      * destruct r as [|y r]; [done|]. exists y. split_and!; [apply elem_of_app; right; right; left|done|].
        right. intros ->. specialize (Hxr t ltac:(left)). by rewrite (proj2 (slice_cmp_eq t t)) in Hxr.
  - split.
    + intros (s & Hs' & Hp & Hi). apply (Hin s Hs') in Hp as Hs2.
      apply (prefix_between t x s); [done| |done].
      apply elem_of_cons in Hs2 as [->|Hs2]; [by rewrite (proj2 (slice_cmp_eq x x))|by apply Hle].
    + intros Hp. exists x. split_and!; [apply elem_of_app; right; left|done|by right].
Qed.

(** ** The index's invariant *)

(** The elements an index of these sources takes, and one for each path. *)
Definition source_size (srcs : list (list (list Z))) : nat :=
  sum_list ((fun l => sum_list ((fun path => S (length path)) <$> l)) <$> srcs).

(** The index holds the sources [srcs], by group id: each group's paths strictly
    ascending, every place a path's bytes in [elements], the hash index either
    absent or that of all paths; and few enough for [u32]. *)
Record sa_ok (sa : SourceAddresses) (srcs : list (list (list Z))) : Prop := {
  ok_groups : Forall2 (fun range l =>
    Forall2 (fun p path => place_bytes (sa_elements sa) p = flat path /\ p.2 = length path)
      (slice (sa_paths sa) range.1 range.2) l) (sa_ranges sa) srcs;
  ok_sorted : Forall (StronglySorted (fun a b => slice_cmp a b = Lt)) srcs;
  ok_u64 : Forall (Forall (Forall is_u64)) srcs;
  ok_count : (Z.of_nat (length srcs) < 2 ^ 32)%Z;
  ok_size : (Z.of_nat (source_size srcs) < 2 ^ 32)%Z;
  ok_exact : sa_exact sa = None \/
    sa_exact sa = Some (exact_index (sa_ranges sa) (sa_paths sa) (sa_elements sa));
}.

Section lookup.
Context (sa : SourceAddresses) (srcs : list (list (list Z))) (Hok : sa_ok sa srcs).
Abbreviation elements := (sa_elements sa).

Lemma group_lookup g l :
  srcs !! g = Some l ->
  exists range, sa_ranges sa !! g = Some range /\
    Forall2 (fun p path => place_bytes elements p = flat path /\ p.2 = length path)
      (slice (sa_paths sa) range.1 range.2) l.
Proof. intros H. destruct (Forall2_lookup_r _ _ _ _ _ (ok_groups _ _ Hok) H) as (range & ? & ?). eauto. Qed.

Lemma group_small g l : srcs !! g = Some l -> u32 g = g.
Proof. intros H%lookup_lt_Some. apply u32_small. pose proof (ok_count _ _ Hok). lia. Qed.

Lemma group_u64 g l path : srcs !! g = Some l -> path ∈ l -> Forall is_u64 path.
Proof.
  intros H Hp. pose proof (Forall_lookup_1 _ _ _ _ (ok_u64 _ _ Hok) H) as Hl. cbn in Hl.
  rewrite Forall_forall in Hl. auto.
Qed.

(** The paths of a group's places are its sources. *)
Lemma place_of_path places l path :
  Forall2 (fun p path => place_bytes elements p = flat path /\ p.2 = length path) places l ->
  path ∈ l -> exists p, p ∈ places /\ place_bytes elements p = flat path /\ p.2 = length path.
Proof.
  intros Hf [i Hi]%list_elem_of_lookup. destruct (Forall2_lookup_r _ _ _ _ _ Hf Hi) as (p & Hp & ?).
  exists p. split; [by eapply list_elem_of_lookup_2|done].
Qed.

Lemma path_of_place places l p :
  Forall2 (fun p path => place_bytes elements p = flat path /\ p.2 = length path) places l ->
  p ∈ places -> exists path, path ∈ l /\ place_bytes elements p = flat path /\ p.2 = length path.
Proof.
  intros Hf [i Hi]%list_elem_of_lookup. destruct (Forall2_lookup_l _ _ _ _ _ Hf Hi) as (path & Hp & ?).
  exists path. split; [by eapply list_elem_of_lookup_2|done].
Qed.

Lemma elem_of_walk v :
  v ∈ walk (sa_ranges sa) (sa_paths sa) elements <->
  exists g range l, sa_ranges sa !! g = Some range /\ srcs !! g = Some l /\
    v ∈ visits_from elements g [] (slice (sa_paths sa) range.1 range.2).
Proof.
  unfold walk. rewrite elem_of_concat. setoid_rewrite list_elem_of_fmap. split.
  - intros (vs & Hv & ([g range] & -> & Hin%elem_of_enumerate)). cbn [fst snd] in Hv.
    destruct (Forall2_lookup_l _ _ _ _ _ (ok_groups _ _ Hok) Hin) as (l & Hl & _).
    exists g, range, l. split_and!; [done|done|].
    rewrite (group_small _ _ Hl) in Hv.
    change [path_hash_start g] with (prefix_hashes g []) in Hv. by rewrite walk_group_spec in Hv.
  - intros (g & range & l & Hr & Hl & Hv). eexists. split; [exact Hv|].
    exists (g, range). cbn [fst snd]. split; [|by apply elem_of_enumerate].
    rewrite (group_small _ _ Hl). change [path_hash_start g] with (prefix_hashes g []).
    by rewrite walk_group_spec.
Qed.

Lemma length_visits_from g prev places : length (visits_from elements g prev places) = length places.
Proof. revert prev; induction places; intros; cbn; auto. Qed.

Lemma sum_list_Forall2 {A B} (f : A -> nat) (h : B -> nat) l k :
  Forall2 (fun a b => f a <= h b) l k -> sum_list (f <$> l) <= sum_list (h <$> k).
Proof. induction 1; csimpl; [done|]. lia. Qed.

(** A measure of the visits is bounded by the sources'. *)
Lemma walk_measure (m : visited -> nat) :
  (forall g prev p path, place_bytes elements p = flat path -> p.2 = length path ->
     m (visit_of elements g prev p) <= S (length path)) ->
  sum_list (m <$> walk (sa_ranges sa) (sa_paths sa) elements) <= source_size srcs.
Proof.
  intros Hm. unfold walk, source_size.
  assert (Hjoin : forall ll : list (list visited), sum_list (m <$> concat ll) = sum_list ((fun l => sum_list (m <$> l)) <$> ll)).
  { induction ll as [|l ll IH]; csimpl; [done|]. by rewrite fmap_app, sum_list_with_app, <- IH. }
  rewrite Hjoin, <- list_fmap_compose. apply sum_list_Forall2.
  unfold enumerate. generalize 0 at 1. pose proof (ok_groups _ _ Hok) as Hg.
  clear Hok Hjoin. induction Hg as [|range l ranges srcs' Hr _ IH]; intros s; cbn [length seq zip zip_with]; constructor; [|apply IH].
  cbn [compose fst snd]. change [path_hash_start (u32 s)] with (prefix_hashes (u32 s) []).
  rewrite walk_group_spec. generalize (@nil (list Z)).
  induction Hr as [|p path places l [H1 H2] _ IH']; intros prev; csimpl; [done|].
  specialize (IH' (place_path elements p)). pose proof (Hm (u32 s) prev p path H1 H2). lia.
Qed.

Lemma exact_contains g l t :
  srcs !! g = Some l -> Forall is_u64 t ->
  pi_contains (exact_index (sa_ranges sa) (sa_paths sa) elements)
    (path_hash g (chunks8 (flat t))) g (flat t) elements = true <-> t ∈ l.
Proof.
  intros Hl Ht. unfold exact_index. rewrite pi_contains_spec.
  2: { rewrite length_fmap. pose proof (ok_size _ _ Hok).
       pose proof (walk_measure (fun _ => 1) ltac:(intros; cbn; lia)) as Hm.
       assert (E : forall vs : list visited, sum_list ((fun _ => 1) <$> vs) = length vs).
       { induction vs; csimpl; auto. }
       rewrite E in Hm. lia. }
  split.
  - intros (p & Hin & Hp). apply list_elem_of_fmap in Hin as (v & [= Hh -> ->] & Hv).
    apply elem_of_walk in Hv as (g' & range & l' & Hr & Hl' & Hv).
    apply visits_from_places in Hv as (Hg & Hin & _). rewrite Hg in *.
    rewrite Hl in Hl'. injection Hl' as <-.
    destruct (group_lookup _ l Hl) as (range' & Hr' & Hf). rewrite Hr in Hr'. injection Hr' as <-.
    destruct (path_of_place _ _ _ Hf Hin) as (path & Hpath & E & _). rewrite E in Hp.
    apply flat_inj in Hp as ->; [done|by eapply group_u64|done].
  - intros Hin. destruct (group_lookup _ l Hl) as (range & Hr & Hf).
    destruct (place_of_path _ _ _ Hf Hin) as (p & Hp & E & Elen).
    exists p. split; [|done].
    destruct (visits_from_all elements g [] _ _ Hp) as (v & Hv & Hvp).
    apply list_elem_of_fmap. exists v. split; [|apply elem_of_walk; by exists g, range, l].
    apply visits_from_places in Hv as (Hg & _ & Hh). rewrite Hg, Hvp in *. f_equal. f_equal.
    rewrite Hh. unfold place_path. rewrite E, chunks8_flat, Elen.
    unfold prefix_hashes. rewrite list_lookup_fmap, length_fmap, lookup_seq_lt by lia.
    cbn -[take]. rewrite take_ge; [done|]. by rewrite length_fmap.
Qed.

Lemma prefix_contains g l t :
  srcs !! g = Some l -> Forall is_u64 t ->
  pi_contains (prefix_index (sa_ranges sa) (sa_paths sa) elements)
    (path_hash g (chunks8 (flat t))) g (flat t) elements = true <->
  exists path, path ∈ l /\ t `prefix_of` path /\ t <> path.
Proof.
  intros Hl Ht. unfold prefix_index. rewrite pi_contains_spec.
  2: { pose proof (ok_size _ _ Hok).
       pose proof (walk_measure (fun v => length (drop (v_new_from v)
         (enumerate (take (v_place v).2 (v_hashes v)))))) as Hm.
       assert (E : forall vs : list visited, length (vs ≫= fun v =>
          (fun dh : nat * Z => (dh.2, v_group v, ((v_place v).1, u32 dh.1))) <$>
            drop (v_new_from v) (enumerate (take (v_place v).2 (v_hashes v)))) =
          sum_list ((fun v => length (drop (v_new_from v)
            (enumerate (take (v_place v).2 (v_hashes v))))) <$> vs)).
       { induction vs as [|v vs IH]; [done|]. rewrite bind_cons, length_app, length_fmap, IH. done. }
       rewrite E. eapply Z.le_lt_trans; [|exact (ok_size _ _ Hok)]. apply inj_le, Hm.
       intros g' prev p path H1 H2. unfold enumerate. cbn [visit_of v_place v_hashes v_new_from].
       rewrite length_drop, length_zip, length_seq, length_take. lia. }
  destruct (group_lookup _ l Hl) as (range & Hr & Hf).
  assert (Hdepth : forall path, path ∈ l -> length path < Z.to_nat (2 ^ 32)).
  { intros path Hp. pose proof (ok_size _ _ Hok) as Hs. unfold source_size in Hs.
    assert (S (length path) <= sum_list ((fun path => S (length path)) <$> l)).
    { clear -Hp. induction l as [|q l IH]; [by apply not_elem_of_nil in Hp|]. csimpl.
      apply elem_of_cons in Hp as [->|Hp]; [lia|]. specialize (IH Hp). lia. }
    assert (sum_list ((fun path => S (length path)) <$> l) <=
            sum_list ((fun l => sum_list ((fun path => S (length path)) <$> l)) <$> srcs)).
    { clear -Hl. apply list_elem_of_lookup_2 in Hl. induction srcs as [|q ls IH]; [by apply not_elem_of_nil in Hl|].
      csimpl. apply elem_of_cons in Hl as [->|Hl]; [lia|]. specialize (IH Hl). lia. }
    lia. }
  split.
  - intros (p & Hin & Hp). apply list_elem_of_bind in Hin as (v & Hin & Hv).
    apply list_elem_of_fmap in Hin as ([d h] & [= Hh Hgv ->] & Hd). cbn [fst snd] in *. clear Hh.
    apply list_elem_of_lookup in Hd as [i Hd]. rewrite lookup_drop in Hd.
    apply list_elem_of_lookup_2, elem_of_enumerate in Hd.
    apply lookup_take_Some in Hd as [_ Hdlen].
    apply elem_of_walk in Hv as (g' & range' & l' & Hr' & Hl' & Hv).
    apply visits_from_places in Hv as (Hg & Hin & _). rewrite Hg in Hgv. subst g'.
    rewrite Hl in Hl'. injection Hl' as <-. rewrite Hr in Hr'. injection Hr' as <-.
    destruct (path_of_place _ _ _ Hf Hin) as (path & Hpath & E & Elen).
    specialize (Hdepth path Hpath). rewrite u32_small in Hp by lia.
    destruct (v_place v) as [start len]; cbn [fst snd] in *. subst len.
    rewrite (place_bytes_take elements start (length path)), E, flat_take in Hp by lia.
    apply flat_inj in Hp as <-; [|by apply Forall_take; eapply group_u64|done].
    exists path. split_and!; [done|apply prefix_take|]. intros E'.
    apply (f_equal length) in E'. rewrite length_take in E'. lia.
  - intros (path & Hpath & [k ->] & Hne).
    assert (Hk : 0 < length k). { destruct k; [by rewrite app_nil_r in Hne|cbn; lia]. }
    destruct (place_of_path _ _ _ Hf Hpath) as (p & Hp & E & Elen).
    destruct (visits_from_prefix elements g [] (slice (sa_paths sa) range.1 range.2)
      (to_be_bytes 8 <$> t) (length t)) as (v & Hv & Hnew & Hvlen & Hvt).
    { cbn. intros [? _]. lia. }
    { exists p. unfold place_path. rewrite E, chunks8_flat, length_fmap, length_app, fmap_app.
      split_and!; [done|lia|]. apply take_app_length'. by rewrite length_fmap. }
    exists ((v_place v).1, length t).
    pose proof (visits_from_places _ _ _ _ _ Hv) as (Hg & Hin & Hh).
    destruct (path_of_place _ _ _ Hf Hin) as (path' & Hpath' & E' & Elen').
    unfold place_path in Hvlen, Hvt, Hh. rewrite E', chunks8_flat in Hvlen, Hvt, Hh. rewrite length_fmap in Hvlen.
    assert (Et : take (length t) path' = t).
    { rewrite firstn_map in Hvt. apply be_chunks_inj; [by apply Forall_take; eapply group_u64|done|done]. }
    split.
    + apply list_elem_of_bind. exists v. split; [|apply elem_of_walk; by exists g, range, l].
      apply list_elem_of_fmap. exists (length t, path_hash g (chunks8 (flat t))). cbn [fst snd].
      specialize (Hdepth path' Hpath'). rewrite u32_small, Hg by lia. split; [done|].
      apply (list_elem_of_lookup_2 _ (length t - v_new_from v)).
      rewrite lookup_drop. replace (v_new_from v + (length t - v_new_from v)) with (length t) by lia.
      unfold enumerate. apply lookup_zip_Some. rewrite length_take, Hh, Elen'.
      unfold prefix_hashes. rewrite length_fmap, length_seq, length_fmap. split.
      * rewrite lookup_seq_lt by lia. done.
      * rewrite lookup_take_lt, list_lookup_fmap, lookup_seq_lt by lia. cbn -[take].
        by rewrite <- firstn_map, Et, chunks8_flat || rewrite firstn_map, Et, chunks8_flat.
    + destruct (v_place v) as [start len]; cbn [fst snd] in *. subst len.
      rewrite (place_bytes_take elements start (length path')), E', flat_take by lia. by rewrite Et.
Qed.

(** ** Looking up by hash *)

(** How a source is related to a target: above it or below it, and the same
    address only where the relation includes it. *)
Definition related (mode : HierarchicalMode) (inclusive : bool) (source target : list Z) : Prop :=
  match mode with
  | Children => source `prefix_of` target
  | Parents => target `prefix_of` source
  end /\ (inclusive = true \/ source <> target).

Lemma path_hash_chunks g t d :
  d < length t ->
  path_hash_step (path_hash g (take d (chunks8 (flat t)))) (default [] (chunks8 (flat t) !! d)) =
  path_hash g (take (S d) (chunks8 (flat t))).
Proof.
  intros Hd. rewrite chunks8_flat. destruct (lookup_lt_is_Some_2 t d Hd) as [x Hx].
  assert (E : (to_be_bytes 8 <$> t) !! d = Some (to_be_bytes 8 x)) by by rewrite list_lookup_fmap, Hx.
  rewrite E; cbn [default from_option id]. unfold id. by rewrite (take_S_r _ _ _ E), path_hash_snoc.
Qed.

(** The walk down the target's prefixes asks for each of them, with its hash. *)
Lemma deep_children_spec exact g t inclusive steps d :
  steps = drop d (chunks8 (flat t)) -> d <= length t ->
  deep_children exact elements g (flat t) inclusive steps
    (path_hash g (take d (chunks8 (flat t)))) d = true <->
  exists d', d <= d' <= length t /\ (inclusive = true \/ d' < length t) /\
    pi_contains exact (path_hash g (chunks8 (flat (take d' t)))) g (flat (take d' t)) elements = true.
Proof.
  revert d; induction steps as [|step steps IH]; intros d E Hd; cbn [deep_children].
  - assert (d = length t) as ->.
    { apply (f_equal length) in E. rewrite length_drop, chunks8_flat, length_fmap in E. cbn in E. lia. }
    rewrite flat_take, chunks8_flat, <- firstn_map, <- chunks8_flat || rewrite flat_take.
    assert (Et : take (length t) (chunks8 (flat t)) = chunks8 (flat (take (length t) t))).
    { by rewrite !chunks8_flat, firstn_map. }
    rewrite Et. destruct inclusive; cbn [negb].
    + split; [intros H; exists (length t); auto|]. intros (d' & Hd' & _ & H).
      by replace d' with (length t) in H by lia.
    + split; [done|]. intros (d' & Hd' & [|] & _); [done|lia].
  - assert (Hlt : d < length t).
    { apply (f_equal length) in E. rewrite length_drop, chunks8_flat, length_fmap in E. cbn in E. lia. }
    assert (Estep : default [] (chunks8 (flat t) !! d) = step /\ steps = drop (S d) (chunks8 (flat t))).
    { rewrite <- (Nat.add_0_r d), <- lookup_drop, <- E. split; [done|].
      replace (S (d + 0)) with (d + 1) by lia. by rewrite <- skipn_skipn_add, <- E || (rewrite <- drop_drop, <- E). }
    destruct Estep as [Estep Esteps].
    assert (Et : take d (chunks8 (flat t)) = chunks8 (flat (take d t))).
    { by rewrite !chunks8_flat, firstn_map. }
    rewrite flat_take. destruct (pi_contains exact (path_hash g (take d _)) g _ _) eqn:Ec.
    + split; [|done]. intros _. exists d. rewrite Et in Ec. split_and!; [lia|lia|by right|done].
    + rewrite <- Estep, path_hash_chunks, IH by (done || lia). rewrite Et in Ec. split.
      * intros (d' & ? & ? & ?). exists d'. split_and!; [lia|lia|done|done].
      * intros (d' & ? & ? & H). exists d'. split_and!; try done; try lia.
        destruct (decide (d' = d)) as [->|]; [congruence|lia].
Qed.

Lemma prefix_take_iff (s t : list Z) (inclusive : bool) :
  (s `prefix_of` t /\ (inclusive = true \/ s <> t)) <->
  exists d, d <= length t /\ (inclusive = true \/ d < length t) /\ s = take d t.
Proof.
  split.
  - intros [[k ->] Hi]. exists (length s). rewrite length_app. split_and!; [lia| |by rewrite take_app_length].
    destruct Hi as [|Hne]; [by left|right]. destruct k; [by rewrite app_nil_r in Hne|cbn; lia].
  - intros (d & Hd & Hi & ->). split; [apply prefix_take|].
    destruct Hi as [|Hlt]; [by left|right]. intros E%(f_equal length). rewrite length_take in E. lia.
Qed.

(** ** Looking up by search *)

Lemma slice_cmp_search_sorted places (bytes : place -> list Z) t :
  StronglySorted (fun p q => slice_cmp (bytes p) (bytes q) = Lt) places ->
  search_sorted (fun p => slice_cmp (bytes p) t) places.
Proof.
  induction 1 as [|p places Hl IH Hp]; constructor; [done|].
  eapply Forall_impl; [exact Hp|]. intros q Hpq; cbn. split; intros H.
  - rewrite slice_cmp_antisym in H |- *. destruct (slice_cmp t (bytes p)) eqn:E; try done.
    by rewrite (slice_cmp_trans t (bytes p) (bytes q)).
  - by apply (slice_cmp_trans (bytes p) (bytes q) t).
Qed.

Lemma group_sorted g l places :
  srcs !! g = Some l ->
  Forall2 (fun p path => place_bytes elements p = flat path /\ p.2 = length path) places l ->
  StronglySorted (fun p q => slice_cmp (sa_path sa p) (sa_path sa q) = Lt) places.
Proof.
  intros Hl Hf.
  pose proof (Forall_lookup_1 _ _ _ _ (ok_sorted _ _ Hok) Hl) as Hs.
  pose proof (Forall_lookup_1 _ _ _ _ (ok_u64 _ _ Hok) Hl) as Hu. cbn in Hs, Hu. clear Hl.
  induction Hf as [|p path places l [E _] Hf IH]; constructor.
  - apply IH; [by apply StronglySorted_inv in Hs as []|by apply Forall_cons in Hu as []].
  - apply StronglySorted_inv in Hs as [_ Hs]. apply Forall_cons in Hu as [Hp Hu].
    apply Forall_forall. intros q [i Hq]%list_elem_of_lookup.
    destruct (Forall2_lookup_l _ _ _ _ _ Hf Hq) as (path' & Hi & Eq & _).
    unfold sa_path. rewrite E, Eq, flat_cmp; [|done|by apply (Forall_lookup_1 _ _ _ _ Hu Hi)].
    by apply (Forall_lookup_1 _ _ _ _ Hs Hi).
Qed.

Lemma search_group g l t :
  srcs !! g = Some l -> Forall is_u64 t ->
  exists places, group_paths sa g = Ok places /\
    Forall2 (fun p path => place_bytes elements p = flat path /\ p.2 = length path) places l /\
    forall t, Forall is_u64 t ->
      is_Some (binary_search_by (fun p => slice_cmp (sa_path sa p) (flat t)) places) <-> t ∈ l.
Proof.
  intros Hl Ht. destruct (group_lookup g l Hl) as (range & Hr & Hf).
  unfold group_paths. rewrite (vec_get_ok _ _ _ Hr); cbn [obind].
  eexists; split_and!; [done|done|]. intros t' Ht'.
  rewrite binary_search_by_is_Some by (by apply slice_cmp_search_sorted; eapply group_sorted).
  split.
  - intros (p & Hp & E). apply slice_cmp_eq in E.
    destruct (path_of_place _ _ _ Hf Hp) as (path & Hpath & Ep & _).
    unfold sa_path in E. rewrite Ep in E. apply flat_inj in E as ->; [done|by eapply group_u64|done].
  - intros Hin. destruct (place_of_path _ _ _ Hf Hin) as (p & Hp & E & _).
    exists p. split; [done|]. apply slice_cmp_eq. done.
Qed.

(** A lookup of a whole address finds it exactly when it is a source of the
    group, whether the paths are looked up by hash or searched. *)
Lemma holds_spec g l t :
  srcs !! g = Some l -> Forall is_u64 t ->
  exists found, holds sa g (flat t) = Ok found /\ (found = true <-> t ∈ l).
Proof.
  intros Hl Ht. unfold holds. destruct (ok_exact _ _ Hok) as [->| ->].
  - destruct (search_group g l t Hl Ht) as (places & -> & _ & Hs). cbn [obind].
    eexists; split; [done|]. rewrite bool_decide_eq_true. by apply Hs.
  - eexists; split; [done|]. by apply exact_contains.
Qed.

Lemma starts_with_flat p t :
  Forall is_u64 p -> Forall is_u64 t -> starts_with (flat p) (flat t) = true <-> t `prefix_of` p.
Proof.
  intros Hp Ht. unfold starts_with. rewrite bool_decide_eq_true, length_flat, flat_take. split.
  - intros E. apply flat_inj in E; [|by apply Forall_take|done]. rewrite <- E. apply prefix_take.
  - intros [k ->]. by rewrite take_app_length.
Qed.

(** The search for the target's extensions. *)
Lemma search_parents g l t inclusive places :
  srcs !! g = Some l -> Forall is_u64 t ->
  Forall2 (fun p path => place_bytes elements p = flat path /\ p.2 = length path) places l ->
  match sa_path sa <$> drop (partition_point (fun p => match slice_cmp (sa_path sa p) (flat t) with
                                             Lt => true | _ => false end) places) places with
  | path :: rest =>
      if bool_decide (path = flat t) then
        inclusive || match rest with p :: _ => starts_with p (flat t) | [] => false end
      else starts_with path (flat t)
  | [] => false
  end = true <->
  exists s, s ∈ l /\ t `prefix_of` s /\ (inclusive = true \/ s <> t).
Proof.
  intros Hl Ht Hf. pose proof (group_sorted g l places Hl Hf) as Hsp.
  destruct (partition_point_spec (fun p q => slice_cmp (sa_path sa p) (sa_path sa q) = Lt)
    (fun p => match slice_cmp (sa_path sa p) (flat t) with Lt => true | _ => false end) places)
    as (Hle & Htake & Hdrop); [|done|].
  { intros p q Hpq. destruct (slice_cmp (sa_path sa q) (flat t)) eqn:E; try done.
    by rewrite (slice_cmp_trans _ _ _ Hpq E). }
  set (first := partition_point _ places) in *. clearbody first.
  pose proof (Forall_lookup_1 _ _ _ _ (ok_sorted _ _ Hok) Hl) as Hs.
  pose proof (Forall_lookup_1 _ _ _ _ (ok_u64 _ _ Hok) Hl) as Hu. cbn in Hs, Hu.
  assert (Hcmp : forall p path, path ∈ l -> sa_path sa p = flat path ->
    slice_cmp (sa_path sa p) (flat t) = slice_cmp path t).
  { intros p path Hin ->. apply flat_cmp; [by rewrite Forall_forall in Hu; auto|done]. }
  assert (Ed : sa_path sa <$> drop first places = flat <$> drop first l).
  { apply (Forall2_drop _ _ _ first) in Hf. clear -Hf.
    induction Hf as [|p path ps ls [E _] _ IH]; csimpl; [done|]. by rewrite IH, <- E. }
  rewrite Ed, <- (take_drop first l) at 1. rewrite (take_drop first l).
  pose proof (extensions_spec (take first l) (drop first l) t inclusive) as Hext.
  rewrite take_drop in Hext. rewrite Hext; [clear Hext|done| |].
  2: { apply Forall_lookup. intros i path Hi. apply lookup_take_Some in Hi as [Hi Hlt].
       destruct (Forall2_lookup_r _ _ _ _ _ Hf Hi) as (p & Hp & E & _).
       rewrite <- (Hcmp p path) by (done || by eapply list_elem_of_lookup_2).
       pose proof (Forall_lookup_1 _ _ _ _ Htake (proj2 (lookup_take_Some _ _ _ _) (conj Hp Hlt))) as H.
       cbn in H. by destruct (slice_cmp (sa_path sa p) (flat t)). }
  2: { apply Forall_lookup. intros i path Hi. rewrite lookup_drop in Hi.
       destruct (Forall2_lookup_r _ _ _ _ _ Hf Hi) as (p & Hp & E & _).
       rewrite <- (Hcmp p path) by (done || by eapply list_elem_of_lookup_2).
       rewrite <- lookup_drop in Hp. pose proof (Forall_lookup_1 _ _ _ _ Hdrop Hp) as H.
       cbn in H. by destruct (slice_cmp (sa_path sa p) (flat t)). }
  assert (Hud : Forall (Forall is_u64) (drop first l)) by by apply Forall_drop.
  destruct (drop first l) as [|x r]; csimpl; [done|].
  apply Forall_cons in Hud as [Hx Hr].
  assert (Heq : bool_decide (flat x = flat t) = bool_decide (x = t)).
  { apply bool_decide_ext. split; [|by intros ->]. intros E. by apply flat_inj in E. }
  rewrite Heq. destruct (decide (x = t)) as [->|E].
  - rewrite (bool_decide_true (t = t)) by done. rewrite orb_true_iff. destruct r as [|y r]; csimpl; [naive_solver|].
    apply Forall_cons in Hr as [Hy _]. by rewrite starts_with_flat.
  - rewrite (bool_decide_false (x = t)) by done. by rewrite starts_with_flat.
Qed.

(** A target address is found related to a group's sources exactly when one
    of them is a prefix of it (children) or it is a prefix of one of them
    (parents), the same address counting only where the relation is inclusive;
    whether the paths are deep and hashed or shallow and searched. *)
Lemma relates_spec g l t mode inclusive :
  srcs !! g = Some l -> Forall is_u64 t ->
  exists found, relates sa g (flat t) mode inclusive = Ok found /\
    (found = true <-> exists s, s ∈ l /\ related mode inclusive s t).
Proof.
  intros Hl Ht. unfold relates. destruct (ok_exact _ _ Hok) as [->| ->].
  - destruct (search_group g l t Hl Ht) as (places & -> & Hf & Hs). cbn [obind].
    eexists; split; [done|]. destruct mode; unfold related.
    + rewrite existsb_exists. setoid_rewrite prefix_take_iff. rewrite length_flat, Nat.div_mul by lia.
      split.
      * intros (d & Hd%list_elem_of_In%elem_of_seq & E%bool_decide_eq_true).
        rewrite flat_take, Hs in E by by apply Forall_take.
        exists (take d t). split; [done|]. exists d. destruct inclusive; split_and!; auto; lia.
      * intros (s & Hin & d & Hd & Hi & ->). exists d. split.
        -- apply list_elem_of_In, elem_of_seq. destruct inclusive; [lia|]. destruct Hi; [done|lia].
        -- apply bool_decide_eq_true. rewrite flat_take. apply Hs; [by apply Forall_take|done].
    + by apply (search_parents g l).
  - destruct mode; unfold related.
    + eexists; split; [done|].
      change (path_hash_start g) with (path_hash g (take 0 (chunks8 (flat t)))).
      rewrite (deep_children_spec _ g t inclusive) by (done || lia).
      setoid_rewrite prefix_take_iff. split.
      * intros (d & Hd & Hi & Hc). apply (exact_contains g l) in Hc; [|done|by apply Forall_take].
        exists (take d t). split; [done|]. exists d. split_and!; [lia|done|done].
      * intros (s & Hin & d & Hd & Hi & ->). exists d. split_and!; [lia|lia|done|].
        apply (exact_contains g l); [done|by apply Forall_take|done].
    + eexists; split; [done|]. rewrite orb_true_iff, andb_true_iff.
      rewrite (prefix_contains g l), (exact_contains g l) by done. split.
      * intros [(s & Hin & Hp & Hne)|[-> Hin]]; [exists s|exists t]; split_and!; auto.
      * intros (s & Hin & Hp & Hi). destruct (decide (t = s)) as [->|Hne].
        -- right. destruct Hi as [|]; done.
        -- left. exists s. auto.
Qed.

End lookup.

(** ** The two forms agree *)

Definition with_exact (sa : SourceAddresses) (exact : option PathIndex) : SourceAddresses :=
  {| sa_groups := sa_groups sa; sa_ranges := sa_ranges sa; sa_paths := sa_paths sa;
     sa_elements := sa_elements sa; sa_exact := exact |}.

Lemma with_exact_ok sa srcs exact :
  sa_ok sa srcs ->
  exact = None \/ exact = Some (exact_index (sa_ranges sa) (sa_paths sa) (sa_elements sa)) ->
  sa_ok (with_exact sa exact) srcs.
Proof. intros [] Hex. by split. Qed.

(** The hash form of the index and its search form answer alike: whether a
    target address is held, and whether it is related to a source of its group in
    either mode, do not depend on the depth of the sources that chose the form. *)
Theorem forms_agree sa srcs g l t mode inclusive :
  sa_ok sa srcs -> srcs !! g = Some l -> Forall is_u64 t ->
  let hashed := with_exact sa (Some (exact_index (sa_ranges sa) (sa_paths sa) (sa_elements sa))) in
  let searched := with_exact sa None in
  relates hashed g (flat t) mode inclusive = relates searched g (flat t) mode inclusive /\
  holds hashed g (flat t) = holds searched g (flat t) /\
  is_ok (relates hashed g (flat t) mode inclusive) = true.
Proof.
  intros Hok Hl Ht hashed searched.
  assert (Hh : sa_ok hashed srcs) by (apply with_exact_ok; auto).
  assert (Hs : sa_ok searched srcs) by (apply with_exact_ok; auto).
  destruct (relates_spec hashed srcs Hh g l t mode inclusive Hl Ht) as (b1 & E1 & H1).
  destruct (relates_spec searched srcs Hs g l t mode inclusive Hl Ht) as (b2 & E2 & H2).
  destruct (holds_spec hashed srcs Hh g l t Hl Ht) as (b3 & E3 & H3).
  destruct (holds_spec searched srcs Hs g l t Hl Ht) as (b4 & E4 & H4).
  rewrite E1, E2, E3, E4. split_and!; [| |done]; f_equal; apply eq_true_iff_eq; [by rewrite H1, H2|by rewrite H3, H4].
Qed.

Definition small_index : SourceAddresses :=
  {| sa_groups := GBytes ∅; sa_ranges := [(0, 2)]; sa_paths := [(0, 1); (0, 2)];
     sa_elements := flat [3; 1]%Z; sa_exact := None |}.

Lemma forms_agree_witness :
  let hashed := with_exact small_index
    (Some (exact_index (sa_ranges small_index) (sa_paths small_index) (sa_elements small_index))) in
  let searched := with_exact small_index None in
  relates hashed 0 (flat [3]%Z) Parents false = relates searched 0 (flat [3]%Z) Parents false /\
  holds hashed 0 (flat [3]%Z) = holds searched 0 (flat [3]%Z) /\
  is_ok (relates hashed 0 (flat [3]%Z) Parents false) = true.
Proof.
  apply (forms_agree small_index [[[3]; [3; 1]]%Z] 0 [[3]; [3; 1]]%Z [3]%Z Parents false).
  - split; cbn -[Z.pow].
    + repeat constructor.
    + repeat constructor.
    + repeat constructor; unfold is_u64; lia.
    + lia.
    + lia.
    + by left.
  - reflexivity.
  - repeat constructor; unfold is_u64; lia.
Defined.
