(* ===== verification/AddressBuild.v ===== *)
(** The address index is built of its sources (src/scan/addresses.rs): every row
    that has a group key and an address is in the index under its group, once
    per distinct address, and nothing else is; so the filter keeps exactly the
    target rows related to a source of their group. *)
From stdpp Require Import base strings list gmap.
From Stdlib Require Import ZArith Lia Sorting.Sorted.
From S2P Require Import Prelude Machine ListLib Errors Arrow ArrowReference Integers Counting Pairs KeyColumns SemiJoin Addresses AddressLookup.

#[local] Open Scope nat_scope.

(** ** What a source row says *)

(** A row's address as its elements' join keys; none for a null, or where the
    column is no list of integers. *)
Definition source_path (b : RecordBatch) (address_col : string) (row : nat) : option (list Z) :=
  '(offsets, nulls, values) ← address_list b address_col;
  if is_valid_in nulls row
  then Some (stored_key <$> slice (ic_values values) (offset_at offsets row) (offset_at offsets (S row)))
  else None.

(** A row's group key and address, where it has both. *)
Abbreviation fact := (list key_part * list Z)%type.
Definition row_fact (b : RecordBatch) (cols : list string) (address_col : string) (row : nat) : option fact :=
  path ← source_path b address_col row;
  ps ← key_of b cols row;
  Some (ps, path).

Definition facts_of (batches : list RecordBatch) (cols : list string) (address_col : string) : list fact :=
  batches ≫= fun b => omap (row_fact b cols address_col) (seq 0 (num_rows b)).

Definition facts_size (facts : list fact) : nat := sum_list ((fun f => S (length f.2)) <$> facts).

Lemma elem_of_facts batches cols address_col ps path :
  (ps, path) ∈ facts_of batches cols address_col <->
  exists b row, b ∈ batches /\ row < num_rows b /\ key_of b cols row = Some ps /\
    source_path b address_col row = Some path.
Proof.
  unfold facts_of. rewrite list_elem_of_bind. setoid_rewrite list_elem_of_omap. unfold row_fact. split.
  - intros (b & (row & Hrow%elem_of_seq & E) & Hb). exists b, row.
    destruct (source_path b address_col row); cbn in E; [|done].
    destruct (key_of b cols row); cbn in E; [|done]. injection E as -> ->. split_and!; [done|lia|done|done].
  - intros (b & row & Hb & Hrow & Hk & Hp). exists b. split; [|done].
    exists row. rewrite Hp; cbn. rewrite Hk. split; [apply elem_of_seq; lia|done].
Qed.

Lemma facts_size_app l k : facts_size (l ++ k) = facts_size l + facts_size k.
Proof. unfold facts_size. by rewrite fmap_app, sum_list_with_app. Qed.

Lemma facts_size_length l : length l <= facts_size l.
Proof. unfold facts_size. induction l; csimpl; lia. Qed.

(** ** Bytes of a row's address *)

Lemma join_key_bytes_flat c : join_key_bytes c = flat (stored_key <$> ic_values c).
Proof.
  unfold join_key_bytes, flat. induction (ic_values c) as [|x l IH]; [done|].
  rewrite fmap_cons, !bind_cons. by rewrite IH.
Qed.

Lemma flat_drop d path : drop (d * 8) (flat path) = flat (drop d path).
Proof.
  revert d; induction path as [|x path IH]; intros [|d]; try done.
  rewrite flat_cons. cbn [drop].
  replace (S d * 8) with (length (to_be_bytes 8 x) + d * 8) by (rewrite length_to_be_bytes; lia).
  by rewrite drop_app_add, IH.
Qed.

Lemma flat_slice path a b : slice (flat path) (a * 8) (b * 8) = flat (slice path a b).
Proof. unfold slice. rewrite flat_drop. replace (b * 8 - a * 8) with ((b - a) * 8) by lia. apply flat_take. Qed.

Lemma row_bytes_flat offsets c row :
  row_bytes offsets (join_key_bytes c) row =
  flat (stored_key <$> slice (ic_values c) (offset_at offsets row) (offset_at offsets (S row))).
Proof.
  unfold row_bytes. rewrite join_key_bytes_flat, flat_slice. unfold slice.
  by rewrite <- firstn_map, <- skipn_map.
Qed.

Lemma stored_keys_u64 l : Forall is_u64 (stored_key <$> l).
Proof. apply Forall_fmap, Forall_forall. intros x _. apply stored_key_range. Qed.

Lemma source_path_u64 b col row path : source_path b col row = Some path -> Forall is_u64 path.
Proof.
  unfold source_path. destruct (address_list b col) as [[[o n] v]|]; cbn; [|done].
  destruct (is_valid_in n row); [|done]. intros [= <-]. apply stored_keys_u64.
Qed.

(** A path back from its bytes. *)
Definition unflat (bytes : list Z) : list Z := from_be_bytes <$> chunks8 bytes.

Lemma from_to_be_bytes n x : (0 <= x < 256 ^ Z.of_nat n)%Z -> from_be_bytes (to_be_bytes n x) = x.
Proof.
  intros Hx. assert (E : rev (to_be_bytes n x) = to_le_bytes n x).
  { clear Hx. revert x; induction n as [|n IH]; intros x; [done|].
    assert (Hle : forall m y, to_le_bytes (S m) y = to_le_bytes m y ++ [(y / 256 ^ Z.of_nat m) mod 256]%Z).
    { induction m as [|m IHm]; intros y; [cbn; by rewrite Z.div_1_r|].
      change (to_le_bytes (S (S m)) y) with ((y mod 256)%Z :: to_le_bytes (S m) (y / 256)%Z).
      rewrite IHm. change (to_le_bytes (S m) y) with ((y mod 256)%Z :: to_le_bytes m (y / 256)%Z).
      cbn [app]. do 3 f_equal. rewrite Z.div_div by lia. f_equal. f_equal.
      rewrite (Nat2Z.inj_succ m), Z.pow_succ_r by lia. done. }
    rewrite Hle. cbn [to_be_bytes rev]. by rewrite IH. }
  unfold from_be_bytes. rewrite E. by apply from_to_le_bytes.
Qed.

Lemma unflat_flat path : Forall is_u64 path -> unflat (flat path) = path.
Proof.
  unfold unflat. rewrite chunks8_flat. induction 1 as [|x path Hx _ IH]; [done|].
  rewrite !fmap_cons, IH. f_equal. by apply from_to_be_bytes.
Qed.

Lemma place_bytes_app elements more p :
  (p.1 + p.2) * 8 <= length elements -> place_bytes (elements ++ more) p = place_bytes elements p.
Proof.
  intros H. unfold place_bytes, slice. rewrite drop_app_le by lia.
  rewrite take_app_le; [done|]. rewrite length_drop. lia.
Qed.

(** ** Group ids *)

(** A two-integer key, packed. *)
Definition pack_parts (ps : list key_part) : Z :=
  match ps with [PInt a; PInt b] => pack16 a b | _ => 0%Z end.

Definition groups_find (g : GroupIds) (ps : list key_part) : option nat :=
  match g with
  | GPair ids => ids !! pack_parts ps
  | GBytes ids => ids !! (ps ≫= encode_part)
  end.

Definition groups_add (g : GroupIds) (ps : list key_part) (next : nat) : nat * GroupIds :=
  match g with
  | GPair ids => let '(id, ids) := entry_or_insert ids (pack_parts ps) next in (id, GPair ids)
  | GBytes ids => let '(id, ids) := entry_or_insert ids (ps ≫= encode_part) next in (id, GBytes ids)
  end.

(** Key shapes the scan reads keys at. *)
Definition readable_shapes (shapes : list key_shape) : Prop :=
  Forall (fun s => s = SInt \/ s = SText \/ s = SPath) shapes.

Section ids.
Context (shapes : list key_shape).

(** The ids number the keys seen, in the order they were. *)
Record ids_ok (g : GroupIds) (keys : list (list key_part)) : Prop := {
  ids_len : groups_len g = length keys;
  ids_shapes : Forall (fun ps => Forall2 has_shape ps shapes) keys;
  ids_find : forall ps i, Forall2 has_shape ps shapes -> groups_find g ps = Some i <-> keys !! i = Some ps;
  ids_pair : match g with GPair _ => keys = [] \/ shapes = [SInt; SInt] | GBytes _ => True end;
}.

Lemma pack_parts_inj ps qs :
  shapes = [SInt; SInt] -> Forall2 has_shape ps shapes -> Forall2 has_shape qs shapes ->
  pack_parts ps = pack_parts qs -> ps = qs.
Proof.
  intros E Hp Hq. rewrite E in Hp, Hq.
  apply Forall2_cons_inv_r in Hp as (p & ? & Hp1 & Hp & ->).
  apply Forall2_cons_inv_r in Hp as (p2 & ? & Hp2 & Hp & ->). apply Forall2_nil_inv_r in Hp as ->.
  apply Forall2_cons_inv_r in Hq as (q & ? & Hq1 & Hq & ->).
  apply Forall2_cons_inv_r in Hq as (q2 & ? & Hq2 & Hq & ->). apply Forall2_nil_inv_r in Hq as ->.
  destruct p, p2, q, q2; cbn in *; try done. intros Ep. apply pack16_inj in Ep as [-> ->]; done.
Qed.

Lemma groups_add_ok g keys ps :
  ids_ok g keys -> Forall2 has_shape ps shapes ->
  match g with GPair _ => shapes = [SInt; SInt] | GBytes _ => True end ->
  exists id g' keys', groups_add g ps (length keys) = (id, g') /\ ids_ok g' keys' /\
    keys' !! id = Some ps /\ (keys' = keys \/ keys' = keys ++ [ps]) /\
    (match g, g' with GPair _, GPair _ | GBytes _, GBytes _ => True | _, _ => False end).
Proof.
  intros Hok Hps Hpair. pose proof (ids_find _ _ Hok ps) as Hfind.
  assert (Hnew : forall (A : Type) `{Countable A} (ids : gmap A nat) (enc : list key_part -> A) id,
    (forall ps i, Forall2 has_shape ps shapes -> ids !! enc ps = Some i <-> keys !! i = Some ps) ->
    (forall ps qs, Forall2 has_shape ps shapes -> Forall2 has_shape qs shapes -> enc ps = enc qs -> ps = qs) ->
    size ids = length keys ->
    entry_or_insert ids (enc ps) (length keys) = id ->
    exists keys', (forall ps i, Forall2 has_shape ps shapes -> id.2 !! enc ps = Some i <-> keys' !! i = Some ps) /\
      size id.2 = length keys' /\ keys' !! id.1 = Some ps /\ (keys' = keys \/ keys' = keys ++ [ps])).
  { intros A ? ? ids enc id Hf Hinj Hsz <-. unfold entry_or_insert.
    destruct (ids !! enc ps) as [i|] eqn:E; cbn [fst snd].
    - exists keys. split_and!; [done|done|by apply Hf|by left].
    - exists (keys ++ [ps]). split_and!.
      + intros qs i Hqs. destruct (decide (enc ps = enc qs)) as [Eq|Ne].
        * rewrite Eq, lookup_insert_eq. apply Hinj in Eq as ->; [|done..]. split.
          -- intros [= <-]. by rewrite lookup_app_r, Nat.sub_diag by lia.
          -- intros Hl. apply lookup_app_Some in Hl as [Hl|[Hge Hl]].
             ++ apply Hf in Hl; [|done]. congruence.
             ++ apply list_lookup_singleton_Some in Hl as [Hi _]. f_equal. lia.
        * rewrite lookup_insert_ne by done. rewrite Hf by done. split.
          -- intros Hl. rewrite lookup_app_l; [done|]. by eapply lookup_lt_Some.
          -- intros Hl. apply lookup_app_Some in Hl as [Hl|[Hge Hl]]; [done|].
             apply list_lookup_singleton_Some in Hl as [_ ->]. done.
      + rewrite map_size_insert_None by done. rewrite length_app, Hsz. cbn. lia.
      + by rewrite lookup_app_r, Nat.sub_diag by lia.
      + by right. }
  assert (Hsh : forall keys', keys' = keys \/ keys' = keys ++ [ps] ->
    Forall (fun ps => Forall2 has_shape ps shapes) keys').
  { intros keys' [->| ->]; [apply (ids_shapes _ _ Hok)|]. apply Forall_app. split; [apply (ids_shapes _ _ Hok)|].
    by repeat constructor. }
  destruct g as [ids|ids]; cbn [groups_add].
  - destruct (Hnew _ _ _ ids pack_parts _ (ids_find _ _ Hok) (fun ps qs => pack_parts_inj ps qs Hpair)
      (ids_len _ _ Hok) eq_refl) as (keys' & H1 & H2 & H3 & H4).
    destruct (entry_or_insert ids (pack_parts ps) (length keys)) as [id ids'].
    exists id, (GPair ids'), keys'. split_and!; [done| |done|done|done].
    split; [done|auto|done|by right].
  - destruct (Hnew _ _ _ ids (fun ps => ps ≫= encode_part) _ (ids_find _ _ Hok)
      (fun ps qs => encode_parts_inj ps qs shapes) (ids_len _ _ Hok) eq_refl) as (keys' & H1 & H2 & H3 & H4).
    destruct (entry_or_insert ids (ps ≫= encode_part) (length keys)) as [id ids'].
    exists id, (GBytes ids'), keys'. split_and!; [done| |done|done|done].
    split; [done|auto|done|done].
Qed.
End ids.

(** ** The group of a row *)

Section rows.
Context {K : ArrowKernels} {L : ArrowLaws K}.
Context (cols : list string) (shapes : list key_shape).

Lemma keyed_shape b row ps :
  keyed [b] cols shapes -> row < num_rows b -> key_of b cols row = Some ps -> Forall2 has_shape ps shapes.
Proof.
  intros H Hrow Hk. apply Forall_inv in H as (Hok & Hi & Hs).
  destruct (key_of_shape b cols row ps) as (sh & E & ?); [done..|]. by simplify_eq.
Qed.

Lemma bytes_key_spec b row :
  keyed [b] cols shapes -> readable_shapes shapes ->
  bytes_key (typed_key_columns b cols) row = Ok ((fun ps => ps ≫= encode_part) <$> key_of b cols row).
Proof.
  intros H Hr. apply Forall_inv in H as (Hok & _ & Hs).
  assert (Hgen : forall buf, bytes_key_from buf (typed_key_columns b cols) row =
    Ok ((fun ps => buf ++ (ps ≫= encode_part)) <$> key_of b cols row)); [|apply Hgen].
  revert Hs Hr. generalize shapes. clear shapes. unfold typed_key_columns.
  induction cols as [|name names IH]; intros shapes Hs Hr buf; [cbn; by rewrite app_nil_r|].
  rewrite key_of_cons. cbn in Hs. csimpl.
  destruct (column_by_name b name) as [col|] eqn:Ec; cbn in Hs |- *; [|done].
  destruct (key_shape_of (array_type col)) as [s|] eqn:Es; cbn in Hs; [|done].
  destruct (mapM _ names) as [ss|] eqn:Ess; cbn in Hs; [|done]. injection Hs as <-.
  apply Forall_cons in Hr as [Hr1 Hr].
  destruct (column_ok b name col Hok Ec) as [Hc _].
  assert (exists c, TypedKeyColumn_resolve col = Some c) as [c Hrc].
  { unfold TypedKeyColumn_resolve. destruct col; cbn in *; eauto; naive_solver. }
  rewrite Hrc. rewrite (append_to_spec col c) by done.
  destruct (part_at col row) as [p|]; cbn [fmap option_fmap option_map obind mbind option_bind]; [|done].
  rewrite (IH ss eq_refl Hr).
  destruct (key_of b names row) as [ps|]; cbn [fmap option_fmap option_map mbind option_bind]; [|done].
  by rewrite bind_cons, app_assoc.
Qed.

Lemma int_columns b :
  keyed [b] cols [SInt; SInt] ->
  exists n1 n2 t1 v1 m1 t2 v2 m2, cols = [n1; n2] /\
    column_by_name b n1 = Some (AInt t1 v1 m1) /\ column_by_name b n2 = Some (AInt t2 v2 m2).
Proof.
  intros H. apply Forall_inv in H as (_ & _ & Hs).
  destruct cols as [|n1 [|n2 [|n3 ns]]]; cbn in Hs; try done.
  - by destruct (column_by_name b n1 ≫= _).
  - destruct (column_by_name b n1) as [c1|] eqn:E1; cbn in Hs; [|done].
    destruct (key_shape_of (array_type c1)) eqn:S1; cbn in Hs; [|done].
    destruct (column_by_name b n2) as [c2|] eqn:E2; cbn in Hs; [|done].
    destruct (key_shape_of (array_type c2)) eqn:S2; cbn in Hs; [|done].
    injection Hs as -> ->.
    destruct c1 as [t1 v1 m1| | | |? [] ?| | | | |]; cbn in S1; try done.
    destruct c2 as [t2 v2 m2| | | |? [] ?| | | | |]; cbn in S2; try done. eauto 15.
  - destruct (column_by_name b n1 ≫= _); cbn in Hs; [|done].
    destruct (column_by_name b n2 ≫= _); cbn in Hs; [|done].
    destruct (column_by_name b n3 ≫= _); cbn in Hs; [|done]. by destruct (mapM _ ns).
Qed.

(** Two integer keys, read whole or row by row, say what the key says. *)
Lemma pair_keys_spec b :
  keyed [b] cols [SInt; SInt] ->
  exists first second nulls, pair_keys b cols = Some (first, second, nulls) /\
    length first = num_rows b /\ length second = num_rows b /\
    forall row, row < num_rows b ->
      pack_parts <$> key_of b cols row = pair_key (typed_key_columns b cols) row /\
      (if is_valid_in nulls row
       then exists a c, first !! row = Some a /\ second !! row = Some c /\
              key_of b cols row = Some [PInt a; PInt c]
       else key_of b cols row = None).
Proof.
  intros H. destruct (int_columns b H) as (n1 & n2 & t1 & v1 & m1 & t2 & v2 & m2 & -> & E1 & E2).
  apply Forall_inv in H as (Hok & _ & _).
  destruct (column_ok _ _ _ Hok E1) as [Hc1 Hl1], (column_ok _ _ _ Hok E2) as [Hc2 Hl2]. cbn in Hl1, Hl2.
  apply array_ok_nulls in Hc1, Hc2. cbn in Hc1, Hc2.
  unfold pair_keys. rewrite E1, E2; cbn [mbind option_bind IntColumn_resolve].
  eexists _, _, _. split; [done|]. unfold join_keys; cbn [ic_values ic_nulls].
  rewrite !length_fmap. split_and!; [done|done|]. intros row Hrow.
  destruct (lookup_lt_is_Some_2 v1 row ltac:(lia)) as [x1 Hx1].
  destruct (lookup_lt_is_Some_2 v2 row ltac:(lia)) as [x2 Hx2].
  destruct (null_union_valid m1 m2 (length v1) row) as (_ & -> & _); [done|by rewrite Hl1, <- Hl2|].
  rewrite !list_lookup_fmap, Hx1, Hx2. cbn. unfold typed_key_columns; cbn. rewrite E1, E2; cbn.
  unfold key_of; cbn. rewrite ?E1, ?E2; cbn. unfold part_at, is_null, int_is_null; cbn.
  rewrite Hx1, Hx2; cbn. unfold int_join_key, int_value; cbn. rewrite Hx1, Hx2.
  destruct (is_valid_in m1 row), (is_valid_in m2 row); cbn; split; eauto.
Qed.

Lemma pair_key_none b row :
  keyed [b] cols shapes -> shapes <> [SInt; SInt] -> pair_keys b cols = None /\
  pair_key (typed_key_columns b cols) row = None.
Proof.
  intros H Hne. apply Forall_inv in H as (_ & _ & Hs).
  destruct cols as [|n1 [|n2 [|n3 ns]]]; try done; cbn in Hs.
  - split; [done|]. unfold typed_key_columns; cbn.
    by destruct (column_by_name b n1 ≫= TypedKeyColumn_resolve) as [[]|].
  - unfold pair_keys, typed_key_columns; cbn.
    destruct (column_by_name b n1) as [c1|]; cbn in *; [|done].
    destruct (column_by_name b n2) as [c2|]; cbn in *; [|by destruct (key_shape_of _)].
    destruct c1 as [t1 v1 m1|?|?|?|o1 [] ?| | | | |]; cbn in *; try done;
      destruct c2 as [t2 v2 m2|?|?|?|o2 [] ?| | | | |]; cbn in *; try done;
      try (by split); by destruct Hne; injection Hs.
  - split; [done|]. unfold typed_key_columns; cbn. destruct (column_by_name b n1 ≫= TypedKeyColumn_resolve) as [[]|]; try done.
    by destruct (column_by_name b n2 ≫= TypedKeyColumn_resolve) as [[]|].
Qed.

Lemma groups_insert_bytes b row ids :
  keyed [b] cols shapes -> readable_shapes shapes ->
  groups_insert (GBytes ids) (typed_key_columns b cols) row =
    Ok match key_of b cols row with
       | None => (None, GBytes ids)
       | Some ps => let '(id, g') := groups_add (GBytes ids) ps (u32 (groups_len (GBytes ids))) in (Some id, g')
       end.
Proof.
  intros H Hr. unfold groups_insert. rewrite (bytes_key_spec b row) by done. cbn [obind].
  destruct (key_of b cols row) as [ps|]; cbn; [|done]. by destruct (entry_or_insert _ _ _).
Qed.

Lemma group_of_row_spec b row g :
  keyed [b] cols shapes -> readable_shapes shapes -> row < num_rows b ->
  match g with GPair _ => shapes = [SInt; SInt] | GBytes _ => True end ->
  group_of_row (pair_keys b cols) (typed_key_columns b cols) g row =
    Ok match key_of b cols row with
       | None => (None, g)
       | Some ps => let '(id, g') := groups_add g ps (u32 (groups_len g)) in (Some id, g')
       end.
Proof.
  intros H Hr Hrow Hg. destruct g as [ids|ids].
  - rewrite Hg in H. destruct (pair_keys_spec b H) as (first & second & nulls & -> & Hl1 & Hl2 & Hs).
    destruct (Hs row Hrow) as [_ Hkey]. cbn [group_of_row]. destruct (is_valid_in nulls row).
    + destruct Hkey as (a & c & E1 & E2 & ->). rewrite (vec_get_ok _ _ _ E1), (vec_get_ok _ _ _ E2). cbn.
      by destruct (entry_or_insert ids (pack16 a c) (u32 (size ids))).
    + by rewrite Hkey.
  - rewrite <- groups_insert_bytes by done. by destruct (pair_keys b cols) as [[[]]|].
Qed.

Lemma row_group_spec sa keys b row :
  ids_ok shapes (sa_groups sa) keys -> keyed [b] cols shapes -> readable_shapes shapes ->
  row < num_rows b ->
  row_group sa (match sa_groups sa with GPair _ => pair_keys b cols | GBytes _ => None end)
    (typed_key_columns b cols) row = Ok (key_of b cols row ≫= groups_find (sa_groups sa)).
Proof.
  intros Hids H Hr Hrow. unfold row_group. pose proof (ids_pair _ _ _ Hids) as Hp.
  pose proof (ids_find _ _ _ Hids) as Hfind.
  destruct (sa_groups sa) as [ids|ids].
  - destruct (decide (shapes = [SInt; SInt])) as [E|Hne].
    + rewrite E in H. destruct (pair_keys_spec b H) as (first & second & nulls & -> & Hl1 & Hl2 & Hs).
      destruct (Hs row Hrow) as [_ Hkey]. destruct (is_valid_in nulls row).
      * destruct Hkey as (a & c & E1 & E2 & ->). by rewrite (vec_get_ok _ _ _ E1), (vec_get_ok _ _ _ E2).
      * by rewrite Hkey.
    + destruct Hp as [Hkeys|Hp]; [|done].
      destruct (pair_key_none b row H Hne) as [-> Hpk]. unfold groups_get. rewrite Hpk. cbn.
      destruct (key_of b cols row) as [ps|] eqn:Ek; cbn; [|done].
      destruct (ids !! pack_parts ps) as [i|] eqn:Ei; [|done].
      apply (Hfind ps i (keyed_shape b row ps H Hrow Ek)) in Ei. by rewrite Hkeys in Ei.
  - unfold groups_get. rewrite (bytes_key_spec b row) by done. cbn [obind].
    by destruct (key_of b cols row).
Qed.
End rows.

(** ** Reading the sources *)

Section build.
Context {K : ArrowKernels} {L : ArrowLaws K}.
Context (cols : list string) (shapes : list key_shape) (address_col : string).
Context (Hreadable : readable_shapes shapes).

(** What has been read: each fact is an entry, with its key's group and a place
    in [elements] that holds its path. *)
Record build_ok (facts : list fact) (keys : list (list key_part))
    (st : GroupIds * list Z * list (nat * place)) : Prop := {
  bo_ids : ids_ok shapes st.1.1 keys;
  bo_keys : length keys <= length facts;
  bo_elements : length st.1.2 = sum_list ((fun f : fact => length f.2) <$> facts) * 8;
  bo_entries : Forall2 (fun (e : nat * place) (f : fact) =>
    keys !! e.1 = Some f.1 /\ place_bytes st.1.2 e.2 = flat f.2 /\ e.2.2 = length f.2 /\
    (e.2.1 + e.2.2) * 8 <= length st.1.2) st.2 facts;
}.

Lemma facts_elements facts : sum_list ((fun f : fact => length f.2) <$> facts) <= facts_size facts.
Proof. unfold facts_size. induction facts; csimpl; lia. Qed.

Lemma build_row_ok b row facts keys groups elements entries offsets nulls values :
  keyed [b] cols shapes -> row < num_rows b ->
  address_list b address_col = Some (offsets, nulls, values) ->
  match groups with GPair _ => shapes = [SInt; SInt] | GBytes _ => True end ->
  (Z.of_nat (facts_size (facts ++ option_list (row_fact b cols address_col row))) < 2 ^ 32)%Z ->
  build_ok facts keys (groups, elements, entries) ->
  exists st' keys',
    build_row (pair_keys b cols) (typed_key_columns b cols) offsets nulls (join_key_bytes values)
      (groups, elements, entries) row = Ok st' /\
    build_ok (facts ++ option_list (row_fact b cols address_col row)) keys' st' /\
    (match groups, st'.1.1 with GPair _, GPair _ | GBytes _, GBytes _ => True | _, _ => False end).
Proof.
  intros Hb Hrow Ha Hg Hsz [Hids Hkeys Hel Hent]. cbn [fst snd] in *. unfold build_row, row_fact, source_path in *.
  rewrite Ha in *; cbn [mbind option_bind] in *.
  destruct (is_valid_in nulls row); cbn [negb option_bind mbind option_list] in *.
  2: { rewrite app_nil_r. exists (groups, elements, entries), keys. by destruct groups. }
  set (path := stored_key <$> slice (ic_values values) (offset_at offsets row) (offset_at offsets (S row))) in *.
  rewrite (group_of_row_spec cols shapes) by done. cbn [obind fst snd].
  destruct (key_of b cols row) as [ps|] eqn:Ek; cbn [option_list] in *.
  2: { cbn. rewrite app_nil_r. exists (groups, elements, entries), keys. by destruct groups. }
  pose proof (facts_elements facts) as Hfe.
  rewrite facts_size_app in Hsz. unfold facts_size at 2 in Hsz. cbn in Hsz.
  pose proof (facts_size_length facts) as Hfl.
  rewrite (ids_len _ _ _ Hids), u32_small by lia.
  destruct (groups_add_ok shapes groups keys ps) as (id & g' & keys' & -> & Hids' & Hid & Hkeys' & Hkind);
    [done|by eapply keyed_shape|done|]. cbn [fst snd].
  rewrite row_bytes_flat. fold path.
  assert (Hlp : length (elements ++ flat path) = (sum_list ((fun f : fact => length f.2) <$> facts) + length path) * 8).
  { rewrite length_app, length_flat, Hel. lia. }
  rewrite Hel, Hlp, !Nat.div_mul, !u32_small by lia.
  eexists _, keys'. split; [done|]. split; [|done].
  assert (Hmono : forall i k, keys !! i = Some k -> keys' !! i = Some k).
  { intros i k Hi. destruct Hkeys' as [->| ->]; [done|]. rewrite lookup_app_l; [done|]. by eapply lookup_lt_Some. }
  split; cbn [fst snd].
  - done.
  - rewrite length_app. cbn. destruct Hkeys' as [->| ->]; rewrite ?length_app; cbn; lia.
  - rewrite fmap_app, sum_list_with_app, Hlp. cbn. lia.
  - apply Forall2_app.
    + eapply Forall2_impl; [exact Hent|]. intros e f (H1 & H2 & H3 & H4); cbn.
      split_and!; [by apply Hmono| |done|rewrite length_app; lia]. by rewrite place_bytes_app.
    + constructor; [|constructor]. cbn [fst snd]. split_and!; [done| |lia|rewrite Hlp; lia].
      unfold place_bytes, slice; cbn [fst snd]. rewrite <- Hel, drop_app_length.
      apply take_ge. rewrite length_flat. lia.
Qed.

Lemma build_rows_ok b rows facts keys groups elements entries offsets nulls values :
  keyed [b] cols shapes -> Forall (fun row => row < num_rows b) rows ->
  address_list b address_col = Some (offsets, nulls, values) ->
  match groups with GPair _ => rows = [] \/ shapes = [SInt; SInt] | GBytes _ => True end ->
  (Z.of_nat (facts_size (facts ++ omap (row_fact b cols address_col) rows)) < 2 ^ 32)%Z ->
  build_ok facts keys (groups, elements, entries) ->
  exists st' keys',
    foldM (build_row (pair_keys b cols) (typed_key_columns b cols) offsets nulls (join_key_bytes values))
      rows (groups, elements, entries) = Ok st' /\
    build_ok (facts ++ omap (row_fact b cols address_col) rows) keys' st' /\
    (match groups, st'.1.1 with GPair _, GPair _ | GBytes _, GBytes _ => True | _, _ => False end).
Proof.
  intros Hb Hrows Ha. revert facts keys groups elements entries.
  induction Hrows as [|row rows Hrow Hrows IH]; intros facts keys groups elements entries Hg Hsz Hok.
  { exists (groups, elements, entries), keys. cbn. rewrite app_nil_r. by destruct groups. }
  assert (E : omap (row_fact b cols address_col) (row :: rows) =
    option_list (row_fact b cols address_col row) ++ omap (row_fact b cols address_col) rows).
  { cbn. by destruct (row_fact b cols address_col row). }
  rewrite E, app_assoc in Hsz |- *. cbn [foldM].
  destruct (build_row_ok b row facts keys groups elements entries offsets nulls values)
    as ([[g' el'] en'] & keys' & -> & Hok' & Hkind); [done|done|done| | |done|].
  { destruct groups; [|done]. by destruct Hg. }
  { rewrite facts_size_app in Hsz. lia. }
  cbn [obind]. destruct (IH (facts ++ option_list (row_fact b cols address_col row)) keys' g' el' en') as (st'' & keys'' & E1 & Hok'' & Hkind'); [|exact Hsz|done|].
  { cbn in Hkind. destruct groups, g'; try done. right. by destruct Hg. }
  exists st'', keys''. split_and!; [done|done|]. cbn in Hkind, Hkind'.
  by destruct groups, g', st''.1.1.
Qed.

Lemma build_batches_ok batches facts keys st :
  keyed batches cols shapes ->
  match st.1.1 with
  | GPair _ => Forall (fun b => 0 < num_rows b -> shapes = [SInt; SInt]) batches
  | GBytes _ => True
  end ->
  (Z.of_nat (facts_size (facts ++ facts_of batches cols address_col)) < 2 ^ 32)%Z ->
  build_ok facts keys st ->
  exists st' keys', foldM (build_batch cols address_col) batches st = Ok st' /\
    build_ok (facts ++ facts_of batches cols address_col) keys' st'.
Proof.
  intros Hb. revert facts keys st; induction Hb as [|b bs Hb Hbs IH]; intros facts keys [[g el] en] Hg Hsz Hok.
  { exists (g, el, en), keys. cbn. by rewrite app_nil_r. }
  assert (Hkb : keyed [b] cols shapes) by by constructor.
  unfold facts_of in *. rewrite bind_cons, app_assoc in Hsz |- *. cbn [foldM]. unfold build_batch at 2.
  assert (Hnone : address_list b address_col = None -> omap (row_fact b cols address_col) (seq 0 (num_rows b)) = []).
  { intros Ha. assert (Hn : forall row, row_fact b cols address_col row = None).
    { intros row. unfold row_fact, source_path. by rewrite Ha. }
    clear -Hn. induction (seq 0 (num_rows b)) as [|row rows IHr]; [done|]. csimpl. by rewrite Hn. }
  destruct (address_list b address_col) as [[[offsets nulls] values]|] eqn:Ha.
  - destruct (build_rows_ok b (seq 0 (num_rows b)) facts keys g el en offsets nulls values)
      as (st' & keys' & E & Hok' & Hkind); [done| |done| | |done|].
    { apply Forall_forall. intros row Hrow%elem_of_seq. lia. }
    { cbn in Hg. destruct g; [|done]. apply Forall_cons in Hg as [Hg _].
      destruct (decide (0 < num_rows b)); [right; auto|left]. by replace (num_rows b) with 0 by lia. }
    { rewrite facts_size_app in Hsz. lia. }
    unfold build_batch at 1. rewrite Ha, E; cbn [obind].
    apply (IH _ keys'); [|done|done]. cbn in Hg, Hkind. destruct g, st'.1.1; try done.
    by apply Forall_cons in Hg as [_ Hg].
  - unfold build_batch at 1. rewrite Ha. cbn [obind]. rewrite Hnone, app_nil_r in * by done.
    apply (IH _ keys); [|done|done]. cbn in Hg |- *. destruct g; [|done]. by apply Forall_cons in Hg as [_ Hg].
Qed.
End build.

(** ** Sorting the groups' paths *)

Section sorting.
Context (elements : list Z).
Abbreviation bytes := (place_bytes elements).

Definition path_le (a b : place) : bool :=
  match slice_cmp (bytes a) (bytes b) with Gt => false | _ => true end.

Lemma path_le_total a b : path_le a b = true \/ path_le b a = true.
Proof.
  unfold path_le. rewrite (slice_cmp_antisym (bytes a) (bytes b)).
  destruct (slice_cmp (bytes a) (bytes b)); cbn; auto.
Qed.

Lemma path_le_trans a b c : path_le a b = true -> path_le b c = true -> path_le a c = true.
Proof.
  unfold path_le. destruct (slice_cmp (bytes a) (bytes b)) eqn:E1; try done;
    destruct (slice_cmp (bytes b) (bytes c)) eqn:E2; try done; intros _ _.
  - apply slice_cmp_eq in E1, E2. rewrite E1, E2. by rewrite (proj2 (slice_cmp_eq _ _)).
  - apply slice_cmp_eq in E1. by rewrite E1, E2.
  - apply slice_cmp_eq in E2. by rewrite <- E2, E1.
  - by rewrite (slice_cmp_trans _ _ _ E1 E2).
Qed.

(** What a group keeps of its paths: each distinct one, strictly ascending. *)
Definition group_kept (own kept : list place) : Prop :=
  StronglySorted (fun p q => slice_cmp (bytes p) (bytes q) = Lt) kept /\
  (forall p, p ∈ own -> exists q, q ∈ kept /\ bytes q = bytes p) /\
  kept `sublist_of` sort_by path_le own.

Lemma strictly_sorted_snoc (kept : list place) p q :
  StronglySorted (fun p q => slice_cmp (bytes p) (bytes q) = Lt) (kept ++ [p]) ->
  slice_cmp (bytes p) (bytes q) = Lt ->
  StronglySorted (fun p q => slice_cmp (bytes p) (bytes q) = Lt) ((kept ++ [p]) ++ [q]).
Proof.
  induction kept as [|x kept IH]; cbn; intros Hs Hpq.
  - repeat constructor. done.
  - apply StronglySorted_inv in Hs as [Hs Hx]. constructor; [auto|].
    rewrite Forall_app. split; [done|]. constructor; [|constructor].
    apply Forall_app in Hx as [_ Hx]. apply Forall_inv in Hx. by apply (slice_cmp_trans _ _ _ Hx).
Qed.

Lemma keep_paths_ok paths0 own kept0 :
  (Z.of_nat (length paths0 + length kept0 + length own) < 2 ^ 32)%Z ->
  StronglySorted (fun a b => path_le a b = true) own ->
  StronglySorted (fun p q => slice_cmp (bytes p) (bytes q) = Lt) kept0 ->
  (forall p q, last kept0 = Some p -> q ∈ own -> path_le p q = true) ->
  exists kept, fold_left (keep_path elements (length paths0)) own (paths0 ++ kept0) = paths0 ++ kept0 ++ kept /\
    StronglySorted (fun p q => slice_cmp (bytes p) (bytes q) = Lt) (kept0 ++ kept) /\
    (forall p, p ∈ own -> exists q, q ∈ kept0 ++ kept /\ bytes q = bytes p) /\ kept `sublist_of` own.
Proof.
  intros Hsz Hown; revert kept0 Hsz; induction Hown as [|p own Hown IH Hp]; intros kept0 Hsz Hk Hle; cbn [fold_left].
  { exists []. rewrite !app_nil_r. split_and!; [done|done|by intros p ?%not_elem_of_nil|done]. }
  cbn [length] in Hsz. unfold keep_path at 2. rewrite u32_small by (rewrite length_app; lia).
  assert (Hfirst : (length paths0 <? length (paths0 ++ kept0)) = negb (bool_decide (kept0 = []))).
  { rewrite length_app. destruct kept0; cbn; [rewrite Nat.add_0_r; apply Nat.ltb_irrefl|].
    apply Nat.ltb_lt. lia. }
  rewrite Hfirst. destruct (last kept0) as [l|] eqn:El.
  2: { apply last_None in El as ->. cbn [bool_decide]. rewrite bool_decide_true by done. cbn [negb andb].
       destruct (IH [p]) as (kept & E & Hs & Hin & Hsub); [cbn; lia|repeat constructor| |].
       { intros a q [= <-] Hq. rewrite Forall_forall in Hp. by apply Hp. }
       exists (p :: kept). rewrite app_nil_r. split_and!; [exact E|exact Hs| |by apply sublist_skip].
       intros q [->|Hq]%elem_of_cons; [exists p; split; [left|done]|by apply Hin]. }
  assert (Hne : kept0 <> []) by by intros ->.
  rewrite bool_decide_false by done. cbn [negb andb].
  apply last_Some in El as [k0 ->]. rewrite app_assoc, last_snoc.
  destruct (bool_decide_reflect (bytes l = bytes p)) as [Eq|Nq].
  - rewrite <- app_assoc. destruct (IH (k0 ++ [l])) as (kept & E & Hs & Hin & Hsub); [lia|done| |].
    { intros a q Ha Hq. rewrite last_snoc in Ha. apply (Hle a q Ha). by right. }
    exists kept. split_and!; [exact E|exact Hs| |by apply sublist_cons].
    intros q [->|Hq]%elem_of_cons; [|by apply Hin]. exists l. split; [|done].
    apply elem_of_app. left. apply elem_of_app. right. left.
  - assert (Hlp : slice_cmp (bytes l) (bytes p) = Lt).
    { specialize (Hle l p). specialize (Hle eq_refl ltac:(left)).
      unfold path_le in Hle. destruct (slice_cmp (bytes l) (bytes p)) eqn:E; try done.
      by apply slice_cmp_eq in E. }
    destruct (IH ((k0 ++ [l]) ++ [p])) as (kept & E & Hs & Hin & Hsub).
    { rewrite length_app; cbn. lia. }
    { by apply strictly_sorted_snoc. }
    { intros a q Ha Hq. rewrite last_snoc in Ha. injection Ha as <-. rewrite Forall_forall in Hp. by apply Hp. }
    exists (p :: kept). rewrite <- !app_assoc in *. split_and!; [exact E|exact Hs| |by apply sublist_skip].
    intros q [->|Hq]%elem_of_cons; [|by apply Hin]. exists p. split; [|done].
    rewrite !elem_of_app. right; right; left.
Qed.

(** Where each group's kept paths lie once they are written one after another. *)
Definition range_at (kepts : list (list place)) (g : nat) : nat * nat :=
  (length (concat (take g kepts)), length (concat (take (S g) kepts))).

Lemma range_slice kepts g kept :
  kepts !! g = Some kept ->
  slice (concat kepts) (range_at kepts g).1 (range_at kepts g).2 = kept.
Proof.
  intros Hg. unfold range_at, slice; cbn [fst snd]. rewrite (take_S_r _ _ _ Hg), concat_app, length_app.
  rewrite Nat.add_sub_swap, Nat.sub_diag by lia. cbn [plus concat]. rewrite app_nil_r.
  rewrite <- (take_drop_middle kepts g kept Hg) at 2. rewrite concat_app, drop_app_length. cbn [concat].
  by rewrite take_app_length.
Qed.

Lemma sort_groups_ok n entries ordered :
  Forall (fun e : nat * place => e.1 < n) entries -> (Z.of_nat (length entries) < 2 ^ 32)%Z ->
  (forall p, p < n -> slice ordered (base_of p entries) (base_of (S p) entries) = run_of p entries) ->
  exists kepts, Forall2 (fun g kept => group_kept (run_of g entries) kept) (seq 0 n) kepts /\
    foldM (sort_group elements ((fun p => base_of p entries) <$> seq 0 (S n)) ordered) (seq 0 n) ([], []) =
      Ok (range_at kepts <$> seq 0 n, concat kepts).
Proof.
  intros Hk Hsz Hord.
  assert (Hgen : forall m, m <= n -> exists kepts,
    Forall2 (fun g kept => group_kept (run_of g entries) kept) (seq 0 m) kepts /\
    length (concat kepts) <= base_of m entries /\
    foldM (sort_group elements ((fun p => base_of p entries) <$> seq 0 (S n)) ordered) (seq 0 m) ([], []) =
      Ok (E:=error) (range_at kepts <$> seq 0 m, concat kepts)).
  { induction m as [|m IH]; intros Hm.
    { exists []. split_and!; [constructor|cbn; lia|done]. }
    destruct IH as (kepts & Hf & Hlen & E); [lia|].
    pose proof (base_of_mono (S m) n entries Hm) as Hb. rewrite (base_of_all n) in Hb by done.
    rewrite base_of_succ in Hb.
    rewrite seq_S, foldM_app, E; cbn [obind foldM]. unfold sort_group.
    rewrite (vec_get_nat_ok _ m (base_of m entries)) by (by rewrite list_lookup_fmap, lookup_seq_lt by lia).
    rewrite (vec_get_nat_ok _ (S m) (base_of (S m) entries)) by (by rewrite list_lookup_fmap, lookup_seq_lt by lia).
    cbn [obind fst snd Nat.add]. rewrite Hord by lia. fold path_le.
    change (fun a b => match slice_cmp (bytes a) (bytes b) with Gt => false | _ => true end) with path_le.
    rewrite u32_small by lia.
    destruct (keep_paths_ok (concat kepts) (sort_by path_le (run_of m entries)) []) as (kept & Ek & Hs & Hin & Hsub).
    { rewrite length_sort_by, length_run_of. cbn. lia. }
    { apply sort_by_sorted; [apply path_le_total|apply path_le_trans]. }
    { constructor. }
    { done. }
    rewrite app_nil_r in Ek. rewrite Ek. cbn [app] in *.
    pose proof (sublist_length _ _ Hsub) as Hkl. rewrite length_sort_by, length_run_of in Hkl.
    exists (kepts ++ [kept]). pose proof (Forall2_length _ _ _ Hf) as Hlk. rewrite length_seq in Hlk.
    split_and!.
    - apply Forall2_app; [done|]. constructor; [|constructor]. split_and!; [done| |done].
      intros p Hp. apply Hin. by apply elem_of_sort_by.
    - rewrite concat_app, length_app. cbn [concat]. rewrite app_nil_r, base_of_succ. lia.
    - rewrite concat_app. cbn [concat]. rewrite app_nil_r, u32_small by (rewrite length_app; lia).
      rewrite fmap_app. do 2 f_equal. f_equal.
      + apply list_fmap_ext. intros i g Hg. apply lookup_seq in Hg as [-> Hg]. unfold range_at.
        by rewrite !take_app_le by lia.
      + unfold range_at. cbn [fmap list_fmap]. rewrite take_app_le, take_ge by lia.
        rewrite (take_ge (kepts ++ [kept])) by (rewrite length_app; cbn; lia).
        rewrite concat_app. cbn [concat]. by rewrite app_nil_r. }
  destruct (Hgen n) as (kepts & ? & _ & ?); [done|]. eauto.
Qed.
End sorting.

(** ** The index of the sources *)

Section spec.
Context {K : ArrowKernels} {L : ArrowLaws K}.
Context (cols : list string) (shapes : list key_shape) (address_col : string).
Context (Hreadable : readable_shapes shapes).

Lemma sum_runs (m : place -> nat) n (entries : list (nat * place)) :
  Forall (fun e => e.1 < n) entries ->
  sum_list ((fun g => sum_list (m <$> run_of g entries)) <$> seq 0 n) = sum_list ((fun e => m e.2) <$> entries).
Proof.
  intros H. assert (Hgen : forall k, sum_list ((fun g => sum_list (m <$> run_of g entries)) <$> seq 0 k) =
    sum_list ((fun e => m e.2) <$> filter (fun e => e.1 < k) entries)).
  { clear H. induction k as [|k IH].
    - cbn. induction entries as [|e l IHl]; [done|]. rewrite filter_cons. case_decide; [lia|done].
    - rewrite seq_S, fmap_app, sum_list_with_app, IH. csimpl. rewrite Nat.add_0_r. clear IH. unfold run_of.
      induction entries as [|e l IHl]; [done|]. rewrite !filter_cons. repeat case_decide; csimpl; lia. }
  rewrite Hgen. clear Hgen. induction H as [|e l He _ IH]; [done|].
  rewrite filter_cons_True by done. csimpl. by rewrite IH.
Qed.

Lemma sum_list_perm (m : place -> nat) l k : l ≡ₚ k -> sum_list (m <$> l) = sum_list (m <$> k).
Proof. induction 1; csimpl; lia. Qed.

Lemma sum_list_sublist {A} (m : A -> nat) l k : l `sublist_of` k -> sum_list (m <$> l) <= sum_list (m <$> k).
Proof. induction 1; csimpl; lia. Qed.

(** What the built index holds. *)
Definition index_holds (sa : SourceAddresses) (facts : list fact) : Prop :=
  exists keys srcs, sa_ok sa srcs /\ ids_ok shapes (sa_groups sa) keys /\ length srcs = length keys /\
    (forall f, f ∈ facts -> f.1 ∈ keys) /\
    (sa_paths sa <> [] -> facts <> []) /\
    forall g ps l, keys !! g = Some ps -> srcs !! g = Some l -> forall path, path ∈ l <-> (ps, path) ∈ facts.

Lemma sorted_index_ok facts keys g elements entries kepts exact :
  build_ok shapes facts keys (g, elements, entries) -> Forall (fun f => Forall is_u64 f.2) facts ->
  (Z.of_nat (facts_size facts) < 2 ^ 32)%Z ->
  Forall2 (fun i kept => group_kept elements (run_of i entries) kept) (seq 0 (length keys)) kepts ->
  (exact = None \/ exact = Some (exact_index (range_at kepts <$> seq 0 (length keys)) (concat kepts) elements)) ->
  index_holds {| sa_groups := g; sa_ranges := range_at kepts <$> seq 0 (length keys);
                 sa_paths := concat kepts; sa_elements := elements; sa_exact := exact |} facts.
Proof.
  intros Hbo Hu Hsz Hf Hex. pose proof (bo_entries _ _ _ _ Hbo) as Hent. cbn [fst snd] in Hent.
  pose proof (Forall2_length _ _ _ Hf) as Hlk. rewrite length_seq in Hlk.
  assert (Hplace : forall i kept p, kepts !! i = Some kept -> p ∈ kept ->
    exists ps path, keys !! i = Some ps /\ (ps, path) ∈ facts /\
      place_bytes elements p = flat path /\ p.2 = length path /\ Forall is_u64 path).
  { intros i kept p Hi Hp. destruct (Forall2_lookup_r _ _ _ _ _ Hf Hi) as (j & Hj & _ & _ & Hsub).
    apply lookup_seq in Hj as [-> Hj]. cbn in Hsub.
    assert (Hr : p ∈ run_of i entries).
    { eapply elem_of_sort_by. by eapply sublist_elem_of || (eapply elem_of_sublist; done). }
    unfold run_of in Hr. apply list_elem_of_fmap in Hr as ([i' p'] & E & [Hi' Hin]%list_elem_of_filter).
    cbn in E, Hi'. subst. apply list_elem_of_lookup in Hin as [k Hk].
    destruct (Forall2_lookup_l _ _ _ _ _ Hent Hk) as ([ps path] & Hfact & H1 & H2 & H3 & _). cbn in *.
    exists ps, path. apply list_elem_of_lookup_2 in Hfact as Hin. split_and!; try done.
    rewrite Forall_forall in Hu. by apply (Hu (ps, path)). }
  set (path_of p := unflat (place_bytes elements p)).
  assert (Hpath : forall i kept p, kepts !! i = Some kept -> p ∈ kept ->
    place_bytes elements p = flat (path_of p) /\ p.2 = length (path_of p) /\ Forall is_u64 (path_of p)).
  { intros i kept p Hi Hp. destruct (Hplace i kept p Hi Hp) as (ps & path & _ & _ & E & El & Hup).
    unfold path_of. rewrite E, unflat_flat by done. done. }
  assert (Hrange : forall e, e ∈ entries -> e.1 < length keys).
  { intros e [k Hk]%list_elem_of_lookup. destruct (Forall2_lookup_l _ _ _ _ _ Hent Hk) as (f & _ & H1 & _).
    by eapply lookup_lt_Some. }
  exists keys, ((fun kept : list place => path_of <$> kept) <$> kepts). split_and!.
  - split; cbn [sa_ranges sa_paths sa_elements sa_exact].
    + apply Forall2_fmap_r, Forall2_fmap_l, Forall2_same_length_lookup.
      split; [by rewrite length_seq|]. intros i j kept Hj Hi. apply lookup_seq in Hj as [-> Hj].
      unfold compose; cbv beta. rewrite Nat.add_0_l.
      rewrite (range_slice kepts i kept Hi). apply Forall2_fmap_r.
      apply Forall2_same_length_lookup. split; [done|]. intros k p p' Hp Hp'. simplify_eq.
      apply list_elem_of_lookup_2 in Hp. destruct (Hpath i kept p Hi Hp) as (? & ? & _). done.
    + apply Forall_fmap, Forall_lookup. intros i kept Hi. cbn.
      destruct (Forall2_lookup_r _ _ _ _ _ Hf Hi) as (j & _ & Hs & _ & _).
      assert (Hall : Forall (fun p => place_bytes elements p = flat (path_of p) /\ Forall is_u64 (path_of p)) kept).
      { apply Forall_forall. intros p Hp. destruct (Hpath i kept p Hi Hp) as (? & _ & ?). done. }
      clear -Hs Hall. induction Hs as [|p kept Hs IH Hp]; csimpl; constructor.
      * apply IH. by apply Forall_cons in Hall as [_ ?].
      * apply Forall_fmap. apply Forall_cons in Hall as [[E Hup] Hall].
        rewrite Forall_forall in Hp, Hall |- *. intros q Hq. cbn. destruct (Hall q Hq) as [Eq Huq].
        rewrite <- flat_cmp, <- E, <- Eq by done. auto.
    + apply Forall_fmap, Forall_lookup. intros i kept Hi. cbn. apply Forall_fmap, Forall_forall.
      intros p Hp. cbn. apply (Hpath i kept p Hi Hp).
    + rewrite length_fmap, <- Hlk. pose proof (bo_keys _ _ _ _ Hbo). pose proof (facts_size_length facts). lia.
    + eapply Z.le_lt_trans; [|exact Hsz]. apply inj_le. unfold source_size, facts_size.
      rewrite <- list_fmap_compose.
      assert (E : sum_list ((fun f : fact => S (length f.2)) <$> facts) =
                  sum_list ((fun e : nat * place => S e.2.2) <$> entries)).
      { clear -Hent. induction Hent as [|e f es fs (_ & _ & E & _) _ IH]; csimpl; [done|]. lia. }
      rewrite E, <- (sum_runs (fun p => S p.2) (length keys)) by by apply Forall_forall.
      apply sum_list_Forall2, Forall2_same_length_lookup. rewrite length_seq. split; [done|].
      intros i kept j Hi Hj. cbn.
      destruct (Forall2_lookup_lr _ _ _ _ _ _ Hf Hj Hi) as (_ & _ & Hsub).
      apply (sum_list_sublist (fun p => S p.2)) in Hsub.
      rewrite (sum_list_perm (fun p => S p.2) (sort_by (path_le elements) (run_of j entries)) (run_of j entries))
        in Hsub by apply sort_by_Permutation.
      etrans; [|exact Hsub]. rewrite <- list_fmap_compose. apply Nat.eq_le_incl. f_equal.
      apply list_fmap_ext. intros k p Hp%list_elem_of_lookup_2. cbn.
      destruct (Hpath i kept p Hi Hp) as (_ & -> & _). done.
    + exact Hex.
  - apply (bo_ids _ _ _ _ Hbo).
  - by rewrite length_fmap.
  - intros f [i Hi]%list_elem_of_lookup.
    destruct (Forall2_lookup_r _ _ _ _ _ Hent Hi) as (e & _ & H1 & _). by eapply list_elem_of_lookup_2.
  - cbn [sa_paths]. intros Hne ->. destruct (concat kepts) as [|p rest] eqn:E; [done|].
    destruct (proj1 (elem_of_concat p kepts)) as (kept & Hp & [i Hi]%list_elem_of_lookup); [rewrite E; by left|].
    destruct (Hplace i kept p Hi Hp) as (? & ? & _ & H%not_elem_of_nil & _). done.
  - intros i ps l Hi Hl path. rewrite list_lookup_fmap in Hl.
    destruct (kepts !! i) as [kept|] eqn:Ek; cbn in Hl; [|done]. injection Hl as <-. rewrite list_elem_of_fmap. split.
    + intros (p & -> & Hp). destruct (Hplace i kept p Ek Hp) as (ps' & path & Hi' & Hin & E & _ & Hup).
      unfold path_of. rewrite E, unflat_flat by done. by simplify_eq.
    + intros Hin. apply list_elem_of_lookup in Hin as [k Hk].
      destruct (Forall2_lookup_r _ _ _ _ _ Hent Hk) as (e & He & H1 & H2 & _). cbn in H1, H2.
      assert (Hei : e.1 = i).
      { assert (Hsh : Forall2 has_shape ps shapes).
        { apply (Forall_lookup_1 _ _ _ _ (ids_shapes _ _ _ (bo_ids _ _ _ _ Hbo)) Hi). }
        apply (ids_find _ _ _ (bo_ids _ _ _ _ Hbo)) in H1, Hi; [|done..]. congruence. }
      destruct (Forall2_lookup_r _ _ _ _ _ Hf Ek) as (j & Hj & _ & Hall & _).
      apply lookup_seq in Hj as [-> _]. cbn in Hall.
      destruct (Hall e.2) as (q & Hq & Eq).
      { unfold run_of. apply list_elem_of_fmap. exists e. split; [done|].
        apply list_elem_of_filter. split; [done|]. by eapply list_elem_of_lookup_2. }
      exists q. split; [|done]. unfold path_of. rewrite Eq, H2, unflat_flat; [done|].
      rewrite Forall_forall in Hu. apply (Hu (ps, path)). by eapply list_elem_of_lookup_2.
Qed.

Lemma facts_u64 batches : Forall (fun f : fact => Forall is_u64 f.2) (facts_of batches cols address_col).
Proof.
  apply Forall_forall. intros [ps path] (b & row & _ & _ & _ & Hp)%elem_of_facts. by eapply source_path_u64.
Qed.

Lemma build_spec batches :
  keyed batches cols shapes ->
  (Z.of_nat (facts_size (facts_of batches cols address_col)) < 2 ^ 32)%Z ->
  exists sa, SourceAddresses_build batches cols address_col = Ok sa /\
    index_holds sa (facts_of batches cols address_col).
Proof.
  intros Hb Hsz. unfold SourceAddresses_build.
  set (pair := (length cols =? 2) && _). set (groups := if pair then GPair ∅ else GBytes ∅).
  destruct (build_batches_ok cols shapes address_col Hreadable batches [] [] (groups, [], []))
    as ([[g elements] entries] & keys & E & Hbo); [done| |done| |].
  { cbn. unfold groups, pair. destruct (length cols =? 2) eqn:El; cbn [andb]; [|done].
    destruct (forallb _ _) eqn:Ef; [|done]. apply Nat.eqb_eq in El.
    apply Forall_forall. intros b Hin Hrows. rewrite forallb_forall in Ef.
    specialize (Ef b). rewrite forallb_forall in Ef.
    assert (Hints : forall name, name ∈ cols -> is_Some (column_by_name b name ≫= IntColumn_resolve)).
    { intros name Hn. eapply bool_decide_eq_true, Ef; apply list_elem_of_In; [|done].
      by apply list_elem_of_filter. }
    unfold keyed in Hb. rewrite Forall_forall in Hb. destruct (Hb b Hin) as (_ & _ & Hs).
    destruct cols as [|n1 [|n2 [|]]]; try done. cbn in Hs.
    assert (Hshape : forall name, name ∈ [n1; n2] ->
      (column_by_name b name ≫= fun col => key_shape_of (array_type col)) = Some SInt).
    { intros name Hn. specialize (Hints name Hn). destruct (column_by_name b name) as [[]|]; cbn in *; try done;
        by destruct Hints. }
    rewrite (Hshape n1), (Hshape n2) in Hs by set_solver. cbn in Hs. by injection Hs as <-. }
  { split; cbn; [|done|done|constructor]. unfold groups. destruct pair; split; cbn.
    all: try done; try (by left); try apply map_size_empty; try constructor.
    all: intros H'; try done; rewrite lookup_empty in H'; done. }
  rewrite E; cbn [obind]. cbn [app] in *. pose proof (bo_ids _ _ _ _ Hbo) as Hids. cbn in Hids.
  rewrite (ids_len _ _ _ Hids).
  assert (Hk : Forall (fun e : nat * place => e.1 < length keys) entries).
  { apply Forall_lookup. intros i e Hi.
    destruct (Forall2_lookup_l _ _ _ _ _ (bo_entries _ _ _ _ Hbo) Hi) as (f & _ & H1 & _). by eapply lookup_lt_Some. }
  destruct (group_runs_ok (E:=error) (length keys) (0, 0) entries Hk) as (ordered & -> & _ & Hord). cbn [obind].
  destruct (sort_groups_ok elements (length keys) entries ordered Hk) as (kepts & Hf & ->); [|done|].
  { pose proof (Forall2_length _ _ _ (bo_entries _ _ _ _ Hbo)) as Hl. cbn in Hl.
    pose proof (facts_size_length (facts_of batches cols address_col)). lia. }
  cbn [obind]. eexists. split; [done|].
  eapply sorted_index_ok; [done|apply facts_u64|done|done|].
  destruct (_ <? _); [by right|by left].
Qed.
End spec.

(** ** The filter *)

Section filter.
Context {K : ArrowKernels} {L : ArrowLaws K}.

(** A source row of a group with an address. *)
Definition has_source (sources : list RecordBatch) (cols : list string) (address_col : string)
    (ps : list key_part) (path : list Z) : Prop :=
  exists b row, b ∈ sources /\ row < num_rows b /\ key_of b cols row = Some ps /\
    source_path b address_col row = Some path.

Definition is_candidate (candidates : option (list bool)) (row : nat) : Prop :=
  match candidates with None => True | Some c => c !! row = Some true end.

(** A question the index answers by the group's sources. *)
Definition answers (ask : SourceAddresses -> nat -> list Z -> result bool) (Q : list Z -> list Z -> Prop) : Prop :=
  forall sa srcs g l t, sa_ok sa srcs -> srcs !! g = Some l -> Forall is_u64 t ->
    exists found, ask sa g (flat t) = Ok found /\ (found = true <-> exists s, s ∈ l /\ Q s t).

(** What a target row is kept for. *)
Definition kept_for (Q : list Z -> list Z -> Prop) (sources : list RecordBatch) (cols : list string)
    (source_col : string) (b : RecordBatch) (target_cols : list string) (target_col : string)
    (row : nat) : Prop :=
  exists ps target source,
    key_of b target_cols row = Some ps /\ source_path b target_col row = Some target /\
    has_source sources cols source_col ps source /\ Q source target.

Context (ask : SourceAddresses -> nat -> list Z -> result bool) (Q : list Z -> list Z -> Prop)
  (Hask : answers ask Q).
Context (cols target_cols : list string) (shapes : list key_shape) (Hr : readable_shapes shapes).

(** An index without paths is of no sources. *)
Lemma index_empty sa facts : index_holds shapes sa facts -> sa_is_empty sa = true <-> facts = [].
Proof.
  intros (keys & srcs & Hsa & Hids & Hlen & Hkeys & Hne & Hsrcs). unfold sa_is_empty. rewrite bool_decide_eq_true.
  split; intros E; [|destruct (sa_paths sa); [done|by destruct Hne]].
  destruct facts as [|[ps path] facts]; [done|]. exfalso.
  assert (Hin : (ps, path) ∈ (ps, path) :: facts) by by left.
  pose proof (Hkeys _ Hin) as [g Hg]%list_elem_of_lookup.
  destruct (lookup_lt_is_Some_2 srcs g) as [l Hl]; [rewrite Hlen; by eapply lookup_lt_Some|].
  apply (Hsrcs g ps l Hg Hl) in Hin. destruct (group_lookup sa srcs Hsa g l Hl) as (range & _ & Hf).
  rewrite E in Hf. unfold slice in Hf. rewrite drop_nil, take_nil in Hf.
  apply Forall2_nil_inv_l in Hf as ->. by apply not_elem_of_nil in Hin.
Qed.

Lemma mask_row_spec sa sources source_col b target_col offsets nulls values row :
  keyed [b] target_cols shapes -> row < num_rows b ->
  index_holds shapes sa (facts_of sources cols source_col) ->
  address_list b target_col = Some (offsets, nulls, values) -> is_valid_in nulls row = true ->
  exists found,
    (let* group := row_group sa (match sa_groups sa with GPair _ => pair_keys b target_cols | GBytes _ => None end)
                     (typed_key_columns b target_cols) row in
     match group with
     | None => Ok false
     | Some group => ask sa group (row_bytes offsets (join_key_bytes values) row)
     end) = Ok found /\
    (found = true <-> kept_for Q sources cols source_col b target_cols target_col row).
Proof.
  intros Hb Hrow (keys & srcs & Hsa & Hids & Hlen & Hkeys & _ & Hsrcs) Ha Hv.
  rewrite (row_group_spec target_cols shapes sa keys) by done. cbn [obind]. rewrite row_bytes_flat.
  assert (Ep : source_path b target_col row = Some (stored_key <$>
    slice (ic_values values) (offset_at offsets row) (offset_at offsets (S row)))).
  { unfold source_path. rewrite Ha; cbn. by rewrite Hv. }
  set (path := stored_key <$> _) in *. unfold kept_for.
  destruct (key_of b target_cols row) as [ps|] eqn:Ek; cbn [mbind option_bind].
  2: { exists false. split; [done|]. split; [done|]. by intros (ps & ? & ? & ? & _). }
  pose proof (keyed_shape target_cols shapes b row ps Hb Hrow Ek) as Hsh.
  destruct (groups_find (sa_groups sa) ps) as [g|] eqn:Eg.
  - apply (ids_find _ _ _ Hids ps g Hsh) in Eg.
    destruct (lookup_lt_is_Some_2 srcs g) as [l Hl]; [rewrite Hlen; by eapply lookup_lt_Some|].
    destruct (Hask sa srcs g l path Hsa Hl) as (found & Ef & Hfound); [apply stored_keys_u64|].
    exists found. split; [exact Ef|]. rewrite Hfound. specialize (Hsrcs g ps l Eg Hl). split.
    + intros (s & Hs & Hrel). apply Hsrcs, elem_of_facts in Hs. by exists ps, path, s.
    + intros (ps' & t & s & [= <-] & Et & Hs & Hrel). rewrite Ep in Et. injection Et as <-.
      exists s. split; [|done]. apply Hsrcs. by apply elem_of_facts.
  - exists false. split; [done|]. split; [done|]. intros (ps' & t & s & [= <-] & _ & Hs & _).
    apply elem_of_facts in Hs.
    specialize (Hkeys _ Hs). cbn in Hkeys. apply list_elem_of_lookup in Hkeys as [g Hg].
    apply (ids_find _ _ _ Hids ps g Hsh) in Hg. congruence.
Qed.

Lemma sa_mask_spec sa sources source_col b target_col candidates :
  keyed [b] target_cols shapes -> index_holds shapes sa (facts_of sources cols source_col) ->
  exists kept, sa_mask sa b target_cols target_col candidates ask = Ok (of_bools kept) /\
    length kept = num_rows b /\
    forall row, row < num_rows b -> kept !! row = Some true <->
      is_candidate candidates row /\ kept_for Q sources cols source_col b target_cols target_col row.
Proof.
  intros Hb Hsa. unfold sa_mask.
  destruct (address_list b target_col) as [[[offsets nulls] values]|] eqn:Ha.
  2: { exists (replicate (num_rows b) false). rewrite length_replicate. split_and!; [done|done|].
       intros row Hrow. rewrite lookup_replicate_2 by done. split; [done|].
       intros (_ & ps & t & s & _ & Ht & _). unfold source_path in Ht. by rewrite Ha in Ht. }
  set (asked row := match candidates with None => true | Some c => default false (c !! row) end).
  assert (Hasked : forall row, asked row = true <-> is_candidate candidates row).
  { intros row. unfold asked, is_candidate. destruct candidates as [c|]; [|done].
    destruct (c !! row) as [[]|]; cbn; naive_solver. }
  edestruct (mapM_seq_decides (E:=error)) as (kept & Ek & Hl & Hk);
    [|exists kept; cbv zeta; rewrite Ek; cbn [obind]; split_and!; [done|exact Hl|exact Hk]].
  intros row Hrow. cbv beta. fold (asked row). destruct (asked row) eqn:Easked; cbn [negb andb].
  2: { exists false. split; [done|]. split; [done|]. intros [Hc _]. apply Hasked in Hc. congruence. }
  apply Hasked in Easked. destruct (is_valid_in nulls row) eqn:Hv; cbn [negb].
  - destruct (mask_row_spec sa sources source_col b target_col offsets nulls values row)
      as (found & Ef & Hf); [done..|]. exists found. split; [exact Ef|]. rewrite Hf. tauto.
  - exists false. split; [done|]. split; [done|]. intros (_ & ps & t & s & _ & Ht & _).
    unfold source_path in Ht. rewrite Ha in Ht; cbn in Ht. by rewrite Hv in Ht.
Qed.
End filter.

(** C34: A relation's filter, built of its source rows, keeps exactly the candidate
    rows of a target batch whose address is related to the address of a source
    row of the same group - above it for children, below it for parents, the same
    only where the relation includes it - compared by value whatever widths the
    two sides store; building and filtering never fail or panic on batches that
    hold the group columns. *)
Theorem hierarchical_filter_spec {K : ArrowKernels} {L : ArrowLaws K}
    sources cols shapes source_col target_col mode inclusive :
  readable_shapes shapes -> keyed sources cols shapes ->
  (Z.of_nat (facts_size (facts_of sources cols source_col)) < 2 ^ 32)%Z ->
  exists f, HierarchicalFilter_build sources cols source_col target_col mode inclusive = Ok f /\
    forall b candidates, keyed [b] cols shapes ->
      exists kept, hf_mask f b candidates = Ok (of_bools kept) /\ length kept = num_rows b /\
        forall row, row < num_rows b -> kept !! row = Some true <->
          is_candidate candidates row /\
          exists ps target source,
            key_of b cols row = Some ps /\ source_path b target_col row = Some target /\
            has_source sources cols source_col ps source /\ related mode inclusive source target.
Proof.
  intros Hr Hs Hsz. destruct (build_spec cols shapes source_col Hr sources Hs Hsz) as (sa & E & Hsa).
  unfold HierarchicalFilter_build, AddressIndex_build. rewrite E; cbn [obind].
  eexists; split; [done|]. intros b candidates Hb.
  apply (sa_mask_spec _ (related mode inclusive)) with (shapes := shapes); [|done..].
  intros sa' srcs g l t Hok Hl Ht. by apply (relates_spec sa' srcs).
Qed.

(** ** Witness *)

Import ArrowInstances.

Definition source_calls : list RecordBatch :=
  [ {| columns := [("block"%string, AInt UInt32 [7; 7; 8]%Z None);
                   ("address"%string,
                    AList [0; 1; 3; 3]%Z (AInt UInt16 [0; 0; 1]%Z None) (Some [true; true; false]))];
       num_rows := 3 |} ].

Definition target_calls : RecordBatch :=
  {| columns := [("block"%string, AInt UInt64 [7; 8; 7]%Z None);
                 ("address"%string, AList [0; 2; 4; 5]%Z (AInt UInt32 [0; 1; 0; 1; 0]%Z None) None)];
     num_rows := 3 |}.

Lemma source_calls_keyed : keyed source_calls ["block"%string] [SInt].
Proof.
  constructor; [|constructor]. split_and!; [|repeat constructor; cbn -[Z.pow]; lia|reflexivity].
  unfold batch_ok; cbn -[Z.pow]. repeat constructor; cbn -[Z.pow]; try lia; try done.
Qed.

Lemma target_calls_keyed : keyed [target_calls] ["block"%string] [SInt].
Proof.
  constructor; [|constructor]. split_and!; [|repeat constructor; cbn -[Z.pow]; lia|reflexivity].
  unfold batch_ok; cbn -[Z.pow]. repeat constructor; cbn -[Z.pow]; try lia; try done.
Qed.

(** The filter picks the call below a source and no other. *)
Example filter_children :
  (let* f := HierarchicalFilter_build source_calls ["block"%string] "address" "address" Children false in
   hf_mask f target_calls None) = Ok (of_bools [true; false; false]).
Proof. vm_compute. reflexivity. Qed.

Lemma hierarchical_filter_spec_witness :
  exists f, HierarchicalFilter_build source_calls ["block"%string] "address" "address" Children false = Ok f /\
    forall b candidates, keyed [b] ["block"%string] [SInt] ->
      exists kept, hf_mask f b candidates = Ok (of_bools kept) /\ length kept = num_rows b /\
        forall row, row < num_rows b -> kept !! row = Some true <->
          is_candidate candidates row /\
          exists ps target source,
            key_of b ["block"%string] row = Some ps /\ source_path b "address" row = Some target /\
            has_source source_calls ["block"%string] "address" ps source /\
            related Children false source target.
Proof.
  apply (hierarchical_filter_spec source_calls ["block"%string] [SInt]).
  - constructor; [by left|constructor].
  - exact source_calls_keyed.
  - vm_compute. reflexivity.
Defined.
