(* ===== verification/Keys.v ===== *)
(** The keys a relation scan keeps its target's rows by (src/scan/keys.rs): the
    composite-key set in its four forms, the set built of a relation's source
    rows, the filter by the identity of rows of one table, and the masks they
    give a batch.

    Arrow's row format (the bytes of a row's columns) is third-party code: the
    class [RowFormat], with its documented promise in [RowFormatLaws]. *)
From stdpp Require Import base strings list gmap sorting.
From Stdlib Require Import ZArith Lia.
From S2P Require Import Prelude Machine ListLib Errors Arrow ArrowReference Integers Counting Pairs KeyColumns SemiJoin Addresses AddressLookup AddressBuild.

#[local] Open Scope nat_scope.

(** ** Arrow's row format *)

Class RowFormat := {
  (** [RowConverter::new] of these column types succeeds. *)
  row_supported : list data_type -> bool;
  (** [RowConverter::convert_columns]: each row's bytes. *)
  convert_columns : list data_type -> list array -> list (list Z);
}.

(** Arrays of the converter's types, all of one length. *)
Definition row_arrays (fields : list data_type) (n : nat) (arrays : list array) : Prop :=
  Forall2 (fun a t => array_type a = t /\ array_ok a /\ array_len a = n) arrays fields.

Class RowFormatLaws (R : RowFormat) : Prop := {
  convert_columns_length : forall fields n arrays,
    row_supported fields = true -> fields <> [] -> row_arrays fields n arrays ->
    length (convert_columns fields arrays) = n;
  (** Rows have the same bytes exactly when their columns hold the same values. *)
  convert_columns_eq : forall fields n m arrays arrays' i j,
    row_supported fields = true -> fields <> [] -> row_arrays fields n arrays -> row_arrays fields m arrays' ->
    i < n -> j < m ->
    convert_columns fields arrays !! i = convert_columns fields arrays' !! j <->
    (fun a => cell_at a i) <$> arrays = (fun a => cell_at a j) <$> arrays';
}.

(** ** Key sets *)

(** [src/src/scan/keys.rs:22-39] CompositeKeySet. *)
Inductive CompositeKeySet :=
  | Fixed16 (pairs : PairSet)
  | PairPath (sources : SourceAddresses)
  | Wide (keys : gset (list Z))
  | RowIds (converter : list data_type) (values : gset (list Z)).

(** [src/src/scan/keys.rs:42-50] CompositeKeySet::is_empty. *)
Definition key_set_is_empty (s : CompositeKeySet) : bool :=
  match s with
  | Fixed16 s => pairs_is_empty s
  | PairPath s => sa_is_empty s
  | Wide s => bool_decide (s = ∅)
  | RowIds _ values => bool_decide (values = ∅)
  end.

(** [src/src/scan/keys.rs:53-67] KeyFilter. *)
Record KeyFilter := {
  kf_columns : list string;
  kf_key_set : CompositeKeySet;
  kf_sorted_blocks : list Z;
  kf_block_number_column : string;
  kf_materialization : bool;
}.

(** [src/src/scan/keys.rs:209-221] KeySet. *)
Record KeySet := {
  ks_key_set : CompositeKeySet;
  ks_sorted_blocks : list Z;
  ks_width : nat;
  ks_readable : bool;
}.

(** [src/src/scan/keys.rs:351-355] sorted. *)
Definition sorted (blocks : gset Z) : list Z := set_to_ascending blocks.

(** [src/src/scan/keys.rs:357-373] extract_block_numbers. *)
Definition extract_block_numbers (col : array) (rows : null_buffer) (out : gset Z) : gset Z :=
  match IntColumn_resolve col with
  | None => out
  | Some reader =>
      fold_left (fun out row =>
        if is_valid_in rows row then {[int_block_number reader row]} ∪ out else out)
        (seq 0 (int_len reader)) out
  end.

Section kernels.
Context {K : ArrowKernels}.

(** [src/src/scan/keys.rs:L264-269] KeySet::build: a pair path's blocks. *)
Definition complete_blocks (left_keys : list string) (primary_bn_col : string)
    (block_numbers : gset Z) (batch : RecordBatch) : gset Z :=
  match column_by_name batch primary_bn_col with
  | Some col => extract_block_numbers col (complete_keys batch left_keys) block_numbers
  | None => block_numbers
  end.

(** [src/src/scan/keys.rs:L276-295] KeySet::build: a batch's pairs. The state is
    the blocks, the pairs and whether every key column was read. *)
Definition pairs_of_batch (left_keys : list string) (primary_bn_col : string)
    (st : gset Z * list (Z * Z) * bool) (batch : RecordBatch)
    : result (gset Z * list (Z * Z) * bool) :=
  let '(block_numbers, pairs, readable) := st in
  if num_rows batch =? 0 then Ok st else
  match pair_keys batch left_keys with
  | None => Ok (block_numbers, pairs, false)
  | Some (first, second, nulls) =>
      let block_numbers :=
        match column_by_name batch primary_bn_col with
        | Some col => extract_block_numbers col nulls block_numbers
        | None => block_numbers
        end in
      let* more := mapM_ok (fun row =>
          let* a := vec_get first row in
          let* b := vec_get second row in
          Ok (a, b))
        (filter (fun row => is_valid_in nulls row = true) (seq 0 (num_rows batch))) in
      Ok (block_numbers, pairs ++ more, readable)
  end.

(** [src/src/scan/keys.rs:L297-319] KeySet::build: a batch's keys as bytes. *)
Definition bytes_of_batch (left_keys : list string) (primary_bn_col : string)
    (st : gset Z * gset (list Z)) (batch : RecordBatch) : result (gset Z * gset (list Z)) :=
  if num_rows batch =? 0 then Ok st else
  let block_numbers := complete_blocks left_keys primary_bn_col st.1 batch in
  let typed_cols := typed_key_columns batch left_keys in
  let* set := foldM (fun (set : gset (list Z)) row =>
      let* key := bytes_key typed_cols row in
      Ok match key with Some key => {[key]} ∪ set | None => set end)
    (seq 0 (num_rows batch)) st.2 in
  Ok (block_numbers, set).

(** [primary_batches.iter().find(|b| b.num_rows() > 0)]. *)
Definition first_with_rows (batches : list RecordBatch) : option RecordBatch :=
  head (filter (fun b => 0 < num_rows b) batches).

(** [src/src/scan/keys.rs:L232-246] KeySet::build: two integer key columns. *)
Definition use_fixed16 (batches : list RecordBatch) (left_keys : list string) : bool :=
  (length left_keys =? 2) &&
  match first_with_rows batches with
  | Some b => forallb (fun name =>
      match column_by_name b name ≫= TypedKeyColumn_resolve with
      | Some tc => key_is_integer tc
      | None => false
      end) left_keys
  | None => false
  end.

(** [src/src/scan/keys.rs:L248-260] KeySet::build: two integer key columns and a
    path. *)
Definition use_pair_path (batches : list RecordBatch) (left_keys : list string) : bool :=
  match left_keys, first_with_rows batches with
  | [k0; k1; k2], Some b =>
      let int name := bool_decide (is_Some (column_by_name b name ≫= IntColumn_resolve)) in
      int k0 && int k1 && bool_decide (is_Some (address_list b k2))
  | _, _ => false
  end.

(** [src/src/scan/keys.rs:224-327] KeySet::build. *)
Definition KeySet_build (primary_batches : list RecordBatch) (left_keys : list string)
    (primary_bn_col : string) : result KeySet :=
  let readable := keys_readable primary_batches left_keys in
  let* built :=
    if use_pair_path primary_batches left_keys then
      let block_numbers :=
        fold_left (complete_blocks left_keys primary_bn_col) primary_batches ∅ in
      let* key2 := vec_get left_keys 2 in
      let* sources := SourceAddresses_build primary_batches (take 2 left_keys) key2 in
      Ok (PairPath sources, block_numbers, readable)
    else if use_fixed16 primary_batches left_keys then
      let* st := foldM (pairs_of_batch left_keys primary_bn_col) primary_batches (∅, [], readable) in
      let '(block_numbers, pairs, readable) := st in
      let* set := PairSet_new pairs in
      Ok (Fixed16 set, block_numbers, readable)
    else
      let* st := foldM (bytes_of_batch left_keys primary_bn_col) primary_batches (∅, ∅) in
      Ok (Wide st.2, st.1, readable) in
  let '(key_set, block_numbers, readable) := built in
  Ok {| ks_key_set := key_set; ks_sorted_blocks := sorted block_numbers;
        ks_width := length left_keys; ks_readable := readable |}.

(** [src/src/scan/keys.rs:329-334] KeySet::matches_nothing. *)
Definition ks_matches_nothing (self : KeySet) : bool :=
  ks_readable self && key_set_is_empty (ks_key_set self).

(** [src/src/scan/keys.rs:336-348] KeySet::filter. [assert_eq!] is a panic. *)
Definition ks_filter (self : KeySet) (right_keys : list string) (target_bn_col : string)
    : result KeyFilter :=
  if ks_width self =? length right_keys then
    Ok {| kf_columns := right_keys; kf_key_set := ks_key_set self;
          kf_sorted_blocks := ks_sorted_blocks self; kf_block_number_column := target_bn_col;
          kf_materialization := false |}
  else Panic.

(** [src/src/scan/keys.rs:131-146] KeyFilter::build. *)
Definition KeyFilter_build (primary_batches : list RecordBatch) (left_keys right_keys : list string)
    (primary_bn_col target_bn_col : string) : result KeyFilter :=
  let* keys := KeySet_build primary_batches left_keys primary_bn_col in
  ks_filter keys right_keys target_bn_col.

(** [src/src/scan/keys.rs:148-150] KeyFilter::is_empty. *)
Definition kf_is_empty (self : KeyFilter) : bool := key_set_is_empty (kf_key_set self).

(** [src/src/scan/keys.rs:179-185] KeyFilter::has_block_within. *)
Definition has_block_within (self : KeyFilter) (min max : Z) : bool :=
  let first := partition_point (fun block => (block <? min)%Z) (kf_sorted_blocks self) in
  match kf_sorted_blocks self !! first with
  | Some block => (block <=? max)%Z
  | None => false
  end.

(** [src/src/scan/keys.rs:187-192] KeyFilter::checks_blocks_first. *)
Definition checks_blocks_first (self : KeyFilter) : bool := kf_materialization self.

Context {R : RowFormat}.

(** The arrays of some columns: an absent one is an error. *)
Definition columns_of (batch : RecordBatch) (cols : list string) : result (list array) :=
  mapM_ok (fun name => ok_or (column_by_name batch name) OtherError) cols.

(** [RowConverter::convert_columns]: other types than the converter's are an
    error. *)
Definition convert (converter : list data_type) (arrays : list array) : result (list (list Z)) :=
  let* _ := ensure (bool_decide (array_type <$> arrays = converter)) OtherError in
  Ok (convert_columns converter arrays).

(** [src/src/scan/keys.rs:L107-121] KeyFilter::for_rows: a batch's row bytes and
    blocks. *)
Definition identities_of_batch (converter : list data_type) (cols : list string)
    (block_column : string) (st : gset (list Z) * gset Z) (batch : RecordBatch)
    : result (gset (list Z) * gset Z) :=
  let* arrays := columns_of batch cols in
  let* rows := convert converter arrays in
  let blocks :=
    match column_by_name batch block_column with
    | Some column => extract_block_numbers column None st.2
    | None => st.2
    end in
  Ok (list_to_set rows ∪ st.1, blocks).

(** [src/src/scan/keys.rs:70-129] KeyFilter::for_rows. *)
Definition for_rows (batches : list RecordBatch) (cols : list string) (block_column : string)
    : result KeyFilter :=
  let* first := ok_or (head batches) (EngineError MalformedChunkData) in
  let* first_arrays := columns_of first cols in
  if forallb (fun batch => forallb (fun name =>
      match column_by_name batch name with
      | Some column =>
          (null_count column =? 0) &&
          (is_integer (array_type column) || bool_decide (array_type column = DText Utf8))
      | None => false
      end) cols) batches
  then
    let* filter := KeyFilter_build batches cols cols block_column block_column in
    Ok {| kf_columns := kf_columns filter; kf_key_set := kf_key_set filter;
          kf_sorted_blocks := kf_sorted_blocks filter;
          kf_block_number_column := kf_block_number_column filter; kf_materialization := true |}
  else
    let converter := array_type <$> first_arrays in
    let* _ := ensure (row_supported converter) OtherError in
    let* st := foldM (identities_of_batch converter cols block_column) batches (∅, ∅) in
    Ok {| kf_columns := cols; kf_key_set := RowIds converter st.1; kf_sorted_blocks := sorted st.2;
          kf_block_number_column := block_column; kf_materialization := true |}.

(** [src/src/scan/keys.rs:375-455] composite_key_in_set_mask. *)
Definition composite_key_in_set_mask (batch : RecordBatch) (key_columns : list string)
    (key_set : CompositeKeySet) (candidates : option (list bool)) : result mask :=
  let candidate row := match candidates with None => true | Some c => default false (c !! row) end in
  let len := num_rows batch in
  match key_set with
  | RowIds converter values =>
      let* arrays := columns_of batch key_columns in
      let* rows := convert converter arrays in
      Ok (of_bools ((fun row => bool_decide (row ∈ values)) <$> rows))
  | Fixed16 set =>
      match pair_keys batch key_columns with
      | None => Ok (of_bools (replicate len false))
      | Some (first, second, nulls) =>
          let* found := mapM_ok (fun row =>
              if candidate row then
                let* a := vec_get first row in
                let* b := vec_get second row in
                pairs_contains set a b
              else Ok false) (seq 0 len) in
          Ok (of_bools match nulls with
                       | Some valid => zip_with andb found valid
                       | None => found
                       end)
      end
  | Wide set =>
      let typed_cols := typed_key_columns batch key_columns in
      let* found := mapM_ok (fun row =>
          if negb (candidate row) then Ok false else
          let* key := bytes_key typed_cols row in
          Ok match key with Some key => bool_decide (key ∈ set) | None => false end) (seq 0 len) in
      Ok (of_bools found)
  | PairPath sources =>
      let* address_column := vec_get key_columns 2 in
      sa_mask sources batch (take 2 key_columns) address_column candidates
        (fun sources group path => holds sources group path)
  end.

(** [src/src/scan/keys.rs:194-201] KeyFilter::mask. *)
Definition kf_mask (self : KeyFilter) (batch : RecordBatch) (candidates : option (list bool))
    : result mask :=
  composite_key_in_set_mask batch (kf_columns self) (kf_key_set self) candidates.
End kernels.

(** ** Keys of the sources *)

Section proofs.
Context {K : ArrowKernels} {L : ArrowLaws K} {R : RowFormat}.

Lemma keyed_elem batches cols shapes b : keyed batches cols shapes -> b ∈ batches -> keyed [b] cols shapes.
Proof. unfold keyed. intros H Hb. rewrite Forall_forall in H. constructor; [by apply H|constructor]. Qed.

(** A complete key is one whose columns all hold a value. *)
Lemma complete_keys_spec b cols shapes row :
  keyed [b] cols shapes -> readable_shapes shapes -> row < num_rows b ->
  is_valid_in (complete_keys b cols) row = true <-> is_Some (key_of b cols row).
Proof.
  intros H Hr Hrow. apply Forall_inv in H as (Hok & _ & Hs). unfold complete_keys.
  set (valid name := match column_by_name b name with
    Some c => logically_valid c row | None => true end).
  assert (Hnulls : forall names,
    Forall (fun n : list bool => length n = num_rows b)
      (omap (fun name => c ← column_by_name b name; logical_nulls c) names) /\
    forallb (fun n : list bool => is_valid_in (Some n) row)
      (omap (fun name => c ← column_by_name b name; logical_nulls c) names) = forallb valid names).
  { induction names as [|name names [IH1 IH2]]; [done|].
    set (f := fun name => c ← column_by_name b name; logical_nulls c) in *.
    change (omap f (name :: names)) with
      (match f name with Some n => n :: omap f names | None => omap f names end).
    assert (Ef : f name = match column_by_name b name with Some c => logical_nulls c | None => None end).
    { unfold f. by destruct (column_by_name b name). }
    rewrite Ef. cbn [forallb]. unfold valid at 1.
    destruct (column_by_name b name) as [c|] eqn:Ec; cbn [mbind option_bind]; [|by split].
    destruct (column_ok b name c Hok Ec) as [Hc Hlc].
    destruct (logical_nulls_valid c row Hc) as [Hn Hv]. rewrite <- Hv by lia.
    destruct (logical_nulls c) as [n|]; cbn [nulls_ok] in Hn; [|by split].
    split; [constructor; [congruence|done]|]. cbn [forallb]. by rewrite IH2. }
  assert (Hfold : forall ns (first : null_buffer),
    nulls_ok first (num_rows b) -> Forall (fun n : list bool => length n = num_rows b) ns ->
    is_valid_in (fold_left (fun all n => null_union all (Some n)) ns first) row =
    is_valid_in first row && forallb (fun n : list bool => is_valid_in (Some n) row) ns).
  { induction ns as [|n ns IH]; intros first Hf Hns; cbn [fold_left forallb]; [by rewrite andb_true_r|].
    apply Forall_cons in Hns as [Hn Hns].
    destruct (null_union_valid first (Some n) (num_rows b) row Hf Hn) as (Hu & Hv & _).
    rewrite IH by done. by rewrite Hv, andb_assoc. }
  destruct (Hnulls cols) as [H1 H2].
  assert (Hall : is_valid_in match omap (fun name => c ← column_by_name b name; logical_nulls c) cols with
    | [] => None
    | first :: rest => fold_left (fun all n => null_union all (Some n)) rest (Some first)
    end row = forallb valid cols).
  { rewrite <- H2. destruct (omap _ cols) as [|n ns]; [done|]. apply Forall_cons in H1 as [Hn Hns].
    by rewrite Hfold. }
  rewrite Hall. clear Hall Hfold Hnulls H1 H2. revert shapes Hs Hr.
  induction cols as [|name names IH]; intros shapes Hs Hr; [by split; [eexists|]|].
  rewrite key_of_cons. cbn in Hs. cbn [forallb]. unfold valid at 1.
  destruct (column_by_name b name) as [col|] eqn:Ec; cbn in Hs |- *; [|done].
  destruct (key_shape_of (array_type col)) as [s|] eqn:Es; cbn in Hs; [|done].
  destruct (mapM _ names) as [ss|] eqn:Ess; cbn in Hs; [|done]. injection Hs as <-.
  apply Forall_cons in Hr as [Hr1 Hr]. specialize (IH ss eq_refl Hr).
  rewrite andb_true_iff, IH.
  assert (Hp : logically_valid col row = true <-> is_Some (part_at col row)).
  { replace (logically_valid col row) with (is_valid_in (array_nulls col) row)
      by (destruct col; cbn in *; rewrite ?andb_true_r; done).
    unfold part_at, is_null. destruct (is_valid_in (array_nulls col) row); cbn; [|split; [done|by intros []]].
    destruct col as [| | | |o [] n| | | | |]; cbn in *; try done. }
  rewrite Hp. destruct (part_at col row) as [p|]; cbn; [|split; [intros [[] _]; done|by intros []]].
  destruct (key_of b names row); cbn; split; try done; by intros [_ []].
Qed.

(** A row's block, where the block column is read. *)
Definition block_of (b : RecordBatch) (bn : string) (row : nat) : option Z :=
  col ← column_by_name b bn;
  reader ← IntColumn_resolve col;
  Some (int_block_number reader row).

Lemma extract_block_numbers_spec col rows out x :
  x ∈ extract_block_numbers col rows out <->
  x ∈ out \/ exists reader row, IntColumn_resolve col = Some reader /\ row < int_len reader /\
    is_valid_in rows row = true /\ int_block_number reader row = x.
Proof.
  unfold extract_block_numbers. destruct (IntColumn_resolve col) as [reader|].
  2: { split; [by left|]. intros [|(? & ? & ? & _)]; done. }
  assert (Hgen : forall l (out : gset Z), x ∈ fold_left (fun out row =>
      if is_valid_in rows row then {[int_block_number reader row]} ∪ out else out) l out <->
    x ∈ out \/ exists row, row ∈ l /\ is_valid_in rows row = true /\ int_block_number reader row = x).
  { clear out. induction l as [|row l IH]; intros out; cbn [fold_left].
    { split; [by left|]. intros [|(row & Hr%not_elem_of_nil & _)]; done. }
    rewrite IH. setoid_rewrite elem_of_cons. destruct (is_valid_in rows row) eqn:Ev.
    - rewrite elem_of_union, elem_of_singleton. split.
      + intros [[->|]|(r & ? & ? & ?)]; [right; exists row; auto|by left|right; eauto].
      + intros [|(r & [->|] & ? & <-)]; [auto|auto|right; eauto].
    - split; [intros [|(r & ? & ? & ?)]; [by left|right; eauto]|].
      intros [|(r & [->|] & ? & ?)]; [by left|congruence|right; eauto]. }
  rewrite Hgen. split; (intros [|H]; [by left|right]).
  - destruct H as (row & Hr%elem_of_seq & ? & ?). exists reader, row. split_and!; try done. lia.
  - destruct H as (r & row & [= <-] & ? & ? & ?). exists row. split_and!; try done. apply elem_of_seq. lia.
Qed.

(** The blocks of the rows [rows] leaves in, of a batch's block column. *)
Lemma batch_blocks b bn rows out x :
  batch_ok b ->
  x ∈ match column_by_name b bn with
      | Some col => extract_block_numbers col rows out
      | None => out
      end <->
  x ∈ out \/ exists row, row < num_rows b /\ is_valid_in rows row = true /\ block_of b bn row = Some x.
Proof.
  intros Hok. unfold block_of. destruct (column_by_name b bn) as [col|] eqn:Ec; cbn.
  2: { split; [by left|]. intros [|(? & _ & _ & ?)]; done. }
  destruct (column_ok b bn col Hok Ec) as [_ Hl]. rewrite extract_block_numbers_spec.
  split; (intros [|H]; [by left|right]).
  - destruct H as (r & row & Er & Hrow & ? & <-). exists row. rewrite Er. split_and!; try done.
    rewrite <- Hl. destruct col; try done. cbn in Er. injection Er as <-. done.
  - destruct H as (row & Hrow & ? & E). destruct (IntColumn_resolve col) as [r|] eqn:Er; cbn in E; [|done].
    injection E as <-. exists r, row. split_and!; try done.
    rewrite <- Hl in Hrow. destruct col; try done. cbn in Er. injection Er as <-. done.
Qed.

(** The blocks of the source rows with a complete key. *)
Definition key_block (sources : list RecordBatch) (cols : list string) (bn : string) (x : Z) : Prop :=
  exists b row, b ∈ sources /\ row < num_rows b /\ is_Some (key_of b cols row) /\ block_of b bn row = Some x.

Lemma key_block_cons b bs cols bn x :
  key_block (b :: bs) cols bn x <->
  (exists row, row < num_rows b /\ is_Some (key_of b cols row) /\ block_of b bn row = Some x) \/
  key_block bs cols bn x.
Proof.
  unfold key_block. setoid_rewrite elem_of_cons. split.
  - intros (b' & row & [->|Hin] & Hrow); [left|right]; eauto.
  - intros [(row & Hrow)|(b' & row & Hin & Hrow)]; [exists b, row|exists b', row]; auto.
Qed.

Lemma complete_blocks_spec b cols shapes bn out x :
  keyed [b] cols shapes -> readable_shapes shapes ->
  x ∈ complete_blocks cols bn out b <-> x ∈ out \/ exists row,
    row < num_rows b /\ is_Some (key_of b cols row) /\ block_of b bn row = Some x.
Proof.
  intros H Hr. unfold complete_blocks. rewrite batch_blocks by by apply Forall_inv in H as [].
  split; (intros [|(row & Hrow & Hv & ?)]; [by left|right; exists row]); split_and!; try done;
    by apply (complete_keys_spec b cols shapes).
Qed.

(** ** What each form holds *)

(** A key set that holds the keys of the sources, and their blocks. *)
Definition holds_keys (key_set : CompositeKeySet) (sources : list RecordBatch) (left : list string)
    (shapes : list key_shape) : Prop :=
  forall right b candidates, length right = length left -> keyed [b] right shapes ->
    exists kept, composite_key_in_set_mask b right key_set candidates = Ok (of_bools kept) /\
      length kept = num_rows b /\
      forall row, row < num_rows b -> kept !! row = Some true <->
        is_candidate candidates row /\ exists ps, key_of b right row = Some ps /\ has_key sources left ps.

Lemma is_candidate_bool candidates row :
  match candidates with None => true | Some c => default false (c !! row) end = true <->
  is_candidate candidates row.
Proof.
  unfold is_candidate. destruct candidates as [c|]; [|done]. destruct (c !! row) as [[]|]; cbn; split; congruence.
Qed.

Lemma has_key_cons b bs cols ps :
  has_key (b :: bs) cols ps <->
  (exists row, row < num_rows b /\ key_of b cols row = Some ps) \/ has_key bs cols ps.
Proof.
  unfold has_key. setoid_rewrite elem_of_cons. split.
  - intros (b' & row & [->|Hin] & Hrow); [left|right]; eauto.
  - intros [(row & Hrow)|(b' & row & Hin & Hrow)]; [exists b, row|exists b', row]; auto.
Qed.

(** *** Bytes *)

Lemma has_key_bytes sources left shapes b right row ps :
  keyed sources left shapes -> keyed [b] right shapes -> row < num_rows b ->
  key_of b right row = Some ps ->
  (exists qs, has_key sources left qs /\ qs ≫= encode_part = ps ≫= encode_part) <-> has_key sources left ps.
Proof.
  intros Hs Hb Hrow Hk. split; [|eauto]. intros (qs & Hqs & E).
  assert (qs = ps) as <-; [|done]. destruct Hqs as (b' & row' & Hin & Hrow' & Hk').
  apply (encode_parts_inj qs ps shapes); [|by eapply keyed_shape|done].
  eapply keyed_shape; [exact (keyed_elem _ _ _ _ Hs Hin)|exact Hrow'|done].
Qed.

Lemma bytes_of_batch_spec left (shapes : list key_shape) bn blocks set b :
  keyed [b] left shapes -> readable_shapes shapes ->
  exists st, bytes_of_batch left bn (blocks, set) b = Ok st /\
    (forall x, x ∈ st.1 <-> x ∈ blocks \/ exists row,
      row < num_rows b /\ is_Some (key_of b left row) /\ block_of b bn row = Some x) /\
    (forall k, k ∈ st.2 <-> k ∈ set \/ exists row ps,
      row < num_rows b /\ key_of b left row = Some ps /\ ps ≫= encode_part = k).
Proof.
  intros H Hr. unfold bytes_of_batch. destruct (Nat.eqb_spec (num_rows b) 0) as [E0|E0].
  { exists (blocks, set). cbn. split; [done|]. split; (intros; split; [by left|]).
    - intros [|(row & ? & _)]; [done|lia].
    - intros [|(row & ps & ? & _)]; [done|lia]. }
  cbn [fst snd].
  destruct (foldM_set_ok (fun row => bytes_key (typed_key_columns b left) row)
    (fun row => (fun ps => ps ≫= encode_part) <$> key_of b left row) (seq 0 (num_rows b)) set)
    as (set' & E & Hset).
  { apply Forall_forall. intros row _. by apply (bytes_key_spec left shapes). }
  cbv zeta. rewrite E; cbn [obind]. eexists; split; [done|]. cbn [fst snd]. split.
  - intros x. by apply (complete_blocks_spec b left shapes).
  - intros k. rewrite Hset. split; (intros [|Hx]; [by left|right]).
    + destruct Hx as (row & Hrow%elem_of_seq & (ps & Hk & ->)%fmap_Some). exists row, ps. split_and!; [lia|done|done].
    + destruct Hx as (row & ps & Hrow & Hk & <-). exists row. rewrite Hk. split; [apply elem_of_seq; lia|done].
Qed.

Lemma bytes_loop left shapes bn sources :
  keyed sources left shapes -> readable_shapes shapes ->
  forall st, exists st', foldM (bytes_of_batch left bn) sources st = Ok st' /\
    (forall x, x ∈ st'.1 <-> x ∈ st.1 \/ key_block sources left bn x) /\
    (forall k, k ∈ st'.2 <-> k ∈ st.2 \/ exists ps, has_key sources left ps /\ ps ≫= encode_part = k).
Proof.
  intros Hs Hr. induction Hs as [|b bs Hb Hbs IH]; intros [blocks set]; cbn [foldM].
  { eexists; split; [done|]. split; (intros; split; [by left|]).
    - intros [|(? & ? & H%not_elem_of_nil & _)]; done.
    - intros [|(? & (? & ? & H%not_elem_of_nil & _) & _)]; done. }
  destruct (bytes_of_batch_spec left shapes bn blocks set b) as (st1 & -> & H1 & H2); [by constructor|done|].
  cbn [obind]. destruct (IH st1) as (st' & -> & H1' & H2'). exists st'. split; [done|]. split.
  - intros x. rewrite H1', H1, key_block_cons. cbn. tauto.
  - intros k. rewrite H2', H2. setoid_rewrite has_key_cons. cbn. split.
    + intros [[|(row & ps & Hx)]|(ps & Hx & <-)]; [by left|right; exists ps|right; exists ps; auto].
      split; [left; exists row|]; tauto.
    + intros [|(ps & [(row & Hx)|Hx] & <-)]; [auto| |right; eauto]. left; right; exists row, ps. tauto.
Qed.

Lemma wide_holds (sources : list RecordBatch) (left : list string) (shapes : list key_shape) (set : gset (list Z)) :
  keyed sources left shapes -> readable_shapes shapes ->
  (forall k, k ∈ set <-> exists ps, has_key sources left ps /\ ps ≫= encode_part = k) ->
  holds_keys (Wide set) sources left shapes.
Proof.
  intros Hs Hr Hset right b candidates Hlen Hb. unfold composite_key_in_set_mask.
  edestruct (mapM_seq_decides (E:=error)) as (kept & Ek & Hl & Hk);
    [|exists kept; rewrite Ek; cbn [obind]; split_and!; [done|exact Hl|exact Hk]].
  intros row Hrow. cbv beta.
  pose proof (is_candidate_bool candidates row) as Hc.
  destruct (match candidates with None => true | Some c => default false (c !! row) end); cbn [negb].
  2: { exists false. split; [done|]. split; [done|]. intros [Hcand _]. by apply Hc in Hcand. }
  rewrite (bytes_key_spec right shapes) by done. cbn [obind].
  eexists; split; [done|]. destruct (key_of b right row) as [ps|] eqn:Ek; cbn.
  - rewrite bool_decide_eq_true, Hset. rewrite (has_key_bytes sources left shapes b right row ps) by done.
    split; [intros Hps; split; [by apply Hc|eauto]|]. by intros [_ (ps' & [= <-] & ?)].
  - split; [done|]. by intros [_ (ps' & ? & _)].
Qed.

(** *** Pairs *)

Lemma pairs_of_batch_spec left bn blocks pairs readable b :
  keyed [b] left [SInt; SInt] ->
  exists st, pairs_of_batch left bn (blocks, pairs, readable) b = Ok st /\ st.2 = readable /\
    (forall x, x ∈ st.1.1 <-> x ∈ blocks \/ exists row,
      row < num_rows b /\ is_Some (key_of b left row) /\ block_of b bn row = Some x) /\
    (forall p, p ∈ st.1.2 <-> p ∈ pairs \/ exists row,
      row < num_rows b /\ key_of b left row = Some [PInt p.1; PInt p.2]).
Proof.
  intros H. unfold pairs_of_batch. destruct (Nat.eqb_spec (num_rows b) 0) as [E0|E0].
  { exists (blocks, pairs, readable). cbn. split_and!; [done|done|..]; (intros; split; [by left|]);
      intros [|(row & ? & _)]; done || lia. }
  destruct (pair_keys_spec left b H) as (first & second & nulls & -> & Hl1 & Hl2 & Hs).
  pose proof (Forall_inv H) as (Hok & _ & _).
  set (rows := filter (fun row => is_valid_in nulls row = true) (seq 0 (num_rows b))).
  set (pair_at row := (default 0%Z (first !! row), default 0%Z (second !! row))).
  rewrite (mapM_ok_pure _ pair_at).
  2: { apply Forall_forall. intros row [Hv Hrow%elem_of_seq]%list_elem_of_filter.
       destruct (Hs row ltac:(lia)) as [_ Hk]. rewrite Hv in Hk. destruct Hk as (a & c & E1 & E2 & _).
       rewrite (vec_get_ok _ _ _ E1), (vec_get_ok _ _ _ E2). unfold pair_at. by rewrite E1, E2. }
  cbn [obind]. eexists; split; [done|]. cbn [fst snd]. split; [done|]. split.
  - intros x. rewrite batch_blocks by done. split; (intros [|(row & Hrow & Hv & ?)]; [by left|right; exists row]);
      split_and!; try done; destruct (Hs row Hrow) as [_ Hk].
    + rewrite Hv in Hk. by destruct Hk as (? & ? & _ & _ & ->).
    + destruct (is_valid_in nulls row); [done|]. rewrite Hk in Hv. by destruct Hv.
  - intros p. rewrite elem_of_app. split; (intros [|Hx]; [by left|right]).
    + apply list_elem_of_fmap in Hx as (row & -> & [Hv Hrow%elem_of_seq]%list_elem_of_filter).
      exists row. split; [lia|]. destruct (Hs row ltac:(lia)) as [_ Hk]. rewrite Hv in Hk.
      destruct Hk as (a & c & E1 & E2 & ->). unfold pair_at. by rewrite E1, E2.
    + destruct Hx as (row & Hrow & Hkey). apply list_elem_of_fmap. exists row.
      destruct (Hs row Hrow) as [_ Hk]. destruct (is_valid_in nulls row) eqn:Hv; [|congruence].
      destruct Hk as (a & c & E1 & E2 & Ek). rewrite Hkey in Ek. injection Ek as <- <-.
      split; [unfold pair_at; rewrite E1, E2; by destruct p|].
      apply list_elem_of_filter. split; [done|]. apply elem_of_seq. lia.
Qed.

Lemma pairs_loop left bn sources :
  keyed sources left [SInt; SInt] ->
  forall st, exists st', foldM (pairs_of_batch left bn) sources st = Ok st' /\ st'.2 = st.2 /\
    (forall x, x ∈ st'.1.1 <-> x ∈ st.1.1 \/ key_block sources left bn x) /\
    (forall p, p ∈ st'.1.2 <-> p ∈ st.1.2 \/ has_key sources left [PInt p.1; PInt p.2]).
Proof.
  intros Hs. induction Hs as [|b bs Hb Hbs IH]; intros [[blocks pairs] readable]; cbn [foldM].
  { eexists; split; [done|]. split; [done|]. split; (intros; split; [by left|]);
      intros [|(? & ? & H%not_elem_of_nil & _)]; done. }
  destruct (pairs_of_batch_spec left bn blocks pairs readable b) as (st1 & -> & Er & H1 & H2); [by constructor|].
  cbn [obind]. destruct (IH st1) as (st' & -> & Er' & H1' & H2'). exists st'. split_and!; [done|cbn; congruence|..].
  - intros x. rewrite H1', H1, key_block_cons. cbn. tauto.
  - intros p. rewrite H2', H2, has_key_cons. cbn. tauto.
Qed.

Lemma pair_shape b cols row ps :
  keyed [b] cols [SInt; SInt] -> row < num_rows b -> key_of b cols row = Some ps ->
  exists a c, ps = [PInt a; PInt c] /\ is_u64 a /\ is_u64 c.
Proof.
  intros H Hrow Hk. pose proof (keyed_shape _ _ _ _ _ H Hrow Hk) as Hs.
  apply Forall2_cons_inv_r in Hs as (p & ? & Hp & Hs & ->).
  apply Forall2_cons_inv_r in Hs as (q & ? & Hq & Hs & ->). apply Forall2_nil_inv_r in Hs as ->.
  destruct p, q; cbn in *; try done. eauto.
Qed.

Lemma pair_keys_ok b cols first second nulls :
  batch_ok b -> pair_keys b cols = Some (first, second, nulls) ->
  Forall is_u64 first /\ Forall is_u64 second /\ nulls_ok nulls (num_rows b).
Proof.
  intros Hok. unfold pair_keys. destruct cols as [|n1 [|n2 [|]]]; try done.
  destruct (column_by_name b n1) as [c1|] eqn:E1; cbn; [|done].
  destruct c1 as [t1 v1 m1| | | | | | | | |]; cbn; try done.
  destruct (column_by_name b n2) as [c2|] eqn:E2; cbn; [|done].
  destruct c2 as [t2 v2 m2| | | | | | | | |]; cbn; try done. intros [= <- <- <-].
  destruct (column_ok _ _ _ Hok E1) as [Hc1 Hl1], (column_ok _ _ _ Hok E2) as [Hc2 Hl2].
  apply array_ok_nulls in Hc1, Hc2. rewrite Hl1 in Hc1. rewrite Hl2 in Hc2. cbn in Hc1, Hc2.
  unfold join_keys. split_and!; [..|by apply (null_union_valid m1 m2 (num_rows b) 0)];
    apply Forall_fmap, Forall_true; intros; apply stored_key_range.
Qed.

(** The rows a pair set keeps of a batch, where the nulls are masked out. *)
Lemma masked_out (found : list bool) nulls n row :
  length found = n -> nulls_ok nulls n -> row < n ->
  let kept := match nulls with Some valid => zip_with andb found valid | None => found end in
  length kept = n /\ (kept !! row = Some true <-> found !! row = Some true /\ is_valid_in nulls row = true).
Proof.
  intros Hf Hn Hrow. destruct nulls as [valid|]; cbn in *; [|by split; [done|split; [|intros []]]].
  split; [rewrite length_zip_with; lia|]. rewrite lookup_zip_with_Some.
  destruct (lookup_lt_is_Some_2 valid row ltac:(lia)) as [v Ev]. rewrite Ev. cbn. split.
  - intros (x & y & E & -> & [= <-]). symmetry in E. by apply andb_true_iff in E as [-> ->].
  - intros [-> ->]. by exists true, true.
Qed.

Lemma fixed_row candidates set (pairs : list (Z * Z)) first second row :
  (forall a c, is_u64 a -> is_u64 c -> pairs_contains set a c = Ok (bool_decide ((a, c) ∈ pairs))) ->
  Forall is_u64 first -> Forall is_u64 second -> row < length first -> row < length second ->
  exists found,
    (if match candidates with None => true | Some c => default false (c !! row) end : bool
     then let* a := vec_get first row in
          let* c := vec_get second row in
          pairs_contains set a c
     else Ok (E:=error) false) = Ok found /\
    (found = true <-> is_candidate candidates row /\ exists p : Z * Z,
      first !! row = Some p.1 /\ second !! row = Some p.2 /\ p ∈ pairs).
Proof.
  intros Hset Hu1 Hu2 H1 H2. pose proof (is_candidate_bool candidates row) as Hc.
  destruct (match candidates with None => true | Some c => default false (c !! row) end).
  2: { exists false. split; [done|]. split; [done|]. intros [Hcand _]. by apply Hc in Hcand. }
  destruct (lookup_lt_is_Some_2 first row H1) as [a Ea], (lookup_lt_is_Some_2 second row H2) as [c Ec].
  rewrite (vec_get_ok _ _ _ Ea), (vec_get_ok _ _ _ Ec). cbn [obind].
  rewrite Hset by first [exact (Forall_lookup_1 _ _ _ _ Hu1 Ea)|exact (Forall_lookup_1 _ _ _ _ Hu2 Ec)]. eexists; split; [done|].
  rewrite bool_decide_eq_true, Ea, Ec. split.
  - intros Hin. split; [by apply Hc|]. by exists (a, c).
  - by intros [_ ([a' c'] & [= <-] & [= <-] & ?)].
Qed.

(** A source row has a complete key. *)
Definition some_key (sources : list RecordBatch) (left : list string) : Prop :=
  exists ps, has_key sources left ps.

Lemma fixed_holds sources left pairs :
  keyed sources left [SInt; SInt] ->
  (forall p, p ∈ pairs <-> has_key sources left [PInt p.1; PInt p.2]) ->
  exists set, PairSet_new pairs = Ok set /\ holds_keys (Fixed16 set) sources left [SInt; SInt] /\
    (pairs_is_empty set = true <-> ~ some_key sources left).
Proof.
  intros Hs Hpairs. destruct (PairSet_new_contains pairs) as (set & E & Hset).
  { apply Forall_forall. intros p Hp. apply Hpairs in Hp as (b & row & Hb & Hrow & Hk).
    apply (pair_shape b left row) in Hk as (a & c & [= <- <-] & ? & ?); [done|by eapply keyed_elem|done]. }
  exists set. split; [done|]. split.
  2: { rewrite (PairSet_new_empty pairs set E). split.
       - intros -> (ps & b & row & Hb & Hrow & Hk).
         destruct (pair_shape b left row ps) as (a & c & -> & _); [by eapply keyed_elem|done|done|].
         apply (not_elem_of_nil (a, c)), Hpairs. by exists b, row.
       - intros Hno. destruct pairs as [|p pairs]; [done|]. destruct Hno.
         exists [PInt p.1; PInt p.2]. apply Hpairs. by left. }
  intros right b candidates Hlen Hb. unfold composite_key_in_set_mask.
  destruct (pair_keys_spec right b Hb) as (first & second & nulls & Ep & Hl1 & Hl2 & Hrows).
  rewrite Ep. destruct (pair_keys_ok b right first second nulls) as (Hu1 & Hu2 & Hn);
    [by apply Forall_inv in Hb as []|done|].
  edestruct (mapM_seq_decides (E:=error)) with (n := num_rows b) as (found & Ef & Hlf & Hf).
  { intros row Hrow. apply (fixed_row candidates set pairs first second row); done || lia. }
  rewrite Ef; cbn [obind]. eexists; split; [done|].
  split; [destruct nulls; [rewrite length_zip_with; cbn in Hn; lia|done]|].
  intros row Hrow. destruct (masked_out found nulls _ row Hlf Hn Hrow) as [_ ->]. rewrite Hf by done.
  destruct (Hrows row Hrow) as [_ Hk]. destruct (is_valid_in nulls row).
  - destruct Hk as (a & c & E1 & E2 & Ek). rewrite Ek, E1, E2. split.
    + intros [[Hcand ([? ?] & [= <-] & [= <-] & Hp)] _]. split; [done|]. eexists; split; [done|]. by apply Hpairs in Hp.
    + intros [Hcand (ps & [= <-] & Hp)]. split_and!; try done. exists (a, c). split_and!; try done. by apply Hpairs.
  - rewrite Hk. split; [by intros [_ ?]|]. by intros [_ (ps & ? & _)].
Qed.
(** *** Paths *)

Lemma slice_seq (values : list Z) a e :
  e <= length values ->
  (fun i => stored_key (default 0%Z (values !! i))) <$> seq a (e - a) = stored_key <$> slice values a e.
Proof.
  intros H. unfold slice. assert (Hn : e - a = 0 \/ a + (e - a) <= length values) by lia.
  revert Hn. generalize (e - a) as n. clear H. intros n. revert a.
  induction n as [|n IH]; intros a [?|H]; try done. cbn [seq]. rewrite fmap_cons.
  destruct (lookup_lt_is_Some_2 values a ltac:(lia)) as [x Hx].
  rewrite (drop_S _ _ _ Hx), firstn_cons, fmap_cons, Hx. f_equal. apply IH. lia.
Qed.

(** A key of two integers and a path is the pair's and the address. *)
Lemma path_key b k0 k1 k2 row :
  keyed [b] [k0; k1; k2] [SInt; SInt; SPath] -> row < num_rows b ->
  key_of b [k0; k1; k2] row =
    (ps ← key_of b [k0; k1] row; path ← source_path b k2 row; Some (ps ++ [PPath path])).
Proof.
  intros H Hrow. apply Forall_inv in H as (Hok & _ & Hs). cbn in Hs.
  destruct (column_by_name b k0) as [c0|] eqn:E0; cbn in Hs; [|done].
  destruct (key_shape_of (array_type c0)) as [s0|] eqn:S0; cbn in Hs; [|done].
  destruct (column_by_name b k1) as [c1|] eqn:E1; cbn in Hs; [|done].
  destruct (key_shape_of (array_type c1)) as [s1|] eqn:S1; cbn in Hs; [|done].
  destruct (column_by_name b k2) as [c2|] eqn:E2; cbn in Hs; [|done].
  destruct (key_shape_of (array_type c2)) as [s2|] eqn:S2; cbn in Hs; [|done].
  injection Hs as -> -> ->. destruct c2 as [|?|?|?|offsets [t values m|?|?|?|?|?| | | |] nulls| | | | |]; try done.
  destruct (column_ok _ _ _ Hok E2) as [Hc Hl].
  rewrite !key_of_cons. unfold key_of, source_path, address_list; cbn [mapM mbind option_bind].
  rewrite E0, E1, E2; cbn -[part_at].
  destruct (part_at c0 row) as [p0|]; cbn -[part_at]; [|done].
  destruct (part_at c1 row) as [p1|]; cbn -[part_at]; [|done].
  unfold part_at, is_null; cbn.
  destruct (is_valid_in nulls row); cbn; [|done].
  assert (Hend : offset_at offsets (S row) <= length values).
  { destruct Hc as (_ & _ & _ & _ & Hf & _). unfold offset_at. destruct (offsets !! S row) as [z|] eqn:Ez; cbn; [|lia].
    pose proof (Forall_lookup_1 _ _ _ _ Hf Ez). cbn in *. lia. }
  by rewrite slice_seq by done.
Qed.

Lemma keyed_take b k0 k1 k2 :
  keyed [b] [k0; k1; k2] [SInt; SInt; SPath] -> keyed [b] [k0; k1] [SInt; SInt].
Proof.
  intros H. apply Forall_inv in H as (Hok & Hi & Hs). repeat constructor; try done. cbn in *.
  destruct (column_by_name b k0 ≫= _) as [s0|]; cbn in *; [|done].
  destruct (column_by_name b k1 ≫= _) as [s1|]; cbn in *; [|done].
  destruct (column_by_name b k2 ≫= _) as [s2|]; cbn in *; [|done]. by injection Hs as -> -> _.
Qed.

Lemma path_key_inv b k0 k1 k2 row ps :
  keyed [b] [k0; k1; k2] [SInt; SInt; SPath] -> row < num_rows b ->
  key_of b [k0; k1; k2] row = Some ps <->
  exists qs path, ps = qs ++ [PPath path] /\ key_of b [k0; k1] row = Some qs /\ source_path b k2 row = Some path.
Proof.
  intros H Hrow. rewrite path_key by done. split.
  - destruct (key_of b [k0; k1] row) as [qs|]; cbn; [|done]. destruct (source_path b k2 row); cbn; [|done].
    intros [= <-]. eauto.
  - by intros (qs & path & -> & -> & ->).
Qed.

Lemma has_key_path sources k0 k1 k2 qs path :
  keyed sources [k0; k1; k2] [SInt; SInt; SPath] ->
  has_key sources [k0; k1; k2] (qs ++ [PPath path]) <-> has_source sources [k0; k1] k2 qs path.
Proof.
  intros Hs. unfold has_key, has_source. split; intros (b & row & Hb & Hrow & Hk); exists b, row.
  - apply path_key_inv in Hk as (qs' & path' & [-> [= ->]]%app_inj_tail & ? & ?); [done|by eapply keyed_elem|done].
  - split_and!; [done..|]. apply path_key_inv; [by eapply keyed_elem|done|eauto].
Qed.

Lemma holds_answers : answers (fun sources group path => holds sources group path) eq.
Proof.
  intros sa srcs g l t Hok Hl Ht. destruct (holds_spec sa srcs Hok g l t Hl Ht) as (found & E & Hf).
  exists found. split; [done|]. rewrite Hf. split; [by exists t|]. by intros (s & ? & ->).
Qed.

Lemma pair_readable : readable_shapes [SInt; SInt].
Proof. by repeat constructor; left. Qed.

Lemma path_holds sources k0 k1 k2 :
  keyed sources [k0; k1; k2] [SInt; SInt; SPath] ->
  (Z.of_nat (facts_size (facts_of sources [k0; k1] k2)) < 2 ^ 32)%Z ->
  exists sa, SourceAddresses_build sources [k0; k1] k2 = Ok sa /\
    holds_keys (PairPath sa) sources [k0; k1; k2] [SInt; SInt; SPath] /\
    (sa_is_empty sa = true <-> ~ some_key sources [k0; k1; k2]).
Proof.
  intros Hs Hsz.
  assert (Hs2 : keyed sources [k0; k1] [SInt; SInt]).
  { apply Forall_forall. intros b Hb. exact (Forall_inv (keyed_take _ _ _ _ (keyed_elem _ _ _ _ Hs Hb))). }
  destruct (build_spec [k0; k1] [SInt; SInt] k2 pair_readable sources Hs2 Hsz) as (sa & E & Hsa).
  exists sa. split; [done|]. split.
  2: { rewrite (index_empty [SInt; SInt] sa _ Hsa). split.
       - intros E0 (ps & b & row & Hb & Hrow & Hk).
         apply path_key_inv in Hk as (qs & path & -> & Hk & Hp); [|by eapply keyed_elem|done].
         apply (not_elem_of_nil (qs, path)). rewrite <- E0. apply elem_of_facts. by exists b, row.
       - intros Hno. destruct (facts_of sources [k0; k1] k2) as [|[qs path] l] eqn:El; [done|]. destruct Hno.
         exists (qs ++ [PPath path]). apply has_key_path; [done|]. apply elem_of_facts. rewrite El. by left. }
  intros right b candidates Hlen Hb.
  destruct right as [|r0 [|r1 [|r2 [|]]]]; try done. cbn [composite_key_in_set_mask vec_get lookup take].
  destruct (sa_mask_spec _ eq holds_answers [k0; k1] [r0; r1] [SInt; SInt] pair_readable sa sources k2 b r2 candidates)
    as (kept & Ek & Hl & Hk); [by eapply keyed_take|done|].
  exists kept. split_and!; [exact Ek|done|]. intros row Hrow. rewrite Hk by done. unfold kept_for.
  split; intros [Hc Hx]; (split; [done|]).
  - destruct Hx as (qs & path & ? & Hq & Hp & Hsrc & ->). exists (qs ++ [PPath path]). split.
    + apply path_key_inv; eauto.
    + by apply has_key_path.
  - destruct Hx as (ps & (qs & path & -> & Hq & Hp)%path_key_inv & Hh); [|done..].
    exists qs, path, path. split_and!; try done. by apply has_key_path.
Qed.

Lemma keys_readable_ok sources left shapes :
  keyed sources left shapes -> readable_shapes shapes -> keys_readable sources left = true.
Proof.
  intros Hs Hr. unfold keys_readable. apply forallb_forall. intros b [_ Hb]%list_elem_of_In%list_elem_of_filter.
  apply (keyed_elem _ _ _ _ Hs) in Hb. apply Forall_inv in Hb as (_ & _ & Hf). clear Hs. revert shapes Hr Hf.
  induction left as [|name names IH]; intros shapes Hr Hf; [done|]. cbn in Hf |- *.
  destruct (column_by_name b name) as [c|]; cbn in *; [|done].
  destruct (key_shape_of (array_type c)) as [s|] eqn:Es; cbn in Hf; [|done].
  destruct (mapM _ names) as [ss|]; cbn in Hf; [|done]. injection Hf as <-. apply Forall_cons in Hr as [Hs Hr].
  rewrite (IH ss Hr eq_refl), andb_true_r.
  destruct c as [| | | |offsets [] nulls| | | | |]; cbn in *; try done; injection Es as <-; by destruct Hs as [|[]].
Qed.

(** The first block from [min] on decides. *)
Lemma has_block_ascending f min max :
  ascending (kf_sorted_blocks f) ->
  has_block_within f min max = true <-> exists x, x ∈ kf_sorted_blocks f /\ (min <= x <= max)%Z.
Proof.
  intros Hasc. unfold has_block_within.
  destruct (partition_point_spec Z.lt (fun block => (block <? min)%Z) (kf_sorted_blocks f)) as (_ & Hb & Ha).
  { intros x y Hxy. rewrite !Z.ltb_lt. lia. }
  { done. }
  set (first := partition_point _ _) in *. set (blocks := kf_sorted_blocks f) in *.
  rewrite <- (take_drop first blocks) in Hasc. rewrite <- (Nat.add_0_r first), <- lookup_drop.
  setoid_rewrite <- (take_drop first blocks) at 2.
  setoid_rewrite elem_of_app. rewrite Forall_forall in Hb, Ha. setoid_rewrite Z.ltb_lt in Hb. setoid_rewrite Z.ltb_ge in Ha.
  apply StronglySorted_app_1_r in Hasc.
  destruct (drop first blocks) as [|x rest]; cbn.
  - split; [done|]. intros (x & [Hx%Hb|?%not_elem_of_nil] & ?); [lia|done].
  - rewrite Z.leb_le. split.
    + intros Hx. exists x. split; [right; by left|]. split; [apply Ha; by left|done].
    + intros (y & [Hy%Hb|[->|Hy]%elem_of_cons] & ?); [lia|lia|].
      apply StronglySorted_inv in Hasc as [_ Hx]. rewrite Forall_forall in Hx. specialize (Hx y Hy). lia.
Qed.

(** *** The form a set takes *)

(** The addresses of a path key fit the set's 32-bit places. *)
Definition paths_fit (sources : list RecordBatch) (left : list string) : Prop :=
  match left with
  | [k0; k1; k2] => (Z.of_nat (facts_size (facts_of sources [k0; k1] k2)) < 2 ^ 32)%Z
  | _ => True
  end.

Lemma first_with_rows_in sources b : first_with_rows sources = Some b -> b ∈ sources.
Proof.
  unfold first_with_rows. intros H. assert (Hb : b ∈ filter (fun b => 0 < num_rows b) sources).
  { destruct (filter _ sources); [done|]. injection H as ->. by left. }
  by apply list_elem_of_filter in Hb as [_ ?].
Qed.

Lemma int_shape b name : is_Some (column_by_name b name ≫= IntColumn_resolve) ->
  (column_by_name b name ≫= fun col => key_shape_of (array_type col)) = Some SInt.
Proof. destruct (column_by_name b name) as [[]|]; cbn; try done; by intros []. Qed.

Lemma list_shape b name s : is_Some (address_list b name) ->
  (column_by_name b name ≫= fun col => key_shape_of (array_type col)) = Some s -> s = SPath.
Proof.
  unfold address_list. intros [x H]. destruct (column_by_name b name) as [c|]; cbn in *; [|done].
  destruct c as [| | | |offsets [] nulls| | | | |]; cbn in *; try done. by intros [= <-].
Qed.

Lemma use_pair_path_shapes sources left shapes :
  keyed sources left shapes -> use_pair_path sources left = true ->
  shapes = [SInt; SInt; SPath] /\ exists k0 k1 k2, left = [k0; k1; k2].
Proof.
  intros Hs. unfold use_pair_path. destruct left as [|k0 [|k1 [|k2 [|]]]]; try done.
  destruct (first_with_rows sources) as [b|] eqn:Ef; [|done]. apply first_with_rows_in in Ef.
  rewrite !andb_true_iff, !bool_decide_eq_true. intros [[H0 H1] H2]. split; [|by exists k0, k1, k2].
  apply (keyed_elem _ _ _ _ Hs) in Ef. apply Forall_inv in Ef as (_ & _ & E). cbn in E.
  rewrite (int_shape b k0), (int_shape b k1) in E by done. cbn in E.
  destruct (column_by_name b k2 ≫= _) as [s|] eqn:E2 in E; cbn in E; [|done].
  apply list_shape in E2 as ->; [|done]. by injection E as <-.
Qed.

Lemma use_fixed16_shapes sources left shapes :
  keyed sources left shapes -> use_fixed16 sources left = true -> shapes = [SInt; SInt].
Proof.
  intros Hs. unfold use_fixed16. rewrite andb_true_iff, Nat.eqb_eq. intros [Hl H].
  destruct (first_with_rows sources) as [b|] eqn:Ef; [|done]. apply first_with_rows_in in Ef.
  apply (keyed_elem _ _ _ _ Hs) in Ef. apply Forall_inv in Ef as (_ & _ & E).
  destruct left as [|k0 [|k1 [|]]]; try done. cbn in E, H. rewrite !andb_true_iff in H.
  assert (Hint : forall name, match column_by_name b name ≫= TypedKeyColumn_resolve with
    Some tc => key_is_integer tc | None => false end = true ->
    (column_by_name b name ≫= fun col => key_shape_of (array_type col)) = Some SInt).
  { intros name. destruct (column_by_name b name) as [[]|]; done. }
  rewrite (Hint k0), (Hint k1) in E by tauto. by injection E as <-.
Qed.

Lemma path_blocks sources left shapes bn out :
  keyed sources left shapes -> readable_shapes shapes ->
  forall x, x ∈ fold_left (complete_blocks left bn) sources out <-> x ∈ out \/ key_block sources left bn x.
Proof.
  intros Hs Hr. revert out. induction Hs as [|b bs Hb Hbs IH]; intros out x; cbn [fold_left].
  { split; [by left|]. intros [|(? & ? & H%not_elem_of_nil & _)]; done. }
  rewrite IH, key_block_cons, (complete_blocks_spec b left shapes) by (done || by constructor). tauto.
Qed.

(** A built set holds the sources' keys, and their blocks in order. *)
Lemma KeySet_build_ok sources left shapes bn :
  keyed sources left shapes -> readable_shapes shapes -> paths_fit sources left ->
  exists ks, KeySet_build sources left bn = Ok ks /\ ks_readable ks = true /\ ks_width ks = length left /\
    holds_keys (ks_key_set ks) sources left shapes /\
    (ks_matches_nothing ks = true <-> ~ some_key sources left) /\ ascending (ks_sorted_blocks ks) /\
    forall x, x ∈ ks_sorted_blocks ks <-> key_block sources left bn x.
Proof.
  intros Hs Hr Hfit. unfold KeySet_build. rewrite (keys_readable_ok sources left shapes Hs Hr).
  assert (Hblocks : forall blocks : gset Z, (forall x, x ∈ blocks <-> x ∈ (∅ : gset Z) \/ key_block sources left bn x) ->
    ascending (sorted blocks) /\ forall x, x ∈ sorted blocks <-> key_block sources left bn x).
  { intros blocks Hb. split; [apply set_to_ascending_ascending|]. intros x.
    unfold sorted. rewrite elem_of_set_to_ascending, Hb. set_solver. }
  destruct (use_pair_path sources left) eqn:Epath.
  { destruct (use_pair_path_shapes sources left shapes Hs Epath) as (-> & k0 & k1 & k2 & ->).
    destruct (path_holds sources k0 k1 k2 Hs Hfit) as (sa & E & Hsa & Hempty).
    change (vec_get [k0; k1; k2] 2) with (Ok (E:=error) k2); cbn [take obind]. rewrite E; cbn [obind].
    eexists; split; [done|]. split_and!; [done|done|exact Hsa|exact Hempty|..]; apply Hblocks; by eapply path_blocks. }
  destruct (use_fixed16 sources left) eqn:Efixed.
  { pose proof (use_fixed16_shapes sources left shapes Hs Efixed) as ->.
    destruct (pairs_loop left bn sources Hs (∅, [], true))
      as ([[blocks pairs] readable] & -> & Er & Hb & Hp). cbn in Er, Hb, Hp; subst readable; cbn [obind].
    destruct (fixed_holds sources left pairs Hs) as (set & -> & Hset & Hempty).
    { intros p. rewrite Hp. split; [intros [?%not_elem_of_nil|]; done|by right]. }
    cbn [obind]. eexists; split; [done|]. by split_and!; [done|done|exact Hset|exact Hempty|apply Hblocks..]. }
  destruct (bytes_loop left shapes bn sources Hs Hr (∅, ∅)) as ([blocks set] & -> & Hb & Hk). cbn in Hb, Hk; cbn [obind].
  eexists; split; [done|]. split_and!; [done|done| | |by apply Hblocks..].
  - cbn. apply wide_holds; [done..|]. intros k. rewrite Hk. set_solver.
  - unfold ks_matches_nothing; cbn. rewrite bool_decide_eq_true. unfold some_key. split.
    + intros -> (ps & Hps). apply (not_elem_of_empty (C:=gset (list Z)) (ps ≫= encode_part)), Hk. eauto.
    + intros Hno. apply set_eq. intros k. rewrite Hk. set_solver.
Qed.

(** ** Rows of one table *)

(** A row's values in some columns, nulls included. *)
Definition cells_of (b : RecordBatch) (cols : list string) (row : nat) : option (list cell) :=
  mapM (fun name => (fun a => cell_at a row) <$> column_by_name b name) cols.

(** Batches of one table: the columns are there, of the same types. *)
Definition of_table (cols : list string) (fields : list data_type) (b : RecordBatch) : Prop :=
  batch_ok b /\ Forall (fun c => array_i32 c.2) (columns b) /\
  mapM (fun name => array_type <$> column_by_name b name) cols = Some fields.

Lemma table_columns cols fields b :
  of_table cols fields b ->
  exists arrays, columns_of b cols = Ok arrays /\ array_type <$> arrays = fields /\
    row_arrays fields (num_rows b) arrays /\
    forall row, cells_of b cols row = Some ((fun a => cell_at a row) <$> arrays).
Proof.
  intros (Hok & _ & Hf). revert fields Hf. unfold columns_of, cells_of.
  induction cols as [|name cols IH]; intros fields Hf; cbn in Hf.
  { injection Hf as <-. exists []. by repeat constructor. }
  destruct (column_by_name b name) as [a|] eqn:Ea; cbn in Hf; [|done].
  destruct (mapM _ cols) as [fs|]; cbn in Hf; [|done]. injection Hf as <-.
  destruct (IH fs eq_refl) as (arrays & E & Et & Hr & Hc). destruct (column_ok _ _ _ Hok Ea) as [Ha Hl].
  exists (a :: arrays). cbn [mapM_ok]. rewrite Ea; cbn [ok_or obind]. rewrite E; cbn [obind].
  split_and!; [done|by rewrite fmap_cons, Et|by constructor|].
  intros row. cbn [mapM mbind option_bind]. rewrite Ea. cbn. by rewrite Hc.
Qed.

Section identities.
Context {RL : RowFormatLaws R} (cols : list string) (fields : list data_type)
  (Hsup : row_supported fields = true) (Hne : fields <> []).

Lemma convert_ok b :
  of_table cols fields b ->
  exists arrays, columns_of b cols = Ok arrays /\ row_arrays fields (num_rows b) arrays /\
    convert fields arrays = Ok (convert_columns fields arrays) /\
    length (convert_columns fields arrays) = num_rows b /\
    forall row, cells_of b cols row = Some ((fun a => cell_at a row) <$> arrays).
Proof.
  intros Hb. destruct (table_columns cols fields b Hb) as (arrays & E & Et & Hr & Hc).
  exists arrays. split_and!; [done|done| |by apply convert_columns_length|done].
  unfold convert. by rewrite bool_decide_eq_true_2.
Qed.

(** The identities of a table's rows are what their bytes say. *)
Lemma identities_loop block_column sources :
  Forall (of_table cols fields) sources ->
  forall st, exists st', foldM (identities_of_batch fields cols block_column) sources st = Ok st' /\
    (forall k, k ∈ st'.1 <-> k ∈ st.1 \/ exists b arrays,
      b ∈ sources /\ columns_of b cols = Ok arrays /\ k ∈ convert_columns fields arrays) /\
    (forall x, x ∈ st'.2 <-> x ∈ st.2 \/ exists b row,
      b ∈ sources /\ row < num_rows b /\ block_of b block_column row = Some x).
Proof.
  intros Hs. induction Hs as [|b bs Hb Hbs IH]; intros [values blocks]; cbn [foldM].
  { eexists; split; [done|]. split; (intros; split; [by left|]); intros [|(? & ? & H%not_elem_of_nil & _)]; done. }
  destruct (convert_ok b Hb) as (arrays & E & _ & Ec & _). unfold identities_of_batch at 1.
  rewrite E; cbn [obind]. rewrite Ec; cbn [obind].
  edestruct IH as (st' & -> & H1 & H2). exists st'. split; [done|]. cbn [fst snd] in *. split.
  - intros k. rewrite H1, elem_of_union, elem_of_list_to_set. setoid_rewrite elem_of_cons. split.
    + intros [[Hk|Hk]|(b' & arrays' & ? & ? & ?)]; [right; by exists b, arrays; auto|by left|right; exists b', arrays'; auto].
    + intros [Hk|(b' & arrays' & [->|Hin] & E' & Hk)]; [auto| |right; by exists b', arrays'].
      assert (arrays' = arrays) as -> by congruence. auto.
  - intros x. rewrite H2, batch_blocks by by destruct Hb. setoid_rewrite elem_of_cons. split.
    + intros [[?|(row & ? & _ & ?)]|(b' & row & ? & ? & ?)]; [auto|right; exists b, row; auto|right; exists b', row; auto].
    + intros [?|(b' & row & [->|?] & ? & ?)]; [auto|left; right; by exists row|right; by exists b', row].
Qed.

(** The rows a set of identities keeps: candidates are not asked for. *)
Lemma row_ids_mask (values : gset (list Z)) sources b candidates :
  Forall (of_table cols fields) sources -> of_table cols fields b ->
  (forall k, k ∈ values <-> exists b arrays,
      b ∈ sources /\ columns_of b cols = Ok arrays /\ k ∈ convert_columns fields arrays) ->
  exists kept, composite_key_in_set_mask b cols (RowIds fields values) candidates = Ok (of_bools kept) /\
    length kept = num_rows b /\
    forall row, row < num_rows b -> kept !! row = Some true <->
      exists b' row', b' ∈ sources /\ row' < num_rows b' /\ cells_of b' cols row' = cells_of b cols row.
Proof.
  intros Hs Hb Hv. destruct (convert_ok b Hb) as (arrays & E & Hr & Ec & Hl & Hc).
  cbn [composite_key_in_set_mask]. rewrite E; cbn [obind]. rewrite Ec; cbn [obind].
  eexists; split; [done|]. rewrite length_fmap. split; [done|]. intros row Hrow.
  destruct (lookup_lt_is_Some_2 (convert_columns fields arrays) row ltac:(lia)) as [k Hk].
  rewrite list_lookup_fmap, Hk. cbn. rewrite (inj_iff Some), bool_decide_eq_true, Hv, Hc. clear Hv. split.
  - intros (b' & arrays' & Hin & E' & [row' Hk']%list_elem_of_lookup). pose proof Hs as Hs'. rewrite Forall_forall in Hs'.
    destruct (convert_ok b' (Hs' _ Hin)) as (? & E2 & Hr' & _ & Hl' & Hc'). rewrite E' in E2. injection E2 as <-.
    assert (row' < num_rows b') by (rewrite <- Hl'; by eapply lookup_lt_Some).
    exists b', row'. split_and!; [done..|]. rewrite Hc'. f_equal.
    apply (convert_columns_eq fields (num_rows b') (num_rows b)); [done..|]. by rewrite Hk, Hk'.
  - intros (b' & row' & Hin & Hrow' & Ecells). pose proof Hs as Hs'. rewrite Forall_forall in Hs'.
    destruct (convert_ok b' (Hs' _ Hin)) as (arrays' & E' & Hr' & _ & Hl' & Hc').
    exists b', arrays'. split_and!; [done..|]. apply list_elem_of_lookup. exists row'.
    rewrite Hc' in Ecells. injection Ecells as Ecells.
    apply (convert_columns_eq fields (num_rows b') (num_rows b)) in Ecells; [|done..]. by rewrite Ecells.
Qed.
End identities.

(** Columns a row's key identifies: integers and short text. *)
Definition plain (t : data_type) : bool := is_integer t || bool_decide (t = DText Utf8).

Definition plain_shape (t : data_type) : key_shape := match t with DInt _ => SInt | _ => SText end.

Lemma plain_keyed cols fields b :
  of_table cols fields b -> Forall (fun t => plain t = true) fields -> keyed [b] cols (plain_shape <$> fields).
Proof.
  intros (Hok & Hi & Hf) Hp. repeat constructor; try done. clear Hok Hi. revert fields Hf Hp.
  induction cols as [|name cols IH]; intros fields Hf Hp; cbn in Hf; [by injection Hf as <-|].
  destruct (column_by_name b name) as [a|] eqn:Ea; cbn in Hf; [|done].
  destruct (mapM _ cols) as [fs|]; cbn in Hf; [|done]. injection Hf as <-.
  apply Forall_cons in Hp as [Ha Hp]. cbn [mapM mbind option_bind]. rewrite Ea; cbn [mbind option_bind].
  rewrite (IH fs eq_refl Hp).
  by destruct a as [| | | | | | | | |]; cbn in *; try (rewrite bool_decide_eq_false_2 in Ha by done).
Qed.

Lemma plain_readable fields : readable_shapes (plain_shape <$> fields).
Proof. apply Forall_fmap, Forall_true. intros []; cbn; auto. Qed.

Lemma plain_fit cols fields sources :
  Forall (of_table cols fields) sources -> Forall (fun t => plain t = true) fields -> paths_fit sources cols.
Proof.
  intros Hs Hp. unfold paths_fit. destruct cols as [|k0 [|k1 [|k2 [|]]]]; try done.
  enough (facts_of sources [k0; k1] k2 = []) as -> by done. unfold facts_of.
  induction Hs as [|b bs Hb Hbs IH]; [done|]. rewrite bind_cons, IH, app_nil_r. clear IH.
  assert (Hnone : address_list b k2 = None).
  { destruct Hb as (_ & _ & Hf). unfold address_list. cbn in Hf.
    destruct (column_by_name b k0); cbn in Hf; [|done]. destruct (column_by_name b k1); cbn in Hf; [|done].
    destruct (column_by_name b k2) as [c|]; cbn in *; [|done]. injection Hf as <-.
    apply Forall_cons in Hp as [_ Hp]. apply Forall_cons in Hp as [_ Hp]. apply Forall_cons in Hp as [Hc _].
    destruct c; done. }
  induction (seq 0 (num_rows b)) as [|row rows IH]; [done|]. cbn [omap list_omap].
  unfold row_fact at 1, source_path at 1. rewrite Hnone. exact IH.
Qed.

Lemma stored_key_inj t x y : in_int_type t x -> in_int_type t y -> stored_key x = stored_key y -> x = y.
Proof.
  intros Hx Hy E. rewrite !stored_key_mod in E. unfold in_int_type in *.
  assert (Hd : (y = x + 2 ^ 64 * (y / 2 ^ 64 - x / 2 ^ 64))%Z).
  { pose proof (Z.div_mod x (2 ^ 64) ltac:(done)). pose proof (Z.div_mod y (2 ^ 64) ltac:(done)). lia. }
  generalize dependent (y / 2 ^ 64 - x / 2 ^ 64)%Z. intros q Hq. destruct t; cbn in Hx, Hy; lia.
Qed.

(** A value's key is some for a value, and tells values of one type apart. *)
Lemma plain_part a row :
  array_ok a -> row < array_len a -> plain (array_type a) = true ->
  is_Some (part_at a row) <-> cell_at a row <> CNull.
Proof.
  intros Ha Hrow Hp. destruct a; cbn in Hp; try (by rewrite bool_decide_eq_false_2 in Hp); unfold part_at; cbn;
    (destruct (is_null _ row); [split; [by intros []|done]|split; [done|eauto]]).
Qed.

Lemma plain_part_eq a a' row row' :
  array_ok a -> row < array_len a -> array_ok a' -> row' < array_len a' ->
  array_type a = array_type a' -> plain (array_type a) = true -> is_Some (part_at a' row') ->
  part_at a row = part_at a' row' <-> cell_at a row = cell_at a' row'.
Proof.
  intros Ha Hrow Ha' Hrow' Et Hp [p Hp'].
  destruct a as [t v n|u v n| | | | | | | |], a' as [t' v' n'|u' v' n'| | | | | | | |]; cbn in Et; try done;
    try (cbn in Hp; by rewrite bool_decide_eq_false_2 in Hp); unfold part_at in *; cbn in *;
    (destruct (is_null _ row') eqn:En'; [done|]); (destruct (is_null _ row) eqn:En; [split; [done|done]|]).
  - injection Et as <-. destruct (lookup_lt_is_Some_2 v row Hrow) as [x Hx], (lookup_lt_is_Some_2 v' row' Hrow') as [x' Hx'].
    rewrite Hx, Hx'; cbn. destruct Ha as [_ Hf], Ha' as [_ Hf'].
    pose proof (Forall_lookup_1 _ _ _ _ Hf Hx). pose proof (Forall_lookup_1 _ _ _ _ Hf' Hx').
    split; [|by intros [= ->]]. intros [= E]. f_equal. by eapply stored_key_inj.
  - split; [by intros [= ->]|by intros [= ->]].
Qed.

Lemma plain_key_eq cols fields b b' row row' :
  of_table cols fields b -> of_table cols fields b' -> Forall (fun t => plain t = true) fields ->
  row < num_rows b -> row' < num_rows b' -> is_Some (key_of b' cols row') ->
  key_of b cols row = key_of b' cols row' <-> cells_of b cols row = cells_of b' cols row'.
Proof.
  intros (Hok & Hi & Hf) (Hok' & Hi' & Hf') Hp Hrow Hrow'. revert fields Hf Hf' Hp.
  induction cols as [|name cols IH]; intros fields Hf Hf' Hp; [done|]. cbn in Hf, Hf'.
  rewrite !key_of_cons. unfold cells_of; cbn [mapM mbind option_bind]. fold (cells_of b cols row) (cells_of b' cols row').
  destruct (column_by_name b name) as [a|] eqn:Ea; cbn in Hf; [|done].
  destruct (column_by_name b' name) as [a'|] eqn:Ea'; cbn in Hf'; [|done].
  destruct (mapM _ cols) as [fs|] eqn:Efs; cbn in Hf; [|done]. injection Hf as <-.
  destruct (mapM _ cols) as [fs'|] eqn:Efs' in IH, Hf'; cbn in Hf'; [|done]. injection Hf' as Et ->.
  apply Forall_cons in Hp as [Ha Hp]. specialize (IH fs eq_refl eq_refl Hp).
  destruct (column_ok _ _ _ Hok Ea) as [Hc Hl], (column_ok _ _ _ Hok' Ea') as [Hc' Hl'].
  cbn [mbind option_bind fmap option_fmap option_map]. intros Hsome.
  destruct (part_at a' row') as [p'|] eqn:Ep'; cbn in Hsome; [|by destruct Hsome].
  destruct (key_of b' cols row') as [ps'|] eqn:Ek'; cbn in Hsome; [|by destruct Hsome].
  pose proof (plain_part_eq a a' row row' Hc ltac:(lia) Hc' ltac:(lia) (eq_sym Et) Ha ltac:(eauto)) as Hpart.
  rewrite Ep' in Hpart. specialize (IH ltac:(eauto)).
  cbn. split.
  - destruct (part_at a row) as [p|]; cbn; [|done]. destruct (key_of b cols row) as [ps|]; cbn; [|done].
    intros [= -> ->]. destruct IH as [IH _], Hpart as [Hpart _]. by rewrite (IH eq_refl), (Hpart eq_refl).
  - destruct (table_columns cols fs b) as (arrays & _ & _ & _ & Hcells); [by split_and!|].
    destruct (table_columns cols fs b') as (arrays' & _ & _ & _ & Hcells'); [by split_and!|].
    rewrite Hcells, Hcells' in *. cbn. intros [= E1 E2].
    apply Hpart in E1. rewrite E1. cbn. by rewrite (proj2 IH (f_equal Some E2)).
Qed.

(** The columns [for_rows] takes as keys hold no null and only plain values. *)
Lemma plain_checked cols fields b :
  of_table cols fields b ->
  forallb (fun name => match column_by_name b name with
    | Some column => (null_count column =? 0) &&
        (is_integer (array_type column) || bool_decide (array_type column = DText Utf8))
    | None => false
    end) cols = true ->
  Forall (fun t => plain t = true) fields /\ forall row, row < num_rows b -> is_Some (key_of b cols row).
Proof.
  intros (Hok & Hi & Hf). revert fields Hf. induction cols as [|name cols IH]; intros fields Hf H; cbn in Hf.
  { injection Hf as <-. split; [constructor|]. intros row _. by eexists. }
  cbn in H. apply andb_true_iff in H as [Hc H].
  destruct (column_by_name b name) as [a|] eqn:Ea; cbn in Hf; [|done].
  destruct (mapM _ cols) as [fs|]; cbn in Hf; [|done]. injection Hf as <-.
  apply andb_true_iff in Hc as [Hn%Nat.eqb_eq Hp]. destruct (IH fs eq_refl H) as [Hps Hks].
  split; [by constructor|]. intros row Hrow. rewrite key_of_cons, Ea. cbn [mbind option_bind].
  destruct (column_ok _ _ _ Hok Ea) as [Ha Hl].
  assert (is_Some (part_at a row)) as [p ->].
  { apply plain_part; [done|lia|done|]. pose proof (array_ok_nulls _ Ha) as Hnulls.
    pose proof (count_nulls_zero _ _ row Hnulls Hn ltac:(lia)) as Hv.
    destruct a; cbn in Hv |- *; unfold is_null; cbn; by rewrite Hv. }
  destruct (Hks row Hrow) as [ps ->]. by eexists.
Qed.

(** Row identity, by whichever form the columns allow. *)
Lemma for_rows_ok {RL : RowFormatLaws R} sources cols fields block_column :
  Forall (of_table cols fields) sources -> sources <> [] -> row_supported fields = true ->
  exists f, for_rows sources cols block_column = Ok f /\ checks_blocks_first f = true /\
    ascending (kf_sorted_blocks f) /\
    (forall x, x ∈ kf_sorted_blocks f <-> exists b row,
      b ∈ sources /\ row < num_rows b /\ block_of b block_column row = Some x) /\
    forall b candidates, of_table cols fields b ->
      exists kept, kf_mask f b candidates = Ok (of_bools kept) /\ length kept = num_rows b /\
        forall row, row < num_rows b -> is_candidate candidates row ->
          kept !! row = Some true <->
          exists b' row', b' ∈ sources /\ row' < num_rows b' /\ cells_of b' cols row' = cells_of b cols row.
Proof.
  intros Hs Hne Hsup. destruct sources as [|first rest]; [done|]. unfold for_rows. cbn [head ok_or obind].
  destruct (table_columns cols fields first) as (arrays & -> & Et & _); [by apply Forall_cons in Hs as []|].
  cbn [obind]. rewrite Et. set (sources := first :: rest) in *. destruct (forallb _ sources) eqn:Eplain.
  - rewrite forallb_forall in Eplain. rewrite Forall_forall in Hs.
    assert (Hall : forall b, b ∈ sources -> Forall (fun t => plain t = true) fields /\
      forall row, row < num_rows b -> is_Some (key_of b cols row)).
    { intros b Hb. apply plain_checked; [by apply Hs|]. by apply Eplain, list_elem_of_In. }
    destruct (Hall first) as [Hp _]; [by left|].
    assert (Hk : keyed sources cols (plain_shape <$> fields)).
    { apply Forall_forall. intros b Hb. exact (Forall_inv (plain_keyed _ _ _ (Hs b Hb) Hp)). }
    assert (Hfit : paths_fit sources cols) by (apply (plain_fit cols fields); [by apply Forall_forall|done]).
    destruct (KeySet_build_ok sources cols _ block_column Hk (plain_readable fields) Hfit)
      as (ks & Eb & _ & Hw & Hholds & _ & Hasc & Hblocks).
    unfold KeyFilter_build. rewrite Eb; cbn [obind]. unfold ks_filter. rewrite Hw, Nat.eqb_refl; cbn [obind].
    eexists; split; [done|]. cbn. split_and!; [done|done| |].
    + intros x. rewrite Hblocks. unfold key_block. split.
      * intros (b & row & ? & ? & _ & ?). by exists b, row.
      * intros (b & row & Hb & Hrow & ?). exists b, row. split_and!; try done. by apply (proj2 (Hall b Hb)).
    + intros b candidates Hb. unfold kf_mask; cbn.
      destruct (Hholds cols b candidates eq_refl (plain_keyed _ _ _ Hb Hp)) as (kept & Ek & Hl & Hkept).
      exists kept. split_and!; [done|done|]. intros row Hrow Hc. rewrite Hkept by done. split.
      * intros (_ & ps & Ekey & b' & row' & Hb' & Hrow' & Ekey'). exists b', row'. split_and!; [done..|].
        symmetry. apply (plain_key_eq cols fields); try done; first [by apply Hs|congruence|by eexists].
      * intros (b' & row' & Hb' & Hrow' & E). split; [done|].
        destruct (proj2 (Hall b' Hb') row' Hrow') as [ps Ekey']. exists ps.
        split; [|by exists b', row']. rewrite <- Ekey'. apply (plain_key_eq cols fields); by auto.
  - assert (Hf : fields <> []).
    { intros ->. apply Forall_cons in Hs as [(_ & _ & Hf) Hs]. destruct cols as [|name cols].
      - by rewrite (proj2 (forallb_forall _ _)) in Eplain.
      - cbn in Hf. destruct (column_by_name first name); cbn in Hf; [|done]. by destruct (mapM _ cols). }
    rewrite Hsup. cbn [ensure obind].
    destruct (identities_loop cols fields Hsup Hf block_column sources Hs (∅, ∅)) as ([values blocks] & -> & Hv & Hb).
    cbn [obind]. cbn in Hv, Hb. eexists; split; [done|]. cbn. split_and!; [done|apply set_to_ascending_ascending| |].
    + intros x. unfold sorted. rewrite elem_of_set_to_ascending, Hb. set_solver.
    + intros b candidates Htb. unfold kf_mask; cbn [kf_columns kf_key_set].
      destruct (row_ids_mask cols fields Hsup Hf values sources b candidates) as (kept & Ek & Hl & Hkept);
        [done|done|intros k; rewrite Hv; set_solver|].
      exists kept. split_and!; [exact Ek|done|]. intros row Hrow _. by apply Hkept.
Qed.

End proofs.

(** ** A row format *)

(** A row's bytes as one number of its cells: the documented promise holds of it. *)
Definition cell_code (c : cell) : Z := Z.pos (encode (cell_tree c)).

Lemma cell_codes_inj (cs ds : list cell) : cell_code <$> cs = cell_code <$> ds -> cs = ds.
Proof.
  intros E. eapply list_fmap_eq_inj; [|exact E]. intros c d [= Ec]. by apply encode_inj, cell_tree_inj in Ec.
Qed.

#[local] Instance reference_row_format : RowFormat := {|
  row_supported _ := true;
  convert_columns _ arrays :=
    (fun row => (fun a => cell_code (cell_at a row)) <$> arrays) <$>
      seq 0 (match arrays with a :: _ => array_len a | [] => 0 end);
|}.

#[local] Instance reference_row_laws : RowFormatLaws reference_row_format.
Proof.
  assert (Hlen : forall fields n arrays, fields <> [] -> row_arrays fields n arrays ->
    match arrays with a :: _ => array_len a | [] => 0 end = n).
  { intros fields n arrays Hne Hr. destruct Hr as [|a t arrays fields (_ & _ & E) _]; done. }
  split.
  - intros fields n arrays _ Hne Hr. cbn. rewrite length_fmap, length_seq. by eapply Hlen.
  - intros fields n m arrays arrays' i j _ Hne Hr Hr' Hi Hj. cbn.
    rewrite (Hlen _ _ _ Hne Hr), (Hlen _ _ _ Hne Hr'), !list_lookup_fmap, !lookup_seq_lt by done. cbn.
    rewrite (inj_iff Some). clear. split.
    + intros E. rewrite (list_fmap_compose (fun a => cell_at a i) cell_code),
        (list_fmap_compose (fun a => cell_at a j) cell_code) in E. by apply cell_codes_inj.
    + intros E. rewrite (list_fmap_compose (fun a => cell_at a i) cell_code),
        (list_fmap_compose (fun a => cell_at a j) cell_code). by rewrite E.
Qed.

(** The reference instances, for witnesses to import. *)
Module RowFormatInstances.
#[export] Existing Instance reference_row_format.
#[export] Existing Instance reference_row_laws.
End RowFormatInstances.

(** ** Properties *)

(** C35: The filter built of a relation's source rows keeps exactly the candidate
    rows of a target batch whose complete key is a source row's key by value,
    whichever of the three forms - pairs, pair paths or bytes - the set takes
    and whatever widths the two sides store; building and asking it never
    fail. *)
Theorem key_filter_spec {K : ArrowKernels} {L : ArrowLaws K} {R : RowFormat}
    sources left right shapes bn target_bn :
  keyed sources left shapes -> readable_shapes shapes -> paths_fit sources left ->
  length right = length left ->
  exists f, KeyFilter_build sources left right bn target_bn = Ok f /\
    forall b candidates, keyed [b] right shapes ->
      exists kept, kf_mask f b candidates = Ok (of_bools kept) /\ length kept = num_rows b /\
        forall row, row < num_rows b -> kept !! row = Some true <->
          is_candidate candidates row /\
          exists ps, key_of b right row = Some ps /\ has_key sources left ps.
Proof.
  intros Hs Hr Hfit Hlen. destruct (KeySet_build_ok sources left shapes bn Hs Hr Hfit) as (ks & E & _ & Hw & Hk & _).
  unfold KeyFilter_build, ks_filter. rewrite E; cbn [obind]. rewrite Hw, Hlen, Nat.eqb_refl.
  eexists; split; [done|]. intros b candidates Hb. by apply Hk.
Qed.

(** A filter keeps a row group of blocks [min] to [max] exactly when a source
    row with a complete key is of a block among them: a row group it drops
    holds no row its keys pick. *)
Theorem has_block_within_spec {K : ArrowKernels} {L : ArrowLaws K} {R : RowFormat}
    sources left right shapes bn target_bn min max :
  keyed sources left shapes -> readable_shapes shapes -> paths_fit sources left ->
  length right = length left ->
  exists f, KeyFilter_build sources left right bn target_bn = Ok f /\
    (has_block_within f min max = true <->
     exists b row block, b ∈ sources /\ row < num_rows b /\ is_Some (key_of b left row) /\
       block_of b bn row = Some block /\ (min <= block <= max)%Z).
Proof.
  intros Hs Hr Hfit Hlen. destruct (KeySet_build_ok sources left shapes bn Hs Hr Hfit) as (ks & E & _ & Hw & _ & _ & Hasc & Hb).
  unfold KeyFilter_build, ks_filter. rewrite E; cbn [obind]. rewrite Hw, Hlen, Nat.eqb_refl.
  eexists; split; [done|]. rewrite has_block_ascending by done. setoid_rewrite Hb. unfold key_block. naive_solver.
Qed.

(** C36: Rows picked by their identity are exactly the rows that say in every named
    column what a source row says, nulls included, whether the identities are
    kept as keys or as row bytes; the blocks are those of all source rows. *)
Theorem for_rows_spec {K : ArrowKernels} {L : ArrowLaws K} {R : RowFormat} {RL : RowFormatLaws R}
    sources cols fields block_column :
  Forall (of_table cols fields) sources -> sources <> [] -> row_supported fields = true ->
  exists f, for_rows sources cols block_column = Ok f /\ checks_blocks_first f = true /\
    (forall min max, has_block_within f min max = true <-> exists b row block,
      b ∈ sources /\ row < num_rows b /\ block_of b block_column row = Some block /\ (min <= block <= max)%Z) /\
    forall b candidates, of_table cols fields b ->
      exists kept, kf_mask f b candidates = Ok (of_bools kept) /\ length kept = num_rows b /\
        forall row, row < num_rows b -> is_candidate candidates row ->
          kept !! row = Some true <->
          exists b' row', b' ∈ sources /\ row' < num_rows b' /\ cells_of b' cols row' = cells_of b cols row.
Proof.
  intros Hs Hne Hsup. destruct (for_rows_ok sources cols fields block_column Hs Hne Hsup)
    as (f & E & Hc & Hasc & Hb & Hmask).
  exists f. split_and!; [done|done| |exact Hmask]. intros min max. rewrite has_block_ascending by done.
  setoid_rewrite Hb. naive_solver.
Qed.

(** A set says it matches nothing exactly when every source row's key is
    incomplete, whichever form the set takes. *)
Theorem matches_nothing_spec {K : ArrowKernels} {L : ArrowLaws K} {R : RowFormat} sources left shapes bn :
  keyed sources left shapes -> readable_shapes shapes -> paths_fit sources left ->
  exists ks, KeySet_build sources left bn = Ok ks /\
    (ks_matches_nothing ks = true <-> forall b row, b ∈ sources -> row < num_rows b -> key_of b left row = None).
Proof.
  intros Hs Hr Hfit. destruct (KeySet_build_ok sources left shapes bn Hs Hr Hfit) as (ks & E & _ & _ & _ & Hm & _).
  exists ks. split; [done|]. rewrite Hm. unfold some_key, has_key. split.
  - intros Hno b row Hb Hrow. destruct (key_of b left row) as [ps|] eqn:Ek; [|done]. destruct Hno. by exists ps, b, row.
  - intros Hall (ps & b & row & Hb & Hrow & Hk). specialize (Hall b row Hb Hrow). congruence.
Qed.

(** ** Witnesses *)

Import ArrowInstances.
Import RowFormatInstances.

(** Instructions of a block, keyed by block, transaction and address, and target
    rows that store the same columns at other widths. *)
Definition source_rows : list RecordBatch :=
  [ {| columns := [("block"%string, AInt UInt32 [7; 7; 9]%Z None);
                   ("tx"%string, AInt UInt16 [0; 1; 1]%Z (Some [true; true; false]));
                   ("address"%string, AList [0; 1; 3; 3]%Z (AInt UInt16 [0; 0; 1]%Z None) None)];
       num_rows := 3 |} ].

Definition target_rows : RecordBatch :=
  {| columns := [("block_number"%string, AInt UInt64 [7; 7; 9; 8]%Z None);
                 ("index"%string, AInt Int32 [0; 1; 1; 0]%Z None);
                 ("path"%string, AList [0; 1; 3; 3; 4]%Z (AInt Int64 [0; 0; 1; 0]%Z None) None)];
     num_rows := 4 |}.

Definition source_keys : list string := ["block"%string; "tx"%string; "address"%string].
Definition target_keys : list string := ["block_number"%string; "index"%string; "path"%string].

Ltac check_batch := unfold batch_ok; cbn -[Z.pow]; repeat constructor; cbn -[Z.pow]; try lia; try done.

Lemma source_rows_keyed : keyed source_rows source_keys [SInt; SInt; SPath].
Proof. constructor; [|constructor]. split_and!; [|repeat constructor; cbn -[Z.pow]; lia|reflexivity]. check_batch. Qed.

Lemma source_rows_fit : paths_fit source_rows source_keys.
Proof. vm_compute. reflexivity. Qed.

Lemma path_shapes_readable : readable_shapes [SInt; SInt; SPath].
Proof. repeat (apply Forall_cons; split; [auto|]). constructor. Qed.

Example filter_by_path :
  (let* f := KeyFilter_build source_rows source_keys target_keys "block" "block_number" in
   kf_mask f target_rows None) = Ok (of_bools [true; true; false; false]).
Proof. vm_compute. reflexivity. Qed.

Example filter_by_pair :
  (let* f := KeyFilter_build source_rows (take 2 source_keys) (take 2 target_keys) "block" "block_number" in
   kf_mask f target_rows (Some [false; true; true; true])) = Ok (of_bools [false; true; false; false]).
Proof. vm_compute. reflexivity. Qed.

Example filter_by_bytes :
  (let* f := KeyFilter_build source_rows (take 1 source_keys) (take 1 target_keys) "block" "block_number" in
   kf_mask f target_rows None) = Ok (of_bools [true; true; true; false]).
Proof. vm_compute. reflexivity. Qed.

Lemma key_filter_spec_witness :
  exists f, KeyFilter_build source_rows source_keys target_keys "block" "block_number" = Ok f /\
    forall b candidates, keyed [b] target_keys [SInt; SInt; SPath] ->
      exists kept, kf_mask f b candidates = Ok (of_bools kept) /\ length kept = num_rows b /\
        forall row, row < num_rows b -> kept !! row = Some true <->
          is_candidate candidates row /\
          exists ps, key_of b target_keys row = Some ps /\ has_key source_rows source_keys ps.
Proof.
  apply key_filter_spec; [exact source_rows_keyed|exact path_shapes_readable|exact source_rows_fit|reflexivity].
Defined.

Lemma has_block_within_spec_witness :
  exists f, KeyFilter_build source_rows source_keys target_keys "block" "block_number" = Ok f /\
    (has_block_within f 8 12 = true <->
     exists b row block, b ∈ source_rows /\ row < num_rows b /\ is_Some (key_of b source_keys row) /\
       block_of b "block" row = Some block /\ (8 <= block <= 12)%Z).
Proof.
  apply (has_block_within_spec source_rows source_keys target_keys [SInt; SInt; SPath]);
    [exact source_rows_keyed|exact path_shapes_readable|exact source_rows_fit|reflexivity].
Defined.

Lemma matches_nothing_spec_witness :
  exists ks, KeySet_build source_rows source_keys "block" = Ok ks /\
    (ks_matches_nothing ks = true <->
     forall b row, b ∈ source_rows -> row < num_rows b -> key_of b source_keys row = None).
Proof.
  apply (matches_nothing_spec source_rows source_keys [SInt; SInt; SPath]);
    [exact source_rows_keyed|exact path_shapes_readable|exact source_rows_fit].
Defined.

Definition row_columns : list string := ["block"%string; "tx"%string].

Lemma source_rows_table : Forall (of_table row_columns [DInt UInt32; DInt UInt16]) source_rows.
Proof. constructor; [|constructor]. split_and!; [|repeat constructor; cbn -[Z.pow]; lia|reflexivity]. check_batch. Qed.

(** The row with a null is found by its bytes, and no other row of its block. *)
Example rows_by_identity :
  (let* f := for_rows source_rows row_columns "block" in
   kf_mask f {| columns := [("block"%string, AInt UInt32 [9; 9]%Z None);
                            ("tx"%string, AInt UInt16 [1; 1]%Z (Some [true; false]))];
                num_rows := 2 |} None) = Ok (of_bools [false; true]).
Proof. vm_compute. reflexivity. Qed.

Lemma for_rows_spec_witness :
  exists f, for_rows source_rows row_columns "block" = Ok f /\ checks_blocks_first f = true /\
    (forall min max, has_block_within f min max = true <-> exists b row block,
      b ∈ source_rows /\ row < num_rows b /\ block_of b "block" row = Some block /\ (min <= block <= max)%Z) /\
    forall b candidates, of_table row_columns [DInt UInt32; DInt UInt16] b ->
      exists kept, kf_mask f b candidates = Ok (of_bools kept) /\ length kept = num_rows b /\
        forall row, row < num_rows b -> is_candidate candidates row ->
          kept !! row = Some true <->
          exists b' row', b' ∈ source_rows /\ row' < num_rows b' /\
            cells_of b' row_columns row' = cells_of b row_columns row.
Proof. apply for_rows_spec; [exact source_rows_table|discriminate|reflexivity]. Defined.
