(* ===== verification/Projection.v ===== *)
(** A table's selected fields, resolved against its catalog entry, and the
    columns each step of the query reads for them (src/output/projection.rs),
    with what a row of those columns weighs (RowWeight of
    src/output/weight.rs). *)
From stdpp Require Import base strings list sets.
From Stdlib Require Import ZArith Lia.
From S2P Require Import Prelude Machine ListLib Errors Arrow Catalog.

#[local] Open Scope Z_scope.

(** ** Columns, each once *)

(** [src/src/output/projection.rs:165-175] push_unique. *)
Definition push_unique (cols extra : list string) : list string :=
  fold_left (fun cols column => if decide (column ∈ cols) then cols else cols ++ [column]) extra cols.

(** [src/src/output/projection.rs:156-163] row_key. *)
Definition row_key (desc : TableDescription) : list string :=
  push_unique (push_unique [td_block_number_column desc] (td_item_order_keys desc))
    (option_list (td_address_column desc)).

(** [src/src/output/projection.rs:177-208] required_columns. *)
Definition required_columns (rendered : list string) (desc : TableDescription) : list string :=
  fold_left (fun required name =>
    match column desc name with
    | None => required
    | Some declared =>
        if cd_system declared then required else
        let required := push_unique required [name] in
        match cd_weight declared with
        | Some (WeightColumn size) => push_unique required [size]
        | _ => required
        end
    end) rendered [].

(** ** What a row weighs *)

(** [src/src/output/weight.rs:20-21] DEFAULT_ROW_WEIGHT. *)
Definition DEFAULT_ROW_WEIGHT : Z := 32.

(** [src/src/output/weight.rs:35-43] RowWeight. *)
Record RowWeight := { rw_fixed : Z; rw_columns : list string }.

(** [src/src/output/weight.rs:L65-80] RowWeight::of_columns: the body of its loop. *)
Definition weigh_column (desc : TableDescription) (weight : RowWeight) (name : string) : RowWeight :=
  match column desc name with
  | None => weight
  | Some declared =>
      if cd_system declared then weight else
      match cd_weight declared with
      | Some (WeightColumn size) => {| rw_fixed := rw_fixed weight; rw_columns := rw_columns weight ++ [size] |}
      | Some (WeightFixed fixed) =>
          {| rw_fixed := sat_add (rw_fixed weight) fixed; rw_columns := rw_columns weight |}
      | None => {| rw_fixed := sat_add (rw_fixed weight) DEFAULT_ROW_WEIGHT; rw_columns := rw_columns weight |}
      end
  end.

(** [src/src/output/weight.rs:56-83] RowWeight::of_columns. *)
Definition weight_of_columns (cols : list string) (desc : TableDescription) : RowWeight :=
  fold_left (weigh_column desc) cols {| rw_fixed := 0; rw_columns := [] |}.

(** [src/src/output/weight.rs:46-54] RowWeight::of. *)
Definition RowWeight_of (rendered : list string) (desc : TableDescription) : RowWeight :=
  weight_of_columns (push_unique (push_unique [] (weight_key desc)) rendered) desc.

(** ** Projections *)

(** [src/src/output/projection.rs:15-20] SelectedField. *)
Record SelectedField := { sf_name : string; sf_source : FieldSource }.

(** [src/src/output/projection.rs:22-42] ResolvedProjection. *)
Record ResolvedProjection := {
  rp_table : string;
  rp_desc : TableDescription;
  rp_names : list string;
  rp_fields : list SelectedField;
  rp_rendered : list string;
  rp_required : list string;
  rp_weight : RowWeight;
  rp_row_columns : list string;
  rp_size_columns : list string;
}.

(** [src/src/output/projection.rs:45-95] ResolvedProjection::resolve. *)
Definition resolve (table : string) (desc : TableDescription) (names : list string)
    : result ResolvedProjection :=
  let* fields := mapM_ok (fun name =>
    let* source := ok_or (field_source desc name) (EngineError UnknownField) in
    Ok {| sf_name := name; sf_source := source |}) names in
  let rendered := fold_left (fun rendered field => push_unique rendered (source_columns (sf_source field))) fields [] in
  let weight := RowWeight_of rendered desc in
  let row_columns := push_unique (row_key desc) (option_list (os_variant_column (td_output desc))) in
  let row_columns := push_unique row_columns rendered in
  let row_columns := push_unique row_columns (rw_columns weight) in
  let size_columns := push_unique [td_block_number_column desc] (rw_columns weight) in
  Ok {| rp_table := table; rp_desc := desc; rp_names := names; rp_fields := fields; rp_rendered := rendered;
        rp_required := required_columns rendered desc; rp_weight := weight;
        rp_row_columns := row_columns; rp_size_columns := size_columns |}.

(** [src/src/output/projection.rs:144-153] ResolvedProjection::with_relation_keys:
    the left keys of the relations, in order. *)
Definition with_relation_keys (self : ResolvedProjection) (left_keys : list (list string)) : list string :=
  fold_left push_unique left_keys (rp_row_columns self).

(** ** Lists of distinct columns *)

Lemma push_unique_elem cols extra c : c ∈ push_unique cols extra <-> c ∈ cols \/ c ∈ extra.
Proof.
  unfold push_unique. revert cols; induction extra as [|e extra IH]; intros cols; cbn [fold_left].
  { split; [by left|]. by intros [|?%not_elem_of_nil]. }
  rewrite IH. case_decide; set_solver.
Qed.

Lemma push_unique_NoDup cols extra : NoDup cols -> NoDup (push_unique cols extra).
Proof.
  unfold push_unique. revert cols; induction extra as [|e extra IH]; intros cols Hc; [done|]. cbn [fold_left].
  apply IH. case_decide; [done|]. apply NoDup_app. split_and!; [done|set_solver|apply NoDup_singleton].
Qed.

Lemma push_unique_prefix cols extra : cols `prefix_of` push_unique cols extra.
Proof.
  unfold push_unique. revert cols; induction extra as [|e extra IH]; intros cols; [done|]. cbn [fold_left].
  etrans; [|apply IH]. case_decide; [done|]. by eexists.
Qed.

Lemma push_all_elem {A} (f : A -> list string) l cols c :
  c ∈ fold_left (fun cols a => push_unique cols (f a)) l cols <-> c ∈ cols \/ exists a, a ∈ l /\ c ∈ f a.
Proof.
  revert cols; induction l as [|a l IH]; intros cols; cbn [fold_left].
  { split; [by left|]. by intros [|(? & ?%not_elem_of_nil & _)]. }
  rewrite IH, push_unique_elem. setoid_rewrite elem_of_cons. naive_solver.
Qed.

Lemma fold_left_ext {A B} (f g : A -> B -> A) l a :
  (forall a b, f a b = g a b) -> fold_left f l a = fold_left g l a.
Proof. intros H. revert a; induction l as [|b l IH]; intros a; [done|]. cbn. by rewrite H. Qed.

Lemma push_all_NoDup {A} (f : A -> list string) l cols :
  NoDup cols -> NoDup (fold_left (fun cols a => push_unique cols (f a)) l cols).
Proof.
  revert cols; induction l as [|a l IH]; intros cols Hc; [done|]. apply IH. by apply push_unique_NoDup.
Qed.

Lemma row_key_elem desc c :
  c ∈ row_key desc <-> c = td_block_number_column desc \/ c ∈ td_item_order_keys desc \/
    td_address_column desc = Some c.
Proof.
  unfold row_key. rewrite !push_unique_elem, list_elem_of_singleton.
  destruct (td_address_column desc) as [a|]; cbn; [rewrite list_elem_of_singleton|]; set_solver.
Qed.

Lemma row_key_NoDup desc : NoDup (row_key desc).
Proof. apply push_unique_NoDup, push_unique_NoDup, NoDup_singleton. Qed.

(** The block number comes first. *)
Lemma row_key_head desc : exists rest, row_key desc = td_block_number_column desc :: rest.
Proof.
  unfold row_key. destruct (push_unique_prefix [td_block_number_column desc] (td_item_order_keys desc)) as [l ->].
  destruct (push_unique_prefix ([td_block_number_column desc] ++ l) (option_list (td_address_column desc))) as [k ->].
  by eexists.
Qed.

(** ** The columns a projection reads *)

(** What a rendered column requires of the chunk. *)
Definition required_of (desc : TableDescription) (name : string) : list string :=
  match column desc name with
  | Some declared => if cd_system declared then [] else
      name :: match cd_weight declared with Some (WeightColumn size) => [size] | _ => [] end
  | None => []
  end.

Lemma required_all rendered desc :
  required_columns rendered desc =
  fold_left (fun cols name => push_unique cols (required_of desc name)) rendered [].
Proof.
  unfold required_columns. apply fold_left_ext. intros acc name. unfold required_of.
  destruct (column desc name) as [d|]; [|done]. destruct (cd_system d); [done|]. by destruct (cd_weight d) as [[]|].
Qed.

Lemma required_elem rendered desc c :
  c ∈ required_columns rendered desc <-> exists name declared,
    name ∈ rendered /\ column desc name = Some declared /\ cd_system declared = false /\
    (c = name \/ cd_weight declared = Some (WeightColumn c)).
Proof.
  rewrite required_all, push_all_elem. split.
  - intros [?%not_elem_of_nil|(name & Hin & Hc)]; [done|]. unfold required_of in Hc. exists name.
    destruct (column desc name) as [d|]; [|by apply not_elem_of_nil in Hc]. exists d.
    destruct (cd_system d); [by apply not_elem_of_nil in Hc|]. split_and!; [done..|].
    destruct (cd_weight d) as [[]|]; set_solver.
  - intros (name & d & Hin & Ed & Es & Hc). right. exists name. split; [done|]. unfold required_of. rewrite Ed, Es.
    destruct Hc as [->|Hw]; [by left|]. rewrite Hw. set_solver.
Qed.

Lemma required_NoDup rendered desc : NoDup (required_columns rendered desc).
Proof. rewrite required_all. apply push_all_NoDup. constructor. Qed.

(** What a column charges a row: a fixed part, or a size column. *)
Definition fixed_part (desc : TableDescription) (c : string) : Z :=
  match column desc c with
  | Some d => if cd_system d then 0 else
      match cd_weight d with
      | Some (WeightColumn _) => 0
      | Some (WeightFixed w) => w
      | None => DEFAULT_ROW_WEIGHT
      end
  | None => 0
  end.

Definition size_part (desc : TableDescription) (c : string) : option string :=
  match column desc c with
  | Some d => if cd_system d then None else
      match cd_weight d with Some (WeightColumn size) => Some size | _ => None end
  | None => None
  end.

Definition sum_z (l : list Z) : Z := foldr Z.add 0 l.

(** A catalog's fixed weights are [u64]. *)
Definition weights_u64 (desc : TableDescription) : Prop :=
  Forall (fun c => match cd_weight c.2 with Some (WeightFixed w) => is_u64 w | _ => True end) (td_columns desc).

Lemma fixed_part_u64 desc c : weights_u64 desc -> is_u64 (fixed_part desc c).
Proof.
  intros Hw. unfold fixed_part, column. destruct (assoc c (td_columns desc)) as [d|] eqn:E; [|done].
  apply assoc_elem_of in E. unfold weights_u64 in Hw. rewrite Forall_forall in Hw. specialize (Hw _ E). cbn in Hw.
  destruct (cd_system d); [done|]. by destruct (cd_weight d) as [[]|].
Qed.

Lemma sum_z_nonneg l : Forall is_u64 l -> 0 <= sum_z l.
Proof. unfold sum_z. induction 1 as [|x l [] _ IH]; cbn; lia. Qed.

Lemma weigh_column_spec desc w c :
  weights_u64 desc -> 0 <= rw_fixed w <= u64_max ->
  rw_fixed (weigh_column desc w c) = Z.min (rw_fixed w + fixed_part desc c) u64_max /\
  rw_columns (weigh_column desc w c) = rw_columns w ++ option_list (size_part desc c).
Proof.
  intros Hw Hr. unfold weigh_column, fixed_part, size_part.
  destruct (column desc c) as [d|]; [|cbn; rewrite app_nil_r; split; [lia|done]].
  destruct (cd_system d); [cbn; rewrite app_nil_r; split; [lia|done]|].
  destruct (cd_weight d) as [[size|x]|]; cbn; rewrite ?app_nil_r; unfold sat_add; (split; [lia|done]).
Qed.

Lemma weight_of_columns_spec desc cols :
  weights_u64 desc ->
  rw_fixed (weight_of_columns cols desc) = Z.min (sum_z (fixed_part desc <$> cols)) u64_max /\
  rw_columns (weight_of_columns cols desc) = omap (size_part desc) cols.
Proof.
  intros Hw. unfold weight_of_columns.
  assert (Hgen : forall w, 0 <= rw_fixed w <= u64_max ->
    rw_fixed (fold_left (weigh_column desc) cols w) = Z.min (rw_fixed w + sum_z (fixed_part desc <$> cols)) u64_max /\
    rw_columns (fold_left (weigh_column desc) cols w) = rw_columns w ++ omap (size_part desc) cols).
  { induction cols as [|c cols IH]; intros w Hr; cbn [fold_left].
    { csimpl. rewrite app_nil_r. cbn. split; [lia|done]. }
    change (omap (size_part desc) (c :: cols)) with
      (match size_part desc c with Some y => y :: omap (size_part desc) cols | None => omap (size_part desc) cols end).
    assert (Hs : 0 <= sum_z (fixed_part desc <$> cols)).
    { apply sum_z_nonneg, Forall_fmap, Forall_true. intros x. by apply fixed_part_u64. }
    pose proof (fixed_part_u64 desc c Hw) as [Hc _]. destruct (weigh_column_spec desc w c Hw Hr) as [E1 E2].
    destruct (IH (weigh_column desc w c)) as [-> ->]; [rewrite E1; unfold u64_max in *; lia|].
    rewrite E1, E2, fmap_cons, <- app_assoc. cbn [sum_z foldr]. fold (sum_z (fixed_part desc <$> cols)).
    split; [lia|]. by destruct (size_part desc c). }
  destruct (Hgen {| rw_fixed := 0; rw_columns := [] |}) as [-> ->]; [cbn; unfold u64_max; lia|]. done.
Qed.

(** ** Properties *)

(** A row is charged once for each distinct column of its weight key and its
    rendered columns: the fixed parts add up, saturating, whatever the order,
    and every column weighed by its size adds that size column - one entry for
    each, though two share one. *)
Theorem RowWeight_of_spec rendered desc :
  weights_u64 desc ->
  exists charged, NoDup charged /\ (forall c, c ∈ charged <-> c ∈ weight_key desc \/ c ∈ rendered) /\
    rw_fixed (RowWeight_of rendered desc) = Z.min (sum_z (fixed_part desc <$> charged)) u64_max /\
    rw_columns (RowWeight_of rendered desc) = omap (size_part desc) charged.
Proof.
  intros Hw. exists (push_unique (push_unique [] (weight_key desc)) rendered). split_and!.
  - apply push_unique_NoDup, push_unique_NoDup. constructor.
  - intros c. rewrite !push_unique_elem. set_solver.
  - by apply weight_of_columns_spec.
  - by apply weight_of_columns_spec.
Qed.

(** Resolving a selection fails, with [UnknownField], exactly when a name is
    no field of the catalog. Otherwise it renders exactly the columns of its
    fields, and every list it reads by names each column once: the row columns
    start with the row key and hold the variant column, the rendered columns
    and every size column that weighs a row; the size columns are among them,
    and a rendered column's size column is required, read and weighed. *)
Theorem resolve_spec table desc names :
  if forallb (fun name => bool_decide (is_Some (field_source desc name))) names
  then exists p, resolve table desc names = Ok p /\
    sf_name <$> rp_fields p = names /\
    NoDup (rp_rendered p) /\ NoDup (rp_required p) /\ NoDup (rp_row_columns p) /\ NoDup (rp_size_columns p) /\
    row_key desc `prefix_of` rp_row_columns p /\
    (forall c, c ∈ rp_rendered p <-> exists name, name ∈ names /\ c ∈ field_columns desc name) /\
    (forall c, c ∈ rp_row_columns p <->
       c ∈ row_key desc \/ os_variant_column (td_output desc) = Some c \/ c ∈ rp_rendered p \/
       c ∈ rw_columns (rp_weight p)) /\
    (forall c, c ∈ rp_size_columns p <-> c = td_block_number_column desc \/ c ∈ rw_columns (rp_weight p)) /\
    (forall c, c ∈ rp_required p <-> exists name declared,
       name ∈ rp_rendered p /\ column desc name = Some declared /\ cd_system declared = false /\
       (c = name \/ cd_weight declared = Some (WeightColumn c)))
  else resolve table desc names = Err (EngineError UnknownField).
Proof.
  unfold resolve. set (field name := let* source := ok_or (field_source desc name) (EngineError UnknownField) in
    Ok {| sf_name := name; sf_source := source |}).
  destruct (forallb _ names) eqn:Hall.
  - assert (Hf : mapM_ok field names = Ok ((fun name => {| sf_name := name;
      sf_source := default (SourceColumn name) (field_source desc name) |}) <$> names)).
    { apply mapM_ok_pure, Forall_forall. intros name Hin. rewrite forallb_forall in Hall.
      specialize (Hall name (proj1 (list_elem_of_In _ _) Hin)). apply bool_decide_eq_true in Hall as [s Es].
      unfold field. by rewrite Es. }
    rewrite Hf; cbn [obind]. eexists; split; [done|]. cbn. split_and!.
    + rewrite <- list_fmap_compose. by apply list_fmap_id.
    + apply push_all_NoDup. constructor.
    + apply required_NoDup.
    + repeat apply push_unique_NoDup. apply NoDup_singleton.
    + repeat apply push_unique_NoDup. apply NoDup_singleton.
    + do 2 (etrans; [|apply push_unique_prefix]). apply push_unique_prefix.
    + intros c. rewrite push_all_elem. setoid_rewrite list_elem_of_fmap. split.
      * intros [?%not_elem_of_nil|(f & (name & -> & Hin) & Hc)]; [done|]. exists name. split; [done|]. cbn in Hc.
        rewrite forallb_forall in Hall. specialize (Hall name (proj1 (list_elem_of_In _ _) Hin)).
        apply bool_decide_eq_true in Hall as [s Es]. unfold field_columns. by rewrite Es in Hc |- *.
      * intros (name & Hin & Hc). right. eexists. split; [by exists name|]. cbn. unfold field_columns in Hc.
        destruct (field_source desc name); [done|by apply not_elem_of_nil in Hc].
    + intros c. rewrite !push_unique_elem. destruct (os_variant_column (td_output desc)); cbn; set_solver.
    + intros c. rewrite push_unique_elem. set_solver.
    + intros c. apply required_elem.
  - assert (Hf : mapM_ok field names = Err (EngineError UnknownField)); [|by rewrite Hf].
    induction names as [|name names IH]; [done|]. cbn in Hall |- *. unfold field at 1.
    destruct (field_source desc name); cbn in Hall |- *; [|done]. by rewrite IH.
Qed.

(** ** Witness *)

Definition plain_column (t : ColumnType) (weight : option WeightSource) : ColumnDescription :=
  {| cd_data_type := t; cd_encoding := None; cd_weight := weight; cd_system := false; cd_fold_case := false;
     cd_members := None |}.

(** A transaction table whose input is weighed by its size. *)
Definition transactions : TableDescription :=
  {| td_request_surface := None;
     td_output := {| os_name := Some "transaction"%string;
                     os_fields := ["hash"%string; "input"%string; "topics"%string];
                     os_virtual_fields := [("topics"%string, Roll ["t0"%string; "t1"%string])];
                     os_variant_column := None; os_variants := [] |};
     td_block_number_column := "block_number"; td_parent_hash_column := None; td_parent_number_column := None;
     td_address_column := None; td_item_order_keys := ["index"%string]; td_declared_weight_key := None;
     td_sort_key := [];
     td_columns := [("block_number"%string, plain_column CtUInt64 None);
                    ("index"%string, plain_column CtUInt32 None);
                    ("hash"%string, plain_column CtString (Some (WeightFixed 64)));
                    ("input"%string, plain_column CtString (Some (WeightColumn "input_size")));
                    ("t0"%string, plain_column CtString None); ("t1"%string, plain_column CtString None)] |}.

Example transactions_resolve :
  omap_ok (fun p => (rp_row_columns p, rp_size_columns p, rp_required p, rp_weight p))
    (resolve "transactions" transactions ["input"%string; "topics"%string; "index"%string]) =
  Ok (["block_number"%string; "index"%string; "input"%string; "t0"%string; "t1"%string; "input_size"%string],
      ["block_number"%string; "input_size"%string],
      ["input"%string; "input_size"%string; "t0"%string; "t1"%string; "index"%string],
      {| rw_fixed := 128; rw_columns := ["input_size"%string] |}).
Proof. vm_compute. reflexivity. Qed.

Lemma RowWeight_of_spec_witness :
  exists charged, NoDup charged /\
    (forall c, c ∈ charged <-> c ∈ weight_key transactions \/ c ∈ ["input"%string; "hash"%string]) /\
    rw_fixed (RowWeight_of ["input"%string; "hash"%string] transactions) =
      Z.min (sum_z (fixed_part transactions <$> charged)) u64_max /\
    rw_columns (RowWeight_of ["input"%string; "hash"%string] transactions) = omap (size_part transactions) charged.
Proof. apply RowWeight_of_spec. repeat constructor; cbn; lia. Defined.
