(* ===== verification/Weight.v ===== *)
(** What the blocks of a response weigh, and which of them a page holds
    (src/output/weight.rs). A hash map of weights is a finite map; the set of
    keys seen is the list of them, searched with the code's own equality:
    [hash_agrees] shows that the hash tells no two equal rows apart. *)
From stdpp Require Import base strings list gmap sets sorting.
From Stdlib Require Import ZArith Lia.
From S2P Require Import Prelude Machine ListLib Errors Arrow Integers Counting Catalog Rows Projection.

#[local] Open Scope Z_scope.

(** [src/src/output/weight.rs:13-18] MAX_RESPONSE_BYTES. *)
Definition MAX_RESPONSE_BYTES : Z := 20 * 1024 * 1024.

(** [src/src/output/weight.rs:23-33] TableOutput. *)
Record TableOutput := { to_rows : Rows; to_relations : gmap nat Rows }.

(** [src/src/output/weight.rs:86-91] WeighedRows. *)
Record WeighedRows := { wr_projection : ResolvedProjection; wr_rows : Rows }.

(** [src/src/output/weight.rs:93-97] WeightContribution. *)
Record WeightContribution := { wc_rows : Rows; wc_weight : RowWeight }.

(** ** A row's weight *)

(** [src/src/output/weight.rs:284-294] weight_columns. *)
Definition weight_columns (batch : RecordBatch) (names : list string) : list IntColumn :=
  omap (fun name => column_by_name batch name ≫= IntColumn_resolve) names.

(** [src/src/output/weight.rs:296-310] weight_at. *)
Definition weight_at (c : IntColumn) (row : nat) : Z :=
  if int_is_null c row then 0 else
  let value := int_value c row in
  if (0 <=? value) && (value <=? u64_max) then value else 0.

(** The fixed part and what each size column says. *)
Definition row_weight (fixed : Z) (cols : list IntColumn) (row : nat) : Z :=
  fold_left (fun sum c => sat_add sum (weight_at c row)) cols fixed.

(** [*weights.entry(block).or_default() = ....saturating_add(weight)]. *)
Definition add_weight (weights : gmap Z Z) (block weight : Z) : gmap Z Z :=
  <[block := sat_add (default 0 (weights !! block)) weight]> weights.

(** A batch's block numbers, where its column is there and readable. *)
Definition readable_blocks (batch : RecordBatch) (bn_column : string) : option BlockNumbers :=
  match column_by_name batch bn_column with
  | Some numbers => match BlockNumbers_resolve numbers with Ok blocks => Some blocks | _ => None end
  | None => None
  end.

(** [src/src/output/weight.rs:312-347] accumulate_block_weights. *)
Definition accumulate_block_weights (batches : list RecordBatch) (bn_column : string)
    (weight : RowWeight) (weights : gmap Z Z) : gmap Z Z :=
  fold_left (fun weights batch =>
    match readable_blocks batch bn_column with
    | None => weights
    | Some blocks =>
        let resolved := weight_columns batch (rw_columns weight) in
        fold_left (fun weights row =>
          add_weight weights (block_at blocks row) (row_weight (rw_fixed weight) resolved row))
          (seq 0 (num_rows batch)) weights
    end) batches weights.

(** ** Rows told apart by their keys *)

(** Data of types with no comparison of their own: [ArrayData]'s equality. *)
Definition same_data (a : array) (ai : nat) (b : array) (bi : nat) : bool :=
  bool_decide (array_type a = array_type b /\ cell_at a ai = cell_at b bi).

(** [src/src/output/weight.rs:479-499] equal_key_value. *)
Fixpoint equal_key_value (a : array) (ai : nat) (b : array) (bi : nat) : bool :=
  if is_null a ai || is_null b bi then is_null a ai && is_null b bi else
  match a, b with
  | AInt _ x _, AInt _ y _ => default 0 (x !! ai) =? default 0 (y !! bi)
  | AText _ x _, AText _ y _ => bool_decide (default ""%string (x !! ai) = default ""%string (y !! bi))
  | AList ox x _, AList oy y _ =>
      let (sx, lx) := (offset_at ox ai, offset_at ox (S ai) - offset_at ox ai)%nat in
      let (sy, ly) := (offset_at oy bi, offset_at oy (S bi) - offset_at oy bi)%nat in
      (lx =? ly)%nat && forallb (fun i => equal_key_value x (sx + i)%nat y (sy + i)%nat) (seq 0 lx)
  | _, _ => same_data a ai b bi
  end.

(** [src/src/output/weight.rs:446-450] WeightRow. *)
Record WeightRow := { wk_columns : list (option array); wk_row : nat }.

(** [src/src/output/weight.rs:L463-477] WeightRow::eq. *)
Definition weight_row_eq (a b : WeightRow) : bool :=
  (length (wk_columns a) =? length (wk_columns b))%nat &&
  forallb (fun cols : option array * option array =>
    match cols with
    | (Some x, Some y) => equal_key_value x (wk_row a) y (wk_row b)
    | (None, None) => true
    | _ => false
    end) (zip (wk_columns a) (wk_columns b)).

(** What a [Hasher] is given. *)
Inductive hash_write :=
  | HashU8 (z : Z)
  | HashI128 (z : Z)
  | HashUsize (n : nat)
  | HashText (s : option string).

(** [src/src/output/weight.rs:501-525] hash_array_value. *)
Fixpoint hash_array_value (col : array) (row : nat) : list hash_write :=
  if is_null col row then [HashU8 255] else
  match col with
  | AInt _ values _ => [HashI128 (default 0 (values !! row))]
  | AText _ values _ => [HashText (Some (default ""%string (values !! row)))]
  | AList offsets values _ =>
      let start := offset_at offsets row in
      let len := (offset_at offsets (S row) - start)%nat in
      HashUsize len :: (seq 0 len ≫= fun i => hash_array_value values (start + i)%nat)
  | _ => [HashU8 254]
  end.

(** [src/src/output/weight.rs:L452-461] WeightRow::hash. *)
Definition weight_row_hash (r : WeightRow) : list hash_write :=
  wk_columns r ≫= fun column =>
    match column with Some column => hash_array_value column (wk_row r) | None => [HashU8 0] end.

(** ** Charging rows once *)

(** [src/src/output/weight.rs:415-444] accumulate_rows. [is_new] carries the set it
    inserts into. *)
Definition accumulate_rows {S} (source : WeightContribution) (batch : RecordBatch) (bn_column : string)
    (is_new : S -> nat -> Z -> result (S * bool)) (st : gmap Z Z * S) : result (gmap Z Z * S) :=
  match readable_blocks batch bn_column with
  | None => Ok st
  | Some blocks =>
      let weight := wc_weight source in
      let cols := weight_columns batch (rw_columns weight) in
      foldM (fun st row =>
        let block := block_at blocks row in
        let* new := is_new st.2 row block in
        Ok (if new.2 : bool then add_weight st.1 block (row_weight (rw_fixed weight) cols row) else st.1, new.1))
        (seq 0 (num_rows batch)) st
  end.

(** [seen.insert(positions.value(row))]. *)
Definition new_position (positions : list Z) (seen : gset Z) (row : nat) (_ : Z) : result (gset Z * bool) :=
  let* position := vec_get positions row in
  Ok ({[position]} ∪ seen, negb (bool_decide (position ∈ seen))).

(** The key columns of a batch. *)
Definition key_arrays (batch : RecordBatch) (key_columns : list string) : list (option array) :=
  column_by_name batch <$> key_columns.

Definition same_key (x y : Z * WeightRow) : bool := (x.1 =? y.1) && weight_row_eq x.2 y.2.

(** [seen.insert((block, WeightRow { columns, row }))]. *)
Definition new_key (cols : list (option array)) (seen : list (Z * WeightRow)) (row : nat) (block : Z)
    : result (list (Z * WeightRow) * bool) :=
  let key := (block, {| wk_columns := cols; wk_row := row |}) in
  Ok (if existsb (same_key key) seen then (seen, false) else (seen ++ [key], true)).

(** [src/src/output/weight.rs:349-413] accumulate_dedup_contributions. *)
Definition accumulate_dedup_contributions (contributions : list WeightContribution) (bn_column : string)
    (key_columns : list string) (weights : gmap Z Z) : result (gmap Z Z) :=
  let sources := filter (fun s => rw_batches (wc_rows s) <> []) contributions in
  let positioned := length (filter (fun s => is_Some (rw_positions (wc_rows s))) sources) in
  if (positioned =? length sources)%nat then
    let* st := foldM (fun st source =>
      let* positions := expect (rw_positions (wc_rows source)) in
      foldM (fun st (e : RecordBatch * list Z) => accumulate_rows source e.1 bn_column (new_position e.2) st)
        (zip (rw_batches (wc_rows source)) positions) st) sources (weights, ∅) in
    Ok st.1
  else
    let* _ := ensure (positioned =? 0)%nat OtherError in
    let batches := sources ≫= fun source => pair source <$> rw_batches (wc_rows source) in
    let* st := foldM (fun st (e : WeightContribution * RecordBatch) =>
      accumulate_rows e.1 e.2 bn_column (new_key (key_arrays e.2 key_columns)) st) batches (weights, []) in
    Ok st.1.

(** [src/src/output/weight.rs:L113-121] compute_block_weights: the sources of
    each table, in the order the tables come. *)
Fixpoint group_source (tables : list (string * list WeighedRows)) (source : WeighedRows)
    : list (string * list WeighedRows) :=
  match tables with
  | [] => [(rp_table (wr_projection source), [source])]
  | (name, group) :: tables =>
      if decide (name = rp_table (wr_projection source)) then (name, group ++ [source]) :: tables
      else (name, group) :: group_source tables source
  end.

(** [src/src/output/weight.rs:L126-160] compute_block_weights: one table. *)
Definition table_weights (weights : gmap Z Z) (group : list WeighedRows) : result (gmap Z Z) :=
  let* first := vec_get group 0 in
  let table_desc := rp_desc (wr_projection first) in
  let bn_col_name := td_block_number_column table_desc in
  match group with
  | [source] =>
      Ok (accumulate_block_weights (rw_batches (wr_rows source)) bn_col_name
            (rp_weight (wr_projection source)) weights)
  | contribs =>
      let dedup_keys := drop 1 (row_key table_desc) in
      let contributions :=
        (fun source => {| wc_rows := wr_rows source; wc_weight := rp_weight (wr_projection source) |}) <$> contribs in
      accumulate_dedup_contributions contributions bn_col_name dedup_keys weights
  end.

(** [src/src/output/weight.rs:L162-203] compute_block_weights: a header batch. *)
Definition header_weights (header : ResolvedProjection) (candidates : gset Z) (weights : gmap Z Z)
    (batch : RecordBatch) : gmap Z Z :=
  match readable_blocks batch (td_block_number_column (rp_desc header)) with
  | None => weights
  | Some blocks =>
      let cols := weight_columns batch (rw_columns (rp_weight header)) in
      fold_left (fun weights i =>
        let block_num := block_at blocks i in
        if bool_decide (block_num ∈ candidates) then
          let dynamic := fold_left sat_add ((fun c => weight_at c i) <$> cols) 0 in
          add_weight weights block_num (sat_add (rw_fixed (rp_weight header)) dynamic)
        else weights) (seq 0 (num_rows batch)) weights
  end.

(** [src/src/output/weight.rs:99-206] compute_block_weights. *)
Definition compute_block_weights (sources : list WeighedRows) (header : ResolvedProjection)
    (header_batches : list RecordBatch) (candidates : list Z) : result (gmap Z Z) :=
  let tables := fold_left group_source sources [] in
  let* block_weights := foldM (fun weights (t : string * list WeighedRows) => table_weights weights t.2) tables ∅ in
  Ok (fold_left (header_weights header (list_to_set candidates)) header_batches block_weights).

(** ** The prefix of blocks a page holds *)

(** [src/src/output/weight.rs:208-215] BlockSelection. *)
Record BlockSelection := {
  bs_budget : Z;
  bs_cumulative : Z;
  bs_blocks : list Z;
  bs_weights : list Z;
}.

(** [src/src/output/weight.rs:218-225] BlockSelection::new. *)
Definition BlockSelection_new (budget : Z) : BlockSelection :=
  {| bs_budget := budget; bs_cumulative := 0; bs_blocks := []; bs_weights := [] |}.

(** [src/src/output/weight.rs:227-241] BlockSelection::extend. *)
Fixpoint extend (self : BlockSelection) (blocks : list Z) (weights : gmap Z Z) : BlockSelection * bool :=
  match blocks with
  | [] => (self, false)
  | block :: blocks =>
      let weight := default 0 (weights !! block) in
      let cumulative := sat_add (bs_cumulative self) weight in
      let takes := bool_decide (bs_blocks self = []) || (cumulative <=? bs_budget self) in
      let self :=
        {| bs_budget := bs_budget self; bs_cumulative := cumulative;
           bs_blocks := if takes then bs_blocks self ++ [block] else bs_blocks self;
           bs_weights := if takes then bs_weights self ++ [weight] else bs_weights self |} in
      if bs_budget self <? cumulative then (self, true) else extend self blocks weights
  end.

(** [src/src/output/weight.rs:243-246] BlockSelection::into_blocks. *)
Definition into_blocks (self : BlockSelection) : list Z * list Z := (bs_blocks self, bs_weights self).

(** The first block the running sum of whose weights passes the budget. *)
Fixpoint crossing (blocks : list (Z * Z)) (budget cumulative : Z) : option Z :=
  match blocks with
  | [] => None
  | (block, weight) :: blocks =>
      let cumulative := sat_add cumulative weight in
      if budget <? cumulative then Some block else crossing blocks budget cumulative
  end.

(** [src/src/output/weight.rs:258-282] weight_range_end. *)
Definition weight_range_end (narrow_batches : list RecordBatch) (projection : ResolvedProjection)
    (budget : Z) : option Z :=
  let weights := accumulate_block_weights narrow_batches
    (td_block_number_column (rp_desc projection)) (rp_weight projection) ∅ in
  let blocks := sort_by (fun x y : Z * Z => x.1 <=? y.1) (map_to_list weights) in
  crossing blocks budget 0.

(** ** Charges

    A charge is a block and a weight; weighing adds up the charges of each
    block. *)

Abbreviation charge := (Z * Z)%type.
Definition add_charge (weights : gmap Z Z) (c : charge) : gmap Z Z := add_weight weights c.1 c.2.
Definition add_charges (weights : gmap Z Z) (cs : list charge) : gmap Z Z := fold_left add_charge cs weights.

(** What the charges of a block come to. *)
Definition total (cs : list charge) (block : Z) : Z := sum_z (snd <$> filter (fun c => c.1 = block) cs).

Lemma total_cons c cs block :
  total (c :: cs) block = (if decide (c.1 = block) then c.2 else 0) + total cs block.
Proof.
  unfold total. rewrite filter_cons. case_decide; [|done]. rewrite fmap_cons. done.
Qed.

Lemma total_app cs ds block : total (cs ++ ds) block = total cs block + total ds block.
Proof.
  induction cs as [|c cs IH]; [done|]. cbn [app]. rewrite !total_cons, IH. lia.
Qed.

Definition charges_ok (cs : list charge) : Prop := Forall (fun c : charge => 0 <= c.2) cs.

Lemma total_nonneg cs block : charges_ok cs -> 0 <= total cs block.
Proof. induction 1 as [|c cs Hc Hcs IH]; [done|]. rewrite total_cons. case_decide; lia. Qed.

(** The map of weights: every weight is a [u64]. *)
Definition weights_ok (weights : gmap Z Z) : Prop := forall block, 0 <= default 0 (weights !! block) <= u64_max.

Lemma add_charges_spec cs weights :
  charges_ok cs -> weights_ok weights ->
  weights_ok (add_charges weights cs) /\
  forall block, default 0 (add_charges weights cs !! block) =
    Z.min (default 0 (weights !! block) + total cs block) u64_max.
Proof.
  intros Hcs. revert weights. induction Hcs as [|c cs Hc Hcs IH]; intros weights Hw.
  { split; [done|]. intros block. cbn. unfold total; cbn. pose proof (Hw block). lia. }
  unfold add_charges; cbn [fold_left]. fold (add_charges (add_charge weights c) cs).
  assert (Hone : forall block, default 0 (add_charge weights c !! block) =
    Z.min (default 0 (weights !! block) + (if decide (c.1 = block) then c.2 else 0)) u64_max).
  { intros block. unfold add_charge, add_weight. pose proof (Hw block). case_decide as E.
    - subst. rewrite lookup_insert_eq. cbn. unfold sat_add. lia.
    - rewrite lookup_insert_ne by done. lia. }
  destruct (IH (add_charge weights c)) as [Hok Hv].
  { intros block. rewrite Hone. pose proof (Hw block). case_decide; unfold u64_max in *; lia. }
  split; [done|]. intros block. rewrite Hv, Hone, total_cons. pose proof (Hw block).
  pose proof (total_nonneg cs block Hcs). case_decide; lia.
Qed.

Lemma weight_at_nonneg c row : 0 <= weight_at c row.
Proof.
  unfold weight_at. destruct (int_is_null c row); [done|]. destruct (_ && _) eqn:E; [|done].
  apply andb_true_iff in E as [?%Z.leb_le _]. done.
Qed.

Lemma row_weight_sum fixed cols row :
  0 <= fixed <= u64_max ->
  row_weight fixed cols row = Z.min (fixed + sum_z ((fun c => weight_at c row) <$> cols)) u64_max.
Proof.
  unfold row_weight. revert fixed. induction cols as [|c cols IH]; intros fixed Hf; cbn [fold_left].
  { cbn. lia. }
  pose proof (weight_at_nonneg c row). rewrite IH by (apply sat_add_range; lia). rewrite fmap_cons. cbn.
  assert (0 <= sum_z ((fun c => weight_at c row) <$> cols)).
  { clear. induction cols as [|c cols IH]; [done|]. rewrite fmap_cons. pose proof (weight_at_nonneg c row).
    unfold sum_z in *. cbn. lia. }
  unfold sum_z in *. unfold sat_add. lia.
Qed.

(** The rows of a batch with their blocks, as the code reads them. *)
Definition batch_rows (batch : RecordBatch) (bn_column : string) : list (nat * Z) :=
  match readable_blocks batch bn_column with
  | Some blocks => (fun row => (row, block_at blocks row)) <$> seq 0 (num_rows batch)
  | None => []
  end.

Definition weight_in (weight : RowWeight) (batch : RecordBatch) (row : nat) : Z :=
  row_weight (rw_fixed weight) (weight_columns batch (rw_columns weight)) row.

Definition batch_charges (bn_column : string) (weight : RowWeight) (batch : RecordBatch) : list charge :=
  (fun r : nat * Z => (r.2, weight_in weight batch r.1)) <$> batch_rows batch bn_column.

Lemma weight_in_range weight batch row : 0 <= rw_fixed weight <= u64_max -> 0 <= weight_in weight batch row <= u64_max.
Proof.
  intros Hf. unfold weight_in, row_weight. revert Hf. generalize (rw_fixed weight).
  induction (weight_columns batch (rw_columns weight)) as [|c cols IH]; intros fixed Hf; [done|]. cbn.
  apply IH. pose proof (weight_at_nonneg c row). apply sat_add_range; lia.
Qed.

Lemma batch_charges_ok bn_column weight batch :
  0 <= rw_fixed weight <= u64_max -> charges_ok (batch_charges bn_column weight batch).
Proof.
  intros Hf. apply Forall_fmap, Forall_true. intros [row block]; cbn. by apply weight_in_range.
Qed.

Lemma accumulate_charges batches bn_column weight weights :
  accumulate_block_weights batches bn_column weight weights =
  add_charges weights (batches ≫= batch_charges bn_column weight).
Proof.
  unfold accumulate_block_weights. revert weights. induction batches as [|batch batches IH]; intros weights; [done|].
  cbn [fold_left]. rewrite IH, bind_cons. unfold add_charges at 2. rewrite fold_left_app. f_equal.
  unfold batch_charges, batch_rows. destruct (readable_blocks batch bn_column) as [blocks|]; [|done].
  rewrite <- list_fmap_compose. revert weights.
  induction (seq 0 (num_rows batch)) as [|row rows IHr]; intros weights; [done|]. csimpl. apply IHr.
Qed.

(** ** Rows charged once *)

(** A row a source offers: how it is weighed, where it is, its block and its
    position in the file when the scan recorded it. *)
Record counted := {
  ct_weight : RowWeight;
  ct_batch : RecordBatch;
  ct_row : nat;
  ct_block : Z;
  ct_position : Z;
}.

Definition charge_of (c : counted) : charge := (ct_block c, weight_in (ct_weight c) (ct_batch c) (ct_row c)).

Definition counted_rows (bn_column : string) (weight : RowWeight) (batch : RecordBatch) (positions : list Z)
    : list counted :=
  (fun r : nat * Z => {| ct_weight := weight; ct_batch := batch; ct_row := r.1; ct_block := r.2;
                         ct_position := default 0 (positions !! r.1) |}) <$> batch_rows batch bn_column.

Definition contribution_rows (bn_column : string) (s : WeightContribution) : list counted :=
  match rw_positions (wc_rows s) with
  | Some positions =>
      zip (rw_batches (wc_rows s)) positions ≫= fun e => counted_rows bn_column (wc_weight s) e.1 e.2
  | None => rw_batches (wc_rows s) ≫= fun batch => counted_rows bn_column (wc_weight s) batch []
  end.

(** The first of the rows that are the same, in order. *)
Definition keep_first (same : counted -> counted -> bool) (kept : list counted) (c : counted) : list counted :=
  if existsb (same c) kept then kept else kept ++ [c].
Definition first_rows (same : counted -> counted -> bool) (rows kept : list counted) : list counted :=
  fold_left (keep_first same) rows kept.

Lemma first_rows_spec same rows kept :
  (forall c, same c c = true) ->
  let result := first_rows same rows kept in
  kept `prefix_of` result /\
  (forall c, c ∈ result -> c ∈ kept \/ c ∈ rows) /\
  (forall c, c ∈ rows -> exists d, d ∈ result /\ same c d = true) /\
  (StronglySorted (fun c d => same d c = false) kept -> StronglySorted (fun c d => same d c = false) result).
Proof.
  intros Hrefl. unfold first_rows. revert kept. induction rows as [|c rows IH]; intros kept; cbn [fold_left].
  { split_and!; [done|by left|by intros ? ?%not_elem_of_nil|done]. }
  destruct (IH (keep_first same kept c)) as (Hp & Hin & Hcov & Hss).
  assert (Hk : kept `prefix_of` keep_first same kept c).
  { unfold keep_first. destruct (existsb _ _); [done|by eexists]. }
  assert (Hc : exists d, d ∈ keep_first same kept c /\ same c d = true).
  { unfold keep_first. destruct (existsb (same c) kept) eqn:E.
    - apply existsb_exists in E as (d & ?%list_elem_of_In & ?). eauto.
    - exists c. split; [|done]. apply elem_of_app. right. by left. }
  split_and!; [by etrans| | |].
  - intros d Hd. apply Hin in Hd as [Hd|Hd]; [|right; by right]. unfold keep_first in Hd.
    destruct (existsb _ _); [by left|]. apply elem_of_app in Hd as [|[->|?%not_elem_of_nil]%elem_of_cons];
      [by left|right; by left|done].
  - intros d [->|Hd]%elem_of_cons; [|by apply Hcov]. destruct Hc as (e & He & Hs). exists e. split; [|done].
    destruct Hp as [k ->]. apply elem_of_app. by left.
  - intros Hs. apply Hss. unfold keep_first. destruct (existsb (same c) kept) eqn:E; [done|].
    apply StronglySorted_app_2; [|done|repeat constructor].
    intros x y Hx [->|?%not_elem_of_nil]%elem_of_cons; [|done].
    destruct (same c x) eqn:Ecx; [|done]. assert (Ht : existsb (same c) kept = true); [|congruence].
    apply existsb_exists. exists x. split; [by apply list_elem_of_In|done].
Qed.

Section once.
Context {S : Type} (rep : list counted -> S) (same : counted -> counted -> bool).

(** An insertion that keeps the first of the rows that are the same. *)
Definition inserts (is_new : S -> nat -> Z -> result (S * bool)) (rows : list counted) : Prop :=
  forall kept c, c ∈ rows ->
    is_new (rep kept) (ct_row c) (ct_block c) = Ok (rep (keep_first same kept c), negb (existsb (same c) kept)).

Lemma accumulate_rows_ok source batch bn_column positions is_new kept weights :
  inserts is_new (counted_rows bn_column (wc_weight source) batch positions) ->
  let rows := counted_rows bn_column (wc_weight source) batch positions in
  accumulate_rows source batch bn_column is_new (add_charges weights (charge_of <$> kept), rep kept) =
    Ok (add_charges weights (charge_of <$> first_rows same rows kept), rep (first_rows same rows kept)).
Proof.
  unfold inserts, counted_rows, accumulate_rows, batch_rows.
  destruct (readable_blocks batch bn_column) as [blocks|]; [|done]. intros Hnew. cbv zeta in *.
  rewrite <- list_fmap_compose in Hnew |- *. revert Hnew kept.
  induction (seq 0 (num_rows batch)) as [|row rows IH]; intros Hnew kept; [done|].
  rewrite fmap_cons in Hnew |- *. cbn [foldM]. cbn [first_rows fold_left].
  specialize (Hnew kept _ (list_elem_of_here _ _)) as Hfirst. cbn in Hfirst. cbn [fst snd]. rewrite Hfirst. cbn [obind fst snd].
  set (c := {| ct_weight := _ |} : counted) in *.
  match goal with |- foldM _ _ ?st = _ => assert (Est : st =
    (add_charges weights (charge_of <$> keep_first same kept c), rep (keep_first same kept c))) end.
  { f_equal. unfold keep_first. destruct (existsb (same c) kept); cbn [negb]; [done|].
    rewrite fmap_app. unfold add_charges. rewrite fold_left_app. done. }
  rewrite Est. apply IH. intros kept' d Hd. apply Hnew. by right.
Qed.
End once.

Definition same_position (c d : counted) : bool := ct_position c =? ct_position d.

Definition key_of_row (key_columns : list string) (c : counted) : Z * WeightRow :=
  (ct_block c, {| wk_columns := key_arrays (ct_batch c) key_columns; wk_row := ct_row c |}).
Definition same_keys (key_columns : list string) (c d : counted) : bool :=
  same_key (key_of_row key_columns c) (key_of_row key_columns d).

Definition seen_positions (kept : list counted) : gset Z := list_to_set (ct_position <$> kept).

Lemma batch_rows_lt batch bn_column r : r ∈ batch_rows batch bn_column -> (r.1 < num_rows batch)%nat.
Proof.
  unfold batch_rows. destruct (readable_blocks batch bn_column); [|by intros ?%not_elem_of_nil].
  intros (row & -> & Hrow%elem_of_seq)%list_elem_of_fmap. cbn. lia.
Qed.

Lemma elem_of_counted bn_column weight batch positions c :
  c ∈ counted_rows bn_column weight batch positions ->
  ct_weight c = weight /\ ct_batch c = batch /\ (ct_row c < num_rows batch)%nat /\
  ct_position c = default 0 (positions !! ct_row c).
Proof. intros (r & -> & Hr)%list_elem_of_fmap. cbn. apply batch_rows_lt in Hr. done. Qed.

Lemma positions_insert bn_column weight batch positions :
  num_rows batch = length positions ->
  inserts seen_positions same_position (new_position positions) (counted_rows bn_column weight batch positions).
Proof.
  intros Hl kept c (_ & _ & Hrow & Hp)%elem_of_counted. unfold new_position.
  destruct (lookup_lt_is_Some_2 positions (ct_row c) ltac:(lia)) as [p Ep]. rewrite Ep in Hp. cbn in Hp.
  unfold vec_get. rewrite Ep; cbn [expect obind]. rewrite <- Hp. clear Ep Hp p.
  assert (Hseen : bool_decide (ct_position c ∈ seen_positions kept) = existsb (same_position c) kept).
  { apply eq_bool_prop_intro. rewrite bool_decide_spec. unfold seen_positions. rewrite elem_of_list_to_set, list_elem_of_fmap.
    rewrite Is_true_true, existsb_exists. setoid_rewrite <- list_elem_of_In. unfold same_position.
    setoid_rewrite Z.eqb_eq. naive_solver. }
  rewrite Hseen. do 2 f_equal. apply set_eq. intros x. unfold keep_first.
  rewrite elem_of_union, elem_of_singleton. destruct (existsb (same_position c) kept) eqn:E.
  - apply bool_decide_eq_true in Hseen. split; [intros [->|]; done|by right].
  - unfold seen_positions. rewrite fmap_app, list_to_set_app, elem_of_union. cbn. set_solver.
Qed.

Lemma keys_insert bn_column key_columns weight batch :
  inserts (fun kept => key_of_row key_columns <$> kept) (same_keys key_columns)
    (new_key (key_arrays batch key_columns)) (counted_rows bn_column weight batch []).
Proof.
  intros kept c (_ & Hb & _ & _)%elem_of_counted. unfold new_key, keep_first, same_keys.
  assert (E : (ct_block c, {| wk_columns := key_arrays batch key_columns; wk_row := ct_row c |}) = key_of_row key_columns c).
  { unfold key_of_row. by rewrite Hb. }
  rewrite E. assert (Hex : existsb (same_key (key_of_row key_columns c)) (key_of_row key_columns <$> kept) =
    existsb (fun d => same_key (key_of_row key_columns c) (key_of_row key_columns d)) kept).
  { induction kept as [|d kept IH]; [done|]. rewrite fmap_cons. cbn [existsb]. by rewrite IH. }
  rewrite Hex. destruct (existsb _ kept); [done|]. by rewrite fmap_app.
Qed.

Definition aligned (rows : Rows) : Prop :=
  match rw_positions rows with
  | None => True
  | Some ps => Forall2 (fun (b : RecordBatch) (p : list Z) => num_rows b = length p) (rw_batches rows) ps
  end.

Lemma first_rows_app same xs ys kept : first_rows same (xs ++ ys) kept = first_rows same ys (first_rows same xs kept).
Proof. apply fold_left_app. Qed.

Lemma first_rows_loop {T S} (rep : list counted -> S) same (f : gmap Z Z * S -> T -> result (gmap Z Z * S))
    (rows : T -> list counted) (l : list T) weights :
  (forall t kept, t ∈ l -> f (add_charges weights (charge_of <$> kept), rep kept) t =
     Ok (add_charges weights (charge_of <$> first_rows same (rows t) kept), rep (first_rows same (rows t) kept))) ->
  forall kept, foldM f l (add_charges weights (charge_of <$> kept), rep kept) =
    Ok (add_charges weights (charge_of <$> first_rows same (l ≫= rows) kept), rep (first_rows same (l ≫= rows) kept)).
Proof.
  induction l as [|t l IH]; intros Hf kept; [done|]. cbn [foldM]. rewrite Hf by by left. cbn [obind].
  rewrite bind_cons, first_rows_app. apply IH. intros t' kept' Ht'. apply Hf. by right.
Qed.

Lemma contribution_rows_empty bn_column s : rw_batches (wc_rows s) = [] -> contribution_rows bn_column s = [].
Proof. intros E. unfold contribution_rows. rewrite E. by destruct (rw_positions (wc_rows s)). Qed.

Lemma nonempty_rows bn_column contributions :
  filter (fun s => rw_batches (wc_rows s) <> []) contributions ≫= contribution_rows bn_column =
  contributions ≫= contribution_rows bn_column.
Proof.
  induction contributions as [|s l IH]; [done|]. rewrite filter_cons. case_decide as E.
  - by rewrite !bind_cons, IH.
  - rewrite bind_cons, IH, contribution_rows_empty; [done|exact E].
Qed.

Definition has_positions (s : WeightContribution) : Prop := is_Some (rw_positions (wc_rows s)).
Definition offers_rows (s : WeightContribution) : Prop := rw_batches (wc_rows s) <> [].

Lemma dedup_positions contributions bn_column key_columns weights :
  Forall (fun s => offers_rows s -> has_positions s /\ aligned (wc_rows s)) contributions ->
  accumulate_dedup_contributions contributions bn_column key_columns weights =
    Ok (add_charges weights (charge_of <$> first_rows same_position (contributions ≫= contribution_rows bn_column) [])).
Proof.
  intros Hall. unfold accumulate_dedup_contributions. rewrite <- nonempty_rows.
  set (sources := filter _ contributions).
  assert (Hs : forall s, s ∈ sources -> has_positions s /\ aligned (wc_rows s)).
  { intros s [Ho Hin]%list_elem_of_filter. rewrite Forall_forall in Hall. by apply Hall. }
  assert (Hf : filter (fun s => is_Some (rw_positions (wc_rows s))) sources = sources).
  { clear -Hs. induction sources as [|s l IH]; [done|]. rewrite filter_cons_True by by apply Hs; left.
    f_equal. apply IH. intros t Ht. apply Hs. by right. }
  rewrite Hf, Nat.eqb_refl. change (weights, ∅ : gset Z) with
    (add_charges weights (charge_of <$> []), seen_positions []).
  rewrite (first_rows_loop seen_positions same_position _ (contribution_rows bn_column)); [done|].
  intros s kept Hin. destruct (Hs s Hin) as [[ps Eps] Ha]. unfold contribution_rows, aligned in *.
  rewrite Eps in *. cbn [expect obind].
  apply (first_rows_loop seen_positions same_position _
    (fun e : RecordBatch * list Z => counted_rows bn_column (wc_weight s) e.1 e.2)).
  intros [batch positions] kept' Hin'. apply accumulate_rows_ok. apply positions_insert.
  apply list_elem_of_lookup in Hin' as [i Hi]. apply lookup_zip_with_Some in Hi as (? & ? & [= <- <-] & Hb & Hp).
  cbn. exact (Forall2_lookup_lr _ _ _ _ _ _ Ha Hb Hp).
Qed.

Lemma dedup_keys contributions bn_column key_columns weights :
  Forall (fun s => offers_rows s -> ~ has_positions s) contributions ->
  accumulate_dedup_contributions contributions bn_column key_columns weights =
    Ok (add_charges weights
         (charge_of <$> first_rows (same_keys key_columns) (contributions ≫= contribution_rows bn_column) [])).
Proof.
  intros Hall. unfold accumulate_dedup_contributions. rewrite <- nonempty_rows.
  set (sources := filter _ contributions).
  assert (Hs : forall s, s ∈ sources -> rw_positions (wc_rows s) = None).
  { intros s [Ho Hin]%list_elem_of_filter. rewrite Forall_forall in Hall. specialize (Hall s Hin Ho).
    unfold has_positions in Hall. destruct (rw_positions _); [|done]. by destruct Hall. }
  assert (Hf : filter (fun s => is_Some (rw_positions (wc_rows s))) sources = []).
  { apply elem_of_nil_inv. intros s [[p Hp] Hin]%list_elem_of_filter. by rewrite Hs in Hp. }
  rewrite Hf. cbn [length]. destruct sources as [|s0 sources0] eqn:Esrc; [done|]. rewrite <- Esrc in *.
  replace (0 =? length sources)%nat with false by (rewrite Esrc; done). cbn [ensure Nat.eqb obind].
  change (weights, [] : list (Z * WeightRow)) with
    (add_charges weights (charge_of <$> []), key_of_row key_columns <$> []).
  rewrite (first_rows_loop (fun kept => key_of_row key_columns <$> kept) (same_keys key_columns) _
    (fun e : WeightContribution * RecordBatch => counted_rows bn_column (wc_weight e.1) e.2 [])).
  2: { intros e kept _. apply accumulate_rows_ok, keys_insert. }
  cbn [obind fst]. do 4 f_equal. clear Esrc Hf. induction sources as [|s l IH]; [done|].
  rewrite !bind_cons, bind_app, IH by (intros; apply Hs; by right). f_equal. unfold contribution_rows.
  rewrite (Hs s) by by left. by induction (rw_batches (wc_rows s)) as [|b bs IHb]; [|rewrite fmap_cons, !bind_cons, IHb].
Qed.

Lemma dedup_mixed contributions bn_column key_columns weights s t :
  s ∈ contributions -> offers_rows s -> has_positions s ->
  t ∈ contributions -> offers_rows t -> ~ has_positions t ->
  accumulate_dedup_contributions contributions bn_column key_columns weights = Err OtherError.
Proof.
  intros Hs Hso Hsp Ht Hto Htp. unfold accumulate_dedup_contributions.
  set (sources := filter _ contributions).
  assert (Hs' : s ∈ filter (fun s => is_Some (rw_positions (wc_rows s))) sources).
  { apply list_elem_of_filter. split; [done|]. by apply list_elem_of_filter. }
  assert (Ht' : t ∈ sources) by by apply list_elem_of_filter.
  assert (Hlt : (length (filter (fun s => is_Some (rw_positions (wc_rows s))) sources) < length sources)%nat).
  { clear Hs'. induction sources as [|x l IH]; [by apply not_elem_of_nil in Ht'|].
    pose proof (length_filter (fun s => is_Some (rw_positions (wc_rows s))) l). rewrite filter_cons.
    apply elem_of_cons in Ht' as [<-|Ht']; case_decide; cbn; try done; [lia|specialize (IH Ht'); lia|lia]. }
  destruct (Nat.eqb_spec (length (filter (fun s => is_Some (rw_positions (wc_rows s))) sources)) (length sources)); [lia|].
  destruct (filter _ sources) as [|? ?]; [by apply not_elem_of_nil in Hs'|]. done.
Qed.

(** ** The weights of a response *)

(** Sources that all recorded positions, or none of which did. *)
Definition uniform (contributions : list WeightContribution) : Prop :=
  Forall (fun s => offers_rows s -> has_positions s /\ aligned (wc_rows s)) contributions \/
  Forall (fun s => offers_rows s -> ~ has_positions s) contributions.

#[export] Instance has_positions_dec s : Decision (has_positions s).
Proof. unfold has_positions. apply _. Defined.
#[export] Instance offers_rows_dec s : Decision (offers_rows s).
Proof. unfold offers_rows. apply _. Defined.

(** When two rows are the same row: at one position of the file, or of one block
    with one key. *)
Definition same_row (contributions : list WeightContribution) (key_columns : list string) : counted -> counted -> bool :=
  if decide (Forall (fun s => offers_rows s -> has_positions s) contributions)
  then same_position else same_keys key_columns.

Lemma dedup_ok contributions bn_column key_columns weights :
  uniform contributions ->
  accumulate_dedup_contributions contributions bn_column key_columns weights =
    Ok (add_charges weights (charge_of <$>
      first_rows (same_row contributions key_columns) (contributions ≫= contribution_rows bn_column) [])).
Proof.
  unfold same_row. intros [H|H]; case_decide as Hd.
  - by apply dedup_positions.
  - destruct Hd. eapply Forall_impl; [exact H|]. naive_solver.
  - assert (Hnone : Forall (fun s => ~ offers_rows s) contributions).
    { apply Forall_forall. intros s Hs Ho. rewrite Forall_forall in H, Hd. by apply (H s Hs Ho), (Hd s Hs). }
    rewrite dedup_keys by done. enough (contributions ≫= contribution_rows bn_column = []) as -> by done.
    clear -Hnone. induction Hnone as [|s l Hs _ IH]; [done|]. rewrite bind_cons, IH, contribution_rows_empty; [done|].
    by apply dec_stable.
  - by apply dedup_keys.
Qed.

Lemma equal_key_value_refl a : forall i, equal_key_value a i a i = true.
Proof.
  induction a; intros i; cbn; rewrite orb_diag; (destruct (is_null _ i); [done|]);
    try (by rewrite Z.eqb_refl); try (by apply bool_decide_eq_true); try (unfold same_data; by apply bool_decide_eq_true).
  rewrite Nat.eqb_refl. apply forallb_forall. auto.
Qed.

Lemma weight_row_eq_refl r : weight_row_eq r r = true.
Proof.
  unfold weight_row_eq. rewrite Nat.eqb_refl. apply forallb_forall. intros [x y] Hin.
  apply list_elem_of_In, list_elem_of_lookup in Hin as [i Hi].
  apply lookup_zip_with_Some in Hi as (x' & y' & [= <- <-] & Hx & Hy). rewrite Hx in Hy. injection Hy as <-.
  destruct x; [apply equal_key_value_refl|done].
Qed.

Lemma same_row_refl contributions key_columns c : same_row contributions key_columns c c = true.
Proof.
  unfold same_row. case_decide; [apply Z.eqb_refl|]. unfold same_keys, same_key. by rewrite Z.eqb_refl, weight_row_eq_refl.
Qed.

Lemma charge_of_nonneg c : 0 <= rw_fixed (ct_weight c) <= u64_max -> 0 <= (charge_of c).2.
Proof. intros H. by apply weight_in_range. Qed.

(** The sources of one table. *)
Definition sources_of (sources : list WeighedRows) (name : string) : list WeighedRows :=
  filter (fun s => rp_table (wr_projection s) = name) sources.

Lemma sources_of_snoc sources s name :
  sources_of (sources ++ [s]) name =
  sources_of sources name ++ (if decide (rp_table (wr_projection s) = name) then [s] else []).
Proof. unfold sources_of. by rewrite filter_app. Qed.

Lemma group_source_spec s tables :
  let t := rp_table (wr_projection s) in
  NoDup tables.*1 ->
  (forall n, n ∈ (group_source tables s).*1 <-> n ∈ tables.*1 \/ n = t) /\
  NoDup (group_source tables s).*1 /\
  forall name group, (name, group) ∈ group_source tables s <->
    (name <> t /\ (name, group) ∈ tables) \/
    (name = t /\ exists old, group = old ++ [s] /\
       ((t, old) ∈ tables \/ (old = [] /\ ~ t ∈ tables.*1))).
Proof.
  cbv zeta. set (t := rp_table (wr_projection s)).
  induction tables as [|[n g] tables IH]; intros Hnd; cbn [group_source].
  - fold t. split_and!; [intros n; cbn; set_solver|repeat constructor; set_solver|].
    intros name group. rewrite list_elem_of_singleton. split.
    + intros [= -> ->]. right. split; [done|]. exists []. split; [done|]. right. split; [done|apply not_elem_of_nil].
    + intros [[_ ?%not_elem_of_nil]|(-> & old & -> & [?%not_elem_of_nil|[-> _]])]; done.
  - fold t. cbn in Hnd. apply NoDup_cons in Hnd as [Hn Hnd]. destruct (IH Hnd) as (IH1 & IH2 & IH3).
    case_decide as E.
    + split_and!; [intros m; cbn; set_solver|cbn; by constructor|].
      intros name group. rewrite !elem_of_cons. cbn. split.
      * intros [[= -> ->]|Hg]; [right; split; [done|]; exists g; rewrite elem_of_cons; split; [done|]; left; left; congruence|].
        left. assert (name ∈ tables.*1) by (apply list_elem_of_fmap; by exists (name, group)).
        split; [congruence|by right].
      * intros [[Hne [[= -> ->]|Hg]]|(-> & old & -> & [Ht|[_ Ht]])]; [congruence|by right| |].
        -- apply elem_of_cons in Ht as [[= -> ->]|Ht]; [left; congruence|].
           destruct Hn. rewrite E. apply list_elem_of_fmap. by exists (t, old).
        -- destruct Ht. apply elem_of_cons. by left.
    + split_and!.
      * intros m. cbn. rewrite !elem_of_cons, IH1. tauto.
      * cbn. constructor; [|done]. rewrite IH1. intros [?|?]; [done|congruence].
      * intros name group. rewrite !elem_of_cons, IH3. cbn. setoid_rewrite elem_of_cons. split.
        -- intros [[= -> ->]|[[? ?]|(-> & old & -> & Ho)]]; [left; split; [done|by left]|left; split; [done|by right]|].
           right. split; [done|]. exists old. split; [done|]. destruct Ho as [?|[-> ?]]; [left; by right|right].
           split; [done|]. intros [?|?]; [congruence|done].
        -- intros [[Hne [[= -> ->]|Hg]]|(-> & old & -> & [[[= -> ->]|Ht]|[-> Ht]])];
             [by left|right; left; by split|congruence| |].
           ++ right; right. split; [done|]. exists old. auto.
           ++ right; right. split; [done|]. exists []. split; [done|]. right. split; [done|]. intros ?. destruct Ht. by right.
Qed.

(** Each table appears once, with all its sources in order. *)
Lemma group_sources_spec sources :
  let tables := fold_left group_source sources [] in
  NoDup tables.*1 /\ forall name group,
    (name, group) ∈ tables <-> group = sources_of sources name /\ group <> [].
Proof.
  induction sources as [|s sources IH] using rev_ind; cbv zeta in *.
  { split; [constructor|]. intros name group. cbn. split; [by intros ?%not_elem_of_nil|]. by intros [-> []]. }
  rewrite fold_left_app. cbn [fold_left]. set (tables := fold_left group_source sources []) in *.
  destruct IH as [Hnd Hin]. set (t := rp_table (wr_projection s)).
  destruct (group_source_spec s tables Hnd) as (_ & Hnd' & Hin'). split; [done|]. intros name group. rewrite Hin', Hin, sources_of_snoc.
  fold t. split.
  - intros [[Hne [-> Hg]]|(-> & old & -> & Ho)].
    + rewrite decide_False by congruence. by rewrite app_nil_r.
    + rewrite decide_True by done. split; [|by destruct old]. f_equal. destruct Ho as [Ho|[-> Ho]]; [by apply Hin in Ho as [-> _]|].
      symmetry. destruct (sources_of sources t) as [|x l] eqn:E; [done|]. destruct Ho. apply list_elem_of_fmap.
      exists (t, x :: l). split; [done|]. by apply Hin.
  - intros [-> Hg]. case_decide as E.
    + right. split; [done|]. exists (sources_of sources name). subst name. split; [done|].
      destruct (sources_of sources t) as [|x l] eqn:E2; [right|left; apply Hin; by rewrite E2].
      split; [done|]. intros ((n & g) & Hn & Hng)%list_elem_of_fmap. cbn in Hn. subst n.
      apply Hin in Hng as [-> Hne]. by rewrite E2 in Hne.
    + left. rewrite app_nil_r in Hg |- *. split; [congruence|done].
Qed.

Definition contributions_of (group : list WeighedRows) : list WeightContribution :=
  (fun s => {| wc_rows := wr_rows s; wc_weight := rp_weight (wr_projection s) |}) <$> group.

(** The rows a table is charged for: its own, or where several sources read the
    table, the first of the rows that are the same. *)
Definition table_rows (group : list WeighedRows) : list counted :=
  match group with
  | [] => []
  | first :: rest =>
      let desc := rp_desc (wr_projection first) in
      let bn_column := td_block_number_column desc in
      match rest with
      | [] => rw_batches (wr_rows first) ≫= fun batch =>
                counted_rows bn_column (rp_weight (wr_projection first)) batch []
      | _ => first_rows (same_row (contributions_of group) (drop 1 (row_key desc)))
               (contributions_of group ≫= contribution_rows bn_column) []
      end
  end.

(** The charges of the headers of the blocks asked for. *)
Definition header_charges (header : ResolvedProjection) (candidates : list Z) (batches : list RecordBatch)
    : list charge :=
  filter (fun c : charge => c.1 ∈ candidates)
    (batches ≫= batch_charges (td_block_number_column (rp_desc header)) (rp_weight header)).

Lemma charges_of_counted bn_column weight batch positions :
  charge_of <$> counted_rows bn_column weight batch positions = batch_charges bn_column weight batch.
Proof. unfold counted_rows, batch_charges. by rewrite <- list_fmap_compose. Qed.

(** A table several sources read: all of them recorded positions, or none. *)
Definition shared_ok (group : list WeighedRows) : Prop :=
  match group with [_] => True | _ => uniform (contributions_of group) end.

Lemma table_weights_ok group weights :
  group <> [] -> shared_ok group ->
  table_weights weights group = Ok (add_charges weights (charge_of <$> table_rows group)).
Proof.
  intros Hne Hu. destruct group as [|first rest]; [done|]. unfold table_weights, vec_get; cbn [lookup list_lookup expect obind].
  destruct rest as [|second rest].
  - rewrite accumulate_charges. unfold table_rows. do 3 f_equal.
    induction (rw_batches (wr_rows first)) as [|b bs IH]; [done|]. by rewrite !bind_cons, fmap_app, <- IH, charges_of_counted.
  - by apply dedup_ok.
Qed.

Lemma table_rows_weight group c : c ∈ table_rows group -> exists s, s ∈ group /\ ct_weight c = rp_weight (wr_projection s).
Proof.
  destruct group as [|first rest]; [by intros ?%not_elem_of_nil|]. unfold table_rows. destruct rest as [|second rest].
  - intros (b & Hc & _)%list_elem_of_bind. apply elem_of_counted in Hc as [-> _]. exists first. split; [by left|done].
  - set (group := first :: second :: rest). set (same := same_row _ _).
    destruct (first_rows_spec same (contributions_of group ≫= contribution_rows (td_block_number_column (rp_desc (wr_projection first)))) [])
      as (_ & Hin & _); [intros; apply same_row_refl|].
    intros [?%not_elem_of_nil|Hc]%Hin; [done|]. apply list_elem_of_bind in Hc as (s & Hc & Hs).
    apply list_elem_of_fmap in Hs as (w & -> & Hw). exists w. split; [done|].
    unfold contribution_rows in Hc; cbn in Hc.
    destruct (rw_positions (wr_rows w)); apply list_elem_of_bind in Hc as (e & Hc & _); by apply elem_of_counted in Hc as [-> _].
Qed.

Lemma header_loop header candidates batches weights :
  0 <= rw_fixed (rp_weight header) <= u64_max ->
  fold_left (header_weights header (list_to_set candidates)) batches weights =
  add_charges weights (header_charges header candidates batches).
Proof.
  intros Hf. unfold header_charges. revert weights. induction batches as [|batch batches IH]; intros weights; [done|].
  cbn [fold_left]. rewrite IH, bind_cons, filter_app. unfold add_charges at 2. rewrite fold_left_app. f_equal. clear IH.
  unfold header_weights, batch_charges, batch_rows. destruct (readable_blocks batch _) as [blocks|]; [|done].
  rewrite <- list_fmap_compose. revert weights.
  induction (seq 0 (num_rows batch)) as [|row rows IHr]; intros weights; [done|]. csimpl. rewrite filter_cons. cbn [fst].
  rewrite IHr. case_decide as Hin.
  - rewrite bool_decide_eq_true_2 by by rewrite elem_of_list_to_set. cbn [fold_left]. do 2 f_equal.
    unfold add_charge; cbn [fst snd]. f_equal. unfold weight_in. rewrite row_weight_sum by done.
    assert (E : forall l a, 0 <= a -> Forall (fun x => 0 <= x) l -> fold_left sat_add l a = Z.min (a + sum_z l) u64_max \/ (l = [] /\ u64_max < a)).
    { clear. induction l as [|x l IH]; intros a Ha Hl; cbn [fold_left].
      { destruct (decide (a <= u64_max)); [left; cbn; lia|right; split; [done|lia]]. }
      apply Forall_cons in Hl as [Hx Hl]. left. unfold sum_z in *; cbn [foldr].
      assert (Hs : 0 <= foldr Z.add 0 l) by (clear -Hl; induction Hl; cbn; lia).
      destruct (IH (sat_add a x)) as [->|[-> ?]]; [unfold sat_add, u64_max; lia|done|unfold sat_add; lia|].
      unfold sat_add in *. lia. }
    destruct (E ((fun c => weight_at c row) <$> weight_columns batch (rw_columns (rp_weight header))) 0) as [->|[_ ?]];
      [done|apply Forall_fmap, Forall_true; intros; apply weight_at_nonneg|unfold sat_add; cbn; lia|done].
  - by rewrite bool_decide_eq_false_2 by by rewrite elem_of_list_to_set.
Qed.

(** ** The prefix of blocks *)

Definition weight_of (weights : gmap Z Z) (block : Z) : Z := default 0 (weights !! block).
Definition prefix_weight (weights : gmap Z Z) (blocks : list Z) : Z :=
  Z.min (sum_z (weight_of weights <$> blocks)) u64_max.

Lemma sum_z_app l k : sum_z (l ++ k) = sum_z l + sum_z k.
Proof. unfold sum_z. induction l as [|x l IH]; cbn; lia. Qed.

Lemma prefix_weight_snoc weights blocks block :
  weights_ok weights ->
  prefix_weight weights (blocks ++ [block]) = sat_add (prefix_weight weights blocks) (weight_of weights block).
Proof.
  intros Hw. unfold prefix_weight, sat_add. rewrite fmap_app, sum_z_app.
  pose proof (Hw block) as Hb. fold (weight_of weights block) in Hb.
  change (sum_z (weight_of weights <$> [block])) with (weight_of weights block + 0). lia.
Qed.

(** A selection in the making: it holds every block offered so far. *)
Record open_selection (weights : gmap Z Z) (offered : list Z) (s : BlockSelection) : Prop := {
  open_blocks : bs_blocks s = offered;
  open_weights : bs_weights s = weight_of weights <$> offered;
  open_cumulative : bs_cumulative s = prefix_weight weights offered;
  open_within : bs_cumulative s <= bs_budget s;
}.

Lemma extend_spec weights blocks : weights_ok weights -> forall offered s,
  open_selection weights offered s ->
  let (r, full) := extend s blocks weights in
  bs_budget r = bs_budget s /\
  if full then exists k, (k < length blocks)%nat /\
      bs_budget s < prefix_weight weights (offered ++ take (S k) blocks) /\
      let taken := if decide (offered = [] /\ k = 0%nat) then 1%nat else k in
      bs_blocks r = offered ++ take taken blocks /\
      bs_weights r = weight_of weights <$> (offered ++ take taken blocks) /\
      prefix_weight weights (offered ++ take k blocks) <= bs_budget s
  else open_selection weights (offered ++ blocks) r.
Proof.
  intros Hw. induction blocks as [|block blocks IH]; intros offered s Hs; cbn [extend].
  { rewrite app_nil_r. done. }
  destruct Hs as [Hb Hws Hc Hin]. fold (weight_of weights block).
  rewrite Hc, <- prefix_weight_snoc, Hb, Hws by done. cbv zeta. cbn [bs_budget].
  destruct (Z.ltb_spec (bs_budget s) (prefix_weight weights (offered ++ [block]))) as [Hlt|Hge].
  - split; [done|]. exists 0%nat. cbn [take firstn]. split_and!; [cbn; lia|done| | |].
    + cbn [bs_blocks]. destruct (Z.leb_spec (prefix_weight weights (offered ++ [block])) (bs_budget s)); [lia|].
      rewrite orb_false_r. destruct (bool_decide_reflect (offered = [])) as [->|Hne].
      * by rewrite decide_True.
      * rewrite decide_False by naive_solver. by rewrite app_nil_r.
    + cbn [bs_weights]. destruct (Z.leb_spec (prefix_weight weights (offered ++ [block])) (bs_budget s)); [lia|].
      rewrite orb_false_r. destruct (bool_decide_reflect (offered = [])) as [->|Hne].
      * by rewrite decide_True.
      * rewrite decide_False by naive_solver. by rewrite app_nil_r.
    + rewrite app_nil_r, <- Hc. done.
  - destruct (Z.leb_spec (prefix_weight weights (offered ++ [block])) (bs_budget s)); [|lia]. rewrite orb_true_r.
    set (s' := {| bs_budget := _ |} : BlockSelection).
    specialize (IH (offered ++ [block]) s'). destruct (extend s' blocks weights) as [r full].
    destruct IH as [Hbud H']; [split; cbn; [done|by rewrite fmap_app|done|lia]|]. split; [done|].
    destruct full.
    + destruct H' as (k & Hk & Hover & Htaken & Hwt & Hunder). exists (S k). cbn [bs_budget s'] in Hover, Hunder.
      cbn [take firstn length]. rewrite <- !app_assoc in *. cbn [app] in *.
      rewrite decide_False in Htaken, Hwt by (intros [? _]; by destruct offered).
      rewrite decide_False by naive_solver.
      split_and!; [lia|done..].
    + by rewrite <- app_assoc in H'.
Qed.

Lemma extend_app weights xs ys s :
  extend s (xs ++ ys) weights =
  let (r, full) := extend s xs weights in if full : bool then (r, true) else extend r ys weights.
Proof.
  revert s; induction xs as [|x xs IH]; intros s; [done|]. cbn [app extend]. case_match; [done|]. apply IH.
Qed.

Lemma extend_ext w1 w2 blocks s :
  (forall b, b ∈ blocks -> w1 !! b = w2 !! b) -> extend s blocks w1 = extend s blocks w2.
Proof.
  revert s; induction blocks as [|b blocks IH]; intros s H; [done|]. cbn [extend]. rewrite (H b) by by left.
  case_match; [done|]. apply IH. intros c Hc. apply H. by right.
Qed.

(** The ranges a page reads, one after another until one fills it:
    [selection.extend(&blocks, &weights)] of each. *)
Fixpoint extend_ranges (self : BlockSelection) (ranges : list (list Z * gmap Z Z)) : BlockSelection * bool :=
  match ranges with
  | [] => (self, false)
  | (blocks, weights) :: ranges =>
      let (self, full) := extend self blocks weights in
      if full : bool then (self, true) else extend_ranges self ranges
  end.

(** ** Hashes *)

Lemma equal_hash a : forall b i j, equal_key_value a i b j = true -> hash_array_value a i = hash_array_value b j.
Proof.
  induction a as [t x n|u x n|x n|sz x n|ox x IH n|nm x n| | | |]; intros b i j; destruct b as [t' y m|u' y m|y m|sz' y m|oy y m|nm' y m| | | |];
    cbn; destruct (is_null _ i) eqn:Ei, (is_null _ j) eqn:Ej; cbn; try done;
    try (unfold same_data; by intros [[=] _]%bool_decide_eq_true).
  - by intros ->%Z.eqb_eq.
  - by intros ->%bool_decide_eq_true.
  - rewrite andb_true_iff, Nat.eqb_eq. intros [<- Hall]. f_equal.
    rewrite forallb_forall in Hall. revert Hall.
    generalize (offset_at ox i) as s, (offset_at oy j) as s', (offset_at ox (S i) - offset_at ox i)%nat as len.
    intros s s' len Hall. induction (seq 0 len) as [|k ks IHk]; [done|]. rewrite !bind_cons. f_equal.
    + apply IH, Hall. by left.
    + apply IHk. intros k' Hk'. apply Hall. by right.
Qed.

(** Columns a row key is made of: integers, text and lists of them. *)
Fixpoint keyable (a : array) : bool :=
  match a with
  | AInt _ _ _ | AText _ _ _ => true
  | AList _ values _ => keyable values
  | _ => false
  end.

Lemma equal_cells a : forall b i j, keyable a = true -> keyable b = true ->
  equal_key_value a i b j = true <-> cell_at a i = cell_at b j.
Proof.
  induction a as [t x n|u x n|x n|sz x n|ox x IH n|nm x n| | | |]; intros b i j Ha Hb; try done;
    destruct b as [t' y m|u' y m|y m|sz' y m|oy y m|nm' y m| | | |]; try done;
    cbn; destruct (is_null _ i), (is_null _ j); cbn; try done;
    try (unfold same_data; rewrite bool_decide_eq_true; split; [intros [[=] _]|intros [=]]).
  - rewrite Z.eqb_eq. split; [by intros ->|by intros [= ->]].
  - rewrite bool_decide_eq_true. split; [by intros ->|by intros [= ->]].
  - rewrite andb_true_iff, Nat.eqb_eq.
    set (s := offset_at ox i). set (s' := offset_at oy j).
    generalize (offset_at ox (S i) - s)%nat as len, (offset_at oy (S j) - s')%nat as len'. intros len len'.
    transitivity (cell_at x <$> seq s len = cell_at y <$> seq s' len'); [|split; [by intros ->|by intros [= ->]]].
    assert (Hgen : forall len k, forallb (fun i => equal_key_value x (s + i) y (s' + i)) (seq k len) = true <->
      cell_at x <$> seq (s + k) len = cell_at y <$> seq (s' + k) len).
    { clear -IH Ha Hb. induction len as [|len IHl]; intros k; [done|]. cbn [seq forallb]. rewrite !fmap_cons.
      rewrite andb_true_iff, IHl, (IH y (s + k)%nat (s' + k)%nat Ha Hb), !Nat.add_succ_r. split.
      - by intros [-> ->].
      - by intros [= -> ->]. }
    split.
    + intros [-> Hall]. apply Hgen in Hall. by rewrite !Nat.add_0_r in Hall.
    + intros E. assert (Hl : len = len') by (apply (f_equal length) in E; by rewrite !length_fmap, !length_seq in E).
      subst len'. split; [done|]. apply Hgen. by rewrite !Nat.add_0_r.
Qed.

(** A row's key values. *)
Definition key_cells (r : WeightRow) : list (option cell) :=
  (fun column : option array => (fun a => cell_at a (wk_row r)) <$> column) <$> wk_columns r.

Definition same_column (i j : nat) (x y : option array) : Prop :=
  match x, y with
  | Some x, Some y => equal_key_value x i y j = true
  | None, None => True
  | _, _ => False
  end.

Lemma weight_row_eq_columns a b :
  weight_row_eq a b = true <-> Forall2 (same_column (wk_row a) (wk_row b)) (wk_columns a) (wk_columns b).
Proof.
  destruct a as [xs i], b as [ys j]. unfold weight_row_eq; cbn [wk_columns wk_row].
  rewrite andb_true_iff, Nat.eqb_eq. revert ys. induction xs as [|x xs IH]; intros [|y ys]; cbn.
  - by split.
  - by split; [intros [? _]|inversion 1].
  - by split; [intros [? _]|inversion 1].
  - rewrite andb_true_iff, Forall2_cons, <- IH. unfold same_column at 1.
    rewrite (inj_iff S). destruct x, y; naive_solver.
Qed.

(** ** Properties *)

(** Two rows are one row by key exactly when every key column says the same of
    both, at whatever widths they are stored, and rows that are one row hash
    alike: the set that tells rows apart by hash and equality never counts one
    row twice nor two rows once. *)
Theorem weight_row_eq_spec a b :
  (weight_row_eq a b = true -> weight_row_hash a = weight_row_hash b) /\
  (Forall (fun c : option array => match c with Some c => keyable c = true | None => True end)
     (wk_columns a ++ wk_columns b) ->
   weight_row_eq a b = true <-> key_cells a = key_cells b).
Proof.
  rewrite weight_row_eq_columns. destruct a as [xs i], b as [ys j].
  unfold weight_row_hash, key_cells; cbn [wk_columns wk_row]. split.
  - induction 1 as [|x y xs ys Hxy _ IH]; [done|]. rewrite !bind_cons, IH. f_equal.
    destruct x, y; try done. by apply equal_hash.
  - intros [Hx Hy]%Forall_app. revert ys Hy. induction Hx as [|x xs Hx Hxs IH]; intros [|y ys] Hy.
    + by split.
    + by split; [inversion 1|].
    + by split; [inversion 1|].
    + apply Forall_cons in Hy as [Hy Hys]. rewrite Forall2_cons, (IH ys Hys), !fmap_cons.
      destruct x as [x|], y as [y|]; cbn; try (split; [by intros [? _]|done]).
      * rewrite (equal_cells x y i j Hx Hy). split; [by intros [-> ->]|by intros [= -> ->]].
      * split; [by intros [_ ->]|by intros [= ->]].
Qed.

(** When a table's rows come from several sources, each row of the table is
    charged to its block once, at what the first source to offer it renders:
    rows are told apart by their position in the file when every source
    recorded it, else by block and key, and sources of both kinds at once are
    an error. *)
Theorem accumulate_dedup_spec contributions bn_column key_columns weights :
  weights_ok weights ->
  Forall (fun s => 0 <= rw_fixed (wc_weight s) <= u64_max) contributions ->
  let rows := contributions ≫= contribution_rows bn_column in
  let same := same_row contributions key_columns in
  (forall s t, s ∈ contributions -> offers_rows s -> has_positions s ->
     t ∈ contributions -> offers_rows t -> ~ has_positions t ->
     accumulate_dedup_contributions contributions bn_column key_columns weights = Err OtherError) /\
  (uniform contributions -> exists kept after,
    accumulate_dedup_contributions contributions bn_column key_columns weights = Ok after /\
    (forall c, c ∈ kept -> c ∈ rows) /\ (forall c, c ∈ rows -> exists d, d ∈ kept /\ same c d = true) /\
    StronglySorted (fun c d => same d c = false) kept /\
    forall block, weight_of after block =
      Z.min (weight_of weights block + total (charge_of <$> kept) block) u64_max).
Proof.
  intros Hw Hf rows same. split; [intros s t; by apply dedup_mixed|]. intros Hu. destruct (first_rows_spec same rows []) as (_ & Hin & Hcov & Hss);
    [intros; apply same_row_refl|].
  eexists _, _. split; [by apply dedup_ok|]. split_and!; [|exact Hcov|apply Hss; constructor|].
  - intros c Hc. by destruct (Hin c Hc) as [?%not_elem_of_nil|].
  - apply add_charges_spec; [|done]. apply Forall_fmap, Forall_forall. intros c Hc.
    destruct (Hin c Hc) as [?%not_elem_of_nil|Hr]; [done|]. apply charge_of_nonneg.
    apply list_elem_of_bind in Hr as (s & Hr & Hs). rewrite Forall_forall in Hf. specialize (Hf s Hs).
    unfold contribution_rows in Hr.
    destruct (rw_positions (wc_rows s)); apply list_elem_of_bind in Hr as (e & Hr & _); by apply elem_of_counted in Hr as [-> _].
Qed.

(** C37: A block weighs what its rows of every table and its header weigh
    together, saturating: a table read by one source is charged for every row, a
    table read by several for each row once, and a header only when its block
    is asked for. The order of tables, batches and rows does not matter, and
    nothing fails when each shared table's sources all recorded positions or
    none did. *)
Theorem compute_block_weights_spec sources header header_batches candidates :
  Forall (fun s => 0 <= rw_fixed (rp_weight (wr_projection s)) <= u64_max) sources ->
  0 <= rw_fixed (rp_weight header) <= u64_max ->
  (forall name, shared_ok (sources_of sources name)) ->
  exists weights tables,
    compute_block_weights sources header header_batches candidates = Ok weights /\
    NoDup tables /\ (forall name, name ∈ tables <-> exists s, s ∈ sources /\ rp_table (wr_projection s) = name) /\
    forall block, weight_of weights block =
      Z.min (sum_z ((fun name => total (charge_of <$> table_rows (sources_of sources name)) block) <$> tables) +
             total (header_charges header candidates header_batches) block) u64_max.
Proof.
  intros Hs Hh Hu. destruct (group_sources_spec sources) as [Hnd Hin].
  unfold compute_block_weights. set (tables := fold_left group_source sources []) in *.
  assert (Hgroups : forall t, t ∈ tables -> t.2 = sources_of sources t.1 /\ t.2 <> []).
  { intros [name group] Ht. by apply Hin. }
  assert (Hloop : forall weights, foldM (fun weights (t : string * list WeighedRows) => table_weights weights t.2) tables weights =
    Ok (add_charges weights (tables ≫= fun t => charge_of <$> table_rows t.2))).
  { clear -Hgroups Hu. induction tables as [|t l IH]; intros weights; [done|]. cbn [foldM].
    destruct (Hgroups t) as [Et Hne]; [by left|]. rewrite table_weights_ok; [|done|rewrite Et; apply Hu].
    cbn [obind]. rewrite IH by (intros; apply Hgroups; by right). rewrite bind_cons. unfold add_charges.
    by rewrite fold_left_app. }
  rewrite Hloop; cbn [obind]. rewrite header_loop by done.
  set (charges := tables ≫= _). exists (add_charges (add_charges ∅ charges) (header_charges header candidates header_batches)), tables.*1.
  split; [done|]. split; [done|]. split.
  { intros name. rewrite list_elem_of_fmap. split.
    - intros ([n group] & -> & Ht). destruct (Hgroups _ Ht) as [Eg Hne]. cbn in *.
      destruct group as [|s group]; [done|]. exists s. assert (Hsin : s ∈ sources_of sources n) by (rewrite <- Eg; by left).
      by apply list_elem_of_filter in Hsin as [? ?].
    - intros (s & Hsin & <-). exists (rp_table (wr_projection s), sources_of sources (rp_table (wr_projection s))).
      split; [done|]. apply Hin. split; [done|]. intros E.
      apply (not_elem_of_nil s). rewrite <- E. by apply list_elem_of_filter. }
  assert (Hc : charges_ok charges).
  { apply Forall_forall. intros c (t & Hc & Ht)%list_elem_of_bind. apply list_elem_of_fmap in Hc as (r & -> & Hr).
    apply charge_of_nonneg. apply table_rows_weight in Hr as (s & Hsin & ->). rewrite Forall_forall in Hs. apply Hs.
    destruct (Hgroups t Ht) as [Eg _]. rewrite Eg in Hsin. by apply list_elem_of_filter in Hsin as [_ ?]. }
  assert (Hhc : charges_ok (header_charges header candidates header_batches)).
  { apply Forall_forall. intros c [_ Hin']%list_elem_of_filter. apply list_elem_of_bind in Hin' as (b & Hin' & _).
    by eapply (proj1 (Forall_forall _ _) (batch_charges_ok _ _ b Hh)). }
  destruct (add_charges_spec charges ∅ Hc) as [Hok Hw].
  { intros block. rewrite lookup_empty. unfold u64_max; cbn. lia. }
  destruct (add_charges_spec _ _ Hhc Hok) as [_ Hw2]. intros block. unfold weight_of. rewrite Hw2, Hw, lookup_empty. cbn [default].
  assert (Ht : total charges block = sum_z ((fun name => total (charge_of <$> table_rows (sources_of sources name)) block) <$> tables.*1)).
  { unfold charges. clear -Hgroups. induction tables as [|t l IH]; [done|]. rewrite bind_cons, total_app, IH by (intros; apply Hgroups; by right).
    rewrite !fmap_cons. cbn. destruct (Hgroups t) as [<- _]; [by left|]. done. }
  pose proof (total_nonneg _ block Hc). pose proof (total_nonneg _ block Hhc). rewrite <- Ht. cbn. lia.
Qed.

Lemma prefix_weight_mono weights xs ys :
  weights_ok weights -> prefix_weight weights xs <= prefix_weight weights (xs ++ ys).
Proof.
  intros Hw. unfold prefix_weight. rewrite fmap_app, sum_z_app.
  assert (0 <= sum_z (weight_of weights <$> ys)); [|lia].
  unfold sum_z. induction ys as [|y ys IH]; [done|]. rewrite fmap_cons. cbn. pose proof (Hw y). unfold weight_of at 1. lia.
Qed.

Lemma prefix_weight_take weights blocks k m :
  weights_ok weights -> (k <= m)%nat -> prefix_weight weights (take k blocks) <= prefix_weight weights (take m blocks).
Proof.
  intros Hw Hkm. replace m with (k + (m - k))%nat by lia. rewrite <- take_take_drop. by apply prefix_weight_mono.
Qed.

(** C38: A page takes the longest prefix of the blocks offered whose weights fit the
    budget together, and always the first block, even one that weighs more than
    the budget alone; it says it is full exactly when the blocks offered weigh
    more than the budget. *)
Theorem selection_spec budget blocks weights :
  0 <= budget -> weights_ok weights ->
  let (s, full) := extend (BlockSelection_new budget) blocks weights in
  exists k, (k <= length blocks)%nat /\
    into_blocks s = (take k blocks, weight_of weights <$> take k blocks) /\
    (blocks <> [] -> (0 < k)%nat) /\
    ((k <= 1)%nat \/ prefix_weight weights (take k blocks) <= budget) /\
    ((k < length blocks)%nat -> budget < prefix_weight weights (take (S k) blocks)) /\
    (full = true <-> budget < prefix_weight weights blocks).
Proof.
  intros Hb Hw. pose proof (extend_spec weights blocks Hw [] (BlockSelection_new budget)) as H.
  destruct (extend (BlockSelection_new budget) blocks weights) as [s full].
  destruct H as [Hbud H]; [split; cbn; [done..|by unfold prefix_weight, u64_max|done]|]. unfold into_blocks.
  assert (Hall : forall k, prefix_weight weights (take k blocks) <= prefix_weight weights blocks).
  { intros k. rewrite <- (take_drop k blocks) at 2. by apply prefix_weight_mono. }
  destruct full.
  - destruct H as (k & Hk & Hover & Hbl & Hwt & Hunder). cbn [app bs_budget BlockSelection_new] in *.
    assert (Hover' : budget < prefix_weight weights blocks) by (eapply Z.lt_le_trans; [exact Hover|apply Hall]).
    destruct k as [|k].
    + rewrite decide_True in Hbl, Hwt by done. exists 1%nat. rewrite Hbl, Hwt. split_and!; try done; [lia|by left|].
      intros _. eapply Z.lt_le_trans; [exact Hover|]. apply prefix_weight_take; [done|lia].
    + rewrite decide_False in Hbl, Hwt by lia. exists (S k). rewrite Hbl, Hwt. split_and!; try done; [lia|intros _; lia|by right].
  - destruct H as [Hbl Hwt Hc Hin]. cbn [app bs_budget BlockSelection_new] in *. exists (length blocks).
    rewrite firstn_all, Hbl, Hwt. rewrite Hc, Hbud in Hin. split_and!; try done.
    + intros Hne. by destruct blocks; [|cbn; lia].
    + right. lia.
    + lia.
    + split; [done|lia].
Qed.

(** However a request is cut into ranges of blocks, and whether or not the
    reading stops at the first range that fills the page, the page holds the
    blocks that weighing them all at once would give it. *)
Theorem extend_ranges_spec budget ranges weights :
  (forall blocks w, (blocks, w) ∈ ranges -> forall b, b ∈ blocks -> w !! b = weights !! b) ->
  extend_ranges (BlockSelection_new budget) ranges = extend (BlockSelection_new budget) (concat ranges.*1) weights.
Proof.
  generalize (BlockSelection_new budget). induction ranges as [|[blocks w] ranges IH]; intros s H; [done|].
  cbn [extend_ranges]. rewrite fmap_cons. cbn [concat fst]. rewrite extend_app.
  rewrite (extend_ext w weights) by (apply (H blocks w); by left).
  destruct (extend s blocks weights) as [r []]; [done|]. apply IH. intros blocks' w' Hin. apply H. by right.
Qed.

Lemma crossing_spec weights blocks budget : weights_ok weights -> forall done_,
  prefix_weight weights done_ <= budget ->
  match crossing ((fun b => (b, weight_of weights b)) <$> blocks) budget (prefix_weight weights done_) with
  | Some block => exists k, blocks !! k = Some block /\
      prefix_weight weights (done_ ++ take k blocks) <= budget < prefix_weight weights (done_ ++ take (S k) blocks)
  | None => prefix_weight weights (done_ ++ blocks) <= budget
  end.
Proof.
  intros Hw. induction blocks as [|b blocks IH]; intros done_ Hd; [by rewrite app_nil_r|].
  rewrite fmap_cons. cbn [crossing]. rewrite <- prefix_weight_snoc by done.
  destruct (Z.ltb_spec budget (prefix_weight weights (done_ ++ [b]))) as [Hlt|Hge].
  - exists 0%nat. rewrite app_nil_r. done.
  - specialize (IH (done_ ++ [b]) Hge). destruct (crossing _ _ _) as [block|].
    + destruct IH as (k & Hk & Hr). exists (S k). split; [done|]. rewrite <- !app_assoc in Hr. exact Hr.
    + by rewrite <- app_assoc in IH.
Qed.

Lemma sorted_weights (m : gmap Z Z) :
  let sorted := sort_by (fun x y : Z * Z => x.1 <=? y.1) (map_to_list m) in
  ascending sorted.*1 /\ (forall b, b ∈ sorted.*1 <-> is_Some (m !! b)) /\
  sorted = (fun b => (b, weight_of m b)) <$> sorted.*1.
Proof.
  set (sorted := sort_by _ _). cbv zeta.
  assert (Hp : sorted ≡ₚ map_to_list m) by apply sort_by_Permutation.
  assert (Hin : forall b w, (b, w) ∈ sorted <-> m !! b = Some w) by (intros; rewrite Hp; apply elem_of_map_to_list).
  split_and!.
  - apply sorted_NoDup_ascending.
    + assert (Hs : StronglySorted (fun x y : Z * Z => (x.1 <=? y.1) = true) sorted).
      { apply sort_by_sorted; intros; rewrite ?Z.leb_le in *; lia. }
      clear -Hs. induction Hs as [|x l Hl IH Hx]; [constructor|]. rewrite fmap_cons. constructor; [done|].
      apply Forall_fmap. eapply Forall_impl; [exact Hx|]. intros y Hy. by apply Z.leb_le in Hy.
    + rewrite Hp. apply NoDup_fst_map_to_list.
  - intros b. rewrite list_elem_of_fmap. split.
    + intros ([b' w] & -> & Hb%Hin). by exists w.
    + intros [w Hw]. exists (b, w). split; [done|]. by apply Hin.
  - rewrite <- list_fmap_compose. symmetry. rewrite <- (list_fmap_id sorted) at 2. apply list_fmap_ext.
    intros i [b w] Hi. cbn. apply list_elem_of_lookup_2, Hin in Hi. unfold weight_of. by rewrite Hi.
Qed.

(** The first range a size scan suggests ends at the first block at which the
    weights of the blocks up to it pass the budget - the block an exact
    selection would stop at, were its rows all the page's - and there is none
    when they all fit. *)
Theorem weight_range_end_spec batches projection budget :
  0 <= budget -> 0 <= rw_fixed (rp_weight projection) <= u64_max ->
  let charges := batches ≫= batch_charges (td_block_number_column (rp_desc projection)) (rp_weight projection) in
  exists blocks weights, ascending blocks /\ (forall b, b ∈ blocks <-> b ∈ charges.*1) /\
    (forall b, weight_of weights b = Z.min (total charges b) u64_max) /\
    match weight_range_end batches projection budget with
    | Some block => exists k, blocks !! k = Some block /\
        prefix_weight weights (take k blocks) <= budget < prefix_weight weights (take (S k) blocks)
    | None => prefix_weight weights blocks <= budget
    end.
Proof.
  intros Hb Hf charges. assert (Hc : charges_ok charges).
  { apply Forall_forall. intros c (batch & Hin & _)%list_elem_of_bind.
    by eapply (proj1 (Forall_forall _ _) (batch_charges_ok _ _ batch Hf)). }
  destruct (add_charges_spec charges ∅ Hc) as [Hok Hw]; [intros b; rewrite lookup_empty; unfold u64_max; cbn; lia|].
  unfold weight_range_end. rewrite accumulate_charges. fold charges.
  destruct (sorted_weights (add_charges ∅ charges)) as (Hasc & Hin & Es).
  set (sorted := sort_by _ _) in *. exists sorted.*1, (add_charges ∅ charges). split_and!; [done| |intros b; unfold weight_of; by rewrite Hw, lookup_empty|].
  - intros b. rewrite Hin. clear. assert (Hgen : forall m, is_Some (add_charges m charges !! b) <-> is_Some (m !! b) \/ b ∈ charges.*1).
    { induction charges as [|c cs IH]; intros m; [cbn; split; [by left|]; by intros [|?%not_elem_of_nil]|].
      unfold add_charges; cbn [fold_left]. fold (add_charges (add_charge m c) cs). rewrite IH, fmap_cons. unfold add_charge, add_weight. rewrite lookup_insert_is_Some', elem_of_cons. naive_solver. }
    rewrite Hgen, lookup_empty. split; [by intros [[]|]|by right].
  - pose proof (crossing_spec (add_charges ∅ charges) sorted.*1 budget Hok []) as H.
    rewrite <- Es in H. apply H. unfold prefix_weight, u64_max; cbn. lia.
Qed.

(** ** Witnesses *)

Lemma empty_weights_ok : weights_ok ∅.
Proof. intros b. rewrite lookup_empty. unfold u64_max; cbn. lia. Qed.

Definition block_weights : gmap Z Z := list_to_map [(7, 40); (8, 70); (9, 10)].

Lemma block_weights_ok : weights_ok block_weights.
Proof.
  intros b. unfold block_weights. cbn. destruct (decide (b = 7)) as [->|]; [vm_compute; split; congruence|].
  rewrite lookup_insert_ne by done. destruct (decide (b = 8)) as [->|]; [vm_compute; split; congruence|].
  rewrite lookup_insert_ne by done. destruct (decide (b = 9)) as [->|]; [vm_compute; split; congruence|].
  rewrite lookup_insert_ne by done. apply empty_weights_ok.
Qed.

Example selection_example :
  let (s, full) := extend (BlockSelection_new 100) [7; 8; 9] block_weights in
  into_blocks s = ([7], [40]) /\ full = true.
Proof. vm_compute. auto. Qed.

Lemma selection_spec_witness :
  let (s, full) := extend (BlockSelection_new 100) [7; 8; 9] block_weights in
  exists k, (k <= length [7; 8; 9])%nat /\
    into_blocks s = (take k [7; 8; 9], weight_of block_weights <$> take k [7; 8; 9]) /\
    ([7; 8; 9] <> [] -> (0 < k)%nat) /\
    ((k <= 1)%nat \/ prefix_weight block_weights (take k [7; 8; 9]) <= 100) /\
    ((k < length [7; 8; 9])%nat -> 100 < prefix_weight block_weights (take (S k) [7; 8; 9])) /\
    (full = true <-> 100 < prefix_weight block_weights [7; 8; 9]).
Proof. apply (selection_spec 100 [7; 8; 9] block_weights); [lia|exact block_weights_ok]. Defined.

Lemma extend_ranges_spec_witness :
  extend_ranges (BlockSelection_new 100) [([7], {[7 := 40]}); ([8; 9], {[8 := 70; 9 := 10]})] =
  extend (BlockSelection_new 100) (concat [[7]; [8; 9]]) block_weights.
Proof.
  apply (extend_ranges_spec 100 [([7], {[7 := 40]}); ([8; 9], {[8 := 70; 9 := 10]})] block_weights).
  intros blocks w Hin b Hb.
  apply elem_of_cons in Hin as [[= -> ->]|[[= -> ->]|Hin%not_elem_of_nil]%elem_of_cons]; [| |done].
  - apply list_elem_of_singleton in Hb as ->. vm_compute. reflexivity.
  - apply elem_of_cons in Hb as [->|Hb%list_elem_of_singleton]; [vm_compute; reflexivity|].
    subst. vm_compute. reflexivity.
Defined.

(** A table's rows and a relation's rows into it, one of them the same row. *)
Definition tx_batch (indexes : list Z) : RecordBatch :=
  {| columns := [("block_number"%string, AInt UInt64 (replicate (length indexes) 7) None);
                 ("index"%string, AInt UInt32 indexes None);
                 ("input_size"%string, AInt UInt64 ((fun i => i * 100) <$> indexes) None)];
     num_rows := length indexes |}.

Definition tx_projection : ResolvedProjection :=
  {| rp_table := "transactions"; rp_desc := transactions; rp_names := ["input"%string]; rp_fields := [];
     rp_rendered := ["input"%string]; rp_required := []; rp_weight := RowWeight_of ["input"%string] transactions;
     rp_row_columns := []; rp_size_columns := [] |}.

Definition tx_sources : list WeighedRows :=
  [ {| wr_projection := tx_projection; wr_rows := Rows_new [tx_batch [1; 2]] |};
    {| wr_projection := tx_projection; wr_rows := Rows_new [tx_batch [2; 3]] |} ].

(** Rows one to three are charged once each: 3 * 64 and 600 of their inputs. *)
Example tx_weights :
  omap_ok map_to_list (compute_block_weights tx_sources tx_projection [] [7]) = Ok [(7, 792)].
Proof. vm_compute. reflexivity. Qed.

Lemma tx_uniform : uniform (contributions_of tx_sources).
Proof. right. repeat constructor; intros _ [p Hp]; discriminate. Qed.

Lemma tx_fixed : Forall (fun s => 0 <= rw_fixed (rp_weight (wr_projection s)) <= u64_max) tx_sources.
Proof. repeat constructor; vm_compute; congruence. Qed.

Lemma accumulate_dedup_spec_witness :
  let contributions := contributions_of tx_sources in
  let rows := contributions ≫= contribution_rows "block_number" in
  let same := same_row contributions ["index"%string] in
  (forall s t, s ∈ contributions -> offers_rows s -> has_positions s ->
     t ∈ contributions -> offers_rows t -> ~ has_positions t ->
     accumulate_dedup_contributions contributions "block_number" ["index"%string] ∅ = Err OtherError) /\
  (uniform contributions -> exists kept after,
    accumulate_dedup_contributions contributions "block_number" ["index"%string] ∅ = Ok after /\
    (forall c, c ∈ kept -> c ∈ rows) /\ (forall c, c ∈ rows -> exists d, d ∈ kept /\ same c d = true) /\
    StronglySorted (fun c d => same d c = false) kept /\
    forall block, weight_of after block =
      Z.min (weight_of ∅ block + total (charge_of <$> kept) block) u64_max).
Proof.
  apply accumulate_dedup_spec; [exact empty_weights_ok|]. repeat constructor; vm_compute; congruence.
Defined.

Lemma compute_block_weights_spec_witness :
  exists weights tables,
    compute_block_weights tx_sources tx_projection [tx_batch [4]] [7] = Ok weights /\
    NoDup tables /\ (forall name, name ∈ tables <-> exists s, s ∈ tx_sources /\ rp_table (wr_projection s) = name) /\
    forall block, weight_of weights block =
      Z.min (sum_z ((fun name => total (charge_of <$> table_rows (sources_of tx_sources name)) block) <$> tables) +
             total (header_charges tx_projection [7] [tx_batch [4]]) block) u64_max.
Proof.
  apply compute_block_weights_spec; [exact tx_fixed|vm_compute; split; congruence|].
  intros name. destruct (decide (name = "transactions"%string)) as [->|Hne]; [exact tx_uniform|].
  unfold sources_of, tx_sources. rewrite !filter_cons_False by (cbn; congruence). right. constructor.
Defined.

Lemma weight_range_end_spec_witness :
  let charges := [tx_batch [1; 2]] ≫= batch_charges "block_number" (rp_weight tx_projection) in
  exists blocks weights, ascending blocks /\ (forall b, b ∈ blocks <-> b ∈ charges.*1) /\
    (forall b, weight_of weights b = Z.min (total charges b) u64_max) /\
    match weight_range_end [tx_batch [1; 2]] tx_projection 500 with
    | Some block => exists k, blocks !! k = Some block /\
        prefix_weight weights (take k blocks) <= 500 < prefix_weight weights (take (S k) blocks)
    | None => prefix_weight weights blocks <= 500
    end.
Proof. apply weight_range_end_spec; [lia|vm_compute; split; congruence]. Defined.
