(* ===== verification/RowOrder.v ===== *)
(** The order of a table's rows within a block (src/output/row_order.rs): by the
    table's item order keys and its address, then by file order. Rows compare
    column by column, or by keys prepared once in one of three forms; the
    theorems show that the forms order rows alike.

    A comparison reads rows the batches have: where the code would index past
    one, the readers here give a default. *)
From stdpp Require Import base strings list sorting.
From Stdlib Require Import ZArith Lia.
From S2P Require Import Prelude Machine ListLib Errors Arrow Integers KeyColumns Catalog Projection.

#[local] Open Scope Z_scope.

(** [Option]'s order: none before any value. *)
Definition option_cmp {A} (cmp : A -> A -> comparison) (a b : option A) : comparison :=
  match a, b with
  | None, None => Eq
  | None, Some _ => Lt
  | Some _, None => Gt
  | Some a, Some b => cmp a b
  end.

(** The order of pairs of indices. *)
Abbreviation place := (nat * nat)%type.
Definition place_cmp (a b : place) : comparison := then_cmp (a.1 ?= b.1)%nat (a.2 ?= b.2)%nat.

(** The elements of a list's row. *)
Definition span (offsets : list Z) (row : nat) : nat * nat := (offset_at offsets row, offset_at offsets (S row)).

(** ** Stored integers *)

(** [src/src/output/row_order.rs:L113-121] StoredInts. One variant per stored type. *)
Record StoredInts := { si_type : int_type; si_values : list Z }.

(** [src/src/output/row_order.rs:L122-128] StoredInts::resolve. *)
Definition StoredInts_resolve (values : array) : option StoredInts :=
  match values with
  | AInt t values _ => Some {| si_type := t; si_values := values |}
  | _ => None
  end.

(** [src/src/output/row_order.rs:L130-135] StoredInts::width. *)
Definition si_width (s : StoredInts) : nat := Z.to_nat (int_bits (si_type s) / 8).

(** A value at its stored width, a signed one's sign bit flipped. *)
Definition order_word (t : int_type) (value : Z) : Z :=
  let sign := if int_signed t then Z.shiftl 1 (int_bits t - 1) else 0 in
  Z.lxor (as_unsigned (int_bits t) value) sign.

(** [src/src/output/row_order.rs:L137-149] StoredInts::pack: what it writes. *)
Definition si_pack (s : StoredInts) (start stop : nat) : list Z :=
  slice (si_values s) start stop ≫= fun value => to_be_bytes (si_width s) (order_word (si_type s) value).

(** [src/src/output/row_order.rs:L151-160] StoredInts::word. *)
Definition si_word (s : StoredInts) (i : nat) : Z := order_word (si_type s) (default 0 (si_values s !! i)).

(** [src/src/output/row_order.rs:L162-166] StoredInts::value. *)
Definition si_value (s : StoredInts) (i : nat) : Z := default 0 (si_values s !! i).

(** [src/src/output/row_order.rs:L168-172] StoredInts::len. *)
Definition si_len (s : StoredInts) : nat := length (si_values s).

(** [src/src/output/row_order.rs:L174-181] StoredInts::compare_one. *)
Definition compare_one (self : StoredInts) (a : nat) (other : StoredInts) (b : nat) : comparison :=
  if decide (si_type self = si_type other)
  then default 0 (si_values self !! a) ?= default 0 (si_values other !! b)
  else si_value self a ?= si_value other b.

(** [src/src/output/row_order.rs:L183-195] StoredInts::compare. *)
Definition si_compare (self : StoredInts) (a : nat * nat) (other : StoredInts) (b : nat * nat) : comparison :=
  if decide (si_type self = si_type other)
  then slice_cmp (slice (si_values self) a.1 a.2) (slice (si_values other) b.1 b.2)
  else
    let pairs := zip (seq a.1 (a.2 - a.1)) (seq b.1 (b.2 - b.1)) in
    default ((a.2 - a.1) ?= (b.2 - b.1))%nat
      (head (filter (fun order => order <> Eq) ((fun ij => si_value self ij.1 ?= si_value other ij.2) <$> pairs))).

(** ** Sort keys *)

(** [src/src/output/row_order.rs:93-96] PackedKeys. *)
Record PackedKeys := { pk_ends : list nat; pk_bytes : list Z }.

(** [src/src/output/row_order.rs:99-103] PackedKeys::key. *)
Definition pk_key (k : PackedKeys) (row : nat) : list Z :=
  let start := if (row =? 0)%nat then 0%nat else default 0%nat (pk_ends k !! (row - 1)%nat) in
  slice (pk_bytes k) start (default 0%nat (pk_ends k !! row)).

(** [src/src/output/row_order.rs:106-111] TypedKeys. *)
Record TypedKeys := { tk_fixed : list StoredInts; tk_path : option (list Z * StoredInts) }.

(** [src/src/output/row_order.rs:79-91] SortKeys. *)
Inductive SortKeys :=
  | Words (keys : list (list Z))
  | Typed (keys : list TypedKeys)
  | Packed (keys : list PackedKeys).

Definition no_typed_keys : TypedKeys := {| tk_fixed := []; tk_path := None |}.
Definition no_packed_keys : PackedKeys := {| pk_ends := []; pk_bytes := [] |}.

(** The first column that tells two rows apart. *)
Fixpoint compare_fixed (a b : list StoredInts) (ra rb : nat) : comparison :=
  match a, b with
  | x :: a, y :: b => then_cmp (compare_one x ra y rb) (compare_fixed a b ra rb)
  | _, _ => Eq
  end.

(** [src/src/output/row_order.rs:203-222] SortKeys::compare. *)
Definition keys_compare (self : SortKeys) (a b : place) : comparison :=
  match self with
  | Words keys =>
      default 0 (keys !! a.1 ≫= fun words => words !! a.2) ?=
      default 0 (keys !! b.1 ≫= fun words => words !! b.2)
  | Typed keys =>
      let x := default no_typed_keys (keys !! a.1) in
      let y := default no_typed_keys (keys !! b.1) in
      then_cmp (compare_fixed (tk_fixed x) (tk_fixed y) a.2 b.2)
        match tk_path x, tk_path y with
        | Some (oa, va), Some (ob, vb) => si_compare va (span oa a.2) vb (span ob b.2)
        | _, _ => Eq
        end
  | Packed keys =>
      slice_cmp (pk_key (default no_packed_keys (keys !! a.1)) a.2)
                (pk_key (default no_packed_keys (keys !! b.1)) b.2)
  end.

(** ** Sort columns *)

(** [src/src/output/row_order.rs:225-234] TypedSortColumn. *)
Inductive TypedSortColumn :=
  | SortInt (ints : IntColumn)
  | SortText (values : list string) (nulls : null_buffer)
  | SortList (offsets : list Z) (elements : option StoredInts).

(** [src/src/output/row_order.rs:237-250] TypedSortColumn::resolve. *)
Definition TypedSortColumn_resolve (col : array) : option TypedSortColumn :=
  match col with
  | AInt t values nulls => Some (SortInt {| ic_type := t; ic_values := values; ic_nulls := nulls |})
  | AText _ values nulls => Some (SortText values nulls)
  | AList offsets values _ => Some (SortList offsets (StoredInts_resolve values))
  | _ => None
  end.

(** The text at a row, none for a null. *)
Definition text_value (values : list string) (nulls : null_buffer) (row : nat) : option string :=
  if is_valid_in nulls row then Some (default ""%string (values !! row)) else None.

(** [src/src/output/row_order.rs:252-271] TypedSortColumn::cmp_rows. A mismatch of
    kinds is a debug assertion, and equal in a release build. *)
Definition cmp_rows (self : TypedSortColumn) (row_a : nat) (other : TypedSortColumn) (row_b : nat) : comparison :=
  match self, other with
  | SortInt a, SortInt b => int_value a row_a ?= int_value b row_b
  | SortText a na, SortText b nb => option_cmp text_cmp (text_value a na row_a) (text_value b nb row_b)
  | SortList oa (Some va), SortList ob (Some vb) => si_compare va (span oa row_a) vb (span ob row_b)
  | _, _ => Eq
  end.

(** [src/src/output/row_order.rs:73-77] orders_rows: a column of the type, of
    whatever rows, resolves. *)
Definition orders_rows (dt : data_type) : bool :=
  match dt with
  | DInt _ | DText _ | DList _ => true
  | _ => false
  end.

(** [src/src/output/row_order.rs:279-286] build_full_sort_columns. *)
Definition build_full_sort_columns (desc : TableDescription) : list string := drop 1 (row_key desc).

(** [src/src/output/row_order.rs:288-307] resolve_sort_columns. *)
Definition resolve_sort_columns (batches : list RecordBatch) (sort_columns : list string)
    : list (list (option TypedSortColumn)) :=
  (fun b => (fun k => column_by_name b k ≫= TypedSortColumn_resolve) <$> sort_columns) <$> batches.

(** The first resolved column of both that tells two rows apart. *)
Fixpoint compare_columns (a b : list (option TypedSortColumn)) (ra rb : nat) : comparison :=
  match a, b with
  | Some x :: a, Some y :: b => then_cmp (cmp_rows x ra y rb) (compare_columns a b ra rb)
  | _ :: a, _ :: b => compare_columns a b ra rb
  | _, _ => Eq
  end.

(** ** Preparing keys *)

(** [src/src/output/row_order.rs:420-440] typed_keys. *)
Definition typed_keys (cols : list array) : option TypedKeys :=
  last_ ← last cols;
  let list_ := match last_ with AList offsets values _ => Some (offsets, values) | _ => None end in
  let fixed := match list_ with Some _ => take (length cols - 1) cols | None => cols end in
  fixed ← mapM StoredInts_resolve fixed;
  match list_ with
  | Some (offsets, values) =>
      elements ← StoredInts_resolve values;
      Some {| tk_fixed := fixed; tk_path := Some (offsets, elements) |}
  | None => Some {| tk_fixed := fixed; tk_path := None |}
  end.

(** [word.checked_shl(bits).unwrap_or(0) | column.word(row)]. *)
Definition push_word (row : nat) (word : Z) (column : StoredInts) : Z :=
  let bits := Z.of_nat (si_width column) * 8 in
  let shifted := if bits <? 64 then as_u64 (Z.shiftl word bits) else 0 in
  Z.lor shifted (si_word column row).

(** [src/src/output/row_order.rs:361-377] word_keys. *)
Definition word_keys (keys : TypedKeys) : option (list Z) :=
  let bits := sum_list ((fun c => si_width c * 8)%nat <$> tk_fixed keys) in
  if bool_decide (is_Some (tk_path keys)) || (64 <? bits)%nat then None else
  let rows := match tk_fixed keys with c :: _ => si_len c | [] => 0%nat end in
  Some ((fun row => fold_left (push_word row) (tk_fixed keys) 0) <$> seq 0 rows).

(** A row's bytes: its fixed columns', then its path's. *)
Definition packed_row (keys : TypedKeys) (row : nat) : list Z :=
  (tk_fixed keys ≫= fun c => si_pack c row (S row)) ++
  match tk_path keys with
  | Some (offsets, values) => si_pack values (offset_at offsets row) (offset_at offsets (S row))
  | None => []
  end.

(** The running sum of the rows' sizes. *)
Fixpoint ends_from (total : nat) (sizes : list nat) : list nat :=
  match sizes with
  | [] => []
  | n :: sizes => (total + n)%nat :: ends_from (total + n) sizes
  end.

(** [src/src/output/row_order.rs:379-418] packed_keys. Each row's part of the buffer
    is its size, which [pack] fills. *)
Definition packed_keys (keys : TypedKeys) : PackedKeys :=
  let rows := match tk_fixed keys with
              | c :: _ => si_len c
              | [] => match tk_path keys with Some (offsets, _) => (length offsets - 1)%nat | None => 0%nat end
              end in
  let fixed_bytes := sum_list (si_width <$> tk_fixed keys) in
  let size row := (fixed_bytes + match tk_path keys with
    | Some (offsets, values) => (offset_at offsets (S row) - offset_at offsets row) * si_width values
    | None => 0
    end)%nat in
  {| pk_ends := ends_from 0 (size <$> seq 0 rows); pk_bytes := seq 0 rows ≫= packed_row keys |}.

(** [src/src/output/row_order.rs:358-359] PACKED_DEPTH. *)
Definition PACKED_DEPTH : Z := 8.

(** A path column at least [PACKED_DEPTH] deep on average. *)
Definition is_deep (keys : TypedKeys) : bool :=
  match tk_path keys with
  | Some (offsets, _) =>
      let rows := (length offsets - 1)%nat in
      let elements := default 0 (offsets !! rows) - default 0 (head offsets) in
      PACKED_DEPTH * Z.of_nat (Nat.max rows 1) <=? elements
  | None => false
  end.

(** [src/src/output/row_order.rs:309-356] row_sort_keys. *)
Definition row_sort_keys (batches : list RecordBatch) (sort_columns : list string) : option SortKeys :=
  first ← head batches;
  if bool_decide (sort_columns = []) then None else
  types ← mapM (fun name => array_type <$> column_by_name first name) sort_columns;
  cols ← mapM (fun batch => mapM (column_by_name batch) sort_columns) batches;
  if negb (forallb (fun cs => forallb (fun ct : array * data_type => bool_decide (array_type ct.1 = ct.2))
             (zip cs types)) cols) then None else
  typed ← mapM typed_keys cols;
  match mapM word_keys typed with
  | Some words => Some (Words words)
  | None =>
      Some (if existsb is_deep typed then Packed (packed_keys <$> typed) else Typed typed)
  end.

(** ** Sorting *)

(** [src/src/output/row_order.rs:442-482] sort_rows_by_order_keys_indexed. Every
    order used tells any two rows apart, so the unstable sort has one result. *)
Definition sort_rows_by_order_keys_indexed (rows : list place) (sort_col_resolved : list (list (option TypedSortColumn)))
    (sort_rows : option SortKeys) : list place :=
  let by_cmp cmp := sort_by (fun a b => negb (bool_decide (then_cmp (cmp a b) (place_cmp a b) = Gt))) rows in
  if bool_decide (rows = []) then rows else
  match sort_rows with
  | Some keys => by_cmp (keys_compare keys)
  | None =>
      let has_sort_cols := match head sort_col_resolved with Some v => negb (bool_decide (v = [])) | None => false end in
      if negb has_sort_cols then by_cmp (fun _ _ => Eq) else
      by_cmp (fun a b => compare_columns (default [] (sort_col_resolved !! a.1)) (default [] (sort_col_resolved !! b.1)) a.2 b.2)
  end.

(** [src/src/output/row_order.rs:23-29] RowOrder. *)
Record RowOrder := {
  ro_columns : list string;
  ro_resolved : list (list (option TypedSortColumn));
  ro_keys : option SortKeys;
}.

(** [src/src/output/row_order.rs:32-42] RowOrder::new. *)
Definition RowOrder_new (batches : list RecordBatch) (desc : TableDescription) : RowOrder :=
  let cols := build_full_sort_columns desc in
  {| ro_columns := cols; ro_resolved := resolve_sort_columns batches cols; ro_keys := row_sort_keys batches cols |}.

(** [src/src/output/row_order.rs:44-47] RowOrder::is_keyed. *)
Definition is_keyed (self : RowOrder) : bool := negb (bool_decide (ro_columns self = [])).

(** [src/src/output/row_order.rs:49-52] RowOrder::sort. *)
Definition ro_sort (self : RowOrder) (rows : list place) : list place :=
  sort_rows_by_order_keys_indexed rows (ro_resolved self) (ro_keys self).

(** [src/src/output/row_order.rs:54-70] RowOrder::compare. *)
Definition ro_compare (self : RowOrder) (a : place) (other : RowOrder) (b : place) : comparison :=
  compare_columns (default [] (ro_resolved self !! a.1)) (default [] (ro_resolved other !! b.1)) a.2 b.2.

(** ** What a row sorts by *)

(** A sort column's value at a row; none for a type that does not order. *)
Inductive sort_value :=
  | VInt (z : Z)
  | VText (s : option string)
  | VPath (l : list Z)
  | VNone.

Definition sort_value_at (row : nat) (a : array) : sort_value :=
  match a with
  | AInt _ values _ => VInt (default 0 (values !! row))
  | AText _ values nulls => VText (text_value values nulls row)
  | AList offsets (AInt _ values _) _ => VPath (slice values (offset_at offsets row) (offset_at offsets (S row)))
  | _ => VNone
  end.

Definition sort_values (cols : list string) (b : RecordBatch) (row : nat) : list sort_value :=
  (fun name => match column_by_name b name with Some a => sort_value_at row a | None => VNone end) <$> cols.

Definition value_cmp (x y : sort_value) : comparison :=
  match x, y with
  | VInt x, VInt y => x ?= y
  | VText x, VText y => option_cmp text_cmp x y
  | VPath x, VPath y => slice_cmp x y
  | _, _ => Eq
  end.

(** Column by column. *)
Fixpoint values_cmp (x y : list sort_value) : comparison :=
  match x, y with
  | a :: x, b :: y => then_cmp (value_cmp a b) (values_cmp x y)
  | _, _ => Eq
  end.

(** ** Stored integers compare by value *)

Lemma slice_cons {A} (l : list A) a e x :
  (a < e)%nat -> l !! a = Some x -> slice l a e = x :: slice l (S a) e.
Proof.
  intros Hae Hx. unfold slice. rewrite (drop_S _ _ _ Hx).
  replace (e - a)%nat with (S (e - S a)) by lia. done.
Qed.

Lemma slice_ge {A} (l : list A) a e : (e <= a)%nat -> slice l a e = [].
Proof. intros. unfold slice. by replace (e - a)%nat with 0%nat by lia. Qed.

Lemma compare_pairs (x y : list Z) ea eb : (ea <= length x)%nat -> (eb <= length y)%nat ->
  forall la a b, la = (ea - a)%nat ->
  default (la ?= (eb - b))%nat
    (head (filter (fun order => order <> Eq)
       ((fun ij : nat * nat => default 0 (x !! ij.1) ?= default 0 (y !! ij.2)) <$> zip (seq a la) (seq b (eb - b))))) =
  slice_cmp (slice x a ea) (slice y b eb).
Proof.
  intros Hx Hy. induction la as [|la IH]; intros a b Hla.
  { rewrite (slice_ge x) by lia. cbn. destruct (decide (b < eb)%nat) as [Hb|Hb].
    - destruct (lookup_lt_is_Some_2 y b ltac:(lia)) as [v Hv]. rewrite (slice_cons y b eb v) by (done || lia).
      by destruct (eb - b)%nat eqn:E; [lia|].
    - rewrite (slice_ge y) by lia. by replace (eb - b)%nat with 0%nat by lia. }
  destruct (lookup_lt_is_Some_2 x a ltac:(lia)) as [u Hu]. rewrite (slice_cons x a ea u) by (done || lia).
  destruct (decide (b < eb)%nat) as [Hb|Hb].
  2: { rewrite (slice_ge y) by lia. replace (eb - b)%nat with 0%nat by lia. done. }
  destruct (lookup_lt_is_Some_2 y b ltac:(lia)) as [v Hv]. rewrite (slice_cons y b eb v) by (done || lia).
  destruct (eb - b)%nat as [|lb] eqn:Elb; [lia|]. cbn [seq zip zip_with]. rewrite fmap_cons, filter_cons. cbn [fst snd].
  rewrite Hu, Hv. cbn [default]. cbn [lex_compare].
  specialize (IH (S a) (S b) ltac:(lia)). replace (eb - S b)%nat with lb in IH by lia.
  rewrite <- IH. case_decide as Hd; cbn; [destruct (u ?= v) eqn:Euv; [by destruct Hd|done..]|].
  assert ((u ?= v) = Eq) as -> by exact Hd. done.
Qed.

Lemma si_compare_spec x y a b :
  (a.2 <= si_len x)%nat -> (b.2 <= si_len y)%nat ->
  si_compare x a y b = slice_cmp (slice (si_values x) a.1 a.2) (slice (si_values y) b.1 b.2).
Proof.
  intros Hx Hy. unfold si_compare. case_decide; [done|]. unfold si_value. by apply compare_pairs.
Qed.

Lemma compare_one_spec x y a b : compare_one x a y b = (si_value x a ?= si_value y b).
Proof. unfold compare_one. by case_decide. Qed.

(** The offsets of a well-formed list stay within its elements. *)
Lemma offset_within offsets values nulls row :
  array_ok (AList offsets values nulls) -> (offset_at offsets row <= array_len values)%nat.
Proof.
  intros (_ & _ & _ & _ & Hf & _). unfold offset_at. destruct (offsets !! row) as [z|] eqn:Ez; cbn; [|lia].
  pose proof (Forall_lookup_1 _ _ _ _ Hf Ez). cbn in *. lia.
Qed.

Lemma cmp_rows_spec a b ra rb ca cb :
  array_ok a -> array_ok b -> TypedSortColumn_resolve a = Some ca -> TypedSortColumn_resolve b = Some cb ->
  cmp_rows ca ra cb rb = value_cmp (sort_value_at ra a) (sort_value_at rb b).
Proof.
  intros Ha Hb.
  destruct a as [t x n|u x n|x n|sz x n|ox x n|nm x n| | | |]; cbn; try done; intros [= <-];
    destruct b as [t' y m|u' y m|y m|sz' y m|oy y m|nm' y m| | | |]; cbn; try done; intros [= <-]; cbn; try done.
  - by destruct y.
  - by destruct y.
  - by destruct x.
  - by destruct x.
  - destruct x as [t x' nx| | | | | | | | |]; [|by destruct y..]. destruct y as [t' y' ny| | | | | | | | |]; try done.
    apply si_compare_spec; [exact (offset_within _ _ _ (S ra) Ha)|exact (offset_within _ _ _ (S rb) Hb)].
Qed.

Lemma resolve_none a row : TypedSortColumn_resolve a = None -> sort_value_at row a = VNone.
Proof. by destruct a. Qed.

Lemma value_cmp_none_r x : value_cmp x VNone = Eq.
Proof. by destruct x. Qed.

(** Resolved columns compare rows by what they sort by. *)
Lemma compare_columns_spec cols b c rb rc :
  batch_ok b -> batch_ok c ->
  compare_columns ((fun k => column_by_name b k ≫= TypedSortColumn_resolve) <$> cols)
                  ((fun k => column_by_name c k ≫= TypedSortColumn_resolve) <$> cols) rb rc =
  values_cmp (sort_values cols b rb) (sort_values cols c rc).
Proof.
  intros Hb Hc. unfold sort_values. induction cols as [|name cols IH]; [done|]. rewrite !fmap_cons. cbn [compare_columns values_cmp].
  rewrite <- IH. clear IH.
  destruct (column_by_name b name) as [a|] eqn:Ea; cbn [mbind option_bind]; [|done].
  destruct (TypedSortColumn_resolve a) as [ca|] eqn:Era; [|by rewrite (resolve_none a)].
  destruct (column_by_name c name) as [a'|] eqn:Ea'; cbn [mbind option_bind]; [|by rewrite value_cmp_none_r].
  destruct (TypedSortColumn_resolve a') as [ca'|] eqn:Era'; [|by rewrite (resolve_none a'), value_cmp_none_r].
  destruct (column_ok _ _ _ Hb Ea), (column_ok _ _ _ Hc Ea').
  by rewrite (cmp_rows_spec a a' rb rc ca ca').
Qed.

(** ** Typed keys *)

(** What typed keys say of a row. *)
Definition typed_values (k : TypedKeys) (row : nat) : list sort_value :=
  ((fun c => VInt (si_value c row)) <$> tk_fixed k) ++
  match tk_path k with
  | Some (offsets, v) => [VPath (slice (si_values v) (offset_at offsets row) (offset_at offsets (S row)))]
  | None => []
  end.

(** The types the keys are stored at. *)
Definition typed_types (k : TypedKeys) : list int_type * option int_type :=
  (si_type <$> tk_fixed k, (fun p : list Z * StoredInts => si_type p.2) <$> tk_path k).

(** Keys of well-formed columns of [rows] rows. *)
Definition typed_ok (rows : nat) (k : TypedKeys) : Prop :=
  Forall (fun c => si_len c = rows /\ Forall (in_int_type (si_type c)) (si_values c)) (tk_fixed k) /\
  match tk_path k with
  | Some (offsets, v) => length offsets = S rows /\ StronglySorted Z.le offsets /\
      Forall (in_int_type (si_type v)) (si_values v) /\
      Forall (fun o => 0 <= o <= Z.of_nat (si_len v)) offsets
  | None => tk_fixed k <> []
  end.

Lemma stored_columns cols fixed rows :
  mapM StoredInts_resolve cols = Some fixed ->
  Forall (fun a => array_ok a /\ array_len a = rows) cols ->
  (forall row, sort_value_at row <$> cols = (fun c => VInt (si_value c row)) <$> fixed) /\
  array_type <$> cols = DInt <$> (si_type <$> fixed) /\
  Forall (fun c => si_len c = rows /\ Forall (in_int_type (si_type c)) (si_values c)) fixed.
Proof.
  intros H Hc. apply mapM_Some in H. induction H as [|a c cols fixed Hac _ IH]; [done|].
  apply Forall_cons in Hc as [[Ha Hl] Hc]. destruct (IH Hc) as (IH1 & IH2 & IH3).
  destruct a as [t x n| | | | | | | | |]; cbn in Hac; try done. injection Hac as <-.
  split_and!.
  - intros row. by rewrite !fmap_cons, IH1.
  - by rewrite !fmap_cons, IH2.
  - constructor; [|done]. destruct Ha as [_ Hf]. done.
Qed.

Lemma typed_keys_spec cols k rows :
  typed_keys cols = Some k -> Forall (fun a => array_ok a /\ array_len a = rows) cols ->
  (forall row, sort_value_at row <$> cols = typed_values k row) /\
  array_type <$> cols =
    (DInt <$> (typed_types k).1) ++ match (typed_types k).2 with Some t => [DList (DInt t)] | None => [] end /\
  typed_ok rows k.
Proof.
  unfold typed_keys. intros H Hc. destruct (last cols) as [l|] eqn:El; cbn in H; [|done].
  assert (Hne : cols <> []) by by destruct cols.
  destruct (match l with AList offsets values _ => Some (offsets, values) | _ => None end) as [[offsets values]|] eqn:Elist.
  - destruct l as [| | | |o v n| | | | |]; try done. injection Elist as -> ->.
    apply last_Some in El as [leading ->].
    rewrite length_app in H. cbn [length] in H. replace (length leading + 1 - 1)%nat with (length leading) in H by lia.
    rewrite take_app_length in H. apply Forall_app in Hc as [Hlead Hlast]. apply Forall_cons in Hlast as [[Ha Hl] _].
    destruct (mapM StoredInts_resolve leading) as [fixed|] eqn:Ef; cbn in H; [|done].
    destruct values as [t x m| | | | | | | | |]; cbn in H; try done. injection H as <-.
    destruct (stored_columns leading fixed rows Ef Hlead) as (H1 & H2 & H3). unfold typed_values, typed_types, typed_ok; cbn.
    split; [|split].
    + intros row. by rewrite fmap_app, H1.
    + by rewrite fmap_app, H2.
    + split; [done|]. destruct Ha as (_ & [_ Hx] & Hlen & Hs & Hf & _). cbn in Hl, Hlen. split_and!; [lia|done|done|done].
  - destruct (mapM StoredInts_resolve cols) as [fixed|] eqn:Ef; cbn in H; [|done]. injection H as <-.
    destruct (stored_columns cols fixed rows Ef Hc) as (H1 & H2 & H3). unfold typed_values, typed_types, typed_ok; cbn.
    split; [intros row; by rewrite app_nil_r, H1|]. split; [by rewrite app_nil_r|]. split; [done|]. intros ->. apply mapM_Some in Ef. by apply Forall2_nil_inv_r in Ef.
Qed.

Lemma values_cmp_app x1 x2 y1 y2 :
  length x1 = length y1 -> values_cmp (x1 ++ x2) (y1 ++ y2) = then_cmp (values_cmp x1 y1) (values_cmp x2 y2).
Proof.
  revert y1; induction x1 as [|a x1 IH]; intros [|b y1] Hl; try done. cbn. rewrite IH by (cbn in Hl; lia).
  by destruct (value_cmp a b).
Qed.

Lemma typed_compare x y ra rb rows rows' :
  typed_types x = typed_types y -> typed_ok rows x -> typed_ok rows' y ->
  then_cmp (compare_fixed (tk_fixed x) (tk_fixed y) ra rb)
    match tk_path x, tk_path y with
    | Some (oa, va), Some (ob, vb) => si_compare va (span oa ra) vb (span ob rb)
    | _, _ => Eq
    end = values_cmp (typed_values x ra) (typed_values y rb).
Proof.
  intros Et [_ Hx] [_ Hy]. injection Et as Ef Ep. unfold typed_values.
  assert (Hl : length (tk_fixed x) = length (tk_fixed y)).
  { apply (f_equal length) in Ef. by rewrite !length_fmap in Ef. }
  rewrite values_cmp_app by by rewrite !length_fmap. f_equal.
  - clear -Hl. revert Hl. generalize (tk_fixed y). induction (tk_fixed x) as [|c cs IH]; intros [|d ds] Hl; try done.
    rewrite !fmap_cons. cbn. rewrite compare_one_spec, IH; [done|cbn in Hl; lia].
  - destruct (tk_path x) as [[oa va]|], (tk_path y) as [[ob vb]|]; try done. cbn [values_cmp value_cmp].
    destruct Hx as (_ & _ & _ & Hfx), Hy as (_ & _ & _ & Hfy). rewrite si_compare_spec.
    + unfold then_cmp. by destruct (slice_cmp _ _).
    + unfold span, offset_at; cbn. destruct (oa !! S ra) as [z|] eqn:Ez; cbn; [|lia].
      pose proof (Forall_lookup_1 _ _ _ _ Hfx Ez). cbn in *. lia.
    + unfold span, offset_at; cbn. destruct (ob !! S rb) as [z|] eqn:Ez; cbn; [|lia].
      pose proof (Forall_lookup_1 _ _ _ _ Hfy Ez). cbn in *. lia.
Qed.

(** ** Words *)

Lemma int_bits_cases t : int_bits t = 8 \/ int_bits t = 16 \/ int_bits t = 32 \/ int_bits t = 64.
Proof. destruct t; cbn; lia. Qed.

Lemma si_width_bits c : Z.of_nat (si_width c) * 8 = int_bits (si_type c).
Proof. unfold si_width. by destruct (si_type c). Qed.

(** The sign bit stands apart from the bits below it. *)
Lemma lxor_sign k y : 0 <= k -> 0 <= y < 2 ^ k -> Z.lxor (2 ^ k + y) (2 ^ k) = y /\ Z.lxor y (2 ^ k) = 2 ^ k + y.
Proof.
  intros Hk Hy.
  assert (Hland : Z.land (2 ^ k) y = 0).
  { apply Z.bits_inj'. intros n Hn. rewrite Z.land_spec, Z.bits_0, Z.pow2_bits_eqb by lia.
    destruct (Z.eqb_spec k n) as [->|]; [|done]. cbn. rewrite <- (Z.mod_small y (2 ^ n)) by lia.
    apply Z.mod_pow2_bits_high. lia. }
  rewrite Z.add_nocarry_lxor by done. split.
  - by rewrite Z.lxor_comm, <- Z.lxor_assoc, Z.lxor_nilpotent, Z.lxor_0_l.
  - apply Z.lxor_comm.
Qed.

(** A word is the value shifted to start at zero. *)
Lemma order_word_spec t x :
  in_int_type t x -> order_word t x = if int_signed t then x + 2 ^ (int_bits t - 1) else x.
Proof.
  intros Hx. unfold order_word, in_int_type in *.
  assert (Hb : 0 < int_bits t) by (destruct t; done).
  destruct (int_signed t).
  - rewrite Z.shiftl_1_l. set (k := int_bits t - 1) in *.
    assert (E2 : 2 ^ int_bits t = 2 ^ k + 2 ^ k).
    { replace (int_bits t) with (Z.succ k) by (unfold k; lia). rewrite Z.pow_succ_r by (unfold k; lia). lia. }
    unfold as_unsigned. destruct (Z.ltb_spec x 0).
    + assert (E : x mod 2 ^ int_bits t = 2 ^ k + (x + 2 ^ k)).
      { symmetry. apply (Z.mod_unique _ _ (-1)); [left; lia|lia]. }
      rewrite E. destruct (lxor_sign k (x + 2 ^ k)) as [-> _]; first [lia|unfold k; lia].
    + rewrite Z.mod_small by lia. destruct (lxor_sign k x) as [_ ->]; first [lia|unfold k; lia].
  - rewrite Z.lxor_0_r. apply as_unsigned_id. lia.
Qed.

Lemma order_word_range t x : in_int_type t x -> 0 <= order_word t x < 2 ^ int_bits t.
Proof.
  intros Hx. rewrite order_word_spec by done. unfold in_int_type in Hx. destruct (int_signed t); [|done].
  assert (2 ^ int_bits t = 2 * 2 ^ (int_bits t - 1)); [|lia].
  rewrite <- Z.pow_succ_r by (destruct t; cbn; lia). f_equal. lia.
Qed.

Lemma order_word_cmp t x y : in_int_type t x -> in_int_type t y -> (order_word t x ?= order_word t y) = (x ?= y).
Proof.
  intros Hx Hy. rewrite !order_word_spec by done. destruct (int_signed t); [|done].
  destruct (Z.compare_spec x y), (Z.compare_spec (x + 2 ^ (int_bits t - 1)) (y + 2 ^ (int_bits t - 1))); try done; lia.
Qed.

Lemma stored_in_type c rows row :
  si_len c = rows -> Forall (in_int_type (si_type c)) (si_values c) -> (row < rows)%nat ->
  in_int_type (si_type c) (si_value c row).
Proof.
  intros Hl Hf Hrow. unfold si_value. destruct (lookup_lt_is_Some_2 (si_values c) row) as [x Hx]; [unfold si_len in *; lia|].
  rewrite Hx. by apply (Forall_lookup_1 _ _ _ _ Hf Hx).
Qed.

(** How many bits the columns take together. *)
Definition fixed_bits (cs : list StoredInts) : Z := sum_z ((fun c => int_bits (si_type c)) <$> cs).

Lemma fixed_bits_cons c cs : fixed_bits (c :: cs) = int_bits (si_type c) + fixed_bits cs.
Proof. done. Qed.

Lemma fixed_bits_nonneg cs : 0 <= fixed_bits cs.
Proof.
  induction cs as [|c cs IH]; [done|]. rewrite fixed_bits_cons. destruct (int_bits_cases (si_type c)) as [|[|[|]]]; lia.
Qed.

(** A column's word shifted in below what is there. *)
Lemma push_word_spec row word c :
  0 <= word -> in_int_type (si_type c) (si_value c row) -> (word * 2 ^ int_bits (si_type c) < 2 ^ 64) ->
  push_word row word c = word * 2 ^ int_bits (si_type c) + si_word c row.
Proof.
  intros Hw Hc Hfit. unfold push_word. rewrite si_width_bits. fold (si_value c row) in *.
  pose proof (order_word_range _ _ Hc) as Hr. change (order_word (si_type c) (si_value c row)) with (si_word c row) in Hr.
  set (b := int_bits (si_type c)) in *. assert (Hb : 0 < b <= 64) by (unfold b; destruct (si_type c); cbn; lia).
  assert (Hor : Z.lor (word * 2 ^ b) (si_word c row) = word * 2 ^ b + si_word c row).
  { rewrite <- Z.shiftl_mul_pow2 by lia.
    assert (Hland : Z.land (Z.shiftl word b) (si_word c row) = 0).
    { apply Z.bits_inj'. intros n Hn. rewrite Z.land_spec, Z.bits_0. destruct (Z.ltb_spec n b).
      - rewrite Z.shiftl_spec_low by lia. done.
      - rewrite <- (Z.mod_small (si_word c row) (2 ^ b)) by lia. rewrite Z.mod_pow2_bits_high by lia. apply andb_false_r. }
    by rewrite Z.add_nocarry_lxor, Z.lxor_lor by done. }
  destruct (Z.ltb_spec b 64).
  - rewrite Z.shiftl_mul_pow2 by lia. unfold as_u64. rewrite as_unsigned_id by nia. exact Hor.
  - assert (Eb : b = 64) by lia. rewrite Eb in Hfit. assert (word = 0) as -> by lia. by rewrite Z.mul_0_l, Z.lor_0_l.
Qed.

Lemma digits_cmp p a b x y :
  0 <= x < p -> 0 <= y < p -> (a * p + x ?= b * p + y) = then_cmp (a ?= b) (x ?= y).
Proof.
  intros Hx Hy. destruct (Z.compare_spec a b) as [->|H|H]; cbn.
  - destruct (Z.compare_spec x y); [subst; apply Z.compare_refl|apply Z.compare_lt_iff; lia|apply Z.compare_gt_iff; lia].
  - apply Z.compare_lt_iff. nia.
  - apply Z.compare_gt_iff. nia.
Qed.

(** A column of words that takes [fixed_bits] leaves the rest of the word free. *)
Lemma push_word_room row word c cs :
  fixed_bits (c :: cs) <= 64 -> 0 <= word < 2 ^ (64 - fixed_bits (c :: cs)) ->
  in_int_type (si_type c) (si_value c row) ->
  push_word row word c = word * 2 ^ int_bits (si_type c) + si_word c row /\
  0 <= push_word row word c < 2 ^ (64 - fixed_bits cs).
Proof.
  intros Hfit Hw Hc. rewrite fixed_bits_cons in Hfit, Hw. pose proof (fixed_bits_nonneg cs).
  pose proof (order_word_range _ _ Hc) as Hr. change (order_word (si_type c) (si_value c row)) with (si_word c row) in Hr.
  set (b := int_bits (si_type c)) in *. assert (Hb : 0 < b) by (unfold b; destruct (si_type c); cbn; lia).
  assert (Hp : 0 < 2 ^ b) by (apply Z.pow_pos_nonneg; lia).
  assert (E : 2 ^ (64 - fixed_bits cs) = 2 ^ (64 - (b + fixed_bits cs)) * 2 ^ b).
  { rewrite <- Z.pow_add_r by lia. f_equal. lia. }
  assert (Hle : 2 ^ (64 - fixed_bits cs) <= 2 ^ 64) by (apply Z.pow_le_mono_r; lia).
  rewrite push_word_spec by (done || lia || (fold b; nia)). fold b. split; [done|]. rewrite E. nia.
Qed.

Definition columns_ok (rows : nat) (cs : list StoredInts) : Prop :=
  Forall (fun c => si_len c = rows /\ Forall (in_int_type (si_type c)) (si_values c)) cs.

Lemma words_compare a b ra rb rows rows' :
  si_type <$> a = si_type <$> b -> columns_ok rows a -> columns_ok rows' b -> (ra < rows)%nat -> (rb < rows')%nat ->
  fixed_bits a <= 64 -> forall wa wb, 0 <= wa < 2 ^ (64 - fixed_bits a) -> 0 <= wb < 2 ^ (64 - fixed_bits b) ->
  (fold_left (push_word ra) a wa ?= fold_left (push_word rb) b wb) =
  then_cmp (wa ?= wb) (values_cmp ((fun c => VInt (si_value c ra)) <$> a) ((fun c => VInt (si_value c rb)) <$> b)).
Proof.
  intros Et Ha Hb Hra Hrb. revert b Et Hb. induction Ha as [|c a [Hlc Hc] Ha IH]; intros [|d b] Et Hb Hfit wa wb Hwa Hwb; try done.
  { cbn. by destruct (wa ?= wb). }
  rewrite !fmap_cons in Et. injection Et as Ec Et. apply Forall_cons in Hb as [[Hld Hd] Hb].
  assert (Hfb : fixed_bits b = fixed_bits a).
  { unfold fixed_bits. rewrite !(list_fmap_compose si_type int_bits). by rewrite Et. }
  pose proof (stored_in_type c rows ra Hlc Hc Hra) as Hic. pose proof (stored_in_type d rows' rb Hld Hd Hrb) as Hid.
  destruct (push_word_room ra wa c a) as [E1 R1]; [done..|].
  destruct (push_word_room rb wb d b) as [E2 R2]; [rewrite fixed_bits_cons in *; congruence|done..|].
  cbn [fold_left]. rewrite IH; [|done|done| |done|done].
  2: { rewrite fixed_bits_cons in Hfit. destruct (int_bits_cases (si_type c)) as [|[|[|]]]; lia. }
  rewrite !fmap_cons. cbn [values_cmp value_cmp]. rewrite E1, E2, <- Ec.
  rewrite digits_cmp.
  - unfold si_word. fold (si_value c ra) (si_value d rb). rewrite <- Ec in *.
    rewrite order_word_cmp by done. by destruct (wa ?= wb).
  - by apply order_word_range.
  - unfold si_word. fold (si_value d rb). rewrite <- Ec in *. by apply order_word_range.
Qed.

(** ** Packed bytes *)

Lemma width_range t x : in_int_type t x ->
  0 <= order_word t x < 256 ^ Z.of_nat (Z.to_nat (int_bits t / 8)).
Proof.
  intros Hx. pose proof (order_word_range _ _ Hx) as H. by destruct t.
Qed.

Lemma slice_one {A} (l : list A) a x : l !! a = Some x -> slice l a (S a) = [x].
Proof. intros Hx. rewrite (slice_cons l a (S a) x) by (done || lia). by rewrite slice_ge by lia. Qed.

Lemma si_pack_one c rows row :
  si_len c = rows -> (row < rows)%nat ->
  si_pack c row (S row) = to_be_bytes (si_width c) (order_word (si_type c) (si_value c row)).
Proof.
  intros Hl Hrow. unfold si_pack, si_value. destruct (lookup_lt_is_Some_2 (si_values c) row) as [x Hx]; [unfold si_len in *; lia|].
  rewrite (slice_one _ _ _ Hx), Hx. cbn. by rewrite app_nil_r.
Qed.

Lemma order_words_cmp t xs ys :
  Forall (in_int_type t) xs -> Forall (in_int_type t) ys ->
  slice_cmp (order_word t <$> xs) (order_word t <$> ys) = slice_cmp xs ys.
Proof.
  intros Hx; revert ys. induction Hx as [|x xs Hx Hxs IH]; intros [|y ys] Hy; try done.
  apply Forall_cons in Hy as [Hy Hys]. rewrite !fmap_cons. cbn [lex_compare]. by rewrite order_word_cmp, IH by done.
Qed.

Lemma si_pack_flat c s e : si_pack c s e = (order_word (si_type c) <$> slice (si_values c) s e) ≫= to_be_bytes (si_width c).
Proof.
  unfold si_pack. induction (slice (si_values c) s e) as [|x l IH]; [done|]. by rewrite fmap_cons, !bind_cons, IH.
Qed.

Lemma path_compare c d s e s' e' :
  si_type c = si_type d -> Forall (in_int_type (si_type c)) (si_values c) -> Forall (in_int_type (si_type d)) (si_values d) ->
  slice_cmp (si_pack c s e) (si_pack d s' e') = slice_cmp (slice (si_values c) s e) (slice (si_values d) s' e').
Proof.
  intros Et Hc Hd. rewrite !si_pack_flat. unfold si_width. rewrite <- Et in *.
  assert (Hs : forall l s e, Forall (in_int_type (si_type c)) l -> Forall (in_int_type (si_type c)) (slice l s e)).
  { intros l s0 e0 Hl. unfold slice. by apply Forall_take, Forall_drop. }
  rewrite flat_be_bytes_cmp.
  - by apply order_words_cmp; apply Hs.
  - clear. destruct (si_type c); vm_compute; lia.
  - apply Forall_fmap. eapply Forall_impl; [by apply Hs|]. intros x Hx. by apply width_range.
  - apply Forall_fmap. eapply Forall_impl; [by apply Hs|]. intros x Hx. by apply width_range.
Qed.

Lemma packed_fixed_compare a b ra rb rows rows' xa xb :
  si_type <$> a = si_type <$> b -> columns_ok rows a -> columns_ok rows' b -> (ra < rows)%nat -> (rb < rows')%nat ->
  slice_cmp ((a ≫= fun c => si_pack c ra (S ra)) ++ xa) ((b ≫= fun c => si_pack c rb (S rb)) ++ xb) =
  then_cmp (values_cmp ((fun c => VInt (si_value c ra)) <$> a) ((fun c => VInt (si_value c rb)) <$> b)) (slice_cmp xa xb).
Proof.
  intros Et Ha Hb Hra Hrb. revert b Et Hb. induction Ha as [|c a [Hlc Hc] Ha IH]; intros [|d b] Et Hb; try done.
  rewrite !fmap_cons in Et. injection Et as Ec Et. apply Forall_cons in Hb as [[Hld Hd] Hb].
  rewrite !bind_cons, !fmap_cons, <- !app_assoc. cbn [values_cmp value_cmp].
  pose proof (stored_in_type c rows ra Hlc Hc Hra) as Hic. pose proof (stored_in_type d rows' rb Hld Hd Hrb) as Hid.
  rewrite (si_pack_one c rows ra), (si_pack_one d rows' rb) by done. unfold si_width. rewrite <- Ec in *.
  rewrite slice_cmp_app by by rewrite !length_to_be_bytes.
  rewrite to_be_bytes_cmp, order_word_cmp, IH by (done || by apply width_range). by destruct (si_value c ra ?= si_value d rb).
Qed.

Lemma packed_row_compare x y ra rb rows rows' :
  typed_types x = typed_types y -> typed_ok rows x -> typed_ok rows' y -> (ra < rows)%nat -> (rb < rows')%nat ->
  slice_cmp (packed_row x ra) (packed_row y rb) = values_cmp (typed_values x ra) (typed_values y rb).
Proof.
  intros Et [Hfx Hx] [Hfy Hy] Hra Hrb. injection Et as Ef Ep. unfold packed_row, typed_values.
  rewrite (packed_fixed_compare _ _ ra rb rows rows') by done.
  assert (Hl : length (tk_fixed x) = length (tk_fixed y)).
  { apply (f_equal length) in Ef. by rewrite !length_fmap in Ef. }
  rewrite values_cmp_app by by rewrite !length_fmap. f_equal.
  destruct (tk_path x) as [[oa va]|], (tk_path y) as [[ob vb]|]; try done. injection Ep as Ep. cbn in Ep.
  destruct Hx as (_ & _ & Hvx & _), Hy as (_ & _ & Hvy & _). rewrite path_compare by done. cbn. by destruct (slice_cmp _ _).
Qed.

(** A chunk of a buffer lies between the ends of the chunks before it and its own. *)
Lemma ends_lookup total sizes i :
  (i < length sizes)%nat -> ends_from total sizes !! i = Some (total + sum_list (take (S i) sizes))%nat.
Proof.
  revert total i; induction sizes as [|n sizes IH]; intros total [|i] Hi; cbn in Hi; [lia..| |].
  - cbn [ends_from lookup list_lookup]. f_equal. rewrite firstn_cons, take_0. simpl. lia.
  - cbn [ends_from lookup list_lookup]. rewrite IH by lia. f_equal. rewrite !firstn_cons. simpl. lia.
Qed.

Lemma slice_chunk {A} (f : nat -> list A) (size : nat -> nat) rows row :
  (row < rows)%nat -> (forall i, (i < rows)%nat -> length (f i) = size i) ->
  slice (seq 0 rows ≫= f) (sum_list (take row (size <$> seq 0 rows))) (sum_list (take (S row) (size <$> seq 0 rows))) = f row.
Proof.
  intros Hrow Hlen.
  assert (Hgen : forall n k i, (i < n)%nat -> (k + n <= rows)%nat ->
    slice (seq k n ≫= f) (sum_list (take i (size <$> seq k n))) (sum_list (take (S i) (size <$> seq k n))) = f (k + i)%nat).
  { induction n as [|n IH]; intros k i Hi Hk; [lia|]. cbn [seq]. rewrite bind_cons, fmap_cons.
    pose proof (Hlen k ltac:(lia)) as Hfk. destruct i as [|i].
    - rewrite firstn_cons, !take_0, Nat.add_0_r. unfold slice. simpl.
      rewrite drop_0, Nat.add_0_r, Nat.sub_0_r, <- Hfk. apply take_app_length.
    - specialize (IH (S k) i ltac:(lia) ltac:(lia)). rewrite Nat.add_succ_r, <- Nat.add_succ_l, <- IH.
      assert (Hsum : forall m l, sum_list (m :: l) = (m + sum_list l)%nat) by done.
      rewrite !firstn_cons, !Hsum. unfold slice.
      set (a := sum_list (take i (size <$> seq (S k) n))). set (b := sum_list (take (S i) (size <$> seq (S k) n))).
      rewrite drop_app_ge by lia. f_equal; [lia|]. f_equal. lia. }
  by apply (Hgen rows 0%nat row).
Qed.

Lemma length_si_pack c s e : (e <= si_len c)%nat -> length (si_pack c s e) = ((e - s) * si_width c)%nat.
Proof.
  intros He. unfold si_pack. assert (Hl : length (slice (si_values c) s e) = (e - s)%nat).
  { unfold slice, si_len in *. rewrite length_take, length_drop. lia. }
  rewrite <- Hl. clear. induction (slice (si_values c) s e) as [|x l IH]; [done|].
  rewrite bind_cons, length_app, length_to_be_bytes, IH. cbn. lia.
Qed.

Definition packed_size (k : TypedKeys) (row : nat) : nat :=
  sum_list (si_width <$> tk_fixed k) +
  match tk_path k with
  | Some (offsets, values) => (offset_at offsets (S row) - offset_at offsets row) * si_width values
  | None => 0
  end.

Lemma length_packed_row k rows row : typed_ok rows k -> (row < rows)%nat -> length (packed_row k row) = packed_size k row.
Proof.
  intros [Hf Hp] Hrow. unfold packed_row, packed_size. rewrite length_app. f_equal.
  - clear Hp. induction Hf as [|c cs [Hl _] _ IH]; [done|]. rewrite bind_cons, fmap_cons, length_app, IH.
    rewrite length_si_pack by lia. simpl. lia.
  - destruct (tk_path k) as [[o v]|]; [|done]. destruct Hp as (_ & _ & _ & Hb). apply length_si_pack.
    unfold offset_at. destruct (o !! S row) as [z|] eqn:Ez; cbn; [|lia].
    pose proof (Forall_lookup_1 _ _ _ _ Hb Ez). cbn in *. lia.
Qed.

Lemma packed_key k rows row : typed_ok rows k -> (row < rows)%nat -> pk_key (packed_keys k) row = packed_row k row.
Proof.
  intros Hk Hrow. assert (Hrows : match tk_fixed k with
    | c :: _ => si_len c
    | [] => match tk_path k with Some (offsets, _) => (length offsets - 1)%nat | None => 0%nat end
    end = rows).
  { destruct Hk as [Hf Hp]. destruct (tk_fixed k) as [|c cs]; [|by apply Forall_cons in Hf as [[? _] _]].
    destruct (tk_path k) as [[o v]|]; [|done]. destruct Hp as [Hl _]. lia. }
  unfold packed_keys, pk_key. cbn [pk_ends pk_bytes]. rewrite Hrows.
  change (fun row0 => _) with (packed_size k) at 1. fold (packed_size k).
  set (sizes := packed_size k <$> seq 0 rows).
  assert (Hls : length sizes = rows) by (unfold sizes; by rewrite length_fmap, length_seq).
  rewrite (ends_lookup 0 sizes row) by lia. cbn [default].
  assert (Hstart : (if (row =? 0)%nat then 0%nat else default 0%nat (ends_from 0 sizes !! (row - 1)%nat)) = sum_list (take row sizes)).
  { destruct (Nat.eqb_spec row 0) as [->|Hne]; [by rewrite take_0|]. rewrite ends_lookup by lia. cbn. f_equal. f_equal. lia. }
  rewrite Hstart. cbn [Nat.add]. apply slice_chunk; [done|]. intros i Hi. by apply (length_packed_row k rows).
Qed.

(** ** Every form orders rows as the columns do *)

Definition place_values (batches : list RecordBatch) (cols : list string) (p : place) : list sort_value :=
  match batches !! p.1 with Some b => sort_values cols b p.2 | None => [] end.

(** A row the batches have. *)
Definition valid_place (batches : list RecordBatch) (p : place) : Prop :=
  exists b, batches !! p.1 = Some b /\ (p.2 < num_rows b)%nat.

Lemma types_inj (l l' : list int_type) (o o' : option int_type) :
  (DInt <$> l) ++ match o with Some t => [DList (DInt t)] | None => [] end =
  (DInt <$> l') ++ match o' with Some t => [DList (DInt t)] | None => [] end -> (l, o) = (l', o').
Proof.
  revert l'. induction l as [|t l IH]; intros [|t' l'] E.
  - destruct o, o'; cbn in E; try done. by injection E as ->.
  - exfalso. by destruct o.
  - exfalso. by destruct o'.
  - rewrite !fmap_cons in E. injection E as -> E. apply IH in E. by injection E as -> ->.
Qed.

(** The prepared columns of a batch. *)
Definition prepared (cols : list string) (types : list data_type) (b : RecordBatch) (k : TypedKeys) : Prop :=
  typed_ok (num_rows b) k /\ (forall row, sort_values cols b row = typed_values k row) /\
  (DInt <$> (typed_types k).1) ++ match (typed_types k).2 with Some t => [DList (DInt t)] | None => [] end = types.

Lemma prepare_batch cols types b cs k :
  batch_ok b -> mapM (column_by_name b) cols = Some cs -> length types = length cols ->
  forallb (fun ct : array * data_type => bool_decide (array_type ct.1 = ct.2)) (zip cs types) = true ->
  typed_keys cs = Some k -> prepared cols types b k.
Proof.
  intros Hb Hcs Hl Ht Hk. apply mapM_Some in Hcs.
  assert (Hok : Forall (fun a => array_ok a /\ array_len a = num_rows b) cs).
  { clear -Hcs Hb. induction Hcs as [|name a cols cs Ha _ IH]; constructor; [|done]. by apply (column_ok b name). }
  destruct (typed_keys_spec cs k (num_rows b) Hk Hok) as (Hv & Hty & Htok). split_and!; [done| |].
  - intros row. rewrite <- Hv. unfold sort_values. clear -Hcs. induction Hcs as [|name a cols cs Ha _ IH]; [done|].
    by rewrite !fmap_cons, Ha, IH.
  - rewrite <- Hty. pose proof (Forall2_length _ _ _ Hcs) as Hlc. clear -Hlc Hl Ht. rewrite Hlc in Hl. clear Hlc.
    revert types Hl Ht. induction cs as [|a cs IH]; intros [|t types] Hl Ht; try done. cbn in Ht.
    apply andb_true_iff in Ht as [Ha%bool_decide_eq_true Ht]. rewrite fmap_cons. cbn in Ha. rewrite Ha. f_equal. apply IH; [cbn in Hl; lia|done].
Qed.

Lemma row_sort_keys_prepared batches cols keys :
  Forall batch_ok batches -> row_sort_keys batches cols = Some keys ->
  exists types typed, Forall2 (prepared cols types) batches typed /\
    match mapM word_keys typed with
    | Some words => keys = Words words
    | None => keys = if existsb is_deep typed then Packed (packed_keys <$> typed) else Typed typed
    end.
Proof.
  intros Hb H. unfold row_sort_keys in H. destruct (head batches) as [first|]; cbn in H; [|done].
  destruct (bool_decide (cols = [])); [done|].
  destruct (mapM _ cols) as [types|] eqn:Etypes in H; cbn in H; [|done].
  destruct (mapM _ batches) as [css|] eqn:Ecss in H; cbn in H; [|done].
  destruct (forallb _ css) eqn:Eall; cbn [negb] in H; [|done].
  destruct (mapM typed_keys css) as [typed|] eqn:Etyped; cbn in H; [|done].
  exists types, typed. split.
  - apply mapM_Some in Etypes, Ecss, Etyped. pose proof (Forall2_length _ _ _ Etypes) as Hl.
    clear H. revert css Ecss Eall typed Etyped. induction Hb as [|b bs Hb _ IH]; intros css Ecss Eall typed Etyped.
    { apply Forall2_nil_inv_l in Ecss as ->. by apply Forall2_nil_inv_l in Etyped as ->. }
    apply Forall2_cons_inv_l in Ecss as (cs & css' & Hcs & Ecss & ->).
    apply Forall2_cons_inv_l in Etyped as (k & typed' & Hk & Etyped & ->). cbn in Eall. apply andb_true_iff in Eall as [Ha Eall].
    constructor; [by apply (prepare_batch cols types b cs k)|by eapply IH].
  - destruct (mapM word_keys typed); [by injection H as <-|]. by destruct (existsb is_deep typed); injection H as <-.
Qed.

Lemma word_of k words rows row : typed_ok rows k -> word_keys k = Some words -> (row < rows)%nat ->
  tk_path k = None /\ fixed_bits (tk_fixed k) <= 64 /\
  words !! row = Some (fold_left (push_word row) (tk_fixed k) 0).
Proof.
  intros [Hf Hp] Hw Hrow. unfold word_keys in Hw. destruct (tk_path k) as [p|]; [done|].
  rewrite bool_decide_eq_false_2 in Hw by by intros []. cbn [orb] in Hw.
  destruct (Nat.ltb_spec 64 (sum_list ((fun c => si_width c * 8)%nat <$> tk_fixed k))) as [|Hle]; [done|]. injection Hw as <-.
  split; [done|]. split.
  - assert (E : fixed_bits (tk_fixed k) = Z.of_nat (sum_list ((fun c => si_width c * 8)%nat <$> tk_fixed k))); [|lia].
    clear. induction (tk_fixed k) as [|c cs IH]; [done|]. rewrite fixed_bits_cons, fmap_cons, IH.
    rewrite <- si_width_bits. simpl. lia.
  - destruct (tk_fixed k) as [|c cs]; [done|]. apply Forall_cons in Hf as [[Hl _] _]. rewrite Hl.
    by rewrite list_lookup_fmap, lookup_seq_lt by done.
Qed.

Lemma keys_compare_spec batches cols keys a b :
  Forall batch_ok batches -> row_sort_keys batches cols = Some keys ->
  valid_place batches a -> valid_place batches b ->
  keys_compare keys a b = values_cmp (place_values batches cols a) (place_values batches cols b).
Proof.
  intros Hb Hk (ba & Ea & Ha) (bb & Eb & Hbb). destruct (row_sort_keys_prepared _ _ _ Hb Hk) as (types & typed & Hp & Hkeys).
  destruct (Forall2_lookup_l _ _ _ _ _ Hp Ea) as (ka & Eka & Hoka & Hva & Hta).
  destruct (Forall2_lookup_l _ _ _ _ _ Hp Eb) as (kb & Ekb & Hokb & Hvb & Htb).
  unfold place_values. rewrite Ea, Eb, Hva, Hvb.
  assert (Et : typed_types ka = typed_types kb).
  { rewrite <- Htb in Hta. apply types_inj in Hta. by destruct (typed_types ka), (typed_types kb). }
  destruct (mapM word_keys typed) as [words|] eqn:Ew.
  - subst keys. apply mapM_Some in Ew. cbn [keys_compare].
    destruct (Forall2_lookup_l _ _ _ _ _ Ew Eka) as (wa & Ewa & Hwa).
    destruct (Forall2_lookup_l _ _ _ _ _ Ew Ekb) as (wb & Ewb & Hwb). rewrite Ewa, Ewb. cbn [mbind option_bind].
    destruct (word_of ka wa _ a.2 Hoka Hwa Ha) as (Hpa & Hfita & ->).
    destruct (word_of kb wb _ b.2 Hokb Hwb Hbb) as (Hpb & Hfitb & ->). cbn [from_option id].
    destruct Hoka as [Hoka _], Hokb as [Hokb _]. injection Et as Et _.
    unfold typed_values. rewrite Hpa, Hpb, !app_nil_r.
    rewrite (words_compare _ _ a.2 b.2 _ _ Et Hoka Hokb Ha Hbb Hfita); [done|split; [done|]..];
      apply Z.pow_pos_nonneg; lia.
  - destruct (existsb is_deep typed); subst keys; cbn [keys_compare].
    + rewrite !list_lookup_fmap, Eka, Ekb. cbn [fmap option_fmap option_map from_option id].
      rewrite (packed_key ka _ _ Hoka Ha), (packed_key kb _ _ Hokb Hbb).
      by apply (packed_row_compare ka kb a.2 b.2 _ _ Et Hoka Hokb).
    + rewrite Eka, Ekb. cbn [from_option id]. by apply (typed_compare ka kb a.2 b.2 _ _ Et Hoka Hokb).
Qed.

(** ** Total orders *)

#[export] Instance place_total : TotalCmp place_cmp.
Proof.
  exact (then_total (fun a b : place => (a.1 ?= b.1)%nat) (fun a b : place => (a.2 ?= b.2)%nat)).
Qed.

(** ** Rows of one kind sort in a total order *)

Definition sort_kind (v : sort_value) : nat :=
  match v with VInt _ => 0 | VText _ => 1 | VPath _ => 2 | VNone => 3 end.

(** A value as integers that compare alike. *)
Definition sort_code (v : sort_value) : list Z :=
  match v with
  | VInt z => [z]
  | VText s => match s with None => [] | Some s => 1 :: text_bytes s end
  | VPath l => l
  | VNone => []
  end.

Lemma value_cmp_code x y : sort_kind x = sort_kind y -> value_cmp x y = slice_cmp (sort_code x) (sort_code y).
Proof.
  destruct x as [x|[x|]|x|], y as [y|[y|]|y|]; cbn; try done. intros _. by destruct (x ?= y).
Qed.

Lemma values_cmp_code x y : sort_kind <$> x = sort_kind <$> y ->
  values_cmp x y = lex_compare slice_cmp (sort_code <$> x) (sort_code <$> y).
Proof.
  revert y; induction x as [|a x IH]; intros [|b y]; try done. rewrite !fmap_cons. intros [= Hk H].
  cbn [values_cmp lex_compare]. rewrite value_cmp_code, IH by done. by destruct (slice_cmp _ _).
Qed.

(** Any two rows have columns of the same kinds: batches of one table do. *)
Definition one_kind (batches : list RecordBatch) (cols : list string) : Prop :=
  forall a b, valid_place batches a -> valid_place batches b ->
  sort_kind <$> place_values batches cols a = sort_kind <$> place_values batches cols b.

Lemma typed_kinds k row : sort_kind <$> typed_values k row =
  replicate (length (typed_types k).1) 0%nat ++ (if (typed_types k).2 then [2%nat] else []).
Proof.
  unfold typed_values, typed_types. cbn [fst snd]. rewrite length_fmap, fmap_app, <- list_fmap_compose. f_equal.
  - induction (tk_fixed k) as [|c cs IH]; [done|]. by rewrite fmap_cons, IH.
  - by destruct (tk_path k) as [[offsets v]|].
Qed.

(** Rows with prepared keys are of one kind. *)
Lemma prepared_one_kind batches cols keys :
  Forall batch_ok batches -> row_sort_keys batches cols = Some keys -> one_kind batches cols.
Proof.
  intros Hb Hk a b (ba & Ea & Ha) (bb & Eb & Hbb).
  destruct (row_sort_keys_prepared _ _ _ Hb Hk) as (types & typed & Hp & _).
  destruct (Forall2_lookup_l _ _ _ _ _ Hp Ea) as (ka & _ & _ & Hva & Hta).
  destruct (Forall2_lookup_l _ _ _ _ _ Hp Eb) as (kb & _ & _ & Hvb & Htb).
  unfold place_values. rewrite Ea, Eb, Hva, Hvb, !typed_kinds.
  rewrite <- Htb in Hta. apply types_inj in Hta.
  destruct (typed_types ka), (typed_types kb). by injection Hta as -> ->.
Qed.

Lemma place_compare batches cols batches' a b :
  Forall batch_ok batches -> Forall batch_ok batches' -> valid_place batches a -> valid_place batches' b ->
  compare_columns (default [] (resolve_sort_columns batches cols !! a.1))
                  (default [] (resolve_sort_columns batches' cols !! b.1)) a.2 b.2 =
  values_cmp (place_values batches cols a) (place_values batches' cols b).
Proof.
  intros Hb Hb' (ba & Ea & _) (bb & Eb & _). unfold resolve_sort_columns, place_values.
  rewrite !list_lookup_fmap, Ea, Eb. cbn [fmap option_fmap option_map from_option id].
  apply compare_columns_spec; [exact (Forall_lookup_1 _ _ _ _ Hb Ea)|exact (Forall_lookup_1 _ _ _ _ Hb' Eb)].
Qed.

(** The order [ro_sort] gives rows: by values, then by place. *)
Definition row_cmp (batches : list RecordBatch) (cols : list string) (a b : place) : comparison :=
  then_cmp (values_cmp (place_values batches cols a) (place_values batches cols b)) (place_cmp a b).

Lemma sort_rows_spec batches cols rows (cmp : place -> place -> comparison) :
  one_kind batches cols -> Forall (valid_place batches) rows ->
  (forall a b, a ∈ rows -> b ∈ rows -> cmp a b = values_cmp (place_values batches cols a) (place_values batches cols b)) ->
  let sorted := sort_by (fun a b => negb (bool_decide (then_cmp (cmp a b) (place_cmp a b) = Gt))) rows in
  sorted ≡ₚ rows /\ StronglySorted (fun a b => row_cmp batches cols a b <> Gt) sorted.
Proof.
  intros Hkind Hv Hcmp. rewrite Forall_forall in Hv.
  rewrite (sort_by_ext _ (fun a b => negb (bool_decide (row_cmp batches cols a b = Gt)))).
  2: { intros a b Ha Hb. unfold row_cmp. by rewrite Hcmp. }
  pose (codes p := sort_code <$> place_values batches cols p).
  apply (sort_by_cmp (row_cmp batches cols)
    (fun a b => then_cmp (lex_compare slice_cmp (codes a) (codes b)) (place_cmp a b))).
  intros a b Ha Hb. unfold row_cmp. rewrite values_cmp_code; [done|]. apply Hkind; by apply Hv.
Qed.

(** Whatever form the keys are prepared in, one word a row, stored columns
    or packed bytes, two rows compare by them as they do column by column. *)
Theorem prepared_keys_agree batches cols keys a b :
  Forall batch_ok batches -> row_sort_keys batches cols = Some keys ->
  valid_place batches a -> valid_place batches b ->
  keys_compare keys a b =
  compare_columns (default [] (resolve_sort_columns batches cols !! a.1))
                  (default [] (resolve_sort_columns batches cols !! b.1)) a.2 b.2.
Proof.
  intros Hb Hk Ha Hbp. by rewrite (place_compare batches cols batches), (keys_compare_spec batches cols keys).
Qed.

(** C39: A row order sorts rows by their key columns' values, then by file order:
    the result has the same rows, and no row after a greater one. Prepared keys
    make the rows of one kind; without them the columns' types must. *)
Theorem ro_sort_spec batches desc rows :
  Forall batch_ok batches -> Forall (valid_place batches) rows ->
  (ro_keys (RowOrder_new batches desc) = None -> one_kind batches (build_full_sort_columns desc)) ->
  let sorted := ro_sort (RowOrder_new batches desc) rows in
  sorted ≡ₚ rows /\ StronglySorted (fun a b => row_cmp batches (build_full_sort_columns desc) a b <> Gt) sorted.
Proof.
  intros Hb Hv Hkind. cbn zeta. unfold ro_sort, RowOrder_new, sort_rows_by_order_keys_indexed in *. cbn [ro_keys ro_resolved] in *.
  set (cols := build_full_sort_columns desc) in *.
  case_bool_decide as Hrows; [subst rows; split; [done|constructor]|].
  assert (Hcols : forall a b, a ∈ rows -> b ∈ rows -> compare_columns (default [] (resolve_sort_columns batches cols !! a.1))
      (default [] (resolve_sort_columns batches cols !! b.1)) a.2 b.2 =
    values_cmp (place_values batches cols a) (place_values batches cols b)).
  { rewrite Forall_forall in Hv. intros a b Ha Hbr. apply place_compare; auto. }
  destruct (row_sort_keys batches cols) as [keys|] eqn:Ek.
  - apply sort_rows_spec; [by apply (prepared_one_kind batches cols keys)|done|].
    rewrite Forall_forall in Hv. intros a b Ha Hbr. apply (keys_compare_spec batches cols keys); auto.
  - specialize (Hkind eq_refl). destruct (head _) as [v|] eqn:Eh; [case_bool_decide as Ev|]; cbn [negb].
    2: by apply sort_rows_spec.
    + assert (cols = []) as Ecols.
      { destruct batches as [|b bs]; [done|]. injection Eh as <-. by apply fmap_nil_inv in Ev. }
      apply sort_rows_spec; [done..|]. intros a b _ _. unfold place_values. rewrite Ecols.
      by destruct (batches !! a.1), (batches !! b.1).
    + destruct rows as [|p rows]; [done|]. apply Forall_cons in Hv as [(b & E & _) _].
      by destruct batches.
Qed.

Lemma ro_compare_ok batches batches' desc a b :
  Forall batch_ok batches -> Forall batch_ok batches' -> valid_place batches a -> valid_place batches' b ->
  ro_compare (RowOrder_new batches desc) a (RowOrder_new batches' desc) b =
  values_cmp (place_values batches (build_full_sort_columns desc) a) (place_values batches' (build_full_sort_columns desc) b).
Proof. intros. unfold ro_compare, RowOrder_new. cbn [ro_resolved]. by rewrite place_compare. Qed.

(** Rows of two sources of a table compare by their key columns' values, and
    as equals when the table has none. *)
Theorem ro_compare_spec batches batches' desc a b :
  Forall batch_ok batches -> Forall batch_ok batches' -> valid_place batches a -> valid_place batches' b ->
  let x := RowOrder_new batches desc in
  ro_compare x a (RowOrder_new batches' desc) b =
    values_cmp (place_values batches (ro_columns x) a) (place_values batches' (ro_columns x) b) /\
  (is_keyed x = false -> ro_compare x a (RowOrder_new batches' desc) b = Eq).
Proof.
  intros Hb Hb' Ha Hbp. cbn zeta. unfold ro_compare, RowOrder_new, is_keyed. cbn [ro_resolved ro_columns].
  rewrite place_compare by done. split; [done|]. rewrite negb_false_iff, bool_decide_eq_true. intros ->.
  unfold place_values. by destruct (batches !! a.1), (batches' !! b.1).
Qed.

(** ** Witnesses *)

(** Traces order by their transaction, then by their path within it. *)
Definition trace_table : TableDescription :=
  {| td_request_surface := None;
     td_output := {| os_name := Some "trace"%string; os_fields := []; os_virtual_fields := [];
                     os_variant_column := None; os_variants := [] |};
     td_block_number_column := "block_number"; td_parent_hash_column := None; td_parent_number_column := None;
     td_address_column := Some "address"%string; td_item_order_keys := ["index"%string];
     td_declared_weight_key := None; td_sort_key := []; td_columns := [] |}.

Definition trace_rows (index : list Z) (offsets address : list Z) : RecordBatch :=
  {| columns := [("block_number"%string, AInt UInt32 (replicate (length index) 7) None);
                 ("index"%string, AInt UInt32 index None);
                 ("address"%string, AList offsets (AInt UInt32 address None) None)];
     num_rows := length index |}.

Definition trace_batches : list RecordBatch :=
  [trace_rows [1; 0; 1] [0; 1; 1; 3] [0; 0; 1]; trace_rows [1; 1] [0; 1; 1] [0]].

Ltac concrete_batch :=
  repeat constructor; cbn; try done; unfold in_int_type; cbn; lia.

Lemma trace_batches_ok : Forall batch_ok trace_batches.
Proof. concrete_batch. Qed.

Lemma trace_valid b r : (b = 0 /\ r < 3 \/ b = 1 /\ r < 2)%nat ->
  valid_place trace_batches (b, r).
Proof. intros [[-> Hr]|[-> Hr]]; eexists; split; done. Qed.

Lemma prepared_keys_agree_witness :
  exists keys, row_sort_keys trace_batches ["index"%string; "address"%string] = Some keys /\
  keys_compare keys (0%nat, 0%nat) (0%nat, 2%nat) =
  compare_columns (default [] (resolve_sort_columns trace_batches ["index"%string; "address"%string] !! 0%nat))
                  (default [] (resolve_sort_columns trace_batches ["index"%string; "address"%string] !! 0%nat)) 0 2.
Proof.
  eexists. split; [reflexivity|].
  refine (prepared_keys_agree trace_batches ["index"%string; "address"%string] _ (0%nat, 0%nat) (0%nat, 2%nat) _ _ _ _);
    [exact trace_batches_ok|reflexivity|apply trace_valid; cbn; lia..].
Defined.

Definition trace_places : list place := [(0, 0); (0, 1); (0, 2); (1, 0); (1, 1)]%nat.

Lemma ro_sort_spec_witness :
  let sorted := ro_sort (RowOrder_new trace_batches trace_table) trace_places in
  sorted = [(0, 1); (1, 1); (0, 0); (1, 0); (0, 2)]%nat /\
  sorted ≡ₚ trace_places /\
  StronglySorted (fun a b => row_cmp trace_batches (build_full_sort_columns trace_table) a b <> Gt) sorted.
Proof.
  split; [vm_compute; reflexivity|].
  refine (ro_sort_spec trace_batches trace_table trace_places _ _ _); [exact trace_batches_ok| |].
  - repeat (constructor; [apply trace_valid; cbn; lia|]). constructor.
  - intros H. exfalso. vm_compute in H. discriminate H.
Defined.

Lemma ro_compare_spec_witness :
  let x := RowOrder_new trace_batches trace_table in
  ro_compare x (0, 2)%nat x (1, 0)%nat =
    values_cmp (place_values trace_batches (ro_columns x) (0, 2)%nat) (place_values trace_batches (ro_columns x) (1, 0)%nat) /\
  (is_keyed x = false -> ro_compare x (0, 2)%nat x (1, 0)%nat = Eq).
Proof.
  apply (ro_compare_spec trace_batches trace_batches trace_table (0, 2)%nat (1, 0)%nat);
    [exact trace_batches_ok..| |]; apply trace_valid; cbn; lia.
Defined.
