(* ===== verification/Render.v ===== *)
(** The text a byte string renders to (src/output/encoder.rs): [0x]-prefixed hex
    and base 58, each quoted. A set filter on a column stored as bytes looks up
    this text, so the predicates use it as the writers do. *)
From stdpp Require Import base strings list.
From Stdlib Require Import ZArith Lia.
From S2P Require Import Prelude Machine ListLib.

#[local] Open Scope Z_scope.

Definition quote : Z := 34.

(** ** Hex *)

(** [faster_hex::hex_encode]: two lowercase digits a byte. *)
Class HexKernel := hex_encode : list Z -> list Z.

Definition reference_hex : HexKernel :=
  fun bytes => bytes ≫= fun b => (fun d => if d <? 10 then 48 + d else 87 + d) <$> [b / 16; b mod 16].

(** The reference instances, for witnesses to import. *)
Module HexInstances.
#[export] Existing Instance reference_hex.
End HexInstances.

(** [src/src/output/encoder.rs:805-823] encode_hex_bytes. *)
Definition encode_hex_bytes `{HexKernel} (bytes buf : list Z) : list Z :=
  buf ++ quote :: text_bytes "0x" ++ hex_encode bytes ++ [quote].

(** ** Base 58 *)

(** [src/src/output/encoder.rs:418-421] BASE58_ALPHABET. *)
Definition BASE58_ALPHABET : list Z :=
  text_bytes "123456789ABCDEFGHJKLMNPQRSTUVWXYZabcdefghijkmnopqrstuvwxyz".

(** [src/src/output/encoder.rs:L441-443] encode_base58_bytes: one digit's part of multiplying the digits by 256: the digit and the carry. *)
Definition base58_step (carry digit : Z) : Z * Z :=
  let carry := as_u32 (carry + as_u32 (Z.shiftl digit 8)) in (carry mod 58, carry / 58).

(** [src/src/output/encoder.rs:L440-444] encode_base58_bytes: [for digit in digits.iter_mut()]. *)
Fixpoint base58_carry (digits : list Z) (carry : Z) : list Z * Z :=
  match digits with
  | [] => ([], carry)
  | d :: digits =>
      let (d, carry) := base58_step carry d in
      let (digits, carry) := base58_carry digits carry in (d :: digits, carry)
  end.

(** [src/src/output/encoder.rs:L445-448] encode_base58_bytes: [while carry > 0]; a [u32] has at most
    six digits. *)
Fixpoint base58_push (fuel : nat) (carry : Z) : list Z :=
  match fuel with
  | O => []
  | S fuel => if 0 <? carry then carry mod 58 :: base58_push fuel (carry / 58) else []
  end.

(** [src/src/output/encoder.rs:L439-448] encode_base58_bytes: one byte. *)
Definition base58_byte (digits : list Z) (byte : Z) : list Z :=
  let (digits, carry) := base58_carry digits byte in digits ++ base58_push 6 carry.

(** [src/src/output/encoder.rs:L432-432] encode_base58_bytes: the leading zero bytes. *)
Fixpoint leading_zeros (bytes : list Z) : nat :=
  match bytes with
  | b :: bytes => if b =? 0 then S (leading_zeros bytes) else 0
  | [] => 0
  end.

(** [src/src/output/encoder.rs:423-453] encode_base58_bytes. *)
Definition encode_base58_bytes (bytes buf : list Z) : list Z :=
  let zeros := leading_zeros bytes in
  let digits := fold_left base58_byte (drop zeros bytes) [] in
  buf ++ quote :: replicate zeros 49 ++ ((fun d => default 0 (BASE58_ALPHABET !! Z.to_nat d)) <$> rev digits) ++ [quote].

(** ** Positional digits *)

Definition in_base (base d : Z) : Prop := 0 <= d < base.

(** The value of digits, lowest first. *)
Fixpoint digits_value (base : Z) (digits : list Z) : Z :=
  match digits with [] => 0 | d :: digits => d + base * digits_value base digits end.

(** No zero at the top. *)
Definition canonical (base : Z) (digits : list Z) : Prop :=
  digits = [] \/ base ^ (Z.of_nat (length digits) - 1) <= digits_value base digits.

Lemma digits_range base ds : 0 < base -> Forall (in_base base) ds ->
  0 <= digits_value base ds < base ^ Z.of_nat (length ds).
Proof.
  intros Hb. induction 1 as [|d ds Hd _ IH]; cbn [digits_value length]; [done|].
  rewrite Nat2Z.inj_succ, Z.pow_succ_r by lia. unfold in_base in Hd. nia.
Qed.

Lemma digits_app base xs ys : 0 < base ->
  digits_value base (xs ++ ys) = digits_value base xs + base ^ Z.of_nat (length xs) * digits_value base ys.
Proof.
  intros Hb. induction xs as [|x xs IH]; cbn [digits_value app length]; [rewrite Z.pow_0_r; lia|].
  rewrite IH, Nat2Z.inj_succ, Z.pow_succ_r by lia. lia.
Qed.

Lemma digits_inj base xs ys : 0 < base -> Forall (in_base base) xs -> Forall (in_base base) ys ->
  length xs = length ys -> digits_value base xs = digits_value base ys -> xs = ys.
Proof.
  intros Hb Hx. revert ys. induction Hx as [|x xs Hx _ IH]; intros [|y ys] Hy Hl E; try done.
  apply Forall_cons in Hy as [Hy1 Hy]. cbn [digits_value] in E. unfold in_base in *.
  destruct (Z.div_mod_unique base (digits_value base xs) (digits_value base ys) x y) as [E' ->]; [lia..|].
  f_equal. apply IH; [done|by injection Hl|done].
Qed.

Lemma canonical_inj base xs ys : 1 < base -> Forall (in_base base) xs -> Forall (in_base base) ys ->
  canonical base xs -> canonical base ys -> digits_value base xs = digits_value base ys -> xs = ys.
Proof.
  intros Hb Hx Hy Cx Cy E. apply (digits_inj base); [lia|done..| |done].
  pose proof (digits_range base xs ltac:(lia) Hx) as Rx. pose proof (digits_range base ys ltac:(lia) Hy) as Ry.
  rewrite E in Rx. destruct (Nat.lt_trichotomy (length xs) (length ys)) as [Hl|[Hl|Hl]]; [exfalso|done|exfalso].
  - destruct Cy as [->|Cy]; [cbn in Hl; lia|].
    assert (base ^ Z.of_nat (length xs) <= base ^ (Z.of_nat (length ys) - 1)) by (apply Z.pow_le_mono_r; lia). lia.
  - destruct Cx as [->|Cx]; [cbn in Hl; lia|].
    assert (base ^ Z.of_nat (length ys) <= base ^ (Z.of_nat (length xs) - 1)) by (apply Z.pow_le_mono_r; lia). lia.
Qed.

(** The top digit of canonical digits. *)
Lemma canonical_last base ds : 0 < base -> Forall (in_base base) ds -> canonical base ds -> last ds <> Some 0.
Proof.
  intros Hb Hd Hc E. destruct (last_Some ds 0) as [H _]. destruct (H E) as [ds' ->].
  destruct Hc as [Hc|Hc]; [by destruct ds'|]. rewrite digits_app in Hc by done. cbn [digits_value] in Hc.
  apply Forall_app in Hd as [Hd _]. pose proof (digits_range base ds' Hb Hd) as R.
  rewrite length_app in Hc. cbn [length] in Hc. replace (Z.of_nat (length ds' + 1) - 1) with (Z.of_nat (length ds')) in Hc by lia. lia.
Qed.

Lemma last_canonical base ds : 0 < base -> Forall (in_base base) ds -> last ds <> Some 0 -> canonical base ds.
Proof.
  intros Hb Hd Hl. destruct ds as [|d ds'] using rev_ind; [by left|]. clear IHds'. right.
  apply Forall_app in Hd as [Hd' Hd]. apply Forall_inv in Hd. rewrite last_snoc in Hl.
  rewrite digits_app, length_app by done. cbn [digits_value length]. pose proof (digits_range base ds' Hb Hd').
  replace (Z.of_nat (length ds' + 1) - 1) with (Z.of_nat (length ds')) by lia.
  unfold in_base in Hd. assert (0 < d) by (destruct (Z.eq_dec d 0); [congruence|lia]).
  rewrite Z.mul_0_r, Z.add_0_r. set (p := base ^ Z.of_nat (length ds')) in *. nia.
Qed.

(** ** Base 58 digits spell the bytes' number *)

Lemma base58_step_spec carry d : 0 <= carry < 256 -> in_base 58 d ->
  let (d', carry') := base58_step carry d in
  in_base 58 d' /\ 0 <= carry' < 256 /\ d' + 58 * carry' = carry + 256 * d.
Proof.
  unfold in_base, base58_step. intros Hc Hd. rewrite Z.shiftl_mul_pow2 by lia. change (2 ^ 8) with 256.
  unfold as_u32. rewrite (as_unsigned_id 32 (d * 256)), as_unsigned_id by lia.
  pose proof (Z.mod_pos_bound (carry + d * 256) 58 ltac:(lia)).
  pose proof (Z.div_mod (carry + d * 256) 58 ltac:(lia)). lia.
Qed.

Lemma base58_carry_spec ds : Forall (in_base 58) ds -> forall carry, 0 <= carry < 256 ->
  let (ds', carry') := base58_carry ds carry in
  Forall (in_base 58) ds' /\ length ds' = length ds /\ 0 <= carry' < 256 /\
  digits_value 58 ds' + 58 ^ Z.of_nat (length ds) * carry' = carry + 256 * digits_value 58 ds.
Proof.
  induction 1 as [|d ds Hd _ IH]; intros carry Hc; cbn [base58_carry].
  { split_and!; [constructor|done|lia|lia|]. cbn [length digits_value]. change (58 ^ Z.of_nat 0) with 1. lia. }
  pose proof (base58_step_spec carry d Hc Hd) as Hs. destruct (base58_step carry d) as [d' carry'].
  destruct Hs as (Hd' & Hc' & Es). specialize (IH carry' Hc'). destruct (base58_carry ds carry') as [ds' c'].
  destruct IH as (Hds & Hl & Hc'' & E). cbn [digits_value length]. split_and!; [by constructor|congruence|lia|lia|].
  rewrite Nat2Z.inj_succ, Z.pow_succ_r by lia. lia.
Qed.

Lemma base58_push_spec fuel : forall carry, 0 <= carry < 58 ^ Z.of_nat fuel ->
  Forall (in_base 58) (base58_push fuel carry) /\ digits_value 58 (base58_push fuel carry) = carry /\
  canonical 58 (base58_push fuel carry).
Proof.
  induction fuel as [|fuel IH]; intros carry Hc; cbn [base58_push].
  { change (58 ^ Z.of_nat 0) with 1 in Hc. split_and!; [constructor|cbn; lia|by left]. }
  rewrite Nat2Z.inj_succ, Z.pow_succ_r in Hc by lia.
  destruct (Z.ltb_spec 0 carry) as [Hpos|]; [|split_and!; [constructor|cbn; lia|by left]].
  pose proof (Z.mod_pos_bound carry 58 ltac:(lia)) as Hm. pose proof (Z.div_mod carry 58 ltac:(lia)) as Hdm.
  destruct (IH (carry / 58)) as (Hf & Hv & Hcan).
  { split; [apply Z.div_pos; lia|]. apply Z.div_lt_upper_bound; lia. }
  cbn [digits_value]. split_and!; [by constructor|lia|].
  apply last_canonical; [lia|by constructor|]. rewrite last_cons.
  pose proof (canonical_last 58 _ ltac:(lia) Hf Hcan) as Hlast.
  destruct (last (base58_push fuel (carry / 58))) as [d|] eqn:El; [congruence|].
  apply last_None in El. rewrite El in Hv. cbn in Hv. intros [= E]. lia.
Qed.

Lemma base58_byte_spec ds byte : Forall (in_base 58) ds -> canonical 58 ds -> 0 <= byte < 256 -> (ds = [] -> 0 < byte) ->
  Forall (in_base 58) (base58_byte ds byte) /\ canonical 58 (base58_byte ds byte) /\ base58_byte ds byte <> [] /\
  digits_value 58 (base58_byte ds byte) = byte + 256 * digits_value 58 ds.
Proof.
  intros Hds Hcan Hb Hne. unfold base58_byte. pose proof (base58_carry_spec ds Hds byte Hb) as H.
  destruct (base58_carry ds byte) as [ds' c]. destruct H as (Hds' & Hl & Hc & E).
  destruct (base58_push_spec 6 c) as (Hp & Hv & Hcp); [change (58 ^ Z.of_nat 6) with 38068692544; lia|].
  assert (Hval : digits_value 58 (ds' ++ base58_push 6 c) = byte + 256 * digits_value 58 ds).
  { rewrite digits_app, Hv, Hl by lia. lia. }
  pose proof (digits_range 58 ds ltac:(lia) Hds) as R.
  assert (Hpos : 0 < byte + 256 * digits_value 58 ds).
  { destruct Hcan as [->|Hcan]; [specialize (Hne eq_refl); cbn; lia|].
    destruct ds as [|d ds]; [specialize (Hne eq_refl); cbn; lia|]. cbn [length] in Hcan.
    pose proof (Z.pow_pos_nonneg 58 (Z.of_nat (S (length ds)) - 1) ltac:(lia) ltac:(lia)). lia. }
  split_and!; [by apply Forall_app| |intros En; rewrite En in Hval; cbn in Hval; lia|done].
  right. rewrite Hval, length_app, Hl. destruct (decide (c = 0)) as [->|Hc0].
  - assert (base58_push 6 0 = []) as -> by done. cbn [length]. rewrite Nat.add_0_r.
    destruct Hcan as [->|Hcan]; [cbn; specialize (Hne eq_refl); lia|]. lia.
  - destruct Hcp as [Hcp|Hcp]; [rewrite Hcp in Hv; cbn in Hv; lia|]. rewrite Hv in Hcp.
    destruct (base58_push 6 c) as [|p ps] eqn:Ep; [cbn in Hv; lia|]. cbn [length] in *.
    replace (Z.of_nat (length ds + S (length ps)) - 1) with (Z.of_nat (length ds) + (Z.of_nat (S (length ps)) - 1)) by lia.
    rewrite Z.pow_add_r by lia. rewrite <- E. pose proof (digits_range 58 ds' ltac:(lia) Hds') as R'. nia.
Qed.

(** The number a byte string spells, its first byte highest. *)
Definition bytes_value (bytes : list Z) : Z := fold_left (fun v b => b + 256 * v) bytes 0.

Lemma bytes_value_digits bytes : bytes_value bytes = digits_value 256 (rev bytes).
Proof.
  induction bytes as [|b bytes IH] using rev_ind; [done|]. unfold bytes_value in *.
  rewrite fold_left_app, rev_app_distr. cbn [fold_left rev app digits_value]. by rewrite IH.
Qed.

Lemma base58_fold bytes : Forall (in_base 256) bytes -> forall ds,
  Forall (in_base 58) ds -> canonical 58 ds -> (ds = [] -> head bytes <> Some 0) ->
  let digits := fold_left base58_byte bytes ds in
  Forall (in_base 58) digits /\ canonical 58 digits /\
  digits_value 58 digits = fold_left (fun v b => b + 256 * v) bytes (digits_value 58 ds).
Proof.
  induction 1 as [|b bytes Hb _ IH]; intros ds Hds Hcan Hne; [done|]. cbn [fold_left].
  destruct (base58_byte_spec ds b Hds Hcan Hb) as (H1 & H2 & H3 & H4).
  { intros ->. specialize (Hne eq_refl). cbn in Hne. unfold in_base in Hb.
    destruct (Z.eq_dec b 0); [congruence|lia]. }
  rewrite <- H4. apply IH; try done.
Qed.

Lemma leading_zeros_spec bytes :
  bytes = replicate (leading_zeros bytes) 0 ++ drop (leading_zeros bytes) bytes /\
  head (drop (leading_zeros bytes) bytes) <> Some 0.
Proof.
  induction bytes as [|b bytes [IH1 IH2]]; cbn [leading_zeros]; [done|].
  destruct (Z.eqb_spec b 0) as [->|Hb]; cbn [replicate drop app]; [by rewrite <- IH1|].
  split; [done|]. cbn. congruence.
Qed.

Lemma value_significant bytes : bytes_value bytes = bytes_value (drop (leading_zeros bytes) bytes).
Proof.
  unfold bytes_value. transitivity (fold_left (fun v b => b + 256 * v)
    (replicate (leading_zeros bytes) 0 ++ drop (leading_zeros bytes) bytes) 0).
  - by rewrite <- (proj1 (leading_zeros_spec bytes)).
  - rewrite fold_left_app. f_equal. induction (leading_zeros bytes) as [|n IH]; [done|exact IH].
Qed.

Lemma base58_digits bytes : Forall (in_base 256) bytes ->
  let digits := fold_left base58_byte (drop (leading_zeros bytes) bytes) [] in
  Forall (in_base 58) digits /\ canonical 58 digits /\ digits_value 58 digits = bytes_value bytes.
Proof.
  intros Hb. destruct (leading_zeros_spec bytes) as [E Hh]. cbn zeta.
  destruct (base58_fold (drop (leading_zeros bytes) bytes)) with (ds := @nil Z) as (H1 & H2 & H3);
    [by apply Forall_drop|constructor|by left|done|]. split_and!; [done..|]. rewrite H3.
  by rewrite value_significant.
Qed.

(** ** The text tells byte strings apart *)

Definition base58_char (d : Z) : Z := default 0 (BASE58_ALPHABET !! Z.to_nat d).

Lemma base58_char_inj d e : in_base 58 d -> in_base 58 e -> base58_char d = base58_char e -> d = e.
Proof.
  unfold in_base, base58_char. intros Hd He E.
  assert (Hnd : NoDup BASE58_ALPHABET) by by apply (bool_decide_unpack _); vm_compute.
  assert (Hlen : length BASE58_ALPHABET = 58%nat) by done.
  destruct (lookup_lt_is_Some_2 BASE58_ALPHABET (Z.to_nat d) ltac:(lia)) as [x Hx].
  destruct (lookup_lt_is_Some_2 BASE58_ALPHABET (Z.to_nat e) ltac:(lia)) as [y Hy].
  rewrite Hx, Hy in E. cbn in E. subst y. pose proof (NoDup_lookup _ _ _ _ Hnd Hx Hy). lia.
Qed.

Lemma leading_run_inj {A} (a : A) m n u v : head u <> Some a -> head v <> Some a ->
  replicate m a ++ u = replicate n a ++ v -> m = n /\ u = v.
Proof.
  intros Hu Hv. revert n; induction m as [|m IH]; intros [|n]; cbn [replicate app].
  - by split.
  - intros ->. by destruct Hu.
  - intros <-. by destruct Hv.
  - intros [= E]. destruct (IH n E) as [-> ->]. done.
Qed.

Lemma base58_text_head ds : Forall (in_base 58) ds -> canonical 58 ds ->
  head ((base58_char <$> rev ds) ++ [quote]) <> Some 49.
Proof.
  intros Hds Hcan. destruct ds as [|d ds _] using rev_ind; [done|]. rewrite rev_app_distr. cbn [rev app fmap list_fmap head].
  pose proof (canonical_last 58 _ ltac:(lia) Hds Hcan) as Hlast. rewrite last_snoc in Hlast.
  apply Forall_app in Hds as [_ Hd%Forall_inv]. change 49 with (base58_char 0). intros [= E].
  apply base58_char_inj in E; [congruence|done|by split].
Qed.

Lemma char_list_inj xs ys : Forall (in_base 58) xs -> Forall (in_base 58) ys ->
  base58_char <$> xs = base58_char <$> ys -> xs = ys.
Proof.
  intros Hx. revert ys; induction Hx as [|x xs Hx _ IH]; intros [|y ys] Hy; try done.
  apply Forall_cons in Hy as [Hy1 Hy]. rewrite !fmap_cons. intros [= E1 E].
  f_equal; [by apply base58_char_inj|by apply IH].
Qed.

Lemma significant_canonical bytes : Forall (in_base 256) bytes ->
  canonical 256 (rev (drop (leading_zeros bytes) bytes)).
Proof.
  intros Hb. apply last_canonical; [lia|by apply Forall_rev, Forall_drop|].
  destruct (leading_zeros_spec bytes) as [_ H]. by destruct (drop _ bytes) as [|x l]; [|cbn [rev]; rewrite last_snoc].
Qed.

(** As many leading zeros and the same number are the same bytes. *)
Lemma significant_inj x y : Forall (in_base 256) x -> Forall (in_base 256) y ->
  leading_zeros x = leading_zeros y -> bytes_value x = bytes_value y -> x = y.
Proof.
  intros Hx Hy Ez E. rewrite (proj1 (leading_zeros_spec x)), (proj1 (leading_zeros_spec y)), <- Ez. f_equal.
  rewrite Ez at 2. rewrite (value_significant x), (value_significant y), !bytes_value_digits in E.
  rewrite <- (rev_involutive (drop _ x)), <- (rev_involutive (drop (leading_zeros y) y)). f_equal.
  apply (canonical_inj 256); try done; [by apply Forall_rev, Forall_drop..| |]; by apply significant_canonical.
Qed.

(** The base 58 text of a byte string is a [1] for each leading zero byte and
    the canonical base 58 digits of its number, quoted; no two byte strings
    share one. *)
Theorem encode_base58_spec bytes :
  Forall (in_base 256) bytes ->
  (exists digits, Forall (in_base 58) digits /\ canonical 58 digits /\ digits_value 58 digits = bytes_value bytes /\
    forall buf, encode_base58_bytes bytes buf =
      buf ++ quote :: replicate (leading_zeros bytes) 49 ++ (base58_char <$> rev digits) ++ [quote]) /\
  forall other, Forall (in_base 256) other -> encode_base58_bytes bytes [] = encode_base58_bytes other [] -> bytes = other.
Proof.
  intros Hb. destruct (base58_digits bytes Hb) as (H1 & H2 & H3). split; [by eexists|].
  intros other Ho. destruct (base58_digits other Ho) as (G1 & G2 & G3). unfold encode_base58_bytes. cbn [app].
  intros [= E]. fold base58_char in E.
  apply leading_run_inj in E as [Ez E]; [|by apply base58_text_head..].
  apply app_inv_tail, char_list_inj in E; [|by apply Forall_rev..].
  apply rev_inj in E. rewrite E in H3. rewrite H3 in G3. by apply significant_inj.
Qed.

Lemma encode_base58_spec_witness :
  encode_base58_bytes [0; 0; 1; 200] [] = quote :: text_bytes "118s" ++ [quote] /\
  forall other, Forall (in_base 256) other ->
    encode_base58_bytes [0; 0; 1; 200] [] = encode_base58_bytes other [] -> [0; 0; 1; 200] = other.
Proof.
  split; [vm_compute; reflexivity|].
  refine (proj2 (encode_base58_spec [0; 0; 1; 200] _)). repeat constructor; done.
Defined.
