(* ===== verification/Names.v ===== *)
(** The names a client writes and reads, and the hex text of its values
    (src/query/parse.rs, [snake_to_camel] of src/output/encoder.rs). Text is a
    string of its UTF-8 bytes; what is asked of a character here, whether it is an
    ASCII letter, digit or underscore, is asked of a byte alike, since every byte of
    a longer character is above them. *)
From stdpp Require Import base strings list.
From Stdlib Require Import ZArith Lia Ascii.
From S2P Require Import Prelude Machine Render.

#[local] Open Scope Z_scope.

(** ** Letters *)

Definition ascii_code (c : ascii) : Z := Z.of_nat (nat_of_ascii c).
Definition ascii_of_code (z : Z) : ascii := ascii_of_nat (Z.to_nat z).

(** [char::is_ascii_uppercase], [is_ascii_lowercase], [to_ascii_lowercase],
    [to_ascii_uppercase]. *)
Definition is_upper (c : ascii) : bool := (65 <=? ascii_code c) && (ascii_code c <=? 90).
Definition is_lower (c : ascii) : bool := (97 <=? ascii_code c) && (ascii_code c <=? 122).
Definition to_lower (c : ascii) : ascii := if is_upper c then ascii_of_code (ascii_code c + 32) else c.
Definition to_upper (c : ascii) : ascii := if is_lower c then ascii_of_code (ascii_code c - 32) else c.

(** [str::to_ascii_lowercase]. *)
Fixpoint lowercase (s : string) : string :=
  match s with EmptyString => EmptyString | String c s => String (to_lower c) (lowercase s) end.

(** ** Names *)

(** [src/src/query/parse.rs:L47-52] camel_to_snake: the characters after the first. *)
Fixpoint camel_tail (s : string) : string :=
  match s with
  | EmptyString => EmptyString
  | String c s => if is_upper c then String "_" (String (to_lower c) (camel_tail s)) else String (to_lower c) (camel_tail s)
  end.

(** [src/src/query/parse.rs:43-53] camel_to_snake. *)
Definition camel_to_snake (s : string) : string :=
  match s with EmptyString => EmptyString | String c s => String (to_lower c) (camel_tail s) end.

(** [src/src/output/encoder.rs:L1054-1064] snake_to_camel: the loop. *)
Fixpoint snake_from (capitalize_next : bool) (s : string) : string :=
  match s with
  | EmptyString => EmptyString
  | String c s =>
      if decide (c = "_"%char) then snake_from true s
      else if capitalize_next then String (to_upper c) (snake_from false s)
      else String c (snake_from false s)
  end.

(** [src/src/output/encoder.rs:1051-1066] snake_to_camel. *)
Definition snake_to_camel (s : string) : string := snake_from false s.

(** ** Hex text *)

(** [faster_hex::hex_decode] into a buffer of half as many bytes. *)
Class HexDecoder := hex_decode : list Z -> option (list Z).

Definition hex_digit (d : Z) : option Z :=
  if (48 <=? d) && (d <=? 57) then Some (d - 48)
  else if (97 <=? d) && (d <=? 102) then Some (d - 87)
  else if (65 <=? d) && (d <=? 70) then Some (d - 55)
  else None.

Fixpoint reference_hex_decode (digits : list Z) : option (list Z) :=
  match digits with
  | [] => Some []
  | [_] => None
  | high :: low :: digits =>
      high ← hex_digit high; low ← hex_digit low; bytes ← reference_hex_decode digits; Some (high * 16 + low :: bytes)
  end.

(** What is relied on: pairs of hex digits, of either case, decode to bytes. *)
Class HexDecoderLaws (H : HexDecoder) : Prop :=
  hex_decodes digits : hex_decode digits = reference_hex_decode digits.

Module HexDecoderInstances.
#[export] Instance reference_decoder : HexDecoder := reference_hex_decode.
#[export] Instance reference_decoder_laws : HexDecoderLaws reference_decoder.
Proof. done. Qed.
End HexDecoderInstances.

(** [u8::is_ascii_hexdigit]. *)
Definition is_hex_digit (d : Z) : bool := bool_decide (is_Some (hex_digit d)).

(** The text after [0x] or [0X]: [strip_prefix]. *)
Definition strip_hex_prefix (s : string) : option string :=
  match s with
  | String "0" (String x digits) => if decide (x = "x"%char \/ x = "X"%char) then Some digits else None
  | _ => None
  end.

(** [src/src/query/parse.rs:55-66] is_hex_literal. *)
Definition is_hex_literal (s : string) : bool :=
  match strip_hex_prefix s with
  | None => false
  | Some digits => Nat.even (String.length digits) && forallb is_hex_digit (text_bytes digits)
  end.

(** [src/src/query/parse.rs:68-84] parse_hex. *)
Definition parse_hex `{HexDecoder} (s : string) : option (list Z) :=
  if negb (is_hex_literal s) then None else hex_decode (drop 2 (text_bytes s)).

(** ** Names convert back and forth *)

(** A name as catalogs spell columns: no capitals, and every underscore before a
    letter. [after] says that the last character was an underscore. *)
Fixpoint snake_spelled (after : bool) (s : string) : bool :=
  match s with
  | EmptyString => negb after
  | String c s => if decide (c = "_"%char) then negb after && snake_spelled true s
                  else negb (is_upper c) && (negb after || is_lower c) && snake_spelled false s
  end.
Definition snake_name (s : string) : bool :=
  match s with String c _ => negb (bool_decide (c = "_"%char)) && snake_spelled false s | EmptyString => true end.

(** A name as clients spell fields: no underscore, and no capital first. *)
Fixpoint no_underscore (s : string) : bool :=
  match s with EmptyString => true | String c s => negb (bool_decide (c = "_"%char)) && no_underscore s end.
Definition camel_name (s : string) : bool :=
  match s with String c _ => negb (is_upper c) && no_underscore s | EmptyString => true end.

Lemma ascii_code_of z : 0 <= z < 256 -> ascii_code (ascii_of_code z) = z.
Proof. intros H. unfold ascii_code, ascii_of_code. rewrite nat_ascii_embedding; lia. Qed.

Lemma ascii_of_code_of c : ascii_of_code (ascii_code c) = c.
Proof. unfold ascii_code, ascii_of_code. by rewrite Nat2Z.id, ascii_nat_embedding. Qed.

Lemma to_lower_upper c : is_lower c = true -> to_lower (to_upper c) = c /\ is_upper (to_upper c) = true.
Proof.
  unfold to_upper. intros H. rewrite H. unfold is_lower in H. assert (97 <= ascii_code c <= 122) by lia.
  assert (Hu : is_upper (ascii_of_code (ascii_code c - 32)) = true) by (unfold is_upper; rewrite ascii_code_of; lia).
  split; [|done]. unfold to_lower. rewrite Hu, ascii_code_of by lia. replace (ascii_code c - 32 + 32) with (ascii_code c) by lia.
  apply ascii_of_code_of.
Qed.

Lemma to_upper_lower c : is_upper c = true -> to_upper (to_lower c) = c /\ to_lower c <> "_"%char.
Proof.
  unfold to_lower. intros H. rewrite H. unfold is_upper in H. assert (65 <= ascii_code c <= 90) by lia.
  assert (Hl : is_lower (ascii_of_code (ascii_code c + 32)) = true) by (unfold is_lower; rewrite ascii_code_of; lia).
  split.
  - unfold to_upper. rewrite Hl, ascii_code_of by lia. replace (ascii_code c + 32 - 32) with (ascii_code c) by lia. apply ascii_of_code_of.
  - intros E. apply (f_equal ascii_code) in E. rewrite ascii_code_of in E by lia. change (ascii_code "_") with 95 in E. lia.
Qed.

Lemma to_lower_id c : is_upper c = false -> to_lower c = c.
Proof. unfold to_lower. by intros ->. Qed.

Lemma camel_tail_snake s : snake_spelled false s = true -> camel_tail (snake_from false s) = s.
Proof.
  assert (Hc : forall c, c = "_"%char -> is_upper c = false) by by intros ? ->.
  assert (H : forall after, snake_spelled after s = true ->
    camel_tail (snake_from after s) = if after : bool then String "_" s else s); [|exact (H false)].
  induction s as [|c s IH]; intros after; cbn [snake_spelled snake_from]; [by destruct after|]. case_decide as Ec.
  - subst c. rewrite andb_true_iff. intros [Hn Hs]. destruct after; [done|]. by rewrite IH.
  - rewrite !andb_true_iff, orb_true_iff, !negb_true_iff. intros [[Hu Hl] Hs]. destruct after; cbn [camel_tail].
    + destruct Hl as [|Hl]; [done|]. destruct (to_lower_upper c Hl) as [E ->]. by rewrite E, IH.
    + rewrite Hu, to_lower_id, IH by done. done.
Qed.

Lemma snake_from_camel s : no_underscore s = true -> snake_from false (camel_tail s) = s.
Proof.
  induction s as [|c s IH]; [done|]. cbn [no_underscore camel_tail]. rewrite andb_true_iff, negb_true_iff, bool_decide_eq_false.
  intros [Hc Hs]. destruct (is_upper c) eqn:Hu; cbn [snake_from].
  - destruct (to_upper_lower c Hu) as [E Hne]. rewrite decide_True by done. by rewrite decide_False, E, IH.
  - rewrite to_lower_id by done. by rewrite decide_False, IH.
Qed.

(** C40: A field is read back under the name it is written: a catalog's spelling of a
    column, rendered as the response renders it and parsed as a request's field name
    is, is the column's spelling again; and a client's spelling comes back as the
    client wrote it. So no two columns share a rendered name. *)
Theorem names_round_trip :
  (forall s, snake_name s = true -> camel_to_snake (snake_to_camel s) = s) /\
  (forall s, camel_name s = true -> snake_to_camel (camel_to_snake s) = s).
Proof.
  split; intros [|c s]; try done.
  - cbn [snake_name]. rewrite andb_true_iff, negb_true_iff, bool_decide_eq_false. intros [Hc Hs].
    unfold snake_to_camel. cbn [snake_from]. rewrite decide_False by done. cbn [snake_spelled] in Hs. rewrite decide_False in Hs by done.
    rewrite !andb_true_iff, negb_true_iff in Hs. destruct Hs as [[Hu _] Hs]. cbn [camel_to_snake].
    by rewrite to_lower_id, camel_tail_snake.
  - cbn [camel_name no_underscore]. rewrite !andb_true_iff, !negb_true_iff, bool_decide_eq_false. intros (Hu & Hc & Hs).
    unfold snake_to_camel, camel_to_snake. rewrite to_lower_id by done. cbn [snake_from]. by rewrite decide_False, snake_from_camel.
Qed.

Lemma names_round_trip_witness :
  camel_to_snake (snake_to_camel "l1_block_number") = "l1_block_number"%string /\ snake_to_camel (camel_to_snake "l1BlockNumber") = "l1BlockNumber"%string.
Proof. split; [by apply (proj1 names_round_trip)|by apply (proj2 names_round_trip)]. Defined.

Example camel_names : camel_to_snake "l1BlockNumber" = "l1_block_number"%string /\ snake_to_camel "l1_block_number" = "l1BlockNumber"%string /\
  camel_to_snake (snake_to_camel "a_0") = "a0"%string.
Proof. vm_compute. auto. Qed.

(** ** Hex literals *)

Lemma text_bytes_cons c s : text_bytes (String c s) = ascii_code c :: text_bytes s.
Proof. done. Qed.

Lemma text_bytes_length s : length (text_bytes s) = String.length s.
Proof. unfold text_bytes. rewrite length_fmap. induction s; cbn; congruence. Qed.

Lemma reference_hex_decode_spec : forall n digits, (length digits <= n)%nat ->
  (Nat.even (length digits) = true /\ forallb is_hex_digit digits = true <-> is_Some (reference_hex_decode digits)) /\
  (forall bytes, reference_hex_decode digits = Some bytes -> (length digits = 2 * length bytes)%nat /\ Forall (fun b => 0 <= b < 256) bytes).
Proof.
  induction n as [|n IH]; intros digits Hn.
  { destruct digits; [|cbn in Hn; lia]. split; [split; [by eexists|done]|]. by intros ? [= <-]. }
  destruct digits as [|high [|low digits]]; cbn [reference_hex_decode].
  - split; [split; [by eexists|done]|]. by intros ? [= <-].
  - split; [split; [by intros [? _]|by intros [? ?]]|done].
  - destruct (IH digits) as [Hiff Hlen]; [cbn in Hn; lia|].
    assert (Hd : forall d x, hex_digit d = Some x -> 0 <= x < 16) by
      (intros d x; unfold hex_digit; repeat (case_match; [intros [= <-]; lia|]); done).
    cbn [length forallb]. unfold is_hex_digit at 1 2.
    destruct (hex_digit high) as [h|] eqn:Eh; cbn [mbind option_bind].
    2: { rewrite bool_decide_false by (by intros [? ?]). cbn. split; [split; [by intros [_ ?]|by intros [? ?]]|done]. }
    destruct (hex_digit low) as [l|] eqn:El; cbn [mbind option_bind].
    2: { rewrite bool_decide_true, bool_decide_false by (try (by intros [? ?]); by eexists). cbn. split; [split; [by intros [_ ?]|by intros [? ?]]|done]. }
    rewrite !bool_decide_true by by eexists. change (Nat.even (S (S (length digits)))) with (Nat.even (length digits)). cbn [andb].
    split.
    + rewrite Hiff. destruct (reference_hex_decode digits); cbn; [split; by eexists|split; by intros [? ?]].
    + intros bytes. destruct (reference_hex_decode digits) as [rest|]; [|done]. cbn. intros [= <-].
      destruct (Hlen rest eq_refl) as [E Hb]. split; [cbn; lia|]. constructor; [|done]. pose proof (Hd high h Eh). pose proof (Hd low l El). lia.
Qed.

Section hex.
Context {D : HexDecoder} {DL : HexDecoderLaws D}.

(** A hex literal, and nothing else, has bytes: half as many as its digits. *)
Lemma parse_hex_spec s : is_Some (parse_hex s) <-> is_hex_literal s = true.
Proof.
  unfold parse_hex. destruct (is_hex_literal s) eqn:E; cbn [negb]; [|split; [by intros [? ?]|done]]. split; [done|intros _].
  rewrite hex_decodes. unfold is_hex_literal, strip_hex_prefix in E.
  destruct s as [|[[] [] [] [] [] [] [] []] [|x digits]]; try done. case_decide; [|done].
  apply andb_true_iff in E. rewrite !text_bytes_cons. cbn [drop].
  apply (proj1 (reference_hex_decode_spec (length (text_bytes digits)) (text_bytes digits) ltac:(lia))). by rewrite text_bytes_length.
Qed.

Lemma parse_hex_bytes s bytes : parse_hex s = Some bytes -> Forall (fun b => 0 <= b < 256) bytes.
Proof.
  unfold parse_hex. destruct (negb _); [done|]. rewrite hex_decodes. intros E.
  by apply (proj2 (reference_hex_decode_spec _ _ (Nat.le_refl _))) in E as [_ ?].
Qed.
End hex.
