(* ===== verification/Encoder.v ===== *)
(** Rendering values as JSON (src/output/encoder.rs): a column's encoder is resolved
    once, from the type it is stored at and the catalog's word on how it renders, and
    appends the text of a row. How a float, and a text that needs escaping, are
    written is the ryu and serde_json crates': [JsonFormats]. *)
From stdpp Require Import base strings list.
From Stdlib Require Import ZArith Lia.
From S2P Require Import Prelude Machine ListLib Errors Arrow Catalog Integers Render Names.

#[local] Open Scope Z_scope.

(** ** Numbers and texts *)

Class JsonFormats := {
  (** [itoa::Buffer::format], [ryu::Buffer::format] of a float's bits, and
      [Serializer::serialize_str] of a text's bytes. *)
  format_int : Z -> list Z;
  format_float : Z -> list Z;
  serialize_str : list Z -> list Z;
}.

Definition null_text : list Z := text_bytes "null".
Definition comma : Z := 44.
Definition colon : Z := 58.

(** [word.wrapping_sub(ONES * n) & !word & HIGH != 0]: a byte of the word is below
    [n]. *)
Definition ONES : Z := 0x0101010101010101.
Definition HIGH : Z := 0x8080808080808080.
Definition byte_below (n word : Z) : bool :=
  negb (Z.land (Z.land (wrapping_sub word (as_u64 (ONES * n))) (Z.lxor word u64_max)) HIGH =? 0).

(** [slice::as_chunks::<8>]: the words, then what is left. *)
Fixpoint as_chunks8 (fuel : nat) (bytes : list Z) : list (list Z) * list Z :=
  match fuel with
  | O => ([], bytes)
  | S fuel =>
      if (length bytes <? 8)%nat then ([], bytes)
      else let '(words, rest) := as_chunks8 fuel (drop 8 bytes) in (take 8 bytes :: words, rest)
  end.

Definition escaped_byte (b : Z) : bool := (b <? 0x20) || (b =? 34) || (b =? 92).

(** [src/src/output/encoder.rs:783-803] needs_escape. *)
Definition needs_escape (bytes : list Z) : bool :=
  let '(words, rest) := as_chunks8 (length bytes) bytes in
  existsb (fun word =>
    let word := from_le_bytes word in  (* [u64::from_ne_bytes] on a little-endian machine *)
    byte_below 0x20 word || byte_below 1 (Z.lxor word (ONES * 34)) || byte_below 1 (Z.lxor word (ONES * 92))) words ||
  existsb escaped_byte rest.

Section formats.
Context `{F : JsonFormats} `{H : HexKernel}.

(** [src/src/output/encoder.rs:766-781] encode_json_string. *)
Definition encode_json_string (s : list Z) (buf : list Z) : list Z :=
  if needs_escape s then buf ++ serialize_str s else buf ++ [quote] ++ s ++ [quote].

(** [src/src/output/encoder.rs:1010-1013] write_u64. *)
Definition write_int (buf : list Z) (v : Z) : list Z := buf ++ format_int v.

(** [src/src/output/encoder.rs:1025-1049] write_decimal128: the part before the point and
    the part after, with its leading zeros. *)
Definition write_decimal128 (buf : list Z) (v scale : Z) : list Z :=
  if scale <=? 0 then write_int buf v
  else
    let divisor := as_signed 128 (10 ^ scale) in
    let int_part := Z.quot v divisor in
    let frac_abs := Z.abs (Z.rem v divisor) in
    let frac_str := format_int frac_abs in
    buf ++ (if (v <? 0) && (int_part =? 0) then text_bytes "-" else []) ++ format_int int_part ++ text_bytes "." ++
      replicate (Z.to_nat scale - length frac_str) 48 ++ frac_str.

(** ** Encoders *)

(** [src/src/output/encoder.rs:8-9] EncoderFn: the functions a column's values are rendered
    by. *)
Inductive EncoderFn :=
  | EncodeBoolean
  | EncodeInt
  | EncodeFloat64
  | EncodeUtf8Value
  | EncodeBinaryValue
  | EncodeFixedBinaryValue
  | EncodeBase58Binary
  | EncodeBase58FixedBinary
  | EncodeTimestampSecond
  | EncodeTimestampMillisecond
  | EncodeTimestampMillisecondRaw
  | EncodeTimestampSecondAsMillisecond
  | EncodeListValue
  | EncodeStructValue
  | EncodeBignum
  | EncodeJsonPassthrough
  | EncodeSolanaTxVersion
  | EncodeHexNumber (bytes : nat).

(** [src/src/output/encoder.rs:28-46] Encoder. *)
Inductive Encoder :=
  | Plain (encoder : EncoderFn)
  | StructOf (members : list (list Z * Encoder))
  | ListOf (element : Encoder).

(** [src/src/output/encoder.rs:230-265] resolve_value_encoder: [Err] is [Unrenderable]. *)
Fixpoint resolve_value_encoder (dt : data_type) : outcome data_type EncoderFn :=
  match dt with
  | DBoolean => Ok EncodeBoolean
  | DInt _ => Ok EncodeInt
  | DPrim Float64 => Ok EncodeFloat64
  | DText Utf8 => Ok EncodeUtf8Value
  | DOther name => if bool_decide (name = "Binary"%string) then Ok EncodeBinaryValue else Err dt
  | DFixedSizeBinary _ => Ok EncodeFixedBinaryValue
  | DPrim (Timestamp Second _) => Ok EncodeTimestampSecond
  | DPrim (Timestamp Millisecond _) => Ok EncodeTimestampMillisecond
  | DList item => let* _ := resolve_value_encoder item in Ok EncodeListValue
  | DStruct fields =>
      let* _ := (fix every (fields : list (string * data_type)) : outcome data_type () :=
        match fields with [] => Ok tt | f :: fields => let* _ := resolve_value_encoder f.2 in every fields end) fields in
      Ok EncodeStructValue
  | _ => Err dt
  end.

(** [src/src/output/encoder.rs:203-228] resolve_declared_encoder. *)
Definition resolve_declared_encoder (dt : data_type) (declared_type : option ColumnType) : outcome data_type EncoderFn :=
  match dt, declared_type with
  | DPrim (Timestamp Millisecond _), Some CtTimestampMillisecond => Ok EncodeTimestampMillisecondRaw
  | DPrim (Timestamp Second _), Some CtTimestampMillisecond => Ok EncodeTimestampSecondAsMillisecond
  | DPrim (Timestamp Millisecond _), Some CtTimestampSecond => Ok EncodeTimestampMillisecond
  | DPrim (Timestamp Second _), Some CtTimestampSecond => Ok EncodeTimestampSecond
  | _, _ => resolve_value_encoder dt
  end.

(** [src/src/output/encoder.rs:180-189] resolve_hex_bytes_encoder. *)
Definition resolve_hex_bytes_encoder (dt : data_type) : option EncoderFn :=
  match dt with
  | DText Utf8 => Some EncodeUtf8Value
  | DOther name => if bool_decide (name = "Binary"%string) then Some EncodeBinaryValue else None
  | DFixedSizeBinary _ => Some EncodeFixedBinaryValue
  | _ => None
  end.

(** [src/src/output/encoder.rs:191-201] resolve_base58_encoder. *)
Definition resolve_base58_encoder (dt : data_type) : option EncoderFn :=
  match dt with
  | DText Utf8 => Some EncodeUtf8Value
  | DOther name => if bool_decide (name = "Binary"%string) then Some EncodeBase58Binary else None
  | DFixedSizeBinary _ => Some EncodeBase58FixedBinary
  | _ => None
  end.

(** [src/src/output/encoder.rs:825-862] resolve_hex_number_encoder. *)
Definition resolve_hex_number_encoder (dt : data_type) (declared_type : option ColumnType) : option EncoderFn :=
  match dt with
  | DInt t =>
      Some (EncodeHexNumber match declared_type with
        | Some CtUInt8 => 1
        | Some CtUInt16 => 2
        | Some CtUInt32 => 4
        | Some CtUInt64 => 8
        | _ => Z.to_nat (int_bits t / 8)
        end%nat)
  | _ => None
  end.

(** [src/src/output/encoder.rs:148-178] resolve_encoder_fn. *)
Definition resolve_encoder_fn (dt : data_type) (encoding : option JsonEncoding) (declared_type : option ColumnType) : outcome data_type EncoderFn :=
  let declared :=
    match encoding with
    | Some DecimalString =>
        if is_integer dt || match dt with DPrim (Decimal128 _ _) => true | _ => false end then Some EncodeBignum else None
    | Some HexNumber => resolve_hex_number_encoder dt declared_type
    | Some JsonVerbatim => match dt with DText Utf8 => Some EncodeJsonPassthrough | _ => None end
    | Some SolanaTxVersion => if is_integer dt then Some EncodeSolanaTxVersion else None
    | Some EncodedMillisecond => match dt with DPrim (Timestamp Millisecond _) => Some EncodeTimestampMillisecondRaw | _ => None end
    | Some HexBytes => resolve_hex_bytes_encoder dt
    | Some Base58 => resolve_base58_encoder dt
    | None => None
    end in
  match declared with
  | Some encoder => Ok encoder
  | None => resolve_declared_encoder dt declared_type
  end.

(** A JSON key, quoted and followed by its colon. *)
Definition json_key (name : string) : list Z := encode_json_string (text_bytes name) [] ++ [colon].

Definition member_encoding (m : MemberDescription) : option JsonEncoding := let 'Member encoding _ := m in encoding.
Definition member_members (m : MemberDescription) : option (list (string * MemberDescription)) := let 'Member _ members := m in members.

(** [src/src/output/encoder.rs:99-146] resolve_encoder. *)
Fixpoint resolve_encoder (dt : data_type) (encoding : option JsonEncoding) (declared_type : option ColumnType)
    (members : option (list (string * MemberDescription))) : outcome data_type Encoder :=
  match dt with
  | DStruct fields =>
      let* resolved := (fix every (fields : list (string * data_type)) : outcome data_type (list (list Z * Encoder)) :=
        match fields with
        | [] => Ok []
        | f :: fields =>
            let member := members ≫= assoc f.1 in
            let* encoder := resolve_encoder f.2 (member ≫= member_encoding) None (member ≫= member_members) in
            let* rest := every fields in
            Ok ((json_key (snake_to_camel f.1), encoder) :: rest)
        end) fields in
      Ok (StructOf resolved)
  | DList (DStruct _ as item) =>
      let* element := resolve_encoder item None None members in
      Ok (ListOf element)
  | _ => let* encoder := resolve_encoder_fn dt encoding declared_type in Ok (Plain encoder)
  end.

(** ** Rendering a value *)

(** [src/src/output/encoder.rs:864-887] unsigned_at. *)
Definition unsigned_at (t : int_type) (v : Z) : Z := as_unsigned (int_bits t) v.

(** [src/src/output/encoder.rs:889-911] signed_at. *)
Definition signed_at (t : int_type) (v : Z) : Z := as_signed (int_bits t) v.

(** A float that is none or without bound: every bit of its exponent is set. *)
Definition is_finite (bits : Z) : bool := negb (Z.land (Z.shiftr bits 52) 2047 =? 2047).

(** *** Values of one type

    A downcast to another type than the array's is a panic. *)

(** [src/src/output/encoder.rs:267-278] encode_boolean. *)
Definition encode_boolean (a : array) (row : nat) (buf : list Z) : result (list Z) :=
  if is_null a row then Ok (buf ++ null_text) else
  match a with
  | ABool values _ => Ok (buf ++ text_bytes (if default false (values !! row) then "true" else "false"))
  | _ => Panic
  end.

(** [src/src/output/encoder.rs:280-287] encode_int8. Its seven likes, to [encode_int64], differ in the width they read. *)
Definition encode_int (a : array) (row : nat) (buf : list Z) : result (list Z) :=
  if is_null a row then Ok (buf ++ null_text) else
  match a with
  | AInt _ values _ => Ok (write_int buf (default 0 (values !! row)))
  | _ => Panic
  end.

(** [src/src/output/encoder.rs:352-365] encode_float64. *)
Definition encode_float64 (a : array) (row : nat) (buf : list Z) : result (list Z) :=
  if is_null a row then Ok (buf ++ null_text) else
  match a with
  | APrim Float64 values _ =>
      let v := default 0 (values !! row) in Ok (if is_finite v then buf ++ format_float v else buf ++ null_text)
  | _ => Panic
  end.

(** [src/src/output/encoder.rs:367-374] encode_utf8_value. *)
Definition encode_utf8_value (a : array) (row : nat) (buf : list Z) : result (list Z) :=
  if is_null a row then Ok (buf ++ null_text) else
  match a with
  | AText Utf8 values _ => Ok (encode_json_string (text_bytes (default ""%string (values !! row))) buf)
  | _ => Panic
  end.

(** [src/src/output/encoder.rs:376-383] encode_binary_value. *)
Definition encode_binary_value (a : array) (row : nat) (buf : list Z) : result (list Z) :=
  if is_null a row then Ok (buf ++ null_text) else
  match a with
  | AOther name values _ =>
      if bool_decide (name = "Binary"%string) then Ok (encode_hex_bytes (default [] (values !! row)) buf) else Panic
  | _ => Panic
  end.

(** [src/src/output/encoder.rs:385-395] encode_fixed_binary_value. *)
Definition encode_fixed_binary_value (a : array) (row : nat) (buf : list Z) : result (list Z) :=
  if is_null a row then Ok (buf ++ null_text) else
  match a with
  | AFixed _ values _ => Ok (encode_hex_bytes (default [] (values !! row)) buf)
  | _ => Panic
  end.

(** [src/src/output/encoder.rs:397-404] encode_base58_binary. *)
Definition encode_base58_binary (a : array) (row : nat) (buf : list Z) : result (list Z) :=
  if is_null a row then Ok (buf ++ null_text) else
  match a with
  | AOther name values _ =>
      if bool_decide (name = "Binary"%string) then Ok (encode_base58_bytes (default [] (values !! row)) buf) else Panic
  | _ => Panic
  end.

(** [src/src/output/encoder.rs:406-416] encode_base58_fixed_binary. *)
Definition encode_base58_fixed_binary (a : array) (row : nat) (buf : list Z) : result (list Z) :=
  if is_null a row then Ok (buf ++ null_text) else
  match a with
  | AFixed _ values _ => Ok (encode_base58_bytes (default [] (values !! row)) buf)
  | _ => Panic
  end.

(** [src/src/output/encoder.rs:455-465] encode_timestamp_second. *)
Definition encode_timestamp_second (a : array) (row : nat) (buf : list Z) : result (list Z) :=
  if is_null a row then Ok (buf ++ null_text) else
  match a with
  | APrim (Timestamp Second _) values _ => Ok (write_int buf (default 0 (values !! row)))
  | _ => Panic
  end.

(** [src/src/output/encoder.rs:467-478] encode_timestamp_millisecond. *)
Definition encode_timestamp_millisecond (a : array) (row : nat) (buf : list Z) : result (list Z) :=
  if is_null a row then Ok (buf ++ null_text) else
  match a with
  | APrim (Timestamp Millisecond _) values _ => Ok (write_int buf (Z.quot (default 0 (values !! row)) 1000))
  | _ => Panic
  end.

(** [src/src/output/encoder.rs:480-490] encode_timestamp_millisecond_raw. *)
Definition encode_timestamp_millisecond_raw (a : array) (row : nat) (buf : list Z) : result (list Z) :=
  if is_null a row then Ok (buf ++ null_text) else
  match a with
  | APrim (Timestamp Millisecond _) values _ => Ok (write_int buf (default 0 (values !! row)))
  | _ => Panic
  end.

(** [src/src/output/encoder.rs:492-505] encode_timestamp_second_as_millisecond. *)
Definition encode_timestamp_second_as_millisecond (a : array) (row : nat) (buf : list Z) : result (list Z) :=
  if is_null a row then Ok (buf ++ null_text) else
  match a with
  | APrim (Timestamp Second _) values _ =>
      Ok (write_int buf (Z.max (- 2 ^ 63) (Z.min (default 0 (values !! row) * 1000) (2 ^ 63 - 1))))
  | _ => Panic
  end.

(** [src/src/output/encoder.rs:539-585] encode_bignum. *)
Definition encode_bignum (a : array) (row : nat) (buf : list Z) : result (list Z) :=
  if is_null a row then Ok (buf ++ null_text) else
  match a with
  | AInt _ values _ => Ok (write_int (buf ++ [quote]) (default 0 (values !! row)) ++ [quote])
  | APrim (Decimal128 _ scale) values _ =>
      let v := default 0 (values !! row) in
      Ok ((if scale =? 0 then write_int (buf ++ [quote]) v else write_decimal128 (buf ++ [quote]) v scale) ++ [quote])
  | _ => Ok (buf ++ null_text)
  end.

(** [src/src/output/encoder.rs:587-600] encode_json_passthrough. *)
Definition encode_json_passthrough (a : array) (row : nat) (buf : list Z) : result (list Z) :=
  if is_null a row then Ok (buf ++ null_text) else
  match a with
  | AText Utf8 values _ =>
      let s := text_bytes (default ""%string (values !! row)) in
      Ok (if bool_decide (s = []) then buf ++ null_text else buf ++ s)
  | _ => Panic
  end.

(** [src/src/output/encoder.rs:602-619] encode_solana_tx_version. *)
Definition encode_solana_tx_version (a : array) (row : nat) (buf : list Z) : result (list Z) :=
  if is_null a row then Ok (buf ++ null_text) else
  match a with
  | AInt t values _ =>
      let v := signed_at t (default 0 (values !! row)) in
      Ok (if v =? -1 then buf ++ [quote] ++ text_bytes "legacy" ++ [quote] else write_int buf v)
  | _ => Ok (buf ++ null_text)
  end.

(** The stored value at a width, or at eight bytes where it needs more. *)
Definition write_hex_number (bytes : nat) (value : Z) (buf : list Z) : list Z :=
  if value <? 2 ^ (8 * Z.of_nat bytes) then encode_hex_bytes (to_be_bytes bytes value) buf
  else encode_hex_bytes (to_be_bytes 8 value) buf.

(** [src/src/output/encoder.rs:L913-940] hex_number_encoder. *)
Definition encode_hex_number (bytes : nat) (a : array) (row : nat) (buf : list Z) : result (list Z) :=
  if is_null a row then Ok (buf ++ null_text) else
  match a with
  | AInt t values _ => Ok (write_hex_number bytes (unsigned_at t (default 0 (values !! row))) buf)
  | _ => Ok (buf ++ null_text)
  end.

(** *** Values of any type *)

(** A separator, but for the first. *)
Definition separate (first : bool) (buf : list Z) : list Z := if first then buf else buf ++ [comma].

(** [src/src/output/encoder.rs:L942-1008] encode_list, encode_struct: the call of a function. A list's and a struct's
    (encode_list_value and encode_struct_value, lines 507 to 526) write their parts by the encoders of their types; a list
    of integers writes them itself. *)
Fixpoint encode_value (a : array) (f : EncoderFn) (row : nat) (buf : list Z) : result (list Z) :=
  match f with
  | EncodeBoolean => encode_boolean a row buf
  | EncodeInt => encode_int a row buf
  | EncodeFloat64 => encode_float64 a row buf
  | EncodeUtf8Value => encode_utf8_value a row buf
  | EncodeBinaryValue => encode_binary_value a row buf
  | EncodeFixedBinaryValue => encode_fixed_binary_value a row buf
  | EncodeBase58Binary => encode_base58_binary a row buf
  | EncodeBase58FixedBinary => encode_base58_fixed_binary a row buf
  | EncodeTimestampSecond => encode_timestamp_second a row buf
  | EncodeTimestampMillisecond => encode_timestamp_millisecond a row buf
  | EncodeTimestampMillisecondRaw => encode_timestamp_millisecond_raw a row buf
  | EncodeTimestampSecondAsMillisecond => encode_timestamp_second_as_millisecond a row buf
  | EncodeBignum => encode_bignum a row buf
  | EncodeJsonPassthrough => encode_json_passthrough a row buf
  | EncodeSolanaTxVersion => encode_solana_tx_version a row buf
  | EncodeHexNumber bytes => encode_hex_number bytes a row buf
  | EncodeListValue =>
      if is_null a row then Ok (buf ++ null_text) else
      match a with
      | AList offsets values _ =>
          let start := offset_at offsets row in
          let elements := seq start (offset_at offsets (S row) - start) in
          let* buf :=
            match values with
            | AInt _ ints nulls =>
                Ok (fold_left (fun buf i =>
                  let buf := separate (i =? start)%nat buf in
                  if is_valid_in nulls i then write_int buf (default 0 (ints !! i)) else buf ++ null_text) elements (buf ++ [91]))
            | _ =>
                match elements with
                | [] => Ok (buf ++ [91])
                | _ =>
                    match resolve_value_encoder (array_type values) with
                    | Ok encoder =>
                        foldM (fun buf i => encode_value values encoder i (separate (i =? start)%nat buf)) elements (buf ++ [91])
                    | _ => Panic
                    end
                end
            end in
          Ok (buf ++ [93])
      | _ => Panic
      end
  | EncodeStructValue =>
      if is_null a row then Ok (buf ++ null_text) else
      match a with
      | AStruct fields _ _ =>
          let* (_, buf) := foldM (fun '(first, buf) f =>
            let buf := encode_json_string (text_bytes (snake_to_camel f.1)) (separate first buf) ++ [colon] in
            match resolve_value_encoder (array_type f.2) with
            | Ok encoder => let* buf := encode_value f.2 encoder row buf in Ok (false, buf)
            | _ => Panic
            end) fields (true, buf ++ [123]) in
          Ok (buf ++ [125])
      | _ => Panic
      end
  end.

(** [src/src/output/encoder.rs:49-96] Encoder::encode. *)
Fixpoint encode (encoder : Encoder) (a : array) (row : nat) (buf : list Z) : result (list Z) :=
  match encoder with
  | Plain f => encode_value a f row buf
  | StructOf members =>
      if is_null a row then Ok (buf ++ null_text) else
      match a with
      | AStruct fields _ _ =>
          let* buf := (fix every (members : list (list Z * Encoder)) (columns : list (string * array)) (first : bool) (buf : list Z) : result (list Z) :=
            match members, columns with
            | (key, member) :: members, column :: columns =>
                let* buf := encode member column.2 row (separate first buf ++ key) in every members columns false buf
            | _, _ => Ok buf
            end) members fields true (buf ++ [123]) in
          Ok (buf ++ [125])
      | _ => Panic
      end
  | ListOf element =>
      if is_null a row then Ok (buf ++ null_text) else
      match a with
      | AList offsets values _ =>
          let start := offset_at offsets row in
          let* buf := foldM (fun buf i => encode element values i (separate (i =? start)%nat buf))
            (seq start (offset_at offsets (S row) - start)) (buf ++ [91]) in
          Ok (buf ++ [93])
      | _ => Panic
      end
  end.

(** [src/src/output/encoder.rs:528-537] encode_value: of one element of a list or one member of a
    struct. *)
Definition encode_stored (a : array) (row : nat) (buf : list Z) : result (list Z) :=
  match resolve_value_encoder (array_type a) with
  | Ok encoder => encode_value a encoder row buf
  | _ => Panic
  end.

(** ** Rolls *)

(** [src/src/output/encoder.rs:661-668] RollSource. *)
Record RollSource := {
  rs_column_index : nat;
  rs_encoding : option JsonEncoding;
  rs_declared_type : option ColumnType;
}.

(** [src/src/output/encoder.rs:675-685] RollColumn. *)
Inductive RollColumn :=
  | RollValue (index : nat) (encoder : EncoderFn)
  | RollSplice (index : nat) (element_encoder : EncoderFn).

(** [src/src/output/encoder.rs:L696-711] ResolvedRollEncoder::resolve: one source. *)
Definition resolve_roll_column (batch : RecordBatch) (source : RollSource) (is_last : bool) : outcome data_type RollColumn :=
  let* column := expect (columns batch !! rs_column_index source) in
  match array_type column.2, is_last with
  | DList item, true =>
      let* encoder := resolve_encoder_fn item (rs_encoding source) None in
      Ok (RollSplice (rs_column_index source) encoder)
  | dt, _ =>
      let* encoder := resolve_encoder_fn dt (rs_encoding source) (rs_declared_type source) in
      Ok (RollValue (rs_column_index source) encoder)
  end.

(** [src/src/output/encoder.rs:688-714] ResolvedRollEncoder::resolve. *)
Fixpoint resolve_roll (batch : RecordBatch) (sources : list RollSource) : outcome data_type (list RollColumn) :=
  match sources with
  | [] => Ok []
  | source :: sources =>
      let* column := resolve_roll_column batch source (match sources with [] => true | _ => false end) in
      let* rest := resolve_roll batch sources in
      Ok (column :: rest)
  end.

(** [src/src/output/encoder.rs:L719-761] ResolvedRollEncoder::encode: the columns that are left, after
    items or not. *)
Fixpoint encode_roll_columns (roll : list RollColumn) (batch : RecordBatch) (row : nat) (has_items : bool) (buf : list Z) : result (list Z) :=
  match roll with
  | [] => Ok buf
  | RollValue index encoder :: roll =>
      let* column := expect (columns batch !! index) in
      if is_null column.2 row then Ok buf
      else
        let* buf := encode_value column.2 encoder row (separate (negb has_items) buf) in
        encode_roll_columns roll batch row true buf
  | RollSplice index encoder :: roll =>
      let* column := expect (columns batch !! index) in
      if is_null column.2 row then Ok buf
      else
        match column.2 with
        | AList offsets values _ =>
            let start := offset_at offsets row in
            let* (buf, has_items) := foldM (fun '(buf, has_items) i =>
              let* buf := encode_value values encoder i (separate (negb has_items) buf) in Ok (buf, true))
              (seq start (offset_at offsets (S row) - start)) (buf, has_items) in
            encode_roll_columns roll batch row has_items buf
        | _ => Panic
        end
  end.

(** [src/src/output/encoder.rs:716-763] ResolvedRollEncoder::encode. *)
Definition encode_resolved_roll (roll : list RollColumn) (batch : RecordBatch) (row : nat) (buf : list Z) : result (list Z) :=
  let* buf := encode_roll_columns roll batch row false (buf ++ [91]) in
  Ok (buf ++ [93]).

(** [src/src/output/encoder.rs:L628-656] encode_roll: the columns that are left, after items or not. *)
Fixpoint encode_columns (indices : list nat) (batch : RecordBatch) (row : nat) (has_items : bool) (buf : list Z) : result (list Z) :=
  match indices with
  | [] => Ok buf
  | index :: indices =>
      let* column := expect (columns batch !! index) in
      if is_null column.2 row then Ok buf
      else
        match column.2, indices with
        | AList offsets values _, [] =>
            let values := array_slice values (offset_at offsets row) (offset_at offsets (S row)) in
            let* (buf, _) := foldM (fun '(buf, has_items) j =>
              let* buf := encode_stored values j (separate (negb has_items) buf) in Ok (buf, true)) (seq 0 (array_len values)) (buf, has_items) in
            Ok buf
        | a, _ =>
            let* buf := encode_stored a row (separate (negb has_items) buf) in
            encode_columns indices batch row true buf
        end
  end.

(** [src/src/output/encoder.rs:621-659] encode_roll. *)
Definition encode_roll (batch : RecordBatch) (row : nat) (indices : list nat) (buf : list Z) : result (list Z) :=
  let* buf := encode_columns indices batch row false (buf ++ [91]) in
  Ok (buf ++ [93]).
End formats.
