(* ===== verification/Escape.v ===== *)
(** Which texts JSON escapes (src/output/encoder.rs): looking eight bytes at a time finds
    exactly what looking at each byte does. *)
From stdpp Require Import base strings list.
From Stdlib Require Import ZArith Lia.
From S2P Require Import Prelude Machine ListLib Arrow Catalog Integers Render Names Encoder.

#[local] Open Scope Z_scope.

Abbreviation byte := (fun b : Z => 0 <= b < 256).

(** ** Bits of a word *)

Lemma testbit_low b W : 0 <= b < 256 -> Z.testbit (b + 256 * W) 7 = (128 <=? b).
Proof.
  intros Hb. rewrite Z.testbit_eqb by lia. change (2 ^ 7) with 128.
  replace ((b + 256 * W) / 128) with (b / 128 + 2 * W) by (rewrite (Z.mul_comm 256), <- (Z.div_add b (2 * W) 128) by lia; f_equal; lia).
  rewrite (Z.mul_comm 2), Z_mod_plus_full. destruct (Z.leb_spec 128 b).
  - replace (b / 128) with 1; [done|]. apply Z.div_unique with (b - 128); lia.
  - by rewrite Z.div_small by lia.
Qed.

Lemma testbit_high b W i : 0 <= b < 256 -> 0 <= i -> Z.testbit (b + 256 * W) (i + 8) = Z.testbit W i.
Proof.
  intros Hb Hi. rewrite <- Z.shiftr_spec by lia. rewrite Z.shiftr_div_pow2 by lia. change (2 ^ 8) with 256.
  rewrite (Z.mul_comm 256), Z.div_add by lia. by rewrite Z.div_small by lia.
Qed.

(** The top bit of the [i]th byte. *)
Definition top (i : nat) : Z := 8 * Z.of_nat i + 7.

(** A byte is flagged: its top bit is set after the subtraction and was not before. *)
Definition flagged (n : Z) (bytes : list Z) (i : nat) : Prop :=
  Z.testbit (from_le_bytes bytes - n * from_le_bytes (replicate (length bytes) 1)) (top i) = true /\
  Z.testbit (from_le_bytes bytes) (top i) = false.

Lemma top_S i : top (S i) = top i + 8.
Proof. unfold top. lia. Qed.

Lemma flagged_cons n b bytes i : 0 <= n <= b -> b < 256 -> flagged n (b :: bytes) (S i) <-> flagged n bytes i.
Proof.
  intros Hn Hb. unfold flagged. cbn [from_le_bytes length replicate]. rewrite top_S.
  replace (b + 256 * from_le_bytes bytes - n * (1 + 256 * from_le_bytes (replicate (length bytes) 1)))
    with ((b - n) + 256 * (from_le_bytes bytes - n * from_le_bytes (replicate (length bytes) 1))) by lia.
  unfold top. by rewrite !testbit_high by lia.
Qed.

Lemma flagged_below n b bytes : 1 <= n <= 128 -> 0 <= b < n -> flagged n (b :: bytes) 0.
Proof.
  intros Hn Hb. unfold flagged. cbn [from_le_bytes length replicate]. change (top 0) with 7.
  replace (b + 256 * from_le_bytes bytes - n * (1 + 256 * from_le_bytes (replicate (length bytes) 1)))
    with ((256 + b - n) + 256 * (from_le_bytes bytes - n * from_le_bytes (replicate (length bytes) 1) - 1)) by lia.
  rewrite !testbit_low by lia. destruct (Z.leb_spec 128 (256 + b - n)), (Z.leb_spec 128 b); lia || done.
Qed.

Lemma not_flagged n b bytes : 0 <= n <= b -> b < 256 -> ~ flagged n (b :: bytes) 0.
Proof.
  intros Hn Hb [H1 H2]. cbn [from_le_bytes length replicate] in *. change (top 0) with 7 in *.
  replace (b + 256 * from_le_bytes bytes - n * (1 + 256 * from_le_bytes (replicate (length bytes) 1)))
    with ((b - n) + 256 * (from_le_bytes bytes - n * from_le_bytes (replicate (length bytes) 1))) in H1 by lia.
  rewrite testbit_low in H1, H2 by lia. apply Z.leb_le in H1. apply Z.leb_gt in H2. lia.
Qed.

(** Some byte is flagged exactly when some byte is below. *)
Lemma flagged_iff n bytes : 1 <= n <= 128 -> Forall byte bytes -> (exists i, (i < length bytes)%nat /\ flagged n bytes i) <-> Exists (fun b => b < n) bytes.
Proof.
  intros Hn. induction 1 as [|b bytes Hb Hbytes IH].
  - rewrite Exists_nil. split; [|done]. intros (i & Hi & _). cbn in Hi. lia.
  - rewrite Exists_cons. destruct (Z.ltb_spec b n) as [Hlt|Hge].
    + split; [by left|]. intros _. exists O. split; [cbn; lia|]. apply flagged_below; lia.
    + rewrite <- IH. split.
      * intros ([|i] & Hi & Hf); [exfalso; apply (not_flagged n b bytes); [lia|lia|exact Hf]|]. right. exists i. cbn in Hi. split; [lia|]. apply flagged_cons in Hf; [done|lia|lia].
      * intros [?|(i & Hi & Hf)]; [lia|]. exists (S i). cbn. split; [lia|]. apply flagged_cons; [lia|lia|done].
Qed.

(** ** Words of eight bytes *)

Lemma high_bits p : Z.testbit HIGH p = true <-> exists i, (i < 8)%nat /\ p = top i.
Proof.
  split.
  - intros Hp. destruct (decide (0 <= p < 64)) as [Hr|Hr].
    + assert (Hall : Forall (fun k => Z.testbit HIGH (Z.of_nat k) = true -> (k mod 8 = 7)%nat) (seq 0 64)) by (repeat constructor; try done; cbn; congruence).
      rewrite Forall_forall in Hall. specialize (Hall (Z.to_nat p) ltac:(apply elem_of_seq; lia)). rewrite Z2Nat.id in Hall by lia. specialize (Hall Hp).
      exists (Z.to_nat p / 8)%nat. pose proof (Nat.div_mod (Z.to_nat p) 8). unfold top. split; lia.
    + destruct (Z.ltb_spec p 0); [by rewrite Z.testbit_neg_r in Hp by lia|]. rewrite Z.bits_above_log2 in Hp; [done|done|]. change (Z.log2 HIGH) with 63. lia.
  - intros (i & Hi & ->). do 8 (destruct i as [|i]; [done|]). lia.
Qed.

Lemma land_high x : Z.land x HIGH <> 0 <-> exists i, (i < 8)%nat /\ Z.testbit x (top i) = true.
Proof.
  split.
  - intros Hne. destruct (decide (Exists (fun i => Z.testbit x (top i) = true) (seq 0 8))) as [Hex|Hno].
    + apply Exists_exists in Hex as (i & Hi%elem_of_seq & Ht). exists i. split; [lia|done].
    + destruct Hne. apply Z.bits_inj'. intros p _. rewrite Z.land_spec, Z.bits_0. apply not_true_iff_false.
      intros [H1 H2]%andb_true_iff. apply high_bits in H2 as (i & Hi & ->). apply Hno, Exists_exists. exists i. split; [apply elem_of_seq; lia|done].
  - intros (i & Hi & Ht) E. assert (Hb : Z.testbit (Z.land x HIGH) (top i) = true); [|by rewrite E, Z.bits_0 in Hb].
    rewrite Z.land_spec, Ht. cbn [andb]. apply high_bits. by exists i.
Qed.

Lemma le_bytes_bound bytes : Forall byte bytes -> 0 <= from_le_bytes bytes < 256 ^ Z.of_nat (length bytes).
Proof.
  induction 1 as [|b bytes Hb _ IH]; [done|]. cbn [from_le_bytes length]. rewrite Nat2Z.inj_succ, Z.pow_succ_r by lia. nia.
Qed.

(** The word test finds exactly the bytes below. *)
Lemma byte_below_spec n bytes : 1 <= n <= 128 -> Forall byte bytes -> length bytes = 8%nat ->
  byte_below n (from_le_bytes bytes) = existsb (fun b => b <? n) bytes.
Proof.
  intros Hn Hbytes Hlen. pose proof (le_bytes_bound bytes Hbytes) as Hb. rewrite Hlen in Hb. change (256 ^ Z.of_nat 8) with (2 ^ 64) in Hb.
  apply eq_bool_prop_intro. unfold byte_below. rewrite !Is_true_true, negb_true_iff, Z.eqb_neq, land_high, existsb_exists.
  transitivity (exists i, (i < length bytes)%nat /\ flagged n bytes i).
  - rewrite Hlen. enough (Hbit : forall i, (i < 8)%nat -> Z.testbit (Z.land (wrapping_sub (from_le_bytes bytes) (as_u64 (ONES * n))) (Z.lxor (from_le_bytes bytes) u64_max)) (top i) = true <-> flagged n bytes i).
    { split; intros (i & Hi & Hx); exists i; (split; [done|]); by apply Hbit. }
    intros i Hi. unfold flagged. rewrite Hlen. change (from_le_bytes (replicate 8 1)) with ONES. rewrite Z.land_spec, andb_true_iff. rewrite Z.lxor_spec.
    assert (Hrange : 0 <= top i < 64) by (unfold top; lia).
    unfold wrapping_sub, as_u64, as_unsigned. rewrite Z.mod_pow2_bits_low by lia.
    rewrite (Z.mod_small (ONES * n)) by (unfold ONES; lia).
    assert (Eones : Z.testbit u64_max (top i) = true) by (change u64_max with (Z.ones 64); by apply Z.ones_spec_low).
    rewrite Eones, xorb_true_r, negb_true_iff, (Z.mul_comm ONES n). done.
  - rewrite flagged_iff by done. rewrite Exists_exists. split; intros (b & Hin & Hlt); exists b; (split; [by apply list_elem_of_In|by apply Z.ltb_lt]).
Qed.

(** ** Bytes of a word against one *)

Lemma testbit_split b W p : 0 <= b < 256 -> 0 <= p -> Z.testbit (b + 256 * W) p = if p <? 8 then Z.testbit b p else Z.testbit W (p - 8).
Proof.
  intros Hb Hp. destruct (Z.ltb_spec p 8).
  - rewrite <- (Z.mod_pow2_bits_low (b + 256 * W) 8 p), <- (Z.mod_pow2_bits_low b 8 p) by lia. f_equal.
    change (2 ^ 8) with 256. by rewrite (Z.mul_comm 256), Z_mod_plus_full.
  - replace p with ((p - 8) + 8) at 1 by lia. by apply testbit_high; lia.
Qed.

Lemma lxor_byte b q : 0 <= b < 256 -> 0 <= q < 256 -> 0 <= Z.lxor b q < 256.
Proof.
  intros Hb Hq. assert (Hnn : 0 <= Z.lxor b q) by (apply Z.lxor_nonneg; lia). split; [done|].
  destruct (Z.eq_dec (Z.lxor b q) 0) as [->|Hne]; [lia|]. apply (Z.log2_lt_pow2 _ 8); [lia|].
  pose proof (Z.log2_lxor b q ltac:(lia) ltac:(lia)). pose proof (Z.log2_le_mono b 255 ltac:(lia)). pose proof (Z.log2_le_mono q 255 ltac:(lia)).
  change (Z.log2 255) with 7 in *. lia.
Qed.

Lemma lxor_bytes q bytes : 0 <= q < 256 -> Forall byte bytes ->
  Z.lxor (from_le_bytes bytes) (from_le_bytes (replicate (length bytes) q)) = from_le_bytes ((fun b => Z.lxor b q) <$> bytes).
Proof.
  intros Hq. induction 1 as [|b bytes Hb _ IH]; [done|]. cbn [from_le_bytes length replicate]. rewrite fmap_cons. cbn [from_le_bytes]. rewrite <- IH.
  pose proof (lxor_byte b q Hb Hq) as Hx. apply Z.bits_inj'. intros p Hp.
  rewrite Z.lxor_spec, !testbit_split by done. destruct (p <? 8); by rewrite Z.lxor_spec.
Qed.

Lemma replicate_ones q : from_le_bytes (replicate 8 q) = ONES * q.
Proof. cbn [replicate from_le_bytes]. unfold ONES. lia. Qed.

Lemma zero_byte_spec q bytes : 0 <= q < 256 -> Forall byte bytes -> length bytes = 8%nat ->
  byte_below 1 (Z.lxor (from_le_bytes bytes) (ONES * q)) = existsb (fun b => b =? q) bytes.
Proof.
  intros Hq Hbytes Hlen. rewrite <- replicate_ones, <- Hlen, lxor_bytes by done. rewrite byte_below_spec; [|lia| |by rewrite length_fmap].
  - clear Hlen. induction Hbytes as [|b bytes Hb _ IH]; [done|]. rewrite fmap_cons. cbn [existsb]. rewrite IH. f_equal.
    pose proof (lxor_byte b q Hb Hq). destruct (Z.ltb_spec (Z.lxor b q) 1), (Z.eqb_spec b q) as [->|Hne]; try done.
    + destruct Hne. apply Z.lxor_eq. lia.
    + rewrite Z.lxor_nilpotent in *. lia.
  - apply Forall_fmap. eapply Forall_impl; [exact Hbytes|]. intros b Hb. by apply lxor_byte.
Qed.

(** ** Chunks *)

Lemma as_chunks8_spec fuel bytes words rest : as_chunks8 fuel bytes = (words, rest) ->
  bytes = concat words ++ rest /\ Forall (fun w => length w = 8%nat) words.
Proof.
  revert bytes words rest. induction fuel as [|fuel IH]; intros bytes words rest; cbn [as_chunks8]; [by intros [= <- <-]|].
  destruct (Nat.ltb_spec (length bytes) 8) as [Hlt|Hge]; [by intros [= <- <-]|].
  destruct (as_chunks8 fuel (drop 8 bytes)) as [ws r] eqn:E. intros [= <- <-]. apply IH in E as [E Hws]. split.
  - cbn [concat]. by rewrite <- app_assoc, <- E, take_drop.
  - constructor; [|done]. rewrite length_take. lia.
Qed.

Lemma existsb_concat {A} (p : A -> bool) ls : existsb p (concat ls) = existsb (existsb p) ls.
Proof. induction ls as [|l ls IH]; [done|]. cbn. by rewrite existsb_app, IH. Qed.

Lemma existsb_or {A} (p q r : A -> bool) l : existsb (fun x => p x || q x || r x) l = existsb p l || existsb q l || existsb r l.
Proof. induction l as [|x l IH]; [done|]. cbn. rewrite IH. by destruct (p x), (q x), (r x), (existsb p l), (existsb q l), (existsb r l). Qed.

Lemma needs_escape_ok bytes : Forall byte bytes -> needs_escape bytes = existsb escaped_byte bytes.
Proof.
  intros Hbytes. unfold needs_escape. destruct (as_chunks8 _ _) as [words rest] eqn:E. apply as_chunks8_spec in E as [-> Hws].
  rewrite existsb_app, existsb_concat. f_equal. apply Forall_app in Hbytes as [Hbytes _].
  clear rest. induction Hws as [|word words Hlen _ IH]; [done|]. cbn [concat] in Hbytes. apply Forall_app in Hbytes as [Hword Hbytes].
  cbn [existsb]. rewrite (IH Hbytes). f_equal. unfold escaped_byte. rewrite existsb_or, byte_below_spec, !zero_byte_spec by (done || lia). done.
Qed.

(** C17: Looking at a text eight bytes at a time finds a byte JSON escapes, a control
    character, a quote or a backslash, exactly when it holds one. *)
Theorem needs_escape_spec bytes : Forall byte bytes -> needs_escape bytes = existsb escaped_byte bytes.
Proof. apply needs_escape_ok. Qed.

Lemma needs_escape_spec_witness : needs_escape (text_bytes "0123456789\n") = existsb escaped_byte (text_bytes "0123456789\n").
Proof. apply needs_escape_spec. repeat constructor; cbn; lia. Defined.

Example escapes : needs_escape (text_bytes "0x0123456789abcdef") = false /\ needs_escape (text_bytes "01234567" ++ [31]) = true /\
  needs_escape (text_bytes "0123\567890123") = true.
Proof. vm_compute. auto. Qed.
