(* ===== verification/EncoderSpec.v ===== *)
(** What a value renders as (src/output/encoder.rs): an encoder resolved for a column's
    stored type writes the text of each row's value, and never panics. *)
From stdpp Require Import base strings list.
From Stdlib Require Import ZArith Lia Sorting.Sorted.
From S2P Require Import Prelude Machine ListLib Errors Arrow Catalog Integers Counting Render Names Encoder Escape.

#[local] Open Scope Z_scope.

(** An integer in decimal. *)
Definition print_int (z : Z) : list Z := if z <? 0 then 45 :: text_bytes (print_usize (- z)) else text_bytes (print_usize z).

(** itoa writes an integer in decimal; serde_json writes a text with nothing to escape
    between quotes. *)
Class JsonFormatsLaws (F : JsonFormats) : Prop := {
  format_int_decimal z : format_int z = print_int z;
  serialize_plain s : existsb escaped_byte s = false -> serialize_str s = [quote] ++ s ++ [quote];
}.

(** ** Lists of texts *)

Definition commas (texts : list (list Z)) : list Z :=
  match texts with [] => [] | t :: texts => t ++ concat ((fun t => comma :: t) <$> texts) end.
Definition enclose (open_ close_ : Z) (texts : list (list Z)) : list Z := [open_] ++ commas texts ++ [close_].
Definition quoted (text : list Z) : list Z := [quote] ++ text ++ [quote].

Section spec.
Context {F : JsonFormats} {FL : JsonFormatsLaws F} {H : HexKernel}.

(** ** What a value renders as *)

Definition json_text (s : string) : list Z := serialize_str (text_bytes s).
Definition hex_text (bytes : list Z) : list Z := quoted (text_bytes "0x" ++ hex_encode bytes).
Definition member_text (name : string) (value : list Z) : list Z := json_text (snake_to_camel name) ++ [colon] ++ value.

(** A value as it is stored. *)
Fixpoint plain_text (dt : data_type) (c : cell) : list Z :=
  match dt, c with
  | _, CNull => null_text
  | DBoolean, CBool b => text_bytes (if b then "true" else "false")
  | DInt _, CInt z => print_int z
  | DPrim Float64, CInt bits => if is_finite bits then format_float bits else null_text
  | DPrim (Timestamp Second _), CInt z => print_int z
  | DPrim (Timestamp Millisecond _), CInt z => print_int (Z.quot z 1000)
  | DText _, CText s => json_text s
  | (DOther _ | DFixedSizeBinary _), CBytes b => hex_text b
  | DList item, CList cs => enclose 91 93 (plain_text item <$> cs)
  | DStruct fields, CList cs =>
      enclose 123 125 (zip_with (fun f c => member_text f.1 (plain_text f.2 c)) fields cs)
  | _, _ => []
  end.

(** A timestamp in the declared unit, whatever the stored one. *)
Definition declared_text (dt : data_type) (declared_type : option ColumnType) (c : cell) : list Z :=
  match dt, declared_type, c with
  | DPrim (Timestamp Millisecond _), Some CtTimestampMillisecond, CInt z => print_int z
  | DPrim (Timestamp Second _), Some CtTimestampMillisecond, CInt z => print_int (Z.max (- 2 ^ 63) (Z.min (z * 1000) (2 ^ 63 - 1)))
  | _, _, _ => plain_text dt c
  end.

(** A decimal of a scale: the digits before the point and as many after it as the scale. *)
Definition decimal_text (v scale : Z) : list Z :=
  if scale <=? 0 then print_int v
  else
    let frac := text_bytes (print_usize (Z.abs v mod 10 ^ scale)) in
    (if v <? 0 then [45] else []) ++ text_bytes (print_usize (Z.abs v / 10 ^ scale)) ++ [46] ++ replicate (Z.to_nat scale - length frac) 48 ++ frac.

(** The width a hex number is padded to: the declared one, else the stored one. *)
Definition hex_width (declared_type : option ColumnType) (t : int_type) : nat :=
  match declared_type with
  | Some CtUInt8 => 1
  | Some CtUInt16 => 2
  | Some CtUInt32 => 4
  | Some CtUInt64 => 8
  | _ => Z.to_nat (int_bits t / 8)
  end%nat.

(** A value as the catalog says it renders. *)
Definition encoded_text (dt : data_type) (encoding : option JsonEncoding) (declared_type : option ColumnType) (c : cell) : list Z :=
  match encoding, dt, c with
  | Some DecimalString, DInt _, CInt z => quoted (print_int z)
  | Some DecimalString, DPrim (Decimal128 _ scale), CInt z => quoted (decimal_text z scale)
  | Some HexNumber, DInt t, CInt z =>
      let v := as_unsigned (int_bits t) z in
      let width := hex_width declared_type t in
      hex_text (to_be_bytes (if v <? 2 ^ (8 * Z.of_nat width) then width else 8) v)
  | Some JsonVerbatim, DText Utf8, CText s => if decide (s = ""%string) then null_text else text_bytes s
  | Some SolanaTxVersion, DInt t, CInt z =>
      let v := as_signed (int_bits t) z in if v =? -1 then quoted (text_bytes "legacy") else print_int v
  | Some EncodedMillisecond, DPrim (Timestamp Millisecond _), CInt z => print_int z
  | Some Base58, (DOther _ | DFixedSizeBinary _), CBytes b => encode_base58_bytes b []
  | _, _, _ => declared_text dt declared_type c
  end.

(** A column's value: a struct's members each as the catalog says. *)
Fixpoint column_text (dt : data_type) (encoding : option JsonEncoding) (declared_type : option ColumnType)
    (members : option (list (string * MemberDescription))) (c : cell) : list Z :=
  match dt, c with
  | DStruct fields, CList cs =>
      enclose 123 125 (zip_with (fun f c =>
        let member := members ≫= assoc f.1 in
        member_text f.1 (column_text f.2 (member ≫= member_encoding) None (member ≫= member_members) c)) fields cs)
  | DList (DStruct _ as item), CList cs => enclose 91 93 (column_text item None None members <$> cs)
  | _, _ => encoded_text dt encoding declared_type c
  end.

(** ** Texts appended *)

Lemma text_bytes_range s : Forall (fun b => 0 <= b < 256) (text_bytes s).
Proof.
  unfold text_bytes. apply Forall_fmap, Forall_forall. intros c _. cbn. pose proof (Ascii.nat_ascii_bounded c). lia.
Qed.

Lemma json_string_text s buf : encode_json_string (text_bytes s) buf = buf ++ json_text s.
Proof.
  unfold encode_json_string, json_text. rewrite needs_escape_ok by apply text_bytes_range.
  destruct (existsb escaped_byte (text_bytes s)) eqn:E; [done|]. by rewrite serialize_plain.
Qed.

Lemma hex_bytes_text bytes buf : encode_hex_bytes bytes buf = buf ++ hex_text bytes.
Proof. unfold encode_hex_bytes, hex_text, quoted. by rewrite <- !app_assoc. Qed.

Lemma write_int_text buf z : write_int buf z = buf ++ print_int z.
Proof. unfold write_int. by rewrite format_int_decimal. Qed.

Lemma base58_text bytes buf : encode_base58_bytes bytes buf = buf ++ encode_base58_bytes bytes [].
Proof. unfold encode_base58_bytes. cbn [app]. rewrite ?app_nil_l. done. Qed.

(** A loop that appends a text for each element, with commas between. *)
Lemma foldM_commas {E} (g : nat -> list Z -> outcome E (list Z)) (t : nat -> list Z) start len buf :
  (forall i buf, (start <= i < start + len)%nat -> g i buf = Ok (buf ++ t i)) ->
  foldM (fun buf i => g i (separate (i =? start)%nat buf)) (seq start len) buf = Ok (buf ++ commas (t <$> seq start len)).
Proof.
  intros Hg. destruct len as [|len]; cbn [seq foldM]; [cbn; by rewrite app_nil_r|].
  rewrite Nat.eqb_refl. cbn [separate]. rewrite Hg by lia. cbn [obind]. rewrite fmap_cons. unfold commas.
  assert (Hrest : forall len k buf, (S start <= k)%nat -> (k + len <= start + S (len) + (k - S start))%nat -> (k + len <= start + S (pred (k + len - start)))%nat ->
    (forall i buf, (k <= i < k + len)%nat -> g i buf = Ok (buf ++ t i)) ->
    foldM (fun buf i => g i (separate (i =? start)%nat buf)) (seq k len) buf = Ok (buf ++ concat ((fun t => comma :: t) <$> (t <$> seq k len)))).
  { clear. induction len as [|len IH]; intros k buf Hk _ _ Hg; cbn [seq foldM]; [cbn; by rewrite app_nil_r|].
    destruct (Nat.eqb_spec k start) as [|_]; [lia|]. cbn [separate]. rewrite Hg by lia. cbn [obind]. rewrite IH; [|lia|lia|lia|intros; apply Hg; lia].
    f_equal. rewrite !fmap_cons. cbn [concat]. by rewrite <- !app_assoc. }
  rewrite Hrest; [by rewrite <- app_assoc|lia|lia|lia|]. intros i b Hi. apply Hg. lia.
Qed.

(** A loop that appends a text for each member, with commas between. *)
Lemma foldM_members {E A} (g : A -> list Z -> outcome E (list Z)) (t : A -> list Z) (l : list A) first buf :
  Forall (fun x => forall buf, g x buf = Ok (buf ++ t x)) l ->
  exists last, foldM (fun '(first, buf) x => let* buf := g x (separate first buf) in Ok (false, buf)) l (first, buf) =
    Ok (last, buf ++ (if first then commas (t <$> l) else concat ((fun t => comma :: t) <$> (t <$> l)))).
Proof.
  intros Hg. revert first buf. induction Hg as [|x l Hx _ IH]; intros first buf; cbn [foldM].
  { exists first. destruct first; cbn; by rewrite app_nil_r. }
  rewrite Hx. cbn [obind]. destruct (IH false (separate first buf ++ t x)) as [last E']. exists last. rewrite E', !fmap_cons.
  f_equal. f_equal. destruct first; cbn [separate commas concat]; by rewrite <- !app_assoc.
Qed.

(** ** Values as they are stored *)

(** A call of an encoder, opened. *)
Ltac open_encoder :=
  cbn [encode_value array_type cell_at];
  unfold encode_boolean, encode_int, encode_float64, encode_utf8_value, encode_binary_value, encode_fixed_binary_value, encode_base58_binary, encode_base58_fixed_binary, encode_timestamp_second, encode_timestamp_millisecond, encode_timestamp_millisecond_raw, encode_timestamp_second_as_millisecond, encode_bignum, encode_json_passthrough, encode_solana_tx_version, encode_hex_number;
  cbv beta iota.

Lemma plain_null dt : plain_text dt CNull = null_text.
Proof. by destruct dt as [| | | | | | | |[|[]|]|]. Qed.

Lemma cell_null a row : is_null a row = true -> cell_at a row = CNull.
Proof. intros Hn. destruct a; cbn [cell_at]; by rewrite Hn. Qed.

Lemma encode_null a f row buf : is_null a row = true -> encode_value a f row buf = Ok (buf ++ null_text).
Proof. intros Hn. destruct a; destruct f; open_encoder; by rewrite Hn. Qed.

Lemma fold_left_foldM {E A S} (h : S -> A -> S) (g : S -> A -> outcome E S) (l : list A) s :
  (forall s x, g s x = Ok (h s x)) -> Ok (fold_left h l s) = foldM g l s.
Proof.
  intros Hg. revert s. induction l as [|x l IH]; intros s; [done|]. cbn [fold_left foldM]. by rewrite Hg.
Qed.

Lemma encode_list_elements offsets values nulls e row buf :
  is_null (AList offsets values nulls) row = false -> resolve_value_encoder (array_type values) = Ok e ->
  (forall i buf, (i < offset_at offsets (S row))%nat -> encode_value values e i buf = Ok (buf ++ plain_text (array_type values) (cell_at values i))) ->
  encode_value (AList offsets values nulls) EncodeListValue row buf =
    Ok (buf ++ plain_text (array_type (AList offsets values nulls)) (cell_at (AList offsets values nulls) row)).
Proof.
  intros Hn He Hg. open_encoder. rewrite Hn. cbn [plain_text].
  set (start := offset_at offsets row). set (len := (offset_at offsets (S row) - start)%nat).
  assert (Hall : foldM (fun buf i => encode_value values e i (separate (i =? start)%nat buf)) (seq start len) (buf ++ [91]) =
    Ok ((buf ++ [91]) ++ commas ((fun i => plain_text (array_type values) (cell_at values i)) <$> seq start len))).
  { apply (foldM_commas (encode_value values e)). intros i b Hi. apply Hg. lia. }
  assert (Hend : forall x, (let* buf := Ok ((buf ++ [91]) ++ x) in Ok (buf ++ [93])) = Ok (E := error) (buf ++ [91] ++ x ++ [93])).
  { intros x. cbn. by rewrite <- !app_assoc. }
  unfold enclose. rewrite <- list_fmap_compose. unfold compose. rewrite <- Hend, <- Hall. f_equal. destruct values; try (rewrite He; destruct (seq start len); done).
  injection He as <-. apply fold_left_foldM. intros b i. open_encoder. unfold is_null. cbn [array_nulls].
  by destruct (is_valid_in nulls0 i).
Qed.

Lemma resolve_members fields f :
  resolve_value_encoder (DStruct fields) = Ok f -> f = EncodeStructValue /\ Forall (fun f => exists e, resolve_value_encoder f.2 = Ok e) fields.
Proof.
  cbn [resolve_value_encoder]. destruct (_ fields) as [[]| |] eqn:E; cbn [obind]; try done. intros [= <-]. split; [done|].
  induction fields as [|x fields IH]; [constructor|]. destruct (resolve_value_encoder x.2) as [e| |] eqn:Ex; try done.
  constructor; [by exists e|by apply IH].
Qed.

Lemma array_type_struct fields len nulls : array_type (AStruct fields len nulls) = DStruct ((fun f => (f.1, array_type f.2)) <$> fields).
Proof. done. Qed.

(** A struct's members, each written as its field's type says. *)
Lemma encode_members fields len nulls row buf :
  is_null (AStruct fields len nulls) row = false ->
  Forall (fun f => exists e, resolve_value_encoder (array_type f.2) = Ok e /\
    forall buf, encode_value f.2 e row buf = Ok (buf ++ plain_text (array_type f.2) (cell_at f.2 row))) fields ->
  encode_value (AStruct fields len nulls) EncodeStructValue row buf =
    Ok (buf ++ plain_text (array_type (AStruct fields len nulls)) (cell_at (AStruct fields len nulls) row)).
Proof.
  intros Hn Hf. cbn [encode_value cell_at]. rewrite Hn, array_type_struct. cbn [plain_text].
  destruct (foldM_members (fun f buf =>
      let buf := encode_json_string (text_bytes (snake_to_camel f.1)) buf ++ [colon] in
      match resolve_value_encoder (array_type f.2) with Ok encoder => encode_value f.2 encoder row buf | _ => Panic end)
    (fun f => member_text f.1 (plain_text (array_type f.2) (cell_at f.2 row))) fields true (buf ++ [123])) as [last E].
  { eapply Forall_impl; [exact Hf|]. intros f (e & He & Hb) b. cbn beta zeta. rewrite He, Hb, json_string_text. unfold member_text. by rewrite <- !app_assoc. }
  match goal with |- context [foldM ?g fields ?s] => replace (foldM g fields s) with (Ok (E := error) (last, (buf ++ [123]) ++ commas ((fun f => member_text f.1 (plain_text (array_type f.2) (cell_at f.2 row))) <$> fields))) end.
  - cbn [obind]. unfold enclose. rewrite <- !app_assoc. do 4 f_equal. rewrite zip_with_fmap_l, zip_with_fmap_r, zip_with_diag. done.
  - rewrite <- E. apply foldM_ext. intros [first b] f _. cbn beta zeta. by destruct (resolve_value_encoder (array_type f.2)).
Qed.

Lemma offset_below offsets values nulls row i :
  array_ok (AList offsets values nulls) -> (row < array_len (AList offsets values nulls))%nat -> (i < offset_at offsets (S row))%nat ->
  (i < array_len values)%nat.
Proof.
  intros (_ & _ & Hlen & _ & Hb & _) Hrow Hi. cbn [array_len] in Hrow. unfold offset_at in Hi.
  destruct (lookup_lt_is_Some_2 offsets (S row)) as [o Ho]; [lia|]. rewrite Ho in Hi. cbn in Hi.
  rewrite Forall_lookup in Hb. specialize (Hb _ _ Ho). lia.
Qed.

(** An encoder resolved for the type a column is stored at writes each row's value as
    that type says. *)
Lemma encode_plain a : array_ok a -> forall f row buf,
  resolve_value_encoder (array_type a) = Ok f -> (row < array_len a)%nat ->
  encode_value a f row buf = Ok (buf ++ plain_text (array_type a) (cell_at a row)).
Proof.
  induction a as [t v n|t v n|v n|z v n|o a n IH|s v n|o a n IH|k ks a n IH|t v n|fs l n IH] using array_fields_ind; intros Hok f row buf Hf Hrow;
    match type of Hrow with (row < array_len ?a)%nat => destruct (is_null a row) eqn:Hn; [by rewrite encode_null, cell_null, plain_null|] end.
  - injection Hf as <-. open_encoder; cbn [plain_text]. rewrite Hn, write_int_text. done.
  - destruct t; try done. injection Hf as <-. open_encoder; cbn [plain_text]. rewrite Hn. f_equal. apply json_string_text.
  - injection Hf as <-. open_encoder; cbn [plain_text]. by rewrite Hn.
  - injection Hf as <-. open_encoder; cbn [plain_text]. by rewrite Hn, hex_bytes_text.
  - cbn [array_type resolve_value_encoder] in Hf. destruct (resolve_value_encoder (array_type a)) as [e| |] eqn:He; try done. injection Hf as <-.
    apply (encode_list_elements _ _ _ e); [done|done|]. intros i b Hi. apply IH; [apply Hok|done|by eapply offset_below].
  - cbn [array_type resolve_value_encoder] in Hf. case_bool_decide as Hs; [|done]. injection Hf as <-.
    open_encoder; cbn [plain_text]. rewrite Hn, bool_decide_eq_true_2 by done. by rewrite hex_bytes_text.
  - done.
  - done.
  - destruct t as [|[] z| ]; try done; injection Hf as <-; open_encoder; cbn [plain_text]; rewrite Hn, ?write_int_text; try done.
    by destruct (is_finite _); cbn; [|rewrite app_nil_r || done].
  - rewrite array_type_struct in Hf. apply resolve_members in Hf as [-> Hf]. apply encode_members; [done|].
    apply struct_ok in Hok as [_ Hok]. cbn [array_len] in Hrow. rewrite Forall_fmap in Hf. rewrite Forall_forall in Hf, Hok, IH. apply Forall_forall. intros x Hx.
    destruct (Hf x Hx) as [e He]. exists e. split; [done|]. intros b. destruct (Hok x Hx) as [Hx1 Hx2]. apply IH; [done..|]. by rewrite Hx2.
Qed.

(** ** Values as the catalog says *)

Lemma declared_null dt declared_type : declared_text dt declared_type CNull = null_text.
Proof. by destruct dt as [| | | | | | | |[|[]|]|], declared_type as [[]|]. Qed.

Lemma encoded_null dt encoding declared_type : encoded_text dt encoding declared_type CNull = null_text.
Proof. destruct encoding as [[]|]; try apply declared_null; destruct dt as [|[]| | | | | | |[|[]|]|]; try done; apply declared_null. Qed.

Lemma encode_declared a declared_type f row buf :
  array_ok a -> resolve_declared_encoder (array_type a) declared_type = Ok f -> (row < array_len a)%nat ->
  encode_value a f row buf = Ok (buf ++ declared_text (array_type a) declared_type (cell_at a row)).
Proof.
  intros Hok Hf Hrow. destruct (is_null a row) eqn:Hn; [by rewrite encode_null, cell_null, declared_null|].
  destruct a as [| | | | | | | |[|[] zone|] v n|]; try (by apply encode_plain);
    destruct declared_type as [[]|]; try (by apply encode_plain); injection Hf as <-;
    open_encoder; rewrite Hn, ?write_int_text; done.
Qed.

Lemma print_quot v d : 0 < d ->
  (if (v <? 0) && (Z.quot v d =? 0) then [45] else []) ++ print_int (Z.quot v d) =
  (if v <? 0 then [45] else []) ++ text_bytes (print_usize (Z.abs v / d)).
Proof.
  intros Hd. assert (E : Z.abs (Z.quot v d) = Z.abs v / d) by (rewrite <- Z.quot_abs, Z.quot_div_nonneg by lia; f_equal; lia).
  unfold print_int. rewrite <- E. destruct (Z.ltb_spec v 0); cbn [andb].
  - pose proof (Z.quot_le_mono v 0 d Hd ltac:(lia)) as Hq. rewrite Z.quot_0_l in Hq by lia.
    destruct (Z.eqb_spec (Z.quot v d) 0) as [->|]; [done|]. rewrite (proj2 (Z.ltb_lt _ _)) by lia. cbn [app]. do 3 f_equal. lia.
  - pose proof (Z.quot_le_mono 0 v d Hd ltac:(lia)) as Hq. rewrite Z.quot_0_l in Hq by lia.
    rewrite (proj2 (Z.ltb_ge _ _)) by lia. cbn [app]. do 2 f_equal. lia.
Qed.

Lemma write_decimal128_text v scale buf :
  scale <= 38 -> - 2 ^ 127 <= v < 2 ^ 127 -> write_decimal128 buf v scale = buf ++ decimal_text v scale.
Proof.
  intros Hs Hv. unfold write_decimal128, decimal_text. destruct (Z.leb_spec scale 0); [apply write_int_text|].
  assert (Hp : 0 < 10 ^ scale < 2 ^ 127).
  { split; [by apply Z.pow_pos_nonneg; lia|]. apply Z.le_lt_trans with (10 ^ 38); [by apply Z.pow_le_mono_r|done]. }
  rewrite as_signed_id by (split; lia || (change (128 - 1) with 127; lia)). rewrite !format_int_decimal. f_equal.
  change (text_bytes "-") with [45]. rewrite app_assoc, print_quot by lia.
  assert (E : Z.abs (Z.rem v (10 ^ scale)) = Z.abs v mod 10 ^ scale).
  { rewrite <- Z.rem_abs, Z.rem_mod_nonneg by lia. f_equal. lia. }
  assert (Hf : print_int (Z.abs (Z.rem v (10 ^ scale))) = text_bytes (print_usize (Z.abs v mod 10 ^ scale))).
  { unfold print_int. rewrite (proj2 (Z.ltb_ge _ _)) by lia. by rewrite E. }
  rewrite Hf, <- !app_assoc. done.
Qed.

Lemma write_hex_number_text bytes value buf :
  write_hex_number bytes value buf = buf ++ hex_text (to_be_bytes (if value <? 2 ^ (8 * Z.of_nat bytes) then bytes else 8) value).
Proof. unfold write_hex_number. destruct (_ <? _); apply hex_bytes_text. Qed.

Lemma quoted_text (x : list Z) buf : ((buf ++ [quote]) ++ x) ++ [quote] = buf ++ quoted x.
Proof. unfold quoted. by rewrite <- !app_assoc. Qed.

Lemma encode_bignum_text a row buf :
  array_ok a -> (row < array_len a)%nat -> is_integer (array_type a) || match array_type a with DPrim (Decimal128 _ _) => true | _ => false end = true ->
  encode_value a EncodeBignum row buf = Ok (buf ++ encoded_text (array_type a) (Some DecimalString) None (cell_at a row)).
Proof.
  intros Hok Hrow Ht. destruct (is_null a row) eqn:Hn; [by rewrite encode_null, cell_null, encoded_null|].
  destruct a as [| | | | | | | |t v n|]; try done; open_encoder; cbn [encoded_text]; rewrite Hn.
  - by rewrite write_int_text, quoted_text.
  - destruct t as [|[]|digits scale]; try done. cbn [encoded_text]. destruct Hok as [_ Hv]. cbn [array_len] in Hrow.
    destruct (lookup_lt_is_Some_2 v row Hrow) as [x Hx]. rewrite Hx. cbn [default]. rewrite Forall_lookup in Hv. destruct (Hv _ _ Hx) as [Hb Hs].
    f_equal. destruct (Z.eqb_spec scale 0) as [->|]; [by rewrite write_int_text, quoted_text|]. by rewrite write_decimal128_text, quoted_text.
Qed.

(** An encoder resolved for a column writes each row's value as the catalog says. *)
Lemma encode_resolved a encoding declared_type f row buf :
  array_ok a -> resolve_encoder_fn (array_type a) encoding declared_type = Ok f -> (row < array_len a)%nat ->
  encode_value a f row buf = Ok (buf ++ encoded_text (array_type a) encoding declared_type (cell_at a row)).
Proof.
  intros Hok Hf Hrow. destruct (is_null a row) eqn:Hn; [by rewrite encode_null, cell_null, encoded_null|]. unfold resolve_encoder_fn in Hf.
  destruct encoding as [[]|]; try (by apply encode_declared).
  - (* HexBytes *) apply encode_declared; [done| |done].
    destruct a as [|[]| | | |name| | | |]; try done. cbn [array_type resolve_hex_bytes_encoder resolve_declared_encoder resolve_value_encoder] in Hf |- *.
    by case_bool_decide.
  - (* Base58 *)
    destruct a as [|[]| | | |name| | | |]; try (by apply encode_declared).
    + injection Hf as <-. open_encoder; cbn [encoded_text]. by rewrite Hn, base58_text.
    + cbn [array_type resolve_base58_encoder resolve_declared_encoder resolve_value_encoder] in Hf.
      case_bool_decide; [|done]. injection Hf as <-.
      open_encoder; cbn [encoded_text]. by rewrite Hn, bool_decide_eq_true_2, base58_text.
  - (* DecimalString *)
    destruct (is_integer (array_type a) || _) eqn:Ht in Hf.
    + injection Hf as <-. rewrite encode_bignum_text by done. do 2 f_equal. by destruct a as [| | | | | | | |[]|].
    + destruct a as [| | | | | | | |[|[]|]|]; try done; by apply encode_declared.
  - (* JsonVerbatim *)
    destruct a as [|[]| | | | | | | |]; try (by apply encode_declared). injection Hf as <-.
    open_encoder; cbn [encoded_text]. rewrite Hn. f_equal. destruct (default ""%string (values !! row)); [|done].
    by rewrite bool_decide_eq_true_2, decide_True.
  - (* HexNumber *)
    destruct a; try (by apply encode_declared). injection Hf as <-.
    open_encoder; cbn [encoded_text]. rewrite Hn, write_hex_number_text. done.
  - (* SolanaTxVersion *)
    destruct a as [t| | | | | | | |[|[]|]|]; try (by apply encode_declared). destruct (is_integer _) eqn:Hi in Hf; [|by destruct t]. injection Hf as <-.
    open_encoder; cbn [encoded_text]. rewrite Hn. unfold signed_at. destruct (as_signed _ _ =? -1); [done|]. by rewrite write_int_text.
  - (* EncodedMillisecond *)
    destruct a as [| | | | | | | |[|[]|]|]; try (by apply encode_declared). injection Hf as <-.
    open_encoder; cbn [encoded_text]. by rewrite Hn, write_int_text.
Qed.

(** ** Structs and lists of them *)

Definition member_of (members : option (list (string * MemberDescription))) (name : string) : option MemberDescription := members ≫= assoc name.

Lemma resolve_struct_members fields encoding declared_type members e :
  resolve_encoder (DStruct fields) encoding declared_type members = Ok e ->
  exists resolved, e = StructOf resolved /\ Forall2 (fun f m =>
    m.1 = json_key (snake_to_camel f.1) /\
    resolve_encoder f.2 (member_of members f.1 ≫= member_encoding) None (member_of members f.1 ≫= member_members) = Ok m.2) fields resolved.
Proof.
  cbn [resolve_encoder].
  match goal with |- context [obind (?go fields) _] => set (every := go) end.
  assert (H' : forall resolved, every fields = Ok resolved -> Forall2 (fun f m =>
    m.1 = json_key (snake_to_camel f.1) /\
    resolve_encoder f.2 (member_of members f.1 ≫= member_encoding) None (member_of members f.1 ≫= member_members) = Ok m.2) fields resolved).
  { induction fields as [|f fields IH]; intros resolved; cbn; [by intros [= <-]|].
    destruct (resolve_encoder f.2 _ None _) as [m| |] eqn:Em; [|done..]. cbn [obind]. fold every.
    destruct (every fields) as [rest| |]; [|done..]. intros [= <-]. constructor; [by split|by apply IH]. }
  destruct (every fields) as [resolved| |]; [|done..]. intros [= <-]. exists resolved. split; [done|by apply H'].
Qed.

Lemma json_key_text name buf value : (buf ++ json_key (snake_to_camel name)) ++ value = buf ++ member_text name value.
Proof. unfold json_key, member_text. rewrite json_string_text. cbn [app]. by rewrite <- !app_assoc. Qed.

Lemma encode_struct_null e members a row buf : e = StructOf members -> is_null a row = true -> encode e a row buf = Ok (buf ++ null_text).
Proof. intros -> Hn. cbn [encode]. by rewrite Hn. Qed.

Lemma column_null dt encoding declared_type members : column_text dt encoding declared_type members CNull = null_text.
Proof. destruct dt as [| | | |[]| | | | |]; apply (encoded_null _ encoding declared_type). Qed.

(** A struct's members written one after another, each by its own encoder. *)
Lemma encode_struct_members (fields : list (string * array)) members (texts : list (list Z)) len nulls row buf :
  is_null (AStruct fields len nulls) row = false ->
  Forall2 (fun (m : list Z * Encoder) (ft : (string * array) * list Z) =>
    forall buf, encode m.2 ft.1.2 row (buf ++ m.1) = Ok (buf ++ ft.2)) members (zip fields texts) ->
  length fields = length texts ->
  encode (StructOf members) (AStruct fields len nulls) row buf = Ok (buf ++ enclose 123 125 texts).
Proof.
  intros Hn Hm Hlen. cbn [encode]. rewrite Hn.
  match goal with |- context [obind (?go members fields true _) _] => set (every := go) end.
  assert (H' : forall fields texts first buf, length fields = length texts ->
    Forall2 (fun (m : list Z * Encoder) (ft : (string * array) * list Z) =>
      forall buf, encode m.2 ft.1.2 row (buf ++ m.1) = Ok (buf ++ ft.2)) members (zip fields texts) ->
    every members fields first buf = Ok (buf ++ (if first then commas texts else concat ((fun t => comma :: t) <$> texts)))).
  { clear. induction members as [|[key m] members IH]; intros fields texts first buf Hlen Hm; destruct fields as [|f fields], texts as [|t texts]; try done.
    - cbn. destruct first; cbn; by rewrite app_nil_r.
    - inversion Hm.
    - inversion Hm.
    - apply Forall2_cons_1 in Hm as [Hf Hm]. cbn [fst snd] in Hf. cbn. rewrite Hf. cbn [obind]. fold every.
      rewrite (IH fields texts false) by (done || by injection Hlen). f_equal.
      destruct first; cbn [separate commas]; rewrite ?fmap_cons; cbn [concat]; by rewrite <- !app_assoc. }
  rewrite (H' fields texts) by done. cbn [obind]. unfold enclose. by rewrite <- !app_assoc.
Qed.

(** An encoder resolved for a column appends the text of each row's value. *)
Lemma encode_ok a : array_ok a -> forall encoding declared_type members e row buf,
  resolve_encoder (array_type a) encoding declared_type members = Ok e -> (row < array_len a)%nat ->
  encode e a row buf = Ok (buf ++ column_text (array_type a) encoding declared_type members (cell_at a row)).
Proof.
  induction a as [t v n|t v n|v n|z v n|o a n IH|s v n|o a n IH|k ks a n IH|t v n|fs l n IH] using array_fields_ind; intros Hok enc decl members e row buf He Hrow;
    try (cbn [array_type resolve_encoder] in He; match type of He with obind (resolve_encoder_fn ?dt _ _) _ = _ => destruct (resolve_encoder_fn dt enc decl) as [f| |] eqn:Hf end;
         [|done..]; injection He as <-; cbn [encode]; apply encode_resolved; done).
  - destruct (array_type a) as [| | | | | | | | |fields] eqn:Ht;
      try (cbn [array_type resolve_encoder] in He |- *; rewrite Ht in He |- *; match type of He with obind (resolve_encoder_fn ?dt _ _) _ = _ => destruct (resolve_encoder_fn dt enc decl) as [f| |] eqn:Hf end;
         [|done..]; injection He as <-; cbn [encode]; rewrite (encode_resolved _ enc decl) by (done || (cbn [array_type]; by rewrite Ht)); cbn [array_type]; by rewrite Ht).
    cbn [array_type] in He |- *. rewrite Ht in He |- *. cbn [resolve_encoder] in He. destruct (resolve_encoder (DStruct fields) None None members) as [el| |] eqn:Hel;
      [|cbn [resolve_encoder] in Hel; by rewrite Hel in He..].
    assert (e = ListOf el) as ->. { cbn [resolve_encoder] in Hel. rewrite Hel in He. by injection He. }
    cbn [encode]. destruct (is_null _ row) eqn:Hn; [by rewrite cell_null, column_null|]. cbn [cell_at]. rewrite Hn.
    rewrite (foldM_commas (encode el a) (fun i => column_text (DStruct fields) None None members (cell_at a i))).
    + cbn [obind column_text]. unfold enclose. rewrite <- list_fmap_compose. unfold compose. cbn [column_text]. by rewrite <- !app_assoc.
    + intros i b Hi. apply IH; [apply Hok|done|eapply offset_below; [done..|lia]].
  - rewrite array_type_struct in He |- *. apply resolve_struct_members in He as (resolved & -> & Hr).
    destruct (is_null (AStruct fs l n) row) eqn:Hn; [by rewrite (encode_struct_null _ resolved), cell_null, column_null|].
    apply struct_ok in Hok as [_ Hok]. cbn [array_len] in Hrow. rewrite (encode_struct_members fs resolved
      ((fun f => member_text f.1 (column_text (array_type f.2) (member_of members f.1 ≫= member_encoding) None (member_of members f.1 ≫= member_members) (cell_at f.2 row))) <$> fs)).
    + cbn [cell_at]. rewrite Hn. cbn [column_text]. rewrite zip_with_fmap_l, zip_with_fmap_r, zip_with_diag. done.
    + done.
    + apply Forall2_fmap_l in Hr. clear Hn. induction Hr as [|f m fs resolved [Hk Hm] Hr IHr]; [constructor|].
      apply Forall_cons in IH as [IHf IH], Hok as [[Hf1 Hf2] Hok]. cbn [fst snd] in Hk, Hm. cbn [fmap list_fmap zip_with]. constructor; [|by apply IHr].
      intros b. cbn [fst snd]. rewrite Hk, (IHf Hf1 _ _ _ _ _ _ Hm) by lia. by rewrite json_key_text.
    + by rewrite length_fmap.
Qed.

(** ** What is refused *)

(** The types a value of a type is written as, down to those with no parts. *)
Fixpoint parts (dt : data_type) : list data_type :=
  match dt with
  | DList item => parts item
  | DStruct fields => fields ≫= (fun f => parts f.2)
  | _ => [dt]
  end.

Definition refused (dt : data_type) {A} (r : outcome data_type A) : Prop :=
  match r with
  | Ok _ => True
  | Err part => part ∈ parts dt /\ resolve_value_encoder part = Err part
  | Panic => False
  end.

Lemma refused_part dt {A B} (r : outcome data_type A) (k : A -> outcome data_type B) :
  refused dt r -> (forall a, refused dt (k a)) -> refused dt (let* a := r in k a).
Proof. destruct r; cbn; [intros _ H'; apply H'|done|done]. Qed.

Lemma refused_list dt item {A} (r : outcome data_type A) : (forall part, part ∈ parts item -> part ∈ parts dt) -> refused item r -> refused dt r.
Proof. intros Hp. destruct r; cbn; [done| |done]. intros [Hi He]. split; [by apply Hp|done]. Qed.

Lemma resolve_value_refused : forall dt, refused dt (resolve_value_encoder dt).
Proof.
  fix self 1. intros [t|[]| |z|item|item|k d|name|[|[] zone|]|fields]; try (cbn; split; [by left|done]); try exact I.
  - cbn [resolve_value_encoder]. apply refused_part; [|done]. apply (refused_list _ item), self. done.
  - cbn [resolve_value_encoder]. case_bool_decide as Hs; [done|]. cbn. rewrite bool_decide_eq_false_2 by done. split; [by left|done].
  - cbn [resolve_value_encoder]. apply refused_part; [|done].
    induction fields as [|f fields IH]; [done|]. apply refused_part; [apply (refused_list _ f.2); [|apply self]|intros _; eapply (refused_list _ (DStruct fields)); [|exact IH]];
      intros part Hp; cbn [parts] in *; rewrite bind_cons; apply elem_of_app; tauto.
Qed.

Lemma resolve_declared_refused dt declared_type : refused dt (resolve_declared_encoder dt declared_type).
Proof. destruct dt as [| | | | | | | |[|[]|]|], declared_type as [[]|]; try apply resolve_value_refused; exact I. Qed.

Lemma resolve_fn_refused dt encoding declared_type : refused dt (resolve_encoder_fn dt encoding declared_type).
Proof. unfold resolve_encoder_fn. match goal with |- refused _ (match ?o with _ => _ end) => destruct o end; [done|apply resolve_declared_refused]. Qed.

Lemma resolve_refused : forall dt encoding declared_type members, refused dt (resolve_encoder dt encoding declared_type members).
Proof.
  fix self 1. intros [t|t| |z|item|item|k d|name|t|fields] enc decl members;
    try (cbn [resolve_encoder]; apply refused_part; [apply resolve_fn_refused|done]).
  - pose proof (self item) as Hi. cbn [resolve_encoder]. destruct item; try (apply refused_part; [apply resolve_fn_refused|done]).
    apply refused_part; [|done]. eapply refused_list; [|apply Hi]. done.
  - cbn [resolve_encoder]. apply refused_part; [|done].
    induction fields as [|f fields IH]; [done|]. apply refused_part; [apply (refused_list _ f.2); [|apply self]|intros e; apply refused_part; [eapply (refused_list _ (DStruct fields)); [|exact IH]|done]];
      intros part Hp; cbn [parts] in *; rewrite bind_cons; apply elem_of_app; tauto.
Qed.

(** C16: [Encoder::encode] with the encoder [resolve_encoder] answers for a column: for every row
    it appends what the catalog says the row's value reads as, whatever type the chunk
    stores the column at, and never panics: [null] for a null; a text escaped and quoted; an
    integer in decimal, or quoted where it is a bignum, or in as many hex digits as its
    declared width; a timestamp in its declared unit; bytes as hex or base58; a list and a
    struct with their parts, a struct's members under camelCase names and each as the
    catalog describes it. A column with a part that nothing renders is refused, by naming
    that part. *)
Theorem encode_spec a encoding declared_type members :
  array_ok a ->
  match resolve_encoder (array_type a) encoding declared_type members with
  | Ok e => forall row buf, (row < array_len a)%nat ->
      encode e a row buf = Ok (buf ++ column_text (array_type a) encoding declared_type members (cell_at a row))
  | Err part => part ∈ parts (array_type a) /\ resolve_value_encoder part = Err part
  | Panic => False
  end.
Proof.
  intros Hok. pose proof (resolve_refused (array_type a) encoding declared_type members) as Hr.
  destruct (resolve_encoder _ _ _ _) as [e|part|] eqn:He; [|exact Hr..]. intros row buf Hrow. by apply encode_ok.
Qed.

(** ** Rolls *)

(** What a roll of sources holds for a row: the values up to the first that is null, each
    as its column would render, a list that comes last spread into its elements. *)
Fixpoint roll_texts (batch : RecordBatch) (row : nat) (sources : list RollSource) : list (list Z) :=
  match sources with
  | [] => []
  | source :: sources =>
      match columns batch !! rs_column_index source with
      | Some (_, a) =>
          match cell_at a row, array_type a, sources with
          | CNull, _, _ => []
          | CList cs, DList item, [] => encoded_text item (rs_encoding source) None <$> cs
          | c, dt, _ => encoded_text dt (rs_encoding source) (rs_declared_type source) c :: roll_texts batch row sources
          end
      | None => []
      end
  end.

(** Texts after others, or first. *)
Definition joined (has_items : bool) (texts : list (list Z)) : list Z :=
  if has_items then concat ((fun t => comma :: t) <$> texts) else commas texts.

Lemma joined_nil has_items : joined has_items [] = [].
Proof. by destruct has_items. Qed.

Lemma joined_cons has_items t texts buf :
  (separate (negb has_items) buf ++ t) ++ joined true texts = buf ++ joined has_items (t :: texts).
Proof. destruct has_items; cbn [separate negb joined commas]; rewrite ?fmap_cons; cbn [concat]; by rewrite <- !app_assoc. Qed.

Lemma foldM_spliced {E} (g : nat -> list Z -> outcome E (list Z)) (t : nat -> list Z) (l : list nat) has_items buf :
  (forall i buf, i ∈ l -> g i buf = Ok (buf ++ t i)) ->
  exists last, foldM (fun '(buf, has_items) i => let* buf := g i (separate (negb has_items) buf) in Ok (buf, true)) l (buf, has_items) =
    Ok (buf ++ joined has_items (t <$> l), last).
Proof.
  revert has_items buf. induction l as [|i l IH]; intros has_items buf Hg; cbn [foldM].
  { exists has_items. rewrite fmap_nil, joined_nil. by rewrite app_nil_r. }
  rewrite Hg by left. cbn [obind]. destruct (IH true (separate (negb has_items) buf ++ t i)) as [last E']; [intros; apply Hg; by right|].
  exists last. by rewrite E', joined_cons.
Qed.

Lemma resolved_column batch source is_last c :
  resolve_roll_column batch source is_last = Ok c ->
  exists name a, columns batch !! rs_column_index source = Some (name, a) /\
    ((exists item f, array_type a = DList item /\ is_last = true /\ resolve_encoder_fn item (rs_encoding source) None = Ok f /\
        c = RollSplice (rs_column_index source) f) \/
     (exists f, (forall item, array_type a = DList item -> is_last = false) /\
        resolve_encoder_fn (array_type a) (rs_encoding source) (rs_declared_type source) = Ok f /\ c = RollValue (rs_column_index source) f)).
Proof.
  unfold resolve_roll_column. destruct (columns batch !! rs_column_index source) as [[name a]|] eqn:Hc; cbn [expect obind]; [|done].
  intros H'. exists name, a. split; [done|]. cbn [snd] in H'.
  destruct (array_type a) as [| | | |item| | | | |] eqn:Ht, is_last;
    try (right; match type of H' with obind ?r _ = _ => destruct r as [f| |] eqn:Hf; [|done..] end; injection H' as <-; exists f; by split).
  left. match type of H' with obind ?r _ = _ => destruct r as [f| |] eqn:Hf; [|done..] end. injection H' as <-. by exists item, f.
Qed.

Lemma cell_not_null a row encoding declared_type f :
  resolve_encoder_fn (array_type a) encoding declared_type = Ok f -> is_null a row = false -> cell_at a row <> CNull.
Proof.
  intros Hf Hn. destruct a; cbn [cell_at]; rewrite Hn; try done.
  by destruct encoding as [[]|].
Qed.

Lemma roll_texts_value batch row source sources name a :
  columns batch !! rs_column_index source = Some (name, a) -> cell_at a row <> CNull -> (forall item, array_type a = DList item -> sources <> []) ->
  roll_texts batch row (source :: sources) =
    encoded_text (array_type a) (rs_encoding source) (rs_declared_type source) (cell_at a row) :: roll_texts batch row sources.
Proof.
  intros Hc Hn Hl. cbn [roll_texts]. rewrite Hc. destruct (cell_at a row); try done; destruct (array_type a); try done.
  destruct sources; [|done]. by edestruct Hl.
Qed.

Lemma roll_texts_null batch row source sources name a :
  columns batch !! rs_column_index source = Some (name, a) -> is_null a row = true -> roll_texts batch row (source :: sources) = [].
Proof. intros Hc Hn. cbn [roll_texts]. by rewrite Hc, cell_null. Qed.

Lemma encode_roll_ok batch row : batch_ok batch -> (row < num_rows batch)%nat -> forall sources roll has_items buf,
  resolve_roll batch sources = Ok roll -> encode_roll_columns roll batch row has_items buf = Ok (buf ++ joined has_items (roll_texts batch row sources)).
Proof.
  intros Hok Hrow. induction sources as [|source sources IH]; intros roll has_items buf Hr; cbn [resolve_roll] in Hr.
  { injection Hr as <-. cbn [encode_roll_columns roll_texts]. rewrite joined_nil. by rewrite app_nil_r. }
  destruct (resolve_roll_column batch source _) as [c| |] eqn:Hc in Hr; [|done..]. cbn [obind] in Hr.
  destruct (resolve_roll batch sources) as [rest| |]; [|done..]. injection Hr as <-. specialize (IH rest). cbn [obind] in IH.
  apply resolved_column in Hc as (name & a & Hc & Hcase).
  assert (Ha : array_ok a /\ array_len a = num_rows batch).
  { unfold batch_ok in Hok. rewrite Forall_lookup in Hok. apply (Hok _ _ Hc). }
  destruct Ha as [Ha Hlen], Hcase as [(item & f & Ht & Hlast & Hf & ->)|(f & Hlast & Hf & ->)]; cbn [encode_roll_columns];
    rewrite Hc; cbn [expect obind snd]; (destruct (is_null a row) eqn:Hn; [erewrite roll_texts_null by done; by rewrite joined_nil, app_nil_r|]).
  - destruct sources; [|done]. destruct a as [| | | |offsets values nulls| | | | |]; try done. injection Ht as <-.
    assert (Hrow' : (row < array_len (AList offsets values nulls))%nat) by lia.
    destruct (foldM_spliced (encode_value values f) (fun i => encoded_text (array_type values) (rs_encoding source) None (cell_at values i))
      (seq (offset_at offsets row) (offset_at offsets (S row) - offset_at offsets row)) has_items buf) as [last E].
    { intros i b [Hi1 Hi2]%elem_of_seq. apply encode_resolved; [apply Ha|done|eapply offset_below; [done..|lia]]. }
    rewrite E. cbn [obind]. rewrite IH by done. cbn [roll_texts]. rewrite joined_nil, app_nil_r, Hc. cbn [cell_at array_type]. rewrite Hn.
    by rewrite <- list_fmap_compose.
  - rewrite (encode_resolved a _ _ f) by (done || lia). cbn [obind]. rewrite IH by done.
    rewrite (roll_texts_value _ _ _ _ name a); [by rewrite joined_cons|done|by eapply cell_not_null|].
    intros item Ht. specialize (Hlast _ Ht). by destruct sources.
Qed.

Lemma resolve_roll_column_refused batch source is_last name a :
  columns batch !! rs_column_index source = Some (name, a) -> refused (array_type a) (resolve_roll_column batch source is_last).
Proof.
  intros Hc. unfold resolve_roll_column. rewrite Hc. cbn [expect obind snd].
  destruct (array_type a) as [| | | |item| | | | |], is_last; try (apply refused_part; [apply resolve_fn_refused|done]).
  apply refused_part; [|done]. by apply (refused_list _ item), resolve_fn_refused.
Qed.

Lemma resolve_roll_refused batch sources :
  Forall (fun s => (rs_column_index s < length (columns batch))%nat) sources ->
  match resolve_roll batch sources with
  | Ok _ => True
  | Err part => exists s name a, s ∈ sources /\ columns batch !! rs_column_index s = Some (name, a) /\ part ∈ parts (array_type a) /\ resolve_value_encoder part = Err part
  | Panic => False
  end.
Proof.
  induction 1 as [|s sources Hs _ IH]; cbn [resolve_roll]; [done|].
  destruct (lookup_lt_is_Some_2 _ _ Hs) as [[name a] Hc].
  match goal with |- context [resolve_roll_column batch s ?l] => pose proof (resolve_roll_column_refused batch s l name a Hc) as Hr; destruct (resolve_roll_column batch s l) end;
    cbn [obind]; [| |done].
  - destruct (resolve_roll batch sources) as [|part|]; cbn [obind]; [done| |done].
    destruct IH as (s' & n' & a' & ? & ?). exists s', n', a'. split; [by right|done].
  - exists s, name, a. split; [by left|done].
Qed.

Lemma encode_resolved_roll_ok batch sources roll row buf :
  batch_ok batch -> resolve_roll batch sources = Ok roll -> (row < num_rows batch)%nat ->
  encode_resolved_roll roll batch row buf = Ok (buf ++ enclose 91 93 (roll_texts batch row sources)).
Proof.
  intros Hok He Hrow. unfold encode_resolved_roll. rewrite (encode_roll_ok batch row Hok Hrow sources) by done.
  cbn [obind joined]. unfold enclose. by rewrite <- !app_assoc.
Qed.

(** [ResolvedRollEncoder]: for every row of a batch it appends an array of the sources'
    values in their order, up to the first that is null, each as its column would render on
    its own, a list that is the last source spread into its elements. It never panics on
    the batch it was resolved against; a source of which nothing renders a part is refused,
    by naming that part. *)
Theorem encode_roll_spec batch sources :
  batch_ok batch -> Forall (fun s => (rs_column_index s < length (columns batch))%nat) sources ->
  match resolve_roll batch sources with
  | Ok roll => forall row buf, (row < num_rows batch)%nat ->
      encode_resolved_roll roll batch row buf = Ok (buf ++ enclose 91 93 (roll_texts batch row sources))
  | Err part => exists s name a, s ∈ sources /\ columns batch !! rs_column_index s = Some (name, a) /\
      part ∈ parts (array_type a) /\ resolve_value_encoder part = Err part
  | Panic => False
  end.
Proof.
  intros Hok Hs. pose proof (resolve_roll_refused batch sources Hs) as Hr.
  destruct (resolve_roll batch sources) as [roll|part|] eqn:He; [|exact Hr..]. intros row buf Hrow.
  by apply encode_resolved_roll_ok.
Qed.
End spec.

(** ** An implementation of the formats *)

Module JsonFormatInstances.

(** A text as serde_json escapes it, for the bytes that are escaped. *)
Definition escape (b : Z) : list Z :=
  if b =? 34 then text_bytes "\" ++ [34] else if b =? 92 then text_bytes "\\"
  else if b =? 10 then text_bytes "\n" else if b =? 13 then text_bytes "\r" else if b =? 9 then text_bytes "\t"
  else if b <? 0x20 then text_bytes "\u00" ++ [48 + b / 16; if b mod 16 <? 10 then 48 + b mod 16 else 87 + b mod 16]
  else [b].

(** Floats are not rendered here as ryu does: a float's bits, in decimal. *)
#[export] Instance json_formats : JsonFormats := {
  format_int := print_int;
  format_float := print_int;
  serialize_str s := [quote] ++ (s ≫= escape) ++ [quote];
}.

#[export] Instance json_formats_laws : JsonFormatsLaws json_formats.
Proof.
  split; [done|]. intros s Hs. cbn. do 2 f_equal. induction s as [|b s IH]; [done|]. cbn [existsb] in Hs. apply orb_false_iff in Hs as [Hb Hs].
  rewrite bind_cons, IH by done. unfold escaped_byte in Hb. rewrite !orb_false_iff in Hb. destruct Hb as [[H1 H2] H3]. unfold escape. rewrite H2, H3.
  apply Z.ltb_ge in H1. destruct (Z.eqb_spec b 10), (Z.eqb_spec b 13), (Z.eqb_spec b 9), (Z.ltb_spec b 32); try lia. done.
Qed.
End JsonFormatInstances.

Section demo.
Import HexInstances JsonFormatInstances.

(** Instructions in lists: a fee rendered as a bignum, a program in base58, when, with a null among
    them, and a path. *)
Definition demo_rewards : array :=
  AStruct [
    ("priority_fee", AInt UInt16 [7; 500; 0] None);
    ("program_id", AOther "Binary" [[0; 1]; [255]; []] (Some [true; true; false]));
    ("sent_at", APrim (Timestamp Millisecond None) [1999; 2000; 0] None);
    ("note", AText Utf8 ["plain"; String.String (Ascii.ascii_of_nat 10) "!"; "-"]%string None);
    ("path", AList [0; 2; 2; 3] (AInt UInt32 [1; 2; 30] (Some [true; false; true])) None)] 3 (Some [true; true; false]).
Definition demo_lists : array := AList [0; 2; 3; 3] demo_rewards None.
Definition demo_members : list (string * MemberDescription) :=
  [("priority_fee"%string, Member (Some DecimalString) None); ("program_id"%string, Member (Some Base58) None)].

Lemma demo_lists_ok : array_ok demo_lists.
Proof.
  repeat (split || constructor || (cbn; lia)); cbn; try lia; try done.
Qed.

(** A text with its apostrophes for quotes. *)
Definition json (s : string) : list Z := (fun b => if b =? 39 then quote else b) <$> text_bytes s.

Example demo_lists_text :
  (fun row => match resolve_encoder (array_type demo_lists) None None (Some demo_members) with
   | Ok e => encode e demo_lists row []
   | _ => Panic
   end) <$> [0; 1; 2]%nat =
  (fun s => Ok (json s)) <$> [
    "[{'priorityFee':'7','programId':'12','sentAt':1,'note':'plain','path':[1,null]},{'priorityFee':'500','programId':'5Q','sentAt':2,'note':'\n!','path':[]}]";
    "[null]"; "[]"]%string.
Proof. vm_compute. reflexivity. Qed.

(** Witness of [encode_spec]: the lists are written as the members say. *)
Lemma encode_spec_witness :
  array_ok demo_lists /\
  match resolve_encoder (array_type demo_lists) None None (Some demo_members) with
  | Ok e => forall row buf, (row < 3)%nat -> encode e demo_lists row buf = Ok (buf ++ column_text (array_type demo_lists) None None (Some demo_members) (cell_at demo_lists row))
  | _ => False
  end.
Proof.
  split; [exact demo_lists_ok|]. pose proof (encode_spec demo_lists None None (Some demo_members) demo_lists_ok) as Hs.
  assert (Hr : match resolve_encoder (array_type demo_lists) None None (Some demo_members) with Ok _ => True | _ => False end) by (vm_compute; exact I).
  destruct (resolve_encoder _ _ _ _) as [e|part|]; [exact Hs|destruct Hr..].
Defined.

(** Accounts of an instruction rolled into one array: two columns and the rest of them. *)
Definition demo_rolled : RecordBatch := {|
  columns := [("a0", AText Utf8 ["x"; "y"; "z"] None); ("a1", AText Utf8 ["p"; "-"; "q"] (Some [true; false; true]));
              ("rest", AList [0; 2; 2; 2] (AText Utf8 ["r"; "s"] None) None)]%string;
  num_rows := 3 |}.
Definition demo_sources : list RollSource :=
  [{| rs_column_index := 0; rs_encoding := Some Base58; rs_declared_type := None |};
   {| rs_column_index := 1; rs_encoding := Some Base58; rs_declared_type := None |};
   {| rs_column_index := 2; rs_encoding := Some Base58; rs_declared_type := None |}].

Lemma demo_rolled_ok : batch_ok demo_rolled.
Proof. repeat (split || constructor || (cbn; lia)); cbn; try lia; try done. Qed.

Example demo_rolled_text :
  (fun row => match resolve_roll demo_rolled demo_sources with Ok roll => encode_resolved_roll roll demo_rolled row [] | _ => Panic end) <$> [0; 1; 2]%nat =
  (fun s => Ok (json s)) <$> ["['x','p','r','s']"; "['y']"; "['z','q']"]%string.
Proof. vm_compute. reflexivity. Qed.

(** Witness of [encode_roll_spec]. *)
Lemma encode_roll_spec_witness :
  batch_ok demo_rolled /\ Forall (fun s => (rs_column_index s < length (columns demo_rolled))%nat) demo_sources /\
  match resolve_roll demo_rolled demo_sources with
  | Ok roll => forall row buf, (row < 3)%nat -> encode_resolved_roll roll demo_rolled row buf = Ok (buf ++ enclose 91 93 (roll_texts demo_rolled row demo_sources))
  | _ => False
  end.
Proof.
  assert (Hs : Forall (fun s => (rs_column_index s < length (columns demo_rolled))%nat) demo_sources) by (repeat constructor; cbn; lia).
  split; [exact demo_rolled_ok|]. split; [exact Hs|]. pose proof (encode_roll_spec demo_rolled demo_sources demo_rolled_ok Hs) as H'.
  assert (Hr : match resolve_roll demo_rolled demo_sources with Ok _ => True | _ => False end) by (vm_compute; exact I).
  destruct (resolve_roll _ _) as [roll|part|]; [exact H'|destruct Hr..].
Defined.
End demo.
