(* ===== verification/Json.v ===== *)
(** JSON values as the request parser receives them: [serde_json::Value], with
    an object's fields in the order they were written (the crate's
    [preserve_order] feature), each name once. *)
From stdpp Require Import base strings list.
From Stdlib Require Import ZArith.
From S2P Require Import Prelude Arrow.

Inductive json :=
  | JNull
  | JBool (b : bool)
  | JNumber (n : json_number)
  | JString (s : string)
  | JArray (items : list json)
  | JObject (fields : list (string * json))
with json_number :=
  | JU64 (z : Z)
  | JI64 (z : Z)
  | JF64 (text : string).

(** [Value::is_null], [as_object], [as_array], [as_str], [as_bool], [as_u64]. *)
Definition is_null_value (v : json) : bool := match v with JNull => true | _ => false end.
Definition as_object (v : json) : option (list (string * json)) :=
  match v with JObject fields => Some fields | _ => None end.
Definition as_array (v : json) : option (list json) := match v with JArray items => Some items | _ => None end.
Definition as_str_value (v : json) : option string := match v with JString s => Some s | _ => None end.
Definition as_bool_value (v : json) : option bool := match v with JBool b => Some b | _ => None end.
Definition as_u64_value (v : json) : option Z := match v with JNumber (JU64 z) => Some z | _ => None end.

(** [Map::get]. *)
Definition get_field (fields : list (string * json)) (name : string) : option json := assoc name fields.

(** A number as serde_json reads one: an unsigned integer, a negative one, or another. *)
Definition number_ok (n : json_number) : Prop :=
  match n with JU64 z => (0 <= z < 2 ^ 64)%Z | JI64 z => (- 2 ^ 63 <= z < 0)%Z | JF64 _ => True end.

(** Throughout a value, numbers are in range, and texts as long as a request's may be. *)
Fixpoint json_ok (v : json) : Prop :=
  match v with
  | JNumber n => number_ok n
  | JString s => (Z.of_nat (String.length s) < 2 ^ 31)%Z
  | JArray items => (fix all items := match items with [] => True | v :: items => json_ok v /\ all items end) items
  | JObject fields => (fix all fields := match fields with [] => True | (_, v) :: fields => json_ok v /\ all fields end) fields
  | _ => True
  end.

Lemma json_ok_array items : json_ok (JArray items) <-> Forall json_ok items.
Proof. induction items as [|v items IH]; cbn in *; [by split|]. by rewrite Forall_cons, IH. Qed.

Lemma json_ok_object fields : json_ok (JObject fields) <-> Forall (fun f => json_ok f.2) fields.
Proof. induction fields as [|[k v] fields IH]; cbn in *; [by split|]. by rewrite Forall_cons, IH. Qed.

Lemma json_ok_get fields name v : json_ok (JObject fields) -> get_field fields name = Some v -> json_ok v.
Proof.
  rewrite json_ok_object, Forall_forall. intros H E. apply (H (name, v)). revert E. unfold get_field. clear.
  induction fields as [|[n x] fields IH]; cbn; [done|]. case_decide; [intros [= ->]; subst; by left|]. intros E. right. auto.
Qed.
