(* ===== verification/Sets.v ===== *)
(** Sets (src/sets.rs): the binary fuse filters a request declares, checked sound
    when they are read, and the lookup of a value in one. *)
From stdpp Require Import base strings list.
From Stdlib Require Import ZArith Lia.
From S2P Require Import Prelude Machine Errors Arrow Counting Json.

#[local] Open Scope Z_scope.

(** The hash functions the engine calls: [xxh3_64] of bytes, and the streaming
    hasher built with a seed, of the bytes it was given. *)
Class Xxh3 := {
  xxh3_64 : list Z -> Z;
  xxh3_seeded : Z -> list Z -> Z;
}.

Class Xxh3Laws (H : Xxh3) : Prop := {
  xxh3_64_range : forall bytes, is_u64 (xxh3_64 bytes);
  xxh3_seeded_range : forall seed bytes, is_u64 (xxh3_seeded seed bytes);
}.

(** [BASE64.decode]. *)
Class Base64 := base64_decode : string -> option (list Z).

(** [src/src/sets.rs:19-21] MAX_SET_CANARIES. *)
Definition MAX_SET_CANARIES : nat := 64.

(** [src/src/sets.rs:23-27] MAX_SET_REFERENCES. *)
Definition MAX_SET_REFERENCES : nat := 64.

(** ** A binary fuse filter *)

(** [src/src/sets.rs:41-52] Fuse8. *)
Record Fuse8 := {
  f8_seed : Z;
  f8_segment_length : Z;
  f8_segment_mask : Z;
  f8_segment_count_length : Z;
  f8_fingerprints : list Z;
  f8_digest : Z;
}.

(** [src/src/sets.rs:54-56] HEADER_BYTES. *)
Definition HEADER_BYTES : nat := 20.

(** [src/src/sets.rs:58-60] MAX_SEGMENT_LENGTH. *)
Definition MAX_SEGMENT_LENGTH : Z := Z.shiftl 1 18.

(** [u64::is_power_of_two]. *)
Definition is_power_of_two (x : Z) : bool := (0 <? x) && (Z.land x (x - 1) =? 0).

(** [src/src/sets.rs:140-148] mix. *)
Definition mix (x : Z) : Z :=
  let x := Z.lxor x (Z.shiftr x 33) in
  let x := as_u64 (x * 18397679294719823053) in
  let x := Z.lxor x (Z.shiftr x 33) in
  let x := as_u64 (x * 14181476777654086739) in
  Z.lxor x (Z.shiftr x 33).

Section sets.
Context `{X : Xxh3} `{B : Base64}.

(** [src/src/sets.rs:63-102] Fuse8::from_bytes: the text of a refusal is not modelled. *)
Definition from_bytes (bytes : list Z) : option Fuse8 :=
  if (length bytes <? HEADER_BYTES)%nat then None else
  let header := take HEADER_BYTES bytes in
  let fingerprints := drop HEADER_BYTES bytes in
  let word at_ := from_le_bytes (slice header at_ (at_ + 4)) in
  let seed := from_le_bytes (take 8 header) in
  let length_ := word 8%nat in
  let mask := word 12%nat in
  let count_length := word 16%nat in
  let sound := is_power_of_two length_ && (length_ <=? MAX_SEGMENT_LENGTH) && (mask =? length_ - 1) &&
    (0 <? count_length) && (count_length mod length_ =? 0) &&
    (count_length + 2 * length_ <=? Z.of_nat (length fingerprints)) in
  if negb sound then None else
  Some {| f8_seed := seed; f8_segment_length := length_; f8_segment_mask := mask;
          f8_segment_count_length := count_length; f8_fingerprints := fingerprints; f8_digest := xxh3_64 bytes |}.

(** [src/src/sets.rs:104-119] Fuse8::contains. *)
Definition fuse8_contains {E} (self : Fuse8) (value : list Z) : outcome E bool :=
  let hash := mix (as_u64 (xxh3_64 value + f8_seed self)) in
  let fingerprint := as_unsigned 8 (Z.lxor hash (Z.shiftr hash 32)) in
  let i0 := as_u64 (Z.shiftr (hash * f8_segment_count_length self) 64) in
  let i1 := Z.lxor (as_u64 (i0 + f8_segment_length self)) (Z.land (Z.shiftr hash 18) (f8_segment_mask self)) in
  let i2 := Z.lxor (as_u64 (i0 + as_u64 (2 * f8_segment_length self))) (Z.land hash (f8_segment_mask self)) in
  let* f0 := vec_get (f8_fingerprints self) (Z.to_nat i0) in
  let* f1 := vec_get (f8_fingerprints self) (Z.to_nat i1) in
  let* f2 := vec_get (f8_fingerprints self) (Z.to_nat i2) in
  Ok (Z.lxor (Z.lxor (Z.lxor fingerprint f0) f1) f2 =? 0).

(** ** The sets a request declares *)

(** [src/src/sets.rs:32-39] Set. *)
Record DeclaredSet := { ds_fuse8 : Fuse8; ds_canaries : list string }.

(** [src/src/sets.rs:175-219] parse_set: the text of a refusal is not modelled. *)
Definition parse_set (value : json) : option DeclaredSet :=
  object ← as_object value;
  if negb (forallb (fun key => bool_decide (key = "fuse8"%string \/ key = "canaries"%string)) object.*1) then None else
  encoded ← (get_field object "fuse8" ≫= as_str_value);
  bytes ← base64_decode encoded;
  fuse8 ← from_bytes bytes;
  items ← (get_field object "canaries" ≫= as_array);
  canaries ← mapM as_str_value items;
  if negb ((1 <=? length canaries)%nat && (length canaries <=? MAX_SET_CANARIES)%nat) then None else
  Some {| ds_fuse8 := fuse8; ds_canaries := canaries |}.

(** [src/src/sets.rs:150-173] parse_sets. *)
Definition parse_sets (value : option json) : result (list (string * DeclaredSet)) :=
  match (value ≫= (fun value => if is_null_value value then None else Some value)) with
  | None => Ok []
  | Some value =>
      let* declared := ok_or (as_object value) (EngineError MalformedRequest) in
      mapM_ok (fun field : string * json =>
        let* set := ok_or (parse_set field.2) (EngineError InvalidSet) in Ok (field.1, set)) declared
  end.
End sets.

(** ** Lookups stay within the fingerprints *)

(** What [from_bytes] checks. *)
Definition fuse8_sound (f : Fuse8) : Prop :=
  exists k, 0 <= k <= 18 /\ f8_segment_length f = 2 ^ k /\ f8_segment_mask f = 2 ^ k - 1 /\
    0 < f8_segment_count_length f < 2 ^ 32 /\ (2 ^ k | f8_segment_count_length f) /\
    f8_segment_count_length f + 2 * 2 ^ k <= Z.of_nat (length (f8_fingerprints f)).

Lemma is_power_of_two_spec x : is_power_of_two x = true -> exists k, 0 <= k /\ x = 2 ^ k.
Proof.
  unfold is_power_of_two. rewrite andb_true_iff, Z.ltb_lt, Z.eqb_eq. intros [Hx Hland].
  exists (Z.log2 x). split; [apply Z.log2_nonneg|]. pose proof (Z.log2_spec x Hx) as [Hlo Hhi].
  destruct (Z.eq_dec x (2 ^ Z.log2 x)) as [|Hne]; [done|exfalso].
  assert (Hlog : Z.log2 (x - 1) = Z.log2 x) by (apply Z.log2_unique; [apply Z.log2_nonneg|lia]).
  assert (Hbit : Z.testbit (Z.land x (x - 1)) (Z.log2 x) = true).
  { rewrite Z.land_spec, Z.bit_log2 by done. rewrite <- Hlog at 1. apply Z.bit_log2. pose proof (Z.pow_pos_nonneg 2 (Z.log2 x) ltac:(lia) (Z.log2_nonneg x)). lia. }
  rewrite Hland in Hbit. by rewrite Z.bits_0 in Hbit.
Qed.

(** Flipping bits below [k] stays in the block of [2 ^ k]. *)
Lemma lxor_block k a b : 0 <= k -> 0 <= a -> 0 <= b < 2 ^ k -> 0 <= Z.lxor a b < (a / 2 ^ k + 1) * 2 ^ k.
Proof.
  intros Hk Ha Hb. split; [apply Z.lxor_nonneg; lia|].
  assert (E : Z.lxor a b / 2 ^ k = a / 2 ^ k).
  { rewrite <- !Z.shiftr_div_pow2, Z.shiftr_lxor, (Z.shiftr_div_pow2 b), (Z.div_small b) by lia. apply Z.lxor_0_r. }
  pose proof (Z.mul_succ_div_gt (Z.lxor a b) (2 ^ k) ltac:(lia)). rewrite E in *. lia.
Qed.

Lemma land_mask k x : 0 <= k -> 0 <= Z.land x (2 ^ k - 1) < 2 ^ k.
Proof.
  intros Hk. replace (2 ^ k - 1) with (Z.ones k) by (rewrite Z.ones_equiv; lia).
  rewrite Z.land_ones by done. apply Z.mod_pos_bound. lia.
Qed.

Lemma lxor_u64 x y : is_u64 x -> is_u64 y -> is_u64 (Z.lxor x y).
Proof.
  unfold is_u64. intros Hx Hy. pose proof (lxor_block 64 x y ltac:(lia) ltac:(lia) Hy) as H.
  rewrite (Z.div_small x) in H by done. lia.
Qed.

Lemma mix_u64 x : is_u64 x -> is_u64 (mix x).
Proof.
  assert (Hs : forall y, is_u64 y -> is_u64 (Z.lxor y (Z.shiftr y 33))).
  { intros y Hy. apply lxor_u64; [done|]. unfold is_u64 in *. rewrite Z.shiftr_div_pow2 by lia.
    split; [apply Z.div_pos; lia|]. apply Z.div_lt_upper_bound; lia. }
  intros _. unfold mix. cbn zeta. apply Hs. apply as_unsigned_range. lia.
Qed.

(** Where each of a lookup's three reads falls. *)
Lemma fuse8_indices k hash n : 0 <= k <= 18 -> is_u64 hash -> 0 < n < 2 ^ 32 -> (2 ^ k | n) ->
  let i0 := as_u64 (Z.shiftr (hash * n) 64) in
  0 <= i0 < n /\
  0 <= Z.lxor (as_u64 (i0 + 2 ^ k)) (Z.land (Z.shiftr hash 18) (2 ^ k - 1)) < n + 2 ^ k /\
  0 <= Z.lxor (as_u64 (i0 + as_u64 (2 * 2 ^ k))) (Z.land hash (2 ^ k - 1)) < n + 2 * 2 ^ k.
Proof.
  unfold is_u64. intros Hk Hh Hn [q Hq]. cbn zeta.
  assert (Hp : 0 < 2 ^ k <= 2 ^ 18) by (split; [lia|apply Z.pow_le_mono_r; lia]).
  assert (E0 : as_u64 (Z.shiftr (hash * n) 64) = hash * n / 2 ^ 64 /\ 0 <= hash * n / 2 ^ 64 < n).
  { rewrite Z.shiftr_div_pow2 by lia.
    assert (0 <= hash * n / 2 ^ 64 < n) by (split; [apply Z.div_pos; nia|apply Z.div_lt_upper_bound; nia]).
    split; [apply as_unsigned_id; lia|done]. }
  destruct E0 as [-> Hi]. set (i := hash * n / 2 ^ 64) in *. unfold as_u64.
  rewrite (as_unsigned_id 64 (2 * 2 ^ k)), !as_unsigned_id by lia.
  assert (Hblock : forall c, 0 <= c -> forall x, 0 <= x < 2 ^ k -> 0 <= Z.lxor (i + c * 2 ^ k) x < n + c * 2 ^ k).
  { intros c Hc x Hx. pose proof (lxor_block k (i + c * 2 ^ k) x ltac:(lia) ltac:(nia) Hx) as H.
    rewrite Z.div_add in H by lia.
    assert (i / 2 ^ k < q) by (apply Z.div_lt_upper_bound; lia). nia. }
  split_and!; try lia.
  - pose proof (Hblock 1 ltac:(lia) _ (land_mask k (Z.shiftr hash 18) ltac:(lia))). rewrite Z.mul_1_l in *. lia.
  - pose proof (Hblock 1 ltac:(lia) _ (land_mask k (Z.shiftr hash 18) ltac:(lia))). rewrite Z.mul_1_l in *. lia.
  - pose proof (Hblock 2 ltac:(lia) _ (land_mask k hash ltac:(lia))). lia.
  - pose proof (Hblock 2 ltac:(lia) _ (land_mask k hash ltac:(lia))). lia.
Qed.

Lemma from_le_bytes_range bytes : Forall (fun b => 0 <= b < 256) bytes ->
  0 <= from_le_bytes bytes < 256 ^ Z.of_nat (length bytes).
Proof.
  induction 1 as [|b bytes Hb _ IH]; cbn [from_le_bytes length]; [done|].
  rewrite Nat2Z.inj_succ, Z.pow_succ_r by lia. lia.
Qed.

Lemma word_range header at_ : Forall (fun b => 0 <= b < 256) header -> 0 <= from_le_bytes (slice header at_ (at_ + 4)) < 2 ^ 32.
Proof.
  intros H. assert (Hs : Forall (fun b => 0 <= b < 256) (slice header at_ (at_ + 4))).
  { unfold slice. by apply Forall_take, Forall_drop. }
  pose proof (from_le_bytes_range _ Hs) as R.
  assert (256 ^ Z.of_nat (length (slice header at_ (at_ + 4))) <= 256 ^ 4); [|lia].
  apply Z.pow_le_mono_r; [lia|]. unfold slice. rewrite length_take. lia.
Qed.

Section proofs.
Context {X : Xxh3} {B : Base64}.

Lemma from_bytes_sound bytes f : Forall (fun b => 0 <= b < 256) bytes -> from_bytes bytes = Some f -> fuse8_sound f.
Proof.
  intros Hb. unfold from_bytes. destruct (Nat.ltb_spec (length bytes) HEADER_BYTES); [done|].
  set (header := take HEADER_BYTES bytes). assert (Hh : Forall (fun b => 0 <= b < 256) header) by by apply Forall_take.
  pose proof (word_range header 16 Hh) as Rn. cbn zeta.
  destruct (_ && _) eqn:E; cbn [negb]; [|done]. intros [= <-].
  rewrite !andb_true_iff in E. destruct E as (((((Hpow & Hmax) & Hmask) & Hpos) & Hdiv) & Hlen).
  apply is_power_of_two_spec in Hpow as (k & Hk & Ek). rewrite Ek in *.
  apply Z.leb_le in Hmax. apply Z.eqb_eq in Hmask, Hdiv. apply Z.ltb_lt in Hpos. apply Z.leb_le in Hlen.
  exists k. cbn [f8_segment_length f8_segment_mask f8_segment_count_length f8_fingerprints].
  split; [split; [done|]; by apply (Z.pow_le_mono_r_iff 2 k 18)|].
  split; [done|]. split; [done|]. split; [exact (conj Hpos (proj2 Rn))|]. split; [|done].
  apply Z.mod_divide; [|done]. pose proof (Z.pow_pos_nonneg 2 k ltac:(lia) Hk). lia.
Qed.

Lemma fuse8_sound_contains {HX : Xxh3Laws X} {E} f value : fuse8_sound f -> exists found, fuse8_contains (E:=E) f value = Ok found.
Proof.
  intros (k & Hk & EL & EM & HN & Hdiv & Hlen). unfold fuse8_contains. rewrite EL, EM.
  set (hash := mix (as_u64 (xxh3_64 value + f8_seed f))).
  assert (Hhash : is_u64 hash) by (apply mix_u64, as_unsigned_range; lia).
  destruct (fuse8_indices k hash _ Hk Hhash HN Hdiv) as (H0 & H1 & H2).
  assert (Hget : forall i, 0 <= i < f8_segment_count_length f + 2 * 2 ^ k ->
    exists x, vec_get (E:=E) (f8_fingerprints f) (Z.to_nat i) = Ok x).
  { intros i Hi. destruct (lookup_lt_is_Some_2 (f8_fingerprints f) (Z.to_nat i) ltac:(lia)) as [x Hx].
    exists x. by apply vec_get_ok. }
  assert (0 < 2 ^ k) by (apply Z.pow_pos_nonneg; lia).
  edestruct Hget as [x Ex]; [split; [apply H0|eapply Z.lt_trans; [apply H0|lia]]|].
  edestruct Hget as [y Ey]; [split; [apply H1|eapply Z.lt_trans; [apply H1|lia]]|].
  edestruct Hget as [z Ez]; [exact H2|]. rewrite Ex, Ey, Ez. by eexists.
Qed.

(** C31: No lookup in a filter the engine accepted reads past its fingerprints,
    whatever bytes the client sent and whatever value is looked up. *)
Theorem fuse8_contains_in_bounds {HX : Xxh3Laws X} bytes f value :
  Forall (fun b => 0 <= b < 256) bytes -> from_bytes bytes = Some f ->
  exists found, fuse8_contains (E:=error) f value = Ok found.
Proof. intros Hb Hf. by apply fuse8_sound_contains, (from_bytes_sound bytes). Qed.

(** What a declaration of a set says. *)
Definition declares (value : json) (s : DeclaredSet) : Prop :=
  exists object text bytes, value = JObject object /\
    (forall key, key ∈ object.*1 -> key = "fuse8"%string \/ key = "canaries"%string) /\
    get_field object "fuse8" = Some (JString text) /\ base64_decode text = Some bytes /\
    from_bytes bytes = Some (ds_fuse8 s) /\
    get_field object "canaries" = Some (JArray (JString <$> ds_canaries s)) /\
    (1 <= length (ds_canaries s) <= MAX_SET_CANARIES)%nat.

Lemma strings_spec items texts : mapM (M:=option) as_str_value items = Some texts <-> items = JString <$> texts.
Proof.
  rewrite mapM_Some. split.
  - induction 1 as [|v s items texts Hv _ IH]; [done|]. rewrite fmap_cons, <- IH. by destruct v; try done; injection Hv as ->.
  - intros ->. induction texts; constructor; done.
Qed.

Lemma parse_set_spec value s : parse_set value = Some s <-> declares value s.
Proof.
  unfold parse_set, declares. split.
  - destruct value as [| | | | |object]; try done. cbn [as_object mbind option_bind].
    destruct (forallb _ object.*1) eqn:Ek; cbn [negb]; [|done].
    destruct (get_field object "fuse8") as [f|] eqn:Ef; cbn [mbind option_bind]; [|done].
    destruct f as [| | |text| |]; cbn [as_str_value mbind option_bind]; try done.
    destruct (base64_decode text) as [bytes|] eqn:Eb; cbn [mbind option_bind]; [|done].
    destruct (from_bytes bytes) as [fuse8|] eqn:E8; cbn [mbind option_bind]; [|done].
    destruct (get_field object "canaries") as [c|] eqn:Ec; cbn [mbind option_bind]; [|done].
    destruct c as [| | | |items|]; cbn [as_array mbind option_bind]; try done.
    destruct (mapM as_str_value items) as [texts|] eqn:Et; cbn [mbind option_bind]; [|done].
    apply strings_spec in Et as ->. destruct (_ && _) eqn:El; cbn [negb]; [|done]. intros [= <-].
    apply andb_true_iff in El as [L1%Nat.leb_le L2%Nat.leb_le].
    exists object, text, bytes. split_and!; try done.
    intros key Hk. rewrite forallb_forall in Ek. specialize (Ek key ltac:(by apply list_elem_of_In)).
    by apply bool_decide_eq_true in Ek.
  - intros (object & text & bytes & -> & Hk & Ef & Eb & E8 & Ec & L1 & L2). cbn [as_object mbind option_bind].
    assert (forallb (fun key => bool_decide (key = "fuse8"%string \/ key = "canaries"%string)) object.*1 = true) as ->.
    { apply forallb_forall. intros key Hin%list_elem_of_In. by apply bool_decide_eq_true, Hk. }
    cbn [negb]. rewrite Ef. cbn [mbind option_bind as_str_value]. rewrite Eb. cbn [mbind option_bind].
    rewrite E8. cbn [mbind option_bind]. rewrite Ec. cbn [mbind option_bind as_array].
    rewrite (proj2 (strings_spec _ (ds_canaries s)) eq_refl). cbn [mbind option_bind].
    apply Nat.leb_le in L1, L2. rewrite L1, L2. by destruct s.
Qed.

(** Reading a request's sets fails with [MalformedRequest] exactly when the
    field is neither absent, null nor an object, and with [InvalidSet] exactly
    when one of its fields declares no set: a wrong key, bytes that are no sound
    filter, or canaries that are not one to [MAX_SET_CANARIES] strings.
    Otherwise it gives each declared set under its name, in order. *)
Theorem parse_sets_spec value :
  match parse_sets value with
  | Ok sets =>
      (value = None \/ value = Some JNull) /\ sets = [] \/
      exists fields, value = Some (JObject fields) /\
        Forall2 (fun (field : string * json) set => field.1 = set.1 /\ declares field.2 set.2) fields sets
  | Err e =>
      e = EngineError MalformedRequest /\ (exists v, value = Some v /\ v <> JNull /\ as_object v = None) \/
      e = EngineError InvalidSet /\ exists fields field,
        value = Some (JObject fields) /\ field ∈ fields /\ forall s, ~ declares field.2 s
  | Panic => False
  end.
Proof.
  unfold parse_sets. destruct value as [v|]; cbn [mbind option_bind]; [|left; auto].
  destruct (is_null_value v) eqn:En.
  { assert (v = JNull) as -> by by destruct v. left. auto. }
  cbn [obind]. 
  destruct (as_object v) as [fields|] eqn:Eo; cbn [ok_or obind].
  2: { left. split; [done|]. exists v. split_and!; [done| |done]. by intros ->. }
  assert (v = JObject fields) as -> by (destruct v; try done; by injection Eo as ->). clear En Eo.
  set (f := fun field : string * json => _).
  assert (Hgen : match mapM_ok f fields with
    | Ok sets => Forall2 (fun (field : string * json) set => field.1 = set.1 /\ declares field.2 set.2) fields sets
    | Err e => e = EngineError InvalidSet /\ exists field, field ∈ fields /\ forall s, ~ declares field.2 s
    | Panic => False
    end).
  { induction fields as [|[name v] fields IH]; [constructor|]. cbn [mapM_ok]. unfold f at 1. cbn [fst snd].
    destruct (parse_set v) as [s|] eqn:Es; cbn [ok_or obind].
    - apply parse_set_spec in Es. destruct (mapM_ok f fields) as [sets|e|]; cbn [obind]; [by constructor| |done].
      destruct IH as (-> & field & Hin & Hno). split; [done|]. exists field. split; [by right|done].
    - split; [done|]. exists (name, v). split; [by left|]. cbn [snd]. intros s Hs%parse_set_spec. congruence. }
  destruct (mapM_ok f fields) as [sets|e|]; [right; eauto| |done].
  destruct Hgen as (-> & field & Hin & Hno). right. eauto 10.
Qed.
End proofs.

(** ** Witness *)

#[local] Instance reference_xxh3 : Xxh3 := {|
  xxh3_64 bytes := as_u64 (fold_left (fun h b => 31 * h + b) bytes 17);
  xxh3_seeded seed bytes := as_u64 (fold_left (fun h b => 31 * h + b) bytes seed);
|}.

#[local] Instance reference_xxh3_laws : Xxh3Laws reference_xxh3.
Proof. split; intros; apply as_unsigned_range; lia. Qed.

(** A filter of one segment of four and eight more slots. *)
Definition small_filter : list Z := to_le_bytes 8 7 ++ to_le_bytes 4 4 ++ to_le_bytes 4 3 ++ to_le_bytes 4 8 ++ replicate 16 0.

Definition small_fuse8 : Fuse8 :=
  {| f8_seed := 7; f8_segment_length := 4; f8_segment_mask := 3; f8_segment_count_length := 8;
     f8_fingerprints := replicate 16 0; f8_digest := xxh3_64 small_filter |}.

Lemma fuse8_contains_in_bounds_witness :
  from_bytes small_filter = Some small_fuse8 /\
  exists found, fuse8_contains (E:=error) small_fuse8 (text_bytes "0xabc") = Ok found.
Proof.
  split; [vm_compute; reflexivity|].
  apply (fuse8_contains_in_bounds small_filter); [|vm_compute; reflexivity].
  unfold small_filter. cbn. repeat constructor; done.
Defined.

(** The reference instances, for witnesses to import. *)
Module XxhInstances.
#[export] Existing Instance reference_xxh3.
#[export] Existing Instance reference_xxh3_laws.
End XxhInstances.
