(* ===== verification/Predicate.v ===== *)
(** Predicates on columns (src/scan/predicate.rs, its first two thirds): a row
    group's statistics, the nine predicates with their masks, pruning and proof
    by statistics. [RowPredicate.v] combines them over rows.

    A predicate's per-width caches ([OnceLock]s indexed by [slot_of]) hold what
    the definitions here compute afresh; [slot_of_inj] says that no two stored
    types share a slot. *)
From stdpp Require Import base strings list gmap.
From Stdlib Require Import ZArith Lia.
From S2P Require Import Prelude Machine ListLib Errors Arrow Catalog Integers Counting Render Json Sets.

#[local] Open Scope Z_scope.

(** [src/src/scan/predicate.rs:16-29] UnsupportedType. *)
Record UnsupportedType := { ut_expected : string; ut_stored : data_type }.

(** [Mask] of predicate.rs. *)
Abbreviation Mask := (outcome UnsupportedType mask).

(** [src/src/scan/predicate.rs:46-51] unsupported. *)
Definition unsupported (expected : string) (a : array) : UnsupportedType :=
  {| ut_expected := expected; ut_stored := array_type a |}.

(** [Option::ok_or_else] of a mask. *)
Definition or_unsupported {A} (x : option A) (expected : string) (a : array) : outcome UnsupportedType A :=
  ok_or x (unsupported expected a).

(** [src/src/scan/predicate.rs:53-60] all. *)
Definition all_mask (len : nat) (value : bool) : mask := of_bools (replicate len value).

(** [BooleanArray::new]: the bits and the validity. *)
Definition with_nulls (values : list bool) (nulls : null_buffer) : mask := lift_null nulls (fun b => b) values.

(** [src/src/scan/predicate.rs:62-68] constant. *)
Definition constant (a : array) (value : bool) : mask :=
  with_nulls (replicate (array_len a) value) (array_nulls a).

(** ** Statistics *)

(** [src/src/scan/predicate.rs:70-91] StatRange. *)
Inductive StatRange :=
  | StatInts (stored : data_type) (min max : Z)
  | StatText (min max : string).

(** [src/src/scan/predicate.rs:112-126] stat_int. *)
Definition stat_int (stat : array) (stored : data_type) : option Z :=
  '(bits, signed) ← width_of stored;
  raw ← IntColumn_resolve stat;
  if (int_len raw =? 0)%nat then None else Some (declared_value (int_value raw 0) bits signed).

(** [src/src/scan/predicate.rs:128-131] stat_text. *)
Definition stat_text (stat : array) : option string :=
  match stat with
  | AText Utf8 (s :: _) _ => Some s
  | _ => None
  end.

(** [src/src/scan/predicate.rs:94-109] StatRange::new. *)
Definition StatRange_new (stored : data_type) (min max : array) : option StatRange :=
  if is_integer stored then
    min ← stat_int min stored;
    max ← stat_int max stored;
    Some (StatInts stored min max)
  else
    min ← stat_text min;
    max ← stat_text max;
    Some (StatText min max).

(** [src/src/scan/predicate.rs:169-175] key_value. *)
Definition key_value (key : Z) (signed : bool) : Z := if signed then as_i64 key else key.

(** [src/src/scan/predicate.rs:146-159] keys_outside. *)
Definition keys_outside (keys : list Z) (stored : data_type) (min max : Z) : option bool :=
  '(_, signed) ← width_of stored;
  Some (forallb (fun key => let value := key_value key signed in (value <? min) || (max <? value)) keys).

(** [src/src/scan/predicate.rs:133-144] ints_outside. *)
Definition ints_outside (ints : IntValues) (stored : data_type) (min max : Z) : option bool :=
  keys ← stored_keys ints stored; keys_outside keys stored min max.

(** [src/src/scan/predicate.rs:161-167] ints_hold. *)
Definition ints_hold (ints : IntValues) (stored : data_type) (value : Z) : option bool :=
  keys ← stored_keys ints stored; Some (existsb (fun listed => listed =? stored_key value) keys).

(** ** Operands *)

(** [src/src/scan/predicate.rs:384-395] ScalarValue. *)
Inductive ScalarValue :=
  | SBoolean (b : bool)
  | SUInt8 (z : Z)
  | SUInt16 (z : Z)
  | SUInt32 (z : Z)
  | SUInt64 (z : Z)
  | SInt16 (z : Z)
  | SInt64 (z : Z)
  | SUtf8 (s : string).

(** [src/src/scan/predicate.rs:398-410] ScalarValue::as_ints. *)
Definition as_ints (v : ScalarValue) : option IntValues :=
  match v with
  | SUInt8 z | SUInt16 z | SUInt32 z | SUInt64 z => Some (Unsigned [z])
  | SInt16 z | SInt64 z => Some (Signed [z])
  | SBoolean _ | SUtf8 _ => None
  end.

(** [src/src/scan/predicate.rs:477-493] Threshold. *)
Inductive Threshold :=
  | Below
  | Within (value : Z)
  | Above
  | Reinterpreted (value bits : Z) (signed : bool).

(** [src/src/scan/predicate.rs:496-525] Threshold::new. A threshold's list has one
    value. *)
Definition Threshold_new (ints : IntValues) (stored : data_type) : option Threshold :=
  '(bits, stored_signed) ← width_of stored;
  let value := default 0 (head (values_list ints)) in
  if negb (bool_decide (values_signed ints = stored_signed))
  then Some (Reinterpreted value bits (values_signed ints)) else
  let '(min, max) := if stored_signed : bool
    then (- Z.shiftl 1 (bits - 1), Z.shiftl 1 (bits - 1) - 1)
    else (0, Z.shiftl 1 bits - 1) in
  Some (if value <? min then Below else if max <? value then Above else Within value).

(** [src/src/scan/predicate.rs:177-219] range_outside. *)
Definition range_outside (threshold : ScalarValue) (stats : StatRange) (gte : bool) : bool :=
  match threshold, stats with
  | SUtf8 v, StatText min max => if gte then negb (text_le v max) else negb (text_le min v)
  | SBoolean _, _ => false
  | other, StatInts stored min max =>
      match (as_ints other ≫= fun ints => Threshold_new ints stored) with
      | None => false
      | Some Below => negb gte
      | Some Above => gte
      | Some (Within value) => if gte then max <? value else value <? min
      | Some (Reinterpreted _ _ _) => false
      end
  | _, _ => false
  end.

(** [src/src/scan/predicate.rs:L324-382] EqPredicate to ListContainsAnyPredicate. The
    implementations of [ArrayPredicate]: with AnyOfPredicate and NeverPredicate,
    declared further down, nine. *)
Inductive predicate :=
  | Eq_ (value : ScalarValue)
  | InList (values : array)
  | BloomFilter (needles : list (list Z)) (num_bytes num_hashes : nat)
  | InSet (sets : list DeclaredSet) (encoding : option JsonEncoding)
  | AnyOf (parts : list predicate)
  | RangeGte (value : ScalarValue)
  | RangeLte (value : ScalarValue)
  | ListContainsAny (u32_set : option (gset Z)) (string_set : option (gset string))
  | Never.

(** ** Kernels *)

Section kernels.
Context `{K : ArrowKernels} `{X : Xxh3} `{H : HexKernel}.

(** [src/src/scan/predicate.rs:417-424] in_list_int, InKeys. *)
Definition in_list_int (a : array) (keys : gset Z) : option mask :=
  column ← IntColumn_resolve a;
  Some (with_nulls ((fun i => if int_is_null column i then false else bool_decide (stored_key (int_value column i) ∈ keys))
                    <$> seq 0 (int_len column)) (ic_nulls column)).

(** [src/src/scan/predicate.rs:447-458] in_list_text. *)
Definition in_list_text (a : array) (set : gset string) : option mask :=
  column ← StringColumn_resolve a;
  Some (with_nulls ((fun i => match string_value column i with Some s => bool_decide (s ∈ set) | None => false end)
                    <$> seq 0 (length (sc_values column))) (sc_nulls column)).

(** [FixedSizeBinaryArray], [BinaryArray] and, where it is asked for,
    [LargeBinaryArray]: the byte strings a column holds. *)
Definition bytes_column (a : array) (large : bool) : option (list (list Z) * null_buffer) :=
  match a with
  | AFixed _ values nulls => Some (values, nulls)
  | AOther name values nulls =>
      if bool_decide (name = "Binary"%string \/ large = true /\ name = "LargeBinary"%string)
      then Some (values, nulls) else None
  | _ => None
  end.

(** [src/src/scan/predicate.rs:460-475] in_list_bytes. *)
Definition in_list_bytes (a : array) (set : gset (list Z)) : option mask :=
  '(values, nulls) ← bytes_column a true;
  Some (of_bools ((fun i => is_valid_in nulls i && bool_decide (default [] (values !! i) ∈ set)) <$> seq 0 (length values))).

(** [src/src/scan/predicate.rs:555-559] CompareStored: the arrow kernel. *)
Definition compare_stored (column : IntColumn) (value : Z) (gte : bool) : mask :=
  if gte then cmp_gt_eq (ic_values column) (ic_nulls column) value
  else cmp_lt_eq (ic_values column) (ic_nulls column) value.

(** [src/src/scan/predicate.rs:583-590] CompareDeclared. *)
Definition compare_declared (column : IntColumn) (value bits : Z) (signed gte : bool) : mask :=
  with_nulls ((fun stored => let v := declared_value stored bits signed in if gte then value <=? v else v <=? value)
              <$> ic_values column) (ic_nulls column).

(** [src/src/scan/predicate.rs:528-553] compare_int. *)
Definition compare_int (a : array) (ints : IntValues) (gte : bool) : option mask :=
  column ← IntColumn_resolve a;
  threshold ← Threshold_new ints (array_type a);
  Some match threshold with
  | Below => constant a gte
  | Above => constant a (negb gte)
  | Within value => compare_stored column value gte
  | Reinterpreted value bits signed => compare_declared column value bits signed gte
  end.

(** [src/src/scan/predicate.rs:612-627] compare_text. *)
Definition compare_text (a : array) (threshold : string) (gte : bool) : option mask :=
  match a with
  | AText _ values nulls =>
      Some (if gte then cmp_text_gt_eq values nulls threshold else cmp_text_lt_eq values nulls threshold)
  | _ => None
  end.

(** [src/src/scan/predicate.rs:615-623] compare. *)
Definition compare (threshold : ScalarValue) (a : array) (gte : bool) : Mask :=
  match threshold with
  | SUtf8 v => or_unsupported (compare_text a v gte) "a text threshold" a
  | SBoolean _ => Err (unsupported "a range threshold" a)
  | other =>
      let* ints := expect (as_ints other) in
      or_unsupported (compare_int a ints gte) "an integer threshold" a
  end.

(** ** Bloom filters *)

(** [src/src/scan/predicate.rs:943-971] bloom_bit. *)
Definition bloom_bit {E} (value : list Z) (n num_bits : nat) : outcome E nat :=
  if (num_bits =? 0)%nat then Panic
  else Ok (Z.to_nat (xxh3_seeded (Z.of_nat n) (value ++ [255]) mod Z.of_nat num_bits)).

(** [src/src/scan/predicate.rs:882-894] NeedleMasks: its cache. *)
Record NeedleMasks := { nm_width : nat; nm_masks : list (list Z) }.

(** [mask[bit / 8] |= 1 << (bit % 8)]. *)
Definition set_bit {E} (bytes : list Z) (bit : nat) : outcome E (list Z) :=
  let* byte := vec_get bytes (bit / 8) in
  vec_set bytes (bit / 8) (Z.lor byte (Z.shiftl 1 (Z.of_nat (bit mod 8)))).

(** [src/src/scan/predicate.rs:923-940] NeedleMasks::build. *)
Definition nm_build {E} (needles : list (list Z)) (num_hashes width : nat) : outcome E NeedleMasks :=
  let* masks := mapM_ok (fun needle =>
    foldM (fun bits n =>
      let* bit := bloom_bit needle n (width * 8) in set_bit bits bit)
      (seq 0 num_hashes) (replicate width 0)) needles in
  Ok {| nm_width := width; nm_masks := masks |}.

(** Whether a filter has every bit of a mask: [missing | (bits & !stored)] stays 0. *)
Definition covers (bits filter : list Z) : bool :=
  fold_left (fun missing p => Z.lor missing (Z.land p.1 (as_unsigned 8 (Z.lnot p.2)))) (zip bits filter) 0 =? 0.

(** [src/src/scan/predicate.rs:905-921] NeedleMasks::any_member. *)
Definition any_member {E} (needles : list (list Z)) (num_hashes : nat) (self : NeedleMasks) (filter : list Z)
    : outcome E (bool * NeedleMasks) :=
  if bool_decide (filter = []) then Ok (false, self) else
  let* self := if (length filter =? nm_width self)%nat then Ok self
               else nm_build needles num_hashes (length filter) in
  Ok (existsb (fun bits => covers bits filter) (nm_masks self), self).

(** A row's answer, and the masks the next row finds cached. *)
Definition bloom_row (needles : list (list Z)) (num_hashes : nat) (values : list (list Z)) (nulls : null_buffer)
    (st : list bool * NeedleMasks) (i : nat) : outcome UnsupportedType (list bool * NeedleMasks) :=
  if is_valid_in nulls i then
    let* (found, masks) := any_member needles num_hashes st.2 (default [] (values !! i)) in
    Ok (st.1 ++ [found], masks)
  else Ok (st.1 ++ [false], st.2).

(** [src/src/scan/predicate.rs:974-994] BloomFilterPredicate::evaluate: on a plain column. *)
Definition bloom_evaluate (needles : list (list Z)) (num_hashes : nat) (a : array) : Mask :=
  match bytes_column a true with
  | None => Err (unsupported "a bloom filter" a)
  | Some (values, nulls) =>
      let* (found, _) := foldM (bloom_row needles num_hashes values nulls) (seq 0 (length values))
        ([], {| nm_width := 0; nm_masks := [] |}) in
      Ok (of_bools found)
  end.

(** ** Sets *)

(** [src/src/scan/predicate.rs:1021-1023] InSetPredicate::contains. *)
Fixpoint sets_contain {E} (sets : list DeclaredSet) (text : list Z) : outcome E bool :=
  match sets with
  | [] => Ok false
  | set :: sets =>
      let* found := fuse8_contains (ds_fuse8 set) text in
      if found : bool then Ok true else sets_contain sets text
  end.

(** [src/src/scan/predicate.rs:L1038-1049] verdicts. One row: its verdict, and the
    last value looked up with its own. *)
Definition verdict_row (value : nat -> option (list Z)) (passes : list Z -> outcome UnsupportedType bool)
    (st : list bool * option (list Z * bool)) (row : nat) : outcome UnsupportedType (list bool * option (list Z * bool)) :=
  let (out, previous) := st in
  let fresh v := let* verdict := passes v in Ok (out ++ [verdict], Some (v, verdict)) in
  match value row, previous with
  | None, _ => Ok (out ++ [false], previous)
  | Some v, Some (last, verdict) => if bool_decide (v = last) then Ok (out ++ [verdict], previous) else fresh v
  | Some v, None => fresh v
  end.

(** [src/src/scan/predicate.rs:1025-1052] InSetPredicate::verdicts. *)
Definition verdicts (len : nat) (value : nat -> option (list Z)) (passes : list Z -> outcome UnsupportedType bool)
    : outcome UnsupportedType (list bool) :=
  let* (out, _) := foldM (verdict_row value passes) (seq 0 len) ([], None) in Ok out.

(** The text a stored byte string is looked up by: rendered, its quotes cut off. *)
Definition rendered (encoding : option JsonEncoding) (bytes : list Z) : option (list Z) :=
  let unquoted text := slice text 1 (length text - 1) in
  match encoding with
  | Some HexBytes => Some (unquoted (encode_hex_bytes bytes []))
  | Some Base58 => Some (unquoted (encode_base58_bytes bytes []))
  | _ => None
  end.

(** [src/src/scan/predicate.rs:1056-1101] InSetPredicate::evaluate: on a plain column. *)
Definition in_set_evaluate (sets : list DeclaredSet) (encoding : option JsonEncoding) (a : array) : Mask :=
  match StringColumn_resolve a with
  | Some column =>
      let* values := verdicts (length (sc_values column))
        (fun row => text_bytes <$> string_value column row) (sets_contain sets) in
      Ok (with_nulls values (sc_nulls column))
  | None =>
      match encoding, bytes_column a false with
      | Some (HexBytes | Base58), Some (values, nulls) =>
          let* found := verdicts (length values)
            (fun row => if is_valid_in nulls row then Some (default [] (values !! row)) else None)
            (fun bytes => let* text := expect (rendered encoding bytes) in sets_contain sets text) in
          Ok (with_nulls found nulls)
      | _, _ => Err (unsupported "a set" a)
      end
  end.

(** ** Lists *)

(** [src/src/scan/predicate.rs:1248-1253] ListElements. *)
Inductive ListElements :=
  | Ints (c : IntColumn)
  | Text (c : StringColumn).

(** [src/src/scan/predicate.rs:1311-1317] ListContainsAnyPredicate::expected. *)
Definition contains_any_expected (u32_set : option (gset Z)) : string :=
  if bool_decide (is_Some u32_set) then "a list of integers" else "a list of strings".

(** [src/src/scan/predicate.rs:L1288-1306] evaluate_list. Whether one of a row's
    elements is wanted. *)
Definition element_matches (u32_set : option (gset Z)) (string_set : option (gset string)) (elements : ListElements)
    (range : list nat) : outcome UnsupportedType bool :=
  match elements with
  | Ints ints =>
      let* set := expect u32_set in
      Ok (existsb (fun j => negb (int_is_null ints j) &&
        ((0 <=? int_value ints j) && (int_value ints j <? 2 ^ 32)) && bool_decide (int_value ints j ∈ set)) range)
  | Text text =>
      let* set := expect string_set in
      Ok (existsb (fun j => match string_value text j with Some s => bool_decide (s ∈ set) | None => false end) range)
  end.

(** [src/src/scan/predicate.rs:1270-1309] ListContainsAnyPredicate::evaluate_list. At
    either offset width. *)
Definition evaluate_list (u32_set : option (gset Z)) (string_set : option (gset string)) (list_ : array)
    (offsets : list Z) (values : array) (nulls : null_buffer) : Mask :=
  let elements := if bool_decide (is_Some u32_set) then Ints <$> IntColumn_resolve values else Text <$> StringColumn_resolve values in
  let* elements := or_unsupported elements (contains_any_expected u32_set) list_ in
  let* rows := mapM_ok (fun i =>
    if is_valid_in nulls i
    then element_matches u32_set string_set elements (seq (offset_at offsets i) (offset_at offsets (S i) - offset_at offsets i))
    else Ok false) (seq 0 (array_len list_)) in
  Ok (of_bools rows).

(** [src/src/scan/predicate.rs:1321-1329] ListContainsAnyPredicate::evaluate. *)
Definition contains_any_evaluate (u32_set : option (gset Z)) (string_set : option (gset string)) (a : array) : Mask :=
  match a with
  | AList offsets values nulls | ALarge offsets values nulls => evaluate_list u32_set string_set a offsets values nulls
  | _ => Err (unsupported (contains_any_expected u32_set) a)
  end.

(** ** Evaluation *)

(** [src/src/scan/predicate.rs:269-292] through_dictionary: a dictionary's values are
    evaluated once, then mapped through its keys; any other array is [plain]'s. *)
Fixpoint through_dictionary (plain : array -> Mask) (a : array) : Mask :=
  match a with
  | ADict _ keys values nulls =>
      let* m := through_dictionary plain values in
      let taken := take_mask m keys nulls in
      Ok (of_bools (selects <$> taken))
  | _ => plain a
  end.

(** [src/src/scan/predicate.rs:640-670] EqPredicate::evaluate: on a plain column. *)
Definition eq_evaluate (value : ScalarValue) (a : array) : Mask :=
  match value with
  | SBoolean v =>
      match a with
      | ABool values nulls => Ok (cmp_eq_bool values nulls v)
      | _ => or_unsupported (in_list_int a {[Z.b2z v]}) "a boolean" a
      end
  | SUtf8 v => or_unsupported (in_list_text a {[v]}) "a string" a
  | other =>
      let* ints := expect (as_ints other) in
      let* keys := or_unsupported (stored_keys ints (array_type a)) "an integer" a in
      or_unsupported (in_list_int a (list_to_set keys)) "an integer" a
  end.

(** [src/src/scan/predicate.rs:713-732] InListPredicate::new: the sets it makes of its list. *)
Definition string_set (values : array) : option (gset string) :=
  match values with AText Utf8 v _ => Some (list_to_set v) | _ => None end.
Definition fixed_binary_set (values : array) : option (gset (list Z)) :=
  match values with AFixed _ v _ => Some (list_to_set v) | _ => None end.

(** [src/src/scan/predicate.rs:752-760] InListPredicate::keys_at. *)
Definition keys_at (ints : IntValues) (stored : data_type) : option (gset Z) :=
  _ ← slot_of stored; keys ← stored_keys ints stored; Some (list_to_set keys).

(** [src/src/scan/predicate.rs:762-773] InListPredicate::sorted_values_at. *)
Definition sorted_values_at (ints : IntValues) (stored : data_type) : option (list Z) :=
  _ ← slot_of stored;
  '(_, signed) ← width_of stored;
  keys ← keys_at ints stored;
  Some (sort_ints ((fun key => key_value key signed) <$> elements keys)).

(** [src/src/scan/predicate.rs:777-798] InListPredicate::evaluate: on a plain column. *)
Definition in_list_evaluate (values : array) (a : array) : Mask :=
  match string_set values, IntValues_from_array values, fixed_binary_set values with
  | Some set, _, _ => or_unsupported (in_list_text a set) "a list of strings" a
  | None, Some ints, _ =>
      let* keys := or_unsupported (keys_at ints (array_type a)) "a list of integers" a in
      or_unsupported (in_list_int a keys) "a list of integers" a
  | None, None, Some set => or_unsupported (in_list_bytes a set) "a list of byte strings" a
  | None, None, None => Err (unsupported "a filter list" a)
  end.

(** [any = Some(match any { None => mask, Some(prev) => or_kleene(&prev, &mask) })]. *)
Definition or_next (any : option mask) (m : mask) : option mask :=
  Some match any with None => m | Some prev => or_kleene prev m end.

(** [src/src/scan/predicate.rs:L229-229] ArrayPredicate::evaluate. AnyOfPredicate's
    is at 1144-1155. *)
Fixpoint evaluate (p : predicate) (a : array) {struct p} : Mask :=
  match p with
  | Eq_ value => through_dictionary (eq_evaluate value) a
  | InList values => through_dictionary (in_list_evaluate values) a
  | BloomFilter needles _ num_hashes => through_dictionary (bloom_evaluate needles num_hashes) a
  | InSet sets encoding => through_dictionary (in_set_evaluate sets encoding) a
  | AnyOf parts =>
      let* any := (fix go (parts : list predicate) (any : option mask) : outcome UnsupportedType (option mask) :=
        match parts with
        | [] => Ok any
        | part :: parts => let* m := evaluate part a in go parts (or_next any m)
        end) parts None in
      Ok (default (all_mask (array_len a) false) any)
  | RangeGte value => through_dictionary (fun a => compare value a true) a
  | RangeLte value => through_dictionary (fun a => compare value a false) a
  | ListContainsAny u32_set string_set => contains_any_evaluate u32_set string_set a
  | Never => Ok (all_mask (array_len a) false)
  end.
End kernels.

(** ** Pruning by statistics *)

(** [src/src/scan/predicate.rs:672-687] EqPredicate::can_skip. *)
Definition eq_can_skip (value : ScalarValue) (stats : StatRange) : bool :=
  match value, stats with
  | SUtf8 v, StatText min max => negb (text_le min v) || negb (text_le v max)
  | SBoolean _, _ => false
  | value, StatInts stored min max =>
      match as_ints value with
      | None => false
      | Some ints => default false (ints_outside ints stored min max)
      end
  | _, _ => false
  end.

(** [src/src/scan/predicate.rs:689-701] EqPredicate::matches_every_value. *)
Definition eq_matches_every_value (value : ScalarValue) (stats : StatRange) : bool :=
  match value, stats with
  | SUtf8 v, StatText min max => bool_decide (min = max) && bool_decide (v = min)
  | SBoolean _, _ => false
  | value, StatInts stored min max =>
      match as_ints value with
      | None => false
      | Some ints => (min =? max) && default false (ints_hold ints stored min)
      end
  | _, _ => false
  end.

(** The values of a text list, in order. *)
Definition sorted_text (list_ : list string) : list nat :=
  sort_by (fun p q => text_le (default ""%string (list_ !! p)) (default ""%string (list_ !! q)))
    (seq 0 (Z.to_nat (as_u32 (Z.of_nat (length list_))))).

(** [src/src/scan/predicate.rs:800-830] InListPredicate::can_skip. *)
Definition in_list_can_skip (values : array) (stats : StatRange) : bool :=
  match stats with
  | StatText min max =>
      match values with
      | AText Utf8 list_ _ =>
          let value p := default ""%string (list_ !! p) in
          let sorted := sorted_text list_ in
          let first := partition_point (fun p => negb (text_le min (value p))) sorted in
          match sorted !! first with None => true | Some p => negb (text_le (value p) max) end
      | _ => false
      end
  | StatInts stored min max =>
      match (IntValues_from_array values ≫= fun ints => sorted_values_at ints stored) with
      | None => false
      | Some sorted =>
          let first := partition_point (fun value => value <? min) sorted in
          match sorted !! first with None => true | Some value => max <? value end
      end
  end.

(** [src/src/scan/predicate.rs:832-845] InListPredicate::matches_every_value. *)
Definition in_list_matches_every_value (values : array) (stats : StatRange) : bool :=
  match stats with
  | StatText min max =>
      bool_decide (min = max) && match string_set values with Some set => bool_decide (min ∈ set) | None => false end
  | StatInts stored min max =>
      (min =? max) &&
      match (IntValues_from_array values ≫= fun ints => keys_at ints stored) with
      | Some keys => bool_decide (stored_key min ∈ keys)
      | None => false
      end
  end.

(** [src/src/scan/predicate.rs:L231-238] ArrayPredicate::can_skip. Those that have no
    definition of their own are at 996, 1105, 1157, 1212, 1235, 1331 and 1374. *)
Fixpoint can_skip (p : predicate) (stats : StatRange) : bool :=
  match p with
  | Eq_ value => eq_can_skip value stats
  | InList values => in_list_can_skip values stats
  | AnyOf parts => forallb (fun part => can_skip part stats) parts
  | RangeGte value => range_outside value stats true
  | RangeLte value => range_outside value stats false
  | Never => true
  | BloomFilter _ _ _ | InSet _ _ | ListContainsAny _ _ => false
  end.

(** [src/src/scan/predicate.rs:L240-250] ArrayPredicate::matches_every_value.
    AnyOfPredicate's is at 1163. *)
Fixpoint matches_every_value (p : predicate) (stats : StatRange) : bool :=
  match p with
  | Eq_ value => eq_matches_every_value value stats
  | InList values => in_list_matches_every_value values stats
  | AnyOf parts => existsb (fun part => matches_every_value part stats) parts
  | _ => false
  end.

(** [src/src/scan/predicate.rs:847-849] InListPredicate::listed_values. The rest
    have none. *)
Definition listed_values (p : predicate) : option array :=
  match p with InList values => Some values | _ => None end.
