(* ===== verification/PredicateSpec.v ===== *)
(** What a predicate's mask says ([evaluate_spec]), what pruning and proof by
    statistics may claim ([can_skip_sound], [matches_every_value_sound]), and how
    statistics are read at the stored type ([StatRange_new_spec]).

    [admits] is the meaning of a predicate, on a value of the type its column is
    stored at; [supports] says which types it reads. *)
From stdpp Require Import base strings list gmap.
From Stdlib Require Import ZArith Lia.
From S2P Require Import Prelude Machine ListLib Errors Arrow Catalog Integers Counting Render Json Sets Predicate ArrowReference.

#[local] Open Scope Z_scope.

(** ** What masks say *)

(** A mask of [n] rows selects exactly those with [P]. *)
Definition mask_says (m : mask) (n : nat) (P : nat -> Prop) : Prop :=
  length m = n /\ forall i, (i < n)%nat -> m !! i = Some (Some true) <-> P i.

Lemma mask_says_iff m n (P Q : nat -> Prop) :
  (forall i, (i < n)%nat -> P i <-> Q i) -> mask_says m n P -> mask_says m n Q.
Proof. intros H [Hl Hm]. split; [done|]. intros i Hi. by rewrite <- H, Hm. Qed.

Lemma mask_says_true_count m n P : mask_says m n P -> (forall i, (i < n)%nat -> ~ P i) -> true_count m = 0%nat.
Proof.
  intros [Hl Hm] H. unfold true_count. destruct (filter _ m) as [|b bs] eqn:E; [done|exfalso].
  assert (Hin : b ∈ filter (fun b => b = Some true) m) by (rewrite E; by left).
  apply list_elem_of_filter in Hin as [-> Hin]. apply list_elem_of_lookup in Hin as [i Hi].
  pose proof (lookup_lt_Some _ _ _ Hi). apply (H i); [lia|]. apply Hm; [lia|done].
Qed.

Lemma says_lift_null {A} nulls (p : A -> bool) values :
  mask_says (lift_null nulls p values) (length values)
    (fun i => is_valid_in nulls i = true /\ exists v, values !! i = Some v /\ p v = true).
Proof.
  split; [apply length_lift_null|]. intros i Hi. rewrite lift_null_lookup.
  destruct (lookup_lt_is_Some_2 values i Hi) as [v Hv]. rewrite Hv; cbn.
  destruct (is_valid_in nulls i); [|by split; [|intros [? _]]]. split.
  - intros [= E]. eauto.
  - by intros (_ & ? & [= <-] & ->).
Qed.

Lemma says_with_nulls nulls (f : nat -> bool) n :
  mask_says (with_nulls (f <$> seq 0 n) nulls) n (fun i => is_valid_in nulls i = true /\ f i = true).
Proof.
  pose proof (says_lift_null nulls (fun b : bool => b) (f <$> seq 0 n)) as H. rewrite length_fmap, length_seq in H.
  eapply mask_says_iff; [|exact H]. intros i Hi; cbn beta.
  rewrite list_lookup_fmap, lookup_seq_lt by done; cbn [fmap option_fmap option_map Nat.add]. split.
  - intros [Hv (v & [= <-] & Hf)]. done.
  - intros [Hv Hf]. eauto.
Qed.

Lemma says_of_bools l : mask_says (of_bools l) (length l) (fun i => l !! i = Some true).
Proof.
  split; [apply length_fmap|]. intros i Hi. unfold of_bools. rewrite list_lookup_fmap.
  destruct (lookup_lt_is_Some_2 l i Hi) as [v Hv]. rewrite Hv; cbn. split; [by intros [= ->]|by intros [= ->]].
Qed.

Lemma says_bools (f : nat -> bool) n : mask_says (of_bools (f <$> seq 0 n)) n (fun i => f i = true).
Proof.
  pose proof (says_of_bools (f <$> seq 0 n)) as H. rewrite length_fmap, length_seq in H.
  eapply mask_says_iff; [|exact H]. intros i Hi; cbn beta.
  rewrite list_lookup_fmap, lookup_seq_lt by done; cbn [fmap option_fmap option_map Nat.add]. split; [by intros [= ->]|by intros ->].
Qed.

Lemma says_all n b : mask_says (all_mask n b) n (fun _ => b = true).
Proof.
  unfold all_mask. pose proof (says_of_bools (replicate n b)) as H. rewrite length_replicate in H.
  eapply mask_says_iff; [|exact H]. intros i Hi. cbn. rewrite lookup_replicate_2 by done. naive_solver.
Qed.

Section kernels.
Context {K : ArrowKernels} {L : ArrowLaws K}.

Lemma says_or m1 m2 n (P Q : nat -> Prop) : mask_says m1 n P -> mask_says m2 n Q ->
  mask_says (or_kleene m1 m2) n (fun i => P i \/ Q i).
Proof.
  intros [Hl1 H1] [Hl2 H2]. rewrite or_kleene_spec by congruence. split; [rewrite length_zip_with; lia|].
  intros i Hi. rewrite <- H1, <- H2 by done. rewrite lookup_zip_with.
  destruct (lookup_lt_is_Some_2 m1 i ltac:(lia)) as [x Hx], (lookup_lt_is_Some_2 m2 i ltac:(lia)) as [y Hy].
  rewrite Hx, Hy; cbn. destruct x as [[]|], y as [[]|]; cbn; naive_solver.
Qed.

Lemma says_and m1 m2 n (P Q : nat -> Prop) : mask_says m1 n P -> mask_says m2 n Q ->
  mask_says (boolean_and m1 m2) n (fun i => P i /\ Q i).
Proof.
  intros [Hl1 H1] [Hl2 H2]. rewrite boolean_and_spec by congruence. split; [rewrite length_zip_with; lia|].
  intros i Hi. rewrite <- H1, <- H2 by done. rewrite lookup_zip_with.
  destruct (lookup_lt_is_Some_2 m1 i ltac:(lia)) as [x Hx], (lookup_lt_is_Some_2 m2 i ltac:(lia)) as [y Hy].
  rewrite Hx, Hy; cbn. destruct x as [[]|], y as [[]|]; cbn; naive_solver.
Qed.

(** [any] of the masks so far. *)
Definition any_says (any : option mask) (n : nat) (P : nat -> Prop) : Prop :=
  match any with Some m => mask_says m n P | None => forall i, (i < n)%nat -> ~ P i end.

Lemma any_says_iff any n (P Q : nat -> Prop) : (forall i, (i < n)%nat -> P i <-> Q i) -> any_says any n P -> any_says any n Q.
Proof. destruct any; [apply mask_says_iff|]. cbn. intros H Hn i Hi. rewrite <- H by done. by apply Hn. Qed.

Lemma says_or_next any m n (P Q : nat -> Prop) : any_says any n P -> mask_says m n Q ->
  any_says (or_next any m) n (fun i => P i \/ Q i).
Proof.
  destruct any as [prev|]; cbn; [apply says_or|]. intros Hn. apply mask_says_iff. intros i Hi. specialize (Hn i Hi). tauto.
Qed.

Lemma says_any any n P : any_says any n P -> mask_says (default (all_mask n false) any) n P.
Proof.
  destruct any as [m|]; cbn [from_option]; [done|]. cbn. intros H. eapply mask_says_iff; [|apply says_all].
  intros i Hi. specialize (H i Hi). naive_solver.
Qed.
End kernels.

(** ** The contract of an evaluation *)

(** A dictionary's type is its values'. *)
Fixpoint value_type (dt : data_type) : data_type :=
  match dt with DDictionary _ dt => value_type dt | _ => dt end.

(** [ev] reads the types [sup] has and refuses the rest; on a column it reads it
    selects the rows whose values [P] admits. *)
Definition evaluates (ev : array -> Mask) (sup : data_type -> bool) (P : data_type -> cell -> Prop) (a : array) : Prop :=
  if sup (array_type a)
  then exists m, ev a = Ok m /\ mask_says m (array_len a) (fun i => P (array_type a) (cell_at a i))
  else exists e, ev a = Err e.

Lemma cell_dict t keys values nulls i :
  cell_at (ADict t keys values nulls) i =
  if is_valid_in nulls i then cell_at values (offset_at keys i) else CNull.
Proof. cbn. unfold is_null; cbn. by destruct (is_valid_in nulls i). Qed.

(** A value-by-value evaluation goes through dictionaries. *)
Lemma through_dictionary_spec {K : ArrowKernels} {L : ArrowLaws K} plain sup P a :
  (forall dt, ~ P dt CNull) ->
  (forall b, array_ok b -> (match b with ADict _ _ _ _ => False | _ => True end) -> evaluates plain sup P b) ->
  array_ok a ->
  evaluates (through_dictionary plain) (fun dt => sup (value_type dt)) (fun dt => P (value_type dt)) a.
Proof.
  intros Hnull Hplain. induction a as [| | | | | | |t keys values IH nulls| |]; intros Hok;
    try (specialize (Hplain _ Hok I); unfold evaluates in *; cbn in *; exact Hplain).
  destruct Hok as (Hn & Hv & Hkeys). specialize (IH Hv). unfold evaluates in *. cbn [array_type value_type through_dictionary].
  destruct (sup _); [|by destruct IH as [e ->]; exists e]. destruct IH as (m & -> & Hl & Hm). cbn [obind].
  eexists. split; [done|]. cbn [array_len]. rewrite take_mask_spec by (rewrite Hl; exact Hkeys).
  split; [unfold of_bools; by rewrite !length_fmap, length_imap|]. intros i Hi. unfold of_bools.
  rewrite cell_dict, !list_lookup_fmap, list_lookup_imap. destruct (lookup_lt_is_Some_2 keys i Hi) as [k Hk]. rewrite Hk; cbn.
  destruct (is_valid_in nulls i) eqn:Ev; cbn.
  2: { split; [done|]. intros Hf. by destruct (Hnull _ Hf). }
  specialize (Hkeys i Hi Ev). rewrite Hk in Hkeys; cbn in Hkeys. unfold offset_at. rewrite Hk; cbn.
  rewrite <- Hm by lia. destruct (lookup_lt_is_Some_2 m (Z.to_nat k) ltac:(lia)) as [b Hb]. rewrite Hb; cbn.
  destruct b as [[]|]; cbn; naive_solver.
Qed.

(** ** What the predicates mean *)

Definition ints_admit (ints : IntValues) (dt : data_type) (c : cell) : Prop :=
  match dt, c with
  | DInt t, CInt z => declared_value z (int_bits t) (values_signed ints) ∈ values_list ints
  | _, _ => False
  end.

Definition scalar_admits (v : ScalarValue) (dt : data_type) (c : cell) : Prop :=
  match v, c with
  | SBoolean b, CBool x => x = b
  | SBoolean b, CInt z => z = Z.b2z b
  | SUtf8 s, CText x => x = s
  | _, _ => match as_ints v with Some ints => ints_admit ints dt c | None => False end
  end.

Definition threshold_admits (v : ScalarValue) (gte : bool) (dt : data_type) (c : cell) : Prop :=
  match v, c with
  | SUtf8 s, CText x => (if gte then text_le s x else text_le x s) = true
  | _, CInt z =>
      match dt, as_ints v with
      | DInt t, Some ints =>
          let value := declared_value z (int_bits t) (values_signed ints) in
          Forall (fun threshold => if gte then threshold <= value else value <= threshold) (values_list ints)
      | _, _ => False
      end
  | _, _ => False
  end.

Definition list_admits (values : array) (dt : data_type) (c : cell) : Prop :=
  match values, c with
  | AText Utf8 v _, CText s => s ∈ v
  | AInt _ _ _, _ => match IntValues_from_array values with Some ints => ints_admit ints dt c | None => False end
  | AFixed _ v _, CBytes b => b ∈ v
  | _, _ => False
  end.

(** Whether a filter has every bit the needle's hashes set. *)
Definition maybe_member {X : Xxh3} (num_hashes : nat) (needle filter : list Z) : Prop :=
  forall n, (n < num_hashes)%nat ->
    let bit := xxh3_seeded (Z.of_nat n) (needle ++ [255]) mod Z.of_nat (length filter * 8) in
    Z.testbit (default 0 (filter !! Z.to_nat (bit / 8))) (bit mod 8) = true.

Definition bloom_admits {X : Xxh3} (needles : list (list Z)) (num_hashes : nat) (c : cell) : Prop :=
  match c with
  | CBytes filter => filter <> [] /\ exists needle, needle ∈ needles /\ maybe_member num_hashes needle filter
  | _ => False
  end.

(** The text of a value as the response renders it. *)
Definition rendered_text {H : HexKernel} (encoding : option JsonEncoding) (c : cell) : option (list Z) :=
  match c with
  | CText s => Some (text_bytes s)
  | CBytes b => rendered encoding b
  | _ => None
  end.

Definition set_admits {X : Xxh3} {H : HexKernel} (sets : list DeclaredSet) (encoding : option JsonEncoding) (c : cell) : Prop :=
  exists text set, rendered_text encoding c = Some text /\ set ∈ sets /\
    fuse8_contains (E:=UnsupportedType) (ds_fuse8 set) text = Ok true.

Definition contains_admits (u32_set : option (gset Z)) (string_set : option (gset string)) (c : cell) : Prop :=
  match c with
  | CList l => exists x, x ∈ l /\
      match u32_set, x with
      | Some set, CInt z => 0 <= z < 2 ^ 32 /\ z ∈ set
      | None, CText s => exists set, string_set = Some set /\ s ∈ set
      | _, _ => False
      end
  | _ => False
  end.

(** [admits p dt c]: the value [c] of a column stored at [dt] passes [p]. *)
Fixpoint admits {X : Xxh3} {H : HexKernel} (p : predicate) (dt : data_type) (c : cell) {struct p} : Prop :=
  match p with
  | Eq_ v => scalar_admits v (value_type dt) c
  | InList values => list_admits values (value_type dt) c
  | BloomFilter needles _ num_hashes => bloom_admits needles num_hashes c
  | InSet sets encoding => set_admits sets encoding c
  | AnyOf parts =>
      (fix go parts := match parts with [] => False | part :: parts => admits part dt c \/ go parts end) parts
  | RangeGte v => threshold_admits v true (value_type dt) c
  | RangeLte v => threshold_admits v false (value_type dt) c
  | ListContainsAny u32_set string_set => contains_admits u32_set string_set c
  | Never => False
  end.

(** ** Which types they read *)

Definition is_bytes (large : bool) (dt : data_type) : bool :=
  match dt with
  | DFixedSizeBinary _ => true
  | DOther name => bool_decide (name = "Binary"%string \/ large = true /\ name = "LargeBinary"%string)
  | _ => false
  end.

Definition scalar_supports (v : ScalarValue) (dt : data_type) : bool :=
  match v, dt with
  | SBoolean _, (DBoolean | DInt _) => true
  | SBoolean _, _ => false
  | SUtf8 _, _ => is_text dt
  | _, _ => is_integer dt
  end.

Definition threshold_supports (v : ScalarValue) (dt : data_type) : bool :=
  match v with SBoolean _ => false | SUtf8 _ => is_text dt | _ => is_integer dt end.

Definition list_supports (values : array) (dt : data_type) : bool :=
  match values with
  | AText Utf8 _ _ => is_text dt
  | AInt _ _ _ => is_integer dt
  | AFixed _ _ _ => is_bytes true dt
  | _ => false
  end.

Definition set_supports (encoding : option JsonEncoding) (dt : data_type) : bool :=
  is_text dt || match encoding with Some (HexBytes | Base58) => is_bytes false dt | _ => false end.

Definition contains_supports (u32_set : option (gset Z)) (dt : data_type) : bool :=
  match dt with
  | DList el | DLargeList el => if bool_decide (is_Some u32_set) then is_integer el else is_text el
  | _ => false
  end.

Fixpoint supports (p : predicate) (dt : data_type) {struct p} : bool :=
  match p with
  | Eq_ v => scalar_supports v (value_type dt)
  | InList values => list_supports values (value_type dt)
  | BloomFilter _ _ _ => is_bytes true (value_type dt)
  | InSet _ encoding => set_supports encoding (value_type dt)
  | AnyOf parts => forallb (fun part => supports part dt) parts
  | RangeGte v | RangeLte v => threshold_supports v (value_type dt)
  | ListContainsAny u32_set _ => contains_supports u32_set dt
  | Never => true
  end.

(** ** Operands in range *)

Definition scalar_ok (v : ScalarValue) : Prop :=
  match v with
  | SUInt8 z => 0 <= z < 2 ^ 8
  | SUInt16 z => 0 <= z < 2 ^ 16
  | SUInt32 z => 0 <= z < 2 ^ 32
  | SUInt64 z => is_u64 z
  | SInt16 z => - 2 ^ 15 <= z < 2 ^ 15
  | SInt64 z => - 2 ^ 63 <= z < 2 ^ 63
  | SBoolean _ | SUtf8 _ => True
  end.

Fixpoint pred_ok (p : predicate) : Prop :=
  match p with
  | Eq_ v | RangeGte v | RangeLte v => scalar_ok v
  | InList values => array_ok values /\ Z.of_nat (array_len values) < 2 ^ 32
  | InSet sets _ => Forall (fun set => fuse8_sound (ds_fuse8 set)) sets
  | AnyOf parts => (fix go parts := match parts with [] => True | part :: parts => pred_ok part /\ go parts end) parts
  | ListContainsAny u32_set string_set => is_Some u32_set \/ is_Some string_set
  | BloomFilter _ _ _ | Never => True
  end.

(** ** Kernels on plain columns *)

Definition plain (a : array) : Prop := match a with ADict _ _ _ _ => False | _ => True end.

Lemma cell_int t v n i : cell_at (AInt t v n) i = if is_valid_in n i then CInt (default 0 (v !! i)) else CNull.
Proof. cbn. unfold is_null; cbn. by destruct (is_valid_in n i). Qed.
Lemma cell_text t v n i : cell_at (AText t v n) i = if is_valid_in n i then CText (default ""%string (v !! i)) else CNull.
Proof. cbn. unfold is_null; cbn. by destruct (is_valid_in n i). Qed.
Lemma cell_bool v n i : cell_at (ABool v n) i = if is_valid_in n i then CBool (default false (v !! i)) else CNull.
Proof. cbn. unfold is_null; cbn. by destruct (is_valid_in n i). Qed.

Lemma in_list_int_spec t v n keys :
  exists m, in_list_int (AInt t v n) keys = Some m /\ mask_says m (length v) (fun i =>
    match cell_at (AInt t v n) i with CInt z => stored_key z ∈ keys | _ => False end).
Proof.
  eexists. split; [done|]. eapply mask_says_iff; [|apply says_with_nulls]. intros i Hi. cbn beta. rewrite cell_int.
  unfold int_is_null, int_value; cbn [ic_nulls ic_values]. destruct (is_valid_in n i); cbn [negb].
  - rewrite bool_decide_eq_true. tauto.
  - split; [by intros [? _]|done].
Qed.

Lemma in_list_text_spec t v n set :
  exists m, in_list_text (AText t v n) set = Some m /\ mask_says m (length v) (fun i =>
    match cell_at (AText t v n) i with CText s => s ∈ set | _ => False end).
Proof.
  eexists. split; [done|]. eapply mask_says_iff; [|apply says_with_nulls]. intros i Hi. cbn beta. rewrite cell_text.
  unfold string_value; cbn [sc_nulls sc_values]. destruct (is_valid_in n i).
  - rewrite bool_decide_eq_true. tauto.
  - split; [by intros [? _]|done].
Qed.

(** The cells of a column of byte strings. *)
Lemma bytes_column_cell a large values nulls i : bytes_column a large = Some (values, nulls) ->
  array_len a = length values /\
  cell_at a i = if is_valid_in nulls i then CBytes (default [] (values !! i)) else CNull.
Proof.
  destruct a as [| | |sz v n| |name v n| | | |]; try done; [|unfold bytes_column; case_bool_decide; [|done]]; intros [= -> ->];
    (split; [done|]); cbn; unfold is_null; cbn; by destruct (is_valid_in nulls i).
Qed.

Lemma bytes_column_type a large : is_bytes large (array_type a) = true <-> is_Some (bytes_column a large).
Proof.
  destruct a as [| | |sz v n| |name v n| | | |]; cbn; try (split; [done|by intros []]).
  case_bool_decide; split; try done; by intros [].
Qed.

Lemma in_list_bytes_spec a values nulls set : bytes_column a true = Some (values, nulls) ->
  exists m, in_list_bytes a set = Some m /\ mask_says m (array_len a) (fun i =>
    match cell_at a i with CBytes b => b ∈ set | _ => False end).
Proof.
  intros Hb. unfold in_list_bytes. rewrite Hb; cbn [mbind option_bind]. eexists. split; [done|].
  rewrite (proj1 (bytes_column_cell a true values nulls 0 Hb)).
  eapply mask_says_iff; [|apply says_bools]. intros i Hi. cbn beta.
  rewrite (proj2 (bytes_column_cell a true values nulls i Hb)).
  destruct (is_valid_in nulls i); cbn; [by rewrite bool_decide_eq_true|done].
Qed.

Lemma as_ints_values v ints : as_ints v = Some ints -> scalar_ok v ->
  in_values_range ints /\ exists x, values_list ints = [x].
Proof.
  destruct v; cbn; try done; intros [= <-] Hok; (split; [repeat constructor|by eexists]); unfold is_u64 in *; lia.
Qed.

(** An integer column's rows by their declared values. *)
Lemma ints_keys_spec ints t v n keys :
  in_values_range ints -> array_ok (AInt t v n) -> stored_keys ints (DInt t) = Some keys ->
  exists m, in_list_int (AInt t v n) (list_to_set keys) = Some m /\
    mask_says m (length v) (fun i => ints_admit ints (DInt t) (cell_at (AInt t v n) i)).
Proof.
  intros Hr [_ Hv] Hk. destruct (in_list_int_spec t v n (list_to_set keys)) as (m & -> & Hm).
  exists m. split; [done|]. eapply mask_says_iff; [|exact Hm]. intros i Hi. cbn beta. rewrite cell_int.
  destruct (is_valid_in n i); [|done]. rewrite elem_of_list_to_set. apply stored_keys_spec; [|done|done].
  destruct (lookup_lt_is_Some_2 v i Hi) as [z Hz]. rewrite Hz; cbn. exact (Forall_lookup_1 _ _ _ _ Hv Hz).
Qed.

Section specs.
Context {K : ArrowKernels} {L : ArrowLaws K} {X : Xxh3} {XL : Xxh3Laws X} {H : HexKernel}.

Lemma eq_int_spec v ints a : as_ints v = Some ints -> scalar_ok v -> array_ok a -> plain a ->
  evaluates (eq_evaluate v) (scalar_supports v) (scalar_admits v) a.
Proof.
  intros Hi Hok Ha Hp. destruct (as_ints_values v ints Hi Hok) as [Hr _]. unfold evaluates.
  assert (Es : scalar_supports v (array_type a) = is_integer (array_type a)) by by destruct v.
  assert (Ee : eq_evaluate v a = let* keys := or_unsupported (stored_keys ints (array_type a)) "an integer" a in
    or_unsupported (in_list_int a (list_to_set keys)) "an integer" a).
  { destruct v; try done; injection Hi as <-; done. }
  rewrite Es, Ee. destruct a as [t x n| | | | | | | | |]; try (by eexists). cbn [array_type].
  destruct (stored_keys ints (DInt t)) as [keys|] eqn:Ek; [|done].
  destruct (ints_keys_spec ints t x n keys Hr Ha Ek) as (m & Em & Hm). cbn [or_unsupported ok_or obind]. unfold or_unsupported. rewrite Em.
  exists m. split; [done|]. eapply mask_says_iff; [|exact Hm]. intros i _. unfold scalar_admits. rewrite Hi.
  rewrite cell_int. destruct v; try done; by destruct (is_valid_in n i).
Qed.

Lemma eq_spec v a : scalar_ok v -> array_ok a -> plain a ->
  evaluates (eq_evaluate v) (scalar_supports v) (scalar_admits v) a.
Proof.
  intros Hok Ha Hp. destruct (as_ints v) as [ints|] eqn:Ei; [by apply (eq_int_spec v ints)|].
  destruct v as [b| | | | | | |s]; try done; unfold evaluates.
  - destruct a as [t x n| |x n| | | | | | |]; try (by eexists); cbn [array_type scalar_supports eq_evaluate].
    + destruct (in_list_int_spec t x n {[Z.b2z b]}) as (m & Em & Hm). unfold or_unsupported. rewrite Em.
      exists m. split; [done|]. eapply mask_says_iff; [|exact Hm]. intros i Hi. cbn beta. rewrite cell_int.
      destruct (is_valid_in n i); [|done]. cbn. rewrite elem_of_singleton.
      destruct (lookup_lt_is_Some_2 x i Hi) as [z Hz]. rewrite Hz; cbn. destruct Ha as [_ Ha].
      pose proof (Forall_lookup_1 _ _ _ _ Ha Hz) as Hin. rewrite stored_key_mod.
      assert (- 2 ^ 63 <= z < 2 ^ 64) as Hz64.
      { unfold in_int_type in Hin. destruct t; cbn in Hin; lia. }
      destruct (Z_lt_dec z 0); [|rewrite Z.mod_small by lia; done].
      rewrite <- (Z_mod_plus_full z 1), Z.mod_small by lia. destruct b; cbn; lia.
    + eexists. split; [done|]. rewrite cmp_eq_bool_spec. eapply mask_says_iff; [|apply says_lift_null].
      intros i Hi. cbn beta. rewrite cell_bool. destruct (lookup_lt_is_Some_2 x i Hi) as [z Hz]. rewrite Hz; cbn.
      destruct (is_valid_in n i); [|split; [by intros [? _]|done]]. split.
      * intros (_ & ? & [= <-] & E%Bool.eqb_prop). done.
      * intros ->. split; [done|]. exists b. split; [done|apply Bool.eqb_reflx].
  - destruct a as [|t x n| | | | | | | |]; try (by eexists); cbn [array_type scalar_supports is_text eq_evaluate].
    destruct (in_list_text_spec t x n {[s]}) as (m & Em & Hm). unfold or_unsupported. rewrite Em.
    exists m. split; [done|]. eapply mask_says_iff; [|exact Hm]. intros i Hi. cbn beta. rewrite cell_text.
    destruct (is_valid_in n i); [|done]. cbn. by rewrite elem_of_singleton.
Qed.

Lemma from_array_range a ints : IntValues_from_array a = Some ints -> in_values_range ints.
Proof.
  unfold IntValues_from_array. destruct (IntColumn_resolve a) as [c|]; [|done]. intros [= <-].
  destruct (int_signed (ic_type c)); cbn; apply Forall_fmap, Forall_forall; intros z _; cbn.
  - pose proof (as_signed_range 64 z ltac:(lia)). change (64 - 1) with 63 in *. unfold as_i64. lia.
  - apply as_unsigned_range. lia.
Qed.

Lemma in_list_spec values a : array_ok a -> plain a ->
  evaluates (in_list_evaluate values) (list_supports values) (list_admits values) a.
Proof.
  intros Ha Hp. unfold evaluates, in_list_evaluate.
  destruct values as [t v n|[] v n| |sz v n| | | | | |]; try (by eexists); cbn [string_set fixed_binary_set list_supports].
  - destruct (IntValues_from_array (AInt t v n)) as [ints|] eqn:Ei; [|done].
    pose proof (from_array_range _ _ Ei) as Hr. destruct a as [t' x m| | | | | | | | |]; try (by eexists).
    cbn [array_type is_integer width_of]. unfold keys_at.
    destruct (slot_of (DInt t')) as [slot|] eqn:Eslot; [|by unfold slot_of in Eslot; cbn in Eslot].
    destruct (stored_keys ints (DInt t')) as [keys|] eqn:Ek; [|done].
    destruct (ints_keys_spec ints t' x m keys Hr Ha Ek) as (r & Er & Hm). cbn [mbind option_bind]. unfold or_unsupported; cbn [ok_or obind]. rewrite Er.
    exists r. split; [done|]. eapply mask_says_iff; [|exact Hm]. intros i _. cbn [list_admits]. by rewrite Ei.
  - destruct a as [|t' x m| | | | | | | |]; try (by eexists). cbn [array_type is_text IntValues_from_array].
    destruct (in_list_text_spec t' x m (list_to_set v)) as (r & Er & Hm). unfold or_unsupported. rewrite Er.
    exists r. split; [done|]. eapply mask_says_iff; [|exact Hm]. intros i _. cbn beta. rewrite cell_text.
    destruct (is_valid_in m i); [|done]. cbn [list_admits]. by rewrite elem_of_list_to_set.
  - cbn [IntValues_from_array IntColumn_resolve]. destruct (is_bytes true (array_type a)) eqn:Eb.
    + apply bytes_column_type in Eb as [[x m] Eb].
      destruct (in_list_bytes_spec a x m (list_to_set v) Eb) as (r & Er & Hm). unfold or_unsupported. rewrite Er.
      exists r. split; [done|]. eapply mask_says_iff; [|exact Hm]. intros i _. cbn beta.
      rewrite (proj2 (bytes_column_cell a true x m i Eb)).
      destruct (is_valid_in m i); [|done]. cbn [list_admits]. by rewrite elem_of_list_to_set.
    + unfold in_list_bytes. destruct (bytes_column a true) eqn:E; [|by eexists].
      exfalso. assert (is_bytes true (array_type a) = true) by (apply bytes_column_type; by eexists). congruence.
Qed.

(** ** Thresholds *)

Lemma says_constant a value : nulls_ok (array_nulls a) (array_len a) ->
  mask_says (constant a value) (array_len a) (fun i => is_valid_in (array_nulls a) i = true /\ value = true).
Proof.
  intros _. unfold constant. pose proof (says_lift_null (array_nulls a) (fun b : bool => b) (replicate (array_len a) value)) as Hm.
  rewrite length_replicate in Hm. eapply mask_says_iff; [|exact Hm]. intros i Hi. cbn beta.
  rewrite lookup_replicate_2 by done. split; [by intros (? & ? & [= <-] & ?)|]. intros [? ?]. eauto.
Qed.

(** The declared reading of a value at the signedness it is stored at. *)
Lemma declared_value_same t z : in_int_type t z -> declared_value z (int_bits t) (int_signed t) = z.
Proof. intros Hz. rewrite declared_value_spec. symmetry. by apply in_int_type_mod. Qed.

(** What each place of a threshold says of a stored value. *)
Lemma Threshold_new_spec ints x t : values_list ints = [x] ->
  exists threshold, Threshold_new ints (DInt t) = Some threshold /\
    forall z, in_int_type t z ->
    let value := declared_value z (int_bits t) (values_signed ints) in
    match threshold with
    | Below => x < value
    | Above => value < x
    | Within y => y = x /\ value = z
    | Reinterpreted y bits signed => y = x /\ bits = int_bits t /\ signed = values_signed ints
    end.
Proof.
  intros Hx. unfold Threshold_new. cbn [width_of mbind option_bind]. rewrite Hx. cbn [head from_option id].
  case_bool_decide as Es; cbn [negb]; [|eexists; split; [done|]; by intros].
  destruct (int_signed t) eqn:Et; eexists; (split; [done|]); intros z Hz; cbn zeta; rewrite Es;
    pose proof (declared_value_same t z Hz) as Ed; rewrite Et in Ed; rewrite Ed;
    unfold in_int_type in Hz; rewrite Et in Hz; pose proof (int_bits_pos t); rewrite ?Z.shiftl_1_l;
    repeat match goal with |- context [?a <? ?b] => destruct (Z.ltb_spec a b) end; split_and?; done || lia.
Qed.

Lemma says_declared t v n (p : Z -> bool) signed :
  mask_says (with_nulls ((fun stored => p (declared_value stored (int_bits t) signed)) <$> v) n) (length v)
    (fun i => match cell_at (AInt t v n) i with CInt z => p (declared_value z (int_bits t) signed) = true | _ => False end).
Proof.
  pose proof (says_lift_null n (fun b : bool => b) ((fun stored => p (declared_value stored (int_bits t) signed)) <$> v)) as Hm.
  rewrite length_fmap in Hm. eapply mask_says_iff; [|exact Hm]. intros i Hi. cbn beta. rewrite cell_int, list_lookup_fmap.
  destruct (lookup_lt_is_Some_2 v i Hi) as [z Hz]. rewrite Hz; cbn.
  destruct (is_valid_in n i); [|by split; [intros [? _]|]]. split; [by intros (_ & ? & [= <-] & ?)|eauto].
Qed.

Lemma compare_int_spec ints x gte t v n : values_list ints = [x] -> array_ok (AInt t v n) ->
  exists m, compare_int (AInt t v n) ints gte = Some m /\ mask_says m (length v) (fun i =>
    match cell_at (AInt t v n) i with
    | CInt z => let value := declared_value z (int_bits t) (values_signed ints) in if gte then x <= value else value <= x
    | _ => False
    end).
Proof.
  intros Hx [Hn Hv]. unfold compare_int. cbn [IntColumn_resolve mbind option_bind array_type].
  destruct (Threshold_new_spec ints x t Hx) as (threshold & -> & Ht). cbn [mbind option_bind].
  eexists. split; [done|].
  assert (Hin : forall i, (i < length v)%nat -> in_int_type t (default 0 (v !! i))).
  { intros i Hi. destruct (lookup_lt_is_Some_2 v i Hi) as [z Hz]. rewrite Hz; cbn. exact (Forall_lookup_1 _ _ _ _ Hv Hz). }
  destruct threshold as [|y| |y bits signed].
  - eapply mask_says_iff; [|apply (says_constant (AInt t v n)); exact Hn]. intros i Hi. cbn beta. rewrite cell_int. cbn [array_nulls].
    specialize (Ht _ (Hin i Hi)). destruct (is_valid_in n i); [|by split; [intros [? _]|]]. cbn zeta in Ht |- *.
    destruct gte; cbn [negb]; (split; [intros [_ E]; (discriminate E || lia)|intros; split; (done || lia)]).
  - unfold compare_stored. cbn [ic_values ic_nulls].
    destruct gte; rewrite ?cmp_gt_eq_spec, ?cmp_lt_eq_spec; (eapply mask_says_iff; [|apply says_lift_null]);
      intros i Hi; cbn beta; rewrite cell_int; destruct (lookup_lt_is_Some_2 v i Hi) as [z Hz]; specialize (Ht _ (Hin i Hi));
      rewrite Hz in Ht |- *; cbn [from_option id] in Ht |- *; cbn zeta in Ht |- *; destruct Ht as [-> Ez]; (destruct (is_valid_in n i); [|by split; [intros [? _]|]]);
      rewrite Ez;
      (split; [intros (_ & ? & [= <-] & ?); lia|intros; split; [done|]; exists z; split; [done|lia]]).
  - eapply mask_says_iff; [|apply (says_constant (AInt t v n)); exact Hn]. intros i Hi. cbn beta. rewrite cell_int. cbn [array_nulls].
    specialize (Ht _ (Hin i Hi)). destruct (is_valid_in n i); [|by split; [intros [? _]|]]. cbn zeta in Ht |- *.
    destruct gte; cbn [negb]; (split; [intros [_ E]; (discriminate E || lia)|intros; split; (done || lia)]).
  - unfold compare_declared; cbn [ic_values ic_nulls].
    assert (Hyb : v = [] \/ y = x /\ bits = int_bits t /\ signed = values_signed ints).
    { destruct v as [|z v']; [by left|right]. apply (Ht z). specialize (Hin 0%nat ltac:(cbn; lia)). done. }
    destruct Hyb as [->|(-> & -> & ->)]; [by split; [|cbn; lia]|].
    eapply mask_says_iff; [|apply (says_declared t v n (fun d => if gte then x <=? d else d <=? x))].
    intros i Hi. cbn beta. destruct (cell_at (AInt t v n) i); try done. destruct gte; cbn; lia.
Qed.

Lemma compare_spec v gte a : scalar_ok v -> array_ok a -> plain a ->
  evaluates (fun a => compare v a gte) (threshold_supports v) (threshold_admits v gte) a.
Proof.
  intros Hok Ha Hp. unfold evaluates. destruct (as_ints v) as [ints|] eqn:Ei.
  - destruct (as_ints_values v ints Ei Hok) as [_ [x Hx]].
    assert (threshold_supports v (array_type a) = is_integer (array_type a)) as -> by by destruct v.
    assert (compare v a gte = or_unsupported (compare_int a ints gte) "an integer threshold" a) as ->.
    { destruct v; try done; by injection Ei as <-. }
    destruct a as [t y n| | | | | | | | |]; try (by eexists).
    destruct (compare_int_spec ints x gte t y n Hx Ha) as (m & Em & Hm). unfold or_unsupported. rewrite Em. cbn [array_type is_integer width_of].
    exists m. split; [done|]. eapply mask_says_iff; [|exact Hm]. intros i _. unfold threshold_admits. rewrite Ei, cell_int, Hx.
    destruct (is_valid_in n i); [|by destruct v]. cbn beta zeta.
    destruct v; try done; by rewrite Forall_singleton.
  - destruct v as [b| | | | | | |s]; try done; [by eexists|]. destruct a as [|t y n| | | | | | | |]; try (by eexists).
    cbn [threshold_supports array_type is_text compare compare_text]. eexists. split; [done|].
    destruct gte; rewrite ?cmp_text_gt_eq_spec, ?cmp_text_lt_eq_spec; (eapply mask_says_iff; [|apply says_lift_null]);
      intros i Hi; cbn beta; rewrite cell_text; destruct (lookup_lt_is_Some_2 y i Hi) as [z Hz]; rewrite Hz; cbn;
      (destruct (is_valid_in n i); [|by split; [intros [? _]|]]); (split; [by intros (_ & ? & [= <-] & ?)|eauto]).
Qed.

(** ** Bloom filters *)

Definition bit_of (bytes : list Z) (j : nat) : bool :=
  Z.testbit (default 0 (bytes !! (j / 8)%nat)) (Z.of_nat (j mod 8)).

Lemma set_bit_spec bytes j : (j < length bytes * 8)%nat ->
  exists bytes', set_bit (E:=UnsupportedType) bytes j = Ok bytes' /\ length bytes' = length bytes /\
    forall k, bit_of bytes' k = bit_of bytes k || (k =? j)%nat.
Proof.
  intros Hj. assert (Hb : (j / 8 < length bytes)%nat) by (apply Nat.Div0.div_lt_upper_bound; lia).
  destruct (lookup_lt_is_Some_2 bytes (j / 8)%nat Hb) as [b Eb].
  unfold set_bit. rewrite (vec_get_ok _ _ b Eb). cbn [obind]. rewrite vec_set_ok by done.
  eexists. split; [done|]. split; [by rewrite length_insert|]. intros k. unfold bit_of.
  pose proof (Nat.div_mod_eq j 8) as Hdj. pose proof (Nat.div_mod_eq k 8) as Hdk.
  pose proof (Nat.mod_upper_bound j 8 ltac:(lia)). pose proof (Nat.mod_upper_bound k 8 ltac:(lia)).
  destruct (decide (k / 8 = j / 8)%nat) as [Ekj|Hne].
  - rewrite Ekj, list_lookup_insert_eq, Eb by done. cbn [from_option id]. rewrite Z.lor_spec, Z.shiftl_1_l, Z.pow2_bits_eqb by lia.
    f_equal. destruct (Nat.eqb_spec k j) as [->|]; [by apply Z.eqb_eq|]. apply Z.eqb_neq. lia.
  - rewrite list_lookup_insert_ne by done. destruct (Nat.eqb_spec k j) as [->|]; [done|]. by rewrite orb_false_r.
Qed.

(** The bit a needle's [n]-th hash names. *)
Definition hash_bit (needle : list Z) (width n : nat) : nat :=
  Z.to_nat (xxh3_seeded (Z.of_nat n) (needle ++ [255]) mod Z.of_nat (width * 8)).

Lemma hash_bit_lt needle width n : (0 < width)%nat -> (hash_bit needle width n < width * 8)%nat.
Proof. intros Hw. unfold hash_bit. pose proof (Z.mod_pos_bound (xxh3_seeded (Z.of_nat n) (needle ++ [255])) (Z.of_nat (width * 8)) ltac:(lia)). lia. Qed.

(** A mask of [width] bytes has exactly the needle's bits. *)
Definition needle_mask (num_hashes width : nat) (needle bits : list Z) : Prop :=
  length bits = width /\ forall j, (j < width * 8)%nat -> bit_of bits j = true <-> exists n, (n < num_hashes)%nat /\ hash_bit needle width n = j.

Lemma needle_mask_built num_hashes width needle : (0 < width)%nat ->
  exists bits, foldM (E:=UnsupportedType) (fun bits n => let* bit := bloom_bit needle n (width * 8) in set_bit bits bit)
    (seq 0 num_hashes) (replicate width 0) = Ok bits /\ needle_mask num_hashes width needle bits.
Proof.
  intros Hw. induction num_hashes as [|k IH].
  { eexists. split; [done|]. split; [apply length_replicate|]. intros j Hj. unfold bit_of.
    split; [|intros (? & ? & _); lia]. intros E. exfalso. revert E.
    destruct (replicate width 0 !! (j / 8)%nat) as [b|] eqn:Eb; cbn [from_option id]; [|by rewrite Z.bits_0].
    apply lookup_replicate in Eb as [-> _]. by rewrite Z.bits_0. }
  destruct IH as (bits & E & Hl & Hb). rewrite seq_S, foldM_app, E. cbn [obind foldM Nat.add].
  unfold bloom_bit. destruct (Nat.eqb_spec (width * 8) 0) as [|_]; [lia|]. cbn [obind]. fold (hash_bit needle width k).
  destruct (set_bit_spec bits (hash_bit needle width k)) as (bits' & -> & Hl' & Hb'); [rewrite Hl; by apply hash_bit_lt|].
  cbn [obind]. exists bits'. split; [done|]. split; [congruence|]. intros j Hj. rewrite Hb', orb_true_iff, Hb, Nat.eqb_eq by done. split.
  - intros [(n & Hn & <-)| ->]; [exists n|exists k]; split; (done || lia).
  - intros (n & Hn & <-). destruct (decide (n = k)) as [->|]; [by right|left]. exists n. split; [lia|done].
Qed.

Lemma covers_fold (bits filter : list Z) : length bits = length filter ->
  forall acc, fold_left (fun (missing : Z) (p : Z * Z) => Z.lor missing (Z.land p.1 (as_unsigned 8 (Z.lnot p.2)))) (zip bits filter) acc = 0 <->
  acc = 0 /\ forall i, (i < length bits)%nat -> Z.land (default 0 (bits !! i)) (as_unsigned 8 (Z.lnot (default 0 (filter !! i)))) = 0.
Proof.
  revert filter; induction bits as [|b bits IH]; intros [|f filter] Hl acc; try done; cbn [zip zip_with fold_left].
  { split; [intros ->; split; [done|]; cbn; lia|by intros [-> _]]. }
  rewrite IH by (by injection Hl). cbn [fst snd]. rewrite Z.lor_eq_0_iff. split.
  - intros [[-> Hb] Hr]. split; [done|]. intros [|i] Hi; cbn; [done|]. apply Hr. cbn in Hi. lia.
  - intros [-> Hr]. split; [split; [done|apply (Hr 0%nat); cbn; lia]|]. intros i Hi. apply (Hr (S i)). cbn. lia.
Qed.

Lemma land_missing b s : Z.land b (as_unsigned 8 (Z.lnot s)) = 0 <->
  forall k, 0 <= k < 8 -> Z.testbit b k = true -> Z.testbit s k = true.
Proof.
  assert (Hbit : forall k, 0 <= k -> Z.testbit (Z.land b (as_unsigned 8 (Z.lnot s))) k = Z.testbit b k && ((k <? 8) && negb (Z.testbit s k))).
  { intros k Hk. rewrite Z.land_spec. f_equal. unfold as_unsigned. 
    destruct (Z.ltb_spec k 8); [rewrite Z.mod_pow2_bits_low, Z.lnot_spec by lia; done|rewrite Z.mod_pow2_bits_high by lia; done]. }
  split.
  - intros E k Hk Hb. specialize (Hbit k ltac:(lia)). rewrite E, Z.bits_0, Hb in Hbit.
    destruct (Z.ltb_spec k 8); [|lia]. by destruct (Z.testbit s k).
  - intros Hs. apply Z.bits_inj'. intros k Hk. rewrite Z.bits_0, Hbit by done.
    destruct (Z.testbit b k) eqn:Eb; [|done]. destruct (Z.ltb_spec k 8); [|done]. cbn. by rewrite Hs.
Qed.

Lemma covers_spec (bits filter : list Z) : length bits = length filter ->
  covers bits filter = true <-> forall j, (j < length bits * 8)%nat -> bit_of bits j = true -> bit_of filter j = true.
Proof.
  intros Hl. unfold covers. rewrite Z.eqb_eq, (covers_fold bits filter Hl 0). unfold bit_of. split.
  - intros [_ Hr] j Hj. specialize (Hr (j / 8)%nat ltac:(apply Nat.Div0.div_lt_upper_bound; lia)).
    rewrite land_missing in Hr. apply Hr. pose proof (Nat.mod_upper_bound j 8 ltac:(lia)). lia.
  - intros Hr. split; [done|]. intros i Hi. apply land_missing. intros k Hk Hb.
    specialize (Hr (i * 8 + Z.to_nat k)%nat ltac:(lia)).
    rewrite Nat.div_add_l, Nat.div_small, Nat.add_0_r in Hr by lia.
    rewrite Nat.add_comm, Nat.Div0.mod_add, Nat.mod_small, Z2Nat.id in Hr by lia. by apply Hr.
Qed.

Lemma maybe_member_bits num_hashes needle (filter : list Z) : filter <> [] ->
  maybe_member num_hashes needle filter <->
  forall n, (n < num_hashes)%nat -> bit_of filter (hash_bit needle (length filter) n) = true.
Proof.
  intros Hne. assert (0 < length filter)%nat by (destruct filter; [done|cbn; lia]).
  unfold maybe_member, bit_of, hash_bit. cbn zeta.
  assert (Hidx : forall h, 0 <= h -> (Z.to_nat (h / 8) = Z.to_nat h / 8)%nat /\ h mod 8 = Z.of_nat (Z.to_nat h mod 8)).
  { intros h Hh. rewrite Nat2Z.inj_mod, Z2Nat.inj_div, Z2Nat.id by lia. done. }
  assert (Hpos : forall n, 0 <= xxh3_seeded (Z.of_nat n) (needle ++ [255]) mod Z.of_nat (length filter * 8)).
  { intros n. apply Z.mod_pos_bound. lia. }
  split; intros Hm n Hn; specialize (Hm n Hn); destruct (Hidx _ (Hpos n)) as [E1 E2]; by rewrite E1, E2 in * || rewrite <- E1, <- E2.
Qed.

(** The cached masks, once built, are the needles' at their width. *)
Definition masks_ok (needles : list (list Z)) (num_hashes : nat) (st : NeedleMasks) : Prop :=
  nm_width st = 0%nat \/ Forall2 (needle_mask num_hashes (nm_width st)) needles (nm_masks st).

Lemma nm_build_spec needles num_hashes width : (0 < width)%nat ->
  exists st, nm_build (E:=UnsupportedType) needles num_hashes width = Ok st /\ nm_width st = width /\
    Forall2 (needle_mask num_hashes width) needles (nm_masks st).
Proof.
  intros Hw. unfold nm_build.
  assert (exists masks, mapM_ok (E:=UnsupportedType) (fun needle => foldM (fun bits n =>
      let* bit := bloom_bit needle n (width * 8) in set_bit bits bit) (seq 0 num_hashes) (replicate width 0)) needles = Ok masks /\
      Forall2 (needle_mask num_hashes width) needles masks) as (masks & -> & Hm).
  { induction needles as [|needle needles (masks & E & IH)]; [by exists []|].
    destruct (needle_mask_built num_hashes width needle Hw) as (bits & Eb & Hb).
    exists (bits :: masks). cbn [mapM_ok]. rewrite Eb, E. split; [done|by constructor]. }
  cbn [obind]. by eexists.
Qed.

Lemma any_member_spec needles num_hashes st (filter : list Z) : masks_ok needles num_hashes st ->
  exists found st', any_member (E:=UnsupportedType) needles num_hashes st filter = Ok (found, st') /\
    masks_ok needles num_hashes st' /\ (found = true <-> bloom_admits needles num_hashes (CBytes filter)).
Proof.
  intros Hst. unfold any_member, bloom_admits. case_bool_decide as Hne.
  { exists false, st. split_and!; [done..|]. split; [done|by intros [? _]]. }
  assert (Hw : (0 < length filter)%nat) by (destruct filter; [done|cbn; lia]).
  assert (exists st', (if (length filter =? nm_width st)%nat then Ok st else nm_build (E:=UnsupportedType) needles num_hashes (length filter)) = Ok st' /\
    nm_width st' = length filter /\ Forall2 (needle_mask num_hashes (length filter)) needles (nm_masks st')) as (st' & -> & Hw' & Hm).
  { destruct (Nat.eqb_spec (length filter) (nm_width st)) as [E|_]; [|by apply nm_build_spec].
    exists st. destruct Hst as [|Hst]; [lia|]. by rewrite E. }
  cbn [obind]. eexists _, st'. split; [done|]. split; [right; by rewrite Hw'|].
  rewrite existsb_exists. setoid_rewrite <- list_elem_of_In.
  assert (Hcov : forall needle bits, needle_mask num_hashes (length filter) needle bits ->
    covers bits filter = true <-> maybe_member num_hashes needle filter).
  { intros needle bits [Hl Hb]. rewrite covers_spec by done. rewrite maybe_member_bits by done. rewrite Hl. split.
    - intros Hc n Hn. pose proof (hash_bit_lt needle _ n Hw). apply Hc; [done|]. apply Hb; [done|]. by exists n.
    - intros Hn j Hj Hbit. apply Hb in Hbit as (n & Hlt & <-); [|done]. by apply Hn. }
  split.
  - intros (bits & Hin & Hc). split; [done|]. apply list_elem_of_lookup in Hin as [i Hi].
    destruct (Forall2_lookup_r _ _ _ _ _ Hm Hi) as (needle & Hn & Hnm).
    exists needle. split; [by eapply list_elem_of_lookup_2|]. by apply (Hcov needle bits).
  - intros [_ (needle & Hin & Hmm)]. apply list_elem_of_lookup in Hin as [i Hi].
    destruct (Forall2_lookup_l _ _ _ _ _ Hm Hi) as (bits & Hb & Hnm).
    exists bits. split; [by eapply list_elem_of_lookup_2|]. by apply (Hcov needle bits).
Qed.

Lemma bloom_spec needles num_hashes a : array_ok a -> plain a ->
  evaluates (bloom_evaluate needles num_hashes) (is_bytes true) (fun _ => bloom_admits needles num_hashes) a.
Proof.
  intros _ _. unfold evaluates, bloom_evaluate. destruct (is_bytes true (array_type a)) eqn:Eb.
  2: { destruct (bytes_column a true) eqn:E; [|by eexists]. exfalso.
       assert (is_bytes true (array_type a) = true) by (apply bytes_column_type; by eexists). congruence. }
  apply bytes_column_type in Eb as [[values nulls] Eb]. rewrite Eb.
  destruct (foldM_rows (bloom_row needles num_hashes values nulls) (masks_ok needles num_hashes)
    (fun i => bloom_admits needles num_hashes (cell_at a i)) (length values)) with (s := {| nm_width := 0; nm_masks := [] |})
    as (bs & s' & -> & Hl & _ & Hbs); [|by left|].
  - intros out s i Hi Hs. unfold bloom_row. cbn [fst snd]. rewrite (proj2 (bytes_column_cell a true values nulls i Eb)).
    destruct (is_valid_in nulls i); [|by exists false, s].
    destruct (any_member_spec needles num_hashes s (default [] (values !! i)) Hs) as (found & s' & -> & Hs' & Hf).
    exists found, s'. by cbn [obind].
  - cbn [obind]. eexists. split; [done|]. rewrite (proj1 (bytes_column_cell a true values nulls 0 Eb)).
    pose proof (says_of_bools bs) as Hm. rewrite Hl in Hm. exact (mask_says_iff _ _ _ _ Hbs Hm).
Qed.

(** ** Sets *)

Lemma sets_contain_spec sets text : Forall (fun set => fuse8_sound (ds_fuse8 set)) sets ->
  exists b, sets_contain (E:=UnsupportedType) sets text = Ok b /\
    (b = true <-> exists set, set ∈ sets /\ fuse8_contains (E:=UnsupportedType) (ds_fuse8 set) text = Ok true).
Proof.
  induction 1 as [|set sets Hs _ (b & Eb & IH)]; cbn [sets_contain].
  { exists false. split; [done|]. split; [done|]. by intros (? & ?%not_elem_of_nil & _). }
  destruct (fuse8_sound_contains (E:=UnsupportedType) _ text Hs) as [[] E]; rewrite E; cbn [obind].
  - exists true. split; [done|]. split; [|done]. intros _. exists set. split; [by left|done].
  - exists b. split; [done|]. rewrite IH. split.
    + intros (set' & Hin & Hc). exists set'. split; [by right|done].
    + intros (set' & [->|Hin]%elem_of_cons & Hc); [congruence|by exists set'].
Qed.

(** Reusing the previous row's verdict changes no verdict. *)
Lemma verdicts_spec len value passes :
  (forall v, exists b, passes v = Ok b) ->
  exists bs, verdicts len value passes = Ok bs /\ length bs = len /\
    forall i, (i < len)%nat -> bs !! i = Some true <-> exists v, value i = Some v /\ passes v = Ok true.
Proof.
  intros Hp. unfold verdicts.
  destruct (foldM_rows (verdict_row value passes)
    (fun prev => match prev with Some (v, b) => passes v = Ok b | None => True end)
    (fun i => exists v, value i = Some v /\ passes v = Ok true) len) with (s := @None (list Z * bool))
    as (bs & s' & -> & Hl & _ & Hbs); [|done|by exists bs].
  intros out prev i Hi Hprev. unfold verdict_row.
  assert (Hfresh : forall v, value i = Some v -> exists b s',
    (let* verdict := passes v in Ok (out ++ [verdict], Some (v, verdict))) = Ok (out ++ [b], s') /\
    (match s' with Some (v, b) => passes v = Ok b | None => True end) /\ (b = true <-> exists v, value i = Some v /\ passes v = Ok true)).
  { intros v Hv. destruct (Hp v) as [b Eb]. exists b, (Some (v, b)). rewrite Eb. cbn [obind]. split_and!; [done..|]. split.
    - intros ->. by exists v.
    - rewrite Hv. intros (? & [= <-] & E). congruence. }
  destruct (value i) as [v|] eqn:Ev; [|exists false, prev; split_and!; [done..|]; split; [done|by intros (? & ? & _)]].
  destruct prev as [[last b]|]; [|by apply Hfresh]. case_bool_decide as E; [subst|by apply Hfresh].
  exists b, (Some (last, b)). split_and!; [done..|]. split; [intros ->; by exists last|].
  intros (? & [= <-] & E). congruence.
Qed.

Lemma in_set_spec sets encoding a : Forall (fun set => fuse8_sound (ds_fuse8 set)) sets -> array_ok a -> plain a ->
  evaluates (in_set_evaluate sets encoding) (set_supports encoding) (fun _ => set_admits sets encoding) a.
Proof.
  intros Hs _ _. unfold evaluates, in_set_evaluate, set_supports.
  destruct (StringColumn_resolve a) as [column|] eqn:Es.
  - destruct a as [|t x n| | | | | | | |]; try done. injection Es as <-. cbn [array_type is_text orb sc_values sc_nulls].
    destruct (verdicts_spec (length x) (fun row => text_bytes <$> string_value {| sc_type := t; sc_values := x; sc_nulls := n |} row)
      (sets_contain sets)) as (bs & -> & Hl & Hbs).
    { intros v. destruct (sets_contain_spec sets v Hs) as (b & -> & _). by exists b. }
    cbn [obind]. eexists. split; [done|]. unfold with_nulls. pose proof (says_lift_null n (fun b : bool => b) bs) as Hm. rewrite Hl in Hm.
    eapply mask_says_iff; [|exact Hm]. intros i Hi. cbn beta. rewrite cell_text.
    assert (Hex : (exists v, bs !! i = Some v /\ v = true) <-> bs !! i = Some true) by (split; [by intros (? & ? & ->)|eauto]).
    rewrite Hex, Hbs by done. unfold string_value, set_admits; cbn [sc_nulls sc_values].
    destruct (is_valid_in n i); cbn; [|by split; [intros [? _]|intros (? & ? & ? & _)]].
    set (text := text_bytes (default ""%string (x !! i))).
    destruct (sets_contain_spec sets text Hs) as (b & Eb & Hb). split.
    + intros (_ & v & [= <-] & E). rewrite E in Eb. injection Eb as <-. destruct (proj1 Hb eq_refl) as (set & Hin & Hc). by exists text, set.
    + intros (? & set & [= <-] & Hin & Hc). split; [done|]. exists text. split; [done|]. rewrite Eb. f_equal. apply Hb. by exists set.
  - assert (Etext : is_text (array_type a) = false) by by destruct a. rewrite Etext. cbn [orb].
    destruct encoding as [enc|]; [|by eexists].
    assert (Henc : (enc = HexBytes \/ enc = Base58) \/ match enc with HexBytes | Base58 => False | _ => True end) by (destruct enc; auto).
    destruct Henc as [Henc|Henc]; [|destruct enc; try done; by eexists].
    assert (Hsup : match enc with HexBytes | Base58 => is_bytes false (array_type a) | _ => false end = is_bytes false (array_type a)) by by destruct Henc as [->| ->].
    rewrite Hsup. destruct (bytes_column a false) as [[values nulls]|] eqn:Eb.
    2: { destruct (is_bytes false (array_type a)) eqn:E; [|destruct Henc as [->| ->]; by eexists].
         apply bytes_column_type in E as [? E]. congruence. }
    assert (is_bytes false (array_type a) = true) as -> by (apply bytes_column_type; by eexists).
    assert (exists render, forall b, rendered (Some enc) b = Some (render b)) as [render Hrender] by (destruct Henc as [->| ->]; by eexists).
    set (value row := if is_valid_in nulls row then Some (default [] (values !! row)) else None).
    set (passes bytes := let* text := expect (rendered (Some enc) bytes) in sets_contain (E:=UnsupportedType) sets text).
    assert (Hpass : forall v, passes v = sets_contain sets (render v)) by (intros v; unfold passes; by rewrite Hrender).
    destruct (verdicts_spec (length values) value passes) as (bs & Ebs & Hl & Hbs).
    { intros v. rewrite Hpass. destruct (sets_contain_spec sets (render v) Hs) as (b & -> & _). by exists b. }
    exists (with_nulls bs nulls). split; [destruct Henc as [->| ->]; by rewrite Ebs|].
    rewrite (proj1 (bytes_column_cell a false values nulls 0 Eb)).
    unfold with_nulls. pose proof (says_lift_null nulls (fun b : bool => b) bs) as Hm. rewrite Hl in Hm.
    eapply mask_says_iff; [|exact Hm]. intros i Hi. cbn beta. rewrite (proj2 (bytes_column_cell a false values nulls i Eb)).
    assert (Hex : (exists v, bs !! i = Some v /\ v = true) <-> bs !! i = Some true) by (split; [by intros (? & ? & ->)|eauto]).
    rewrite Hex, Hbs by done. unfold value, set_admits. destruct (is_valid_in nulls i); [|by split; [intros [? _]|intros (? & ? & ? & _)]].
    cbn [rendered_text]. rewrite Hrender. set (b := default [] (values !! i)).
    destruct (sets_contain_spec sets (render b) Hs) as (v & Ev & Hv). split.
    + intros (_ & ? & [= <-] & E). rewrite Hpass, Ev in E. injection E as ->. destruct (proj1 Hv eq_refl) as (set & Hin & Hc). by exists (render b), set.
    + intros (? & set & [= <-] & Hin & Hc). split; [done|]. exists b. split; [done|]. rewrite Hpass, Ev. f_equal. apply Hv. by exists set.
Qed.

(** ** Lists *)

(** A wanted element. *)
Definition element_admits (u32_set : option (gset Z)) (string_set : option (gset string)) (x : cell) : Prop :=
  match u32_set, x with
  | Some set, CInt z => 0 <= z < 2 ^ 32 /\ z ∈ set
  | None, CText s => exists set, string_set = Some set /\ s ∈ set
  | _, _ => False
  end.

Lemma element_matches_spec u32_set string_set values elements range :
  is_Some u32_set \/ is_Some string_set ->
  (if bool_decide (is_Some u32_set) then Ints <$> IntColumn_resolve values else Text <$> StringColumn_resolve values) = Some elements ->
  exists b, element_matches u32_set string_set elements range = Ok b /\
    (b = true <-> exists j, j ∈ range /\ element_admits u32_set string_set (cell_at values j)).
Proof.
  intros Hsome He. destruct u32_set as [set|]; cbn in He.
  - destruct values as [t v n| | | | | | | | |]; try done. injection He as <-. cbn [element_matches expect obind].
    eexists. split; [done|]. rewrite existsb_exists. setoid_rewrite <- list_elem_of_In.
    split; intros (j & Hj & Hm); exists j; (split; [done|]); revert Hm; rewrite cell_int; unfold int_is_null, int_value; cbn [ic_nulls ic_values];
      (destruct (is_valid_in n j); cbn; [|done]); rewrite !andb_true_iff, bool_decide_eq_true, Z.leb_le, Z.ltb_lt; tauto.
  - destruct Hsome as [[]|[set ->]]; [done|]. destruct values as [|t v n| | | | | | | |]; try done. injection He as <-.
    cbn [element_matches expect obind]. eexists. split; [done|]. rewrite existsb_exists. setoid_rewrite <- list_elem_of_In.
    split; intros (j & Hj & Hm); exists j; (split; [done|]); revert Hm; rewrite cell_text; unfold string_value; cbn [sc_nulls sc_values];
      (destruct (is_valid_in n j); cbn; [|done]).
    + rewrite bool_decide_eq_true. eauto.
    + intros (? & [= <-] & ?). by apply bool_decide_eq_true.
Qed.

Lemma list_cell a offsets values nulls i :
  a = AList offsets values nulls \/ a = ALarge offsets values nulls ->
  cell_at a i = if is_valid_in nulls i then
    CList (cell_at values <$> seq (offset_at offsets i) (offset_at offsets (S i) - offset_at offsets i)) else CNull.
Proof. intros [-> | ->]; cbn; unfold is_null; cbn; by destruct (is_valid_in nulls i). Qed.

Lemma evaluate_list_spec u32_set string_set a offsets values nulls :
  is_Some u32_set \/ is_Some string_set ->
  a = AList offsets values nulls \/ a = ALarge offsets values nulls ->
  evaluates (fun _ => evaluate_list u32_set string_set a offsets values nulls) (contains_supports u32_set)
    (fun _ => contains_admits u32_set string_set) a.
Proof.
  intros Hsome Ha. unfold evaluates, evaluate_list.
  assert (Esup : contains_supports u32_set (array_type a) =
    if bool_decide (is_Some u32_set) then is_integer (array_type values) else is_text (array_type values)).
  { by destruct Ha as [-> | ->]. }
  rewrite Esup. destruct (if bool_decide (is_Some u32_set) then Ints <$> IntColumn_resolve values else Text <$> StringColumn_resolve values)
    as [elements|] eqn:He.
  2: { replace (if bool_decide (is_Some u32_set) then is_integer (array_type values) else is_text (array_type values)) with false; [by eexists|].
       destruct (bool_decide (is_Some u32_set)); by destruct values. }
  replace (if bool_decide (is_Some u32_set) then is_integer (array_type values) else is_text (array_type values)) with true
    by (destruct (bool_decide (is_Some u32_set)); by destruct values).
  unfold or_unsupported; cbn [ok_or obind].
  destruct (mapM_seq_decides (E:=UnsupportedType) (fun i => if is_valid_in nulls i
    then element_matches u32_set string_set elements (seq (offset_at offsets i) (offset_at offsets (S i) - offset_at offsets i)) else Ok false)
    (fun i => contains_admits u32_set string_set (cell_at a i)) (array_len a)) as (bs & -> & Hl & Hbs).
  - intros i Hi. rewrite (list_cell a offsets values nulls i Ha). destruct (is_valid_in nulls i); [|by exists false].
    destruct (element_matches_spec u32_set string_set values elements (seq (offset_at offsets i) (offset_at offsets (S i) - offset_at offsets i))
      Hsome He) as (b & -> & Hb).
    exists b. split; [done|]. rewrite Hb. cbn [contains_admits]. split.
    + intros (j & Hj & Hm). exists (cell_at values j). split; [|done]. apply list_elem_of_fmap. by exists j.
    + intros (x & (j & -> & Hj)%list_elem_of_fmap & Hm). by exists j.
  - cbn [obind]. eexists. split; [done|]. pose proof (says_of_bools bs) as Hm. rewrite Hl in Hm. exact (mask_says_iff _ _ _ _ Hbs Hm).
Qed.

(** ** Every predicate *)

(** Induction over predicates, the parts of a list included. *)
Lemma predicate_parts_ind (P : predicate -> Prop) :
  (forall p, match p with AnyOf parts => Forall P parts -> P p | _ => P p end) -> forall p, P p.
Proof.
  intros Hp. fix self 1. intros p. pose proof (Hp p) as H'. destruct p; try exact H'.
  apply H'. clear H'. induction parts as [|part parts IH]; constructor; [apply self|exact IH].
Qed.

Lemma scalar_admits_null v dt : ~ scalar_admits v dt CNull.
Proof. unfold scalar_admits, ints_admit. destruct v, dt; cbn; tauto. Qed.

Lemma list_admits_null values dt : ~ list_admits values dt CNull.
Proof.
  destruct values as [t v n|[] v n| | | | | | | |]; cbn; try tauto. unfold ints_admit. destruct (int_signed t), dt; cbn; tauto.
Qed.

Lemma threshold_admits_null v gte dt : ~ threshold_admits v gte dt CNull.
Proof. destruct v; cbn; tauto. Qed.

Lemma admits_null p dt : ~ admits p dt CNull.
Proof.
  revert p. refine (predicate_parts_ind _ _). intros [v|values| |sets enc|parts|v|v|u s|]; cbn [admits]; try tauto.
  - apply scalar_admits_null.
  - apply list_admits_null.
  - by intros (? & ? & ? & _).
  - induction 1 as [|part parts Hpart _ IH]; [tauto|]. intros [|]; [by apply Hpart|by apply IH].
  - apply threshold_admits_null.
  - apply threshold_admits_null.
Qed.

Lemma evaluate_any parts a :
  Forall (fun p => pred_ok p -> evaluates (evaluate p) (supports p) (admits p) a) parts ->
  pred_ok (AnyOf parts) -> evaluates (evaluate (AnyOf parts)) (supports (AnyOf parts)) (admits (AnyOf parts)) a.
Proof.
  intros Hparts Hok. unfold evaluates. cbn [evaluate supports admits].
  set (go := fix go (parts : list predicate) (any : option mask) : outcome UnsupportedType (option mask) :=
    match parts with [] => Ok any | part :: parts => let* m := evaluate part a in go parts (or_next any m) end).
  set (holds := fix go parts := match parts with [] => fun _ => False
    | part :: parts => fun i => admits part (array_type a) (cell_at a i) \/ go parts i end).
  assert (Hgen : forall any Q, any_says any (array_len a) Q ->
    if forallb (fun part => supports part (array_type a)) parts
    then exists any', go parts any = Ok any' /\ any_says any' (array_len a) (fun i => Q i \/ holds parts i)
    else exists e, go parts any = Err e).
  { clear -Hparts Hok K L. induction Hparts as [|part parts Hpart _ IH]; intros any Q Hany; cbn [forallb go holds].
    { exists any. split; [done|]. eapply any_says_iff; [|exact Hany]. tauto. }
    cbn [pred_ok] in Hok. destruct Hok as [Hp Hok]. specialize (Hpart Hp). unfold evaluates in Hpart.
    destruct (supports part (array_type a)); cbn [andb]; [|by destruct Hpart as [e ->]; exists e].
    destruct Hpart as (m & -> & Hm). cbn [obind]. specialize (IH Hok (or_next any m) _ (says_or_next any m _ _ _ Hany Hm)).
    destruct (forallb _ parts); [|exact IH]. destruct IH as (any' & E & Ha). exists any'. split; [exact E|].
    eapply any_says_iff; [|exact Ha]. tauto. }
  specialize (Hgen None (fun _ => False) ltac:(cbn; tauto)).
  destruct (forallb _ parts); [|by destruct Hgen as [e ->]; exists e]. destruct Hgen as (any & -> & Ha). cbn [obind].
  eexists. split; [done|]. apply says_any. eapply any_says_iff; [|exact Ha]. intros i _. cbn beta.
  clear. induction parts as [|part parts IH]; cbn [holds]; [tauto|]. tauto.
Qed.

Lemma evaluate_ok p a : pred_ok p -> array_ok a -> evaluates (evaluate p) (supports p) (admits p) a.
Proof.
  intros Hok Ha. revert p Hok. refine (predicate_parts_ind _ _).
  assert (Hdict : forall ev sup (P : data_type -> cell -> Prop), (forall dt, ~ P dt CNull) ->
    (forall b, array_ok b -> plain b -> evaluates ev sup P b) ->
    evaluates (through_dictionary ev) (fun dt => sup (value_type dt)) (fun dt => P (value_type dt)) a).
  { intros ev sup P Hnull Hev. apply through_dictionary_spec; [done|exact Hev|done]. }
  intros [v|values|needles nb k|sets enc|parts|v|v|u s|].
  - intros Hok. apply (Hdict (eq_evaluate v) (scalar_supports v) (scalar_admits v)); [|intros; by apply eq_spec].
    apply scalar_admits_null.
  - intros Hok. apply (Hdict (in_list_evaluate values) (list_supports values) (list_admits values)); [|intros; by apply in_list_spec].
    apply list_admits_null.
  - intros _. apply (Hdict (bloom_evaluate needles k) (is_bytes true) (fun _ => bloom_admits needles k)); [by intros _ []|].
    intros. by apply bloom_spec.
  - intros Hok. apply (Hdict (in_set_evaluate sets enc) (set_supports enc) (fun _ => set_admits sets enc)); [|intros; by apply in_set_spec].
    intros dt. exact (admits_null (InSet sets enc) dt).
  - intros Hparts Hok. by apply evaluate_any.
  - intros Hok. apply (Hdict (fun a => compare v a true) (threshold_supports v) (threshold_admits v true)); [|intros; by apply compare_spec].
    apply threshold_admits_null.
  - intros Hok. apply (Hdict (fun a => compare v a false) (threshold_supports v) (threshold_admits v false)); [|intros; by apply compare_spec].
    apply threshold_admits_null.
  - intros Hok. cbn [pred_ok] in Hok. unfold evaluates. cbn [evaluate supports admits]. unfold contains_any_evaluate.
    destruct a as [| | | |o x n| |o x n| | |]; try (by eexists).
    + apply (evaluate_list_spec u s _ o x n Hok). by left.
    + apply (evaluate_list_spec u s _ o x n Hok). by right.
  - intros _. unfold evaluates. cbn [supports evaluate]. eexists. split; [done|]. eapply mask_says_iff; [|apply says_all]. cbn. naive_solver.
Qed.

(** C26: A predicate reads exactly the stored types it supports and refuses every
    other, so a check against an empty column decides it; on a column it reads,
    at whatever width, offsets or dictionary, its mask selects exactly the rows
    whose values it admits, and no null row. *)
Theorem evaluate_spec p a :
  pred_ok p -> array_ok a ->
  (if supports p (array_type a)
   then exists m, evaluate p a = Ok m /\ mask_says m (array_len a) (fun i => admits p (array_type a) (cell_at a i))
   else exists e, evaluate p a = Err e) /\
  (forall empty, array_ok empty -> array_type empty = array_type a -> is_ok (evaluate p empty) = is_ok (evaluate p a)) /\
  (forall i m, evaluate p a = Ok m -> cell_at a i = CNull -> (i < array_len a)%nat -> m !! i <> Some (Some true)).
Proof.
  intros Hp Ha. pose proof (evaluate_ok p a Hp Ha) as He. split; [exact He|]. split.
  - intros b Hb Et. pose proof (evaluate_ok p b Hp Hb) as He'. unfold evaluates in He, He'. rewrite Et in He'.
    destruct (supports p (array_type a)).
    + destruct He as (m & -> & _), He' as (m' & -> & _). done.
    + destruct He as (m & ->), He' as (m' & ->). done.
  - intros i m Em Ec Hi. unfold evaluates in He. destruct (supports p (array_type a)); [|destruct He as [e He]; congruence].
    destruct He as (m' & Em' & _ & Hm). rewrite Em in Em'. injection Em' as <-. intros Ht%Hm; [|done].
    rewrite Ec in Ht. by apply admits_null in Ht.
Qed.
End specs.

Import ArrowInstances.
Import HexInstances.
Import XxhInstances.

Lemma evaluate_spec_witness :
  let column := AInt UInt8 [200; 7; 250] (Some [true; false; true]) in
  evaluate (RangeGte (SUInt8 201)) column = Ok [Some false; None; Some true] /\
  (exists m, evaluate (RangeGte (SUInt8 201)) column = Ok m /\
   mask_says m 3 (fun i => admits (RangeGte (SUInt8 201)) (DInt UInt8) (cell_at column i))).
Proof.
  intros column. split; [vm_compute; reflexivity|].
  apply (evaluate_spec (RangeGte (SUInt8 201)) column).
  - vm_compute; split; congruence.
  - vm_compute. repeat constructor; (congruence || (intros; congruence)).
Defined.
