(* ===== verification/Pruning.v ===== *)
(** Pruning and proof by statistics (src/scan/predicate.rs): what a row group's
    statistics say of its rows, that no group with a matching row is skipped, and
    that a group said to match throughout does. *)
From stdpp Require Import base strings list gmap sorting.
From Stdlib Require Import ZArith Lia.
From S2P Require Import Prelude Machine ListLib Errors Arrow Catalog Integers Counting Render Json Sets Predicate PredicateSpec ArrowReference.

#[local] Open Scope Z_scope.

(** ** What statistics say *)

(** Every value of the column is between the two, at the type it is stored at. *)
Definition describes (stats : StatRange) (a : array) : Prop :=
  forall i, (i < array_len a)%nat -> cell_at a i <> CNull ->
  match stats with
  | StatInts stored min max => value_type (array_type a) = stored /\ exists t z,
      stored = DInt t /\ cell_at a i = CInt z /\ in_int_type t z /\ min <= z <= max
  | StatText min max => exists s, cell_at a i = CText s /\ text_le min s = true /\ text_le s max = true
  end.

(** The value of a key is the stored value it was made of. *)
Lemma key_value_stored t z : in_int_type t z -> key_value (stored_key z) (int_signed t) = z.
Proof.
  intros Hz. unfold key_value. rewrite stored_key_mod.
  assert (Hb : 0 < int_bits t <= 64) by apply int_bits_pos. unfold in_int_type in Hz. destruct (int_signed t).
  - assert (2 ^ (int_bits t - 1) <= 2 ^ 63) by (apply Z.pow_le_mono_r; lia).
    unfold as_i64. rewrite (as_signed_mod 64 _ z) by (try lia; apply Z.mod_mod; lia).
    apply as_signed_id; change (64 - 1) with 63; lia.
  - assert (2 ^ int_bits t <= 2 ^ 64) by (apply Z.pow_le_mono_r; lia). apply Z.mod_small. lia.
Qed.

Lemma ints_outside_sound ints t min max z keys :
  stored_keys ints (DInt t) = Some keys -> keys_outside keys (DInt t) min max = Some true ->
  in_int_type t z -> min <= z <= max -> stored_key z ∉ keys.
Proof.
  intros _ Ho Hz Hmm Hin. unfold keys_outside in Ho. cbn [width_of mbind option_bind] in Ho. injection Ho as Ho.
  rewrite forallb_forall in Ho. specialize (Ho _ (proj1 (list_elem_of_In _ _) Hin)). cbn zeta in Ho.
  rewrite (key_value_stored t z Hz) in Ho. apply orb_true_iff in Ho as [?%Z.ltb_lt|?%Z.ltb_lt]; lia.
Qed.

(** The declared values of a stored value are its keys'. *)
Lemma declared_iff ints t z keys : in_values_range ints -> in_int_type t z -> stored_keys ints (DInt t) = Some keys ->
  ints_admit ints (DInt t) (CInt z) <-> stored_key z ∈ keys.
Proof. intros Hr Hz Hk. symmetry. by apply stored_keys_spec. Qed.

Lemma stored_keys_total ints t : exists keys, stored_keys ints (DInt t) = Some keys.
Proof. by eexists. Qed.

(** [scalar_admits] of an integer operand. *)
Lemma scalar_admits_int v ints dt c : as_ints v = Some ints -> scalar_admits v dt c <-> ints_admit ints dt c.
Proof. intros E. unfold scalar_admits. rewrite E. by destruct v. Qed.

Lemma scalar_can_skip_sound v stats a i : scalar_ok v -> describes stats a -> eq_can_skip v stats = true ->
  (i < array_len a)%nat -> ~ scalar_admits v (value_type (array_type a)) (cell_at a i).
Proof.
  intros Hok Hd Hs Hi Ha. specialize (Hd i Hi). destruct (decide (cell_at a i = CNull)) as [E|Hn].
  { rewrite E in Ha. by apply scalar_admits_null in Ha. }
  specialize (Hd Hn). destruct (as_ints v) as [ints|] eqn:Ei.
  - rewrite (scalar_admits_int v ints) in Ha by done. destruct (as_ints_values v ints Ei Hok) as [Hr _].
    destruct stats as [stored min max|min max].
    + destruct Hd as (Et & t & z & -> & Ec & Hz & Hmm). rewrite Et, Ec in Ha.
      assert (eq_can_skip v (StatInts (DInt t) min max) = default false (ints_outside ints (DInt t) min max)) as E.
      { destruct v; try done; by injection Ei as <-. }
      rewrite E in Hs. unfold ints_outside in Hs. destruct (stored_keys_total ints t) as [keys Hk]. rewrite Hk in Hs.
      cbn [mbind option_bind] in Hs. destruct (keys_outside keys (DInt t) min max) as [[]|] eqn:Eo; try done.
      apply (declared_iff ints t z keys Hr Hz Hk) in Ha. by apply (ints_outside_sound ints t min max z keys).
    + destruct Hd as (s & Ec & _). rewrite Ec in Ha. unfold ints_admit in Ha. by destruct (value_type _).
  - destruct v as [b| | | | | | |s]; try done. destruct stats as [stored min max|min max]; try done.
    destruct Hd as (x & Ec & H1 & H2). rewrite Ec in Ha. cbn in Ha. subst x. cbn in Hs. by rewrite H1, H2 in Hs.
Qed.

(** ** Lists *)

(** A sorted list has a value within bounds exactly when its first value not
    below the lower one is within them. *)
Lemma first_within {A B} (f : A -> B) (le : B -> B -> bool) (lo hi : B) (below above : A -> bool) sorted :
  (forall x, below x = negb (le lo (f x))) -> (forall x, above x = negb (le (f x) hi)) ->
  (forall x y, le x y = true \/ le y x = true) ->
  (forall x y z, le x y = true -> le y z = true -> le x z = true) ->
  StronglySorted (fun x y => le (f x) (f y) = true) sorted ->
  let first := partition_point below sorted in
  match sorted !! first with None => true | Some x => above x end = true ->
  forall x, x ∈ sorted -> le lo (f x) = true -> le (f x) hi = true -> False.
Proof.
  intros Hbl Hab Htot Htrans Hs first Hf x Hx Hlo Hhi.
  destruct (partition_point_spec (fun x y => le (f x) (f y) = true) below sorted) as (Hle & Hbelow & Habove); [|done|].
  { intros u v Huv. rewrite !Hbl. intros Hv. apply negb_true_iff in Hv. apply negb_true_iff. destruct (le lo (f u)) eqn:E; [|done].
    by rewrite (Htrans lo (f u) (f v)) in Hv. }
  fold first in Hle, Hbelow, Habove. rewrite <- (take_drop first sorted) in Hx. apply elem_of_app in Hx as [Hx|Hx].
  - rewrite Forall_forall in Hbelow. specialize (Hbelow x Hx). cbn in Hbelow. by rewrite Hbl, Hlo in Hbelow.
  - destruct (sorted !! first) as [y|] eqn:Ey; [|rewrite drop_ge in Hx by (by apply lookup_ge_None); by apply elem_of_nil in Hx].
    rewrite (drop_S _ _ _ Ey) in Hx. rewrite Hab in Hf. apply negb_true_iff in Hf.
    assert (Hyx : le (f y) (f x) = true).
    { apply elem_of_cons in Hx as [->|Hx]; [by destruct (Htot (f y) (f y))|].
      assert (Hd : StronglySorted (fun x y => le (f x) (f y) = true) (y :: drop (S first) sorted)).
      { rewrite <- (drop_S _ _ _ Ey). clear -Hs. generalize first. induction Hs as [|z l Hl IH Hz]; intros [|k]; cbn; try done; by constructor. }
      apply StronglySorted_inv in Hd as [_ Hd]. rewrite Forall_forall in Hd. by apply Hd. }
    by rewrite (Htrans (f y) (f x) hi Hyx Hhi) in Hf.
Qed.

Lemma text_le_total x y : text_le x y = true \/ text_le y x = true.
Proof. unfold text_le. rewrite (total_flip (cmp:=text_cmp) x y). destruct (text_cmp x y); auto. Qed.

Lemma text_le_trans x y z : text_le x y = true -> text_le y z = true -> text_le x z = true.
Proof.
  unfold text_le. destruct (text_cmp x y) eqn:E; [| |done].
  - by rewrite (total_eq (cmp:=text_cmp) x y z E).
  - destruct (text_cmp y z) eqn:E'; [| |done]; intros _ _.
    + apply text_cmp_eq in E' as ->. by rewrite E.
    + by rewrite (total_trans (cmp:=text_cmp) x y z E E').
Qed.

Lemma text_le_antisym x y : text_le x y = true -> text_le y x = true -> x = y.
Proof.
  unfold text_le. rewrite (total_flip (cmp:=text_cmp) x y). destruct (text_cmp x y) eqn:E; try done.
  intros _ _. by apply text_cmp_eq.
Qed.

Lemma elem_of_sorted_text (l : list string) s : Z.of_nat (length l) < 2 ^ 32 -> s ∈ l ->
  exists p, p ∈ sorted_text l /\ default ""%string (l !! p) = s.
Proof.
  intros Hl Hs. apply list_elem_of_lookup in Hs as [p Hp]. exists p. rewrite Hp. split; [|done].
  unfold sorted_text. rewrite elem_of_sort_by. unfold as_u32. rewrite as_unsigned_id, Nat2Z.id by lia.
  apply elem_of_seq. pose proof (lookup_lt_Some _ _ _ Hp). lia.
Qed.

Lemma list_can_skip_sound values stats a i : array_ok values -> Z.of_nat (array_len values) < 2 ^ 32 ->
  describes stats a -> in_list_can_skip values stats = true ->
  (i < array_len a)%nat -> ~ list_admits values (value_type (array_type a)) (cell_at a i).
Proof.
  intros Hv Hlen Hd Hs Hi Ha. specialize (Hd i Hi). destruct (decide (cell_at a i = CNull)) as [E|Hn].
  { rewrite E in Ha. by apply list_admits_null in Ha. }
  specialize (Hd Hn). destruct stats as [stored min max|min max]; cbn [in_list_can_skip] in Hs.
  - destruct Hd as (Et & t & z & -> & Ec & Hz & Hmm). rewrite Et, Ec in Ha.
    destruct values as [t' v n|[] v n| | | | | | | |]; try done. cbn [list_admits] in Ha.
    destruct (IntValues_from_array (AInt t' v n)) as [ints|] eqn:Ei; [|done]. pose proof (from_array_range _ _ Ei) as Hr.
    destruct (stored_keys_total ints t) as [keys Hk]. apply (declared_iff ints t z keys Hr Hz Hk) in Ha.
    cbn [mbind option_bind] in Hs. unfold sorted_values_at, keys_at in Hs.
    destruct (slot_of (DInt t)) as [slot|] eqn:Eslot; [|by unfold slot_of in Eslot; cbn in Eslot].
    rewrite Hk in Hs. cbn [mbind option_bind width_of] in Hs.
    set (sorted := sort_ints _) in Hs.
    apply (first_within (fun x => x) Z.leb min max (fun value => value <? min) (fun value => max <? value) sorted) with (x := z);
      try done; try (intros; lia); try lia.
    + unfold sorted, sort_ints. apply sort_by_sorted; intros; lia.
    + unfold sorted, sort_ints. rewrite elem_of_sort_by, list_elem_of_fmap. exists (stored_key z).
      rewrite (key_value_stored t z Hz). split; [done|]. by rewrite elem_of_elements, elem_of_list_to_set.
  - destruct Hd as (s & Ec & H1 & H2). rewrite Ec in Ha.
    destruct values as [t' v n|[] v n| | | | | | | |]; try done. cbn [list_admits] in Ha.
    destruct (elem_of_sorted_text v s Hlen Ha) as (p & Hp & <-).
    apply (first_within (fun p => default ""%string (v !! p)) text_le min max
      (fun p => negb (text_le min (default ""%string (v !! p)))) (fun p => negb (text_le (default ""%string (v !! p)) max))
      (sorted_text v)) with (x := p); try done.
    + apply text_le_total.
    + apply text_le_trans.
    + unfold sorted_text. apply sort_by_sorted.
      * intros x y. apply text_le_total.
      * intros x y w. apply text_le_trans.
Qed.

(** ** Thresholds *)

Lemma range_outside_sound v gte stats a i : scalar_ok v -> describes stats a -> range_outside v stats gte = true ->
  (i < array_len a)%nat -> ~ threshold_admits v gte (value_type (array_type a)) (cell_at a i).
Proof.
  intros Hok Hd Hs Hi Ha. specialize (Hd i Hi). destruct (decide (cell_at a i = CNull)) as [E|Hn].
  { rewrite E in Ha. by apply threshold_admits_null in Ha. }
  specialize (Hd Hn). destruct (as_ints v) as [ints|] eqn:Ei.
  - destruct (as_ints_values v ints Ei Hok) as [_ [x Hx]]. destruct stats as [stored min max|min max].
    + destruct Hd as (Et & t & z & -> & Ec & Hz & Hmm). rewrite Et, Ec in Ha.
      assert (Ha' : Forall (fun threshold => let value := declared_value z (int_bits t) (values_signed ints) in
        if gte then threshold <= value else value <= threshold) (values_list ints)).
      { unfold threshold_admits in Ha. rewrite Ei in Ha. by destruct v. }
      rewrite Hx, Forall_singleton in Ha'. cbn zeta in Ha'.
      assert (Er : range_outside v (StatInts (DInt t) min max) gte = match Threshold_new ints (DInt t) with
        | None => false | Some Below => negb gte | Some Above => gte
        | Some (Within value) => if gte then max <? value else value <? min
        | Some (Reinterpreted _ _ _) => false end).
      { unfold range_outside. rewrite Ei. by destruct v. }
      rewrite Er in Hs. destruct (Threshold_new_spec ints x t Hx) as (th & Eth & Ht). rewrite Eth in Hs. specialize (Ht z Hz). cbn zeta in Ht.
      destruct th as [|y| |y bits signed]; [destruct gte; [done|]| |destruct gte; [|done]|done]; [lia| |lia].
      destruct Ht as [-> Ez]. rewrite Ez in Ha'. destruct gte; apply Z.ltb_lt in Hs; lia.
    + destruct Hd as (s & Ec & _). rewrite Ec in Ha. by destruct v.
  - destruct v as [b| | | | | | |s]; try done. destruct stats as [stored min max|min max]; try done.
    destruct Hd as (x & Ec & H1 & H2). rewrite Ec in Ha. cbn in Ha, Hs. destruct gte; apply negb_true_iff in Hs.
    + by rewrite (text_le_trans s x max Ha H2) in Hs.
    + by rewrite (text_le_trans min x s H1 Ha) in Hs.
Qed.

(** ** Pruning is sound *)

Lemma can_skip_admits {X : Xxh3} {H : HexKernel} p stats a i : pred_ok p -> describes stats a -> can_skip p stats = true ->
  (i < array_len a)%nat -> ~ admits p (array_type a) (cell_at a i).
Proof.
  intros Hok Hd Hs Hi. revert p Hok Hs. refine (predicate_parts_ind _ _).
  intros [v|values|needles nb k|sets enc|parts|v|v|u s|]; cbn [can_skip admits]; try done.
  - intros Hok Hs. by apply (scalar_can_skip_sound v stats).
  - intros [Hok Hl] Hs. by apply (list_can_skip_sound values stats).
  - induction 1 as [|part parts Hpart _ IH]; intros Hok; [tauto|]. cbn [pred_ok] in Hok. destruct Hok as [Hp Hok]. cbn [forallb].
    rewrite andb_true_iff. intros [Hs1 Hs2] [Ha|Ha]; [by apply Hpart|]. by apply (IH Hok Hs2).
  - intros Hok Hs. by apply (range_outside_sound v true stats).
  - intros Hok Hs. by apply (range_outside_sound v false stats).
  - by intros _ _ [].
Qed.

(** ** Proof by statistics is sound *)

(** A group of one value. *)
Lemma describes_single_int stored m a i : describes (StatInts stored m m) a -> (i < array_len a)%nat -> cell_at a i <> CNull ->
  exists t, stored = DInt t /\ value_type (array_type a) = DInt t /\ cell_at a i = CInt m /\ in_int_type t m.
Proof.
  intros Hd Hi Hn. destruct (Hd i Hi Hn) as (Et & t & z & -> & Ec & Hz & Hmm). assert (z = m) as -> by lia. by exists t.
Qed.

Lemma describes_single_text m a i : describes (StatText m m) a -> (i < array_len a)%nat -> cell_at a i <> CNull ->
  cell_at a i = CText m.
Proof.
  intros Hd Hi Hn. destruct (Hd i Hi Hn) as (s & Ec & H1 & H2). by rewrite Ec, (text_le_antisym s m H2 H1).
Qed.

Lemma eq_matches_sound v stats a i : scalar_ok v -> describes stats a -> eq_matches_every_value v stats = true ->
  (i < array_len a)%nat -> cell_at a i <> CNull -> scalar_admits v (value_type (array_type a)) (cell_at a i).
Proof.
  intros Hok Hd Hm Hi Hn. destruct (as_ints v) as [ints|] eqn:Ei.
  - destruct (as_ints_values v ints Ei Hok) as [Hr _]. destruct stats as [stored min max|min max]; [|by destruct v].
    assert (Em : eq_matches_every_value v (StatInts stored min max) = (min =? max) && default false (ints_hold ints stored min)).
    { destruct v; try done; by injection Ei as <-. }
    rewrite Em in Hm. apply andb_true_iff in Hm as [->%Z.eqb_eq Hm].
    destruct (describes_single_int stored max a i Hd Hi Hn) as (t & -> & -> & -> & Hz).
    unfold ints_hold in Hm. destruct (stored_keys_total ints t) as [keys Hk]. rewrite Hk in Hm. cbn [mbind option_bind from_option id] in Hm.
    rewrite (scalar_admits_int v ints) by done. apply (declared_iff ints t max keys Hr Hz Hk).
    apply existsb_exists in Hm as (key & Hin & ->%Z.eqb_eq). by apply list_elem_of_In.
  - destruct v as [b| | | | | | |s]; try done. destruct stats as [stored min max|min max]; try done. cbn in Hm.
    apply andb_true_iff in Hm as [->%bool_decide_eq_true ->%bool_decide_eq_true].
    by rewrite (describes_single_text _ a i Hd Hi Hn).
Qed.

Lemma list_matches_sound values stats a i : describes stats a -> in_list_matches_every_value values stats = true ->
  (i < array_len a)%nat -> cell_at a i <> CNull -> list_admits values (value_type (array_type a)) (cell_at a i).
Proof.
  intros Hd Hm Hi Hn. destruct stats as [stored min max|min max]; cbn [in_list_matches_every_value] in Hm;
    apply andb_true_iff in Hm as [Emm Hm].
  - apply Z.eqb_eq in Emm as ->. destruct (describes_single_int stored max a i Hd Hi Hn) as (t & -> & -> & -> & Hz).
    destruct values as [t' v n| | | | | | | | |]; try done. cbn [list_admits].
    destruct (IntValues_from_array (AInt t' v n)) as [ints|] eqn:Ei; [|done]. pose proof (from_array_range _ _ Ei) as Hr.
    cbn [mbind option_bind] in Hm. unfold keys_at in Hm.
    destruct (slot_of (DInt t)) as [slot|] eqn:Eslot; [|by unfold slot_of in Eslot; cbn in Eslot].
    destruct (stored_keys_total ints t) as [keys Hk]. rewrite Hk in Hm. cbn [mbind option_bind] in Hm.
    apply (declared_iff ints t max keys Hr Hz Hk). by apply bool_decide_eq_true, elem_of_list_to_set in Hm.
  - apply bool_decide_eq_true in Emm as ->. rewrite (describes_single_text max a i Hd Hi Hn).
    destruct values as [|[] v n| | | | | | | |]; try done. cbn in Hm |- *. by apply bool_decide_eq_true, elem_of_list_to_set in Hm.
Qed.

Lemma matches_every_admits {X : Xxh3} {H : HexKernel} p stats a i : pred_ok p -> describes stats a ->
  matches_every_value p stats = true ->
  (i < array_len a)%nat -> cell_at a i <> CNull -> admits p (array_type a) (cell_at a i).
Proof.
  intros Hok Hd Hm Hi Hn. revert p Hok Hm. refine (predicate_parts_ind _ _).
  intros [v|values|needles nb k|sets enc|parts|v|v|u s|]; cbn [matches_every_value admits]; try done.
  - intros Hok Hm. by apply (eq_matches_sound v stats).
  - intros _ Hm. by apply (list_matches_sound values stats).
  - induction 1 as [|part parts Hpart _ IH]; intros Hok; [done|]. cbn [pred_ok] in Hok. destruct Hok as [Hp Hok]. cbn [existsb].
    rewrite orb_true_iff. intros [Hm|Hm]; [left; by apply Hpart|right; by apply (IH Hok)].
Qed.

(** ** Statistics at the stored type *)

(** How parquet records an integer: at 32 bits, or 64 when the type is wider. *)
Definition physical (t : int_type) (z : Z) : Z := as_signed (if int_bits t <=? 32 then 32 else 64) z.

(** A statistic of a value, at any width that keeps the value's bits. *)
Lemma stat_int_value t p v z n : in_int_type t z -> v mod 2 ^ int_bits t = z mod 2 ^ int_bits t ->
  stat_int (AInt p [v] n) (DInt t) = Some z.
Proof.
  intros Hz E. unfold stat_int. cbn [width_of mbind option_bind IntColumn_resolve int_len ic_values length Nat.eqb].
  unfold int_value; cbn [ic_values lookup list_lookup from_option id]. f_equal.
  rewrite declared_value_spec. pose proof (int_bits_pos t). pose proof (in_int_type_mod t z Hz) as Ez.
  destruct (int_signed t); rewrite Ez; [by apply as_signed_mod; [lia|]|exact E].
Qed.

Lemma physical_mod t z : physical t z mod 2 ^ int_bits t = z mod 2 ^ int_bits t.
Proof.
  pose proof (int_bits_pos t). unfold physical. set (w := if int_bits t <=? 32 then 32 else 64).
  assert (Hw : int_bits t <= w) by (unfold w; destruct (Z.leb_spec (int_bits t) 32); lia).
  rewrite <- (mod_pow_narrow w (int_bits t) (as_signed w z)) by lia.
  rewrite as_signed_eqm by lia. apply mod_pow_narrow. lia.
Qed.

Lemma stat_int_physical t p z n : in_int_type t z -> stat_int (AInt p [physical t z] n) (DInt t) = Some z.
Proof. intros Hz. apply stat_int_value; [done|]. apply physical_mod. Qed.

Section properties.
Context {K : ArrowKernels} {L : ArrowLaws K} {X : Xxh3} {XL : Xxh3Laws X} {H : HexKernel}.

(** A row's mask is not yes where its cell is not admitted. *)
Lemma selected_admits p a m i : pred_ok p -> array_ok a -> evaluate p a = Ok m ->
  (i < array_len a)%nat -> m !! i = Some (Some true) <-> admits p (array_type a) (cell_at a i).
Proof.
  intros Hp Ha Em Hi. pose proof (evaluate_ok p a Hp Ha) as He. unfold evaluates in He.
  destruct (supports p (array_type a)); [|destruct He as [e He]; congruence].
  destruct He as (m' & Em' & _ & Hm). rewrite Em in Em'. injection Em' as <-. by apply Hm.
Qed.

Lemma selected_length p a m : pred_ok p -> array_ok a -> evaluate p a = Ok m -> length m = array_len a.
Proof.
  intros Hp Ha Em. pose proof (evaluate_ok p a Hp Ha) as He. unfold evaluates in He.
  destruct (supports p (array_type a)); [|destruct He as [e He]; congruence].
  destruct He as (m' & Em' & Hl & _). congruence.
Qed.

(** C27: A predicate never skips a row group that has a row it selects: wherever the
    statistics bound the column and the predicate says they rule it out, its mask
    over that column is all no. *)
Theorem can_skip_sound p stats a m :
  pred_ok p -> array_ok a -> describes stats a ->
  can_skip p stats = true -> evaluate p a = Ok m -> true_count m = 0%nat.
Proof.
  intros Hp Ha Hd Hs Em. apply (mask_says_true_count m (length m) (fun i => m !! i = Some (Some true))).
  { split; [done|]. tauto. }
  intros i Hi Ht. rewrite (selected_length p a m Hp Ha Em) in Hi.
  rewrite (selected_admits p a m i Hp Ha Em Hi) in Ht. exact (can_skip_admits p stats a i Hp Hd Hs Hi Ht).
Qed.

(** A predicate said to hold for every row of a group, by statistics that bound
    the column, selects each of its rows that is not null. *)
Theorem matches_every_value_sound p stats a m :
  pred_ok p -> array_ok a -> describes stats a ->
  matches_every_value p stats = true -> evaluate p a = Ok m ->
  forall i, (i < array_len a)%nat -> m !! i = Some (Some true) <-> cell_at a i <> CNull.
Proof.
  intros Hp Ha Hd Hm Em i Hi. rewrite (selected_admits p a m i Hp Ha Em Hi). split.
  - intros Had Ec. rewrite Ec in Had. exact (admits_null p _ Had).
  - by apply (matches_every_admits p stats a i).
Qed.

End properties.

(** The statistics of a row group, read at the type its column is stored at,
    bound the column: of an integer column whose least and greatest value parquet
    recorded at its physical width, and of a text column. *)
Theorem StatRange_new_spec a nulls nulls' :
  (forall t p lo hi,
     value_type (array_type a) = DInt t -> in_int_type t lo -> in_int_type t hi ->
     (forall i, (i < array_len a)%nat -> cell_at a i <> CNull -> exists z, cell_at a i = CInt z /\ in_int_type t z /\ lo <= z <= hi) ->
     exists stats, StatRange_new (DInt t) (AInt p [physical t lo] nulls) (AInt p [physical t hi] nulls') = Some stats /\
       describes stats a) /\
  (forall dt lo hi,
     is_integer dt = false ->
     (forall i, (i < array_len a)%nat -> cell_at a i <> CNull -> exists s, cell_at a i = CText s /\ text_le lo s = true /\ text_le s hi = true) ->
     exists stats, StatRange_new dt (AText Utf8 [lo] nulls) (AText Utf8 [hi] nulls') = Some stats /\ describes stats a).
Proof.
  split.
  - intros t p lo hi Et Hlo Hhi Hcells. unfold StatRange_new. cbn [is_integer].
    rewrite (stat_int_physical t p lo nulls Hlo), (stat_int_physical t p hi nulls' Hhi). cbn [mbind option_bind].
    eexists. split; [done|]. intros i Hi Hn. split; [done|]. destruct (Hcells i Hi Hn) as (z & Ec & Hz & Hmm). by exists t, z.
  - intros dt lo hi Ei Hcells. unfold StatRange_new. rewrite Ei. cbn [stat_text mbind option_bind].
    eexists. split; [done|]. intros i Hi Hn. by apply Hcells.
Qed.

(** ** Witnesses *)

Import ArrowInstances.
Import HexInstances.
Import XxhInstances.

(** A column of three rows, one of them null, and what its statistics say. *)
Definition sample_column : array := AInt UInt8 [200; 7; 250] (Some [true; false; true]).
Definition sample_stats : StatRange := StatInts (DInt UInt8) 200 250.

Lemma sample_described : describes sample_stats sample_column.
Proof.
  intros i Hi Hn. split; [done|].
  destruct i as [|[|[|i]]]; [| by destruct Hn | | cbn in Hi; lia]; cbn; eexists _, _; repeat split; cbn; lia.
Qed.

Lemma can_skip_sound_witness :
  can_skip (RangeLte (SUInt8 199)) sample_stats = true /\
  exists m, evaluate (RangeLte (SUInt8 199)) sample_column = Ok m /\ true_count m = 0%nat.
Proof.
  split; [vm_compute; reflexivity|]. eexists. split; [vm_compute; reflexivity|].
  apply (can_skip_sound (RangeLte (SUInt8 199)) sample_stats sample_column).
  - vm_compute; split; congruence.
  - vm_compute. repeat constructor; (congruence || (intros; congruence)).
  - exact sample_described.
  - vm_compute; reflexivity.
  - vm_compute; reflexivity.
Defined.

Lemma texts_ok : forall s s', String.length s = String.length s' -> (String.length s < 6)%nat -> array_ok (AText Utf8 [s; s'] None).
Proof. intros s s' E Hs. split; [done|]. repeat constructor; lia. Qed.

Lemma matches_every_value_sound_witness :
  let stats := StatText "abi" "abi" in
  let column := ADict UInt8 [0; 1; 0] (AText Utf8 ["abi"; "gas"] None) (Some [true; false; true]) in
  exists m, evaluate (InList (AText Utf8 ["gas"; "abi"] None)) column = Ok m /\
  forall i, (i < 3)%nat -> m !! i = Some (Some true) <-> cell_at column i <> CNull.
Proof.
  intros stats column. eexists. split; [vm_compute; reflexivity|].
  apply (matches_every_value_sound (InList (AText Utf8 ["gas"; "abi"] None)) stats column).
  - split; [apply texts_ok; [done|by vm_compute; lia]|by vm_compute].
  - split; [done|]. split; [apply texts_ok; [done|by vm_compute; lia]|]. intros [|[|[|row]]] Hr Hv; cbn in Hr, Hv |- *; (lia || done).
  - intros [|[|[|i]]] Hi Hn; cbn in Hi; try lia; [| by destruct Hn |]; by exists "abi"%string.
  - vm_compute; reflexivity.
  - vm_compute; reflexivity.
Defined.

Lemma StatRange_new_spec_witness :
  exists stats, StatRange_new (DInt UInt8) (AInt Int32 [200] None) (AInt Int32 [250] None) = Some stats /\
    describes stats sample_column.
Proof.
  destruct (StatRange_new_spec sample_column None None) as [Hints _].
  apply (Hints UInt8 Int32 200 250); [done|by vm_compute|by vm_compute|].
  intros [|[|[|i]]] Hi Hn; cbn in Hi; try lia; [| by destruct Hn |]; eexists; by repeat split.
Defined.
