(* ===== verification/RowPredicate.v ===== *)
(** Row predicates (src/scan/predicate.rs, from [RowPredicate] on): the columns'
    predicates and their alternatives over a batch, pruning by a row group's
    statistics, and the filter made of the lists of several items.

    The predicate of one column is behind the interface [ArrayPredicate], whose
    laws [PredicateLaws] are what the trait's comments promise; [predicate] is its
    instance. *)
From stdpp Require Import base strings list gmap.
From Stdlib Require Import ZArith Lia.
From S2P Require Import Prelude Machine ListLib Errors Arrow Catalog Integers Counting Render Json Sets Predicate PredicateSpec Pruning ArrowReference.

#[local] Open Scope Z_scope.

(** ** The interface *)

(** [src/src/scan/predicate.rs:221-267] ArrayPredicate. *)
Class ArrayPredicate (P : Type) := {
  ap_evaluate : P -> array -> Mask;
  ap_can_skip : P -> StatRange -> bool;
  ap_matches_every_value : P -> StatRange -> bool;
  ap_listed_values : P -> option array;
}.

(** What it promises: one answer for every stored type, and claims by statistics
    that evaluation bears out. *)
Class PredicateLaws (P : Type) `{ArrayPredicate P} := {
  ap_ok : P -> Prop;
  ap_supports : P -> data_type -> bool;
  ap_admits : P -> data_type -> cell -> Prop;
  ap_evaluates p a : ap_ok p -> array_ok a -> evaluates (ap_evaluate p) (ap_supports p) (ap_admits p) a;
  ap_skips p stats a i : ap_ok p -> describes stats a -> ap_can_skip p stats = true ->
    (i < array_len a)%nat -> ~ ap_admits p (array_type a) (cell_at a i);
  ap_matches p stats a i : ap_ok p -> describes stats a -> ap_matches_every_value p stats = true ->
    (i < array_len a)%nat -> cell_at a i <> CNull -> ap_admits p (array_type a) (cell_at a i);
}.

#[export] Instance predicate_array {K : ArrowKernels} {X : Xxh3} {H : HexKernel} : ArrayPredicate predicate := {|
  ap_evaluate := evaluate;
  ap_can_skip := can_skip;
  ap_matches_every_value := matches_every_value;
  ap_listed_values := listed_values;
|}.

#[export, program] Instance predicate_laws {K : ArrowKernels} {L : ArrowLaws K} {X : Xxh3} {XL : Xxh3Laws X} {H : HexKernel} : PredicateLaws predicate := {|
  ap_ok := pred_ok;
  ap_supports := supports;
  ap_admits := admits;
|}.
Next Obligation. intros. by apply evaluate_ok. Qed.
Next Obligation. intros. by apply (can_skip_admits p stats). Qed.
Next Obligation. intros. by apply (matches_every_admits p stats). Qed.

(** ** Data *)

(** [src/src/scan/predicate.rs:294-299] ColumnPredicate. *)
Record ColumnPredicate (P : Type) := { cp_column : string; cp_predicate : P }.
Arguments cp_column {P} _.
Arguments cp_predicate {P} _.

(** [src/src/scan/predicate.rs:309-319] RowPredicate. *)
Record RowPredicate (P : Type) := {
  rp_columns : list (ColumnPredicate P);
  rp_alternatives : list (list (ColumnPredicate P));
}.
Arguments rp_columns {P} _.
Arguments rp_alternatives {P} _.

(** [src/src/scan/predicate.rs:1392-1400] RowPredicate::with_alternatives. *)
Definition with_alternatives {P} (columns : list (ColumnPredicate P)) alternatives : RowPredicate P :=
  {| rp_columns := columns; rp_alternatives := alternatives |}.

(** [src/src/scan/predicate.rs:1388-1390] RowPredicate::new. *)
Definition row_new {P} (columns : list (ColumnPredicate P)) : RowPredicate P := with_alternatives columns [].

(** [src/src/scan/predicate.rs:1402-1406] RowPredicate::matches_every_row. *)
Definition matches_every_row {P} (r : RowPredicate P) : bool :=
  match rp_columns r, rp_alternatives r with [], [] => true | _, _ => false end.

(** [src/src/scan/predicate.rs:1408-1413] RowPredicate::column_predicates. *)
Definition column_predicates {P} (r : RowPredicate P) : list (ColumnPredicate P) :=
  rp_columns r ++ concat (rp_alternatives r).

(** [src/src/scan/predicate.rs:1415-1420] RowPredicate::required_columns. *)
Definition required_columns {P} (r : RowPredicate P) : list string := cp_column <$> column_predicates r.

(** [result = Some(match result { None => mask, Some(prev) => and(&prev, &mask) })]. *)
Definition and_next `{ArrowKernels} (result : option mask) (m : mask) : option mask :=
  Some match result with None => m | Some prev => boolean_and prev m end.

(** A row group's statistics by column: [ColumnStats] (src/scan/predicate.rs:1600-1602). *)
Abbreviation ColumnStats := (string -> option StatRange).

Section operations.
Context {K : ArrowKernels} {P : Type} {AP : ArrayPredicate P}.

(** [src/src/scan/predicate.rs:1482-1498] evaluate_all. *)
Definition evaluate_all (columns : list (ColumnPredicate P)) (batch : RecordBatch) : Mask :=
  let* result := foldM (fun result col_pred =>
    match column_by_name batch (cp_column col_pred) with
    | None => Ok result
    | Some col => let* m := ap_evaluate (cp_predicate col_pred) col in Ok (and_next result m)
    end) columns None in
  Ok (default (all_mask (num_rows batch) true) result).

(** The [any] of a list of masks' evaluations. *)
Definition evaluate_any_of {A} (f : A -> Mask) (l : list A) : outcome UnsupportedType (option mask) :=
  foldM (fun any x => let* m := f x in Ok (or_next any m)) l None.

(** [src/src/scan/predicate.rs:1422-1447] RowPredicate::evaluate. *)
Definition row_evaluate (r : RowPredicate P) (batch : RecordBatch) : Mask :=
  let* result := evaluate_all (rp_columns r) batch in
  if decide (rp_alternatives r = []) then Ok result
  else
    let* any := evaluate_any_of (fun group => evaluate_all group batch) (rp_alternatives r) in
    let* any := expect any in
    Ok (boolean_and result any).

(** [src/src/scan/predicate.rs:1500-1506] any_can_skip. *)
Definition any_can_skip (columns : list (ColumnPredicate P)) (stats_fn : ColumnStats) : bool :=
  existsb (fun col_pred =>
    match stats_fn (cp_column col_pred) with Some stats => ap_can_skip (cp_predicate col_pred) stats | None => false end)
    columns.

(** [src/src/scan/predicate.rs:1449-1459] RowPredicate::can_skip_row_group. *)
Definition can_skip_row_group (r : RowPredicate P) (stats_fn : ColumnStats) : bool :=
  let no_alternative_can_match :=
    negb (bool_decide (rp_alternatives r = [])) && forallb (fun group => any_can_skip group stats_fn) (rp_alternatives r) in
  any_can_skip (rp_columns r) stats_fn || no_alternative_can_match.

(** [src/src/scan/predicate.rs:1461-1479] RowPredicate::without_proven. *)
Definition without_proven (r : RowPredicate P) (proven : ColumnPredicate P -> bool) : option (RowPredicate P) :=
  if negb (existsb proven (column_predicates r)) then None
  else
    let unproven := List.filter (fun p => negb (proven p)) in
    let columns := unproven (rp_columns r) in
    let alternatives := unproven <$> rp_alternatives r in
    let alternatives := if existsb (fun g => match g with [] => true | _ => false end) alternatives then [] else alternatives in
    Some (with_alternatives columns alternatives).

(** [src/src/scan/predicate.rs:1508-1519] or_row_predicates. *)
Definition or_row_predicates (predicates : list (RowPredicate P)) (batch : RecordBatch) : Mask :=
  let* result := evaluate_any_of (fun pred => row_evaluate pred batch) predicates in
  Ok (default (all_mask (num_rows batch) false) result).

(** [src/src/scan/predicate.rs:1587-1599] or_masks. *)
Definition or_masks {E} (masks : list mask) (items : list nat) (len : nat) : outcome E mask :=
  let* result := foldM (fun result item => let* m := vec_get masks item in Ok (or_next result m)) items None in
  Ok (default (all_mask len false) result).

(** [src/src/scan/predicate.rs:1605-1618] check_stored_type: with the empty column
    of a type. *)
Definition check_stored_type (new_empty_array : data_type -> array) (p : P) (dt : data_type) : outcome UnsupportedType () :=
  let* _ := ap_evaluate p (new_empty_array dt) in Ok ().

(** [src/src/scan/predicate.rs:1573-1575] is_listed. *)
Definition is_listed (p : ColumnPredicate P) : bool :=
  match ap_listed_values (cp_predicate p) with Some _ => true | None => false end.

(** [Iterator::max_by_key]: the last of the greatest. *)
Definition max_by_key {A} (key : A -> nat) (l : list A) : option A :=
  fold_left (fun best x => Some match best with None => x | Some b => if (key x <? key b)%nat then b else x end) l None.

(** [src/src/scan/predicate.rs:1577-1585] most_demanded. *)
Definition most_demanded (predicates : list (ColumnPredicate P)) (demand : gmap string nat) : option (ColumnPredicate P) :=
  max_by_key (fun p => default 0%nat (demand !! cp_column p)) (List.filter is_listed predicates).
End operations.

(** [src/src/scan/predicate.rs:1521-1571] listed_union: how many items require a
    list on each column. *)
Definition union_demand `{ArrayPredicate P} (items : list (RowPredicate P)) : gmap string nat :=
  fold_left (fun demand p => <[cp_column p := S (default 0%nat (demand !! cp_column p))]> demand)
    (concat ((fun item => List.filter is_listed (rp_columns item)) <$> items)) ∅.

(** [src/src/scan/predicate.rs:1521-1571] listed_union: an item's own lists. *)
Definition union_choice `{ArrayPredicate P} (demand : gmap string nat) (item : RowPredicate P) : option (list (ColumnPredicate P)) :=
  match most_demanded (rp_columns item) demand with
  | Some required => Some [required]
  | None =>
      if decide (rp_alternatives item = []) then None
      else mapM (fun group => most_demanded group demand) (rp_alternatives item)
  end.

(** [src/src/scan/predicate.rs:1521-1571] listed_union: a list joins its column's. *)
Fixpoint add_list (column : string) (values : array) (unions : list (string * list array)) : list (string * list array) :=
  match unions with
  | [] => [(column, [values])]
  | (c, lists) :: unions =>
      if decide (c = column) then (c, lists ++ [values]) :: unions else (c, lists) :: add_list column values unions
  end.

(** [src/src/scan/predicate.rs:1521-1571] listed_union: the lists, by column. *)
Fixpoint union_lists `{ArrayPredicate P} (chosen : list (ColumnPredicate P)) (unions : list (string * list array)) :
  option (list (string * list array)) :=
  match chosen with
  | [] => Some unions
  | p :: chosen => values ← ap_listed_values (cp_predicate p); union_lists chosen (add_list (cp_column p) values unions)
  end.

(** [src/src/scan/predicate.rs:1521-1571] listed_union. *)
Definition listed_union {K : ArrowKernels} {X : Xxh3} {H : HexKernel} (items : list (RowPredicate predicate)) :
  option (RowPredicate predicate) :=
  let demand := union_demand items in
  chosen ← mapM (union_choice demand) items;
  unions ← union_lists (concat chosen) [];
  groups ← mapM (fun '(column, lists) =>
    values ← concat_arrays lists; Some [{| cp_column := column; cp_predicate := InList values |}]) unions;
  Some match groups with
       | [group] => row_new group
       | groups => with_alternatives [] groups
       end.

(** [src/src/scan/predicate.rs:1624-1630] col_never. *)
Definition col_never (column : string) : ColumnPredicate predicate := {| cp_column := column; cp_predicate := Never |}.

(** [src/src/scan/predicate.rs:1632-1638] col_eq. *)
Definition col_eq (column : string) (value : ScalarValue) : ColumnPredicate predicate :=
  {| cp_column := column; cp_predicate := Eq_ value |}.

(** [src/src/scan/predicate.rs:1640-1646] col_in_list. *)
Definition col_in_list (column : string) (values : array) : ColumnPredicate predicate :=
  {| cp_column := column; cp_predicate := InList values |}.

(** [src/src/scan/predicate.rs:1648-1654] col_list_contains_any_u32. *)
Definition col_list_contains_any_u32 (column : string) (values : list Z) : ColumnPredicate predicate :=
  {| cp_column := column; cp_predicate := ListContainsAny (Some (list_to_set values)) None |}.

(** [src/src/scan/predicate.rs:1656-1662] col_list_contains_any_string. *)
Definition col_list_contains_any_string (column : string) (values : list string) : ColumnPredicate predicate :=
  {| cp_column := column; cp_predicate := ListContainsAny None (Some (list_to_set values)) |}.

(** [src/src/scan/predicate.rs:1664-1675] col_bloom. *)
Definition col_bloom (column : string) (needles : list (list Z)) (num_bytes num_hashes : nat) : ColumnPredicate predicate :=
  {| cp_column := column; cp_predicate := BloomFilter needles num_bytes num_hashes |}.

(** ** What a row predicate means *)

Section meaning.
Context {P : Type} {AP : ArrayPredicate P} {PL : PredicateLaws P}.
Implicit Types r : RowPredicate P.

(** A column the batch does not have filters nothing. *)
Definition cp_admits (batch : RecordBatch) (i : nat) (cp : ColumnPredicate P) : Prop :=
  match column_by_name batch (cp_column cp) with
  | None => True
  | Some a => ap_admits (cp_predicate cp) (array_type a) (cell_at a i)
  end.

Definition cp_supports (batch : RecordBatch) (cp : ColumnPredicate P) : bool :=
  match column_by_name batch (cp_column cp) with None => true | Some a => ap_supports (cp_predicate cp) (array_type a) end.

Definition group_supports (batch : RecordBatch) : list (ColumnPredicate P) -> bool := forallb (cp_supports batch).

Definition row_supports (batch : RecordBatch) r : bool :=
  group_supports batch (rp_columns r) && forallb (group_supports batch) (rp_alternatives r).

Definition row_admits (batch : RecordBatch) r (i : nat) : Prop :=
  Forall (cp_admits batch i) (rp_columns r) /\
  (rp_alternatives r = [] \/ Exists (Forall (cp_admits batch i)) (rp_alternatives r)).

Definition group_ok : list (ColumnPredicate P) -> Prop := Forall (fun cp => ap_ok (cp_predicate cp)).

Definition row_ok r : Prop := group_ok (rp_columns r) /\ Forall group_ok (rp_alternatives r).
End meaning.

(** ** Loops that combine masks *)

(** What a loop's mask so far says. *)
Definition all_says (result : option mask) (n : nat) (P : nat -> Prop) : Prop :=
  match result with Some m => mask_says m n P | None => forall i, (i < n)%nat -> P i end.

(** A loop that evaluates every element it supports and combines the masks. *)
Lemma foldM_says {E S A} (says : S -> (nat -> Prop) -> Prop) (comb : Prop -> Prop -> Prop)
  (f : S -> A -> outcome E S) (sup : A -> bool) (Q : A -> nat -> Prop) (l : list A) :
  (forall acc R a, a ∈ l -> says acc R ->
     if sup a then exists acc', f acc a = Ok acc' /\ says acc' (fun i => comb (R i) (Q a i)) else exists e, f acc a = Err e) ->
  forall acc R, says acc R ->
  if forallb sup l
  then exists acc', foldM f l acc = Ok acc' /\ says acc' (fun i => fold_left (fun p a => comb p (Q a i)) l (R i))
  else exists e, foldM f l acc = Err e.
Proof.
  induction l as [|a l IH]; intros Hf acc R Hacc; cbn [forallb foldM fold_left]; [by exists acc|].
  pose proof (Hf acc R a ltac:(by left) Hacc) as Ha. destruct (sup a); cbn [andb].
  - destruct Ha as (acc' & -> & Hacc'). cbn [obind]. apply (IH (fun acc R b Hb => Hf acc R b (list_elem_of_further _ _ _ Hb)) acc' _ Hacc').
  - destruct Ha as [e ->]. by exists e.
Qed.

Lemma fold_and {A} (Q : A -> Prop) l R : fold_left (fun p a => p /\ Q a) l R <-> R /\ Forall Q l.
Proof. revert R; induction l as [|a l IH]; intros R; cbn; [rewrite Forall_nil; tauto|]. rewrite IH, Forall_cons. tauto. Qed.

Lemma fold_or {A} (Q : A -> Prop) l R : fold_left (fun p a => p \/ Q a) l R <-> R \/ Exists Q l.
Proof. revert R; induction l as [|a l IH]; intros R; cbn; [rewrite Exists_nil; tauto|]. rewrite IH, Exists_cons. tauto. Qed.

Section evaluation.
Context {K : ArrowKernels} {L : ArrowLaws K} {P : Type} {AP : ArrayPredicate P} {PL : PredicateLaws P}.
Implicit Types r : RowPredicate P.

Lemma says_and_next result m n (R Q : nat -> Prop) : all_says result n R -> mask_says m n Q ->
  all_says (and_next result m) n (fun i => R i /\ Q i).
Proof.
  destruct result as [prev|]; cbn; [apply says_and|]. intros Hn. apply mask_says_iff. intros i Hi. specialize (Hn i Hi). tauto.
Qed.

Lemma all_says_iff result n (R Q : nat -> Prop) : (forall i, (i < n)%nat -> R i <-> Q i) -> all_says result n R -> all_says result n Q.
Proof. destruct result; [apply mask_says_iff|]. cbn. intros H Hn i Hi. apply H, Hn; done. Qed.

Lemma says_all_default result n R : all_says result n R -> mask_says (default (all_mask n true) result) n R.
Proof.
  destruct result as [m|]; cbn [from_option id]; [done|]. cbn. intros H. eapply mask_says_iff; [|apply says_all].
  intros i Hi. specialize (H i Hi). tauto.
Qed.

Lemma evaluate_all_spec (group : list (ColumnPredicate P)) batch : group_ok group -> batch_ok batch ->
  if group_supports batch group
  then exists m, evaluate_all group batch = Ok m /\ mask_says m (num_rows batch) (fun i => Forall (cp_admits batch i) group)
  else exists e, evaluate_all group batch = Err e.
Proof.
  intros Hg Hb. unfold evaluate_all, group_supports.
  unshelve epose proof (foldM_says (fun result => all_says result (num_rows batch)) and
    (fun result col_pred => match column_by_name batch (cp_column col_pred) with
      | None => Ok result
      | Some col => let* m := ap_evaluate (cp_predicate col_pred) col in Ok (and_next result m) end)
    (cp_supports batch) (fun cp i => cp_admits batch i cp) group _ None (fun _ => True) ltac:(done)) as Hloop.
  - intros acc R cp Hcp Hacc. unfold cp_supports, cp_admits. destruct (column_by_name batch (cp_column cp)) as [a|] eqn:Ea.
    + destruct (column_ok batch _ a Hb Ea) as [Ha Hl]. unfold group_ok in Hg. rewrite Forall_forall in Hg.
      pose proof (ap_evaluates (cp_predicate cp) a (Hg cp Hcp) Ha) as He. unfold evaluates in He.
      destruct (ap_supports _ _); [|by destruct He as [e ->]; exists e]. destruct He as (m & -> & Hm). cbn [obind].
      eexists. split; [done|]. rewrite <- Hl. apply says_and_next; [by rewrite Hl|done].
    + exists acc. split; [done|]. eapply all_says_iff; [|exact Hacc]. tauto.
  - destruct (forallb _ group).
    + destruct Hloop as (acc & -> & Hacc). cbn [obind]. eexists. split; [done|]. apply says_all_default.
      eapply all_says_iff; [|exact Hacc]. intros i _. cbn beta. rewrite fold_and. tauto.
    + destruct Hloop as [e ->]. by exists e.
Qed.

Lemma evaluate_any_of_some {A} (f : A -> Mask) (l : list A) any :
  evaluate_any_of f l = Ok any -> l <> [] -> is_Some any.
Proof.
  unfold evaluate_any_of. assert (Hsome : forall l acc, is_Some acc ->
    foldM (fun any x => let* m := f x in Ok (or_next any m)) l acc = Ok any -> is_Some any).
  { induction l0 as [|x l0 IH]; intros acc Hacc; cbn; [by intros [= <-]|]. destruct (f x); cbn; try done. apply IH. by eexists. }
  destruct l as [|x l]; [done|]. cbn. destruct (f x); cbn; try done. intros E _. by apply (Hsome _ _ ltac:(by eexists) E).
Qed.

(** The masks of a list's elements. *)
Lemma evaluate_any_of_spec {A} (f : A -> Mask) (sup : A -> bool) (Q : A -> nat -> Prop) (l : list A) n :
  (forall x, x ∈ l -> if sup x then exists m, f x = Ok m /\ mask_says m n (Q x) else exists e, f x = Err e) ->
  if forallb sup l
  then exists any, evaluate_any_of f l = Ok any /\ any_says any n (fun i => Exists (fun x => Q x i) l)
  else exists e, evaluate_any_of f l = Err e.
Proof.
  intros Hf. unfold evaluate_any_of.
  unshelve epose proof (foldM_says (fun any R => any_says any n R) or (fun any x => let* m := f x in Ok (or_next any m))
    sup Q l _ None (fun _ => False) ltac:(cbn; tauto)) as Hloop.
  - intros acc R x Hx Hacc. specialize (Hf x Hx). destruct (sup x); [|by destruct Hf as [e ->]; exists e].
    destruct Hf as (m & -> & Hm). cbn [obind]. eexists. split; [done|]. by apply says_or_next.
  - destruct (forallb sup l); [|exact Hloop]. destruct Hloop as (any & E & Ha). exists any. split; [done|].
    eapply any_says_iff; [|exact Ha]. intros i _. cbn beta. rewrite fold_or. tauto.
Qed.

Lemma row_evaluate_ok r batch : row_ok r -> batch_ok batch ->
  if row_supports batch r
  then exists m, row_evaluate r batch = Ok m /\ mask_says m (num_rows batch) (row_admits batch r)
  else exists e, row_evaluate r batch = Err e.
Proof.
  intros [Hc Ha] Hb. unfold row_evaluate, row_supports, row_admits.
  pose proof (evaluate_all_spec (rp_columns r) batch Hc Hb) as Hall.
  destruct (group_supports batch (rp_columns r)); cbn [andb]; [|by destruct Hall as [e ->]; exists e].
  destruct Hall as (m & -> & Hm). cbn [obind]. case_decide as Ealt.
  { rewrite Ealt. cbn [forallb]. exists m. split; [done|]. eapply mask_says_iff; [|exact Hm]. intros i _. cbn beta. tauto. }
  pose proof (evaluate_any_of_spec (fun group => evaluate_all group batch) (group_supports batch)
    (fun group i => Forall (cp_admits batch i) group) (rp_alternatives r) (num_rows batch)) as Hany.
  destruct (forallb _ (rp_alternatives r)); (destruct Hany as [any Hany] || destruct Hany as [e ->]).
  1,3: intros group Hg; apply evaluate_all_spec; [|done]; rewrite Forall_forall in Ha; by apply Ha.
  2: by exists any; rewrite Hany.
  destruct Hany as [E Hsays]. rewrite E. cbn [obind].
  destruct (evaluate_any_of_some _ _ _ E Ealt) as [any' ->]. cbn [expect obind]. eexists. split; [done|].
  eapply mask_says_iff; [|apply says_and; [exact Hm|exact Hsays]]. intros i _. cbn beta. tauto.
Qed.
End evaluation.

(** ** What row predicates promise *)

Section properties.
Context {K : ArrowKernels} {L : ArrowLaws K} {P : Type} {AP : ArrayPredicate P} {PL : PredicateLaws P}.
Implicit Types r : RowPredicate P.

(** What an evaluation that returned says. *)
Lemma row_evaluate_says r batch m : row_ok r -> batch_ok batch -> row_evaluate r batch = Ok m ->
  row_supports batch r = true /\ mask_says m (num_rows batch) (row_admits batch r).
Proof.
  intros Hr Hb Em. pose proof (row_evaluate_ok r batch Hr Hb) as He. destruct (row_supports batch r).
  - destruct He as (m' & Em' & Hm). rewrite Em in Em'. by injection Em' as <-.
  - destruct He as [e He]. congruence.
Qed.

(** C28: A row predicate is refused exactly when the batch stores one of its columns
    at a type the column's predicate does not read; otherwise its mask selects
    exactly the rows every column predicate admits and, when there are
    alternatives, some alternative admits in full. A column the batch does not have
    filters nothing. *)
Theorem row_evaluate_spec r batch : row_ok r -> batch_ok batch ->
  if row_supports batch r
  then exists m, row_evaluate r batch = Ok m /\ length m = num_rows batch /\
    forall i, (i < num_rows batch)%nat -> m !! i = Some (Some true) <-> row_admits batch r i
  else exists e, row_evaluate r batch = Err e.
Proof. apply row_evaluate_ok. Qed.

(** What a row group's statistics say of its batch. *)
Definition stats_describe (stats_fn : ColumnStats) (batch : RecordBatch) : Prop :=
  forall column stats, stats_fn column = Some stats -> exists a, column_by_name batch column = Some a /\ describes stats a.

Lemma any_can_skip_sound (group : list (ColumnPredicate P)) stats_fn batch i :
  group_ok group -> batch_ok batch -> stats_describe stats_fn batch -> any_can_skip group stats_fn = true ->
  (i < num_rows batch)%nat -> ~ Forall (cp_admits batch i) group.
Proof.
  intros Hg Hb Hd Hs Hi Ha. apply existsb_exists in Hs as (cp & Hin%list_elem_of_In & Hs).
  destruct (stats_fn (cp_column cp)) as [stats|] eqn:Es; [|done]. destruct (Hd _ _ Es) as (a & Ea & Hda).
  unfold group_ok in Hg. rewrite Forall_forall in Hg, Ha. specialize (Ha cp Hin). unfold cp_admits in Ha. rewrite Ea in Ha.
  destruct (column_ok batch _ a Hb Ea) as [_ Hl]. apply (ap_skips (cp_predicate cp) stats a i) in Ha; auto. by rewrite Hl.
Qed.

Lemma any_can_skip_ext (group : list (ColumnPredicate P)) f g :
  (forall cp, cp ∈ group -> f (cp_column cp) = g (cp_column cp)) -> any_can_skip group f = any_can_skip group g.
Proof.
  intros E. unfold any_can_skip. induction group as [|cp group IH]; [done|]. cbn [existsb].
  rewrite (E cp ltac:(by left)), IH; [done|]. intros; apply E; by right.
Qed.

(** Pruning asks only about the predicate's own columns. *)
Lemma can_skip_row_group_ext r f g :
  (forall cp, cp ∈ column_predicates r -> f (cp_column cp) = g (cp_column cp)) ->
  can_skip_row_group r f = can_skip_row_group r g.
Proof.
  intros E. unfold can_skip_row_group. rewrite (any_can_skip_ext (rp_columns r) f g) by (intros; apply E, elem_of_app; by left).
  do 2 f_equal. assert (Hg : forall gr cp, gr ∈ rp_alternatives r -> cp ∈ gr -> f (cp_column cp) = g (cp_column cp)).
  { intros gr cp Hgr Hcp. apply E, elem_of_app. right. apply elem_of_concat. by exists gr. }
  clear E. induction (rp_alternatives r) as [|gr groups IH]; [done|]. cbn [forallb].
  rewrite (any_can_skip_ext gr f g) by (intros; apply (Hg gr); [by left|done]). f_equal. apply IH. intros g' cp Hg'. apply Hg. by right.
Qed.

Lemma can_skip_row_admits r stats_fn batch i :
  row_ok r -> batch_ok batch -> stats_describe stats_fn batch -> can_skip_row_group r stats_fn = true ->
  (i < num_rows batch)%nat -> ~ row_admits batch r i.
Proof.
  intros [Hc Ha] Hb Hd Hs Hi [Hcs Halt]. unfold can_skip_row_group in Hs.
  apply orb_true_iff in Hs as [Hs|Hs]; [by apply (any_can_skip_sound (rp_columns r) stats_fn batch i)|].
  apply andb_true_iff in Hs as [Hne Hs]. apply negb_true_iff, bool_decide_eq_false in Hne. destruct Halt as [|Halt]; [done|].
  apply Exists_exists in Halt as (g & Hg & Hgi). rewrite Forall_forall in Ha. rewrite forallb_forall in Hs.
  apply (any_can_skip_sound g stats_fn batch i); auto. by apply Hs, list_elem_of_In.
Qed.

(** C29: A row group is skipped only when the predicate selects no row of it: the
    statistics rule out a required column, or a column of every alternative. *)
Theorem can_skip_row_group_sound r stats_fn batch m :
  row_ok r -> batch_ok batch -> stats_describe stats_fn batch ->
  can_skip_row_group r stats_fn = true -> row_evaluate r batch = Ok m -> true_count m = 0%nat.
Proof.
  intros Hr Hb Hd Hs Em. destruct (row_evaluate_says r batch m Hr Hb Em) as [_ Hm].
  apply (mask_says_true_count _ _ _ Hm). intros i Hi. by apply (can_skip_row_admits r stats_fn).
Qed.

Lemma Forall_unproven (proven : ColumnPredicate P -> bool) (Q : ColumnPredicate P -> Prop) group :
  (forall cp, cp ∈ group -> proven cp = true -> Q cp) ->
  Forall Q (List.filter (fun p => negb (proven p)) group) <-> Forall Q group.
Proof.
  induction group as [|cp group IH]; intros Hp; cbn [List.filter]; [done|].
  assert (Hgroup : forall cp, cp ∈ group -> proven cp = true -> Q cp) by (intros; apply Hp; [by right|done]).
  specialize (IH Hgroup). rewrite Forall_cons. destruct (proven cp) eqn:Ep; cbn [negb].
  - rewrite IH. split; [|tauto]. intros ?. split; [|done]. apply Hp; [by left|done].
  - by rewrite Forall_cons, IH.
Qed.

Lemma Exists_unproven (proven : ColumnPredicate P -> bool) (Q : ColumnPredicate P -> Prop) groups :
  (forall g cp, g ∈ groups -> cp ∈ g -> proven cp = true -> Q cp) ->
  Exists (Forall Q) (List.filter (fun p => negb (proven p)) <$> groups) <-> Exists (Forall Q) groups.
Proof.
  intros Hp. rewrite !Exists_exists. split.
  - intros (g & Hg & Hall). apply list_elem_of_fmap in Hg as (g' & -> & Hg'). exists g'. split; [done|].
    rewrite Forall_unproven in Hall; eauto.
  - intros (g & Hg & Hall). eexists. split; [apply list_elem_of_fmap; by exists g|]. rewrite Forall_unproven; eauto.
Qed.

Lemma without_proven_admits r proven r' batch i :
  (forall cp, cp ∈ column_predicates r -> proven cp = true -> cp_admits batch i cp) ->
  without_proven r proven = Some r' -> row_admits batch r' i <-> row_admits batch r i.
Proof.
  intros Hp. unfold without_proven. destruct (existsb proven _); [|done]. cbn [negb]. intros [= <-].
  unfold row_admits; cbn [rp_columns rp_alternatives with_alternatives].
  rewrite Forall_unproven by (intros; apply Hp; [by apply elem_of_app; left|done]).
  assert (Halts : forall g cp, g ∈ rp_alternatives r -> cp ∈ g -> proven cp = true -> cp_admits batch i cp).
  { intros g cp Hg Hcp. apply Hp. apply elem_of_app. right. apply elem_of_concat. by exists g. }
  pose proof (Exists_unproven proven (cp_admits batch i) _ Halts) as Hex.
  destruct (existsb _ (_ <$> _)) eqn:Eempty.
  - apply existsb_exists in Eempty as ([|cp g] & Hg & Eg); [|done]. apply list_elem_of_In in Hg.
    assert (Exists (Forall (cp_admits batch i)) (rp_alternatives r)); [|tauto].
    apply Hex, Exists_exists. exists []. split; [exact Hg|constructor].
  - rewrite Hex. assert (Hnil : List.filter (fun p => negb (proven p)) <$> rp_alternatives r = [] <-> rp_alternatives r = []).
    { by destruct (rp_alternatives r). }
    by rewrite Hnil.
Qed.

Lemma forallb_unproven (proven sup : ColumnPredicate P -> bool) group :
  forallb sup group = true -> forallb sup (List.filter (fun p => negb (proven p)) group) = true.
Proof. rewrite !forallb_forall. intros H cp [Hcp _]%filter_In. by apply H. Qed.

Lemma without_proven_ok r proven r' batch : without_proven r proven = Some r' -> row_ok r ->
  row_ok r' /\ (row_supports batch r = true -> row_supports batch r' = true).
Proof.
  unfold without_proven. destruct (existsb proven _); [|done]. cbn [negb]. intros [= <-] [Hc Ha].
  assert (Hgroup : forall g, group_ok g -> group_ok (List.filter (fun p => negb (proven p)) g)).
  { intros g Hg. unfold group_ok in *. rewrite Forall_forall in Hg |- *. intros cp Hcp%list_elem_of_In%filter_In.
    apply Hg, list_elem_of_In. tauto. }
  unfold row_ok, row_supports; cbn [rp_columns rp_alternatives with_alternatives]. split.
  - split; [by apply Hgroup|]. destruct (existsb _ _); [constructor|]. apply Forall_fmap. by apply (Forall_impl _ _ _ Ha).
  - intros [Hs Hsa]%andb_true_iff. apply andb_true_iff. split; [by apply forallb_unproven|].
    destruct (existsb _ _); [done|]. rewrite forallb_forall in Hsa |- *. intros g Hg%list_elem_of_In%list_elem_of_fmap.
    destruct Hg as (g' & -> & Hg'). apply forallb_unproven, Hsa. by apply list_elem_of_In.
Qed.

(** Dropping the column predicates proved to hold for every row of a batch
    changes no answer: the predicate that is left selects the same rows, and there
    is one exactly when something was proved. *)
Theorem without_proven_spec r proven batch m :
  row_ok r -> batch_ok batch ->
  (forall cp i, cp ∈ column_predicates r -> proven cp = true -> (i < num_rows batch)%nat -> cp_admits batch i cp) ->
  row_evaluate r batch = Ok m ->
  match without_proven r proven with
  | None => forall cp, cp ∈ column_predicates r -> proven cp = false
  | Some r' =>
      (exists cp, cp ∈ column_predicates r /\ proven cp = true) /\
      exists m', row_evaluate r' batch = Ok m' /\ length m' = length m /\
        forall i, m' !! i = Some (Some true) <-> m !! i = Some (Some true)
  end.
Proof.
  intros Hr Hb Hp Em. destruct (without_proven r proven) as [r'|] eqn:Ew.
  - split.
    { unfold without_proven in Ew. destruct (existsb proven _) eqn:Ee; [|done]. apply existsb_exists in Ee as (cp & Hin & Hcp).
      exists cp. by rewrite list_elem_of_In. }
    destruct (without_proven_ok r proven r' batch Ew Hr) as [Hr' Hs']. destruct (row_evaluate_says r batch m Hr Hb Em) as [Hs [Hl Hm]].
    pose proof (row_evaluate_ok r' batch Hr' Hb) as He. rewrite (Hs' Hs) in He. destruct He as (m' & Em' & Hl' & Hm').
    exists m'. split; [done|]. split; [congruence|]. intros i. destruct (decide (i < num_rows batch)%nat) as [Hi|Hi].
    + rewrite Hm, Hm' by done. apply (without_proven_admits r proven); [|done]. auto.
    + rewrite !lookup_ge_None_2 by lia. done.
  - intros cp Hcp. unfold without_proven in Ew. destruct (existsb proven _) eqn:Ee; [done|]. destruct (proven cp) eqn:Ecp; [|done].
    assert (existsb proven (column_predicates r) = true); [|congruence]. apply existsb_exists. exists cp. by rewrite <- list_elem_of_In.
Qed.
End properties.

(** ** Several predicates *)

Section several.
Context {K : ArrowKernels} {L : ArrowLaws K} {P : Type} {AP : ArrayPredicate P} {PL : PredicateLaws P}.
Implicit Types r : RowPredicate P.

(** The predicates of several requested items together select exactly the rows
    some item admits, and no row for no item; they are refused exactly when one of
    them is. *)
Theorem or_row_predicates_spec (rs : list (RowPredicate P)) batch :
  Forall row_ok rs -> batch_ok batch ->
  if forallb (row_supports batch) rs
  then exists m, or_row_predicates rs batch = Ok m /\ length m = num_rows batch /\
    forall i, (i < num_rows batch)%nat -> m !! i = Some (Some true) <-> Exists (fun r => row_admits batch r i) rs
  else exists e, or_row_predicates rs batch = Err e.
Proof.
  intros Hrs Hb. unfold or_row_predicates.
  pose proof (evaluate_any_of_spec (fun r => row_evaluate r batch) (row_supports batch) (fun r => row_admits batch r) rs
    (num_rows batch)) as Hany.
  assert (Hstep : forall r, r ∈ rs -> if row_supports batch r
    then exists m, row_evaluate r batch = Ok m /\ mask_says m (num_rows batch) (row_admits batch r)
    else exists e, row_evaluate r batch = Err e).
  { intros r Hr. apply row_evaluate_ok; [|done]. rewrite Forall_forall in Hrs. by apply Hrs. }
  specialize (Hany Hstep). destruct (forallb _ rs); [|by destruct Hany as [e ->]; exists e].
  destruct Hany as (any & -> & Hsays). cbn [obind]. eexists. split; [done|]. exact (says_any any _ _ Hsays).
Qed.

(** Masks evaluated once and picked by item give what evaluating those items'
    predicates together gives: [or_masks] of the items' masks is
    [or_row_predicates] of the items. An item beyond the masks is a panic. *)
Theorem or_masks_or_row_predicates (rs : list (RowPredicate P)) masks items batch :
  Forall2 (fun r m => row_evaluate r batch = Ok m) rs masks ->
  match mapM (fun item => rs !! item) items with
  | Some picked => or_masks masks items (num_rows batch) = or_row_predicates picked batch
  | None => or_masks (E:=UnsupportedType) masks items (num_rows batch) = Panic
  end.
Proof.
  intros Hrm. unfold or_masks, or_row_predicates, evaluate_any_of.
  set (pick := fun result item => _). set (eval := fun any x => _).
  enough (Hloop : forall acc, match mapM (fun item => rs !! item) items with
    | Some picked => foldM pick items acc = foldM eval picked acc
    | None => foldM pick items acc = Panic end).
  { specialize (Hloop None). by destruct (mapM _ items); rewrite Hloop. }
  subst pick eval. cbn beta. induction items as [|item items IH]; intros acc; [done|].
  cbn [mapM foldM mbind option_bind mret option_ret]. unfold vec_get. destruct (rs !! item) as [r|] eqn:Er; cbn [mbind option_bind].
  - destruct (Forall2_lookup_l _ _ _ _ _ Hrm Er) as (m & Em & Hm). rewrite Em. cbn [expect obind].
    specialize (IH (or_next acc m)). destruct (mapM _ items) as [picked|]; cbn [mbind option_bind foldM]; [|exact IH].
    cbn [mret option_ret foldM]. rewrite Hm. cbn [obind]. exact IH.
  - rewrite (lookup_ge_None_2 masks); [done|]. rewrite <- (Forall2_length _ _ _ Hrm). by apply lookup_ge_None.
Qed.

(** Asking a predicate about an empty column of a stored type decides whether it
    evaluates on any column of that type. *)
Theorem check_stored_type_spec (new_empty_array : data_type -> array) (p : P) :
  (forall dt, array_ok (new_empty_array dt) /\ array_type (new_empty_array dt) = dt /\ array_len (new_empty_array dt) = 0%nat) ->
  ap_ok p ->
  forall a, array_ok a ->
  is_ok (check_stored_type new_empty_array p (array_type a)) = is_ok (ap_evaluate p a).
Proof.
  intros Hempty Hp a Ha. destruct (Hempty (array_type a)) as (Hok & Ht & _).
  pose proof (ap_evaluates p a Hp Ha) as He. pose proof (ap_evaluates p _ Hp Hok) as He0. unfold evaluates, check_stored_type in *.
  rewrite Ht in He0. destruct (ap_supports p (array_type a)).
  - destruct He as (m & -> & _), He0 as (m0 & -> & _). done.
  - destruct He as [e ->], He0 as [e0 ->]. done.
Qed.
End several.

(** Pruning asks a predicate only about columns that have statistics, so the one
    that admits nothing prunes no group of a column without them. *)
Lemma never_needs_statistics {K : ArrowKernels} {X : Xxh3} {H : HexKernel} column :
  can_skip_row_group (row_new [col_never column]) (fun _ => None) = false.
Proof. done. Qed.

(** ** The filter of several items' lists *)

(** An element of a list of type [lt] matches a value. *)
Definition element_matches (lt : data_type) (e : cell) (dt : data_type) (c : cell) : Prop :=
  match lt, e, c with
  | DText Utf8, CText s, CText x => x = s
  | DInt t, CInt z, CInt x =>
      match dt with
      | DInt t' => declared_value x (int_bits t') (int_signed t) = if int_signed t then as_i64 z else as_u64 z
      | _ => False
      end
  | DFixedSizeBinary _, CBytes b, CBytes x => x = b
  | _, _, _ => False
  end.

Lemma list_admits_element values dt c : array_nulls values = None ->
  list_admits values dt c -> exists e, e ∈ cells values /\ element_matches (array_type values) e dt c.
Proof.
  assert (Hin : forall i, (i < array_len values)%nat -> cell_at values i ∈ cells values).
  { intros i Hi. apply list_elem_of_fmap. exists i. split; [done|]. apply elem_of_seq. lia. }
  intros Hn. destruct values as [t v n|[] v n| |sz v n| | | | | |]; try done; cbn [array_nulls] in Hn; subst n; cbn [list_admits].
  - unfold IntValues_from_array; cbn [IntColumn_resolve ic_type ic_values]. intros Ha.
    assert (exists t' x, dt = DInt t' /\ c = CInt x) as (t' & x & -> & ->).
    { unfold ints_admit in Ha. destruct (int_signed t), dt as [t'| | | | | | | | |], c; try done; by eexists _, _. }
    assert (Hx : declared_value x (int_bits t') (int_signed t) ∈ (fun z => if int_signed t then as_i64 z else as_u64 z) <$> v)
      by (destruct (int_signed t); exact Ha).
    apply list_elem_of_fmap in Hx as (z & Ez & Hz). apply list_elem_of_lookup in Hz as [i Hi].
    exists (CInt z). split; [|exact Ez]. specialize (Hin i (lookup_lt_Some _ _ _ Hi)). rewrite cell_int in Hin. cbn in Hin.
    by rewrite Hi in Hin.
  - destruct c as [| |s| | |]; try done. intros Hs. apply list_elem_of_lookup in Hs as [i Hi]. exists (CText s). split; [|done].
    specialize (Hin i (lookup_lt_Some _ _ _ Hi)). rewrite cell_text in Hin. cbn in Hin. by rewrite Hi in Hin.
  - destruct c as [| | | |b|]; try done. intros Hs. apply list_elem_of_lookup in Hs as [i Hi]. exists (CBytes b). split; [|done].
    specialize (Hin i (lookup_lt_Some _ _ _ Hi)). cbn in Hin. by rewrite Hi in Hin.
Qed.

Lemma element_list_admits values dt c e : e ∈ cells values -> element_matches (array_type values) e dt c -> list_admits values dt c.
Proof.
  intros He Hm. apply list_elem_of_fmap in He as (i & -> & Hi%elem_of_seq).
  destruct values as [t v n|[] v n| |sz v n| | | | | |]; try done; cbn [array_type element_matches] in Hm; cbn [list_admits];
    cbn [array_len] in Hi; destruct (lookup_lt_is_Some_2 v i ltac:(lia)) as [x Hx].
  - rewrite cell_int, Hx in Hm. destruct (is_valid_in n i); [|done]. cbn [from_option id] in Hm.
    unfold IntValues_from_array; cbn [IntColumn_resolve ic_type ic_values].
    destruct c as [|z| | | |]; try done. destruct dt as [t'| | | | | | | | |]; try done.
    destruct (int_signed t); cbn [ints_admit values_signed values_list]; rewrite Hm; apply list_elem_of_fmap; exists x;
      (split; [done|]); by apply list_elem_of_lookup_2 with i.
  - rewrite cell_text, Hx in Hm. destruct (is_valid_in n i), c; try done. cbn in Hm. subst. by apply list_elem_of_lookup_2 with i.
  - assert (Ec : cell_at (AFixed sz v n) i = if is_valid_in n i then CBytes x else CNull).
    { cbn. unfold is_null; cbn. rewrite Hx. by destruct (is_valid_in n i). }
    rewrite Ec in Hm. destruct (is_valid_in n i), c; try done. cbn in Hm. subst. by apply list_elem_of_lookup_2 with i.
Qed.

Lemma list_supports_type values values' dt : array_type values = array_type values' -> list_supports values dt = list_supports values' dt.
Proof. destruct values, values'; intros [=]; subst; done. Qed.

(** One list of all the lists' values. *)
Lemma concat_list_admits {K : ArrowKernels} {L : ArrowLaws K} lists values v :
  Forall array_ok lists -> concat_arrays lists = Some values -> v ∈ lists -> array_nulls v = None ->
  array_ok values /\ (forall dt, list_supports values dt = list_supports v dt) /\
  (forall dt c, list_admits v dt c -> list_admits values dt c).
Proof.
  intros Hok E Hv Hn. destruct (concat_arrays_cells _ _ Hok E) as (Ha & Ec & Ht). rewrite Forall_forall in Ht.
  specialize (Ht v Hv). split; [done|]. split; [intros dt; by apply list_supports_type|].
  intros dt c Hadm. destruct (list_admits_element v dt c Hn Hadm) as (e & He & Hm). apply (element_list_admits values dt c e).
  - rewrite Ec. apply elem_of_concat. exists (cells v). split; [done|]. apply list_elem_of_fmap. by exists v.
  - by rewrite <- Ht.
Qed.

(** A list of [column] among those collected. *)
Definition in_unions (unions : list (string * list array)) (column : string) (v : array) : Prop :=
  exists lists, (column, lists) ∈ unions /\ v ∈ lists.

Lemma in_unions_cons u unions column v : in_unions (u :: unions) column v <-> (u.1 = column /\ v ∈ u.2) \/ in_unions unions column v.
Proof.
  unfold in_unions. setoid_rewrite elem_of_cons. destruct u as [c l]; cbn. naive_solver.
Qed.

Lemma add_list_in column v unions c w :
  in_unions (add_list column v unions) c w <-> in_unions unions c w \/ (c = column /\ w = v).
Proof.
  induction unions as [|[c' l] unions IH]; cbn [add_list].
  - rewrite in_unions_cons. cbn. rewrite list_elem_of_singleton. unfold in_unions. setoid_rewrite elem_of_nil. naive_solver.
  - case_decide as E; rewrite !in_unions_cons; cbn; [rewrite elem_of_app, list_elem_of_singleton|rewrite IH]; naive_solver.
Qed.

Lemma add_list_nonempty column v unions : Forall (fun u : string * list array => u.2 <> []) unions ->
  Forall (fun u : string * list array => u.2 <> []) (add_list column v unions).
Proof.
  induction 1 as [|[c l] unions Hu Hus IH]; cbn [add_list]; [by repeat constructor|].
  case_decide; constructor; try done. cbn. by destruct l.
Qed.

Lemma union_lists_spec `{ArrayPredicate P} (chosen : list (ColumnPredicate P)) unions unions' :
  union_lists chosen unions = Some unions' -> Forall (fun u : string * list array => u.2 <> []) unions ->
  Forall (fun u : string * list array => u.2 <> []) unions' /\
  forall c w, in_unions unions' c w <-> in_unions unions c w \/
    exists cp, cp ∈ chosen /\ cp_column cp = c /\ ap_listed_values (cp_predicate cp) = Some w.
Proof.
  revert unions. induction chosen as [|cp chosen IH]; intros unions; cbn [union_lists].
  - intros [= <-] Hn. split; [done|]. intros c w. setoid_rewrite elem_of_nil. naive_solver.
  - destruct (ap_listed_values (cp_predicate cp)) as [v|] eqn:Ev; [|done]. cbn [mbind option_bind]. intros E Hn.
    destruct (IH _ E (add_list_nonempty _ _ _ Hn)) as [Hn' Hin]. split; [done|]. intros c w. rewrite Hin, add_list_in.
    setoid_rewrite elem_of_cons. naive_solver.
Qed.

Lemma max_by_key_in {A} (key : A -> nat) l x : max_by_key key l = Some x -> x ∈ l.
Proof.
  unfold max_by_key. assert (Hgen : forall l best, fold_left (fun best x =>
      Some match best with None => x | Some b => if (key x <? key b)%nat then b else x end) l best = Some x ->
    best = Some x \/ x ∈ l); [|intros E; by destruct (Hgen l None E)].
  induction l0 as [|y l0 IH]; intros best E; cbn [fold_left] in E; [by left|].
  destruct (IH _ E) as [Hb|Hx]; [|right; by right]. destruct best as [b|]; [destruct (key y <? key b)%nat|];
    injection Hb as ->; [by left|right; by left|right; by left].
Qed.

Lemma most_demanded_in `{ArrayPredicate P} (group : list (ColumnPredicate P)) demand cp :
  most_demanded group demand = Some cp -> cp ∈ group /\ is_listed cp = true.
Proof. intros Hcp%max_by_key_in%list_elem_of_In. apply filter_In in Hcp as [Hcp Hl]. split; [by apply list_elem_of_In|done]. Qed.

Section union.
Context {K : ArrowKernels} {L : ArrowLaws K} {X : Xxh3} {XL : Xxh3Laws X} {H : HexKernel}.
Implicit Types item : RowPredicate predicate.

Lemma union_choice_spec demand item chosen batch i : union_choice demand item = Some chosen ->
  (forall cp, cp ∈ chosen -> cp ∈ column_predicates item /\ is_listed cp = true) /\
  (row_admits batch item i -> Exists (cp_admits batch i) chosen).
Proof.
  unfold union_choice, row_admits, column_predicates. destruct (most_demanded (rp_columns item) demand) as [cp|] eqn:Ec.
  - intros [= <-]. apply most_demanded_in in Ec as [Ec El]. split.
    + intros cp' ->%list_elem_of_singleton. split; [|done]. apply elem_of_app. by left.
    + intros [Hc _]. constructor. rewrite Forall_forall in Hc. by apply Hc.
  - case_decide as Ea; [done|]. intros Hm%mapM_Some. split.
    + intros cp Hcp. apply list_elem_of_lookup in Hcp as [k Hk]. destruct (Forall2_lookup_r _ _ _ _ _ Hm Hk) as (g & Hg & Ecp).
      apply most_demanded_in in Ecp as [Ecp El]. split; [|done].
      apply elem_of_app. right. apply elem_of_concat. exists g. split; [done|by eapply list_elem_of_lookup_2].
    + intros [_ [|Hex]]; [done|]. clear -Hm Hex. induction Hm as [|g cp groups chosen Hg Hm IH]; [by apply Exists_nil in Hex|].
      apply Exists_cons in Hex as [Hall|Hex]; [left|right; by apply IH]. rewrite Forall_forall in Hall. by eapply Hall, most_demanded_in, Hg.
Qed.

Lemma listed_in_list (cp : ColumnPredicate predicate) v :
  ap_listed_values (cp_predicate cp) = Some v -> cp_predicate cp = InList v.
Proof. cbn. destruct (cp_predicate cp); cbn; congruence. Qed.

(** An item's lists hold no null. *)
Definition lists_plain item : Prop :=
  forall cp v, cp ∈ column_predicates item -> ap_listed_values (cp_predicate cp) = Some v -> array_nulls v = None.

(** A union's lists are no longer than a position of one holds. *)
Definition lists_fit item : Prop :=
  forall cp v, cp ∈ column_predicates item -> ap_listed_values (cp_predicate cp) = Some v -> Z.of_nat (array_len v) < 2 ^ 32.

Lemma row_ok_in item cp : row_ok item -> cp ∈ column_predicates item -> ap_ok (cp_predicate cp).
Proof.
  intros [Hc Ha] Hcp. unfold group_ok in *. rewrite !Forall_forall in *.
  apply elem_of_app in Hcp as [Hcp|Hcp]; [by apply Hc|]. apply elem_of_concat in Hcp as (g & Hg & Hgs).
  specialize (Ha g Hgs). rewrite Forall_forall in Ha. by apply Ha.
Qed.

Lemma row_supports_in batch item cp : row_supports batch item = true -> cp ∈ column_predicates item -> cp_supports batch cp = true.
Proof.
  unfold row_supports, group_supports. intros [Hc Ha]%andb_true_iff Hcp. rewrite forallb_forall in Hc, Ha.
  apply elem_of_app in Hcp as [Hcp%list_elem_of_In|Hcp]; [by apply Hc|]. apply elem_of_concat in Hcp as (g & Hg & Hgs%list_elem_of_In).
  specialize (Ha g Hgs). rewrite forallb_forall in Ha. by apply Ha, list_elem_of_In.
Qed.

(** One column's list, made of the lists of several predicates. *)
Lemma union_group lists values column batch :
  Forall array_ok lists -> lists <> [] -> concat_arrays lists = Some values -> Z.of_nat (array_len values) < 2 ^ 32 ->
  (forall v, v ∈ lists -> array_nulls v = None) ->
  let cp := {| cp_column := column; cp_predicate := InList values |} in
  ap_ok (cp_predicate cp) /\
  (forall v, v ∈ lists -> cp_supports batch {| cp_column := column; cp_predicate := InList v |} = true -> cp_supports batch cp = true) /\
  (forall v i, v ∈ lists -> cp_admits batch i {| cp_column := column; cp_predicate := InList v |} -> cp_admits batch i cp).
Proof.
  intros Hok Hne E Hlen Hn cp. destruct lists as [|v lists]; [done|]. split; [|split].
  - destruct (concat_list_admits _ _ v Hok E ltac:(by left) (Hn v ltac:(by left))) as [Ha _]. by split.
  - intros w Hw. destruct (concat_list_admits _ _ w Hok E Hw (Hn w Hw)) as (_ & Hs & _).
    unfold cp_supports; cbn. destruct (column_by_name batch column) as [a|]; [|done]. by rewrite Hs.
  - intros w i Hw. destruct (concat_list_admits _ _ w Hok E Hw (Hn w Hw)) as (_ & _ & Ha).
    unfold cp_admits; cbn. destruct (column_by_name batch column) as [a|]; [|done]. apply Ha.
Qed.

(** The predicate of a list of one-column groups. *)
Lemma union_of_groups (groups : list (list (ColumnPredicate predicate))) batch :
  let u := match groups with [group] => row_new group | groups => with_alternatives [] groups end in
  (row_ok u <-> Forall group_ok groups) /\
  row_supports batch u = forallb (group_supports batch) groups /\
  column_predicates u = concat groups /\
  forall i, row_admits batch u i <-> groups = [] \/ Exists (Forall (cp_admits batch i)) groups.
Proof.
  destruct groups as [|g [|g' groups]]; cbn zeta; unfold row_ok, row_supports, row_admits, column_predicates;
    cbn [row_new with_alternatives rp_columns rp_alternatives forallb concat app].
  - split; [|split; [done|split; [done|]]]; [|intros i]; rewrite !Forall_nil; unfold group_ok; rewrite ?Forall_nil; tauto.
  - rewrite andb_true_r, app_nil_r. split; [|split; [done|split; [done|]]]; [|intros i].
    + rewrite Forall_singleton, Forall_nil. tauto.
    + rewrite Exists_cons, Exists_nil. naive_solver.
  - split; [|split; [done|split; [done|]]]; [|intros i]; [unfold group_ok at 1|]; rewrite Forall_nil; tauto.
Qed.

(** What the parts of a union are. *)
Lemma listed_union_parts items u : listed_union items = Some u ->
  exists chosen unions groups,
    Forall2 (fun item cps => union_choice (union_demand items) item = Some cps) items chosen /\
    Forall (fun p : string * list array => p.2 <> []) unions /\
    (forall c v, in_unions unions c v <-> exists cp, cp ∈ concat chosen /\ cp_column cp = c /\ ap_listed_values (cp_predicate cp) = Some v) /\
    Forall2 (fun (p : string * list array) group => exists values, concat_arrays p.2 = Some values /\
      group = [{| cp_column := p.1; cp_predicate := InList values |}]) unions groups /\
    u = match groups with [group] => row_new group | groups => with_alternatives [] groups end.
Proof.
  unfold listed_union. destruct (mapM (union_choice _) items) as [chosen|] eqn:Ec; [|done]. cbn [mbind option_bind].
  destruct (union_lists (concat chosen) []) as [unions|] eqn:Eu; [|done]. cbn [mbind option_bind].
  destruct (mapM _ unions) as [groups|] eqn:Eg; [|done]. cbn [mbind option_bind]. intros [= <-].
  destruct (union_lists_spec _ _ _ Eu ltac:(constructor)) as [Hne Hin].
  exists chosen, unions, groups. split; [by apply mapM_Some|]. split; [done|]. split.
  { intros c v. rewrite Hin. unfold in_unions at 1. setoid_rewrite elem_of_nil. naive_solver. }
  split; [|done]. apply mapM_Some in Eg. eapply Forall2_impl; [exact Eg|]. intros [c lists] group E.
  destruct (concat_arrays lists) as [values|] eqn:Ev; [|done]. exists values. cbn in E. by injection E as <-.
Qed.

(** A list of a union is one item's. *)
Lemma union_list_item items chosen unions c v batch :
  Forall2 (fun item cps => union_choice (union_demand items) item = Some cps) items chosen ->
  (forall c v, in_unions unions c v <-> exists cp, cp ∈ concat chosen /\ cp_column cp = c /\ ap_listed_values (cp_predicate cp) = Some v) ->
  Forall row_ok items -> Forall lists_plain items -> Forall (fun item => row_supports batch item = true) items ->
  in_unions unions c v ->
  array_ok v /\ array_nulls v = None /\ cp_supports batch {| cp_column := c; cp_predicate := InList v |} = true.
Proof.
  rewrite !Forall_forall. intros Hch Hin Hok Hplain Hsup ([c' p] & Hcp & <- & Hv)%Hin. apply elem_of_concat in Hcp as (cps & Hcp & Hcps).
  apply list_elem_of_lookup in Hcps as [k Hk]. destruct (Forall2_lookup_r _ _ _ _ _ Hch Hk) as (item & Hitem%list_elem_of_lookup_2 & Ech).
  destruct (union_choice_spec _ _ _ batch 0 Ech) as [Hcols _]. destruct (Hcols _ Hcp) as [Hcol _].
  pose proof (listed_in_list _ _ Hv) as Ep. cbn [cp_predicate] in Ep. subst p. cbn [cp_column].
  split; [exact (proj1 (row_ok_in item _ (Hok _ Hitem) Hcol))|]. split; [by apply (Hplain _ Hitem _ _ Hcol)|].
  by apply (row_supports_in batch item _ (Hsup _ Hitem)).
Qed.

Lemma listed_union_ok items u batch :
  Forall row_ok items -> Forall lists_plain items -> Forall (fun item => row_supports batch item = true) items ->
  listed_union items = Some u -> lists_fit u ->
  row_ok u /\ row_supports batch u = true /\
  forall item i, item ∈ items -> row_admits batch item i -> row_admits batch u i.
Proof.
  intros Hok Hplain Hsup Eu Hfit. destruct (listed_union_parts items u Eu) as (chosen & unions & groups & Hch & Hne & Hin & Hg & Hu).
  destruct (union_of_groups groups batch) as (Huok & Husup & Hucols & Huadm). rewrite <- Hu in Huok, Husup, Hucols, Huadm.
  assert (Hgroup : forall k c lists group, unions !! k = Some (c, lists) -> groups !! k = Some group ->
    group_ok group /\ group_supports batch group = true /\
    forall v i, v ∈ lists -> cp_admits batch i {| cp_column := c; cp_predicate := InList v |} -> Forall (cp_admits batch i) group).
  { intros k c lists group Hc Hgr. destruct (Forall2_lookup_lr _ _ _ _ _ _ Hg Hc Hgr) as (values & Ev & ->). cbn in Ev.
    apply list_elem_of_lookup_2 in Hc, Hgr.
    assert (Hvs : forall v, v ∈ lists -> _) by (intros v Hv; exact (union_list_item items chosen unions c v batch Hch Hin Hok Hplain Hsup
      (ex_intro _ lists (conj Hc Hv)))).
    rewrite Forall_forall in Hne. specialize (Hne _ Hc). cbn in Hne.
    destruct (union_group lists values c batch) as (Hpok & Hps & Hpa); try done.
    - apply Forall_forall. intros v Hv. by apply Hvs.
    - apply (Hfit {| cp_column := c; cp_predicate := InList values |}); [|done].
      rewrite Hucols. apply elem_of_concat. eexists. split; [|exact Hgr]. by left.
    - intros v Hv. by apply Hvs.
    - split; [by apply Forall_singleton|]. split.
      + destruct lists as [|w lists]; [done|]. unfold group_supports; cbn [forallb]. rewrite andb_true_r. apply (Hps w); [by left|].
        apply Hvs. by left.
      + intros v i Hv Hadm. apply Forall_singleton. by apply (Hpa v). }
  assert (Hall : forall group, group ∈ groups -> group_ok group /\ group_supports batch group = true).
  { intros group [k Hk]%list_elem_of_lookup. destruct (Forall2_lookup_r _ _ _ _ _ Hg Hk) as ([c lists] & Hc & _).
    destruct (Hgroup k c lists group Hc Hk) as (? & ? & _). done. }
  split; [apply Huok, Forall_forall; intros; by apply Hall|]. split.
  { rewrite Husup. apply forallb_forall. intros group Hgr%list_elem_of_In. by apply Hall. }
  intros item i [k Hk]%list_elem_of_lookup Hadm. apply Huadm. right.
  destruct (Forall2_lookup_l _ _ _ _ _ Hch Hk) as (cps & Hcps%list_elem_of_lookup_2 & Ech).
  destruct (union_choice_spec _ _ _ batch i Ech) as [Hcols Hex]. apply Exists_exists in Hex as (cp & Hcp & Hcpa); [|done].
  destruct (Hcols cp Hcp) as [_ Hl]. unfold is_listed in Hl. destruct (ap_listed_values (cp_predicate cp)) as [v|] eqn:Ev; [|done].
  assert (Hiu : in_unions unions (cp_column cp) v) by (apply Hin; exists cp; split; [apply elem_of_concat; by exists cps|done]).
  destruct Hiu as (lists & [n Hn]%list_elem_of_lookup & Hv). destruct (Forall2_lookup_l _ _ _ _ _ Hg Hn) as (group & Hgr & _).
  apply Exists_exists. exists group. split; [by eapply list_elem_of_lookup_2|]. destruct (Hgroup n _ _ _ Hn Hgr) as (_ & _ & Hadmits).
  apply (Hadmits v i Hv). rewrite <- (listed_in_list cp v Ev). by destruct cp.
Qed.

(** C30: The one filter made of several items' lists, where there is one, evaluates
    wherever they do and selects every row any of them selects. *)
Theorem listed_union_sound items u batch masks :
  Forall row_ok items -> Forall lists_plain items -> batch_ok batch ->
  Forall2 (fun item m => row_evaluate item batch = Ok m) items masks ->
  listed_union items = Some u -> lists_fit u ->
  exists mu, row_evaluate u batch = Ok mu /\ length mu = num_rows batch /\
    forall m i, m ∈ masks -> m !! i = Some (Some true) -> mu !! i = Some (Some true).
Proof.
  intros Hok Hplain Hb Hm Eu Hfit.
  assert (Hsays : forall k item m, items !! k = Some item -> masks !! k = Some m ->
    row_supports batch item = true /\ mask_says m (num_rows batch) (row_admits batch item)).
  { intros k item m Hi Hk. rewrite Forall_forall in Hok. apply row_evaluate_says; [by eapply Hok, list_elem_of_lookup_2|done|].
    exact (Forall2_lookup_lr _ _ _ _ _ _ Hm Hi Hk). }
  destruct (listed_union_ok items u batch) as (Huok & Husup & Huadm); try done.
  { apply Forall_forall. intros item [k Hk]%list_elem_of_lookup. destruct (Forall2_lookup_l _ _ _ _ _ Hm Hk) as (m & Hkm & _).
    by destruct (Hsays k item m). }
  pose proof (row_evaluate_ok u batch Huok Hb) as He. rewrite Husup in He. destruct He as (mu & Emu & Hl & Hmu).
  exists mu. split; [done|]. split; [done|]. intros m i [k Hk]%list_elem_of_lookup Hi.
  destruct (Forall2_lookup_r _ _ _ _ _ Hm Hk) as (item & Hitem & _). destruct (Hsays k item m Hitem Hk) as [_ [Hlm Hmi]].
  pose proof (lookup_lt_Some _ _ _ Hi). apply Hmu; [lia|]. apply (Huadm item); [by eapply list_elem_of_lookup_2|]. apply Hmi; [lia|done].
Qed.
End union.

(** ** Witnesses *)

Import ArrowInstances.
Import HexInstances.
Import XxhInstances.

#[local] Ltac concrete := repeat constructor; cbn; try done; try lia.

(** Three rows of a chunk, and two requested items: one asks for one of two
    transactions, the other for an address in one of two places. *)
Definition sample_batch : RecordBatch := {|
  columns := [("a", AInt UInt32 [1; 2; 3] None); ("b", AInt UInt32 [5; 6; 7] (Some [true; false; true]))];
  num_rows := 3 |}.
Definition sample_item : RowPredicate predicate := row_new [col_in_list "a" (AInt UInt32 [1; 9] None)].
Definition sample_choice : RowPredicate predicate :=
  with_alternatives [] [[col_in_list "b" (AInt UInt32 [6] None)]; [col_in_list "a" (AInt UInt32 [3] None); col_in_list "missing" (AInt UInt32 [] None)]].

Lemma u32_array_ok l n : nulls_ok n (length l) -> Forall (fun z => 0 <= z < 2 ^ 32) l -> array_ok (AInt UInt32 l n).
Proof. intros Hn Hl. split; [done|]. by eapply Forall_impl; [exact Hl|]. Qed.

Lemma sample_batch_ok : batch_ok sample_batch.
Proof. concrete. Qed.

Lemma sample_item_ok : row_ok sample_item.
Proof. split; [|done]. concrete. Qed.

Lemma sample_choice_ok : row_ok sample_choice.
Proof. split; unfold group_ok; concrete. Qed.

Lemma row_evaluate_spec_witness : exists m, row_evaluate sample_choice sample_batch = Ok m /\ length m = 3%nat /\
  forall i, (i < 3)%nat -> m !! i = Some (Some true) <-> row_admits sample_batch sample_choice i.
Proof. exact (row_evaluate_spec sample_choice sample_batch sample_choice_ok sample_batch_ok). Defined.

Lemma or_row_predicates_spec_witness : exists m, or_row_predicates [sample_item; sample_choice] sample_batch = Ok m /\ length m = 3%nat /\
  forall i, (i < 3)%nat -> m !! i = Some (Some true) <-> Exists (fun r => row_admits sample_batch r i) [sample_item; sample_choice].
Proof.
  refine (or_row_predicates_spec [sample_item; sample_choice] sample_batch _ sample_batch_ok).
  constructor; [exact sample_item_ok|]. constructor; [exact sample_choice_ok|]. constructor.
Defined.

Lemma can_skip_row_group_sound_witness :
  let stats_fn column := if decide (column = "a") then Some (StatInts (DInt UInt32) 1 3) else None in
  let r := row_new [col_in_list "a" (AInt UInt32 [0; 9] None)] in
  exists m, row_evaluate r sample_batch = Ok m /\ true_count m = 0%nat.
Proof.
  intros stats_fn r. eexists. split; [vm_compute; reflexivity|].
  apply (can_skip_row_group_sound r stats_fn sample_batch).
  - split; [|done]. concrete.
  - exact sample_batch_ok.
  - intros column stats. unfold stats_fn. case_decide as E; [|done]. intros [= <-]. subst column. eexists. split; [reflexivity|].
    intros [|[|[|i]]] Hi _; cbn in Hi |- *; try lia; split; try done; eexists _, _; repeat split; cbn; lia.
  - vm_compute. reflexivity.
  - vm_compute. reflexivity.
Defined.

Lemma without_proven_spec_witness :
  let r := row_new [col_in_list "a" (AInt UInt32 [1; 2; 3; 4] None); col_in_list "b" (AInt UInt32 [7] None)] in
  let proven cp := bool_decide (cp_column cp = "a") in
  exists m r', row_evaluate r sample_batch = Ok m /\ without_proven r proven = Some r' /\ length (rp_columns r') = 1%nat /\
  exists m', row_evaluate r' sample_batch = Ok m' /\ forall i, m' !! i = Some (Some true) <-> m !! i = Some (Some true).
Proof.
  intros r proven. eexists _, _. split; [vm_compute; reflexivity|]. split; [reflexivity|]. split; [reflexivity|].
  destruct (without_proven_spec r proven sample_batch [Some false; None; Some true]) as (_ & m' & Em' & _ & Hm').
  - split; [|done]. concrete.
  - exact sample_batch_ok.
  - intros cp i Hcp Hproven Hi. apply bool_decide_eq_true in Hproven. unfold cp_admits. rewrite Hproven. cbn [column_by_name].
    assert (cp = col_in_list "a" (AInt UInt32 [1; 2; 3; 4] None)) as ->.
    { apply elem_of_cons in Hcp as [->|Hcp]; [done|]. apply elem_of_cons in Hcp as [->|Hcp]; [done|]. by apply elem_of_nil in Hcp. }
    destruct i as [|[|[|i]]]; [| | |cbn in Hi; lia]; vm_compute; repeat constructor.
  - vm_compute. reflexivity.
  - by exists m'.
Defined.

Lemma or_masks_or_row_predicates_witness : exists masks,
  or_masks masks [1; 0]%nat 3 = or_row_predicates [sample_choice; sample_item] sample_batch.
Proof.
  eexists. apply (or_masks_or_row_predicates [sample_item; sample_choice] _ [1; 0]%nat sample_batch).
  constructor; [vm_compute; reflexivity|]. constructor; [vm_compute; reflexivity|]. constructor.
Defined.

(** The empty column of a type that the witness asks about. *)
Fixpoint sample_empty (dt : data_type) : array :=
  match dt with
  | DInt t => AInt t [] None
  | DText t => AText t [] None
  | DBoolean => ABool [] None
  | DFixedSizeBinary size => AFixed size [] None
  | DList dt => AList [0] (sample_empty dt) None
  | DLargeList dt => ALarge [0] (sample_empty dt) None
  | DDictionary key dt => ADict key [] (sample_empty dt) None
  | DOther name => AOther name [] None
  | DPrim t => APrim t [] None
  | DStruct fields => AStruct ((fun f : string * data_type => (f.1, sample_empty f.2)) <$> fields) 0 None
  end.

Lemma sample_empty_ok : forall dt, array_ok (sample_empty dt) /\ array_type (sample_empty dt) = dt /\ array_len (sample_empty dt) = 0%nat.
Proof.
  assert (Hlist : forall dt, array_ok (sample_empty dt) -> array_len (sample_empty dt) = 0%nat ->
    array_ok (sample_empty (DList dt)) /\ array_ok (sample_empty (DLargeList dt))).
  { intros dt' Hok Hl. cbn [sample_empty array_ok]. rewrite Hl. cbn. split; (split; [done|]; split; [done|]); split_and!; try lia; repeat constructor; cbn; lia. }
  fix self 1. intros [t|t| |size|dt|dt|key dt|name|t|fields]; try (split; [by repeat constructor|done]);
    try (destruct (self dt) as (Hok & Ht & Hl); (split; [|by cbn; rewrite Ht])).
  - exact (proj1 (Hlist dt Hok Hl)).
  - exact (proj2 (Hlist dt Hok Hl)).
  - split; [done|]. split; [done|]. intros row Hr. cbn in Hr. lia.
  - assert (Hf : Forall (fun f => (array_ok (sample_empty f.2) /\ array_len (sample_empty f.2) = 0%nat) /\ array_type (sample_empty f.2) = f.2) fields).
    { induction fields as [|[name dt] fields IH]; constructor; [destruct (self dt) as (? & ? & ?); by split|exact IH]. }
    cbn [sample_empty]. split; [apply struct_ok; split; [done|]; apply Forall_fmap; eapply Forall_impl; [exact Hf|]; by intros f [? _]|].
    split; [|done]. cbn [array_type]. f_equal. induction Hf as [|[name dt] fields' [_ Ht] _ IH]; [done|]. cbn in Ht. cbn. by rewrite Ht, IH.
Qed.

Lemma check_stored_type_spec_witness :
  is_ok (check_stored_type sample_empty (Eq_ (SUtf8 "x")) (DInt UInt8)) = is_ok (evaluate (Eq_ (SUtf8 "x")) (AInt UInt8 [4] None)).
Proof.
  refine (check_stored_type_spec (PL:=predicate_laws) sample_empty (Eq_ (SUtf8 "x")) sample_empty_ok _ (AInt UInt8 [4] None) _);
    [exact I|]. split; [done|]. concrete.
Defined.

Definition sample_union : RowPredicate predicate := with_alternatives []
  [[col_in_list "a" (AInt UInt32 [1; 9; 3] None)]; [col_in_list "b" (AInt UInt32 [6] None)]].

#[local] Ltac each_column :=
  intros cp v Hcp; repeat (apply elem_of_cons in Hcp as [->|Hcp]; [by intros [= <-]|]); by apply elem_of_nil in Hcp.

Lemma listed_union_sound_witness : listed_union [sample_item; sample_choice] = Some sample_union /\
  exists mu, row_evaluate sample_union sample_batch = Ok mu /\ length mu = 3%nat /\
  forall m i, m ∈ [[Some true; Some false; Some false]; [Some false; None; Some true]] ->
    m !! i = Some (Some true) -> mu !! i = Some (Some true).
Proof.
  split; [vm_compute; reflexivity|]. apply (listed_union_sound [sample_item; sample_choice] sample_union sample_batch).
  - constructor; [exact sample_item_ok|]. constructor; [exact sample_choice_ok|]. constructor.
  - constructor; [each_column|]. constructor; [each_column|]. constructor.
  - exact sample_batch_ok.
  - constructor; [vm_compute; reflexivity|]. constructor; [vm_compute; reflexivity|]. constructor.
  - vm_compute; reflexivity.
  - each_column.
Defined.
