(* ===== verification/ItemLists.v ===== *)
(** Items whose lists are fit to be joined: none holds a null, and all of them
    together are no longer than a position of a list holds. Whichever of the items
    are joined, [RowPredicate.listed_union_ok] applies to them. *)
From stdpp Require Import base strings list gmap.
From Stdlib Require Import ZArith Lia.
From S2P Require Import Prelude Machine ListLib Errors Arrow Integers AddressBuild Render Sets Predicate PredicateSpec Pruning RowPredicate.

#[local] Open Scope Z_scope.

(** How many values a predicate lists, and an item. *)
Definition listed_len (cp : ColumnPredicate predicate) : nat := from_option array_len 0%nat (listed_values (cp_predicate cp)).
Definition item_listed (item : RowPredicate predicate) : nat := sum_list (listed_len <$> column_predicates item).

Definition lists_ok (items : list (RowPredicate predicate)) : Prop :=
  Forall (fun item => Forall (fun cp => from_option (fun v => array_nulls v = None) True (listed_values (cp_predicate cp))) (column_predicates item)) items /\
  Z.of_nat (sum_list (item_listed <$> items)) < 2 ^ 32.

Lemma lists_ok_nil : lists_ok [].
Proof. by split. Qed.

Lemma sum_list_elem (x : nat) l : x ∈ l -> (x <= sum_list l)%nat.
Proof. induction 1 as [x l|x y l _ IH]; cbn; lia. Qed.

Lemma lists_ok_sublist sub items : sublist sub items -> lists_ok items -> lists_ok sub.
Proof.
  intros Hs [Hp Hl]. split.
  - apply Forall_forall. intros item Hin. rewrite Forall_forall in Hp. apply Hp. by eapply elem_of_sublist.
  - pose proof (sum_list_sublist item_listed _ _ Hs). lia.
Qed.

Section totals.
Context {K : ArrowKernels} {L : ArrowLaws K} {X : Xxh3} {XL : Xxh3Laws X} {H : HexKernel}.

Lemma lists_ok_plain items : lists_ok items -> Forall lists_plain items.
Proof.
  intros [Hp _]. eapply Forall_impl; [exact Hp|]. intros item Hi cp v Hcp Hv. rewrite Forall_forall in Hi. specialize (Hi cp Hcp).
  cbn in Hv. by rewrite Hv in Hi.
Qed.

(** The values of all the lists of a union. *)
Definition union_total (unions : list (string * list array)) : nat := sum_list ((fun u => sum_list (array_len <$> u.2)) <$> unions).

Lemma add_list_total column v unions : union_total (add_list column v unions) = (union_total unions + array_len v)%nat.
Proof.
  unfold union_total. induction unions as [|[c l] unions IH]; cbn [add_list]; [cbn; lia|]. case_decide; cbn in *; [|lia].
  rewrite fmap_app, sum_list_with_app. cbn. lia.
Qed.

Lemma union_lists_total (chosen : list (ColumnPredicate predicate)) unions unions' : union_lists chosen unions = Some unions' ->
  union_total unions' = (union_total unions + sum_list (listed_len <$> chosen))%nat.
Proof.
  revert unions. induction chosen as [|cp chosen IH]; intros unions; cbn [union_lists]; [intros [= <-]; cbn; lia|].
  destruct (ap_listed_values (cp_predicate cp)) as [v|] eqn:Ev; [|done]. cbn [mbind option_bind]. intros E. rewrite (IH _ E), add_list_total.
  cbn in Ev. cbn. unfold listed_len at 2. rewrite Ev. cbn. lia.
Qed.

Lemma union_choice_total demand item chosen : union_choice demand item = Some chosen -> (sum_list (listed_len <$> chosen) <= item_listed item)%nat.
Proof.
  unfold union_choice, item_listed, column_predicates. rewrite fmap_app, sum_list_with_app.
  destruct (most_demanded (rp_columns item) demand) as [cp|] eqn:Ec.
  - intros [= <-]. apply most_demanded_in in Ec as [Ec _]. cbn.
    pose proof (sum_list_elem (listed_len cp) (listed_len <$> rp_columns item) ltac:(by apply list_elem_of_fmap_2)). unfold sum_list in *. lia.
  - case_decide; [done|]. intros Hm%mapM_Some. enough (sum_list (listed_len <$> chosen) <= sum_list (listed_len <$> concat (rp_alternatives item)))%nat by (unfold sum_list in *; lia).
    clear -Hm. induction Hm as [|g cp groups chosen Hg _ IH]; [done|]. cbn. rewrite fmap_app, sum_list_with_app.
    apply most_demanded_in in Hg as [Hg _]. pose proof (sum_list_elem (listed_len cp) (listed_len <$> g) ltac:(by apply list_elem_of_fmap_2)).
    unfold sum_list in *. lia.
Qed.

Lemma listed_union_fits items u : Forall row_ok items -> lists_ok items -> listed_union items = Some u -> lists_fit u.
Proof.
  intros Hok [_ Hl]. unfold listed_union. destruct (mapM (union_choice _) items) as [chosen|] eqn:Ec; [|done]. cbn [mbind option_bind].
  destruct (union_lists (concat chosen) []) as [unions|] eqn:Eu; [|done]. cbn [mbind option_bind].
  destruct (mapM _ unions) as [groups|] eqn:Eg; [|done]. cbn [mbind option_bind]. intros [= <-].
  apply mapM_Some in Ec, Eg. pose proof (union_lists_total _ _ _ Eu) as Htotal. cbn in Htotal.
  destruct (union_lists_spec _ _ _ Eu ltac:(constructor)) as [_ Hin].
  assert (Hsum : (sum_list (listed_len <$> concat chosen) <= sum_list (item_listed <$> items))%nat).
  { clear -Ec. revert Ec. generalize (union_demand items). intros demand Ec. induction Ec as [|item cps items chosen Hc _ IH]; [done|]. cbn. rewrite fmap_app, sum_list_with_app.
    apply union_choice_total in Hc. unfold sum_list in *. lia. }
  destruct (union_of_groups groups {| columns := []; num_rows := 0 |}) as (_ & _ & Hcols & _).
  intros cp v Hcp Hv. rewrite Hcols in Hcp. apply elem_of_concat in Hcp as (g & Hcp & [k Hg]%list_elem_of_lookup).
  destruct (Forall2_lookup_r _ _ _ _ _ Eg Hg) as ([c lists] & Hk & E). destruct (concat_arrays lists) as [values|] eqn:Ev; [|done]. cbn in E.
  injection E as <-. apply list_elem_of_singleton in Hcp as ->. cbn in Hv. injection Hv as <-.
  assert (Hlists : Forall array_ok lists).
  { apply Forall_forall. intros w Hw. assert (Hu : in_unions unions c w) by (exists lists; split; [by eapply list_elem_of_lookup_2|done]).
    apply Hin in Hu as [(l & Hnil & _)|(cp & Hcp & _ & Hw')]; [by apply not_elem_of_nil in Hnil|].
    apply elem_of_concat in Hcp as (cps & Hcp & [n Hn]%list_elem_of_lookup). destruct (Forall2_lookup_r _ _ _ _ _ Ec Hn) as (item & Hitem%list_elem_of_lookup_2 & Ech).
    destruct (union_choice_spec _ _ _ {| columns := []; num_rows := 0 |} 0 Ech) as [Hcps _]. destruct (Hcps cp Hcp) as [Hcol _].
    rewrite Forall_forall in Hok. pose proof (row_ok_in item cp (Hok item Hitem) Hcol) as Hap. rewrite (listed_in_list cp w Hw') in Hap. apply Hap. }
  destruct (concat_arrays_cells _ _ Hlists Ev) as (_ & Ecells & _). apply (f_equal length) in Ecells.
  assert (Hlen : array_len values = sum_list (array_len <$> lists)).
  { unfold cells in Ecells. rewrite length_fmap, length_seq in Ecells. rewrite Ecells. clear. induction lists as [|a l IH]; [done|]. cbn. rewrite length_app, IH, length_fmap, length_seq. done. }
  pose proof (sum_list_elem _ _ (list_elem_of_fmap_2 (fun u : string * list array => sum_list (array_len <$> u.2)) _ _ (list_elem_of_lookup_2 _ _ _ Hk))) as Hle.
  cbn [snd] in Hle. unfold union_total in Htotal. lia.
Qed.
End totals.
