(* ===== verification/Scan.v ===== *)
(** What a scan of a table is (src/scan/mod.rs and the parts of src/scan/scanner.rs
    that every reader shares): schemas, the checks a request passes before any row
    is read, the filters beside its items, and projection to the output. What a
    scan selects is stated on the table's rows ([selected]), for every reader to
    be proved against. *)
From stdpp Require Import base strings list gmap.
From Stdlib Require Import ZArith Lia Sorting.Sorted.
From S2P Require Import Prelude Machine ListLib Errors Arrow Integers Counting Rows KeyColumns SemiJoin Addresses AddressLookup AddressBuild Keys Render Json Sets Predicate PredicateSpec Pruning RowPredicate ItemLists.

#[local] Open Scope Z_scope.

(** ** Schemas *)

(** A field of an Arrow schema. *)
Record Field := { f_name : string; f_type : data_type; f_nullable : bool }.
Abbreviation Schema := (list Field).

(** [Schema::index_of]: the first field of that name. *)
Fixpoint schema_index (schema : Schema) (name : string) : option nat :=
  match schema with
  | [] => None
  | f :: schema => if decide (f_name f = name) then Some O else S <$> schema_index schema name
  end.

(** [Schema::field_with_name]. *)
Definition field_with_name (schema : Schema) (name : string) : option Field :=
  schema_index schema name ≫= fun i => schema !! i.

(** [RecordBatch::try_new], [NullArray::new] and [new_empty_array]. *)
Class BatchKernels := {
  try_new : Schema -> list array -> option RecordBatch;
  null_array : nat -> array;
  new_empty_array : data_type -> array;
}.

(** A column stored as its field says. *)
Definition column_fits (n : nat) (f : Field) (a : array) : Prop :=
  array_type a = f_type f /\ array_len a = n /\
  (f_nullable f = false -> forall row, (row < n)%nat -> logically_valid a row = true).

(** Columns that are as the schema says make a batch; a batch of no columns has no
    row count to take from them and is refused. *)
Class BatchLaws (B : BatchKernels) : Prop := {
  try_new_fits schema cols n : cols <> [] -> Forall2 (column_fits n) schema cols ->
    try_new schema cols = Some {| columns := zip (f_name <$> schema) cols; num_rows := n |};
  try_new_empty : try_new [] [] = None;
  new_empty_array_ok dt : array_ok (new_empty_array dt) /\ array_type (new_empty_array dt) = dt /\ array_len (new_empty_array dt) = 0%nat;
}.

(** ** Requests *)

Section scan.
Context {ColumnCache Window : Type}.
Abbreviation request_type := (ScanRequest (RowPredicate predicate) KeyFilter HierarchicalFilter ColumnCache Window).
Implicit Types request : request_type.

(** [src/src/scan/scanner.rs:207-242] nullable_block_numbers. *)
Definition nullable_block_numbers (schema : Schema) (request : request_type) : result (option string) :=
  match block_number_column request with
  | None => Ok None
  | Some bn_column =>
      let* index := ok_or (schema_index schema bn_column) (EngineError ColumnNotFound) in
      let* field := expect (schema !! index) in
      let* _ := ensure (is_integer (f_type field)) (EngineError MalformedChunkData) in
      Ok (if f_nullable field then Some bn_column else None)
  end.

(** [src/src/scan/scanner.rs:244-277] ensure_columns_present. *)
Definition ensure_columns_present (schema : Schema) (request : request_type) : result () :=
  let required := Rows.required_columns request ++
    concat (RowPredicate.required_columns <$> predicates request) ++
    match key_filter request with Some kf => kf_block_number_column kf :: kf_columns kf | None => [] end ++
    match hierarchical_filter request with Some hf => hf_group_key_columns hf ++ [hf_address_column hf] | None => [] end in
  foldM (fun _ col => ensure (bool_decide (is_Some (schema_index schema col))) (EngineError ColumnNotFound)) required tt.

(** [src/src/scan/scanner.rs:279-313] ensure_predicates_comparable. *)
Definition ensure_predicates_comparable {K : ArrowKernels} {X : Xxh3} {H : HexKernel} {B : BatchKernels}
  (schema : Schema) (request : request_type) : result () :=
  foldM (fun _ pred =>
    foldM (fun _ col_pred =>
      match schema_index schema (cp_column col_pred) with
      | None => Ok tt
      | Some index =>
          let* field := expect (schema !! index) in
          match check_stored_type new_empty_array (cp_predicate col_pred) (f_type field) with
          | Err _ => Err (EngineError UnsupportedKeyType)
          | Ok _ => Ok tt
          | Panic => Panic
          end
      end) (column_predicates pred) tt) (predicates request) tt.

(** [src/src/scan/scanner.rs:392-400] Relation. *)
Inductive Relation :=
  | RNone
  | RKeys (keys : KeyFilter)
  | RAddresses (addresses : HierarchicalFilter).

(** [src/src/scan/scanner.rs:384-390] RowFilters. *)
Record RowFilters := { rf_blocks : option (option Z * option Z); rf_relation : Relation }.

(** [src/src/scan/scanner.rs:403-420] RowFilters::of. *)
Definition RowFilters_of (request : request_type) : RowFilters :=
  let relation :=
    match hierarchical_filter request, key_filter request with
    | Some addresses, _ => RAddresses addresses
    | None, Some keys => RKeys keys
    | None, None => RNone
    end in
  let keyed := match relation with RKeys keys => negb (checks_blocks_first keys) | _ => false end in
  let from := from_block request ≫= fun block => if 0 <? block then Some block else None in
  let bounded := bool_decide (is_Some from) || bool_decide (is_Some (to_block request)) in
  let checked := bounded && negb keyed && bool_decide (is_Some (block_number_column request)) in
  {| rf_blocks := if checked then Some (from, to_block request) else None; rf_relation := relation |}.

(** [src/src/scan/scanner.rs:1312-1338] block_range_mask. *)
Definition block_range_mask {K : ArrowKernels} (column : array) (from_block to_block : option Z) : result mask :=
  match IntColumn_resolve column with
  | None => Err (EngineError UnsupportedKeyType)
  | Some blocks => Ok (block_numbers_within blocks from_block to_block)
  end.

(** [src/src/scan/scanner.rs:1340-1354] project_batch. *)
Definition project_to {B : BatchKernels} (batch : RecordBatch) (output_schema : Schema) : result RecordBatch :=
  let cols := (fun field => default (null_array (num_rows batch)) (column_by_name batch (f_name field))) <$> output_schema in
  ok_or (try_new output_schema cols) OtherError.

(** [src/src/scan/scanner.rs:1356-1363] build_output_schema. *)
Definition build_output_schema (table_schema : Schema) (cols : list string) : Schema :=
  omap (field_with_name table_schema) cols.
End scan.

(** ** What a scan selects *)

(** The block a row's block-number column gives it. *)
Definition row_block (table : RecordBatch) (bn : string) (row : nat) : option Z :=
  col ← column_by_name table bn;
  match array_type col, cell_at col row with
  | DInt t, CInt z => Some (block_number_of t z)
  | _, _ => None
  end.

Definition in_blocks (table : RecordBatch) (blocks : option (option Z * option Z)) (bn : option string) (row : nat) : Prop :=
  match blocks, bn with
  | Some (from, to), Some bn => exists b, row_block table bn row = Some b /\ in_bounds from to b = true
  | _, _ => True
  end.

(** Rows of a table, in order, with [P]. *)
Definition picked (P : nat -> Prop) (n : nat) (l : list nat) : Prop :=
  StronglySorted lt l /\ forall row, row ∈ l <-> (row < n)%nat /\ P row.

(** A batch of the rows [rows] of a table, some of its columns. *)
Definition drawn (table : RecordBatch) (rows : list nat) (batch : RecordBatch) : Prop :=
  batch_ok batch /\ num_rows batch = length rows /\ Forall (fun row => (row < num_rows table)%nat) rows /\
  forall name a, column_by_name batch name = Some a ->
    exists a0, column_by_name table name = Some a0 /\ array_type a = array_type a0 /\
      forall k row, rows !! k = Some row -> cell_at a k = cell_at a0 row.

(** It has the columns [names] that the table has. *)
Definition holds_columns (table batch : RecordBatch) (names : list string) : Prop :=
  forall name, name ∈ names -> is_Some (column_by_name table name) -> is_Some (column_by_name batch name).

Section semantics.
Context {K : ArrowKernels} {L : ArrowLaws K} {R : RowFormat} {X : Xxh3} {XL : Xxh3Laws X} {H : HexKernel}.
Context {ColumnCache Window : Type}.
Abbreviation request_type := (ScanRequest (RowPredicate predicate) KeyFilter HierarchicalFilter ColumnCache Window).
Implicit Types request : request_type.

(** A relation's filter keeps the rows [related] says, of any batch of the table
    that has its columns. *)
Definition mask_picks (table : RecordBatch) (names : list string) (related : nat -> Prop)
  (mask_of : RecordBatch -> option (list bool) -> result mask) : Prop :=
  forall rows batch candidates, drawn table rows batch -> holds_columns table batch names ->
  exists kept, mask_of batch candidates = Ok (of_bools kept) /\ length kept = length rows /\
    forall k row, rows !! k = Some row -> kept !! k = Some true <-> is_candidate candidates k /\ related row.

Definition relation_picks (table : RecordBatch) (relation : Relation) (related : nat -> Prop) : Prop :=
  match relation with
  | RNone => forall row, related row
  | RKeys keys => mask_picks table (kf_columns keys) related (kf_mask keys)
  | RAddresses addresses =>
      mask_picks table (hf_group_key_columns addresses ++ [hf_address_column addresses]) related (hf_mask addresses)
  end.

Definition selected (table : RecordBatch) request (related : nat -> Prop) (row : nat) : Prop :=
  in_blocks table (rf_blocks (RowFilters_of request)) (block_number_column request) row /\ related row /\
  (predicates request = [] \/ Exists (fun p => row_admits table p row) (predicates request)).

(** One of a tag's items matches the row. *)
Definition tagged (table : RecordBatch) request (items : list nat) (row : nat) : Prop :=
  Exists (fun item => exists p, predicates request !! item = Some p /\ row_admits table p row) items.

(** What the scan returns of a row. *)
Definition output_row (table : RecordBatch) (cols : list string) (row : nat) : list (string * cell) :=
  omap (fun name => a ← column_by_name table name; Some (name, cell_at a row)) cols.

(** The columns it returns. *)
Definition output_types (table : RecordBatch) (cols : list string) : list (string * data_type) :=
  omap (fun name => a ← column_by_name table name; Some (name, array_type a)) cols.

Definition output_entry (table : RecordBatch) request (row : nat) : entry :=
  (output_row table (output_columns request) row, if positions request then Some (Z.of_nat row) else None).

(** What a scan of the rows [l] must return: the rows in order with their
    positions, and each tag's rows, batch by batch. *)
Definition returns (table : RecordBatch) request (l : list nat) (s : Scanned) : Prop :=
  rows_ok (sc_rows s) /\
  (is_Some (rw_positions (sc_rows s)) <-> positions request = true) /\
  entries (sc_rows s) = output_entry table request <$> l /\
  Forall (fun b => batch_schema b = output_types table (output_columns request)) (rw_batches (sc_rows s)) /\
  length (sc_tags s) = length (item_tags request) /\
  forall t items, item_tags request !! t = Some items ->
    exists masks, sc_tags s !! t = Some (items, masks) /\
      Forall2 (fun (m : mask) b => length m = num_rows b) masks (rw_batches (sc_rows s)) /\
      forall k row, l !! k = Some row -> concat masks !! k = Some (Some true) <-> tagged table request items row.

Definition scan_returns (table : RecordBatch) request (related : nat -> Prop) (s : Scanned) : Prop :=
  exists l, picked (selected table request related) (num_rows table) l /\ returns table request l s.
End semantics.

(** ** Lemmas *)

Lemma schema_index_spec schema name i : schema_index schema name = Some i ->
  exists f, schema !! i = Some f /\ f_name f = name.
Proof.
  revert i. induction schema as [|f schema IH]; intros i; cbn; [done|]. case_decide as E.
  - intros [= <-]. by exists f.
  - intros (j & Ej & ->)%fmap_Some. by apply IH.
Qed.

Lemma schema_index_in schema name : is_Some (schema_index schema name) <-> name ∈ (f_name <$> schema).
Proof.
  induction schema as [|f schema IH]; cbn; [split; [by intros []|by intros ?%elem_of_nil]|].
  rewrite elem_of_cons. case_decide as E; [subst; split; [by left|by eexists]|].
  rewrite fmap_is_Some, IH. split; [by right|]. intros [|]; [congruence|done].
Qed.

Lemma schema_index_at schema i f : NoDup (f_name <$> schema) -> schema !! i = Some f -> schema_index schema (f_name f) = Some i.
Proof.
  revert i. induction schema as [|g schema IH]; intros i Hnd Hi; [done|]. cbn in Hnd. apply NoDup_cons in Hnd as [Hg Hnd].
  destruct i as [|i]; cbn in Hi |- *; [injection Hi as ->; by rewrite decide_True|].
  case_decide as E; [|by rewrite (IH i)]. exfalso. apply Hg. rewrite E. apply list_elem_of_fmap. exists f.
  split; [done|]. by eapply list_elem_of_lookup_2.
Qed.

Lemma field_with_name_index schema name : is_Some (field_with_name schema name) <-> is_Some (schema_index schema name).
Proof.
  unfold field_with_name. destruct (schema_index schema name) as [i|] eqn:E; cbn; [|done].
  destruct (schema_index_spec schema name i E) as (f & -> & _). split; by eexists.
Qed.

Lemma field_with_name_spec schema name f : field_with_name schema name = Some f -> f_name f = name /\ f ∈ schema.
Proof.
  unfold field_with_name. destruct (schema_index schema name) as [i|] eqn:E; cbn; [|done].
  destruct (schema_index_spec schema name i E) as (g & Eg & En). rewrite Eg. intros [= <-]. split; [done|].
  by eapply list_elem_of_lookup_2.
Qed.

(** A table's columns are those of its schema. *)
Definition schema_of (schema : Schema) (table : RecordBatch) : Prop :=
  NoDup (f_name <$> schema) /\ batch_ok table /\
  Forall2 (fun f (c : string * array) => c.1 = f_name f /\ column_fits (num_rows table) f c.2) schema (columns table).

Lemma schema_of_column schema table name i : schema_of schema table -> schema_index schema name = Some i ->
  exists f a, schema !! i = Some f /\ f_name f = name /\ columns table !! i = Some (name, a) /\
    column_by_name table name = Some a /\ column_fits (num_rows table) f a.
Proof.
  intros (_ & _ & H2). unfold column_by_name. revert i. induction H2 as [|f [n a] schema cols [En Hf] _ IH]; intros i; cbn; [done|].
  cbn in En. subst n. case_decide as E.
  - intros [= <-]. exists f, a. by rewrite <- E.
  - intros (j & Ej & ->)%fmap_Some. destruct (IH j Ej) as (g & b & ? & ? & ? & ? & ?). by exists g, b.
Qed.

Lemma schema_of_absent schema table name : schema_of schema table -> schema_index schema name = None ->
  column_by_name table name = None.
Proof.
  intros (_ & _ & H2). unfold column_by_name. induction H2 as [|f [n a] schema cols [En _] _ IH]; cbn; [done|].
  cbn in En. subst n. case_decide; [done|]. intros E%fmap_None. auto.
Qed.

Lemma schema_of_is_Some schema table name : schema_of schema table ->
  is_Some (column_by_name table name) <-> is_Some (schema_index schema name).
Proof.
  intros Hs. destruct (schema_index schema name) as [i|] eqn:E.
  - destruct (schema_of_column schema table name i Hs E) as (f & a & _ & _ & _ & -> & _). split; by eexists.
  - by rewrite (schema_of_absent schema table name Hs E).
Qed.

(** ** Masks over drawn batches *)

Lemma drawn_column table rows batch name a : drawn table rows batch -> column_by_name batch name = Some a ->
  array_ok a /\ array_len a = length rows /\
  exists a0, column_by_name table name = Some a0 /\ array_type a = array_type a0 /\
    forall k row, rows !! k = Some row -> cell_at a k = cell_at a0 row.
Proof.
  intros (Hb & Hn & _ & Hc) Ea. destruct (column_ok batch name a Hb Ea) as [Hok Hl]. split; [done|]. split; [congruence|]. by apply Hc.
Qed.

Lemma drawn_absent table rows batch names name : drawn table rows batch -> holds_columns table batch names -> name ∈ names ->
  column_by_name batch name = None -> column_by_name table name = None.
Proof.
  intros Hd Hh Hin E. destruct (column_by_name table name) as [a0|] eqn:Et; [|done].
  destruct (Hh name Hin ltac:(by rewrite Et)) as [a Ha]. congruence.
Qed.

Lemma drawn_block table rows batch bn k row : drawn table rows batch -> is_Some (column_by_name batch bn) ->
  rows !! k = Some row -> row_block batch bn k = row_block table bn row.
Proof.
  intros Hd [a Ea] Hk. unfold row_block. destruct (drawn_column table rows batch bn a Hd Ea) as (_ & _ & a0 & E0 & Et & Hc).
  rewrite Ea, E0. cbn [mbind option_bind]. by rewrite Et, (Hc k row Hk).
Qed.

Lemma drawn_admits `{PredicateLaws P} table rows batch (r : RowPredicate P) k row :
  drawn table rows batch -> holds_columns table batch (RowPredicate.required_columns r) -> rows !! k = Some row ->
  row_admits batch r k <-> row_admits table r row.
Proof.
  intros Hd Hh Hk.
  assert (Hcp : forall cp, cp ∈ column_predicates r -> cp_admits batch k cp <-> cp_admits table row cp).
  { intros cp Hcp. unfold cp_admits. destruct (column_by_name batch (cp_column cp)) as [a|] eqn:Ea.
    - destruct (drawn_column table rows batch _ a Hd Ea) as (_ & _ & a0 & E0 & Et & Hc). by rewrite E0, Et, (Hc k row Hk).
    - by rewrite (drawn_absent table rows batch _ _ Hd Hh (list_elem_of_fmap_2 _ _ _ Hcp) Ea). }
  assert (Hg : forall g, (forall cp, cp ∈ g -> cp ∈ column_predicates r) -> Forall (cp_admits batch k) g <-> Forall (cp_admits table row) g).
  { intros g Hg. rewrite !Forall_forall. split; intros Hf cp Hin; apply Hcp; auto. }
  unfold row_admits. rewrite (Hg (rp_columns r)) by (intros; apply elem_of_app; by left).
  assert (Ha : Exists (Forall (cp_admits batch k)) (rp_alternatives r) <-> Exists (Forall (cp_admits table row)) (rp_alternatives r)); [|by rewrite Ha].
  rewrite !Exists_exists. split; intros (g & Hin & Hf); exists g; (split; [done|]); revert Hf; apply Hg;
    intros cp Hcpg; apply elem_of_app; right; apply elem_of_concat; by exists g.
Qed.

Lemma drawn_supports `{PredicateLaws P} table rows batch (r : RowPredicate P) :
  drawn table rows batch -> row_supports table r = true -> row_supports batch r = true.
Proof.
  intros Hd. assert (Hcp : forall cp, cp_supports table cp = true -> cp_supports batch cp = true).
  { intros cp. unfold cp_supports. destruct (column_by_name batch (cp_column cp)) as [a|] eqn:Ea; [|done].
    destruct (drawn_column table rows batch _ a Hd Ea) as (_ & _ & a0 & -> & -> & _). done. }
  unfold row_supports, group_supports. rewrite !andb_true_iff, !forallb_forall. intros [H1 H2]. split; [auto|].
  intros g Hg. specialize (H2 g Hg). rewrite forallb_forall in *. auto.
Qed.

Section masks.
Context {K : ArrowKernels} {L : ArrowLaws K}.

(** The mask of block bounds selects the rows whose block is within them. *)
Lemma block_range_mask_spec a from to : array_ok a -> is_integer (array_type a) = true ->
  exists m, block_range_mask a from to = Ok m /\ length m = array_len a /\
    forall i, (i < array_len a)%nat -> m !! i = Some (Some true) <->
      exists t z, array_type a = DInt t /\ cell_at a i = CInt z /\ in_bounds from to (block_number_of t z) = true.
Proof.
  intros Ha Ht. destruct a as [t v n| | | | | | | | |]; try done. unfold block_range_mask; cbn [IntColumn_resolve array_len array_type].
  destruct Ha as [_ Hv]. eexists. split; [done|]. set (c := {| ic_type := t; ic_values := v; ic_nulls := n |}).
  assert (Hspec : forall i z, v !! i = Some z -> (exists t' z', DInt t = DInt t' /\ cell_at (AInt t v n) i = CInt z' /\
      in_bounds from to (block_number_of t' z') = true) <-> is_valid_in n i = true /\ in_bounds from to (block_number_of t z) = true).
  { intros i z Hz. rewrite cell_int, Hz. destruct (is_valid_in n i); cbn [from_option id]; naive_solver. }
  assert (match from with Some f => f < 2 ^ int_bits t | None => True end \/ exists f, from = Some f /\ 2 ^ int_bits t <= f)
    as [Hf|(f & -> & Hf)] by (destruct from as [f|]; [destruct (Z.lt_ge_cases f (2 ^ int_bits t)); eauto|by left]).
  - rewrite (block_numbers_within_spec c from to Hf). split; [apply length_imap|]. intros i Hi.
    destruct (lookup_lt_is_Some_2 v i Hi) as [z Hz]. rewrite (Hspec i z Hz), list_lookup_imap. cbn [ic_values ic_nulls ic_type c].
    rewrite Hz; cbn [fmap option_fmap option_map]. destruct (is_valid_in n i); [|by split; [|intros []]].
    split; [by intros [= ->]|by intros [_ ->]].
  - rewrite (block_numbers_within_above c f to) by done.
    unfold of_bools. rewrite length_fmap, length_replicate. split; [done|]. intros i Hi.
    destruct (lookup_lt_is_Some_2 v i Hi) as [z Hz]. rewrite (Hspec i z Hz), list_lookup_fmap, lookup_replicate_2 by done. cbn.
    split; [done|]. intros [_ Hb]. exfalso. unfold in_bounds in Hb. apply andb_true_iff in Hb as [Hb%Z.leb_le _].
    pose proof (int_bits_pos t). unfold block_number_of, as_u64 in Hb.
    pose proof (as_unsigned_range (int_bits t) z ltac:(lia)). assert (2 ^ int_bits t <= 2 ^ 64) by (apply Z.pow_le_mono_r; lia).
    rewrite as_unsigned_id in Hb; lia.
Qed.

(** On a batch drawn of a table. *)
Lemma block_mask_drawn table rows batch bn a from to :
  drawn table rows batch -> column_by_name batch bn = Some a -> is_integer (array_type a) = true ->
  exists m, block_range_mask a from to = Ok m /\ length m = length rows /\
    forall k row, rows !! k = Some row -> m !! k = Some (Some true) <->
      exists b, row_block table bn row = Some b /\ in_bounds from to b = true.
Proof.
  intros Hd Ea Ht. destruct (drawn_column table rows batch bn a Hd Ea) as (Ha & Hl & _).
  destruct (block_range_mask_spec a from to Ha Ht) as (m & Em & Hlm & Hm). exists m. split; [done|]. split; [congruence|].
  intros k row Hk. pose proof (lookup_lt_Some _ _ _ Hk). rewrite Hm by lia.
  rewrite <- (drawn_block table rows batch bn k row Hd ltac:(by rewrite Ea) Hk). unfold row_block. rewrite Ea; cbn [mbind option_bind].
  destruct (array_type a), (cell_at a k); naive_solver.
Qed.
End masks.

(** ** Projection *)

Lemma valid_cell a row : logically_valid a row = true <-> cell_at a row <> CNull.
Proof.
  revert row. induction a as [t v n|t v n|v n|s v n|o x IH n|s v n|o x IH n|t k x IH n|t v n|f len n]; intros row;
    cbn [logically_valid cell_at array_nulls]; unfold is_null; cbn [array_nulls]; rewrite ?andb_true_r;
    destruct (is_valid_in n row); cbn [negb andb]; try (by split); try done.
Qed.

(** Fields of the schema that a drawn batch holds. *)
Lemma drawn_fits schema table rows batch cols : schema_of schema table -> drawn table rows batch ->
  holds_columns table batch cols ->
  Forall (fun f => exists a, column_by_name batch (f_name f) = Some a /\ column_fits (length rows) f a) (build_output_schema schema cols).
Proof.
  intros Hs Hd Hh. apply Forall_forall. intros f Hf. apply list_elem_of_omap in Hf as (name & Hname & Ef).
  unfold field_with_name in Ef. destruct (schema_index schema name) as [i|] eqn:Ei; cbn [mbind option_bind] in Ef; [|done].
  destruct (schema_of_column schema table name i Hs Ei) as (f' & a0 & Ef' & En & _ & Ea0 & Ht0 & Hl0 & Hn0).
  rewrite Ef in Ef'. injection Ef' as <-. rewrite En. destruct (Hh name Hname ltac:(by rewrite Ea0)) as [a Ea]. exists a. split; [done|].
  destruct (drawn_column table rows batch name a Hd Ea) as (Ha & Hl & a0' & Ea0' & Ht & Hc). rewrite Ea0 in Ea0'. injection Ea0' as <-.
  split; [congruence|]. split; [done|]. intros Hnull k Hk. destruct (lookup_lt_is_Some_2 rows k Hk) as [row Hrow].
  apply valid_cell. rewrite (Hc k row Hrow). apply valid_cell, (Hn0 Hnull).
  destruct Hd as (_ & _ & Hlt & _). exact (Forall_lookup_1 _ _ _ _ Hlt Hrow).
Qed.

(** The columns a drawn batch is projected to. *)
Definition drawn_columns (batch : RecordBatch) (fields : Schema) : list array :=
  omap (fun f => column_by_name batch (f_name f)) fields.

Lemma drawn_columns_fit batch n fields :
  Forall (fun f => exists a, column_by_name batch (f_name f) = Some a /\ column_fits n f a) fields ->
  Forall2 (column_fits n) fields (drawn_columns batch fields) /\
  Forall2 (fun f a => column_by_name batch (f_name f) = Some a) fields (drawn_columns batch fields) /\
  (forall x, (fun f => default x (column_by_name batch (f_name f))) <$> fields = drawn_columns batch fields).
Proof.
  induction 1 as [|f fields (a & Ea & Hf) _ (IH1 & IH2 & IH3)]; [done|]. unfold drawn_columns. cbn. rewrite Ea.
  split; [by constructor|]. split; [by constructor|]. intros x. cbn. f_equal. apply IH3.
Qed.

(** A row of named columns. *)
Lemma row_of_columns batch fields arrays k n :
  Forall2 (fun f a => column_by_name batch (f_name f) = Some a) fields arrays ->
  row_of {| columns := zip (f_name <$> fields) arrays; num_rows := n |} k =
  omap (fun f => a ← column_by_name batch (f_name f); Some (f_name f, cell_at a k)) fields.
Proof.
  unfold row_of; cbn [columns]. induction 1 as [|f a fields arrays Ea _ IH]; [done|]. cbn. rewrite Ea. cbn. f_equal. exact IH.
Qed.

Lemma output_row_drawn schema table rows batch cols k row :
  schema_of schema table -> drawn table rows batch -> holds_columns table batch cols -> rows !! k = Some row ->
  omap (fun f => a ← column_by_name batch (f_name f); Some (f_name f, cell_at a k)) (build_output_schema schema cols) =
  output_row table cols row.
Proof.
  intros Hs Hd Hh Hk. unfold build_output_schema, output_row. induction cols as [|name cols IH]; [done|].
  assert (Hh' : holds_columns table batch cols) by (intros n Hn; apply Hh; by right). specialize (IH Hh').
  cbn [omap list_omap]. destruct (field_with_name schema name) as [f|] eqn:Ef.
  - destruct (field_with_name_spec _ _ _ Ef) as [En _]. cbn [omap list_omap]. rewrite En.
    assert (Hname : is_Some (column_by_name table name)).
    { apply (schema_of_is_Some schema table name Hs), field_with_name_index. by eexists. }
    destruct (Hh name ltac:(by left) Hname) as [a Ea]. destruct (drawn_column table rows batch name a Hd Ea) as (_ & _ & a0 & Ea0 & _ & Hc).
    rewrite Ea, Ea0. cbn [mbind option_bind]. rewrite (Hc k row Hk). f_equal. exact IH.
  - assert (Hname : column_by_name table name = None).
    { apply (schema_of_absent schema table name Hs). destruct (schema_index schema name) eqn:E; [|done].
      assert (is_Some (field_with_name schema name)) as [? ?] by (apply field_with_name_index; by rewrite E). congruence. }
    rewrite Hname. cbn [mbind option_bind]. exact IH.
Qed.

Lemma output_types_fields schema table cols : schema_of schema table ->
  (fun f => (f_name f, f_type f)) <$> build_output_schema schema cols = output_types table cols.
Proof.
  intros Hs. unfold build_output_schema, output_types. induction cols as [|name cols IH]; [done|]. cbn [omap list_omap].
  unfold field_with_name at 1. destruct (schema_index schema name) as [i|] eqn:Ei; cbn [mbind option_bind].
  - destruct (schema_of_column schema table name i Hs Ei) as (f & a & Ef & En & _ & Ea & Ht & _). rewrite Ef, Ea. cbn.
    rewrite En, Ht. f_equal. exact IH.
  - rewrite (schema_of_absent schema table name Hs Ei). cbn. exact IH.
Qed.

Lemma project_to_spec {B : BatchKernels} {BL : BatchLaws B} schema table rows batch cols :
  schema_of schema table -> drawn table rows batch -> holds_columns table batch cols ->
  build_output_schema schema cols <> [] ->
  exists out, project_to batch (build_output_schema schema cols) = Ok out /\ batch_ok out /\
    num_rows out = length rows /\ rows_of out = output_row table cols <$> rows /\ batch_schema out = output_types table cols.
Proof.
  intros Hs Hd Hh Hne. set (fields := build_output_schema schema cols) in *.
  pose proof (drawn_fits schema table rows batch cols Hs Hd Hh) as Hfits. fold fields in Hfits.
  destruct (drawn_columns_fit batch (length rows) fields Hfits) as (H1 & H2 & H3).
  unfold project_to. rewrite H3, (try_new_fits fields _ (length rows)); [|intros E|done].
  2: { apply Hne. rewrite E in H1. by apply Forall2_nil_inv_r in H1. }
  cbn [ok_or]. eexists. split; [done|]. split; [|split; [done|]].
  - unfold batch_ok; cbn [columns num_rows]. apply Forall_forall. intros [n a] Hin.
    apply elem_of_zip_r in Hin. apply list_elem_of_lookup in Hin as [k Hk]. cbn [snd].
    destruct (Forall2_lookup_r _ _ _ _ _ H2 Hk) as (f & _ & Ea). by destruct (drawn_column table rows batch _ a Hd Ea) as (? & ? & _).
  - split; [|rewrite <- (output_types_fields schema table cols Hs); fold fields; clear -H1; unfold batch_schema; cbn [columns];
      induction H1 as [|f a fs l (Ht & _) _ IH]; [done|]; cbn; rewrite Ht; by f_equal].
    unfold rows_of; cbn [num_rows]. apply list_eq. intros k. rewrite !list_lookup_fmap.
    destruct (rows !! k) as [row|] eqn:Hrow; cbn [fmap option_fmap option_map].
    2: { rewrite lookup_seq_ge; [done|]. by apply lookup_ge_None. }
    rewrite lookup_seq_lt by (by eapply lookup_lt_Some). cbn [Nat.add fmap option_fmap option_map]. f_equal.
    rewrite (row_of_columns batch _ _ _ _ H2). by apply (output_row_drawn schema table rows).
Qed.

(** ** The checks before a scan *)

Section checks.
Context {ColumnCache Window : Type}.
Abbreviation request_type := (ScanRequest (RowPredicate predicate) KeyFilter HierarchicalFilter ColumnCache Window).
Implicit Types request : request_type.

(** The columns a scan refuses to do without. *)
Definition demanded request : list string :=
  Rows.required_columns request ++ concat (RowPredicate.required_columns <$> predicates request) ++
  match key_filter request with Some kf => kf_block_number_column kf :: kf_columns kf | None => [] end ++
  match hierarchical_filter request with Some hf => hf_group_key_columns hf ++ [hf_address_column hf] | None => [] end.

Lemma foldM_ensure {A} (b : A -> bool) (e : error) (l : list A) :
  foldM (fun _ x => ensure (b x) e) l tt = if forallb b l then Ok tt else Err e.
Proof. induction l as [|x l IH]; cbn; [done|]. destruct (b x); [exact IH|done]. Qed.

Lemma ensure_columns_present_spec schema request :
  ensure_columns_present schema request =
  if forallb (fun name => bool_decide (is_Some (schema_index schema name))) (demanded request) then Ok tt
  else Err (EngineError ColumnNotFound).
Proof. apply foldM_ensure. Qed.

(** Every item evaluates on a table of this schema. *)
Definition comparable {K : ArrowKernels} {L : ArrowLaws K} {X : Xxh3} {XL : Xxh3Laws X} {H : HexKernel} (schema : Schema) request : bool :=
  forallb (fun p => forallb (fun cp => match field_with_name schema (cp_column cp) with
    | Some f => ap_supports (cp_predicate cp) (f_type f) | None => true end) (column_predicates p)) (predicates request).

Lemma ensure_predicates_comparable_spec {K : ArrowKernels} {L : ArrowLaws K} {X : Xxh3} {XL : Xxh3Laws X} {H : HexKernel}
  {B : BatchKernels} {BL : BatchLaws B} schema request :
  Forall row_ok (predicates request) ->
  ensure_predicates_comparable schema request =
  if comparable schema request then Ok tt else Err (EngineError UnsupportedKeyType).
Proof.
  unfold ensure_predicates_comparable, comparable. generalize (predicates request) as rs. induction 1 as [|r rs Hr _ IH]; [done|].
  cbn [foldM forallb].
  assert (Hcps : forall cps, (forall cp, cp ∈ cps -> cp ∈ column_predicates r) ->
    foldM (fun _ (col_pred : ColumnPredicate predicate) =>
      match schema_index schema (cp_column col_pred) with
      | None => Ok tt
      | Some index =>
          let* field := expect (schema !! index) in
          match check_stored_type new_empty_array (cp_predicate col_pred) (f_type field) with
          | Err _ => Err (EngineError UnsupportedKeyType) | Ok _ => Ok tt | Panic => Panic
          end
      end) cps tt =
    if forallb (fun cp => match field_with_name schema (cp_column cp) with
      | Some f => ap_supports (cp_predicate cp) (f_type f) | None => true end) cps
    then Ok tt else Err (EngineError UnsupportedKeyType)); [|rewrite (Hcps (column_predicates r) (fun _ Hin => Hin))].
  2: { destruct (forallb _ (column_predicates r)); cbn [obind andb]; [exact IH|done]. }
  induction cps as [|cp cps IHc]; intros Hin; [done|]. cbn [foldM forallb]. unfold field_with_name at 1.
  destruct (schema_index schema (cp_column cp)) as [i|] eqn:Ei; cbn [mbind option_bind]; [|apply IHc; intros; apply Hin; by right].
  destruct (schema_index_spec schema _ i Ei) as (f & Ef & _). rewrite Ef. cbn [expect obind].
  destruct (new_empty_array_ok (f_type f)) as (Ha & Ht & _). unfold check_stored_type.
  assert (Hp : ap_ok (cp_predicate cp)) by (apply (row_ok_in r cp Hr), Hin; by left).
  pose proof (ap_evaluates (cp_predicate cp) (new_empty_array (f_type f)) Hp Ha) as He. unfold evaluates in He. rewrite Ht in He.
  destruct (ap_supports (cp_predicate cp) (f_type f)).
  - destruct He as (m & -> & _). cbn [obind andb]. apply IHc. intros; apply Hin; by right.
  - destruct He as [e ->]. done.
Qed.

(** Comparable items evaluate on the table's batches. *)
Lemma comparable_supports {K : ArrowKernels} {L : ArrowLaws K} {X : Xxh3} {XL : Xxh3Laws X} {H : HexKernel} schema table request r :
  schema_of schema table -> comparable schema request = true -> r ∈ predicates request -> row_supports table r = true.
Proof.
  intros Hs Hc Hr. unfold comparable in Hc. rewrite forallb_forall in Hc. specialize (Hc r (proj1 (list_elem_of_In _ _) Hr)).
  rewrite forallb_forall in Hc.
  assert (Hcp : forall cp, cp ∈ column_predicates r -> cp_supports table cp = true).
  { intros cp Hin. specialize (Hc cp (proj1 (list_elem_of_In _ _) Hin)). unfold cp_supports, field_with_name in *.
    destruct (schema_index schema (cp_column cp)) as [i|] eqn:Ei; [|by rewrite (schema_of_absent schema table _ Hs Ei)].
    destruct (schema_of_column schema table _ i Hs Ei) as (f & a & Ef & _ & _ & Ea & Ht & _). rewrite Ea. cbn [mbind option_bind] in Hc.
    rewrite Ef in Hc. by rewrite Ht. }
  unfold row_supports, group_supports. apply andb_true_iff. split.
  - apply forallb_forall. intros cp Hin%list_elem_of_In. apply Hcp, elem_of_app. by left.
  - apply forallb_forall. intros g Hg%list_elem_of_In. apply forallb_forall. intros cp Hin%list_elem_of_In.
    apply Hcp, elem_of_app. right. apply elem_of_concat. by exists g.
Qed.
End checks.

(** ** Requests that fit a table *)

Section fits.
Context {K : ArrowKernels} {L : ArrowLaws K} {R : RowFormat} {X : Xxh3} {XL : Xxh3Laws X} {H : HexKernel}.
Context {ColumnCache Window : Type}.
Abbreviation request_type := (ScanRequest (RowPredicate predicate) KeyFilter HierarchicalFilter ColumnCache Window).
Implicit Types request : request_type.

(** The keys of a relation fix the blocks of the rows it picks: each has a block of
    the source rows, within the request's bounds where they are not checked. *)
Definition keys_fix_blocks (content : RecordBatch) request (related : nat -> Prop) : Prop :=
  forall keys, key_filter request = Some keys ->
  forall row, (row < num_rows content)%nat -> related row ->
    (exists b, row_block content (kf_block_number_column keys) row = Some b /\
       forall min max, min <= b <= max -> has_block_within keys min max = true) /\
    (hierarchical_filter request = None -> checks_blocks_first keys = false -> forall bn b, block_number_column request = Some bn ->
       row_block content bn row = Some b -> in_bounds (from_block request) (to_block request) b = true).

(** A request a table of [content] answers: it has the columns, at types the items
    read; its block-number column is an integer without nulls; a relation scan's
    filter picks the rows [related] says; the tags name items there are; and the
    items' lists may be joined. *)
Record request_fits (schema : Schema) (content : RecordBatch) request (related : nat -> Prop) : Prop := {
  fit_items : Forall row_ok (predicates request);
  fit_comparable : comparable schema request = true;
  fit_demanded : Forall (fun name => is_Some (schema_index schema name)) (demanded request);
  fit_blocks : forall bn, block_number_column request = Some bn ->
    exists a, column_by_name content bn = Some a /\ is_integer (array_type a) = true /\
      forall row, (row < num_rows content)%nat -> cell_at a row <> CNull;
  fit_relation : relation_picks content (rf_relation (RowFilters_of request)) related;
  fit_alone : is_Some (hierarchical_filter request) -> predicates request = [];
  fit_keys : keys_fix_blocks content request related;
  fit_tags : Forall (Forall (fun item => (item < length (predicates request))%nat)) (item_tags request);
  fit_lists : lists_ok (predicates request);
  fit_output : build_output_schema schema (output_columns request) <> [];
}.

Lemma fit_row_block schema content request related bn row : request_fits schema content request related ->
  block_number_column request = Some bn -> (row < num_rows content)%nat -> is_Some (row_block content bn row).
Proof.
  intros Hf Ebn Hrow. destruct (fit_blocks _ _ _ _ Hf bn Ebn) as (a & Ea & Ht & Hn). specialize (Hn row Hrow). unfold row_block.
  rewrite Ea. cbn [mbind option_bind]. destruct a as [t v n| | | | | | | | |]; try done. rewrite cell_int in Hn |- *.
  cbn [array_type]. destruct (is_valid_in n row); [by eexists|done].
Qed.

(** Every column a scan reads. *)
Definition needed request : list string :=
  output_columns request ++ concat (RowPredicate.required_columns <$> predicates request) ++
  option_list (block_number_column request) ++
  match key_filter request with Some kf => kf_block_number_column kf :: kf_columns kf | None => [] end ++
  match hierarchical_filter request with Some hf => hf_group_key_columns hf ++ [hf_address_column hf] | None => [] end.
End fits.

(** ** A reference of the batch kernels, for witnesses *)

Definition field_takes (n : nat) (f : Field) (a : array) : bool :=
  bool_decide (array_type a = f_type f) && (array_len a =? n)%nat &&
  (f_nullable f || forallb (logically_valid a) (seq 0 n)).

Definition reference_try_new (schema : Schema) (cols : list array) : option RecordBatch :=
  match cols with
  | [] => None
  | a :: _ =>
      let n := array_len a in
      if (length schema =? length cols)%nat && forallb (fun p : Field * array => field_takes n p.1 p.2) (zip schema cols)
      then Some {| columns := zip (f_name <$> schema) cols; num_rows := n |} else None
  end.

Definition reference_batch_kernels : BatchKernels := {|
  try_new := reference_try_new;
  null_array n := AOther "Null" (replicate n []) (Some (replicate n false));
  new_empty_array := sample_empty;
|}.

Lemma reference_batch_laws : BatchLaws reference_batch_kernels.
Proof.
  split; [|done|exact sample_empty_ok]. intros schema cols n Hne Hfits. cbn [try_new reference_batch_kernels].
  assert (Hlen : length schema = length cols) by (by eapply Forall2_length).
  assert (Hall : forallb (fun p : Field * array => field_takes n p.1 p.2) (zip schema cols) = true).
  { clear -Hfits. induction Hfits as [|f a schema cols (Ht & Hl & Hn) _ IH]; [done|]. cbn. rewrite IH, andb_true_r. unfold field_takes.
    rewrite bool_decide_true by done. rewrite Hl, Nat.eqb_refl. cbn. destruct (f_nullable f); [done|]. cbn.
    apply forallb_forall. intros k Hk%in_seq. apply Hn; [done|lia]. }
  unfold reference_try_new. destruct cols as [|a cols]; [done|]. destruct schema as [|f schema]; [done|].
  assert (Hn : array_len a = n) by (apply Forall2_cons in Hfits as [(_ & ? & _) _]; done).
  rewrite Hn, Hlen, Nat.eqb_refl, Hall. done.
Qed.

Module BatchInstances.
#[export] Existing Instance reference_batch_kernels.
#[export] Existing Instance reference_batch_laws.
End BatchInstances.
