(* ===== verification/ScanParts.v ===== *)
(** The batches a reader makes of the rows it selects, split, filtered and
    collected (src/scan/rows.rs): whatever the reader, what it returns is what
    [Scan.returns] says of those rows. *)
From stdpp Require Import base strings list gmap.
From Stdlib Require Import ZArith Lia Sorting.Sorted.
From S2P Require Import Prelude Machine ListLib Errors Arrow Integers Counting Rows KeyColumns SemiJoin Addresses AddressLookup AddressBuild Keys Render Json Sets Predicate PredicateSpec Pruning RowPredicate ItemLists Scan.

#[local] Open Scope nat_scope.

Section parts.
Context {K : ArrowKernels} {L : ArrowLaws K} {R : RowFormat} {X : Xxh3} {XL : Xxh3Laws X} {H : HexKernel}.
Context {ColumnCache Window : Type}.
Abbreviation request_type := (ScanRequest (RowPredicate predicate) KeyFilter HierarchicalFilter ColumnCache Window).
Implicit Types request : request_type.

(** What a reader says of a row: its output, its position, and each tag's answer,
    [answer] of the tag and the row. *)
Definition said (table : RecordBatch) request (answer : nat -> nat -> option bool) (row : nat)
  : option (list (string * cell)) * option (option Z) * list (option (option bool)) :=
  (Some (output_row table (output_columns request) row),
   if positions request then Some (Some (Z.of_nat row)) else None,
   (fun t => Some (answer t row)) <$> seq 0 (length (item_tags request))).

(** Batches that say of the rows [l], in order, what [said] says. *)
Definition says_rows (table : RecordBatch) request answer (l : list nat) (parts : list ScannedBatch) : Prop :=
  Forall (fun sb => sb_ok sb /\ 0 < num_rows (sb_batch sb) /\ batch_schema (sb_batch sb) = output_types table (output_columns request)) parts /\
  concat (sb_rows <$> parts) = said table request answer <$> l.

(** A reader's answers are the tags'. *)
Definition answers_tags (table : RecordBatch) request (l : list nat) (answer : nat -> nat -> option bool) : Prop :=
  forall t items row, item_tags request !! t = Some items -> row ∈ l ->
    answer t row = Some true <-> tagged table request items row.

Lemma says_split table request answer l sb size : sb_ok sb -> sb_rows sb = said table request answer <$> l -> l <> [] ->
  batch_schema (sb_batch sb) = output_types table (output_columns request) -> says_rows table request answer l (split sb size).
Proof.
  intros Hok Hr Hl Hs. destruct (split_ok sb size Hok) as [Hparts Hc]. split; [|congruence].
  pose proof (split_schema sb size (proj1 Hok)) as Hschema.
  assert (0 < num_rows (sb_batch sb)).
  { destruct l as [|row l]; [done|]. apply (f_equal length) in Hr. unfold sb_rows in Hr.
    rewrite !length_fmap, length_seq in Hr. cbn in Hr. lia. }
  apply Forall_forall. intros part Hpart. rewrite Forall_forall in Hparts, Hschema. destruct (Hparts part Hpart) as (? & _ & Hpos).
  rewrite (Hschema part Hpart). auto.
Qed.

Lemma says_filter table request answer l sb m : sb_ok sb -> sb_rows sb = said table request answer <$> l -> length m = length l ->
  sb_ok (scanned_filter sb m) /\ sb_rows (scanned_filter sb m) = said table request answer <$> masked m l /\
  batch_schema (sb_batch (scanned_filter sb m)) = batch_schema (sb_batch sb).
Proof.
  intros Hok Hr Hm. assert (Hl : length m = num_rows (sb_batch sb)).
  { rewrite Hm. apply (f_equal length) in Hr. unfold sb_rows in Hr. by rewrite !length_fmap, length_seq in Hr. }
  destruct (scanned_filter_spec sb m Hok Hl) as [? ->]. split; [done|]. split; [by rewrite Hr, masked_fmap|].
  cbn. apply filter_record_batch_rows; [apply Hok|done].
Qed.

(** The sequence of batches of consecutive rows. *)
Lemma says_concat table request answer ls partss :
  Forall2 (says_rows table request answer) ls partss -> says_rows table request answer (concat ls) (concat partss).
Proof.
  induction 1 as [|l parts ls partss [Hok Hc] _ [IHok IHc]]; [by split|]. cbn. split; [by apply Forall_app|].
  by rewrite !fmap_app, concat_app, Hc, IHc.
Qed.

Lemma sb_rows_lookup sb k : k < num_rows (sb_batch sb) -> sb_rows sb !! k = Some (sb_row sb k).
Proof. intros Hk. unfold sb_rows. by rewrite list_lookup_fmap, lookup_seq_lt. Qed.

(** The parts of a reader that says what it must. *)
Lemma says_cons table request answer l sb parts : says_rows table request answer l (sb :: parts) ->
  let n := num_rows (sb_batch sb) in
  sb_ok sb /\ 0 < n <= length l /\ sb_rows sb = said table request answer <$> take n l /\
  says_rows table request answer (drop n l) parts.
Proof.
  intros [Hok Hc] n. apply Forall_cons in Hok as [(Hsb & Hpos & _) Hok]. cbn in Hc.
  assert (Hn : length (sb_rows sb) = n) by (unfold sb_rows; by rewrite length_fmap, length_seq).
  assert (Hle : n <= length l).
  { apply (f_equal length) in Hc. rewrite length_app, length_fmap in Hc. lia. }
  split; [done|]. split; [by split|]. split.
  - apply (f_equal (take n)) in Hc. rewrite take_app_le, take_ge in Hc by lia. by rewrite Hc, <- fmap_take.
  - split; [done|]. apply (f_equal (drop n)) in Hc. rewrite drop_app_ge, Hn, Nat.sub_diag, drop_0 in Hc by lia.
    by rewrite Hc, fmap_drop.
Qed.

(** One batch, row by row. *)
Lemma said_rows table request answer l sb :
  sb_ok sb -> sb_rows sb = said table request answer <$> l -> length l = num_rows (sb_batch sb) ->
  0 < length l ->
  part_ok request sb /\
  rows_of (sb_batch sb) = output_row table (output_columns request) <$> l /\
  sb_positions sb = (if positions request then Some (Z.of_nat <$> l) else None) /\
  (forall t, t < length (item_tags request) -> tag_of t sb = answer t <$> l).
Proof.
  intros Hok Hr Hl Hpos. pose proof Hok as (Hb & Hp & Ht).
  assert (Hrow : forall k row, l !! k = Some row -> sb_row sb k = said table request answer row).
  { intros k row Hk. pose proof (lookup_lt_Some _ _ _ Hk). apply (f_equal (lookup k)) in Hr.
    rewrite list_lookup_fmap, Hk, sb_rows_lookup in Hr by lia. cbn [fmap option_fmap option_map] in Hr. congruence. }
  destruct (lookup_lt_is_Some_2 l 0 Hpos) as [row0 H0]. pose proof (Hrow 0 row0 H0) as E0.
  unfold sb_row, said in E0. injection E0 as _ Epos Etags.
  assert (Htags : length (sb_tags sb) = length (item_tags request)).
  { apply (f_equal length) in Etags. by rewrite !length_fmap, length_seq in Etags. }
  assert (Eps : sb_positions sb = if positions request then Some (Z.of_nat <$> l) else None).
  { destruct (positions request) eqn:Eq, (sb_positions sb) as [p|] eqn:Ep; try done. f_equal.
    apply list_eq_same_length with (length l); [by rewrite length_fmap|by rewrite (Hp p eq_refl)|].
    intros k x y Hk Hx Hy. destruct (lookup_lt_is_Some_2 l k ltac:(lia)) as [row Hrk].
    specialize (Hrow k row Hrk). unfold sb_row, said in Hrow. rewrite Ep, Eq in Hrow. cbn [fmap option_fmap option_map] in Hrow. injection Hrow as _ Hrow _.
    rewrite list_lookup_fmap, Hrk in Hy. cbn in Hy. congruence. }
  split; [|split; [|split; [done|]]].
  - split; [done|]. split; [done|]. rewrite Eps. intros ->. by eexists.
  - apply list_eq_same_length with (length l); [by rewrite length_fmap|by rewrite rows_of_length|].
    intros k x y Hk Hx Hy. destruct (lookup_lt_is_Some_2 l k ltac:(lia)) as [row Hrk].
    specialize (Hrow k row Hrk). unfold sb_row, said in Hrow. injection Hrow as Hrow _ _.
    rewrite list_lookup_fmap, Hrk in Hy. cbn in Hy. congruence.
  - intros t Hlt. unfold tag_of. destruct (lookup_lt_is_Some_2 (sb_tags sb) t ltac:(lia)) as [tag Htag]. rewrite Htag; cbn [from_option id].
    apply list_eq_same_length with (length l); [by rewrite length_fmap|by rewrite (Forall_lookup_1 _ _ _ _ Ht Htag)|].
    intros k x y Hk Hx Hy. destruct (lookup_lt_is_Some_2 l k ltac:(lia)) as [row Hrk].
    specialize (Hrow k row Hrk). unfold sb_row, said in Hrow. injection Hrow as _ _ Hrow.
    apply (f_equal (lookup t)) in Hrow. rewrite !list_lookup_fmap, Htag, lookup_seq_lt in Hrow by done. cbn in Hrow.
    rewrite list_lookup_fmap, Hrk in Hy. cbn in Hy. congruence.
Qed.

(** The rows' entries, batch by batch. *)
Lemma said_entries table request answer l sb :
  sb_ok sb -> sb_rows sb = said table request answer <$> l -> length l = num_rows (sb_batch sb) -> 0 < length l ->
  batch_entries (sb_batch sb) (if positions request then Some (default [] (sb_positions sb)) else None) =
  output_entry table request <$> l.
Proof.
  intros Hok Hr Hl Hpos. destruct (said_rows table request answer l sb Hok Hr Hl Hpos) as (_ & Erows & Eps & _).
  unfold batch_entries, output_entry. rewrite Erows, Eps. destruct (positions request); cbn [from_option id].
  - clear. induction l as [|row l IH]; [done|]. cbn. f_equal. exact IH.
  - by rewrite <- list_fmap_compose.
Qed.

Lemma says_collect_parts table request answer l parts : says_rows table request answer l parts ->
  Forall (part_ok request) parts /\
  entries {| rw_batches := sb_batch <$> parts;
             rw_positions := if positions request then Some ((fun part => default [] (sb_positions part)) <$> parts) else None |} =
    output_entry table request <$> l /\
  forall t, t < length (item_tags request) -> concat (tag_of t <$> parts) = answer t <$> l.
Proof.
  revert l. induction parts as [|sb parts IH]; intros l Hs.
  { destruct Hs as [_ Hc]. cbn in Hc. destruct l; [|done]. split; [constructor|]. split; [|done]. unfold entries. by destruct (positions request). }
  destruct (says_cons _ _ _ _ _ _ Hs) as (Hok & [Hpos Hle] & Hr & Hrest). destruct (IH _ Hrest) as (Hparts & He & Ht).
  set (n := num_rows (sb_batch sb)) in *. assert (Hn : length (take n l) = n) by (rewrite length_take; lia).
  assert (Hpos' : 0 < length (take n l)) by lia.
  destruct (said_rows table request answer (take n l) sb Hok Hr Hn Hpos') as (Hpart & _ & _ & Htag).
  split; [by constructor|]. split.
  - pose proof (said_entries table request answer (take n l) sb Hok Hr Hn Hpos') as Hhead. rewrite <- (take_drop n l), fmap_app, <- He, <- Hhead.
    unfold entries; cbn [rw_positions rw_batches]. destruct (positions request); done.
  - intros t Hlt. cbn [fmap list_fmap concat]. rewrite (Htag t Hlt), (Ht t Hlt), <- fmap_app. by rewrite take_drop.
Qed.

(** What a reader returns. *)
Lemma says_collect table request answer l parts :
  answers_tags table request l answer -> says_rows table request answer l parts ->
  exists s, collect request parts = Ok s /\ returns table request l s.
Proof.
  intros Ha Hs. destruct (says_collect_parts table request answer l parts Hs) as (Hparts & He & Ht).
  destruct (collect_ok request parts Hparts) as (tags & E & Hl & Htags). eexists. split; [exact E|]. cbn.
  split; [|split; [by cbn; destruct (positions request)|split; [exact He|split; [|split]]]].
  2: { cbn. apply Forall_fmap. destruct Hs as [Hs _]. eapply Forall_impl; [exact Hs|]. by intros part (_ & _ & ?). }
  - split; cbn.
    + apply Forall_fmap. eapply Forall_impl; [exact Hparts|]. by intros part ((? & _) & _).
    + destruct (positions request) eqn:Epos; [|done]. clear -Hparts Epos.
      induction Hparts as [|part parts ((_ & Hp & _) & _ & Hsome) _ IH]; csimpl; constructor; [|done].
      destruct (Hsome Epos) as [p Ep]. rewrite Ep; cbn. symmetry; auto.
  - cbn. rewrite length_zip. lia.
  - intros t items Hi. pose proof (lookup_lt_Some _ _ _ Hi) as Hlt. destruct (lookup_lt_is_Some_2 tags t ltac:(lia)) as [masks Hm].
    exists masks. split; [cbn; by apply lookup_zip_Some|]. rewrite (Htags t masks Hm). cbn [sc_rows rw_batches]. split.
    { apply Forall2_fmap. apply Forall_Forall2_diag. eapply Forall_impl; [exact Hparts|]. intros part ((_ & _ & Hf) & Hn & _). unfold tag_of.
      destruct (lookup_lt_is_Some_2 (sb_tags part) t) as [m Hm']; [lia|]. rewrite Hm'; cbn. exact (Forall_lookup_1 _ _ _ _ Hf Hm'). }
    rewrite (Ht t Hlt). intros k row Hk. rewrite list_lookup_fmap, Hk. cbn. rewrite <- (Ha t items row Hi) by (by eapply list_elem_of_lookup_2). split; [by intros [= ->]|by intros ->].
Qed.
End parts.
