(* ===== verification/Returned.v ===== *)
(** What a scan returned, batch by batch: the table's rows it drew, in order, each
    column at the table's type; with their positions, where it was asked for them. *)
From stdpp Require Import base strings list gmap.
From Stdlib Require Import ZArith Lia Sorting.Sorted.
From S2P Require Import Prelude Machine ListLib Errors Arrow Integers Counting Rows KeyColumns SemiJoin Addresses AddressLookup AddressBuild Keys Render Json Sets Predicate PredicateSpec Pruning RowPredicate ItemLists Scan.

#[local] Open Scope nat_scope.

(** A column of a list of named columns cut down to some names. *)
Lemma assoc_picked {A B} (f : A -> B) (get : string -> option A) name cols :
  assoc name (omap (fun n => a ← get n; Some (n, f a)) cols) = if decide (name ∈ cols) then f <$> get name else None.
Proof.
  induction cols as [|n cols IH]; [by rewrite decide_False by apply not_elem_of_nil|]. cbn [omap list_omap].
  destruct (decide (n = name)) as [->|Hne].
  - rewrite decide_True by (by left). destruct (get name) as [a|] eqn:Ea; cbn; [by rewrite decide_True|].
    rewrite IH. by case_decide.
  - destruct (get n) as [a|]; cbn [mbind option_bind assoc]; [rewrite decide_False by done|]; rewrite IH;
      destruct (decide (name ∈ cols)) as [Hin|Hin]; [by rewrite decide_True by (by right)| |by rewrite decide_True by (by right)|];
      by rewrite decide_False by (intros [|]%elem_of_cons; [congruence|done]).
Qed.

Lemma assoc_map {A B} (f : A -> B) name (l : list (string * A)) :
  assoc name ((fun c : string * A => (c.1, f c.2)) <$> l) = f <$> assoc name l.
Proof. induction l as [|[n a] l IH]; [done|]. cbn. by case_decide. Qed.

(** A batch of whose rows each is what the table says is drawn of those rows. *)
Lemma rows_drawn table cols rows b :
  batch_ok b -> Forall (fun row => row < num_rows table) rows -> num_rows b = length rows ->
  rows_of b = output_row table cols <$> rows -> batch_schema b = output_types table cols ->
  drawn table rows b /\ holds_columns table b cols.
Proof.
  intros Hb Hlt Hn Hr Hs.
  assert (Htype : forall name, array_type <$> column_by_name b name = if decide (name ∈ cols) then array_type <$> column_by_name table name else None).
  { intros name. unfold column_by_name at 1. rewrite <- assoc_map. unfold batch_schema in Hs. rewrite Hs. apply assoc_picked. }
  split.
  - split; [done|]. split; [done|]. split; [done|]. intros name a Ea. specialize (Htype name). rewrite Ea in Htype. cbn in Htype.
    destruct (decide (name ∈ cols)) as [Hin|]; [|done]. destruct (column_by_name table name) as [a0|] eqn:Ea0; [|done].
    cbn in Htype. exists a0. split; [done|]. split; [congruence|]. intros k row Hk.
    apply (f_equal (lookup k)) in Hr. unfold rows_of in Hr. rewrite !list_lookup_fmap, Hk, lookup_seq_lt in Hr by (rewrite Hn; by eapply lookup_lt_Some).
    cbn [fmap option_fmap option_map Nat.add] in Hr. injection Hr as Hr. apply (f_equal (assoc name)) in Hr.
    unfold row_of, output_row in Hr. rewrite (assoc_map (fun x => cell_at x k)), assoc_picked, decide_True in Hr by done.
    rewrite Ea0 in Hr. unfold column_by_name in Ea. rewrite Ea in Hr. cbn in Hr. congruence.
  - intros name Hin [a0 Ea0]. specialize (Htype name). rewrite decide_True, Ea0 in Htype by done. by destruct (column_by_name b name).
Qed.

Section returned.
Context {K : ArrowKernels} {L : ArrowLaws K} {R : RowFormat} {X : Xxh3} {XL : Xxh3Laws X} {H : HexKernel}.
Context {ColumnCache Window : Type}.
Abbreviation request_type := (ScanRequest (RowPredicate predicate) KeyFilter HierarchicalFilter ColumnCache Window).
Implicit Types request : request_type.

(** Batches drawn of consecutive runs of rows. *)
Definition pieces (table : RecordBatch) (cols : list string) : list (list nat) -> list RecordBatch -> Prop :=
  Forall2 (fun rows b => drawn table rows b /\ holds_columns table b cols).

Lemma entries_drawn table request bs p (l : list nat) :
  Forall (fun row => row < num_rows table) l -> rows_ok {| rw_batches := bs; rw_positions := p |} ->
  (is_Some p <-> positions request = true) ->
  entries {| rw_batches := bs; rw_positions := p |} = output_entry table request <$> l ->
  Forall (fun b => batch_schema b = output_types table (output_columns request)) bs ->
  exists ls : list (list nat), concat ls = l /\ pieces table (output_columns request) ls bs /\
    p = (if positions request then Some ((fun rows : list nat => Z.of_nat <$> rows) <$> ls) else None).
Proof.
  revert p l. induction bs as [|b bs IH]; intros p l Hlt Hok Hp He Hs.
  { exists []. assert (l = []) as ->.
    { destruct l as [|row l]; [done|]. destruct p as [ps|]; cbn in He; done. }
    split; [done|]. split; [constructor|]. destruct Hok as [_ Hps]. cbn in Hps. destruct p as [ps|].
    - rewrite (proj1 Hp (ex_intro _ ps eq_refl)). by apply Forall2_nil_inv_l in Hps as ->.
    - destruct (positions request); [|done]. by destruct (proj2 Hp eq_refl). }
  apply rows_ok_cons in Hok as (Hb & Hq & Hne & Hok). apply Forall_cons in Hs as [Hsb Hs].
  rewrite entries_cons in He by done.
  set (n := num_rows b). assert (Hl : length (batch_entries b (head_positions p)) = n) by (by apply length_batch_entries).
  assert (Hle : n <= length l).
  { apply (f_equal length) in He. rewrite length_app, length_fmap in He. lia. }
  assert (Hhead : batch_entries b (head_positions p) = output_entry table request <$> take n l).
  { apply (f_equal (take n)) in He. rewrite take_app_le, take_ge in He by lia. by rewrite He, <- fmap_take. }
  assert (Htail : entries {| rw_batches := bs; rw_positions := drop_positions 1 p |} = output_entry table request <$> drop n l).
  { apply (f_equal (drop n)) in He. rewrite drop_app_ge, Hl, Nat.sub_diag, drop_0 in He by lia. by rewrite He, fmap_drop. }
  destruct (IH (drop_positions 1 p) (drop n l)) as (ls & El & Hpieces & Eps); [by apply Forall_drop|done| |done|done|].
  { rewrite <- Hp. unfold drop_positions. by rewrite fmap_is_Some. }
  exists (take n l :: ls). cbn [concat]. rewrite El, take_drop. split; [done|].
  assert (Hn : num_rows b = length (take n l)) by (rewrite length_take; unfold n; lia).
  assert (Hrows : rows_of b = output_row table (output_columns request) <$> take n l /\
    head_positions p = if positions request then Some (Z.of_nat <$> take n l) else None).
  { assert (Hfst : (batch_entries b (head_positions p)).*1 = rows_of b).
    { unfold batch_entries. destruct (head_positions p) as [q|] eqn:Eq; [|rewrite <- list_fmap_compose; apply list_fmap_id].
      apply fst_zip. rewrite length_fmap, rows_of_length. rewrite (Hq q eq_refl). lia. }
    split; [rewrite <- Hfst, Hhead, <- list_fmap_compose; done|].
    unfold batch_entries in Hhead. destruct p as [[|q ps]|]; [done| |].
    - rewrite (proj1 Hp (ex_intro _ _ eq_refl)). cbn [head_positions] in *. f_equal. cbn in Hhead.
      apply (f_equal (fmap snd)) in Hhead. rewrite snd_zip in Hhead by (rewrite length_fmap, rows_of_length, (Hq q eq_refl); lia).
      rewrite <- list_fmap_compose in Hhead. unfold output_entry, compose in Hhead. cbn in Hhead. rewrite (proj1 Hp (ex_intro _ _ eq_refl)) in Hhead.
      apply (inj (fmap Some)). rewrite Hhead, <- list_fmap_compose. done.
    - cbn. destruct (positions request); [|done]. by destruct (proj2 Hp eq_refl). }
  destruct Hrows as [Hrows Hpos]. split.
  - constructor; [|done]. apply rows_drawn; try done. by apply Forall_take.
  - destruct p as [[|q ps]|]; [done| |]; cbn in Eps, Hpos; destruct (positions request); try done.
    rewrite drop_0 in Eps. injection Eps as ->. by injection Hpos as ->.
Qed.

(** A scan's rows, piece by piece. *)
Lemma returns_pieces table request l s :
  Forall (fun row => row < num_rows table) l -> returns table request l s ->
  exists ls : list (list nat), concat ls = l /\ pieces table (output_columns request) ls (rw_batches (sc_rows s)) /\
    rw_positions (sc_rows s) = (if positions request then Some ((fun rows : list nat => Z.of_nat <$> rows) <$> ls) else None).
Proof.
  intros Hlt (Hok & Hp & He & Hs & _). destruct (sc_rows s) as [bs p]. by apply (entries_drawn table request bs p l).
Qed.

Lemma picked_lt (P : nat -> Prop) n l : picked P n l -> Forall (fun row => row < n) l.
Proof. intros [_ Hin]. apply Forall_forall. intros row Hrow. by apply Hin. Qed.

Lemma scan_pieces table request related s : scan_returns table request related s ->
  exists (l : list nat) (ls : list (list nat)), picked (selected table request related) (num_rows table) l /\ returns table request l s /\ concat ls = l /\
    pieces table (output_columns request) ls (rw_batches (sc_rows s)) /\
    rw_positions (sc_rows s) = (if positions request then Some ((fun rows : list nat => Z.of_nat <$> rows) <$> ls) else None).
Proof.
  intros (l & Hp & Hr). destruct (returns_pieces table request l s (picked_lt _ _ _ Hp) Hr) as (ls & ? & ? & ?). by exists l, ls.
Qed.
End returned.
