(* ===== verification/KeyCells.v ===== *)
(** Keys, addresses and blocks of a scan's batches, as those of the table's rows they
    were drawn of: a relation follows a scan's rows by them. *)
From stdpp Require Import base strings list sorting.
From Stdlib Require Import ZArith Lia.
From S2P Require Import Prelude Machine ListLib Errors Arrow Integers Counting Rows KeyColumns SemiJoin Addresses AddressLookup AddressBuild Keys Render Json Sets Predicate PredicateSpec Pruning RowPredicate ItemLists Scan BlockIndex Returned.

#[local] Open Scope nat_scope.

(** A cell of a key column whose elements, where it is a list, are all there: keys
    read a list's element slots, null or not. *)
Definition full_cell (c : cell) : Prop := match c with CList l => CNull ∉ l | _ => True end.

Definition int_of_cell (c : cell) : Z := match c with CInt z => z | _ => 0%Z end.

Definition part_of_cell (c : cell) : option key_part :=
  match c with
  | CNull => None
  | CInt z => Some (PInt (stored_key z))
  | CText s => Some (PText s)
  | CBool b => Some (PBool b)
  | CBytes l => Some (PBytes l)
  | CList l => Some (PPath ((fun c => stored_key (int_of_cell c)) <$> l))
  end.

(** The elements of a full list of integers. *)
Lemma full_elements t values nulls (idx : list nat) : CNull ∉ (cell_at (AInt t values nulls) <$> idx) ->
  (fun i => stored_key (default 0%Z (values !! i))) <$> idx =
  (fun c => stored_key (int_of_cell c)) <$> (cell_at (AInt t values nulls) <$> idx).
Proof.
  intros Hfull. rewrite <- list_fmap_compose. apply list_fmap_ext. intros k i Hi. unfold compose.
  assert (Hc : cell_at (AInt t values nulls) i <> CNull).
  { intros E. apply Hfull. rewrite <- E. apply list_elem_of_fmap_2. by eapply list_elem_of_lookup_2. }
  cbn [cell_at] in *. by destruct (is_null (AInt t values nulls) i).
Qed.

(** What a key column says of a row, by its cell. *)
Lemma part_at_cell a row : is_Some (key_shape_of (array_type a)) -> full_cell (cell_at a row) ->
  part_at a row = part_of_cell (cell_at a row).
Proof.
  intros [s Hs] Hfull. unfold part_at. destruct a as [t v n|t v n|v n|size v n|o c n|nm v n|o c n|t ks v n| |];
    cbn [cell_at] in *; cbn [array_type key_shape_of] in Hs; try done; destruct (is_null _ row) eqn:En; try done.
  destruct c as [t v m| | | | | | | | |]; try done. cbn [part_of_cell full_cell] in *. by rewrite <- full_elements by done.
Qed.

(** A row's address, by its cell. *)
Lemma source_path_cell b col a row :
  column_by_name b col = Some a -> array_ok a -> (row < array_len a) -> key_shape_of (array_type a) = Some SPath ->
  source_path b col row = match part_at a row with Some (PPath path) => Some path | _ => None end.
Proof.
  intros Ea Hok Hrow Hs. unfold source_path, address_list. rewrite Ea. cbn [mbind option_bind].
  destruct a as [| | | |o c n| | | | |]; try done. destruct c as [t v m| | | | | | | | |]; try done. cbn [IntColumn_resolve mbind option_bind].
  unfold part_at, is_null. cbn [array_nulls]. destruct (is_valid_in n row); cbn; [|done]. f_equal.
  destruct Hok as (_ & _ & Hlen & Hsort & Hb & _). cbn [array_len] in *.
  assert (Hend : offset_at o (S row) <= length v).
  { unfold offset_at. destruct (o !! S row) as [z|] eqn:Ez; cbn; [|lia]. pose proof (Forall_lookup_1 _ _ _ _ Hb Ez). cbn in *. lia. }
  by rewrite slice_seq.
Qed.

Section drawn.
Context (content : RecordBatch).

(** The columns of a key, of shapes keys read, with full lists. *)
Definition keys_full (names : list string) : Prop :=
  forall name a row, name ∈ names -> column_by_name content name = Some a -> row < num_rows content -> full_cell (cell_at a row).

Context (rows : list nat) (b : RecordBatch) (Hdrawn : drawn content rows b).

Lemma column_drawn name : holds_columns content b [name] -> 
  match column_by_name content name with
  | Some a0 => exists a, column_by_name b name = Some a /\ array_type a = array_type a0 /\
      forall k row, rows !! k = Some row -> cell_at a k = cell_at a0 row
  | None => column_by_name b name = None
  end.
Proof.
  intros Hh. destruct Hdrawn as (Hok & Hn & Hlt & Hcol). destruct (column_by_name content name) as [a0|] eqn:Ea0.
  - destruct (Hh name) as [a Ea]; [by left|by rewrite Ea0|]. destruct (Hcol name a Ea) as (a0' & Ea0' & Ht & Hc).
    rewrite Ea0 in Ea0'. injection Ea0' as <-. by exists a.
  - destruct (column_by_name b name) as [a|] eqn:Ea; [|done]. destruct (Hcol name a Ea) as (a0 & Ea0' & _). congruence.
Qed.

Lemma holds_columns_one names name : holds_columns content b names -> name ∈ names -> holds_columns content b [name].
Proof. intros Hh Hin n ->%list_elem_of_singleton. by apply Hh. Qed.

Lemma drawn_shapes names shapes : holds_columns content b names ->
  mapM (fun name => column_by_name content name ≫= fun col => key_shape_of (array_type col)) names = Some shapes ->
  mapM (fun name => column_by_name b name ≫= fun col => key_shape_of (array_type col)) names = Some shapes.
Proof.
  intros Hh. rewrite !mapM_Some. rewrite !Forall2_lookup. intros Hf i. specialize (Hf i).
  destruct (names !! i) as [name|] eqn:Hin; inversion Hf as [? s E|]; subst; constructor. apply list_elem_of_lookup_2 in Hin.
  pose proof (column_drawn name (holds_columns_one names name Hh Hin)) as H.
  destruct (column_by_name content name) as [a0|]; cbn in E; [|done]. destruct H as (a & -> & Ht & _). cbn. by rewrite Ht.
Qed.

(** Batches drawn of a keyed table are keyed. *)
Lemma drawn_keyed names shapes : keyed [content] names shapes -> holds_columns content b names -> keyed [b] names shapes.
Proof.
  intros Hk Hh. apply Forall_inv in Hk as (_ & _ & Hs). constructor; [|constructor]. destruct Hdrawn as (Hok & _).
  split; [done|]. split; [|by apply drawn_shapes].
  eapply Forall_impl; [exact Hok|]. intros c [Hc _]. by apply array_ok_i32.
Qed.

Lemma drawn_part name k row s : holds_columns content b [name] -> keys_full [name] -> rows !! k = Some row ->
  (column_by_name content name ≫= fun col => key_shape_of (array_type col)) = Some s ->
  (column_by_name b name ≫= fun col => part_at col k) = (column_by_name content name ≫= fun col => part_at col row).
Proof.
  intros Hh Hfull Hk Hs. pose proof (column_drawn name Hh) as H. destruct (column_by_name content name) as [a0|] eqn:Ea0; [|by rewrite H].
  destruct H as (a & -> & Ht & Hc). cbn in Hs |- *. specialize (Hc k row Hk).
  assert (Hrow : row < num_rows content) by (destruct Hdrawn as (_ & _ & Hlt & _); exact (Forall_lookup_1 _ _ _ _ Hlt Hk)).
  assert (Hf : full_cell (cell_at a0 row)) by (apply (Hfull name); [by left|done..]).
  rewrite !part_at_cell by (done || (rewrite ?Ht, ?Hc; by eexists || done)). by rewrite Hc.
Qed.

(** A drawn row's key is its row's. *)
Lemma drawn_key names shapes k row : keyed [content] names shapes -> holds_columns content b names -> keys_full names ->
  rows !! k = Some row -> key_of b names k = key_of content names row.
Proof.
  intros Hkeyed Hh Hfull Hk. apply Forall_inv in Hkeyed as (_ & _ & Hs). revert shapes Hs Hh Hfull.
  induction names as [|name names IH]; intros shapes Hs Hh Hfull; [done|]. rewrite !key_of_cons. cbn [mapM] in Hs.
  destruct (column_by_name content name ≫= fun col => key_shape_of (array_type col)) as [s|] eqn:Es; cbn in Hs; [|done].
  destruct (mapM _ names) as [ss|] eqn:Ess in Hs; [|done].
  rewrite (drawn_part name k row s); [|by (eapply holds_columns_one; [done|left])| |done..].
  - assert (Hh' : holds_columns content b names) by (intros n Hin; apply Hh; by right).
    assert (Hfull' : keys_full names) by (intros n a r Hin; apply Hfull; by right).
    by rewrite (IH ss Ess Hh' Hfull').
  - intros n a r ->%list_elem_of_singleton. apply Hfull. by left.
Qed.

(** A drawn row's address is its row's. *)
Lemma drawn_path name k row : batch_ok content -> holds_columns content b [name] -> keys_full [name] -> rows !! k = Some row ->
  (column_by_name content name ≫= fun col => key_shape_of (array_type col)) = Some SPath ->
  source_path b name k = source_path content name row.
Proof.
  intros Hok0 Hh Hfull Hk Hs. pose proof (drawn_part name k row SPath Hh Hfull Hk Hs) as Hpart. pose proof (column_drawn name Hh) as H.
  destruct (column_by_name content name) as [a0|] eqn:Ea0; [|done]. destruct H as (a & Ea & Ht & Hc). rewrite Ea in Hpart. cbn in Hs, Hpart.
  destruct Hdrawn as (Hok & Hn & Hlt & _). destruct (column_ok b name a Hok Ea) as [Ha Hl].
  destruct (column_ok content name a0 Hok0 Ea0) as [Ha0 Hl0].
  assert (Hrow : row < num_rows content) by exact (Forall_lookup_1 _ _ _ _ Hlt Hk).
  apply lookup_lt_Some in Hk as Hkl.
  rewrite (source_path_cell b name a k), (source_path_cell content name a0 row) by (done || lia || by rewrite Ht). by rewrite Hpart.
Qed.

End drawn.

(** ** Batches of runs of rows *)

(** A column of block numbers: integers, none missing. *)
Definition block_column (content : RecordBatch) (bn : string) : Prop :=
  exists a, column_by_name content bn = Some a /\ is_integer (array_type a) = true /\
    forall row, row < num_rows content -> cell_at a row <> CNull.

Lemma block_column_row content bn row : block_column content bn -> row < num_rows content -> is_Some (row_block content bn row).
Proof.
  intros (a & Ea & Ht & Hn) Hrow. specialize (Hn row Hrow). unfold row_block. rewrite Ea. cbn [mbind option_bind].
  destruct a as [t v n| | | | | | | | |]; try done. rewrite cell_int in Hn |- *. cbn [array_type]. destruct (is_valid_in n row); [by eexists|done].
Qed.

Lemma masked_seq {A} (m : mask) (l : list A) k x : length m = length l -> masked m l !! k = Some x ->
  exists j, masked m (seq 0 (length l)) !! k = Some j /\ l !! j = Some x.
Proof.
  intros Hm Hk. rewrite (masked_lookup m l 0 k Hm), Hm in Hk. destruct (masked m (seq 0 (length l)) !! k) as [j|]; [|done].
  cbn in Hk. rewrite Nat.sub_0_r in Hk. by exists j.
Qed.

Lemma masked_sublist {A} (m : mask) (l : list A) : masked m l `sublist_of` l.
Proof.
  revert m. induction l as [|x l IH]; intros [|o m]; [constructor..|apply sublist_nil_l|]. cbn [masked].
  destruct o as [[]|]; cbn; constructor; apply IH.
Qed.

Lemma sorted_sublist_seq l start n : StronglySorted lt l -> Forall (fun x => start <= x < start + n) l -> l `sublist_of` seq start n.
Proof.
  intros Hs. revert start n. induction Hs as [|x l Hs IH Hx]; intros start n Hb; [apply sublist_nil_l|].
  apply Forall_cons in Hb as [Hb1 Hb]. replace n with ((x - start) + S (start + n - S x)) by lia. rewrite seq_app.
  apply sublist_inserts_l. replace (start + (x - start)) with x by lia. cbn [seq]. apply sublist_skip, IH.
  rewrite !Forall_forall in *. intros y Hy. specialize (Hx y Hy). specialize (Hb y Hy). lia.
Qed.

Lemma omap_sublist {A B} (f : A -> option B) l k : l `sublist_of` k -> omap f l `sublist_of` omap f k.
Proof.
  induction 1 as [|x l k _ IH|x l k _ IH]; cbn; [constructor| |]; destruct (f x); try done; by constructor.
Qed.

(** A drawn row's block, as its batch's reader gives it. *)
Lemma drawn_block_of content bn rows b k row : block_column content bn -> drawn content rows b ->
  (is_Some (column_by_name content bn) -> is_Some (column_by_name b bn)) -> rows !! k = Some row ->
  block_of b bn k = row_block content bn row.
Proof.
  intros (a0 & Ea0 & Ht0 & Hn) Hd Hh Hk. destruct (Hh ltac:(by rewrite Ea0)) as [a Ea].
  rewrite <- (drawn_block content rows b bn k row Hd ltac:(by rewrite Ea) Hk).
  destruct (drawn_column content rows b bn a Hd Ea) as (_ & _ & a0' & Ea0' & Ht & Hc). rewrite Ea0 in Ea0'. injection Ea0' as <-.
  pose proof Hd as (_ & _ & Hlt & _). pose proof (Forall_lookup_1 _ _ _ _ Hlt Hk) as Hrow. cbn in Hrow. specialize (Hn row Hrow).
  rewrite <- (Hc k row Hk) in Hn. unfold block_of, row_block. rewrite Ea. cbn [mbind option_bind]. rewrite <- Ht in Ht0.
  destruct a as [t v n| | | | | | | | |]; try done. rewrite cell_int in Hn |- *. cbn [array_type IntColumn_resolve mbind option_bind].
  destruct (is_valid_in n k); [done|]. by destruct Hn.
Qed.

(** The blocks of some rows. *)
Definition blocks_of (content : RecordBatch) (bn : string) (l : list nat) : list Z :=
  (fun row => default 0%Z (row_block content bn row)) <$> l.

Lemma batch_visits_drawn content bn rows b i : block_column content bn -> drawn content rows b ->
  (is_Some (column_by_name content bn) -> is_Some (column_by_name b bn)) ->
  exists visits, batch_visits bn (i, b) = Ok visits /\ visits.*2 = blocks_of content bn rows.
Proof.
  intros Hblock Hd Hh. pose proof Hblock as (a0 & Ea0 & Ht0 & Hn). destruct (Hh ltac:(by rewrite Ea0)) as [a Ea].
  assert (Hof : forall k row, rows !! k = Some row -> block_of b bn k = row_block content bn row) by (intros; by eapply drawn_block_of).
  destruct (drawn_column content rows b bn a Hd Ea) as (Hok & Hl & a0' & Ea0' & Ht & _). rewrite Ea0 in Ea0'. injection Ea0' as <-.
  unfold batch_visits; cbn [fst snd]. unfold block_of in Hof. rewrite Ea in Hof |- *. rewrite <- Ht in Ht0.
  destruct a as [t v n| | | | | | | | |]; try done. cbn [IntColumn_resolve mbind option_bind] in *. eexists. split; [done|].
  rewrite <- list_fmap_compose. unfold compose; cbn [snd]. cbn [array_len] in Hl. unfold int_len; cbn [ic_values]. rewrite Hl. unfold blocks_of.
  apply list_eq. intros k. rewrite !list_lookup_fmap. destruct (rows !! k) as [row|] eqn:Ek.
  - rewrite lookup_seq_lt by (by eapply lookup_lt_Some). cbn. specialize (Hof k row Ek). by rewrite <- Hof.
  - rewrite lookup_seq_ge; [done|]. by apply lookup_ge_None.
Qed.

(** The blocks a visitor sees of batches drawn of a table. *)
Lemma pieces_visits content bn cols (ls : list (list nat)) bs : block_column content bn -> bn ∈ cols -> pieces content cols ls bs ->
  exists visits, for_each_block_number bs bn = Ok visits /\ visits.*2 = blocks_of content bn (concat ls).
Proof.
  intros Hblock Hbn Hp. unfold for_each_block_number, enumerate. generalize 0. induction Hp as [|rows b ls bs [Hd Hh] Hp IH]; intros i.
  { exists []. by split. }
  destruct (batch_visits_drawn content bn rows b i Hblock Hd (Hh bn Hbn)) as (v & Ev & Eb).
  destruct (IH (S i)) as (vs & Evs & Ebs). cbn [length seq zip zip_with mapM_ok]. rewrite Ev. cbn [obind].
  unfold omap_ok in *. destruct (mapM_ok _ _) as [rest| |]; cbn in *; try done. injection Evs as <-. eexists. split; [done|].
  change (mjoin (v :: rest)) with (v ++ mjoin rest). cbn [concat]. unfold blocks_of in *. rewrite !fmap_app, Eb. f_equal. exact Ebs.
Qed.

Section pieces.
Context {K : ArrowKernels} {L : ArrowLaws K}.
Context (content : RecordBatch) (cols : list string).

(** Rows filtered out of a batch. *)
Lemma filter_drawn rows b m : drawn content rows b -> holds_columns content b cols -> length m = length rows ->
  drawn content (masked m rows) (filter_record_batch b m) /\ holds_columns content (filter_record_batch b m) cols.
Proof.
  intros Hd Hh Hm. pose proof Hd as (Hok & Hn & Hlt & Hcol).
  destruct (filter_record_batch_rows b m Hok ltac:(by rewrite Hn)) as (Hok' & Hn' & Hr & Hs).
  assert (Htype : forall name, array_type <$> column_by_name (filter_record_batch b m) name = array_type <$> column_by_name b name).
  { intros name. unfold column_by_name. by rewrite <- !assoc_map; unfold batch_schema in Hs; rewrite Hs. }
  split.
  - split; [done|]. split; [by rewrite Hn', length_masked|]. split.
    { apply Forall_forall. intros row (i & _ & Hi)%elem_of_masked. exact (Forall_lookup_1 _ _ _ _ Hlt Hi). }
    intros name a Ea. specialize (Htype name). rewrite Ea in Htype. cbn in Htype.
    destruct (column_by_name b name) as [a1|] eqn:Ea1; [|done]. injection Htype as Htype.
    destruct (Hcol name a1 Ea1) as (a0 & Ea0 & Ht & Hc). exists a0. split; [done|]. split; [congruence|]. intros k row Hk.
    destruct (masked_seq m rows k row Hm Hk) as (j & Hj & Hrow). rewrite <- (Hc j row Hrow). rewrite <- Hn in Hj.
    apply (f_equal (lookup k)) in Hr. unfold rows_of at 2 in Hr. rewrite masked_fmap, list_lookup_fmap, Hj in Hr.
    assert (Hlen : k < num_rows (filter_record_batch b m)) by (rewrite Hn', <- (length_masked m rows Hm); by eapply lookup_lt_Some).
    unfold rows_of in Hr. rewrite list_lookup_fmap, lookup_seq_lt in Hr by done. cbn in Hr. injection Hr as Hr.
    apply (f_equal (assoc name)) in Hr. unfold row_of in Hr. rewrite (assoc_map (fun x => cell_at x k)), (assoc_map (fun x => cell_at x j)) in Hr. unfold column_by_name in Ea, Ea1.
    rewrite Ea, Ea1 in Hr. cbn in Hr. congruence.
  - intros name Hin Hsome. specialize (Htype name). destruct (Hh name Hin Hsome) as [a Ea]. rewrite Ea in Htype.
    by destruct (column_by_name (filter_record_batch b m) name).
Qed.

(** The rows a mask marks, batch by batch, the batches it marks none of left out. *)
Lemma pieces_masked (ls : list (list nat)) bs (masks : list mask) : pieces content cols ls bs ->
  Forall2 (fun (m : mask) b => length m = num_rows b) masks bs ->
  exists ls' : list (list nat), concat ls' = masked (concat masks) (concat ls) /\
    pieces content cols ls' ((fun bm : RecordBatch * mask => filter_record_batch bm.1 bm.2) <$>
      filter (fun bm : RecordBatch * mask => 0 < true_count bm.2) (zip bs masks)).
Proof.
  intros Hp. revert masks. induction Hp as [|rows b ls bs [Hd Hh] Hp IH]; intros masks Hm.
  { apply Forall2_nil_inv_r in Hm as ->. exists []. split; [done|constructor]. }
  apply Forall2_cons_inv_r in Hm as (m & masks' & Hm & Hms & ->). destruct (IH masks' Hms) as (ls' & E & Hp').
  assert (Hlen : length m = length rows) by (destruct Hd as (_ & Hn & _); by rewrite Hm).
  cbn [zip zip_with concat]. rewrite masked_app by done. rewrite <- E. rewrite filter_cons. cbn [fst snd]. case_decide as Hc.
  - exists (masked m rows :: ls'). split; [done|]. constructor; [|done]. by apply filter_drawn.
  - exists ls'. split; [|done]. rewrite (masked_none m rows); [done|lia].
Qed.

Context (ls : list (list nat)) (bs : list RecordBatch) (Hpieces : pieces content cols ls bs).

(** A row of a batch is one of the table's, and a row drawn is a batch's. *)
Lemma pieces_row b k : b ∈ bs -> k < num_rows b ->
  exists rows row, drawn content rows b /\ holds_columns content b cols /\ rows !! k = Some row /\ row ∈ concat ls.
Proof.
  intros Hb Hk. apply list_elem_of_lookup in Hb as [i Hi]. destruct (Forall2_lookup_r _ _ _ _ _ Hpieces Hi) as (rows & Hrows & Hd & Hh).
  pose proof Hd as (_ & Hn & _). destruct (lookup_lt_is_Some_2 rows k ltac:(lia)) as [row Hrow]. exists rows, row. split_and!; try done.
  apply elem_of_concat. exists rows. split; by eapply list_elem_of_lookup_2.
Qed.

Lemma row_piece row : row ∈ concat ls ->
  exists rows b k, b ∈ bs /\ k < num_rows b /\ drawn content rows b /\ holds_columns content b cols /\ rows !! k = Some row.
Proof.
  intros (rows & Hrow & Hrows)%elem_of_concat. apply list_elem_of_lookup in Hrows as [i Hi].
  destruct (Forall2_lookup_l _ _ _ _ _ Hpieces Hi) as (b & Hb & Hd & Hh). apply list_elem_of_lookup in Hrow as [k Hk].
  pose proof Hd as (_ & Hn & _). exists rows, b, k. split_and!; try done; [by eapply list_elem_of_lookup_2|]. rewrite Hn. by eapply lookup_lt_Some.
Qed.

Lemma holds_some names b : (forall name, name ∈ names -> name ∈ cols) -> holds_columns content b cols -> holds_columns content b names.
Proof. intros Hin Hh name Hn. apply Hh. by apply Hin. Qed.

Context (names : list string) (Hnames : forall name, name ∈ names -> name ∈ cols).

Lemma pieces_keyed shapes : keyed [content] names shapes -> keyed bs names shapes.
Proof.
  intros Hk. apply Forall_forall. intros b Hb. apply list_elem_of_lookup in Hb as [i Hi].
  destruct (Forall2_lookup_r _ _ _ _ _ Hpieces Hi) as (rows & _ & Hd & Hh).
  exact (Forall_inv (drawn_keyed content rows b Hd names shapes Hk (holds_some names b Hnames Hh))).
Qed.

Context (shapes : list key_shape) (Hkeyed : keyed [content] names shapes) (Hfull : keys_full content names).

Lemma pieces_has_key ps : has_key bs names ps <-> exists row, row ∈ concat ls /\ key_of content names row = Some ps.
Proof.
  split.
  - intros (b & k & Hb & Hk & E). destruct (pieces_row b k Hb Hk) as (rows & row & Hd & Hh & Hrow & Hin). exists row. split; [done|].
    by rewrite <- (drawn_key content rows b Hd names shapes k row Hkeyed (holds_some names b Hnames Hh) Hfull Hrow).
  - intros (row & Hin & E). destruct (row_piece row Hin) as (rows & b & k & Hb & Hk & Hd & Hh & Hrow). exists b, k. split_and!; try done.
    by rewrite (drawn_key content rows b Hd names shapes k row Hkeyed (holds_some names b Hnames Hh) Hfull Hrow).
Qed.

(** A key's blocks are those of the rows with one. *)
Lemma pieces_key_block bn x : bn ∈ cols -> block_column content bn ->
  key_block bs names bn x <->
  exists row, row ∈ concat ls /\ is_Some (key_of content names row) /\ row_block content bn row = Some x.
Proof.
  intros Hbn Hblock.
  assert (Heq : forall b rows k row, drawn content rows b -> holds_columns content b cols -> rows !! k = Some row ->
    (is_Some (key_of b names k) /\ block_of b bn k = Some x) <-> (is_Some (key_of content names row) /\ row_block content bn row = Some x)).
  { intros b rows k row Hd Hh Hk.
    rewrite (drawn_key content rows b Hd names shapes k row Hkeyed (holds_some names b Hnames Hh) Hfull Hk).
    by rewrite (drawn_block_of content bn rows b k row Hblock Hd (Hh bn Hbn) Hk). }
  split.
  - intros (b & k & Hb & Hk & E). destruct (pieces_row b k Hb Hk) as (rows & row & Hd & Hh & Hrow & Hin). exists row. split; [done|].
    by apply (Heq b rows k row).
  - intros (row & Hin & E). destruct (row_piece row Hin) as (rows & b & k & Hb & Hk & Hd & Hh & Hrow). exists b, k. split; [done|].
    split; [done|]. by apply (Heq b rows k row).
Qed.

(** The address column of a hierarchical relation. *)
Definition path_column (addr : string) : Prop :=
  (column_by_name content addr ≫= fun col => key_shape_of (array_type col)) = Some SPath /\ keys_full content [addr].

Context (addr : string) (Haddr : addr ∈ cols) (Hpath : path_column addr).

Lemma holds_addr b : holds_columns content b cols -> holds_columns content b [addr].
Proof. apply holds_some. by intros name ->%list_elem_of_singleton. Qed.

Lemma drawn_fact rows b k row : drawn content rows b -> holds_columns content b cols -> rows !! k = Some row ->
  row_fact b names addr k = row_fact content names addr row.
Proof.
  intros Hd Hh Hk. unfold row_fact. destruct (Forall_inv Hkeyed) as (Hok & _ & _).
  rewrite (drawn_key content rows b Hd names shapes k row Hkeyed (holds_some names b Hnames Hh) Hfull Hk).
  by rewrite (drawn_path content rows b Hd addr k row Hok (holds_addr b Hh) (proj2 Hpath) Hk (proj1 Hpath)).
Qed.

Lemma pieces_facts : facts_of bs names addr = omap (row_fact content names addr) (concat ls).
Proof.
  unfold facts_of. clear -Hpieces Hkeyed Hfull Hnames Hpath Haddr. induction Hpieces as [|rows b ls' bs' [Hd Hh] Hp IH]; [done|].
  cbn [mbind list_bind concat]. rewrite omap_app, IH by done. f_equal. pose proof Hd as (_ & Hn & _). rewrite Hn.
  assert (Hgen : forall l s0, (forall k row, l !! k = Some row -> rows !! (s0 + k) = Some row) ->
    omap (row_fact b names addr) (seq s0 (length l)) = omap (row_fact content names addr) l).
  { induction l as [|row l IHl]; intros s0 Hl; [done|]. cbn [length seq omap list_omap].
    rewrite (drawn_fact rows b s0 row); [|done|done|rewrite <- (Nat.add_0_r s0); by apply Hl].
    rewrite (IHl (S s0)); [done|]. intros k r Hk. specialize (Hl (S k) r Hk). by rewrite Nat.add_succ_r in Hl. }
  by apply Hgen.
Qed.

(** No more sources than the table has rows. *)
Lemma pieces_facts_size : StronglySorted lt (concat ls) ->
  facts_size (facts_of bs names addr) <= facts_size (facts_of [content] names addr).
Proof.
  intros Hs. rewrite pieces_facts. unfold facts_of at 1, facts_size. cbn [mbind list_bind]. rewrite app_nil_r.
  assert (Hsub : concat ls `sublist_of` seq 0 (num_rows content)).
  { apply sorted_sublist_seq; [done|]. apply Forall_forall. intros row Hin. destruct (row_piece row Hin) as (rows & b & k & _ & _ & (_ & _ & Hlt & _) & _ & Hk).
    pose proof (Forall_lookup_1 _ _ _ _ Hlt Hk) as Hrow. cbn in Hrow. lia. }
  apply sum_list_sublist, omap_sublist, Hsub.
Qed.

Lemma pieces_has_source ps path : has_source bs names addr ps path <->
  exists row, row ∈ concat ls /\ key_of content names row = Some ps /\ source_path content addr row = Some path.
Proof.
  unfold has_source. rewrite <- elem_of_facts, pieces_facts, list_elem_of_omap. split.
  - intros (row & Hin & E). exists row. split; [done|]. unfold row_fact in E.
    destruct (source_path content addr row); [|done]. cbn in E. destruct (key_of content names row); [|done]. by injection E as <- <-.
  - intros (row & Hin & E1 & E2). exists row. split; [done|]. unfold row_fact. by rewrite E2, E1.
Qed.
End pieces.
