(* ===== verification/Follow.v ===== *)
(** The filters a relation builds of the rows it follows, over a whole table: they
    pick exactly the target rows joined by key, or related by address, to one of
    the source table's followed rows. *)
From stdpp Require Import base strings list sorting sets.
From Stdlib Require Import ZArith Lia.
From S2P Require Import Prelude Machine ListLib Errors Arrow Integers Counting Rows KeyColumns SemiJoin Addresses AddressLookup AddressBuild Keys Render Json Sets Predicate PredicateSpec Pruning RowPredicate ItemLists Scan BlockIndex Returned KeyCells.

#[local] Open Scope nat_scope.

(** A target row whose complete key is that of a followed row. *)
Definition joined (source : RecordBatch) (left : list string) (followed : nat -> Prop) (target : RecordBatch) (right : list string) (row : nat) : Prop :=
  exists ps r, key_of target right row = Some ps /\ followed r /\ key_of source left r = Some ps.

(** A target row whose address is related to that of a followed row of its group. *)
Definition walked (source : RecordBatch) (group : list string) (source_address : string) (followed : nat -> Prop)
    (target : RecordBatch) (target_address : string) (mode : HierarchicalMode) (inclusive : bool) (row : nat) : Prop :=
  exists ps path r from, key_of target group row = Some ps /\ source_path target target_address row = Some path /\
    followed r /\ key_of source group r = Some ps /\ source_path source source_address r = Some from /\
    related mode inclusive from path.

Section follow.
Context {K : ArrowKernels} {L : ArrowLaws K} {R : RowFormat} {X : Xxh3} {XL : Xxh3Laws X} {HK : HexKernel}.

(** The rows followed: batches of a scan of the source table. *)
Context (source : RecordBatch) (cols : list string) (ls : list (list nat)) (bs : list RecordBatch).
Context (Hpieces : pieces source cols ls bs) (Hsorted : StronglySorted lt (concat ls)).
Context (bn : string) (Hbn : bn ∈ cols) (Hblock : block_column source bn).

(** The key followed, on both sides. *)
Context (names : list string) (shapes : list key_shape).
Context (Hnames : forall name, name ∈ names -> name ∈ cols) (Hkeyed : keyed [source] names shapes) (Hfull : keys_full source names).
Context (Hreadable : readable_shapes shapes).

Definition has_block (x : Z) : Prop :=
  exists r, r ∈ concat ls /\ is_Some (key_of source names r) /\ row_block source bn r = Some x.

Lemma no_source_path b addr s : (column_by_name b addr ≫= fun col => key_shape_of (array_type col)) = Some s -> s <> SPath ->
  forall row, source_path b addr row = None.
Proof.
  intros Hs Hne row. unfold source_path, address_list. destruct (column_by_name b addr) as [a|]; cbn in *; [|done].
  destruct a as [| | | |o c n| | | | |]; try done. destruct c as [| | | | | | | | |]; try done. cbn in Hs. congruence.
Qed.

Lemma pieces_paths_fit : paths_fit [source] names -> paths_fit bs names.
Proof.
  intros Hfit. destruct names as [|k0 [|k1 [|k2 [|]]]]; try done. cbn [paths_fit] in *.
  pose proof (Forall_inv Hkeyed) as (Hok & Hi32 & Hs). cbn [mapM mbind option_bind] in Hs.
  destruct (column_by_name source k0 ≫= _) as [s0|] eqn:E0 in Hs; [|done].
  destruct (column_by_name source k1 ≫= _) as [s1|] eqn:E1 in Hs; [|done].
  destruct (column_by_name source k2 ≫= fun col => key_shape_of (array_type col)) as [s2|] eqn:E2 in Hs; [|done].
  assert (Hk01 : keyed [source] [k0; k1] [s0; s1]).
  { constructor; [|constructor]. split; [done|]. split; [done|]. cbn [mapM mbind option_bind]. rewrite E0, E1. done. }
  assert (Hf01 : keys_full source [k0; k1]) by (intros n a r Hin; apply Hfull; set_solver).
  assert (Hn01 : forall name, name ∈ [k0; k1] -> name ∈ cols) by (intros n Hin; apply Hnames; set_solver).
  destruct (decide (s2 = SPath)) as [->|Hne].
  - assert (Hpath : path_column source k2) by (split; [done|]; intros n a r ->%list_elem_of_singleton; apply Hfull; set_solver).
    pose proof (pieces_facts_size source cols ls bs Hpieces [k0; k1] Hn01 [s0; s1] Hk01 Hf01 k2 ltac:(apply Hnames; set_solver) Hpath Hsorted). lia.
  - assert (E : facts_of bs [k0; k1] k2 = []); [|rewrite E; cbn; lia]. unfold facts_of.
    assert (Hall : forall b, b ∈ bs -> (column_by_name b k2 ≫= fun col => key_shape_of (array_type col)) = Some s2).
    { intros b Hb. apply (keyed_elem _ _ _ _ (pieces_keyed source cols ls bs Hpieces [k0; k1; k2] Hnames shapes Hkeyed)) in Hb.
      apply Forall_inv in Hb as (_ & _ & Hb). injection Hs as <-. cbn [mapM mbind option_bind] in Hb.
      destruct (column_by_name b k0 ≫= _) in Hb; [|done]. destruct (column_by_name b k1 ≫= _) in Hb; [|done].
      destruct (column_by_name b k2 ≫= _) in Hb |- *; [|done]. by injection Hb as _ _ ->. }
    clear -Hall Hne. induction bs as [|b l IH]; [done|]. cbn [mbind list_bind]. rewrite IH by (intros; apply Hall; by right). rewrite app_nil_r.
    assert (Hno := no_source_path b k2 s2 (Hall b ltac:(by left)) Hne). unfold row_fact. clear -Hno.
    generalize (seq 0 (num_rows b)) as rs. induction rs as [|row rs IH]; [done|]. cbn. by rewrite Hno.
Qed.

(** ** Keys *)

Context (target : RecordBatch).

Lemma key_set_follows : paths_fit [source] names ->
  exists ks, KeySet_build bs names bn = Ok ks /\
    (ks_matches_nothing ks = true <-> forall r, r ∈ concat ls -> key_of source names r = None) /\
    forall right tbn, length right = length names -> keyed [target] right shapes -> keys_full target right ->
    exists kf, ks_filter ks right tbn = Ok kf /\ kf_is_empty kf = ks_matches_nothing ks /\
      kf_columns kf = right /\ kf_block_number_column kf = tbn /\ checks_blocks_first kf = false /\
      mask_picks target right (joined source names (fun r => r ∈ concat ls) target right) (kf_mask kf) /\
      forall min max, has_block_within kf min max = true <-> exists x, has_block x /\ (min <= x <= max)%Z.
Proof.
  intros Hfit. pose proof (pieces_keyed source cols ls bs Hpieces names Hnames shapes Hkeyed) as Hk.
  destruct (KeySet_build_ok bs names shapes bn Hk Hreadable (pieces_paths_fit Hfit))
    as (ks & E & Hread & Hw & Hholds & Hnothing & Hasc & Hblocks).
  pose proof (pieces_has_key source cols ls bs Hpieces names Hnames shapes Hkeyed Hfull) as Hhas.
  exists ks. split; [done|]. split.
  - rewrite Hnothing. unfold some_key. setoid_rewrite Hhas. split.
    + intros Hno r Hr. destruct (key_of source names r) as [ps|] eqn:Eps; [|done]. exfalso. apply Hno. by exists ps, r.
    + intros Hno (ps & r & Hr & Eps). by rewrite Hno in Eps.
  - intros right tbn Hlen Htk Htf. unfold ks_filter. rewrite Hw, Hlen, Nat.eqb_refl. eexists. split; [done|].
    split; [unfold ks_matches_nothing; by rewrite Hread|]. split; [done|]. split; [done|]. split; [done|]. split.
    + intros rows batch candidates Hd Hh. pose proof (drawn_keyed target rows batch Hd right shapes Htk Hh) as Hbk.
      destruct (Hholds right batch candidates Hlen Hbk) as (kept & Ekept & Hl & Hkept). exists kept. split; [done|].
      pose proof Hd as (_ & Hn & _). split; [congruence|]. intros k row Hrow. rewrite Hkept by (rewrite Hn; by eapply lookup_lt_Some).
      rewrite (drawn_key target rows batch Hd right shapes k row Htk Hh Htf Hrow). unfold joined. setoid_rewrite Hhas. naive_solver.
    + intros min max. rewrite has_block_ascending by done. cbn [kf_sorted_blocks]. setoid_rewrite Hblocks.
      setoid_rewrite (fun x => pieces_key_block source cols ls bs Hpieces names Hnames shapes Hkeyed Hfull bn x Hbn Hblock). done.
Qed.

(** ** Addresses *)

Lemma address_index_follows addr : addr ∈ cols -> path_column source addr ->
  (Z.of_nat (facts_size (facts_of [source] names addr)) < 2 ^ 32)%Z ->
  exists index, AddressIndex_build bs names addr = Ok index /\
    (matches_nothing index = true <-> forall r, r ∈ concat ls -> key_of source names r = None \/ source_path source addr r = None) /\
    forall target_address mode inclusive, keyed [target] names shapes -> keys_full target names -> path_column target target_address -> batch_ok target ->
    let hf := ai_filter index target_address mode inclusive in
    hf_is_empty hf = matches_nothing index /\ hf_group_key_columns hf = names /\ hf_address_column hf = target_address /\
    mask_picks target (names ++ [target_address]) (walked source names addr (fun r => r ∈ concat ls) target target_address mode inclusive) (hf_mask hf).
Proof.
  intros Haddr Hpath Hsize. pose proof (pieces_keyed source cols ls bs Hpieces names Hnames shapes Hkeyed) as Hk.
  pose proof (pieces_facts_size source cols ls bs Hpieces names Hnames shapes Hkeyed Hfull addr Haddr Hpath Hsorted) as Hle.
  destruct (build_spec names shapes addr Hreadable bs Hk ltac:(lia)) as (sa & E & Hsa).
  pose proof (pieces_has_source source cols ls bs Hpieces names Hnames shapes Hkeyed Hfull addr Haddr Hpath) as Hhas.
  unfold AddressIndex_build. rewrite E; cbn [obind]. eexists. split; [done|].
  assert (Hread : forallb (fun batch => bool_decide (is_Some (address_list batch addr))) (filter (fun batch => 0 < num_rows batch) bs) &&
    keys_readable bs names = true).
  { apply andb_true_iff. split; [|by eapply keys_readable_ok]. apply forallb_forall. intros b [_ Hb]%list_elem_of_In%list_elem_of_filter.
    apply bool_decide_eq_true. apply list_elem_of_lookup in Hb as [i Hi]. destruct (Forall2_lookup_r _ _ _ _ _ Hpieces Hi) as (rows & _ & Hd & Hh).
    destruct Hpath as [Hs _]. destruct (column_by_name source addr) as [a0|] eqn:Ea0; cbn in Hs; [|done].
    destruct (Hh addr Haddr ltac:(by rewrite Ea0)) as [a Ea].
    destruct (drawn_column source rows b addr a Hd Ea) as (_ & _ & a0' & Ea0' & Ht & _). rewrite Ea0 in Ea0'. injection Ea0' as <-.
    rewrite <- Ht in Hs. unfold address_list. rewrite Ea. cbn. destruct a as [| | | |o c n| | | | |]; try done. by destruct c. }
  unfold matches_nothing; cbn [ai_readable ai_sources]. rewrite Hread. cbn [andb]. split.
  - rewrite (index_empty shapes sa _ Hsa). split.
    + intros Hno r Hr. destruct (key_of source names r) as [ps|] eqn:Eps; [|by left].
      destruct (source_path source addr r) as [path|] eqn:Epath; [|by right]. exfalso.
      assert (Hin : (ps, path) ∈ facts_of bs names addr); [|rewrite Hno in Hin; by apply not_elem_of_nil in Hin].
      apply elem_of_facts, Hhas. by exists r.
    + intros Hno. destruct (facts_of bs names addr) as [|[ps path] fs] eqn:Ef; [done|]. exfalso.
      assert (Hin : (ps, path) ∈ facts_of bs names addr) by (rewrite Ef; by left).
      apply elem_of_facts, Hhas in Hin as (r & Hr & E1 & E2). destruct (Hno r Hr); congruence.
  - intros target_address mode inclusive Htk Htf Htp Hok. cbn [hf_is_empty ai_filter hf_sources]. split; [done|]. split; [done|]. split; [done|].
    intros rows batch candidates Hd Hh.
    assert (Hh1 : holds_columns target batch names) by (intros n Hin; apply Hh, elem_of_app; by left).
    assert (Hh2 : holds_columns target batch [target_address]) by (intros n Hin; apply Hh, elem_of_app; by right).
    pose proof (drawn_keyed target rows batch Hd names shapes Htk Hh1) as Hbk.
    edestruct (sa_mask_spec (fun sources group target => relates sources group target mode inclusive) (related mode inclusive))
      with (sa := sa) (sources := bs) (source_col := addr) (b := batch) (target_col := target_address) (candidates := candidates)
      as (kept & Ekept & Hl & Hkept); [|exact Hreadable|exact Hbk|exact Hsa|].
    { intros sa' srcs g l t Hok' Hl Ht. by apply (relates_spec sa' srcs). }
    exists kept. split; [exact Ekept|]. pose proof Hd as (_ & Hn & _). split; [congruence|].
    intros k row Hrow. rewrite Hkept by (rewrite Hn; by eapply lookup_lt_Some). unfold kept_for.
    rewrite (drawn_key target rows batch Hd names shapes k row Htk Hh1 Htf Hrow).
    rewrite (drawn_path target rows batch Hd target_address k row Hok Hh2 (proj2 Htp) Hrow (proj1 Htp)).
    unfold walked. setoid_rewrite Hhas. naive_solver.
Qed.
End follow.
