(* ===== verification/Columnar.v ===== *)
(** The reader of column stores (src/scan/columnar.rs): tables opened on first use,
    rows ruled out by window statistics, the rest read in one pass and filtered in
    memory. [ColumnarTable] and [ColumnarChunk] are the traits a store implements;
    [scan_rows] threads the reader's caches. *)
From stdpp Require Import base strings list gmap.
From Stdlib Require Import ZArith Lia Sorting.Sorted.
From S2P Require Import Prelude Machine ListLib Errors Arrow Integers Counting Rows KeyColumns SemiJoin Addresses AddressLookup AddressBuild Keys Render Json Sets Predicate PredicateSpec Pruning RowPredicate ItemLists Scan.

#[local] Open Scope Z_scope.

(** ** Stores *)

(** A half-open range of rows. *)
Abbreviation range := (nat * nat)%type.
Definition range_rows (r : range) : list nat := seq r.1 (r.2 - r.1).
Definition ranges_rows (rs : list range) : list nat := concat (range_rows <$> rs).

(** [src/src/scan/columnar.rs:24-33] WindowStats. *)
Record WindowStats := { ws_offsets : list nat; ws_min : array; ws_max : array }.

(** [src/src/scan/columnar.rs:35-49] ColumnarTable. *)
Record ColumnarTable := {
  ct_schema : Schema;
  ct_num_rows : nat;
  ct_read : list nat -> option (list range) -> result RecordBatch;
  ct_stats : nat -> result (option WindowStats);
}.

(** [src/src/scan/columnar.rs:51-59] ColumnarChunk. *)
Record ColumnarChunk := {
  cc_has_table : string -> bool;
  cc_open_table : string -> result (option ColumnarTable);
}.

(** [src/src/scan/columnar.rs:68-72] OpenTable. *)
Record OpenTable := { ot_table : ColumnarTable; ot_complete_blocks : gset string }.

(** [ColumnarChunkReader] of columnar.rs: what it has opened. *)
Abbreviation open_tables := (gmap string OpenTable).

(** [src/src/scan/columnar.rs:86-103] ColumnarChunkReader::table. *)
Definition open_table (chunk : ColumnarChunk) (tables : open_tables) (name : string) :
  result (option OpenTable) * open_tables :=
  match tables !! name with
  | Some open => (Ok (Some open), tables)
  | None =>
      match cc_open_table chunk name with
      | Ok None => (Ok None, tables)
      | Ok (Some table) =>
          let open := {| ot_table := table; ot_complete_blocks := ∅ |} in
          (Ok (Some open), <[name := open]> tables)
      | Err e => (Err e, tables)
      | Panic => (Panic, tables)
      end
  end.

Section reader.
Context {K : ArrowKernels} {R : RowFormat} {X : Xxh3} {H : HexKernel} {B : BatchKernels}.
Context {ColumnCache Window : Type}.
Abbreviation request_type := (ScanRequest (RowPredicate predicate) KeyFilter HierarchicalFilter ColumnCache Window).
Implicit Types request : request_type.

(** [src/src/scan/columnar.rs:204-248] checked_read. *)
Definition checked_read (table : ColumnarTable) (cols : list nat) (ranges : option (list range)) : result RecordBatch :=
  let* batch := ct_read table cols ranges in
  let asked := match ranges with Some ranges => sum_list ((fun r : range => (r.2 - r.1)%nat) <$> ranges) | None => ct_num_rows table end in
  let* _ := ensure (num_rows batch =? asked)%nat (EngineError MalformedChunkData) in
  let* returned := mapM_ok (fun index =>
    let* field := expect (ct_schema table !! index) in
    let stated := at_ ← index_of batch (f_name field); column ← columns batch !! at_;
                  if decide (array_type column.2 = f_type field) then Some at_ else None in
    ok_or stated (EngineError MalformedChunkData)) cols in
  Ok (project_batch batch returned).

(** [src/src/scan/columnar.rs:168-202] ensure_block_numbers_readable: the answer,
    and the columns known to hold no null from then on. *)
Definition ensure_block_numbers_readable (open : OpenTable) request : result () * gset string :=
  let table := ot_table open in
  let complete := ot_complete_blocks open in
  match nullable_block_numbers (ct_schema table) request with
  | Ok None => (Ok tt, complete)
  | Ok (Some bn_column) =>
      if decide (bn_column ∈ complete) then (Ok tt, complete)
      else
        match (let* index := ok_or (schema_index (ct_schema table) bn_column) OtherError in
               let* batch := checked_read table [index] None in
               let* column := expect (columns batch !! 0%nat) in
               ensure (null_count column.2 =? 0)%nat (EngineError MalformedChunkData)) with
        | Ok _ => (Ok tt, {[bn_column]} ∪ complete)
        | Err e => (Err e, complete)
        | Panic => (Panic, complete)
        end
  | Err e => (Err e, complete)
  | Panic => (Panic, complete)
  end.

(** The indices of named columns, ascending, each once: [filter_map(index_of)],
    [sort_unstable], [dedup]. *)
Definition column_indices (schema : Schema) (names : list string) : list nat :=
  dedup Nat.eqb (sort_by Nat.leb (omap (schema_index schema) names)).

(** [src/src/scan/columnar.rs:250-273] read_columns. *)
Definition read_columns (schema : Schema) request : list nat :=
  column_indices schema (output_columns request ++ concat (RowPredicate.required_columns <$> predicates request) ++
    option_list (block_number_column request) ++
    match key_filter request with Some kf => kf_block_number_column kf :: kf_columns kf | None => [] end ++
    match hierarchical_filter request with Some hf => hf_group_key_columns hf ++ [hf_address_column hf] | None => [] end).

(** [src/src/scan/columnar.rs:329-336] selected. *)
Definition selected_bits (m : mask) : list bool := selects <$> m.

(** [src/src/scan/columnar.rs:275-327] row_masks. *)
Definition row_masks (batch : RecordBatch) request : result (list bool * list mask) :=
  let rows := num_rows batch in
  let filters := RowFilters_of request in
  let keep := replicate rows true in
  let block_column := block_number_column request ≫= column_by_name batch in
  let* keep :=
    match rf_blocks filters, block_column with
    | Some (from, to), Some column =>
        let* m := block_range_mask column from to in Ok (zip_with andb keep (selected_bits m))
    | _, _ => Ok keep
    end in
  let* keep :=
    match rf_relation filters with
    | RAddresses hf =>
        if decide (predicates request = []) then
          let* m := hf_mask hf batch (Some keep) in Ok (zip_with andb keep (selected_bits m))
        else Panic
    | RKeys kf => let* m := kf_mask kf batch (Some keep) in Ok (zip_with andb keep (selected_bits m))
    | RNone => Ok keep
    end in
  if decide (predicates request = []) then
    let none := of_bools (replicate rows false) in
    Ok (keep, (fun _ => none) <$> item_tags request)
  else
    let* masks := mapM_ok (fun predicate =>
      match row_evaluate predicate batch with Ok m => Ok m | Err _ => Err OtherError | Panic => Panic end) (predicates request) in
    let every_item := seq 0 (length masks) in
    let* any := or_masks masks every_item rows in
    let keep := zip_with andb keep (selected_bits any) in
    let* tags := mapM_ok (fun items =>
      let* m := or_masks masks items rows in Ok (of_bools (selected_bits m))) (item_tags request) in
    Ok (keep, tags).

(** [src/src/scan/columnar.rs:454-468] covers. *)
Definition covers (stats : WindowStats) (rows : nat) : bool :=
  let offsets := ws_offsets stats in
  let windows := pred (length offsets) in
  let from_first_row := bool_decide (head offsets = Some 0%nat) in
  let to_last_row := bool_decide (last offsets = Some rows) in
  let in_order := forallb (fun p : nat * nat => (p.1 <=? p.2)%nat) (zip offsets (tail offsets)) in
  let one_bound_each := (array_len (ws_min stats) =? windows)%nat && (array_len (ws_max stats) =? windows)%nat in
  from_first_row && to_last_row && in_order && one_bound_each.

(** [src/src/scan/columnar.rs:L348-354] candidate_rows: the columns whose statistics
    may rule rows out. *)
Definition stats_wanted request : list string :=
  dedup String.eqb (sort_by text_le
    (option_list (block_number_column request) ++
     match key_filter request with Some kf => [kf_block_number_column kf] | None => [] end ++
     concat (RowPredicate.required_columns <$> predicates request))).

(** [src/src/scan/columnar.rs:L356-374] candidate_rows: their statistics, over the
    windows of the first that has any. *)
Definition read_stats (table : ColumnarTable) (wanted : list string) : result (gmap string WindowStats * option (list nat)) :=
  foldM (fun '(stats, offsets) name =>
    match schema_index (ct_schema table) name with
    | None => Ok (stats, offsets)
    | Some index =>
        let* found := ct_stats table index in
        match found with
        | None => Ok (stats, offsets)
        | Some column_stats =>
            if covers column_stats (ct_num_rows table) then
              match offsets with
              | None => Ok (<[name := column_stats]> stats, Some (ws_offsets column_stats))
              | Some first =>
                  if decide (first = ws_offsets column_stats) then Ok (<[name := column_stats]> stats, offsets)
                  else Ok (stats, offsets)
              end
            else Ok (stats, offsets)
        end
    end) wanted (∅, None).

(** [src/src/scan/columnar.rs:L382-394] candidate_rows: [range_of]. *)
Definition range_of (schema : Schema) (stats : gmap string WindowStats) (window : nat) (name : string) : option StatRange :=
  column_stats ← stats !! name;
  let min := ws_min column_stats in
  let max := ws_max column_stats in
  if is_null min window || is_null max window then None
  else
    field ← field_with_name schema name;
    StatRange_new (f_type field) (array_slice min window (S window)) (array_slice max window (S window)).

(** [src/src/scan/columnar.rs:L397-409] candidate_rows: [block_bounds]. *)
Definition window_block_bounds (schema : Schema) (stats : gmap string WindowStats) (window : nat) (name : string) :
  option (Z * Z) :=
  column_stats ← stats !! name;
  field ← field_with_name schema name;
  let bound values :=
    values ← IntColumn_resolve values;
    if int_is_null values window then None else block_number_at (f_type field) (as_i64 (int_value values window)) in
  min ← bound (ws_min column_stats);
  max ← bound (ws_max column_stats);
  if min <=? max then Some (min, max) else None.

(** [src/src/scan/columnar.rs:L413-442] candidate_rows: whether window [window]'s
    statistics rule its rows out. *)
Definition window_ruled_out (schema : Schema) (stats : gmap string WindowStats) request (window : nat) : bool :=
  let out_of_blocks :=
    match block_number_column request ≫= window_block_bounds schema stats window with
    | Some (min, max) =>
        match from_block request with Some from => max <? from | None => false end ||
        match to_block request with Some to => to <? min | None => false end
    | None => false
    end in
  let no_item_matches :=
    negb (bool_decide (predicates request = [])) &&
    forallb (fun item => can_skip_row_group item (range_of schema stats window)) (predicates request) in
  let no_key_within :=
    match key_filter request with
    | Some kf =>
        match window_block_bounds schema stats window (kf_block_number_column kf) with
        | Some (min, max) => negb (has_block_within kf min max)
        | None => false
        end
    | None => false
    end in
  out_of_blocks || no_item_matches || no_key_within.

(** [src/src/scan/columnar.rs:L443-448] candidate_rows: the window's rows join the
    range they continue. *)
Definition push_range (ranges : list range) (r : range) : list range :=
  match last ranges with
  | Some l =>
      if (l.2 =? r.1)%nat then removelast ranges ++ [(l.1, r.2)]
      else if (r.2 <=? r.1)%nat then ranges else ranges ++ [r]
  | None => if (r.2 <=? r.1)%nat then ranges else ranges ++ [r]
  end.

(** [src/src/scan/columnar.rs:338-452] candidate_rows. *)
Definition candidate_rows (table : ColumnarTable) request : result (list range) :=
  let rows := ct_num_rows table in
  if (rows =? 0)%nat then Ok []
  else
    let* (stats, offsets) := read_stats table (stats_wanted request) in
    match offsets with
    | None => Ok [(0%nat, rows)]
    | Some offsets =>
        foldM (fun ranges window =>
          if window_ruled_out (ct_schema table) stats request window then Ok ranges
          else
            let* start := vec_get offsets window in
            let* stop := vec_get offsets (S window) in
            Ok (push_range ranges (start, stop))) (seq 0 (length offsets - 1)) []
    end.

(** [src/src/scan/columnar.rs:470-475] positions_of. *)
Definition positions_of (ranges : list range) : list Z := Z.of_nat <$> ranges_rows ranges.

(** [src/src/scan/columnar.rs:L495-502] read_positions: rows in a row join one range. *)
Definition push_row (ranges : list range) (row : nat) : list range :=
  match last ranges with
  | Some l => if (l.2 =? row)%nat then removelast ranges ++ [(l.1, S l.2)] else ranges ++ [(row, S row)]
  | None => ranges ++ [(row, S row)]
  end.

(** [src/src/scan/columnar.rs:477-518] read_positions. *)
Definition read_positions (table : ColumnarTable) request (rows : list Z) (output_schema : Schema) :
  result (list ScannedBatch) :=
  let* _ := ensure (forallb (fun p : Z * Z => p.1 <? p.2) (zip rows (tail rows)) &&
    match last rows with Some row => row <? Z.of_nat (ct_num_rows table) | None => true end) (EngineError MalformedChunkData) in
  match rows with
  | [] => Ok []
  | _ =>
      let ranges := fold_left push_row (Z.to_nat <$> rows) [] in
      let cols := column_indices (ct_schema table) (output_columns request) in
      let* batch := checked_read table cols (Some ranges) in
      let* batch := project_to batch output_schema in
      let positions := if positions request then Some rows else None in
      Ok (split (untagged request batch positions) (batch_size request))
  end.

(** [src/src/scan/columnar.rs:132-166] scan. *)
Definition scan (open : OpenTable) request : result (list ScannedBatch) * gset string :=
  let table := ot_table open in
  let schema := ct_schema table in
  match (let* _ := ensure_columns_present schema request in ensure_predicates_comparable schema request) with
  | Err e => (Err e, ot_complete_blocks open)
  | Panic => (Panic, ot_complete_blocks open)
  | Ok _ =>
      let (readable, complete) := ensure_block_numbers_readable open request in
      (let* _ := readable in
       let output_schema := build_output_schema schema (output_columns request) in
       match row_indices request with
       | Some rows => read_positions table request rows output_schema
       | None =>
           let* ranges := candidate_rows table request in
           if decide (ranges = []) then Ok []
           else
             let* batch := checked_read table (read_columns schema request) (Some ranges) in
             let* (keep, tags) := row_masks batch request in
             let keep := of_bools keep in
             if (true_count keep =? 0)%nat then Ok []
             else
               let* projected := project_to batch output_schema in
               let scanned := {| sb_batch := projected;
                                 sb_positions := if positions request then Some (positions_of ranges) else None;
                                 sb_tags := tags |} in
               Ok (split (scanned_filter scanned keep) (batch_size request))
       end, complete)
  end.

(** [src/src/scan/columnar.rs:111-121] ColumnarChunkReader::scan_rows. *)
Definition scan_rows (chunk : ColumnarChunk) (tables : open_tables) (table : string) request :
  result Scanned * open_tables :=
  let (opened, tables) := open_table chunk tables table in
  match opened with
  | Err e => (Err e, tables)
  | Panic => (Panic, tables)
  | Ok None => (Err (EngineError TableNotFound), tables)
  | Ok (Some open) =>
      let (batches, complete) := scan open request in
      (let* batches := batches in collect request batches,
       <[table := {| ot_table := ot_table open; ot_complete_blocks := complete |}]> tables)
  end.

(** [src/src/scan/columnar.rs:127-129] ColumnarChunkReader::table_schema. *)
Definition table_schema (chunk : ColumnarChunk) (tables : open_tables) (table : string) : option Schema * open_tables :=
  let (opened, tables) := open_table chunk tables table in
  match opened with
  | Ok (Some open) => (Some (ct_schema (ot_table open)), tables)
  | _ => (None, tables)
  end.
End reader.
