(* ===== verification/ColumnarSpec.v ===== *)
(** The column-store reader returns exactly the rows the request selects
    ([columnar_scan_spec]), whatever statistics its tables keep; what it refuses;
    and that what it has cached changes no answer. *)
From stdpp Require Import base strings list gmap.
From Stdlib Require Import ZArith Lia Sorting.Sorted.
From S2P Require Import Prelude Machine ListLib Errors Arrow Integers Counting Rows KeyColumns SemiJoin Addresses AddressLookup AddressBuild Keys Render Json Sets Predicate PredicateSpec Pruning RowPredicate ItemLists Scan ScanParts Columnar.

#[local] Open Scope nat_scope.

(** ** Ranges *)

(** Sorted, disjoint, non-empty ranges of a table of [n] rows: what a store may be
    asked for. *)
Definition ranges_ok (n : nat) (rs : list range) : Prop :=
  Forall (fun r => r.1 < r.2 <= n) rs /\ StronglySorted lt (ranges_rows rs).

Lemma ranges_rows_app rs rs' : ranges_rows (rs ++ rs') = ranges_rows rs ++ ranges_rows rs'.
Proof. unfold ranges_rows. by rewrite fmap_app, concat_app. Qed.

Lemma ranges_rows_one r : ranges_rows [r] = range_rows r.
Proof. apply app_nil_r. Qed.

Lemma ranges_rows_lt n rs row : Forall (fun r : range => r.1 < r.2 <= n) rs -> row ∈ ranges_rows rs -> row < n.
Proof.
  intros Hrs Hrow. apply elem_of_concat in Hrow as (l & Hrow & Hl). apply list_elem_of_fmap in Hl as (r & -> & Hr).
  rewrite Forall_forall in Hrs. specialize (Hrs r Hr). apply elem_of_seq in Hrow. lia.
Qed.

Lemma ranges_length rs : sum_list ((fun r : range => r.2 - r.1) <$> rs) = length (ranges_rows rs).
Proof.
  unfold ranges_rows. induction rs as [|r rs IH]; [done|]. cbn. rewrite length_app, IH. f_equal. unfold range_rows. by rewrite length_seq.
Qed.

(** A range pushed after ranges that end before it. *)
Lemma push_range_rows rs s e : Forall (fun r : range => r.1 < r.2 <= s) rs -> s <= e ->
  ranges_rows (push_range rs (s, e)) = ranges_rows rs ++ seq s (e - s) /\
  Forall (fun r : range => r.1 < r.2 <= e) (push_range rs (s, e)).
Proof.
  intros Hrs Hse. assert (Hwide : Forall (fun r : range => r.1 < r.2 <= e) rs) by (eapply Forall_impl; [exact Hrs|]; cbn; lia).
  assert (Hpush : forall rs, Forall (fun r : range => r.1 < r.2 <= e) rs -> s < e ->
    ranges_rows (rs ++ [(s, e)]) = ranges_rows rs ++ seq s (e - s) /\ Forall (fun r : range => r.1 < r.2 <= e) (rs ++ [(s, e)])).
  { intros rs0 H0 Hlt. rewrite ranges_rows_app, ranges_rows_one. split; [done|]. apply Forall_app. split; [done|]. repeat constructor; cbn; lia. }
  unfold push_range. destruct (last rs) as [l|] eqn:El; cbn [fst snd].
  - assert (El' : rs = removelast rs ++ [l]).
    { destruct rs as [|r rs] using rev_ind; [done|]. rewrite last_snoc in El. injection El as ->. by rewrite removelast_last. }
    destruct (Nat.eqb_spec (l.2) s) as [Hs|Hs].
    + rewrite El' in Hrs, Hwide |- *. apply Forall_app in Hrs as [_ Hl]. apply Forall_inv in Hl. apply Forall_app in Hwide as [Hw _].
      rewrite removelast_last, !ranges_rows_app, !ranges_rows_one. unfold range_rows. destruct l as [l1 l2]; cbn [fst snd] in *. split.
      * rewrite <- app_assoc. f_equal. replace (e - l1) with ((l2 - l1) + (e - s)) by lia. rewrite seq_app. do 2 f_equal. lia.
      * apply Forall_app. split; [done|]. repeat constructor; cbn; lia.
    + destruct (Nat.leb_spec e s) as [Hle|Hlt]; [|by apply Hpush]. replace (e - s) with 0 by lia. by rewrite app_nil_r.
  - destruct (Nat.leb_spec e s) as [Hle|Hlt]; [|by apply Hpush]. replace (e - s) with 0 by lia. by rewrite app_nil_r.
Qed.

Lemma StronglySorted_app_seq l s k : StronglySorted lt l -> (forall x, x ∈ l -> x < s) -> StronglySorted lt (l ++ seq s k).
Proof.
  intros Hl Hlt. induction Hl as [|x l Hl IH Hx]; cbn.
  - clear Hlt. revert s. induction k as [|k IH]; intros s; cbn; constructor; [apply IH|]. apply Forall_forall. intros x Hx%elem_of_seq. lia.
  - constructor; [apply IH; intros y Hy; apply Hlt; by right|]. apply Forall_app. split; [done|]. apply Forall_forall.
    intros y Hy%elem_of_seq. specialize (Hlt x ltac:(by left)). lia.
Qed.

(** Pushing every window but those ruled out. *)
Lemma push_windows (offsets : list nat) (out : nat -> bool) k :
  k < length offsets -> head offsets = Some 0 ->
  (forall i a b, offsets !! i = Some a -> offsets !! S i = Some b -> a <= b) ->
  exists rs stop, offsets !! k = Some stop /\
    foldM (E:=error) (fun ranges window => if out window then Ok ranges
      else let* start := vec_get offsets window in let* stop := vec_get offsets (S window) in Ok (push_range ranges (start, stop)))
      (seq 0 k) [] = Ok rs /\
    Forall (fun r : range => r.1 < r.2 <= stop) rs /\ StronglySorted lt (ranges_rows rs) /\
    forall row, row ∈ ranges_rows rs <-> exists w a b, w < k /\ out w = false /\ offsets !! w = Some a /\ offsets !! S w = Some b /\ a <= row < b.
Proof.
  intros Hk Hhead Hord. induction k as [|k IH].
  - exists [], 0. split; [by rewrite <- head_lookup|]. split; [done|]. split; [constructor|]. split; [constructor|].
    intros row. split; [by intros ?%not_elem_of_nil|]. intros (w & _ & _ & ? & _). lia.
  - destruct IH as (rs & a & Ea & E & Hrs & Hsort & Hin); [lia|]. destruct (lookup_lt_is_Some_2 offsets (S k) Hk) as [b Eb].
    pose proof (Hord k a b Ea Eb) as Hab. rewrite seq_S, foldM_app, E; cbn [obind foldM Nat.add].
    destruct (out k) eqn:Eout; cbn [obind].
    + exists rs, b. split; [done|]. split; [done|]. split; [eapply Forall_impl; [exact Hrs|]; cbn; lia|]. split; [done|].
      intros row. rewrite Hin. split; intros (w & x & y & Hw & Ho & Hx & Hy & Hr); exists w, x, y; (split; [|done]); [lia|].
      assert (w <> k) by congruence. lia.
    + unfold vec_get. rewrite Ea, Eb; cbn [expect obind]. destruct (push_range_rows rs a b Hrs Hab) as [Erows Hrs'].
      exists (push_range rs (a, b)), b. split; [done|]. split; [done|]. split; [done|]. rewrite Erows. split.
      * apply StronglySorted_app_seq; [done|]. intros x Hx. by apply (ranges_rows_lt a rs).
      * intros row. rewrite elem_of_app, Hin, elem_of_seq. split.
        -- intros [(w & x & y & Hw & Hrest)|Hr]; [exists w, x, y; split; [lia|done]|]. exists k, a, b. repeat split; try done; lia.
        -- intros (w & x & y & Hw & Ho & Hx & Hy & Hr). destruct (decide (w = k)) as [->|Hne]; [right|left; exists w, x, y; split; [lia|done]].
           rewrite Ea in Hx. rewrite Eb in Hy. injection Hx as <-. injection Hy as <-. lia.
Qed.

(** ** Statistics *)

#[local] Open Scope Z_scope.

(** A window's bounds hold its rows' values: an integer column's at any width that
    keeps the values' bits, another's where they are text. A bound the store does
    not state is null. *)
Definition window_bounds (f : Field) (a : array) (ws : WindowStats) (w start stop : nat) : Prop :=
  is_null (ws_min ws) w = false -> is_null (ws_max ws) w = false ->
  match f_type f with
  | DInt t => exists p p' lo hi vlo vhi n n',
      array_slice (ws_min ws) w (S w) = AInt p [vlo] n /\ array_slice (ws_max ws) w (S w) = AInt p' [vhi] n' /\
      in_int_type t lo /\ vlo mod 2 ^ int_bits t = lo mod 2 ^ int_bits t /\
      in_int_type t hi /\ vhi mod 2 ^ int_bits t = hi mod 2 ^ int_bits t /\
      forall row, (start <= row < stop)%nat -> cell_at a row <> CNull ->
        exists z, cell_at a row = CInt z /\ in_int_type t z /\ lo <= z <= hi
  | _ => forall lo hi n n',
      array_slice (ws_min ws) w (S w) = AText Utf8 [lo] n -> array_slice (ws_max ws) w (S w) = AText Utf8 [hi] n' ->
      forall row, (start <= row < stop)%nat -> cell_at a row <> CNull ->
        exists s, cell_at a row = CText s /\ text_le lo s = true /\ text_le s hi = true
  end.

(** Bounds of a column, over every window. *)
Definition stats_hold (f : Field) (a : array) (ws : WindowStats) : Prop :=
  forall w start stop, ws_offsets ws !! w = Some start -> ws_offsets ws !! S w = Some stop ->
    window_bounds f a ws w start stop.

Lemma slice_one_int a w p v n : array_slice a w (S w) = AInt p [v] n ->
  exists values nulls, a = AInt p values nulls /\ values !! w = Some v.
Proof.
  destruct a as [t values nulls| | | | | | | | |]; cbn; try done. intros [= -> Hs _]. exists values, nulls. split; [done|].
  unfold slice in Hs. replace (S w - w)%nat with 1%nat in Hs by lia.
  rewrite <- (Nat.add_0_r w), <- lookup_drop. by destruct (drop w values) as [|x l]; [done|injection Hs as ->].
Qed.

Lemma block_number_unsigned t z : in_int_type t z -> block_number_of t z = if z <? 0 then z + 2 ^ int_bits t else z.
Proof.
  intros Hz. rewrite block_number_of_unsigned. pose proof (int_bits_pos t). unfold in_int_type in Hz.
  assert (Hp : 2 ^ int_bits t = 2 * 2 ^ (int_bits t - 1)) by (rewrite <- Z.pow_succ_r by lia; f_equal; lia).
  destruct (Z.ltb_spec z 0).
  - rewrite (as_unsigned_mod (int_bits t) z (z + 2 ^ int_bits t)).
    + apply as_unsigned_id. destruct (int_signed t); lia.
    + replace (z + 2 ^ int_bits t) with (z + 1 * 2 ^ int_bits t) by lia. by rewrite Z.mod_add by lia.
  - apply as_unsigned_id. destruct (int_signed t); lia.
Qed.

(** Block numbers keep the order of the values between bounds that did not wrap. *)
Lemma block_number_between t lo z hi : in_int_type t lo -> in_int_type t z -> in_int_type t hi -> lo <= z <= hi ->
  block_number_of t lo <= block_number_of t hi ->
  block_number_of t lo <= block_number_of t z <= block_number_of t hi.
Proof.
  intros Hlo Hz Hhi Hb. rewrite !block_number_unsigned by done. unfold in_int_type in *.
  pose proof (int_bits_pos t). assert (Hp : 2 ^ int_bits t = 2 * 2 ^ (int_bits t - 1)) by (rewrite <- Z.pow_succ_r by lia; f_equal; lia).
  destruct (int_signed t); destruct (Z.ltb_spec lo 0), (Z.ltb_spec hi 0), (Z.ltb_spec z 0); lia.
Qed.

Lemma as_i64_mod t v : as_i64 v mod 2 ^ int_bits t = v mod 2 ^ int_bits t.
Proof.
  pose proof (int_bits_pos t). unfold as_i64.
  rewrite <- (mod_pow_narrow 64 (int_bits t) (as_signed 64 v)) by lia. rewrite as_signed_eqm by lia. apply mod_pow_narrow. lia.
Qed.

Lemma block_bound_value t a w p v n z : in_int_type t z -> v mod 2 ^ int_bits t = z mod 2 ^ int_bits t ->
  array_slice a w (S w) = AInt p [v] n ->
  (values ← IntColumn_resolve a;
   if int_is_null values w then None else block_number_at (DInt t) (as_i64 (int_value values w))) =
  if is_null a w then None else Some (block_number_of t z).
Proof.
  intros Hz Ev (values & nulls & -> & Hv)%slice_one_int. cbn [IntColumn_resolve mbind option_bind].
  unfold int_is_null, is_null; cbn [ic_nulls array_nulls]. destruct (negb (is_valid_in nulls w)); [done|].
  unfold int_value; cbn [ic_values]. rewrite Hv; cbn [from_option id]. apply block_number_at_value; [done|]. by rewrite as_i64_mod.
Qed.

Lemma block_bound_null a w dt : is_null a w = true ->
  (values ← IntColumn_resolve a;
   if int_is_null values w then None else block_number_at dt (as_i64 (int_value values w))) = None.
Proof. destruct a; try done. unfold is_null; cbn. unfold int_is_null; cbn [ic_nulls]. by intros ->. Qed.

(** ** Tables *)

(** The rows a read of some ranges asks for. *)
Definition asked (t : ColumnarTable) (ranges : option (list range)) : list nat :=
  match ranges with Some rs => ranges_rows rs | None => seq 0 (ct_num_rows t) end.

(** A table of the rows of [content]: it reads what it is asked for, and its
    statistics hold. *)
Record table_ok (t : ColumnarTable) (content : RecordBatch) : Prop := {
  tok_schema : schema_of (ct_schema t) content;
  tok_rows : num_rows content = ct_num_rows t;
  tok_read : forall cols ranges,
    Forall (fun i => (i < length (ct_schema t))%nat) cols ->
    match ranges with Some rs => ranges_ok (ct_num_rows t) rs | None => True end ->
    exists batch, ct_read t cols ranges = Ok batch /\ drawn content (asked t ranges) batch /\
      forall i f, i ∈ cols -> ct_schema t !! i = Some f -> is_Some (column_by_name batch (f_name f));
  tok_stats : forall i f a, ct_schema t !! i = Some f -> column_by_name content (f_name f) = Some a ->
    exists found, ct_stats t i = Ok found /\
      forall ws, found = Some ws -> covers ws (ct_num_rows t) = true -> stats_hold f a ws;
}.

(** Offsets that cut a table of [n] rows into windows. *)
Definition cuts (offsets : list nat) (n : nat) : Prop :=
  head offsets = Some 0%nat /\ last offsets = Some n /\
  forall i a b, offsets !! i = Some a -> offsets !! S i = Some b -> (a <= b)%nat.

Lemma covers_cuts ws n : covers ws n = true -> cuts (ws_offsets ws) n.
Proof.
  unfold covers, cuts. intros [[[Hh Hl]%andb_true_iff Ho]%andb_true_iff _]%andb_true_iff.
  apply bool_decide_eq_true in Hh, Hl. split; [done|]. split; [done|]. intros i a b Ha Hb. rewrite forallb_forall in Ho.
  assert (Hin : (a, b) ∈ zip (ws_offsets ws) (tail (ws_offsets ws))).
  { apply (list_elem_of_lookup_2 _ i), lookup_zip_Some. split; [done|]. by destruct (ws_offsets ws). }
  apply list_elem_of_In in Hin. specialize (Ho _ Hin). by apply Nat.leb_le in Ho.
Qed.

(** Statistics collected: of the columns they are named for, over [offsets]. *)
Definition stats_ok (schema : Schema) (content : RecordBatch) (offsets : list nat) (stats : gmap string WindowStats) : Prop :=
  forall name ws, stats !! name = Some ws -> ws_offsets ws = offsets /\
    exists f a, field_with_name schema name = Some f /\ column_by_name content name = Some a /\
      array_type a = f_type f /\ stats_hold f a ws.

(** What the loop over the wanted columns keeps. *)
Definition collected (t : ColumnarTable) (content : RecordBatch) (st : gmap string WindowStats * option (list nat)) : Prop :=
  match st.2 with Some o => cuts o (ct_num_rows t) /\ stats_ok (ct_schema t) content o st.1 | None => st.1 = ∅ end.

Lemma insert_stats_ok schema content offsets stats name ws f a :
  stats_ok schema content offsets stats -> ws_offsets ws = offsets -> field_with_name schema name = Some f ->
  column_by_name content name = Some a -> array_type a = f_type f -> stats_hold f a ws ->
  stats_ok schema content offsets (<[name := ws]> stats).
Proof.
  intros Hs Ho Hf Ha Ht Hh name' ws'. rewrite lookup_insert_Some. intros [[<- <-]|[_ Hl]]; [|by apply Hs]. split; [done|]. by exists f, a.
Qed.

Lemma read_stats_ok t content wanted : table_ok t content ->
  exists st, read_stats t wanted = Ok st /\ collected t content st.
Proof.
  intros Ht. unfold read_stats. assert (H0 : collected t content (∅, None)) by done. revert H0.
  generalize ((∅ : gmap string WindowStats), (None : option (list nat))) as st.
  induction wanted as [|name wanted IH]; intros [stats offsets] Hst; [by eexists|]. cbn [foldM].
  destruct (schema_index (ct_schema t) name) as [i|] eqn:Ei; [|exact (IH _ Hst)].
  destruct (schema_of_column _ _ name i (tok_schema _ _ Ht) Ei) as (f & a & Ef & En & _ & Ea & Hty & _).
  rewrite <- En in Ea. destruct (tok_stats _ _ Ht i f a Ef Ea) as (found & -> & Hfound). cbn [obind].
  destruct found as [ws|]; [|exact (IH _ Hst)]. destruct (covers ws (ct_num_rows t)) eqn:Ec; [|exact (IH _ Hst)].
  specialize (Hfound ws eq_refl Ec). pose proof (covers_cuts ws _ Ec) as Hcut. rewrite En in Ea.
  assert (Hfield : field_with_name (ct_schema t) name = Some f) by (unfold field_with_name; by rewrite Ei).
  unfold collected in Hst; cbn [fst snd] in Hst. destruct offsets as [o|]; cbn [obind].
  - case_decide as Eo; cbn [obind]; [|exact (IH (stats, Some o) Hst)]. apply IH. destruct Hst as [Ho Hs]. split; [done|]. cbn [fst snd].
    by apply (insert_stats_ok _ _ _ _ _ _ f a).
  - apply IH. split; [done|]. cbn [fst snd]. apply (insert_stats_ok _ _ _ _ _ _ f a); try done. subst stats.
    intros name' ws' Hl. by rewrite lookup_empty in Hl.
Qed.

(** ** Windows *)

Section windows.
Context {K : ArrowKernels} {L : ArrowLaws K} {R : RowFormat} {X : Xxh3} {XL : Xxh3Laws X} {HK : HexKernel}.
Context {ColumnCache Window : Type}.
Abbreviation request_type := (ScanRequest (RowPredicate predicate) KeyFilter HierarchicalFilter ColumnCache Window).
Implicit Types request : request_type.

Lemma slice_text_one a w lo rest n : array_slice a w (S w) = AText Utf8 (lo :: rest) n -> rest = [].
Proof.
  destruct a as [|t v nulls| | | | | | | |]; cbn; try done. intros [= -> Hs _]. unfold slice in Hs.
  apply (f_equal length) in Hs. rewrite length_take in Hs. cbn in Hs. destruct rest; [done|]. cbn in Hs. lia.
Qed.

(** A window's range describes the window's rows. *)
Lemma range_of_describes t content offsets stats w start stop name range batch :
  table_ok t content -> stats_ok (ct_schema t) content offsets stats ->
  offsets !! w = Some start -> offsets !! S w = Some stop ->
  range_of (ct_schema t) stats w name = Some range ->
  drawn content (seq start (stop - start)) batch -> is_Some (column_by_name batch name) ->
  exists a, column_by_name batch name = Some a /\ describes range a.
Proof.
  intros Ht Hs Hstart Hstop Hr Hd [b Eb]. exists b. split; [done|]. unfold range_of in Hr.
  destruct (stats !! name) as [ws|] eqn:Ews; cbn [mbind option_bind] in Hr; [|done].
  destruct (Hs name ws Ews) as (Eo & f & a & Ef & Ea & Hty & Hh). destruct (is_null (ws_min ws) w) eqn:Emin, (is_null (ws_max ws) w) eqn:Emax;
    try done. cbn [orb] in Hr. rewrite Ef in Hr. cbn [mbind option_bind] in Hr.
  rewrite <- Eo in Hstart, Hstop. specialize (Hh w start stop Hstart Hstop Emin Emax).
  destruct (drawn_column _ _ _ name b Hd Eb) as (_ & Hl & a' & Ea' & Htb & Hc). rewrite Ea in Ea'. injection Ea' as <-.
  rewrite length_seq in Hl.
  assert (Hcell : forall i, (i < array_len b)%nat -> cell_at b i = cell_at a (start + i) /\ (start <= start + i < stop)%nat).
  { intros i Hi. split; [|lia]. apply Hc. rewrite lookup_seq. split; [done|]. lia. }
  unfold StatRange_new in Hr. destruct (f_type f) as [ty| | | | | | | | |] eqn:Efty; cbn [is_integer width_of] in Hr;
    try (destruct (stat_text (array_slice (ws_min ws) w (S w))) as [lo|] eqn:Elo; cbn [mbind option_bind] in Hr; [|done];
         destruct (stat_text (array_slice (ws_max ws) w (S w))) as [hi|] eqn:Ehi; cbn [mbind option_bind] in Hr; [|done];
         injection Hr as <-;
         destruct (array_slice (ws_min ws) w (S w)) as [|[] [|x l] n| | | | | | | |] eqn:Esmin; try done; pose proof (slice_text_one _ _ _ _ _ Esmin);
         destruct (array_slice (ws_max ws) w (S w)) as [|[] [|x' l'] n'| | | | | | | |] eqn:Esmax; try done; pose proof (slice_text_one _ _ _ _ _ Esmax);
         cbn in Elo, Ehi; injection Elo as ->; injection Ehi as ->; subst l l'; intros i Hi Hn;
         destruct (Hcell i Hi) as [Ecell Hrow]; rewrite Ecell in Hn |- *; exact (Hh _ _ _ _ eq_refl eq_refl _ Hrow Hn)).
  destruct Hh as (p & p' & lo & hi & vlo & vhi & n & n' & Esmin & Esmax & Hlo & Evlo & Hhi & Evhi & Hrows).
  unfold window_bounds in Hrows. rewrite Esmin, Esmax, (stat_int_value ty p vlo lo n Hlo Evlo), (stat_int_value ty p' vhi hi n' Hhi Evhi) in Hr.
  cbn [mbind option_bind] in Hr. injection Hr as <-. intros i Hi Hn. destruct (Hcell i Hi) as [Ecell Hrow]. rewrite Ecell in Hn |- *.
  destruct (Hrows _ Hrow Hn) as (z & Ez & Hz & Hb). split; [by rewrite Htb, Hty|]. by exists ty, z.
Qed.

(** A window's block bounds hold its rows' blocks. *)
Lemma window_blocks_bound t content offsets stats w start stop name lo hi row b :
  table_ok t content -> stats_ok (ct_schema t) content offsets stats ->
  offsets !! w = Some start -> offsets !! S w = Some stop ->
  window_block_bounds (ct_schema t) stats w name = Some (lo, hi) ->
  (start <= row < stop)%nat -> row_block content name row = Some b -> lo <= b <= hi.
Proof.
  intros Ht Hs Hstart Hstop Hw Hrow Hb. unfold window_block_bounds in Hw.
  destruct (stats !! name) as [ws|] eqn:Ews; cbn [mbind option_bind] in Hw; [|done].
  destruct (Hs name ws Ews) as (Eo & f & a & Ef & Ea & Hty & Hh). rewrite Ef in Hw. cbn [mbind option_bind] in Hw.
  rewrite <- Eo in Hstart, Hstop. specialize (Hh w start stop Hstart Hstop).
  unfold row_block in Hb. rewrite Ea in Hb. cbn [mbind option_bind] in Hb. rewrite Hty in Hb.
  destruct (f_type f) as [ty| | | | | | | | |] eqn:Efty; try done. destruct (cell_at a row) as [|z| | | |] eqn:Ez; try done. injection Hb as <-.
  unfold window_bounds in Hh. rewrite Efty in Hh. cbn zeta in Hw.
  destruct (is_null (ws_min ws) w) eqn:Emin; [by rewrite (block_bound_null _ _ _ Emin) in Hw|].
  destruct (is_null (ws_max ws) w) eqn:Emax.
  { rewrite (block_bound_null _ _ _ Emax) in Hw. by destruct (IntColumn_resolve (ws_min ws) ≫= _). }
  destruct (Hh eq_refl eq_refl) as (p & p' & zlo & zhi & vlo & vhi & n & n' & Esmin & Esmax & Hlo & Evlo & Hhi & Evhi & Hrows).
  rewrite (block_bound_value ty _ _ _ _ _ _ Hlo Evlo Esmin), (block_bound_value ty _ _ _ _ _ _ Hhi Evhi Esmax), Emin, Emax in Hw.
  cbn [mbind option_bind] in Hw. destruct (Z.leb_spec (block_number_of ty zlo) (block_number_of ty zhi)); [|done]. injection Hw as <- <-.
  destruct (Hrows row Hrow ltac:(by rewrite Ez)) as (z' & Ez' & Hz & Hzb). rewrite Ez in Ez'. injection Ez' as <-.
  by apply block_number_between.
Qed.

Lemma row_block_range content bn row b : row_block content bn row = Some b -> 0 <= b.
Proof.
  unfold row_block. destruct (column_by_name content bn) as [a|]; [|done]. cbn [mbind option_bind].
  destruct (array_type a), (cell_at a row); try done. intros [= <-]. pose proof (block_number_of_range t z). unfold is_u64 in *. lia.
Qed.

Lemma checked_bounds content (from to : option Z) bn row b :
  row_block content bn row = Some b -> 
  let from' := from ≫= fun block => if 0 <? block then Some block else None in
  in_blocks content (if bool_decide (is_Some from') || bool_decide (is_Some to) then Some (from', to) else None) (Some bn) row ->
  match from with Some from => from <= b | None => True end /\ match to with Some to => b <= to | None => True end.
Proof.
  intros Eb from' Hin. pose proof (row_block_range _ _ _ _ Eb) as Hb0. subst from'. revert Hin.
  destruct from as [from|]; cbn [mbind option_bind]; [destruct (Z.ltb_spec 0 from)|]; (destruct to as [to|]; cbn; intros Hin);
    try (split; lia || done); destruct Hin as (b' & Eb' & Hb'); rewrite Eb in Eb'; injection Eb' as <-; unfold in_bounds in Hb'; split; lia || done.
Qed.

(** A selected row's block is within the request's bounds. *)
Lemma selected_blocks content request related bn row b :
  keys_fix_blocks content request related -> (row < num_rows content)%nat -> selected content request related row ->
  block_number_column request = Some bn -> row_block content bn row = Some b ->
  match from_block request with Some from => from <= b | None => True end /\
  match to_block request with Some to => b <= to | None => True end.
Proof.
  intros Hk Hrow (Hin & Hrel & _) Ebn Eb. unfold RowFilters_of in Hin; cbn [rf_blocks] in Hin. rewrite Ebn in Hin.
  assert (Hchecked : forall keyed, keyed = false ->
    in_blocks content (if (bool_decide (is_Some (from_block request ≫= fun block => if 0 <? block then Some block else None)) ||
      bool_decide (is_Some (to_block request))) && negb keyed && bool_decide (is_Some (Some bn))
      then Some (from_block request ≫= fun block => if 0 <? block then Some block else None, to_block request) else None) (Some bn) row ->
    match from_block request with Some from => from <= b | None => True end /\ match to_block request with Some to => b <= to | None => True end).
  { intros keyed ->. cbn [negb]. rewrite !andb_true_r. by apply checked_bounds. }
  destruct (key_filter request) as [keys|] eqn:Ek.
  - destruct (hierarchical_filter request) eqn:Eh; [by apply (Hchecked false)|].
    destruct (checks_blocks_first keys) eqn:Ec; cbn [negb] in Hin.
    + by apply (Hchecked false).
    + destruct (Hk keys Ek row Hrow Hrel) as [_ Hb]. specialize (Hb Eh Ec bn b Ebn Eb). unfold in_bounds in Hb.
      destruct (from_block request), (to_block request); split; lia || done.
  - apply (Hchecked false); [done|]. by destruct (hierarchical_filter request).
Qed.

(** A batch of a window that holds the columns asked for. *)
Lemma window_batch t content names start stop : table_ok t content -> (start < stop <= ct_num_rows t)%nat ->
  exists batch, drawn content (seq start (stop - start)) batch /\ holds_columns content batch names.
Proof.
  intros Ht Hw. destruct (tok_read _ _ Ht (omap (schema_index (ct_schema t)) names) (Some [(start, stop)])) as (batch & _ & Hd & Hc).
  - apply Forall_forall. intros i Hi. apply list_elem_of_omap in Hi as (name & _ & Hi).
    destruct (schema_index_spec _ _ _ Hi) as (f & Hf & _). by eapply lookup_lt_Some.
  - split; [constructor; [cbn; lia|constructor]|]. rewrite ranges_rows_one. unfold range_rows. cbn [fst snd].
    apply (StronglySorted_app_seq [] start). { constructor. } by intros x ?%not_elem_of_nil.
  - exists batch. split; [cbn [asked] in Hd; by rewrite ranges_rows_one in Hd|]. intros name Hname Hin.
    apply (schema_of_is_Some _ _ name (tok_schema _ _ Ht)) in Hin as [i Hi]. destruct (schema_index_spec _ _ _ Hi) as (f & Hf & <-).
    apply (Hc i f); [|done]. apply list_elem_of_omap. by exists (f_name f).
Qed.

Lemma window_ruled_out_sound t content offsets stats request related w start stop row :
  table_ok t content -> stats_ok (ct_schema t) content offsets stats -> (stop <= ct_num_rows t)%nat ->
  offsets !! w = Some start -> offsets !! S w = Some stop -> (start <= row < stop)%nat ->
  Forall row_ok (predicates request) -> keys_fix_blocks content request related ->
  (forall bn, block_number_column request = Some bn -> is_Some (row_block content bn row)) ->
  window_ruled_out (ct_schema t) stats request w = true -> ~ selected content request related row.
Proof.
  intros Ht Hs Hstop Ha Hb Hrow Hitems Hk Hbn Hout Hsel. pose proof (tok_rows _ _ Ht) as Hn.
  unfold window_ruled_out in Hout. apply orb_true_iff in Hout as [Hout|Hout]; [apply orb_true_iff in Hout as [Hout|Hout]|].
  - destruct (block_number_column request) as [bn|] eqn:Ebn; cbn [mbind option_bind] in Hout; [|done].
    destruct (window_block_bounds _ stats w bn) as [[lo hi]|] eqn:Ew; [|done]. destruct (Hbn bn eq_refl) as [b Eb].
    pose proof (window_blocks_bound t content offsets stats w start stop bn lo hi row b Ht Hs Ha Hb Ew Hrow Eb) as Hr.
    destruct (selected_blocks content request related bn row b Hk ltac:(lia) Hsel Ebn Eb) as [Hfrom Hto].
    apply orb_true_iff in Hout as [Ho|Ho]; [destruct (from_block request)|destruct (to_block request)]; lia || done.
  - apply andb_true_iff in Hout as [Hne Hall]. apply negb_true_iff, bool_decide_eq_false in Hne.
    destruct Hsel as (_ & _ & [|Hex]); [done|]. apply Exists_exists in Hex as (r & Hr & Hadm).
    rewrite forallb_forall in Hall. specialize (Hall r (proj1 (list_elem_of_In _ _) Hr)). rewrite Forall_forall in Hitems.
    destruct (window_batch t content (RowPredicate.required_columns r) start stop Ht ltac:(lia)) as (batch & Hd & Hh).
    assert (Hk' : seq start (stop - start) !! (row - start)%nat = Some row) by (apply lookup_seq; lia).
    rewrite <- (drawn_admits content _ batch r _ row Hd Hh Hk') in Hadm.
    pose proof Hd as (Hbok & Hlen & _). rewrite length_seq in Hlen.
    refine (can_skip_row_admits r (fun name => if decide (name ∈ RowPredicate.required_columns r) then range_of (ct_schema t) stats w name else None)
      batch (row - start) (Hitems r Hr) Hbok _ _ ltac:(lia) Hadm).
    + intros name range. case_decide as Hin; [|done]. intros Er.
      apply (range_of_describes t content offsets stats w start stop name range batch); try done.
      apply Hh; [done|]. unfold range_of in Er. destruct (stats !! name) as [ws|] eqn:Ews; cbn [mbind option_bind] in Er; [|done].
      destruct (Hs name ws Ews) as (_ & f & a & _ & Ea & _). by rewrite Ea.
    + rewrite <- Hall. apply can_skip_row_group_ext. intros cp Hcp. rewrite decide_True; [done|]. by apply list_elem_of_fmap_2.
  - destruct (key_filter request) as [keys|] eqn:Ek; [|done].
    destruct (window_block_bounds _ stats w (kf_block_number_column keys)) as [[lo hi]|] eqn:Ew; [|done]. apply negb_true_iff in Hout.
    destruct Hsel as (_ & Hrel & _). destruct (Hk keys Ek row ltac:(lia) Hrel) as [(b & Eb & Hwithin) _].
    rewrite Hwithin in Hout; [done|]. by apply (window_blocks_bound t content offsets stats w start stop (kf_block_number_column keys) lo hi row b).
Qed.

(** The window a row is in. *)
Lemma cuts_window offsets n row : cuts offsets n -> (row < n)%nat ->
  exists w a b, (S w < length offsets)%nat /\ offsets !! w = Some a /\ offsets !! S w = Some b /\ (a <= row < b)%nat.
Proof.
  intros (Hh & Hl & _) Hrow. rewrite head_lookup in Hh. rewrite last_lookup in Hl.
  assert (Hgen : forall k b, offsets !! k = Some b -> (row < b)%nat ->
    exists w a b, (S w < length offsets)%nat /\ offsets !! w = Some a /\ offsets !! S w = Some b /\ (a <= row < b)%nat).
  { induction k as [|k IH]; intros b Hb Hlt; [rewrite Hh in Hb; injection Hb as <-; lia|].
    pose proof (lookup_lt_Some _ _ _ Hb). destruct (lookup_lt_is_Some_2 offsets k ltac:(lia)) as [a Ha].
    destruct (Nat.lt_ge_cases row a) as [Hra|Hra]; [by apply (IH a)|]. exists k, a, b. done. }
  by apply (Hgen _ _ Hl).
Qed.

Lemma cuts_le offsets n i a : cuts offsets n -> offsets !! i = Some a -> (a <= n)%nat.
Proof.
  intros (_ & Hl & Ho) Ha. rewrite last_lookup in Hl. pose proof (lookup_lt_Some _ _ _ Ha) as Hi.
  assert (Hgen : forall k, (i + k < length offsets)%nat -> exists b, offsets !! (i + k)%nat = Some b /\ (a <= b)%nat).
  { induction k as [|k IH]; intros Hk; [exists a; rewrite Nat.add_0_r; done|]. destruct IH as (b & Hb & Hab); [lia|].
    destruct (lookup_lt_is_Some_2 offsets (i + S k) Hk) as [c Hc]. exists c. split; [done|].
    rewrite Nat.add_succ_r in Hc. pose proof (Ho _ _ _ Hb Hc). lia. }
  destruct (Hgen (pred (length offsets) - i)%nat ltac:(lia)) as (b & Hb & Hab).
  replace (i + (pred (length offsets) - i))%nat with (pred (length offsets)) in Hb by lia. rewrite Hl in Hb. by injection Hb as <-.
Qed.

(** The candidates are ranges a store may be asked for, and leave out no row the
    request selects. *)
Lemma candidate_rows_spec t content request related :
  table_ok t content -> Forall row_ok (predicates request) -> keys_fix_blocks content request related ->
  (forall bn row, block_number_column request = Some bn -> (row < num_rows content)%nat -> is_Some (row_block content bn row)) ->
  exists ranges, candidate_rows t request = Ok ranges /\ ranges_ok (ct_num_rows t) ranges /\
    forall row, (row < num_rows content)%nat -> selected content request related row -> row ∈ ranges_rows ranges.
Proof.
  intros Ht Hitems Hk Hbn. pose proof (tok_rows _ _ Ht) as Hn. unfold candidate_rows.
  destruct (Nat.eqb_spec (ct_num_rows t) 0) as [E0|Hne].
  { exists []. split; [done|]. split; [by split; constructor|]. intros row Hrow. lia. }
  destruct (read_stats_ok t content (stats_wanted request) Ht) as ([stats offsets] & -> & Hst). cbn [obind].
  unfold collected in Hst; cbn [fst snd] in Hst. destruct offsets as [offsets|].
  - destruct Hst as [Hcut Hs]. pose proof Hcut as (Hh & Hl & Ho).
    assert (Hlen : (0 < length offsets)%nat) by (destruct offsets; [done|cbn; lia]).
    destruct (push_windows offsets (window_ruled_out (ct_schema t) stats request) (length offsets - 1) ltac:(lia) Hh Ho)
      as (rs & stop & Hstop & E & Hrs & Hsort & Hin).
    exists rs. split; [exact E|]. pose proof (cuts_le _ _ _ _ Hcut Hstop). split.
    { split; [|done]. eapply Forall_impl; [exact Hrs|]. cbn. lia. }
    intros row Hrow Hsel. apply Hin. destruct (cuts_window offsets (ct_num_rows t) row Hcut ltac:(lia)) as (w & a & b & Hw & Ha & Hb & Hr).
    exists w, a, b. split; [lia|]. split; [|done]. destruct (window_ruled_out _ stats request w) eqn:Eout; [|done]. exfalso. revert Hsel.
    apply (window_ruled_out_sound t content offsets stats request related w a b row); try done. by apply (cuts_le _ _ _ _ Hcut Hb).
    intros bn Ebn. by apply Hbn.
  - exists [(0%nat, ct_num_rows t)]. split; [done|]. rewrite ranges_rows_one. unfold range_rows; cbn [fst snd]. split.
    + split; [constructor; [cbn; lia|constructor]|]. rewrite ranges_rows_one. unfold range_rows; cbn [fst snd].
      apply (StronglySorted_app_seq [] 0); [constructor|]. by intros x ?%not_elem_of_nil.
    + intros row Hrow _. apply elem_of_seq. lia.
Qed.

(** ** Reads *)

(** A batch of some of a drawn batch's columns, each found by its name. *)
Lemma drawn_project content rows batch names : drawn content rows batch ->
  Forall (fun name => is_Some (index_of batch name)) names ->
  let out := project_batch batch (omap (index_of batch) names) in
  drawn content rows out /\ fst <$> columns out = names /\ forall name, name ∈ names -> is_Some (column_by_name out name).
Proof.
  intros Hd Hnames out. pose proof Hd as (Hb & Hn & Hlt & Hc).
  assert (Hcols : num_rows out = num_rows batch /\ columns out = omap (fun i => columns batch !! i) (omap (index_of batch) names)).
  { apply project_batch_columns. apply Forall_forall. intros i Hi. apply list_elem_of_omap in Hi as (name & _ & Hi).
    pose proof (index_of_column batch name) as E. rewrite Hi in E. cbn in E. unfold index_of in Hi.
    destruct (index_of_name_lookup _ _ _ Hi) as [x Hx]. by eapply lookup_lt_Some. }
  destruct Hcols as [En Ec].
  assert (Hcol : forall name a, (name, a) ∈ columns out -> column_by_name batch name = Some a).
  { intros name a Hin. rewrite Ec in Hin. apply list_elem_of_omap in Hin as (i & Hi & Ea). apply list_elem_of_omap in Hi as (name' & _ & Hi).
    destruct (index_of_name_lookup _ _ _ Hi) as [x Hx]. rewrite Ea in Hx. injection Hx as <- <-.
    rewrite index_of_column. rewrite Hi. cbn. by rewrite Ea. }
  assert (Hassoc : forall name a, column_by_name out name = Some a -> column_by_name batch name = Some a).
  { intros name a Ha. apply Hcol. by apply assoc_elem_of. }
  split.
  - split; [|split; [congruence|split; [done|intros name a Ha; by apply Hc, Hassoc]]].
    unfold batch_ok. apply Forall_forall. intros [name a] Hin. apply Hcol in Hin. rewrite En. by apply (column_ok batch name a).
  - split.
    { rewrite Ec. clear -Hnames. induction Hnames as [|name names [k Hk] _ IH]; [done|]. cbn. rewrite Hk. cbn.
      destruct (index_of_name_lookup _ _ _ Hk) as [a ->]. cbn. by f_equal. }
    intros name Hname. rewrite Forall_forall in Hnames. destruct (Hnames name Hname) as [k Hk].
    destruct (index_of_name_lookup _ _ _ Hk) as [a Ha].
    assert (Hin : (name, a) ∈ columns out).
    { rewrite Ec. apply list_elem_of_omap. exists k. split; [|done]. apply list_elem_of_omap. by exists name. }
    unfold column_by_name. clear -Hin. induction (columns out) as [|[n x] l IH]; [by apply not_elem_of_nil in Hin|].
    cbn. case_decide; [by eexists|]. apply elem_of_cons in Hin as [[= -> ->]|Hin]; [done|]. by apply IH.
Qed.

(** A checked read of a table that reads what it is asked for. *)
Lemma checked_read_spec t content cols ranges :
  table_ok t content -> Forall (fun i => (i < length (ct_schema t))%nat) cols ->
  match ranges with Some rs => ranges_ok (ct_num_rows t) rs | None => True end ->
  exists batch, checked_read t cols ranges = Ok batch /\ drawn content (asked t ranges) batch /\
    fst <$> columns batch = (fun i => from_option f_name ""%string (ct_schema t !! i)) <$> cols /\
    forall i f, i ∈ cols -> ct_schema t !! i = Some f -> is_Some (column_by_name batch (f_name f)).
Proof.
  intros Ht Hcols Hr. destruct (tok_read _ _ Ht cols ranges Hcols Hr) as (raw & Eraw & Hd & Hc).
  unfold checked_read. rewrite Eraw. cbn [obind].
  assert (Hasked : match ranges with Some ranges => sum_list ((fun r : range => (r.2 - r.1)%nat) <$> ranges) | None => ct_num_rows t end
    = length (asked t ranges)).
  { destruct ranges; cbn [asked]; [apply ranges_length|by rewrite length_seq]. }
  pose proof Hd as (_ & Hn & _). rewrite Hasked, Hn, Nat.eqb_refl. cbn [ensure obind].
  set (name_of i := from_option f_name ""%string (ct_schema t !! i)).
  set (stated index := let* field := expect (ct_schema t !! index) in _).
  assert (Hstated : Forall (fun i => stated i = Ok (default 0%nat (index_of raw (name_of i)))) cols).
  { apply Forall_forall. intros i Hi. rewrite Forall_forall in Hcols. destruct (lookup_lt_is_Some_2 _ _ (Hcols i Hi)) as [f Hf].
    unfold stated, name_of. rewrite Hf. cbn [expect obind from_option]. destruct (Hc i f Hi Hf) as [a Ha].
    rewrite index_of_column in Ha. destruct (index_of raw (f_name f)) as [k|] eqn:Ek; cbn in Ha; [|done].
    destruct (columns raw !! k) as [[n x]|] eqn:Ex; cbn in Ha; [|done]. injection Ha as ->. cbn [mbind option_bind].
    rewrite Ex. cbn [mbind option_bind snd]. rewrite decide_True; [done|].
    assert (Ha : column_by_name raw (f_name f) = Some a) by (rewrite index_of_column, Ek; cbn; by rewrite Ex).
    destruct (drawn_column _ _ _ _ _ Hd Ha) as (_ & _ & a0 & Ea0 & -> & _).
    destruct (tok_schema _ _ Ht) as (Hnd & _). pose proof (schema_index_at _ _ _ Hnd Hf) as Ei.
    destruct (schema_of_column _ _ _ _ (tok_schema _ _ Ht) Ei) as (f' & a' & Ef' & _ & _ & Ea' & Hty & _). congruence. }
  rewrite (mapM_ok_pure stated _ cols Hstated). cbn [obind].
  assert (Hsome : forall i f, i ∈ cols -> ct_schema t !! i = Some f -> is_Some (index_of raw (f_name f))).
  { intros i f Hi Hf. destruct (Hc i f Hi Hf) as [a Ha]. rewrite index_of_column in Ha. by destruct (index_of raw (f_name f)). }
  assert (Homap : (fun i => default 0%nat (index_of raw (name_of i))) <$> cols = omap (index_of raw) (name_of <$> cols)).
  { clear -Hcols Hsome. induction cols as [|i cols IH]; [done|]. cbn. apply Forall_cons in Hcols as [Hi Hcols].
    destruct (lookup_lt_is_Some_2 _ _ Hi) as [f Hf]. destruct (Hsome i f ltac:(by left) Hf) as [k Hk].
    unfold name_of at 1 3. rewrite Hf. cbn [from_option]. rewrite Hk. cbn. f_equal. apply IH; [done|]. intros j g Hj. apply Hsome. by right. }
  rewrite Homap. destruct (drawn_project content _ raw (name_of <$> cols) Hd) as (Hdp & Hfst & Hnames).
  { apply Forall_fmap, Forall_forall. intros i Hi. rewrite Forall_forall in Hcols. destruct (lookup_lt_is_Some_2 _ _ (Hcols i Hi)) as [f Hf].
    unfold name_of; cbn. rewrite Hf. by apply (Hsome i f). }
  eexists. split; [done|]. split; [done|]. split; [exact Hfst|]. intros i f Hi Hf. apply Hnames. apply list_elem_of_fmap. exists i. split; [|done].
  unfold name_of. by rewrite Hf.
Qed.

(** ** Masks *)

(** Bits over the rows of a batch. *)
Definition bits_say (bits : list bool) (rows : list nat) (P : nat -> Prop) : Prop :=
  length bits = length rows /\ forall k row, rows !! k = Some row -> bits !! k = Some true <-> P row.

Lemma bits_and a b rows (P Q : nat -> Prop) : bits_say a rows P -> bits_say b rows Q ->
  bits_say (zip_with andb a b) rows (fun row => P row /\ Q row).
Proof.
  intros [Ha HP] [Hb HQ]. split; [rewrite length_zip_with; lia|]. intros k row Hk. rewrite <- (HP k row Hk), <- (HQ k row Hk).
  pose proof (lookup_lt_Some _ _ _ Hk). rewrite lookup_zip_with.
  destruct (lookup_lt_is_Some_2 a k ltac:(lia)) as [x ->], (lookup_lt_is_Some_2 b k ltac:(lia)) as [y ->]. cbn.
  destruct x, y; cbn; naive_solver.
Qed.

Lemma bits_iff a rows (P Q : nat -> Prop) : (forall row, row ∈ rows -> P row <-> Q row) -> bits_say a rows P -> bits_say a rows Q.
Proof. intros H [Hl HP]. split; [done|]. intros k row Hk. rewrite <- H by (by eapply list_elem_of_lookup_2). by apply HP. Qed.

Lemma selected_bits_lookup m k : selected_bits m !! k = Some true <-> m !! k = Some (Some true).
Proof. unfold selected_bits. rewrite list_lookup_fmap. destruct (m !! k) as [[[]|]|]; cbn; split; congruence. Qed.

Lemma bits_of_mask m rows (P : nat -> Prop) : length m = length rows ->
  (forall k row, rows !! k = Some row -> m !! k = Some (Some true) <-> P row) -> bits_say (selected_bits m) rows P.
Proof. intros Hl Hm. split; [unfold selected_bits; by rewrite length_fmap|]. intros k row Hk. rewrite selected_bits_lookup. by apply Hm. Qed.

Lemma bits_all rows : bits_say (replicate (length rows) true) rows (fun _ => True).
Proof. split; [apply length_replicate|]. intros k row Hk. rewrite lookup_replicate_2; [done|]. by eapply lookup_lt_Some. Qed.

(** A relation's filter, asked only about the rows kept so far. *)
Lemma bits_relation content rows batch names related mask_of keep (P : nat -> Prop) :
  mask_picks content names related mask_of -> drawn content rows batch -> holds_columns content batch names ->
  bits_say keep rows P ->
  exists m, mask_of batch (Some keep) = Ok m /\ bits_say (zip_with andb keep (selected_bits m)) rows (fun row => P row /\ related row).
Proof.
  intros Hm Hd Hh HP. destruct (Hm rows batch (Some keep) Hd Hh) as (kept & E & Hl & Hk). exists (of_bools kept). split; [done|].
  apply (bits_iff _ _ (fun row => P row /\ (P row /\ related row))); [tauto|]. apply bits_and; [done|].
  assert (Hs : selected_bits (of_bools kept) = kept).
  { unfold selected_bits, of_bools. rewrite <- list_fmap_compose. rewrite <- (list_fmap_id kept) at 2. by apply list_fmap_ext. }
  rewrite Hs. split; [done|]. intros k row Hrow. rewrite (Hk k row Hrow). cbn [is_candidate]. destruct HP as [_ HP]. by rewrite (HP k row Hrow).
Qed.

(** The Kleene or of picked masks. *)
Lemma or_masks_says {E} (masks : list mask) (items : list nat) n (Q : nat -> nat -> Prop) :
  (forall item, item ∈ items -> exists m, masks !! item = Some m /\ mask_says m n (Q item)) ->
  exists m, or_masks (E:=E) masks items n = Ok m /\ mask_says m n (fun k => Exists (fun item => Q item k) items).
Proof.
  intros Hm. unfold or_masks.
  unshelve epose proof (foldM_says (fun result R => any_says result n R) or
    (fun result item => let* m := vec_get masks item in Ok (or_next result m)) (fun _ => true) Q items _ None (fun _ => False) ltac:(cbn; tauto)) as Hloop.
  - exact E.
  - intros acc R0 item Hitem Hacc. destruct (Hm item Hitem) as (m & Em & Hsays). unfold vec_get. rewrite Em. cbn [expect obind].
    eexists. split; [done|]. by apply says_or_next.
  - assert (forallb (fun _ : nat => true) items = true) as Et by (clear; by induction items). rewrite Et in Hloop.
    destruct Hloop as (acc & -> & Hacc). cbn [obind]. eexists. split; [done|]. apply says_any.
    eapply any_says_iff; [|exact Hacc]. intros k _. cbn beta. rewrite fold_or. tauto.
Qed.

(** Each item's mask over a drawn batch. *)
Lemma item_masks content rows batch (rs : list (RowPredicate predicate)) :
  drawn content rows batch -> Forall row_ok rs -> (forall r, r ∈ rs -> row_supports content r = true) ->
  (forall r, r ∈ rs -> holds_columns content batch (RowPredicate.required_columns r)) ->
  exists masks, mapM_ok (E:=error) (fun r => match row_evaluate r batch with Ok m => Ok m | Err _ => Err OtherError | Panic => Panic end) rs = Ok masks /\
    Forall2 (fun r m => length m = length rows /\ forall k row, rows !! k = Some row -> m !! k = Some (Some true) <-> row_admits content r row) rs masks.
Proof.
  intros Hd Hok Hsup Hh. pose proof Hd as (Hb & Hn & _).
  induction Hok as [|r rs Hr _ IH]; [by exists []|].
  destruct IH as (masks & E & Hmasks); [intros; apply Hsup; by right|intros; apply Hh; by right|].
  pose proof (row_evaluate_ok r batch Hr Hb) as He. rewrite (drawn_supports content rows batch r Hd (Hsup r ltac:(by left))) in He.
  destruct He as (m & Em & Hl & Hm). exists (m :: masks). cbn [mapM_ok]. rewrite Em. cbn [obind]. rewrite E. cbn [obind].
  split; [done|]. constructor; [|done]. rewrite <- Hn. split; [done|]. intros k row Hk.
  pose proof (lookup_lt_Some _ _ _ Hk). rewrite Hm by lia. apply (drawn_admits content rows batch r); [done| |done]. apply Hh. by left.
Qed.

(** The block bounds, on the rows of a batch. *)
Lemma bits_blocks content rows batch request keep (P : nat -> Prop) :
  drawn content rows batch ->
  (forall bn, block_number_column request = Some bn -> exists a, column_by_name batch bn = Some a /\ is_integer (array_type a) = true) ->
  bits_say keep rows P ->
  exists keep', match rf_blocks (RowFilters_of request), block_number_column request ≫= column_by_name batch with
    | Some (from, to), Some column => let* m := block_range_mask column from to in Ok (zip_with andb keep (selected_bits m))
    | _, _ => Ok keep
    end = Ok keep' /\
    bits_say keep' rows (fun row => P row /\ in_blocks content (rf_blocks (RowFilters_of request)) (block_number_column request) row).
Proof.
  intros Hd Hbn HP. assert (Hsame : bits_say keep rows (fun row => P row /\ True)) by (eapply bits_iff; [|exact HP]; tauto).
  destruct (rf_blocks (RowFilters_of request)) as [[from to]|]; [|by exists keep].
  destruct (block_number_column request) as [bn|]; [|by exists keep]. cbn [mbind option_bind].
  destruct (Hbn bn eq_refl) as (a & Ea & Ht). rewrite Ea.
  destruct (block_mask_drawn content rows batch bn a from to Hd Ea Ht) as (m & Em & Hl & Hm). rewrite Em. cbn [obind].
  eexists. split; [done|]. apply bits_and; [done|]. by apply bits_of_mask.
Qed.

(** The columns a relation's filter reads. *)
Definition relation_columns (relation : Relation) : list string :=
  match relation with
  | RNone => []
  | RKeys keys => kf_columns keys
  | RAddresses addresses => hf_group_key_columns addresses ++ [hf_address_column addresses]
  end.

Lemma relation_needed request name :
  name ∈ relation_columns (rf_relation (RowFilters_of request)) -> name ∈ needed request.
Proof.
  unfold RowFilters_of, needed; cbn [rf_relation].
  intros Hin. do 3 (apply elem_of_app; right).
  destruct (hierarchical_filter request), (key_filter request); cbn [relation_columns] in Hin; apply elem_of_app;
    [by right|by right|left; by right|by apply elem_of_nil in Hin].
Qed.

Lemma relation_alone request hf : rf_relation (RowFilters_of request) = RAddresses hf -> hierarchical_filter request = Some hf.
Proof. unfold RowFilters_of; cbn [rf_relation]. destruct (hierarchical_filter request), (key_filter request); naive_solver. Qed.

(** The relation's part of the mask. *)
Lemma bits_of_relation content rows batch (items : list (RowPredicate predicate)) relation related keep (P : nat -> Prop) :
  relation_picks content relation related -> drawn content rows batch -> holds_columns content batch (relation_columns relation) ->
  (forall hf, relation = RAddresses hf -> items = []) -> bits_say keep rows P ->
  exists keep', match relation with
      | RAddresses hf => if decide (items = []) then let* m := hf_mask hf batch (Some keep) in Ok (zip_with andb keep (selected_bits m)) else Panic
      | RKeys kf => let* m := kf_mask kf batch (Some keep) in Ok (zip_with andb keep (selected_bits m))
      | RNone => Ok keep end = Ok keep' /\
    bits_say keep' rows (fun row => P row /\ related row).
Proof.
  intros Hrel Hd Hh Halone HP. destruct relation as [|keys|hf]; cbn [relation_picks relation_columns] in *.
  - exists keep. split; [done|]. eapply bits_iff; [|exact HP]. intros row _. specialize (Hrel row). tauto.
  - destruct (bits_relation content rows batch _ related _ keep P Hrel Hd Hh HP) as (m & -> & Hbits). by eexists.
  - rewrite decide_True by (by eapply Halone).
    destruct (bits_relation content rows batch _ related _ keep P Hrel Hd Hh HP) as (m & -> & Hbits). by eexists.
Qed.

(** The masks of picked items say which rows some item of them matches. *)
Lemma or_items content rows request masks items :
  Forall2 (fun r m => length m = length rows /\ forall k row, rows !! k = Some row -> m !! k = Some (Some true) <-> row_admits content r row)
    (predicates request) masks ->
  Forall (fun item => (item < length (predicates request))%nat) items ->
  exists m, or_masks (E:=error) masks items (length rows) = Ok m /\ length m = length rows /\
    forall k row, rows !! k = Some row -> m !! k = Some (Some true) <-> tagged content request items row.
Proof.
  intros Hmasks Hitems. rewrite Forall_forall in Hitems.
  set (Q item k := exists p row, predicates request !! item = Some p /\ rows !! k = Some row /\ row_admits content p row).
  destruct (or_masks_says (E:=error) masks items (length rows) Q) as (m & -> & Hl & Hm).
  { intros item Hitem. destruct (lookup_lt_is_Some_2 _ _ (Hitems item Hitem)) as [p Hp].
    destruct (Forall2_lookup_l _ _ _ _ _ Hmasks Hp) as (m & Em & Hl & Hm). exists m. split; [done|]. split; [done|].
    intros k Hk. destruct (lookup_lt_is_Some_2 rows k Hk) as [row Hrow]. rewrite (Hm k row Hrow). unfold Q. rewrite Hp, Hrow. naive_solver. }
  exists m. split; [done|]. split; [done|]. intros k row Hk. rewrite Hm by (by eapply lookup_lt_Some). unfold tagged, Q.
  rewrite !Exists_exists. split; intros (item & Hitem & Hq); exists item; (split; [done|]).
  - destruct Hq as (p & row' & Hp & Hr & Ha). rewrite Hk in Hr. injection Hr as <-. by exists p.
  - destruct Hq as (p & Hp & Ha). by exists p, row.
Qed.

(** Some item of all matches a row exactly when an item does. *)
Lemma tagged_every content request n row : length (predicates request) = n ->
  tagged content request (seq 0 n) row <-> Exists (fun p => row_admits content p row) (predicates request).
Proof.
  intros <-. unfold tagged. rewrite !Exists_exists. split.
  - intros (item & _ & p & Hp & Ha). exists p. split; [by eapply list_elem_of_lookup_2|done].
  - intros (p & [item Hp]%list_elem_of_lookup & Ha). exists item. split; [|by exists p].
    apply elem_of_seq. pose proof (lookup_lt_Some _ _ _ Hp). lia.
Qed.

(** Each tag's mask. *)
Lemma tag_masks content rows request masks :
  Forall2 (fun r m => length m = length rows /\ forall k row, rows !! k = Some row -> m !! k = Some (Some true) <-> row_admits content r row)
    (predicates request) masks ->
  Forall (Forall (fun item => (item < length (predicates request))%nat)) (item_tags request) ->
  exists tags, mapM_ok (fun items => let* m := or_masks masks items (length rows) in Ok (of_bools (selected_bits m))) (item_tags request) = Ok (E:=error) tags /\
    Forall2 (fun items tag => length tag = length rows /\ forall k row, rows !! k = Some row -> tag !! k = Some (Some true) <-> tagged content request items row)
      (item_tags request) tags.
Proof.
  intros Hmasks. induction 1 as [|items its Hitems _ IH]; [by exists []|].
  destruct IH as (tags & E & Hall). destruct (or_items content rows request masks items Hmasks Hitems) as (m & Em & Hlm & Hm).
  cbn [mapM_ok]. rewrite Em. cbn [obind]. rewrite E. cbn [obind]. eexists. split; [done|]. constructor; [|done].
  unfold of_bools, selected_bits. rewrite !length_fmap. split; [done|].
  intros k row Hk. rewrite <- (Hm k row Hk), !list_lookup_fmap. destruct (m !! k) as [[[]|]|]; cbn; split; congruence.
Qed.

(** The rows to keep and the tags' masks, of a batch that holds the columns needed. *)
Lemma row_masks_spec schema content rows batch request related :
  schema_of schema content -> request_fits schema content request related ->
  drawn content rows batch -> holds_columns content batch (needed request) ->
  exists keep tags, row_masks batch request = Ok (keep, tags) /\
    bits_say keep rows (selected content request related) /\
    Forall2 (fun items tag => length tag = length rows /\ forall k row, rows !! k = Some row -> tag !! k = Some (Some true) <-> tagged content request items row)
      (item_tags request) tags.
Proof.
  intros Hs Hf Hd Hh. pose proof Hd as (_ & Hn & _). unfold row_masks. rewrite Hn.
  assert (Hbn : forall bn, block_number_column request = Some bn -> exists a, column_by_name batch bn = Some a /\ is_integer (array_type a) = true).
  { intros bn Ebn. destruct (fit_blocks _ _ _ _ Hf bn Ebn) as (a0 & Ea0 & Ht & _).
    destruct (Hh bn) as [a Ea]; [unfold needed; rewrite Ebn; set_solver|by rewrite Ea0|]. exists a. split; [done|].
    destruct (drawn_column _ _ _ _ _ Hd Ea) as (_ & _ & a0' & Ea0' & -> & _). congruence. }
  destruct (bits_blocks content rows batch request _ _ Hd Hbn (bits_all rows)) as (keep1 & -> & Hkeep1). cbn [obind].
  assert (Hrel : holds_columns content batch (relation_columns (rf_relation (RowFilters_of request)))).
  { intros name Hname. by apply Hh, relation_needed. }
  assert (Halone : forall hf, rf_relation (RowFilters_of request) = RAddresses hf -> predicates request = []).
  { intros hf Ehf%relation_alone. apply (fit_alone _ _ _ _ Hf). by rewrite Ehf. }
  destruct (bits_of_relation _ _ _ _ _ _ _ _ (fit_relation _ _ _ _ Hf) Hd Hrel Halone Hkeep1) as (keep2 & -> & Hkeep2).
  cbn [obind]. case_decide as Ep.
  - eexists _, _. split; [done|]. split.
    + eapply bits_iff; [|exact Hkeep2]. intros row _. unfold selected. tauto.
    + apply Forall2_fmap_r, Forall_Forall2_diag, Forall_forall. intros items _.
      split; [unfold of_bools; by rewrite length_map, length_replicate|].
      intros k row Hk. unfold of_bools. rewrite list_lookup_fmap, lookup_replicate_2 by (by eapply lookup_lt_Some). cbn. split; [done|].
      intros Htag. apply Exists_exists in Htag as (item & _ & p & Hp & _). by rewrite Ep in Hp.
  - destruct (item_masks content rows batch (predicates request) Hd (fit_items _ _ _ _ Hf)) as (masks & -> & Hmasks).
    { intros r Hr. by apply (comparable_supports schema content request r Hs (fit_comparable _ _ _ _ Hf)). }
    { intros r Hr name Hname. apply Hh. unfold needed. apply elem_of_app. right. apply elem_of_app. left. apply elem_of_concat.
      exists (RowPredicate.required_columns r). split; [done|]. by apply list_elem_of_fmap_2. }
    cbn [obind]. pose proof (Forall2_length _ _ _ Hmasks) as Hlen.
    destruct (or_items content rows request masks (seq 0 (length masks)) Hmasks) as (any & -> & Hl & Hany).
    { apply Forall_forall. intros item Hitem%elem_of_seq. lia. }
    cbn [obind]. destruct (tag_masks content rows request masks Hmasks (fit_tags _ _ _ _ Hf)) as (tags & -> & Hall). cbn [obind].
    eexists _, tags. split; [done|]. split; [|done].
    eapply bits_iff; [|exact (bits_and _ _ _ _ _ Hkeep2 (bits_of_mask any rows _ Hl Hany))]. intros row _. unfold selected.
    rewrite (tagged_every content request (length masks) row Hlen). tauto.
Qed.
End windows.
