(* ===== verification/ColumnarScan.v ===== *)
(** The column-store reader returns exactly the rows a request selects, whatever
    statistics its tables keep and whatever it opened before; which requests it
    refuses, and that a store that answers a read wrongly is refused too. *)
From stdpp Require Import base strings list gmap.
From Stdlib Require Import ZArith Lia Sorting.Sorted.
From S2P Require Import Prelude Machine ListLib Errors Arrow ArrowReference Integers Counting Rows KeyColumns SemiJoin Addresses AddressLookup AddressBuild Keys Render Json Sets Predicate PredicateSpec Pruning RowPredicate ItemLists Scan ScanParts Columnar ColumnarSpec.

#[local] Open Scope Z_scope.

(** ** Columns to read *)

Lemma elem_of_column_indices schema names i :
  i ∈ column_indices schema names <-> exists name, name ∈ names /\ schema_index schema name = Some i.
Proof.
  unfold column_indices. rewrite elem_of_dedup by (intros; apply Nat.eqb_eq). by rewrite elem_of_sort_by, list_elem_of_omap.
Qed.

Lemma column_indices_lt schema names : Forall (fun i => (i < length schema)%nat) (column_indices schema names).
Proof.
  apply Forall_forall. intros i (name & _ & Ei)%elem_of_column_indices.
  destruct (schema_index_spec schema name i Ei) as (f & Hf & _). by eapply lookup_lt_Some.
Qed.

(** Reading the columns of some names gives a batch that holds them. *)
Lemma checked_read_names {K : ArrowKernels} {L : ArrowLaws K} t content names ranges :
  table_ok t content -> match ranges with Some rs => ranges_ok (ct_num_rows t) rs | None => True end ->
  exists batch, checked_read t (column_indices (ct_schema t) names) ranges = Ok batch /\ drawn content (asked t ranges) batch /\
    holds_columns content batch names.
Proof.
  intros Ht Hr. destruct (checked_read_spec t content _ ranges Ht (column_indices_lt (ct_schema t) names) Hr) as (batch & E & Hd & _ & Hc).
  exists batch. split; [done|]. split; [done|]. intros name Hname Hin.
  apply (schema_of_is_Some _ _ _ (tok_schema _ _ Ht)) in Hin as [i Ei].
  destruct (schema_index_spec _ _ _ Ei) as (f & Hf & <-). apply (Hc i f); [|done]. apply elem_of_column_indices. by exists (f_name f).
Qed.

(** ** Rows kept *)

Lemma masked_sorted m (l : list nat) : StronglySorted lt l -> StronglySorted lt (masked m l).
Proof.
  intros Hl. revert m. induction Hl as [|x l Hl IH Hx]; intros [|b m]; try constructor. cbn.
  destruct (selects b); [|apply IH]. constructor; [apply IH|]. apply Forall_forall. intros y (i & _ & Hy)%elem_of_masked.
  by apply (Forall_lookup_1 _ _ _ _ Hx Hy).
Qed.

(** The rows kept of the candidates are the rows there are with [P], when every row
    with [P] is a candidate. *)
Lemma masked_picked keep rows n (P : nat -> Prop) :
  StronglySorted lt rows -> bits_say keep rows P -> (forall row, row ∈ rows -> (row < n)%nat) ->
  (forall row, (row < n)%nat -> P row -> row ∈ rows) -> picked P n (masked (of_bools keep) rows).
Proof.
  intros Hsort [Hl Hk] Hlt Hall. split; [by apply masked_sorted|]. intros row. rewrite elem_of_masked. unfold of_bools. split.
  - intros (i & Hi & Hrow). rewrite list_lookup_fmap in Hi. assert (Hin : row ∈ rows) by (by eapply list_elem_of_lookup_2).
    split; [by apply Hlt|]. apply (Hk i row Hrow). destruct (keep !! i) as [b|]; cbn in Hi; congruence.
  - intros [Hrow HP]. destruct (proj1 (list_elem_of_lookup _ _) (Hall row Hrow HP)) as [i Hi]. exists i. split; [|done].
    rewrite list_lookup_fmap. by rewrite (proj2 (Hk i row Hi) HP).
Qed.

Lemma ranges_rows_nil n rs : ranges_ok n rs -> ranges_rows rs = [] -> rs = [].
Proof.
  intros [Hrs _]. destruct rs as [|r rs]; [done|]. apply Forall_inv in Hrs. unfold ranges_rows; cbn. unfold range_rows.
  replace (r.2 - r.1)%nat with (S (r.2 - r.1 - 1)) by lia. done.
Qed.

(** What a chunk holds: its tables with the rows each is of. *)
Abbreviation chunk_contents := (string -> option (ColumnarTable * RecordBatch)).

Section scans.
Context {K : ArrowKernels} {L : ArrowLaws K} {R : RowFormat} {X : Xxh3} {XL : Xxh3Laws X} {HK : HexKernel}.
Context {B : BatchKernels} {BL : BatchLaws B}.
Context {ColumnCache Window : Type}.
Abbreviation request_type := (ScanRequest (RowPredicate predicate) KeyFilter HierarchicalFilter ColumnCache Window).
Implicit Types request : request_type.

(** The answers masks over [rows] give. *)
Definition mask_answer (rows : list nat) (tags : list mask) (t row : nat) : option bool :=
  default None (tag ← tags !! t; found ← list_find (eq row) rows; tag !! (found.1)).

Lemma mask_answer_at rows tags t tag k row : NoDup rows -> tags !! t = Some tag -> length tag = length rows ->
  rows !! k = Some row -> tag !! k = Some (mask_answer rows tags t row).
Proof.
  intros Hnd Ht Hl Hk. unfold mask_answer. rewrite Ht. cbn [mbind option_bind].
  assert (Ef : list_find (eq row) rows = Some (k, row)).
  { apply list_find_Some. split; [done|]. split; [done|]. intros j y Hj Hlt ->. pose proof (NoDup_lookup _ _ _ _ Hnd Hj Hk). lia. }
  rewrite Ef. cbn [mbind option_bind fst]. destruct (lookup_lt_is_Some_2 tag k) as [b Hb]; [rewrite Hl; by eapply lookup_lt_Some|]. by rewrite Hb.
Qed.

(** A batch drawn from the table with its masks says of each row what the table
    says. *)
Lemma scanned_says schema content request rows batch projected tags :
  NoDup rows -> schema_of schema content -> drawn content rows batch -> holds_columns content batch (output_columns request) ->
  build_output_schema schema (output_columns request) <> [] ->
  project_to batch (build_output_schema schema (output_columns request)) = Ok projected ->
  Forall (fun tag : mask => length tag = length rows) tags -> length tags = length (item_tags request) ->
  let sb := {| sb_batch := projected; sb_positions := if positions request then Some (Z.of_nat <$> rows) else None; sb_tags := tags |} in
  sb_ok sb /\ sb_rows sb = said content request (mask_answer rows tags) <$> rows /\
  batch_schema (sb_batch sb) = output_types content (output_columns request).
Proof.
  intros Hnd Hs Hd Hh Hne E Htags Hlt sb.
  destruct (project_to_spec schema content rows batch _ Hs Hd Hh Hne) as (out & E' & Hok & Hn & Hrows & Hschema).
  rewrite E in E'. injection E' as <-. split; [|split; [|exact Hschema]].
  - unfold sb_ok, sb; cbn [sb_batch sb_positions sb_tags]. rewrite Hn. split; [done|]. split; [|done].
    intros p Ep. destruct (positions request); [|done]. injection Ep as <-. by rewrite length_fmap.
  - unfold sb_rows, sb; cbn [sb_batch]. rewrite Hn. apply list_eq. intros k. rewrite !list_lookup_fmap.
    destruct (rows !! k) as [row|] eqn:Hk; cbn [fmap option_fmap option_map].
    2: { rewrite lookup_seq_ge; [done|]. by apply lookup_ge_None. }
    rewrite lookup_seq_lt by (by eapply lookup_lt_Some). cbn [Nat.add fmap option_fmap option_map]. f_equal. unfold sb_row, said; cbn [sb_batch sb_positions sb_tags].
    rewrite Hrows, list_lookup_fmap, Hk. cbn [fmap option_fmap option_map]. f_equal; [f_equal|].
    + destruct (positions request); [|done]. cbn. rewrite list_lookup_fmap, Hk. done.
    + apply list_eq. intros t. rewrite !list_lookup_fmap. destruct (tags !! t) as [tag|] eqn:Et; cbn [fmap option_fmap option_map].
      * pose proof (lookup_lt_Some _ _ _ Et). rewrite lookup_seq_lt by lia. cbn [Nat.add fmap option_fmap option_map]. f_equal.
        apply mask_answer_at; try done. by apply (Forall_lookup_1 _ _ _ _ Htags Et).
      * apply lookup_ge_None in Et. rewrite lookup_seq_ge by lia. done.
Qed.

Lemma mask_answers content request rows tags l : NoDup rows ->
  Forall2 (fun items (tag : mask) => length tag = length rows /\ forall k row, rows !! k = Some row -> tag !! k = Some (Some true) <-> tagged content request items row)
    (item_tags request) tags -> (forall row, row ∈ l -> row ∈ rows) ->
  answers_tags content request l (mask_answer rows tags).
Proof.
  intros Hnd H2 Hl t items row Hi Hrow. destruct (Forall2_lookup_l _ _ _ _ _ H2 Hi) as (tag & Ht & Hlen & Htag).
  destruct (proj1 (list_elem_of_lookup _ _) (Hl row Hrow)) as [k Hk]. rewrite <- (Htag k row Hk).
  rewrite (mask_answer_at rows tags t tag k row Hnd Ht Hlen Hk). split; [by intros ->|by intros [= ->]].
Qed.

(** ** Block numbers *)

Lemma count_nulls_none nulls n : nulls_ok nulls n -> count_nulls nulls = 0%nat <-> forall k, (k < n)%nat -> is_valid_in nulls k = true.
Proof.
  intros Hn. split; [intros H0 k Hk; by apply (count_nulls_zero nulls n)|]. intros Hv. destruct nulls as [valid|]; [|done]. cbn in *.
  destruct (filter (fun b => b = false) valid) as [|b l] eqn:E; [done|]. exfalso.
  assert (Hb : b ∈ filter (fun b => b = false) valid) by (rewrite E; by left). apply list_elem_of_filter in Hb as [-> [k Hk]%list_elem_of_lookup].
  specialize (Hv k). rewrite Hk in Hv. cbn in Hv. pose proof (lookup_lt_Some _ _ _ Hk). discriminate Hv; lia.
Qed.

(** A column holds no null. *)
Definition no_null_in (content : RecordBatch) (name : string) : Prop :=
  exists a, column_by_name content name = Some a /\ forall row, (row < num_rows content)%nat -> cell_at a row <> CNull.

(** What the reader has remembered of a table: columns without nulls. *)
Definition open_ok (open : OpenTable) (content : RecordBatch) : Prop :=
  table_ok (ot_table open) content /\ forall name, name ∈ ot_complete_blocks open -> no_null_in content name.

(** The whole of one column. *)
Lemma read_one t content name i f a : table_ok t content -> schema_index (ct_schema t) name = Some i -> ct_schema t !! i = Some f ->
  column_by_name content name = Some a -> is_integer (array_type a) = true ->
  exists batch column, checked_read t [i] None = Ok batch /\ columns batch !! 0%nat = Some (name, column) /\
    (null_count column = 0%nat <-> forall row, (row < num_rows content)%nat -> cell_at a row <> CNull).
Proof.
  intros Ht Ei Hf Ea Hint. destruct (schema_index_spec _ _ _ Ei) as (f' & Hf' & En). rewrite Hf in Hf'. injection Hf' as <-.
  assert (Hlt : Forall (fun i => (i < length (ct_schema t))%nat) [i]) by (repeat constructor; by eapply lookup_lt_Some).
  destruct (checked_read_spec t content [i] None Ht Hlt I) as (batch & E & Hd & Hfst & _).
  cbn in Hfst. rewrite Hf in Hfst. cbn in Hfst. rewrite En in Hfst. destruct (columns batch) as [|[n column] [|]] eqn:Ec; [done| |done].
  cbn in Hfst. injection Hfst as ->. exists batch, column. rewrite Ec. split; [done|]. split; [done|].
  assert (Hcol : column_by_name batch name = Some column) by (unfold column_by_name; rewrite Ec; cbn; by rewrite decide_True).
  destruct (drawn_column _ _ _ _ _ Hd Hcol) as (Hok & Hl & a0 & Ea0 & Hty & Hc). rewrite Ea in Ea0. injection Ea0 as <-.
  cbn [asked] in Hc, Hl. rewrite length_seq in Hl. rewrite (tok_rows _ _ Ht). unfold null_count.
  rewrite (count_nulls_none _ _ (array_ok_nulls column Hok)), Hl.
  assert (Hv : forall row, (row < ct_num_rows t)%nat -> is_valid_in (array_nulls column) row = true <-> cell_at a row <> CNull).
  { intros row Hrow. rewrite <- (Hc row row) by (by rewrite lookup_seq_lt).
    destruct column as [ty v nulls| | | | | | | | |]; rewrite <- Hty in Hint; try done.
    rewrite cell_int. cbn. by destruct (is_valid_in nulls row). }
  split; intros Hall row Hrow; apply Hv; auto.
Qed.

Lemma nullable_block_numbers_fits t content request bn : table_ok t content -> block_number_column request = Some bn ->
  forall a, column_by_name content bn = Some a -> is_integer (array_type a) = true ->
  exists i f, schema_index (ct_schema t) bn = Some i /\ ct_schema t !! i = Some f /\
    nullable_block_numbers (ct_schema t) request = Ok (if f_nullable f then Some bn else None) /\
    (f_nullable f = false -> no_null_in content bn).
Proof.
  intros Ht Ebn a Ea Hint. destruct (proj1 (schema_of_is_Some _ _ bn (tok_schema _ _ Ht)) ltac:(by rewrite Ea)) as [i Ei].
  destruct (schema_of_column _ _ _ _ (tok_schema _ _ Ht) Ei) as (f & a0 & Ef & _ & _ & Ea0 & Hty & Hl & Hnull).
  rewrite Ea in Ea0. injection Ea0 as <-. exists i, f. split; [done|]. split; [done|]. unfold nullable_block_numbers. rewrite Ebn, Ei.
  cbn [ok_or obind]. rewrite Ef. cbn [expect obind]. rewrite <- Hty, Hint. cbn [ensure obind]. split; [done|].
  intros Hn. exists a. split; [done|]. intros row Hrow. apply valid_cell. by apply Hnull.
Qed.

Lemma block_numbers_readable open content request bn a :
  open_ok open content -> block_number_column request = Some bn -> column_by_name content bn = Some a -> is_integer (array_type a) = true ->
  exists r complete, ensure_block_numbers_readable open request = (r, complete) /\
    open_ok {| ot_table := ot_table open; ot_complete_blocks := complete |} content /\
    (no_null_in content bn /\ r = Ok tt \/ ~ no_null_in content bn /\ r = Err (EngineError MalformedChunkData)).
Proof.
  intros [Ht Hcomplete] Ebn Ea Hint. destruct (nullable_block_numbers_fits _ content request bn Ht Ebn a Ea Hint) as (i & f & Ei & Ef & En & Hnull).
  unfold ensure_block_numbers_readable. rewrite En. destruct (f_nullable f).
  2: { eexists _, _. split; [done|]. split; [by split|]. left. auto. }
  case_decide as Ein; [eexists _, _; split; [done|]; split; [by split|]; left; auto|].
  rewrite Ei. cbn [ok_or obind]. destruct (read_one _ content bn i f a Ht Ei Ef Ea Hint) as (batch & column & E & E0 & Hcount).
  rewrite E. cbn [obind]. rewrite E0. cbn [expect obind snd]. destruct (Nat.eqb_spec (null_count column) 0) as [Hz|Hz]; cbn [ensure].
  - assert (Hno : no_null_in content bn) by (exists a; split; [done|]; by apply Hcount).
    eexists _, _. split; [done|]. split; [|by left]. split; [done|]. cbn. intros name [->%elem_of_singleton|Hin]%elem_of_union; auto.
  - eexists _, _. split; [done|]. split; [by split|]. right. split; [|done]. intros (a' & Ea' & Hall). rewrite Ea in Ea'. injection Ea' as <-. by apply Hz, Hcount.
Qed.

(** The check leaves what is remembered true, whatever the request. *)
Lemma readable_keeps open content request : open_ok open content ->
  open_ok {| ot_table := ot_table open; ot_complete_blocks := (ensure_block_numbers_readable open request).2 |} content.
Proof.
  intros Ho. destruct (block_number_column request) as [bn|] eqn:Ebn.
  2: { unfold ensure_block_numbers_readable, nullable_block_numbers. rewrite Ebn. by destruct open. }
  destruct (schema_index (ct_schema (ot_table open)) bn) as [i|] eqn:Ei.
  2: { unfold ensure_block_numbers_readable, nullable_block_numbers. rewrite Ebn, Ei. by destruct open. }
  destruct (schema_of_column _ _ _ _ (tok_schema _ _ (proj1 Ho)) Ei) as (f & a & Ef & _ & _ & Ea & Hty & _).
  destruct (is_integer (array_type a)) eqn:Hint.
  - destruct (block_numbers_readable open content request bn a Ho Ebn Ea Hint) as (r & complete & -> & Hok & _). exact Hok.
  - unfold ensure_block_numbers_readable, nullable_block_numbers. rewrite Ebn, Ei. cbn [ok_or obind]. rewrite Ef. cbn [expect obind].
    rewrite <- Hty, Hint. by destruct open.
Qed.

(** ** Scans *)

(** The checks a fitting request passes. *)
Lemma checks_pass schema content request related : request_fits schema content request related ->
  (let* _ := ensure_columns_present schema request in ensure_predicates_comparable schema request) = Ok tt.
Proof.
  intros Hf. rewrite ensure_columns_present_spec. rewrite (proj2 (forallb_forall _ _)).
  - cbn [obind]. rewrite ensure_predicates_comparable_spec by apply Hf. by rewrite (fit_comparable _ _ _ _ Hf).
  - intros name Hin%list_elem_of_In. apply bool_decide_eq_true. pose proof (fit_demanded _ _ _ _ Hf) as Hd. rewrite Forall_forall in Hd. auto.
Qed.

Lemma readable_fits open content request related :
  open_ok open content -> request_fits (ct_schema (ot_table open)) content request related ->
  (ensure_block_numbers_readable open request).1 = Ok tt.
Proof.
  intros Ho Hf. destruct (block_number_column request) as [bn|] eqn:Ebn.
  2: { unfold ensure_block_numbers_readable, nullable_block_numbers. by rewrite Ebn. }
  destruct (fit_blocks _ _ _ _ Hf bn Ebn) as (a & Ea & Hint & Hall).
  destruct (block_numbers_readable open content request bn a Ho Ebn Ea Hint) as (r & complete & -> & _ & [[_ ->]|[Hno _]]); [done|].
  destruct Hno. by exists a.
Qed.

Lemma scan_rows_said open content request related :
  open_ok open content -> request_fits (ct_schema (ot_table open)) content request related -> row_indices request = None ->
  exists parts l answer, (scan open request).1 = Ok parts /\ picked (selected content request related) (num_rows content) l /\
    says_rows content request answer l parts /\ answers_tags content request l answer.
Proof.
  intros Ho Hf Hrows. pose proof Ho as [Ht _]. set (t := ot_table open) in *. unfold scan. fold t. rewrite (checks_pass _ _ _ _ Hf).
  pose proof (readable_fits open content request related Ho Hf) as Hread. destruct (ensure_block_numbers_readable open request) as [r complete].
  cbn [fst] in Hread |- *. subst r. cbn [obind]. rewrite Hrows.
  assert (Hnone : forall (l : list nat), l = [] -> says_rows content request (fun _ _ => None) l [] /\ answers_tags content request l (fun _ _ => None)).
  { intros l ->. split; [by split|]. by intros ? ? ? ? ?%not_elem_of_nil. }
  destruct (candidate_rows_spec t content request related Ht (fit_items _ _ _ _ Hf) (fit_keys _ _ _ _ Hf)) as (ranges & -> & Hok & Hall).
  { intros bn row Ebn Hrow. by eapply fit_row_block. }
  cbn [obind]. pose proof Hok as [Hrs Hsort]. case_decide as Er.
  { exists [], [], (fun _ _ => None). destruct (Hnone [] eq_refl) as [H1 H2]. split; [done|]. split; [|done]. split; [constructor|].
    intros row. split; [by intros ?%not_elem_of_nil|]. intros [Hrow Hsel]. specialize (Hall row Hrow Hsel). by rewrite Er in Hall. }
  destruct (checked_read_names t content (needed request) (Some ranges) Ht Hok) as (batch & E & Hd & Hh).
  unfold read_columns. fold (needed request). rewrite E. cbn [obind asked] in *.
  destruct (row_masks_spec (ct_schema t) content _ batch request related (tok_schema _ _ Ht) Hf Hd Hh) as (keep & tags & -> & Hkeep & Htags).
  cbn [obind]. set (rows := ranges_rows ranges) in *.
  assert (Hlt : forall row, row ∈ rows -> (row < num_rows content)%nat) by (intros row; rewrite (tok_rows _ _ Ht); by apply ranges_rows_lt).
  pose proof (masked_picked keep rows (num_rows content) _ Hsort Hkeep Hlt Hall) as Hpicked.
  destruct (Nat.eqb_spec (true_count (of_bools keep)) 0) as [Hzero|Hpos].
  { exists [], (masked (of_bools keep) rows), (fun _ _ => None). destruct (Hnone _ (masked_none (of_bools keep) rows Hzero)). auto. }
  assert (Hnd : NoDup rows) by (by apply lt_sorted_NoDup).
  assert (Hh' : holds_columns content batch (output_columns request)) by (intros name Hname; apply Hh; apply elem_of_app; by left).
  destruct (project_to_spec _ _ _ _ _ (tok_schema _ _ Ht) Hd Hh' (fit_output _ _ _ _ Hf)) as (out & Eout & Hout & Hn & _).
  rewrite Eout. cbn [obind]. eexists _, (masked (of_bools keep) rows), (mask_answer rows tags). split; [done|]. split; [done|].
  assert (Hlm : length (of_bools keep) = length rows) by (unfold of_bools; rewrite length_fmap; apply Hkeep).
  destruct (scanned_says (ct_schema t) content request rows batch out tags Hnd (tok_schema _ _ Ht) Hd Hh' (fit_output _ _ _ _ Hf) Eout) as (Hsb & Hsays & Hschema).
  { clear -Htags. induction Htags as [|? ? ? ? [? _]]; by constructor. }
  { by rewrite (Forall2_length _ _ _ Htags). }
  split.
  - destruct (says_filter content request _ rows _ (of_bools keep) Hsb Hsays Hlm) as (Hfok & Hfsays & Hfschema).
    apply says_split; [done|done| |by etrans; [exact Hfschema|]].
    intros Hnil. apply Hpos. rewrite <- (length_masked (of_bools keep) rows Hlm). by rewrite Hnil.
  - apply mask_answers; [done|done|]. intros row (i & _ & Hi)%elem_of_masked. by eapply list_elem_of_lookup_2.
Qed.

(** ** Rows by position *)

Lemma push_row_range rs row : push_row rs row = push_range rs (row, S row).
Proof.
  unfold push_row, push_range; cbn [fst snd]. destruct (Nat.leb_spec (S row) row); [lia|].
  destruct (last rs) as [l|]; [|done]. by destruct (Nat.eqb_spec (l.2) row) as [->|].
Qed.

(** Rows joined into ranges are those rows. *)
Lemma push_rows n rows : StronglySorted lt rows -> Forall (fun row => (row < n)%nat) rows ->
  ranges_ok n (fold_left push_row rows []) /\ ranges_rows (fold_left push_row rows []) = rows.
Proof.
  intros Hsort Hlt.
  assert (Hgen : forall rows s rs, StronglySorted lt rows -> Forall (fun row => (s <= row)%nat) rows ->
    Forall (fun r : range => (r.1 < r.2 <= s)%nat) rs ->
    ranges_rows (fold_left push_row rows rs) = ranges_rows rs ++ rows /\
    exists stop, Forall (fun r : range => (r.1 < r.2 <= stop)%nat) (fold_left push_row rows rs) /\ (stop = s \/ exists row, row ∈ rows /\ stop = S row)).
  { clear. induction rows as [|row rows IH]; intros s rs Hsort Hs Hrs; cbn [fold_left].
    { rewrite app_nil_r. split; [done|]. exists s. auto. }
    apply StronglySorted_inv in Hsort as [Hsort Hrow]. apply Forall_cons in Hs as [Hle _].
    rewrite push_row_range. destruct (push_range_rows rs row (S row)) as [Er Hr].
    { eapply Forall_impl; [exact Hrs|]. cbn. lia. } { lia. }
    destruct (IH (S row) (push_range rs (row, S row)) Hsort) as (E & stop & Hstop & Hcase); [done|done|].
    rewrite E, Er, <- app_assoc. replace (S row - row)%nat with 1%nat by lia. split; [done|]. exists stop. split; [done|].
    right. destruct Hcase as [->|(r & Hr' & ->)]; [exists row; split; [by left|done]|exists r; split; [by right|done]]. }
  destruct (Hgen rows 0%nat [] Hsort) as (E & stop & Hstop & Hcase); [apply Forall_forall; lia|constructor|].
  split; [|exact E]. split; [|by rewrite E]. eapply Forall_impl; [exact Hstop|]. cbn. intros r Hr.
  destruct Hcase as [->|(row & Hin & ->)]; [lia|]. rewrite Forall_forall in Hlt. specialize (Hlt row Hin). lia.
Qed.

(** Positions a reader accepts: ascending rows of the table. *)
Definition positions_ok (n : nat) (rows : list Z) : Prop :=
  StronglySorted lt (Z.to_nat <$> rows) /\ Forall (fun row => (row < n)%nat) (Z.to_nat <$> rows).

Lemma ascending_check rows : Forall (Z.le 0) rows ->
  forallb (fun p : Z * Z => p.1 <? p.2) (zip rows (tail rows)) = true <-> StronglySorted lt (Z.to_nat <$> rows).
Proof.
  intros Hpos. split.
  - intros Hc. apply Sorted_StronglySorted; [intros x y z; lia|]. induction Hpos as [|x rows Hx Hpos IH]; [constructor|].
    destruct rows as [|y rows]; [repeat constructor|]. cbn in Hc. apply andb_true_iff in Hc as [Hxy%Z.ltb_lt Hc]. specialize (IH Hc).
    constructor; [exact IH|]. constructor. apply Forall_inv in Hpos. lia.
  - intros Hs. induction Hpos as [|x rows Hx Hpos IH]; [done|]. cbn in Hs. apply StronglySorted_inv in Hs as [Hs Hall].
    destruct rows as [|y rows]; [done|]. cbn in IH |- *. apply andb_true_iff. split; [|exact (IH Hs)].
    apply Z.ltb_lt. apply Forall_inv in Hall. lia.
Qed.

Lemma positions_check n rows : Forall (Z.le 0) rows ->
  forallb (fun p : Z * Z => p.1 <? p.2) (zip rows (tail rows)) &&
  match last rows with Some row => row <? Z.of_nat n | None => true end = true <-> positions_ok n rows.
Proof.
  intros Hpos. rewrite andb_true_iff, (ascending_check rows Hpos). unfold positions_ok. split; intros [Hs Hlast]; (split; [done|]).
  - destruct rows as [|x rows _] using rev_ind; [constructor|]. rewrite last_snoc in Hlast. apply Z.ltb_lt in Hlast.
    rewrite fmap_app in Hs |- *. apply Forall_app in Hpos as [_ Hx]. apply Forall_inv in Hx.
    assert (Hmax : Forall (fun r => (r < Z.to_nat x)%nat) (Z.to_nat <$> rows)).
    { clear -Hs. induction (Z.to_nat <$> rows) as [|r l IH]; [constructor|]. cbn in Hs. apply StronglySorted_inv in Hs as [Hs Hr].
      constructor; [|by apply IH]. apply Forall_app in Hr as [_ Hr]. by apply Forall_inv in Hr. }
    apply Forall_app. split; [|repeat constructor; lia]. eapply Forall_impl; [exact Hmax|]. cbn. lia.
  - destruct rows as [|x rows _] using rev_ind; [done|]. rewrite last_snoc. apply Z.ltb_lt.
    rewrite fmap_app in Hlast. apply Forall_app in Hlast as [_ Hx]. apply Forall_inv in Hx. apply Forall_app in Hpos as [_ Hx']. apply Forall_inv in Hx'. lia.
Qed.

Lemma fmap_of_to rows : Forall (Z.le 0) rows -> Z.of_nat <$> (Z.to_nat <$> rows) = rows.
Proof. induction 1 as [|x rows Hx _ IH]; [done|]. cbn. rewrite IH. f_equal. lia. Qed.

Lemma read_positions_nonempty t request rows output_schema : rows <> [] -> Forall (Z.le 0) rows -> positions_ok (ct_num_rows t) rows ->
  read_positions t request rows output_schema =
  let* batch := checked_read t (column_indices (ct_schema t) (output_columns request)) (Some (fold_left push_row (Z.to_nat <$> rows) [])) in
  let* batch := project_to batch output_schema in
  Ok (split (untagged request batch (if positions request then Some rows else None)) (batch_size request)).
Proof.
  intros Hne Hpos Hok. unfold read_positions. rewrite (proj2 (positions_check (ct_num_rows t) rows Hpos) Hok). by destruct rows.
Qed.

(** Rows asked for by position. *)
Lemma positions_said open content request related rows :
  open_ok open content -> request_fits (ct_schema (ot_table open)) content request related -> row_indices request = Some rows ->
  predicates request = [] -> Forall (Z.le 0) rows -> positions_ok (num_rows content) rows ->
  exists parts answer, (scan open request).1 = Ok parts /\
    says_rows content request answer (Z.to_nat <$> rows) parts /\ answers_tags content request (Z.to_nat <$> rows) answer.
Proof.
  intros Ho Hf Hrows Hp Hpos Hok. pose proof Ho as [Ht _]. set (t := ot_table open) in *. unfold scan. fold t. rewrite (checks_pass _ _ _ _ Hf).
  pose proof (readable_fits open content request related Ho Hf) as Hread. destruct (ensure_block_numbers_readable open request) as [r complete].
  cbn [fst] in Hread |- *. subst r. cbn [obind]. rewrite Hrows.
  destruct (decide (rows = [])) as [->|Hne].
  { exists [], (fun _ _ => None). split; [done|]. split; [by split|]. by intros ? ? ? ? ?%not_elem_of_nil. }
  rewrite (tok_rows _ _ Ht) in Hok. rewrite (read_positions_nonempty t request rows _ Hne Hpos Hok).
  set (asked_rows := Z.to_nat <$> rows) in *. destruct Hok as [Hsort Hlt]. destruct (push_rows (ct_num_rows t) asked_rows Hsort Hlt) as [Hranges Hranged].
  destruct (checked_read_names t content (output_columns request) (Some (fold_left push_row asked_rows [])) Ht Hranges) as (batch & E & Hd & Hh).
  rewrite E. cbn [obind asked] in *. rewrite Hranged in Hd.
  destruct (project_to_spec _ _ _ _ _ (tok_schema _ _ Ht) Hd Hh (fit_output _ _ _ _ Hf)) as (out & Eout & Hout & Hn & _).
  rewrite Eout. cbn [obind]. pose proof (lt_sorted_NoDup _ Hsort) as Hnd.
  set (tags := (fun _ : list nat => of_bools (replicate (num_rows out) false)) <$> item_tags request).
  eexists _, (mask_answer asked_rows tags). split; [done|].
  assert (Htags : Forall2 (fun items (tag : mask) => length tag = length asked_rows /\ forall k row, asked_rows !! k = Some row ->
    tag !! k = Some (Some true) <-> tagged content request items row) (item_tags request) tags).
  { apply Forall2_fmap_r, Forall_Forall2_diag, Forall_forall. intros items _. rewrite Hn.
    split; [unfold of_bools; by rewrite length_map, length_replicate|]. intros k row Hk. unfold of_bools.
    rewrite list_lookup_fmap, lookup_replicate_2 by (by eapply lookup_lt_Some). cbn. split; [done|].
    intros (item & _ & p & Hitem & _)%Exists_exists. by rewrite Hp in Hitem. }
  destruct (scanned_says (ct_schema t) content request asked_rows batch out tags Hnd (tok_schema _ _ Ht) Hd Hh (fit_output _ _ _ _ Hf) Eout) as (Hsb & Hsays & Hschema).
  { clear -Htags. induction Htags as [|? ? ? ? [? _]]; by constructor. }
  { unfold tags. by rewrite length_fmap. }
  split; [|by apply mask_answers].
  assert (Epos : (if positions request then Some rows else None) = if positions request then Some (Z.of_nat <$> asked_rows) else None).
  { unfold asked_rows. by rewrite fmap_of_to. }
  unfold untagged. rewrite Epos. apply says_split; [exact Hsb|exact Hsays| |exact Hschema]. unfold asked_rows. by destruct rows.
Qed.

(** Positions that are not ascending rows of the table are refused. *)
Lemma positions_refused open content request related rows :
  open_ok open content -> request_fits (ct_schema (ot_table open)) content request related -> row_indices request = Some rows ->
  Forall (Z.le 0) rows -> ~ positions_ok (num_rows content) rows -> (scan open request).1 = Err (EngineError MalformedChunkData).
Proof.
  intros Ho Hf Hrows Hpos Hno. pose proof Ho as [Ht _]. unfold scan. rewrite (checks_pass _ _ _ _ Hf).
  pose proof (readable_fits open content request related Ho Hf) as Hread. destruct (ensure_block_numbers_readable open request) as [r complete].
  cbn [fst] in Hread |- *. subst r. cbn [obind]. rewrite Hrows. unfold read_positions.
  rewrite (tok_rows _ _ Ht), <- (positions_check _ rows Hpos), not_true_iff_false in Hno. by rewrite Hno.
Qed.

(** ** The reader *)

Definition chunk_ok (chunk : ColumnarChunk) (contents : chunk_contents) : Prop :=
  forall name, match contents name with
    | Some (t, content) => cc_open_table chunk name = Ok (Some t) /\ table_ok t content
    | None => cc_open_table chunk name = Ok None
    end.

(** The tables opened so far are the chunk's, and what is remembered of them holds. *)
Definition tables_ok (contents : chunk_contents) (tables : open_tables) : Prop :=
  forall name open, tables !! name = Some open ->
    exists content, contents name = Some (ot_table open, content) /\ open_ok open content.

Lemma open_table_spec chunk contents tables name : chunk_ok chunk contents -> tables_ok contents tables ->
  match contents name with
  | Some (t, content) => exists open, open_table chunk tables name = (Ok (Some open), <[name := open]> tables) /\
      ot_table open = t /\ open_ok open content
  | None => open_table chunk tables name = (Ok None, tables)
  end /\ tables_ok contents (open_table chunk tables name).2.
Proof.
  intros Hc Ht. specialize (Hc name). unfold open_table. destruct (tables !! name) as [open|] eqn:Eo.
  - destruct (Ht name open Eo) as (content & E & Ho). rewrite E. split; [|done]. exists open. rewrite (insert_id tables name open Eo). done.
  - destruct (contents name) as [[t content]|] eqn:E; [|by rewrite Hc]. destruct Hc as [Hc Hok]. rewrite Hc. cbn.
    assert (Hnew : open_ok {| ot_table := t; ot_complete_blocks := ∅ |} content) by (split; [done|]; cbn; intros n Hn; by apply elem_of_empty in Hn).
    split; [eexists; split; [done|]; split; [done|exact Hnew]|].
    intros n open [[<- <-]|[Hne Hn]]%lookup_insert_Some; [|by apply Ht]. by exists content.
Qed.

Lemma scan_keeps open content request : open_ok open content ->
  open_ok {| ot_table := ot_table open; ot_complete_blocks := (scan open request).2 |} content.
Proof.
  intros Ho. unfold scan. destruct (obind _ _); [|by destruct open|by destruct open].
  pose proof (readable_keeps open content request Ho) as Hk. by destruct (ensure_block_numbers_readable open request).
Qed.

Lemma scan_rows_opened chunk tables name request open opened :
  open_table chunk tables name = (Ok (Some open), opened) ->
  scan_rows chunk tables name request =
  (let* batches := (scan open request).1 in collect request batches,
   <[name := {| ot_table := ot_table open; ot_complete_blocks := (scan open request).2 |}]> opened).
Proof. intros E. unfold scan_rows. rewrite E. by destruct (scan open request). Qed.

Lemma columnar_scan_ok chunk contents tables name t content request related :
  chunk_ok chunk contents -> tables_ok contents tables -> contents name = Some (t, content) ->
  request_fits (ct_schema t) content request related -> row_indices request = None ->
  exists s, (scan_rows chunk tables name request).1 = Ok s /\ scan_returns content request related s.
Proof.
  intros Hc Hts E Hf Hr. destruct (open_table_spec chunk contents tables name Hc Hts) as [Hopen _]. rewrite E in Hopen.
  destruct Hopen as (open & Eo & <- & Ho). rewrite (scan_rows_opened _ _ _ _ _ _ Eo). cbn [fst].
  destruct (scan_rows_said open content request related Ho Hf Hr) as (parts & l & answer & -> & Hp & Hs & Ha). cbn [obind].
  destruct (says_collect content request answer l parts Ha Hs) as (s & -> & Hret). exists s. split; [done|]. by exists l.
Qed.

Lemma columnar_positions_ok chunk contents tables name t content request related rows :
  chunk_ok chunk contents -> tables_ok contents tables -> contents name = Some (t, content) ->
  request_fits (ct_schema t) content request related -> row_indices request = Some rows ->
  predicates request = [] -> Forall (Z.le 0) rows ->
  (positions_ok (num_rows content) rows ->
    exists s, (scan_rows chunk tables name request).1 = Ok s /\ returns content request (Z.to_nat <$> rows) s) /\
  (~ positions_ok (num_rows content) rows ->
    (scan_rows chunk tables name request).1 = Err (EngineError MalformedChunkData)).
Proof.
  intros Hc Hts E Hf Hr Hp Hpos. destruct (open_table_spec chunk contents tables name Hc Hts) as [Hopen _]. rewrite E in Hopen.
  destruct Hopen as (open & Eo & <- & Ho). rewrite (scan_rows_opened _ _ _ _ _ _ Eo). cbn [fst]. split; intros Hok.
  - destruct (positions_said open content request related rows Ho Hf Hr Hp Hpos Hok) as (parts & answer & -> & Hs & Ha). cbn [obind].
    destruct (says_collect content request answer _ parts Ha Hs) as (s & -> & Hret). by exists s.
  - by rewrite (positions_refused open content request related rows Ho Hf Hr Hpos Hok).
Qed.

(** C1: A scan of a column store returns exactly the rows the request selects, in
    order, with their positions and each tag's rows, whatever statistics the store
    keeps and whatever tables were opened before. *)
Theorem columnar_scan_spec chunk contents tables name t content request related :
  chunk_ok chunk contents -> tables_ok contents tables -> contents name = Some (t, content) ->
  request_fits (ct_schema t) content request related -> row_indices request = None ->
  exists s, (scan_rows chunk tables name request).1 = Ok s /\ scan_returns content request related s.
Proof. apply columnar_scan_ok. Qed.

(** C2: Rows asked for by position come back as those rows, in order, when the
    positions ascend within the table, and are refused otherwise. *)
Theorem columnar_positions_spec chunk contents tables name t content request related rows :
  chunk_ok chunk contents -> tables_ok contents tables -> contents name = Some (t, content) ->
  request_fits (ct_schema t) content request related -> row_indices request = Some rows ->
  predicates request = [] -> Forall (Z.le 0) rows ->
  (positions_ok (num_rows content) rows ->
    exists s, (scan_rows chunk tables name request).1 = Ok s /\ returns content request (Z.to_nat <$> rows) s) /\
  (~ positions_ok (num_rows content) rows ->
    (scan_rows chunk tables name request).1 = Err (EngineError MalformedChunkData)).
Proof. apply columnar_positions_ok. Qed.

(** C3: Whatever is asked of it, the reader remembers only tables of its chunk, and
    of their block-number columns only that those without nulls have none. *)
Theorem open_tables_invariant chunk contents tables name request :
  chunk_ok chunk contents -> tables_ok contents tables ->
  tables_ok contents (scan_rows chunk tables name request).2 /\ tables_ok contents (table_schema chunk tables name).2.
Proof.
  intros Hc Hts. destruct (open_table_spec chunk contents tables name Hc Hts) as [Hopen Hkeep].
  destruct (contents name) as [[t content]|] eqn:E.
  - destruct Hopen as (open & Eo & <- & Ho). rewrite (scan_rows_opened _ _ _ _ _ _ Eo). unfold table_schema. rewrite Eo in *. cbn [snd] in *.
    split; [|done]. intros n o [[<- <-]|[Hne Hn]]%lookup_insert_Some; [|by apply Hkeep].
    exists content. split; [done|]. by apply scan_keeps.
  - unfold scan_rows, table_schema. by rewrite Hopen.
Qed.

(** Both answers of the check for nulls are the table's. *)
Lemma readable_same o1 o2 content request : open_ok o1 content -> open_ok o2 content -> ot_table o1 = ot_table o2 ->
  (ensure_block_numbers_readable o1 request).1 = (ensure_block_numbers_readable o2 request).1.
Proof.
  intros H1 H2 Et. destruct (block_number_column request) as [bn|] eqn:Ebn.
  2: { unfold ensure_block_numbers_readable, nullable_block_numbers. by rewrite Ebn. }
  destruct (schema_index (ct_schema (ot_table o1)) bn) as [i|] eqn:Ei.
  2: { unfold ensure_block_numbers_readable, nullable_block_numbers. by rewrite Ebn, <- Et, Ei. }
  destruct (schema_of_column _ _ _ _ (tok_schema _ _ (proj1 H1)) Ei) as (f & a & Ef & _ & _ & Ea & Hty & _).
  destruct (is_integer (array_type a)) eqn:Hint.
  - destruct (block_numbers_readable o1 content request bn a H1 Ebn Ea Hint) as (r1 & c1 & -> & _ & Hr1).
    destruct (block_numbers_readable o2 content request bn a H2 Ebn Ea Hint) as (r2 & c2 & -> & _ & Hr2). cbn. naive_solver.
  - unfold ensure_block_numbers_readable, nullable_block_numbers. rewrite Ebn, <- Et, Ei. cbn [ok_or obind]. rewrite Ef. cbn [expect obind].
    by rewrite <- Hty, Hint.
Qed.

(** What the reader opened before changes no answer: a scan answers as one of a
    reader that has opened nothing. *)
Theorem open_tables_irrelevant chunk contents tables name request :
  chunk_ok chunk contents -> tables_ok contents tables ->
  (scan_rows chunk tables name request).1 = (scan_rows chunk ∅ name request).1.
Proof.
  intros Hc Hts. destruct (open_table_spec chunk contents tables name Hc Hts) as [H1 _].
  destruct (open_table_spec chunk contents ∅ name Hc) as [H2 _]; [intros n o Hn; by rewrite lookup_empty in Hn|].
  destruct (contents name) as [[t content]|] eqn:E; [|unfold scan_rows; by rewrite H1, H2].
  destruct H1 as (o1 & E1 & Et & Ho1), H2 as (o2 & E2 & <- & Ho2).
  rewrite (scan_rows_opened _ _ _ _ _ _ E1), (scan_rows_opened _ _ _ _ _ _ E2). cbn [fst].
  assert (Hsame : (scan o1 request).1 = (scan o2 request).1); [|by rewrite Hsame].
  pose proof (readable_same o1 o2 content request Ho1 Ho2 Et) as Hread. unfold scan. rewrite Et. destruct (obind _ _); [|done|done].
  destruct (ensure_block_numbers_readable o1 request), (ensure_block_numbers_readable o2 request). cbn in Hread |- *. by rewrite Hread.
Qed.

(** C4: What a scan refuses, in order: a table the chunk lacks, a column the table
    lacks, an item that does not read its column's type, null block numbers. *)
Theorem columnar_scan_refuses chunk contents tables name request :
  chunk_ok chunk contents -> tables_ok contents tables -> Forall row_ok (predicates request) ->
  let answer := (scan_rows chunk tables name request).1 in
  match contents name with
  | None => answer = Err (EngineError TableNotFound)
  | Some (t, content) =>
      (Exists (fun name => schema_index (ct_schema t) name = None) (demanded request) -> answer = Err (EngineError ColumnNotFound)) /\
      (Forall (fun name => is_Some (schema_index (ct_schema t) name)) (demanded request) ->
        (comparable (ct_schema t) request = false -> answer = Err (EngineError UnsupportedKeyType)) /\
        (comparable (ct_schema t) request = true -> forall bn a, block_number_column request = Some bn ->
          column_by_name content bn = Some a -> is_integer (array_type a) = true -> ~ no_null_in content bn ->
          answer = Err (EngineError MalformedChunkData)))
  end.
Proof.
  intros Hc Hts Hok answer. destruct (open_table_spec chunk contents tables name Hc Hts) as [Hopen _].
  destruct (contents name) as [[t content]|] eqn:E; [|unfold answer, scan_rows; by rewrite Hopen].
  destruct Hopen as (open & Eo & <- & Ho). unfold answer. rewrite (scan_rows_opened _ _ _ _ _ _ Eo). cbn [fst]. unfold scan.
  rewrite ensure_columns_present_spec. split.
  - intros Hmissing. apply Exists_exists in Hmissing as (n & Hn & En). destruct (forallb _ _) eqn:Hall; [|done].
    rewrite forallb_forall in Hall. specialize (Hall n (proj1 (list_elem_of_In _ _) Hn)). by rewrite En in Hall.
  - intros Hall. rewrite (proj2 (forallb_forall _ _)).
    2: { intros n Hn%list_elem_of_In. apply bool_decide_eq_true. rewrite Forall_forall in Hall. auto. }
    cbn [obind]. rewrite (ensure_predicates_comparable_spec _ _ Hok). split; [by intros ->|]. intros -> bn a Ebn Ea Hint Hnull.
    destruct (block_numbers_readable open content request bn a Ho Ebn Ea Hint) as (r & complete & -> & _ & [[? _]|[_ ->]]); done.
Qed.
End scans.

(** ** A store in memory *)

Import ArrowInstances.
Import HexInstances.
Import XxhInstances.
Import RowFormatInstances.
Import BatchInstances.

#[local] Ltac concrete := repeat constructor; cbn; try done; try lia.

(** A store that keeps its rows in memory and states whatever statistics it is
    given. *)
Definition memory_read (content : RecordBatch) (cols : list nat) (ranges : option (list range)) : result RecordBatch :=
  let rows := match ranges with Some rs => ranges_rows rs | None => seq 0 (num_rows content) end in
  Ok {| columns := (fun c : string * array => (c.1, array_take c.2 rows)) <$> omap (fun i => columns content !! i) cols;
        num_rows := length rows |}.

Definition memory_table (schema : Schema) (content : RecordBatch) (stats : nat -> option WindowStats) : ColumnarTable := {|
  ct_schema := schema;
  ct_num_rows := num_rows content;
  ct_read := memory_read content;
  ct_stats i := Ok (stats i);
|}.

Lemma schema_of_nth schema content i name a : schema_of schema content -> columns content !! i = Some (name, a) ->
  exists f, schema !! i = Some f /\ f_name f = name /\ column_by_name content name = Some a.
Proof.
  intros Hs Hi. pose proof Hs as (Hnd & _ & H2). destruct (Forall2_lookup_r _ _ _ _ _ H2 Hi) as (f & Hf & En & _). cbn in En. subst name.
  exists f. split; [done|]. split; [done|]. pose proof (schema_index_at _ _ _ Hnd Hf) as Ei.
  destruct (schema_of_column _ _ _ _ Hs Ei) as (_ & a' & _ & _ & Hi' & Ea & _). congruence.
Qed.

Lemma assoc_is_Some {A} name (a : A) l : (name, a) ∈ l -> is_Some (assoc name l).
Proof.
  induction l as [|[n x] l IH]; [by intros ?%not_elem_of_nil|]. cbn. case_decide; [by eexists|].
  intros [[= -> ->]|Hin]%elem_of_cons; [done|auto].
Qed.

Lemma memory_table_ok schema content stats : schema_of schema content ->
  (forall i f a ws, schema !! i = Some f -> column_by_name content (f_name f) = Some a -> stats i = Some ws -> stats_hold f a ws) ->
  table_ok (memory_table schema content stats) content.
Proof.
  intros Hs Hstats. split; [done|done| |].
  2: { intros i f a Hf Ea. eexists. split; [done|]. intros ws Hws _. by eapply Hstats. }
  intros cols ranges Hcols Hranges. eexists. split; [done|].
  assert (Hrows : Forall (fun row => (row < num_rows content)%nat) (asked (memory_table schema content stats) ranges)).
  { apply Forall_forall. intros row Hrow. destruct ranges as [rs|]; cbn [asked] in Hrow.
    - destruct Hranges as [Hrs _]. by eapply ranges_rows_lt.
    - apply elem_of_seq in Hrow. cbn in Hrow. lia. }
  change (match ranges with Some rs => ranges_rows rs | None => seq 0 (num_rows content) end)
    with (asked (memory_table schema content stats) ranges).
  set (rows := asked (memory_table schema content stats) ranges) in *. pose proof Hs as (_ & Hb & H2).
  assert (Hpicked : Forall (fun c : string * array => array_ok c.2 /\ array_len c.2 = num_rows content) (omap (fun i => columns content !! i) cols)).
  { apply Forall_forall. intros c Hc. apply list_elem_of_omap in Hc as (i & _ & Hi). exact (Forall_lookup_1 _ _ _ _ Hb Hi). }
  assert (Hsorted : StronglySorted lt rows).
  { unfold rows. destruct ranges as [rs|]; cbn [asked]; [apply Hranges|apply StronglySorted_seq]. }
  split; [split; [exact (batch_take_ok _ rows (num_rows content) Hpicked Hrows Hsorted)|split; [done|split; [done|]]]|].
  - intros name a Ha. apply assoc_elem_of in Ha. cbn [columns] in Ha. apply list_elem_of_fmap in Ha as ([n x] & [= -> ->] & Hx).
    apply list_elem_of_omap in Hx as (i & _ & Hi). destruct (schema_of_nth _ _ _ _ _ Hs Hi) as (f & _ & _ & Ea).
    exists x. split; [done|]. destruct (column_ok content n x Hb Ea) as [Hok Hl]. split; [apply array_type_take|].
    intros k row Hk. apply cell_take; [done|by rewrite Hl|done].
  - intros i f Hi Hf. cbn [ct_schema memory_table] in *. destruct (Forall2_lookup_l _ _ _ _ _ H2 Hf) as ([n x] & Hx & En & _). cbn in En. subst n.
    unfold column_by_name; cbn [columns]. apply (assoc_is_Some _ (array_take x rows)). apply list_elem_of_fmap. exists (f_name f, x).
    split; [done|]. apply list_elem_of_omap. by exists i.
Qed.

(** Three blocks, their statistics in two windows. *)
Definition blocks_content : RecordBatch :=
  {| columns := [("number"%string, AInt UInt64 [10; 20; 30] None); ("size"%string, AInt UInt32 [1; 2; 2] None)]; num_rows := 3 |}.
Definition blocks_schema : Schema :=
  [{| f_name := "number"; f_type := DInt UInt64; f_nullable := true |}; {| f_name := "size"; f_type := DInt UInt32; f_nullable := false |}].
Definition blocks_stats (i : nat) : option WindowStats :=
  match i with
  | O => Some {| ws_offsets := [0; 2; 3]%nat; ws_min := AInt UInt64 [10; 30] None; ws_max := AInt UInt64 [20; 30] None |}
  | _ => None
  end.
Definition blocks_table : ColumnarTable := memory_table blocks_schema blocks_content blocks_stats.
Definition blocks_chunk : ColumnarChunk := {|
  cc_has_table name := bool_decide (name = "blocks"%string);
  cc_open_table name := Ok (if decide (name = "blocks"%string) then Some blocks_table else None);
|}.
Definition blocks_contents : chunk_contents :=
  fun name => if decide (name = "blocks"%string) then Some (blocks_table, blocks_content) else None.

Abbreviation blocks_request_type := (ScanRequest (RowPredicate predicate) KeyFilter HierarchicalFilter unit unit).

(** Blocks from 15 on of size 2, with positions, the one item tagged. *)
Definition blocks_request : blocks_request_type := {|
  output_columns := ["number"; "size"]%string;
  predicates := [row_new [col_in_list "size" (AInt UInt32 [2] None)]];
  from_block := Some 15; to_block := None; block_number_column := Some "number"%string; batch_size := 1;
  key_filter := None; hierarchical_filter := None; Rows.required_columns := ["number"%string];
  positions := true; row_indices := None; item_tags := [[0%nat]]; column_cache := None; window := None;
|}.

Lemma blocks_schema_of : schema_of blocks_schema blocks_content.
Proof.
  assert (Hb : batch_ok blocks_content) by concrete. split; [apply (bool_decide_unpack _); vm_compute; done|]. split; [exact Hb|].
  repeat (constructor; [split; [done|]; split; [done|]; split; [done|]|]); [done| |constructor].
  intros _ row Hrow. cbn. done.
Qed.

Lemma blocks_chunk_ok : chunk_ok blocks_chunk blocks_contents.
Proof.
  intros name. unfold blocks_contents; cbn. case_decide; [|done]. split; [done|]. apply memory_table_ok; [exact blocks_schema_of|].
  intros [|i] f a ws Hf Ea; [|done]. cbn in Hf. injection Hf as <-. injection Ea as <-. intros [= <-].
  intros [|[|w]] start stop Hs Hstop; cbn in Hs, Hstop; [| |by destruct w]; injection Hs as <-; injection Hstop as <-; intros _ _;
    [exists UInt64, UInt64, 10, 20, 10, 20, None, None|exists UInt64, UInt64, 30, 30, 30, 30, None, None];
    (split; [reflexivity|]); (split; [reflexivity|]); do 4 (split; [first [reflexivity|cbn; lia]|]);
    intros row Hrow _; destruct row as [|[|[|row]]]; try lia; eexists; (split; [reflexivity|]); cbn; lia.
Qed.

Lemma blocks_request_fits : request_fits blocks_schema blocks_content blocks_request (fun _ => True).
Proof.
  split.
  - repeat constructor. concrete.
  - reflexivity.
  - repeat constructor; by eexists.
  - intros bn [= <-]. eexists. split; [reflexivity|]. split; [done|]. intros [|[|[|row]]] Hrow; cbn in *; try done; lia.
  - done.
  - by intros [? ?].
  - by intros keys [=].
  - repeat constructor.
  - split; [repeat constructor|vm_compute; done].
  - done.
Qed.

Lemma no_tables_ok contents : tables_ok contents ∅.
Proof. intros n o Hn. by rewrite lookup_empty in Hn. Qed.

(** The first window is read for block 20 alone, and block 10 is left out. *)
Example blocks_scan : exists s, (scan_rows blocks_chunk ∅ "blocks" blocks_request).1 = Ok s /\
  entries (sc_rows s) = [([("number"%string, CInt 20); ("size"%string, CInt 2)], Some 1);
                         ([("number"%string, CInt 30); ("size"%string, CInt 2)], Some 2)].
Proof. eexists. split; [vm_compute; reflexivity|]. vm_compute. reflexivity. Qed.

Lemma columnar_scan_spec_witness :
  exists s, (scan_rows blocks_chunk ∅ "blocks" blocks_request).1 = Ok s /\ scan_returns blocks_content blocks_request (fun _ => True) s.
Proof.
  apply (columnar_scan_spec blocks_chunk blocks_contents ∅ "blocks" blocks_table).
  - exact blocks_chunk_ok.
  - apply no_tables_ok.
  - reflexivity.
  - exact blocks_request_fits.
  - reflexivity.
Defined.

(** The rows at two positions. *)
Definition positions_request : blocks_request_type := {|
  output_columns := ["size"%string]; predicates := []; from_block := None; to_block := None; block_number_column := None; batch_size := 10;
  key_filter := None; hierarchical_filter := None; Rows.required_columns := [];
  positions := true; row_indices := Some [0; 2]; item_tags := []; column_cache := None; window := None;
|}.

Lemma positions_request_fits : request_fits blocks_schema blocks_content positions_request (fun _ => True).
Proof. by split. Qed.

Lemma columnar_positions_spec_witness :
  exists s, (scan_rows blocks_chunk ∅ "blocks" positions_request).1 = Ok s /\ returns blocks_content positions_request [0; 2]%nat s.
Proof.
  apply (columnar_positions_spec blocks_chunk blocks_contents ∅ "blocks" blocks_table blocks_content positions_request (fun _ => True) [0; 2]).
  - exact blocks_chunk_ok.
  - apply no_tables_ok.
  - reflexivity.
  - exact positions_request_fits.
  - reflexivity.
  - reflexivity.
  - concrete.
  - split; concrete.
Defined.

(** Blocks whose number is known to be whole. *)
Definition opened_blocks : open_tables := {["blocks"%string := {| ot_table := blocks_table; ot_complete_blocks := {["number"%string]} |}]}.

Lemma opened_blocks_ok : tables_ok blocks_contents opened_blocks.
Proof.
  intros n o Hn. unfold opened_blocks in Hn. apply lookup_singleton_Some in Hn as [<- <-]. exists blocks_content. split; [done|]. split.
  - pose proof (blocks_chunk_ok "blocks"%string) as [_ Ht]. exact Ht.
  - intros name Hname. cbn [ot_complete_blocks] in Hname. apply elem_of_singleton in Hname as ->. eexists. split; [reflexivity|]. intros row Hrow. done.
Qed.

Lemma open_tables_invariant_witness :
  tables_ok blocks_contents (scan_rows blocks_chunk opened_blocks "blocks" blocks_request).2 /\
  tables_ok blocks_contents (table_schema blocks_chunk opened_blocks "blocks").2.
Proof. apply (open_tables_invariant (ColumnCache:=unit) (Window:=unit)); [exact blocks_chunk_ok|exact opened_blocks_ok]. Defined.

Lemma open_tables_irrelevant_witness :
  (scan_rows blocks_chunk opened_blocks "blocks" blocks_request).1 = (scan_rows blocks_chunk ∅ "blocks" blocks_request).1.
Proof. apply (open_tables_irrelevant _ blocks_contents); [exact blocks_chunk_ok|exact opened_blocks_ok]. Defined.

Definition absent_column_request : blocks_request_type := {|
  output_columns := ["size"%string]; predicates := []; from_block := None; to_block := None; block_number_column := None; batch_size := 10;
  key_filter := None; hierarchical_filter := None; Rows.required_columns := ["hash"%string];
  positions := false; row_indices := None; item_tags := []; column_cache := None; window := None;
|}.

Lemma columnar_scan_refuses_witness :
  (scan_rows blocks_chunk ∅ "traces" absent_column_request).1 = Err (EngineError TableNotFound) /\
  (scan_rows blocks_chunk ∅ "blocks" absent_column_request).1 = Err (EngineError ColumnNotFound).
Proof.
  pose proof (columnar_scan_refuses blocks_chunk blocks_contents ∅ "traces" absent_column_request blocks_chunk_ok (no_tables_ok _) ltac:(constructor)) as H1.
  pose proof (columnar_scan_refuses blocks_chunk blocks_contents ∅ "blocks" absent_column_request blocks_chunk_ok (no_tables_ok _) ltac:(constructor)) as H2.
  split; [exact H1|]. apply H2. left. reflexivity.
Defined.
