(* ===== verification/Parse.v ===== *)
(** Parsing a request (src/query/parse.rs): a JSON body, checked against the catalog,
    becomes a [Query]. Reading the bytes as JSON is the serde_json crate's:
    [JsonParser]. *)
From stdpp Require Import base strings list gmap.
From Stdlib Require Import ZArith Lia.
From S2P Require Import Prelude Machine ListLib Errors Validated Arrow Catalog Json Names Sets.

#[local] Open Scope Z_scope.

(** [serde_json::from_slice]. *)
Class JsonParser := from_slice : list Z -> option json.

(** Decoded bytes are bytes. *)
Class Base64Laws (B : Base64) : Prop := base64_bytes text bytes : base64_decode text = Some bytes -> Forall (fun b => 0 <= b < 256) bytes.

(** [src/src/query/parse.rs:29-41] QueryItem. *)
Record QueryItem := {
  qi_filters : list (string * json);
  qi_relations : list string;
  qi_alias : option string;
}.

(** [src/src/query/parse.rs:10-27] Query. *)
Record Query := {
  qu_from_block : Z;
  qu_to_block : option Z;
  qu_include_all_blocks : bool;
  qu_parent_block_hash : option string;
  qu_fields : gmap string (list string);
  qu_items : gmap string (list QueryItem);
  qu_sets : list (string * DeclaredSet);
}.

(** [src/src/query/parse.rs:86-88] MAX_ITEM_REQUESTS. *)
Definition MAX_ITEM_REQUESTS : nat := 100.
(** [src/src/query/parse.rs:90-95] MAX_REQUEST_BYTES. *)
Definition MAX_REQUEST_BYTES : Z := 16 * 1024 * 1024.
(** The numbers it reads are in range, and a text is no longer than the body it is of. *)
Class JsonParserLaws (J : JsonParser) : Prop :=
  from_slice_ok bytes v : Z.of_nat (length bytes) <= MAX_REQUEST_BYTES -> from_slice bytes = Some v -> json_ok v.

(** [src/src/query/parse.rs:97-101] MAX_IN_LIST. *)
Definition MAX_IN_LIST : Z := 100000.

(** [src/src/query/parse.rs:103-122] parse_block_bound. *)
Definition parse_block_bound (value : option json) : result (option Z) :=
  match value with
  | None | Some JNull => Ok None
  | Some value => let* block := ok_or (as_u64_value value) (EngineError InvalidBlockNumber) in Ok (Some block)
  end.

(** [Iterator::collect] into a map: of equal keys, the last. *)
Definition collect_map {A} (entries : list (string * A)) : gmap string A :=
  fold_left (fun m e => <[e.1 := e.2]> m) entries ∅.

(** [src/src/query/parse.rs:L186-194] parse_query: [request_name_to_table]. *)
Definition request_names (metadata : DatasetDescription) : gmap string string :=
  collect_map ((fun e : string * TableDescription => (request_name e.2 e.1, e.1)) <$>
    filter (fun e : string * TableDescription => is_Some (td_request_surface e.2)) (dd_tables metadata)).

(** [src/src/query/parse.rs:L196-200] parse_query: [output_name_to_table]. *)
Definition output_names (metadata : DatasetDescription) : gmap string string :=
  collect_map (omap (fun e : string * TableDescription => name ← os_name (td_output e.2); Some (name, e.1)) (dd_tables metadata)).

(** ** Fields *)

(** [src/src/query/parse.rs:L330-362] parse_fields: one table's selection. *)
Definition parse_selection (desc : TableDescription) (fields : list (string * json)) : result (list string) :=
  foldM (fun columns (field : string * json) =>
    let column := camel_to_snake field.1 in
    let* _ := ensure (is_selectable_field desc column) (EngineError UnknownField) in
    let* selected := ok_or (as_bool_value field.2) (EngineError MalformedRequest) in
    Ok (if selected : bool then columns ++ [column] else columns)) fields [].

(** [src/src/query/parse.rs:281-372] parse_fields. *)
Definition parse_fields (fields_value : option json) (metadata : DatasetDescription) (output_name_to_table : gmap string string) :
    result (gmap string (list string)) :=
  let* _ := match fields_value with
    | Some value => ensure (is_null_value value || bool_decide (is_Some (as_object value))) (EngineError MalformedRequest)
    | None => Ok tt
    end in
  match fields_value ≫= as_object with
  | None => Ok ∅
  | Some fields_obj =>
      foldM (fun (out : gmap string (list string)) (group : string * json) =>
        let* table_name := ok_or (output_name_to_table !! group.1) (EngineError UnknownFieldGroup) in
        let* field_obj := ok_or (as_object group.2) (EngineError MalformedRequest) in
        let* table_desc := ok_or (Catalog.table metadata table_name) (EngineError UnknownFieldGroup) in
        let* columns := parse_selection table_desc field_obj in
        Ok (<[table_name := columns]> out)) fields_obj ∅
  end.

(** ** Items *)

(** The relations and the filters a client may name: those of the alias the item
    came through, or the table's own. *)
Definition declared_relations (table : TableDescription) (alias : option Alias) : list (string * RelationDef) :=
  match alias with Some alias => al_relations alias | None => rs_relations (request table) end.
Definition declared_filters (table : TableDescription) (alias : option Alias) : list string :=
  match alias with Some alias => al_filters alias | None => rs_filters (request table) end.

(** [src/src/query/parse.rs:L400-478] parse_query_item: one key of the item. *)
Definition parse_item_key (table : TableDescription) (alias : option Alias) (parsed : list (string * json) * list string)
    (field : string * json) : result (list (string * json) * list string) :=
  let '(filters, relations) := parsed in
  let '(key, val) := field in
  let snake_key := camel_to_snake key in
  let* _ := match as_array val with
    | Some values => ensure (Z.of_nat (length values) <=? MAX_IN_LIST) (EngineError RequestTooLarge)
    | None => Ok tt
    end in
  match assoc snake_key (declared_relations table alias) with
  | Some _ =>
      let* enabled := ok_or (as_bool_value val) (EngineError InvalidFilterValue) in
      Ok (filters, if enabled : bool then relations ++ [snake_key] else relations)
  | None =>
      let* _ := ensure (bool_decide (snake_key ∈ declared_filters table alias)) (EngineError UnknownFilter) in
      match alias ≫= fun alias => assoc snake_key (al_special_filters alias) with
      | Some (ColumnAlias column) => Ok (filters ++ [(column, val)], relations)
      | _ =>
          match assoc snake_key (rs_special_filters (request table)) with
          | Some _ => Ok (filters ++ [(snake_key, val)], relations)
          | None =>
              let* _ := ensure (bool_decide (is_Some (column table snake_key))) (EngineError UnknownFilter) in
              Ok (filters ++ [(snake_key, val)], relations)
          end
      end
  end.

(** [src/src/query/parse.rs:L480-490] parse_query_item: what the alias itself filters
    by. *)
Definition implicit_filters (alias : option Alias) : list (string * json) :=
  match alias with
  | Some alias => (fun e : string * list string => (e.1, JArray (JString <$> e.2))) <$> al_implicit_filters alias
  | None => []
  end.

(** [src/src/query/parse.rs:374-497] parse_query_item. *)
Definition parse_query_item (value : json) (table : TableDescription) (alias : option Alias) : result QueryItem :=
  let* obj := ok_or (as_object value) (EngineError MalformedRequest) in
  let* (filters, relations) := foldM (parse_item_key table alias) obj ([], []) in
  Ok {| qi_filters := filters ++ implicit_filters alias; qi_relations := relations; qi_alias := None |}.

(** [src/src/query/parse.rs:L220-234] parse_query: the table a request key reads, and
    the alias it reads it through. *)
Definition request_table (metadata : DatasetDescription) (key : string) : result (string * option (string * Alias)) :=
  match request_names metadata !! key with
  | Some table => Ok (table, None)
  | None =>
      match assoc key (dd_aliases metadata) with
      | Some alias => Ok (al_table alias, Some (key, alias))
      | None => Err (EngineError UnknownTable)
      end
  end.

(** [src/src/query/parse.rs:L212-257] parse_query: one key of the request. *)
Definition parse_request_key (metadata : DatasetDescription) (items : gmap string (list QueryItem)) (field : string * json) :
    result (gmap string (list QueryItem)) :=
  let '(key, value) := field in
  if bool_decide (key ∈ RESERVED_REQUEST_KEYS) then Ok items else
  let* (table_name, alias_entry) := request_table metadata key in
  let* table_desc := expect (Catalog.table metadata table_name) in
  let* arr := ok_or (as_array value) (EngineError MalformedRequest) in
  let* table_items := mapM_ok (fun item_value =>
    let* item := parse_query_item item_value table_desc (snd <$> alias_entry) in
    Ok {| qi_filters := qi_filters item; qi_relations := qi_relations item; qi_alias := fst <$> alias_entry |}) arr in
  Ok (<[table_name := default [] (items !! table_name) ++ table_items]> items).

(** [usize]'s sum over the tables. *)
Definition total_items (items : gmap string (list QueryItem)) : nat := sum_list (length <$> (map_to_list items).*2).

Section parse.
Context `{J : JsonParser} `{X : Xxh3} `{B : Base64}.

(** [src/src/query/parse.rs:L150-184] parse_query: the flag and the hash. *)
Definition parse_include_all_blocks (value : option json) : result bool :=
  match value with
  | None | Some JNull => Ok false
  | Some v => ok_or (as_bool_value v) (EngineError MalformedRequest)
  end.
Definition parse_parent_block_hash (value : option json) : result (option string) :=
  match value with
  | None | Some JNull => Ok None
  | Some v => let* hash := ok_or (as_str_value v) (EngineError MalformedRequest) in Ok (Some hash)
  end.

(** [src/src/query/parse.rs:124-279] parse_query. *)
Definition parse_query (json_bytes : list Z) (metadata : DatasetDescription) : result Query :=
  let* _ := ensure (Z.of_nat (length json_bytes) <=? MAX_REQUEST_BYTES) (EngineError RequestTooLarge) in
  let* raw := ok_or (from_slice json_bytes) (EngineError MalformedRequest) in
  let* obj := ok_or (as_object raw) (EngineError MalformedRequest) in
  let* dataset_type := ok_or (get_field obj "type" ≫= as_str_value) (EngineError UnknownDataset) in
  let* _ := ensure (bool_decide (dataset_type = dd_name metadata)) (EngineError UnknownDataset) in
  let* from_block := parse_block_bound (get_field obj "fromBlock") in
  let from_block := default 0 from_block in
  let* to_block := parse_block_bound (get_field obj "toBlock") in
  let* _ := match to_block with
    | Some to_ => ensure (from_block <=? to_) (EngineError InvalidBlockRange)
    | None => Ok tt
    end in
  let* include_all_blocks := parse_include_all_blocks (get_field obj "includeAllBlocks") in
  let* parent_block_hash := parse_parent_block_hash (get_field obj "parentBlockHash") in
  let* fields := parse_fields (get_field obj "fields") metadata (output_names metadata) in
  let* sets := parse_sets (get_field obj "sets") in
  let* items := foldM (parse_request_key metadata) obj ∅ in
  let* _ := ensure (total_items items <=? MAX_ITEM_REQUESTS)%nat (EngineError TooManyItemRequests) in
  Ok {| qu_from_block := from_block; qu_to_block := to_block; qu_include_all_blocks := include_all_blocks;
        qu_parent_block_hash := parent_block_hash; qu_fields := fields; qu_items := items; qu_sets := sets |}.
End parse.

(** ** What a parsed request is *)

(** What the parser relies on: a catalog names each table once, and its aliases are
    over its tables. *)
Record catalog_names_ok (metadata : DatasetDescription) : Prop := {
  cn_tables : NoDup (dd_tables metadata).*1;
  cn_aliases : forall key alias, assoc key (dd_aliases metadata) = Some alias -> is_Some (Catalog.table metadata (al_table alias));
}.

(** A filter a client sent: its list is short enough, its numbers in range, and it is
    one the surface it came through declares, by the name of the column the alias gives it, of a special
    filter or of a column. *)
Definition sent_filter (desc : TableDescription) (alias : option Alias) (filter : string * json) : Prop :=
  json_ok filter.2 /\ (forall values, as_array filter.2 = Some values -> Z.of_nat (length values) <= MAX_IN_LIST) /\
  ((exists key a, key ∈ declared_filters desc alias /\ alias = Some a /\ assoc key (al_special_filters a) = Some (ColumnAlias filter.1)) \/
   (filter.1 ∈ declared_filters desc alias /\
    (is_Some (assoc filter.1 (rs_special_filters (request desc))) \/ is_Some (column desc filter.1)))).

(** The surface an item came through: the table's own, or the alias it names. *)
Definition item_surface (metadata : DatasetDescription) (table : string) (desc : TableDescription) (named : option string) (alias : option Alias) : Prop :=
  match named with
  | None => alias = None /\ is_Some (td_request_surface desc)
  | Some key => exists a, alias = Some a /\ assoc key (dd_aliases metadata) = Some a /\ al_table a = table
  end.

Definition item_ok (metadata : DatasetDescription) (table : string) (item : QueryItem) : Prop :=
  exists desc alias, Catalog.table metadata table = Some desc /\ item_surface metadata table desc (qi_alias item) alias /\
    Forall (fun relation => is_Some (assoc relation (declared_relations desc alias))) (qi_relations item) /\
    exists sent, qi_filters item = sent ++ implicit_filters alias /\ Forall (sent_filter desc alias) sent.

Record query_ok (metadata : DatasetDescription) (query : Query) : Prop := {
  qo_range : forall to_, qu_to_block query = Some to_ -> qu_from_block query <= to_;
  qo_fields : forall table columns, qu_fields query !! table = Some columns ->
    exists desc, Catalog.table metadata table = Some desc /\ Forall (fun c => is_selectable_field desc c = true) columns;
  qo_items : forall table items, qu_items query !! table = Some items -> is_Some (Catalog.table metadata table) /\ Forall (item_ok metadata table) items;
  qo_sets : Forall (fun set : string * DeclaredSet => fuse8_sound (ds_fuse8 set.2)) (qu_sets query);
  qo_count : (total_items (qu_items query) <= MAX_ITEM_REQUESTS)%nat;
}.

Lemma collect_map_elem {A} (entries : list (string * A)) key a : collect_map entries !! key = Some a -> (key, a) ∈ entries.
Proof.
  unfold collect_map.
  assert (H : forall m : gmap string A, fold_left (fun m e => <[e.1 := e.2]> m) entries m !! key = Some a -> (key, a) ∈ entries \/ m !! key = Some a).
  { induction entries as [|[k x] entries IH]; intros m; cbn [fold_left]; [by right|]. intros [Hin|Hm]%IH; [left; by right|].
    cbn in Hm. destruct (decide (k = key)) as [->|Hne].
    - rewrite lookup_insert_eq in Hm. injection Hm as ->. left. by left.
    - rewrite lookup_insert_ne in Hm by done. by right. }
  intros [|E]%H; [done|]. by rewrite lookup_empty in E.
Qed.

Lemma collect_map_lookup {A} (entries : list (string * A)) key a : NoDup entries.*1 -> (key, a) ∈ entries -> collect_map entries !! key = Some a.
Proof. intros Hnd Hin. unfold collect_map. rewrite fold_insert_distinct by done. by apply elem_of_list_to_map_1. Qed.

Lemma assoc_of_elem {A} name (a : A) l : NoDup l.*1 -> (name, a) ∈ l -> assoc name l = Some a.
Proof.
  induction l as [|[n x] l IH]; [by intros _ ?%not_elem_of_nil|]. cbn. intros [Hn Hnd]%NoDup_cons [[= -> ->]|Hin]%elem_of_cons.
  - by rewrite decide_True.
  - rewrite decide_False; [by apply IH|]. intros ->. apply Hn. apply list_elem_of_fmap. by exists (name, a).
Qed.

Section parsed.
Context (metadata : DatasetDescription) (Hcat : catalog_names_ok metadata).

Lemma request_table_validated key :
  validated (fun t => exists desc, Catalog.table metadata t.1 = Some desc /\ item_surface metadata t.1 desc (fst <$> t.2) (snd <$> t.2))
    (request_table metadata key).
Proof.
  unfold request_table. destruct (request_names metadata !! key) as [name|] eqn:E.
  - apply collect_map_elem in E. apply list_elem_of_fmap in E as ([n desc] & [= -> ->] & [Hs Hin]%list_elem_of_filter).
    exists desc. split; [by apply assoc_of_elem; [apply Hcat|]|]. by split.
  - destruct (assoc key (dd_aliases metadata)) as [alias|] eqn:Ea; [|done].
    destruct (cn_aliases _ Hcat key alias Ea) as [desc Ed]. exists desc. split; [done|]. by exists alias.
Qed.

Lemma parse_item_key_validated desc alias parsed field : json_ok field.2 ->
  Forall (sent_filter desc alias) parsed.1 /\ Forall (fun r => is_Some (assoc r (declared_relations desc alias))) parsed.2 ->
  validated (fun parsed => Forall (sent_filter desc alias) parsed.1 /\ Forall (fun r => is_Some (assoc r (declared_relations desc alias))) parsed.2)
    (parse_item_key desc alias parsed field).
Proof.
  destruct parsed as [filters relations], field as [key val]. cbn [fst snd]. intros Hjson [Hf Hr]. unfold parse_item_key.
  eapply (validated_bind (fun _ => forall values, as_array val = Some values -> Z.of_nat (length values) <= MAX_IN_LIST)).
  { destruct (as_array val) as [values|]; [|done]. eapply validated_weaken; [by apply validated_ensure|].
    intros _ H%Z.leb_le ? [= <-]. exact H. }
  intros _ Hlen. destruct (assoc _ (declared_relations desc alias)) as [rel|] eqn:Erel.
  - vstep as enabled _. cbn. split; [done|]. destruct enabled; [|done]. apply Forall_app. split; [done|]. constructor; [by rewrite Erel|done].
  - vstep as u Hd. apply bool_decide_eq_true in Hd.
    assert (Hpush : forall column, (forall v, json_ok v -> (forall values, as_array v = Some values -> Z.of_nat (length values) <= MAX_IN_LIST) -> sent_filter desc alias (column, v)) ->
      Forall (sent_filter desc alias) (filters ++ [(column, val)])).
    { intros column Hc. apply Forall_app. split; [done|]. constructor; [|done]. by apply Hc. }
    assert (Hown : is_Some (assoc (camel_to_snake key) (rs_special_filters (request desc))) \/ is_Some (column desc (camel_to_snake key)) ->
      Forall (sent_filter desc alias) (filters ++ [(camel_to_snake key, val)])).
    { intros H. apply Hpush. intros v Hv Hl. split; [done|]. split; [done|]. by right. }
    assert (Hrest : validated (fun parsed => Forall (sent_filter desc alias) parsed.1 /\ Forall (fun r => is_Some (assoc r (declared_relations desc alias))) parsed.2)
      match assoc (camel_to_snake key) (rs_special_filters (request desc)) with
      | Some _ => Ok (filters ++ [(camel_to_snake key, val)], relations)
      | None => let* _ := ensure (bool_decide (is_Some (column desc (camel_to_snake key)))) (EngineError UnknownFilter) in
                Ok (filters ++ [(camel_to_snake key, val)], relations)
      end).
    { destruct (assoc _ (rs_special_filters _)) as [sf|] eqn:Es; [split; [apply Hown; left; by eexists|done]|].
      vstep as u' Hc. apply bool_decide_eq_true in Hc. split; [apply Hown; by right|done]. }
    destruct alias as [a|]; cbn [mbind option_bind]; [|done]. destruct (assoc _ (al_special_filters a)) as [[]|] eqn:Ea; try done.
    cbn. split; [|done]. apply Hpush. intros v Hv Hl. split; [done|]. split; [done|].
    left. by exists (camel_to_snake key), a.
Qed.

Lemma parse_query_item_validated desc alias value : json_ok value ->
  validated (fun item => qi_alias item = None /\ Forall (fun r => is_Some (assoc r (declared_relations desc alias))) (qi_relations item) /\
    exists sent, qi_filters item = sent ++ implicit_filters alias /\ Forall (sent_filter desc alias) sent)
    (parse_query_item value desc alias).
Proof.
  intros Hjson. unfold parse_query_item. vstep as obj Eobj. destruct value as [| | | | |fields]; try done. injection Eobj as <-.
  rewrite json_ok_object, Forall_forall in Hjson.
  eapply validated_bind; [apply (validated_foldM (fun parsed => Forall (sent_filter desc alias) parsed.1 /\
    Forall (fun r => is_Some (assoc r (declared_relations desc alias))) parsed.2)); [|by split; constructor]|].
  { intros parsed field Hin. apply parse_item_key_validated. by apply Hjson. }
  intros [filters relations] [Hf Hr]. cbn. split; [done|]. split; [done|]. by exists filters.
Qed.

(** The items collected so far are well formed, whatever else the request holds. *)
Definition items_ok (items : gmap string (list QueryItem)) : Prop :=
  forall table l, items !! table = Some l -> is_Some (Catalog.table metadata table) /\ Forall (item_ok metadata table) l.

Lemma parse_request_key_validated items field : json_ok field.2 ->
  items_ok items -> validated items_ok
    (parse_request_key metadata items field).
Proof.
  destruct field as [key value]. cbn [snd]. intros Hjson Hitems. unfold parse_request_key. case_bool_decide; [done|].
  eapply validated_bind; [apply request_table_validated|]. intros [name entry] (desc & Ed & Hs). cbn [fst snd] in *.
  eapply validated_bind; [apply validated_expect; by eexists|]. intros desc' Ed'. cbn beta in Ed'. rewrite Ed in Ed'. injection Ed' as <-.
  vstep as arr Earr. destruct value as [| | | |values|]; try done. injection Earr as <-. rewrite json_ok_array, Forall_forall in Hjson. eapply validated_bind.
  { apply (validated_mapM (fun _ => item_ok metadata name)). intros item_value Hin.
    eapply validated_bind; [by apply parse_query_item_validated, Hjson|]. intros item (_ & Hr & sent & Ef & Hsent). cbn.
    exists desc, (snd <$> entry). cbn [qi_alias qi_relations qi_filters]. split; [done|]. split; [done|]. split; [done|]. by exists sent. }
  intros table_items Hti. cbn. intros table l. destruct (decide (table = name)) as [->|Hne].
  - rewrite lookup_insert_eq. intros [= <-]. split; [by eexists|]. apply Forall_app. split.
    + destruct (items !! name) as [l|] eqn:E; [by apply (Hitems name)|constructor].
    + apply Forall_forall. intros item Hin. apply list_elem_of_lookup in Hin as [i Hi]. by destruct (Forall2_lookup_r _ _ _ _ _ Hti Hi) as (v & _ & ?).
  - rewrite lookup_insert_ne by done. apply Hitems.
Qed.

Lemma parse_selection_validated desc fields :
  validated (Forall (fun c => is_selectable_field desc c = true)) (parse_selection desc fields).
Proof.
  unfold parse_selection. apply validated_foldM; [|constructor]. intros cols field _ Hcols. vstep as u Hu. vstep as selected _. cbn.
  destruct selected; [|done]. apply Forall_app. split; [done|]. by constructor.
Qed.

Lemma parse_fields_validated value names :
  validated (fun fields : gmap string (list string) => forall table columns, fields !! table = Some columns ->
    exists desc, Catalog.table metadata table = Some desc /\ Forall (fun c => is_selectable_field desc c = true) columns)
    (parse_fields value metadata names).
Proof.
  unfold parse_fields. apply (validated_bind (fun _ => True)); [destruct value; [|done]; eapply validated_weaken; [by apply validated_ensure|done]|].
  intros _ _. destruct (value ≫= as_object) as [obj|]; [|cbn; intros ? ?; by rewrite lookup_empty].
  apply validated_foldM; [|intros ? ?; by rewrite lookup_empty]. intros out group _ Hout. vstep as name _. vstep as field_obj _. vstep as desc Ed.
  eapply validated_bind; [apply parse_selection_validated|]. intros cols Hcols. cbn. intros t c. destruct (decide (t = name)) as [->|Hne].
  - rewrite lookup_insert_eq. intros [= <-]. by exists desc.
  - rewrite lookup_insert_ne by done. apply Hout.
Qed.

Context `{J : JsonParser} {JL : JsonParserLaws J} `{X : Xxh3} `{B : Base64} {BL : Base64Laws B}.

Lemma parse_block_bound_validated value : validated (fun _ => True) (parse_block_bound value).
Proof. unfold parse_block_bound. destruct value as [[| |[]| | |]|]; try done; cbn; by destruct (as_u64_value _). Qed.

Lemma parse_set_sound value set : parse_set value = Some set -> fuse8_sound (ds_fuse8 set).
Proof.
  unfold parse_set. intros H. apply bind_Some in H as (object & _ & H). destruct (negb _); [done|].
  apply bind_Some in H as (encoded & _ & H). apply bind_Some in H as (bytes & Eb & H). apply bind_Some in H as (fuse8 & Ef & H).
  apply bind_Some in H as (items & _ & H). apply bind_Some in H as (canaries & _ & H). destruct (negb _); [done|]. injection H as <-.
  cbn [ds_fuse8]. apply (from_bytes_sound bytes); [by apply (base64_bytes encoded)|done].
Qed.

Lemma parse_sets_validated value : validated (Forall (fun set : string * DeclaredSet => fuse8_sound (ds_fuse8 set.2))) (parse_sets value).
Proof.
  unfold parse_sets. destruct (value ≫= _); [|constructor]. vstep as declared _.
  eapply validated_weaken; [apply (validated_mapM (fun _ (set : string * DeclaredSet) => fuse8_sound (ds_fuse8 set.2)))|].
  - intros field _. vstep as set Es. by apply (parse_set_sound field.2).
  - intros sets H. apply Forall_forall. intros set Hin. apply list_elem_of_lookup in Hin as [i Hi].
    by destruct (Forall2_lookup_r _ _ _ _ _ H Hi) as (v & _ & ?).
Qed.

Lemma parse_query_ok json_bytes : validated (query_ok metadata) (parse_query json_bytes metadata).
Proof.
  unfold parse_query. vstep as u Hsize%Z.leb_le. vstep as raw Eraw. vstep as obj Eobj. apply from_slice_ok in Eraw; [|done].
  destruct raw as [| | | | |fields0]; try done. injection Eobj as <-. vstep as dataset_type _. vstep as u' _.
  eapply validated_bind; [apply parse_block_bound_validated|]. intros from _.
  eapply validated_bind; [apply parse_block_bound_validated|]. intros to_block _.
  apply (validated_bind (fun _ => forall to_, to_block = Some to_ -> default 0 from <= to_)).
  { destruct to_block as [to_|]; [|done]. eapply validated_weaken; [by apply validated_ensure|]. intros _ H%Z.leb_le ? [= <-]. exact H. }
  intros _ Hrange. apply (validated_bind (fun _ => True)).
  { unfold parse_include_all_blocks. destruct (get_field fields0 "includeAllBlocks") as [[]|]; done. }
  intros all _. apply (validated_bind (fun _ => True)).
  { unfold parse_parent_block_hash. destruct (get_field fields0 "parentBlockHash") as [[]|]; done. }
  intros hash _. eapply validated_bind; [apply parse_fields_validated|]. intros fields Hfields.
  eapply validated_bind; [apply parse_sets_validated|]. intros sets Hsets.
  eapply validated_bind.
  { apply (validated_foldM items_ok).
    - intros items field Hin. apply parse_request_key_validated. rewrite json_ok_object, Forall_forall in Eraw. by apply Eraw.
    - intros ? ?. by rewrite lookup_empty. }
  intros items Hitems. vstep as u'' Hcount. apply Nat.leb_le in Hcount. cbn. by split.
Qed.

(** C18: A request is either parsed into a query that names only what the catalog
    declares, or refused by a validation error; parsing never panics. In a parsed
    query the block range is not reversed, there are at most a hundred items, every
    selected field is one its table lets a client see, and every filter and relation
    of an item is one that the surface it came through, its alias or else its table,
    declares, with no list too long; it carries what its alias filters by; and the
    filters of the sets it declares are sound. *)
Theorem parse_query_spec json_bytes :
  (exists query, parse_query json_bytes metadata = Ok query /\ query_ok metadata query) \/
  (exists kind, parse_query json_bytes metadata = Err (EngineError kind) /\ is_validation kind = true).
Proof. apply validated_total, parse_query_ok. Qed.
End parsed.

(** ** Witness *)

Definition demo_column : ColumnDescription := {|
  cd_data_type := CtString; cd_encoding := Some HexBytes; cd_weight := None; cd_system := false; cd_fold_case := false; cd_members := None |}.
Definition demo_table (surface : option RequestSurface) (name : string) (fields : list string) (order : list string) : TableDescription := {|
  td_request_surface := surface;
  td_output := {| os_name := Some name; os_fields := fields; os_virtual_fields := []; os_variant_column := None; os_variants := [] |};
  td_block_number_column := "block_number"; td_parent_hash_column := None; td_parent_number_column := None; td_address_column := None;
  td_item_order_keys := order; td_declared_weight_key := None; td_sort_key := [];
  td_columns := [("block_number"%string, {| cd_data_type := CtUInt64; cd_encoding := None; cd_weight := None; cd_system := false; cd_fold_case := false; cd_members := None |});
                 ("log_index"%string, {| cd_data_type := CtUInt32; cd_encoding := None; cd_weight := None; cd_system := false; cd_fold_case := false; cd_members := None |});
                 ("address"%string, demo_column); ("topic0"%string, demo_column)] |}.

(** Logs, with a view of the transfers among them, and blocks. *)
Definition demo_metadata : DatasetDescription := {|
  dd_version := "v2"; dd_name := "demo";
  dd_tables :=
    [("blocks"%string, demo_table None "block" ["block_number"]%string []);
     ("logs"%string, demo_table (Some {| rs_name := None; rs_filters := ["address"; "topic0"]%string; rs_special_filters := [];
        rs_relations := [("siblings"%string, {| rd_table := "logs"; rd_kind := RkJoin; rd_key := ["block_number"%string]; rd_left_key := []; rd_right_key := [] |})] |})
        "log" ["address"; "log_index"]%string ["log_index"%string])];
  dd_aliases := [("transfers"%string, {| al_table := "logs"; al_implicit_filters := [("topic0"%string, ["0xdd"%string])]; al_filters := ["contract"%string];
     al_special_filters := [("contract"%string, ColumnAlias "address")]; al_relations := [] |})] |}.

Lemma demo_names_ok : catalog_names_ok demo_metadata.
Proof.
  split; [apply (bool_decide_unpack _); vm_compute; done|]. intros key alias E. cbn in E. case_decide; [|done]. injection E as <-. by eexists.
Qed.

#[local] Instance demo_parser (value : json) : JsonParser := fun _ => Some value.
#[local] Instance no_base64 : Base64 := fun _ => None.
#[local] Instance no_base64_laws : Base64Laws no_base64.
Proof. done. Qed.

Definition demo_request : json := JObject
  [("type", JString "demo"); ("fromBlock", JNumber (JU64 7)); ("fields", JObject [("log", JObject [("logIndex", JBool true); ("address", JBool false)])]);
   ("logs", JArray [JObject [("address", JArray [JString "0xAB"]); ("siblings", JBool true)]]);
   ("transfers", JArray [JObject [("contract", JString "0xcd")]])]%string.

Lemma demo_parser_laws : JsonParserLaws (demo_parser demo_request).
Proof. intros bytes v _ [= <-]. cbn. repeat split; lia. Qed.

(** Both keys' items are the table's, each under the surface it came through. *)
Example demo_parsed `{X : Xxh3} : parse_query (J:=demo_parser demo_request) [] demo_metadata = Ok {|
  qu_from_block := 7; qu_to_block := None; qu_include_all_blocks := false; qu_parent_block_hash := None;
  qu_fields := {["logs" := ["log_index"]]}; qu_sets := [];
  qu_items := {["logs" :=
    [{| qi_filters := [("address", JArray [JString "0xAB"])]; qi_relations := ["siblings"]; qi_alias := None |};
     {| qi_filters := [("address", JString "0xcd"); ("topic0", JArray [JString "0xdd"])]; qi_relations := []; qi_alias := Some "transfers" |}]]} |}%string.
Proof. vm_compute. reflexivity. Qed.

Import XxhInstances.

Lemma parse_query_spec_witness :
  (exists query, parse_query (J:=demo_parser demo_request) [] demo_metadata = Ok query /\ query_ok demo_metadata query) \/
  (exists kind, parse_query (J:=demo_parser demo_request) [] demo_metadata = Err (EngineError kind) /\ is_validation kind = true).
Proof. apply (parse_query_spec _ demo_names_ok (JL:=demo_parser_laws)). Defined.
