(* ===== verification/Plan.v ===== *)
(** A compiled query (src/query/plan.rs): what a request reads of each table, and
    the relations to follow from its rows. *)
From stdpp Require Import base strings list.
From Stdlib Require Import ZArith.
From S2P Require Import Prelude Predicate RowPredicate.

(** [src/src/query/plan.rs:83-88] RelationKind. *)
Inductive PlanRelationKind := Join | JoinChildren | JoinParents.

#[export] Instance plan_relation_kind_eq_dec : EqDecision PlanRelationKind.
Proof. solve_decision. Defined.

(** [src/src/query/plan.rs:58-70] RelationPlan. *)
Record RelationPlan := {
  rel_target_table : string;
  rel_kind : PlanRelationKind;
  rel_left_key : list string;
  rel_right_key : list string;
  rel_output_columns : list string;
  rel_source_items : option (list nat);
}.

(** [src/src/query/plan.rs:45-56] TablePlan. *)
Record TablePlan := {
  tp_table : string;
  tp_output_columns : list string;
  tp_predicates : list (RowPredicate predicate);
  tp_relations : list RelationPlan;
}.

(** [src/src/query/plan.rs:29-43] Plan. *)
Record Plan := {
  pl_from_block : Z;
  pl_to_block : option Z;
  pl_include_all_blocks : bool;
  pl_parent_block_hash : option string;
  pl_block_table : string;
  pl_block_output_columns : list string;
  pl_table_plans : list TablePlan;
}.

(** [src/src/query/plan.rs:73-80] RelationPlan::same_join. *)
Definition same_join (self other : RelationPlan) : bool :=
  bool_decide (rel_target_table self = rel_target_table other) &&
  bool_decide (rel_kind self = rel_kind other) &&
  bool_decide (rel_left_key self = rel_left_key other) &&
  bool_decide (rel_right_key self = rel_right_key other) &&
  bool_decide (rel_output_columns self = rel_output_columns other).
