(* ===== verification/Compile.v ===== *)
(** Compiling a request (src/query/plan.rs): a parsed query becomes a [Plan], its
    filters predicates on columns, its relations keys to follow. *)
From stdpp Require Import base strings list gmap.
From Stdlib Require Import ZArith Lia.
From S2P Require Import Prelude Machine ListLib Errors Validated Arrow Catalog Integers Render Names Json Sets Predicate RowPredicate Parse Plan.

#[local] Open Scope Z_scope.

(** [src/src/query/plan.rs:21-24] MAX_BLOOM_VALUES. *)
Definition MAX_BLOOM_VALUES : nat := 10.
(** [src/src/query/plan.rs:26-27] MAX_DISCRIMINATOR_FILTERS. *)
Definition MAX_DISCRIMINATOR_FILTERS : nat := 1.
(** [src/src/sets.rs:23-27] MAX_SET_REFERENCES. *)
Definition MAX_SET_REFERENCES : nat := 64.

(** [Value::as_i64], [Value::is_string], [Value::is_object]. *)
Definition as_i64_value (v : json) : option Z :=
  match v with JNumber (JU64 z) => if z <? 2 ^ 63 then Some z else None | JNumber (JI64 z) => Some z | _ => None end.
Definition is_string_value (v : json) : bool := match v with JString _ => true | _ => false end.
Definition is_object_value (v : json) : bool := match v with JObject _ => true | _ => false end.

(** ** Columns, in the catalog's order *)

(** [src/src/query/plan.rs:289-324] order_columns_by_metadata. *)
Definition order_columns_by_metadata (cols : list string) (table_desc : option TableDescription) : list string :=
  match table_desc with
  | None => cols
  | Some desc =>
      let chosen (names : list string) : list string := filter (fun name => name ∈ cols) names in
      let out := chosen (td_columns desc).*1 ++ chosen (os_virtual_fields (td_output desc)).*1 in
      fold_left (fun out col => if decide (col ∈ out) then out else out ++ [col]) cols out
  end.

(** ** Limits *)

(** [src/src/query/plan.rs:334-350] discriminator_family. *)
Definition discriminator_family (table : TableDescription) : list string :=
  rs_special_filters (request table) ≫= fun e : string * SpecialFilter =>
    match e.2 with Discriminator by_length => e.1 :: by_length.*2 | _ => [] end.

(** [src/src/query/plan.rs:352-393] check_item_limits. *)
Definition check_item_limits (item : QueryItem) (table : TableDescription) : result () :=
  let family := discriminator_family table in
  let discriminators := length (filter (fun f : string * json => f.1 ∈ family) (qi_filters item)) in
  let* _ := ensure (discriminators <=? MAX_DISCRIMINATOR_FILTERS)%nat (EngineError ConflictingFilters) in
  foldM (fun _ (f : string * json) =>
    match assoc f.1 (rs_special_filters (request table)) with
    | Some (Bloom _ _ _) =>
        ensure (default O (length <$> as_array f.2) <=? MAX_BLOOM_VALUES)%nat (EngineError TooManyBloomValues)
    | _ => Ok tt
    end) (qi_filters item) tt.

(** ** References to sets *)

(** [src/src/query/plan.rs:395-402] References. *)
Record References := { re_named : gset string; re_count : nat }.

(** [References::default()]. *)
Definition no_references : References := {| re_named := ∅; re_count := O |}.

(** [src/src/query/plan.rs:405-421] References::add. *)
Definition references_add (self : References) (names : list string) : result References :=
  let count := (re_count self + length names)%nat in
  let* _ := ensure (count <=? MAX_SET_REFERENCES)%nat (EngineError RequestTooLarge) in
  Ok {| re_named := re_named self ∪ list_to_set names; re_count := count |}.

(** [src/src/query/plan.rs:424-429] SetScope. *)
Record SetScope := { ss_sets : list (string * DeclaredSet); ss_selected : list string }.

(** [src/src/query/plan.rs:620-626] list_of. *)
Definition list_of (value : json) : list json := match as_array value with Some values => values | None => [value] end.

(** [src/src/query/plan.rs:L628-653] set_references: an [IndexSet], each name once. *)
Definition set_references (value : json) : result (list string) :=
  foldM (fun names element =>
    match as_object element with
    | None => Ok names
    | Some object =>
        match length object, get_field object "set" ≫= as_str_value with
        | 1%nat, Some name => Ok (if decide (name ∈ names) then names else names ++ [name])
        | _, _ => Err (EngineError InvalidFilterValue)
        end
    end) (list_of value) [].

(** ** Values *)

(** [src/src/query/plan.rs:818-824] is_filter_scalar. *)
Definition is_filter_scalar (value : json) : bool :=
  is_string_value value || bool_decide (is_Some (as_u64_value value)) || bool_decide (is_Some (as_i64_value value)).

(** [src/src/query/plan.rs:826-835] fold_for_column. *)
Definition fold_for_column (s : string) (col_desc : ColumnDescription) : string :=
  if folds_case col_desc then lowercase s else s.

(** [src/src/query/plan.rs:916-922] in_list_of. *)
Definition in_list_of (column : string) (values : array) : option (ColumnPredicate predicate) :=
  if (array_len values =? 0)%nat then None else Some (col_in_list column values).

(** [src/src/query/plan.rs:L937-948] compile_in_list: a list's texts, folded as the column folds. *)
Definition list_texts (values : list json) (col_desc : ColumnDescription) : result (list string) :=
  mapM_ok (fun v => let* s := ok_or (as_str_value v) (EngineError InvalidFilterValue) in Ok (fold_for_column s col_desc)) values.

Section compile.
Context `{D : HexDecoder} `{X : Xxh3}.

(** [src/src/query/plan.rs:837-873] split_binary_in_list. *)
Definition split_binary_in_list (values : list json) : result (list (list Z) * list Z) :=
  foldM (fun '(hex, numbers) v =>
    match as_str_value v with
    | Some s => Ok (hex ++ option_list (parse_hex s), numbers)
    | None =>
        match as_u64_value v, as_i64_value v with
        | Some n, _ | None, Some n => Ok (hex, numbers ++ [n])
        | None, None => Err (EngineError InvalidFilterValue)
        end
    end) values ([], []).

(** [src/src/query/plan.rs:875-914] compile_signed_in_list: over the range of a
    signed type of [bits] bits. *)
Definition compile_signed_in_list (column : string) (values : list json) (bits : Z) : result (option (ColumnPredicate predicate)) :=
  let* _ := ensure (negb (existsb is_string_value values)) (EngineError InvalidFilterValue) in
  let* (_, numbers) := split_binary_in_list values in
  let vals := filter (fun n => - 2 ^ (bits - 1) <= n <= 2 ^ (bits - 1) - 1) numbers in
  Ok (in_list_of column (AInt Int64 vals None)).

(** [src/src/query/plan.rs:L955-1002] compile_in_list: an unsigned type, whose hex
    values are its bytes, most significant first. *)
Definition compile_unsigned_in_list (column : string) (values : list json) (t : int_type) : result (option (ColumnPredicate predicate)) :=
  let* (hex, numbers) := split_binary_in_list values in
  let width := Z.to_nat (int_bits t / 8) in
  let vals := (from_be_bytes <$> filter (fun b : list Z => length b = width) hex) ++ filter (fun n => 0 <= n < 2 ^ int_bits t) numbers in
  Ok (in_list_of column (AInt t vals None)).

(** [FixedSizeBinaryBuilder] of the size as an [i32]: it asserts that the width is not
    negative, and refuses a value of another. *)
Definition fixed_binary_array (size : Z) (values : list (list Z)) : result array :=
  let width := as_signed 32 size in
  if width <? 0 then Panic else
  let* _ := ensure (forallb (fun v : list Z => Z.of_nat (length v) =? width) values) OtherError in
  Ok (AFixed width values None).

(** [src/src/query/plan.rs:924-1082] compile_in_list. *)
Definition compile_in_list (column : string) (values : list json) (col_desc : ColumnDescription) : result (option (ColumnPredicate predicate)) :=
  match cd_data_type col_desc with
  | CtString =>
      let* vals := list_texts values col_desc in
      Ok (in_list_of column (AText Utf8 vals None))
  | CtUInt8 => compile_unsigned_in_list column values UInt8
  | CtUInt16 => compile_unsigned_in_list column values UInt16
  | CtUInt32 => compile_unsigned_in_list column values UInt32
  | CtUInt64 => compile_unsigned_in_list column values UInt64
  | CtInt16 => compile_signed_in_list column values 16
  | CtInt32 => compile_signed_in_list column values 32
  | CtInt64 => compile_signed_in_list column values 64
  | CtFixedBinary size =>
      let* (hex, numbers) := split_binary_in_list values in
      let* _ := ensure (bool_decide (numbers = [])) (EngineError InvalidFilterValue) in
      let* vals := fixed_binary_array size (filter (fun b : list Z => Z.of_nat (length b) = size) hex) in
      Ok (in_list_of column vals)
  | CtListUInt32 =>
      let* ns := mapM_ok (fun v => ok_or (as_u64_value v) (EngineError InvalidFilterValue)) values in
      let vals := filter (fun n => n < 2 ^ 32) ns in
      Ok (if bool_decide (vals = []) then None else Some (col_list_contains_any_u32 column vals))
  | CtListString =>
      let* vals := list_texts values col_desc in
      Ok (if bool_decide (vals = []) then None else Some (col_list_contains_any_string column vals))
  | _ => Err (EngineError InvalidFilterValue)
  end.

(** ** Set filters *)

(** [src/src/query/plan.rs:L684-693] compile_set_filter: whether a column renders as the
    text a set's hashes are of. *)
Definition renders_text (col_desc : ColumnDescription) : bool :=
  match cd_encoding col_desc, cd_data_type col_desc with
  | None, CtString => true
  | Some (HexBytes | Base58), (CtString | CtFixedBinary _) => true
  | _, _ => false
  end.

(** [src/src/query/plan.rs:774-816] check_canary. *)
Definition check_canary (canary : string) (set : DeclaredSet) (col_desc : ColumnDescription) : result () :=
  let value := fold_for_column canary col_desc in
  let renderable :=
    match cd_encoding col_desc with
    | Some HexBytes => is_hex_literal value
    | Some Base58 => negb (bool_decide (value = ""%string)) && forallb (fun b => bool_decide (b ∈ BASE58_ALPHABET)) (text_bytes value)
    | _ => true
    end in
  let* _ := ensure renderable (EngineError SetCanaryMismatch) in
  let* held := fuse8_contains (ds_fuse8 set) (text_bytes value) in
  ensure held (EngineError SetCanaryMismatch).

(** [src/src/query/plan.rs:655-772] compile_set_filter. *)
Definition compile_set_filter (key : string) (value : json) (names : list string) (table : TableDescription) (scope : SetScope) :
    result (ColumnPredicate predicate) :=
  let* column_name :=
    match assoc key (rs_special_filters (request table)) with
    | None => Ok key
    | Some (ColumnAlias column) => Ok column
    | Some _ => Err (EngineError InvalidFilterValue)
    end in
  let* col_desc := ok_or (column table column_name) (EngineError UnknownFilter) in
  let* _ := ensure (renders_text col_desc) (EngineError InvalidFilterValue) in
  let values := List.filter (fun element => negb (is_object_value element)) (list_of value) in
  let* listed := match values with [] => Ok None | _ => compile_in_list column_name values col_desc end in
  let* sets := mapM_ok (fun name => ok_or (assoc name (ss_sets scope)) (EngineError UnknownSet)) names in
  let* _ := ensure (existsb (fun field => bool_decide (column_name ∈ field_columns table field)) (ss_selected scope)) (EngineError SetFieldNotSelected) in
  let* _ := foldM (fun _ (set : DeclaredSet) => foldM (fun _ canary => check_canary canary set col_desc) (ds_canaries set) tt) sets tt in
  let in_sets := InSet sets (cd_encoding col_desc) in
  Ok {| cp_column := column_name;
        cp_predicate := match listed with Some listed => AnyOf [cp_predicate listed; in_sets] | None => in_sets end |}.

(** ** Special filters *)

(** [BTreeMap::entry(len).or_default().push(bytes)]: lengths ascend. *)
Fixpoint push_length (len : nat) (bytes : list Z) (l : list (nat * list (list Z))) : list (nat * list (list Z)) :=
  match l with
  | [] => [(len, [bytes])]
  | (n, values) :: l =>
      if (len <? n)%nat then (len, [bytes]) :: (n, values) :: l
      else if (len =? n)%nat then (n, values ++ [bytes]) :: l
      else (n, values) :: push_length len bytes l
  end.

(** [src/src/query/plan.rs:L1111-1133] compile_discriminator: the values by length,
    and whether one is empty. *)
Definition discriminator_value (s : (list (nat * list (list Z))) * bool) (v : json) : result ((list (nat * list (list Z))) * bool) :=
  let '(by_length, matches_every_row) := s in
  let* s := ok_or (as_str_value v) (EngineError InvalidFilterValue) in
  let* bytes := ok_or (parse_hex s) (EngineError InvalidHex) in
  let* _ := ensure (length bytes <=? MAX_DISCRIMINATOR_BYTES)%nat (EngineError DiscriminatorTooLong) in
  match bytes with
  | [] => Ok (by_length, true)
  | _ => Ok (push_length (length bytes) bytes by_length, matches_every_row)
  end.

(** [src/src/query/plan.rs:L1146-1174] compile_discriminator: the array of the values
    of one length. *)
Definition discriminator_array (len : nat) (values : list (list Z)) : array :=
  match len with
  | 1%nat => AInt UInt8 (from_be_bytes <$> values) None
  | 2%nat => AInt UInt16 (from_be_bytes <$> values) None
  | 4%nat => AInt UInt32 (from_be_bytes <$> values) None
  | 8%nat => AInt UInt64 (from_be_bytes <$> values) None
  | _ => AFixed (Z.of_nat len) values None
  end.

(** [src/src/query/plan.rs:1084-1188] compile_discriminator. *)
Definition compile_discriminator (value : json) (cols : list (string * string)) : result (option (list (list (ColumnPredicate predicate)))) :=
  let* arr := ok_or (as_array value) (EngineError InvalidFilterValue) in
  let* (by_length, matches_every_row) := foldM discriminator_value arr ([], false) in
  let* groups := mapM_ok (fun e : nat * list (list Z) =>
    let* col_name := ok_or (assoc (print_usize (Z.of_nat e.1)) cols) (EngineError InvalidFilterValue) in
    Ok [{| cp_column := col_name; cp_predicate := InList (discriminator_array e.1 e.2) |}]) by_length in
  Ok (if matches_every_row : bool then None else Some groups).

(** [src/src/query/plan.rs:1190-1228] compile_bloom_filter. *)
Definition compile_bloom_filter (value : json) (column : string) (num_bytes num_hashes : Z) : result (ColumnPredicate predicate) :=
  let* arr := ok_or (as_array value) (EngineError InvalidFilterValue) in
  let* needles := mapM_ok (fun v => let* s := ok_or (as_str_value v) (EngineError InvalidFilterValue) in Ok (text_bytes s)) arr in
  Ok (if bool_decide (needles = []) then col_never column else col_bloom column needles (Z.to_nat num_bytes) (Z.to_nat num_hashes)).

(** [src/src/query/plan.rs:1230-1298] compile_range_gte and compile_range_lte. *)
Definition compile_range (bound : ScalarValue -> predicate) (value : json) (column_name : string) (table : TableDescription) :
    result (option (ColumnPredicate predicate)) :=
  let* col_desc := ok_or (column table column_name) (EngineError UnknownFilter) in
  let* n := ok_or (as_u64_value value) (EngineError InvalidFilterValue) in
  match cd_data_type col_desc with
  | CtUInt64 => Ok (Some {| cp_column := column_name; cp_predicate := bound (SUInt64 n) |})
  | _ => Err (EngineError InvalidFilterValue)
  end.

(** ** Items *)

(** [src/src/query/plan.rs:326-332] CompiledItem. *)
Inductive CompiledItem := Unsatisfiable | Compiled (r : RowPredicate predicate).

(** What the loop over an item's filters has so far. *)
Record ItemState := {
  is_predicates : list (ColumnPredicate predicate);
  is_groups : option (list (list (ColumnPredicate predicate)));
  is_unsatisfiable : bool;
  is_referred : References;
}.

Definition push_predicate (s : ItemState) (p : ColumnPredicate predicate) : ItemState :=
  {| is_predicates := is_predicates s ++ [p]; is_groups := is_groups s; is_unsatisfiable := is_unsatisfiable s; is_referred := is_referred s |}.
Definition set_unsatisfiable (s : ItemState) : ItemState :=
  {| is_predicates := is_predicates s; is_groups := is_groups s; is_unsatisfiable := true; is_referred := is_referred s |}.

(** [src/src/query/plan.rs:L577-598] compile_item_predicates: a filter on a column, and on
    the column an alias names. *)
Definition compile_column_filter (s : ItemState) (column : string) (value : json) (col_desc : ColumnDescription) : result ItemState :=
  match as_bool_value value, cd_data_type col_desc with
  | Some b, CtBoolean => Ok (push_predicate s (col_eq column (SBoolean b)))
  | _, _ =>
      if is_filter_scalar value || bool_decide (is_Some (as_array value)) then
        let* compiled := compile_in_list column (list_of value) col_desc in
        Ok match compiled with Some p => push_predicate s p | None => set_unsatisfiable s end
      else Err (EngineError InvalidFilterValue)
  end.

(** [value.as_array().is_some_and(|values| values.is_empty())]. *)
Definition is_empty_list (value : json) : bool := match as_array value with Some [] => true | _ => false end.

(** Whether a list is a value of the filter: a flag and a bound take a scalar. *)
Definition takes_value_list (special : option SpecialFilter) : bool :=
  match special with Some (Catalog.RangeGte _ | Catalog.RangeLte _ | GteConst _ _) => false | _ => true end.

(** [src/src/query/plan.rs:L477-563] compile_item_predicates: a special filter. *)
Definition compile_special (s : ItemState) (value : json) (special : SpecialFilter) (table : TableDescription) : result ItemState :=
  match special with
  | Discriminator by_length =>
      let* groups := compile_discriminator value by_length in
      Ok {| is_predicates := is_predicates s; is_groups := groups; is_unsatisfiable := is_unsatisfiable s; is_referred := is_referred s |}
  | Bloom column bytes hashes => let* p := compile_bloom_filter value column bytes hashes in Ok (push_predicate s p)
  | Catalog.RangeGte column =>
      let* p := compile_range RangeGte value column table in Ok match p with Some p => push_predicate s p | None => s end
  | Catalog.RangeLte column =>
      let* p := compile_range RangeLte value column table in Ok match p with Some p => push_predicate s p | None => s end
  | ColumnAlias column =>
      let* col_desc := ok_or (Catalog.column table column) (EngineError UnknownFilter) in
      compile_column_filter s column value col_desc
  | GteConst column konst =>
      let* enabled := ok_or (as_bool_value value) (EngineError InvalidFilterValue) in
      if enabled : bool then
        let* _ := ok_or (Catalog.column table column) (EngineError UnknownFilter) in
        Ok (push_predicate s {| cp_column := column; cp_predicate := RangeGte (SUtf8 konst) |})
      else Ok s
  end.

(** [src/src/query/plan.rs:L446-599] compile_item_predicates: one filter. *)
Definition compile_filter (table : TableDescription) (scope : SetScope) (s : ItemState) (f : string * json) : result ItemState :=
  let '(key, value) := f in
  let special := assoc key (rs_special_filters (request table)) in
  let* names := set_references value in
  if negb (bool_decide (names = [])) then
    let* referred := references_add (is_referred s) names in
    let* p := compile_set_filter key value names table scope in
    Ok {| is_predicates := is_predicates s ++ [p]; is_groups := is_groups s; is_unsatisfiable := is_unsatisfiable s; is_referred := referred |}
  else if takes_value_list special && is_empty_list value then Ok (set_unsatisfiable s)
  else
    match special with
    | Some special => compile_special s value special table
    | None =>
        let* col_desc := ok_or (column table key) (EngineError UnknownFilter) in
        compile_column_filter s key value col_desc
    end.

(** [src/src/query/plan.rs:L608-615] compile_item_predicates: the predicate of an
    item's column predicates and its groups. *)
Definition item_predicate (col_predicates : list (ColumnPredicate predicate)) (groups : option (list (list (ColumnPredicate predicate)))) :
    RowPredicate predicate :=
  match groups with
  | Some groups =>
      if (1 <? length groups)%nat then with_alternatives col_predicates groups else row_new (col_predicates ++ concat groups)
  | None => row_new col_predicates
  end.

(** [src/src/query/plan.rs:431-618] compile_item_predicates. *)
Definition compile_item_predicates (item : QueryItem) (table : TableDescription) (scope : SetScope) (referred : References) :
    result (CompiledItem * References) :=
  let* _ := check_item_limits item table in
  let* s := foldM (compile_filter table scope) (qi_filters item)
    {| is_predicates := []; is_groups := None; is_unsatisfiable := false; is_referred := referred |} in
  Ok (if is_unsatisfiable s then Unsatisfiable else Compiled (item_predicate (is_predicates s) (is_groups s)), is_referred s).
End compile.

(** ** Plans *)

(** [src/src/query/plan.rs:271-287] relation_def. *)
Definition relation_def (metadata : DatasetDescription) (table_desc : TableDescription) (item : QueryItem) (name : string) : option RelationDef :=
  match qi_alias item with
  | Some alias => alias ← assoc alias (dd_aliases metadata); assoc name (al_relations alias)
  | None => assoc name (rs_relations (request table_desc))
  end.

(** [src/src/query/plan.rs:L199-203] compile: the kind of a relation. *)
Definition plan_kind (kind : RelationKind) : PlanRelationKind :=
  match kind with RkJoin => Join | RkChildren => JoinChildren | RkParents => JoinParents end.

(** [src/src/query/plan.rs:L147-152] compile: a table's selected fields, in the catalog's
    order. *)
Definition selected_columns (query : Query) (table : string) (desc : option TableDescription) : list string :=
  default [] ((fun cols => order_columns_by_metadata cols desc) <$> qu_fields query !! table).

(** [src/src/query/plan.rs:L192-212] compile: the plan of a relation. *)
Definition relation_plan (query : Query) (metadata : DatasetDescription) (rel_def : RelationDef) : RelationPlan := {|
  rel_target_table := rd_table rel_def;
  rel_kind := plan_kind (rd_kind rel_def);
  rel_left_key := effective_left_key rel_def;
  rel_right_key := effective_right_key rel_def;
  rel_output_columns := selected_columns query (rd_table rel_def) (Catalog.table metadata (rd_table rel_def));
  rel_source_items := None;
|}.

(** [BTreeSet::insert]. *)
Fixpoint set_insert (n : nat) (l : list nat) : list nat :=
  match l with
  | [] => [n]
  | m :: l => if (n <? m)%nat then n :: m :: l else if (n =? m)%nat then m :: l else m :: set_insert n l
  end.

(** What the loop over a table's items has so far: [ts_sources] are the items asking
    for each relation. *)
Record TableState := {
  ts_predicates : list (RowPredicate predicate);
  ts_relations : list RelationPlan;
  ts_sources : list (list nat);
  ts_referred : References;
}.

(** The first relation planned that reads the same rows: [position]. *)
Definition planned_at (relations : list RelationPlan) (plan : RelationPlan) : option nat :=
  fst <$> list_find (fun r => same_join r plan = true) relations.

(** [src/src/query/plan.rs:L214-221] compile: two names of one join are one scan. *)
Definition add_relation (s : TableState) (item_index : nat) (plan : RelationPlan) : TableState :=
  match planned_at (ts_relations s) plan with
  | Some at_ =>
      {| ts_predicates := ts_predicates s; ts_relations := ts_relations s;
         ts_sources := alter (set_insert item_index) at_ (ts_sources s); ts_referred := ts_referred s |}
  | None =>
      {| ts_predicates := ts_predicates s; ts_relations := ts_relations s ++ [plan]; ts_sources := ts_sources s ++ [[item_index]];
         ts_referred := ts_referred s |}
  end.

Section plans.
Context `{D : HexDecoder} `{X : Xxh3}.

(** [src/src/query/plan.rs:L171-223] compile: one item of a table. *)
Definition compile_item (query : Query) (metadata : DatasetDescription) (table_desc : TableDescription) (scope : SetScope) (s : TableState) (item : QueryItem) :
    result TableState :=
  let* (compiled, referred) := compile_item_predicates item table_desc scope (ts_referred s) in
  match compiled with
  | Unsatisfiable =>
      Ok {| ts_predicates := ts_predicates s; ts_relations := ts_relations s; ts_sources := ts_sources s; ts_referred := referred |}
  | Compiled item_predicate =>
      let item_index := length (ts_predicates s) in
      let s := {| ts_predicates := ts_predicates s ++ [item_predicate]; ts_relations := ts_relations s; ts_sources := ts_sources s;
                  ts_referred := referred |} in
      foldM (fun s rel_name =>
        let* rel_def := ok_or (relation_def metadata table_desc item rel_name) (EngineError UnknownFilter) in
        Ok (add_relation s item_index (relation_plan query metadata rel_def))) (qi_relations item) s
  end.

(** [src/src/query/plan.rs:L225-230] compile: a relation every item asked for
    follows every row. *)
Definition with_sources (total_items : nat) (r : RelationPlan) (sources : list nat) : RelationPlan := {|
  rel_target_table := rel_target_table r; rel_kind := rel_kind r; rel_left_key := rel_left_key r; rel_right_key := rel_right_key r;
  rel_output_columns := rel_output_columns r;
  rel_source_items := if (length sources =? total_items)%nat then None else Some sources;
|}.

(** [src/src/query/plan.rs:L138-244] compile: one table that has items. *)
Definition compile_table (query : Query) (metadata : DatasetDescription) (s : list TablePlan * References) (e : string * list QueryItem) :
    result (list TablePlan * References) :=
  let '(table_plans, referred) := s in
  let '(table_name, items) := e in
  let* table_desc := ok_or (Catalog.table metadata table_name) (EngineError UnknownTable) in
  let scope := {| ss_sets := qu_sets query; ss_selected := default [] (qu_fields query !! table_name) |} in
  let* s := foldM (compile_item query metadata table_desc scope) items
    {| ts_predicates := []; ts_relations := []; ts_sources := []; ts_referred := referred |} in
  let total_items := length (ts_predicates s) in
  if (total_items =? 0)%nat then Ok (table_plans, ts_referred s)
  else
    Ok (table_plans ++ [{| tp_table := table_name; tp_output_columns := selected_columns query table_name (Some table_desc);
                           tp_predicates := ts_predicates s; tp_relations := zip_with (with_sources total_items) (ts_relations s) (ts_sources s) |}],
        ts_referred s).

(** [src/src/query/plan.rs:L132-136] compile: [Option<usize>]'s order, then the name's; a
    table the catalog lacks comes first. *)
Definition catalog_order (metadata : DatasetDescription) (a b : string * list QueryItem) : bool :=
  match index_of_name a.1 (dd_tables metadata), index_of_name b.1 (dd_tables metadata) with
  | None, Some _ => true
  | Some _, None => false
  | Some i, Some j => (i <? j)%nat || (i =? j)%nat && text_le a.1 b.1
  | None, None => text_le a.1 b.1
  end.

(** [src/src/query/plan.rs:L92-101] compile: the block table. *)
Definition plan_block_table (metadata : DatasetDescription) : string :=
  default "blocks"%string (fst <$> head (filter (fun e : string * TableDescription => is_block_table e.2 = true) (dd_tables metadata))).

(** [src/src/query/plan.rs:90-269] compile. *)
Definition compile (query : Query) (metadata : DatasetDescription) : result Plan :=
  let block_table := plan_block_table metadata in
  let block_table_desc := Catalog.table metadata block_table in
  let* _ := ensure (bool_decide (qu_parent_block_hash query = None) ||
    bool_decide (is_Some (block_table_desc ≫= td_parent_hash_column))) (EngineError UnsupportedRequestField) in
  let requested := sort_by (catalog_order metadata) (map_to_list (qu_items query)) in
  let* (table_plans, referred) := foldM (compile_table query metadata) requested ([], no_references) in
  let* _ := ensure (forallb (fun set : string * DeclaredSet => bool_decide (set.1 ∈ re_named referred)) (qu_sets query)) (EngineError InvalidSet) in
  Ok {| pl_from_block := qu_from_block query; pl_to_block := qu_to_block query; pl_include_all_blocks := qu_include_all_blocks query;
        pl_parent_block_hash := qu_parent_block_hash query; pl_block_table := block_table;
        pl_block_output_columns := selected_columns query block_table block_table_desc; pl_table_plans := table_plans |}.
End plans.
