(* ===== verification/CompileSpec.v ===== *)
(** What a compiled request asks (src/query/plan.rs): a filter's predicate passes the
    rows whose values the filter's JSON denotes, at every stored type; an item's, the
    rows all its filters pass. *)
From stdpp Require Import base strings list gmap.
From Stdlib Require Import ZArith Lia.
From S2P Require Import Prelude Machine ListLib Errors Validated Arrow Catalog Integers Counting Render Names Json Sets Predicate PredicateSpec Pruning RowPredicate Parse Plan Compile.

#[local] Open Scope Z_scope.

(** ** Values *)

(** What a filter's JSON value stands for in a column. *)
Inductive operand :=
  | OText (s : string)
  | OInt (signed : bool) (n : Z)
  | OBytes (bytes : list Z)
  | OElement (n : Z)
  | OElementText (s : string).

(** Integers of either sign. *)
Definition number_of (v : json) : option Z := match as_u64_value v with Some n => Some n | None => as_i64_value v end.

Section values.
Context {D : HexDecoder} {DL : HexDecoderLaws D}.

Definition hex_of (v : json) : option (list Z) := as_str_value v ≫= parse_hex.

(** An unsigned integer: written as a number, or as its bytes in hex. *)
Definition denotes_unsigned (bits : Z) (v : json) : option operand :=
  match hex_of v with
  | Some bytes => if (Z.of_nat (length bytes) * 8 =? bits) then Some (OInt false (from_be_bytes bytes)) else None
  | None => n ← number_of v; if (0 <=? n) && (n <? 2 ^ bits) then Some (OInt false n) else None
  end.

Definition denotes_signed (bits : Z) (v : json) : option operand :=
  n ← number_of v; if (- 2 ^ (bits - 1) <=? n) && (n <? 2 ^ (bits - 1)) then Some (OInt true n) else None.

(** The value of a column that a filter's value denotes; none when no value of the
    column can equal it. *)
Definition denotes (col_desc : ColumnDescription) (v : json) : option operand :=
  match cd_data_type col_desc with
  | CtString => s ← as_str_value v; Some (OText (fold_for_column s col_desc))
  | CtUInt8 => denotes_unsigned 8 v
  | CtUInt16 => denotes_unsigned 16 v
  | CtUInt32 => denotes_unsigned 32 v
  | CtUInt64 => denotes_unsigned 64 v
  | CtInt16 => denotes_signed 16 v
  | CtInt32 => denotes_signed 32 v
  | CtInt64 => denotes_signed 64 v
  | CtFixedBinary size => bytes ← hex_of v; if Z.of_nat (length bytes) =? size then Some (OBytes bytes) else None
  | CtListUInt32 => n ← as_u64_value v; if n <? 2 ^ 32 then Some (OElement n) else None
  | CtListString => s ← as_str_value v; Some (OElementText (fold_for_column s col_desc))
  | _ => None
  end.

(** A stored value is the one denoted: an integer as the catalog declares it, whatever
    width and signedness it is stored at. *)
Definition holds (x : operand) (dt : data_type) (c : cell) : Prop :=
  match x with
  | OText s => c = CText s
  | OInt signed n => match value_type dt, c with DInt t, CInt z => declared_value z (int_bits t) signed = n | _, _ => False end
  | OBytes bytes => c = CBytes bytes
  | OElement n => exists l, c = CList l /\ CInt n ∈ l
  | OElementText s => exists l, c = CList l /\ CText s ∈ l
  end.

Definition operands (col_desc : ColumnDescription) (values : list json) : list operand := omap (denotes col_desc) values.

Definition operand_holds (xs : list operand) (dt : data_type) (c : cell) : Prop := Exists (fun x => holds x dt c) xs.

(** ** Lists *)

(** A list's predicate, if some value of it denotes one of the column. *)
Definition list_compiled `{X : Xxh3} `{H : HexKernel} (column : string) (xs : list operand) (p : option (ColumnPredicate predicate)) : Prop :=
  match p with
  | None => xs = []
  | Some p => cp_column p = column /\ pred_ok (cp_predicate p) /\ xs <> [] /\
      forall dt c, admits (cp_predicate p) dt c <-> operand_holds xs dt c
  end.

(** Texts, integers and byte strings a list may hold. *)
Lemma split_binary_spec values : 
  validated (fun r => r = (omap hex_of values, omap number_of values) /\ Forall (fun v => is_Some (as_str_value v) \/ is_Some (number_of v)) values)
    (split_binary_in_list values).
Proof.
  unfold split_binary_in_list.
  assert (H : forall hex numbers, validated (fun r => r = (hex ++ omap hex_of values, numbers ++ omap number_of values) /\
      Forall (fun v => is_Some (as_str_value v) \/ is_Some (number_of v)) values)
    (foldM (fun '(hex, numbers) v =>
      match as_str_value v with
      | Some s => Ok (hex ++ option_list (parse_hex s), numbers)
      | None => match as_u64_value v, as_i64_value v with Some n, _ | None, Some n => Ok (hex, numbers ++ [n]) | None, None => Err (EngineError InvalidFilterValue) end
      end) values (hex, numbers))); [|apply (H [] [])].
  induction values as [|v values IH]; intros hex numbers; [cbn; by rewrite !app_nil_r|]. cbn [foldM omap list_omap].
  destruct (as_str_value v) as [s|] eqn:Es; cbn [obind].
  - assert (En : number_of v = None) by by destruct v. eapply validated_weaken; [apply IH|]. intros r [-> Hall]. split; [|constructor; [left; by eexists|done]].
    unfold hex_of. rewrite Es, En. cbn. destruct (parse_hex s); cbn; by rewrite <- ?app_assoc, ?app_nil_r.
  - assert (Eh : hex_of v = None) by (unfold hex_of; by rewrite Es). rewrite Eh.
    assert (Hn : match as_u64_value v, as_i64_value v with Some n, _ | None, Some n => number_of v = Some n | None, None => number_of v = None end).
    { unfold number_of. by destruct (as_u64_value v), (as_i64_value v). }
    destruct (as_u64_value v) as [n|], (as_i64_value v) as [m|]; try done; rewrite Hn; cbn [obind];
      (eapply validated_weaken; [apply IH|]; intros r [-> Hall]; split; [by rewrite <- app_assoc|constructor; [right; by eexists|done]]).
Qed.

Lemma in_list_compiled `{X : Xxh3} `{H : HexKernel} column values xs :
  array_ok values -> (Z.of_nat (array_len values) < 2 ^ 32) -> (array_len values = 0%nat <-> xs = []) ->
  (forall dt c, list_admits values (value_type dt) c <-> operand_holds xs dt c) ->
  list_compiled column xs (in_list_of column values).
Proof.
  intros Hok Hlen Hnil Hadm. unfold in_list_of. destruct (Nat.eqb_spec (array_len values) 0) as [E|Hne]; [by apply Hnil|].
  split; [done|]. split; [by split|]. split; [by rewrite <- Hnil|]. exact Hadm.
Qed.

Lemma Exists_omap {A B} (f : A -> option B) (P : B -> Prop) l : Exists P (omap f l) <-> Exists (fun a => exists b, f a = Some b /\ P b) l.
Proof.
  rewrite !Exists_exists. setoid_rewrite list_elem_of_omap. split.
  - intros (b & (a & Ha & E) & Hb). exists a. split; [done|]. by exists b.
  - intros (a & Ha & b & E & Hb). exists b. split; [|done]. by exists a.
Qed.

Lemma int_list_compiled `{X : Xxh3} `{H : HexKernel} column t vals xs :
  Forall (in_int_type t) vals -> Z.of_nat (length vals) < 2 ^ 32 -> (forall x, x ∈ xs <-> exists n, n ∈ vals /\ x = OInt (int_signed t) n) ->
  list_compiled column xs (in_list_of column (AInt t vals None)).
Proof.
  intros Hvals Hlen Hxs. apply in_list_compiled; [by split|done|..]; cbn [array_len].
  - split; intros E.
    + apply elem_of_nil_inv. intros x (n & Hn & _)%Hxs. apply length_zero_iff_nil in E. subst vals. by apply not_elem_of_nil in Hn.
    + destruct vals as [|n vals]; [done|]. exfalso. apply (not_elem_of_nil (OInt (int_signed t) n)). rewrite <- E. apply Hxs. exists n. split; [by left|done].
  - intros dt c. unfold operand_holds. rewrite Exists_exists. cbn [list_admits]. unfold IntValues_from_array; cbn [IntColumn_resolve ic_type ic_values].
    rewrite Forall_forall in Hvals.
    assert (Hid : forall n, n ∈ vals -> (if int_signed t then as_i64 n else as_u64 n) = n).
    { intros n Hn. specialize (Hvals n Hn). unfold in_int_type in Hvals. destruct t; cbn in Hvals |- *;
        first [apply as_signed_id; lia|apply as_unsigned_id; lia]. }
    unfold ints_admit. setoid_rewrite Hxs. split.
    + destruct (value_type dt) eqn:Et; try done; destruct c as [|z| | | |]; try (by destruct (int_signed t)).
      intros Hin. assert (Hin' : declared_value z (int_bits t0) (int_signed t) ∈ vals).
      { destruct (int_signed t); apply list_elem_of_fmap in Hin as (n & E & Hn); specialize (Hid n Hn); cbn beta iota in Hid; cbn [values_signed] in E; by rewrite E, Hid. }
      eexists. split; [by eexists|]. cbn [holds]. by rewrite Et.
    + intros (x & (n & Hn & ->) & Hh). cbn [holds] in Hh. destruct (value_type dt); try done. destruct c as [|z| | | |]; try done.
      destruct (int_signed t); cbn [values_list values_signed]; apply list_elem_of_fmap; exists n; (split; [|done]); specialize (Hid n Hn); cbn beta iota in Hid; by rewrite Hid.
Qed.

Lemma hex_or_number v : hex_of v = None \/ number_of v = None.
Proof. destruct v as [| |n|s| |]; auto. Qed.

Lemma split_length values : (length (omap hex_of values) + length (omap number_of values) <= length values)%nat.
Proof.
  induction values as [|v values IH]; [done|]. cbn. destruct (hex_or_number v) as [-> | ->]; [destruct (number_of v)|destruct (hex_of v)]; cbn; lia.
Qed.

Lemma hex_range v bytes : hex_of v = Some bytes -> 0 <= from_be_bytes bytes < 2 ^ (Z.of_nat (length bytes) * 8).
Proof.
  unfold hex_of. intros H. apply bind_Some in H as (s & _ & H). apply parse_hex_bytes in H.
  unfold from_be_bytes. pose proof (from_le_bytes_range (rev bytes)) as R. rewrite length_rev in R.
  replace (2 ^ (Z.of_nat (length bytes) * 8)) with (256 ^ Z.of_nat (length bytes)) by (rewrite Z.mul_comm, Z.pow_mul_r by lia; done).
  apply R. by apply Forall_rev.
Qed.

Lemma unsigned_compiled `{X : Xxh3} `{H : HexKernel} column values t : int_signed t = false -> Z.of_nat (length values) < 2 ^ 32 ->
  validated (list_compiled column (omap (denotes_unsigned (int_bits t)) values)) (compile_unsigned_in_list column values t).
Proof.
  intros Ht Hlen. unfold compile_unsigned_in_list. eapply validated_bind; [apply split_binary_spec|]. intros [hex numbers] [[= -> ->] _].
  assert (Hq : int_bits t / 8 * 8 = int_bits t /\ 0 <= int_bits t / 8) by (by destruct t).
  assert (Hw : forall bytes : list Z, length bytes = Z.to_nat (int_bits t / 8) <-> Z.of_nat (length bytes) * 8 = int_bits t).
  { intros bytes. revert Hq. generalize (int_bits t / 8). lia. }
  apply int_list_compiled.
  - unfold in_int_type. rewrite Ht. apply Forall_app. split.
    + apply Forall_fmap, Forall_forall. intros bytes [Hb (v & _ & Hv)%list_elem_of_omap]%list_elem_of_filter. cbn. apply Hw in Hb. rewrite <- Hb. by apply hex_range in Hv.
    + apply Forall_forall. by intros n [? _]%list_elem_of_filter.
  - pose proof (split_length values). rewrite length_app, length_fmap.
    pose proof (length_filter (fun b : list Z => length b = Z.to_nat (int_bits t / 8)) (omap hex_of values)).
    pose proof (length_filter (fun n => 0 <= n < 2 ^ int_bits t) (omap number_of values)). lia.
  - intros x. rewrite Ht, list_elem_of_omap. setoid_rewrite elem_of_app. setoid_rewrite list_elem_of_fmap. setoid_rewrite list_elem_of_filter.
    setoid_rewrite list_elem_of_omap. unfold denotes_unsigned. split.
    + intros (v & Hv & E). destruct (hex_of v) as [bytes|] eqn:Eh.
      * destruct (Z.eqb_spec (Z.of_nat (length bytes) * 8) (int_bits t)) as [El|]; [|done]. injection E as <-. eexists. split; [|done]. left.
        exists bytes. split; [done|]. split; [by apply Hw|]. by exists v.
      * apply bind_Some in E as (n & En & E). destruct (_ && _) eqn:Er; [|done]. injection E as <-. exists n. split; [|done]. right. split; [lia|]. by exists v.
    + intros (n & [(bytes & -> & Hb & v & Hv & Eh)|(Hn & v & Hv & En)] & ->); exists v; (split; [done|]).
      * rewrite Eh. apply Hw in Hb. by rewrite Hb, Z.eqb_refl.
      * destruct (hex_or_number v) as [-> | E]; [|congruence]. rewrite En. cbn. assert ((0 <=? n) && (n <? 2 ^ int_bits t) = true) as -> by lia. done.
Qed.

Lemma signed_compiled `{X : Xxh3} `{H : HexKernel} column values bits : 0 < bits <= 64 -> Z.of_nat (length values) < 2 ^ 32 ->
  validated (list_compiled column (omap (denotes_signed bits) values)) (compile_signed_in_list column values bits).
Proof.
  intros Hbits Hlen. unfold compile_signed_in_list. vstep as u Hstr. eapply validated_bind; [apply split_binary_spec|]. intros [hex numbers] [[= -> ->] _].
  assert (Hp : 2 ^ (bits - 1) <= 2 ^ 63) by (apply Z.pow_le_mono_r; lia).
  apply int_list_compiled.
  - apply Forall_forall. intros n [Hn _]%list_elem_of_filter. cbn. lia.
  - pose proof (split_length values). pose proof (length_filter (fun n => - 2 ^ (bits - 1) <= n <= 2 ^ (bits - 1) - 1) (omap number_of values)). lia.
  - intros x. rewrite list_elem_of_omap. setoid_rewrite list_elem_of_filter. setoid_rewrite list_elem_of_omap. unfold denotes_signed. cbn [int_signed]. split.
    + intros (v & Hv & E). apply bind_Some in E as (n & En & E). destruct (_ && _) eqn:Er; [|done]. injection E as <-. exists n. split; [|done].
      split; [lia|]. by exists v.
    + intros (n & (Hn & v & Hv & En) & ->). exists v. split; [done|]. rewrite En. cbn. assert ((- 2 ^ (bits - 1) <=? n) && (n <? 2 ^ (bits - 1)) = true) as -> by lia. done.
Qed.

Lemma lowercase_length s : String.length (lowercase s) = String.length s.
Proof. induction s; cbn; congruence. Qed.

Lemma fold_length s col_desc : String.length (fold_for_column s col_desc) = String.length s.
Proof. unfold fold_for_column. destruct (folds_case _); [apply lowercase_length|done]. Qed.

(** A list of texts, folded, each as long as it was. *)
Lemma list_texts_spec values col_desc : Forall json_ok values ->
  validated (fun vals => length vals = length values /\ Forall (fun s => Z.of_nat (String.length s) < 2 ^ 31) vals /\
    forall f : string -> operand, omap (fun v => s ← as_str_value v; Some (f (fold_for_column s col_desc))) values = f <$> vals)
    (list_texts values col_desc).
Proof.
  intros Hok. unfold list_texts. eapply validated_weaken.
  { apply (validated_mapM (fun v s => exists t, as_str_value v = Some t /\ s = fold_for_column t col_desc)).
    intros v _. vstep as t Et. cbn. by exists t. }
  intros vals H2. split; [by rewrite (Forall2_length _ _ _ H2)|]. induction H2 as [|v s values vals (t & Et & ->) H2 IH]; [by split|].
  apply Forall_cons in Hok as [Hv Hok]. destruct (IH Hok) as [Hl He]. split.
  - constructor; [|done]. rewrite fold_length. destruct v; try done. by injection Et as ->.
  - intros f. cbn. rewrite Et. cbn. by rewrite He.
Qed.

Lemma elements_admit u32_set string_set xs l :
  (forall c, c ∈ l -> (match u32_set, c with
      | Some set, CInt z => 0 <= z < 2 ^ 32 /\ z ∈ set
      | None, CText s => exists set, string_set = Some set /\ s ∈ set
      | _, _ => False
      end) <-> Exists (fun x => match x with OElement n => c = CInt n | OElementText s => c = CText s | _ => False end) xs) ->
  Forall (fun x => match x with OElement _ | OElementText _ => True | _ => False end) xs ->
  contains_admits u32_set string_set (CList l) <-> Exists (fun x => match x with OElement n => CInt n ∈ l | OElementText s => CText s ∈ l | _ => False end) xs.
Proof.
  intros Hc Hxs. cbn [contains_admits]. rewrite Exists_exists. rewrite Forall_forall in Hxs. split.
  - intros (c & Hin & H). apply Hc in H; [|done]. apply Exists_exists in H as (x & Hx & E). exists x. split; [done|]. by destruct x; subst.
  - intros (x & Hx & H). specialize (Hxs x Hx). destruct x; try done; eexists; (split; [exact H|]); apply Hc; try done; apply Exists_exists; eexists; (split; [exact Hx|done]).
Qed.

Lemma element_list_compiled `{X : Xxh3} `{H : HexKernel} column xs u32_set string_set : xs <> [] -> (is_Some u32_set \/ is_Some string_set) ->
  Forall (fun x => match x with OElement _ | OElementText _ => True | _ => False end) xs ->
  (forall c, (match u32_set, c with
      | Some set, CInt z => 0 <= z < 2 ^ 32 /\ z ∈ set
      | None, CText s => exists set, string_set = Some set /\ s ∈ set
      | _, _ => False
      end) <-> Exists (fun x => match x with OElement n => c = CInt n | OElementText s => c = CText s | _ => False end) xs) ->
  list_compiled column xs (Some {| cp_column := column; cp_predicate := ListContainsAny u32_set string_set |}).
Proof.
  intros Hne Hset Hkind Hc. split; [done|]. split; [done|]. split; [done|]. intros dt c. cbn [cp_predicate admits]. unfold operand_holds.
  destruct c as [| | | | |l]; try (split; [done|]; rewrite Exists_exists; rewrite Forall_forall in Hkind; intros (x & Hx & Hh); specialize (Hkind x Hx);
    destruct x; try done; destruct Hh as (? & ? & _); done).
  rewrite (elements_admit u32_set string_set xs l); [|intros c _; apply Hc|done].
  rewrite !Exists_exists. rewrite Forall_forall in Hkind.
  split; intros (x & Hx & Hh); exists x; (split; [done|]); specialize (Hkind x Hx); destruct x; cbn [holds] in *; naive_solver.
Qed.

(** [compile_in_list] on a column the catalog may declare. *)
Definition column_ok (col_desc : ColumnDescription) : Prop :=
  match cd_data_type col_desc with CtFixedBinary size => 0 <= size < 2 ^ 31 | _ => True end.

Lemma compile_in_list_ok `{X : Xxh3} `{H : HexKernel} column values col_desc :
  column_ok col_desc -> Forall json_ok values -> Z.of_nat (length values) < 2 ^ 32 ->
  validated (list_compiled column (operands col_desc values)) (compile_in_list column values col_desc).
Proof.
  intros Hcol Hok Hlen. unfold compile_in_list, operands, denotes. unfold column_ok in Hcol.
  destruct (cd_data_type col_desc) as [| | | | | | | | | | | | | | | | | |size]; try done.
  all: try by apply (unsigned_compiled column values UInt8).
  all: try by apply (unsigned_compiled column values UInt16).
  all: try by apply (unsigned_compiled column values UInt32).
  all: try by apply (unsigned_compiled column values UInt64).
  all: try by apply (signed_compiled column values 16).
  all: try by apply (signed_compiled column values 32).
  all: try by apply (signed_compiled column values 64).
  - eapply validated_bind; [by apply list_texts_spec|]. intros vals (El & Hl & He). rewrite He. cbn. apply in_list_compiled; cbn [array_len].
    + by split.
    + lia.
    + by destruct vals.
    + intros dt c. unfold operand_holds. rewrite Exists_fmap, Exists_exists. cbn. split.
      * destruct c; try done. intros Hin. by eexists.
      * by intros (s & Hs & ->).
  - eapply validated_bind; [apply (validated_mapM (fun v n => as_u64_value v = Some n)); intros v _; by apply validated_ok_or|].
    intros ns H2. assert (Hxs : omap (fun v => n ← as_u64_value v; if n <? 2 ^ 32 then Some (OElement n) else None) values = OElement <$> filter (fun n => n < 2 ^ 32) ns /\ Forall (fun n => 0 <= n) ns).
    { clear Hlen. induction H2 as [|v n values ns E H2 IH]; [by split|]. apply Forall_cons in Hok as [Hv Hok]. destruct (IH Hok) as [IH1 IH2]. split.
      - cbn [omap list_omap]. rewrite E. cbn [mbind option_bind]. rewrite filter_cons. destruct (Z.ltb_spec n (2 ^ 32)); [rewrite decide_True by done|rewrite decide_False by lia]; cbn [omap list_omap]; by rewrite IH1.
      - constructor; [|done]. destruct v as [| |[]| | |]; try done. injection E as ->. cbn in Hv. lia. }
    destruct Hxs as [-> Hpos]. cbn. case_bool_decide as Enil; [by rewrite Enil|]. apply element_list_compiled.
    + by destruct (filter _ ns).
    + left. by eexists.
    + apply Forall_fmap, Forall_true. done.
    + intros c. rewrite Exists_fmap, Exists_exists. destruct c as [|z| | | |]; try (split; [done|]; by intros (n & _ & ?)).
      setoid_rewrite elem_of_list_to_set. split.
      * intros [Hr Hin]. by exists z.
      * intros (n & Hin & [= ->]). split; [|done]. apply list_elem_of_filter in Hin as [Hn Hin]. rewrite Forall_forall in Hpos. specialize (Hpos n Hin). lia.
  - eapply validated_bind; [by apply list_texts_spec|]. intros vals (El & Hl & He). rewrite He. cbn. case_bool_decide as Enil; [by rewrite Enil|].
    apply element_list_compiled.
    + by destruct vals.
    + right. by eexists.
    + apply Forall_fmap, Forall_true. done.
    + intros c. rewrite Exists_fmap, Exists_exists. destruct c as [| |s| | |]; try (split; [done|]; by intros (n & _ & ?)). split.
      * intros (set & [= <-] & Hin). apply elem_of_list_to_set in Hin. by exists s.
      * intros (t & Hin & [= ->]). eexists. split; [done|]. by apply elem_of_list_to_set.
  - eapply validated_bind; [apply split_binary_spec|]. intros [hex numbers] [[= -> ->] _]. vstep as u Hn. apply bool_decide_eq_true in Hn.
    assert (Hsz : as_signed 32 size = size) by (apply as_signed_id; lia). unfold fixed_binary_array. rewrite Hsz.
    destruct (Z.ltb_spec size 0); [lia|]. set (vals := filter (fun b : list Z => Z.of_nat (length b) = size) (omap hex_of values)).
    assert (Hvals : Forall (fun v => Z.of_nat (length v) = size) vals) by (apply Forall_forall; by intros v [? _]%list_elem_of_filter).
    assert (Hall : forallb (fun v : list Z => Z.of_nat (length v) =? size) vals = true).
    { apply forallb_forall. intros v Hv%list_elem_of_In. rewrite Forall_forall in Hvals. by apply Z.eqb_eq, Hvals. }
    rewrite Hall. cbn [ensure obind].
    assert (Hxs : omap (fun v => bytes ← hex_of v; if Z.of_nat (length bytes) =? size then Some (OBytes bytes) else None) values = OBytes <$> vals).
    { subst vals. clear. induction values as [|v values IH]; [done|]. cbn [omap list_omap]. destruct (hex_of v) as [bytes|]; cbn [mbind option_bind]; [|done].
      rewrite filter_cons. destruct (Z.eqb_spec (Z.of_nat (length bytes)) size); [rewrite decide_True by done|rewrite decide_False by done]; by rewrite IH. }
    rewrite Hxs. cbn. apply in_list_compiled; cbn [array_len].
    + by split.
    + pose proof (split_length values). pose proof (length_filter (fun b : list Z => Z.of_nat (length b) = size) (omap hex_of values)). subst vals. lia.
    + by destruct vals.
    + intros dt c. unfold operand_holds. rewrite Exists_fmap, Exists_exists. cbn. split.
      * destruct c; try done. intros Hin. by eexists.
      * by intros (s & Hs & ->).
Qed.
End values.
