(* ===== verification/ItemSpec.v ===== *)
(** What a compiled item selects (src/query/plan.rs): exactly the rows that pass each
    of its filters; and an item found unsatisfiable, none. *)
From stdpp Require Import base strings list gmap.
From Stdlib Require Import ZArith Lia.
From S2P Require Import Prelude Machine ListLib Errors Validated Arrow ArrowReference Catalog Integers Counting Render Names Json Sets Predicate PredicateSpec Pruning RowPredicate Parse Plan Compile CompileSpec.

#[local] Open Scope Z_scope.

(** ** What a filter passes *)

Section passes.
Context {K : ArrowKernels} {L : ArrowLaws K} {X : Xxh3} {XL : Xxh3Laws X} {H : HexKernel} {D : HexDecoder} {DL : HexDecoderLaws D}.
Context (table : TableDescription) (scope : SetScope) (batch : RecordBatch) (i : nat).

(** A row's value of a column is as [P] says; a column the batch does not have says
    nothing of the row. *)
Definition col_passes (column : string) (P : data_type -> cell -> Prop) : Prop :=
  match column_by_name batch column with None => True | Some a => P (array_type a) (cell_at a i) end.

(** A value of the list denotes the row's. *)
Definition list_passes (column : string) (col_desc : ColumnDescription) (value : json) : Prop :=
  Exists (fun x => col_passes column (holds x)) (operands col_desc (list_of value)).

Definition column_passes (column : string) (col_desc : ColumnDescription) (value : json) : Prop :=
  match as_bool_value value, cd_data_type col_desc with
  | Some b, CtBoolean => col_passes column (fun dt c => scalar_admits (SBoolean b) (value_type dt) c)
  | _, _ => list_passes column col_desc value
  end.

(** Bytes of one, two, four or eight are stored as an integer. *)
Definition discriminator_operand (bytes : list Z) : operand :=
  match length bytes with
  | 1%nat | 2%nat | 4%nat | 8%nat => OInt false (from_be_bytes bytes)
  | _ => OBytes bytes
  end.

(** The row starts with one of the prefixes: with any, when one of them is empty. *)
Definition discriminator_passes (by_length : list (string * string)) (value : json) : Prop :=
  Exists (fun v => exists bytes, hex_of v = Some bytes /\
    (bytes = [] \/ exists column, assoc (print_usize (Z.of_nat (length bytes))) by_length = Some column /\
       col_passes column (holds (discriminator_operand bytes)))) (list_of value).

Definition bloom_passes (column : string) (hashes : Z) (value : json) : Prop :=
  Exists (fun v => exists s, as_str_value v = Some s /\ col_passes column (fun _ c => bloom_admits [text_bytes s] (Z.to_nat hashes) c)) (list_of value).

Definition bound_passes (column : string) (gte : bool) (value : json) : Prop :=
  exists n, as_u64_value value = Some n /\ col_passes column (fun dt c => threshold_admits (SUInt64 n) gte (value_type dt) c).

Definition flag_passes (column konst : string) (value : json) : Prop :=
  as_bool_value value = Some true -> col_passes column (fun dt c => threshold_admits (SUtf8 konst) true (value_type dt) c).

Definition special_passes (special : SpecialFilter) (value : json) : Prop :=
  match special with
  | Discriminator by_length => discriminator_passes by_length value
  | Bloom column _ hashes => bloom_passes column hashes value
  | Catalog.RangeGte column => bound_passes column true value
  | Catalog.RangeLte column => bound_passes column false value
  | ColumnAlias column => exists col_desc, Catalog.column table column = Some col_desc /\ column_passes column col_desc value
  | GteConst column konst => flag_passes column konst value
  end.

(** The column a list of values filters. *)
Definition list_column (key : string) : option string :=
  match assoc key (rs_special_filters (request table)) with
  | None => Some key
  | Some (ColumnAlias column) => Some column
  | Some _ => None
  end.

(** The row's value is in the list, or in a set the list names. *)
Definition sets_pass (key : string) (names : list string) (value : json) : Prop :=
  exists column col_desc, list_column key = Some column /\ Catalog.column table column = Some col_desc /\
    col_passes column (fun dt c => operand_holds (operands col_desc (list_of value)) dt c \/
      exists name set, name ∈ names /\ assoc name (ss_sets scope) = Some set /\ set_admits [set] (cd_encoding col_desc) c).

(** A row passes a filter. *)
Definition filter_passes (f : string * json) : Prop :=
  match set_references f.2 with
  | Ok [] =>
      match assoc f.1 (rs_special_filters (request table)) with
      | Some special => special_passes special f.2
      | None => exists col_desc, Catalog.column table f.1 = Some col_desc /\ column_passes f.1 col_desc f.2
      end
  | Ok names => sets_pass f.1 names f.2
  | _ => False
  end.

(** ** What is compiled so far *)

Definition groups_pass (groups : option (list (list (ColumnPredicate predicate)))) : Prop :=
  match groups with None => True | Some groups => Exists (Forall (cp_admits batch i)) groups end.

Definition state_passes (s : ItemState) : Prop :=
  Forall (cp_admits batch i) (is_predicates s) /\ groups_pass (is_groups s) /\ is_unsatisfiable s = false.

Lemma cp_admits_col p : cp_admits batch i p <-> col_passes (cp_column p) (admits (cp_predicate p)).
Proof. done. Qed.

Lemma col_passes_iff column (P Q : data_type -> cell -> Prop) : (forall dt c, P dt c <-> Q dt c) -> col_passes column P <-> col_passes column Q.
Proof. intros HPQ. unfold col_passes. destruct (column_by_name batch column); [apply HPQ|done]. Qed.

Lemma col_passes_exists {A} column (P : A -> data_type -> cell -> Prop) (l : list A) : l <> [] ->
  col_passes column (fun dt c => Exists (fun x => P x dt c) l) <-> Exists (fun x => col_passes column (P x)) l.
Proof.
  intros Hne. unfold col_passes. destruct (column_by_name batch column); [done|]. split; [|done]. intros _.
  destruct l; [done|]. by constructor.
Qed.

Lemma push_passes s p : state_passes (push_predicate s p) <-> state_passes s /\ cp_admits batch i p.
Proof. unfold state_passes, push_predicate; cbn. rewrite Forall_app, Forall_singleton. tauto. Qed.

Lemma unsatisfiable_passes s : ~ state_passes (set_unsatisfiable s).
Proof. by intros (_ & _ & ?). Qed.

(** A list's predicate passes the rows its values denote. *)
Lemma list_compiled_passes column col_desc value p :
  list_compiled column (operands col_desc (list_of value)) (Some p) -> cp_admits batch i p <-> list_passes column col_desc value.
Proof.
  intros (Ec & _ & Hne & Hadm). rewrite cp_admits_col, Ec. rewrite (col_passes_iff column _ _ Hadm). by apply col_passes_exists.
Qed.

Lemma list_compiled_none column col_desc value : list_compiled column (operands col_desc (list_of value)) None -> ~ list_passes column col_desc value.
Proof. unfold list_passes. cbn [list_compiled]. intros E. rewrite E. by intros ?%Exists_nil. Qed.
End passes.

(** ** Compiling a filter *)

(** A list as a request, or an alias, may hold one. *)
Definition value_ok (value : json) : Prop := json_ok value /\ Z.of_nat (length (list_of value)) < 2 ^ 32.

(** What the compiler relies on of a table: the widths of its columns are widths. *)
Definition table_ok (table : TableDescription) : Prop := forall name col_desc, column table name = Some col_desc -> column_ok col_desc.

Definition scope_ok (scope : SetScope) : Prop := Forall (fun set : string * DeclaredSet => fuse8_sound (ds_fuse8 set.2)) (ss_sets scope).

Section filters.
Context {K : ArrowKernels} {L : ArrowLaws K} {X : Xxh3} {XL : Xxh3Laws X} {H : HexKernel} {D : HexDecoder} {DL : HexDecoderLaws D}.
Context (table : TableDescription) (scope : SetScope) (Htable : table_ok table) (Hscope : scope_ok scope).

Definition state_ok (s : ItemState) : Prop :=
  group_ok (is_predicates s) /\ match is_groups s with None => True | Some groups => groups <> [] /\ Forall group_ok groups end.

(** What compiling a filter does to a state: it goes on to pass the rows that pass the
    filter. *)
Definition narrows (s s' : ItemState) (P : RecordBatch -> nat -> Prop) : Prop :=
  state_ok s' /\ is_groups s' = is_groups s /\ forall batch i, state_passes batch i s' <-> state_passes batch i s /\ P batch i.

Lemma push_narrows s p (P : RecordBatch -> nat -> Prop) : state_ok s -> pred_ok (cp_predicate p) ->
  (forall batch i, cp_admits batch i p <-> P batch i) -> narrows s (push_predicate s p) P.
Proof.
  intros [Hp Hg] Hok Hadm. split; [|split; [done|]].
  - split; [|done]. cbn. apply Forall_app. split; [done|]. by constructor.
  - intros batch i. by rewrite push_passes, Hadm.
Qed.

Lemma unsatisfiable_narrows s (P : RecordBatch -> nat -> Prop) : state_ok s -> (forall batch i, ~ P batch i) -> narrows s (set_unsatisfiable s) P.
Proof.
  intros Hok Hno. split; [done|]. split; [done|]. intros batch i. split; [by intros ?%unsatisfiable_passes|]. intros [_ HP]. by apply Hno in HP.
Qed.

Lemma list_of_ok value : value_ok value -> Forall json_ok (list_of value).
Proof.
  intros [Hok _]. unfold list_of. destruct value as [| | | |items|]; cbn [as_array]; try by repeat constructor. by apply json_ok_array.
Qed.

Lemma compile_column_filter_ok s column col_desc value : state_ok s -> column_ok col_desc -> value_ok value ->
  validated (fun s' => narrows s s' (fun batch i => column_passes batch i column col_desc value)) (compile_column_filter s column value col_desc).
Proof.
  intros Hs Hcol Hval. unfold compile_column_filter, column_passes.
  assert (Hlist : validated (fun s' => narrows s s' (fun batch i => list_passes batch i column col_desc value))
    (if is_filter_scalar value || bool_decide (is_Some (as_array value)) then
       let* compiled := compile_in_list column (list_of value) col_desc in
       Ok match compiled with Some p => push_predicate s p | None => set_unsatisfiable s end
     else Err (EngineError InvalidFilterValue))).
  { destruct (_ || _); [|done]. eapply validated_bind; [by apply compile_in_list_ok; [|apply list_of_ok|apply Hval]|]. intros [p|] Hp; cbn.
    - apply push_narrows; [done|by apply Hp|]. intros batch i. by apply list_compiled_passes.
    - apply unsatisfiable_narrows; [done|]. intros batch i. by apply list_compiled_none. }
  destruct (as_bool_value value) as [b|]; [|done]. destruct (cd_data_type col_desc); try done. cbn. by apply push_narrows.
Qed.

Lemma compile_range_ok s bound gte column value : state_ok s -> json_ok value ->
  (forall v dt c, admits (bound v) dt c <-> threshold_admits v gte (value_type dt) c) -> (forall n, is_u64 n -> pred_ok (bound (SUInt64 n))) ->
  validated (fun s' => narrows s s' (fun batch i => bound_passes batch i column gte value))
    (let* p := compile_range bound value column table in Ok match p with Some p => push_predicate s p | None => s end).
Proof.
  intros Hs Hval Hadm Hok. unfold compile_range. destruct (Catalog.column table column) as [col_desc|]; [|done]. cbn [ok_or obind].
  destruct (as_u64_value value) as [n|] eqn:En; [|done]. cbn [ok_or obind].
  assert (Hn : is_u64 n) by (destruct value as [| |[]| | |]; try done; injection En as ->; exact Hval).
  destruct (cd_data_type col_desc); try done. cbn. apply push_narrows; [done|by apply Hok|]. intros batch i. rewrite cp_admits_col. cbn [cp_column cp_predicate].
  unfold bound_passes. rewrite En. rewrite (col_passes_iff batch i column _ _ (Hadm (SUInt64 n))). split; [intros Hc; by exists n|]. by intros (? & [= <-] & ?).
Qed.

Lemma bloom_one needles hashes c : bloom_admits needles hashes c <-> Exists (fun needle => bloom_admits [needle] hashes c) needles.
Proof.
  rewrite Exists_exists. unfold bloom_admits. destruct c; try (split; [done|by intros (? & _ & ?)]). setoid_rewrite list_elem_of_singleton. split.
  - intros (Hne & needle & Hin & Hm). exists needle. split; [done|]. split; [done|]. by exists needle.
  - intros (needle & Hin & Hne & n & -> & Hm). split; [done|]. by exists needle.
Qed.

Lemma compile_bloom_ok s column bytes hashes value : state_ok s -> is_empty_list value = false ->
  validated (fun s' => narrows s s' (fun batch i => bloom_passes batch i column hashes value))
    (let* p := compile_bloom_filter value column bytes hashes in Ok (push_predicate s p)).
Proof.
  intros Hs Hne. unfold compile_bloom_filter. destruct value as [| | | |items|]; try done. cbn [as_array ok_or obind].
  assert (Hmap : validated (Forall2 (fun v needle => exists s, as_str_value v = Some s /\ needle = text_bytes s) items)
    (mapM_ok (fun v => let* s := ok_or (as_str_value v) (EngineError InvalidFilterValue) in Ok (text_bytes s)) items)).
  { apply validated_mapM. intros v _. vstep as t Et. cbn. by exists t. }
  destruct (mapM_ok _ items) as [needles|[k| |]|]; try done. cbn [validated obind] in *.
  assert (Hnn : needles <> []) by (destruct Hmap; done). rewrite bool_decide_eq_false_2 by done.
  apply push_narrows; [done|done|]. intros batch i. rewrite cp_admits_col. cbn [cp_column cp_predicate].
  rewrite (col_passes_iff batch i column _ _ (fun dt c => bloom_one needles (Z.to_nat hashes) c)). rewrite col_passes_exists by done.
  unfold bloom_passes, list_of; cbn [as_array]. clear Hnn Hne. induction Hmap as [|v needle items needles (t & Et & ->) Hmap IH]; [by rewrite !Exists_nil|].
  rewrite !Exists_cons, IH, Et. split; (intros [Hc|]; [left|by right]); [by exists t|]. by destruct Hc as (? & [= <-] & ?).
Qed.

(** ** Discriminators *)

(** The values collected by length: each under its own, and nothing else. *)
Definition collected (bytes : list (list Z)) (by_length : list (nat * list (list Z))) : Prop :=
  Forall (fun e : nat * list (list Z) => e.2 <> [] /\ Forall (fun b => length b = e.1) e.2) by_length /\
  (forall b, (exists e, e ∈ by_length /\ b ∈ e.2) <-> b ∈ bytes) /\
  (sum_list ((fun e : nat * list (list Z) => length e.2) <$> by_length) = length bytes)%nat.

Lemma push_length_collected b bytes by_length : collected bytes by_length -> collected (bytes ++ [b]) (push_length (length b) b by_length).
Proof.
  intros (Hall & Hin & Hsum).
  assert (Hpush : Forall (fun e : nat * list (list Z) => e.2 <> [] /\ Forall (fun b => length b = e.1) e.2) (push_length (length b) b by_length) /\
    (forall x, (exists e, e ∈ push_length (length b) b by_length /\ x ∈ e.2) <-> (exists e, e ∈ by_length /\ x ∈ e.2) \/ x = b) /\
    sum_list ((fun e : nat * list (list Z) => length e.2) <$> push_length (length b) b by_length) =
      S (sum_list ((fun e : nat * list (list Z) => length e.2) <$> by_length))).
  { assert (Hsingle : [b] <> [] /\ Forall (fun x : list Z => length x = length b) [b]) by by split; [|constructor].
    assert (Hex : forall (e : nat * list (list Z)) l x, (exists e', e' ∈ e :: l /\ x ∈ e'.2) <-> x ∈ e.2 \/ exists e', e' ∈ l /\ x ∈ e'.2).
    { intros e l x. setoid_rewrite elem_of_cons. naive_solver. }
    clear Hin Hsum. induction by_length as [|[n values] l IH]; cbn [push_length].
    - split; [by constructor|]. split; [|done]. intros x. rewrite Hex. cbn [snd]. rewrite list_elem_of_singleton. tauto.
    - apply Forall_cons in Hall as [[Hne Hlen] Hall]. cbn [fst snd] in *. specialize (IH Hall) as (IH1 & IH2 & IH3).
      destruct (Nat.ltb_spec (length b) n); [|destruct (Nat.eqb_spec (length b) n) as [Eb|]].
      + split; [by repeat constructor|]. split; [|done]. intros x. rewrite (Hex (_, [b])). cbn [snd]. rewrite list_elem_of_singleton. tauto.
      + split; [|split].
        * constructor; [|done]. cbn [fst snd]. split; [by destruct values|]. apply Forall_app. by split; [|constructor].
        * intros x. rewrite !Hex. cbn [snd]. rewrite elem_of_app, list_elem_of_singleton. tauto.
        * rewrite !fmap_cons. cbn [sum_list snd]. rewrite length_app. cbn. lia.
      + split; [by constructor|]. split.
        * intros x. rewrite !Hex. cbn [snd]. rewrite IH2. tauto.
        * rewrite !fmap_cons. cbn [sum_list snd]. rewrite IH3. lia. }
  destruct Hpush as (H1 & H2 & H3). split; [done|]. split.
  - intros x. rewrite H2, Hin, elem_of_app, list_elem_of_singleton. tauto.
  - rewrite H3, Hsum, length_app. cbn. lia.
Qed.

(** What the loop over the values collects: the bytes of those not empty, at most
    sixteen long, and whether one is empty. *)
Definition prefixes (bytes : list (list Z)) (s : list (nat * list (list Z)) * bool) : Prop :=
  collected (filter (fun b => b <> []) bytes) s.1 /\ (s.2 = true <-> [] ∈ bytes) /\ Forall (fun b => (length b <= MAX_DISCRIMINATOR_BYTES)%nat) bytes.

Lemma discriminator_values_ok items : forall bytes s, prefixes bytes s ->
  validated (fun s' => exists more, Forall2 (fun v b => hex_of v = Some b) items more /\ prefixes (bytes ++ more) s') (foldM discriminator_value items s).
Proof.
  induction items as [|v items IH]; intros bytes [by_length any] Hs; cbn [foldM].
  { exists []. split; [done|]. by rewrite app_nil_r. }
  apply (validated_bind (fun s' => exists b, hex_of v = Some b /\ prefixes (bytes ++ [b]) s')).
  - unfold discriminator_value. vstep as t Et. vstep as b Eb. vstep as u Hlen%Nat.leb_le. destruct Hs as (Hc & Hany & Hmax). cbn [fst snd] in *.
    assert (Eh : hex_of v = Some b) by (unfold hex_of; by rewrite Et).
    assert (Hmax' : Forall (fun b => (length b <= MAX_DISCRIMINATOR_BYTES)%nat) (bytes ++ [b])) by (apply Forall_app; by split; [|constructor]).
    destruct b as [|x b']; cbn [validated]; eexists; (split; [exact Eh|]); (split; [|split; [|done]]); cbn [fst snd].
    + rewrite filter_app, filter_cons, decide_False, filter_nil, app_nil_r by auto. done.
    + rewrite elem_of_app, list_elem_of_singleton. by split; [right|].
    + rewrite filter_app, filter_cons, decide_True, filter_nil by done. by apply push_length_collected.
    + rewrite elem_of_app, list_elem_of_singleton, Hany. split; [by left|]. by intros [|].
  - intros s' (b & Eb & Hs'). eapply validated_weaken; [by apply (IH (bytes ++ [b]))|]. intros s'' (more & H2 & Hm).
    exists (b :: more). split; [by constructor|]. by rewrite cons_middle, app_assoc.
Qed.

(** The values of one length, as stored. *)
Lemma discriminator_array_ok len values : (0 < len)%nat -> Forall (fun b : list Z => length b = len /\ Forall (fun x => 0 <= x < 256) b) values ->
  Z.of_nat (length values) < 2 ^ 32 -> let array := discriminator_array len values in
  array_ok array /\ array_len array = length values /\
  forall dt c, list_admits array (value_type dt) c <-> Exists (fun b => holds (discriminator_operand b) dt c) values.
Proof.
  intros Hpos Hvals Hlen array.
  assert (Hint : forall t, len = Z.to_nat (int_bits t / 8) -> int_signed t = false -> int_bits t = Z.of_nat len * 8 ->
    array_ok (AInt t (from_be_bytes <$> values) None) /\ array_len (AInt t (from_be_bytes <$> values) None) = length values /\
    forall dt c, list_admits (AInt t (from_be_bytes <$> values) None) (value_type dt) c <-> Exists (fun b => holds (OInt false (from_be_bytes b)) dt c) values).
  { intros t Hw Hs Hb. assert (Hr : Forall (in_int_type t) (from_be_bytes <$> values)).
    { apply Forall_fmap, Forall_forall. intros b Hin. rewrite Forall_forall in Hvals. destruct (Hvals b Hin) as [El Hx]. cbn. unfold in_int_type. rewrite Hs, Hb.
      unfold from_be_bytes. pose proof (from_le_bytes_range (rev b) ltac:(by apply Forall_rev)) as R. rewrite length_rev, El in R.
      rewrite Z.mul_comm, Z.pow_mul_r by lia. done. }
    assert (Hc : list_compiled "" (OInt false <$> (from_be_bytes <$> values)) (in_list_of "" (AInt t (from_be_bytes <$> values) None))).
    { apply int_list_compiled; [done|by rewrite length_fmap|]. intros x. rewrite list_elem_of_fmap. rewrite Hs. split; [intros (n & -> & Hn); by exists n|intros (n & Hn & ->); by exists n]. }
    split; [by split|]. split; [cbn [array_len]; by rewrite length_fmap|]. intros dt c.
    unfold in_list_of in Hc. cbn [array_len] in Hc. destruct (Nat.eqb_spec (length (from_be_bytes <$> values)) 0) as [E|Hne].
    - destruct values; [|done]. rewrite Exists_nil. cbn. destruct (value_type dt); try (split; [done|done]). destruct c; try done. unfold IntValues_from_array; cbn.
      destruct (int_signed t); cbn; by rewrite elem_of_nil.
    - destruct Hc as (_ & _ & _ & Hadm). cbn [cp_predicate col_in_list admits] in Hadm. rewrite Hadm. unfold operand_holds. by rewrite !Exists_fmap. }
  assert (Hop : forall b, b ∈ values -> discriminator_operand b = match len with 1%nat | 2%nat | 4%nat | 8%nat => OInt false (from_be_bytes b) | _ => OBytes b end).
  { intros b Hb. rewrite Forall_forall in Hvals. destruct (Hvals b Hb) as [El _]. unfold discriminator_operand. by rewrite El. }
  assert (Hex : forall dt c, Exists (fun b => holds (discriminator_operand b) dt c) values <->
    Exists (fun b => holds (match len with 1%nat | 2%nat | 4%nat | 8%nat => OInt false (from_be_bytes b) | _ => OBytes b end) dt c) values).
  { intros dt c. rewrite !Exists_exists. split; intros (b & Hb & Hh); exists b; (split; [done|]); [rewrite <- Hop|rewrite Hop]; done. }
  setoid_rewrite Hex. clear Hex Hop.
  assert (Hfixed : array_ok (AFixed (Z.of_nat len) values None) /\ array_len (AFixed (Z.of_nat len) values None) = length values /\
    forall dt c, list_admits (AFixed (Z.of_nat len) values None) (value_type dt) c <-> Exists (fun b => holds (OBytes b) dt c) values).
  { split; [split; [done|]|split; [done|]].
    - eapply Forall_impl; [exact Hvals|]. cbn. intros b [E _]. lia.
    - intros dt c. rewrite Exists_exists. cbn. split; [destruct c; try done; intros Hin; by eexists|by intros (b & Hb & ->)]. }
  subst array. unfold discriminator_array. destruct len as [|[|[|[|[|[|[|[|[|len]]]]]]]]]; try exact Hfixed.
  - by apply (Hint UInt8).
  - by apply (Hint UInt16).
  - by apply (Hint UInt32).
  - by apply (Hint UInt64).
Qed.

Lemma collected_length bytes by_length e : collected bytes by_length -> e ∈ by_length -> (length e.2 <= length bytes)%nat.
Proof.
  intros (_ & _ & <-) He. induction by_length as [|x l IH]; [by apply not_elem_of_nil in He|]. cbn.
  apply elem_of_cons in He as [->|He]; [lia|]. specialize (IH He). cbn in IH. lia.
Qed.

(** The values of one length pass as the values do, when none is empty. *)
Lemma prefixes_array bytes by_length e : prefixes bytes (by_length, false) -> e ∈ by_length ->
  Forall (Forall (fun x => 0 <= x < 256)) bytes -> Z.of_nat (length bytes) < 2 ^ 32 ->
  pred_ok (InList (discriminator_array e.1 e.2)) /\ e.2 <> [] /\ Forall (fun b => length b = e.1) e.2 /\
  forall dt c, admits (InList (discriminator_array e.1 e.2)) dt c <-> Exists (fun b => holds (discriminator_operand b) dt c) e.2.
Proof.
  intros (Hcol & Hany & _) He Hbytes Hlen. cbn [fst snd] in *. pose proof (collected_length _ _ e Hcol He) as Hl. destruct Hcol as (Hall & Hin & _).
  rewrite Forall_forall in Hall. destruct (Hall e He) as [Hnn Hb]. pose proof (length_filter (fun b : list Z => b <> []) bytes).
  assert (Hmem : forall b, b ∈ e.2 -> b <> [] /\ b ∈ bytes) by
    (intros b Hbe; assert (Hf : b ∈ filter (fun b : list Z => b <> []) bytes) by (apply Hin; by exists e); by apply list_elem_of_filter in Hf).
  destruct (discriminator_array_ok e.1 e.2) as (Hok & Hal & Hadm).
  - destruct e.2 as [|b rest]; [done|]. apply Forall_cons in Hb as [<- _]. destruct (Hmem b ltac:(by left)) as [Hbn _]. destruct b; [done|cbn; lia].
  - apply Forall_forall. intros b Hbe. rewrite Forall_forall in Hb, Hbytes. split; [by apply Hb|]. by apply Hbytes, Hmem.
  - lia.
  - split; [split; [done|rewrite Hal; lia]|]. by split_and!.
Qed.

(** A group for each length passes the rows a value of its length does. *)
Lemma discriminator_groups_ok bytes by_length cols gs : prefixes bytes (by_length, false) -> bytes <> [] ->
  Forall (Forall (fun x => 0 <= x < 256)) bytes -> Z.of_nat (length bytes) < 2 ^ 32 ->
  Forall2 (fun (e : nat * list (list Z)) g => exists col, assoc (print_usize (Z.of_nat e.1)) cols = Some col /\
      g = [{| cp_column := col; cp_predicate := InList (discriminator_array e.1 e.2) |}]) by_length gs ->
  gs <> [] /\ Forall group_ok gs /\ forall batch i, groups_pass batch i (Some gs) <-> Exists (fun b => b = [] \/ exists col,
    assoc (print_usize (Z.of_nat (length b))) cols = Some col /\ col_passes batch i col (holds (discriminator_operand b))) bytes.
Proof.
  intros Hp Hne Hbytes Hlen Hgs. pose proof (fun e He => prefixes_array bytes by_length e Hp He Hbytes Hlen) as Harr.
  destruct Hp as ((_ & Hin & _) & Hany & _). cbn [fst snd] in *.
  assert (Hmore : forall b, b ∈ bytes -> b <> [] /\ exists e, e ∈ by_length /\ b ∈ e.2).
  { intros b Hb. assert (Hbn : b <> []) by (intros ->; by apply Hany in Hb). split; [done|]. apply Hin. by apply list_elem_of_filter. }
  split; [|split].
  - intros ->. apply Forall2_nil_inv_r in Hgs. subst by_length. destruct bytes as [|b bytes]; [done|].
    destruct (Hmore b ltac:(by left)) as (_ & e & He & _). by apply not_elem_of_nil in He.
  - apply Forall_forall. intros g Hg. apply list_elem_of_lookup in Hg as [k Hk]. destruct (Forall2_lookup_r _ _ _ _ _ Hgs Hk) as (e & He & col & _ & ->).
    apply list_elem_of_lookup_2 in He. constructor; [|constructor]. by apply Harr.
  - intros batch i. cbn [groups_pass]. rewrite !Exists_exists. split.
    + intros (g & Hg & Hadm). apply list_elem_of_lookup in Hg as [k Hk]. destruct (Forall2_lookup_r _ _ _ _ _ Hgs Hk) as (e & He & col & Ecol & ->).
      apply list_elem_of_lookup_2 in He. destruct (Harr e He) as (_ & Hnn & Hl & Heq). rewrite Forall_singleton in Hadm. rewrite cp_admits_col in Hadm. cbn [cp_column cp_predicate] in Hadm.
      rewrite (col_passes_iff batch i col _ _ Heq), col_passes_exists in Hadm by done. apply Exists_exists in Hadm as (b & Hb & Hc).
      assert (Hf : b ∈ filter (fun b : list Z => b <> []) bytes) by (apply Hin; by exists e). apply list_elem_of_filter in Hf as [_ Hf]. exists b. split; [done|].
      right. exists col. split; [|done]. rewrite Forall_forall in Hl. by rewrite (Hl b Hb).
    + intros (b & Hb & Hc). apply Hmore in Hb as (Hbn & e & He & Hbe). destruct Hc as [->|(col & Ecol & Hc)]; [done|].
      pose proof He as He'. apply list_elem_of_lookup in He' as [k Hk]. destruct (Forall2_lookup_l _ _ _ _ _ Hgs Hk) as (g & Hg & col' & Ecol' & ->).
      destruct (Harr e He) as (_ & Hnn & Hl & Heq). rewrite Forall_forall in Hl. rewrite (Hl b Hbe) in Ecol. rewrite Ecol in Ecol'. injection Ecol' as <-.
      eexists. split; [by eapply list_elem_of_lookup_2|]. apply Forall_singleton. rewrite cp_admits_col. cbn [cp_column cp_predicate].
      rewrite (col_passes_iff batch i col _ _ Heq), col_passes_exists by done. apply Exists_exists. by exists b.
Qed.

Lemma discriminator_passes_bytes items bytes cols batch i : Forall2 (fun v b => hex_of v = Some b) items bytes ->
  discriminator_passes batch i cols (JArray items) <-> Exists (fun b => b = [] \/ exists col,
    assoc (print_usize (Z.of_nat (length b))) cols = Some col /\ col_passes batch i col (holds (discriminator_operand b))) bytes.
Proof.
  unfold discriminator_passes, list_of; cbn [as_array]. clear. induction 1 as [|v b items bytes E H2 IH]; [by rewrite !Exists_nil|].
  rewrite !Exists_cons, IH, E. split; (intros [Hc|]; [left|by right]); [by destruct Hc as (? & [= <-] & ?)|by exists b].
Qed.

Lemma compile_discriminator_ok value cols : value_ok value -> is_empty_list value = false ->
  validated (fun groups => match groups with
    | None => forall batch i, discriminator_passes batch i cols value
    | Some gs => gs <> [] /\ Forall group_ok gs /\ forall batch i, groups_pass batch i (Some gs) <-> discriminator_passes batch i cols value
    end) (compile_discriminator value cols).
Proof.
  intros Hval Hne. unfold compile_discriminator. destruct value as [| | | |items|]; try done. cbn [as_array ok_or obind].
  eapply validated_bind.
  { apply (discriminator_values_ok items [] ([], false)). split; [split; [done|split; [|done]]|split; [|done]].
    - intros b. split; [intros (e & He & _); by apply not_elem_of_nil in He|by intros ?%not_elem_of_nil].
    - split; [done|by intros ?%not_elem_of_nil]. }
  intros [by_length any] (bytes & H2 & Hp). cbn [app] in Hp.
  eapply validated_bind.
  { apply (validated_mapM (fun (e : nat * list (list Z)) g => exists col, assoc (print_usize (Z.of_nat e.1)) cols = Some col /\
      g = [{| cp_column := col; cp_predicate := InList (discriminator_array e.1 e.2) |}])). intros e _. vstep as col Ecol. cbn. by exists col. }
  intros gs Hgs. destruct any; cbn [validated].
  - intros batch i. apply (discriminator_passes_bytes items bytes); [done|]. apply Exists_exists. exists []. split; [|by left]. by apply Hp.
  - assert (Hml : length bytes = length items) by (by rewrite (Forall2_length _ _ _ H2)).
    destruct (discriminator_groups_ok bytes by_length cols gs Hp) as (Hgn & Hok & Hiff); [| | |done|].
    + intros ->. destruct items; done.
    + clear -H2 DL. induction H2 as [|v b items bytes E H2 IH]; [done|]. constructor; [|done]. unfold hex_of in E. apply bind_Some in E as (t & _ & E). by apply parse_hex_bytes in E.
    + rewrite Hml. apply Hval.
    + split; [done|]. split; [done|]. intros batch i. by rewrite Hiff, (discriminator_passes_bytes items bytes).
Qed.

(** ** Sets *)

Lemma set_references_validated value : validated (fun _ => True) (set_references value).
Proof.
  unfold set_references. apply (validated_foldM (fun _ => True)); [|done]. intros names element _ _. destruct (as_object element) as [object|]; [|done].
  destruct (length object) as [|[|n]]; try done. by destruct (get_field object "set" ≫= as_str_value).
Qed.

Lemma references_add_validated referred names : validated (fun _ => True) (references_add referred names).
Proof. unfold references_add. by vstep as u _. Qed.

(** An object denotes no value, so leaving the references out changes none. *)
Lemma operands_without_objects col_desc values :
  operands col_desc (List.filter (fun element => negb (is_object_value element)) values) = operands col_desc values.
Proof.
  unfold operands. induction values as [|v values IH]; [done|]. cbn [List.filter omap list_omap].
  destruct (is_object_value v) eqn:Eo; cbn [negb omap list_omap]; [|by rewrite IH]. rewrite IH. destruct v; try done.
  unfold denotes. destruct (cd_data_type col_desc); done.
Qed.

Lemma check_canary_validated canary set col_desc : fuse8_sound (ds_fuse8 set) -> validated (fun _ => True) (check_canary canary set col_desc).
Proof.
  intros Hs. unfold check_canary. vstep as u _. destruct (fuse8_sound_contains (E:=error) _ (text_bytes (fold_for_column canary col_desc)) Hs) as [held ->].
  cbn [obind]. eapply validated_weaken; [by apply validated_ensure|done].
Qed.

Lemma sets_admit_one sets encoding c : set_admits sets encoding c <-> Exists (fun set => set_admits [set] encoding c) sets.
Proof.
  rewrite Exists_exists. unfold set_admits. setoid_rewrite list_elem_of_singleton. split.
  - intros (text & set & Ht & Hin & Hc). exists set. split; [done|]. by exists text, set.
  - intros (set & Hin & text & ? & Ht & -> & Hc). by exists text, set.
Qed.

(** A predicate on the listed values and the sets. *)
Definition sets_predicate (listed : option (ColumnPredicate predicate)) (sets : list DeclaredSet) (encoding : option JsonEncoding) : predicate :=
  match listed with Some listed => AnyOf [cp_predicate listed; InSet sets encoding] | None => InSet sets encoding end.

Lemma sets_predicate_admits column xs listed sets encoding dt c : list_compiled column xs listed ->
  admits (sets_predicate listed sets encoding) dt c <-> operand_holds xs dt c \/ set_admits sets encoding c.
Proof.
  unfold sets_predicate. destruct listed as [p|]; cbn [list_compiled admits].
  - intros (_ & _ & _ & Hadm). rewrite Hadm. tauto.
  - intros ->. unfold operand_holds. rewrite Exists_nil. tauto.
Qed.

Lemma compile_set_filter_ok key value names : value_ok value ->
  validated (fun p => pred_ok (cp_predicate p) /\ forall batch i, cp_admits batch i p <-> sets_pass table scope batch i key names value)
    (compile_set_filter key value names table scope).
Proof.
  intros Hval. unfold compile_set_filter.
  apply (validated_bind (fun column => list_column table key = Some column)).
  { unfold list_column. destruct (assoc key _) as [[]|]; done. }
  intros column Hcolumn. vstep as col_desc Edesc. vstep as u _. set (values := List.filter _ _).
  assert (Evals : operands col_desc values = operands col_desc (list_of value)) by apply operands_without_objects.
  assert (Hlisted : validated (list_compiled column (operands col_desc (list_of value))) match values with [] => Ok None | _ => compile_in_list column values col_desc end).
  { rewrite <- Evals. assert (Hv : Forall json_ok values /\ (length values <= length (list_of value))%nat).
    { pose proof (list_of_ok value Hval) as Hok. subst values. clear -Hok. induction Hok as [|v l Hv Hok [IH1 IH2]]; [by split|]. cbn [List.filter].
      destruct (negb _); cbn; [split; [by constructor|lia]|split; [done|lia]]. }
    destruct values as [|v rest] eqn:E; [reflexivity|]. apply compile_in_list_ok; [exact (Htable _ _ Edesc)|apply Hv|]. destruct Hval as [_ Hl], Hv. lia. }
  eapply validated_bind; [exact Hlisted|]. intros listed Hl.
  eapply validated_bind; [apply (validated_mapM (fun name set => assoc name (ss_sets scope) = Some set)); intros name _; by apply validated_ok_or|].
  intros sets Hsets. vstep as u' _.
  assert (Hsound : Forall (fun set => fuse8_sound (ds_fuse8 set)) sets).
  { apply Forall_forall. intros set Hin. apply list_elem_of_lookup in Hin as [k Hk]. destruct (Forall2_lookup_r _ _ _ _ _ Hsets Hk) as (name & _ & En).
    apply assoc_elem_of in En. unfold scope_ok in Hscope. rewrite Forall_forall in Hscope. by apply (Hscope (name, set)). }
  apply (validated_bind (fun _ => True)).
  { apply (validated_foldM (fun _ => True)); [|done]. intros _ set Hin _. rewrite Forall_forall in Hsound.
    apply (validated_foldM (fun _ => True)); [|done]. intros _ canary _ _. by apply check_canary_validated, Hsound. }
  intros _ _. cbn [validated cp_predicate]. fold (sets_predicate listed sets (cd_encoding col_desc)). split.
  - unfold sets_predicate. destruct listed as [p|]; [|done]. destruct Hl as (_ & Hp & _). cbn. by split_and!.
  - intros batch i. rewrite cp_admits_col. cbn [cp_column cp_predicate].
    rewrite (col_passes_iff batch i column _ _ (fun dt c => sets_predicate_admits column _ listed sets (cd_encoding col_desc) dt c Hl)).
    unfold sets_pass. split.
    + intros Hc. exists column, col_desc. split; [done|]. split; [done|]. revert Hc. apply col_passes_iff. intros dt c. rewrite sets_admit_one, Exists_exists.
      apply or_iff_compat_l. split.
      * intros (name & set & Hn & En & Ha). apply list_elem_of_lookup in Hn as [k Hk]. destruct (Forall2_lookup_l _ _ _ _ _ Hsets Hk) as (set' & Hset & En').
        rewrite En in En'. injection En' as <-. exists set. split; [by eapply list_elem_of_lookup_2|done].
      * intros (set & Hin & Ha). apply list_elem_of_lookup in Hin as [k Hk]. destruct (Forall2_lookup_r _ _ _ _ _ Hsets Hk) as (name & Hn & En).
        exists name, set. split; [by eapply list_elem_of_lookup_2|done].
    + intros (column' & col_desc' & Ec & Ed & Hc). rewrite Hcolumn in Ec. injection Ec as <-. rewrite Edesc in Ed. injection Ed as <-.
      revert Hc. apply col_passes_iff. intros dt c. rewrite sets_admit_one, Exists_exists. apply or_iff_compat_l. split.
      * intros (set & Hin & Ha). apply list_elem_of_lookup in Hin as [k Hk]. destruct (Forall2_lookup_r _ _ _ _ _ Hsets Hk) as (name & Hn & En).
        exists name, set. split; [by eapply list_elem_of_lookup_2|done].
      * intros (name & set & Hn & En & Ha). apply list_elem_of_lookup in Hn as [k Hk]. destruct (Forall2_lookup_l _ _ _ _ _ Hsets Hk) as (set' & Hset & En').
        rewrite En in En'. injection En' as <-. exists set. split; [by eapply list_elem_of_lookup_2|done].
Qed.

(** ** A filter, and an item *)

Definition is_discriminator (f : string * json) : bool :=
  match assoc f.1 (rs_special_filters (request table)) with Some (Discriminator _) => true | _ => false end.

(** What a filter does to the state; only a discriminator sets its groups. *)
Definition filtered (s s' : ItemState) (f : string * json) : Prop :=
  state_ok s' /\ (is_groups s' = is_groups s \/ is_discriminator f = true) /\
  forall batch i, state_passes batch i s' <-> state_passes batch i s /\ filter_passes table scope batch i f.

Lemma narrows_filtered s s' f (P : RecordBatch -> nat -> Prop) : narrows s s' P ->
  (forall batch i, P batch i <-> filter_passes table scope batch i f) -> filtered s s' f.
Proof. intros (Hok & Hg & Hs) HP. split; [done|]. split; [by left|]. intros batch i. by rewrite Hs, HP. Qed.

Lemma compile_special_ok s key value special : state_ok s -> value_ok value -> is_groups s = None \/ is_discriminator (key, value) = false ->
  assoc key (rs_special_filters (request table)) = Some special -> set_references value = Ok [] ->
  (takes_value_list (Some special) = true -> is_empty_list value = false) ->
  validated (fun s' => filtered s s' (key, value)) (compile_special s value special table).
Proof.
  intros Hs Hval Hg Hsp Hrefs Hne.
  assert (Hpass : forall batch i, filter_passes table scope batch i (key, value) <-> special_passes table batch i special value).
  { intros batch i. unfold filter_passes. cbn [fst snd]. by rewrite Hrefs, Hsp. }
  destruct special as [by_length|column bytes hashes|column|column|column|column konst]; cbn [compile_special].
  - eapply validated_bind; [by apply compile_discriminator_ok, Hne|]. intros groups Hgroups. cbn.
    assert (Hd : is_discriminator (key, value) = true) by (unfold is_discriminator; cbn [fst]; by rewrite Hsp). destruct Hg as [Hg|]; [|congruence].
    split; [split; [apply Hs|]|split; [by right|]].
    + destruct groups as [gs|]; [|done]. cbn. by destruct Hgroups as (? & ? & _).
    + intros batch i. rewrite Hpass. unfold state_passes; cbn [is_predicates is_groups is_unsatisfiable special_passes]. rewrite Hg. cbn [groups_pass].
      destruct groups as [gs|]; [destruct Hgroups as (_ & _ & <-); tauto|]. specialize (Hgroups batch i). cbn. tauto.
  - eapply validated_weaken; [by apply compile_bloom_ok, Hne|]. intros s' Hs'. eapply narrows_filtered; [exact Hs'|]. intros batch i. by rewrite Hpass.
  - eapply validated_weaken; [apply (compile_range_ok s RangeGte true); [done|apply Hval|done|done]|].
    intros s' Hs'. eapply narrows_filtered; [exact Hs'|]. intros batch i. by rewrite Hpass.
  - eapply validated_weaken; [apply (compile_range_ok s RangeLte false); [done|apply Hval|done|done]|].
    intros s' Hs'. eapply narrows_filtered; [exact Hs'|]. intros batch i. by rewrite Hpass.
  - destruct (Catalog.column table column) as [col_desc|] eqn:Ed; [|done]. cbn [ok_or obind].
    eapply validated_weaken; [apply compile_column_filter_ok; [done|exact (Htable _ _ Ed)|done]|].
    intros s' Hs'. eapply narrows_filtered; [exact Hs'|]. intros batch i. rewrite Hpass. cbn [special_passes]. rewrite Ed.
    split; [intros Hc; by exists col_desc|]. by intros (? & [= <-] & ?).
  - vstep as enabled Een. destruct enabled.
    + vstep as col_desc Ed. cbn.
      apply (narrows_filtered s _ _ (fun batch i => cp_admits batch i {| cp_column := column; cp_predicate := RangeGte (SUtf8 konst) |})); [by apply push_narrows|].
      intros batch i. rewrite Hpass. cbn [special_passes]. unfold flag_passes. rewrite Een.
      rewrite cp_admits_col. cbn [cp_column cp_predicate admits]. split; [done|]. intros Hc. by apply Hc.
    + cbn. split; [done|]. split; [by left|]. intros batch i. rewrite Hpass. cbn [special_passes]. unfold flag_passes. rewrite Een. split; [done|tauto].
Qed.

Lemma compile_filter_ok s f : state_ok s -> value_ok f.2 -> is_groups s = None \/ is_discriminator f = false ->
  validated (fun s' => filtered s s' f) (compile_filter table scope s f).
Proof.
  destruct f as [key value]. cbn [snd]. intros Hs Hval Hg. unfold compile_filter.
  pose proof (set_references_validated value) as Hrefs. destruct (set_references value) as [names|[]|] eqn:Erefs; try done. cbn [obind]. clear Hrefs.
  case_bool_decide as En; cbn [negb].
  - subst names. destruct (takes_value_list _ && is_empty_list value) eqn:Eempty.
    + cbn. apply andb_true_iff in Eempty as [Etakes Eempty]. eapply narrows_filtered; [apply (unsatisfiable_narrows s (fun batch i => filter_passes table scope batch i (key, value))); [done|]|done].
      destruct value as [| | | |[|]|]; try done. intros batch i. unfold filter_passes. cbn [fst snd]. rewrite Erefs.
      destruct (assoc key _) as [[]|]; try done; cbn [special_passes].
      * by intros ?%Exists_nil.
      * by intros ?%Exists_nil.
      * intros (col_desc & _ & Hc). by apply Exists_nil in Hc.
      * intros (col_desc & _ & Hc). by apply Exists_nil in Hc.
    + destruct (assoc key _) as [special|] eqn:Esp.
      * apply (compile_special_ok s key value special); try done. intros Ht. rewrite Ht in Eempty. exact Eempty.
      * vstep as col_desc Ed. eapply validated_weaken; [apply compile_column_filter_ok; [done|exact (Htable _ _ Ed)|done]|].
        intros s' Hs'. eapply narrows_filtered; [exact Hs'|]. intros batch i. unfold filter_passes. cbn [fst snd]. rewrite Erefs, Esp, Ed.
        split; [intros Hc; by exists col_desc|]. by intros (? & [= <-] & ?).
  - eapply validated_bind; [apply references_add_validated|]. intros referred _. eapply validated_bind; [by apply compile_set_filter_ok|].
    intros p [Hok Hadm]. cbn. split; [|split; [by left|]].
    + split; [|apply Hs]. cbn. apply Forall_app. split; [apply Hs|]. by constructor.
    + intros batch i. unfold state_passes; cbn [is_predicates is_groups is_unsatisfiable]. rewrite Forall_app, Forall_singleton, Hadm.
      unfold filter_passes. cbn [fst snd]. rewrite Erefs. destruct names; [done|]. tauto.
Qed.

(** An item's filters together. *)
Definition item_passes (item : QueryItem) (batch : RecordBatch) (i : nat) : Prop := Forall (filter_passes table scope batch i) (qi_filters item).

Definition item_compiled (item : QueryItem) (compiled : CompiledItem) : Prop :=
  match compiled with
  | Unsatisfiable => forall batch i, ~ item_passes item batch i
  | Compiled r => row_ok r /\ forall batch i, row_admits batch r i <-> item_passes item batch i
  end.

Lemma discriminator_in_family f : is_discriminator f = true -> f.1 ∈ discriminator_family table.
Proof.
  unfold is_discriminator, discriminator_family. destruct (assoc f.1 _) as [[by_length| | | | |]|] eqn:E; try done. intros _.
  apply assoc_elem_of in E. apply list_elem_of_bind. exists (f.1, Discriminator by_length). split; [by left|done].
Qed.

Lemma check_item_limits_validated item : validated (fun _ => 
  (length (filter (fun f : string * json => f.1 ∈ discriminator_family table) (qi_filters item)) <= MAX_DISCRIMINATOR_FILTERS)%nat) (check_item_limits item table).
Proof.
  unfold check_item_limits. vstep as u Hd. apply Nat.leb_le in Hd. eapply validated_weaken.
  - apply (validated_foldM (fun _ => True)); [|done]. intros _ f _ _. destruct (assoc f.1 _) as [[]|]; try done.
    eapply validated_weaken; [by apply validated_ensure|done].
  - done.
Qed.

(** The predicate of a state passes what the state does. *)
Lemma item_predicate_ok s : state_ok s -> is_unsatisfiable s = false ->
  row_ok (item_predicate (is_predicates s) (is_groups s)) /\
  forall batch i, row_admits batch (item_predicate (is_predicates s) (is_groups s)) i <-> state_passes batch i s.
Proof.
  intros [Hp Hg] Hu. unfold item_predicate, row_ok, row_admits, state_passes. rewrite Hu. destruct (is_groups s) as [groups|]; cbn [groups_pass].
  - destruct Hg as [Hne Hg]. destruct (Nat.ltb_spec 1 (length groups)) as [Hlen|Hlen]; cbn [with_alternatives row_new rp_columns rp_alternatives].
    + split; [done|]. intros batch i. naive_solver.
    + destruct groups as [|g [|]]; [done| |cbn in Hlen; lia]. cbn [concat]. rewrite app_nil_r. rewrite Forall_singleton in Hg. unfold group_ok in *.
      rewrite Forall_app. split; [split; [by split|by constructor]|].
      intros batch i. rewrite Forall_app, Exists_cons, Exists_nil. naive_solver.
  - cbn [with_alternatives row_new rp_columns rp_alternatives]. split; [by split|]. intros batch i. naive_solver.
Qed.

Lemma compile_item_ok item referred : Forall (fun f => value_ok f.2) (qi_filters item) ->
  validated (fun r => item_compiled item r.1) (compile_item_predicates item table scope referred).
Proof.
  intros Hvals. unfold compile_item_predicates. eapply validated_bind; [apply check_item_limits_validated|]. intros checked Hone. cbv beta in Hone.
  eapply validated_bind.
  { apply (validated_foldM_prefix (fun done s => state_ok s /\ ((exists f, f ∈ done /\ is_discriminator f = true) \/ is_groups s = None) /\
      forall batch i, state_passes batch i s <-> Forall (filter_passes table scope batch i) done)).
    - intros done f rest s El (Hs & Hg & Hpass). rewrite El in Hvals. apply Forall_app in Hvals as [_ Hvals]. apply Forall_cons in Hvals as [Hval _].
      eapply validated_weaken; [apply (compile_filter_ok s f Hs Hval)|].
      + destruct Hg as [(g & Hin & Hd)|]; [|by left]. right. apply not_true_iff_false. intros Hf.
        apply discriminator_in_family in Hd, Hf. rewrite El, filter_app, filter_cons, decide_True, length_app in Hone by done. cbn in Hone.
        assert (g ∈ filter (fun f : string * json => f.1 ∈ discriminator_family table) done) as Hg by by apply list_elem_of_filter.
        destruct (filter _ done); [by apply not_elem_of_nil in Hg|]. cbn in Hone. unfold MAX_DISCRIMINATOR_FILTERS in Hone. lia.
      + intros s' (Hok & Hgr & Hp). split; [done|]. split.
        * destruct Hgr as [-> | Hd]; [destruct Hg as [(g & Hin & Hd)|]; [|by right]|]; left; eexists; (split; [|exact Hd]); apply elem_of_app; [by left|right; by left].
        * intros batch i. by rewrite Hp, Hpass, Forall_app, Forall_singleton.
    - split; [split; [by constructor|done]|]. split; [by right|]. intros batch i. unfold state_passes. cbn. rewrite !Forall_nil. tauto. }
  intros s (Hs & _ & Hpass). cbn. destruct (is_unsatisfiable s) eqn:Eu; cbn.
  - intros batch i Hi. apply Hpass in Hi as (_ & _ & ?). congruence.
  - destruct (item_predicate_ok s Hs Eu) as [Hok Hadm]. split; [done|]. intros batch i. by rewrite Hadm, Hpass.
Qed.

(** C19: An item compiles to a predicate that selects exactly the rows passing every
    one of its filters, each read as the catalog declares its column: a listed value
    equal, at any stored width, a hex value by its bytes, a text folded where the
    column folds, a set's member, a prefix of any of the lengths, a bound, a flag.
    When no row can pass, it says so; and what it refuses, it refuses by a validation
    error. *)
Theorem compile_item_spec item referred : Forall (fun f => value_ok f.2) (qi_filters item) ->
  (exists compiled referred', compile_item_predicates item table scope referred = Ok (compiled, referred') /\ item_compiled item compiled) \/
  (exists kind, compile_item_predicates item table scope referred = Err (EngineError kind) /\ is_validation kind = true).
Proof.
  intros Hvals. destruct (proj1 (validated_total _ _) (compile_item_ok item referred Hvals)) as [([compiled referred'] & E & Hc)|(kind & E & Hk)].
  - left. by exists compiled, referred'.
  - right. by exists kind.
Qed.
End filters.

(** ** Witness *)

Import ArrowInstances.
Import HexInstances.
Import XxhInstances.
Import HexDecoderInstances.

Definition filtered_column (t : ColumnType) (encoding : option JsonEncoding) : ColumnDescription :=
  {| cd_data_type := t; cd_encoding := encoding; cd_weight := None; cd_system := false; cd_fold_case := false; cd_members := None |}.
Definition instructions : TableDescription := {|
  td_request_surface := Some {| rs_name := None; rs_filters := []; rs_relations := [];
    rs_special_filters := [("discriminator", Discriminator [("1", "d1"); ("2", "d2")])]%string |};
  td_output := {| os_name := None; os_fields := []; os_virtual_fields := []; os_variant_column := None; os_variants := [] |};
  td_block_number_column := "block_number"; td_parent_hash_column := None; td_parent_number_column := None; td_address_column := None;
  td_item_order_keys := []; td_declared_weight_key := None; td_sort_key := [];
  td_columns := [("program", filtered_column CtString (Some HexBytes)); ("fee", filtered_column CtUInt16 None); ("d1", filtered_column CtUInt8 None);
                 ("d2", filtered_column CtUInt16 None)]%string |}.
Definition instruction_item : QueryItem := {| qi_relations := []; qi_alias := None;
  qi_filters := [("program", JString "0xAB"); ("fee", JArray [JNumber (JU64 70000); JNumber (JU64 7); JString "0x0102"]);
                 ("discriminator", JArray [JString "0x05"; JString "0x0607"])]%string |}.
Definition no_sets : SetScope := {| ss_sets := []; ss_selected := [] |}.

(** A fee of 70000 is none the column holds; the address is folded; the prefixes of
    either length are alternatives. *)
Example instruction_compiled : compile_item_predicates instruction_item instructions no_sets no_references = Ok (Compiled (with_alternatives
  [col_in_list "program" (AText Utf8 ["0xab"%string] None); col_in_list "fee" (AInt UInt16 [258; 7] None)]
  [[col_in_list "d1" (AInt UInt8 [5] None)]; [col_in_list "d2" (AInt UInt16 [1543] None)]]), no_references).
Proof. vm_compute. reflexivity. Qed.

(** A list of values the column cannot hold is one no row passes. *)
Example unsatisfiable_compiled : compile_item_predicates {| qi_relations := []; qi_alias := None; qi_filters := [("fee"%string, JNumber (JU64 70000))] |}
  instructions no_sets no_references = Ok (Unsatisfiable, no_references).
Proof. vm_compute. reflexivity. Qed.

Lemma instructions_ok : table_ok instructions.
Proof. intros name col_desc E. cbn in E. repeat case_decide; try done; injection E as <-; done. Qed.

Lemma compile_item_spec_witness :
  (exists compiled referred', compile_item_predicates instruction_item instructions no_sets no_references = Ok (compiled, referred') /\
     item_compiled instructions no_sets instruction_item compiled) \/
  (exists kind, compile_item_predicates instruction_item instructions no_sets no_references = Err (EngineError kind) /\ is_validation kind = true).
Proof.
  apply (compile_item_spec instructions no_sets instructions_ok); [constructor|].
  repeat constructor; cbn; lia.
Defined.
