(* ===== verification/Reader.v ===== *)
(** Chunk readers (src/scan/mod.rs): what execution asks of a store, whatever it
    keeps its rows in. [ChunkReader] is the trait, its default methods included;
    [ReaderLaws] is what execution relies on, in terms of the rows of the tables;
    the column-store reader is one. *)
From stdpp Require Import base strings list gmap.
From Stdlib Require Import ZArith Lia Sorting.Sorted.
From S2P Require Import Prelude Machine ListLib Errors Arrow ArrowReference Integers Counting Rows KeyColumns SemiJoin Addresses AddressLookup AddressBuild Keys Render Json Sets Predicate PredicateSpec Pruning RowPredicate ItemLists Scan ScanParts Columnar ColumnarSpec ColumnarScan.

#[local] Open Scope Z_scope.

(** [src/src/scan/columns.rs:46-52] Window. *)
Record Window := { w_from : option Z; w_to : option Z }.

(** [src/src/scan/columns.rs:L27-31] ColumnCache: its budget. What it holds are
    columns of the file the reader reads them from. *)
Record ColumnCache := { cache_budget : Z }.

(** [src/src/scan/columns.rs:103-112] ColumnCache::new. *)
Definition ColumnCache_new (budget : Z) : ColumnCache := {| cache_budget := budget |}.

Abbreviation scan_request := (ScanRequest (RowPredicate predicate) KeyFilter HierarchicalFilter ColumnCache Window).

(** [src/src/scan/mod.rs:25-73] ChunkReader. *)
Record ChunkReader := {
  cr_scan_rows : string -> scan_request -> result Scanned;
  cr_supports_row_positions : bool;
  cr_next_block_range_end : string -> string -> Z -> option Z;
  cr_estimate_scan_bytes : string -> scan_request -> option Z;
  cr_has_table : string -> bool;
  cr_table_schema : string -> option Schema;
}.

(** [src/src/scan/mod.rs:35-38] ChunkReader::scan. *)
Definition cr_scan (self : ChunkReader) (name : string) (request : scan_request) : result (list RecordBatch) :=
  let* scanned := cr_scan_rows self name request in Ok (rw_batches (sc_rows scanned)).

(** The default methods of the trait. *)
Definition default_supports_row_positions : bool := false.
Definition default_next_block_range_end (_ _ : string) (_ : Z) : option Z := None.
Definition default_estimate_scan_bytes (_ : string) (_ : scan_request) : option Z := None.

(** ** What execution relies on *)

(** A chunk's tables: each one's schema and rows. *)
Abbreviation chunk_tables := (string -> option (Schema * RecordBatch)).

Section laws.
Context {K : ArrowKernels} {L : ArrowLaws K} {R : RowFormat} {X : Xxh3} {XL : Xxh3Laws X} {HK : HexKernel}.

(** A pass's window holds every row the scan can return. *)
Definition window_holds (content : RecordBatch) (request : scan_request) (related : nat -> Prop) : Prop :=
  forall w bn row b, window request = Some w -> block_number_column request = Some bn -> (row < num_rows content)%nat ->
    selected content request related row -> row_block content bn row = Some b -> in_bounds (w_from w) (w_to w) b = true.

Class ReaderLaws (reader : ChunkReader) (tables : chunk_tables) : Prop := {
  reader_has_table name : cr_has_table reader name = bool_decide (is_Some (tables name));
  reader_schema name : cr_table_schema reader name = fst <$> tables name;
  reader_tables name schema content : tables name = Some (schema, content) -> schema_of schema content;
  reader_absent name request : tables name = None -> cr_scan_rows reader name request = Err (EngineError TableNotFound);
  reader_scans name schema content request related :
    tables name = Some (schema, content) -> request_fits schema content request related -> row_indices request = None ->
    window_holds content request related -> (positions request = true -> cr_supports_row_positions reader = true) ->
    exists s, cr_scan_rows reader name request = Ok s /\ scan_returns content request related s;
  reader_positions name schema content request related rows :
    cr_supports_row_positions reader = true ->
    tables name = Some (schema, content) -> request_fits schema content request related -> row_indices request = Some rows ->
    predicates request = [] -> Forall (Z.le 0) rows -> positions_ok (num_rows content) rows ->
    exists s, cr_scan_rows reader name request = Ok s /\ returns content request (Z.to_nat <$> rows) s;
}.
End laws.

(** ** The column-store reader *)

Section columnar.
Context {K : ArrowKernels} {L : ArrowLaws K} {R : RowFormat} {X : Xxh3} {XL : Xxh3Laws X} {HK : HexKernel}.
Context {B : BatchKernels} {BL : BatchLaws B}.

(** [src/src/scan/columnar.rs:61-66] ColumnarChunkReader. The trait's methods:
    by [open_tables_irrelevant] what the reader has opened changes no answer, so
    its methods are functions of the request. *)
Definition columnar_reader (chunk : ColumnarChunk) (tables : open_tables) : ChunkReader := {|
  cr_scan_rows name request := (scan_rows chunk tables name request).1;
  cr_supports_row_positions := true;
  cr_next_block_range_end := default_next_block_range_end;
  cr_estimate_scan_bytes := default_estimate_scan_bytes;
  cr_has_table := cc_has_table chunk;
  cr_table_schema name := (table_schema chunk tables name).1;
|}.

#[export] Instance columnar_reader_laws chunk contents tables :
  chunk_ok chunk contents -> tables_ok contents tables ->
  (forall name, cc_has_table chunk name = bool_decide (is_Some (contents name))) ->
  ReaderLaws (columnar_reader chunk tables) (fun name => (fun tc : ColumnarTable * RecordBatch => (ct_schema tc.1, tc.2)) <$> contents name).
Proof.
  intros Hc Hts Hhas. split; cbn [columnar_reader cr_scan_rows cr_has_table cr_table_schema cr_supports_row_positions].
  - intros name. rewrite Hhas. apply bool_decide_ext. by rewrite fmap_is_Some.
  - intros name. destruct (open_table_spec chunk contents tables name Hc Hts) as [Hopen _]. unfold table_schema.
    destruct (contents name) as [[t content]|]; [|by rewrite Hopen]. destruct Hopen as (open & Eo & <- & _). by rewrite Eo.
  - intros name schema content E. apply fmap_Some in E as ([t c] & E & [= -> ->]). specialize (Hc name). rewrite E in Hc.
    apply (tok_schema _ _ (proj2 Hc)).
  - intros name request E%fmap_None. destruct (open_table_spec chunk contents tables name Hc Hts) as [Hopen _].
    rewrite E in Hopen. unfold scan_rows. by rewrite Hopen.
  - intros name schema content request related E Hf Hr _ _. apply fmap_Some in E as ([t c] & E & [= -> ->]).
    by apply (columnar_scan_ok chunk contents tables name t).
  - intros name schema content request related rows _ E Hf Hr Hp Hpos Hok. apply fmap_Some in E as ([t c] & E & [= -> ->]).
    by apply (columnar_positions_ok chunk contents tables name t c request related rows Hc Hts E Hf Hr Hp Hpos).
Qed.
End columnar.
