(* ===== verification/Parquet.v ===== *)
(** What a parquet file's footer says (src/scan/chunk.rs and the parts of
    src/scan/scanner.rs that read it): row groups, their statistics, which groups a
    request reads, and what it may decode to. The footer and the rows of a file are
    the parquet crate's; a footer has a chunk of every leaf in every row group. *)
From stdpp Require Import base strings list gmap.
From Stdlib Require Import ZArith Lia Ascii.
From S2P Require Import Prelude Machine ListLib Errors Arrow Integers Counting Rows KeyColumns Addresses Keys Render Sets Predicate PredicateSpec RowPredicate ItemLists Scan Reader.

#[local] Open Scope Z_scope.

(** ** Footers *)

(** The bounds of a column chunk, at its physical type. *)
Inductive TypedBounds :=
  | BoundsBoolean (min max : option bool)
  | BoundsInt32 (min max : option Z)
  | BoundsInt64 (min max : option Z)
  | BoundsInt96 (min max : option Z)
  | BoundsFloat (min max : option Z)
  | BoundsDouble (min max : option Z)
  | BoundsByteArray (min max : option (list Z))
  | BoundsFixedLenByteArray (min max : option (list Z)).

(** [parquet::file::statistics::Statistics]. *)
Record Statistics := { st_bounds : TypedBounds; st_null_count : option Z; st_distinct_count : option Z }.

(** [parquet::basic::Encoding], as far as it is told apart. *)
Inductive Encoding := PLAIN | DELTA_LENGTH_BYTE_ARRAY | RLE | OtherEncoding (name : string).

(** [ColumnChunkMetaData], [RowGroupMetaData] and [ParquetMetaData]: what the code reads of them. *)
Record ColumnChunkMetaData := {
  cm_statistics : option Statistics;
  cm_num_values : Z;
  cm_unencoded_byte_array_data_bytes : option Z;
  cm_encodings : list Encoding;
  cm_dictionary_page_offset : option Z;
  cm_uncompressed_size : Z;
}.
Record RowGroupMetaData := { rg_num_rows : Z; rg_columns : list ColumnChunkMetaData }.
Record ParquetMetaData := {
  pm_leaves : list (list string);
  pm_row_groups : list RowGroupMetaData;
  pm_num_rows : Z;
}.

(** [src/src/scan/chunk.rs:39-49] StatValue. *)
Inductive StatValue :=
  | SvInt32 (v : Z)
  | SvInt64 (v : Z)
  | SvFloat (bits : Z)
  | SvDouble (bits : Z)
  | SvByteArray (v : list Z)
  | SvBoolean (v : bool)
  | SvFixedLenByteArray (v : list Z).

(** [src/src/scan/chunk.rs:30-37] ColumnStats. *)
Record ColumnStats := {
  cs_min : option StatValue;
  cs_max : option StatValue;
  cs_null_count : option Z;
  cs_distinct_count : option Z;
}.

(** [src/src/scan/chunk.rs:348-390] convert_stats. *)
Definition convert_stats (stats : Statistics) : ColumnStats :=
  let (min, max) :=
    match st_bounds stats with
    | BoundsBoolean min max => (SvBoolean <$> min, SvBoolean <$> max)
    | BoundsInt32 min max => (SvInt32 <$> min, SvInt32 <$> max)
    | BoundsInt64 min max => (SvInt64 <$> min, SvInt64 <$> max)
    | BoundsFloat min max => (SvFloat <$> min, SvFloat <$> max)
    | BoundsDouble min max => (SvDouble <$> min, SvDouble <$> max)
    | BoundsByteArray min max => (SvByteArray <$> min, SvByteArray <$> max)
    | BoundsFixedLenByteArray min max => (SvFixedLenByteArray <$> min, SvFixedLenByteArray <$> max)
    | BoundsInt96 _ _ => (None, None)
    end in
  {| cs_min := min; cs_max := max; cs_null_count := as_i64 <$> st_null_count stats; cs_distinct_count := st_distinct_count stats |}.

(** [src/src/scan/chunk.rs:317-346] statistics_leaves. *)
Definition statistics_leaves (metadata : ParquetMetaData) : gmap string nat :=
  fold_left (fun leaves (e : nat * list string) =>
    match e.2 with [name] => <[name := e.1]> leaves | _ => leaves end) (enumerate (pm_leaves metadata)) ∅.

Section table.
Context {Bytes : Type}.

(** [src/src/scan/chunk.rs:20-28] ParquetTable: [metadata] and [schema] are also
    what its [arrow_metadata] carries, and [pq_file] is the identity of the open file. *)
Record ParquetTable := {
  pq_name : string;
  pq_file : nat;
  pq_data : Bytes;
  pq_metadata : ParquetMetaData;
  pq_schema : Schema;
  pq_statistics_leaves : gmap string nat;
}.

Implicit Types table : ParquetTable.

(** [src/src/scan/chunk.rs:218-221] ParquetTable::num_row_groups. *)
Definition num_row_groups table : nat := length (pm_row_groups (pq_metadata table)).

(** [src/src/scan/chunk.rs:232-235] ParquetTable::row_group. *)
Definition row_group table (index : nat) : option RowGroupMetaData := pm_row_groups (pq_metadata table) !! index.

(** The rows of a group, as [num_rows() as usize]. *)
Definition group_rows table (index : nat) : nat := from_option (fun g => Z.to_nat (as_u64 (rg_num_rows g))) O (row_group table index).

(** [src/src/scan/chunk.rs:237-243] ParquetTable::row_group_start. *)
Definition row_group_start table (index : nat) : nat :=
  sum_list ((fun g => Z.to_nat (as_u64 (rg_num_rows g))) <$> take index (pm_row_groups (pq_metadata table))).

(** [src/src/scan/chunk.rs:245-250] ParquetTable::column_index. *)
Definition column_index table (name : string) : option nat := schema_index (pq_schema table) name.

(** [src/src/scan/chunk.rs:252-258] ParquetTable::column_stats. *)
Definition column_stats table (group : nat) (column_name : string) : option ColumnStats :=
  leaf ← pq_statistics_leaves table !! column_name;
  metadata ← row_group table group;
  column ← rg_columns metadata !! leaf;
  convert_stats <$> cm_statistics column.

(** ** Statistics as values *)

(** A byte that continues a character. *)
Definition continues (b : Z) : bool := (128 <=? b) && (b <=? 191).

(** [std::str::from_utf8]. *)
Fixpoint is_utf8 (bytes : list Z) : bool :=
  match bytes with
  | [] => true
  | b :: rest =>
      if b <=? 127 then is_utf8 rest
      else if (194 <=? b) && (b <=? 223) then
        match rest with c :: rest => continues c && is_utf8 rest | _ => false end
      else if (224 <=? b) && (b <=? 239) then
        match rest with
        | c :: d :: rest =>
            continues c && continues d && (if b =? 224 then 160 <=? c else true) && (if b =? 237 then c <=? 159 else true) && is_utf8 rest
        | _ => false
        end
      else if (240 <=? b) && (b <=? 244) then
        match rest with
        | c :: d :: e :: rest =>
            continues c && continues d && continues e && (if b =? 240 then 144 <=? c else true) && (if b =? 244 then c <=? 143 else true) &&
            is_utf8 rest
        | _ => false
        end
      else false
  end.

Definition bytes_string (bytes : list Z) : string := String.string_of_list_ascii ((fun b => ascii_of_nat (Z.to_nat b)) <$> bytes).

(** [src/src/scan/scanner.rs:1365-1378] stat_scalar. *)
Definition stat_scalar (value : StatValue) : option Z :=
  match value with
  | SvInt32 v => Some v
  | SvInt64 v => Some v
  | _ => None
  end.

(** [src/src/scan/scanner.rs:1380-1402] stat_value_to_array. *)
Definition stat_value_to_array (value : StatValue) : array :=
  match value with
  | SvBoolean v => ABool [v] None
  | SvInt32 v => AInt Int32 [v] None
  | SvInt64 v => AInt Int64 [v] None
  | SvFloat v => AOther "Float32" [to_le_bytes 4 v] None
  | SvDouble v => APrim Float64 [v] None
  | SvByteArray v => if is_utf8 v then AText Utf8 [bytes_string v] None else AOther "Binary" [v] None
  | SvFixedLenByteArray v => AFixed (as_signed 32 (Z.of_nat (length v))) [v] None
  end.

(** [src/src/scan/scanner.rs:423-436] block_bounds. *)
Definition block_bounds table (rg : nat) (bn_column : string) : option (Z * Z) :=
  index ← column_index table bn_column;
  field ← pq_schema table !! index;
  stats ← column_stats table rg bn_column;
  min ← cs_min stats; min ← stat_scalar min; min ← block_number_at (f_type field) min;
  max ← cs_max stats; max ← stat_scalar max; max ← block_number_at (f_type field) max;
  if min <=? max then Some (min, max) else None.

(** ** The ranges a file suggests *)

(** [src/src/scan/scanner.rs:L445-451] next_block_range_end: the bounds of the groups
    that reach [from_block], if every group states its own. *)
Definition reaching_bounds table (block_column : string) (from_block : Z) : option (list (Z * Z)) :=
  bounds ← mapM (fun group => block_bounds table group block_column) (seq 0 (num_row_groups table));
  Some (filter (fun b => from_block <= b.2) bounds).

(** [src/src/scan/scanner.rs:L453-462] next_block_range_end: one group joins the
    range it overlaps. *)
Definition merge_range (ends : list Z) (bounds : Z * Z) : list Z :=
  let (start, end_) := bounds in
  match last ends with
  | Some previous => if start <? previous then removelast ends ++ [Z.max previous end_] else ends ++ [end_]
  | None => ends ++ [end_]
  end.

(** The order of pairs. *)
Definition pair_le (a b : Z * Z) : bool := (a.1 <? b.1) || ((a.1 =? b.1) && (a.2 <=? b.2)).

(** [src/src/scan/scanner.rs:438-464] next_block_range_end. *)
Definition next_block_range_end table (block_column : string) (from_block : Z) : option Z :=
  bounds ← reaching_bounds table block_column from_block;
  let ends := fold_left merge_range (sort_by pair_le bounds) [] in
  match Nat.min (length ends) 4 with O => None | S k => ends !! k end.

(** ** The groups a request reads *)

Section prune.
Context {K : ArrowKernels} {X : Xxh3} {H : HexKernel}.
Implicit Types request : scan_request.

(** [src/src/scan/scanner.rs:743-748] ColumnSummary. *)
Record ColumnSummary := { su_column : string; su_range : option StatRange; su_null_free : bool }.

(** [src/src/scan/scanner.rs:780-799] column_summary. *)
Definition column_summary table (group : nat) (column : string) : ColumnSummary :=
  let stats := column_stats table group column in
  let null_free := match stats with Some s => bool_decide (cs_null_count s = Some 0) | None => false end in
  let range :=
    stats ← stats;
    field ← field_with_name (pq_schema table) column;
    min ← cs_min stats;
    max ← cs_max stats;
    StatRange_new (f_type field) (stat_value_to_array min) (stat_value_to_array max) in
  {| su_column := column; su_range := range; su_null_free := null_free |}.

(** [src/src/scan/scanner.rs:738-741] GroupStats. *)
Abbreviation GroupStats := (list ColumnSummary).

(** [src/src/scan/scanner.rs:751-761] GroupStats::read. *)
Definition GroupStats_read table (group : nat) (predicates : list (RowPredicate predicate)) : GroupStats :=
  fold_left (fun read_ (p : ColumnPredicate predicate) =>
    if forallb (fun s => negb (bool_decide (su_column s = cp_column p))) read_ then read_ ++ [column_summary table group (cp_column p)] else read_)
    (predicates ≫= column_predicates) [].

(** The summary of a column. *)
Definition summary_of (stats : GroupStats) (column : string) : option ColumnSummary :=
  snd <$> list_find (fun s => su_column s = column) stats.

(** [src/src/scan/scanner.rs:763-765] GroupStats::range. *)
Definition gs_range (stats : GroupStats) (column : string) : option StatRange := summary_of stats column ≫= su_range.

(** [src/src/scan/scanner.rs:767-777] GroupStats::proves. *)
Definition gs_proves (stats : GroupStats) (p : ColumnPredicate predicate) : bool :=
  match summary_of stats (cp_column p) with
  | None => false
  | Some summary =>
      match (if su_null_free summary then su_range summary else None) with
      | Some range => ap_matches_every_value (cp_predicate p) range
      | None => false
      end
  end.

(** [src/src/scan/scanner.rs:651-660] PreparedRowGroup. *)
Record PreparedRowGroup := {
  prg_index : nat;
  prg_active_items : list nat;
  prg_narrowed : list (nat * RowPredicate predicate);
}.

(** [src/src/scan/scanner.rs:L663-674] PreparedRowGroup::items: the loop; the
    narrowed items run along the active ones. *)
Fixpoint items_of (predicates : list (RowPredicate predicate)) (narrowed : list (nat * RowPredicate predicate)) (active : list nat) :
  result (list (RowPredicate predicate)) :=
  match active with
  | [] => Ok []
  | item :: active =>
      match narrowed with
      | (n, kept) :: narrowed' =>
          if decide (n = item) then let* rest := items_of predicates narrowed' active in Ok (kept :: rest)
          else
            let* p := vec_get predicates item in
            let* rest := items_of predicates narrowed active in Ok (p :: rest)
      | [] =>
          let* p := vec_get predicates item in
          let* rest := items_of predicates narrowed active in Ok (p :: rest)
      end
  end.

(** [src/src/scan/scanner.rs:663-674] PreparedRowGroup::items. *)
Definition prg_items (self : PreparedRowGroup) request : result (list (RowPredicate predicate)) :=
  items_of (predicates request) (prg_narrowed self) (prg_active_items self).

(** [src/src/scan/scanner.rs:L696-711] prepare_row_group: the blocks of the group are
    outside the request's, or none is a source row's. *)
Definition group_ruled_out table request (index : nat) : bool :=
  match block_number_column request ≫= block_bounds table index with
  | Some (min, max) =>
      match from_block request with Some from => max <? from | None => false end ||
      match to_block request with Some to => to <? min | None => false end
  | None => false
  end ||
  match key_filter request with
  | Some keys =>
      match block_bounds table index (kf_block_number_column keys) with
      | Some (min, max) => negb (has_block_within keys min max)
      | None => false
      end
  | None => false
  end.

(** [src/src/scan/scanner.rs:683-736] prepare_row_group. *)
Definition prepare_row_group table request (index : nat) : option PreparedRowGroup :=
  if group_ruled_out table request index then None
  else
    let stats := GroupStats_read table index (predicates request) in
    let active_items := omap (fun e : nat * RowPredicate predicate =>
      if can_skip_row_group e.2 (gs_range stats) then None else Some e.1) (enumerate (predicates request)) in
    if negb (bool_decide (predicates request = [])) && bool_decide (active_items = []) then None
    else
      let narrowed := omap (fun item =>
        p ← predicates request !! item;
        kept ← without_proven p (gs_proves stats);
        Some (item, kept)) active_items in
      Some {| prg_index := index; prg_active_items := active_items; prg_narrowed := narrowed |}.

(** [src/src/scan/scanner.rs:677-681] select_row_groups. *)
Definition select_row_groups table request : list PreparedRowGroup :=
  omap (prepare_row_group table request) (seq 0 (num_row_groups table)).

(** ** The lists of several items *)

(** [src/src/scan/scanner.rs:801-805] ItemUnions. *)
Abbreviation ItemUnions := (gmap (list nat) (option (RowPredicate predicate))).

(** [src/src/scan/scanner.rs:808-832] ItemUnions::build. *)
Definition ItemUnions_build request (row_groups : list PreparedRowGroup) : result ItemUnions :=
  let sets : gset (list nat) := list_to_set (prg_active_items <$> filter (fun g => (1 < length (prg_active_items g))%nat) row_groups) in
  let* unions := mapM_ok (fun active =>
    let* items := mapM_ok (vec_get (predicates request)) active in
    Ok (active, listed_union items)) (elements sets) in
  Ok (list_to_map unions).

(** [src/src/scan/scanner.rs:834-837] ItemUnions::get. *)
Definition ItemUnions_get (unions : ItemUnions) (active : list nat) : option (RowPredicate predicate) := unions !! active ≫= id.
End prune.

(** ** What a scan may decode to *)

(** What is asked of a type that this model only names, and the width of a type of fixed-width values. *)
Class TypeLayout := {
  primitive_width : data_type -> option Z;
  item_of_map : string -> option data_type;
  item_of_fixed_list : string -> option data_type;
}.

(** [src/src/scan/scanner.rs:538-547] LeafCost. *)
Record LeafCost := { lc_bytes : Z; lc_bits : Z; lc_byte_strings : bool }.

Section costs.
Context {T : TypeLayout}.
Implicit Types request : scan_request.

Definition with_offsets (level : LeafCost) (width : Z) : LeafCost :=
  {| lc_bytes := lc_bytes level + width; lc_bits := lc_bits level; lc_byte_strings := lc_byte_strings level |}.
Definition with_byte_strings (level : LeafCost) : LeafCost :=
  {| lc_bytes := lc_bytes level; lc_bits := lc_bits level; lc_byte_strings := true |}.

(** [src/src/scan/scanner.rs:549-604] leaf_costs: what it adds to [out]. The types of
    items that this model only names are looked into [fuel] deep. *)
Fixpoint leaf_costs (fuel : nat) (dt : data_type) (above : LeafCost) : option (list LeafCost) :=
  match fuel with
  | O => None
  | S fuel =>
      let level := {| lc_bytes := lc_bytes above; lc_bits := lc_bits above + 1; lc_byte_strings := lc_byte_strings above |} in
      match dt with
      | DList item => leaf_costs fuel item (with_offsets level 4)
      | DLargeList item => leaf_costs fuel item (with_offsets level 8)
      | DStruct fields => mjoin <$> mapM (fun f : string * data_type => leaf_costs fuel f.2 level) fields
      | DText Utf8 => Some [with_byte_strings (with_offsets level 4)]
      | DText LargeUtf8 => Some [with_byte_strings (with_offsets level 8)]
      | DBoolean => Some [{| lc_bytes := lc_bytes level; lc_bits := lc_bits level + 1; lc_byte_strings := lc_byte_strings level |}]
      | DFixedSizeBinary width => Some [with_offsets level (Z.max width 0)]
      | DOther name =>
          match item_of_map name, item_of_fixed_list name with
          | Some item, _ => leaf_costs fuel item (with_offsets level 4)
          | None, Some item => leaf_costs fuel item level
          | None, None =>
              if bool_decide (name = "Binary"%string) then Some [with_byte_strings (with_offsets level 4)]
              else if bool_decide (name = "LargeBinary"%string) then Some [with_byte_strings (with_offsets level 8)]
              else if bool_decide (name = "Null"%string) then Some [level]
              else (fun width => [with_offsets level width]) <$> primitive_width dt
          end
      | _ => (fun width => [with_offsets level width]) <$> primitive_width dt
      end
  end.

(** The nesting looked into: more than a parquet schema may nest. *)
Definition NESTING : nat := 128.

(** [src/src/scan/scanner.rs:522-536] field_leaves. *)
Definition field_leaves table (field : Field) : option (list (nat * LeafCost)) :=
  costs ← leaf_costs NESTING (f_type field) {| lc_bytes := 0; lc_bits := 0; lc_byte_strings := false |};
  let indices := omap (fun e : nat * list string => if bool_decide (head e.2 = Some (f_name field)) then Some e.1 else None)
    (enumerate (pm_leaves (pq_metadata table))) in
  if (length indices =? length costs)%nat then Some (zip indices costs) else None.

(** [src/src/scan/scanner.rs:627-649] byte_string_bytes. *)
Definition byte_string_bytes (column : ColumnChunkMetaData) : option Z :=
  match cm_unencoded_byte_array_data_bytes column with
  | Some bytes => Some (Z.max bytes 0)
  | None =>
      let encodings := cm_encodings column in
      let keeps_values_whole := forallb (fun encoding => match encoding with OtherEncoding _ => false | _ => true end) encodings in
      let whole := negb (bool_decide (encodings = [])) && keeps_values_whole && bool_decide (cm_dictionary_page_offset column = None) in
      if whole then Some (Z.max (cm_uncompressed_size column) 0) else None
  end.

(** [src/src/scan/scanner.rs:606-625] decoded_bytes. *)
Definition decoded_bytes (column : ColumnChunkMetaData) (cost : LeafCost) (batches : Z) : option Z :=
  let entries := Z.max (cm_num_values column) 0 in
  let fixed := sat_mul entries (lc_bytes cost) in
  let bitmaps := sat_add (div_ceil (sat_mul entries (lc_bits cost)) 8) (sat_mul (lc_bits cost) batches) in
  contents ← (if lc_byte_strings cost then byte_string_bytes column else Some 0);
  Some (sat_add (sat_add fixed bitmaps) contents).

(** The leaves' bytes, added to a total. *)
Definition add_leaves (metadata : RowGroupMetaData) (batches : Z) (leaves : list (nat * LeafCost)) (total : Z) : option Z :=
  fold_left (fun total (leaf : nat * LeafCost) =>
    total ← total;
    column ← rg_columns metadata !! leaf.1;
    bytes ← decoded_bytes column leaf.2 batches;
    Some (sat_add total bytes)) leaves (Some total).

(** [src/src/scan/scanner.rs:510-520] column_bytes_bound. *)
Definition column_bytes_bound table (group index : nat) : option Z :=
  metadata ← row_group table group;
  field ← pq_schema table !! index;
  leaves ← field_leaves table field;
  add_leaves metadata 1 leaves 0.

(** [src/src/scan/scanner.rs:L476-487] estimate_scan_bytes: the leaves of the output. *)
Definition output_leaves table request : option (list (nat * LeafCost)) :=
  fold_left (fun leaves name =>
    leaves ← leaves;
    match field_with_name (pq_schema table) name with
    | None => Some leaves
    | Some field => field_leaves ← field_leaves table field; Some (leaves ++ field_leaves)
    end) (output_columns request) (Some []).

(** [src/src/scan/scanner.rs:466-508] estimate_scan_bytes. *)
Definition estimate_scan_bytes `{ArrowKernels} {X : Xxh3} {HK : HexKernel} table request : option Z :=
  leaves ← output_leaves table request;
  fold_left (fun total group =>
    total ← total;
    metadata ← row_group table (prg_index group);
    let rows := Z.max (rg_num_rows metadata) 0 in
    let batches := div_ceil rows (Z.max (batch_size request) 1) in
    total ← add_leaves metadata batches leaves total;
    Some (if positions request then sat_add total (sat_mul rows 8) else total)) (select_row_groups table request) (Some 0).
End costs.
End table.
Arguments ParquetTable : clear implicits.
