(* ===== verification/ParquetRead.v ===== *)
(** Reading a row group (src/scan/scanner.rs, src/scan/positions.rs and
    [ParquetTable::read] of src/scan/chunk.rs): the row filter a request makes, the
    rows it is seen to keep, and the batches with their positions and tags. What a
    parquet reader returns for its options is the crate's and a parameter. *)
From stdpp Require Import base strings list gmap.
From Stdlib Require Import ZArith Lia.
From S2P Require Import Prelude Machine ListLib Errors Arrow Integers Counting Rows KeyColumns Addresses Keys Render Sets Predicate PredicateSpec RowPredicate ItemLists Scan Columnar Reader Parquet.

#[local] Open Scope Z_scope.

(** ** What a parquet reader is asked *)

(** [RowSelector], and a [RowSelection]: rows to read and to skip, in turn. *)
Record RowSelector := { rs_row_count : nat; rs_skip : bool }.
Abbreviation RowSelection := (list RowSelector).
Definition select (rows : nat) : RowSelector := {| rs_row_count := rows; rs_skip := false |}.
Definition skip (rows : nat) : RowSelector := {| rs_row_count := rows; rs_skip := true |}.

(** [ArrowPredicate]: the columns it reads and its answer for a batch of them; and
    what it keeps of a batch beside its answer. *)
Record ArrowPredicate := {
  ap_projection : list nat;
  ap_mask : RecordBatch -> result mask;
  ap_keeps : RecordBatch -> result (list mask);
}.

(** What a [ParquetRecordBatchReaderBuilder] is given: no projection reads every column. *)
Record ReaderOptions := {
  ro_projection : option (list nat);
  ro_batch_size : Z;
  ro_row_groups : option (list nat);
  ro_row_selection : option RowSelection;
  ro_row_filter : list ArrowPredicate;
}.

(** The parquet crate: selections, and a reader built and read to its end. Beside its
    batches, [read_parquet] tells which batches each predicate was asked about. *)
Class ParquetReader (Bytes : Type) := {
  selection_of : list RowSelector -> RowSelection;
  selects_any : RowSelection -> bool;
  and_then : RowSelection -> RowSelection -> RowSelection;
  from_filters : list mask -> RowSelection;
  from_consecutive_ranges : list range -> nat -> RowSelection;
  read_parquet : ParquetTable Bytes -> ReaderOptions -> result (list (list RecordBatch) * list RecordBatch);
}.

Section read.
Context {K : ArrowKernels} {R : RowFormat} {X : Xxh3} {H : HexKernel} {B : BatchKernels}.
Context {Bytes : Type} {P : ParquetReader Bytes}.
Implicit Types (table : ParquetTable Bytes) (request : scan_request).

(** An error of the crate carries no kind. *)
Definition run_reader table (options : ReaderOptions) : result (list (list RecordBatch) * list RecordBatch) :=
  match read_parquet table options with
  | Err _ => Err OtherError
  | answer => answer
  end.

(** [ProjectionMask::roots]: a set of columns, ascending. *)
Definition projection_roots (indices : list nat) : list nat := dedup Nat.eqb (sort_by Nat.leb indices).

(** [src/src/scan/scanner.rs:911-918] roots. *)
Definition roots table (columns : list string) : list nat := projection_roots (omap (schema_index (pq_schema table)) columns).

(** [src/src/scan/chunk.rs:L305-316] ParquetTable::read: the groups to read. *)
Definition groups_selection table (row_groups : list nat) : RowSelection :=
  selection_of ((fun e : nat * RowGroupMetaData =>
    let num_rows := group_rows table e.1 in
    if bool_decide (e.1 ∈ row_groups) then select num_rows else skip num_rows) <$> enumerate (pm_row_groups (pq_metadata table))).

(** [src/src/scan/chunk.rs:260-314] ParquetTable::read. *)
Definition table_read table (columns : list string) (row_groups : option (list nat)) (batch_size : Z) : result (list RecordBatch) :=
  let* answer := run_reader table {|
    ro_projection := if bool_decide (columns = []) then None else Some (roots table columns);
    ro_batch_size := batch_size;
    ro_row_groups := None;
    ro_row_selection := groups_selection table <$> row_groups;
    ro_row_filter := [];
  |} in
  Ok answer.2.

(** [src/src/scan/scanner.rs:L162-174] ensure_block_numbers_readable: the groups that
    state no null count. *)
Definition unstated_groups table (bn_column : string) : result (list nat) :=
  foldM (fun unstated rg =>
    match column_stats table rg bn_column ≫= cs_null_count with
    | Some nulls => let* _ := ensure (nulls <=? 0) (EngineError MalformedChunkData) in Ok unstated
    | None => Ok (unstated ++ [rg])
    end) (seq 0 (num_row_groups table)) [].

(** [src/src/scan/scanner.rs:129-205] ensure_block_numbers_readable. *)
Definition ensure_block_numbers_readable table request : result () :=
  let* nullable := nullable_block_numbers (pq_schema table) request in
  match nullable with
  | None => Ok tt
  | Some bn_column =>
      let* unstated := unstated_groups table bn_column in
      if bool_decide (unstated = []) then Ok tt
      else
        let* batches := table_read table [bn_column] (Some unstated) 8192 in
        foldM (fun _ batch =>
          let* column := expect (columns batch !! 0%nat) in
          ensure (null_count column.2 =? 0)%nat (EngineError MalformedChunkData)) batches tt
  end.

(** ** Tags *)

(** [src/src/scan/positions.rs:80-86] ItemTags: the items of each tag, by their places
    among those evaluated. *)
Abbreviation ItemTags := (list (list nat)).

(** [Iterator::position]. *)
Definition position_of (item : nat) (active : list nat) : option nat := fst <$> list_find (eq item) active.

(** [src/src/scan/positions.rs:89-109] ItemTags::new. *)
Definition ItemTags_new request (active : list nat) : option ItemTags :=
  let tags := (fun items : list nat => omap (fun item => position_of item active) items : list nat) <$> item_tags request in
  if bool_decide (tags = []) then None else Some tags.

(** [src/src/scan/positions.rs:111-133] ItemTags::record: what it keeps of a batch. *)
Definition ItemTags_record (tags : ItemTags) (masks : list mask) (matched : mask) : result (list mask) :=
  mapM_ok (fun items =>
    let* m := or_masks masks items (length matched) in
    Ok (of_bools (selected_bits (filter_bool m matched)))) tags.

(** [src/src/scan/positions.rs:135-152] ItemTags::finish. *)
Definition ItemTags_finish (tags : nat) (recorded : list (list mask)) : result (list mask) :=
  mapM_ok (fun tag => let* parts := mapM_ok (fun batch => vec_get batch tag) recorded in Ok (concat parts)) (seq 0 tags).

(** ** The stages of a row filter *)

Definition compute_error {A} (r : outcome UnsupportedType A) : result A :=
  match r with Ok a => Ok a | Err _ => Err OtherError | Panic => Panic end.

(** A predicate that keeps nothing of a batch. *)
Definition stage (projection : list nat) (mask_of : RecordBatch -> result mask) : ArrowPredicate :=
  {| ap_projection := projection; ap_mask := mask_of; ap_keeps _ := Ok [] |}.

(** [src/src/scan/scanner.rs:920-939] block_stage. *)
Definition block_stage table (column : string) (from to : option Z) : ArrowPredicate :=
  stage (roots table [column]) (fun batch =>
    match column_by_name batch column with
    | None => Ok (all_mask (num_rows batch) true)
    | Some column => block_range_mask column from to
    end).

(** [src/src/scan/scanner.rs:941-949] key_stage. *)
Definition key_stage table (keys : KeyFilter) : ArrowPredicate :=
  stage (roots table (kf_columns keys)) (fun batch => kf_mask keys batch None).

(** [src/src/scan/scanner.rs:951-967] address_stage. *)
Definition address_stage table (addresses : HierarchicalFilter) : ArrowPredicate :=
  stage (roots table (hf_group_key_columns addresses ++ [hf_address_column addresses])) (fun batch => hf_mask addresses batch None).

(** [src/src/scan/scanner.rs:984-1024] lone_item_stages. *)
Definition lone_item_stages table (item : RowPredicate predicate) : list ArrowPredicate :=
  let rest := with_alternatives (drop 1 (rp_columns item)) (rp_alternatives item) in
  match rp_columns item with
  | first :: _ =>
      [stage (roots table [cp_column first]) (fun batch =>
        match column_by_name batch (cp_column first) with
        | None => Ok (all_mask (num_rows batch) true)
        | Some column => compute_error (ap_evaluate (cp_predicate first) column)
        end)]
  | [] => []
  end ++
  (if matches_every_row rest then []
   else [stage (roots table (RowPredicate.required_columns rest)) (fun batch => compute_error (row_evaluate rest batch))]).

(** [src/src/scan/scanner.rs:L1062-1069] every_item_stages: each item's mask, and the
    rows some item matches. *)
Definition items_matched (items : list (RowPredicate predicate)) (batch : RecordBatch) : result (list mask * mask) :=
  let* masks := mapM_ok (fun item => compute_error (row_evaluate item batch)) items in
  let* matched := or_masks masks (seq 0 (length items)) (num_rows batch) in
  Ok (masks, matched).

(** [src/src/scan/scanner.rs:1026-1078] every_item_stages. *)
Definition every_item_stages table (items : list (RowPredicate predicate)) (tags : option ItemTags) (union : option (RowPredicate predicate)) :
  list ArrowPredicate :=
  let every_row := existsb matches_every_row items in
  if every_row && bool_decide (tags = None) then []
  else
    match (if every_row then None else union) with
    | Some union => [stage (roots table (RowPredicate.required_columns union)) (fun batch => compute_error (row_evaluate union batch))]
    | None => []
    end ++
    [{| ap_projection := roots table (items ≫= RowPredicate.required_columns);
        ap_mask batch := let* r := items_matched items batch in Ok r.2;
        ap_keeps batch :=
          match tags with
          | Some tags => let* r := items_matched items batch in ItemTags_record tags r.1 r.2
          | None => Ok []
          end |}].

(** [src/src/scan/scanner.rs:969-982] item_stages. *)
Definition item_stages table (items : list (RowPredicate predicate)) (tags : option ItemTags) (union : option (RowPredicate predicate)) :
  list ArrowPredicate :=
  match items, tags with
  | [], _ => []
  | [item], None => lone_item_stages table item
  | _, _ => every_item_stages table items tags union
  end.

(** [src/src/scan/scanner.rs:854-863] ReaderFilter. *)
Record ReaderFilter := {
  rdf_stages : list ArrowPredicate;
  rdf_blocks_after : option (option Z * option Z);
  rdf_tags : option ItemTags;
}.

(** [src/src/scan/scanner.rs:865-909] reader_filter. *)
Definition reader_filter table request (group : PreparedRowGroup) (union : option (RowPredicate predicate)) : result ReaderFilter :=
  let filters := RowFilters_of request in
  match rf_relation filters with
  | RAddresses addresses =>
      if decide (predicates request = []) then
        Ok {| rdf_stages := [address_stage table addresses]; rdf_blocks_after := rf_blocks filters; rdf_tags := None |}
      else Panic
  | relation =>
      let blocks :=
        match rf_blocks filters, block_number_column request with
        | Some (from, to), Some column => [block_stage table column from to]
        | _, _ => []
        end in
      let keys := match relation with RKeys keys => [key_stage table keys] | _ => [] end in
      let* items := prg_items group request in
      let tags := if bool_decide (items = []) then None else ItemTags_new request (prg_active_items group) in
      Ok {| rdf_stages := blocks ++ keys ++ item_stages table items tags union; rdf_blocks_after := None; rdf_tags := tags |}
  end.

(** ** The rows the stages kept *)

(** [src/src/scan/positions.rs:L40-46] TrackedRows::wrap: a mask as it is recorded. *)
Definition recorded_mask (m : mask) : mask :=
  if forallb (fun b => bool_decide (is_Some b)) m then m else (fun value => Some (default false value)) <$> m.

(** [src/src/scan/positions.rs:24-53] TrackedRows::wrap: what is recorded of each stage's
    answers. *)
Definition tracked_masks (stages : list ArrowPredicate) (calls : list (list RecordBatch)) : result (list (list mask)) :=
  mapM_ok (fun e : ArrowPredicate * list RecordBatch =>
    mapM_ok (fun batch => let* m := ap_mask e.1 batch in Ok (recorded_mask m)) e.2) (zip stages calls).

(** [src/src/scan/positions.rs:L59-67] TrackedRows::finish: the rows every stage kept. *)
Fixpoint compose_stages (selection : RowSelection) (stages : list (list mask)) : RowSelection :=
  match stages with
  | [] => selection
  | masks :: stages => if selects_any selection then compose_stages (and_then selection (from_filters masks)) stages else selection
  end.

(** [src/src/scan/positions.rs:L69-77] TrackedRows::finish: their positions. *)
Definition selection_positions (start : nat) (selection : RowSelection) : list Z :=
  (fold_left (fun '(positions, row) (selector : RowSelector) =>
    let next := (row + rs_row_count selector)%nat in
    (if rs_skip selector then positions else positions ++ (Z.of_nat <$> seq row (rs_row_count selector)), next))
    selection ([], start) : list Z * nat).1.

(** [src/src/scan/positions.rs:55-77] TrackedRows::finish. *)
Definition TrackedRows_finish table (group : nat) (stages : list (list mask)) : list Z :=
  selection_positions (row_group_start table group) (compose_stages (selection_of [select (group_rows table group)]) stages).

(** ** A row group *)

(** [src/src/scan/scanner.rs:1080-1093] reader_columns. *)
Definition reader_columns request (filter : ReaderFilter) : list string :=
  output_columns request ++
  (if rdf_blocks_after filter then option_list (block_number_column request) else []).

(** [src/src/scan/scanner.rs:L1122-1160] read_row_group: one batch. The state is the
    batches so far and the rows read. *)
Definition take_batch request (output_schema : Schema) (filter : ReaderFilter) (positions : option (list Z)) (tags : option (list mask))
  (st : list ScannedBatch * nat) (batch : RecordBatch) : result (list ScannedBatch * nat) :=
  let (batches, rows_read) := st in
  let rows := num_rows batch in
  if (rows =? 0)%nat then Ok (batches, rows_read)
  else
    let* projected := project_to batch output_schema in
    let positions := (fun positions => slice positions rows_read (rows_read + rows)) <$> positions in
    let scanned :=
      match tags with
      | Some tags => {| sb_batch := projected; sb_positions := positions; sb_tags := (fun tag => slice tag rows_read (rows_read + rows)) <$> tags |}
      | None => untagged request projected positions
      end in
    let* scanned :=
      match rdf_blocks_after filter, block_number_column request ≫= column_by_name batch with
      | Some (from, to), Some column => let* m := block_range_mask column from to in Ok (scanned_filter scanned m)
      | _, _ => Ok scanned
      end in
    Ok (if (0 <? num_rows (sb_batch scanned))%nat then batches ++ [scanned] else batches, (rows_read + rows)%nat).

(** [src/src/scan/scanner.rs:1095-1161] read_row_group. *)
Definition read_row_group table (group : nat) request (output_schema : Schema) (filter : ReaderFilter) : result (list ScannedBatch) :=
  let* (calls, read) := run_reader table {|
    ro_projection := Some (roots table (reader_columns request filter));
    ro_batch_size := batch_size request;
    ro_row_groups := Some [group];
    ro_row_selection := None;
    ro_row_filter := rdf_stages filter;
  |} in
  let* positions :=
    if positions request then
      let* masks := tracked_masks (rdf_stages filter) calls in Ok (Some (TrackedRows_finish table group masks))
    else Ok None in
  let* tags :=
    match rdf_tags filter, last (zip (rdf_stages filter) calls) with
    | Some tags, Some (stage, batches) =>
        let* recorded := mapM_ok (ap_keeps stage) batches in
        let* tags := ItemTags_finish (length tags) recorded in Ok (Some tags)
    | Some tags, None => let* tags := ItemTags_finish (length tags) [] in Ok (Some tags)
    | None, _ => Ok None
    end in
  let* st := foldM (take_batch request output_schema filter positions tags) read ([], 0%nat) in
  Ok st.1.

(** [src/src/scan/scanner.rs:840-852] scan_row_group. *)
Definition scan_row_group table (group : PreparedRowGroup) request (output_schema : Schema) (union : option (RowPredicate predicate)) :
  result (list ScannedBatch) :=
  let* filter := reader_filter table request group union in
  read_row_group table (prg_index group) request output_schema filter.

(** ** Rows by position *)

(** [src/src/scan/positions.rs:L178-188] read_rows: the rows of each group. *)
Fixpoint split_groups table (groups : list nat) (offset : nat) (pending : list Z) : list (nat * nat * nat * list Z) :=
  match groups with
  | [] => []
  | group :: groups =>
      let count := group_rows table group in
      let end_ := (offset + count)%nat in
      let at_ := partition_point (fun row => row <? Z.of_nat end_) pending in
      let selected := take at_ pending in
      let rest := split_groups table groups end_ (drop at_ pending) in
      if bool_decide (selected = []) then rest else (group, offset, count, selected) :: rest
  end.

(** [src/src/scan/positions.rs:L189-221] read_rows: one group's rows. *)
Definition read_selected table request (schema : Schema) (g : nat * nat * nat * list Z) : result (list ScannedBatch) :=
  let '(group, offset, count, selected) := g in
  let ranges := (fun row => let position := (Z.to_nat row - offset)%nat in (position, S position)) <$> selected in
  let* (_, read) := run_reader table {|
    ro_projection := Some (roots table (output_columns request));
    ro_batch_size := batch_size request;
    ro_row_groups := Some [group];
    ro_row_selection := Some (from_consecutive_ranges ranges count);
    ro_row_filter := [];
  |} in
  let* st := foldM (fun '(batches, position_offset) batch =>
    let* batch := project_to batch schema in
    let end_ := (position_offset + num_rows batch)%nat in
    let* positions :=
      if positions request then
        if (end_ <=? length selected)%nat then Ok (Some (slice selected position_offset end_)) else Panic
      else Ok None in
    Ok (batches ++ [untagged request batch positions], end_)) read ([], 0%nat) in
  Ok st.1.

(** [src/src/scan/positions.rs:155-225] read_rows. *)
Definition read_rows table request (rows : list Z) : result (list ScannedBatch) :=
  let* _ := ensure (forallb (fun p : Z * Z => p.1 <? p.2) (zip rows (tail rows)) &&
    match last rows with Some row => row <? as_u64 (pm_num_rows (pq_metadata table)) | None => true end) (EngineError MalformedChunkData) in
  let schema := build_output_schema (pq_schema table) (output_columns request) in
  let groups := split_groups table (seq 0 (num_row_groups table)) 0 rows in
  let* read := mapM_ok (read_selected table request schema) groups in
  Ok (concat read).
End read.
