(* ===== verification/DecodedColumns.v ===== *)
(** Whole columns decoded once for the scans of a pass (src/scan/columns.rs and
    [scan_decoded_row_group] of src/scan/scanner.rs): what the cache holds, what it
    counts against its budget, and a row group filtered in memory. Scans that share a
    cache take its locks in turn, and each call here is one of them. *)
From stdpp Require Import base strings list gmap.
From Stdlib Require Import ZArith Lia.
From S2P Require Import Prelude Machine ListLib Errors Arrow Integers Counting Rows KeyColumns Addresses Keys Render Sets Predicate PredicateSpec RowPredicate Scan Columnar Reader Parquet ParquetRead.

#[local] Open Scope Z_scope.

(** [RecordBatch::try_new_with_options] with a row count, and what an array's buffers
    hold ([get_array_memory_size] of an array without spare capacity). *)
Class MemoryKernels := {
  try_new_with_row_count : Schema -> list array -> nat -> option RecordBatch;
  array_memory_size : array -> Z;
}.

(** [src/src/scan/columns.rs:60-65] WindowRows. *)
Inductive WindowRows := WrAll (rows : nat) | WrSome (offsets : list Z).

(** [src/src/scan/columns.rs:68-73] WindowRows::len. *)
Definition wr_len (self : WindowRows) : nat :=
  match self with WrAll rows => rows | WrSome offsets => length offsets end.

(** [src/src/scan/columns.rs:75-81] WindowRows::offset. *)
Definition wr_offset (self : WindowRows) (row : nat) : result nat :=
  match self with
  | WrAll _ => Ok row
  | WrSome offsets => let* offset := vec_get offsets row in Ok (Z.to_nat offset)
  end.

(** [src/src/scan/columns.rs:39-44] WindowKey, ColumnKey. *)
Abbreviation WindowKey := (nat * nat * (Z * Z))%type.
Abbreviation ColumnKey := (nat * nat * nat * (Z * Z))%type.

(** [src/src/scan/columns.rs:32-37] Inner: a slot holds nothing until it is filled. *)
Record Inner := {
  in_budget : Z;
  in_used : Z;
  in_windows : gmap WindowKey (option WindowRows);
  in_columns : gmap ColumnKey (option array);
}.

(** [src/src/scan/columns.rs:103-112] ColumnCache::new. *)
Definition Inner_new (budget : Z) : Inner := {| in_budget := budget; in_used := 0; in_windows := ∅; in_columns := ∅ |}.

(** [src/src/scan/columns.rs:119-132] ColumnCache::clear. *)
Definition Inner_clear (self : Inner) : Inner := {| in_budget := in_budget self; in_used := 0; in_windows := ∅; in_columns := ∅ |}.

(** [src/src/scan/columns.rs:55-57] Window::bounds. *)
Definition window_bounds (self : Window) : Z * Z := (default 0 (w_from self), default u64_max (w_to self)).

(** [src/src/scan/columns.rs:315-321] Inner::reserve: the bytes counted then. *)
Definition reserve (budget used bytes : Z) : option Z :=
  total ← checked_add used bytes;
  if total <=? budget then Some total else None.

(** [src/src/scan/columns.rs:323-335] Inner::settle: whether the budget takes them, and
    the bytes counted then. *)
Definition settle (budget used reserved actual : Z) : bool * Z :=
  let rest := sat_sub used reserved in
  let total := sat_add rest actual in
  if total <=? budget then (true, total) else (false, rest).

(** [src/src/scan/columns.rs:271-312] hold: the answer, the slots and the bytes counted. *)
Definition hold {Key T} `{Countable Key} (slots : gmap Key (option T)) (budget used : Z) (key : Key) (most : option Z) (size : T -> Z) (load : result T) :
  result (option T) * gmap Key (option T) * Z :=
  let slot := default None (slots !! key) in
  let slots := <[key := slot]> slots in
  match slot with
  | Some value => (Ok (Some value), slots, used)
  | None =>
      match (most ≫= fun most => pair most <$> reserve budget used most) with
      | None => (Ok None, slots, used)
      | Some (most, used) =>
          match load with
          | Err error => (Err error, slots, (settle budget used most 0).2)
          | Panic => (Panic, slots, used)
          | Ok value =>
              let (taken, used) := settle budget used most (size value) in
              (Ok (Some value), if taken then <[key := Some value]> slots else slots, used)
          end
      end
  end.

Section cache.
Context {K : ArrowKernels} {R : RowFormat} {X : Xxh3} {HK : HexKernel} {B : BatchKernels} {M : MemoryKernels} {TL : TypeLayout}.
Context {Bytes : Type} {P : ParquetReader Bytes}.
Implicit Types (table : ParquetTable Bytes) (request : scan_request).

(** [src/src/scan/columns.rs:204-208] empty_size. *)
Definition empty_size (dt : data_type) : Z := array_memory_size (new_empty_array dt).

(** [src/src/scan/columns.rs:187-192] window_reservation. *)
Definition window_reservation table (group : nat) : option Z :=
  metadata ← row_group table group;
  Some (sat_add (wrapping_mul (as_u64 (Z.max (rg_num_rows metadata) 0)) 4) (empty_size (DInt UInt32))).

(** [src/src/scan/columns.rs:194-202] column_reservation. *)
Definition column_reservation table (group index : nat) : option Z :=
  values ← column_bytes_bound table group index;
  field ← pq_schema table !! index;
  Some (sat_add values (empty_size (f_type field))).

(** [src/src/scan/columns.rs:253-269] runs: the rows that follow one another, joined. *)
Definition runs (offsets : list Z) : list range := fold_left push_row (Z.to_nat <$> offsets) [].

(** [src/src/scan/columns.rs:210-251] decode_rows. *)
Definition decode_rows table (group index : nat) (rows : WindowRows) : result array :=
  let* (_, read) := run_reader table {|
    ro_projection := Some (projection_roots [index]);
    ro_batch_size := Z.of_nat (Nat.max (wr_len rows) 1);
    ro_row_groups := Some [group];
    ro_row_selection :=
      match rows with
      | WrSome offsets => Some (from_consecutive_ranges (runs offsets) (group_rows table group))
      | WrAll _ => None
      end;
    ro_row_filter := [];
  |} in
  let* parts := mapM_ok (fun batch => let* column := expect (columns batch !! 0%nat) in Ok column.2) read in
  match parts with
  | [] => let* field := expect (pq_schema table !! index) in Ok (new_empty_array (f_type field))
  | [part] => Ok part
  | _ => ok_or (concat_arrays parts) OtherError
  end.

(** [src/src/scan/scanner.rs:L1283-1291] window_rows: the rows of a batch inside. *)
Definition inside_mask (window : Window) (batch : RecordBatch) : result (list bool) :=
  let* blocks := expect (columns batch !! 0%nat) in
  let from := w_from window ≫= fun b => if 0 <? b then Some b else None in
  let* inside := block_range_mask blocks.2 from (w_to window) in
  Ok (selected_bits inside).

(** [src/src/scan/scanner.rs:L1298-1303] window_rows: their offsets, batch by batch. *)
Definition window_offsets (masks : list (list bool)) : list Z :=
  (fold_left (fun '(offsets, start) (mask : list bool) =>
    (offsets ++ ((fun row => as_u32 (start + Z.of_nat row)) <$> omap (fun e : nat * bool => if e.2 then Some e.1 else None) (enumerate mask)),
     as_u32 (start + Z.of_nat (length mask)))) masks ([], 0) : list Z * Z).1.

(** [src/src/scan/scanner.rs:1256-1257] WINDOW_BATCH. *)
Definition WINDOW_BATCH : Z := Z.shiftl 1 16.

(** [src/src/scan/scanner.rs:1259-1310] window_rows. *)
Definition window_rows table (group : nat) (window : Window) (block_column : option string) : result WindowRows :=
  let rows := group_rows table group in
  let bounded := match w_from window with Some b => 0 <? b | None => false end || bool_decide (is_Some (w_to window)) in
  let block_index := block_column ≫= fun name => index ← schema_index (pq_schema table) name; if bounded then Some index else None in
  match block_index with
  | None => Ok (WrAll rows)
  | Some index =>
      let* (_, read) := run_reader table {|
        ro_projection := Some (projection_roots [index]);
        ro_batch_size := WINDOW_BATCH;
        ro_row_groups := Some [group];
        ro_row_selection := None;
        ro_row_filter := [];
      |} in
      let* masks := mapM_ok (inside_mask window) read in
      let inside := sum_list ((fun mask => length (filter (eq true) mask)) <$> masks) in
      if (inside =? rows)%nat then Ok (WrAll rows) else Ok (WrSome (window_offsets masks))
  end.

(** [src/src/scan/columns.rs:134-158] ColumnCache::window_rows. *)
Definition cache_window_rows (cache : Inner) table (group : nat) (window : Window) (rows : result WindowRows) : result (option WindowRows) * Inner :=
  let key := (pq_file table, group, window_bounds window) in
  let size held := match held with WrAll _ => 0 | WrSome offsets => array_memory_size (AInt UInt32 offsets None) end in
  let '(answer, windows, used) := hold (in_windows cache) (in_budget cache) (in_used cache) key (window_reservation table group) size rows in
  (answer, {| in_budget := in_budget cache; in_used := used; in_windows := windows; in_columns := in_columns cache |}).

(** [src/src/scan/columns.rs:160-184] ColumnCache::column. *)
Definition cache_column (cache : Inner) table (group index : nat) (window : Window) (rows : WindowRows) : result (option array) * Inner :=
  let key := (pq_file table, group, index, window_bounds window) in
  let '(answer, cols, used) := hold (in_columns cache) (in_budget cache) (in_used cache) key (column_reservation table group index) array_memory_size
    (decode_rows table group index rows) in
  (answer, {| in_budget := in_budget cache; in_used := used; in_windows := in_windows cache; in_columns := cols |}).

(** [src/src/scan/scanner.rs:L1188-1199] scan_decoded_row_group: the columns read, if
    the cache takes them all. *)
Fixpoint cached_columns (cache : Inner) table (group : nat) (window : Window) (rows : WindowRows) (names : list string)
  : result (option (list (Field * array))) * Inner :=
  match names with
  | [] => (Ok (Some []), cache)
  | name :: names =>
      match field_with_name (pq_schema table) name, schema_index (pq_schema table) name with
      | Some field, Some index =>
          let (column, cache) := cache_column cache table group index window rows in
          match column with
          | Ok (Some column) =>
              let (rest, cache) := cached_columns cache table group window rows names in
              ((let* rest := rest in Ok ((fun rest => (field, column) :: rest) <$> rest)), cache)
          | Ok None => (Ok None, cache)
          | Err e => (Err e, cache)
          | Panic => (Panic, cache)
          end
      | _, _ => cached_columns cache table group window rows names
      end
  end.

(** [src/src/scan/scanner.rs:L1206-1225] scan_decoded_row_group: the rows to keep. *)
Definition decoded_keep request (batch : RecordBatch) : result (list bool) :=
  let filters := RowFilters_of request in
  let keep := replicate (num_rows batch) true in
  let* keep :=
    match rf_blocks filters, block_number_column request ≫= column_by_name batch with
    | Some (from, to), Some column => let* m := block_range_mask column from to in Ok (zip_with andb keep (selected_bits m))
    | _, _ => Ok keep
    end in
  match rf_relation filters with
  | RAddresses hf => let* m := hf_mask hf batch (Some keep) in Ok (zip_with andb keep (selected_bits m))
  | RKeys kf => let* m := kf_mask kf batch (Some keep) in Ok (zip_with andb keep (selected_bits m))
  | RNone => Ok keep
  end.

(** [src/src/scan/scanner.rs:L1227-1251] scan_decoded_row_group: the rows kept, as batches. *)
Definition decoded_batches table (group : nat) (window_rows : WindowRows) request (output_schema : Schema) (batch : RecordBatch) :
  result (list ScannedBatch) :=
  let* keep := decoded_keep request batch in
  let kept := length (filter (eq true) keep) in
  if (kept =? 0)%nat then Ok []
  else
    let selected := of_bools keep in
    let* projected := project_to batch output_schema in
    let batch := filter_record_batch projected selected in
    let* positions :=
      if positions request then
        let start := row_group_start table group in
        let* offsets := mapM_ok (wr_offset window_rows) (omap (fun e : nat * bool => if e.2 then Some e.1 else None) (enumerate keep)) in
        Ok (Some ((fun offset => Z.of_nat (start + offset)) <$> offsets))
      else Ok None in
    let tags := (fun items : list nat => of_bools (replicate kept (negb (bool_decide (items = []))))) <$> item_tags request in
    Ok (split {| sb_batch := batch; sb_positions := positions; sb_tags := tags |} (batch_size request)).

(** [src/src/scan/scanner.rs:1163-1254] scan_decoded_row_group. *)
Definition scan_decoded_row_group (cache : Inner) table (group : nat) (read_columns : list string) request (output_schema : Schema) :
  result (option (list ScannedBatch)) * Inner :=
  let window := default {| w_from := None; w_to := None |} (window request) in
  let (found, cache) := cache_window_rows cache table group window (window_rows table group window (block_number_column request)) in
  match found with
  | Err e => (Err e, cache)
  | Panic => (Panic, cache)
  | Ok None => (Ok None, cache)
  | Ok (Some rows) =>
      let (cols, cache) := cached_columns cache table group window rows read_columns in
      ((let* cols := cols in
        match cols with
        | None => Ok None
        | Some cols =>
            let* batch := ok_or (try_new_with_row_count cols.*1 cols.*2 (wr_len rows)) OtherError in
            let* batches := decoded_batches table group rows request output_schema batch in
            Ok (Some batches)
        end), cache)
  end.
End cache.
