(* ===== verification/ParquetScan.v ===== *)
(** A scan of a parquet table and the reader of a chunk of parquet files
    (src/scan/scanner.rs, src/scan/chunk.rs): the checks, the row groups, each
    filtered in memory where the cache holds its columns and read otherwise. *)
From stdpp Require Import base strings list gmap.
From Stdlib Require Import ZArith Lia.
From S2P Require Import Prelude Machine ListLib Errors Arrow Integers Counting Rows KeyColumns Addresses Keys Render Sets Predicate PredicateSpec RowPredicate Scan Columnar Reader Parquet ParquetRead DecodedColumns.

#[local] Open Scope Z_scope.

(** A file of a chunk's directory, and what reading its footer gives. *)
Record Footer (Bytes : Type) := { ft_data : Bytes; ft_metadata : ParquetMetaData; ft_schema : Schema }.
Arguments ft_data {Bytes} _.
Arguments ft_metadata {Bytes} _.
Arguments ft_schema {Bytes} _.

(** A chunk's directory: which tables have a file, and what opening one gives, with
    the identity of the file it opened. *)
Record ParquetDirectory (Bytes : Type) := {
  pd_is_file : string -> bool;
  pd_load : string -> result (nat * Footer Bytes);
}.
Arguments pd_is_file {Bytes} _.
Arguments pd_load {Bytes} _.

Section scan.
Context {K : ArrowKernels} {R : RowFormat} {X : Xxh3} {HK : HexKernel} {B : BatchKernels} {M : MemoryKernels} {TL : TypeLayout}.
Context {Bytes : Type} {P : ParquetReader Bytes}.
Implicit Types (table : ParquetTable Bytes) (request : scan_request).

(** [src/src/scan/scanner.rs:89-127] collect_read_columns: in the order the set
    gives them. *)
Definition collect_read_columns table request : list string :=
  let all_columns : gset string := list_to_set (
    output_columns request ++ (predicates request ≫= RowPredicate.required_columns) ++ option_list (block_number_column request) ++
    match key_filter request with Some kf => kf_block_number_column kf :: kf_columns kf | None => [] end ++
    match hierarchical_filter request with Some hf => hf_group_key_columns hf ++ [hf_address_column hf] | None => [] end) in
  filter (fun c => is_Some (column_index table c)) (elements all_columns).

(** [src/src/scan/scanner.rs:L354-371] scan_batches: one row group. *)
Definition scan_group table request (unions : gmap (list nat) (option (RowPredicate predicate))) (cached : option Inner)
  (group : PreparedRowGroup) : result (list ScannedBatch) * option Inner :=
  let output_schema := build_output_schema (pq_schema table) (output_columns request) in
  let read := scan_row_group table group request output_schema (ItemUnions_get unions (prg_active_items group)) in
  match cached with
  | None => (read, None)
  | Some cache =>
      let (decoded, cache) := scan_decoded_row_group cache table (prg_index group) (collect_read_columns table request) request output_schema in
      (match decoded with
       | Err e => Err e
       | Panic => Panic
       | Ok (Some batches) => Ok batches
       | Ok None => read
       end, Some cache)
  end.

(** Every row group, with what the cache holds after each. *)
Fixpoint scan_groups table request unions (cached : option Inner) (groups : list PreparedRowGroup) :
  list (result (list ScannedBatch)) * option Inner :=
  match groups with
  | [] => ([], cached)
  | group :: groups =>
      let (read, cached) := scan_group table request unions cached group in
      let (rest, cached) := scan_groups table request unions cached groups in
      (read :: rest, cached)
  end.

(** The first failure in row group order; a panic of any is raised again. *)
Definition gathered (results : list (result (list ScannedBatch))) : result (list ScannedBatch) :=
  let* settled := mapM_ok (fun r : result (list ScannedBatch) => match r with Panic => Panic | r => Ok r end) results in
  let* batches := mapM_ok id settled in
  Ok (concat batches).

(** [src/src/scan/scanner.rs:L327-330] scan_batches: the checks. *)
Definition scan_checks table request : result () :=
  let* _ := ensure_columns_present (pq_schema table) request in
  let* _ := ensure_predicates_comparable (pq_schema table) request in
  ensure_block_numbers_readable table request.

(** [src/src/scan/scanner.rs:327-382] scan_batches: [cache] is what the request's
    [column_cache] holds. *)
Definition scan_batches table request (cache : option Inner) : result (list ScannedBatch) * option Inner :=
  match scan_checks table request with
  | Err e => (Err e, cache)
  | Panic => (Panic, cache)
  | Ok _ =>
      match row_indices request with
      | Some rows => (read_rows table request rows, cache)
      | None =>
          let row_groups := select_row_groups table request in
          if bool_decide (row_groups = []) then (Ok [], cache)
          else
            let cached := if forallb matches_every_row (predicates request) then cache else None in
            match ItemUnions_build request row_groups with
            | Err e => (Err e, cache)
            | Panic => (Panic, cache)
            | Ok unions =>
                let (results, held) := scan_groups table request unions cached row_groups in
                (gathered results, match cached with Some _ => held | None => cache end)
            end
      end
  end.

(** [src/src/scan/scanner.rs:321-325] scan_rows. *)
Definition parquet_scan_rows table request (cache : option Inner) : result Scanned * option Inner :=
  let (batches, cache) := scan_batches table request cache in
  (let* batches := batches in collect request batches, cache).

(** [src/src/scan/scanner.rs:315-319] scan. *)
Definition parquet_scan table request (cache : option Inner) : result (list RecordBatch) * option Inner :=
  let (scanned, cache) := parquet_scan_rows table request cache in
  (let* scanned := scanned in Ok (rw_batches (sc_rows scanned)), cache).

(** ** A chunk of parquet files *)

(** [src/src/scan/chunk.rs:156-182] ParquetTable::open. *)
Definition ParquetTable_open (name : string) (file : nat) (footer : Footer Bytes) : ParquetTable Bytes := {|
  pq_name := name; pq_file := file; pq_data := ft_data footer; pq_metadata := ft_metadata footer; pq_schema := ft_schema footer;
  pq_statistics_leaves := statistics_leaves (ft_metadata footer);
|}.

(** [src/src/scan/chunk.rs:51-60] ParquetChunkReader: its directory and the tables it
    has opened. *)
Abbreviation opened_tables := (gmap string (ParquetTable Bytes)).

(** [src/src/scan/chunk.rs:84-111] ParquetChunkReader::table. *)
Definition reader_table (chunk : ParquetDirectory Bytes) (tables : opened_tables) (table : string) : result (option (ParquetTable Bytes)) * opened_tables :=
  match tables !! table with
  | Some opened => (Ok (Some opened), tables)
  | None =>
      if negb (pd_is_file chunk table) then (Ok None, tables)
      else
        match pd_load chunk table with
        | Ok (file, footer) =>
            let opened := ParquetTable_open table file footer in
            (Ok (Some opened), <[table := opened]> tables)
        | Err _ => (Err (EngineError MalformedChunkData), tables)
        | Panic => (Panic, tables)
        end
  end.

(** [src/src/scan/chunk.rs:119-128] ParquetChunkReader::scan_rows. *)
Definition reader_scan_rows (chunk : ParquetDirectory Bytes) (tables : opened_tables) (table : string) request (cache : option Inner) :
  result Scanned * opened_tables * option Inner :=
  let (opened, tables) := reader_table chunk tables table in
  match opened with
  | Err e => (Err e, tables, cache)
  | Panic => (Panic, tables, cache)
  | Ok None => (Err (EngineError TableNotFound), tables, cache)
  | Ok (Some opened) =>
      let (scanned, cache) := parquet_scan_rows opened request cache in (scanned, tables, cache)
  end.

(** What is asked of an opened table; nothing of one that does not open. *)
Definition of_opened {A} (chunk : ParquetDirectory Bytes) (tables : opened_tables) (table : string) (f : ParquetTable Bytes -> option A) : option A :=
  match (reader_table chunk tables table).1 with Ok (Some opened) => f opened | _ => None end.

(** [src/src/scan/chunk.rs:51-60] ParquetChunkReader: the trait's methods, of a reader
    that has opened [tables] and of caches that hold what [held] says. *)
Definition parquet_reader (chunk : ParquetDirectory Bytes) (tables : opened_tables) (held : ColumnCache -> Inner) : ChunkReader := {|
  cr_scan_rows name request := (reader_scan_rows chunk tables name request (held <$> column_cache request)).1.1;
  cr_supports_row_positions := true;
  cr_next_block_range_end name block_column from_block := of_opened chunk tables name (fun table => next_block_range_end table block_column from_block);
  cr_estimate_scan_bytes name request := of_opened chunk tables name (fun table => estimate_scan_bytes table request);
  cr_has_table := pd_is_file chunk;
  cr_table_schema name := of_opened chunk tables name (fun table => Some (pq_schema table));
|}.
End scan.
