(* ===== verification/Sources.v ===== *)
(** The tables a response carries and the sources of each (src/output/sources.rs):
    both output formats take their tables from [output_tables], which gives each
    catalog table with a source, in catalog order, its sources in plan order. *)
From stdpp Require Import base strings list.
From Stdlib Require Import ZArith Lia Sorting.Sorted.
From S2P Require Import Prelude Machine ListLib Errors Arrow Catalog Rows Projection.

#[local] Open Scope nat_scope.

(** [src/src/output/sources.rs:12-18] OutputHeader. *)
Record OutputHeader := { oh_projection : ResolvedProjection; oh_batches : list RecordBatch }.

(** [src/src/output/sources.rs:20-25] OutputSource. *)
Record OutputSource := { os_projection : ResolvedProjection; os_rows : Rows }.

(** [src/src/output/sources.rs:27-33] OutputTable. *)
Record OutputTable := { out_name : string; out_desc : TableDescription; out_sources : list OutputSource }.

(** [IndexMap::get_full]. *)
Fixpoint get_full {A} (l : list (string * A)) (name : string) : option (nat * string * A) :=
  match l with
  | [] => None
  | (key, a) :: l =>
      if decide (key = name) then Some (0, key, a)
      else (fun e : nat * string * A => (S e.1.1, e.1.2, e.2)) <$> get_full l name
  end.

(** [src/src/output/sources.rs:L53-63] output_tables: a source joins the table at its
    position, or opens it. *)
Fixpoint push_source (tables : list (nat * OutputTable)) (position : nat) (key : string) (desc : TableDescription)
    (source : OutputSource) : list (nat * OutputTable) :=
  match tables with
  | [] => [(position, {| out_name := request_name desc key; out_desc := desc; out_sources := [source] |})]
  | (at_, output) :: tables =>
      if decide (at_ = position)
      then (at_, {| out_name := out_name output; out_desc := out_desc output; out_sources := out_sources output ++ [source] |}) :: tables
      else (at_, output) :: push_source tables position key desc source
  end.

Definition output_step (metadata : DatasetDescription) (tables : list (nat * OutputTable)) (source : OutputSource)
    : list (nat * OutputTable) :=
  match get_full (dd_tables metadata) (rp_table (os_projection source)) with
  | Some (position, key, desc) => push_source tables position key desc source
  | None => tables
  end.

(** [src/src/output/sources.rs:35-68] output_tables. *)
Definition output_tables (metadata : DatasetDescription) (sources : list OutputSource) : list OutputTable :=
  snd <$> sort_by (fun a b : nat * OutputTable => a.1 <=? b.1) (fold_left (output_step metadata) sources []).

(** ** What it gives *)

Lemma get_full_spec {A} (l : list (string * A)) name position key a :
  NoDup l.*1 -> get_full l name = Some (position, key, a) <-> key = name /\ l !! position = Some (name, a).
Proof.
  revert position. induction l as [|[n x] l IH]; intros position; cbn; [split; [done|]; intros [_ ?]; done|].
  intros [Hn Hnd]%NoDup_cons. case_decide as E.
  - subst n. split; [intros [= <- <- <-]; done|]. intros [-> Hi]. destruct position as [|i]; cbn in Hi; [by injection Hi as ->|].
    exfalso. apply Hn. apply list_elem_of_fmap. exists (name, a). split; [done|]. by eapply list_elem_of_lookup_2.
  - rewrite fmap_Some. split.
    + intros ([[i k] y] & Hg & [= -> -> ->]). apply IH in Hg as [-> Hi]; done.
    + intros [-> Hi]. destruct position as [|i]; cbn in Hi; [by injection Hi|]. exists (i, name, a). split; [|done]. by apply IH.
Qed.

(** A table's sources, in the order they come. *)
Definition sources_into (sources : list OutputSource) (name : string) : list OutputSource :=
  filter (fun s => rp_table (os_projection s) = name) sources.

(** The response table at a catalog position: none without a source. *)
Definition table_at (sources : list OutputSource) (e : nat * (string * TableDescription)) : option (nat * OutputTable) :=
  match sources_into sources e.2.1 with
  | [] => None
  | ss => Some (e.1, {| out_name := request_name e.2.2 e.2.1; out_desc := e.2.2; out_sources := ss |})
  end.

Lemma sources_into_snoc sources s name :
  sources_into (sources ++ [s]) name = sources_into sources name ++ (if decide (rp_table (os_projection s) = name) then [s] else []).
Proof. unfold sources_into. rewrite filter_app. by cbn; case_decide. Qed.

Lemma elem_of_push_source tables position key desc s i t : NoDup tables.*1 ->
  (i, t) ∈ push_source tables position key desc s <->
  i <> position /\ (i, t) ∈ tables \/
  i = position /\ ((exists o, (i, o) ∈ tables /\ t = {| out_name := out_name o; out_desc := out_desc o; out_sources := out_sources o ++ [s] |}) \/
    position ∉ tables.*1 /\ t = {| out_name := request_name desc key; out_desc := desc; out_sources := [s] |}).
Proof.
  induction tables as [|[j o] tables IH]; cbn.
  - intros _. rewrite list_elem_of_singleton. split.
    + intros [= -> ->]. right. split; [done|]. right. split; [apply not_elem_of_nil|done].
    + intros [[_ []%not_elem_of_nil]|[-> [(o & []%not_elem_of_nil & _)|[_ ->]]]]. done.
  - intros [Hj Hnd]%NoDup_cons. case_decide as E.
    + subst j. rewrite !elem_of_cons. split.
      * intros [[= -> ->]|Hin]; [right; split; [done|]; left; exists o; by rewrite elem_of_cons; auto|].
        destruct (decide (i = position)) as [->|Hne]; [|by left; auto].
        exfalso. apply Hj. apply list_elem_of_fmap. by exists (position, t).
      * intros [[Hne [[= -> ->]|Hin]]|[-> [(o' & Ho & ->)|[Hnot _]]]]; [done|by right| |by exfalso; apply Hnot; left].
        apply elem_of_cons in Ho as [[= ->]|Ho]; [by left|]. exfalso. apply Hj. apply list_elem_of_fmap. by exists (position, o').
    + rewrite elem_of_cons, IH by done. setoid_rewrite elem_of_cons. split.
      * intros [[= -> ->]|[[Hne Hin]|[-> [(o' & Ho & ->)|[Hnot ->]]]]]; [by left; auto|by left; auto|right; split; [done|]; left; eauto|].
        right. split; [done|]. right. split; [|done]. intros [|]; [congruence|done].
      * intros [[Hne [[= -> ->]|Hin]]|[-> [(o' & [[= -> ->]|Ho] & ->)|[Hnot ->]]]]; [by left|right; by left; auto|done|right; right; split; [done|]; left; eauto|].
        right. right. split; [done|]. right. split; [|done]. intros Hin. apply Hnot. by right.
Qed.

Lemma push_source_keys tables position key desc s : NoDup tables.*1 ->
  NoDup (push_source tables position key desc s).*1 /\
  forall i, i ∈ (push_source tables position key desc s).*1 <-> i = position \/ i ∈ tables.*1.
Proof.
  induction tables as [|[j o] tables IH]; cbn; intros Hnd.
  - split; [apply NoDup_singleton|]. intros i. rewrite list_elem_of_singleton. split; [auto|]. intros [|[]%not_elem_of_nil]; done.
  - apply NoDup_cons in Hnd as [Hj Hnd]. case_decide as E; cbn; [subst j; split; [by constructor|]; intros i; rewrite elem_of_cons; tauto|].
    destruct (IH Hnd) as [Hnd' Hk]. split; [constructor; [|done]; rewrite Hk; intros [|]; [congruence|done]|].
    intros i. rewrite !elem_of_cons, Hk. tauto.
Qed.

Section output.
Context (metadata : DatasetDescription) (Hnames : NoDup (dd_tables metadata).*1).

Lemma output_step_spec sources :
  let tables := fold_left (output_step metadata) sources [] in
  NoDup tables.*1 /\ forall i t, (i, t) ∈ tables <-> exists e, dd_tables metadata !! i = Some e /\ table_at sources (i, e) = Some (i, t).
Proof.
  induction sources as [|s sources IH] using rev_ind; cbn zeta.
  { split; [constructor|]. intros i t. split; [by intros []%not_elem_of_nil|]. intros (e & _ & E). done. }
  rewrite fold_left_app. cbn [fold_left]. set (tables := fold_left (output_step metadata) sources []) in *. destruct IH as [Hnd Hin].
  assert (Hkeys : forall i, i ∈ tables.*1 <-> exists e, dd_tables metadata !! i = Some e /\ sources_into sources e.1 <> []).
  { intros i. rewrite list_elem_of_fmap. split.
    - intros ([j t] & -> & Ht). apply Hin in Ht as (e & He & Et). exists e. split; [done|]. unfold table_at in Et. cbn in Et. by destruct (sources_into sources e.1).
    - intros (e & He & Hne). destruct (sources_into sources e.1) as [|x ss] eqn:Es; [done|].
      exists (i, {| out_name := request_name e.2 e.1; out_desc := e.2; out_sources := x :: ss |}). split; [done|]. apply Hin. exists e.
      split; [done|]. unfold table_at; cbn. by rewrite Es. }
  unfold output_step. destruct (get_full (dd_tables metadata) (rp_table (os_projection s))) as [[[position key] desc]|] eqn:Eg.
  - apply (get_full_spec _ _ _ _ _ Hnames) in Eg as [-> Hpos]. split; [by apply push_source_keys|].
    intros i t. rewrite elem_of_push_source by done. rewrite Hin. setoid_rewrite Hin. rewrite Hkeys. unfold table_at; cbn [fst snd].
    setoid_rewrite sources_into_snoc. split.
    + intros [[Hne (e & He & Et)]|[-> [(o & (e & He & Et) & ->)|[Hno ->]]]].
      * exists e. split; [done|]. rewrite decide_False, app_nil_r; [done|]. intros En. apply Hne.
        apply (NoDup_lookup (dd_tables metadata).*1 i position (e.1) Hnames); rewrite list_lookup_fmap; [by rewrite He|by rewrite Hpos, En].
      * rewrite Hpos in He. injection He as <-. cbn in *. exists (rp_table (os_projection s), desc). split; [done|]. cbn. rewrite decide_True by done.
        destruct (sources_into sources (rp_table (os_projection s))); [done|]. injection Et as <-. done.
      * exists (rp_table (os_projection s), desc). split; [done|]. cbn. rewrite decide_True by done.
        destruct (sources_into sources (rp_table (os_projection s))) eqn:Es; [done|]. destruct Hno. exists (rp_table (os_projection s), desc). cbn. by rewrite Es.
    + intros (e & He & Et). destruct (decide (i = position)) as [->|Hne].
      * right. split; [done|]. rewrite Hpos in He. injection He as <-. cbn in Et |- *. rewrite decide_True in Et by done.
        destruct (sources_into sources (rp_table (os_projection s))) as [|x ss] eqn:Es; cbn in Et; injection Et as <-.
        -- right. split; [|done]. intros (e & He & Hne). rewrite Hpos in He. injection He as <-. cbn in Hne. by rewrite Es in Hne.
        -- left. eexists. split; [exists (rp_table (os_projection s), desc); split; [done|]; cbn; by rewrite Es|]. done.
      * left. split; [done|]. exists e. split; [done|]. rewrite decide_False, app_nil_r in Et; [done|]. intros En. apply Hne.
        apply (NoDup_lookup (dd_tables metadata).*1 i position (e.1) Hnames); rewrite list_lookup_fmap; [by rewrite He|by rewrite Hpos, En].
  - split; [done|]. intros i t. rewrite Hin. unfold table_at; cbn [fst snd]. setoid_rewrite sources_into_snoc.
    assert (Hnot : forall e : string * TableDescription, dd_tables metadata !! i = Some e -> rp_table (os_projection s) <> e.1).
    { intros [n d] He En. cbn in En. assert (Hg : get_full (dd_tables metadata) (rp_table (os_projection s)) = Some (i, n, d)); [|congruence].
      apply get_full_spec; [done|]. by rewrite En. }
    split; intros (e & He & Et); exists e; (split; [done|]); [rewrite decide_False, app_nil_r by (by apply Hnot); done|].
    rewrite decide_False, app_nil_r in Et by (by apply Hnot). done.
Qed.

(** The response's tables are those of the catalog with a source, in catalog
    order, each under its request name with exactly its sources in plan order. *)
Theorem output_tables_spec sources :
  output_tables metadata sources = snd <$> omap (table_at sources) (enumerate (dd_tables metadata)).
Proof.
  unfold output_tables. f_equal. destruct (output_step_spec sources) as [Hnd Hin].
  set (tables := fold_left (output_step metadata) sources []) in *.
  set (leb := fun a b : nat * OutputTable => a.1 <=? b.1).
  assert (Hsorted : forall k l, StronglySorted (fun a b => leb a b = true) (omap (table_at sources) (zip (seq k (length l)) l)) /\
    Forall (fun e : nat * OutputTable => k <= e.1) (omap (table_at sources) (zip (seq k (length l)) l))).
  { intros k l. revert k. induction l as [|e l IH]; intros k; cbn; [repeat constructor|]. destruct (IH (S k)) as [Hs Hge].
    assert (Hge' : Forall (fun e : nat * OutputTable => k <= e.1) (omap (table_at sources) (zip (seq (S k) (length l)) l))).
    { eapply Forall_impl; [exact Hge|]. cbn. lia. }
    destruct (table_at sources (k, e)) as [[i t]|] eqn:Et; [|done]. assert (i = k) as ->.
    { unfold table_at in Et. cbn in Et. destruct (sources_into sources e.1); [done|]. by injection Et. }
    split; [|by constructor]. constructor; [done|]. eapply Forall_impl; [exact Hge'|]. intros [j u]. unfold leb; cbn. intros Hle. by apply Nat.leb_le. }
  apply sort_by_unique; unfold leb.
  - intros x y. destruct (Nat.leb_spec x.1 y.1); [by left|]. right. apply Nat.leb_le. lia.
  - intros x y z. rewrite !Nat.leb_le. lia.
  - intros [i t] [j u] Hx Hy H1%Nat.leb_le H2%Nat.leb_le. cbn in *. assert (i = j) as <- by lia. f_equal.
    apply Hin in Hx as (e & He & Et), Hy as (e' & He' & Et'). congruence.
  - apply (Hsorted 0).
  - apply NoDup_Permutation; [|exact (NoDup_fmap_1 fst _ Hnd)|].
    + apply (NoDup_fmap_1 fst). generalize (Hsorted 0 (dd_tables metadata)). fold (enumerate (dd_tables metadata)).
      clear. unfold enumerate. generalize (dd_tables metadata) 0. intros l k _. revert k. induction l as [|e l IH]; intros k; cbn; [constructor|].
      destruct (table_at sources (k, e)) as [[i t]|] eqn:Et; [|apply IH]. assert (i = k) as ->.
      { unfold table_at in Et. cbn in Et. destruct (sources_into sources e.1); [done|]. by injection Et. }
      cbn. constructor; [|apply IH]. intros ([j u] & Hj & Hin)%list_elem_of_fmap. cbn in Hj. subst j.
      apply list_elem_of_omap in Hin as ([j e'] & Hz & Et'). apply elem_of_zip_l in Hz as Hs. apply elem_of_seq in Hs.
      unfold table_at in Et'. cbn in Et'. destruct (sources_into sources e'.1); [done|]. injection Et'. lia.
    + intros [i t]. rewrite Hin, list_elem_of_omap. split.
      * intros ([j e] & Hj & Et). apply elem_of_enumerate in Hj. assert (j = i) as ->; [|by exists e].
        unfold table_at in Et; cbn in Et. destruct (sources_into sources e.1); [done|]. by injection Et.
      * intros (e & He & Et). exists (i, e). split; [by apply elem_of_enumerate|done].
Qed.
End output.

(** Two tables: the second has two sources, the first one, and a third table none. *)
Definition demo_metadata : DatasetDescription := {|
  dd_version := "1"; dd_name := "demo"; dd_aliases := [];
  dd_tables := [("logs"%string, transactions); ("transactions"%string, transactions); ("traces"%string, transactions)];
|}.

Definition demo_source (name : string) : OutputSource := {|
  os_projection := {| rp_table := name; rp_desc := transactions; rp_names := []; rp_fields := []; rp_rendered := []; rp_required := [];
                      rp_weight := {| rw_fixed := 0%Z; rw_columns := [] |}; rp_row_columns := []; rp_size_columns := [] |};
  os_rows := Rows_new [];
|}.

Lemma output_tables_spec_witness :
  let sources := [demo_source "transactions"; demo_source "logs"; demo_source "transactions"] in
  output_tables demo_metadata sources = snd <$> omap (table_at sources) (enumerate (dd_tables demo_metadata)) /\
  length <$> (out_sources <$> output_tables demo_metadata sources) = [1; 2].
Proof.
  intros sources. split; [|vm_compute; reflexivity]. apply output_tables_spec. apply (bool_decide_unpack _). vm_compute. done.
Defined.
