(* ===== verification/Fork.v ===== *)
(** Fork detection (src/output/fork.rs): a client's [parentBlockHash] is compared
    with the hash that the first block at or after [fromBlock] states of its
    parent. The chain that moved is reported with the recent blocks; a chunk that
    cannot see the parent says nothing. *)
From stdpp Require Import base strings list gmap.
From Stdlib Require Import ZArith Lia Sorting.Sorted.
From S2P Require Import Prelude Machine ListLib Errors Arrow ArrowReference Catalog Integers Counting Rows KeyColumns SemiJoin Addresses AddressLookup AddressBuild Keys Render Json Sets Predicate PredicateSpec Pruning RowPredicate ItemLists Scan ScanParts Returned Columnar ColumnarSpec ColumnarScan Plan Reader.

#[local] Open Scope Z_scope.

(** [src/src/output/fork.rs:58-66] FORK_WINDOW. *)
Definition FORK_WINDOW : Z := 100.

(** [schema.column_with_name(col).is_some()] of the table's schema, where it has one. *)
Definition carries_column (chunk : ChunkReader) (name col : string) : bool :=
  match cr_table_schema chunk name with
  | Some schema => bool_decide (is_Some (schema_index schema col))
  | None => false
  end.

(** What the rows read so far state: their parents, and the parent of the lowest
    block at or after [from_block], with that block. *)
Abbreviation fork_state := (list BlockRef * option (Z * BlockRef))%type.

(** [src/src/output/fork.rs:L227-262] read_prev_blocks: a row. *)
Definition fork_row (from_block : Z) (hashes : StringColumn) (block_numbers : BlockNumbers) (parent_numbers : option array)
    (st : fork_state) (row : nat) : fork_state :=
  let row_block := block_at block_numbers row in
  let number :=
    match parent_numbers with
    | Some col => if is_null col row then None else (fun reader => int_block_number reader row) <$> IntColumn_resolve col
    | None => Some (sat_sub row_block 1)
    end in
  match number with
  | None => st
  | Some number =>
      let block_ref := {| br_number := number; br_hash := default ""%string (string_value hashes row) |} in
      let at_or_after_from := from_block <=? row_block in
      let lower_than_answer := match st.2 with Some (block, _) => row_block <? block | None => true end in
      (st.1 ++ [block_ref], if at_or_after_from && lower_than_answer then Some (row_block, block_ref) else st.2)
  end.

(** [src/src/output/fork.rs:L210-263] read_prev_blocks: a batch. *)
Definition fork_batch (from_block : Z) (block_column parent_hash_column : string) (parent_number_column : option string)
    (st : fork_state) (batch : RecordBatch) : result fork_state :=
  match column_by_name batch block_column, column_by_name batch parent_hash_column with
  | Some blocks, Some hashes =>
      let parent_numbers := parent_number_column ≫= column_by_name batch in
      let* hashes := ok_or (StringColumn_resolve hashes) (EngineError MalformedChunkData) in
      let* block_numbers := BlockNumbers_resolve blocks in
      Ok (fold_left (fork_row from_block hashes block_numbers parent_numbers) (seq 0 (num_rows batch)) st)
  | _, _ => Ok st
  end.

(** [src/src/output/fork.rs:L148-188] read_prev_blocks: the scan it makes. *)
Definition fork_request (plan : Plan) (table : TableDescription) (parent_hash_column : string) (parent_number_column : option string)
    : scan_request :=
  let block_column := td_block_number_column table in
  let newest_parent := if pl_from_block plan =? 0 then None else Some (pl_from_block plan - 1) in
  let parent_below_from :=
    match parent_number_column, newest_parent with
    | Some column, Some newest => Some (row_new [{| cp_column := column; cp_predicate := RangeLte (SUInt64 newest) |}])
    | _, _ => None
    end in
  {| output_columns := [block_column; parent_hash_column] ++ option_list parent_number_column;
     predicates := option_list parent_below_from;
     from_block := Some (sat_sub (pl_from_block plan) FORK_WINDOW);
     to_block := match parent_below_from with Some _ => None | None => Some (pl_from_block plan) end;
     block_number_column := Some block_column; batch_size := u64_max; key_filter := None; hierarchical_filter := None;
     Rows.required_columns := []; positions := false; row_indices := None; item_tags := []; column_cache := None; window := None |}.

(** [src/src/output/fork.rs:125-271] read_prev_blocks. *)
Definition read_prev_blocks (plan : Plan) (table : TableDescription) (parent_hash_column : string) (chunk : ChunkReader)
    : result (list BlockRef * option BlockRef) :=
  let parent_number_column :=
    td_parent_number_column table ≫= fun col => if carries_column chunk (pl_block_table plan) col then Some col else None in
  let request := fork_request plan table parent_hash_column parent_number_column in
  let carries_parent_hash := carries_column chunk (pl_block_table plan) parent_hash_column in
  let* batches := cr_scan chunk (pl_block_table plan) request in
  if negb carries_parent_hash then
    let reaches_window := existsb (fun b => (0 <? num_rows b)%nat) batches in
    let* _ := ensure (negb reaches_window) (EngineError ColumnNotFound) in
    Ok ([], None)
  else
    let* (refs, answer) :=
      foldM (fork_batch (pl_from_block plan) (td_block_number_column table) parent_hash_column parent_number_column) batches ([], None) in
    Ok (sort_by (fun a b => br_number a <=? br_number b) refs, snd <$> answer).

(** [src/src/output/fork.rs:68-123] check_parent_block. *)
Definition check_parent_block (plan : Plan) (metadata : DatasetDescription) (chunk : ChunkReader) : result () :=
  match pl_parent_block_hash plan with
  | None => Ok tt
  | Some expected =>
      match Catalog.table metadata (pl_block_table plan) with
      | None => Ok tt
      | Some table =>
          match td_parent_hash_column table with
          | None => Ok tt
          | Some parent_hash_column =>
              let* _ := ensure (cr_has_table chunk (pl_block_table plan)) (EngineError TableNotFound) in
              let* (refs, answer) := read_prev_blocks plan table parent_hash_column chunk in
              match answer with
              | None => Ok tt
              | Some parent =>
                  if decide (br_hash parent = expected) then Ok tt
                  else Err (BaseBlockError {| expected_hash := expected; prev_blocks := refs |})
              end
          end
      end
  end.

(** ** What the table says *)

(** The parent a block states: its number, where the table keeps one, or the
    number before its own; and its hash. *)
Definition stated_parent (content : RecordBatch) (bn : string) (pn : option string) (row : nat) : option Z :=
  match pn with
  | Some c => row_block content c row
  | None => (fun b => sat_sub b 1) <$> row_block content bn row
  end.

Definition text_at (content : RecordBatch) (col : string) (row : nat) : string :=
  match (fun a => cell_at a row) <$> column_by_name content col with Some (CText s) => s | _ => ""%string end.

Definition parent_ref (content : RecordBatch) (bn ph : string) (pn : option string) (row : nat) : option BlockRef :=
  (fun n => {| br_number := n; br_hash := text_at content ph row |}) <$> stated_parent content bn pn row.

(** A block table with its parents' hashes. *)
Record fork_table (content : RecordBatch) (bn ph : string) (pn : option string) : Prop := {
  ft_blocks : exists a, column_by_name content bn = Some a /\ is_integer (array_type a) = true /\
    forall row, (row < num_rows content)%nat -> cell_at a row <> CNull;
  ft_hash : exists a, column_by_name content ph = Some a /\ is_text (array_type a) = true;
  ft_number : forall c, pn = Some c -> exists a, column_by_name content c = Some a /\ is_integer (array_type a) = true;
}.

(** The rows in the lookback window, up to the first whose parent is at or past
    [from]. *)
Definition in_fork_window (content : RecordBatch) (bn : string) (pn : option string) (from : Z) (row : nat) : Prop :=
  exists b, row_block content bn row = Some b /\ from - FORK_WINDOW <= b /\
    match pn with
    | Some c => if from =? 0 then b <= 0 else exists p, row_block content c row = Some p /\ p < from
    | None => b <= from
    end.

(** ** The loop over the rows *)

Definition fork_step (content : RecordBatch) (from : Z) (bn ph : string) (pn : option string) (st : fork_state) (row : nat) : fork_state :=
  match parent_ref content bn ph pn row, row_block content bn row with
  | Some ref, Some block =>
      (st.1 ++ [ref],
       if (from <=? block) && match st.2 with Some (b, _) => block <? b | None => true end then Some (block, ref) else st.2)
  | _, _ => st
  end.

Lemma row_block_int a row t v n : a = AInt t v n ->
  match array_type a, cell_at a row with DInt t, CInt z => Some (block_number_of t z) | _, _ => None end =
  if is_valid_in n row then Some (block_number_of t (default 0 (v !! row))) else None.
Proof. intros ->. rewrite cell_int. cbn [array_type]. by destruct (is_valid_in n row). Qed.

Lemma fork_batch_drawn content from bn ph pn rows batch st :
  fork_table content bn ph pn -> drawn content rows batch -> holds_columns content batch ([bn; ph] ++ option_list pn) ->
  fork_batch from bn ph pn st batch = Ok (fold_left (fork_step content from bn ph pn) rows st).
Proof.
  intros Ht Hd Hh. pose proof Hd as (_ & Hn & Hlt & _). destruct (ft_blocks _ _ _ _ Ht) as (b0 & Eb0 & Hint & Hnull).
  destruct (ft_hash _ _ _ _ Ht) as (h0 & Eh0 & Htext).
  destruct (Hh bn ltac:(left) ltac:(by rewrite Eb0)) as [b Eb]. destruct (Hh ph ltac:(right; left) ltac:(by rewrite Eh0)) as [h Eh].
  destruct (drawn_column _ _ _ _ _ Hd Eb) as (Hbok & Hbl & b0' & Eb0' & Hbt & Hbc). rewrite Eb0 in Eb0'. injection Eb0' as <-.
  destruct (drawn_column _ _ _ _ _ Hd Eh) as (_ & _ & h0' & Eh0' & Hht & Hhc). rewrite Eh0 in Eh0'. injection Eh0' as <-.
  unfold fork_batch. rewrite Eb, Eh. destruct h as [|ht hv hn| | | | | | | |]; try (rewrite <- Hht in Htext; done).
  cbn [StringColumn_resolve ok_or obind]. destruct b as [bt bv bnn| | | | | | | | |]; try (rewrite <- Hbt in Hint; done).
  assert (Hbvalid : forall k row, rows !! k = Some row -> is_valid_in bnn k = true).
  { intros k row Hk. specialize (Hbc k row Hk). rewrite cell_int in Hbc. destruct (is_valid_in bnn k); [done|].
    rewrite Forall_forall in Hlt. symmetry in Hbc. destruct (Hnull row); [|done]. apply Hlt. by eapply list_elem_of_lookup_2. }
  unfold BlockNumbers_resolve; cbn [IntColumn_resolve]. unfold null_count; cbn [array_nulls].
  assert (Hcount : count_nulls bnn = 0%nat).
  { apply (count_nulls_none _ _ (array_ok_nulls _ Hbok)). intros k Hk. rewrite Hbl in Hk. destruct (lookup_lt_is_Some_2 rows k Hk) as [row Hrow]. eauto. }
  rewrite Hcount. cbn [Nat.ltb Nat.leb obind]. f_equal. rewrite Hn. set (blocks := {| bn_reader := _ |}). set (hashes := {| sc_type := ht; sc_values := hv; sc_nulls := hn |}).
  assert (Hstep : forall k row st, rows !! k = Some row ->
    fork_row from hashes blocks (pn ≫= column_by_name batch) st k = fork_step content from bn ph pn st row).
  { intros k row s Hk. assert (Eblock : row_block content bn row = Some (block_at blocks k)).
    { rewrite <- (drawn_block content rows batch bn k row Hd ltac:(by rewrite Eb) Hk). unfold row_block. rewrite Eb. cbn [mbind option_bind].
      rewrite (row_block_int _ k bt bv bnn eq_refl), (Hbvalid k row Hk). done. }
    assert (Ehash : text_at content ph row = default ""%string (string_value hashes k)).
    { unfold text_at. rewrite Eh0. cbn. rewrite <- (Hhc k row Hk), cell_text. unfold string_value, hashes; cbn [sc_nulls sc_values]. by destruct (is_valid_in hn k). }
    assert (Enumber : stated_parent content bn pn row = match pn ≫= column_by_name batch with
      | Some col => if is_null col k then None else (fun reader => int_block_number reader k) <$> IntColumn_resolve col
      | None => Some (sat_sub (block_at blocks k) 1) end).
    { destruct pn as [c|]; cbn [stated_parent mbind option_bind]; [|by rewrite Eblock].
      destruct (ft_number _ _ _ _ Ht c eq_refl) as (p0 & Ep0 & Hpint).
      destruct (Hh c ltac:(right; right; left) ltac:(by rewrite Ep0)) as [p Ep]. rewrite Ep.
      rewrite <- (drawn_block content rows batch c k row Hd ltac:(by rewrite Ep) Hk). unfold row_block. rewrite Ep. cbn [mbind option_bind].
      destruct (drawn_column _ _ _ _ _ Hd Ep) as (_ & _ & p0' & Ep0' & Hpt & _). rewrite Ep0 in Ep0'. injection Ep0' as <-.
      destruct p as [pt pv pnn| | | | | | | | |]; try (rewrite <- Hpt in Hpint; done).
      rewrite (row_block_int _ k pt pv pnn eq_refl). unfold is_null; cbn [array_nulls]. by destruct (is_valid_in pnn k). }
    unfold fork_row, fork_step, parent_ref. rewrite Enumber, Eblock, Ehash.
    by destruct (match pn ≫= column_by_name batch with | Some col => _ | None => _ end). }
  clear -Hstep. assert (Hgen : forall l s0 st, (forall k row, l !! k = Some row -> rows !! (s0 + k)%nat = Some row) ->
    fold_left (fork_row from hashes blocks (pn ≫= column_by_name batch)) (seq s0 (length l)) st = fold_left (fork_step content from bn ph pn) l st).
  { induction l as [|row l IH]; intros s0 s Hl; [done|]. cbn. rewrite (Hstep s0 row); [|rewrite <- (Nat.add_0_r s0); by apply Hl].
    apply IH. intros k r Hk. specialize (Hl (S k) r Hk). by rewrite Nat.add_succ_r in Hl. }
  apply (Hgen rows 0%nat). by intros k row.
Qed.

Lemma fork_batches content from bn ph pn ls batches st :
  fork_table content bn ph pn -> pieces content ([bn; ph] ++ option_list pn) ls batches ->
  foldM (fork_batch from bn ph pn) batches st = Ok (fold_left (fork_step content from bn ph pn) (concat ls) st).
Proof.
  intros Ht Hp. revert st. induction Hp as [|rows batch ls batches [Hd Hh] _ IH]; intros st; [done|].
  cbn [foldM concat]. rewrite (fork_batch_drawn content from bn ph pn rows batch st Ht Hd Hh). cbn [obind]. by rewrite IH, fold_left_app.
Qed.

(** The row of the lowest block from [from] on, the first of those. *)
Definition answers_fork (content : RecordBatch) (from : Z) (bn : string) (l : list nat) (row : nat) : Prop :=
  exists b, row ∈ l /\ row_block content bn row = Some b /\ from <= b /\
    forall row' b', row' ∈ l -> row_block content bn row' = Some b' -> from <= b' -> b <= b'.

Lemma fork_fold content from bn ph pn l :
  (forall row, row ∈ l -> is_Some (parent_ref content bn ph pn row) /\ is_Some (row_block content bn row)) ->
  let st := fold_left (fork_step content from bn ph pn) l ([], None) in
  st.1 = omap (parent_ref content bn ph pn) l /\
  match st.2 with
  | None => forall row b, row ∈ l -> row_block content bn row = Some b -> b < from
  | Some (b, ref) => exists row, answers_fork content from bn l row /\ row_block content bn row = Some b /\ parent_ref content bn ph pn row = Some ref
  end.
Proof.
  induction l as [|row l IH] using rev_ind; intros Hall st.
  { split; [done|]. by intros row b ?%not_elem_of_nil. }
  assert (Hall' : forall r, r ∈ l -> is_Some (parent_ref content bn ph pn r) /\ is_Some (row_block content bn r)).
  { intros r Hr. apply Hall, elem_of_app. by left. }
  destruct (IH Hall') as [E1 E2]. destruct (Hall row) as [[ref Eref] [b Eb]]; [apply elem_of_app; right; by apply list_elem_of_singleton|].
  unfold st. rewrite fold_left_app. cbn [fold_left]. set (s := fold_left (fork_step content from bn ph pn) l ([], None)) in *.
  unfold fork_step. rewrite Eref, Eb. cbn [fst snd]. rewrite omap_app, E1. cbn [omap list_omap]. rewrite Eref. split; [done|].
  assert (Hnew : forall r x, r ∈ l ++ [row] -> row_block content bn r = Some x -> r ∈ l /\ row_block content bn r = Some x \/ x = b).
  { intros r x Hr Hx. apply elem_of_app in Hr as [Hr| ->%list_elem_of_singleton]; [by left|right; congruence]. }
  destruct (Z.leb_spec from b) as [Hle|Hlt]; cbn [andb].
  - destruct s as [refs [[b0 ref0]|]]; cbn [snd] in *.
    + destruct E2 as (r0 & (b0' & Hr0 & Eb0 & Hfrom & Hmin) & Eb0' & Eref0). rewrite Eb0 in Eb0'. injection Eb0' as ->.
      destruct (Z.ltb_spec b b0) as [Hb|Hb].
      * exists row. split; [|done]. exists b. split; [apply elem_of_app; right; by apply list_elem_of_singleton|]. split; [done|]. split; [done|].
        intros r x Hr Hx Hxf. destruct (Hnew r x Hr Hx) as [[Hin Hx']| ->]; [|lia]. specialize (Hmin r x Hin Hx' Hxf). lia.
      * exists r0. split; [|done]. exists b0. split; [apply elem_of_app; by left|]. split; [done|]. split; [done|].
        intros r x Hr Hx Hxf. destruct (Hnew r x Hr Hx) as [[Hin Hx']| ->]; [by apply (Hmin r)|done].
    + exists row. split; [|done]. exists b. split; [apply elem_of_app; right; by apply list_elem_of_singleton|]. split; [done|]. split; [done|].
      intros r x Hr Hx Hxf. destruct (Hnew r x Hr Hx) as [[Hin Hx']| ->]; [|lia]. specialize (E2 r x Hin Hx'). lia.
  - destruct s as [refs [[b0 ref0]|]]; cbn [snd] in *.
    + destruct E2 as (r0 & (b0' & Hr0 & Eb0 & Hfrom & Hmin) & Eb0' & Eref0). exists r0. split; [|done]. exists b0'. split; [apply elem_of_app; by left|].
      split; [done|]. split; [done|]. intros r x Hr Hx Hxf. destruct (Hnew r x Hr Hx) as [[Hin Hx']| ->]; [by apply (Hmin r)|lia].
    + intros r x Hr Hx. destruct (Hnew r x Hr Hx) as [[Hin Hx']| ->]; [by apply (E2 r)|done].
Qed.

(** Rows that state no parent are passed over. *)
Lemma fork_skip content from bn ph pn l st :
  fold_left (fork_step content from bn ph pn) l st =
  fold_left (fork_step content from bn ph pn) (filter (fun row => is_Some (parent_ref content bn ph pn row)) l) st.
Proof.
  revert st. induction l as [|row l IH]; intros st; [done|]. cbn [fold_left]. rewrite filter_cons. case_decide as E; [cbn; apply IH|].
  unfold fork_step at 2. destruct (parent_ref content bn ph pn row); [by destruct E|]. apply IH.
Qed.

(** A request bounded from below at least. *)
Lemma bounded_blocks content (from : Z) (to : option Z) bn row b : row_block content bn row = Some b -> 0 <= b ->
  let from' := Some from ≫= (fun block => if 0 <? block then Some block else None) in
  in_blocks content (if (bool_decide (is_Some from') || bool_decide (is_Some to)) && negb false && bool_decide (is_Some (Some bn))
    then Some (from', to) else None) (Some bn) row <->
  from <= b /\ match to with Some to => b <= to | None => True end.
Proof.
  intros Eb Hb from'. replace (bool_decide (is_Some (Some bn))) with true by done. rewrite !andb_true_r. unfold from'. cbn [mbind option_bind].
  destruct (Z.ltb_spec 0 from); destruct to as [to|]; cbn [bool_decide is_Some_dec decide_rel orb in_blocks]; cbn; unfold in_bounds;
    split; try (intros (b0 & Eb0 & H0); rewrite Eb in Eb0; injection Eb0 as <-); try (intros [H0 H1]; exists b; split; [done|]);
    rewrite ?andb_true_r, ?andb_true_iff, ?Z.leb_le in *; lia.
Qed.

Section check.
Context {K : ArrowKernels} {L : ArrowLaws K} {R : RowFormat} {X : Xxh3} {XL : Xxh3Laws X} {HK : HexKernel}.
Context (reader : ChunkReader) (tables : chunk_tables) {RL : ReaderLaws reader tables}.

Lemma reader_carries name schema content col : tables name = Some (schema, content) ->
  carries_column reader name col = bool_decide (is_Some (column_by_name content col)).
Proof.
  intros E. unfold carries_column. rewrite (reader_schema name), E. cbn. apply bool_decide_ext.
  by rewrite (schema_of_is_Some schema content col) by (by eapply reader_tables).
Qed.

Lemma newest_admits content c newest row a : column_by_name content c = Some a -> is_integer (array_type a) = true ->
  row_admits content (row_new [{| cp_column := c; cp_predicate := RangeLte (SUInt64 newest) |}]) row <->
  exists p, row_block content c row = Some p /\ p <= newest.
Proof.
  intros Ea Hint. unfold row_admits, row_new, with_alternatives; cbn [rp_columns rp_alternatives].
  rewrite Forall_singleton. unfold cp_admits; cbn [cp_column cp_predicate]. unfold row_block. rewrite Ea. cbn [mbind option_bind].
  destruct a as [t v n| | | | | | | | |]; try done. rewrite (row_block_int _ row t v n eq_refl), cell_int.
  cbn [ap_admits predicate_laws admits threshold_admits value_type array_type as_ints values_signed values_list].
  destruct (is_valid_in n row); [|split; [by intros [? _]|by intros (? & ? & _)]].
  rewrite Forall_singleton, declared_value_spec, block_number_of_unsigned. split; [intros [? _]; by eexists|intros (? & [= <-] & ?); auto].
Qed.

Context (plan : Plan) (table : TableDescription) (ph : string) (schema : Schema) (content : RecordBatch).
Context (Htable : tables (pl_block_table plan) = Some (schema, content)) (Hfrom : is_u64 (pl_from_block plan)).
Let bn := td_block_number_column table.

Section window.
Context (pn : option string) (Hfork : fork_table content bn ph pn).

Lemma fork_request_fits : request_fits schema content (fork_request plan table ph pn) (fun _ => True).
Proof.
  pose proof (reader_tables _ _ _ Htable) as Hs. destruct (ft_blocks _ _ _ _ Hfork) as (b & Eb & Hint & Hnull).
  unfold fork_request. set (newest := if pl_from_block plan =? 0 then None else Some (pl_from_block plan - 1)).
  assert (Hnewest : forall z, newest = Some z -> is_u64 z).
  { unfold newest. destruct (Z.eqb_spec (pl_from_block plan) 0); [done|]. intros z [= <-]. unfold is_u64 in *. lia. }
  assert (Hcol : forall c, pn = Some c -> exists i f, schema_index schema c = Some i /\ schema !! i = Some f /\ is_integer (f_type f) = true).
  { intros c Ec. destruct (ft_number _ _ _ _ Hfork c Ec) as (a & Ea & Ha).
    destruct (proj1 (schema_of_is_Some schema content c Hs) ltac:(by rewrite Ea)) as [i Ei].
    destruct (schema_of_column _ _ _ _ Hs Ei) as (f & a' & Ef & _ & _ & Ea' & Ht & _). exists i, f. rewrite Ea in Ea'. injection Ea' as <-.
    split; [done|]. split; [done|]. by rewrite <- Ht. }
  split; cbn [predicates output_columns block_number_column key_filter hierarchical_filter item_tags].
  - destruct pn as [c|], newest as [z|]; cbn; repeat constructor; apply (Hnewest z eq_refl).
  - unfold comparable; cbn [predicates]. destruct pn as [c|], newest as [z|]; try done. cbn. unfold field_with_name.
    destruct (Hcol c eq_refl) as (i & f & -> & Ef & Hf). cbn [mbind option_bind]. rewrite Ef. cbn.
    destruct (f_type f); try done.
  - unfold demanded; cbn. destruct pn as [c|], newest as [z|]; cbn; try constructor; [|constructor].
    destruct (Hcol c eq_refl) as (i & f & -> & _). by eexists.
  - intros name [= <-]. by exists b.
  - done.
  - by intros [? ?].
  - by intros keys [=].
  - constructor.
  - destruct pn as [c|], newest as [z|]; (split; [repeat constructor|done]).
  - destruct (proj1 (schema_of_is_Some schema content bn Hs) ltac:(by rewrite Eb)) as [i Ei].
    unfold build_output_schema; cbn. unfold field_with_name at 1. fold bn. rewrite Ei. cbn [mbind option_bind].
    destruct (schema_index_spec _ _ _ Ei) as (f & -> & _). done.
Qed.

Lemma fork_selected row : (row < num_rows content)%nat ->
  selected content (fork_request plan table ph pn) (fun _ => True) row <-> in_fork_window content bn pn (pl_from_block plan) row.
Proof.
  intros Hrow. destruct (ft_blocks _ _ _ _ Hfork) as (a & Ea & Hint & Hnull).
  assert (Hb : exists b, row_block content bn row = Some b /\ 0 <= b).
  { specialize (Hnull row Hrow). unfold row_block. rewrite Ea. cbn [mbind option_bind]. destruct a as [t v n| | | | | | | | |]; try done.
    rewrite (row_block_int _ row t v n eq_refl). rewrite cell_int in Hnull. destruct (is_valid_in n row); [|done]. eexists. split; [done|].
    apply block_number_of_range. }
  destruct Hb as (b & Eb & Hb0).
  assert (Hblocks : forall to, to_block (fork_request plan table ph pn) = to ->
    in_blocks content (rf_blocks (RowFilters_of (fork_request plan table ph pn))) (Some bn) row <->
    pl_from_block plan - FORK_WINDOW <= b /\ match to with Some to => b <= to | None => True end).
  { intros to <-. etrans; [exact (bounded_blocks content (sat_sub (pl_from_block plan) FORK_WINDOW) (to_block (fork_request plan table ph pn)) bn row b Eb Hb0)|].
    unfold sat_sub. destruct (to_block (fork_request plan table ph pn)); lia. }
  unfold selected, in_fork_window. setoid_rewrite Eb. change (block_number_column (fork_request plan table ph pn)) with (Some bn). rewrite (Hblocks _ eq_refl). clear Hblocks.
  unfold fork_request; cbn [predicates to_block block_number_column]. fold bn. unfold is_u64 in Hfrom.
  destruct pn as [c|]; destruct (Z.eqb_spec (pl_from_block plan) 0) as [E0|E0]; cbn [option_list].
  - rewrite E0. split; [intros ([? ?] & _ & _); exists b; auto|]. intros (b' & [= <-] & ? & ?). split; [done|]. split; [done|by left].
  - destruct (ft_number _ _ _ _ Hfork c eq_refl) as (p & Ep & Hpint). rewrite Exists_exists.
    split.
    + intros ([? _] & _ & [?|(q & ->%list_elem_of_singleton & Hadm)]); [done|]. apply (newest_admits content c _ row p Ep Hpint) in Hadm as (x & Ex & Hx).
      exists b. split; [done|]. split; [done|]. exists x. split; [done|lia].
    + intros (b' & [= <-] & ? & x & Ex & Hx). split; [done|]. split; [done|]. right. eexists. split; [by apply list_elem_of_singleton|].
      apply (newest_admits content c _ row p Ep Hpint). exists x. split; [done|lia].
  - split; [intros ([? ?] & _ & _); by exists b|]. intros (b' & [= <-] & ? & ?). split; [done|]. split; [done|by left].
  - split; [intros ([? ?] & _ & _); by exists b|]. intros (b' & [= <-] & ? & ?). split; [done|]. split; [done|by left].
Qed.

Lemma fork_scan :
  exists l ls batches, cr_scan reader (pl_block_table plan) (fork_request plan table ph pn) = Ok batches /\
    picked (in_fork_window content bn pn (pl_from_block plan)) (num_rows content) l /\ concat ls = l /\
    pieces content ([bn; ph] ++ option_list pn) ls batches.
Proof.
  destruct (reader_scans (pl_block_table plan) schema content (fork_request plan table ph pn) (fun _ => True) Htable fork_request_fits eq_refl)
    as (s & Es & Hret); [by intros w ? ? ? [=]|done|].
  destruct (scan_pieces _ _ _ _ Hret) as (l & ls & Hp & _ & Hl & Hpieces & _).
  exists l, ls, (rw_batches (sc_rows s)). unfold cr_scan. rewrite Es. cbn [obind]. split; [done|]. split; [|done].
  destruct Hp as [Hsort Hin]. split; [done|]. intros row. rewrite Hin. split; intros [Hrow H]; (split; [done|]); by apply fork_selected.
Qed.
End window.

(** The parent number column, where the chunk carries one. *)
Let pn := td_parent_number_column table ≫= fun c => if bool_decide (is_Some (column_by_name content c)) then Some c else None.

Lemma fork_parent_number :
  (td_parent_number_column table ≫= fun col => if carries_column reader (pl_block_table plan) col then Some col else None) = pn.
Proof. unfold pn. destruct (td_parent_number_column table) as [c|]; [|done]. cbn. by rewrite (reader_carries _ _ _ _ Htable). Qed.

Context (Hfork : fork_table content bn ph pn).

Lemma read_prev_blocks_spec :
  exists l, picked (fun row => in_fork_window content bn pn (pl_from_block plan) row /\ is_Some (parent_ref content bn ph pn row)) (num_rows content) l /\
  exists answer, read_prev_blocks plan table ph reader =
    Ok (sort_by (fun a b => br_number a <=? br_number b) (omap (parent_ref content bn ph pn) l), answer) /\
  match answer with
  | None => forall row b, row ∈ l -> row_block content bn row = Some b -> b < pl_from_block plan
  | Some ref => exists row, answers_fork content (pl_from_block plan) bn l row /\ parent_ref content bn ph pn row = Some ref
  end.
Proof.
  destruct (fork_scan pn Hfork) as (l & ls & batches & Es & [Hsort Hin] & Hl & Hpieces).
  set (stated := fun row => is_Some (parent_ref content bn ph pn row)).
  exists (filter stated l). split.
  { split; [by apply filter_strongly_sorted|]. intros row. rewrite list_elem_of_filter, Hin. unfold stated. tauto. }
  unfold read_prev_blocks. fold bn. rewrite fork_parent_number, Es, (reader_carries _ _ _ _ Htable). cbn [obind].
  destruct (ft_hash _ _ _ _ Hfork) as (h & Eh & _). rewrite Eh, bool_decide_true by (by eexists). cbn [negb].
  rewrite (fork_batches content (pl_from_block plan) bn ph pn ls batches _ Hfork Hpieces), Hl. cbn [obind]. rewrite fork_skip. fold stated.
  destruct (fork_fold content (pl_from_block plan) bn ph pn (filter stated l)) as [E1 E2].
  { intros row [Hst Hrow]%list_elem_of_filter. split; [done|]. apply Hin in Hrow as [_ (b & Eb & _)]. by eexists. }
  destruct (fold_left _ (filter stated l) ([], None)) as [refs answer]. cbn [fst snd] in *. subst refs. eexists. split; [done|].
  destruct answer as [[b ref]|]; cbn; [|done]. destruct E2 as (row & Ha & _ & Eref). by exists row.
Qed.

(** C32: A client's parent hash is compared with the hash that the lowest block at or
    after its first states of its parent, wherever the chain skipped to: they agree,
    or the fork is reported with the parents the lookback window states, ascending;
    and a chunk with no such block reports nothing. *)
Theorem check_parent_block_spec metadata expected :
  Catalog.table metadata (pl_block_table plan) = Some table -> td_parent_hash_column table = Some ph ->
  pl_parent_block_hash plan = Some expected ->
  exists l, picked (fun row => in_fork_window content bn pn (pl_from_block plan) row /\ is_Some (parent_ref content bn ph pn row)) (num_rows content) l /\
  ((forall row b, row ∈ l -> row_block content bn row = Some b -> b < pl_from_block plan) /\ check_parent_block plan metadata reader = Ok tt \/
   exists row, answers_fork content (pl_from_block plan) bn l row /\
     check_parent_block plan metadata reader =
     if decide (text_at content ph row = expected) then Ok tt
     else Err (BaseBlockError {| expected_hash := expected;
       prev_blocks := sort_by (fun a b => br_number a <=? br_number b) (omap (parent_ref content bn ph pn) l) |})).
Proof.
  intros Em Eph Ehash. destruct read_prev_blocks_spec as (l & Hp & answer & Er & Ha). exists l. split; [done|].
  assert (Hhas : cr_has_table reader (pl_block_table plan) = true).
  { rewrite (reader_has_table (tables:=tables)). by rewrite Htable. }
  unfold check_parent_block. rewrite Ehash, Em, Eph, Hhas. cbn [ensure obind]. rewrite Er. cbn [obind].
  destruct answer as [ref|]; [|by left]. right. destruct Ha as (row & Ha & Eref). exists row. split; [done|].
  unfold parent_ref in Eref. destruct (stated_parent content bn pn row); [|done]. injection Eref as <-. done.
Qed.
End check.

(** ** Witness *)

Import ArrowInstances.
Import HexInstances.
Import XxhInstances.
Import RowFormatInstances.
Import BatchInstances.

(** A chain that skipped block 100: a client that resumes there asks about 99. *)
Definition chain_content : RecordBatch :=
  {| columns := [("number"%string, AInt UInt64 [98; 99; 101; 102] None);
                 ("parent_hash"%string, AText Utf8 ["0x97"; "0x98"; "0x99"; "0x101"]%string None);
                 ("parent_number"%string, AInt UInt64 [97; 98; 99; 101] None)]; num_rows := 4 |}.
Definition chain_schema : Schema :=
  [{| f_name := "number"; f_type := DInt UInt64; f_nullable := false |}; {| f_name := "parent_hash"; f_type := DText Utf8; f_nullable := true |};
   {| f_name := "parent_number"; f_type := DInt UInt64; f_nullable := true |}].
Definition chain_table : ColumnarTable := memory_table chain_schema chain_content (fun _ => None).
Definition chain_chunk : ColumnarChunk := {|
  cc_has_table name := bool_decide (name = "blocks"%string);
  cc_open_table name := Ok (if decide (name = "blocks"%string) then Some chain_table else None);
|}.
Definition chain_contents : chunk_contents :=
  fun name => if decide (name = "blocks"%string) then Some (chain_table, chain_content) else None.
Definition chain_blocks : TableDescription := {|
  td_request_surface := None;
  td_output := {| os_name := Some "header"%string; os_fields := []; os_virtual_fields := []; os_variant_column := None; os_variants := [] |};
  td_block_number_column := "number"; td_parent_hash_column := Some "parent_hash"%string; td_parent_number_column := Some "parent_number"%string;
  td_address_column := None; td_item_order_keys := []; td_declared_weight_key := None; td_sort_key := []; td_columns := [] |}.
Definition chain_metadata : DatasetDescription :=
  {| dd_version := "1"; dd_name := "chain"; dd_aliases := []; dd_tables := [("blocks"%string, chain_blocks)] |}.
Definition chain_plan (hash : string) : Plan := {|
  pl_from_block := 100; pl_to_block := None; pl_include_all_blocks := false; pl_parent_block_hash := Some hash;
  pl_block_table := "blocks"; pl_block_output_columns := []; pl_table_plans := [] |}.
Definition chain_reader : ChunkReader := columnar_reader chain_chunk ∅.

Example fork_agrees : check_parent_block (chain_plan "0x99") chain_metadata chain_reader = Ok tt.
Proof. vm_compute. reflexivity. Qed.

Example fork_reported : check_parent_block (chain_plan "0xbad") chain_metadata chain_reader =
  Err (BaseBlockError {| expected_hash := "0xbad"; prev_blocks :=
    [{| br_number := 97; br_hash := "0x97" |}; {| br_number := 98; br_hash := "0x98" |}; {| br_number := 99; br_hash := "0x99" |}] |}).
Proof. vm_compute. reflexivity. Qed.

Lemma chain_schema_of : schema_of chain_schema chain_content.
Proof.
  assert (Hb : batch_ok chain_content) by (repeat constructor; cbn; try done; lia).
  split; [apply (bool_decide_unpack _); vm_compute; done|]. split; [exact Hb|].
  repeat (constructor; [split; [done|]; split; [done|]; split; [done|]; done|]). constructor.
Qed.

Lemma chain_reader_laws : ReaderLaws chain_reader (fun name => (fun tc : ColumnarTable * RecordBatch => (ct_schema tc.1, tc.2)) <$> chain_contents name).
Proof.
  apply columnar_reader_laws; [|apply no_tables_ok|].
  - intros name. unfold chain_contents; cbn. case_decide; [|done]. split; [done|]. apply memory_table_ok; [exact chain_schema_of|done].
  - intros name. unfold chain_contents; cbn. case_decide as E; [by subst|]. rewrite bool_decide_false by done. done.
Qed.

Lemma chain_fork_table : fork_table chain_content "number" "parent_hash" (Some "parent_number"%string).
Proof.
  split; [eexists; split; [reflexivity|]; split; [done|]; intros row _; done|eexists; split; [reflexivity|done]|].
  intros c [= <-]. eexists. split; [reflexivity|done].
Qed.

Lemma check_parent_block_spec_witness : exists l row,
  answers_fork chain_content 100 "number" l row /\
  check_parent_block (chain_plan "0x99") chain_metadata chain_reader =
  if decide (text_at chain_content "parent_hash" row = "0x99"%string) then Ok tt
  else Err (BaseBlockError {| expected_hash := "0x99";
    prev_blocks := sort_by (fun a b => br_number a <=? br_number b) (omap (parent_ref chain_content "number" "parent_hash" (Some "parent_number"%string)) l) |}).
Proof.
  destruct (check_parent_block_spec chain_reader _ (RL:=chain_reader_laws) (chain_plan "0x99") chain_blocks "parent_hash" chain_schema chain_content
    eq_refl ltac:(done) chain_fork_table chain_metadata "0x99" eq_refl eq_refl eq_refl) as (l & [_ Hl] & [[Hnone _]|(row & Hrow & E)]); [|by exists l, row].
  exfalso. assert (Hin : 2%nat ∈ l).
  { apply Hl. split; [cbn; lia|]. split; [|by eexists]. eexists. split; [reflexivity|]. split; [done|]. eexists. split; [reflexivity|done]. }
  specialize (Hnone 2%nat 101 Hin eq_refl). cbn in Hnone. lia.
Defined.
