(* ===== verification/Prepare.v ===== *)
(** What is settled before a row is read (src/execution/prepare.rs, and the selection
    reader of src/execution/materialize.rs): the catalog entries of the planned
    tables, the reader a page is selected through, and whether payloads are read
    during selection or after it. *)
From stdpp Require Import base strings list gmap.
From Stdlib Require Import ZArith Lia.
From S2P Require Import Prelude Machine ListLib Errors Arrow Catalog Counting Rows Keys Addresses Predicate RowPredicate ItemLists Projection Weight RowOrder Scan Columnar Plan Reader Sources.

#[local] Open Scope Z_scope.

(** [src/src/execution/mod.rs:27-37] ExecOptions. *)
Record ExecOptions := { eo_profile : bool; eo_weight_budget : Z; eo_range_reads : bool }.

(** [src/src/execution/mod.rs:40-46] ExecOptions::default. *)
Definition ExecOptions_default : ExecOptions :=
  {| eo_profile := false; eo_weight_budget := MAX_RESPONSE_BYTES; eo_range_reads := true |}.

(** [src/src/execution/prepare.rs:41-52] PlannedTable. *)
Record PlannedTable := {
  pt_plan : TablePlan;
  pt_desc : TableDescription;
  pt_projection : ResolvedProjection;
  pt_scan_columns : list string;
  pt_targets : list ResolvedProjection;
}.

(** [src/src/execution/materialize.rs:18-29] SelectionReader. *)
Record SelectionReader := {
  sr_inner : ChunkReader;
  sr_columns : gmap string (list string);
  sr_track_positions : bool;
  sr_shared : gset string;
  sr_decoded : ColumnCache;
}.

(** [src/src/execution/prepare.rs:22-39] Execution. *)
Record Execution := {
  ex_plan : Plan;
  ex_chunk : ChunkReader;
  ex_options : ExecOptions;
  ex_blocks : TableDescription;
  ex_header : ResolvedProjection;
  ex_tables : list PlannedTable;
  ex_selection : option SelectionReader;
}.

(** [src/src/execution/prepare.rs:444-457] catalog_entry. *)
Definition catalog_entry (metadata : DatasetDescription) (name : string) : result TableDescription :=
  ok_or (Catalog.table metadata name) (EngineError TableNotFound).

(** [src/src/execution/prepare.rs:374-398] PlannedTable::resolve. *)
Definition PlannedTable_resolve (plan : TablePlan) (metadata : DatasetDescription) : result PlannedTable :=
  let* desc := catalog_entry metadata (tp_table plan) in
  let* projection := resolve (tp_table plan) desc (tp_output_columns plan) in
  let scan_columns := with_relation_keys projection (rel_left_key <$> tp_relations plan) in
  let* targets := mapM_ok (fun relation =>
    let* target := catalog_entry metadata (rel_target_table relation) in
    resolve (rel_target_table relation) target (rel_output_columns relation)) (tp_relations plan) in
  Ok {| pt_plan := plan; pt_desc := desc; pt_projection := projection; pt_scan_columns := scan_columns; pt_targets := targets |}.

(** [src/src/execution/prepare.rs:400-405] PlannedTable::relations. *)
Definition pt_relations (self : PlannedTable) : list (RelationPlan * ResolvedProjection) :=
  zip (tp_relations (pt_plan self)) (pt_targets self).

(** ** The selection reader *)

(** [src/src/execution/materialize.rs:30] SELECTION_COLUMN_BUDGET. *)
Definition SELECTION_COLUMN_BUDGET : Z := Z.shiftl 64 20.

(** [TableColumns] of materialize.rs: the columns read of each table. *)
Abbreviation TableColumns := (gmap string (TableDescription * list string)).

(** [src/src/execution/materialize.rs:38-47] entry: what is read of a projection's
    table, with more columns. *)
Definition entry_extend (columns : TableColumns) (projection : ResolvedProjection) (f : list string -> list string) : TableColumns :=
  let '(desc, cols) := default (rp_desc projection, []) (columns !! rp_table projection) in
  <[rp_table projection := (desc, f cols)]> columns.

(** [src/src/execution/materialize.rs:L62-73] SelectionReader::new: a scan counted for its
    table, if it is broad. *)
Definition count_scan (scans : gmap string nat) (name : string) (broad : bool) : gmap string nat :=
  <[name := (default O (scans !! name) + if broad then 1 else 0)%nat]> scans.

(** [src/src/execution/materialize.rs:L67-70] SelectionReader::new: whether every item a
    relation follows matches every row; an item the plan lacks is a panic. *)
Fixpoint items_match_every_row (predicates : list (RowPredicate predicate)) (items : list nat) : result bool :=
  match items with
  | [] => Ok true
  | item :: items =>
      let* p := vec_get predicates item in
      if matches_every_row p then items_match_every_row predicates items else Ok false
  end.

(** [src/src/execution/materialize.rs:L60-74] SelectionReader::new: the scans of a table plan. *)
Definition count_scans (scans : gmap string nat) (t : PlannedTable) : result (gmap string nat) :=
  let predicates := tp_predicates (pt_plan t) in
  let unfiltered := forallb matches_every_row predicates in
  foldM (fun scans relation =>
    let* broad :=
      match rel_source_items relation with
      | Some items => items_match_every_row predicates items
      | None => Ok unfiltered
      end in
    Ok (count_scan scans (rel_target_table relation) broad)) (tp_relations (pt_plan t))
    (count_scan scans (tp_table (pt_plan t)) unfiltered).

(** [src/src/execution/materialize.rs:L59-75] SelectionReader::new: how many broad scans read each table. *)
Definition broad_scans (tables : list PlannedTable) : result (gmap string nat) := foldM count_scans tables ∅.

(** [src/src/execution/materialize.rs:L80-108] SelectionReader::new: the columns it
    reads of each table. *)
Definition selection_columns (header : ResolvedProjection) (tables : list PlannedTable) (track_positions : bool) : TableColumns :=
  let columns := entry_extend ∅ header (fun cols => cols ++ rp_size_columns header) in
  fold_left (fun columns t =>
    let desc := pt_desc t in
    let columns := entry_extend columns (pt_projection t) (fun primary =>
      let primary := if track_positions then primary else push_unique primary (row_key desc) in
      let primary := push_unique primary (rp_size_columns (pt_projection t)) in
      fold_left (fun primary relation =>
        let primary := push_unique primary (rel_left_key relation) in
        if decide (rel_kind relation = Join) then primary else push_unique primary (option_list (td_address_column desc)))
        (tp_relations (pt_plan t)) primary) in
    fold_left (fun columns (r : RelationPlan * ResolvedProjection) =>
      let '(relation, projection) := r in
      let desc := rp_desc projection in
      entry_extend columns projection (fun target =>
        let target := if track_positions then target else push_unique target (row_key desc) in
        let target := push_unique target (rel_right_key relation) in
        let target := if decide (rel_kind relation = Join) then target else push_unique target (option_list (td_address_column desc)) in
        push_unique target (rp_size_columns projection))) (pt_relations t) columns) tables columns.

(** [src/src/execution/materialize.rs:50-133] SelectionReader::new. *)
Definition SelectionReader_new (inner : ChunkReader) (header : ResolvedProjection) (tables : list PlannedTable) : result (option SelectionReader) :=
  let* scans := broad_scans tables in
  let track_positions := cr_supports_row_positions inner in
  let shared := dom (filter (fun e : string * nat => (1 < e.2)%nat) scans) in
  let columns := selection_columns header tables track_positions in
  let identified (e : string * (TableDescription * list string)) :=
    match cr_table_schema inner e.1 with
    | Some schema => forallb (fun key => bool_decide (is_Some (schema_index schema key))) (row_key e.2.1)
    | None => false
    end in
  if forallb identified (map_to_list columns) then
    Ok (Some {| sr_inner := inner; sr_columns := snd <$> columns; sr_track_positions := track_positions; sr_shared := shared;
                sr_decoded := ColumnCache_new SELECTION_COLUMN_BUDGET |})
  else Ok None.

(** [src/src/execution/materialize.rs:142-153] SelectionReader::narrowed. *)
Definition narrowed (self : SelectionReader) (name : string) (request : scan_request) : option scan_request :=
  columns ← sr_columns self !! name;
  Some {| output_columns := columns; predicates := predicates request; from_block := from_block request; to_block := to_block request;
          block_number_column := block_number_column request; batch_size := batch_size request; key_filter := key_filter request;
          hierarchical_filter := hierarchical_filter request; Rows.required_columns := Rows.required_columns request;
          positions := sr_track_positions self; row_indices := row_indices request; item_tags := item_tags request;
          column_cache := if bool_decide (name ∈ sr_shared self) then Some (sr_decoded self) else None; window := window request |}.

(** [src/src/execution/materialize.rs:L155-177] SelectionReader as a ChunkReader. *)
Definition selection_chunk (self : SelectionReader) : ChunkReader := {|
  cr_scan_rows name request := cr_scan_rows (sr_inner self) name (default request (narrowed self name request));
  cr_supports_row_positions := default_supports_row_positions;
  cr_next_block_range_end := default_next_block_range_end;
  cr_estimate_scan_bytes name request := cr_estimate_scan_bytes (sr_inner self) name (default request (narrowed self name request));
  cr_has_table := cr_has_table (sr_inner self);
  cr_table_schema := cr_table_schema (sr_inner self);
|}.

(** ** The execution *)

(** [src/src/execution/prepare.rs:103-109] Execution::scan_reader. *)
Definition scan_reader (self : Execution) : ChunkReader :=
  match ex_selection self with Some reader => selection_chunk reader | None => ex_chunk self end.

(** [src/src/execution/prepare.rs:111-135] Execution::ensure_required_tables_present. *)
Definition ensure_required_tables_present (self : Execution) : result () :=
  let ensure_present name := ensure (cr_has_table (ex_chunk self) name) (EngineError TableNotFound) in
  let* _ := ensure_present (pl_block_table (ex_plan self)) in
  foldM (fun _ t =>
    let* _ := ensure_present (tp_table (pt_plan t)) in
    foldM (fun _ relation => ensure_present (rel_target_table relation)) (tp_relations (pt_plan t)) tt) (ex_tables self) tt.

(** [src/src/execution/prepare.rs:137-152] Execution::prescanned_table. *)
Definition prescanned_table (self : Execution) : option PlannedTable :=
  match ex_tables self with
  | [t] =>
      let filtered := negb (forallb matches_every_row (tp_predicates (pt_plan t))) in
      let sized := negb (pl_include_all_blocks (ex_plan self)) && bool_decide (tp_relations (pt_plan t) = []) && negb filtered in
      if sized then Some t else None
  | _ => None
  end.

(** [src/src/execution/prepare.rs:350-370] Execution::estimate_range_bytes. *)
Definition estimate_range_bytes (self : Execution) (reader : ChunkReader) (name : string) (desc : TableDescription)
    (columns : list string) (predicates : list (RowPredicate predicate)) : Z :=
  let request : scan_request :=
    {| output_columns := columns; predicates := predicates; from_block := Some (pl_from_block (ex_plan self));
       to_block := pl_to_block (ex_plan self); block_number_column := Some (td_block_number_column desc); batch_size := u64_max;
       key_filter := None; hierarchical_filter := None; Rows.required_columns := []; positions := false; row_indices := None;
       item_tags := []; column_cache := None; window := None |} in
  default u64_max (cr_estimate_scan_bytes reader name request).

(** [src/src/execution/prepare.rs:267-303] Execution::defers_payloads. *)
Definition defers_payloads (self : Execution) : bool :=
  let plan := ex_plan self in
  let has_relations := existsb (fun t => negb (bool_decide (tp_relations t = []))) (pl_table_plans plan) in
  if has_relations then true
  else
    let one_block := bool_decide (pl_to_block plan = Some (pl_from_block plan)) in
    if one_block then false
    else
      let columns := rp_row_columns (ex_header self) in
      let estimate := estimate_range_bytes self (ex_chunk self) (pl_block_table plan) (ex_blocks self) columns [] in
      let estimate :=
        match prescanned_table self with
        | None =>
            fold_left (fun estimate t =>
              sat_add estimate (estimate_range_bytes self (ex_chunk self) (tp_table (pt_plan t)) (pt_desc t) (pt_scan_columns t)
                (tp_predicates (pt_plan t)))) (ex_tables self) estimate
        | Some _ => estimate
        end in
      eo_weight_budget (ex_options self) <? estimate.

(** [src/src/execution/prepare.rs:316-348] Execution::selection_bound. *)
Definition selection_bound (self : Execution) (selection : SelectionReader) : Z :=
  fold_left (fun bound t =>
    let bytes := estimate_range_bytes self (selection_chunk selection) (tp_table (pt_plan t)) (pt_desc t) [] (tp_predicates (pt_plan t)) in
    let bound := sat_add bound bytes in
    fold_left (fun bound (r : RelationPlan * ResolvedProjection) =>
      sat_add bound (estimate_range_bytes self (selection_chunk selection) (rel_target_table r.1) (rp_desc r.2) [] []))
      (pt_relations t) bound) (ex_tables self) 0.

(** [src/src/execution/prepare.rs:305-314] Execution::selection_fits. *)
Definition selection_fits (self : Execution) : bool :=
  match ex_selection self with
  | Some selection => selection_bound self selection <=? eo_weight_budget (ex_options self)
  | None => false
  end.

(** [src/src/execution/prepare.rs:409-441] Execution::output_sources. *)
Definition output_sources (self : Execution) (outputs : gmap string TableOutput) : list OutputSource :=
  (fold_left (fun '(sources, outputs) t =>
    match outputs !! tp_table (pt_plan t) with
    | None => (sources, outputs)
    | Some output =>
        let outputs := delete (tp_table (pt_plan t)) outputs in
        let sources := sources ++ [{| os_projection := pt_projection t; os_rows := to_rows output |}] in
        (sources ++ omap (fun e : nat * ResolvedProjection =>
           rows ← to_relations output !! e.1; Some {| os_projection := e.2; os_rows := rows |}) (enumerate (pt_targets t)), outputs)
    end) (ex_tables self) ([], outputs : gmap string TableOutput)).1.
