(* ===== verification/Tables.v ===== *)
(** Reading one block range (src/execution/tables.rs): every table plan's rows, and
    the rows each of its relations relates to them. *)
From stdpp Require Import base strings list gmap.
From Stdlib Require Import ZArith Lia.
From S2P Require Import Prelude Machine ListLib Errors Arrow Catalog BlockIndex Rows KeyColumns SemiJoin Hierarchical Addresses Keys Predicate RowPredicate ItemLists Projection Weight Scan Plan Reader Sources Prepare.

#[local] Open Scope Z_scope.

(** [src/src/execution/tables.rs:132-140] HierarchicalSpec. *)
Record HierarchicalSpec := {
  hs_group_keys : list string;
  hs_source_address : string;
  hs_target_address : string;
  hs_mode : HierarchicalMode;
  hs_inclusive : bool;
}.

(** [src/src/execution/tables.rs:195-202] group_keys_for_relation. *)
Definition group_keys_for_relation (keys : list string) (address : option string) : list string :=
  filter (fun key => Some key <> address) keys.

(** [src/src/execution/tables.rs:143-167] HierarchicalSpec::of. *)
Definition HierarchicalSpec_of (relation : RelationPlan) (target : TableDescription)
    (source : string * TableDescription) : option HierarchicalSpec :=
  mode ← match rel_kind relation with JoinChildren => Some Children | JoinParents => Some Parents | Join => None end;
  target_address ← td_address_column target;
  let source_address := default target_address (td_address_column source.2) in
  let inclusive := negb (bool_decide (rel_target_table relation = source.1)) in
  Some {| hs_group_keys := group_keys_for_relation (rel_left_key relation) (Some target_address);
          hs_source_address := source_address; hs_target_address := target_address; hs_mode := mode; hs_inclusive := inclusive |}.

(** [src/src/execution/tables.rs:170-193] pushdown_keys. *)
Definition pushdown_keys (relation : RelationPlan) (target : TableDescription) : option (list string * list string) :=
  let '(left_keys, right_keys) :=
    match rel_kind relation with
    | Join => (rel_left_key relation, rel_right_key relation)
    | JoinChildren | JoinParents =>
        let address := td_address_column target in
        (group_keys_for_relation (rel_left_key relation) address, group_keys_for_relation (rel_right_key relation) address)
    end in
  let usable := negb (bool_decide (left_keys = [])) && negb (bool_decide (right_keys = [])) in
  if usable then Some (left_keys, right_keys) else None.

(** ** Values built once *)

Section built_once.
Context {A V : Type} `{EqDecision A}.

(** [src/src/execution/tables.rs:204-205] BuiltOnce. *)
Definition BuiltOnce : Type := list (A * V).

(** [src/src/execution/tables.rs:L203-208] BuiltOnce::build: the distinct keys, in
    the order they first come. *)
Definition distinct_keys (keys : list A) : list A :=
  fold_left (fun distinct key => if decide (key ∈ distinct) then distinct else distinct ++ [key]) keys [].

(** [src/src/execution/tables.rs:208-233] BuiltOnce::build and BuiltOnce::try_build. *)
Definition build_once (keys : list A) (build : A -> result V) : result BuiltOnce :=
  let distinct := distinct_keys keys in
  let* values := mapM_ok build distinct in
  Ok (zip distinct values).

(** [src/src/execution/tables.rs:235-243] BuiltOnce::get. *)
Definition built (self : BuiltOnce) (key : A) : result V :=
  expect (snd <$> head (filter (fun e : A * V => e.1 = key) (self : list (A * V)))).
End built_once.
Arguments BuiltOnce : clear implicits.

(** ** Relations *)

(** [src/src/execution/tables.rs:246-260] RelationInput. *)
Record RelationInput := {
  ri_relation : RelationPlan;
  ri_target : ResolvedProjection;
  ri_hierarchy : option HierarchicalSpec;
  ri_source : list RecordBatch;
  ri_key_filter : option KeyFilter;
  ri_hierarchical_filter : option HierarchicalFilter;
  ri_keyless : bool;
}.

(** [src/src/execution/tables.rs:263-267] RelationInput::follows_nothing. *)
Definition follows_nothing (self : RelationInput) : bool :=
  ri_keyless self || forallb (fun batch => num_rows batch =? 0)%nat (ri_source self).

Section tables.
Context {K : ArrowKernels}.

(** [src/src/execution/tables.rs:L277-279] relation_inputs: the addresses a relation
    follows by group. *)
Definition address_spec (table : PlannedTable) (relation : RelationPlan) (target : TableDescription) : option HierarchicalSpec :=
  spec ← HierarchicalSpec_of relation target (tp_table (pt_plan table), pt_desc table);
  if decide (hs_group_keys spec = []) then None else Some spec.

(** [src/src/execution/tables.rs:L302-341] relation_inputs: one relation's input. *)
Definition relation_input (table : PlannedTable) (sources : BuiltOnce (option (list nat)) (list RecordBatch))
    (key_sets : BuiltOnce (option (list nat) * list string) KeySet)
    (address_indexes : BuiltOnce (option (list nat) * list string * string) AddressIndex)
    (r : RelationPlan * ResolvedProjection) : result RelationInput :=
  let '(relation, target) := r in
  let items := rel_source_items relation in
  let target_desc := rp_desc target in
  let target_bn := td_block_number_column target_desc in
  let* keys :=
    match pushdown_keys relation target_desc with
    | None => Ok None
    | Some (left_keys, right_keys) => let* set := built key_sets (items, left_keys) in Ok (Some (set, right_keys))
    end in
  let hierarchy := HierarchicalSpec_of relation target_desc (tp_table (pt_plan table), pt_desc table) in
  let* addresses :=
    match address_spec table relation target_desc with
    | None => Ok None
    | Some spec =>
        let* index := built address_indexes (items, hs_group_keys spec, hs_source_address spec) in
        Ok (Some (index, spec))
    end in
  let keyless :=
    match keys with Some (set, _) => ks_matches_nothing set | None => false end ||
    match addresses with Some (index, _) => matches_nothing index | None => false end in
  let* key_filter :=
    match keys with
    | None => Ok None
    | Some (set, right_keys) =>
        let* f := ks_filter set right_keys target_bn in
        Ok (if kf_is_empty f then None else Some f)
    end in
  let hierarchical_filter :=
    '(index, spec) ← addresses;
    let f := ai_filter index (hs_target_address spec) (hs_mode spec) (hs_inclusive spec) in
    if hf_is_empty f then None else Some f in
  let* source := built sources items in
  Ok {| ri_relation := relation; ri_target := target; ri_hierarchy := hierarchy; ri_source := source; ri_key_filter := key_filter;
        ri_hierarchical_filter := hierarchical_filter; ri_keyless := keyless |}.

(** [src/src/execution/tables.rs:270-342] relation_inputs. *)
Definition relation_inputs (table : PlannedTable) (sources : BuiltOnce (option (list nat)) (list RecordBatch)) : result (list RelationInput) :=
  let primary_bn := td_block_number_column (pt_desc table) in
  let* key_sets := build_once
    (omap (fun r : RelationPlan * ResolvedProjection =>
       '(left_keys, _) ← pushdown_keys r.1 (rp_desc r.2); Some (rel_source_items r.1, left_keys)) (pt_relations table))
    (fun key : option (list nat) * list string =>
       let* batches := built sources key.1 in KeySet_build batches key.2 primary_bn) in
  let* address_indexes := build_once
    (omap (fun r : RelationPlan * ResolvedProjection =>
       spec ← address_spec table r.1 (rp_desc r.2); Some (rel_source_items r.1, hs_group_keys spec, hs_source_address spec))
       (pt_relations table))
    (fun key : option (list nat) * list string * string =>
       let* batches := built sources key.1.1 in AddressIndex_build batches key.1.2 key.2) in
  mapM_ok (relation_input table sources key_sets address_indexes) (pt_relations table).

(** [src/src/execution/tables.rs:L354-364] scan_relation: what it asks for. *)
Definition relation_request (input : RelationInput) (window : Window) (block_range : option Z * option Z) : scan_request :=
  {| output_columns := rp_row_columns (ri_target input); predicates := []; from_block := block_range.1; to_block := block_range.2;
     block_number_column := Some (td_block_number_column (rp_desc (ri_target input))); batch_size := u64_max;
     key_filter := ri_key_filter input; hierarchical_filter := ri_hierarchical_filter input;
     Rows.required_columns := rp_required (ri_target input); positions := false; row_indices := None; item_tags := [];
     column_cache := None; window := Some window |}.

(** [src/src/execution/tables.rs:344-413] scan_relation. *)
Definition scan_relation (input : RelationInput) (chunk : ChunkReader) (window : Window) (block_range : option Z * option Z) : result Rows :=
  let relation := ri_relation input in
  let* scanned := cr_scan_rows chunk (rel_target_table relation) (relation_request input window block_range) in
  let target := sc_rows scanned in
  let filtered_in_scan :=
    match rel_kind relation with
    | Join => bool_decide (is_Some (ri_key_filter input))
    | JoinChildren | JoinParents => bool_decide (is_Some (ri_hierarchical_filter input))
    end in
  if filtered_in_scan then Ok target else
  let by_masks (masks : list mask) := rows_filter target (fun index _ => expect (masks !! index)) in
  if decide (rel_kind relation = Join) then
    let* masks := lookup_join_masks (ri_source input) (rel_left_key relation) (rw_batches target) (rel_right_key relation) in
    by_masks masks
  else
    match ri_hierarchy input with
    | None => Ok (Rows_new [])
    | Some spec =>
        let relatives := match hs_mode spec with Children => children_masks | Parents => parents_masks end in
        let* masks := relatives (ri_source input) (rw_batches target) (hs_group_keys spec) (hs_source_address spec)
          (hs_target_address spec) (hs_inclusive spec) in
        by_masks masks
    end.

(** [src/src/execution/tables.rs:L48-65] scan_table: what it asks for. *)
Definition table_request (table : PlannedTable) (window : Window) : scan_request :=
  let plan := pt_plan table in
  {| output_columns := pt_scan_columns table; predicates := tp_predicates plan; from_block := w_from window; to_block := w_to window;
     block_number_column := Some (td_block_number_column (pt_desc table)); batch_size := u64_max; key_filter := None;
     hierarchical_filter := None; Rows.required_columns := rp_required (pt_projection table); positions := false; row_indices := None;
     item_tags := distinct_keys (omap rel_source_items (tp_relations plan)); column_cache := None; window := Some window |}.

(** [src/src/execution/tables.rs:L80-114] scan_table: the rows of each relation. *)
Definition scan_relations (chunk : ChunkReader) (table : PlannedTable) (window : Window) (scanned : Scanned)
    (block_range : option Z * option Z) : result (gmap nat Rows) :=
  let primary := rw_batches (sc_rows scanned) in
  let* sources := build_once (rel_source_items <$> tp_relations (pt_plan table)) (fun items : option (list nat) =>
    match items with
    | None => Ok primary
    | Some items => ok_or (matched_by scanned items) OtherError
    end) in
  let* inputs := relation_inputs table sources in
  let followed := filter (fun e : nat * RelationInput => follows_nothing e.2 = false) (enumerate inputs) in
  let* related := mapM_ok (fun e : nat * RelationInput =>
    let* rows := scan_relation e.2 chunk window block_range in Ok (e.1, rows)) followed in
  Ok (list_to_map related).

(** [src/src/execution/tables.rs:41-130] scan_table. *)
Definition scan_table (execution : Execution) (table : PlannedTable) (window : Window) : result (string * TableOutput) :=
  let chunk := scan_reader execution in
  let* scanned := cr_scan_rows chunk (tp_table (pt_plan table)) (table_request table window) in
  let primary := rw_batches (sc_rows scanned) in
  let* block_range := compute_block_range primary (td_block_number_column (pt_desc table)) in
  let has_primary_rows := existsb (fun b => negb (num_rows b =? 0)%nat) primary in
  let* relations :=
    if has_primary_rows && negb (bool_decide (tp_relations (pt_plan table) = []))
    then scan_relations chunk table window scanned block_range else Ok ∅ in
  Ok (tp_table (pt_plan table), {| to_rows := sc_rows scanned; to_relations := relations |}).

(** [src/src/execution/tables.rs:20-39] scan_tables. *)
Definition scan_tables (execution : Execution) (from_block : Z) (to_block : option Z) : result (gmap string TableOutput) :=
  let window := {| w_from := Some from_block; w_to := to_block |} in
  let* scanned := mapM_ok (fun table => scan_table execution table window) (ex_tables execution) in
  Ok (fold_left (fun outputs (e : string * TableOutput) => <[e.1 := e.2]> outputs) scanned ∅).
End tables.
