(* ===== verification/TablesSpec.v ===== *)
(** What one block range holds of a query: a table's rows that an item matches, and
    the rows a relation relates to them, whatever the reader and whatever else the
    range holds. *)
From stdpp Require Import base strings list gmap sorting.
From Stdlib Require Import ZArith Lia.
From S2P Require Import Prelude Machine ListLib Errors Arrow Catalog Integers Counting BlockIndex Rows KeyColumns SemiJoin Hierarchical Addresses AddressLookup AddressBuild Keys Projection Weight Render Json Sets Predicate PredicateSpec Pruning RowPredicate ItemLists Scan Returned KeyCells Follow Columnar ColumnarSpec Plan Reader Sources Prepare Tables.

#[local] Open Scope Z_scope.

(** ** What a query asks of a table *)

(** A row's block is in a window. *)
Definition block_in (content : RecordBatch) (bn : string) (w : Window) (row : nat) : Prop :=
  exists b, row_block content bn row = Some b /\ in_bounds (w_from w) (w_to w) b = true.

Section semantics.
Context {K : ArrowKernels} {L : ArrowLaws K} {R : RowFormat} {X : Xxh3} {XL : Xxh3Laws X} {HK : HexKernel}.

(** A table plan's rows: those of some item, or all of them when it has none. *)
Definition primary_row (content : RecordBatch) (plan : TablePlan) (row : nat) : Prop :=
  (row < num_rows content)%nat /\
  (tp_predicates plan = [] \/ Exists (fun p => row_admits content p row) (tp_predicates plan)).

(** The rows a relation follows: all of them, or those of its own items. *)
Definition followed_row (content : RecordBatch) (plan : TablePlan) (relation : RelationPlan) (row : nat) : Prop :=
  primary_row content plan row /\
  match rel_source_items relation with
  | None => True
  | Some items => Exists (fun item => exists p, tp_predicates plan !! item = Some p /\ row_admits content p row) items
  end.

(** The target rows a relation relates to the followed rows of its source. *)
Definition relates_to (table : PlannedTable) (source : RecordBatch) (followed : nat -> Prop)
    (relation : RelationPlan) (target_desc : TableDescription) (target : RecordBatch) (row : nat) : Prop :=
  match HierarchicalSpec_of relation target_desc (tp_table (pt_plan table), pt_desc table) with
  | Some spec => walked source (hs_group_keys spec) (hs_source_address spec) followed target (hs_target_address spec) (hs_mode spec) (hs_inclusive spec) row
  | None => rel_kind relation = Join /\ joined source (rel_left_key relation) followed target (rel_right_key relation) row
  end.

Definition related_row (table : PlannedTable) (source : RecordBatch) (r : RelationPlan * ResolvedProjection) (target : RecordBatch) (row : nat) : Prop :=
  relates_to table source (followed_row source (pt_plan table) r.1) r.1 (rp_desc r.2) target row.

(** Rows of a table as a scan returns them: some of its columns, with their positions
    where they are tracked. *)
Definition drawn_rows (content : RecordBatch) (cols : list string) (tracked : bool) (l : list nat) (rows : Rows) : Prop :=
  rows_ok rows /\ (is_Some (rw_positions rows) <-> tracked = true) /\
  entries rows = (fun row => (output_row content cols row, if tracked then Some (Z.of_nat row) else None)) <$> l /\
  Forall (fun b => batch_schema b = output_types content cols) (rw_batches rows).
End semantics.

(** ** Built once *)

Section built_once.
Context {A V : Type} `{EqDecision A}.
Implicit Types (keys : list A) (build : A -> result V).

Lemma distinct_keys_spec keys : NoDup (distinct_keys keys) /\ forall k, k ∈ distinct_keys keys <-> k ∈ keys.
Proof.
  unfold distinct_keys.
  assert (H : forall acc, NoDup acc ->
    NoDup (fold_left (fun distinct key => if decide (key ∈ distinct) then distinct else distinct ++ [key]) keys acc) /\
    forall k, k ∈ fold_left (fun distinct key => if decide (key ∈ distinct) then distinct else distinct ++ [key]) keys acc <-> k ∈ acc \/ k ∈ keys).
  { induction keys as [|key keys IH]; intros acc Hacc; cbn [fold_left]; [split; [done|]; intros k; rewrite elem_of_nil; tauto|].
    case_decide as Hin.
    - destruct (IH acc Hacc) as [Hnd Hk]. split; [done|]. intros k. rewrite Hk, elem_of_cons. split; [tauto|]. intros [|[->|]]; tauto.
    - destruct (IH (acc ++ [key])) as [Hnd Hk].
      { apply NoDup_app. split; [done|]. split; [|apply NoDup_singleton]. by intros x Hx ->%list_elem_of_singleton. }
      split; [done|]. intros k. rewrite Hk, elem_of_app, list_elem_of_singleton, elem_of_cons. tauto. }
  destruct (H [] (NoDup_nil_2)) as [Hnd Hk]. split; [done|]. intros k. rewrite Hk, elem_of_nil. tauto.
Qed.

(** Every key's value is what is built of it. *)
Lemma build_once_ok keys build : (forall k, k ∈ keys -> exists v, build k = Ok v) ->
  exists t, build_once keys build = Ok t /\ forall k, k ∈ keys -> built t k = build k.
Proof.
  intros Hb. unfold build_once. destruct (distinct_keys_spec keys) as [Hnd Hin]. setoid_rewrite <- Hin in Hb. setoid_rewrite <- Hin. clear Hin.
  assert (H : exists values, mapM_ok build (distinct_keys keys) = Ok values /\
    forall k, k ∈ distinct_keys keys -> built (zip (distinct_keys keys) values) k = build k).
  2: { destruct H as (values & -> & H). by eexists. }
  induction Hnd as [|k l Hk Hnd IH]; [exists []; split; [done|]; by intros k ?%not_elem_of_nil|].
  destruct (Hb k ltac:(by left)) as [v Ev]. destruct IH as (values & E & Hv); [intros; apply Hb; by right|].
  exists (v :: values). cbn [mapM_ok]. rewrite Ev, E. split; [done|]. intros k' Hk'. unfold built in *.
  cbn [zip zip_with]. rewrite filter_cons. cbn [fst]. case_decide as Heq.
  - subst k'. by rewrite Ev.
  - apply elem_of_cons in Hk' as [->|Hk']; [done|]. by apply Hv.
Qed.
End built_once.

(** ** Windows *)

(** The bounds a scan checks, exactly: from the first block on, there is nothing to
    check below. *)
Lemma bounds_checked content bn w row : is_Some (row_block content bn row) ->
  let from := w_from w ≫= fun block => if 0 <? block then Some block else None in
  in_blocks content (if bool_decide (is_Some from) || bool_decide (is_Some (w_to w)) then Some (from, w_to w) else None) (Some bn) row <->
  block_in content bn w row.
Proof.
  intros [b Eb] from. pose proof (row_block_range _ _ _ _ Eb) as Hb0. subst from. unfold block_in. rewrite Eb.
  assert (Hex : forall from to, (exists b', Some b = Some b' /\ in_bounds from to b' = true) <-> in_bounds from to b = true) by naive_solver.
  rewrite Hex. destruct w as [[from|] to]; cbn [w_from w_to mbind option_bind]; [destruct (Z.ltb_spec 0 from)|]; destruct to as [to|]; cbn;
    rewrite ?Eb, ?Hex; unfold in_bounds; cbn; try done; split; try done.
  all: try (intros (b' & [= <-] & Hin)); try (intros Hin; exists b; split; [done|]); try intros; lia.
Qed.

Section scans.
Context {K : ArrowKernels} {L : ArrowLaws K} {R : RowFormat} {X : Xxh3} {XL : Xxh3Laws X} {HK : HexKernel}.

(** ** Tables a plan fits *)

(** A table holds what a planned table reads of it. *)
Record table_fits (schema : Schema) (content : RecordBatch) (table : PlannedTable) : Prop := {
  tf_items : Forall row_ok (tp_predicates (pt_plan table));
  tf_lists : lists_ok (tp_predicates (pt_plan table));
  tf_comparable : forall window, comparable schema (table_request table window) = true;
  tf_required : Forall (fun name => is_Some (schema_index schema name)) (rp_required (pt_projection table));
  tf_filtered : Forall (fun r => Forall (fun name => is_Some (schema_index schema name)) (RowPredicate.required_columns r))
    (tp_predicates (pt_plan table));
  tf_blocks : block_column content (td_block_number_column (pt_desc table));
  tf_tags : forall relation items, relation ∈ tp_relations (pt_plan table) -> rel_source_items relation = Some items ->
    Forall (fun item => (item < length (tp_predicates (pt_plan table)))%nat) items;
}.

(** Key columns both tables hold, of shapes keys are read at. *)
Record keys_fit (source target : RecordBatch) (names right_names : list string) : Prop := {
  kf_shapes : exists shapes, readable_shapes shapes /\ keyed [source] names shapes /\ keyed [target] right_names shapes;
  kf_source_full : keys_full source names;
  kf_target_full : keys_full target right_names;
}.

(** A relation a catalog declares, over tables that hold its columns: its keys start
    with the blocks, which both tables store alike; a hierarchical one groups both
    by the same columns, and both have an address. *)
Record relation_fits (table : PlannedTable) (source : RecordBatch) (r : RelationPlan * ResolvedProjection)
    (schema : Schema) (target : RecordBatch) : Prop := {
  rf_schema : schema_of schema target;
  rf_required : Forall (fun name => is_Some (schema_index schema name)) (rp_required r.2);
  rf_target_blocks : block_column target (td_block_number_column (rp_desc r.2));
  rf_left : exists rest, rel_left_key r.1 = td_block_number_column (pt_desc table) :: rest;
  rf_right : exists rest, rel_right_key r.1 = td_block_number_column (rp_desc r.2) :: rest;
  rf_length : length (rel_right_key r.1) = length (rel_left_key r.1);
  rf_alike : array_type <$> column_by_name source (td_block_number_column (pt_desc table)) =
    array_type <$> column_by_name target (td_block_number_column (rp_desc r.2));
  rf_join : rel_kind r.1 = Join -> keys_fit source target (rel_left_key r.1) (rel_right_key r.1) /\ paths_fit [source] (rel_left_key r.1);
  rf_walk : rel_kind r.1 <> Join -> exists target_address source_address group,
    td_address_column (rp_desc r.2) = Some target_address /\ td_address_column (pt_desc table) = Some source_address /\
    td_block_number_column (pt_desc table) <> target_address /\
    group = group_keys_for_relation (rel_left_key r.1) (Some target_address) /\
    group = group_keys_for_relation (rel_right_key r.1) (Some target_address) /\
    keys_fit source target group group /\ paths_fit [source] group /\
    path_column source source_address /\ path_column target target_address /\
    Z.of_nat (facts_size (facts_of [source] group source_address)) < 2 ^ 32;
}.

(** ** Through the selection reader *)

Context (ex : Execution) (tables : chunk_tables) `{Hreader : !ReaderLaws (ex_chunk ex) tables}.
Context (Hinner : forall s, ex_selection ex = Some s -> sr_inner s = ex_chunk ex /\
  (sr_track_positions s = true -> cr_supports_row_positions (ex_chunk ex) = true)).

(** The request the chunk is given: the selection reader's columns, when pages are
    selected through one. *)
Definition chunk_request (name : string) (request : scan_request) : scan_request :=
  match ex_selection ex with Some s => default request (narrowed s name request) | None => request end.

Lemma scan_reader_rows name request :
  cr_scan_rows (scan_reader ex) name request = cr_scan_rows (ex_chunk ex) name (chunk_request name request).
Proof.
  unfold scan_reader, chunk_request. destruct (ex_selection ex) as [s|] eqn:E; [|done]. cbn [selection_chunk cr_scan_rows].
  by destruct (Hinner s eq_refl) as [-> _].
Qed.

(** What it reads of a table, and whether with positions. *)
Definition read_columns (name : string) (cols : list string) : list string :=
  default cols (ex_selection ex ≫= fun s => sr_columns s !! name).

Definition tracked (name : string) : bool :=
  match ex_selection ex with Some s => bool_decide (is_Some (sr_columns s !! name)) && sr_track_positions s | None => false end.

Lemma chunk_request_reads name request : positions request = false ->
  output_columns (chunk_request name request) = read_columns name (output_columns request) /\
  positions (chunk_request name request) = tracked name.
Proof. clear Hinner.
  intros Hp. unfold chunk_request, read_columns, tracked. destruct (ex_selection ex) as [s|]; [|done]. unfold narrowed.
  cbn [mbind option_bind]. by destruct (sr_columns s !! name).
Qed.

Lemma returns_drawn name request content l s : positions request = false -> returns content (chunk_request name request) l s ->
  drawn_rows content (read_columns name (output_columns request)) (tracked name) l (sc_rows s).
Proof.
  intros Hp (Hok & Hpos & He & Hs & _). destruct (chunk_request_reads name request Hp) as [Ecols Etr]. rewrite Etr in Hpos. rewrite Ecols in Hs.
  split; [done|]. split; [done|]. split; [|done]. rewrite He. apply list_fmap_ext. intros _ row _. unfold output_entry. by rewrite Ecols, Etr.
Qed.

(** It differs in what is returned of a row, not in which rows are. *)
Lemma chunk_request_selects name request content related row :
  selected content (chunk_request name request) related row <-> selected content request related row.
Proof. clear Hinner.
  unfold chunk_request. destruct (ex_selection ex) as [s|]; [|done]. unfold narrowed. destruct (sr_columns s !! name); done.
Qed.

Lemma chunk_request_same name request : predicates (chunk_request name request) = predicates request /\
  item_tags (chunk_request name request) = item_tags request /\ window (chunk_request name request) = window request /\
  block_number_column (chunk_request name request) = block_number_column request /\ row_indices (chunk_request name request) = row_indices request.
Proof. clear Hinner. unfold chunk_request. destruct (ex_selection ex) as [s|]; [|done]. unfold narrowed. by destruct (sr_columns s !! name). Qed.

Lemma chunk_request_fits name request schema content related :
  request_fits schema content request related ->
  build_output_schema schema (output_columns (chunk_request name request)) <> [] ->
  request_fits schema content (chunk_request name request) related.
Proof. clear Hinner.
  intros Hf. unfold chunk_request. destruct (ex_selection ex) as [s|]; [|done]. unfold narrowed. destruct (sr_columns s !! name); [|done].
  cbn [mbind option_bind default]. intros Ho. destruct Hf. by split.
Qed.

(** A scan through the reader a page is selected through. *)
Lemma scan_reader_scans name schema content request related :
  tables name = Some (schema, content) -> request_fits schema content request related -> row_indices request = None ->
  positions request = false ->
  (forall bn, block_number_column request = Some bn -> bn ∈ output_columns (chunk_request name request)) -> is_Some (block_number_column request) ->
  window_holds content request related ->
  exists s, cr_scan_rows (scan_reader ex) name request = Ok s /\ scan_returns content (chunk_request name request) related s.
Proof.
  intros Ht Hf Hr Hpos Hbn [bn Ebn] Hw. rewrite scan_reader_rows. destruct (chunk_request_same name request) as (_ & _ & Ew & Eb & Er).
  apply (reader_scans (tables:=tables) name schema); [done| |congruence| |].
  - apply chunk_request_fits; [done|]. specialize (Hbn bn Ebn). destruct (fit_blocks _ _ _ _ Hf bn Ebn) as (a & Ea & _).
    assert (Hs : is_Some (schema_index schema bn)).
    { apply (schema_of_is_Some schema content); [exact (reader_tables name schema content Ht)|by rewrite Ea]. }
    apply field_with_name_index in Hs as [f Hs]. unfold build_output_schema. intros E.
    assert (Hin : f ∈ omap (field_with_name schema) (output_columns (chunk_request name request))) by (apply list_elem_of_omap; by exists bn).
    rewrite E in Hin. by apply not_elem_of_nil in Hin.
  - intros w bn' row b E1 E2 Hrow Hsel Hb. rewrite Ew in E1. rewrite Eb in E2. rewrite chunk_request_selects in Hsel.
    exact (Hw w bn' row b E1 E2 Hrow Hsel Hb).
  - unfold chunk_request. destruct (ex_selection ex) as [s|] eqn:E; [|congruence]. unfold narrowed. destruct (sr_columns s !! name); cbn; [|congruence].
    by apply Hinner.
Qed.

(** ** The table's own rows *)

Context (table : PlannedTable) (schema : Schema) (content : RecordBatch).
Context (Htable : tables (tp_table (pt_plan table)) = Some (schema, content)) (Hfits : table_fits schema content table).
Context (w : Window).

Abbreviation name := (tp_table (pt_plan table)).
Abbreviation bn := (td_block_number_column (pt_desc table)).
Abbreviation request := (chunk_request (tp_table (pt_plan table)) (table_request table w)).

Lemma table_request_fits : build_output_schema schema (pt_scan_columns table) <> [] ->
  request_fits schema content (table_request table w) (fun _ => True).
Proof.
  intros Ho. split; cbn [predicates output_columns block_number_column key_filter hierarchical_filter item_tags table_request].
  - apply Hfits.
  - apply Hfits.
  - unfold demanded; cbn [predicates table_request key_filter hierarchical_filter Rows.required_columns]. rewrite !app_nil_r.
    apply Forall_app. split; [apply Hfits|]. apply Forall_concat, Forall_fmap, Hfits.
  - intros b [= <-]. apply (tf_blocks _ _ _ Hfits).
  - done.
  - by intros [].
  - intros keys; done.
  - apply Forall_forall. intros items Hin.
    apply (proj1 (proj2 (distinct_keys_spec _) items)) in Hin. apply list_elem_of_omap in Hin as (relation & Hr & Hi).
    by apply (tf_tags _ _ _ Hfits relation).
  - apply Hfits.
  - done.
Qed.

(** A scan of the table selects the plan's rows whose blocks are in the window. *)
Lemma table_selected row : (row < num_rows content)%nat ->
  selected content (table_request table w) (fun _ => True) row <-> primary_row content (pt_plan table) row /\ block_in content bn w row.
Proof.
  intros Hrow. unfold selected, primary_row, RowFilters_of.
  cbn [predicates block_number_column key_filter hierarchical_filter from_block to_block table_request rf_blocks].
  change (bool_decide (is_Some (Some bn))) with true. cbn [negb]. rewrite !andb_true_r. rewrite (bounds_checked content bn w row); [tauto|].
  apply block_column_row; [apply Hfits|done].
Qed.

Context (Hreads : bn ∈ output_columns request) (Hscan : bn ∈ pt_scan_columns table).

Lemma column_known col : is_Some (column_by_name content col) -> is_Some (field_with_name schema col).
Proof.
  intros H. apply field_with_name_index. apply (schema_of_is_Some schema content); [|done]. exact (reader_tables _ schema content Htable).
Qed.

Lemma output_known cols : bn ∈ cols -> build_output_schema schema cols <> [].
Proof.
  intros Hin E. destruct (tf_blocks _ _ _ Hfits) as (a & Ea & _). destruct (column_known bn) as [f Hf]; [by rewrite Ea|].
  assert (H : f ∈ build_output_schema schema cols) by (apply list_elem_of_omap; by exists bn). rewrite E in H. by apply not_elem_of_nil in H.
Qed.

Lemma table_scanned : exists s l (ls : list (list nat)),
  cr_scan_rows (scan_reader ex) name (table_request table w) = Ok s /\
  picked (fun row => primary_row content (pt_plan table) row /\ block_in content bn w row) (num_rows content) l /\
  returns content request l s /\ concat ls = l /\ pieces content (output_columns request) ls (rw_batches (sc_rows s)).
Proof.
  destruct (scan_reader_scans name schema content (table_request table w) (fun _ => True)) as (s & Es & Hs); try done.
  - apply table_request_fits, output_known, Hscan.
  - by intros b [= <-].
  - intros w' b row z [= <-] [= <-] Hrow Hsel Ez. apply table_selected in Hsel as [_ (b' & Eb' & Hb')]; [|done]. by rewrite Ez in Eb'; injection Eb' as <-.
  - destruct (scan_pieces _ _ _ _ Hs) as (l & ls & [Hsort Hl] & Hret & Hc & Hp & _). exists s, l, ls. split; [done|]. split; [|done].
    split; [done|]. intros row. rewrite Hl. split; intros [Hrow H]; (split; [done|]).
    + rewrite chunk_request_selects in H. by apply table_selected.
    + rewrite chunk_request_selects. by apply table_selected.
Qed.

(** The rows a relation follows, as batches. *)
Definition source_batches (scanned : Scanned) (items : option (list nat)) : result (list RecordBatch) :=
  match items with
  | None => Ok (rw_batches (sc_rows scanned))
  | Some items => ok_or (matched_by scanned items) OtherError
  end.

Lemma tagged_batches s l (ls : list (list nat)) items : returns content request l s -> concat ls = l ->
  pieces content (output_columns request) ls (rw_batches (sc_rows s)) -> items ∈ item_tags (table_request table w) ->
  exists bs (ls' : list (list nat)), matched_by s items = Some bs /\ pieces content (output_columns request) ls' bs /\
    concat ls' `sublist_of` l /\ forall row, row ∈ concat ls' <-> row ∈ l /\ tagged content (table_request table w) items row.
Proof.
  intros (_ & _ & _ & _ & Hlen & Htags) Hc Hp Hin. destruct (chunk_request_same name (table_request table w)) as (Epred & Etags & _).
  assert (Hget : exists masks, head (filter (fun t : list nat * list mask => t.1 = items) (sc_tags s)) = Some (items, masks) /\
    Forall2 (fun (m : mask) b => length m = num_rows b) masks (rw_batches (sc_rows s)) /\
    forall k row, l !! k = Some row -> concat masks !! k = Some (Some true) <-> tagged content request items row).
  { rewrite <- Etags in Hin. apply list_elem_of_lookup in Hin as [t Ht]. destruct (Htags t items Ht) as (masks & Em & _).
    assert (Hf : (items, masks) ∈ filter (fun t : list nat * list mask => t.1 = items) (sc_tags s)).
    { apply list_elem_of_filter. split; [done|]. by eapply list_elem_of_lookup_2. }
    destruct (filter _ (sc_tags s)) as [|e rest] eqn:Ef; [by apply not_elem_of_nil in Hf|].
    assert (He : e ∈ filter (fun t : list nat * list mask => t.1 = items) (sc_tags s)) by (rewrite Ef; by left).
    apply list_elem_of_filter in He as [Eitems He]. apply list_elem_of_lookup in He as [t' Ht'].
    destruct (lookup_lt_is_Some_2 (item_tags request) t') as [items' Hitems']; [rewrite <- Hlen; by eapply lookup_lt_Some|].
    destruct (Htags t' items' Hitems') as (masks' & Em' & Hal & Hm). rewrite Ht' in Em'. injection Em' as ->. cbn in Eitems. subst items'.
    by exists masks'. }
  destruct Hget as (masks & Eh & Hal & Hm). destruct (pieces_masked content (output_columns request) ls _ masks Hp Hal) as (ls' & Ec' & Hp').
  eexists _, ls'. split; [unfold matched_by; rewrite Eh; done|]. split; [done|]. rewrite Ec', Hc. split; [apply masked_sublist|].
  intros row. rewrite elem_of_masked. assert (Htag : tagged content request items row <-> tagged content (table_request table w) items row).
  { unfold tagged. by rewrite Epred. }
  rewrite <- Htag. split.
  - intros (k & Hmk & Hk). split; [by eapply list_elem_of_lookup_2|]. by apply (Hm k).
  - intros [Hrow Ht]. apply list_elem_of_lookup in Hrow as [k Hk]. exists k. split; [|done]. by apply (Hm k row).
Qed.

Lemma source_batches_ok s l (ls : list (list nat)) relation :
  picked (fun row => primary_row content (pt_plan table) row /\ block_in content bn w row) (num_rows content) l ->
  returns content request l s -> concat ls = l -> pieces content (output_columns request) ls (rw_batches (sc_rows s)) ->
  relation ∈ tp_relations (pt_plan table) ->
  exists bs (ls' : list (list nat)), source_batches s (rel_source_items relation) = Ok bs /\
    pieces content (output_columns request) ls' bs /\ StronglySorted lt (concat ls') /\
    forall row, row ∈ concat ls' <-> followed_row content (pt_plan table) relation row /\ block_in content bn w row.
Proof.
  intros [Hsort Hl] Hret Hc Hp Hrel. unfold followed_row, source_batches. destruct (rel_source_items relation) as [items|] eqn:Ei.
  - destruct (tagged_batches s l ls items Hret Hc Hp) as (bs & ls' & -> & Hp' & Hsub & Hin).
    { apply distinct_keys_spec, list_elem_of_omap. by exists relation. }
    exists bs, ls'. split; [done|]. split; [done|]. split; [by eapply sorted_sublist|]. intros row. rewrite Hin, Hl. unfold tagged, primary_row.
    cbn [predicates table_request]. tauto.
  - exists (rw_batches (sc_rows s)), ls. split; [done|]. split; [done|]. rewrite Hc. split; [done|]. intros row. rewrite Hl. unfold primary_row. tauto.
Qed.

(** ** A relation *)

Context (r : RelationPlan * ResolvedProjection) (tschema : Schema) (target : RecordBatch).
Context (Hrel : relation_fits table content r tschema target).
Abbreviation tbn := (td_block_number_column (rp_desc r.2)).

(** The key pushed down starts with the blocks of both tables. *)
Lemma pushdown_fits : exists names right_names rest right_rest,
  pushdown_keys r.1 (rp_desc r.2) = Some (names, right_names) /\
  names = bn :: rest /\ right_names = tbn :: right_rest /\ length right_names = length names /\
  (forall c, c ∈ names -> c ∈ rel_left_key r.1) /\ keys_fit content target names right_names /\ paths_fit [content] names.
Proof.
  destruct (rf_left _ _ _ _ _ Hrel) as [rest Eleft]. destruct (rf_right _ _ _ _ _ Hrel) as [right_rest Eright].
  assert (Hwalk : rel_kind r.1 <> Join -> exists names right_names rest right_rest,
    Some (group_keys_for_relation (rel_left_key r.1) (td_address_column (rp_desc r.2)), group_keys_for_relation (rel_right_key r.1) (td_address_column (rp_desc r.2))) = Some (names, right_names) /\
    names = bn :: rest /\ right_names = tbn :: right_rest /\ length right_names = length names /\
    (forall c, c ∈ names -> c ∈ rel_left_key r.1) /\ keys_fit content target names right_names /\ paths_fit [content] names).
  { intros Hk. destruct (rf_walk _ _ _ _ _ Hrel Hk) as (ta & sa & group & Eta & Esa & Hne & E1 & E2 & Hkeys & Hfit & _ & Htp & _).
    rewrite Eta, <- E1, <- E2. assert (Htne : tbn <> ta).
    { intros Heq. destruct Htp as [Htp _]. destruct (rf_target_blocks _ _ _ _ _ Hrel) as (a & Ea & Hint & _). rewrite Heq in Ea.
      rewrite Ea in Htp. cbn in Htp. by destruct a as [| | | |o [] n| | | | |]. }
    assert (Hgroup : exists rest right_rest, group = bn :: rest /\ group = tbn :: right_rest).
    { rewrite Eleft in E1. rewrite Eright in E2. unfold group_keys_for_relation in E1, E2. rewrite filter_cons in E1, E2.
      rewrite decide_True in E1 by congruence. rewrite decide_True in E2 by congruence. eauto. }
    destruct Hgroup as (rest' & right_rest' & Eg1 & Eg2). exists group, group, rest', right_rest'. split; [done|]. split; [done|]. split; [done|].
    split; [done|]. split; [|done]. intros c Hc. rewrite E1 in Hc. by apply list_elem_of_filter in Hc as [_ ?]. }
  unfold pushdown_keys. destruct (rel_kind r.1) eqn:Ek.
  - destruct (rf_join _ _ _ _ _ Hrel Ek) as [Hkeys Hfit]. exists (rel_left_key r.1), (rel_right_key r.1), rest, right_rest.
    split; [by rewrite Eleft, Eright|]. split; [done|]. split; [done|]. split; [apply Hrel|]. by split.
  - destruct (Hwalk ltac:(done)) as (names & right_names & rest' & right_rest' & [= -> ->] & -> & -> & Hrest).
    do 4 eexists. split; [cbn; done|]. split; [done|]. split; [done|]. done.
  - destruct (Hwalk ltac:(done)) as (names & right_names & rest' & right_rest' & [= -> ->] & -> & -> & Hrest).
    do 4 eexists. split; [cbn; done|]. split; [done|]. split; [done|]. done.
Qed.

(** Rows of one key are of one block. *)
Lemma key_fixes_block names right_names rest right_rest ps row row' : names = bn :: rest -> right_names = tbn :: right_rest ->
  (row < num_rows content)%nat -> (row' < num_rows target)%nat ->
  key_of content names row = Some ps -> key_of target right_names row' = Some ps ->
  row_block content bn row = row_block target tbn row'.
Proof.
  intros -> -> Hrow Hrow' E E'. rewrite key_of_cons in E, E'.
  destruct (tf_blocks _ _ _ Hfits) as (a & Ea & Ht & _). destruct (rf_target_blocks _ _ _ _ _ Hrel) as (a' & Ea' & Ht' & _).
  pose proof (rf_alike _ _ _ _ _ Hrel) as Halike. rewrite Ea, Ea' in Halike. injection Halike as Halike.
  rewrite Ea in E. rewrite Ea' in E'. cbn [mbind option_bind] in E, E'.
  destruct (part_at a row) as [p|] eqn:Ep; [|done]. destruct (part_at a' row') as [p'|] eqn:Ep'; [|done]. cbn in E, E'.
  destruct (key_of content rest row); [|done]. destruct (key_of target right_rest row'); [|done]. injection E as <-. injection E' as -> _.
  assert (Hok : batch_ok content) by (eapply (reader_tables (tables:=tables)); exact Htable).
  destruct (rf_schema _ _ _ _ _ Hrel) as (_ & Hok' & _).
  destruct (column_ok _ _ _ Hok Ea) as [Ha Hl]. destruct (column_ok _ _ _ Hok' Ea') as [Ha' Hl'].
  assert (Hcell : cell_at a row = cell_at a' row').
  { assert (Hplain : Keys.plain (array_type a) = true) by (unfold Keys.plain; by rewrite Ht).
    apply (plain_part_eq a a' row row' Ha ltac:(lia) Ha' ltac:(lia) Halike Hplain ltac:(rewrite Ep'; by eexists)). congruence. }
  unfold row_block. rewrite Ea, Ea'. cbn [mbind option_bind]. by rewrite Hcell, Halike.
Qed.

(** The batches it follows. *)
Context (cols : list string) (bs : list RecordBatch) (ls : list (list nat)).
Context (Hpieces : pieces content cols ls bs) (Hsorted : StronglySorted lt (concat ls)) (Hbn : bn ∈ cols).
Context (Hkeys : forall c, c ∈ rel_left_key r.1 -> c ∈ cols).
Context (Haddress : rel_kind r.1 <> Join -> forall a, td_address_column (pt_desc table) = Some a -> a ∈ cols).

(** What it relates to them. *)
Definition related_in : nat -> Prop := relates_to table content (fun row => row ∈ concat ls) r.1 (rp_desc r.2) target.

(** The filters of a relation that follows something. *)
Definition filters_ok (input : RelationInput) : Prop :=
  exists names right_names kf, pushdown_keys r.1 (rp_desc r.2) = Some (names, right_names) /\
    ri_key_filter input = Some kf /\ kf_columns kf = right_names /\ kf_block_number_column kf = tbn /\ checks_blocks_first kf = false /\
    (forall min max, has_block_within kf min max = true <-> exists x, has_block content ls bn names x /\ min <= x <= max) /\
    if decide (rel_kind r.1 = Join) then
      ri_hierarchical_filter input = None /\ mask_picks target right_names related_in (kf_mask kf)
    else exists hf, ri_hierarchical_filter input = Some hf /\ hf_group_key_columns hf = right_names /\
      td_address_column (rp_desc r.2) = Some (hf_address_column hf) /\ path_column target (hf_address_column hf) /\
      mask_picks target (right_names ++ [hf_address_column hf]) related_in (hf_mask hf).

Lemma follows_no_rows : forallb (fun batch => num_rows batch =? 0)%nat bs = true -> concat ls = [].
Proof.
  intros H. rewrite forallb_forall in H. destruct (concat ls) as [|row l] eqn:E; [done|]. exfalso.
  destruct (row_piece content cols ls bs Hpieces row ltac:(rewrite E; by left)) as (rows & b & k & Hb & Hk & _).
  specialize (H b (proj1 (list_elem_of_In _ _) Hb)). apply Nat.eqb_eq in H. lia.
Qed.

Lemma related_none_of_none row : concat ls = [] -> ~ related_in row.
Proof.
  intros E. unfold related_in, relates_to. rewrite E. destruct (HierarchicalSpec_of _ _ _).
  - intros (? & ? & ? & ? & _ & _ & Hin & _). by apply not_elem_of_nil in Hin.
  - intros (_ & ? & ? & _ & Hin & _). by apply not_elem_of_nil in Hin.
Qed.

Lemma walk_spec : rel_kind r.1 <> Join -> exists target_address source_address group right_names mode inclusive,
  HierarchicalSpec_of r.1 (rp_desc r.2) (tp_table (pt_plan table), pt_desc table) =
    Some {| hs_group_keys := group; hs_source_address := source_address; hs_target_address := target_address; hs_mode := mode; hs_inclusive := inclusive |} /\
  pushdown_keys r.1 (rp_desc r.2) = Some (group, right_names) /\ group = right_names /\ group <> [] /\
  td_address_column (rp_desc r.2) = Some target_address /\ td_address_column (pt_desc table) = Some source_address /\
  keys_fit content target group group /\ path_column content source_address /\ path_column target target_address /\
  Z.of_nat (facts_size (facts_of [content] group source_address)) < 2 ^ 32.
Proof. clear -Hrel.
  intros Hk. destruct (rf_walk _ _ _ _ _ Hrel Hk) as (ta & sa & group & Eta & Esa & Hne & E1 & E2 & Hkf & Hfit & Hsp & Htp & Hsize).
  destruct pushdown_fits as (names & right_names & rest & right_rest & Epush & Enames & _).
  assert (Eg : group = names /\ group = right_names).
  { unfold pushdown_keys in Epush. rewrite Eta, <- E1, <- E2 in Epush.
    destruct (rel_kind r.1); [done|..]; destruct (negb (bool_decide (group = []))); cbn in Epush; try done; by injection Epush. }
  destruct Eg as [-> <-]. unfold HierarchicalSpec_of. cbn [fst snd]. rewrite Eta, Esa.
  exists ta, sa, names, names. destruct (rel_kind r.1) eqn:Ekind; [done|..]; cbn [mbind option_bind default from_option id]; rewrite <- E1;
    eexists _, _; (split; [done|]); (split; [done|]); (split; [done|]); (split; [by rewrite Enames|]); done.
Qed.

Lemma join_spec : rel_kind r.1 = Join -> HierarchicalSpec_of r.1 (rp_desc r.2) (tp_table (pt_plan table), pt_desc table) = None.
Proof. clear -Hrel. intros E. unfold HierarchicalSpec_of. by rewrite E. Qed.

(** The key set of a relation, and its filter. *)
Lemma key_filter_of names right_names : pushdown_keys r.1 (rp_desc r.2) = Some (names, right_names) ->
  exists ks kf, KeySet_build bs names bn = Ok ks /\ ks_filter ks right_names tbn = Ok kf /\
    kf_is_empty kf = ks_matches_nothing ks /\ kf_columns kf = right_names /\ kf_block_number_column kf = tbn /\
    checks_blocks_first kf = false /\
    (ks_matches_nothing ks = true -> forall x, x ∈ concat ls -> key_of content names x = None) /\
    mask_picks target right_names (joined content names (fun x => x ∈ concat ls) target right_names) (kf_mask kf) /\
    (forall min max, has_block_within kf min max = true <-> exists x, has_block content ls bn names x /\ min <= x <= max).
Proof.
  intros Epush. destruct pushdown_fits as (names' & right_names' & rest & right_rest & Epush' & _ & _ & Hlen & Hsub & Hkf & Hfit).
  rewrite Epush in Epush'. injection Epush' as <- <-. destruct Hkf as [(shapes & Hread & Hks & Hkt) Hfs Hft].
  destruct (key_set_follows content cols ls bs Hpieces Hsorted bn Hbn (tf_blocks _ _ _ Hfits) names shapes
    (fun c Hc => Hkeys c (Hsub c Hc)) Hks Hfs Hread target Hfit) as (ks & Eks & Hnothing & Hfilter).
  destruct (Hfilter right_names tbn Hlen Hkt Hft) as (kf & Ekf & Hempty & Hcols & Hb & Hfirst & Hmask & Hwithin).
  exists ks, kf. by rewrite Hnothing.
Qed.

(** The address index of a walk, and its filter. *)
Lemma address_filter_of spec : address_spec table r.1 (rp_desc r.2) = Some spec ->
  exists index, AddressIndex_build bs (hs_group_keys spec) (hs_source_address spec) = Ok index /\
    let hf := ai_filter index (hs_target_address spec) (hs_mode spec) (hs_inclusive spec) in
    hf_is_empty hf = matches_nothing index /\
    (matches_nothing index = true -> forall row, ~ related_in row) /\
    pushdown_keys r.1 (rp_desc r.2) = Some (hs_group_keys spec, hf_group_key_columns hf) /\
    td_address_column (rp_desc r.2) = Some (hf_address_column hf) /\ path_column target (hf_address_column hf) /\
    mask_picks target (hf_group_key_columns hf ++ [hf_address_column hf]) related_in (hf_mask hf).
Proof.
  intros Espec. assert (Hk : rel_kind r.1 <> Join).
  { intros E. unfold address_spec in Espec. by rewrite join_spec in Espec. }
  destruct (walk_spec Hk) as (ta & sa & group & right_names & mode & inclusive & Eh & Epush & <- & Hne & Eta & Esa & Hkf & Hsp & Htp & Hsize).
  unfold address_spec in Espec. rewrite Eh in Espec. cbn [mbind option_bind hs_group_keys] in Espec. rewrite decide_False in Espec by done.
  injection Espec as <-. cbn [hs_group_keys hs_source_address hs_target_address hs_mode hs_inclusive].
  destruct pushdown_fits as (names & right_names & rest & right_rest & Epush' & _ & _ & _ & Hsub & _).
  rewrite Epush in Epush'. injection Epush' as <- <-. destruct Hkf as [(shapes & Hread & Hks & Hkt) Hfs Hft].
  destruct (address_index_follows content cols ls bs Hpieces Hsorted group shapes (fun c Hc => Hkeys c (Hsub c Hc)) Hks Hfs Hread target
    sa (Haddress Hk sa Esa) Hsp Hsize) as (index & Ei & Hnothing & Hfilter).
  exists index. split; [done|]. destruct (rf_schema _ _ _ _ _ Hrel) as (_ & Hok & _).
  destruct (Hfilter ta mode inclusive Hkt Hft Htp Hok) as (Hempty & Hg & Ha & Hmask). cbn zeta in *. rewrite Hg, Ha in *.
  split; [done|]. split; [|split; [done|split; [done|split; [done|]]]].
  - intros Hn row. unfold related_in, relates_to. rewrite Eh. cbn. intros (ps & path & x & from & _ & _ & Hx & E1 & E2 & _).
    destruct (proj1 Hnothing Hn x Hx); congruence.
  - unfold related_in, relates_to. rewrite Eh. exact Hmask.
Qed.

(** A relation's input. *)
Lemma relation_input_ok sources key_sets address_indexes : 
  built sources (rel_source_items r.1) = Ok bs ->
  (forall names right_names, pushdown_keys r.1 (rp_desc r.2) = Some (names, right_names) ->
     built key_sets (rel_source_items r.1, names) = KeySet_build bs names bn) ->
  (forall spec, address_spec table r.1 (rp_desc r.2) = Some spec ->
     built address_indexes (rel_source_items r.1, hs_group_keys spec, hs_source_address spec) =
       AddressIndex_build bs (hs_group_keys spec) (hs_source_address spec)) ->
  exists input, relation_input table sources key_sets address_indexes r = Ok input /\
    ri_relation input = r.1 /\ ri_target input = r.2 /\
    (follows_nothing input = true -> forall row, ~ related_in row) /\
    (follows_nothing input = false -> filters_ok input).
Proof.
  intros Esrc Eks Eai. destruct pushdown_fits as (names & right_names & rest & right_rest & Epush & _).
  destruct (key_filter_of names right_names Epush) as (ks & kf & Eb & Ekf & Hempty & Hcols & Htbn & Hfirst & Hnone & Hmask & Hwithin).
  replace (relation_input table sources key_sets address_indexes r) with (relation_input table sources key_sets address_indexes (r.1, r.2))
    by (by rewrite <- surjective_pairing). unfold relation_input. rewrite Epush, (Eks _ _ Epush), Eb. cbn [obind].
  assert (Hnorelated : ks_matches_nothing ks = true -> forall row, ~ related_in row).
  { intros Hn row. specialize (Hnone Hn). unfold related_in, relates_to.
    destruct (decide (rel_kind r.1 = Join)) as [Ek|Ek].
    - rewrite (join_spec Ek). intros (_ & ps & x & _ & Hx & E).
      assert (names = rel_left_key r.1) as ->; [|by rewrite Hnone in E].
      unfold pushdown_keys in Epush. rewrite Ek in Epush. destruct (negb _ && negb _); [|done]. by injection Epush.
    - destruct (walk_spec Ek) as (ta & sa & group & rn & mode & inclusive & Eh & Epush' & _).
      rewrite Eh. rewrite Epush in Epush'. injection Epush' as <- <-. cbn.
      intros (ps & path & x & from & _ & _ & Hx & E & _). by rewrite Hnone in E. }
  destruct (address_spec table r.1 (rp_desc r.2)) as [spec|] eqn:Espec.
  - destruct (address_filter_of spec Espec) as (index & Ei & Hhempty & Hhnone & Hgroup & Hta & Htp & Hhmask). cbn zeta in Hhempty.
    rewrite (Eai _ eq_refl), Ei. cbn [obind]. rewrite Ekf. cbn [obind]. rewrite Esrc. cbn [obind]. eexists. split; [done|].
    split; [done|]. split; [done|]. unfold follows_nothing; cbn [ri_keyless ri_source]. rewrite Hempty. cbn [mbind option_bind]. rewrite Hhempty.
    assert (Hk : rel_kind r.1 <> Join).
    { intros E. unfold address_spec, HierarchicalSpec_of in Espec. by rewrite E in Espec. }
    destruct (ks_matches_nothing ks); [by split; [intros _; apply Hnorelated|]|]. destruct (matches_nothing index); [by split; [intros _; apply Hhnone|]|].
    cbn [orb]. split; [intros Hf row; by apply related_none_of_none, follows_no_rows|]. intros _. unfold filters_ok.
    exists names, right_names, kf. split; [done|]. split; [done|]. split; [done|]. split; [done|]. split; [done|]. split; [done|].
    rewrite decide_False by done. eexists. split; [done|]. rewrite Epush in Hgroup. injection Hgroup as _ ->. done.
  - cbn [obind]. rewrite Ekf. cbn [obind]. rewrite Esrc. cbn [obind]. eexists. split; [done|].
    split; [done|]. split; [done|]. unfold follows_nothing; cbn [ri_keyless ri_source]. rewrite Hempty.
    assert (Hk : rel_kind r.1 = Join).
    { destruct (decide (rel_kind r.1 = Join)) as [|Ek]; [done|]. exfalso.
      destruct (walk_spec Ek) as (ta & sa & group & rn & mode & inclusive & Eh & _ & _ & Hne & _). unfold address_spec in Espec. rewrite Eh in Espec.
      cbn [mbind option_bind hs_group_keys] in Espec. by rewrite decide_False in Espec. }
    destruct (ks_matches_nothing ks); [by split; [intros _; apply Hnorelated|]|]. cbn [orb].
    split; [intros Hf row; by apply related_none_of_none, follows_no_rows|]. intros _. unfold filters_ok.
    exists names, right_names, kf. split; [done|]. split; [done|]. split; [done|]. split; [done|]. split; [done|]. split; [done|].
    rewrite decide_True by done. split; [done|].
    unfold related_in, relates_to. rewrite (join_spec Hk).
    unfold pushdown_keys in Epush. rewrite Hk in Epush. destruct (negb _ && negb _); [|done]. injection Epush as <- <-.
    intros rows batch candidates Hd Hh. destruct (Hmask rows batch candidates Hd Hh) as (kept & E & Hl & Hm). exists kept. split; [done|]. split; [done|].
    intros k row Hrow. rewrite Hm by done. tauto.
Qed.

(** A related row shares its block with a row it is related to. *)
Lemma related_block row : (row < num_rows target)%nat -> related_in row ->
  exists names right_names x, pushdown_keys r.1 (rp_desc r.2) = Some (names, right_names) /\ x ∈ concat ls /\ is_Some (key_of content names x) /\
    row_block content bn x = row_block target tbn row.
Proof.
  intros Hrow Hrelated. destruct pushdown_fits as (names & right_names & rest & right_rest & Epush & En & Er & _).
  assert (Hx : forall x, x ∈ concat ls -> (x < num_rows content)%nat).
  { intros x Hx. destruct (row_piece content cols ls bs Hpieces x Hx) as (rows & b & k & _ & _ & (_ & _ & Hlt & _) & _ & Hk).
    exact (Forall_lookup_1 _ _ _ _ Hlt Hk). }
  exists names, right_names. unfold related_in, relates_to in Hrelated. destruct (decide (rel_kind r.1 = Join)) as [Ek|Ek].
  - rewrite (join_spec Ek) in Hrelated. destruct Hrelated as (_ & ps & x & E' & Hin & E). pose proof Epush as Ep. unfold pushdown_keys in Ep. rewrite Ek in Ep.
    destruct (negb _ && negb _) in Ep; [|done]. injection Ep as Enl Enr. rewrite Enl in E. rewrite Enr in E'. exists x. split; [done|]. split; [done|]. split; [by eexists|].
    eapply key_fixes_block; [exact En|exact Er|auto..|done|done].
  - destruct (walk_spec Ek) as (ta & sa & group & rn & mode & inclusive & Eh & Epush' & <- & _). rewrite Eh in Hrelated.
    rewrite Epush in Epush'. injection Epush' as -> ->. destruct Hrelated as (ps & path & x & from & E' & _ & Hin & E & _). cbn in E, E'.
    exists x. split; [done|]. split; [done|]. split; [by eexists|]. eapply key_fixes_block; [exact En|exact Er|auto..|done|done].
Qed.

Context (Htarget : tables (rel_target_table r.1) = Some (tschema, target)).
Context (lo hi : Z) (Hrange : forall x b, x ∈ concat ls -> row_block content bn x = Some b -> lo <= b <= hi).
Context (Hwindow : forall x, x ∈ concat ls -> block_in content bn w x).
Context (Htreads : tbn ∈ read_columns (rel_target_table r.1) (rp_row_columns r.2)) (Htscan : tbn ∈ rp_row_columns r.2).

Lemma key_columns_known names shapes : keyed [target] names shapes -> Forall (fun c => is_Some (schema_index tschema c)) names.
Proof.
  intros Hk. apply Forall_inv in Hk as (_ & _ & Hs). apply mapM_Some in Hs. apply Forall_forall. intros c Hc.
  apply list_elem_of_lookup in Hc as [i Hi]. destruct (Forall2_lookup_l _ _ _ _ _ Hs Hi) as (s & _ & E).
  apply (schema_of_is_Some tschema target c); [apply Hrel|]. destruct (column_by_name target c); [by eexists|done].
Qed.

Lemma relation_request_fits input : ri_relation input = r.1 -> ri_target input = r.2 -> filters_ok input ->
  request_fits tschema target (relation_request input w (Some lo, Some hi)) related_in.
Proof.
  intros E1 E2 (names & right_names & kf & Epush & Ekf & Hcols & Htbn & Hfirst & Hwithin & Hkind).
  destruct pushdown_fits as (names' & right_names' & rest & right_rest & Epush' & _ & _ & _ & _ & Hkfit & _).
  rewrite Epush in Epush'. injection Epush' as <- <-. destruct Hkfit as [(shapes & _ & _ & Hkt) _ _].
  pose proof (key_columns_known right_names shapes Hkt) as Hknown.
  assert (Htb : is_Some (schema_index tschema tbn)).
  { destruct (rf_target_blocks _ _ _ _ _ Hrel) as (a & Ea & _). apply (schema_of_is_Some tschema target); [apply Hrel|]. by rewrite Ea. }
  split; cbn [predicates output_columns block_number_column key_filter hierarchical_filter item_tags relation_request from_block to_block fst snd].
  - constructor.
  - done.
  - unfold demanded; cbn [predicates relation_request key_filter hierarchical_filter Rows.required_columns]. rewrite E2, Ekf, Hcols, Htbn.
    apply Forall_app. split; [apply Hrel|]. cbn [fmap list_fmap concat app]. constructor; [done|]. apply Forall_app. split; [done|].
    case_decide; [destruct Hkind as [-> _]; constructor|]. destruct Hkind as (hf & -> & -> & _ & [Hta _] & _). apply Forall_app. split; [done|].
    constructor; [|constructor]. apply (schema_of_is_Some tschema target); [apply Hrel|]. destruct (column_by_name target _); [by eexists|done].
  - rewrite E2. intros b [= <-]. apply (rf_target_blocks _ _ _ _ _ Hrel).
  - unfold RowFilters_of; cbn [rf_relation key_filter hierarchical_filter relation_request]. rewrite Ekf. case_decide.
    + destruct Hkind as [-> Hm]. cbn [relation_picks]. by rewrite Hcols.
    + destruct Hkind as (hf & -> & Eg & _ & _ & Hm). cbn [relation_picks]. by rewrite Eg.
  - done.
  - intros keys Ekeys row Hrow Hrelated. cbn in Ekeys. rewrite Ekf in Ekeys. injection Ekeys as <-. rewrite Htbn.
    destruct (related_block row Hrow Hrelated) as (names' & right_names' & x & Epush' & Hx & Hkey & Eb).
    rewrite Epush in Epush'. injection Epush' as <- <-.
    destruct (block_column_row target tbn row (rf_target_blocks _ _ _ _ _ Hrel) Hrow) as [b Hb]. rewrite Hb in Eb. split.
    + exists b. split; [done|]. intros min max Hm. apply Hwithin. exists b. split; [|done]. by exists x.
    + intros _ _ bn' b' [= <-] Eb'. cbn [ri_target] in Eb'. rewrite E2, Hb in Eb'. injection Eb' as <-. specialize (Hrange x b Hx Eb). unfold in_bounds; cbn. lia.
  - constructor.
  - apply lists_ok_nil.
  - rewrite E2. intros E. destruct (proj2 (field_with_name_index tschema tbn) Htb) as [f Hf].
    assert (Hin : f ∈ build_output_schema tschema (rp_row_columns r.2)) by (apply list_elem_of_omap; by exists tbn).
    rewrite E in Hin. by apply not_elem_of_nil in Hin.
Qed.

(** The scan returns exactly the rows the relation relates. *)
Lemma scan_relation_ok input : ri_relation input = r.1 -> ri_target input = r.2 -> filters_ok input ->
  exists rows l, scan_relation input (scan_reader ex) w (Some lo, Some hi) = Ok rows /\
    picked related_in (num_rows target) l /\
    drawn_rows target (read_columns (rel_target_table r.1) (rp_row_columns r.2)) (tracked (rel_target_table r.1)) l rows.
Proof.
  intros E1 E2 Hfilters. pose proof (relation_request_fits input E1 E2 Hfilters) as Hf.
  assert (Hblock : forall row b, (row < num_rows target)%nat -> related_in row -> row_block target tbn row = Some b ->
    lo <= b <= hi /\ in_bounds (w_from w) (w_to w) b = true).
  { intros row b Hrow Hrelated Eb. destruct (related_block row Hrow Hrelated) as (names & rn & x & _ & Hx & _ & Ex). rewrite Eb in Ex.
    split; [by apply (Hrange x)|]. destruct (Hwindow x Hx) as (b' & Eb' & Hb'). rewrite Ex in Eb'. by injection Eb' as <-. }
  destruct (scan_reader_scans (rel_target_table r.1) tschema target (relation_request input w (Some lo, Some hi)) related_in) as (s & Es & l & Hl & Hret); try done.
  - intros b [= <-]. rewrite E2. destruct (chunk_request_reads (rel_target_table r.1) (relation_request input w (Some lo, Some hi)) eq_refl) as [-> _].
    cbn [output_columns relation_request]. by rewrite E2.
  - intros w' b row z [= <-] [= <-] Hrow (_ & Hrelated & _) Ez. rewrite E2 in Ez. by apply (Hblock row z).
  - apply returns_drawn in Hret; [|done]. cbn [output_columns relation_request] in Hret. rewrite E2 in Hret.
    exists (sc_rows s), l. split; [|split; [|done]].
    + unfold scan_relation. rewrite E1, Es. cbn [obind]. destruct Hfilters as (names & rn & kf & _ & -> & _ & _ & _ & _ & Hkind).
      destruct (rel_kind r.1) eqn:Ek; [done|..]; rewrite decide_False in Hkind by done; destruct Hkind as (hf & -> & _); done.
    + destruct Hl as [Hsort Hin]. split; [done|]. intros row. rewrite Hin. split; intros [Hrow H]; (split; [done|]).
      * rewrite chunk_request_selects in H. by destruct H as (_ & H & _).
      * rewrite chunk_request_selects. split; [|split; [done|by left]].
        destruct (block_column_row target tbn row (rf_target_blocks _ _ _ _ _ Hrel) Hrow) as [b Eb].
        destruct (Hblock row b Hrow H Eb) as [Hb _]. unfold RowFilters_of; cbn [rf_blocks]. unfold in_blocks.
        cbn [block_number_column relation_request]. rewrite E2. destruct (_ && _ && _); [|done]. exists b. split; [done|].
        cbn [from_block to_block relation_request fst snd mbind option_bind]. unfold in_bounds. destruct (0 <? lo); cbn; lia.
Qed.
End scans.

(** ** A table and its relations *)

Lemma picked_iff (P Q : nat -> Prop) n l : (forall row, (row < n)%nat -> P row <-> Q row) -> picked P n l -> picked Q n l.
Proof. intros H [Hs Hin]. split; [done|]. intros row. rewrite Hin. split; intros [Hr HP]; (split; [done|]); by apply H. Qed.

Lemma picked_none (P : nat -> Prop) n : (forall row, (row < n)%nat -> ~ P row) -> picked P n [].
Proof. intros H. split; [constructor|]. intros row. rewrite elem_of_nil. split; [done|]. intros [Hr HP]. by apply (H row). Qed.

(** Each item's outcome, and the map of those kept. *)
Lemma mapM_ok_Forall2_intro {A B} (f : A -> result B) (P : A -> B -> Prop) l : (forall a, a ∈ l -> exists b, f a = Ok b /\ P a b) ->
  exists bs, mapM_ok f l = Ok bs /\ Forall2 P l bs.
Proof.
  induction l as [|a l IH]; intros H; [by exists []|]. destruct (H a ltac:(by left)) as (b & Eb & Hb).
  destruct IH as (bs & Ebs & Hbs); [intros; apply H; by right|]. exists (b :: bs). cbn [mapM_ok]. rewrite Eb, Ebs. split; [done|]. by constructor.
Qed.

Section table.
Context {K : ArrowKernels} {L : ArrowLaws K} {R : RowFormat} {X : Xxh3} {XL : Xxh3Laws X} {HK : HexKernel}.
Context (ex : Execution) (tables : chunk_tables) `{Hreader : !ReaderLaws (ex_chunk ex) tables}.
Context (Hinner : forall s, ex_selection ex = Some s -> sr_inner s = ex_chunk ex /\
  (sr_track_positions s = true -> cr_supports_row_positions (ex_chunk ex) = true)).

(** What is read of a table holds what its relations follow. *)
Record table_reads (table : PlannedTable) : Prop := {
  tr_scanned : td_block_number_column (pt_desc table) ∈ pt_scan_columns table;
  tr_blocks : td_block_number_column (pt_desc table) ∈ read_columns ex (tp_table (pt_plan table)) (pt_scan_columns table);
  tr_keys : forall r c, r ∈ pt_relations table -> c ∈ rel_left_key r.1 -> c ∈ read_columns ex (tp_table (pt_plan table)) (pt_scan_columns table);
  tr_addresses : forall r a, r ∈ pt_relations table -> rel_kind r.1 <> Join -> td_address_column (pt_desc table) = Some a ->
    a ∈ read_columns ex (tp_table (pt_plan table)) (pt_scan_columns table);
  tr_target_scanned : forall r, r ∈ pt_relations table -> td_block_number_column (rp_desc r.2) ∈ rp_row_columns r.2;
  tr_target_blocks : forall r, r ∈ pt_relations table ->
    td_block_number_column (rp_desc r.2) ∈ read_columns ex (rel_target_table r.1) (rp_row_columns r.2);
  tr_targets : length (pt_targets table) = length (tp_relations (pt_plan table));
}.

(** A table plan over a chunk: its table, and its relations' targets. *)
Record plan_fits (table : PlannedTable) (schema : Schema) (content : RecordBatch) : Prop := {
  pf_table : tables (tp_table (pt_plan table)) = Some (schema, content);
  pf_fits : table_fits schema content table;
  pf_relations : forall r, r ∈ pt_relations table -> exists tschema target,
    tables (rel_target_table r.1) = Some (tschema, target) /\ relation_fits table content r tschema target;
  pf_reads : table_reads table;
}.

Context (table : PlannedTable) (schema : Schema) (content : RecordBatch) (Hplan : plan_fits table schema content) (w : Window).

Abbreviation name := (tp_table (pt_plan table)).
Abbreviation bn := (td_block_number_column (pt_desc table)).
Abbreviation cols := (read_columns ex name (pt_scan_columns table)).

Lemma relation_of r : r ∈ pt_relations table -> r.1 ∈ tp_relations (pt_plan table).
Proof. destruct r as [relation proj]. intros Hin. unfold pt_relations in Hin. by apply elem_of_zip_l in Hin. Qed.

(** The table's own rows, and the batches each relation follows. *)
Record scanned_ok (s : Scanned) (l : list nat) : Prop := {
  so_picked : picked (fun row => primary_row content (pt_plan table) row /\ block_in content bn w row) (num_rows content) l;
  so_drawn : drawn_rows content cols (tracked ex name) l (sc_rows s);
  so_pieces : exists ls : list (list nat), concat ls = l /\ pieces content cols ls (rw_batches (sc_rows s));
  so_sources : forall r, r ∈ pt_relations table -> exists bs (ls : list (list nat)), source_batches s (rel_source_items r.1) = Ok bs /\
    pieces content cols ls bs /\ StronglySorted lt (concat ls) /\
    forall row, row ∈ concat ls <-> followed_row content (pt_plan table) r.1 row /\ block_in content bn w row;
}.

Lemma table_scanned_ok : exists s l, cr_scan_rows (scan_reader ex) name (table_request table w) = Ok s /\ scanned_ok s l.
Proof.
  destruct Hplan as [Htable Hfits Hrelations Hreads].
  destruct (chunk_request_reads ex name (table_request table w) eq_refl) as [Ecols _]. cbn [output_columns table_request] in Ecols.
  assert (Hbn : bn ∈ output_columns (chunk_request ex name (table_request table w))) by (rewrite Ecols; apply Hreads).
  destruct (table_scanned ex tables Hinner table schema content Htable Hfits w Hbn (tr_scanned _ Hreads)) as (s & l & ls & Es & Hl & Hret & Hc & Hp).
  exists s, l. split; [done|]. split; [done| | |].
  - by apply (returns_drawn ex name (table_request table w)).
  - exists ls. by rewrite <- Ecols.
  - intros r Hr. rewrite <- Ecols. by apply (source_batches_ok ex table content w s l ls); [..|apply relation_of].
Qed.

(** Relating to the rows a window holds is being related, in the window. *)
Lemma related_in_window r tschema target (ls : list (list nat)) bs : r ∈ pt_relations table -> relation_fits table content r tschema target ->
  pieces content cols ls bs ->
  (forall row, row ∈ concat ls <-> followed_row content (pt_plan table) r.1 row /\ block_in content bn w row) ->
  forall row, (row < num_rows target)%nat ->
  related_in table content r target ls row <->
    related_row table content r target row /\ block_in target (td_block_number_column (rp_desc r.2)) w row.
Proof.
  intros Hr Hrel Hp Hls row Hrow. destruct Hplan as [Htable Hfits Hrelations Hreads].
  assert (Hlocal : forall x ps names rn rest rrest, names = bn :: rest -> rn = td_block_number_column (rp_desc r.2) :: rrest ->
    followed_row content (pt_plan table) r.1 x -> key_of content names x = Some ps -> key_of target rn row = Some ps ->
    block_in target (td_block_number_column (rp_desc r.2)) w row <-> block_in content bn w x).
  { intros x ps names rn rest rrest En Er ((Hx & _) & _) E E'. unfold block_in.
    by rewrite (key_fixes_block ex tables table schema content Htable Hfits r tschema target Hrel names rn rest rrest ps x row En Er Hx Hrow E E'). }
  destruct (pushdown_fits table content r tschema target Hrel) as (names & rn & rest & rrest & Epush & En & Er & _).
  unfold related_in, related_row, relates_to. destruct (decide (rel_kind r.1 = Join)) as [Ek|Ek].
  - rewrite (join_spec table r Ek). unfold pushdown_keys in Epush. rewrite Ek in Epush. destruct (negb _ && negb _); [|done]. injection Epush as El Err.
    unfold joined. split.
    + intros (_ & ps & x & E' & [Hf Hb]%Hls & E). split; [split; [done|]; by exists ps, x|].
      rewrite El in E. rewrite Err in E'. by apply (Hlocal x ps names rn rest rrest En Er Hf E E').
    + intros [(_ & ps & x & E' & Hf & E) Hb]. split; [done|]. exists ps, x. split; [done|]. split; [|done]. apply Hls. split; [done|].
      rewrite El in E. rewrite Err in E'. by apply (Hlocal x ps names rn rest rrest En Er Hf E E').
  - destruct (walk_spec table content r tschema target Hrel Ek) as (ta & sa & group & rn' & mode & inclusive & Eh & Epush' & <- & _).
    rewrite Epush in Epush'. injection Epush' as -> ->. rewrite Eh. cbn. unfold walked. split.
    + intros (ps & path & x & from & E' & Epath & [Hf Hb]%Hls & E & Efrom & Hrelated). split; [by exists ps, path, x, from|].
      by apply (Hlocal x ps group group rest rrest En Er Hf E E').
    + intros [(ps & path & x & from & E' & Epath & Hf & E & Efrom & Hrelated) Hb]. exists ps, path, x, from. split; [done|]. split; [done|].
      split; [|done]. apply Hls. split; [done|]. by apply (Hlocal x ps group group rest rrest En Er Hf E E').
Qed.

(** A relation's rows, of those read. *)
Definition relation_output (r : RelationPlan * ResolvedProjection) (rows : option Rows) : Prop :=
  exists tschema target l, tables (rel_target_table r.1) = Some (tschema, target) /\
    picked (fun row => related_row table content r target row /\ block_in target (td_block_number_column (rp_desc r.2)) w row) (num_rows target) l /\
    match rows with
    | Some rows => drawn_rows target (read_columns ex (rel_target_table r.1) (rp_row_columns r.2)) (tracked ex (rel_target_table r.1)) l rows
    | None => l = []
    end.

Lemma unread_relation s l r : scanned_ok s l -> r ∈ pt_relations table ->
  (forall bs (ls : list (list nat)) tschema target, source_batches s (rel_source_items r.1) = Ok bs -> pieces content cols ls bs ->
     (forall row, row ∈ concat ls <-> followed_row content (pt_plan table) r.1 row /\ block_in content bn w row) ->
     relation_fits table content r tschema target -> tables (rel_target_table r.1) = Some (tschema, target) ->
     forall row, ~ related_in table content r target ls row) ->
  relation_output r None.
Proof.
  intros Hs Hr Hno. destruct (pf_relations _ _ _ Hplan r Hr) as (tschema & target & Et & Hrel).
  destruct (so_sources _ _ Hs r Hr) as (bs & ls & Esrc & Hp & Hsort & Hls). exists tschema, target, []. split; [done|]. split; [|done].
  apply picked_none. intros row Hrow Hrow'. apply (related_in_window r tschema target ls bs Hr Hrel Hp Hls row Hrow) in Hrow'.
  by apply (Hno bs ls tschema target) in Hrow'.
Qed.

Lemma no_rows_no_relations s l : scanned_ok s l ->
  existsb (fun b => negb (num_rows b =? 0)%nat) (rw_batches (sc_rows s)) = false -> forall r, r ∈ pt_relations table -> relation_output r None.
Proof.
  intros Hs Hnone r Hr. apply (unread_relation s l r Hs Hr). intros bs ls tschema target _ Hp Hls _ _ row Hrow.
  apply (related_none_of_none table content r target ls row); [|done]. destruct (concat ls) as [|x rest] eqn:E; [done|]. exfalso.
  assert (Hx : x ∈ l).
  { apply (so_picked _ _ Hs). destruct (proj1 (Hls x) ltac:(by left)) as [[Hf _] Hb]. split; [by destruct Hf|]. by split. }
  destruct (so_pieces _ _ Hs) as (ls0 & Hc & Hp0). rewrite <- Hc in Hx.
  destruct (row_piece content cols ls0 _ Hp0 x Hx) as (rows & b & k & Hb & Hk & _).
  assert (Hex : existsb (fun b => negb (num_rows b =? 0)%nat) (rw_batches (sc_rows s)) = true); [|congruence].
  apply existsb_exists. exists b. split; [by apply list_elem_of_In|]. apply negb_true_iff, Nat.eqb_neq. lia.
Qed.

(** The range of the blocks read. *)
Lemma primary_range s l : scanned_ok s l -> existsb (fun b => negb (num_rows b =? 0)%nat) (rw_batches (sc_rows s)) = true ->
  exists lo hi, compute_block_range (rw_batches (sc_rows s)) bn = Ok (Some lo, Some hi) /\
    forall x b, x ∈ l -> row_block content bn x = Some b -> lo <= b <= hi.
Proof.
  intros Hs Hex. destruct (so_pieces _ _ Hs) as (ls & Hc & Hp). destruct Hplan as [_ Hfits _ Hreads].
  destruct (pieces_visits content bn cols ls _ (tf_blocks _ _ _ Hfits) (tr_blocks _ Hreads) Hp) as (visits & Ev & Eb).
  unfold compute_block_range. rewrite Ev. cbn [obind].
  pose proof (compute_block_range_spec (rw_batches (sc_rows s)) bn) as Hspec. unfold compute_block_range in Hspec. rewrite Ev in Hspec. cbn [obind] in Hspec.
  destruct (fold_left _ visits (None, None)) as [lo hi]. destruct (Hspec lo hi eq_refl) as (visits' & [= <-] & Hr). rewrite Hc in Eb.
  apply existsb_exists in Hex as (b & Hb%list_elem_of_In & Hn). apply negb_true_iff, Nat.eqb_neq in Hn.
  destruct (pieces_row content cols ls _ Hp b 0 Hb ltac:(lia)) as (rows & row & _ & _ & _ & Hrow). rewrite Hc in Hrow.
  destruct lo as [lo|], hi as [hi|]; try done.
  - exists lo, hi. split; [done|]. destruct Hr as (_ & _ & Hall). rewrite Eb in Hall. intros x z Hx Ez. unfold blocks_of in Hall.
    rewrite Forall_fmap, Forall_forall in Hall. specialize (Hall x Hx). unfold compose in Hall. by rewrite Ez in Hall.
  - exfalso. subst visits. unfold blocks_of in Eb. destruct l; [by apply not_elem_of_nil in Hrow|done].
Qed.

(** Every relation's input is built, of the batches it follows. *)
Lemma relation_inputs_ok s l : scanned_ok s l -> 
  exists sources inputs, build_once (rel_source_items <$> tp_relations (pt_plan table)) (source_batches s) = Ok sources /\
    relation_inputs table sources = Ok inputs /\
    Forall2 (fun r input => exists bs (ls : list (list nat)) tschema target,
      source_batches s (rel_source_items r.1) = Ok bs /\ pieces content cols ls bs /\ StronglySorted lt (concat ls) /\
      (forall row, row ∈ concat ls <-> followed_row content (pt_plan table) r.1 row /\ block_in content bn w row) /\
      tables (rel_target_table r.1) = Some (tschema, target) /\ relation_fits table content r tschema target /\
      ri_relation input = r.1 /\ ri_target input = r.2 /\
      (follows_nothing input = true -> forall row, ~ related_in table content r target ls row) /\
      (follows_nothing input = false -> filters_ok table content r target ls input)) (pt_relations table) inputs.
Proof.
  intros Hs. destruct Hplan as [Htable Hfits Hrelations Hreads].
  assert (Hall : (pt_relations table).*1 = tp_relations (pt_plan table)).
  { unfold pt_relations. apply fst_zip. by rewrite (tr_targets _ Hreads). }
  destruct (build_once_ok (rel_source_items <$> tp_relations (pt_plan table)) (source_batches s)) as (sources & Esources & Hsources).
  { rewrite <- Hall, <- list_fmap_compose. intros k (r & -> & Hr)%list_elem_of_fmap. destruct (so_sources _ _ Hs r Hr) as (bs & ls & E & _). by exists bs. }
  assert (Hsrc : forall r, r ∈ pt_relations table -> built sources (rel_source_items r.1) = source_batches s (rel_source_items r.1)).
  { intros r Hr. apply Hsources. apply list_elem_of_fmap_2. by apply relation_of. }
  assert (Haddress : forall r, r ∈ pt_relations table -> rel_kind r.1 <> Join -> forall a, td_address_column (pt_desc table) = Some a -> a ∈ cols).
  { intros r Hr Hk a Ha. by apply (tr_addresses _ Hreads r). }
  assert (Hkeys : forall r, r ∈ pt_relations table -> forall c, c ∈ rel_left_key r.1 -> c ∈ cols).
  { intros r Hr c Hc. by apply (tr_keys _ Hreads r). }
  exists sources. unfold relation_inputs. cbv zeta. destruct (build_once_ok
    (omap (fun r : RelationPlan * ResolvedProjection => '(left_keys, _) ← pushdown_keys r.1 (rp_desc r.2); Some (rel_source_items r.1, left_keys)) (pt_relations table))
    (fun key : option (list nat) * list string => let* batches := built sources key.1 in KeySet_build batches key.2 bn)) as (key_sets & Eks & Hks).
  { intros k (r & Hr & Ek)%list_elem_of_omap. destruct (pushdown_keys r.1 (rp_desc r.2)) as [[names rn]|] eqn:Epush; [|done]. injection Ek as <-.
    cbn [fst snd]. rewrite (Hsrc r Hr). destruct (so_sources _ _ Hs r Hr) as (bs & ls & -> & Hp & Hsort & _). cbn [obind].
    destruct (Hrelations r Hr) as (tschema & target & _ & Hrel).
    destruct (key_filter_of table schema content Hfits r tschema target Hrel cols bs ls Hp Hsort (tr_blocks _ Hreads) (Hkeys r Hr) names rn Epush)
      as (ks & _ & E & _). by exists ks. }
  rewrite Eks. cbn [obind]. destruct (build_once_ok
    (omap (fun r : RelationPlan * ResolvedProjection => spec ← address_spec table r.1 (rp_desc r.2);
       Some (rel_source_items r.1, hs_group_keys spec, hs_source_address spec)) (pt_relations table))
    (fun key : option (list nat) * list string * string => let* batches := built sources key.1.1 in AddressIndex_build batches key.1.2 key.2))
    as (address_indexes & Eai & Hai).
  { intros k (r & Hr & Ek)%list_elem_of_omap. destruct (address_spec table r.1 (rp_desc r.2)) as [spec|] eqn:Espec; [|done]. injection Ek as <-.
    cbn [fst snd]. rewrite (Hsrc r Hr). destruct (so_sources _ _ Hs r Hr) as (bs & ls & -> & Hp & Hsort & _). cbn [obind].
    destruct (Hrelations r Hr) as (tschema & target & _ & Hrel).
    destruct (address_filter_of table content r tschema target Hrel cols bs ls Hp Hsort (Hkeys r Hr) (Haddress r Hr) spec Espec) as (index & E & _).
    by exists index. }
  rewrite Eai. cbn [obind].
  destruct (mapM_ok_Forall2_intro (relation_input table sources key_sets address_indexes) (fun r input => exists bs (ls : list (list nat)) tschema target,
      source_batches s (rel_source_items r.1) = Ok bs /\ pieces content cols ls bs /\ StronglySorted lt (concat ls) /\
      (forall row, row ∈ concat ls <-> followed_row content (pt_plan table) r.1 row /\ block_in content bn w row) /\
      tables (rel_target_table r.1) = Some (tschema, target) /\ relation_fits table content r tschema target /\
      ri_relation input = r.1 /\ ri_target input = r.2 /\
      (follows_nothing input = true -> forall row, ~ related_in table content r target ls row) /\
      (follows_nothing input = false -> filters_ok table content r target ls input)) (pt_relations table)) as (inputs & Ei & Hi).
  - intros r Hr. destruct (so_sources _ _ Hs r Hr) as (bs & ls & Ebs & Hp & Hsort & Hls). destruct (Hrelations r Hr) as (tschema & target & Et & Hrel).
    destruct (relation_input_ok table schema content Hfits r tschema target Hrel cols bs ls Hp Hsort (tr_blocks _ Hreads) (Hkeys r Hr)
      (Haddress r Hr) sources key_sets address_indexes) as (input & E & Erel & Etar & Hno & Hyes).
    + by rewrite (Hsrc r Hr).
    + intros names rn Epush. rewrite (Hks (rel_source_items r.1, names)); [cbn [fst snd]; by rewrite (Hsrc r Hr), Ebs|].
      apply list_elem_of_omap. exists r. split; [done|]. by rewrite Epush.
    + intros spec Espec. rewrite (Hai (rel_source_items r.1, hs_group_keys spec, hs_source_address spec)); [cbn [fst snd]; by rewrite (Hsrc r Hr), Ebs|].
      apply list_elem_of_omap. exists r. split; [done|]. by rewrite Espec.
    + exists input. split; [done|]. by exists bs, ls, tschema, target.
  - by exists inputs.
Qed.

(** The rows of each relation. *)
Lemma scan_relations_ok s l lo hi : scanned_ok s l -> (forall x b, x ∈ l -> row_block content bn x = Some b -> lo <= b <= hi) ->
  exists relations, scan_relations (scan_reader ex) table w s (Some lo, Some hi) = Ok relations /\
    forall i r, pt_relations table !! i = Some r -> relation_output r (relations !! i).
Proof.
  intros Hs Hrange. destruct (relation_inputs_ok s l Hs) as (sources & inputs & Esources & Einputs & Hinputs). unfold scan_relations.
  fold (source_batches s). rewrite Esources. cbn [obind]. rewrite Einputs. cbn [obind].
  set (followed := filter (fun e : nat * RelationInput => follows_nothing e.2 = false) (enumerate inputs)).
  destruct (mapM_ok_Forall2_intro (fun e : nat * RelationInput => let* rows := scan_relation e.2 (scan_reader ex) w (Some lo, Some hi) in Ok (e.1, rows))
    (fun e out => out.1 = e.1 /\ forall r, pt_relations table !! e.1 = Some r -> relation_output r (Some out.2)) followed) as (related & Erelated & Hrelated).
  { intros [i input] [Hf Hin]%list_elem_of_filter. cbn in Hf. apply elem_of_enumerate in Hin. cbn [fst snd].
    destruct (Forall2_lookup_r _ _ _ _ _ Hinputs Hin) as (r & Hr & bs & ls & tschema & target & Ebs & Hp & Hsort & Hls & Et & Hrel & Erel & Etar & _ & Hyes).
    pose proof Hr as Hri. apply list_elem_of_lookup_2 in Hr. destruct Hplan as [Htable Hfits Hrelations Hreads].
    destruct (scan_relation_ok ex tables Hinner table schema content Htable Hfits w r tschema target Hrel cols bs ls Hp)
      with (lo := lo) (hi := hi) (input := input) as (rows & lr & Erows & Hlr & Hdrawn); try done.
    - intros Hk a Ha. by apply (tr_addresses _ Hreads r).
    - intros x b Hx Eb. apply (Hrange x b); [|done]. apply (so_picked _ _ Hs). apply Hls in Hx as [[Hx _] Hb]. split; [by destruct Hx|]. by split.
    - intros x Hx. by apply Hls in Hx as [_ ?].
    - by apply (tr_target_blocks _ Hreads).
    - by apply (tr_target_scanned _ Hreads).
    - by apply Hyes.
    - exists (i, rows). rewrite Erows. split; [done|]. split; [done|]. cbn [fst snd]. rewrite Hri. intros r' [= <-]. exists tschema, target, lr.
      split; [done|]. split; [|done]. eapply picked_iff; [|exact Hlr]. intros row Hrow. by apply (related_in_window r tschema target ls bs). }
  rewrite Erelated. cbn [obind]. eexists. split; [done|]. intros i r Hr.
  destruct (Forall2_lookup_l _ _ _ _ _ Hinputs Hr) as (input & Hin & bs & ls & tschema & target & Ebs & Hp & Hsort & Hls & Et & Hrel & _ & _ & Hno & _).
  destruct ((list_to_map related : gmap nat Rows) !! i) as [rows|] eqn:Ei.
  - apply elem_of_list_to_map_2 in Ei. apply list_elem_of_lookup in Ei as [k Hk].
    destruct (Forall2_lookup_r _ _ _ _ _ Hrelated Hk) as ([j input'] & _ & Ej & Hout). cbn in Ej, Hout. subst j. by apply Hout.
  - apply not_elem_of_list_to_map in Ei.
    apply (unread_relation s l r Hs); [by eapply list_elem_of_lookup_2|]. intros bs' ls' tschema' target' Ebs' Hp' Hls' Hrel' Et' row Hrow.
    rewrite Ebs in Ebs'. injection Ebs' as <-. rewrite Et in Et'. injection Et' as <- <-.
    destruct (follows_nothing input) eqn:Ef.
    + apply (Hno eq_refl row). unfold related_in in *. unfold relates_to in *. destruct (HierarchicalSpec_of _ _ _).
      * destruct Hrow as (ps & path & x & from & E1 & E2 & Hx%Hls' & Hrest). exists ps, path, x, from. split; [done|]. split; [done|]. split; [by apply Hls|done].
      * destruct Hrow as (Ek & ps & x & E1 & Hx%Hls' & E2). split; [done|]. exists ps, x. split; [done|]. split; [by apply Hls|done].
    + apply Ei. assert (Hfol : (i, input) ∈ followed) by (apply list_elem_of_filter; split; [done|by apply elem_of_enumerate]).
      apply list_elem_of_lookup in Hfol as [k Hk]. destruct (Forall2_lookup_l _ _ _ _ _ Hrelated Hk) as ([j rows] & Hj & Ej & _). cbn in Ej. subst j.
      apply list_elem_of_fmap. exists (i, rows). split; [done|]. by eapply list_elem_of_lookup_2.
Qed.

(** What one range holds of a table plan. *)
Definition range_output (output : TableOutput) : Prop :=
  (exists l, picked (fun row => primary_row content (pt_plan table) row /\ block_in content bn w row) (num_rows content) l /\
     drawn_rows content cols (tracked ex name) l (to_rows output)) /\
  forall i r, pt_relations table !! i = Some r -> relation_output r (to_relations output !! i).

Lemma scan_table_ok : exists output, scan_table ex table w = Ok (name, output) /\ range_output output.
Proof.
  destruct table_scanned_ok as (s & l & Es & Hs). unfold scan_table. rewrite Es. cbn [obind].
  assert (Hrows : exists l, picked (fun row => primary_row content (pt_plan table) row /\ block_in content bn w row) (num_rows content) l /\
     drawn_rows content cols (tracked ex name) l (sc_rows s)) by (exists l; split; apply Hs).
  destruct (existsb _ _) eqn:Eex; cbn [andb].
  - destruct (primary_range s l Hs Eex) as (lo & hi & Er & Hrange). rewrite Er. cbn [obind]. case_bool_decide as Hrel; cbn [negb].
    + eexists. split; [done|]. split; [done|]. intros i r Hr. unfold pt_relations in Hr. by rewrite Hrel in Hr.
    + destruct (scan_relations_ok s l lo hi Hs Hrange) as (relations & -> & Hall). cbn [obind]. eexists. split; [done|]. by split.
  - destruct (so_pieces _ _ Hs) as (ls & Hc & Hp). destruct Hplan as [_ Hfits _ Hreads].
    destruct (pieces_visits content bn cols ls _ (tf_blocks _ _ _ Hfits) (tr_blocks _ Hreads) Hp) as (visits & Ev & _).
    unfold compute_block_range. rewrite Ev. cbn [obind]. eexists. split; [done|]. split; [done|]. intros i r Hr. cbn [to_relations]. rewrite lookup_empty.
    apply (no_rows_no_relations s l Hs Eex). by eapply list_elem_of_lookup_2.
Qed.
End table.
