(* ===== verification/TablesRange.v ===== *)
(** One block range of a whole query: [scan_tables] reads every table plan, and a
    concrete chunk of transactions and traces to read. *)
From stdpp Require Import base strings list gmap sorting.
From Stdlib Require Import ZArith Lia Sorting.Sorted.
From S2P Require Import Prelude Machine ListLib Errors Arrow ArrowReference Catalog Integers Counting BlockIndex Rows KeyColumns SemiJoin Hierarchical Addresses AddressLookup AddressBuild Keys Projection Weight Render Json Sets Predicate PredicateSpec Pruning RowPredicate ItemLists Scan Returned KeyCells Follow Columnar ColumnarSpec ColumnarScan Plan Reader Sources Prepare Tables TablesSpec.

#[local] Open Scope Z_scope.

Section range.
Context {K : ArrowKernels} {L : ArrowLaws K} {R : RowFormat} {X : Xxh3} {XL : Xxh3Laws X} {HK : HexKernel}.
Context (ex : Execution) (tables : chunk_tables) `{Hreader : !ReaderLaws (ex_chunk ex) tables}.
Context (Hinner : forall s, ex_selection ex = Some s -> sr_inner s = ex_chunk ex /\
  (sr_track_positions s = true -> cr_supports_row_positions (ex_chunk ex) = true)).
Context (Hnames : NoDup ((fun table => tp_table (pt_plan table)) <$> ex_tables ex)).
Context (Hplans : Forall (fun table => exists schema content, plan_fits ex tables table schema content) (ex_tables ex)).

Lemma scan_tables_ok from_block to_block : exists outputs, scan_tables ex from_block to_block = Ok outputs /\
  dom outputs = list_to_set ((fun table => tp_table (pt_plan table)) <$> ex_tables ex) /\
  forall table schema content, table ∈ ex_tables ex -> tables (tp_table (pt_plan table)) = Some (schema, content) ->
    exists output, outputs !! tp_table (pt_plan table) = Some output /\
      range_output ex tables table content {| w_from := Some from_block; w_to := to_block |} output.
Proof.
  set (w := {| w_from := Some from_block; w_to := to_block |}).
  destruct (mapM_ok_Forall2_intro (fun table => scan_table ex table w) (fun table out => out.1 = tp_table (pt_plan table) /\
    forall schema content, tables (tp_table (pt_plan table)) = Some (schema, content) -> range_output ex tables table content w out.2) (ex_tables ex))
    as (scanned & Es & Hs).
  { intros table Hin. rewrite Forall_forall in Hplans. destruct (Hplans table Hin) as (schema & content & Hplan).
    destruct (scan_table_ok ex tables Hinner table schema content Hplan w) as (output & E & Hout). eexists. split; [exact E|]. split; [done|].
    intros schema' content' Et. rewrite (pf_table _ _ _ _ _ Hplan) in Et. injection Et as <- <-. exact Hout. }
  assert (En : scanned.*1 = (fun table => tp_table (pt_plan table)) <$> ex_tables ex).
  { clear -Hs. induction Hs as [|table out l scanned [E _] _ IH]; [done|]. by rewrite !fmap_cons, E, IH. }
  unfold scan_tables. fold w. rewrite Es. cbn [obind]. eexists. split; [done|]. rewrite fold_insert_distinct by by rewrite En.
  split; [by rewrite dom_list_to_map_L, En|]. intros table schema content Hin Et.
  apply list_elem_of_lookup in Hin as [i Hi]. destruct (Forall2_lookup_l _ _ _ _ _ Hs Hi) as ([name output] & Ho & E & Hout). cbn in E, Hout. subst name.
  exists output. split; [|by apply (Hout schema)]. apply elem_of_list_to_map_1; [by rewrite En|]. by eapply list_elem_of_lookup_2.
Qed.

(** C5: A block range of a query is read as it is meant: every table plan's rows are
    those one of its items matches in the range's blocks, in file order with their
    positions where they are tracked, and the rows of each of its relations are
    exactly those related, by their keys or addresses, to the plan's rows the relation
    follows; so what a range holds of a block does not depend on the rest of the range
    nor on the reader. Nothing else is output, and nothing fails. *)
Theorem scan_tables_spec from_block to_block : exists outputs, scan_tables ex from_block to_block = Ok outputs /\
  dom outputs = list_to_set ((fun table => tp_table (pt_plan table)) <$> ex_tables ex) /\
  forall table schema content, table ∈ ex_tables ex -> tables (tp_table (pt_plan table)) = Some (schema, content) ->
    exists output, outputs !! tp_table (pt_plan table) = Some output /\
      range_output ex tables table content {| w_from := Some from_block; w_to := to_block |} output.
Proof. apply scan_tables_ok. Qed.
End range.

(** ** Witness *)

Import ArrowInstances.
Import HexInstances.
Import XxhInstances.
Import RowFormatInstances.
Import BatchInstances.

(** Transactions and the calls they made, over two blocks. *)
Definition traces_content : RecordBatch :=
  {| columns := [("block_number"%string, AInt UInt64 [7; 7; 7; 8] None); ("transaction_index"%string, AInt UInt32 [0; 0; 1; 0] None);
                 ("trace_address"%string, AList [0; 0; 1; 1; 2] (AInt UInt16 [0; 1] None) None)]; num_rows := 4 |}.
Definition traces_schema : Schema :=
  [{| f_name := "block_number"; f_type := DInt UInt64; f_nullable := false |}; {| f_name := "transaction_index"; f_type := DInt UInt32; f_nullable := false |};
   {| f_name := "trace_address"; f_type := array_type (AList [0] (AInt UInt16 [] None) None); f_nullable := false |}].
Definition transactions_content : RecordBatch :=
  {| columns := [("block_number"%string, AInt UInt64 [7; 7; 8] None); ("transaction_index"%string, AInt UInt32 [0; 1; 0] None)]; num_rows := 3 |}.
Definition transactions_schema : Schema :=
  [{| f_name := "block_number"; f_type := DInt UInt64; f_nullable := false |}; {| f_name := "transaction_index"; f_type := DInt UInt32; f_nullable := false |}].

Definition query_contents : chunk_contents := fun name =>
  if decide (name = "traces"%string) then Some (memory_table traces_schema traces_content (fun _ => None), traces_content)
  else if decide (name = "transactions"%string) then Some (memory_table transactions_schema transactions_content (fun _ => None), transactions_content)
  else None.
Definition query_chunk : ColumnarChunk := {|
  cc_has_table name := bool_decide (is_Some (query_contents name));
  cc_open_table name := Ok (fst <$> query_contents name);
|}.

Definition described (address : option string) : TableDescription := {|
  td_request_surface := None;
  td_output := {| os_name := None; os_fields := []; os_virtual_fields := []; os_variant_column := None; os_variants := [] |};
  td_block_number_column := "block_number"; td_parent_hash_column := None; td_parent_number_column := None;
  td_address_column := address; td_item_order_keys := []; td_declared_weight_key := None; td_sort_key := []; td_columns := [] |}.
Definition projected (name : string) (desc : TableDescription) (cols : list string) : ResolvedProjection := {|
  rp_table := name; rp_desc := desc; rp_names := []; rp_fields := []; rp_rendered := []; rp_required := cols;
  rp_weight := {| rw_fixed := 32; rw_columns := [] |}; rp_row_columns := cols; rp_size_columns := ["block_number"%string] |}.

Definition traces_desc : TableDescription := described (Some "trace_address"%string).
Definition transactions_desc : TableDescription := described None.
Definition trace_columns : list string := ["block_number"; "transaction_index"; "trace_address"]%string.
Definition transaction_columns : list string := ["block_number"; "transaction_index"]%string.

(** The calls of first transactions, the calls below them, and their transactions. *)
Definition traces_plan : TablePlan := {|
  tp_table := "traces"; tp_output_columns := [];
  tp_predicates := [row_new [col_in_list "transaction_index" (AInt UInt32 [0] None)]];
  tp_relations :=
    [{| rel_target_table := "traces"; rel_kind := JoinChildren; rel_left_key := trace_columns; rel_right_key := trace_columns;
        rel_output_columns := []; rel_source_items := None |};
     {| rel_target_table := "transactions"; rel_kind := Join; rel_left_key := transaction_columns; rel_right_key := transaction_columns;
        rel_output_columns := []; rel_source_items := Some [0%nat] |}] |}.
Definition traces_planned : PlannedTable := {|
  pt_plan := traces_plan; pt_desc := traces_desc; pt_projection := projected "traces" traces_desc trace_columns; pt_scan_columns := trace_columns;
  pt_targets := [projected "traces" traces_desc trace_columns; projected "transactions" transactions_desc transaction_columns] |}.
Definition traces_execution : Execution := {|
  ex_plan := {| pl_from_block := 0; pl_to_block := None; pl_include_all_blocks := false; pl_parent_block_hash := None; pl_block_table := "blocks";
                pl_block_output_columns := []; pl_table_plans := [traces_plan] |};
  ex_chunk := columnar_reader query_chunk ∅; ex_options := ExecOptions_default; ex_blocks := transactions_desc;
  ex_header := projected "blocks" transactions_desc ["block_number"%string]; ex_tables := [traces_planned]; ex_selection := None |}.

(** Of block 7, the calls of its first transaction, the call below the first, and
    that transaction. *)
Definition range_entries (outputs : result (gmap string TableOutput)) (name : string) :
    option (list entry * list (nat * list entry)) :=
  match outputs with
  | Ok outputs =>
      output ← outputs !! name;
      Some (entries (to_rows output), (fun e : nat * Rows => (e.1, entries e.2)) <$> map_to_list (to_relations output))
  | _ => None
  end.

Example traces_of_block_7 : range_entries (scan_tables traces_execution 7 (Some 7)) "traces" =
  Some ([([("block_number", CInt 7); ("transaction_index", CInt 0); ("trace_address", CList [])]%string, None);
         ([("block_number", CInt 7); ("transaction_index", CInt 0); ("trace_address", CList [CInt 0])]%string, None)],
        [(1%nat, [([("block_number", CInt 7); ("transaction_index", CInt 0)]%string, None)]);
         (0%nat, [([("block_number", CInt 7); ("transaction_index", CInt 0); ("trace_address", CList [CInt 0])]%string, None)])]).
Proof. vm_compute. reflexivity. Qed.

#[local] Ltac concrete := repeat constructor; cbn -[Z.pow]; try done; try lia.

Lemma traces_schema_of : schema_of traces_schema traces_content.
Proof.
  assert (Hb : batch_ok traces_content) by (unfold batch_ok; concrete). split; [apply (bool_decide_unpack _); vm_compute; done|]. split; [exact Hb|].
  repeat (constructor; [split; [done|]; split; [done|]; split; [done|]|]); [..|constructor]; intros _ row Hrow; cbn in *;
    do 4 (destruct row as [|row]; [done|]); lia.
Qed.

Lemma transactions_schema_of : schema_of transactions_schema transactions_content.
Proof.
  assert (Hb : batch_ok transactions_content) by (unfold batch_ok; concrete). split; [apply (bool_decide_unpack _); vm_compute; done|]. split; [exact Hb|].
  repeat (constructor; [split; [done|]; split; [done|]; split; [done|]|]); [..|constructor]; intros _ row Hrow; cbn in *;
    do 3 (destruct row as [|row]; [done|]); lia.
Qed.

Definition query_tables : chunk_tables := fun name => (fun tc : ColumnarTable * RecordBatch => (ct_schema tc.1, tc.2)) <$> query_contents name.

#[local] Instance traces_laws : ReaderLaws (ex_chunk traces_execution) query_tables.
Proof.
  apply columnar_reader_laws; [|apply no_tables_ok|done]. intros name. unfold query_chunk; cbn [cc_has_table cc_open_table].
  destruct (query_contents name) as [[t content]|] eqn:E; [|done]. split; [done|]. unfold query_contents in E.
  repeat case_decide; [..|done]; injection E as <- <-; (apply memory_table_ok; [|done]); [exact traces_schema_of|exact transactions_schema_of].
Qed.

Lemma trace_keys_fit names : names = transaction_columns ->
  keys_fit traces_content traces_content names names /\ keys_fit traces_content transactions_content names names.
Proof.
  intros ->. assert (H1 : keyed [traces_content] transaction_columns [SInt; SInt]) by (unfold keyed, batch_ok; concrete).
  assert (H2 : keyed [transactions_content] transaction_columns [SInt; SInt]) by (unfold keyed, batch_ok; concrete).
  split; (split; [exists [SInt; SInt]; split; [repeat constructor; auto|done]|..]); intros name a row Hin Ea Hrow;
    (repeat (apply elem_of_cons in Hin as [->|Hin]); [..|by apply not_elem_of_nil in Hin]); cbn in Ea; injection Ea as <-; cbn in Hrow;
    do 4 (destruct row as [|row]; [try done; cbn in *; lia|]); lia.
Qed.

Lemma traces_plan_fits : plan_fits traces_execution query_tables traces_planned traces_schema traces_content.
Proof.
  split.
  - reflexivity.
  - split; [concrete|split; [repeat constructor|done]|done|concrete| | |].
    + constructor; [|constructor]. repeat constructor; by eexists.
    + eexists. split; [reflexivity|]. split; [done|]. intros row Hrow. cbn in Hrow. do 4 (destruct row as [|row]; [done|]). lia.
    + intros relation items Hin Ei. cbn in Hin. repeat (apply elem_of_cons in Hin as [->|Hin]); [done| |by apply not_elem_of_nil in Hin].
      injection Ei as <-. concrete.
  - intros r Hin. cbn in Hin. repeat (apply elem_of_cons in Hin as [->|Hin]); [| |by apply not_elem_of_nil in Hin].
    + exists traces_schema, traces_content. split; [reflexivity|]. split.
      * exact traces_schema_of.
      * concrete.
      * eexists. split; [reflexivity|]. split; [done|]. intros row Hrow. cbn in Hrow. do 4 (destruct row as [|row]; [done|]). lia.
      * by eexists.
      * by eexists.
      * done.
      * done.
      * done.
      * intros _. exists "trace_address"%string, "trace_address"%string, transaction_columns. do 5 (split; [done|]).
        split; [by apply trace_keys_fit|]. split; [done|].
        assert (Hpath : path_column traces_content "trace_address").
        { split; [done|]. intros name a row Hin Ea Hrow. apply list_elem_of_singleton in Hin as ->. cbn in Ea; injection Ea as <-. cbn in Hrow.
          do 4 (destruct row as [|row]; [cbn; set_solver|]). lia. }
        split; [done|]. split; [done|]. vm_compute. done.
    + exists transactions_schema, transactions_content. split; [reflexivity|]. split.
      * exact transactions_schema_of.
      * concrete.
      * eexists. split; [reflexivity|]. split; [done|]. intros row Hrow. cbn in Hrow. do 3 (destruct row as [|row]; [done|]). lia.
      * by eexists.
      * by eexists.
      * done.
      * done.
      * intros _. split; [by apply trace_keys_fit|done].
      * done.
  - split.
    + by left.
    + by left.
    + intros r c Hin Hc. cbn in Hin. repeat (apply elem_of_cons in Hin as [->|Hin]); [done| |by apply not_elem_of_nil in Hin].
      by apply (elem_of_app transaction_columns ["trace_address"%string]); left.
    + intros r a Hin _ [= <-]. right. right. by left.
    + intros r Hin. cbn in Hin. repeat (apply elem_of_cons in Hin as [->|Hin]); [by left|by left|by apply not_elem_of_nil in Hin].
    + intros r Hin. cbn in Hin. repeat (apply elem_of_cons in Hin as [->|Hin]); [by left|by left|by apply not_elem_of_nil in Hin].
    + done.
Qed.

Lemma scan_tables_spec_witness : exists outputs output, scan_tables traces_execution 7 (Some 7) = Ok outputs /\
  outputs !! "traces"%string = Some output /\
  range_output traces_execution query_tables traces_planned traces_content {| w_from := Some 7; w_to := Some 7 |} output.
Proof.
  destruct (scan_tables_spec traces_execution query_tables) with (from_block := 7) (to_block := Some 7) as (outputs & E & _ & H).
  - done.
  - apply NoDup_singleton.
  - constructor; [|constructor]. exists traces_schema, traces_content. exact traces_plan_fits.
  - destruct (H traces_planned traces_schema traces_content) as (output & Eo & Hout); [by left|reflexivity|]. exact (ex_intro _ outputs (ex_intro _ output (conj E (conj Eo Hout)))).
Defined.
