(* ===== verification/PlanSpec.v ===== *)
(** What a compiled query reads (src/query/plan.rs): of every table exactly the rows
    one of the request's items passes, and for every relation exactly the rows of the
    items that asked for it. *)
From stdpp Require Import base strings list gmap.
From Stdlib Require Import ZArith Lia Sorting.Sorted.
From S2P Require Import Prelude Machine ListLib Errors Validated Arrow ArrowReference Catalog Integers Counting BlockIndex Rows KeyColumns Render Names Json Sets Predicate PredicateSpec Pruning RowPredicate Parse Plan Compile CompileSpec ItemSpec Tables TablesSpec.

#[local] Open Scope Z_scope.

(** What tells two relation plans apart: all but the items they are for. *)
Definition join_of (r : RelationPlan) := (rel_target_table r, rel_kind r, rel_left_key r, rel_right_key r, rel_output_columns r).

Lemma same_join_spec r s : same_join r s = true <-> join_of r = join_of s.
Proof.
  unfold same_join, join_of. rewrite !andb_true_iff, !bool_decide_eq_true.
  split; [by intros ((((-> & ->) & ->) & ->) & ->)|by intros [= -> -> -> -> ->]].
Qed.

(** ** Ascending lists of items *)

Lemma set_insert_elem n l m : m ∈ set_insert n l <-> m = n \/ m ∈ l.
Proof.
  induction l as [|k l IH]; cbn [set_insert]; [by rewrite list_elem_of_singleton, elem_of_nil; tauto|].
  destruct (Nat.ltb_spec n k); [by rewrite !elem_of_cons|]. destruct (Nat.eqb_spec n k) as [->|]; rewrite !elem_of_cons; [tauto|]. rewrite IH. tauto.
Qed.

Lemma set_insert_sorted n l : StronglySorted lt l -> StronglySorted lt (set_insert n l).
Proof.
  induction l as [|k l IH]; cbn [set_insert]; intros Hs; [by repeat constructor|]. pose proof Hs as [Hs' Hall]%StronglySorted_inv.
  destruct (Nat.ltb_spec n k) as [Hlt|Hge].
  - constructor; [done|]. constructor; [done|]. eapply Forall_impl; [exact Hall|]. cbn. lia.
  - destruct (Nat.eqb_spec n k) as [->|Hne]; [done|]. constructor; [by apply IH|]. apply Forall_forall. intros m [->|Hm]%set_insert_elem; [lia|].
    rewrite Forall_forall in Hall. by apply Hall.
Qed.

(** As many as there are below a bound are all of them. *)
Lemma ascending_all (l : list nat) n : StronglySorted lt l -> (forall k, k ∈ l -> (k < n)%nat) -> length l = n -> forall k, (k < n)%nat -> k ∈ l.
Proof.
  intros Hs Hlt Hlen k Hk. assert (l ≡ₚ seq 0 n) as ->; [|by apply elem_of_seq; lia].
  apply submseteq_length_Permutation; [|by rewrite length_seq; lia].
  apply NoDup_submseteq; [by apply lt_sorted_NoDup|]. intros m Hm. apply elem_of_seq. apply Hlt in Hm. lia.
Qed.

(** ** The relations of a table's items *)

(** The relations planned for a list of requests, each by an item: no join twice, and
    each with the items that asked for it. *)
Record requests_planned (relations : list RelationPlan) (sources : list (list nat)) (requests : list (nat * RelationPlan)) : Prop := {
  rq_distinct : NoDup (join_of <$> relations);
  rq_sources : Forall2 (fun r l => l <> [] /\ StronglySorted lt l /\ forall n, n ∈ l <-> exists p, (n, p) ∈ requests /\ join_of r = join_of p)
    relations sources;
  rq_complete : forall n p, (n, p) ∈ requests -> join_of p ∈ join_of <$> relations;
}.

Lemma planned_at_Some relations p k : planned_at relations p = Some k -> exists r, relations !! k = Some r /\ join_of r = join_of p.
Proof.
  unfold planned_at. destruct (list_find _ _) as [[j r]|] eqn:E; [|done]. intros [= <-]. apply list_find_Some in E as (E & Hs & _).
  exists r. split; [done|]. by apply same_join_spec.
Qed.

Lemma planned_at_None relations p : planned_at relations p = None -> join_of p ∉ join_of <$> relations.
Proof.
  unfold planned_at. destruct (list_find _ _) as [[j r]|] eqn:E; [done|]. intros _ Hin. apply list_find_None in E.
  apply list_elem_of_fmap in Hin as (r & Ej & Hr). rewrite Forall_forall in E. apply (E r Hr). by apply same_join_spec.
Qed.

(** One more request, for a join of another relation, changes nothing for this one. *)
Lemma another_request (requests : list (nat * RelationPlan)) n p r m : join_of r <> join_of p ->
  (exists q, (m, q) ∈ requests ++ [(n, p)] /\ join_of r = join_of q) <-> (exists q, (m, q) ∈ requests /\ join_of r = join_of q).
Proof.
  intros Hne. split; intros (q & Hq & Eq); exists q; (split; [|done]); [|apply elem_of_app; by left].
  by apply elem_of_app in Hq as [Hq|[= -> ->]%list_elem_of_singleton].
Qed.

Lemma add_relation_planned s n p requests : requests_planned (ts_relations s) (ts_sources s) requests ->
  requests_planned (ts_relations (add_relation s n p)) (ts_sources (add_relation s n p)) (requests ++ [(n, p)]).
Proof.
  intros [Hnd Hsrc Hall]. unfold add_relation. destruct (planned_at (ts_relations s) p) as [k|] eqn:Ek; cbn.
  - apply planned_at_Some in Ek as (r & Er & Ejoin). split; [done| |].
    + apply Forall2_same_length_lookup_2; [by rewrite length_alter; eapply Forall2_length|].
      intros i r' l' Er' El'. destruct (decide (i = k)) as [->|Hne].
      * rewrite Er in Er'. injection Er' as <-. rewrite list_lookup_alter_eq in El'. apply fmap_Some in El' as (l & El & ->).
        destruct (Forall2_lookup_lr _ _ _ _ _ _ Hsrc Er El) as (Hl & Hs & Hin). split; [|split; [by apply set_insert_sorted|]].
        -- intros E. assert (n ∈ set_insert n l) as Hn by (apply set_insert_elem; by left). rewrite E in Hn. by apply not_elem_of_nil in Hn.
        -- intros m. rewrite set_insert_elem, Hin. split.
           ++ intros [->|(q & Hq & Eq)]; [exists p|exists q]; (split; [|done]); apply elem_of_app; [right; by left|by left].
           ++ intros (q & [Hq|[= -> ->]%list_elem_of_singleton]%elem_of_app & Eq); [right; by exists q|by left].
      * rewrite list_lookup_alter_ne in El' by done. destruct (Forall2_lookup_lr _ _ _ _ _ _ Hsrc Er' El') as (Hl & Hs & Hin).
        split; [done|]. split; [done|]. intros m. rewrite Hin, another_request; [done|]. intros Eq. apply Hne.
        apply (NoDup_lookup _ _ _ (join_of r) Hnd); rewrite list_lookup_fmap; [by rewrite Er'; cbn; rewrite Eq, Ejoin|by rewrite Er].
    + intros m q [Hq|[= -> ->]%list_elem_of_singleton]%elem_of_app; [by eapply Hall|]. rewrite <- Ejoin. apply list_elem_of_fmap.
      exists r. split; [done|]. by eapply list_elem_of_lookup_2.
  - apply planned_at_None in Ek. split.
    + rewrite fmap_app. apply NoDup_app. split; [done|]. split; [|apply NoDup_singleton]. by intros j Hj ->%list_elem_of_singleton.
    + apply Forall2_app.
      * apply Forall2_same_length_lookup_2; [by eapply Forall2_length|]. intros i r l Er El.
        destruct (Forall2_lookup_lr _ _ _ _ _ _ Hsrc Er El) as (Hl & Hs & Hin). split; [done|]. split; [done|]. intros m.
        rewrite Hin, another_request; [done|]. intros Eq. apply Ek. rewrite <- Eq. apply list_elem_of_fmap_2. by eapply list_elem_of_lookup_2.
      * constructor; [|constructor]. split; [done|]. split; [by repeat constructor|]. intros m. rewrite list_elem_of_singleton. split.
        -- intros ->. exists p. split; [|done]. apply elem_of_app. right. by left.
        -- intros (q & [Hq|[= -> ->]%list_elem_of_singleton]%elem_of_app & Eq); [|done]. apply Hall in Hq. by rewrite <- Eq in Hq.
    + intros m q Hq. rewrite fmap_app. apply elem_of_app. apply elem_of_app in Hq as [Hq|[= -> ->]%list_elem_of_singleton]; [left; by eapply Hall|right; by left].
Qed.

Lemma add_relation_predicates s n p : ts_predicates (add_relation s n p) = ts_predicates s.
Proof. unfold add_relation. by destruct (planned_at _ _). Qed.

(** ** The items of a table *)

Section table.
Context {K : ArrowKernels} {L : ArrowLaws K} {X : Xxh3} {XL : Xxh3Laws X} {H : HexKernel} {D : HexDecoder} {DL : HexDecoderLaws D}.
Context (query : Query) (metadata : DatasetDescription) (desc : TableDescription) (scope : SetScope).
Context (Htable : table_ok desc) (Hscope : scope_ok scope).

(** The plan of a relation an item names. *)
Definition asked (item : QueryItem) (name : string) (p : RelationPlan) : Prop :=
  exists def, relation_def metadata desc item name = Some def /\ p = relation_plan query metadata def.

(** An item asks for a relation: one of the names it sent is of that join. *)
Definition asks (item : QueryItem) (r : RelationPlan) : Prop :=
  exists name p, name ∈ qi_relations item /\ asked item name p /\ join_of r = join_of p.

Definition passes_nothing (item : QueryItem) : Prop := forall batch i, ~ item_passes desc scope item batch i.

Definition item_compiles (item : QueryItem) (p : RowPredicate predicate) : Prop :=
  row_ok p /\ forall batch i, row_admits batch p i <-> item_passes desc scope item batch i.

(** What is planned once some of the items are done: [kept] are those that may pass a
    row. *)
Definition items_planned (done : list QueryItem) (s : TableState) : Prop :=
  exists kept requests,
    (forall item, item ∈ kept -> item ∈ done) /\ (forall item, item ∈ done -> item ∈ kept \/ passes_nothing item) /\
    Forall2 item_compiles kept (ts_predicates s) /\
    requests_planned (ts_relations s) (ts_sources s) requests /\
    (forall n p, (n, p) ∈ requests <-> exists item name, kept !! n = Some item /\ name ∈ qi_relations item /\ asked item name p) /\
    forall item name, item ∈ kept -> name ∈ qi_relations item -> exists p, asked item name p.

Lemma compile_item_planned done s item : Forall (fun f => value_ok f.2) (qi_filters item) -> items_planned done s ->
  validated (items_planned (done ++ [item])) (compile_item query metadata desc scope s item).
Proof.
  intros Hvals (kept & requests & Hkept & Hdone & Hpreds & Hplanned & Hreq & Hasked). unfold compile_item.
  eapply validated_bind; [by apply compile_item_ok|]. intros [compiled referred] Hc. cbn [fst] in Hc. destruct compiled as [|p].
  - cbn. exists kept, requests. split; [|split; [|by split]].
    + intros it Hit. apply elem_of_app. left. by apply Hkept.
    + intros it [Hit|Hit]%elem_of_app; [by apply Hdone|]. apply list_elem_of_singleton in Hit as ->. by right.
  - set (n := length (ts_predicates s)). assert (Hn : length kept = n) by by eapply Forall2_length.
    eapply validated_weaken.
    + apply (validated_foldM_prefix (fun names s' => ts_predicates s' = ts_predicates s ++ [p] /\ exists new,
        requests_planned (ts_relations s') (ts_sources s') (requests ++ new) /\ Forall2 (fun name q => q.1 = n /\ asked item name q.2) names new)).
      * intros names name rest s' El (Ep & new & Hp & Hnew). vstep as rel_def Edef. cbn. split; [by rewrite add_relation_predicates|].
        exists (new ++ [(n, relation_plan query metadata rel_def)]). split; [rewrite app_assoc; by apply add_relation_planned|].
        apply Forall2_app; [done|]. constructor; [|constructor]. split; [done|]. by exists rel_def.
      * split; [done|]. exists []. by rewrite app_nil_r.
    + intros s' (Ep & new & Hp & Hnew). exists (kept ++ [item]), (requests ++ new). split; [|split; [|split; [|split; [done|split]]]].
      * intros it [Hit|Hit]%elem_of_app; apply elem_of_app; [left; by apply Hkept|by right].
      * intros it [Hit|Hit]%elem_of_app; rewrite elem_of_app; [destruct (Hdone it Hit); auto|by left; right].
      * rewrite Ep. apply Forall2_app; [done|]. constructor; [exact Hc|constructor].
      * intros m q. rewrite elem_of_app, Hreq. split.
        -- intros [(it & name & Hit & Hrest)|Hq]; [exists it, name; split; [by apply lookup_app_l_Some|done]|].
           apply list_elem_of_lookup in Hq as [j Hj]. destruct (Forall2_lookup_r _ _ _ _ _ Hnew Hj) as (name & Hname & [Em Ha]). cbn in Em. subst m.
           exists item, name. split; [by rewrite <- Hn, list_lookup_middle|]. split; [by eapply list_elem_of_lookup_2|done].
        -- intros (it & name & Hit & Hname & Ha). apply lookup_app_Some in Hit as [Hit|[Hge Hit]]; [left; by exists it, name|].
           right. apply list_lookup_singleton_Some in Hit as [Hm <-]. assert (m = n) as -> by lia.
           apply list_elem_of_lookup in Hname as [j Hj]. destruct (Forall2_lookup_l _ _ _ _ _ Hnew Hj) as ([m' q'] & Hq & [Em Ha']).
           cbn in Em, Ha'. subst m'. destruct Ha as (def & Edef & ->), Ha' as (def' & Edef' & ->). rewrite Edef in Edef'. injection Edef' as <-.
           by eapply list_elem_of_lookup_2.
      * intros it name [Hit|Hit]%elem_of_app Hname; [by apply Hasked|]. apply list_elem_of_singleton in Hit as ->.
        apply list_elem_of_lookup in Hname as [j Hj]. destruct (Forall2_lookup_l _ _ _ _ _ Hnew Hj) as ([m q] & _ & [_ Ha]). by exists q.
Qed.

(** ** A table's plan *)

Record table_planned (items : list QueryItem) (plan : TablePlan) : Prop := {
  pn_columns : tp_output_columns plan = selected_columns query (tp_table plan) (Some desc);
  pn_items : tp_predicates plan <> [];
  pn_reads : Forall row_ok (tp_predicates plan);
  pn_primary : forall content row, primary_row content plan row <-> (row < num_rows content)%nat /\ Exists (fun item => item_passes desc scope item content row) items;
  pn_joins : NoDup (join_of <$> tp_relations plan);
  pn_sources : forall r sources, r ∈ tp_relations plan -> rel_source_items r = Some sources ->
    sources <> [] /\ StronglySorted lt sources /\ Forall (fun n => (n < length (tp_predicates plan))%nat) sources;
  pn_followed : forall r, r ∈ tp_relations plan -> forall content row,
    followed_row content plan r row <-> (row < num_rows content)%nat /\ Exists (fun item => asks item r /\ item_passes desc scope item content row) items;
  pn_asked : Forall (fun item => passes_nothing item \/
    forall name, name ∈ qi_relations item -> exists p r, asked item name p /\ r ∈ tp_relations plan /\ join_of r = join_of p) items;
}.

Definition state_plan (name : string) (s : TableState) : TablePlan := {|
  tp_table := name; tp_output_columns := selected_columns query name (Some desc); tp_predicates := ts_predicates s;
  tp_relations := zip_with (with_sources (length (ts_predicates s))) (ts_relations s) (ts_sources s) |}.

Lemma planned_joins total relations sources : length relations = length sources ->
  join_of <$> zip_with (with_sources total) relations sources = join_of <$> relations.
Proof.
  revert sources. induction relations as [|r relations IH]; intros [|l sources] Hlen; try done. cbn. f_equal. apply IH. by injection Hlen.
Qed.

Lemma Exists_kept (items kept : list QueryItem) (P : QueryItem -> Prop) batch i :
  (forall item, item ∈ kept -> item ∈ items) -> (forall item, item ∈ items -> item ∈ kept \/ passes_nothing item) ->
  (forall item, P item -> item_passes desc scope item batch i) ->
  Exists P kept <-> Exists P items.
Proof.
  intros Hk Hi HP. rewrite !Exists_exists. split; intros (item & Hin & Hitem); exists item; (split; [|done]); [by apply Hk|].
  apply Hi in Hin as [|Hno]; [done|]. by apply HP, Hno in Hitem.
Qed.

Lemma compiled_passes kept predicates batch i : Forall2 item_compiles kept predicates ->
  Exists (fun p => row_admits batch p i) predicates <-> Exists (fun item => item_passes desc scope item batch i) kept.
Proof. induction 1 as [|item p kept predicates [_ Hp] _ IH]; [by rewrite !Exists_nil|]. by rewrite !Exists_cons, IH, Hp. Qed.

(** What is known of the state once every item is done. *)
Section done.
Context (items kept : list QueryItem) (requests : list (nat * RelationPlan)) (s : TableState) (name : string).
Context (Hkept : forall item, item ∈ kept -> item ∈ items) (Hdone : forall item, item ∈ items -> item ∈ kept \/ passes_nothing item).
Context (Hpreds : Forall2 item_compiles kept (ts_predicates s)) (Hplanned : requests_planned (ts_relations s) (ts_sources s) requests).
Context (Hreq : forall n p, (n, p) ∈ requests <-> exists item nm, kept !! n = Some item /\ nm ∈ qi_relations item /\ asked item nm p).

(** A relation's sources are the items that ask for it. *)
Lemma state_relation r : r ∈ tp_relations (state_plan name s) -> exists r0 l, r = with_sources (length (ts_predicates s)) r0 l /\
  l <> [] /\ StronglySorted lt l /\ forall n, n ∈ l <-> exists item, kept !! n = Some item /\ asks item r.
Proof.
  intros Hr. destruct Hplanned as [_ Hsrc _]. cbn [tp_relations state_plan] in Hr.
  apply list_elem_of_lookup in Hr as [k Hk]. apply lookup_zip_with_Some in Hk as (r0 & l & -> & Er & El).
  destruct (Forall2_lookup_lr _ _ _ _ _ _ Hsrc Er El) as (Hl & Hs & Hin). exists r0, l. split; [done|]. split; [done|]. split; [done|].
  intros n. rewrite Hin. split.
  - intros (p & Hp & Ej). apply Hreq in Hp as (item & nm & Hit & Hnm & Ha). exists item. split; [done|]. by exists nm, p.
  - intros (item & Hit & nm & p & Hnm & Ha & Ej). exists p. split; [|done]. apply Hreq. by exists item, nm.
Qed.

Lemma state_primary content row : ts_predicates s <> [] -> primary_row content (state_plan name s) row <->
  (row < num_rows content)%nat /\ Exists (fun item => item_passes desc scope item content row) items.
Proof.
  intros Hne. unfold primary_row. cbn [tp_predicates state_plan]. rewrite (compiled_passes kept) by done.
  rewrite (Exists_kept items kept _ content row) by done. split; [by intros [? [?|?]]|tauto].
Qed.

(** The rows of the items numbered in a list are those of the items. *)
Lemma numbered_items l (P : QueryItem -> Prop) content row : (forall n, n ∈ l <-> exists item, kept !! n = Some item /\ P item) ->
  Exists (fun n => exists p, ts_predicates s !! n = Some p /\ row_admits content p row) l <->
  Exists (fun item => P item /\ item_passes desc scope item content row) items.
Proof.
  intros Hin. rewrite <- (Exists_kept items kept (fun item => P item /\ item_passes desc scope item content row) content row) by (done || tauto).
  rewrite !Exists_exists. split.
  - intros (n & Hn & p & Ep & Hp). apply Hin in Hn as (item & Hit & Ha). destruct (Forall2_lookup_lr _ _ _ _ _ _ Hpreds Hit Ep) as [_ Hadm].
    exists item. split; [by eapply list_elem_of_lookup_2|]. split; [done|]. by apply Hadm.
  - intros (item & Hit & Ha & Hpass). apply list_elem_of_lookup in Hit as [n Hn]. exists n. split; [apply Hin; by exists item|].
    destruct (Forall2_lookup_l _ _ _ _ _ Hpreds Hn) as (p & Ep & [_ Hadm]). exists p. split; [done|]. by apply Hadm.
Qed.

Lemma state_followed r content row : ts_predicates s <> [] -> r ∈ tp_relations (state_plan name s) ->
  followed_row content (state_plan name s) r row <->
  (row < num_rows content)%nat /\ Exists (fun item => asks item r /\ item_passes desc scope item content row) items.
Proof.
  intros Hne Hr. destruct (state_relation r Hr) as (r0 & l & Er & _ & Hs & Hin). unfold followed_row. rewrite state_primary by done.
  assert (Hlen : length kept = length (ts_predicates s)) by by eapply Forall2_length.
  rewrite <- (numbered_items l (fun item => asks item r) content row Hin).
  assert (Hsome : Exists (fun n => exists p, ts_predicates s !! n = Some p /\ row_admits content p row) l -> Exists (fun item => item_passes desc scope item content row) items).
  { rewrite (numbered_items l (fun item => asks item r) content row Hin). intros Hex. eapply Exists_impl; [exact Hex|]. cbn. tauto. }
  rewrite Er at 1. cbn [rel_source_items with_sources]. destruct (Nat.eqb_spec (length l) (length (ts_predicates s))) as [Elen|Nlen]; [|cbn [tp_predicates state_plan]; tauto].
  split; [|tauto]. intros [[Hrow Hex] _]. split; [done|]. rewrite <- (Exists_kept items kept _ content row) in Hex by done.
  apply Exists_exists in Hex as (item & Hit & Hpass). apply list_elem_of_lookup in Hit as [n Hn]. apply Exists_exists. exists n. split.
  - apply (ascending_all l (length kept)); [done| |congruence|by eapply lookup_lt_Some]. intros k (it & Hk & _)%Hin. by eapply lookup_lt_Some.
  - destruct (Forall2_lookup_l _ _ _ _ _ Hpreds Hn) as (p & Ep & [_ Hadm]). exists p. split; [done|]. by apply Hadm.
Qed.
End done.

Lemma state_plan_planned items name s : items_planned items s -> ts_predicates s <> [] -> table_planned items (state_plan name s).
Proof.
  intros (kept & requests & Hkept & Hdone & Hpreds & Hplanned & Hreq & Hasked) Hne. pose proof Hplanned as [Hnd Hsrc Hall].
  assert (Hlen : length (ts_relations s) = length (ts_sources s)) by by eapply Forall2_length.
  split; try done.
  - apply Forall_forall. intros p Hp. apply list_elem_of_lookup in Hp as [k Hk]. by destruct (Forall2_lookup_r _ _ _ _ _ Hpreds Hk) as (item & _ & [? _]).
  - intros content row. by apply (state_primary items kept).
  - cbn [tp_relations state_plan]. by rewrite planned_joins.
  - intros r sources Hr Esrc. destruct (state_relation kept requests s name Hplanned Hreq r Hr) as (r0 & l & -> & Hl & Hs & Hin).
    cbn in Esrc. destruct (_ =? _)%nat; [done|]. injection Esrc as <-.
    split; [done|]. split; [done|]. apply Forall_forall. intros n Hn. apply Hin in Hn as (item & Hit & _).
    apply lookup_lt_Some in Hit. by rewrite (Forall2_length _ _ _ Hpreds) in Hit.
  - intros r Hr content row. by apply (state_followed items kept requests).
  - apply Forall_forall. intros item Hit. destruct (Hdone item Hit) as [Hk|]; [|by left]. right. intros nm Hnm.
    destruct (Hasked item nm Hk Hnm) as [p Ha]. apply list_elem_of_lookup in Hk as [n Hn].
    assert (Hp : (n, p) ∈ requests) by (apply Hreq; by exists item, nm). apply Hall in Hp. cbn [tp_relations state_plan].
    rewrite <- (planned_joins (length (ts_predicates s)) _ _ Hlen) in Hp. apply list_elem_of_fmap in Hp as (r & Ej & Hr). by exists p, r.
Qed.
End table.

(** ** The catalog's order *)

Section order.
Context (metadata : DatasetDescription).

(** The catalog declares one table before the other. *)
Definition catalog_before (a b : string) : Prop :=
  exists i j, index_of_name a (dd_tables metadata) = Some i /\ index_of_name b (dd_tables metadata) = Some j /\ (i < j)%nat.

Definition catalog_rank (name : string) : nat := match index_of_name name (dd_tables metadata) with None => O | Some i => S i end.

Lemma catalog_order_rank a b : catalog_order metadata a b = true <->
  (catalog_rank a.1 < catalog_rank b.1)%nat \/ catalog_rank a.1 = catalog_rank b.1 /\ text_le a.1 b.1 = true.
Proof.
  unfold catalog_order, catalog_rank. destruct (index_of_name a.1 _) as [i|], (index_of_name b.1 _) as [j|].
  - rewrite orb_true_iff, andb_true_iff, Nat.ltb_lt, Nat.eqb_eq. split; intros [?|[? ?]]; [left; lia|right; auto|left; lia|right; auto].
  - split; [done|]. intros [|[]]; lia.
  - split; [intros _; lia|done].
  - split; [by right|]. by intros [?%Nat.lt_irrefl|[_ ?]].
Qed.

Lemma index_of_name_table name : is_Some (Catalog.table metadata name) -> exists i, index_of_name name (dd_tables metadata) = Some i.
Proof.
  unfold Catalog.table. induction (dd_tables metadata) as [|[n a] l IH]; cbn; [by intros []|]. case_decide; [by exists O|].
  intros [i ->]%IH. by exists (S i).
Qed.

Lemma index_of_name_inj a b i : index_of_name a (dd_tables metadata) = Some i -> index_of_name b (dd_tables metadata) = Some i -> a = b.
Proof. intros (x & Ex)%index_of_name_lookup (y & Ey)%index_of_name_lookup. rewrite Ex in Ey. congruence. Qed.

Lemma catalog_order_before a b : is_Some (Catalog.table metadata a.1) -> is_Some (Catalog.table metadata b.1) -> a.1 <> b.1 ->
  catalog_order metadata a b = true -> catalog_before a.1 b.1.
Proof.
  intros [i Ei]%index_of_name_table [j Ej]%index_of_name_table Hne Hle%catalog_order_rank. exists i, j. split; [done|]. split; [done|].
  unfold catalog_rank in Hle. rewrite Ei, Ej in Hle. destruct Hle as [|[Eq _]]; [lia|]. injection Eq as ->. by destruct Hne; eapply index_of_name_inj.
Qed.

(** Distinct tables of the catalog, sorted, are in its order. *)
Lemma sorted_catalog_order (l : list (string * list QueryItem)) : NoDup l.*1 -> Forall (fun e => is_Some (Catalog.table metadata e.1)) l ->
  StronglySorted catalog_before (sort_by (catalog_order metadata) l).*1.
Proof.
  intros Hnd Hall. rewrite <- (sort_by_Permutation (catalog_order metadata) l) in Hnd, Hall.
  assert (Hs : StronglySorted (fun a b => catalog_order metadata a b = true) (sort_by (catalog_order metadata) l)).
  { apply sort_by_sorted.
    - intros x y. rewrite !catalog_order_rank. destruct (Nat.lt_trichotomy (catalog_rank x.1) (catalog_rank y.1)) as [|[->|]]; [by left; left| |by right; left].
      destruct (text_le_total x.1 y.1); auto.
    - intros x y z. rewrite !catalog_order_rank. intros [?|[E1 H1]] [?|[E2 H2]]; [left; lia..|].
      right. split; [lia|]. by apply (text_le_trans _ y.1). }
  induction Hs as [|e l' Hs IH He]; cbn; [constructor|]. apply NoDup_cons in Hnd as [Hin Hnd]. apply Forall_cons in Hall as [Hsome Hall].
  constructor; [by apply IH|]. apply Forall_fmap. rewrite Forall_forall in He, Hall |- *. intros e' He'. cbn.
  apply catalog_order_before; [done|by apply Hall|intros E; apply Hin; rewrite E; by apply list_elem_of_fmap_2|by apply He].
Qed.
End order.

(** ** The whole plan *)

(** What the compiler relies on of a catalog: its names are names, its widths widths,
    and what its aliases filter by is text of a size memory holds. *)
Record catalog_compiles (metadata : DatasetDescription) : Prop := {
  ct_names : catalog_names_ok metadata;
  ct_tables : forall name desc, Catalog.table metadata name = Some desc -> table_ok desc;
  ct_implicit : forall key alias, assoc key (dd_aliases metadata) = Some alias -> Forall (fun f => value_ok f.2) (implicit_filters (Some alias));
}.

Lemma item_values_ok metadata table item : catalog_compiles metadata -> item_ok metadata table item -> Forall (fun f => value_ok f.2) (qi_filters item).
Proof.
  intros Hcat (desc & alias & _ & Hsurface & _ & sent & -> & Hsent). apply Forall_app. split.
  - eapply Forall_impl; [exact Hsent|]. intros f (Hjson & Hlen & _). split; [done|]. unfold list_of.
    destruct (as_array f.2) as [values|]; [|cbn; lia]. specialize (Hlen values eq_refl). unfold MAX_IN_LIST in Hlen. lia.
  - unfold item_surface in Hsurface. destruct (qi_alias item) as [key|].
    + destruct Hsurface as (a & -> & Ha & _). by apply (ct_implicit _ Hcat key).
    + destruct Hsurface as [-> _]. constructor.
Qed.

Section plan.
Context {K : ArrowKernels} {L : ArrowLaws K} {X : Xxh3} {XL : Xxh3Laws X} {H : HexKernel} {D : HexDecoder} {DL : HexDecoderLaws D}.
Context (metadata : DatasetDescription) (query : Query) (Hcat : catalog_compiles metadata) (Hquery : query_ok metadata query).

(** The sets a table's items may refer to, and the fields that show their columns. *)
Definition scope_of (name : string) : SetScope := {| ss_sets := qu_sets query; ss_selected := default [] (qu_fields query !! name) |}.

Record plan_compiled (plan : Plan) : Prop := {
  pc_range : pl_from_block plan = qu_from_block query /\ pl_to_block plan = qu_to_block query;
  pc_flags : pl_include_all_blocks plan = qu_include_all_blocks query /\ pl_parent_block_hash plan = qu_parent_block_hash query;
  pc_parent : is_Some (pl_parent_block_hash plan) -> exists desc column, Catalog.table metadata (pl_block_table plan) = Some desc /\ td_parent_hash_column desc = Some column;
  pc_order : StronglySorted (catalog_before metadata) (tp_table <$> pl_table_plans plan);
  pc_tables : forall tp, tp ∈ pl_table_plans plan -> exists desc items, Catalog.table metadata (tp_table tp) = Some desc /\
    qu_items query !! tp_table tp = Some items /\ table_planned query metadata desc (scope_of (tp_table tp)) items tp;
  pc_requested : forall name items, qu_items query !! name = Some items -> (exists tp, tp ∈ pl_table_plans plan /\ tp_table tp = name) \/
    exists desc, Catalog.table metadata name = Some desc /\ Forall (passes_nothing desc (scope_of name)) items;
}.

Lemma scope_of_ok name : scope_ok (scope_of name).
Proof. apply (qo_sets _ _ Hquery). Qed.

Lemma compile_table_planned plans referred name items : Forall (item_ok metadata name) items ->
  validated (fun s' => exists desc, Catalog.table metadata name = Some desc /\
    (s'.1 = plans /\ Forall (passes_nothing desc (scope_of name)) items \/
     exists tp, s'.1 = plans ++ [tp] /\ tp_table tp = name /\ table_planned query metadata desc (scope_of name) items tp))
    (compile_table query metadata (plans, referred) (name, items)).
Proof.
  intros Hitems. unfold compile_table. vstep as desc Edesc. fold (scope_of name).
  eapply validated_bind; [apply (validated_foldM_prefix (items_planned query metadata desc (scope_of name)))|].
  - intros done item rest s El Hs. apply compile_item_planned; [by apply (ct_tables _ Hcat name)|by apply scope_of_ok| |done].
    rewrite El in Hitems. apply Forall_app in Hitems as [_ [Hitem _]%Forall_cons]. by apply (item_values_ok metadata name).
  - exists [], []. split; [by intros ? ?%not_elem_of_nil|]. split; [by intros ? ?%not_elem_of_nil|]. split; [constructor|].
    split; [split; [constructor|constructor|by intros ? ? ?%not_elem_of_nil]|]. split; [|by intros ? ? ?%not_elem_of_nil].
    intros n p. rewrite elem_of_nil. split; [done|]. by intros (? & ? & E & _).
  - intros s Hs. cbv zeta. destruct (Nat.eqb_spec (length (ts_predicates s)) 0) as [E|E]; cbn.
    + exists desc. split; [done|]. left. split; [done|]. apply nil_length_inv in E. destruct Hs as (kept & _ & _ & Hdone & Hpreds & _).
      rewrite E in Hpreds. apply Forall2_nil_inv_r in Hpreds as ->. apply Forall_forall. intros item Hin. apply Hdone in Hin as [?%not_elem_of_nil|]; done.
    + exists desc. split; [done|]. right. eexists. split; [done|]. split; [done|]. apply (state_plan_planned query metadata desc (scope_of name) items name s Hs).
      intros E'. by rewrite E' in E.
Qed.

(** The plans of the tables done so far. *)
Definition plans_so_far (done : list (string * list QueryItem)) (plans : list TablePlan) : Prop :=
  tp_table <$> plans `sublist_of` done.*1 /\ Forall (fun e => is_Some (Catalog.table metadata e.1)) done /\
  (forall tp, tp ∈ plans -> exists desc items, Catalog.table metadata (tp_table tp) = Some desc /\ (tp_table tp, items) ∈ done /\
    table_planned query metadata desc (scope_of (tp_table tp)) items tp) /\
  forall e, e ∈ done -> (exists tp, tp ∈ plans /\ tp_table tp = e.1) \/
    exists desc, Catalog.table metadata e.1 = Some desc /\ Forall (passes_nothing desc (scope_of e.1)) e.2.

Lemma compile_tables_planned requested : (forall e, e ∈ requested -> Forall (item_ok metadata e.1) e.2) ->
  validated (fun s => plans_so_far requested s.1) (foldM (compile_table query metadata) requested ([], no_references)).
Proof.
  intros Hitems. apply (validated_foldM_prefix (fun done s => plans_so_far done s.1)).
  2: { split; [done|]. split; [constructor|]. split; intros ? ?%not_elem_of_nil; done. }
  intros done [name items] rest [plans referred] El (Hsub & Hsome & Hplans & Hdone). cbn [fst] in *. eapply validated_weaken.
  { apply compile_table_planned. apply (Hitems (name, items)). rewrite El. apply elem_of_app. right. by left. }
  intros [plans' referred'] (desc & Edesc & Hcase). cbn [fst] in *.
  assert (Hsome' : Forall (fun e : string * list QueryItem => is_Some (Catalog.table metadata e.1)) (done ++ [(name, items)])).
  { apply Forall_app. split; [done|]. constructor; [by eexists|constructor]. }
  destruct Hcase as [[-> Hno]|(tp & -> & En & Hp)].
  - split; [|split; [done|split]].
    + rewrite fmap_app. by apply sublist_inserts_r.
    + intros tp (d & its & Ed & Hin & Hp)%Hplans. exists d, its. split; [done|]. split; [|done]. apply elem_of_app. by left.
    + intros e [He| ->%list_elem_of_singleton]%elem_of_app; [by apply Hdone|]. right. by exists desc.
  - split; [|split; [done|split]].
    + rewrite !fmap_app. apply sublist_app; [done|]. cbn. by rewrite En.
    + intros tp' [(d & its & Ed & Hin & Hp')%Hplans| ->%list_elem_of_singleton]%elem_of_app.
      * exists d, its. split; [done|]. split; [|done]. apply elem_of_app. by left.
      * rewrite En. exists desc, items. split; [done|]. split; [|done]. apply elem_of_app. right. by left.
    + intros e [He| ->%list_elem_of_singleton]%elem_of_app.
      * destruct (Hdone e He) as [(tp' & Hin & E)|]; [|by right]. left. exists tp'. split; [|done]. apply elem_of_app. by left.
      * left. exists tp. split; [|done]. apply elem_of_app. right. by left.
Qed.

Lemma compile_ok : validated plan_compiled (compile query metadata).
Proof.
  unfold compile. vstep as u Hparent. apply orb_true_iff in Hparent. rewrite !bool_decide_eq_true in Hparent.
  set (requested := sort_by (catalog_order metadata) (map_to_list (qu_items query))).
  assert (Hin : forall name items, (name, items) ∈ requested <-> qu_items query !! name = Some items).
  { intros name items. unfold requested. by rewrite elem_of_sort_by, elem_of_map_to_list. }
  eapply validated_bind; [apply compile_tables_planned|].
  { intros [name items] He. apply Hin in He. by apply (qo_items _ _ Hquery _ _ He). }
  intros [plans referred] (Hsub & Hsome & Hplans & Hdone). cbn [fst] in *. vstep as u' Hused. cbn. split; cbn; try done.
  - intros [hash Eh]. destruct Hparent as [E|[column Ec]]; [congruence|]. apply bind_Some in Ec as (desc & Ed & Ec). by exists desc, column.
  - eapply sorted_sublist; [exact Hsub|]. apply sorted_catalog_order; [apply NoDup_fst_map_to_list|].
    by rewrite <- (sort_by_Permutation (catalog_order metadata)).
  - intros tp (desc & items & Ed & Hi%Hin & Hp)%Hplans. by exists desc, items.
  - intros name items Hi%Hin. apply (Hdone _ Hi).
Qed.

(** C6: A parsed query compiles to a plan of the same blocks or is refused by a
    validation error, and never panics. The plan's tables are in the catalog's order,
    each once. A table's plan selects, of any batch of its rows, exactly those one of
    the query's items passes, and a table without a plan is one whose items pass
    nothing. A relation's rows are followed from exactly the rows passed by an item
    that asked for it; no join is planned twice, and every relation an item that may
    pass a row asked for is planned. *)
Theorem compile_spec :
  (exists plan, compile query metadata = Ok plan /\ plan_compiled plan) \/
  (exists kind, compile query metadata = Err (EngineError kind) /\ is_validation kind = true).
Proof. apply validated_total, compile_ok. Qed.
End plan.

(** ** Witness *)

Import ArrowInstances.
Import HexInstances.
Import XxhInstances.
Import HexDecoderInstances.

(** The query the demonstration request parses to. *)
Definition demo_query : Query := {|
  qu_from_block := 7; qu_to_block := None; qu_include_all_blocks := false; qu_parent_block_hash := None;
  qu_fields := {["logs" := ["log_index"]]}; qu_sets := [];
  qu_items := {["logs" :=
    [{| qi_filters := [("address", JArray [JString "0xAB"])]; qi_relations := ["siblings"]; qi_alias := None |};
     {| qi_filters := [("address", JString "0xcd"); ("topic0", JArray [JString "0xdd"])]; qi_relations := []; qi_alias := Some "transfers" |}]]} |}%string.

(** Two items of one table: the relation follows the rows of the first, which asked for it. *)
Example demo_compiled : compile demo_query demo_metadata = Ok {|
  pl_from_block := 7; pl_to_block := None; pl_include_all_blocks := false; pl_parent_block_hash := None; pl_block_table := "blocks";
  pl_block_output_columns := [];
  pl_table_plans := [{| tp_table := "logs"; tp_output_columns := ["log_index"];
    tp_predicates := [row_new [col_in_list "address" (AText Utf8 ["0xab"%string] None)];
                      row_new [col_in_list "address" (AText Utf8 ["0xcd"%string] None); col_in_list "topic0" (AText Utf8 ["0xdd"%string] None)]];
    tp_relations := [{| rel_target_table := "logs"; rel_kind := Join; rel_left_key := ["block_number"]; rel_right_key := ["block_number"];
      rel_output_columns := ["log_index"]; rel_source_items := Some [0%nat] |}] |}] |}%string.
Proof. vm_compute. reflexivity. Qed.

Lemma demo_compiles : catalog_compiles demo_metadata.
Proof.
  split; [apply demo_names_ok| |].
  - intros name desc E. cbn in E. repeat case_decide; try done; injection E as <-; intros column col_desc E; cbn in E; repeat case_decide; try done; by injection E as <-.
  - intros key alias E. cbn in E. case_decide; [|done]. injection E as <-. repeat constructor; cbn; lia.
Qed.

Lemma demo_query_ok : query_ok demo_metadata demo_query.
Proof.
  assert (Hv := parse_query_ok demo_metadata demo_names_ok (JL:=demo_parser_laws) (BL:=no_base64_laws) []). rewrite demo_parsed in Hv. exact Hv.
Qed.

Lemma compile_spec_witness :
  (exists plan, compile demo_query demo_metadata = Ok plan /\ plan_compiled demo_metadata demo_query plan) \/
  (exists kind, compile demo_query demo_metadata = Err (EngineError kind) /\ is_validation kind = true).
Proof. exact (compile_spec demo_metadata demo_query demo_compiles demo_query_ok). Defined.
