(* ===== verification/CatalogSpec.v ===== *)
(** What an accepted catalog gives its clients (crates/metadata/src/loader.rs with
    src/query): every name it declares for a request leads to one table or alias, and
    a request that parses never compiles to an unknown table, column or relation. *)
From stdpp Require Import base strings list gmap.
From Stdlib Require Import ZArith Lia.
From S2P Require Import Prelude Machine ListLib Errors Validated Counting Arrow Catalog Loader LoaderSpec Render Names Json Sets Predicate RowPredicate Parse Plan Compile CompileSpec ItemSpec TablesSpec PlanSpec.

#[local] Open Scope Z_scope.

(** ** Computations that know every name *)

(** Whatever else becomes of it, it does not say that a table, column or relation is
    unknown. *)
Definition known {A} (P : A -> Prop) (x : result A) : Prop :=
  match x with
  | Ok a => P a
  | Err (EngineError kind) => kind <> UnknownTable /\ kind <> UnknownFilter
  | _ => True
  end.

Lemma known_bind {A B} (P : A -> Prop) (Q : B -> Prop) x (f : A -> result B) :
  known P x -> (forall a, P a -> known Q (f a)) -> known Q (obind x f).
Proof. destruct x as [a|[k| |]|]; cbn; auto. Qed.

Lemma known_weaken {A} (P Q : A -> Prop) x : known P x -> (forall a, P a -> Q a) -> known Q x.
Proof. destruct x as [a|[k| |]|]; cbn; auto. Qed.

Lemma known_foldM {A S} (I : S -> Prop) (f : S -> A -> result S) l :
  (forall s a, a ∈ l -> I s -> known I (f s a)) -> forall s, I s -> known I (foldM f l s).
Proof.
  induction l as [|a l IH]; intros Hf s Hs; [done|]. cbn [foldM].
  apply (known_bind I); [apply Hf; [by left|done]|]. intros s' Hs'. apply IH; [|done]. intros s'' b Hb. apply Hf. by right.
Qed.

Abbreviation names_known x := (known (fun _ => True) x).

Lemma known_mapM {A B} (f : A -> result B) l : (forall a, a ∈ l -> names_known (f a)) -> names_known (mapM_ok f l).
Proof.
  induction l as [|a l IH]; intros Hf; [done|]. cbn [mapM_ok]. apply (known_bind (fun _ => True)); [apply Hf; by left|]. intros b _.
  apply (known_bind (fun _ => True)); [apply IH; intros; apply Hf; by right|done].
Qed.

Lemma known_ensure b e : names_known (Err (A:=()) e) -> names_known (ensure b e).
Proof. by destruct b. Qed.

Lemma known_ok_or {A} (o : option A) e : names_known (Err (A:=()) e) -> names_known (ok_or o e).
Proof. by destruct o. Qed.

Lemma known_vec_get {A} (l : list A) i : names_known (vec_get l i).
Proof. unfold vec_get. by destruct (l !! i). Qed.

Lemma known_found {A} (o : option A) e : is_Some o -> known (fun a => o = Some a) (ok_or o e).
Proof. by intros [a ->]. Qed.

(** Computations that raise no such error on any path. *)
Ltac known_step :=
  first
    [ done
    | apply known_ensure; first [done|by split]
    | apply known_ok_or; first [done|by split]
    | apply (known_bind (fun _ => True)); [|intros ? _]
    | apply (known_foldM (fun _ => True)); [intros ? ? _ _|done]
    | apply known_mapM; intros ? _
    | by split
    | intros ? _
    | progress cbn beta zeta
    | case_match ].

Section compile.
Context `{D : HexDecoder} `{X : Xxh3}.

Lemma split_binary_known values : names_known (split_binary_in_list values).
Proof. unfold split_binary_in_list. repeat known_step. Qed.

Lemma compile_in_list_known column values col_desc : names_known (compile_in_list column values col_desc).
Proof.
  unfold compile_in_list, compile_unsigned_in_list, compile_signed_in_list, list_texts, fixed_binary_array.
  repeat (first [apply (known_bind (fun _ => True)); [apply split_binary_known|intros ? _] | known_step]).
Qed.

(** A filter whose key is a special filter of the table, or a column. *)
Definition filter_known (desc : TableDescription) (key : string) : Prop :=
  is_Some (assoc key (rs_special_filters (request desc))) \/ is_Some (column desc key).

Section filter.
Context (desc : TableDescription) (scope : SetScope) (Hspecial : Forall (special_valid desc) (rs_special_filters (request desc))).

Lemma special_has key special name : assoc key (rs_special_filters (request desc)) = Some special -> name ∈ special_columns special -> is_Some (column desc name).
Proof.
  intros E%assoc_elem_of Hin. rewrite Forall_forall in Hspecial. destruct (Hspecial _ E) as (_ & Hall & _). rewrite Forall_forall in Hall. by apply Hall.
Qed.

Lemma compile_column_filter_known s key value col_desc : names_known (compile_column_filter s key value col_desc).
Proof.
  unfold compile_column_filter. repeat (first [apply (known_bind (fun _ => True)); [apply compile_in_list_known|intros ? _] | known_step]).
Qed.

Lemma compile_discriminator_known value cols : names_known (compile_discriminator value cols).
Proof. unfold compile_discriminator, discriminator_value. repeat known_step. Qed.

Lemma compile_range_known bound value name : is_Some (column desc name) -> names_known (compile_range bound value name desc).
Proof. intros Hc. unfold compile_range. eapply known_bind; [by apply known_found|]. intros col _. repeat known_step. Qed.

Lemma compile_special_known s key value special : assoc key (rs_special_filters (request desc)) = Some special ->
  names_known (compile_special s value special desc).
Proof.
  intros E. assert (Hhas := special_has key special). unfold compile_special. destruct special; cbn [special_columns] in Hhas.
  - apply (known_bind (fun _ => True)); [apply compile_discriminator_known|]. repeat known_step.
  - apply (known_bind (fun _ => True)); [unfold compile_bloom_filter; repeat known_step|]. repeat known_step.
  - apply (known_bind (fun _ => True)); [apply compile_range_known, Hhas; [done|by left]|]. repeat known_step.
  - apply (known_bind (fun _ => True)); [apply compile_range_known, Hhas; [done|by left]|]. repeat known_step.
  - eapply known_bind; [apply known_found, Hhas; [done|by left]|]. intros col _. apply compile_column_filter_known.
  - apply (known_bind (fun _ => True)); [repeat known_step|]. intros enabled _. destruct enabled; [|done].
    eapply known_bind; [apply known_found, Hhas; [done|by left]|]. intros col _. repeat known_step.
Qed.

Lemma compile_set_filter_known key value names : filter_known desc key -> names_known (compile_set_filter key value names desc scope).
Proof.
  intros Hkey. unfold compile_set_filter. apply (known_bind (fun name => is_Some (column desc name))).
  { destruct (assoc key _) as [special|] eqn:E; [|destruct Hkey as [[? Hk]|]; [congruence|done]].
    destruct special; try by split. apply (special_has key _ _ E). by left. }
  intros name Hname. eapply known_bind; [by apply known_found|]. intros col _.
  unfold check_canary, fuse8_contains.
  repeat (first [apply compile_in_list_known | apply known_vec_get | known_step]).
Qed.

Lemma compile_filter_known s f : filter_known desc f.1 -> names_known (compile_filter desc scope s f).
Proof.
  destruct f as [key value]. cbn [fst]. intros Hkey. unfold compile_filter. apply (known_bind (fun _ => True)).
  { unfold set_references. repeat known_step. }
  intros names _. destruct (negb _).
  - apply (known_bind (fun _ => True)); [unfold references_add; repeat known_step|]. intros referred _.
    apply (known_bind (fun _ => True)); [by apply compile_set_filter_known|]. repeat known_step.
  - destruct (_ && _); [done|]. destruct (assoc key _) as [special|] eqn:E; [by apply (compile_special_known s key)|].
    eapply known_bind; [apply known_found; destruct Hkey as [[? Hk]|]; [congruence|done]|]. intros col _. apply compile_column_filter_known.
Qed.

Lemma compile_item_predicates_known item referred : Forall (fun f => filter_known desc f.1) (qi_filters item) ->
  names_known (compile_item_predicates item desc scope referred).
Proof.
  intros Hf. unfold compile_item_predicates. apply (known_bind (fun _ => True)); [unfold check_item_limits; repeat known_step|]. intros _ _.
  apply (known_bind (fun _ => True)); [|repeat known_step].
  apply (known_foldM (fun _ => True)); [|done]. intros s f Hin _. apply compile_filter_known. rewrite Forall_forall in Hf. by apply Hf.
Qed.
End filter.

(** ** Requests of an accepted catalog *)

Section catalog.
Context (metadata : DatasetDescription) (Hvalid : catalog_valid metadata).

Lemma table_of name desc : Catalog.table metadata name = Some desc -> table_valid metadata desc.
Proof. intros E%assoc_elem_of. destruct Hvalid as [_ Ht _ _ _]. rewrite Forall_forall in Ht. by apply (Ht (name, desc)). Qed.

Lemma alias_of key alias : assoc key (dd_aliases metadata) = Some alias -> alias_valid metadata alias.
Proof. intros E%assoc_elem_of. destruct Hvalid as [_ _ Ha _ _]. rewrite Forall_forall in Ha. by apply (Ha (key, alias)). Qed.

Lemma table_specials name desc : Catalog.table metadata name = Some desc -> Forall (special_valid desc) (rs_special_filters (request desc)).
Proof. intros E%table_of. by destruct E as (_ & _ & _ & _ & _ & ? & _). Qed.

(** Every filter of a parsed item is one the compiler finds. *)
Lemma item_filters_known name desc item : Catalog.table metadata name = Some desc -> item_ok metadata name item ->
  Forall (fun f => filter_known desc f.1) (qi_filters item).
Proof.
  intros Ed (desc' & alias & Ed' & Hsurface & _ & sent & Ef & Hsent). rewrite Ed in Ed'. injection Ed' as <-.
  assert (Halias : forall a, alias = Some a -> alias_valid metadata a /\ al_table a = name).
  { intros a ->. unfold item_surface in Hsurface. destruct (qi_alias item) as [key|]; [|by destruct Hsurface].
    destruct Hsurface as (a' & [= <-] & Ea & Et). split; [by apply (alias_of key)|done]. }
  rewrite Ef. apply Forall_app. split.
  - eapply Forall_impl; [exact Hsent|]. intros f (_ & _ & [(key & a & _ & Ea & Et)|[_ Hown]]); [|exact Hown].
    destruct (Halias a Ea) as [(t & Et' & _ & Hs & _) En]. rewrite En, Ed in Et'. injection Et' as <-.
    apply assoc_elem_of in Et. rewrite Forall_forall in Hs. destruct (Hs _ Et) as (_ & col & Ec & Hcol). cbn in Ec. injection Ec as ->. by right.
  - destruct alias as [a|]; [|constructor]. destruct (Halias a eq_refl) as [(t & Et' & _ & _ & Hi & _) En]. rewrite En, Ed in Et'. injection Et' as <-.
    cbn [implicit_filters]. apply Forall_fmap. rewrite Forall_forall in Hi. apply Forall_forall. intros e He. right. apply (Hi e.1). by apply list_elem_of_fmap_2.
Qed.

(** Every relation of a parsed item is one the compiler finds. *)
Lemma item_relations_known name desc item relation : Catalog.table metadata name = Some desc -> item_ok metadata name item ->
  relation ∈ qi_relations item -> is_Some (relation_def metadata desc item relation).
Proof.
  intros Ed (desc' & alias & Ed' & Hsurface & Hr & _) Hin. rewrite Ed in Ed'. injection Ed' as <-. rewrite Forall_forall in Hr.
  specialize (Hr relation Hin). unfold relation_def, item_surface in *. destruct (qi_alias item) as [key|].
  - destruct Hsurface as (a & -> & Ea & _). by rewrite Ea.
  - destruct Hsurface as [-> _]. exact Hr.
Qed.

Lemma compile_item_known query name desc scope s item : Catalog.table metadata name = Some desc -> item_ok metadata name item ->
  names_known (compile_item query metadata desc scope s item).
Proof.
  intros Ed Hitem. unfold compile_item. apply (known_bind (fun _ => True)).
  { apply compile_item_predicates_known; [by apply (table_specials name)|by apply (item_filters_known name)]. }
  intros [compiled referred] _. destruct compiled as [|p]; [done|]. apply (known_foldM (fun _ => True)); [|done].
  intros s' relation Hin _. eapply known_bind; [apply known_found; by apply (item_relations_known name)|done].
Qed.

Lemma compile_known query : query_ok metadata query -> names_known (compile query metadata).
Proof.
  intros Hquery. unfold compile. apply (known_bind (fun _ => True)); [repeat known_step|]. intros _ _.
  apply (known_bind (fun _ => True)); [|repeat known_step].
  apply (known_foldM (fun _ => True)); [|done]. intros [plans referred] [name items] Hin _.
  apply elem_of_sort_by, elem_of_map_to_list in Hin. destruct (qo_items _ _ Hquery _ _ Hin) as [Hdesc Hitems].
  unfold compile_table. eapply known_bind; [by apply known_found|]. intros desc Ed. cbv beta in Ed.
  apply (known_bind (fun _ => True)); [|repeat known_step].
  apply (known_foldM (fun _ => True)); [|done]. intros s item Hit _. apply (compile_item_known _ name); [done|].
  rewrite Forall_forall in Hitems. by apply Hitems.
Qed.

(** ** The names of an accepted catalog *)

Context (Htables : NoDup (dd_tables metadata).*1).

Lemma request_name_claimed name desc : Catalog.table metadata name = Some desc ->
  request_name desc name ∉ RESERVED_REQUEST_KEYS /\ request_name desc name ∉ (dd_aliases metadata).*1.
Proof.
  intros E%assoc_elem_of. destruct Hvalid as [_ _ _ _ [Hnd _]]. apply NoDup_app in Hnd as (_ & Hres & Hnd). apply NoDup_app in Hnd as (_ & Hal & _).
  assert (Hin : request_name desc name ∈ (fun e : string * TableDescription => request_name e.2 e.1) <$> dd_tables metadata).
  { apply list_elem_of_fmap. by exists (name, desc). }
  split; [|by apply Hal]. intros Hr. apply (Hres _ Hr). apply elem_of_app. by left.
Qed.

Lemma request_names_lookup name desc : Catalog.table metadata name = Some desc -> is_Some (td_request_surface desc) ->
  request_names metadata !! request_name desc name = Some name.
Proof.
  intros E%assoc_elem_of Hs. apply collect_map_lookup.
  - destruct Hvalid as [_ _ _ _ [Hnd _]]. apply NoDup_app in Hnd as (_ & _ & Hnd). apply NoDup_app in Hnd as (Hnd & _ & _).
    rewrite <- list_fmap_compose. cbn. eapply sublist_NoDup; [exact Hnd|]. apply fmap_sublist, sublist_filter.
  - apply list_elem_of_fmap. exists (name, desc). split; [done|]. by apply list_elem_of_filter.
Qed.

Lemma request_names_of_tables key name : request_names metadata !! key = Some name -> exists desc, Catalog.table metadata name = Some desc /\ key = request_name desc name.
Proof.
  intros E%collect_map_elem. apply list_elem_of_fmap in E as ([n desc] & [= -> ->] & [_ Hin]%list_elem_of_filter). exists desc.
  split; [by apply assoc_of_elem|done].
Qed.

Lemma output_entries_names (tables : list (string * TableDescription)) :
  (omap (fun e : string * TableDescription => name ← os_name (td_output e.2); Some (name, e.1)) tables).*1 = omap (fun e => os_name (td_output e.2)) tables.
Proof. induction tables as [|e tables IH]; [done|]. cbn. destruct (os_name (td_output e.2)); cbn; by rewrite IH. Qed.

Lemma output_names_lookup name desc output : Catalog.table metadata name = Some desc -> os_name (td_output desc) = Some output ->
  output_names metadata !! output = Some name.
Proof.
  intros E%assoc_elem_of Eo. apply collect_map_lookup.
  - destruct Hvalid as [_ _ _ _ [_ Hnd]]. by rewrite output_entries_names.
  - apply list_elem_of_omap. exists (name, desc). split; [done|]. cbn. by rewrite Eo.
Qed.
End catalog.
End compile.

Section accepted.
Context `{D : HexDecoder} `{X : Xxh3} `{J : JsonParser} {JL : JsonParserLaws J} `{B : Base64} {BL : Base64Laws B}.

(** C21: A catalog that was accepted answers for every name it declares. A request that
    parses against it never compiles to an unknown table, filter or relation; each of
    its request surfaces is reached by its own request name, which no reserved key and
    no other surface has; and the fields of a table are selected under its output
    name. *)
Theorem accepted_catalog_spec metadata (Hvalid : validate metadata = Ok tt) (Htables : NoDup (dd_tables metadata).*1) :
  (forall bytes query kind, parse_query bytes metadata = Ok query -> compile query metadata = Err (EngineError kind) -> kind <> UnknownTable /\ kind <> UnknownFilter) /\
  (forall name desc, Catalog.table metadata name = Some desc -> is_Some (td_request_surface desc) ->
     request_name desc name ∉ RESERVED_REQUEST_KEYS /\ request_table metadata (request_name desc name) = Ok (name, None)) /\
  (forall key alias, assoc key (dd_aliases metadata) = Some alias ->
     key ∉ RESERVED_REQUEST_KEYS /\ request_table metadata key = Ok (al_table alias, Some (key, alias))) /\
  (forall name desc output, Catalog.table metadata name = Some desc -> os_name (td_output desc) = Some output -> output_names metadata !! output = Some name).
Proof.
  pose proof (validate_decides metadata) as Hv. rewrite Hvalid in Hv. destruct Hv as [Hv _].
  assert (Hnames : catalog_names_ok metadata).
  { split; [done|]. intros key alias Ea. destruct (alias_of metadata Hv key alias Ea) as (t & Et & _). by exists t. }
  split; [|split; [|split]].
  - intros bytes query kind Ep Ec. pose proof (compile_known metadata Hv query (validated_ok _ _ _ (parse_query_ok metadata Hnames bytes) Ep)) as Hk.
    by rewrite Ec in Hk.
  - intros name desc E Hs. split; [by apply (request_name_claimed metadata Hv)|]. unfold request_table. by rewrite (request_names_lookup metadata Hv name desc).
  - intros key alias Ea. pose proof Ea as Hin%assoc_elem_of. split.
    + intros Hr. destruct Hv as [_ _ _ _ [Hnd _]]. apply NoDup_app in Hnd as (_ & Hnd & _). apply (Hnd key Hr). apply elem_of_app. right.
      by apply (list_elem_of_fmap_2 fst _ _ Hin).
    + unfold request_table. destruct (request_names metadata !! key) as [name|] eqn:E; [|by rewrite Ea].
      apply (request_names_of_tables metadata Htables) in E as (desc & E & ->). destruct (request_name_claimed metadata Hv name desc E) as [_ Hno].
      destruct Hno. by apply (list_elem_of_fmap_2 fst _ _ Hin).
  - intros name desc output E Eo. by apply (output_names_lookup metadata Hv name desc).
Qed.
End accepted.

(** ** Witness *)

Import XxhInstances.
Import HexDecoderInstances.

Lemma accepted_catalog_spec_witness :
  request_table demo_metadata "logs" = Ok ("logs"%string, None) /\
  (forall kind, compile demo_query demo_metadata = Err (EngineError kind) -> kind <> UnknownTable /\ kind <> UnknownFilter).
Proof.
  destruct (accepted_catalog_spec (JL:=demo_parser_laws) (BL:=no_base64_laws) demo_metadata) as (Hcompile & Hreach & _).
  - vm_compute. reflexivity.
  - apply (bool_decide_unpack _). vm_compute. done.
  - split; [by apply (Hreach "logs"%string _ eq_refl)|]. intros kind. by apply (Hcompile [] demo_query kind), demo_parsed.
Defined.

(** A catalog whose relation is keyed by another column first is refused. *)
Example refused_catalog :
  validate {| dd_version := dd_version demo_metadata; dd_name := dd_name demo_metadata; dd_aliases := [("swapped"%string,
    {| al_table := "logs"; al_implicit_filters := []; al_filters := []; al_special_filters := [];
       al_relations := [("siblings"%string, {| rd_table := "logs"; rd_kind := RkJoin; rd_key := ["log_index"; "block_number"]%string; rd_left_key := []; rd_right_key := [] |})] |})];
    dd_tables := dd_tables demo_metadata |} = Err OtherError.
Proof. vm_compute. reflexivity. Qed.
