(* ===== verification/Retain.v ===== *)
(** Rows kept by their blocks (src/output/arrow_out.rs), and what a deferred selection
    keeps of the rows it read until the page is read back
    (src/execution/materialize.rs). *)
From stdpp Require Import base strings list gmap.
From Stdlib Require Import ZArith Lia.
From S2P Require Import Prelude Machine ListLib Errors Arrow Catalog Integers Counting Rows Projection Weight Plan Prepare.

#[local] Open Scope Z_scope.

Section retain.
Context {K : ArrowKernels}.

(** [src/src/output/arrow_out.rs:243-258] blocks_mask. *)
Definition blocks_mask (batch : RecordBatch) (bn_col : string) (keep : Z -> bool) : result mask :=
  match column_by_name batch bn_col with
  | None => Ok (of_bools (replicate (num_rows batch) true))
  | Some col =>
      let* blocks := BlockNumbers_resolve col in
      Ok (of_bools ((fun i => keep (block_at blocks i)) <$> seq 0 (int_len (bn_reader blocks))))
  end.

(** [src/src/output/arrow_out.rs:228-241] filter_to_blocks. *)
Definition filter_to_blocks (batch : RecordBatch) (bn_col : string) (keep : Z -> bool) : result RecordBatch :=
  match column_by_name batch bn_col with
  | None => Ok batch
  | Some _ => let* mask := blocks_mask batch bn_col keep in Ok (filter_record_batch batch mask)
  end.

(** [src/src/execution/materialize.rs:180-187] retain_blocks. *)
Definition retain_blocks (rows : Rows) (block_column : string) (selected : list Z) : result Rows :=
  rows_filter rows (fun _ batch => blocks_mask batch block_column (fun block => bool_decide (is_Some (binary_search selected block)))).

(** [src/src/execution/materialize.rs:218-222] retain_identity. *)
Definition retain_identity (rows : Rows) (desc : TableDescription) (selected : list Z) : result Rows :=
  let* kept := retain_blocks rows (td_block_number_column desc) selected in
  Ok (rows_project kept (row_key desc)).

(** [src/src/execution/materialize.rs:224-239] retain_selected_keys. *)
Definition retain_selected_keys (outputs : gmap string TableOutput) (tables : list PlannedTable) (selected : list Z)
    : result (gmap string TableOutput) :=
  foldM (fun outputs table =>
    match outputs !! tp_table (pt_plan table) with
    | None => Ok outputs
    | Some output =>
        let* rows := retain_identity (to_rows output) (pt_desc table) selected in
        let* relations := foldM (fun relations (e : nat * Rows) =>
          let* target := vec_get (pt_targets table) e.1 in
          let* kept := retain_identity e.2 (rp_desc target) selected in
          Ok (<[e.1 := kept]> relations)) (map_to_list (to_relations output)) (to_relations output) in
        Ok (<[tp_table (pt_plan table) := {| to_rows := rows; to_relations := relations |}]> outputs)
    end) tables outputs.
End retain.
