(* ===== verification/Page.v ===== *)
(** Page selection (src/execution/page.rs): complete block ranges are read from the
    start of the request and their blocks weighed until the response budget is
    spent or the request ends. *)
From stdpp Require Import base strings list gmap.
From Stdlib Require Import ZArith Lia.
From S2P Require Import Prelude Machine ListLib Errors Arrow Catalog Integers Counting BlockIndex Rows Predicate RowPredicate ItemLists Projection Weight Scan Plan Reader Sources Prepare Tables Retain.

#[local] Open Scope Z_scope.

(** [src/src/execution/page.rs:21-35] Page. *)
Record Page := {
  pg_blocks : list Z;
  pg_headers : Rows;
  pg_tables : gmap string TableOutput;
  pg_read_through : option Z;
  pg_weights : list Z;
}.

(** ** How far a range reads *)

(** [src/src/execution/page.rs:263-274] headers_budget_holds: on a 64-bit target. *)
Definition headers_budget_holds (budget weight : Z) (headers_read : nat) : Z :=
  if weight =? 0 then u64_max
  else
    let left := sat_sub budget weight in
    let holds := (left * Z.of_nat headers_read + (weight - 1)) / weight in
    if holds <=? u64_max then holds else u64_max.

(** [src/src/execution/page.rs:L219-220] selection_span: its two spans. *)
Definition UNFILTERED : Z := 16.
Definition SELECTIVE : Z := 1024.

(** [src/src/execution/page.rs:210-261] selection_span. *)
Definition selection_span (execution : Execution) (selection : BlockSelection) (headers_read headers_left : nat) : option Z :=
  match ex_selection execution with
  | None => None
  | Some _ =>
      let unfiltered := existsb (fun table => existsb matches_every_row (tp_predicates table)) (pl_table_plans (ex_plan execution)) in
      let selective :=
        let splits := SELECTIVE <? Z.of_nat headers_left in
        if splits && selection_fits execution then None else Some SELECTIVE in
      if unfiltered then
        if (headers_read =? 0)%nat then Some UNFILTERED
        else
          let holds := headers_budget_holds (eo_weight_budget (ex_options execution)) (bs_cumulative selection) headers_read in
          if holds <=? SELECTIVE then Some (Z.max holds UNFILTERED) else selective
      else selective
  end.

(** [src/src/execution/page.rs:L302-311] next_range_end: the tables of the plan. *)
Definition range_tables (execution : Execution) : gmap string TableDescription :=
  fold_left (fun tables table =>
    fold_left (fun tables (r : RelationPlan * ResolvedProjection) => <[rel_target_table r.1 := rp_desc r.2]> tables) (pt_relations table)
      (<[tp_table (pt_plan table) := pt_desc table]> tables)) (ex_tables execution) ∅.

(** [src/src/execution/page.rs:299-321] next_range_end. *)
Definition next_range_end (execution : Execution) (from_block : Z) : option Z :=
  fold_left (fun end_ (e : string * TableDescription) =>
    end_ ← end_;
    hint ← cr_next_block_range_end (ex_chunk execution) e.1 (td_block_number_column e.2) from_block;
    Some (Some (match end_ with Some end_ => Z.max end_ hint | None => hint end)))
    (map_to_list (range_tables execution)) (Some None) ≫= id.

(** [src/src/execution/page.rs:276-297] initial_range_end. *)
Definition initial_range_end (execution : Execution) : result (option Z) :=
  let plan := ex_plan execution in
  match prescanned_table execution with
  | None => Ok (next_range_end execution (pl_from_block plan))
  | Some table =>
      let request : scan_request :=
        {| output_columns := rp_size_columns (pt_projection table); predicates := tp_predicates (pt_plan table);
           from_block := Some (pl_from_block plan); to_block := pl_to_block plan;
           block_number_column := Some (td_block_number_column (pt_desc table)); batch_size := u64_max; key_filter := None;
           hierarchical_filter := None; Rows.required_columns := []; positions := false; row_indices := None; item_tags := [];
           column_cache := None; window := None |} in
      let* batches := cr_scan (ex_chunk execution) (tp_table (pt_plan table)) request in
      Ok (weight_range_end batches (pt_projection table) (eo_weight_budget (ex_options execution)))
  end.

(** [src/src/execution/page.rs:167-208] range_end. *)
Definition range_end (execution : Execution) (selection : BlockSelection) (from_block : Z) (first_range : bool)
    (header_numbers : list Z) (request_end : option Z) : result (option Z * bool) :=
  let plan := ex_plan execution in
  let* hint :=
    if eo_range_reads (ex_options execution) then
      if first_range then initial_range_end execution else Ok (next_range_end execution from_block)
    else Ok None in
  let first := partition_point (fun block => block <? from_block) header_numbers in
  let headers_left := (length header_numbers - first)%nat in
  let hint :=
    match selection_span execution selection first headers_left with
    | Some blocks_per_selection =>
        match header_numbers !! (first + Z.to_nat blocks_per_selection - 1)%nat with
        | Some end_ => Some (match hint with Some hint => Z.min hint end_ | None => end_ end)
        | None => hint
        end
    | None => hint
    end in
  let hint := end_ ← hint; if match request_end with None => true | Some last => end_ <? last end then Some end_ else None in
  let to_block :=
    match hint, request_end with
    | Some hint, Some end_ => Some (Z.min (Z.max hint from_block) end_)
    | Some hint, None => Some (Z.max hint from_block)
    | None, _ => pl_to_block plan
    end in
  let last_range := bool_decide (hint = None) || bool_decide (to_block = request_end) in
  Ok (to_block, last_range).

(** ** Reading a range *)

Section page.
Context {K : ArrowKernels}.

(** [src/src/execution/page.rs:L142-147] read_headers: what it asks for. *)
Definition header_request (execution : Execution) : scan_request :=
  let plan := ex_plan execution in
  {| output_columns := rp_row_columns (ex_header execution); predicates := []; from_block := Some (pl_from_block plan);
     to_block := pl_to_block plan; block_number_column := Some (td_block_number_column (ex_blocks execution)); batch_size := u64_max;
     key_filter := None; hierarchical_filter := None; Rows.required_columns := rp_required (ex_header execution); positions := false;
     row_indices := None; item_tags := []; column_cache := None; window := None |}.

(** [src/src/execution/page.rs:147-165] read_headers. *)
Definition read_headers (execution : Execution) : result Rows :=
  let* headers := cr_scan_rows (scan_reader execution) (pl_block_table (ex_plan execution)) (header_request execution) in
  Ok (sc_rows headers).

(** [src/src/execution/page.rs:323-368] range_blocks. *)
Definition range_blocks (execution : Execution) (outputs : gmap string TableOutput) (headers : list RecordBatch)
    (boundary_blocks : gset Z) (in_range : Z -> bool) : result (list Z) :=
  let* block_numbers := foldM (fun block_numbers table =>
    match outputs !! tp_table (pt_plan table) with
    | None => Ok block_numbers
    | Some output =>
        let* block_numbers := collect_block_numbers (rw_batches (to_rows output)) (td_block_number_column (pt_desc table)) block_numbers in
        foldM (fun block_numbers (e : nat * Rows) =>
          let* target := vec_get (pt_targets table) e.1 in
          collect_block_numbers (rw_batches e.2) (td_block_number_column (rp_desc target)) block_numbers)
          (map_to_list (to_relations output)) block_numbers
    end) (ex_tables execution) ∅ in
  let* block_numbers :=
    if pl_include_all_blocks (ex_plan execution) then
      collect_block_numbers headers (td_block_number_column (ex_blocks execution)) block_numbers
    else Ok (block_numbers ∪ filter (fun b => in_range b = true) boundary_blocks) in
  Ok (set_to_ascending block_numbers).

(** [src/src/execution/page.rs:370-396] weighed_sources. *)
Definition weighed_sources (execution : Execution) (outputs : gmap string TableOutput) : list WeighedRows :=
  ex_tables execution ≫= fun table =>
    match outputs !! tp_table (pt_plan table) with
    | None => []
    | Some output =>
        {| wr_projection := pt_projection table; wr_rows := to_rows output |} ::
        ((fun e : nat * ResolvedProjection =>
            {| wr_projection := e.2; wr_rows := default (Rows_new []) (to_relations output !! e.1) |}) <$> enumerate (pt_targets table))
    end.

(** [src/src/execution/page.rs:L104-114] select_page: a range's rows, kept. *)
Definition accumulate (tables outputs : gmap string TableOutput) : result (gmap string TableOutput) :=
  foldM (fun (tables : gmap string TableOutput) (e : string * TableOutput) =>
    let '(table, output) := e in
    let accumulated := default {| to_rows := Rows_new []; to_relations := ∅ |} (tables !! table) in
    let* rows := append (to_rows accumulated) (to_rows output) in
    let* relations := foldM (fun (relations : gmap nat Rows) (r : nat * Rows) =>
      let* rows := append (default (Rows_new []) (relations !! r.1)) r.2 in
      Ok (<[r.1 := rows]> relations)) (map_to_list (to_relations output)) (to_relations accumulated) in
    Ok (<[table := {| to_rows := rows; to_relations := relations |}]> tables)) (map_to_list outputs) tables.

(** What the loop of [select_page] keeps from one range to the next. *)
Record PageState := {
  ps_tables : gmap string TableOutput;
  ps_selection : BlockSelection;
  ps_from_block : Z;
  ps_first_range : bool;
}.

(** What the request's headers settle before the loop. *)
Record PageHeaders := {
  ph_headers : Rows;
  ph_boundary_blocks : gset Z;
  ph_header_numbers : list Z;
  ph_request_end : option Z;
}.

(** [src/src/execution/page.rs:L40-63] select_page: before the loop. *)
Definition page_headers (execution : Execution) : result PageHeaders :=
  let plan := ex_plan execution in
  let bn_column := td_block_number_column (ex_blocks execution) in
  let* headers := read_headers execution in
  let* boundary_blocks := collect_boundary_blocks (rw_batches headers) bn_column ∅ in
  let* header_numbers :=
    match ex_selection execution with
    | Some _ => collect_block_numbers (rw_batches headers) bn_column ∅
    | None => Ok ∅
    end in
  let request_end :=
    match last (set_to_ascending boundary_blocks) with
    | Some last => Some (match pl_to_block plan with Some end_ => Z.min end_ last | None => last end)
    | None => pl_to_block plan
    end in
  Ok {| ph_headers := headers; ph_boundary_blocks := boundary_blocks; ph_header_numbers := set_to_ascending header_numbers;
        ph_request_end := request_end |}.

(** A range read: the loop goes on from the next block, or the page is done, read
    through the block given. *)
Inductive PageStep :=
  | NextRange (state : PageState)
  | PageDone (tables : gmap string TableOutput) (selection : BlockSelection) (read_through : option Z).

(** [src/src/execution/page.rs:L65-123] select_page: one turn of the loop. *)
Definition page_step (execution : Execution) (headers : PageHeaders) (state : PageState) : result PageStep :=
  let bn_column := td_block_number_column (ex_blocks execution) in
  let from_block := ps_from_block state in
  let* (to_block, last_range) :=
    range_end execution (ps_selection state) from_block (ps_first_range state) (ph_header_numbers headers) (ph_request_end headers) in
  let* range_outputs := scan_tables execution from_block to_block in
  let in_range block := (from_block <=? block) && match to_block with None => true | Some end_ => block <=? end_ end in
  let* range_headers :=
    if ps_first_range state && last_range then Ok (rw_batches (ph_headers headers))
    else mapM_ok (fun batch => filter_to_blocks batch bn_column in_range) (rw_batches (ph_headers headers)) in
  let* blocks := range_blocks execution range_outputs range_headers (ph_boundary_blocks headers) in_range in
  let* (selection, exhausted) :=
    if bool_decide (blocks = []) then Ok (ps_selection state, false)
    else
      let sources := weighed_sources execution range_outputs in
      let* weights := compute_block_weights sources (ex_header execution) range_headers blocks in
      Ok (extend (ps_selection state) blocks weights) in
  let* range_outputs :=
    match ex_selection execution with
    | Some _ => retain_selected_keys range_outputs (ex_tables execution) (bs_blocks selection)
    | None => Ok range_outputs
    end in
  let* tables := accumulate (ps_tables state) range_outputs in
  if exhausted || last_range then
    Ok (PageDone tables selection (if exhausted && negb last_range then to_block else None))
  else
    match to_block ≫= fun end_ => if end_ <? u64_max then Some (end_ + 1) else None with
    | None => Ok (PageDone tables selection None)
    | Some next => Ok (NextRange {| ps_tables := tables; ps_selection := selection; ps_from_block := next; ps_first_range := false |})
    end.

(** [src/src/execution/page.rs:L64-124] select_page: the loop, of at most [fuel]
    ranges. *)
Fixpoint page_loop (fuel : nat) (execution : Execution) (headers : PageHeaders) (state : PageState)
    : option (result (gmap string TableOutput * BlockSelection * option Z)) :=
  match fuel with
  | O => None
  | S fuel =>
      match page_step execution headers state with
      | Ok (PageDone tables selection read_through) => Some (Ok (tables, selection, read_through))
      | Ok (NextRange state) => page_loop fuel execution headers state
      | Err e => Some (Err e)
      | Panic => Some Panic
      end
  end.

(** [src/src/execution/page.rs:37-145] select_page. *)
Definition select_page (fuel : nat) (execution : Execution) : option (result (option Page)) :=
  match page_headers execution with
  | Ok headers =>
      let start := {| ps_tables := ∅; ps_selection := BlockSelection_new (eo_weight_budget (ex_options execution));
                      ps_from_block := pl_from_block (ex_plan execution); ps_first_range := true |} in
      (fun selected =>
        let* (selected, read_through) := selected in
        let '(tables, selection) := selected in
        let '(blocks, weights) := into_blocks selection in
        if bool_decide (blocks = []) then Ok None
        else Ok (Some {| pg_blocks := blocks; pg_headers := ph_headers headers; pg_tables := tables; pg_read_through := read_through;
                         pg_weights := weights |})) <$> page_loop fuel execution headers start
  | Err e => Some (Err e)
  | Panic => Some Panic
  end.
End page.
