(* ===== verification/PageSpec.v ===== *)
(** Page selection, its theorems: the loop over block ranges moves forward and ends. *)
From stdpp Require Import base strings list gmap.
From Stdlib Require Import ZArith Lia.
From S2P Require Import Prelude Machine ListLib Errors Arrow Catalog Integers Counting BlockIndex Rows Predicate RowPredicate ItemLists Projection Weight Scan Plan Reader Sources Prepare Tables Retain Page.

#[local] Open Scope Z_scope.

(** ** The loop moves forward *)

(** How far the loop may have to go: the request's last block, or the last block
    number there is. *)
Definition loop_end (headers : PageHeaders) : Z := default u64_max (ph_request_end headers).

Section page.
Context {K : ArrowKernels}.

(** A range that is not the last ends at a block the request still goes beyond. *)
Lemma range_end_within execution selection from_block first_range header_numbers request_end to_block :
  range_end execution selection from_block first_range header_numbers request_end = Ok (to_block, false) ->
  exists end_, to_block = Some end_ /\ from_block <= end_ /\ match request_end with Some last => end_ < last | None => True end.
Proof.
  unfold range_end. intros H. apply obind_ok in H as (hint0 & _ & H).
  set (hint1 := match selection_span _ _ _ _ with Some _ => _ | None => hint0 end) in H. clearbody hint1.
  destruct hint1 as [h|]; cbn [mbind option_bind] in H.
  - destruct request_end as [last|].
    + destruct (h <? last) eqn:E; [|by rewrite bool_decide_eq_true_2 in H by done]. rewrite bool_decide_eq_false_2 in H by done.
      injection H as <- H. apply bool_decide_eq_false_1 in H. exists (Z.min (Z.max h from_block) last). split; [done|].
      assert (Z.min (Z.max h from_block) last <> last) by congruence. lia.
    + injection H as <-. exists (Z.max h from_block). split; [done|]. split; [lia|done].
  - by rewrite bool_decide_eq_true_2 in H by done.
Qed.

(** The next range starts after this one's first block, and not after the end. *)
Lemma next_range_advances execution headers state next :
  page_step execution headers state = Ok (NextRange next) ->
  ps_from_block state < ps_from_block next <= loop_end headers /\ ps_first_range next = false.
Proof.
  unfold page_step, loop_end. intros H. apply obind_ok in H as ([to_block last_range] & Er & H).
  apply obind_ok in H as (outputs & _ & H). apply obind_ok in H as (range_headers & _ & H). apply obind_ok in H as (blocks & _ & H).
  apply obind_ok in H as ([selection exhausted] & _ & H). apply obind_ok in H as (kept & _ & H). apply obind_ok in H as (tables & _ & H).
  destruct exhausted, last_range; cbn [orb] in H; try done.
  apply range_end_within in Er as (end_ & -> & Hfrom & Hend). cbn [mbind option_bind] in H.
  destruct (end_ <? u64_max) eqn:E; [|done]. injection H as <-. cbn [ps_from_block ps_first_range]. split; [|done].
  destruct (ph_request_end headers); cbn; lia.
Qed.

(** Fuel for the blocks left is enough, and more changes nothing. *)
Lemma page_loop_ends execution headers fuel : forall state, (Z.to_nat (loop_end headers - ps_from_block state) < fuel)%nat ->
  exists selected, forall more, (fuel <= more)%nat -> page_loop more execution headers state = Some selected.
Proof.
  induction fuel as [|fuel IH]; intros state Hfuel; [lia|].
  destruct (page_step execution headers state) as [[next|tables selection read_through]| |] eqn:Es.
  - apply next_range_advances in Es as Hn. destruct (IH next ltac:(lia)) as (selected & Hs). exists selected.
    intros [|more] Hm; [lia|]. cbn [page_loop]. rewrite Es. apply Hs. lia.
  - eexists. intros [|more] Hm; [lia|]. cbn [page_loop]. by rewrite Es.
  - eexists. intros [|more] Hm; [lia|]. cbn [page_loop]. by rewrite Es.
  - eexists. intros [|more] Hm; [lia|]. cbn [page_loop]. by rewrite Es.
Qed.

(** The ranges there can be: one for each block from the request's first to its end,
    and one. *)
Definition range_fuel (execution : Execution) : nat :=
  match page_headers execution with
  | Ok headers => S (Z.to_nat (loop_end headers - pl_from_block (ex_plan execution)))
  | _ => 1%nat
  end.

(** Page selection ends: whatever the chunk answers, the request, its headers and
    the reader's hints, the loop over block ranges returns within as many ranges as
    there are blocks between the request's first block and its end (or the last block
    number there is), since every further range starts at a later block; and more
    fuel than that changes nothing. *)
Theorem select_page_ends execution :
  exists selected, forall fuel, (range_fuel execution <= fuel)%nat -> select_page fuel execution = Some selected.
Proof.
  unfold select_page, range_fuel. destruct (page_headers execution) as [headers| |]; [|by eexists|by eexists].
  set (start := {| ps_tables := ∅ |}).
  destruct (page_loop_ends execution headers (S (Z.to_nat (loop_end headers - ps_from_block start))) start ltac:(lia)) as (selected & Hs).
  eexists. intros fuel Hm. by rewrite (Hs fuel Hm).
Qed.
End page.
