(* ===== verification/Parallel.v ===== *)
(** Fork-join (src/parallel.rs): [map] and [join] as a machine of threads that take
    turns, one step for each operation on what they share, with every way to wait, to
    wake and to unwind. A step reads or writes an atomic, or enters or leaves a
    mutex's critical section, as if in one order for all threads. *)
From stdpp Require Import base list relations.
From Stdlib Require Import ZArith Lia.
From S2P Require Import Prelude.

Section machine.
Context {V P : Type}.

(** ** What threads run *)

(** Code that forks: it returns, panics, or calls [map] on items that are code in
    turn and goes on with their results. *)
Inductive body :=
  | Ret (v : V)
  | Raise (p : P)
  | Forks (items : list body) (k : list V -> body).

(** [src/src/parallel.rs:L36-60] join: both sides are the items of a fork. *)
Definition join (a b : body) (k : V * V -> body) (never : body) : body :=
  Forks [a; b] (fun results => match results with [ra; rb] => k (ra, rb) | _ => never end).

(** ** What they share *)

(** [src/src/parallel.rs:L179-192] Stage: with the items its task runs and the slots it
    fills ([slots] of [map]), which are the forking frame's: they are there until
    [run] returns. *)
Record Stage := {
  sg_items : list body;
  sg_slots : list (option V);
  sg_alive : bool;
  sg_len : nat;
  sg_next : nat;
  sg_unspawned : Z;
  sg_unfinished : nat;
  sg_query : nat;
  sg_panic : option P;
}.

(** [src/src/parallel.rs:L69-74] Query: the forks open under one root, and who holds
    its mutex. Who sleeps on [changed] is told by the threads. *)
Record Query := { qr_open : list nat; qr_lock : option nat }.

(** ** Where a thread is *)

(** The calls a thread is in the middle of, innermost first: each frame is what is
    left of one. *)
Inductive frame :=
  | Body (b : body)                                                (* the caller's code *)
  | Inline (results : list V) (rest : list body) (k : list V -> body)  (* [run] on this thread alone *)
  | Opening (s : nat)                                              (* Query::open *)
  | Spread (s turns : nat)                                         (* Stage::spread *)
  | Reserve (s turns : nat)
  | Help (s : nat)                                                 (* Stage::help *)
  | Call (s index : nat)                                           (* an index claimed *)
  | Ran (s index : nat)                                            (* the item under way *)
  | Keep (s : nat) (p : P)                                         (* Stage::keep_first *)
  | Count (s : nat)
  | Notify (q : nat)                                               (* Query::notify *)
  | Wake (q : nat)                                                 (* changed.notify_all() *)
  | Wait (s : nat)                                                 (* Stage::wait, before the lock *)
  | Look (s : nat)                                                 (* the lock held *)
  | Find (s : nat) (open : list nat)
  | Asleep (s : nat)                                               (* changed.wait(open) *)
  | Close (s : nat)                                                (* Query::close *)
  | Finish (s : nat) (entered : bool) (k : list V -> body)         (* the end of [run] *)
  | Job (s : nat)                                                  (* a spawned helper no thread has taken *)
  | Leave.                                                         (* Enter's drop, of a helper *)

(** A thread: [QUERY] and its calls. *)
Record Thread := { th_query : option nat; th_stack : list frame }.

Record state := { threads : list Thread; stages : list Stage; queries : list Query }.

(** What a thread can do: a step, nothing until another thread does, nothing any more;
    or it reads what is not there. *)
Inductive turn :=
  | Next (st : state)
  | Blocked
  | Finished
  | Fault.

(** ** Changes of the state *)

Definition put_thread (t : nat) (th : Thread) (st : state) : state :=
  {| threads := <[t := th]> (threads st); stages := stages st; queries := queries st |}.
Definition put_stage (s : nat) (sg : Stage) (st : state) : state :=
  {| threads := threads st; stages := <[s := sg]> (stages st); queries := queries st |}.
Definition put_query (q : nat) (qr : Query) (st : state) : state :=
  {| threads := threads st; stages := stages st; queries := <[q := qr]> (queries st) |}.
Definition spawn (th : Thread) (st : state) : state :=
  {| threads := threads st ++ [th]; stages := stages st; queries := queries st |}.

Definition with_next (sg : Stage) (n : nat) : Stage :=
  {| sg_items := sg_items sg; sg_slots := sg_slots sg; sg_alive := sg_alive sg; sg_len := sg_len sg; sg_next := n;
     sg_unspawned := sg_unspawned sg; sg_unfinished := sg_unfinished sg; sg_query := sg_query sg; sg_panic := sg_panic sg |}.
Definition with_unspawned (sg : Stage) (n : Z) : Stage :=
  {| sg_items := sg_items sg; sg_slots := sg_slots sg; sg_alive := sg_alive sg; sg_len := sg_len sg; sg_next := sg_next sg;
     sg_unspawned := n; sg_unfinished := sg_unfinished sg; sg_query := sg_query sg; sg_panic := sg_panic sg |}.
Definition with_unfinished (sg : Stage) (n : nat) : Stage :=
  {| sg_items := sg_items sg; sg_slots := sg_slots sg; sg_alive := sg_alive sg; sg_len := sg_len sg; sg_next := sg_next sg;
     sg_unspawned := sg_unspawned sg; sg_unfinished := n; sg_query := sg_query sg; sg_panic := sg_panic sg |}.
Definition with_slot (sg : Stage) (index : nat) (v : V) : Stage :=
  {| sg_items := sg_items sg; sg_slots := <[index := Some v]> (sg_slots sg); sg_alive := sg_alive sg; sg_len := sg_len sg;
     sg_next := sg_next sg; sg_unspawned := sg_unspawned sg; sg_unfinished := sg_unfinished sg; sg_query := sg_query sg;
     sg_panic := sg_panic sg |}.
Definition with_panic (sg : Stage) (p : option P) : Stage :=
  {| sg_items := sg_items sg; sg_slots := sg_slots sg; sg_alive := sg_alive sg; sg_len := sg_len sg; sg_next := sg_next sg;
     sg_unspawned := sg_unspawned sg; sg_unfinished := sg_unfinished sg; sg_query := sg_query sg; sg_panic := p |}.
(** [run] has returned: its panic taken, its frame gone. *)
Definition ended (sg : Stage) : Stage :=
  {| sg_items := sg_items sg; sg_slots := sg_slots sg; sg_alive := false; sg_len := sg_len sg; sg_next := sg_next sg;
     sg_unspawned := sg_unspawned sg; sg_unfinished := sg_unfinished sg; sg_query := sg_query sg; sg_panic := None |}.

(** A sleeper of the query goes on to take its lock. *)
Definition awake (q : nat) (th : Thread) : Thread :=
  match th_stack th with
  | Asleep s :: fs => if decide (th_query th = Some q) then {| th_query := th_query th; th_stack := Wait s :: fs |} else th
  | _ => th
  end.

(** ** The steps of each call *)

(** A frame ends: its thread goes on with [fs] beneath. *)
Definition go (t : nat) (query : option nat) (fs : list frame) (st : state) : turn :=
  Next (put_thread t {| th_query := query; th_stack := fs |} st).

(** [src/src/parallel.rs:L112-137] run: without helpers here and now; else a stage,
    opened under this thread's query, or a query of its own. *)
Definition run_fork (pool t : nat) (query : option nat) (items : list body) (k : list V -> body) (fs : list frame) (st : state) : turn :=
  let helpers := (Nat.min (length items) pool - 1)%nat in
  if (helpers =? 0)%nat then
    match items with
    | [] => go t query (Body (k []) :: fs) st
    | b :: rest => go t query (Body b :: Inline [] rest k :: fs) st
    end
  else
    let q := default (length (queries st)) query in
    let s := length (stages st) in
    let stage := {| sg_items := items; sg_slots := replicate (length items) None; sg_alive := true; sg_len := length items; sg_next := 0;
      sg_unspawned := Z.of_nat helpers; sg_unfinished := length items; sg_query := q; sg_panic := None |} in
    go t (Some q) (Opening s :: Spread s 2 :: Help s :: Help s :: Wait s :: Close s :: Finish s (bool_decide (query = None)) k :: fs)
      {| threads := threads st; stages := stages st ++ [stage];
         queries := match query with Some _ => queries st | None => queries st ++ [{| qr_open := []; qr_lock := None |}] end |}.

(** What a call returns or raises reaches the one below: [(0..len).for_each(task)]
    goes on to the next index, a claimed item fills its slot or has its panic kept. *)
Definition deliver (t : nat) (query : option nat) (r : V + P) (fs : list frame) (st : state) : turn :=
  match fs, r with
  | [], _ => Finished
  | Inline vs (b :: rest) k :: fs, inl v => go t query (Body b :: Inline (vs ++ [v]) rest k :: fs) st
  | Inline vs [] k :: fs, inl v => go t query (Body (k (vs ++ [v])) :: fs) st
  | Inline _ _ _ :: fs, inr p => go t query (Body (Raise p) :: fs) st
  | Ran s index :: fs, inl v =>
      match stages st !! s with
      | Some sg => if sg_alive sg then go t query (Count s :: fs) (put_stage s (with_slot sg index v) st) else Fault
      | None => Fault
      end
  | Ran s index :: fs, inr p => go t query (Keep s p :: Count s :: fs) st
  | _, _ => Fault
  end.

(** [src/src/parallel.rs:L199-218] Stage::spread: the items left are looked at, then a
    helper is reserved. *)
Definition spread_step (t : nat) (query : option nat) (s turns : nat) (sg : Stage) (fs : list frame) (st : state) : turn :=
  match turns with
  | O => go t query fs st
  | S turns => if sg_len sg <=? sg_next sg then go t query fs st else go t query (Reserve s turns :: fs) st
  end%nat.

(** [src/src/parallel.rs:L205-216] Stage::spread: the reservation, and the job. *)
Definition reserve_step (t : nat) (query : option nat) (s turns : nat) (sg : Stage) (fs : list frame) (st : state) : turn :=
  let st := put_stage s (with_unspawned sg (sg_unspawned sg - 1)) st in
  if (sg_unspawned sg <=? 0)%Z then go t query fs st
  else go t query (Spread s turns :: fs) (spawn {| th_query := None; th_stack := [Job s] |} st).

(** [src/src/parallel.rs:L222-228] Stage::help: an index is claimed. *)
Definition claim_step (t : nat) (query : option nat) (s : nat) (sg : Stage) (fs : list frame) (st : state) : turn :=
  let st := put_stage s (with_next sg (S (sg_next sg))) st in
  if (sg_len sg <=? sg_next sg)%nat then go t query fs st else go t query (Call s (sg_next sg) :: Help s :: fs) st.

(** [src/src/parallel.rs:L229-234] Stage::help: the task is called, through a pointer
    to the forking frame. *)
Definition call_step (t : nat) (query : option nat) (s index : nat) (sg : Stage) (fs : list frame) (st : state) : turn :=
  if sg_alive sg then
    match sg_items sg !! index with
    | Some b => go t query (Body b :: Ran s index :: fs) st
    | None => Fault
    end
  else Fault.

(** [src/src/parallel.rs:249-264] Stage::keep_first: a payload that panics when it is
    dropped is leaked, which no one sees. *)
Definition keep_first (t : nat) (query : option nat) (s : nat) (p : P) (sg : Stage) (fs : list frame) (st : state) : turn :=
  go t query fs (match sg_panic sg with Some _ => st | None => put_stage s (with_panic sg (Some p)) st end).

(** [src/src/parallel.rs:L236-242] Stage::help: the item is counted as finished. *)
Definition count_step (t : nat) (query : option nat) (s : nat) (sg : Stage) (fs : list frame) (st : state) : turn :=
  match sg_unfinished sg with
  | O => Fault
  | S unfinished =>
      go t query (if (unfinished =? 0)%nat then Notify (sg_query sg) :: fs else fs) (put_stage s (with_unfinished sg unfinished) st)
  end.

(** What runs with the query's mutex held, entered when it is free. *)
Definition locked (q : nat) (st : state) (section : Query -> turn) : turn :=
  match queries st !! q with
  | None => Fault
  | Some qr => match qr_lock qr with Some _ => Blocked | None => section qr end
  end.

(** [src/src/parallel.rs:77-80] Query::open: the lock; then [notify_all]. *)
Definition open_step (t : nat) (query : option nat) (s : nat) (sg : Stage) (fs : list frame) (st : state) : turn :=
  locked (sg_query sg) st (fun qr =>
    go t query (Wake (sg_query sg) :: fs) (put_query (sg_query sg) {| qr_open := qr_open qr ++ [s]; qr_lock := None |} st)).

(** [src/src/parallel.rs:82-84] Query::close. *)
Definition close_step (t : nat) (query : option nat) (s : nat) (sg : Stage) (fs : list frame) (st : state) : turn :=
  locked (sg_query sg) st (fun qr =>
    go t query fs (put_query (sg_query sg) {| qr_open := filter (fun open => open <> s) (qr_open qr); qr_lock := None |} st)).

(** [src/src/parallel.rs:88-91] Query::notify: the lock taken and dropped; then
    [notify_all]. *)
Definition notify_step (t : nat) (query : option nat) (q : nat) (fs : list frame) (st : state) : turn :=
  locked q st (fun _ => go t query (Wake q :: fs) st).

(** [Condvar::notify_all]. *)
Definition wake_step (t : nat) (query : option nat) (q : nat) (fs : list frame) (st : state) : turn :=
  go t query fs {| threads := awake q <$> threads st; stages := stages st; queries := queries st |}.

(** [src/src/parallel.rs:L270-273] Stage::wait: the lock. *)
Definition wait_step (t : nat) (query : option nat) (s : nat) (sg : Stage) (fs : list frame) (st : state) : turn :=
  locked (sg_query sg) st (fun qr =>
    go t query (Look s :: fs) (put_query (sg_query sg) {| qr_open := qr_open qr; qr_lock := Some t |} st)).

Definition unlock (q : nat) (st : state) : state :=
  match queries st !! q with
  | Some qr => put_query q {| qr_open := qr_open qr; qr_lock := None |} st
  | None => st
  end.

(** [src/src/parallel.rs:L274-279] Stage::wait: every item finished, or the open forks
    are gone through. *)
Definition look_step (t : nat) (query : option nat) (s : nat) (sg : Stage) (fs : list frame) (st : state) : turn :=
  if (sg_unfinished sg =? 0)%nat then go t query fs (unlock (sg_query sg) st)
  else
    match queries st !! sg_query sg with
    | Some qr => go t query (Find s (qr_open qr) :: fs) st
    | None => Fault
    end.

(** [src/src/parallel.rs:L276-293] Stage::wait: an open fork with items to claim is
    helped; with none this thread sleeps, which frees the lock. *)
Definition find_step (t : nat) (query : option nat) (s : nat) (open : list nat) (sg : Stage) (fs : list frame) (st : state) : turn :=
  match open with
  | [] => go t query (Asleep s :: fs) (unlock (sg_query sg) st)
  | other :: open =>
      match stages st !! other with
      | Some so =>
          if (sg_next so <? sg_len so)%nat then go t query (Help other :: Wait s :: fs) (unlock (sg_query sg) st)
          else go t query (Find s open :: fs) st
      | None => Fault
      end
  end.

(** [src/src/parallel.rs:L22-33,143-148] run, map: the first panic is raised again, or
    the slots are taken; the query of this thread is what it was. *)
Definition finish_step (t : nat) (query : option nat) (s : nat) (entered : bool) (k : list V -> body) (sg : Stage) (fs : list frame) (st : state) : turn :=
  let query := if entered then None else query in
  let st := put_stage s (ended sg) st in
  match sg_panic sg with
  | Some p => go t query (Body (Raise p) :: fs) st
  | None => match mapM id (sg_slots sg) with Some vs => go t query (Body (k vs) :: fs) st | None => Fault end
  end.

(** A stage's frames look at the stage. *)
Definition on_stage (st : state) (s : nat) (f : Stage -> turn) : turn :=
  match stages st !! s with Some sg => f sg | None => Fault end.

(** The next step of a thread, in a pool of [pool] threads. *)
Definition thread_step (pool t : nat) (st : state) : turn :=
  match threads st !! t with
  | None => Finished
  | Some {| th_query := query; th_stack := [] |} => Finished
  | Some {| th_query := query; th_stack := f :: fs |} =>
      match f with
      | Body (Ret v) => deliver t query (inl v) fs st
      | Body (Raise p) => deliver t query (inr p) fs st
      | Body (Forks items k) => run_fork pool t query items k fs st
      | Opening s => on_stage st s (fun sg => open_step t query s sg fs st)
      | Spread s turns => on_stage st s (fun sg => spread_step t query s turns sg fs st)
      | Reserve s turns => on_stage st s (fun sg => reserve_step t query s turns sg fs st)
      | Help s => on_stage st s (fun sg => claim_step t query s sg fs st)
      | Call s index => on_stage st s (fun sg => call_step t query s index sg fs st)
      | Keep s p => on_stage st s (fun sg => keep_first t query s p sg fs st)
      | Count s => on_stage st s (fun sg => count_step t query s sg fs st)
      | Notify q => notify_step t query q fs st
      | Wake q => wake_step t query q fs st
      | Wait s => on_stage st s (fun sg => wait_step t query s sg fs st)
      | Look s => on_stage st s (fun sg => look_step t query s sg fs st)
      | Find s open => on_stage st s (fun sg => find_step t query s open sg fs st)
      | Asleep _ => Blocked
      | Close s => on_stage st s (fun sg => close_step t query s sg fs st)
      | Finish s entered k => on_stage st s (fun sg => finish_step t query s entered k sg fs st)
      | Job s => on_stage st s (fun sg => go t (Some (sg_query sg)) [Spread s 2; Help s; Leave] st)
      | Leave => go t None fs st
      | Ran _ _ | Inline _ _ _ => Fault
      end
  end.

(** A step of the machine: of any thread, or a sleeper wakes for no reason. *)
Inductive step (pool : nat) : state -> state -> Prop :=
  | step_thread t st st' : thread_step pool t st = Next st' -> step pool st st'
  | step_spurious t query s fs st : threads st !! t = Some {| th_query := query; th_stack := Asleep s :: fs |} ->
      step pool st (put_thread t {| th_query := query; th_stack := Wait s :: fs |} st).

(** Threads that call in, each with code of its own. *)
Definition callers (codes : list body) : state :=
  {| threads := (fun b => {| th_query := None; th_stack := [Body b] |}) <$> codes; stages := []; queries := [] |}.

Definition reachable (pool : nat) (codes : list body) (st : state) : Prop := rtc (step pool) (callers codes) st.
End machine.
Arguments body : clear implicits.
Arguments state : clear implicits.
Arguments Thread : clear implicits.
Arguments frame : clear implicits.
Arguments Stage : clear implicits.
Arguments turn : clear implicits.
