(* ===== verification/ParallelSpec.v ===== *)
(** What fork-join promises (src/parallel.rs): no thread calls a task whose fork has
    returned, a fork returns its items' results in order or one of their panics, every
    item runs before it does, and no query comes to a halt. *)
From stdpp Require Import base strings list relations.
From Stdlib Require Import ZArith Lia.
From S2P Require Import Prelude ListLib Parallel.

(** ** What code yields *)

Section yields.
Context {V P : Type}.
Implicit Types (b : body V P) (r : V + P).

(** With the items in any order: a fork returns its items' results in order, or
    panics as one of them does. *)
Inductive yields : body V P -> V + P -> Prop :=
  | yields_ret v : yields (Ret v) (inl v)
  | yields_raise p : yields (Raise p) (inr p)
  | yields_forks items k vs r : Forall2 (fun b v => yields b (inl v)) items vs -> yields (k vs) r -> yields (Forks items k) r
  | yields_panic items k b p : b ∈ items -> yields b (inr p) -> yields (Forks items k) (inr p).

(** On one thread, an item after the other: the code the forks stand for. *)
Fixpoint sequential b : V + P :=
  match b with
  | Ret v => inl v
  | Raise p => inr p
  | Forks items k =>
      match
        (fix all (items : list (body V P)) : list V + P :=
           match items with
           | [] => inl []
           | b :: items =>
               match sequential b with
               | inr p => inr p
               | inl v => match all items with inl vs => inl (v :: vs) | inr p => inr p end
               end
           end) items
      with
      | inl vs => sequential (k vs)
      | inr p => inr p
      end
  end.

(** The items in turn. *)
Fixpoint sequential_all (items : list (body V P)) : list V + P :=
  match items with
  | [] => inl []
  | b :: items =>
      match sequential b with
      | inr p => inr p
      | inl v => match sequential_all items with inl vs => inl (v :: vs) | inr p => inr p end
      end
  end.

Lemma sequential_forks items k :
  sequential (Forks items k) = match sequential_all items with inl vs => sequential (k vs) | inr p => inr p end.
Proof. cbn. f_equal. Qed.

Lemma body_nested_ind (Q : body V P -> Prop) :
  (forall v, Q (Ret v)) -> (forall p, Q (Raise p)) ->
  (forall items k, Forall Q items -> (forall vs, Q (k vs)) -> Q (Forks items k)) -> forall b, Q b.
Proof.
  intros Hv Hp Hf. fix IH 1. intros [v|p|items k]; [apply Hv|apply Hp|]. apply Hf; [|intros; apply IH].
  induction items as [|b items IHl]; constructor; [apply IH|apply IHl].
Qed.

(** What code yields agrees with the code on one thread: its value if that has one,
    a panic if that panics. *)
Lemma yields_sequential b r : yields b r -> match sequential b with inl v => r = inl v | inr _ => exists p, r = inr p end.
Proof.
  revert r. induction b as [v|p|items k IHi IHk] using body_nested_ind; intros r Hr; [by inversion Hr|inversion Hr; cbn; eauto|].
  rewrite (sequential_forks items k).
  assert (Hall : match sequential_all items with
    | inl vs => (forall vs', Forall2 (fun b v => yields b (inl v)) items vs' -> vs' = vs) /\ (forall b p, b ∈ items -> ~ yields b (inr p))
    | inr _ => forall vs', ~ Forall2 (fun b v => yields b (inl v)) items vs'
    end).
  { clear IHk Hr. induction IHi as [|b items Hb _ IH]; cbn.
    { split; [by inversion 1|]. intros b p Hin. inversion Hin. }
    destruct (sequential b) as [v|p] eqn:Eb.
    2: { intros vs' H. inversion H as [|? v ? ? Hv]; subst. specialize (Hb _ Hv). naive_solver. }
    destruct (sequential_all items) as [vs|p].
    - destruct IH as [IH1 IH2]. split.
      + intros vs' H. inversion H as [|? v' ? vs'' Hv Hvs]; subst. specialize (Hb _ Hv).
        f_equal; [congruence|by apply IH1].
      + intros b' p [-> | Hin]%elem_of_cons Hy; [|by eapply IH2]. by specialize (Hb _ Hy).
    - intros vs' H. inversion H; subst. by eapply IH. }
  destruct (sequential_all items) as [vs|p].
  - destruct Hall as [H1 H2]. inversion Hr as [| |? ? vs' ? Hvs Hk|? ? b p Hin Hb]; subst; [|by destruct (H2 b p Hin Hb)].
    rewrite (H1 _ Hvs) in Hk. by apply IHk.
  - inversion Hr as [| |? ? vs' ? Hvs Hk|]; subst; [by destruct (Hall vs' Hvs)|eauto].
Qed.
End yields.

(** ** The invariant *)

Section invariant.
Context {V P : Type}.
Implicit Types (b : body V P) (r : V + P) (st : state V P) (sg : Stage V P) (th : Thread V P) (f : frame V P) (fs : list (frame V P)).

(** An item of the stage claimed and not yet counted. *)
Definition pending_frame (s : nat) f : bool :=
  match f with Call s' _ | Ran s' _ | Count s' => bool_decide (s' = s) | _ => false end.

(** The end of the call that opened the stage. *)
Definition owner_frame (s : nat) f : bool := match f with Finish s' _ _ => bool_decide (s' = s) | _ => false end.

(** How many frames of a kind there are. *)
Fixpoint count_in (p : frame V P -> bool) fs : nat :=
  match fs with [] => 0 | f :: fs => (if p f then 1 else 0) + count_in p fs end.

Definition total (p : frame V P -> bool) st : nat := sum_list ((fun th => count_in p (th_stack th)) <$> threads st).
Definition pending st (s : nat) : nat := total (pending_frame s) st.

(** Every item of the stage has been claimed. *)
Definition exhausted st (s : nat) : Prop := exists sg, stages st !! s = Some sg /\ sg_len sg <= sg_next sg.

(** A stage of the query. *)
Definition stage_of st (q : option nat) (s : nat) : Prop := exists sg, stages st !! s = Some sg /\ q = Some (sg_query sg).

Definition items_of_stage st (s : nat) : list (body V P) := from_option sg_items [] (stages st !! s).

(** What the items left yield, after results [vs]. *)
Definition rest_yields (vs : list V) (rest : list (body V P)) (k : list V -> body V P) r : Prop :=
  (exists vs', Forall2 (fun b v => yields b (inl v)) rest vs' /\ yields (k (vs ++ vs')) r) \/
  (exists b p, b ∈ rest /\ yields b (inr p) /\ r = inr p).

(** The calls beneath may be given [r]. *)
Fixpoint accepts st (code : option (body V P)) fs r : Prop :=
  match fs with
  | [] => match code with Some b => yields b r | None => False end
  | Ran s index :: _ => exists b, items_of_stage st s !! index = Some b /\ yields b r
  | Inline vs rest k :: fs =>
      match r with
      | inl v => forall r', rest_yields (vs ++ [v]) rest k r' -> accepts st code fs r'
      | inr p => accepts st code fs (inr p)
      end
  | _ => False
  end.

Definition receiver fs : Prop := match fs with [] | Ran _ _ :: _ | Inline _ _ _ :: _ => True | _ => False end.
Definition help_of (s : nat) fs : Prop := match fs with Help s' :: _ => s' = s | _ => False end.
Definition is_inline f : Prop := match f with Inline _ _ _ => True | _ => False end.
Definition item_before (s : nat) f : Prop := match f with Call s' _ | Ran s' _ | Count s' => s' < s | _ => True end.

(** Each frame with what is beneath it. *)
Definition frame_ok st (code : option (body V P)) (q : option nat) f fs : Prop :=
  match f with
  | Body b => receiver fs /\ forall r, yields b r -> accepts st code fs r
  | Inline _ _ _ => receiver fs
  | Opening s => stage_of st q s /\ match fs with Spread s' _ :: _ => s' = s | _ => False end
  | Spread s _ | Reserve s _ => stage_of st q s /\ help_of s fs
  | Help s => stage_of st q s /\ match fs with
      | Help s' :: _ => s' = s
      | Wait s' :: _ => s' = s \/ exhausted st s'
      | [Leave] => True
      | _ => False
      end
  | Call s index => stage_of st q s /\ help_of s fs /\ index < length (items_of_stage st s)
  | Ran s _ | Count s => stage_of st q s /\ help_of s fs
  | Keep s p => stage_of st q s /\ (exists b, b ∈ items_of_stage st s /\ yields b (inr p)) /\
      match fs with Count s' :: _ => s' = s | _ => False end
  | Notify q' => q = Some q' /\ match fs with Help s :: _ => True | _ => False end
  | Wake q' => q = Some q' /\ match fs with Help s :: _ | Spread s _ :: _ => True | _ => False end
  | Wait s | Look s | Find s _ | Asleep s => stage_of st q s /\ match fs with Close s' :: _ => s' = s | _ => False end
  | Close s => stage_of st q s /\ match fs with Finish s' _ _ :: _ => s' = s | _ => False end
  | Finish s entered k => stage_of st q s /\ receiver fs /\ Forall (item_before s) fs /\ (entered = true -> Forall is_inline fs) /\
      forall r, yields (Forks (items_of_stage st s) k) r -> accepts st code fs r
  | Job s => fs = [] /\ q = None /\ is_Some (stages st !! s)
  | Leave => fs = []
  end.

Fixpoint stack_ok st code q fs : Prop :=
  match fs with [] => True | f :: fs => frame_ok st code q f fs /\ stack_ok st code q fs end.

(** Some thread is about to notify the query's sleepers, or to wake them. *)
Definition notifying st (q : nat) : Prop := exists t query fs, threads st !! t = Some {| th_query := query; th_stack := Notify q :: fs |}.
Definition waking st (q : nat) : Prop := exists t query fs, threads st !! t = Some {| th_query := query; th_stack := Wake q :: fs |}.

Definition unfinished st (s : nat) : Prop := exists sg, stages st !! s = Some sg /\ 0 < sg_unfinished sg.
Definition finished st (s : nat) : Prop := exists sg, stages st !! s = Some sg /\ sg_unfinished sg = 0.

(** A thread holds the query's mutex. *)
Definition holds st (t : nat) (q : option nat) : Prop := exists q' qr, q = Some q' /\ queries st !! q' = Some qr /\ qr_lock qr = Some t.

(** Where a thread stands. *)
Definition head_ok st (t : nat) (q : option nat) f : Prop :=
  match f with
  | Wait s => exhausted st s
  | Look s => exhausted st s /\ holds st t q
  | Find s open => exhausted st s /\ holds st t q /\ exists q' qr pre, q = Some q' /\ queries st !! q' = Some qr /\ qr_open qr = pre ++ open /\
      Forall (exhausted st) pre /\ (unfinished st s \/ notifying st q')
  | Asleep s => exhausted st s /\ exists q' qr, q = Some q' /\ queries st !! q' = Some qr /\
      (waking st q' \/ Forall (exhausted st) (qr_open qr) /\ (unfinished st s \/ notifying st q'))
  | Close s | Finish s _ _ => finished st s
  | Ran _ _ | Inline _ _ _ => False
  | _ => True
  end.

(** An item under way, or its panic about to be kept. *)
Definition under_way st (s index : nat) : Prop :=
  exists t th, threads st !! t = Some th /\ (Call s index ∈ th_stack th \/ Ran s index ∈ th_stack th).
Definition keeping st (s : nat) : Prop := exists t query p fs, threads st !! t = Some {| th_query := query; th_stack := Keep s p :: fs |}.

(** A stage: what it counts, and what its items have left. *)
Record stage_ok st (s : nat) sg : Prop := {
  stage_len : sg_len sg = length (sg_items sg);
  stage_slots : length (sg_slots sg) = length (sg_items sg);
  stage_query : is_Some (queries st !! sg_query sg);
  stage_count : sg_unfinished sg = (sg_len sg - Nat.min (sg_next sg) (sg_len sg)) + pending st s;
  stage_ended : sg_alive sg = false -> sg_unfinished sg = 0;
  stage_panic p : sg_panic sg = Some p -> exists b, b ∈ sg_items sg /\ yields b (inr p);
  stage_results index v : sg_slots sg !! index = Some (Some v) -> exists b, sg_items sg !! index = Some b /\ yields b (inl v);
  stage_claimed index : index < sg_len sg -> index < sg_next sg -> sg_alive sg = true ->
    (exists v, sg_slots sg !! index = Some (Some v)) \/ under_way st s index \/ is_Some (sg_panic sg) \/ keeping st s;
}.

(** A thread with a query's mutex. *)
Definition looking st (q t : nat) : Prop := exists s fs, threads st !! t = Some {| th_query := Some q; th_stack := Look s :: fs |} \/
  exists open, threads st !! t = Some {| th_query := Some q; th_stack := Find s open :: fs |}.

(** Every thread, stage and query, from callers with [codes]. *)
Record invariant (codes : list (body V P)) st : Prop := {
  inv_stacks t th : threads st !! t = Some th -> stack_ok st (codes !! t) (th_query th) (th_stack th);
  inv_heads t q f fs : threads st !! t = Some {| th_query := q; th_stack := f :: fs |} -> head_ok st t q f;
  inv_stages s sg : stages st !! s = Some sg -> stage_ok st s sg;
  inv_owner s sg : stages st !! s = Some sg -> total (owner_frame s) st = if sg_alive sg then 1 else 0;
  inv_open q qr s : queries st !! q = Some qr -> s ∈ qr_open qr -> stage_of st (Some q) s;
  inv_locks q qr t : queries st !! q = Some qr -> qr_lock qr = Some t -> looking st q t;
  inv_queries t th q : threads st !! t = Some th -> th_query th = Some q -> is_Some (queries st !! q);
  inv_callers : length codes <= length (threads st);
}.

(** ** What steps leave in place *)

(** Stages keep their items and their query, and claim only more. *)
Definition grows st st' : Prop := forall s sg, stages st !! s = Some sg ->
  exists sg', stages st' !! s = Some sg' /\ sg_items sg' = sg_items sg /\ sg_query sg' = sg_query sg /\ sg_len sg' = sg_len sg /\ sg_next sg <= sg_next sg'.

Lemma grows_same st st' : stages st' = stages st -> grows st st'.
Proof. intros E s sg H. exists sg. rewrite E. auto. Qed.

Lemma grows_put st s sg sg' : stages st !! s = Some sg -> sg_items sg' = sg_items sg -> sg_query sg' = sg_query sg -> sg_len sg' = sg_len sg ->
  sg_next sg <= sg_next sg' -> forall st', stages st' = <[s := sg']> (stages st) -> grows st st'.
Proof.
  intros Es H1 H2 H3 H4 st' E s1 sg1 Hs1. rewrite E. destruct (decide (s1 = s)) as [->|Hne].
  - rewrite list_lookup_insert_eq by (by eapply lookup_lt_Some). exists sg'. rewrite Es in Hs1. injection Hs1 as ->. auto.
  - rewrite list_lookup_insert_ne by done. exists sg1. auto.
Qed.

Lemma grows_app st st' l : stages st' = stages st ++ l -> grows st st'.
Proof. intros E s sg H. exists sg. rewrite E, lookup_app_l by (by eapply lookup_lt_Some). auto. Qed.

Lemma stage_of_grows st st' q s : grows st st' -> stage_of st q s -> stage_of st' q s.
Proof. intros Hg (sg & Es & Hq). destruct (Hg s sg Es) as (sg' & Es' & _ & Hq' & _). exists sg'. split; [done|]. by rewrite Hq'. Qed.

Lemma exhausted_grows st st' s : grows st st' -> exhausted st s -> exhausted st' s.
Proof. intros Hg (sg & Es & Hl). destruct (Hg s sg Es) as (sg' & Es' & _ & _ & H1 & H2). exists sg'. split; [done|]. lia. Qed.

Lemma items_grows st st' s index b : grows st st' -> items_of_stage st s !! index = Some b -> items_of_stage st' s !! index = Some b.
Proof.
  intros Hg. unfold items_of_stage. destruct (stages st !! s) as [sg|] eqn:Es; [|done]. destruct (Hg s sg Es) as (sg' & -> & E & _).
  cbn. by rewrite E.
Qed.

Lemma items_same st st' q s : grows st st' -> stage_of st q s -> items_of_stage st' s = items_of_stage st s.
Proof. intros Hg (sg & Es & _). unfold items_of_stage. rewrite Es. destruct (Hg s sg Es) as (sg' & -> & E & _). done. Qed.

Lemma accepts_grows st st' code fs r : grows st st' -> accepts st code fs r -> accepts st' code fs r.
Proof.
  intros Hg. revert r. induction fs as [|f fs IH]; intros r; [done|]. destruct f; cbn; try done.
  - destruct r; [|apply IH]. intros H r' Hr. by apply IH, H.
  - intros (b & Hb & Hy). exists b. split; [by eapply items_grows|done].
Qed.

Lemma frame_ok_grows st st' code q f fs : grows st st' -> frame_ok st code q f fs -> frame_ok st' code q f fs.
Proof.
  intros Hg. destruct f; cbn; intros H; try done.
  all: repeat match goal with H : _ /\ _ |- _ => destruct H end; repeat split; try done; try (by eapply stage_of_grows).
  - intros r Hr. eapply accepts_grows; [done|]. auto.
  - destruct fs as [|[] [|]]; try done; naive_solver eauto using exhausted_grows.
  - erewrite items_same by done. done.
  - erewrite items_same by done. done.
  - intros r. erewrite items_same by done. intros Hr. eapply accepts_grows; [done|]. auto.
  - destruct H1 as [sg Es]. destruct (Hg _ _ Es) as (sg' & -> & _). by eexists.
Qed.

Lemma stack_ok_grows st st' code q fs : grows st st' -> stack_ok st code q fs -> stack_ok st' code q fs.
Proof. intros Hg. induction fs as [|f fs IH]; [done|]. intros [H1 H2]. split; [by eapply frame_ok_grows|by apply IH]. Qed.

Lemma stack_ok_awake st code q' th : stack_ok st code (th_query th) (th_stack th) ->
  stack_ok st code (th_query (awake q' th)) (th_stack (awake q' th)).
Proof. destruct th as [q [|[] fs]]; cbn; try done. case_decide; cbn; naive_solver. Qed.

(** Beneath what only a caller's code runs there are no stages. *)
Lemma stack_ok_query st code q q' fs : Forall is_inline fs -> stack_ok st code q fs -> stack_ok st code q' fs.
Proof. induction 1 as [|f fs Hf _ IH]; [done|]. intros [H1 H2]. split; [by destruct f|by apply IH]. Qed.

Lemma receiver_inline st code fs : receiver fs -> stack_ok st code None fs -> Forall is_inline fs.
Proof.
  induction fs as [|f fs IH]; [by constructor|]. intros Hr [Hf Hs]. destruct f; try done.
  - constructor; [done|]. by apply IH.
  - destruct Hf as ((sg & _ & ?) & _). done.
Qed.

(** The stages of a stack are those there are. *)
Lemma item_before_fresh st code q fs : stack_ok st code q fs -> Forall (item_before (length (stages st))) fs.
Proof.
  induction fs as [|f fs IH]; [by constructor|]. intros [Hf Hs]. constructor; [|by apply IH].
  destruct f; cbn; try done; destruct Hf as ((sg & Es & _) & _); by eapply lookup_lt_Some.
Qed.


(** The cases of a step: the frame, and the branch its code takes. *)
Ltac step_cases H :=
  unfold thread_step in H;
  match type of H with match threads ?st !! ?t with _ => _ end = _ =>
    let E := fresh "Et" in let q := fresh "q" in let f := fresh "f" in let fs := fresh "fs" in
    destruct (threads st !! t) as [[q [|f fs]]|] eqn:E; [discriminate H| |discriminate H];
    destruct f; try discriminate H end;
  unfold on_stage, deliver, run_fork, spread_step, reserve_step, claim_step, call_step, keep_first, count_step, open_step, close_step,
    notify_step, wake_step, wait_step, look_step, find_step, finish_step, locked, unlock, go in H;
  repeat (case_match; try discriminate H); injection H as H;
  let Hths := fresh "Hths" in let Hsts := fresh "Hsts" in let Hqs := fresh "Hqs" in
  pose proof (f_equal threads H) as Hths; pose proof (f_equal stages H) as Hsts; pose proof (f_equal queries H) as Hqs;
  cbn [threads stages queries put_thread put_stage put_query spawn] in Hths, Hsts, Hqs; symmetry in Hths, Hsts, Hqs; clear H; subst.

Lemma step_grows pool t st st' : thread_step pool t st = Next st' -> grows st st'.
Proof.
  intros H. step_cases H.
  all: first [by apply grows_same | eapply grows_put; [eassumption|..|eassumption]; cbn; lia || reflexivity | by eapply grows_app].
Qed.

(** The threads after a step of [t]: its own, the others, perhaps awoken, and perhaps
    a job that waits for a thread. *)
Definition moved st st' (t : nat) (new : Thread V P) : Prop := forall t' th', threads st' !! t' = Some th' ->
  (t' = t /\ th' = new) \/
  (t' <> t /\ exists th, threads st !! t' = Some th /\ (th' = th \/ exists q, th' = awake q th)) \/
  (t' <> t /\ length (threads st) <= t' /\ exists s, th' = {| th_query := None; th_stack := [Job s] |} /\ is_Some (stages st' !! s)).

Lemma moved_put st st' t new : threads st' = <[t := new]> (threads st) -> moved st st' t new.
Proof.
  intros E t' th'. rewrite E. intros H%list_lookup_insert_Some. destruct H as [(-> & -> & _)|(Hne & H)]; [by left|].
  right; left. split; [done|]. eauto.
Qed.

Lemma moved_spawn st st' t new s : t < length (threads st) -> is_Some (stages st' !! s) ->
  threads st' = <[t := new]> (threads st ++ [{| th_query := None; th_stack := [Job s] |}]) -> moved st st' t new.
Proof.
  intros Ht Hs E t' th'. rewrite E. intros H%list_lookup_insert_Some. destruct H as [(-> & -> & _)|(Hne & H)]; [by left|].
  right. apply lookup_app_Some in H as [H|[Hl H]]; [left; eauto|right]. apply list_lookup_singleton_Some in H as [_ <-]. eauto.
Qed.

Lemma moved_wake st st' t new q : threads st' = <[t := new]> (awake q <$> threads st) -> moved st st' t new.
Proof.
  intros E t' th'. rewrite E. intros H%list_lookup_insert_Some. destruct H as [(-> & -> & _)|(Hne & H)]; [by left|].
  right; left. split; [done|]. rewrite list_lookup_fmap in H. apply fmap_Some in H as (th & H & ->). eauto.
Qed.

(** What an item yields with the ones after it. *)
Lemma rest_first b rest k v r : yields b (inl v) -> rest_yields [v] rest k r -> yields (Forks (b :: rest) k) r.
Proof.
  intros Hb [(vs & Hvs & Hk)|(b' & p & Hin & Hp & ->)]; [by apply (yields_forks _ _ (v :: vs)); [constructor|]|].
  apply (yields_panic _ _ b'); [by right|done].
Qed.

Lemma rest_next vs b rest k v r : yields b (inl v) -> rest_yields (vs ++ [v]) rest k r -> rest_yields vs (b :: rest) k r.
Proof.
  intros Hb [(vs' & Hvs & Hk)|(b' & p & Hin & Hp & ->)].
  - left. exists (v :: vs'). split; [by constructor|]. by rewrite <- app_assoc in Hk.
  - right. exists b', p. split; [by right|done].
Qed.

(** The calls of a fork just begun. *)
Lemma fork_stack st code q s entered k fs : stage_of st (Some q) s -> receiver fs -> Forall (item_before s) fs ->
  (entered = true -> Forall is_inline fs) -> (forall r, yields (Forks (items_of_stage st s) k) r -> accepts st code fs r) ->
  stack_ok st code (Some q) fs ->
  stack_ok st code (Some q) (Opening s :: Spread s 2 :: Help s :: Help s :: Wait s :: Close s :: Finish s entered k :: fs).
Proof. intros. cbn. auto 20. Qed.

Lemma new_stage st st' sg : stages st' = stages st ++ [sg] ->
  stage_of st' (Some (sg_query sg)) (length (stages st)) /\ items_of_stage st' (length (stages st)) = sg_items sg.
Proof.
  intros E. assert (El : stages st' !! length (stages st) = Some sg) by (rewrite E; apply list_lookup_middle; done).
  split; [by exists sg|]. unfold items_of_stage. by rewrite El.
Qed.

Lemma all_results (slots : list (option V)) vs : mapM id slots = Some vs -> slots = Some <$> vs.
Proof. intros H%mapM_Some. induction H; cbn; [done|]. by f_equal. Qed.

Lemma grows_query st st' q s sg : grows st st' -> stage_of st' q s -> stages st !! s = Some sg -> q = Some (sg_query sg).
Proof. intros Hg (sg' & Es' & ->) Es. destruct (Hg s sg Es) as (sg2 & E2 & _ & Hq & _). rewrite Es' in E2. injection E2 as ->. by rewrite Hq. Qed.

Lemma grows_items st st' s sg : grows st st' -> stages st !! s = Some sg -> items_of_stage st' s = sg_items sg.
Proof. intros Hg Es. destruct (Hg s sg Es) as (sg' & E & Hi & _). unfold items_of_stage. by rewrite E. Qed.

(** Slots that are all filled hold what the items yield. *)
Lemma slots_results st s sg vs : stage_ok st s sg -> sg_slots sg = Some <$> vs -> Forall2 (fun b v => yields b (inl v)) (sg_items sg) vs.
Proof.
  intros Hs E. apply Forall2_same_length_lookup_2; [rewrite <- (stage_slots _ _ _ Hs), E; by rewrite length_fmap|].
  intros i b v Hb Hv. destruct (stage_results _ _ _ Hs i v) as (b' & Hb' & Hy); [by rewrite E, list_lookup_fmap, Hv|]. congruence.
Qed.

Lemma step_new codes pool t st st' : invariant codes st -> thread_step pool t st = Next st' ->
  exists new, moved st st' t new /\ stack_ok st' (codes !! t) (th_query new) (th_stack new).
Proof.
  intros Hi H. pose proof (step_grows _ _ _ _ H) as Hg.
  step_cases H; pose proof (inv_stacks _ _ Hi t _ Et) as Hst; pose proof (inv_heads _ _ Hi t _ _ _ Et) as Hhd; eexists.
  all: split; [first [by apply moved_put | by eapply moved_wake | eapply moved_spawn; [by eapply lookup_lt_Some|rewrite Hsts; eexists; apply list_lookup_insert_eq; by eapply lookup_lt_Some|done]]|].
  all: try (eapply stack_ok_grows in Hst; [|exact Hg]); cbn [th_query th_stack stack_ok] in *.
  all: cbn [frame_ok] in *; try (destruct_and?; split_and?; solve [done | auto]); try (by destruct Hst as [-> _]).
  - destruct Hst as ([_ Hb] & Hr & Hs). split_and!; [done| |done]. intros r Hy. specialize (Hb (inl v) (yields_ret v)). cbn in Hb. apply Hb.
    left. exists []. split; [constructor|]. by rewrite app_nil_r.
  - destruct Hst as ([_ Hb] & Hr & Hs). split_and!; [done| |done|done]. intros r Hy. specialize (Hb (inl v) (yields_ret v)). cbn in Hb |- *.
    destruct r as [v1|p]; [intros r' Hr'; apply Hb; by eapply rest_next|]. apply Hb. right. exists b0, p. split_and!; [by left|done|done].
  - destruct Hst as ([_ Hb] & Hr & Hs). split_and!; [done| |done]. intros r Hy. inversion Hy; subst. apply (Hb (inr p) (yields_raise p)).
  - destruct Hst as ([_ Hb] & Hr & Hs). split_and!; [done| |done]. intros r Hy. inversion Hy; subst. apply (Hb (inr p) (yields_raise p)).
  - destruct Hst as ([_ Hb] & (Hq & Hh) & Hs). split_and!; try done. destruct (Hb (inr p) (yields_raise p)) as (b & Hin & Hy).
    exists b. split; [by eapply list_elem_of_lookup_2|done].
  - destruct Hst as ([Hr Hb] & Hs). split_and!; [done| |done]. intros r Hy. apply Hb. by apply (yields_forks _ _ []).
  - destruct Hst as ([Hr Hb] & Hs). split_and!; [done| |done|done]. intros [v|p] Hy; cbn.
    + intros r' Hr'. apply Hb. by eapply rest_first.
    + apply Hb. apply (yields_panic _ _ b0); [by left|done].
  - destruct Hst as ([Hr Hb] & Hs). destruct (new_stage st st' _ Hsts) as [Hs1 Hs2]. cbn [default] in Hs1. apply fork_stack; try done.
    + eapply item_before_fresh. exact (proj2 (inv_stacks _ _ Hi t _ Et)).
    + by rewrite Hs2.
  - destruct Hst as ([Hr Hb] & Hs). destruct (new_stage st st' _ Hsts) as [Hs1 Hs2]. cbn [default] in Hs1.
    pose proof (receiver_inline _ _ _ Hr Hs) as Hin. apply fork_stack; try done.
    + eapply item_before_fresh. exact (proj2 (inv_stacks _ _ Hi t _ Et)).
    + by rewrite Hs2.
    + by eapply stack_ok_query.
  - destruct Hst as ((Hq & Hf) & Hs). split_and!; [by eapply grows_query|by destruct fs as [|[] ?]|done].
  - destruct Hst as ((Hq & Hf) & Hs). split_and!; try done. erewrite grows_items by done.
    rewrite <- (stage_len _ _ _ (inv_stages _ _ Hi _ _ H0)). match goal with E : (_ <=? _) = false |- _ => by apply Nat.leb_gt in E end.
  - destruct Hst as ((Hq & Hh & Hlt) & Hs). split_and!; try done. intros r Hy. exists b. by erewrite grows_items.
  - destruct Hst as ((Hq & Hf) & Hs). split_and!; [by eapply grows_query|by destruct fs as [|[] ?]|done].
  - destruct Hst as ((Hq & Hf) & Hs). split_and!; [done|by destruct fs as [|[] ?]|done].
  - destruct Hst as ((Hq & Hf) & Hs), Hhd as (He & _ & q' & qr & pre & -> & Eq & Eo & _). split_and!; try done.
    + eapply stage_of_grows; [done|]. apply (inv_open _ _ Hi q' qr); [done|]. rewrite Eo. apply elem_of_app; right; left.
    + right. by eapply exhausted_grows.
  - destruct Hst as ((Hq & Hf) & Hs), Hhd as (He & _ & q' & qr & pre & -> & Eq & Eo & _). split_and!; try done.
    + eapply stage_of_grows; [done|]. apply (inv_open _ _ Hi q' qr); [done|]. rewrite Eo. apply elem_of_app; right; left.
    + right. by eapply exhausted_grows.
  - destruct Hst as ((Hq & Hr & Hb & Hin & Hacc) & Hs). split_and!; [done| |by eapply stack_ok_query; [apply Hin|]].
    intros r Hy. inversion Hy; subst. apply Hacc. erewrite grows_items by done.
    destruct (stage_panic _ _ _ (inv_stages _ _ Hi _ _ H0) p) as (b & Hb' & Hy'); [done|]. by eapply yields_panic.
  - destruct Hst as ((Hq & Hr & Hb & Hin & Hacc) & Hs). split_and!; [done| |done].
    intros r Hy. inversion Hy; subst. apply Hacc. erewrite grows_items by done.
    destruct (stage_panic _ _ _ (inv_stages _ _ Hi _ _ H0) p) as (b & Hb' & Hy'); [done|]. by eapply yields_panic.
  - destruct Hst as ((Hq & Hr & Hb & Hin & Hacc) & Hs). split_and!; [done| |by eapply stack_ok_query; [apply Hin|]].
    intros r Hy. apply Hacc. erewrite grows_items by done. eapply yields_forks; [|done].
    by eapply slots_results, all_results; [by apply (inv_stages _ _ Hi)|].
  - destruct Hst as ((Hq & Hr & Hb & Hin & Hacc) & Hs). split_and!; [done| |done].
    intros r Hy. apply Hacc. erewrite grows_items by done. eapply yields_forks; [|done].
    by eapply slots_results, all_results; [by apply (inv_stages _ _ Hi)|].
  - assert (stage_of st' (Some (sg_query s0)) s).
    { eapply stage_of_grows; [done|]. by exists s0. } naive_solver.
Qed.

Lemma step_stacks codes pool t st st' : invariant codes st -> thread_step pool t st = Next st' ->
  forall t' th, threads st' !! t' = Some th -> stack_ok st' (codes !! t') (th_query th) (th_stack th).
Proof.
  intros Hi H t' th Ht'. destruct (step_new codes pool t st st' Hi H) as (new & Hm & Hnew).
  pose proof (step_grows _ _ _ _ H) as Hg.
  destruct (Hm t' th Ht') as [[-> ->]|[(Hne & th0 & E & Hth)|(Hne & Hl & s & -> & Hs)]]; [done| |cbn; auto].
  pose proof (stack_ok_grows _ _ _ _ _ Hg (inv_stacks _ _ Hi t' th0 E)) as Hok.
  destruct Hth as [->|[q ->]]; [done|]. by apply stack_ok_awake.
Qed.

(** ** Items counted *)

Lemma pending_in_stage st code q fs s : stack_ok st code q fs -> 0 < count_in (pending_frame s) fs -> stage_of st q s.
Proof.
  induction fs as [|f fs IH]; cbn; [lia|]. intros [Hf Hs]. destruct (pending_frame s f) eqn:E; [|by apply IH].
  destruct f; cbn in E, Hf; try done; apply bool_decide_eq_true in E; subst; naive_solver.
Qed.

Lemma sum_insert (l : list nat) i x y : l !! i = Some x -> sum_list (<[i := y]> l) + x = sum_list l + y.
Proof.
  revert i. induction l as [|z l IH]; intros [|i] H; [done|done|injection H as ->; cbn; lia|]. specialize (IH i H).
  change (z + sum_list (<[i := y]> l) + x = z + sum_list l + y). lia.
Qed.

Lemma owner_in_stage st code q fs s : stack_ok st code q fs -> 0 < count_in (owner_frame s) fs -> is_Some (stages st !! s).
Proof.
  induction fs as [|f fs IH]; cbn; [lia|]. intros [Hf Hs]. destruct (owner_frame s f) eqn:E; [|by apply IH].
  destruct f; cbn in E, Hf; try done. apply bool_decide_eq_true in E; subst. destruct Hf as ((sg & Es & _) & _). by eexists.
Qed.

(** Frames that going to sleep, waking and spawning leave as many. *)
Definition resting (p : frame V P -> bool) : Prop := forall s, p (Asleep s) = false /\ p (Wait s) = false /\ p (Job s) = false.

Lemma pending_resting s : resting (pending_frame s).
Proof. done. Qed.
Lemma owner_resting s : resting (owner_frame s).
Proof. done. Qed.

Lemma total_put p st st' t th new : threads st !! t = Some th -> threads st' = <[t := new]> (threads st) ->
  total p st' + count_in p (th_stack th) = total p st + count_in p (th_stack new).
Proof.
  intros Et E. unfold total. rewrite E, list_fmap_insert. apply sum_insert. by rewrite list_lookup_fmap, Et.
Qed.

Lemma count_awake p q th : resting p -> count_in p (th_stack (awake q th)) = count_in p (th_stack th).
Proof. intros Hp. destruct th as [q' [|[] fs]]; try done. cbn. case_decide; [|done]. cbn. destruct (Hp s) as (-> & -> & _). done. Qed.

Lemma total_spawn p st st' t th new s0 : resting p -> threads st !! t = Some th ->
  threads st' = <[t := new]> (threads st ++ [{| th_query := None; th_stack := [Job s0] |}]) ->
  total p st' + count_in p (th_stack th) = total p st + count_in p (th_stack new).
Proof.
  intros Hr Et E. assert (Hp : total p {| threads := threads st ++ [{| th_query := None; th_stack := [Job s0] |}]; stages := []; queries := [] |} =
    total p st) by (unfold total; cbn [threads]; rewrite fmap_app, sum_list_with_app; cbn; destruct (Hr s0) as (_ & _ & ->); lia).
  rewrite <- Hp. eapply total_put; [|exact E]. cbn. by apply lookup_app_l_Some.
Qed.

Lemma total_wake p st st' t th new q : resting p -> threads st !! t = Some th -> awake q th = th -> threads st' = <[t := new]> (awake q <$> threads st) ->
  total p st' + count_in p (th_stack th) = total p st + count_in p (th_stack new).
Proof.
  intros Hr Et Ea E. assert (Hp : total p {| threads := awake q <$> threads st; stages := []; queries := [] |} = total p st).
  { unfold total; cbn [threads]. rewrite <- list_fmap_compose. f_equal. apply list_fmap_ext. intros i x _. by apply count_awake. }
  rewrite <- Hp. eapply total_put; [|exact E]. cbn. rewrite list_lookup_fmap, Et. cbn. by rewrite Ea.
Qed.

Lemma total_fresh p codes st s : invariant codes st ->
  (forall code q fs, stack_ok st code q fs -> 0 < count_in p fs -> is_Some (stages st !! s)) -> stages st !! s = None -> total p st = 0.
Proof.
  intros Hi Hp Hs. unfold total. assert (H : forall th, th ∈ threads st -> count_in p (th_stack th) = 0).
  { intros th [t Ht]%list_elem_of_lookup. destruct (count_in p (th_stack th)) eqn:E; [done|].
    destruct (Hp _ _ _ (inv_stacks _ _ Hi t th Ht)) as [sg E']; [lia|congruence]. }
  induction (threads st) as [|th l IH]; [done|]. cbn. rewrite (H th) by left. apply IH. intros. apply H. by right.
Qed.

Lemma pending_fresh codes st s : invariant codes st -> stages st !! s = None -> pending st s = 0.
Proof.
  intros Hi. eapply total_fresh; [done|]. intros code q fs Hs Hp. destruct (pending_in_stage st code q fs s Hs Hp) as (sg & E & _). by eexists.
Qed.

Lemma owner_fresh codes st s : invariant codes st -> stages st !! s = None -> total (owner_frame s) st = 0.
Proof. intros Hi. eapply total_fresh; [done|]. intros code q fs. apply owner_in_stage. Qed.

(** What a step adds to the frames of a kind. *)
Ltac step_total p Et Hths Hp :=
  first [pose proof (total_put p _ _ _ _ _ Et Hths) as Hp | pose proof (total_wake p _ _ _ _ _ _ ltac:(done) Et eq_refl Hths) as Hp |
    pose proof (total_spawn p _ _ _ _ _ _ ltac:(done) Et Hths) as Hp]; cbn in Hp.

Lemma step_count codes pool t st st' : invariant codes st -> thread_step pool t st = Next st' ->
  forall s sg, stages st' !! s = Some sg -> sg_unfinished sg = (sg_len sg - Nat.min (sg_next sg) (sg_len sg)) + pending st' s.
Proof.
  intros Hi H s1 sg1 Hs1. pose proof (fun sg E => stage_count _ _ _ (inv_stages _ _ Hi s1 sg E)) as Hc.
  pose proof (pending_fresh _ _ s1 Hi) as Hfresh.
  step_cases H; pose proof (inv_stacks _ _ Hi t _ Et) as Hst; cbn in Hst.
  all: step_total (pending_frame s1) Et Hths Hp; change (total (pending_frame s1)) with (fun st => pending st s1) in Hp; cbn beta in Hp.
  all: rewrite Hsts in Hs1; clear Hths Hsts Hqs.
  all: try (apply list_lookup_insert_Some in Hs1 as [(-> & <- & Hlt)|(Hne & Hs1)]).
  all: try (apply lookup_app_Some in Hs1 as [Hs1|[Hge [Hz <-]%list_lookup_singleton_Some]]; [|rewrite Hfresh in Hp by by apply lookup_ge_None]).
  all: repeat match goal with H : context [bool_decide (?a = ?b)] |- _ => destruct (bool_decide_reflect (a = b)); subst end.
  all: repeat match goal with
    | H : (_ <=? _) = false |- _ => apply Nat.leb_gt in H
    | H : (_ <=? _) = true |- _ => apply Nat.leb_le in H end.
  all: try (specialize (Hc _ Hs1)).
  all: try match goal with E : stages _ !! _ = Some _ |- _ => pose proof (Hc _ E) end.
  all: cbn [sg_unfinished sg_len sg_next with_slot with_next with_unspawned with_panic with_unfinished ended] in *.
  all: try lia; try congruence.
  all: destruct Hst as ((-> & _) & _); cbn in Hp; lia.
Qed.

(** ** What items leave *)

(** The threads a step leaves: its own, and the others, perhaps awoken. *)
Definition kept st st' (t : nat) (new : Thread V P) : Prop :=
  threads st' !! t = Some new /\
  forall t' th, t' <> t -> threads st !! t' = Some th -> exists th', threads st' !! t' = Some th' /\ (th' = th \/ exists q, th' = awake q th).

Lemma kept_put st st' t new : t < length (threads st) -> threads st' = <[t := new]> (threads st) -> kept st st' t new.
Proof.
  intros Hl E. split; rewrite E; [by apply list_lookup_insert_eq|]. intros t' th Hne Ht. rewrite list_lookup_insert_ne by done. eauto.
Qed.
Lemma kept_spawn st st' t new job : t < length (threads st) -> threads st' = <[t := new]> (threads st ++ [job]) -> kept st st' t new.
Proof.
  intros Hl E. split; rewrite E; [apply list_lookup_insert_eq; rewrite length_app; lia|]. intros t' th Hne Ht.
  rewrite list_lookup_insert_ne by done. rewrite lookup_app_l by (by eapply lookup_lt_Some). eauto.
Qed.
Lemma kept_wake st st' t new q : t < length (threads st) -> threads st' = <[t := new]> (awake q <$> threads st) -> kept st st' t new.
Proof.
  intros Hl E. split; rewrite E; [apply list_lookup_insert_eq; by rewrite length_fmap|]. intros t' th Hne Ht.
  rewrite list_lookup_insert_ne by done. rewrite list_lookup_fmap, Ht. cbn. eauto.
Qed.

(** A frame no one waits at stays where it is. *)
Lemma awake_in q th f : (forall s, f <> Asleep s) -> f ∈ th_stack th -> f ∈ th_stack (awake q th).
Proof.
  intros Hf. destruct th as [q' [|[] fs]]; try done. cbn. case_decide; [|done]. cbn. intros [->|Hin]%elem_of_cons; [|by right].
  by destruct (Hf s).
Qed.

Lemma under_way_kept st st' t query fs new s index :
  threads st !! t = Some {| th_query := query; th_stack := fs |} -> kept st st' t new -> under_way st s index ->
  under_way st' s index \/ Call s index ∈ fs \/ Ran s index ∈ fs.
Proof.
  intros Et [_ Hk] (t' & th & Ht' & Hin). destruct (decide (t' = t)) as [->|Hne]; [right; rewrite Et in Ht'; by injection Ht' as <-|left].
  destruct (Hk t' th Hne Ht') as (th' & Eth' & [->|[q ->]]); [by exists t', th|].
  exists t', (awake q th). split; [done|]. destruct Hin; [left|right]; by apply awake_in.
Qed.

Lemma under_way_new st st' t new s index : kept st st' t new -> Call s index ∈ th_stack new \/ Ran s index ∈ th_stack new -> under_way st' s index.
Proof. intros [H _] Hin. by exists t, new. Qed.

Lemma keeping_kept st st' t query f fs new s :
  threads st !! t = Some {| th_query := query; th_stack := f :: fs |} -> kept st st' t new -> keeping st s ->
  keeping st' s \/ exists p, f = Keep s p.
Proof.
  intros Et [_ Hk] (t' & q' & p & fs' & Ht'). destruct (decide (t' = t)) as [->|Hne]; [right; rewrite Et in Ht'; injection Ht' as _ -> _; eauto|left].
  destruct (Hk t' _ Hne Ht') as (th' & Eth' & [->|[q ->]]); by exists t', q', p, fs'.
Qed.


(** An item claimed before a step is filled, under way, or its panic kept, after it:
    what is left are the frames the step takes off the stack. *)
Ltac still_claimed Hc Et Hk :=
  let Hf := fresh "Hf" in let Hu := fresh "Hu" in let Hp := fresh "Hp" in let Hkp := fresh "Hkp" in let Hin := fresh "Hin" in
  destruct Hc as [Hf|[Hu|[Hp|Hkp]]];
  [try by left
  |destruct (under_way_kept _ _ _ _ _ _ _ _ Et Hk Hu) as [?|Hin]; [by right; left|];
   try (right; left; eapply under_way_new; [exact Hk|]; cbn [th_stack]; rewrite !elem_of_cons in *; first [tauto|naive_solver])
  |try by right; right; left
  |destruct (keeping_kept _ _ _ _ _ _ _ _ Et Hk Hkp) as [?|[? Hin]]; [by right; right; right|try discriminate Hin]].

Lemma step_claimed codes pool t st st' : invariant codes st -> thread_step pool t st = Next st' ->
  forall s sg index, stages st' !! s = Some sg -> index < sg_len sg -> index < sg_next sg -> sg_alive sg = true ->
  (exists v, sg_slots sg !! index = Some (Some v)) \/ under_way st' s index \/ is_Some (sg_panic sg) \/ keeping st' s.
Proof.
  intros Hi H s1 sg1 index1 Hs1 Hlen Hnext Halive.
  pose proof (fun sg E => stage_claimed _ _ _ (inv_stages _ _ Hi s1 sg E) index1) as Hc.
  step_cases H; (assert (Hlt : t < length (threads st)) by by eapply lookup_lt_Some);
  (first [pose proof (kept_put _ _ _ _ Hlt Hths) as Hk | pose proof (kept_spawn _ _ _ _ _ Hlt Hths) as Hk | pose proof (kept_wake _ _ _ _ _ Hlt Hths) as Hk]);
  clear Hths; pose proof (inv_stacks _ _ Hi t _ Et) as Hst; rewrite Hsts in Hs1.
  all: try (apply list_lookup_insert_Some in Hs1 as [(-> & <- & Hlt')|(Hne & Hs1)]).
  all: try (apply lookup_app_Some in Hs1 as [Hs1|[Hge [Hz <-]%list_lookup_singleton_Some]]).
  all: cbn [sg_unfinished sg_len sg_next sg_slots sg_panic sg_alive with_slot with_next with_unspawned with_panic with_unfinished ended] in *.
  all: try (specialize (Hc _ Hs1)).
  all: try match goal with E : stages _ !! _ = Some _ |- _ => specialize (Hc _ E) end.
  all: try lia; try congruence.
  all: try (still_claimed (Hc Hlen Hnext Halive) Et Hk; fail).
  - destruct Hst as ((_ & Hb) & _). destruct (Hb (inl v) (yields_ret v)) as (b & Hin%lookup_lt_Some & _).
    assert (Hlts : index < length (sg_slots s0)).
    { rewrite (stage_slots _ _ _ (inv_stages _ _ Hi _ _ H3)). unfold items_of_stage in Hin. by rewrite H3 in Hin. }
    destruct (decide (index1 = index)) as [->|Hne]; [left; exists v; by apply list_lookup_insert_eq|].
    still_claimed (Hc Hlen Hnext Halive) Et Hk. left. by rewrite list_lookup_insert_ne.
  - destruct (decide (s1 = s)) as [->|Hne]; [right; right; right; by exists t, q, p, (Count s :: l); apply Hk|].
    still_claimed (Hc Hlen Hnext Halive) Et Hk.
  - assert (index1 < sg_next s0) by (apply Nat.leb_le in H1; lia). still_claimed (Hc Hlen H Halive) Et Hk.
  - destruct (decide (index1 = sg_next s0)) as [->|Hne]; [right; left; eapply under_way_new; [exact Hk|left; by left]|].
    assert (index1 < sg_next s0) by lia. still_claimed (Hc Hlen H Halive) Et Hk.
  - destruct (decide (s1 = s)) as [->|Hne]; [right; right; left; rewrite Hs1 in H0; injection H0 as ->; eauto|].
    still_claimed (Hc Hlen Hnext Halive) Et Hk. congruence.
  - right; right; left. eauto.
  - still_claimed (Hc Hlen Hnext Halive) Et Hk. congruence.
Qed.

Lemma items_of_stage_at st s sg : stages st !! s = Some sg -> items_of_stage st s = sg_items sg.
Proof. unfold items_of_stage. by intros ->. Qed.

Lemma no_results (n : nat) index (v : V) : replicate n None !! index = Some (Some v) -> False.
Proof. intros [H _]%lookup_replicate. done. Qed.

Lemma step_queries pool t st st' q : thread_step pool t st = Next st' -> is_Some (queries st !! q) -> is_Some (queries st' !! q).
Proof.
  intros H Hq. step_cases H; rewrite Hqs; try done; rewrite ?lookup_lt_is_Some, ?length_insert, ?length_app in *; lia.
Qed.

Lemma step_stages codes pool t st st' : invariant codes st -> thread_step pool t st = Next st' ->
  forall s sg, stages st' !! s = Some sg -> stage_ok st' s sg.
Proof.
  intros Hi H s1 sg1 Hs1.
  pose proof (step_count _ _ _ _ _ Hi H _ _ Hs1) as Hcount. pose proof (fun i => step_claimed _ _ _ _ _ Hi H _ _ i Hs1) as Hclaimed.
  pose proof (inv_stages _ _ Hi) as Hok.
  cut (sg_len sg1 = length (sg_items sg1) /\ length (sg_slots sg1) = length (sg_items sg1) /\ is_Some (queries st' !! sg_query sg1) /\
    (sg_alive sg1 = false -> sg_unfinished sg1 = 0) /\ (forall p, sg_panic sg1 = Some p -> exists b, b ∈ sg_items sg1 /\ yields b (inr p)) /\
    (forall index v, sg_slots sg1 !! index = Some (Some v) -> exists b, sg_items sg1 !! index = Some b /\ yields b (inl v))); [intros (?&?&?&?&?&?); constructor; assumption|].
  clear Hcount Hclaimed. pose proof (fun q => step_queries pool t st st' q H) as Hqk.
  step_cases H; pose proof (inv_stacks _ _ Hi t _ Et) as Hst; pose proof (inv_heads _ _ Hi t _ _ _ Et) as Hhd; rewrite Hsts in Hs1.
  all: try (apply list_lookup_insert_Some in Hs1 as [(-> & <- & Hlt')|(Hne & Hs1)]).
  all: try (apply lookup_app_Some in Hs1 as [Hs1|[Hge [Hz <-]%list_lookup_singleton_Some]]).
  all: cbn [sg_unfinished sg_len sg_next sg_slots sg_panic sg_alive sg_items sg_query with_slot with_next with_unspawned with_panic with_unfinished ended] in *.
  all: try (specialize (Hok _ _ Hs1) as [? ? ? ? ? ? ? ?]); try match goal with E : stages _ !! _ = Some _ |- _ => specialize (Hok _ _ E) as [? ? ? ? ? ? ? ?] end.
  all: try (split_and!; try assumption; by apply Hqk).
  - destruct Hst as ((_ & Hb) & _). destruct (Hb (inl v) (yields_ret v)) as (b & Hin & Hy).
    rewrite (items_of_stage_at _ _ _ H3) in Hin. split_and!; try done; [by rewrite length_insert|by apply Hqk|].
    intros i w [(-> & [= <-] & _)|(_ & Hw)]%list_lookup_insert_Some; [by exists b|by eapply stage_results0].
  - split_and!; try done; [by rewrite length_replicate|by eapply Hqk, (inv_queries _ _ Hi t)|]. by intros ? ? ?%no_results.
  - split_and!; try done; [by rewrite length_replicate|rewrite Hqs; apply lookup_lt_is_Some; rewrite length_app; cbn; lia|].
    by intros ? ? ?%no_results.
  - destruct Hst as ((_ & Hb & _) & _). rewrite (items_of_stage_at _ _ _ H0) in Hb. split_and!; try done; [by apply Hqk|].
    by intros p' [= <-].
  - split_and!; try done; [by apply Hqk|]. intros E. specialize (stage_ended0 E). congruence.
  - split_and!; try done; [by apply Hqk|]. intros E. specialize (stage_ended0 E). congruence.
  - destruct Hhd as (sg & E & Hf). split_and!; try done; [by apply Hqk|congruence].
  - destruct Hhd as (sg & E & Hf). split_and!; try done; [by apply Hqk|congruence].
  - destruct Hhd as (sg & E & Hf). split_and!; try done; [by apply Hqk|congruence].
  - destruct Hhd as (sg & E & Hf). split_and!; try done; [by apply Hqk|congruence].
Qed.

(** ** Locks, and who sleeps *)

(** The threads after the step at hand. *)
Ltac step_kept st t Et Hths Hk :=
  let Hlt := fresh "Hlt" in assert (Hlt : t < length (threads st)) by (by eapply lookup_lt_Some);
  first [pose proof (kept_put _ _ _ _ Hlt Hths) as Hk | pose proof (kept_spawn _ _ _ _ _ Hlt Hths) as Hk | pose proof (kept_wake _ _ _ _ _ Hlt Hths) as Hk];
  clear Hlt.

Lemma kept_same st st' t new t' q f fs : kept st st' t new -> t' <> t -> threads st !! t' = Some {| th_query := q; th_stack := f :: fs |} ->
  (forall s, f <> Asleep s) -> threads st' !! t' = Some {| th_query := q; th_stack := f :: fs |}.
Proof.
  intros [_ Hk] Hne Et Hf. destruct (Hk t' _ Hne Et) as (th' & E & [->|[q' ->]]); [done|]. rewrite E. f_equal.
  destruct f; try done. by destruct (Hf s).
Qed.

Lemma step_finished codes pool t st st' s : invariant codes st -> thread_step pool t st = Next st' -> finished st s -> finished st' s.
Proof.
  intros Hi H (sg & Es & Hf). unfold finished. step_cases H; rewrite Hsts; try (by exists sg).
  all: try (exists sg; rewrite lookup_app_l by (by eapply lookup_lt_Some); done).
  all: match goal with |- context [<[?s0 := _]> _ !! ?s1] => destruct (decide (s1 = s0)) as [->|Hne];
    [eexists; rewrite list_lookup_insert_eq by (by eapply lookup_lt_Some); split; [done|] |exists sg; rewrite list_lookup_insert_ne by done; done] end.
  all: cbn; congruence.
Qed.

(** A thread that goes through the open forks holds their query's mutex. *)
Lemma holder_lock codes st t q f fs s sg : invariant codes st -> threads st !! t = Some {| th_query := q; th_stack := f :: fs |} ->
  f = Look s \/ (exists open, f = Find s open) -> stages st !! s = Some sg ->
  q = Some (sg_query sg) /\ exists qr, queries st !! sg_query sg = Some qr /\ qr_lock qr = Some t.
Proof.
  intros Hi Et Hf Es. pose proof (inv_stacks _ _ Hi t _ Et) as [Hs _]. pose proof (inv_heads _ _ Hi t _ _ _ Et) as Hh.
  assert (Hq : stage_of st q s) by (destruct Hf as [->|[open ->]]; apply Hs).
  assert (Hl : holds st t q) by (destruct Hf as [->|[open ->]]; apply Hh).
  destruct Hq as (sg' & E' & ->). rewrite Es in E'. injection E' as <-. split; [done|]. destruct Hl as (q' & qr & [= <-] & Eq & El). eauto.
Qed.

(** What is held by another thread stays as it is. *)
Lemma step_held codes pool t st st' q qr t' : invariant codes st -> thread_step pool t st = Next st' ->
  queries st !! q = Some qr -> qr_lock qr = Some t' -> t' <> t -> queries st' !! q = Some qr.
Proof.
  intros Hi H Eq El Hne. step_cases H; pose proof (inv_heads _ _ Hi t _ _ _ Et) as Hhd; rewrite Hqs; try done.
  all: try (by rewrite lookup_app_l by (by eapply lookup_lt_Some)).
  all: match goal with |- <[?q0 := _]> _ !! ?q1 = _ => destruct (decide (q1 = q0)) as [->|Hne']; [|by rewrite list_lookup_insert_ne] end.
  all: try congruence.
  all: destruct (holder_lock _ _ _ _ _ _ _ _ Hi Et ltac:(eauto) ltac:(eassumption)) as (_ & qr' & E1 & E2); congruence.
Qed.

Lemma step_open codes pool t st st' q qr : invariant codes st -> thread_step pool t st = Next st' -> queries st !! q = Some qr ->
  exists qr', queries st' !! q = Some qr' /\ (waking st' q \/ forall s, s ∈ qr_open qr' -> s ∈ qr_open qr).
Proof.
  intros Hi H Eq. step_cases H; step_kept st t Et Hths Hk; rewrite Hqs; try (exists qr; split; [done|by right]).
  all: try (exists qr; rewrite lookup_app_l by (by eapply lookup_lt_Some); split; [done|by right]).
  all: match goal with |- context [<[?q0 := _]> _ !! ?q1] => destruct (decide (q1 = q0)) as [->|Hne];
    [|exists qr; rewrite list_lookup_insert_ne by done; split; [done|by right]] end.
  all: rewrite list_lookup_insert_eq by (by eapply lookup_lt_Some); eexists; (split; [done|]); cbn [qr_open].
  all: repeat match goal with E : queries ?st !! ?q = Some ?a, E' : queries ?st !! ?q = Some ?b |- _ => rewrite E in E'; injection E' as <- end.
  all: try (by right; intros s1 [_ ?]%list_elem_of_filter).
  all: try (by right).
  left. eexists t, _, _. apply Hk.
Qed.

Lemma step_unfinished codes pool t st st' q s : invariant codes st -> thread_step pool t st = Next st' -> stage_of st (Some q) s ->
  unfinished st s -> unfinished st' s \/ notifying st' q.
Proof.
  intros Hi H (sg & Es & [= ->]) (sg1 & Es1 & Hu). rewrite Es in Es1. injection Es1 as <-. unfold unfinished.
  step_cases H; step_kept st t Et Hths Hk; rewrite Hsts; try (left; by exists sg).
  all: try (left; exists sg; rewrite lookup_app_l by (by eapply lookup_lt_Some); done).
  all: match goal with |- context [<[?s0 := _]> _ !! ?s1] => destruct (decide (s1 = s0)) as [->|Hne];
    [|left; exists sg; rewrite list_lookup_insert_ne by done; done] end.
  all: repeat match goal with E : stages ?st !! ?q = Some ?a, E' : stages ?st !! ?q = Some ?b |- _ => rewrite E in E'; injection E' as <- end.
  all: try (right; eexists t, _, _; apply Hk).
  all: left; eexists; rewrite list_lookup_insert_eq by (by eapply lookup_lt_Some); (split; [done|cbn; try done]).
  all: match goal with E : (_ =? 0) = false |- _ => apply Nat.eqb_neq in E; lia end.
Qed.

Lemma step_notifying codes pool t st st' q : invariant codes st -> thread_step pool t st = Next st' -> notifying st q ->
  notifying st' q \/ waking st' q /\ exists qr, queries st !! q = Some qr /\ qr_lock qr = None.
Proof.
  intros Hi H (t' & q' & fs' & Et'). destruct (decide (t' = t)) as [->|Hne].
  - unfold thread_step in H. rewrite Et' in H. unfold notify_step, locked, go in H. repeat (case_match; try discriminate H). injection H as <-.
    right. split; [|eauto]. exists t, q', fs'. cbn. apply list_lookup_insert_eq. by eapply lookup_lt_Some.
  - left. exists t', q', fs'. step_cases H; step_kept st t Et Hths Hk; by apply (kept_same _ _ _ _ _ _ _ _ Hk Hne Et').
Qed.

Lemma step_waking codes pool t st st' q : invariant codes st -> thread_step pool t st = Next st' -> waking st q ->
  waking st' q \/ forall t' s fs, threads st' !! t' <> Some {| th_query := Some q; th_stack := Asleep s :: fs |}.
Proof.
  intros Hi H (t' & q' & fs' & Et'). destruct (decide (t' = t)) as [->|Hne].
  - right. pose proof (inv_stacks _ _ Hi t _ Et') as [[_ Hfs] _]. unfold thread_step in H. rewrite Et' in H. unfold wake_step, go in H. injection H as <-.
    intros t' s fs. cbn. intros [(-> & E & _)|(Hne & E)]%list_lookup_insert_Some; [injection E as -> ->; done|].
    rewrite list_lookup_fmap in E. apply fmap_Some in E as ([q1 fs1] & _ & E). destruct fs1 as [|[] ?]; try discriminate E.
    unfold awake in E. cbn in E. case_decide; congruence.
  - left. exists t', q', fs'. step_cases H; step_kept st t Et Hths Hk; by apply (kept_same _ _ _ _ _ _ _ _ Hk Hne Et').
Qed.

(** A stage whose items or whose last notification are still to come stays so while
    another thread looks. *)
Lemma coming_kept st st' t new query f fs s q : stages st' = stages st -> threads st !! t = Some {| th_query := query; th_stack := f :: fs |} ->
  kept st st' t new -> f <> Notify q -> unfinished st s \/ notifying st q -> unfinished st' s \/ notifying st' q.
Proof.
  intros Hsts Et Hk Hf [(sg & Es & Hu)|(t' & q' & fs' & Et')]; [left; exists sg; by rewrite Hsts|right].
  exists t', q', fs'. destruct (decide (t' = t)) as [->|Hne]; [congruence|]. by apply (kept_same _ _ _ _ _ _ _ _ Hk Hne Et').
Qed.

(** A thread another one's step leaves where it is stands as it stood. *)
Lemma head_kept codes pool t st st' t' q f fs : invariant codes st -> thread_step pool t st = Next st' -> t' <> t ->
  threads st !! t' = Some {| th_query := q; th_stack := f :: fs |} -> threads st' !! t' = Some {| th_query := q; th_stack := f :: fs |} ->
  head_ok st' t' q f.
Proof.
  intros Hi H Hne Et' Es'. pose proof (step_grows _ _ _ _ H) as Hg. pose proof (inv_heads _ _ Hi t' _ _ _ Et') as Hh.
  pose proof (inv_stacks _ _ Hi t' _ Et') as [Hf _].
  assert (Hheld : holds st t' q -> holds st' t' q).
  { intros (q' & qr & -> & Eq & El). exists q', qr. split_and!; try done. by eapply step_held. }
  destruct f; cbn in Hh |- *; try done.
  - by eapply exhausted_grows.
  - destruct Hh as [He Hl]. split; [by eapply exhausted_grows|by apply Hheld].
  - destruct Hh as (He & Hl & q' & qr & pre & -> & Eq & Eo & Hpre & Hu). split_and!; [by eapply exhausted_grows|by apply Hheld|].
    destruct Hl as (q1 & qr1 & [= <-] & E1 & El). rewrite Eq in E1. injection E1 as <-.
    exists q', qr, pre. split_and!; try done; [by eapply step_held|by eapply Forall_impl; [done|]; intros; eapply exhausted_grows|].
    destruct Hu as [Hu|Hn]; [by eapply step_unfinished; [..|apply Hf|]|].
    destruct (step_notifying _ _ _ _ _ _ Hi H Hn) as [?|(_ & qr' & E' & El')]; [by right|]. congruence.
  - destruct Hh as (He & q' & qr & -> & Eq & Hor). split; [by eapply exhausted_grows|].
    destruct (step_open _ _ _ _ _ _ _ Hi H Eq) as (qr' & Eq' & Hopen). exists q', qr'. split_and!; try done.
    destruct Hor as [Hw|[Hex Hu]].
    { destruct (step_waking _ _ _ _ _ _ Hi H Hw) as [?|Hno]; [by left|]. by destruct (Hno t' s fs). }
    destruct Hopen as [?|Hsub]; [by left|].
    assert (Hor : waking st' q' \/ unfinished st' s \/ notifying st' q').
    { destruct Hu as [Hu|Hn]; [right; by eapply step_unfinished; [..|apply Hf|]|].
      destruct (step_notifying _ _ _ _ _ _ Hi H Hn) as [?|[? _]]; auto. }
    destruct Hor as [?|Hor]; [by left|right]. split; [|done]. apply Forall_forall. intros s1 Hs1. rewrite Forall_forall in Hex.
    by eapply exhausted_grows, Hex, Hsub.
  - by eapply step_finished.
  - by eapply step_finished.
Qed.

Lemma awake_cases q1 th q f fs : {| th_query := q; th_stack := f :: fs |} = awake q1 th ->
  th = {| th_query := q; th_stack := f :: fs |} \/ exists s, f = Wait s /\ th = {| th_query := q; th_stack := Asleep s :: fs |}.
Proof.
  destruct th as [q0 [|f0 fs0]]; [intros [=]|]. destruct f0; try (by intros [= -> -> ->]; left). unfold awake; cbn.
  case_decide; intros [= -> -> ->]; [right|left]; eauto.
Qed.

Lemma step_heads codes pool t st st' : invariant codes st -> thread_step pool t st = Next st' ->
  forall t' q f fs, threads st' !! t' = Some {| th_query := q; th_stack := f :: fs |} -> head_ok st' t' q f.
Proof.
  intros Hi H t' q f fs Et'. destruct (step_new codes pool t st st' Hi H) as (new & Hm & _). pose proof (step_grows _ _ _ _ H) as Hg.
  destruct (Hm t' _ Et') as [[-> _]|[(Hne & [q0 fs0] & E0 & Hth)|(Hne & _ & s & [= -> -> ->] & _)]]; [|clear Hm|done].
  2: { destruct Hth as [[= <- <-]|[q1 Ea]]; [by eapply head_kept|].
    apply awake_cases in Ea as [[= -> ->]|(s & -> & [= -> ->])]; [by eapply head_kept|].
    eapply exhausted_grows; [done|]. apply (inv_heads _ _ Hi t' _ _ _ E0). }
  clear Hm.
  step_cases H; pose proof (inv_stacks _ _ Hi t _ Et) as Hst; pose proof (inv_heads _ _ Hi t _ _ _ Et) as Hhd.
  all: step_kept st t Et Hths Hk'; pose proof (proj1 Hk') as Hk; rewrite Hk in Et'; injection Et' as Eq' Es'; try discriminate Es'; subst.
  all: try (injection Es' as <- <-); cbn [th_query th_stack stack_ok frame_ok head_ok help_of] in *; try done.
  all: try (destruct f; cbn; destruct_and?; solve [done | auto]); try (destruct f; cbn; naive_solver).
  - destruct Hst as ((Hq & Hf) & _). destruct f; cbn; try done. destruct Hf as [->|He]; [|by eapply exhausted_grows].
    apply Nat.leb_le in H1. eexists. rewrite Hsts, list_lookup_insert_eq by (by eapply lookup_lt_Some). split; [done|cbn; lia].
  - split; [by eapply exhausted_grows|]. destruct Hst as ((Hq & _) & _). eexists (sg_query s0), _.
    split_and!; [by eapply grows_query; [apply (grows_same st st)|..]|rewrite Hqs; apply list_lookup_insert_eq; by eapply lookup_lt_Some|done].
  - destruct Hst as ((_ & Hf) & _). destruct f; cbn; try done. subst. exists s0. rewrite Hsts. split; [done|]. by apply Nat.eqb_eq.
  - destruct Hst as ((_ & Hf) & _). destruct f; cbn; try done. subst. exists s0. rewrite Hsts. split; [done|]. by apply Nat.eqb_eq.
  - destruct Hhd as [He (q' & qr & -> & Eq & El)], Hst as ((Hq & _) & _).
    assert (q' = sg_query s0) as -> by (by injection (grows_query _ _ _ _ _ (grows_same st st eq_refl) Hq H0)).
    rewrite Eq in H2. injection H2 as ->.
    split_and!; [by eapply exhausted_grows|exists (sg_query s0), q1; rewrite Hqs; done|]. exists (sg_query s0), q1, [].
    split_and!; [done|by rewrite Hqs|done|constructor|]. left. exists s0. rewrite Hsts. split; [done|]. apply Nat.eqb_neq in H1. lia.
  - destruct Hhd as (He & _ & q' & qr & pre & -> & Eq & Eo & Hpre & Hu), Hst as ((Hq & _) & _).
    assert (q' = sg_query s0) as -> by (by injection (grows_query _ _ _ _ _ (grows_same st st eq_refl) Hq H0)).
    match goal with E : queries st !! sg_query s0 = Some _ |- _ => rewrite Eq in E; injection E as <- end. split; [by eapply exhausted_grows|].
    exists (sg_query s0), {| qr_open := qr_open qr; qr_lock := None |}.
    split_and!; [done|rewrite Hqs; apply list_lookup_insert_eq; by eapply lookup_lt_Some|right; cbn].
    rewrite Eo, app_nil_r. split; [by eapply Forall_impl; [done|]; intros; eapply exhausted_grows|].
    by eapply coming_kept.
  - destruct Hhd as (He & (q' & qr & -> & Eq & El) & _), Hst as ((Hq & _) & _).
    pose proof (grows_query _ _ _ _ _ (grows_same st st eq_refl) Hq H0) as [= ->]. congruence.
  - destruct Hhd as (He & Hl & q' & qr & pre & -> & Eq & Eo & Hpre & Hu), Hst as ((Hq & _) & _).
    split_and!; [by eapply exhausted_grows|destruct Hl as (q1 & qr1 & ? & ? & ?); exists q1, qr1; by rewrite Hqs|].
    exists q', qr, (pre ++ [n]). split_and!; [done|by rewrite Hqs|by rewrite <- app_assoc| |by eapply coming_kept].
    apply Forall_app. split; [by eapply Forall_impl; [done|]; intros; eapply exhausted_grows|]. constructor; [|done].
    eapply exhausted_grows; [done|]. eexists. split; [done|]. by apply Nat.ltb_ge.
  - destruct Hst as ((_ & Hf) & _). destruct f; cbn; try done. subst. destruct Hhd as (sg & E & Hfin). exists sg. by rewrite Hsts.
Qed.

Lemma looking_kept st st' t new q t' : kept st st' t new -> t' <> t -> looking st q t' -> looking st' q t'.
Proof.
  intros Hk Hne (s & fs & [E|[open E]]); exists s, fs; [left|right; exists open]; by apply (kept_same _ _ _ _ _ _ _ _ Hk Hne E).
Qed.

Lemma step_locks codes pool t st st' : invariant codes st -> thread_step pool t st = Next st' ->
  forall q qr t', queries st' !! q = Some qr -> qr_lock qr = Some t' -> looking st' q t'.
Proof.
  intros Hi H q1 qr1 t1 Eq1 El1. pose proof (inv_locks _ _ Hi q1) as Hlk.
  step_cases H; step_kept st t Et Hths Hk; rewrite Hqs in Eq1; pose proof (inv_stacks _ _ Hi t _ Et) as Hst.
  all: try (apply list_lookup_insert_Some in Eq1 as [(<- & <- & Hlt')|(Hne & Eq1)]; cbn in El1; try discriminate El1).
  all: try (apply lookup_app_Some in Eq1 as [Eq1|[Hge [Hz <-]%list_lookup_singleton_Some]]; [|discriminate El1]).
  all: try (assert (Hl : looking st q1 t1) by (by eapply Hlk); destruct (decide (t1 = t)) as [->|Hnt]; [|by eapply looking_kept];
    destruct Hl as (s' & fs' & [E'|[open' E']]); rewrite Et in E'; try discriminate E'; simplify_eq).
  all: try (by eexists _, _; left; apply Hk); try (by eexists _, _; right; eexists; apply Hk).
  all: match goal with E : stages ?st !! _ = Some _ |- _ => try pose proof (grows_query _ _ _ _ _ (grows_same st st eq_refl) (proj1 (proj1 Hst)) E) as Hq end.
  all: try (cbn in Hq; simplify_eq); try congruence; try (by eexists _, _; left; apply Hk).
  all: destruct Hst as (((sg' & Es' & Eq') & _) & _); cbn in Eq'; simplify_eq.
Qed.

Lemma step_owner codes pool t st st' : invariant codes st -> thread_step pool t st = Next st' ->
  forall s sg, stages st' !! s = Some sg -> total (owner_frame s) st' = if sg_alive sg then 1 else 0.
Proof.
  intros Hi H s1 sg1 Hs1. pose proof (fun sg E => inv_owner _ _ Hi s1 sg E) as Hc. pose proof (owner_fresh _ _ s1 Hi) as Hfresh.
  step_cases H; step_total (owner_frame s1) Et Hths Hp; rewrite Hsts in Hs1; clear Hths Hsts Hqs.
  all: try (apply list_lookup_insert_Some in Hs1 as [(-> & <- & Hlt)|(Hne & Hs1)]).
  all: try (apply lookup_app_Some in Hs1 as [Hs1|[Hge [Hz <-]%list_lookup_singleton_Some]]; [|rewrite Hfresh in Hp by by apply lookup_ge_None]).
  all: repeat match goal with H : context [bool_decide (?a = ?b)] |- _ => destruct (bool_decide_reflect (a = b)); subst end.
  all: try (specialize (Hc _ Hs1)).
  all: try match goal with E : stages _ !! _ = Some _ |- _ => pose proof (Hc _ E) end.
  all: cbn [sg_alive with_slot with_next with_unspawned with_panic with_unfinished ended] in *.
  all: repeat match goal with |- context [if ?b then 1 else 0] => destruct b | H : context [if ?b then 1 else 0] |- _ => destruct b end.
  all: try lia; try congruence.
  all: try (apply lookup_lt_Some in Hs1; lia).
  pose proof (inv_stacks _ _ Hi t _ Et) as ((-> & _) & _). cbn in Hp. lia.
Qed.

Lemma step_open_stages codes pool t st st' : invariant codes st -> thread_step pool t st = Next st' ->
  forall q qr s, queries st' !! q = Some qr -> s ∈ qr_open qr -> stage_of st' (Some q) s.
Proof.
  intros Hi H q1 qr1 s1 Eq1 Hin. pose proof (step_grows _ _ _ _ H) as Hg. pose proof (fun qr => inv_open _ _ Hi q1 qr s1) as Ho.
  step_cases H; rewrite Hqs in Eq1; pose proof (inv_stacks _ _ Hi t _ Et) as Hst; eapply stage_of_grows; try exact Hg.
  all: try (by eapply Ho).
  all: try (apply list_lookup_insert_Some in Eq1 as [(<- & <- & Hlt')|(Hne & Eq1)]; [|by eapply Ho]; cbn [qr_open] in Hin).
  all: try (by eapply Ho).
  all: try (apply lookup_app_Some in Eq1 as [Eq1|[Hge [Hz <-]%list_lookup_singleton_Some]]; [by eapply Ho|by apply not_elem_of_nil in Hin]).
  all: try (apply list_elem_of_filter in Hin as [_ Hin]; by eapply Ho).
  apply elem_of_app in Hin as [Hin| ->%list_elem_of_singleton]; [by eapply Ho|]. by eexists.
Qed.

Lemma step_thread_queries codes pool t st st' : invariant codes st -> thread_step pool t st = Next st' ->
  forall t' th q, threads st' !! t' = Some th -> th_query th = Some q -> is_Some (queries st' !! q).
Proof.
  intros Hi H t1 th1 q1 Et1 Eq1. pose proof (fun q => step_queries pool t st st' q H) as Hkq. pose proof (inv_queries _ _ Hi) as Hq.
  assert (Hawake : forall q th, th_query (awake q th) = th_query th) by (intros q [q' [|[] fs]]; try done; cbn; by case_decide).
  step_cases H; rewrite Hths in Et1; clear Hths.
  all: apply list_lookup_insert_Some in Et1 as [(<- & <- & _)|(Hne & Et1)]; cbn [th_query] in Eq1.
  all: try (apply Hkq; by eapply Hq).
  all: try (apply lookup_app_Some in Et1 as [Et1|[_ [_ <-]%list_lookup_singleton_Some]]; [apply Hkq; by eapply Hq|discriminate Eq1]).
  all: try (rewrite list_lookup_fmap in Et1; apply fmap_Some in Et1 as (th0 & Et0 & ->); rewrite Hawake in Eq1; apply Hkq; by eapply Hq).
  all: try discriminate Eq1.
  all: injection Eq1 as <-; try (apply Hkq; eapply Hq; [exact Et|done]).
  all: try (cbn [default]; rewrite Hqs; apply lookup_lt_is_Some; rewrite length_app; cbn; lia).
  apply Hkq. eapply stage_query. by apply (inv_stages _ _ Hi s).
Qed.

Lemma step_length pool t st st' : thread_step pool t st = Next st' -> length (threads st) <= length (threads st').
Proof. intros H. step_cases H; rewrite Hths, ?length_insert, ?length_fmap, ?length_app; lia. Qed.

Lemma step_invariant codes pool t st st' : invariant codes st -> thread_step pool t st = Next st' -> invariant codes st'.
Proof.
  intros Hi H. split.
  - by eapply step_stacks.
  - by eapply step_heads.
  - by eapply step_stages.
  - by eapply step_owner.
  - by eapply step_open_stages.
  - by eapply step_locks.
  - by eapply step_thread_queries.
  - pose proof (step_length _ _ _ _ H). pose proof (inv_callers _ _ Hi). lia.
Qed.

(** ** Every state there is *)

Lemma head_ok_same st st' t q f : stages st' = stages st -> queries st' = queries st ->
  (forall q, notifying st q -> notifying st' q) -> (forall q, waking st q -> waking st' q) -> head_ok st t q f -> head_ok st' t q f.
Proof.
  intros Es Eq Hn Hw. assert (He : forall s, exhausted st s -> exhausted st' s) by (intros s; unfold exhausted; by rewrite Es).
  assert (Hall : forall l, Forall (exhausted st) l -> Forall (exhausted st') l) by (intros l Hl; eapply Forall_impl; [exact Hl|exact He]).
  assert (Hu : forall s, unfinished st s -> unfinished st' s) by (intros s; unfold unfinished; by rewrite Es).
  destruct f; cbn; unfold holds, finished; rewrite ?Es, ?Eq; naive_solver.
Qed.

(** A sleeper woken by nothing goes on to look. *)
Lemma spurious_invariant codes st t q s fs : invariant codes st -> threads st !! t = Some {| th_query := q; th_stack := Asleep s :: fs |} ->
  invariant codes (put_thread t {| th_query := q; th_stack := Wait s :: fs |} st).
Proof.
  intros Hi Et. set (st' := put_thread _ _ _). assert (Hg : grows st st') by by apply grows_same.
  assert (Hk : kept st st' t {| th_query := q; th_stack := Wait s :: fs |}) by (eapply kept_put; [by eapply lookup_lt_Some|done]).
  assert (Hsame : forall t' q' f fs', threads st !! t' = Some {| th_query := q'; th_stack := f :: fs' |} -> (forall s, f <> Asleep s) ->
    threads st' !! t' = Some {| th_query := q'; th_stack := f :: fs' |}).
  { intros t' q' f fs' Et' Hf. destruct (decide (t' = t)) as [->|Hne]; [rewrite Et in Et'; injection Et' as _ <- _; by destruct (Hf s)|].
    by apply (kept_same _ _ _ _ _ _ _ _ Hk Hne Et'). }
  assert (Hn : forall q, notifying st q -> notifying st' q) by (intros q1 (t' & q' & fs' & E); exists t', q', fs'; by apply Hsame).
  assert (Hw : forall q, waking st q -> waking st' q) by (intros q1 (t' & q' & fs' & E); exists t', q', fs'; by apply Hsame).
  assert (Htotal : forall p, resting p -> total p st' = total p st).
  { intros p Hp. assert (E : total p st' + count_in p (Asleep s :: fs) = total p st + count_in p (Wait s :: fs)) by exact (total_put p st st' t _ _ Et eq_refl).
    cbn [count_in] in E. destruct (Hp s) as (Ha & Hb & _). rewrite Ha, Hb in E. lia. }
  split.
  - intros t' th [(<- & <- & _)|(Hne & E)]%list_lookup_insert_Some; [exact (stack_ok_grows _ _ _ _ _ Hg (inv_stacks _ _ Hi t _ Et))|].
    by eapply stack_ok_grows, (inv_stacks _ _ Hi).
  - intros t' q' f fs' [(<- & [= <- <- <-] & _)|(Hne & E)]%list_lookup_insert_Some; [exact (proj1 (inv_heads _ _ Hi t _ _ _ Et))|].
    apply (head_ok_same st st'); [done..|]. by apply (inv_heads _ _ Hi t' _ _ _ E).
  - intros s1 sg Es. pose proof (inv_stages _ _ Hi s1 sg Es) as [? ? ? ? ? ? ? Hc]. split; try done.
    + unfold pending. by rewrite Htotal.
    + intros index Hl Hx Ha. destruct (Hc index Hl Hx Ha) as [?|[Hu|[?|(t' & q' & p & fs' & E)]]]; [by left| |by right; right; left|].
      * right; left. destruct (under_way_kept _ _ _ _ _ _ _ _ Et Hk Hu) as [?|Hin]; [done|]. eapply under_way_new; [exact Hk|]. cbn [th_stack].
        rewrite !elem_of_cons in *. naive_solver.
      * right; right; right. exists t', q', p, fs'. by apply Hsame.
  - intros s1 sg Es. rewrite Htotal by done. by apply (inv_owner _ _ Hi).
  - intros q' qr s1. apply (inv_open _ _ Hi).
  - intros q' qr t' Eq El. destruct (inv_locks _ _ Hi q' qr t' Eq El) as (s1 & fs1 & [E|[open E]]); exists s1, fs1; [left|right; exists open]; by apply Hsame.
  - intros t' th q' [(<- & <- & _)|(Hne & E)]%list_lookup_insert_Some; [exact (inv_queries _ _ Hi t _ q' Et)|by apply (inv_queries _ _ Hi t')].
  - cbn. rewrite length_insert. apply (inv_callers _ _ Hi).
Qed.

Lemma callers_invariant codes : invariant codes (callers codes).
Proof.
  assert (Hth : forall t th, threads (callers codes) !! t = Some th -> exists b, codes !! t = Some b /\ th = {| th_query := None; th_stack := [Body b] |}).
  { intros t th E. cbn in E. rewrite list_lookup_fmap in E. destruct (codes !! t) as [b|]; [|done]. injection E as <-. by exists b. }
  split.
  - intros t th E. destruct (Hth t th E) as (b & -> & ->). cbn. auto.
  - intros t q f fs E. destruct (Hth t _ E) as (b & _ & [= -> -> ->]). done.
  - done.
  - done.
  - done.
  - done.
  - intros t th q E. destruct (Hth t th E) as (b & _ & ->). done.
  - cbn. by rewrite length_fmap.
Qed.

Lemma reachable_invariant pool codes st : reachable pool codes st -> invariant codes st.
Proof.
  intros H. unfold reachable in H. assert (H' : forall st0, rtc (step pool) st0 st -> invariant codes st0 -> invariant codes st).
  { clear H. induction 1 as [|st1 st2 st3 Hs _ IH]; [done|]. intros Hi. apply IH. destruct Hs as [t st1 st2 Hs|t q s fs st1 Et]; [by eapply step_invariant|by apply spurious_invariant]. }
  by apply (H' _ H), callers_invariant.
Qed.

(** ** Nothing is read that is not there *)

Lemma count_total p st t th : threads st !! t = Some th -> count_in p (th_stack th) <= total p st.
Proof.
  intros E. unfold total. assert (H : forall (l : list nat) i x, l !! i = Some x -> x <= sum_list l).
  { induction l as [|y l IH]; intros [|i] x Hx; [done..|injection Hx as ->; cbn; lia|]. specialize (IH i x Hx). change (x <= y + sum_list l). lia. }
  apply (H _ t). by rewrite list_lookup_fmap, E.
Qed.

(** While an item of a stage is claimed and not counted, its task is there. *)
Lemma pending_alive codes st t th s sg : invariant codes st -> threads st !! t = Some th -> 0 < count_in (pending_frame s) (th_stack th) ->
  stages st !! s = Some sg -> sg_alive sg = true /\ 0 < sg_unfinished sg.
Proof.
  intros Hi Et Hc Es. pose proof (count_total (pending_frame s) st t th Et) as Hle. fold (pending st s) in Hle.
  pose proof (inv_stages _ _ Hi s sg Es) as [? ? ? Hcount Hended ? ? ?]. split; [|lia]. destruct (sg_alive sg); [done|]. specialize (Hended eq_refl). lia.
Qed.

(** A fork about to end is the one that opened the stage: every item has run, or one has panicked. *)
Lemma finish_slots codes st t q s entered k fs sg : invariant codes st ->
  threads st !! t = Some {| th_query := q; th_stack := Finish s entered k :: fs |} -> stages st !! s = Some sg -> sg_panic sg = None ->
  is_Some (mapM id (sg_slots sg)).
Proof.
  intros Hi Et Es Hp. pose proof (count_total (owner_frame s) st t _ Et) as Hle. cbn in Hle. rewrite bool_decide_eq_true_2 in Hle by done.
  rewrite (inv_owner _ _ Hi s sg Es) in Hle. destruct (sg_alive sg) eqn:Ha; [|lia].
  pose proof (inv_heads _ _ Hi t _ _ _ Et) as (sg' & Es' & Hf). rewrite Es in Es'. injection Es' as <-.
  pose proof (inv_stages _ _ Hi s sg Es) as [Hlen Hslots _ Hcount _ _ _ Hclaimed]. rewrite Hf in Hcount.
  assert (Hnone : forall t' th, threads st !! t' = Some th -> count_in (pending_frame s) (th_stack th) = 0).
  { intros t' th E. pose proof (count_total (pending_frame s) st t' th E) as H. fold (pending st s) in H. lia. }
  assert (Hin : forall f l, f ∈ l -> pending_frame s f = true -> count_in (pending_frame s) l <> 0).
  { intros f l Hfl Hpf. induction l as [|f' l IH]; [by apply not_elem_of_nil in Hfl|]. cbn. apply elem_of_cons in Hfl as [<-|Hfl]; [rewrite Hpf; lia|]. specialize (IH Hfl). lia. }
  apply mapM_is_Some, Forall_lookup. intros i o Ho. destruct o as [v|]; [by eexists|]. exfalso.
  assert (Hi' : i < sg_len sg) by (apply lookup_lt_Some in Ho; lia).
  destruct (Hclaimed i Hi' ltac:(lia) Ha) as [[v Hv]|[(t' & th & Et' & Hth)|[[? ?]|(t' & q' & p & fs' & Et')]]]; [congruence| |congruence|].
  - specialize (Hnone t' th Et'). destruct Hth as [Hth|Hth]; (eapply Hin in Hth; [done|]; cbn; by rewrite bool_decide_eq_true_2).
  - specialize (Hnone t' _ Et'). pose proof (inv_stacks _ _ Hi t' _ Et') as [(_ & _ & Hfs) _]. destruct fs' as [|[] fs']; try done. subst.
    cbn in Hnone. by rewrite bool_decide_eq_true_2 in Hnone.
Qed.

Lemma step_no_fault codes pool t st : invariant codes st -> thread_step pool t st <> Fault.
Proof.
  intros Hi H. unfold thread_step in H.
  destruct (threads st !! t) as [[q [|f fs]]|] eqn:Et; [discriminate H| |discriminate H].
  assert (Hquery : forall s sg, stages st !! s = Some sg -> queries st !! sg_query sg <> None).
  { intros s sg Es E. destruct (stage_query _ _ _ (inv_stages _ _ Hi s sg Es)) as [? ?]. congruence. }
  assert (Hstage : forall s, stage_of st q s -> stages st !! s <> None) by (intros s (sg & E & _) E'; congruence).
  assert (Halive : forall s sg, stages st !! s = Some sg -> 0 < count_in (pending_frame s) (f :: fs) -> sg_alive sg = true /\ 0 < sg_unfinished sg)
    by (intros s sg Es Hc; by eapply (pending_alive codes st t)).
  destruct f; unfold on_stage, deliver, run_fork, spread_step, reserve_step, claim_step, call_step, keep_first, count_step, open_step, close_step,
    notify_step, wake_step, wait_step, look_step, find_step, finish_step, locked, unlock, go in H; repeat (case_match; try discriminate H); try discriminate H; subst; clear H.
  all: pose proof (inv_stacks _ _ Hi t _ Et) as [Hf Hs]; pose proof (inv_heads _ _ Hi t _ _ _ Et) as Hh; cbn in Hf, Hh; try done.
  all: try (by destruct Hf as [[] _]).
  all: try (eapply Hstage; [apply Hf|eassumption]; fail).
  all: try (eapply Hquery; eassumption; fail).
  all: try (destruct (Halive _ _ ltac:(eassumption)) as [? ?]; [cbn; rewrite bool_decide_eq_true_2 by done; lia|congruence || lia]; fail).
  all: try (eapply Hstage; [apply Hs|eassumption]; fail).
  - destruct Hf as (_ & _ & Hl). erewrite items_of_stage_at in Hl by eassumption. apply lookup_lt_is_Some in Hl as [? ?]. congruence.
  - destruct Hf as [-> _]. destruct (inv_queries _ _ Hi t _ _ Et eq_refl) as [? ?]. congruence.
  - destruct Hh as (_ & _ & q' & qr & pre & -> & Eq & Eo & _). eapply Hstage; [eapply (inv_open _ _ Hi q' qr); [exact Eq|]|eassumption].
    rewrite Eo. apply elem_of_app; right; left.
  - edestruct finish_slots as [? ?]; [exact Hi|exact Et|eassumption..|]. congruence.
  - destruct Hf as (_ & _ & [? ?]). congruence.
Qed.

(** ** No query comes to a halt *)

(** A thread with nothing left to do. *)
Definition done_thread th : Prop :=
  match th_stack th with [] | [Body (Ret _)] | [Body (Raise _)] => True | _ => False end.

(** A thread of the query can take a step. *)
Definition moves (pool : nat) st (q : nat) : Prop :=
  exists t th st', threads st !! t = Some th /\ th_query th = Some q /\ thread_step pool t st = Next st'.

Lemma holder_moves codes pool st q qr t : invariant codes st -> queries st !! q = Some qr -> qr_lock qr = Some t -> moves pool st q.
Proof.
  intros Hi Eq El. destruct (inv_locks _ _ Hi q qr t Eq El) as (s & fs & E).
  assert (Hnext : exists f fs, threads st !! t = Some {| th_query := Some q; th_stack := f :: fs |} /\ thread_step pool t st <> Blocked /\ thread_step pool t st <> Finished).
  { destruct E as [E|[open E]]; (eexists _, _; split; [exact E|]); unfold thread_step, on_stage, look_step, find_step, go; rewrite E; split; intros H;
      repeat (case_match; try discriminate H); discriminate H. }
  destruct Hnext as (f & fs' & E' & Hb & Hf). pose proof (step_no_fault codes pool t st Hi) as Hn.
  destruct (thread_step pool t st) as [st'| | |] eqn:Es; try done. by exists t, {| th_query := Some q; th_stack := f :: fs' |}, st'.
Qed.

(** A thread that is awake steps, or another has the mutex it waits for. *)
Lemma awake_moves codes pool st t q f fs : invariant codes st -> threads st !! t = Some {| th_query := q; th_stack := f :: fs |} ->
  (forall s, f <> Asleep s) -> ~ done_thread {| th_query := q; th_stack := f :: fs |} ->
  (exists st', thread_step pool t st = Next st') \/ exists q', q = Some q' /\ moves pool st q'.
Proof.
  intros Hi Et Ha Hd. pose proof (step_no_fault codes pool t st Hi) as Hn. pose proof (inv_stacks _ _ Hi t _ Et) as [Hf _].
  destruct (thread_step pool t st) as [st'| | |] eqn:Es; [left; by eexists|right| |done].
  - assert (Hl : exists q' qr t', q = Some q' /\ queries st !! q' = Some qr /\ qr_lock qr = Some t').
    2: { destruct Hl as (q' & qr & t' & -> & Eq & El). exists q'. split; [done|]. by eapply holder_moves. }
    unfold thread_step in Es. rewrite Et in Es.
    destruct f; try (by destruct (Ha s)); unfold on_stage, deliver, run_fork, spread_step, reserve_step, claim_step, call_step, keep_first, count_step, open_step, close_step,
      notify_step, wake_step, wait_step, look_step, find_step, finish_step, locked, unlock, go in Es; clear Hf; repeat (case_match; try discriminate Es); try discriminate Es.
    all: pose proof (inv_stacks _ _ Hi t _ Et) as [Hf _]; cbn in Hf; destruct Hf as [Hq _].
    all: first [destruct Hq as (sg & Esg & ->)|subst q]; simplify_eq; eauto 10.
  - exfalso. unfold thread_step in Es. rewrite Et in Es.
    destruct f; unfold on_stage, deliver, run_fork, spread_step, reserve_step, claim_step, call_step, keep_first, count_step, open_step, close_step,
      notify_step, wake_step, wait_step, look_step, find_step, finish_step, locked, unlock, go in Es; clear Hf; repeat (case_match; try discriminate Es); try discriminate Es.
    all: by apply Hd.
Qed.

Lemma total_positive p st : 0 < total p st -> exists t th, threads st !! t = Some th /\ 0 < count_in p (th_stack th).
Proof.
  unfold total. assert (H : forall (l : list (Thread V P)), 0 < sum_list ((fun th => count_in p (th_stack th)) <$> l) -> exists t th, l !! t = Some th /\ 0 < count_in p (th_stack th)).
  { induction l as [|th l IH]; cbn; [lia|]. intros Hs. destruct (decide (0 < count_in p (th_stack th))); [by exists 0, th|].
    destruct IH as (t & th' & E & Hc); [|by exists (S t), th']. change (0 < count_in p (th_stack th) + sum_list ((fun th => count_in p (th_stack th)) <$> l)) in Hs. lia. }
  apply H.
Qed.

Lemma item_before_count s s' fs : Forall (item_before s') fs -> 0 < count_in (pending_frame s) fs -> s < s'.
Proof.
  induction 1 as [|f fs Hf _ IH]; cbn; [lia|]. destruct (pending_frame s f) eqn:E; [|exact IH]. intros _.
  destruct f; cbn in E, Hf; try done; apply bool_decide_eq_true in E; by subst.
Qed.

(** Of the threads of a query that sleep, the one whose stage is newest waits for an item that a thread awake has. *)
Lemma sleeper_moves codes pool st : invariant codes st -> forall n s t q fs, length (stages st) - s <= n ->
  threads st !! t = Some {| th_query := Some q; th_stack := Asleep s :: fs |} -> moves pool st q.
Proof.
  intros Hi n. induction n as [|n IH]; intros s t q fs Hn Et; pose proof (inv_stacks _ _ Hi t _ Et) as [[Hq _] _];
    pose proof (inv_heads _ _ Hi t _ _ _ Et) as (Hex & q' & qr & [= <-] & Eq & Hor); destruct Hq as (sg & Es & [= Eqs]).
  { apply lookup_lt_Some in Es. lia. }
  assert (Hwake : forall f, f = Notify q \/ f = Wake q -> forall u query fs', threads st !! u = Some {| th_query := query; th_stack := f :: fs' |} -> moves pool st q).
  { intros f Hf u query fs' Eu. pose proof (inv_stacks _ _ Hi u _ Eu) as [Hfu _].
    assert (query = Some q) as -> by (destruct Hf as [->| ->]; apply Hfu).
    destruct (awake_moves codes pool st u (Some q) f fs' Hi Eu) as [[st' E]|(q1 & [= <-] & ?)]; [by destruct Hf as [->| ->]|intros Hd; destruct Hf as [->| ->]; exact Hd| |done].
    by exists u, {| th_query := Some q; th_stack := f :: fs' |}, st'. }
  destruct Hor as [(u & query & fs' & Eu)|[_ [Hu|(u & query & fs' & Eu)]]]; [by apply (Hwake (Wake q) ltac:(by right) u query fs')| |by apply (Hwake (Notify q) ltac:(by left) u query fs')].
  destruct Hu as (sg' & Es' & Hu). rewrite Es in Es'. injection Es' as <-. destruct Hex as (sg' & Es' & Hlen). rewrite Es in Es'. injection Es' as <-.
  pose proof (stage_count _ _ _ (inv_stages _ _ Hi s sg Es)) as Hcount. destruct (total_positive (pending_frame s) st) as (u & [query [|f fs']] & Eu & Hc); [unfold pending in Hcount; lia|cbn in Hc; lia|].
  pose proof (inv_stacks _ _ Hi u _ Eu) as Hst. pose proof (pending_in_stage _ _ _ _ _ Hst Hc) as (sg' & Es' & Equ). rewrite Es in Es'. injection Es' as <-. cbn in Equ. subst query.
  assert (Hasleep : (exists s', f = Asleep s') \/ forall s', f <> Asleep s') by (destruct f; first [by left; eexists|by right]).
  destruct Hasleep as [[s' ->]|Hawake].
  - rewrite <- Eqs in Eu. apply (IH s' u q fs'); [|exact Eu]. destruct Hst as [(Hsu & Hcl) Hst]. destruct fs' as [|[] fs']; try done. subst.
    destruct Hst as [(_ & Hfi) Hst]. destruct fs' as [|[] fs']; try done. subst. destruct Hst as [(_ & _ & Hbefore & _) _]. cbn in Hc.
    pose proof (item_before_count _ _ _ Hbefore Hc). destruct Hsu as (sg' & Esu%lookup_lt_Some & _). lia.
  - destruct (awake_moves codes pool st u (Some (sg_query sg)) f fs' Hi Eu Hawake) as [[st' E]|(q1 & [= <-] & ?)].
    + intros Hd. destruct f as [[]| | | | | | | | | | | | | | | | | | |]; try done; destruct fs'; try done; cbn in Hc; lia.
    + rewrite Eqs. by exists u, {| th_query := Some (sg_query sg); th_stack := f :: fs' |}, st'.
    + by rewrite Eqs.
Qed.

(** ** What callers can rely on *)

(** No thread calls a task whose fork has returned, reads a slot that is not filled or counts an item twice. *)
Theorem parallel_safe pool codes st t : reachable pool codes st -> thread_step pool t st <> Fault.
Proof. intros Hi%reachable_invariant. by apply (step_no_fault codes). Qed.

(** A caller whose code comes to a value has the value of the code on one thread; where it panics, that code does as well, and the
    panic is one that it may yield with its items in some order. *)
Theorem parallel_results pool codes st t q code b : reachable pool codes st -> codes !! t = Some code ->
  threads st !! t = Some {| th_query := q; th_stack := [Body b] |} ->
  match b with
  | Ret v => sequential code = inl v
  | Raise p => yields code (inr p) /\ exists p', sequential code = inr p'
  | Forks _ _ => True
  end.
Proof.
  intros Hi%reachable_invariant Ec Et. pose proof (inv_stacks _ _ Hi t _ Et) as [[_ Hb] _]. rewrite Ec in Hb. cbn in Hb. destruct b as [v|p|items k]; [| |done].
  - pose proof (yields_sequential _ _ (Hb _ (yields_ret v))) as Hs. destruct (sequential code); [congruence|by destruct Hs].
  - pose proof (Hb _ (yields_raise p)) as Hy. split; [done|]. pose proof (yields_sequential _ _ Hy) as Hs. destruct (sequential code); [done|by eexists].
Qed.

(** A thread runs items of its own query only. *)
Theorem parallel_own_query pool codes st t th s index : reachable pool codes st -> threads st !! t = Some th ->
  Call s index ∈ th_stack th \/ Ran s index ∈ th_stack th -> exists sg, stages st !! s = Some sg /\ th_query th = Some (sg_query sg).
Proof.
  intros Hi%reachable_invariant Et Hin. apply (pending_in_stage st (codes !! t) (th_query th) (th_stack th)); [by apply (inv_stacks _ _ Hi)|].
  assert (H : forall f l, f ∈ l -> pending_frame s f = true -> 0 < count_in (pending_frame s) l).
  { intros f l Hf Hp. induction l as [|f' l IH]; [by apply not_elem_of_nil in Hf|]. cbn. apply elem_of_cons in Hf as [<-|Hf]; [rewrite Hp; lia|]. specialize (IH Hf). lia. }
  destruct Hin as [Hin|Hin]; eapply H; try exact Hin; cbn; by rewrite bool_decide_eq_true_2.
Qed.

(** No query comes to a halt: whatever the threads of the pool do or leave undone, a thread with work left takes a step, or another thread
    of its own query does. *)
Theorem parallel_progress pool codes st t th : reachable pool codes st -> threads st !! t = Some th -> ~ done_thread th ->
  (exists st', thread_step pool t st = Next st') \/ exists q, th_query th = Some q /\ moves pool st q.
Proof.
  intros Hi%reachable_invariant Et Hd. destruct th as [q [|f fs]]; [by destruct Hd|].
  assert (Hasleep : (exists s, f = Asleep s) \/ forall s, f <> Asleep s) by (destruct f; first [by left; eexists|by right]).
  destruct Hasleep as [[s ->]|Hawake]; [|by eapply awake_moves]. right. pose proof (inv_stacks _ _ Hi t _ Et) as [((sg & _ & Eq) & _) _]. cbn in Eq. subst q.
  exists (sg_query sg). split; [done|]. by eapply sleeper_moves.
Qed.
End invariant.

(** ** A run *)

(** The threads take the turns of a schedule; one that cannot step passes. *)
Fixpoint run_schedule {V P : Type} (pool : nat) (schedule : list nat) (st : state V P) : state V P :=
  match schedule with
  | [] => st
  | t :: schedule => run_schedule pool schedule (match thread_step pool t st with Next st' => st' | _ => st end)
  end.

Lemma run_schedule_steps {V P : Type} pool schedule (st : state V P) : rtc (step pool) st (run_schedule pool schedule st).
Proof.
  revert st. induction schedule as [|t schedule IH]; intros st; [constructor|]. cbn [run_schedule].
  destruct (thread_step pool t st) as [st'| | |] eqn:E; [|apply IH..]. eapply rtc_l; [by apply (step_thread _ t)|apply IH].
Qed.

Definition add (vs : list nat) : body nat string := Ret (foldr Nat.add 0 vs).

(** Two callers: a fork of forks, and one of whose items panics. *)
Definition sums : body nat string := Forks [Forks [Ret 1; Ret 2; Ret 3] add; Forks [Ret 10; Ret 20] add; Ret 100] add.
Definition fails : body nat string := Forks [Ret 1; Raise "second"; Raise "third"] add.

(** In turn, one thread after the other, and as many as there are with helpers. *)
Definition in_turn : list nat := concat (replicate 300 (seq 0 12)).
Definition end_state : state nat string := run_schedule 3 in_turn (callers [sums; fails]).

Example sums_in_turn : take 2 (threads end_state) =
  [{| th_query := None; th_stack := [Body (Ret 136)] |}; {| th_query := None; th_stack := [Body (Raise "second")] |}].
Proof. vm_compute. reflexivity. Qed.

(** The same with the callers alone: no job is ever taken. *)
Example sums_alone : take 2 (threads (run_schedule 3 (concat (replicate 300 [0; 1])) (callers [sums; fails]))) =
  [{| th_query := None; th_stack := [Body (Ret 136)] |}; {| th_query := None; th_stack := [Body (Raise "second")] |}].
Proof. vm_compute. reflexivity. Qed.

Lemma parallel_results_witness : reachable 3 [sums; fails] end_state /\ sequential sums = inl 136.
Proof.
  assert (Hr : reachable 3 [sums; fails] end_state) by apply run_schedule_steps. split; [exact Hr|].
  apply (parallel_results 3 [sums; fails] end_state 0 None sums (Ret 136)); [exact Hr|reflexivity|vm_compute; reflexivity].
Defined.

(** The first caller has claimed its last item and sleeps; the second goes on, and so does a thread of the first one's query. *)
Lemma parallel_progress_witness :
  let st := run_schedule 3 [0; 0; 0] (callers [sums; fails]) in
  (exists st', thread_step 3 0 st = Next st') \/ exists q, Some 0 = Some q /\ moves 3 st q.
Proof.
  intros st. apply (parallel_progress 3 [sums; fails] st 0 {| th_query := Some 0; th_stack := from_option th_stack [] (threads st !! 0) |}).
  - apply run_schedule_steps.
  - vm_compute. reflexivity.
  - vm_compute. intros [].
Defined.
