(* ===== verification/Materialize.v ===== *)
(** Reading back what a deferred selection left out (src/execution/materialize.rs): the
    rows of the page, by their positions or by their keys, each table's sources with
    the same fields merged into one read. *)
From stdpp Require Import base strings list gmap.
From Stdlib Require Import ZArith Lia.
From S2P Require Import Prelude Machine ListLib Errors Arrow Catalog Integers Counting BlockIndex Rows Keys Addresses Predicate RowPredicate ItemLists Projection Weight Scan Plan Reader Sources Prepare Tables Retain Page.

#[local] Open Scope Z_scope.

(** ** Side by side *)

(** What [parallel::map] and [parallel::join] (src/parallel.rs) give: every result,
    errors among them, unless an item panics. *)
Definition settled {A} (r : result A) : result (result A) :=
  match r with Panic => Panic | r => Ok r end.

Definition parallel_map {A B} (f : A -> result B) (items : list A) : result (list (result B)) :=
  mapM_ok (fun item => settled (f item)) items.

Definition parallel_join {A B} (a : result A) (b : result B) : result (result A * result B) :=
  let* a := settled a in
  let* b := settled b in
  Ok (a, b).

Section materialize.
Context {K : ArrowKernels} {R : RowFormat}.

(** [src/src/execution/materialize.rs:L202-206] read_rows: the request by positions. *)
Definition positions_request (desc : TableDescription) (output_columns : list string) (positions : list Z) : scan_request :=
  {| output_columns := output_columns; predicates := []; from_block := None; to_block := None;
     block_number_column := Some (td_block_number_column desc); batch_size := u64_max; key_filter := None; hierarchical_filter := None;
     Rows.required_columns := []; positions := false; row_indices := Some positions; item_tags := []; column_cache := None; window := None |}.

(** [src/src/execution/materialize.rs:L210-214] read_rows: the request by keys. *)
Definition identity_request (desc : TableDescription) (output_columns : list string) (f : KeyFilter) (block_range : option Z * option Z) : scan_request :=
  {| output_columns := output_columns; predicates := []; from_block := block_range.1; to_block := block_range.2;
     block_number_column := Some (td_block_number_column desc); batch_size := u64_max; key_filter := Some f; hierarchical_filter := None;
     Rows.required_columns := []; positions := false; row_indices := None; item_tags := []; column_cache := None; window := None |}.

(** [src/src/execution/materialize.rs:189-216] read_rows. *)
Definition read_rows (chunk : ChunkReader) (table : string) (desc : TableDescription) (rows : Rows) (output_columns : list string)
    : result (list RecordBatch) :=
  let batches := rw_batches rows in
  if bool_decide (batches = []) then Ok []
  else
    match sorted_positions rows with
    | Some positions => cr_scan chunk table (positions_request desc output_columns positions)
    | None =>
        let* f := for_rows batches (row_key desc) (td_block_number_column desc) in
        let* block_range := compute_block_range batches (td_block_number_column desc) in
        cr_scan chunk table (identity_request desc output_columns f block_range)
    end.

(** ** The tables of a page *)

(** [src/src/execution/materialize.rs:L287-293] materialize_tables: Source. *)
Record Source := {
  src_owner : string;
  src_relation : option nat;
  src_projection : ResolvedProjection;
  src_rows : Rows;
  src_primary_predicates : option (list (RowPredicate predicate));
}.

Definition with_rows (source : Source) (rows : Rows) (predicates : option (list (RowPredicate predicate))) : Source :=
  {| src_owner := src_owner source; src_relation := src_relation source; src_projection := src_projection source; src_rows := rows;
     src_primary_predicates := predicates |}.

(** [src/src/execution/materialize.rs:L304-307] materialize_tables: a source's rows,
    taken out of the output. *)
Definition take_rows (output : TableOutput) (relation : option nat) : Rows * TableOutput :=
  match relation with
  | None => (to_rows output, {| to_rows := Rows_new []; to_relations := to_relations output |})
  | Some index =>
      (default (Rows_new []) (to_relations output !! index),
       {| to_rows := to_rows output; to_relations := delete index (to_relations output) |})
  end.

(** [src/src/execution/materialize.rs:L312-314] materialize_tables: is_unfiltered. *)
Definition is_unfiltered (predicates : list (RowPredicate predicate)) : bool := existsb matches_every_row predicates.

(** The sources gathered, and which of them reads each table's fields. *)
Record Merging := {
  mg_outputs : gmap string TableOutput;
  mg_sources : list Source;
  mg_groups : gmap (string * list string) nat;
}.

(** [src/src/execution/materialize.rs:L303-339] materialize_tables: one source joins
    the group that reads the same fields of its table, or opens it. *)
Definition merge_source (table : PlannedTable) (st : Merging) (entry : option nat * ResolvedProjection) : result Merging :=
  let '(relation, projection) := entry in
  let owner := tp_table (pt_plan table) in
  let* output := expect (mg_outputs st !! owner) in
  let '(rows, output) := take_rows output relation in
  let outputs := <[owner := output]> (mg_outputs st) in
  if bool_decide (rw_batches rows = []) then Ok {| mg_outputs := outputs; mg_sources := mg_sources st; mg_groups := mg_groups st |}
  else
    let rows := rows_project rows (row_key (rp_desc projection)) in
    let predicates := tp_predicates (pt_plan table) in
    let primary_predicates := match relation with None => Some predicates | Some _ => None end in
    let read := (rp_table projection, rp_names projection) in
    let '(group, sources, groups) :=
      match mg_groups st !! read with
      | Some group => (group, mg_sources st, mg_groups st)
      | None =>
          let index := length (mg_sources st) in
          (index, mg_sources st ++ [{| src_owner := owner; src_relation := relation; src_projection := projection; src_rows := Rows_new [];
                                        src_primary_predicates := primary_predicates |}],
           <[read := index]> (mg_groups st))
      end in
    let* source := vec_get sources group in
    let unfiltered p := if is_unfiltered p then Some p else None in
    let primary :=
      if bool_decide (rw_batches (src_rows source) = []) then src_primary_predicates source
      else
        match src_primary_predicates source ≫= unfiltered with
        | Some p => Some p
        | None => primary_predicates ≫= unfiltered
        end in
    let* merged := append (src_rows source) rows in
    Ok {| mg_outputs := outputs; mg_sources := <[group := with_rows source merged primary]> sources; mg_groups := groups |}.

(** [src/src/execution/materialize.rs:L296-342] materialize_tables: the sources of the
    page, merged. *)
Definition merge_sources (outputs : gmap string TableOutput) (tables : list PlannedTable) : result Merging :=
  foldM (fun st table =>
    match mg_outputs st !! tp_table (pt_plan table) with
    | None => Ok st
    | Some _ =>
        foldM (merge_source table) ((None, pt_projection table) :: ((fun e : nat * ResolvedProjection => (Some e.1, e.2)) <$> enumerate (pt_targets table))) st
    end) tables {| mg_outputs := outputs; mg_sources := []; mg_groups := ∅ |}.

(** [src/src/execution/materialize.rs:L351-355] materialize_tables: the request of a
    source read by its predicates. *)
Definition predicates_request (desc : TableDescription) (output_columns : list string) (preds : list (RowPredicate predicate))
    (block_range : option Z * option Z) : scan_request :=
  {| output_columns := output_columns; predicates := preds; from_block := block_range.1; to_block := block_range.2;
     block_number_column := Some (td_block_number_column desc); batch_size := u64_max; key_filter := None; hierarchical_filter := None;
     Rows.required_columns := []; positions := false; row_indices := None; item_tags := []; column_cache := None; window := None |}.

(** [src/src/execution/materialize.rs:L342-360] materialize_tables: one source's read. *)
Definition read_source (chunk : ChunkReader) (source : Source) : result (list RecordBatch) :=
  let table := rp_table (src_projection source) in
  let desc := rp_desc (src_projection source) in
  let cols := rp_row_columns (src_projection source) in
  if bool_decide (is_Some (rw_positions (src_rows source))) then read_rows chunk table desc (src_rows source) cols
  else
    match src_primary_predicates source with
    | Some preds =>
        let* block_range := compute_block_range (rw_batches (src_rows source)) (td_block_number_column desc) in
        cr_scan chunk table (predicates_request desc cols preds block_range)
    | None => read_rows chunk table desc (src_rows source) cols
    end.

(** [src/src/execution/materialize.rs:L363-376] materialize_tables: a source's rows,
    put back where its first source was. *)
Definition put_back (outputs : gmap string TableOutput) (e : Source * result (list RecordBatch)) : result (gmap string TableOutput) :=
  let '(source, batches) := e in
  let* batches := batches in
  let* output := expect (outputs !! src_owner source) in
  let rows := Rows_new batches in
  let output :=
    match src_relation source with
    | None => {| to_rows := rows; to_relations := to_relations output |}
    | Some index => {| to_rows := to_rows output; to_relations := <[index := rows]> (to_relations output) |}
    end in
  Ok (<[src_owner source := output]> outputs).

(** [src/src/execution/materialize.rs:279-377] materialize_tables. *)
Definition materialize_tables (outputs : gmap string TableOutput) (tables : list PlannedTable) (chunk : ChunkReader)
    : result (gmap string TableOutput) :=
  let* merged := merge_sources outputs tables in
  let* read := parallel_map (read_source chunk) (mg_sources merged) in
  foldM put_back (zip (mg_sources merged) read) (mg_outputs merged).

(** [src/src/execution/materialize.rs:L261-265] materialize_page: the headers of the
    page's blocks. *)
Definition read_headers_back (execution : Execution) (page : Page) : result (list RecordBatch) :=
  let desc := ex_blocks execution in
  let* headers := retain_blocks (pg_headers page) (td_block_number_column desc) (pg_blocks page) in
  read_rows (ex_chunk execution) (pl_block_table (ex_plan execution)) desc headers (rp_row_columns (ex_header execution)).

(** [src/src/execution/materialize.rs:241-277] materialize_page. *)
Definition materialize_page (execution : Execution) (page : Page) : result Page :=
  match ex_selection execution with
  | None => Ok page
  | Some _ =>
      let* (tables, headers) := parallel_join (materialize_tables (pg_tables page) (ex_tables execution) (ex_chunk execution))
        (read_headers_back execution page) in
      let* tables := tables in
      let* headers := headers in
      Ok {| pg_blocks := pg_blocks page; pg_headers := Rows_new headers; pg_tables := tables; pg_read_through := pg_read_through page;
            pg_weights := pg_weights page |}
  end.
End materialize.
