(* ===== verification/MaterializeSpec.v ===== *)
(** What reading back gives (src/execution/materialize.rs): the rows a selection kept,
    each once and in file order, with the columns it left out. *)
From stdpp Require Import base strings list gmap sorting.
From Stdlib Require Import ZArith Lia Sorting.Sorted.
From S2P Require Import Prelude Machine ListLib Errors Arrow ArrowReference Catalog Integers Counting BlockIndex Rows KeyColumns SemiJoin Addresses AddressLookup AddressBuild Keys Render Json Sets Predicate PredicateSpec Pruning RowPredicate ItemLists Projection Weight Scan Returned KeyCells Columnar ColumnarSpec ColumnarScan Plan Reader Sources Prepare Tables TablesSpec TablesRange Retain Page Materialize.

#[local] Open Scope Z_scope.

(** Rows that a selection kept, with where they are in their file. *)
Definition recorded (rows : Rows) (l : list nat) : Prop :=
  (rw_batches rows = [] /\ l = []) \/
  (rw_batches rows <> [] /\ exists ps, rw_positions rows = Some ps /\ concat ps = Z.of_nat <$> l).

Lemma recorded_none : recorded (Rows_new []) [].
Proof. by left. Qed.

Lemma recorded_project {K : ArrowKernels} rows cols l : recorded rows l -> recorded (rows_project rows cols) l.
Proof. intros [[E ->]|[Hne Hp]]; [left; split; [unfold rows_project; cbn; by rewrite E|done]|right]. split; [|done]. cbn. by destruct (rw_batches rows). Qed.

(** Rows kept by two sources, together. *)
Lemma recorded_append a b la lb : recorded a la -> recorded b lb ->
  exists all, Rows.append a b = Ok all /\ recorded all (la ++ lb) /\ (rw_batches all = [] -> rw_batches b = []).
Proof.
  intros Ha Hb. unfold Rows.append. destruct Hb as [[E ->]|[Hne (pb & Ep & Ec)]].
  { rewrite decide_True by done. exists a. by rewrite app_nil_r. }
  rewrite decide_False by done. destruct Ha as [[E ->]|[Hna (pa & Eq & Ed)]].
  { rewrite decide_True by done. exists b. split; [done|]. split; [|done]. right. split; [done|]. by exists pb. }
  rewrite decide_False by done. rewrite Eq, Ep. cbn [obind]. eexists. split; [done|]. split.
  - right. cbn. split; [by intros [? _]%app_nil|]. exists (pa ++ pb). by rewrite concat_app, fmap_app, Ec, Ed.
  - cbn. by intros [? _]%app_nil.
Qed.

Section read.
Context {K : ArrowKernels} {L : ArrowLaws K} {R : RowFormat} {X : Xxh3} {XL : Xxh3Laws X} {HK : HexKernel}.
Context (chunk : ChunkReader) (tables : chunk_tables) `{Hreader : !ReaderLaws chunk tables}.
Context (Hpositions : cr_supports_row_positions chunk = true).

(** A table with the blocks and some of the columns a projection reads back. *)
Record reads_back (projection : ResolvedProjection) (schema : Schema) (content : RecordBatch) : Prop := {
  rb_table : tables (rp_table projection) = Some (schema, content);
  rb_blocks : block_column content (td_block_number_column (rp_desc projection));
  rb_columns : td_block_number_column (rp_desc projection) ∈ rp_row_columns projection;
}.

(** The rows of a list, each once, in file order, with the columns rendered of them. *)
Definition rows_back (content : RecordBatch) (cols : list string) (rows : nat -> Prop) (batches : list RecordBatch) : Prop :=
  exists l, picked rows (num_rows content) l /\ drawn_rows content cols false l (Rows_new batches).

Lemma ascending_positions (l : list nat) sorted : ascending sorted -> (forall x, x ∈ sorted <-> x ∈ Z.of_nat <$> l) ->
  Forall (Z.le 0) sorted /\ StronglySorted lt (Z.to_nat <$> sorted) /\ forall row, row ∈ (Z.to_nat <$> sorted) <-> row ∈ l.
Proof.
  intros Ha Hin. assert (H0 : Forall (Z.le 0) sorted).
  { apply Forall_forall. intros x Hx. apply Hin, list_elem_of_fmap in Hx as (y & -> & _). lia. }
  split; [done|]. split.
  - clear Hin. induction Ha as [|x l' Hs IH Hx]; cbn; constructor.
    + apply IH. by apply Forall_cons in H0 as [_ ?].
    + apply Forall_cons in H0 as [H1 H2]. rewrite Forall_fmap. rewrite !Forall_forall in *. intros y Hy. specialize (Hx y Hy). specialize (H2 y Hy). cbn. lia.
  - intros row. rewrite list_elem_of_fmap. split.
    + intros (x & -> & Hx). apply Hin, list_elem_of_fmap in Hx as (y & -> & Hy). by rewrite Nat2Z.id.
    + intros Hrow. exists (Z.of_nat row). rewrite Nat2Z.id. split; [done|]. apply Hin. by apply list_elem_of_fmap_2.
Qed.

(** Rows read back by their positions. *)
Lemma read_rows_ok projection schema content rows l : reads_back projection schema content -> recorded rows l ->
  Forall (fun row => (row < num_rows content)%nat) l ->
  exists batches, read_rows chunk (rp_table projection) (rp_desc projection) rows (rp_row_columns projection) = Ok batches /\
    rows_back content (rp_row_columns projection) (fun row => row ∈ l) batches.
Proof.
  intros [Ht Hblock Hcol] Hrec Hlt. unfold read_rows. destruct Hrec as [[E ->]|[Hne (ps & Ep & Ec)]].
  { rewrite bool_decide_eq_true_2 by done. exists []. split; [done|]. exists []. split.
    - split; [constructor|]. intros row. split; [by intros ?%not_elem_of_nil|by intros [_ ?]].
    - split; [by split|]. split; [by split; [intros []|]|]. by split; [|constructor]. }
  rewrite bool_decide_eq_false_2 by done. pose proof (sorted_positions_spec rows) as Hs.
  destruct (sorted_positions rows) as [sorted|]; rewrite Ep in Hs; [|done]. destruct Hs as [Ha Hin]. rewrite Ec in Hin.
  destruct (ascending_positions l sorted Ha Hin) as (H0 & Hsorted & Helem).
  set (request := positions_request (rp_desc projection) (rp_row_columns projection) sorted).
  destruct (reader_positions (rp_table projection) schema content request (fun _ => True) sorted) as (s & Es & Hret); try done.
  - pose proof (reader_tables _ _ _ Ht) as Hschema. split; try done.
    + intros bn [= <-]. exact Hblock.
    + intros E. destruct Hblock as (a & Ea & _). assert (is_Some (schema_index schema (td_block_number_column (rp_desc projection)))) as Hi
        by (apply (schema_of_is_Some schema content); [done|by rewrite Ea]).
      apply field_with_name_index in Hi as [f Hf]. assert (Hin' : f ∈ build_output_schema schema (rp_row_columns projection))
        by (apply list_elem_of_omap; by exists (td_block_number_column (rp_desc projection))).
      change (output_columns request) with (rp_row_columns projection) in E. rewrite E in Hin'. by apply not_elem_of_nil in Hin'.
  - split; [done|]. rewrite Forall_forall in *. intros row Hrow. apply Hlt. by apply Helem.
  - unfold cr_scan. rewrite Es. cbn [obind]. eexists. split; [done|]. exists (Z.to_nat <$> sorted). split.
    + split; [done|]. intros row. rewrite Helem. split; [|tauto]. intros Hrow. split; [|done]. rewrite Forall_forall in Hlt. by apply Hlt.
    + destruct Hret as (Hok & Hp & He & Hsch & _). destruct (sc_rows s) as [bs [qs|]]; cbn [rw_positions rw_batches] in *.
      { discriminate (proj1 Hp (ex_intro _ qs eq_refl)). }
      split; [exact Hok|]. split; [exact Hp|]. by split.
Qed.

(** ** Sources that read the same fields *)

(** A source of the page: a planned table, and its own rows or those of a relation. *)
Abbreviation page_source := (PlannedTable * (option nat * ResolvedProjection))%type.

Definition table_sources (t : PlannedTable) : list (option nat * ResolvedProjection) :=
  (None, pt_projection t) :: ((fun e : nat * ResolvedProjection => (Some e.1, e.2)) <$> enumerate (pt_targets t)).
Definition page_sources (ts : list PlannedTable) : list page_source := ts ≫= fun t => (fun e => (t, e)) <$> table_sources t.

(** Where its rows are kept, and what is read of them. *)
Definition slot (e : page_source) : string * option nat := (tp_table (pt_plan e.1), e.2.1).
Definition read_of (e : page_source) : string * list string := (rp_table e.2.2, rp_names e.2.2).

Definition rows_at (outputs : gmap string TableOutput) (s : string * option nat) : Rows :=
  match outputs !! s.1 with Some output => (take_rows output s.2).1 | None => Rows_new [] end.

Lemma rows_at_taken outputs s output : outputs !! s.1 = Some output ->
  forall s', rows_at (<[s.1 := (take_rows output s.2).2]> outputs) s' = if decide (s' = s) then Rows_new [] else rows_at outputs s'.
Proof.
  intros E s'. destruct s as [owner relation], s' as [owner' relation']. cbn [fst snd] in *. unfold rows_at. cbn [fst snd].
  destruct (decide (owner' = owner)) as [->|Hne].
  - rewrite lookup_insert_eq, E. destruct relation as [i|], relation' as [i'|]; cbn [take_rows fst snd to_rows to_relations].
    + destruct (decide (i' = i)) as [->|Hi]; [by rewrite lookup_delete_eq, decide_True|].
      rewrite lookup_delete_ne by done. by rewrite decide_False by congruence.
    + by rewrite decide_False.
    + by rewrite decide_False.
    + by rewrite decide_True.
  - rewrite lookup_insert_ne by done. by rewrite decide_False by congruence.
Qed.

Lemma page_sources_slots ts : NoDup ((fun t => tp_table (pt_plan t)) <$> ts) -> NoDup (slot <$> page_sources ts).
Proof.
  induction ts as [|t ts IH]; [constructor|]. rewrite fmap_cons. intros [Ht Hnd]%NoDup_cons.
  unfold page_sources. rewrite bind_cons. fold (page_sources ts). rewrite fmap_app. apply NoDup_app. split; [|split; [|by apply IH]].
  - rewrite <- list_fmap_compose. unfold table_sources. rewrite fmap_cons. apply NoDup_cons. split.
    + intros (x & E & Hx)%list_elem_of_fmap. apply list_elem_of_fmap in Hx as (y & -> & _). done.
    + rewrite <- list_fmap_compose. apply (NoDup_fmap_1 snd). rewrite <- list_fmap_compose.
      assert (Efst : forall (l : list ResolvedProjection) k, (fun x : nat * ResolvedProjection => Some x.1) <$> zip (seq k (length l)) l = Some <$> seq k (length l)).
      { induction l as [|x l IHl]; intros k; [done|]. cbn [length seq zip zip_with fmap list_fmap]. f_equal. apply IHl. }
      erewrite list_fmap_ext; [|intros; unfold compose, slot; cbn; reflexivity]. unfold enumerate. rewrite Efst. apply NoDup_fmap_2; [by intros ? ? [= ->]|apply NoDup_seq].
  - intros s (e & -> & He)%list_elem_of_fmap (e' & E & He')%list_elem_of_fmap. apply list_elem_of_fmap in He as (x & -> & _).
    apply Ht. unfold slot in E. cbn in E. injection E as E _. rewrite E. apply list_elem_of_fmap. exists e'.1. split; [done|].
    unfold page_sources in He'. apply list_elem_of_bind in He' as (t' & Hin & Ht'). by apply list_elem_of_fmap in Hin as (? & -> & _).
Qed.

(** The loop over the page's tables is one over their sources. *)
Lemma foldM_fmap {E A C T} (f : T -> C -> outcome E T) (g : A -> C) l s : foldM f (g <$> l) s = foldM (fun s a => f s (g a)) l s.
Proof. revert s. induction l as [|a l IH]; intros s; [done|]. rewrite fmap_cons. cbn [foldM]. destruct (f s (g a)); cbn; [apply IH|done..]. Qed.

Lemma merge_source_dom t st e st' : merge_source t st e = Ok st' -> dom (mg_outputs st') = dom (mg_outputs st).
Proof.
  unfold merge_source. destruct e as [relation projection]. destruct (mg_outputs st !! _) as [output|] eqn:E; cbn [expect obind]; [|done].
  destruct (take_rows output relation) as [rows output'].
  assert (Hd : dom (<[tp_table (pt_plan t) := output']> (mg_outputs st)) = dom (mg_outputs st)).
  { apply dom_insert_lookup_L. by rewrite E. }
  case_bool_decide; [by intros [= <-]|]. destruct (match mg_groups st !! _ with Some _ => _ | None => _ end) as [[group sources] groups].
  intros (source & _ & Hm)%obind_ok. by apply obind_ok in Hm as (all & _ & [= <-]).
Qed.

Lemma merge_sources_flat outputs ts : Forall (fun t => is_Some (outputs !! tp_table (pt_plan t))) ts ->
  merge_sources outputs ts = foldM (fun st e => merge_source e.1 st e.2) (page_sources ts) {| mg_outputs := outputs; mg_sources := []; mg_groups := ∅ |}.
Proof.
  unfold merge_sources. set (st0 := {| mg_outputs := outputs |}).
  assert (Hgen : forall st, dom (mg_outputs st) = dom outputs -> Forall (fun t => is_Some (outputs !! tp_table (pt_plan t))) ts ->
    foldM (fun st table => match mg_outputs st !! tp_table (pt_plan table) with None => Ok st | Some _ => foldM (merge_source table) (table_sources table) st end) ts st =
    foldM (fun st (e : page_source) => merge_source e.1 st e.2) (page_sources ts) st).
  { induction ts as [|t ts IH]; intros st Hd Hts; [done|]. apply Forall_cons in Hts as [Ht Hts].
    unfold page_sources. rewrite bind_cons. fold (page_sources ts). rewrite foldM_app, foldM_fmap. cbn [foldM].
    assert (Hs : is_Some (mg_outputs st !! tp_table (pt_plan t))) by (apply elem_of_dom; rewrite Hd; by apply elem_of_dom).
    destruct Hs as [output ->].
    transitivity (let* st := foldM (merge_source t) (table_sources t) st in foldM (fun st (e : page_source) => merge_source e.1 st e.2) (page_sources ts) st); [|reflexivity].
    destruct (foldM (merge_source t) (table_sources t) st) as [st'| |] eqn:E; cbn [obind].
    - apply IH; [|done]. rewrite <- Hd. clear -E. revert st E. induction (table_sources t) as [|e l IHl]; intros st E; cbn in E; [by injection E as <-|].
      apply obind_ok in E as (st1 & E1 & E2). rewrite (IHl _ E2). by eapply merge_source_dom.
    - done.
    - done. }
  intros Hts. by apply Hgen.
Qed.

(** ** Merged sources *)

Section merging.
Context (outputs : gmap string TableOutput) (chosen : string * option nat -> list nat).

(** A row that a source of the same read kept. *)
Definition contributed (sources : list page_source) (read : string * list string) (row : nat) : Prop :=
  exists e, e ∈ sources /\ read_of e = read /\ row ∈ chosen (slot e).

Lemma contributed_snoc done e read row : contributed (done ++ [e]) read row <->
  contributed done read row \/ (read_of e = read /\ row ∈ chosen (slot e)).
Proof.
  unfold contributed. split.
  - intros (e' & [Hin| ->%list_elem_of_singleton]%elem_of_app & ? & ?); [left; by exists e'|by right].
  - intros [(e' & ? & ? & ?)|[? ?]]; [exists e'; split; [apply elem_of_app; by left|done]|exists e; split; [apply elem_of_app; right; by left|done]].
Qed.

(** A source that gathers what the sources of its read kept, under one of them. *)
Record gathers (done : list page_source) (src : Source) : Prop := {
  ga_source : exists e, e ∈ done /\ slot e = (src_owner src, src_relation src) /\ e.2.2 = src_projection src;
  ga_rows : exists l, recorded (src_rows src) l /\
    forall row, row ∈ l <-> contributed done (rp_table (src_projection src), rp_names (src_projection src)) row;
}.

Record merged (done : list page_source) (st : Merging) : Prop := {
  mi_dom : dom (mg_outputs st) = dom outputs;
  mi_rows : forall s, rows_at (mg_outputs st) s = if decide (s ∈ slot <$> done) then Rows_new [] else rows_at outputs s;
  mi_groups : forall read i, mg_groups st !! read = Some i ->
    exists src, mg_sources st !! i = Some src /\ (rp_table (src_projection src), rp_names (src_projection src)) = read;
  mi_sources : forall i src, mg_sources st !! i = Some src -> gathers done src /\ rw_batches (src_rows src) <> [] /\
    mg_groups st !! (rp_table (src_projection src), rp_names (src_projection src)) = Some i;
  mi_taken : forall e, e ∈ done -> chosen (slot e) <> [] -> is_Some (mg_groups st !! read_of e);
}.

(** Another source changes nothing for a read it does not share. *)
Lemma gathers_other done e src : gathers done src -> read_of e <> (rp_table (src_projection src), rp_names (src_projection src)) \/ chosen (slot e) = [] ->
  gathers (done ++ [e]) src.
Proof.
  intros [(e0 & Hin & Hs & Hp) (l & Hl & Hc)] Hne. split.
  - exists e0. split; [apply elem_of_app; by left|done].
  - exists l. split; [done|]. intros row. rewrite Hc, contributed_snoc. split; [tauto|]. intros [?|[E Hrow]]; [done|].
    destruct Hne as [Hne|E']; [done|]. rewrite E' in Hrow. by apply not_elem_of_nil in Hrow.
Qed.

(** The group of a read, opened if it was not: its source, and nothing else touched. *)
Record opens (done : list page_source) (e : page_source) (read : string * list string) (st : Merging) (group : nat) (sources : list Source)
    (groups : gmap (string * list string) nat) (src : Source) : Prop := {
  op_group : groups !! read = Some group;
  op_read : (rp_table (src_projection src), rp_names (src_projection src)) = read;
  op_source : exists e', e' ∈ done ++ [e] /\ slot e' = (src_owner src, src_relation src) /\ e'.2.2 = src_projection src;
  op_rows : exists l, recorded (src_rows src) l /\ forall row, row ∈ l <-> contributed done read row;
  op_others : forall read' i, groups !! read' = Some i -> read' <> read -> mg_groups st !! read' = Some i /\ i <> group;
  op_kept : forall read' i, mg_groups st !! read' = Some i -> groups !! read' = Some i;
  op_sources : forall i, i <> group -> sources !! i = mg_sources st !! i;
  op_same : forall i, mg_groups st !! read = Some i -> i = group;
}.

Lemma merge_source_ok done e st : merged done st -> slot e ∉ slot <$> done -> is_Some (outputs !! (slot e).1) ->
  recorded (rows_at outputs (slot e)) (chosen (slot e)) ->
  exists st', merge_source e.1 st e.2 = Ok st' /\ merged (done ++ [e]) st'.
Proof.
  intros [Hd Hr Hg Hs Ht] Hnew Ho Hrec. destruct e as [t [relation projection]] eqn:Ee. cbn [fst snd].
  assert (Hsnoc : forall s, s ∈ slot <$> (done ++ [e]) <-> s ∈ slot <$> done \/ s = slot e).
  { intros s. rewrite fmap_app, elem_of_app. change (slot <$> [e]) with [slot e]. by rewrite list_elem_of_singleton. }
  rewrite <- Ee in *. assert (Hout : is_Some (mg_outputs st !! (slot e).1)) by (apply elem_of_dom; rewrite Hd; by apply elem_of_dom).
  destruct Hout as [output Eout].
  assert (Erows : (take_rows output relation).1 = rows_at outputs (slot e)).
  { specialize (Hr (slot e)). rewrite decide_False in Hr by done. rewrite <- Hr. unfold rows_at. rewrite Eout. by subst e. }
  set (outs := <[(slot e).1 := (take_rows output relation).2]> (mg_outputs st)).
  assert (Hrows : forall s, rows_at outs s = if decide (s ∈ slot <$> (done ++ [e])) then Rows_new [] else rows_at outputs s).
  { intros s. subst outs. replace relation with (slot e).2 by by subst e. rewrite rows_at_taken by done. case_decide as Es.
    - rewrite decide_True; [done|]. apply Hsnoc. by right.
    - rewrite Hr. case_decide as Hin; [rewrite decide_True; [done|]; apply Hsnoc; by left|].
      rewrite decide_False; [done|]. intros [?|?]%Hsnoc; done. }
  assert (Hdom : dom outs = dom outputs) by (subst outs; rewrite dom_insert_lookup_L by (by rewrite Eout); done).
  unfold merge_source. change (tp_table (pt_plan t)) with (tp_table (pt_plan (t, (relation, projection)).1)). rewrite <- Ee.
  change (tp_table (pt_plan e.1)) with (slot e).1. rewrite Eout. cbn [expect obind].
  rewrite (surjective_pairing (take_rows output relation)), Erows. fold outs. clearbody outs.
  case_bool_decide as Hnil.
  { assert (Hc : chosen (slot e) = []) by (destruct Hrec as [[_ ?]|[? _]]; done).
    eexists. split; [done|]. split; cbn [mg_outputs mg_sources mg_groups]; [done|done|done| |].
    - intros i src Hi. destruct (Hs i src Hi) as (? & ? & ?). split; [|done]. apply gathers_other; [done|by right].
    - intros e' [Hin| ->%list_elem_of_singleton]%elem_of_app Hne; [by apply Ht|done]. }
  set (rows := rows_project (rows_at outputs (slot e)) (row_key (rp_desc projection))).
  assert (Hrows' : recorded rows (chosen (slot e))) by by apply recorded_project.
  assert (Hrne : rw_batches rows <> []) by (subst rows; cbn; by destruct (rw_batches (rows_at outputs (slot e)))).
  set (read := (rp_table projection, rp_names projection)). assert (Eread : read_of e = read) by by subst e.
  set (preds := match relation with None => Some (tp_predicates (pt_plan t)) | Some _ => None end).
  match goal with |- context [match mg_groups st !! read with Some _ => _ | None => ?o end] => set (opened := o) end.
  assert (Hopen : exists group sources groups src, match mg_groups st !! read with Some group => (group, mg_sources st, mg_groups st) | None => opened end = (group, sources, groups) /\
    sources !! group = Some src /\ opens done e read st group sources groups src).
  { destruct (mg_groups st !! read) as [group|] eqn:Egroup.
    - destruct (Hg read group Egroup) as (src & Esrc & Er). destruct (Hs group src Esrc) as ([(e0 & Hin & Hslot) (l & Hl & Hc)] & _ & _).
      exists group, (mg_sources st), (mg_groups st), src. split; [done|]. split; [done|]. rewrite Er in Hc.
      split; [done|done|exists e0; split; [apply elem_of_app; by left|done]|by exists l| |done|done|congruence].
      intros read' i Hi Hne. split; [done|]. intros ->. destruct (Hg read' group Hi) as (src' & Esrc' & Er'). congruence.
    - subst opened. eexists _, _, _, _. split; [reflexivity|]. rewrite lookup_app_r, Nat.sub_diag by done. split; [reflexivity|]. split; cbn.
      + by rewrite lookup_insert_eq.
      + done.
      + exists e. split; [apply elem_of_app; right; by left|]. by subst e.
      + exists []. split; [apply recorded_none|]. intros row. split; [by intros ?%not_elem_of_nil|].
        intros (e' & Hin & Er & Hrow). destruct (Ht e' Hin) as [i Hi]; [by intros E; rewrite E in Hrow; apply not_elem_of_nil in Hrow|]. congruence.
      + intros read' i Hi Hne. rewrite lookup_insert_ne in Hi by done. split; [done|]. intros ->. destruct (Hg read' _ Hi) as (src' & Esrc' & _).
        apply lookup_lt_Some in Esrc'. lia.
      + intros read' i Hi. by rewrite lookup_insert_ne by congruence.
      + intros i Hi. rewrite lookup_app. destruct (mg_sources st !! i) as [src|] eqn:Esrc; [done|]. apply lookup_ge_None in Esrc.
        destruct (i - length (mg_sources st))%nat eqn:E; [lia|done].
      + congruence. }
  destruct Hopen as (group & sources & groups & src & -> & Esrc & [H1 H2 H3 (l0 & Hl0 & Hc0) H5 H6 H7 H8]). clear opened.
  unfold vec_get. rewrite Esrc. cbn [expect obind]. match goal with |- context [with_rows src _ ?p] => set (primary := p) end. clearbody primary.
  destruct (recorded_append (src_rows src) rows l0 (chosen (slot e)) Hl0 Hrows') as (all & -> & Hall & Hallne). cbn [obind].
  eexists. split; [reflexivity|]. split; cbn [mg_outputs mg_sources mg_groups]; [done|done| | |].
  - intros read' i Hi. destruct (decide (read' = read)) as [->|Hne].
    + rewrite H1 in Hi. injection Hi as <-. rewrite list_lookup_insert_eq by by eapply lookup_lt_Some. eexists. by split.
    + destruct (H5 read' i Hi Hne) as [Hi' Hig]. rewrite list_lookup_insert_ne by done. rewrite H7 by done. by apply Hg.
  - intros i src' Hi. destruct (decide (i = group)) as [->|Hne].
    + rewrite list_lookup_insert_eq in Hi by by eapply lookup_lt_Some. injection Hi as <-. cbn [src_rows src_projection with_rows]. rewrite H2.
      split; [|split; [by intros E; apply Hrne, Hallne|done]]. split; [exact H3|]. cbn [src_rows src_projection with_rows]. rewrite H2.
      exists (l0 ++ chosen (slot e)). split; [done|]. intros row. rewrite elem_of_app, Hc0, contributed_snoc, Eread. tauto.
    + rewrite list_lookup_insert_ne in Hi by done. rewrite H7 in Hi by done. destruct (Hs i src' Hi) as (Hga & Hne' & Hgr).
      split; [|split; [done|by apply H6]]. apply gathers_other; [done|]. left. rewrite Eread. intros E. rewrite <- E in Hgr. by apply Hne, H8.
  - intros e' [Hin| ->%list_elem_of_singleton]%elem_of_app Hne.
    + destruct (Ht e' Hin Hne) as [i Hi]. exists i. by apply H6.
    + exists group. by rewrite Eread.
Qed.

Lemma merge_all es : NoDup (slot <$> es) -> Forall (fun e => is_Some (outputs !! (slot e).1) /\ recorded (rows_at outputs (slot e)) (chosen (slot e))) es ->
  exists st, foldM (fun st (e : page_source) => merge_source e.1 st e.2) es {| mg_outputs := outputs; mg_sources := []; mg_groups := ∅ |} = Ok st /\ merged es st.
Proof.
  intros Hnd He. assert (Hgen : forall rest done st, es = done ++ rest -> merged done st ->
    exists st', foldM (fun st (e : page_source) => merge_source e.1 st e.2) rest st = Ok st' /\ merged es st').
  { induction rest as [|e rest IH]; intros done st Hes Hst; [rewrite app_nil_r in Hes; subst done; by exists st|].
    assert (Hin : e ∈ es) by (rewrite Hes; apply elem_of_app; right; by left). rewrite Forall_forall in He. destruct (He e Hin) as [Ho Hrec].
    destruct (merge_source_ok done e st Hst) as (st1 & E1 & Hst1); [|done|done|].
    - rewrite Hes, fmap_app, fmap_cons in Hnd. apply NoDup_app in Hnd as (_ & Hdisj & _). intros Hd. apply (Hdisj _ Hd). by left.
    - cbn [foldM]. rewrite E1. cbn [obind]. apply (IH (done ++ [e])); [|done]. by rewrite <- app_assoc. }
  apply (Hgen es []); [done|]. split; cbn.
  - done.
  - intros s. by rewrite decide_False by apply not_elem_of_nil.
  - intros read i. by rewrite lookup_empty.
  - done.
  - by intros e ?%not_elem_of_nil.
Qed.

(** ** What was read, put back *)

Definition source_slot (src : Source) : string * option nat := (src_owner src, src_relation src).

Lemma rows_at_put (outs : gmap string TableOutput) src bs : is_Some (outs !! src_owner src) ->
  exists outs', put_back outs (src, Ok bs) = Ok outs' /\ dom outs' = dom outs /\
    forall s, rows_at outs' s = if decide (s = source_slot src) then Rows_new bs else rows_at outs s.
Proof.
  destruct src as [owner relation projection rows preds]. cbn. intros [output E]. rewrite E. cbn [expect obind]. eexists. split; [done|].
  split; [by rewrite dom_insert_lookup_L by (by rewrite E)|].
  intros [owner' relation']. unfold rows_at, source_slot. cbn [fst snd src_owner src_relation]. destruct (decide (owner' = owner)) as [->|Hne].
  - rewrite lookup_insert_eq, E. destruct relation as [i|], relation' as [i'|]; cbn [take_rows fst to_rows to_relations].
    + destruct (decide (i' = i)) as [->|Hi]; [by rewrite lookup_insert_eq, decide_True|].
      rewrite lookup_insert_ne by done. by rewrite decide_False by congruence.
    + by rewrite decide_False.
    + by rewrite decide_False.
    + by rewrite decide_True.
  - rewrite lookup_insert_ne by done. by rewrite decide_False by congruence.
Qed.

Lemma put_back_all sources bss : length bss = length sources -> NoDup (source_slot <$> sources) ->
  forall outs : gmap string TableOutput, Forall (fun src => is_Some (outs !! src_owner src)) sources ->
  exists outs', foldM put_back (zip sources (Ok <$> bss)) outs = Ok outs' /\ dom outs' = dom outs /\
    (forall i src bs, sources !! i = Some src -> bss !! i = Some bs -> rows_at outs' (source_slot src) = Rows_new bs) /\
    (forall s, s ∉ source_slot <$> sources -> rows_at outs' s = rows_at outs s).
Proof.
  revert bss. induction sources as [|src sources IH]; intros [|bs bss] Hlen Hnd outs Ho; try done; [by exists outs|].
  rewrite fmap_cons in Hnd. apply NoDup_cons in Hnd as [Hnew Hnd]. apply Forall_cons in Ho as [Ho1 Ho].
  destruct (rows_at_put outs src bs Ho1) as (outs1 & E1 & Hd1 & Hr1).
  destruct (IH bss ltac:(cbn in Hlen; lia) Hnd outs1) as (outs' & E & Hd & Hr & Hkeep).
  { eapply Forall_impl; [exact Ho|]. intros src'. rewrite <- !elem_of_dom. by rewrite Hd1. }
  exists outs'. rewrite fmap_cons. change (zip (?a :: ?l) (?b :: ?k)) with ((a, b) :: zip l k). cbn [foldM]. rewrite E1. cbn [obind].
  split; [done|]. split; [congruence|]. split.
  - intros [|i] src' bs' Hi Hb; [|by apply (Hr i)]. injection Hi as <-. injection Hb as <-.
    rewrite Hkeep by done. rewrite Hr1. by rewrite decide_True.
  - intros s [Hs Hs']%not_elem_of_cons. rewrite Hkeep by done. rewrite Hr1. by rewrite decide_False.
Qed.
End merging.

(** ** The page *)

Context (outputs : gmap string TableOutput) (ts : list PlannedTable) (chosen : string * option nat -> list nat).
Context (Hnames : NoDup ((fun t => tp_table (pt_plan t)) <$> ts)) (Houtputs : Forall (fun t => is_Some (outputs !! tp_table (pt_plan t))) ts).
Context (Hchosen : forall e, e ∈ page_sources ts -> recorded (rows_at outputs (slot e)) (chosen (slot e)) /\
  exists schema content, reads_back e.2.2 schema content /\ Forall (fun row => (row < num_rows content)%nat) (chosen (slot e))).

(** A source reads the rows every source of its read kept. *)
Lemma read_source_ok src : gathers chosen (page_sources ts) src -> rw_batches (src_rows src) <> [] ->
  exists batches schema content, read_source chunk src = Ok batches /\ tables (rp_table (src_projection src)) = Some (schema, content) /\
    rows_back content (rp_row_columns (src_projection src))
      (contributed chosen (page_sources ts) (rp_table (src_projection src), rp_names (src_projection src))) batches.
Proof.
  intros [(e & Hin & _ & Hp) (l & Hl & Hc)] Hne. destruct (Hchosen e Hin) as (_ & schema & content & Hback & _). rewrite Hp in Hback.
  assert (Hlt : Forall (fun row => (row < num_rows content)%nat) l).
  { apply Forall_forall. intros row (e' & Hin' & Er & Hrow)%Hc. destruct (Hchosen e' Hin') as (_ & schema' & content' & [Ht' _ _] & Hlt').
    unfold read_of in Er. injection Er as Er _. destruct Hback as [Ht _ _]. rewrite Er, Ht in Ht'. injection Ht' as <- <-.
    rewrite Forall_forall in Hlt'. by apply Hlt'. }
  destruct (read_rows_ok _ schema content (src_rows src) l Hback Hl Hlt) as (batches & E & l' & [Hs Hl'] & Hd).
  exists batches, schema, content. split; [|split; [apply (rb_table _ _ _ Hback)|]].
  - unfold read_source. destruct Hl as [[? _]|(_ & ps & Ep & _)]; [done|]. rewrite Ep. rewrite bool_decide_eq_true_2 by by eexists. exact E.
  - exists l'. split; [|done]. split; [done|]. intros row. by rewrite Hl', Hc.
Qed.

Lemma page_source_table e : e ∈ page_sources ts -> is_Some (outputs !! (slot e).1).
Proof.
  intros (t & Hin & Ht)%list_elem_of_bind. apply list_elem_of_fmap in Hin as (x & -> & _). rewrite Forall_forall in Houtputs. by apply Houtputs.
Qed.

Lemma slot_inj e e' : e ∈ page_sources ts -> e' ∈ page_sources ts -> slot e = slot e' -> e = e'.
Proof.
  intros [i Hi]%list_elem_of_lookup [j Hj]%list_elem_of_lookup E. pose proof (page_sources_slots ts Hnames) as Hnd.
  assert (i = j) as ->; [|congruence]. apply (NoDup_lookup (slot <$> page_sources ts) i j (slot e)); [done|by rewrite list_lookup_fmap, Hi|by rewrite list_lookup_fmap, Hj, E].
Qed.

(** A source that gathers is of the one read of its slot. *)
Lemma gathers_read src e : gathers chosen (page_sources ts) src -> e ∈ page_sources ts -> slot e = source_slot src ->
  e.2.2 = src_projection src /\ read_of e = (rp_table (src_projection src), rp_names (src_projection src)).
Proof.
  intros [(e0 & Hin0 & Hs0 & Hp0) _] Hin E. assert (e = e0) as -> by (apply slot_inj; [done|done|by rewrite E, Hs0]).
  split; [done|]. unfold read_of. by rewrite Hp0.
Qed.

(** Every source of the page is read, and all of it put back. *)
Lemma read_sources_ok st : merged outputs chosen (page_sources ts) st ->
  exists bss read, parallel_map (read_source chunk) (mg_sources st) = Ok (Ok <$> bss) /\ foldM put_back (zip (mg_sources st) (Ok <$> bss)) (mg_outputs st) = Ok read /\
    dom read = dom outputs /\
    (forall i src, mg_sources st !! i = Some src -> exists batches schema content, rows_at read (source_slot src) = Rows_new batches /\
       tables (rp_table (src_projection src)) = Some (schema, content) /\ rows_back content (rp_row_columns (src_projection src))
         (contributed chosen (page_sources ts) (rp_table (src_projection src), rp_names (src_projection src))) batches) /\
    (forall s, s ∉ source_slot <$> mg_sources st -> rows_at read s = rows_at (mg_outputs st) s).
Proof.
  intros Hm. destruct (mapM_ok_Forall2_intro (read_source chunk) (fun src batches => exists schema content, tables (rp_table (src_projection src)) = Some (schema, content) /\
    rows_back content (rp_row_columns (src_projection src)) (contributed chosen (page_sources ts) (rp_table (src_projection src), rp_names (src_projection src))) batches)
    (mg_sources st)) as (bss & Ebss & Hbss).
  { intros src [i Hi]%list_elem_of_lookup. destruct (mi_sources _ _ _ _ Hm i src Hi) as (Hg & Hne & _).
    destruct (read_source_ok src Hg Hne) as (batches & schema & content & E & Ht & Hb). exists batches. split; [done|]. by exists schema, content. }
  assert (Hnd : NoDup (source_slot <$> mg_sources st)).
  { apply NoDup_alt. intros i j s Hi Hj. apply list_lookup_fmap_Some_1 in Hi as (a & Ea & Hi). apply list_lookup_fmap_Some_1 in Hj as (b & Eb & Hj).
    destruct (mi_sources _ _ _ _ Hm i a Hi) as (Ha & _ & Hga). destruct (mi_sources _ _ _ _ Hm j b Hj) as (Hb & _ & Hgb).
    destruct Ha as [(e & Hin & Hs & Hp) _]. destruct (gathers_read b e Hb Hin) as [_ Er]; [unfold source_slot in *; congruence|].
    rewrite <- Er in Hgb. unfold read_of in Hgb. rewrite Hp in Hgb. congruence. }
  destruct (put_back_all (mg_sources st) bss ltac:(symmetry; by eapply Forall2_length) Hnd (mg_outputs st)) as (read & Eread & Hd & Hr & Hkeep).
  { apply Forall_forall. intros src [i Hi]%list_elem_of_lookup. destruct (mi_sources _ _ _ _ Hm i src Hi) as ([(e & Hin & Hs & _) _] & _).
    apply elem_of_dom. rewrite (mi_dom _ _ _ _ Hm). apply elem_of_dom. pose proof (page_source_table e Hin) as Ho. by rewrite Hs in Ho. }
  exists bss, read. split; [|split; [done|split; [rewrite Hd; apply (mi_dom _ _ _ _ Hm)|split; [|done]]]].
  - unfold parallel_map. apply mapM_ok_Forall2. apply mapM_ok_Forall2 in Ebss. apply Forall2_fmap_r. eapply Forall2_impl; [exact Ebss|]. by intros src b ->.
  - intros i src Hi. destruct (Forall2_lookup_l _ _ _ _ _ Hbss Hi) as (bs & Hb & schema & content & Ht & Hback).
    exists bs, schema, content. split; [by apply (Hr i)|done].
Qed.

(** C9: Reading back the tables of a page whose rows were selected by position. For each read - a table and the fields rendered of
    it - the sources that share it are read together: one of them is left with exactly the rows that some of them kept, each once, in
    file order, with all the columns the response renders, and every other of them is left empty. Nothing fails. *)
Theorem materialize_tables_spec :
  exists read, materialize_tables outputs ts chunk = Ok read /\ dom read = dom outputs /\
    forall e, e ∈ page_sources ts ->
      exists holder batches schema content, holder ∈ page_sources ts /\ read_of holder = read_of e /\ rows_at read (slot holder) = Rows_new batches /\
        tables (rp_table holder.2.2) = Some (schema, content) /\
        rows_back content (rp_row_columns holder.2.2) (contributed chosen (page_sources ts) (read_of e)) batches /\
        forall other, other ∈ page_sources ts -> read_of other = read_of e -> slot other <> slot holder -> rows_at read (slot other) = Rows_new [].
Proof.
  destruct (merge_all outputs chosen (page_sources ts)) as (st & Est & Hm).
  { by apply page_sources_slots. }
  { apply Forall_forall. intros e Hin. split; [by apply page_source_table|]. by destruct (Hchosen e Hin). }
  destruct (read_sources_ok st Hm) as (bss & read & Epar & Eread & Hd & Hr & Hkeep).
  exists read. unfold materialize_tables. rewrite merge_sources_flat, Est by done. cbn [obind]. rewrite Epar. cbn [obind]. split; [done|]. split; [done|].
  intros e Hin. assert (Hout : forall other, other ∈ page_sources ts -> slot other ∉ source_slot <$> mg_sources st -> rows_at read (slot other) = Rows_new []).
  { intros other Ho Hs. rewrite Hkeep by done. rewrite (mi_rows _ _ _ _ Hm). rewrite decide_True; [done|]. by apply list_elem_of_fmap_2. }
  assert (Hheld : forall other, other ∈ page_sources ts -> slot other ∈ source_slot <$> mg_sources st -> exists i src, mg_sources st !! i = Some src /\
    slot other = source_slot src /\ mg_groups st !! read_of other = Some i).
  { intros other Ho (src & E & [i Hi]%list_elem_of_lookup)%list_elem_of_fmap. destruct (mi_sources _ _ _ _ Hm i src Hi) as (Hg & _ & Hgr).
    exists i, src. destruct (gathers_read src other Hg Ho E) as [_ ->]. done. }
  destruct (mg_groups st !! read_of e) as [i|] eqn:Ei.
  - destruct (mi_groups _ _ _ _ Hm _ _ Ei) as (src & Hi & Er). destruct (mi_sources _ _ _ _ Hm i src Hi) as ([(holder & Hh & Hs & Hp) Hrows] & _ & _).
    destruct (Hr i src Hi) as (batches & schema & content & Hread & Ht & Hback). rewrite Er in Hback.
    exists holder, batches, schema, content. rewrite Hp. split; [done|]. split; [unfold read_of at 1; by rewrite Hp|]. split; [by rewrite Hs|]. split; [done|]. split; [done|].
    intros other Ho Eo Hne. apply Hout; [done|]. intros Hin'. destruct (Hheld other Ho Hin') as (j & src' & Hj & Es & Ej). rewrite Eo, Ei in Ej.
    injection Ej as <-. rewrite Hi in Hj. injection Hj as <-. apply Hne. rewrite Es, Hs. done.
  - assert (Hempty : forall other, other ∈ page_sources ts -> read_of other = read_of e -> chosen (slot other) = [] /\ rows_at read (slot other) = Rows_new []).
    { intros other Ho Eo. split.
      - destruct (chosen (slot other)) as [|row l] eqn:E; [done|]. destruct (mi_taken _ _ _ _ Hm other Ho) as [i Hi]; [by rewrite E|]. rewrite Eo in Hi. congruence.
      - apply Hout; [done|]. intros Hin'. destruct (Hheld other Ho Hin') as (j & src & _ & _ & Ej). rewrite Eo in Ej. congruence. }
    destruct (Hchosen e Hin) as (_ & schema & content & Hback & _). exists e, [], schema, content. split; [done|]. split; [done|]. split; [by apply Hempty|].
    split; [apply (rb_table _ _ _ Hback)|]. split; [|intros other Ho Eo _; by apply Hempty].
    exists []. split; [|split; [by split|]; split; [by split; [intros []|]|]; by split; [|constructor]]. split; [constructor|].
    intros row. split; [by intros ?%not_elem_of_nil|]. intros [_ (other & Ho & Eo & Hrow)]. destruct (Hempty other Ho Eo) as [E _]. rewrite E in Hrow. by apply not_elem_of_nil in Hrow.
Qed.
End read.

(** ** Witness *)

Import ArrowInstances.
Import HexInstances.
Import XxhInstances.
Import RowFormatInstances.
Import BatchInstances.

(** The identities of three calls, of which one is below another, and of a transaction. *)
Definition kept_rows (blocks : list Z) (positions : list Z) : Rows :=
  {| rw_batches := [{| columns := [("block_number"%string, AInt UInt64 blocks None)]; num_rows := length blocks |}]; rw_positions := Some [positions] |}.
Definition kept_output : gmap string TableOutput :=
  {["traces"%string := {| to_rows := kept_rows [7; 8] [3; 0]; to_relations := {[0%nat := kept_rows [7; 7] [0; 1]; 1%nat := kept_rows [7] [0]]} |}]}.
Definition kept_positions (s : string * option nat) : list nat :=
  match s.2 with None => [3; 0]%nat | Some O => [0; 1]%nat | Some _ => [0]%nat end.

(** Four rows of calls are kept by two sources, one of them by both: three are read. *)
Example calls_read_once :
  (let* outputs := materialize_tables kept_output [traces_planned] (ex_chunk traces_execution) in
   Ok ((fun s => entries (rows_at outputs s)) <$> [("traces"%string, None); ("traces"%string, Some 0%nat); ("traces"%string, Some 1%nat)])) =
  Ok [[([("block_number", CInt 7); ("transaction_index", CInt 0); ("trace_address", CList [])]%string, None);
       ([("block_number", CInt 7); ("transaction_index", CInt 0); ("trace_address", CList [CInt 0])]%string, None);
       ([("block_number", CInt 8); ("transaction_index", CInt 0); ("trace_address", CList [CInt 1])]%string, None)];
      [];
      [([("block_number", CInt 7); ("transaction_index", CInt 0)]%string, None)]].
Proof. vm_compute. reflexivity. Qed.

Lemma materialize_tables_spec_witness :
  exists read batches, materialize_tables kept_output [traces_planned] (ex_chunk traces_execution) = Ok read /\
    (rows_at read ("traces"%string, None) = Rows_new batches \/ rows_at read ("traces"%string, Some 0%nat) = Rows_new batches) /\
    rows_back traces_content trace_columns (contributed kept_positions (page_sources [traces_planned]) ("traces"%string, [])) batches.
Proof.
  destruct (materialize_tables_spec (Hreader:=traces_laws) (ex_chunk traces_execution) query_tables eq_refl kept_output [traces_planned] kept_positions) as (read & E & _ & H).
  - apply NoDup_singleton.
  - constructor; [by eexists|constructor].
  - intros e Hin. cbn in Hin. repeat (apply elem_of_cons in Hin as [->|Hin]); [| | |by apply not_elem_of_nil in Hin].
    1-2: split; [right; split; [done|]; by eexists [_]|]; exists traces_schema, traces_content; split; [split; [done| |by left]|repeat constructor; cbn; lia];
      eexists; split; [reflexivity|]; split; [done|]; intros row Hrow; cbn in Hrow; do 4 (destruct row as [|row]; [done|]); lia.
    split; [right; split; [done|]; by eexists [_]|]. exists transactions_schema, transactions_content. split; [split; [done| |by left]|repeat constructor; cbn; lia].
    eexists; split; [reflexivity|]; split; [done|]; intros row Hrow; cbn in Hrow; do 3 (destruct row as [|row]; [done|]); lia.
  - destruct (H (traces_planned, (None, pt_projection traces_planned))) as (holder & batches & schema & content & Hin & Hread & Hrows & Ht & Hback & _); [by left|].
    exists read, batches. split; [exact E|]. clear E H. apply list_elem_of_lookup in Hin as [[|[|[|i]]] Hi]; [injection Hi as <-|injection Hi as <-|injection Hi as <-; discriminate Hread|discriminate Hi].
    + injection Ht as <- <-. split; [by left|exact Hback].
    + injection Ht as <- <-. split; [by right|exact Hback].
Defined.
