(* ===== verification/ArrowOut.v ===== *)
(** A page as Arrow streams (src/output/arrow_out.rs): each table's columns and rows
    picked, rows several sources offer kept once, hex text decoded, and the streams
    framed one after another. Writing a stream and converting rows to bytes are
    Arrow's and parameters. *)
From stdpp Require Import base strings list gmap.
From Stdlib Require Import ZArith Lia.
From S2P Require Import Prelude Machine ListLib Errors Arrow Catalog Integers Counting BlockIndex Rows KeyColumns Keys Projection Names Scan Sources Retain.

#[local] Open Scope Z_scope.

(** ** What Arrow does *)

(** [arrow::compute::concat_batches] of batches of one schema, and [StreamWriter]: a
    stream of a schema's batches, compressed or not. *)
Class StreamKernels := {
  concat_batches : list (string * data_type) -> list RecordBatch -> option RecordBatch;
  ipc_stream : bool -> list (string * data_type) -> list RecordBatch -> option (list Z);
}.

(** Batches of one schema, one at least, make one batch of all their rows. *)
Class StreamLaws `{ArrowKernels} (S : StreamKernels) : Prop :=
  concat_batches_rows schema batches merged : batches <> [] ->
    Forall (fun b => batch_ok b /\ batch_schema b = schema) batches -> concat_batches schema batches = Some merged ->
    batch_ok merged /\ batch_schema merged = schema /\ rows_of merged = batches ≫= rows_of.

(** A reference, for witnesses to import: columns concatenated one by one, and a stream of one byte a row. *)
Module StreamInstances.
#[export] Instance reference_streams `{ArrowKernels} : StreamKernels := {|
  concat_batches schema batches :=
    cols ← mapM (fun i => concat_arrays (omap (fun b => snd <$> columns b !! i) batches)) (seq 0 (length schema));
    Some {| columns := zip schema.*1 cols; num_rows := sum_list (num_rows <$> batches) |};
  ipc_stream compress schema batches := Some (batches ≫= fun b => replicate (num_rows b) 1);
|}.
End StreamInstances.

(** The columns of a batch as fields of its schema: it holds the nulls it has. *)
Definition own_field (c : string * array) : Field := {| f_name := c.1; f_type := array_type c.2; f_nullable := true |}.

Section arrow_out.
Context {K : ArrowKernels} {R : RowFormat} {B : BatchKernels} {D : HexDecoder} {S : StreamKernels}.

(** [RecordBatch::try_new] of named columns. *)
Definition batch_of (cols : list (string * array)) : result RecordBatch :=
  ok_or (try_new (own_field <$> cols) cols.*2) OtherError.

(** [src/src/output/arrow_out.rs:212-226] project_columns. *)
Definition project_columns (batch : RecordBatch) (names : list string) : result RecordBatch :=
  batch_of (omap (fun n => index_of batch n ≫= fun i => columns batch !! i) names).

(** ** Rows once *)

(** [src/src/output/arrow_out.rs:L281-284] dedup_first: whether each row is the first of its bytes. *)
Definition first_of_bytes (seen : gset (list Z)) (rows : list (list Z)) : list bool :=
  (fold_left (fun '(mask, seen) row => (mask ++ [bool_decide (row ∉ seen)], {[row]} ∪ seen)) rows ([], seen) : list bool * gset (list Z)).1.

(** [src/src/output/arrow_out.rs:260-286] dedup_first. *)
Definition dedup_first (batch : RecordBatch) (key_cols : list string) : result RecordBatch :=
  let arrays := omap (column_by_name batch) key_cols in
  if bool_decide (arrays = []) then Ok batch
  else
    let fields := array_type <$> arrays in
    let* _ := ensure (row_supported fields) OtherError in
    let* rows := convert fields arrays in
    let* bytes := mapM_ok (vec_get rows) (seq 0 (num_rows batch)) in
    Ok (filter_record_batch batch (of_bools (first_of_bytes ∅ bytes))).

(** ** Hex text as bytes *)

(** [str::strip_prefix]. *)
Definition strip_prefix (prefix s : string) : option string :=
  if String.prefix prefix s then Some (String.substring (String.length prefix) (String.length s - String.length prefix) s) else None.

(** [src/src/output/arrow_out.rs:380-397] decode_hex: the bytes left in the buffer. *)
Definition decode_hex (text : string) : result (option (list Z)) :=
  let digits := text_bytes (default text (strip_prefix "0x" text)) in
  if Nat.even (length digits) then Ok (hex_decode digits)
  else
    let* first := vec_get digits 0 in
    Ok (high ← hex_decode [48; first]; low ← hex_decode (drop 1 digits); Some (high ++ low)).

(** [src/src/output/arrow_out.rs:L352-369] hexify_batch: one row's text. *)
Definition hexify_value (values : list string) (nulls : null_buffer) (row : nat) : result (list Z) :=
  if negb (is_valid_in nulls row) then Ok []
  else
    let* text := vec_get values row in
    let* bytes := decode_hex text in
    ok_or bytes (EngineError MalformedChunkData).

(** [src/src/output/arrow_out.rs:326-378] hexify_batch. *)
Definition hexify_batch (batch : RecordBatch) (hex_idxs : gset nat) : result RecordBatch :=
  let* cols := mapM_ok (fun e : nat * (string * array) =>
    let '(i, (name, col)) := e in
    match bool_decide (i ∈ hex_idxs), col with
    | true, AText Utf8 values nulls =>
        let* bytes := mapM_ok (hexify_value values nulls) (seq 0 (length values)) in
        Ok (name, AOther "Binary" bytes nulls)
    | _, _ => Ok (name, col)
    end) (enumerate (columns batch)) in
  batch_of cols.

(** [src/src/output/arrow_out.rs:L303-319] hexify_group: the columns declared hex. *)
Definition hex_columns (batch : RecordBatch) (table_desc : TableDescription) : gset nat :=
  list_to_set (omap (fun e : nat * (string * array) =>
    let '(i, (name, col)) := e in
    if bool_decide (array_type col = DText Utf8) && bool_decide ((assoc name (td_columns table_desc) ≫= cd_encoding) = Some HexBytes)
    then Some i else None) (enumerate (columns batch))).

(** [src/src/output/arrow_out.rs:288-324] hexify_group. *)
Definition hexify_group (batches : list RecordBatch) (table_desc : TableDescription) : result (list RecordBatch) :=
  match batches with
  | [] => Ok batches
  | first :: _ =>
      let hex_idxs := hex_columns first table_desc in
      if bool_decide (hex_idxs = ∅) then Ok batches else mapM_ok (fun b => hexify_batch b hex_idxs) batches
  end.

(** ** Frames *)

(** [src/src/output/arrow_out.rs:399-439] write_arrow_frames: what is written after [writer]. *)
Definition write_arrow_frames (writer : list Z) (groups : list (string * list RecordBatch)) (compress : bool) : result (list Z) :=
  foldM (fun writer (group : string * list RecordBatch) =>
    let '(name, batches) := group in
    match batches with
    | [] => Ok writer
    | first :: _ =>
        if forallb (fun b => num_rows b =? 0)%nat batches then Ok writer
        else
          let* payload := ok_or (ipc_stream compress (batch_schema first) (filter (fun b => (0 < num_rows b)%nat) batches)) OtherError in
          let name_bytes := text_bytes name in
          Ok (writer ++ to_le_bytes 4 (as_u32 (Z.of_nat (length name_bytes))) ++ name_bytes ++
              to_le_bytes 4 (as_u32 (Z.of_nat (length payload))) ++ payload)
    end) groups writer.

(** ** The page *)

(** [src/src/output/arrow_out.rs:57-65] ArrowOutput. *)
Record ArrowOutput := { ao_data : list Z; ao_first_block : Z; ao_last_block : Z; ao_num_blocks : nat }.

(** [src/src/output/arrow_out.rs:68-75] ArrowOutput::new. *)
Definition ArrowOutput_new (data : list Z) (selected_blocks : list Z) : result ArrowOutput :=
  let* first := vec_get selected_blocks 0 in
  let* last := vec_get selected_blocks (length selected_blocks - 1) in
  Ok {| ao_data := data; ao_first_block := first; ao_last_block := last; ao_num_blocks := length selected_blocks |}.

(** [src/src/output/arrow_out.rs:L177-185] arrow_output: the rows of the page's
    blocks of each batch, of the columns wanted. *)
Definition trim_batches (batches : list RecordBatch) (cols : list string) (bn : string) (keep : Z -> bool) : result (list RecordBatch) :=
  foldM (fun trimmed b =>
    let* projected := project_columns b cols in
    let* f := filter_to_blocks projected bn keep in
    Ok (if (0 <? num_rows f)%nat then trimmed ++ [f] else trimmed)) batches [].

(** [src/src/output/arrow_out.rs:L146-150] arrow_output: a group's batches, with their hex text
    as bytes where bytes are asked for. *)
Definition hexify (binary : bool) (batches : list RecordBatch) (desc : TableDescription) : result (list RecordBatch) :=
  if binary then hexify_group batches desc else Ok batches.

(** [src/src/output/arrow_out.rs:L128-152] arrow_output: the headers' stream. *)
Definition header_group (header : OutputHeader) (keep : Z -> bool) (binary : bool) : result (string * list RecordBatch) :=
  let bd := rp_desc (oh_projection header) in
  let bn := td_block_number_column bd in
  let wanted := push_unique [bn] (rp_rendered (oh_projection header)) in
  let name := request_name bd (rp_table (oh_projection header)) in
  let* batches := trim_batches (oh_batches header) wanted bn keep in
  let* batches := hexify binary batches bd in
  Ok (name, batches).

(** [src/src/output/arrow_out.rs:L155-206] arrow_output: a table's stream. *)
Definition table_group (table : OutputTable) (keep : Z -> bool) (binary : bool) : result (option (string * list RecordBatch)) :=
  let td := out_desc table in
  let bn := td_block_number_column td in
  let* first := vec_get (out_sources table) 0 in
  let emit_cols := push_unique [bn] (rp_rendered (os_projection first)) in
  let multi := (1 <? length (out_sources table))%nat in
  let key := row_key td in
  let proc_cols := if multi then push_unique emit_cols key else emit_cols in
  let* projected := trim_batches (out_sources table ≫= fun source => rw_batches (os_rows source)) proc_cols bn keep in
  match projected with
  | [] => Ok None
  | p :: _ =>
      let* batches :=
        if multi then
          let* merged := ok_or (concat_batches (batch_schema p) projected) OtherError in
          let* deduped := dedup_first merged key in
          let* emitted := project_columns deduped emit_cols in
          Ok [emitted]
        else Ok projected in
      let* batches := hexify binary batches td in
      Ok (Some (out_name table, batches))
  end.

(** [src/src/output/arrow_out.rs:112-210] arrow_output. *)
Definition arrow_output (blocks : list Z) (header : OutputHeader) (tables : list OutputTable) (compress binary : bool) : result ArrowOutput :=
  let selected : gset Z := list_to_set blocks in
  let keep b := bool_decide (b ∈ selected) in
  let* group := header_group header keep binary in
  let* groups := mapM_ok (fun table => table_group table keep binary) tables in
  let* data := write_arrow_frames [] (group :: omap id groups) compress in
  ArrowOutput_new data blocks.
End arrow_out.
