(* ===== verification/ArrowOutSpec.v ===== *)
(** What the Arrow output is (src/output/arrow_out.rs): frames that read back as they were
    written, hex text as the number it spells, and rows kept by the first of their keys. *)
From stdpp Require Import base strings list gmap.
From Stdlib Require Import ZArith Lia.
From S2P Require Import Prelude Machine ListLib Errors Arrow ArrowReference Catalog Integers Counting BlockIndex Rows KeyColumns Keys Projection Names Json Sets Predicate PredicateSpec RowPredicate ItemLists Scan Returned Sources Retain ArrowOut.

#[local] Open Scope Z_scope.

(** ** Frames *)

(** A frame: a name and a payload, each after its length in four bytes. *)
Definition frame_bytes (f : list Z * list Z) : list Z :=
  to_le_bytes 4 (as_u32 (Z.of_nat (length f.1))) ++ f.1 ++ to_le_bytes 4 (as_u32 (Z.of_nat (length f.2))) ++ f.2.

(** A piece after its length, and what is left. *)
Definition read_piece (data : list Z) : option (list Z * list Z) :=
  let len := Z.to_nat (from_le_bytes (take 4 data)) in
  let rest := drop 4 data in
  if (4 <=? length data)%nat && (len <=? length rest)%nat then Some (take len rest, drop len rest) else None.

(** Frames, read as the format says: to the end of the data. *)
Fixpoint read_frames (fuel : nat) (data : list Z) : option (list (list Z * list Z)) :=
  match fuel, data with
  | _, [] => Some []
  | O, _ => None
  | S fuel, data =>
      '(name, data) ← read_piece data;
      '(payload, data) ← read_piece data;
      frames ← read_frames fuel data;
      Some ((name, payload) :: frames)
  end.

(** A length that four bytes hold. *)
Definition fits_u32 (l : list Z) : Prop := Z.of_nat (length l) < 2 ^ 32.

Lemma read_piece_ok l rest : fits_u32 l -> read_piece (to_le_bytes 4 (as_u32 (Z.of_nat (length l))) ++ l ++ rest) = Some (l, rest).
Proof.
  intros Hl. unfold fits_u32 in Hl. unfold as_u32. rewrite as_unsigned_id by lia. unfold read_piece.
  assert (H4 : length (to_le_bytes 4 (Z.of_nat (length l))) = 4%nat) by apply length_to_le_bytes.
  rewrite take_app_le, take_ge by lia. rewrite from_to_le_bytes by (cbn; lia). rewrite Nat2Z.id.
  rewrite drop_app_ge, H4 by lia. rewrite Nat.sub_diag, drop_0. rewrite !length_app, H4.
  rewrite (proj2 (Nat.leb_le _ _)) by lia. rewrite (proj2 (Nat.leb_le _ _)) by lia. cbn [andb].
  by rewrite take_app_length, drop_app_length.
Qed.

Lemma read_frames_ok frames : Forall (fun f => fits_u32 f.1 /\ fits_u32 f.2) frames ->
  forall fuel, (length frames <= fuel)%nat -> read_frames fuel (frames ≫= frame_bytes) = Some frames.
Proof.
  induction 1 as [|[name payload] frames [Hn Hp] _ IH]; intros fuel Hf; [by destruct fuel|].
  destruct fuel as [|fuel]; [cbn in Hf; lia|]. rewrite bind_cons. unfold frame_bytes at 1. cbn [fst snd].
  assert (Hne : forall fuel' l, l <> [] -> read_frames (S fuel') l =
    ('(name, data) ← read_piece l; '(payload, data) ← read_piece data; frames ← read_frames fuel' data; Some ((name, payload) :: frames))) by by intros ? [].
  rewrite Hne by by intros [? _]%app_nil. rewrite <- !app_assoc. rewrite read_piece_ok by done. cbn [mbind option_bind]. rewrite read_piece_ok by done. cbn [mbind option_bind].
  rewrite IH by (cbn in Hf; lia). done.
Qed.

Section frames.
Context {S : StreamKernels}.

(** The stream of a group with rows. *)
Definition group_stream (compress : bool) (group : string * list RecordBatch) : option (list Z) :=
  ipc_stream compress (from_option batch_schema [] (head group.2)) (filter (fun b => (0 < num_rows b)%nat) group.2).

Definition has_rows (group : string * list RecordBatch) : Prop := Exists (fun b => (0 < num_rows b)%nat) group.2.
#[local] Instance has_rows_dec group : Decision (has_rows group).
Proof. unfold has_rows. apply _. Defined.

(** Frames of the groups with rows, one after another. *)
Definition framed (compress : bool) (groups : list (string * list RecordBatch)) (frames : list (list Z * list Z)) : Prop :=
  Forall2 (fun group f => f.1 = text_bytes group.1 /\ group_stream compress group = Some f.2) (filter has_rows groups) frames.

(** C11: The groups with rows are framed in order, each by its name and its stream, and the frames read back as they were
    written when no name and no stream is 4 GiB long; writing fails only on a stream that Arrow refuses. *)
Theorem write_arrow_frames_spec groups compress :
  match write_arrow_frames [] groups compress with
  | Ok data => exists frames, framed compress groups frames /\
      (Forall (fun f => fits_u32 f.1 /\ fits_u32 f.2) frames -> forall fuel, (length frames <= fuel)%nat -> read_frames fuel data = Some frames)
  | Err e => e = OtherError /\ Exists (fun group => has_rows group /\ group_stream compress group = None) groups
  | Panic => False
  end.
Proof.
  assert (Hgen : forall groups writer, match write_arrow_frames writer groups compress with
    | Ok data => exists frames, framed compress groups frames /\ data = writer ++ (frames ≫= frame_bytes)
    | Err e => e = OtherError /\ Exists (fun group => has_rows group /\ group_stream compress group = None) groups
    | Panic => False end).
  { clear groups. unfold write_arrow_frames, framed. induction groups as [|[name batches] groups IH]; intros writer; cbn [foldM].
    { exists []. rewrite app_nil_r. split; [constructor|done]. }
    assert (Hempty : ~ has_rows (name, batches) -> filter has_rows ((name, batches) :: groups) = filter has_rows groups) by (intros; by rewrite filter_cons_False).
    destruct batches as [|first batches]; cbn [obind].
    { specialize (IH writer). destruct (foldM _ groups writer) as [data|e|]; [rewrite Hempty; [done|by intros ?%Exists_nil]| |done]. split; [apply IH|apply Exists_cons_tl, IH]. }
    destruct (forallb _ (first :: batches)) eqn:Ez; cbn [obind].
    { assert (Hn : ~ has_rows (name, first :: batches)).
      { unfold has_rows. cbn [snd]. intros (b & Hin%list_elem_of_In & Hb)%Exists_exists. rewrite forallb_forall in Ez. apply Ez, Nat.eqb_eq in Hin. lia. }
      specialize (IH writer). destruct (foldM _ groups writer) as [data|e|]; [by rewrite Hempty| |done]. split; [apply IH|apply Exists_cons_tl, IH]. }
    assert (Hrows : has_rows (name, first :: batches)).
    { unfold has_rows. cbn [snd]. apply Exists_exists. assert (Hz : ~ Forall (fun b => (num_rows b =? 0)%nat = true) (first :: batches)).
      { intros Hall. rewrite Forall_forall in Hall. assert (Ht : forallb (fun b => (num_rows b =? 0)%nat) (first :: batches) = true); [|congruence].
        apply forallb_forall. intros b Hb%list_elem_of_In. by apply Hall. }
      apply not_Forall_Exists in Hz; [|intros b; apply bool_eq_dec]. apply Exists_exists in Hz as (b & Hb & Hn). exists b. split; [done|].
      cbn in Hn. destruct (num_rows b); [by destruct Hn|lia]. }
    change (ipc_stream compress (batch_schema first) _) with (group_stream compress (name, first :: batches)).
    destruct (group_stream compress (name, first :: batches)) as [payload|] eqn:Es; cbn [ok_or obind].
    - match goal with |- context [foldM ?f groups ?w] => specialize (IH w); destruct (foldM f groups w) as [data|e|] end; [|split; [apply IH|apply Exists_cons_tl, IH]|done].
      destruct IH as (frames & Hf & ->). exists ((text_bytes name, payload) :: frames). rewrite filter_cons_True by done. split; [by constructor|].
      rewrite bind_cons. unfold frame_bytes at 2. cbn [fst snd]. by rewrite <- !app_assoc.
    - split; [done|]. by apply Exists_cons_hd. }
  specialize (Hgen groups []). destruct (write_arrow_frames [] groups compress) as [data|e|]; [|done..]. destruct Hgen as (frames & Hf & ->).
  exists frames. split; [done|]. intros Hl fuel Hfuel. by apply read_frames_ok.
Qed.
End frames.

(** ** Hex text *)

(** The number digits spell, after another. *)
Fixpoint hex_number (n : Z) (digits : list Z) : option Z :=
  match digits with
  | [] => Some n
  | d :: digits => v ← hex_digit d; hex_number (n * 16 + v) digits
  end.

Lemma hex_digit_range d v : hex_digit d = Some v -> 0 <= v < 16.
Proof. unfold hex_digit. repeat (case_match; [intros [= <-]; lia|]). done. Qed.

Lemma from_be_bytes_foldl l : from_be_bytes l = foldl (fun n b => n * 256 + b) 0 l.
Proof.
  unfold from_be_bytes. induction l as [|b l IH] using rev_ind; [done|]. rewrite rev_app_distr, foldl_app, <- IH. cbn [rev app from_le_bytes foldl]. lia.
Qed.

(** Pairs of digits decode to the bytes of the number they spell. *)
Lemma reference_decode_spec k : forall digits n, length digits = (2 * k)%nat ->
  match reference_hex_decode digits with
  | Some bytes => length bytes = k /\ Forall (fun b => 0 <= b < 256) bytes /\ hex_number n digits = Some (foldl (fun n b => n * 256 + b) n bytes)
  | None => hex_number n digits = None
  end.
Proof.
  induction k as [|k IH]; intros digits n Hl.
  { destruct digits; [|cbn in Hl; lia]. by split_and!. }
  destruct digits as [|high [|low digits]]; [cbn in Hl; lia..|]. cbn [reference_hex_decode hex_number].
  destruct (hex_digit high) as [h|] eqn:Eh; cbn [mbind option_bind]; [|done]. destruct (hex_digit low) as [l|] eqn:El; cbn [mbind option_bind]; [|done].
  specialize (IH digits ((n * 16 + h) * 16 + l) ltac:(cbn in Hl; lia)). apply hex_digit_range in Eh, El.
  destruct (reference_hex_decode digits) as [bytes|]; cbn [mbind option_bind]; [|done]. destruct IH as (Hlen & Hb & Hn).
  split; [cbn; lia|]. split; [constructor; [lia|done]|]. rewrite Hn. cbn [foldl]. do 2 f_equal. lia.
Qed.

Section hex.
Context {D : HexDecoder} {DL : HexDecoderLaws D}.

(** The digits of a text: those after [0x], or all of it. *)
Definition hex_digits (text : string) : list Z := text_bytes (default text (strip_prefix "0x" text)).

(** C12: Hex text decodes to the bytes of the number its digits spell, most significant first, as if an odd count had a zero
    before it; a text with anything else is refused, and none panics. *)
Theorem decode_hex_spec text :
  exists decoded, decode_hex text = Ok decoded /\
  match decoded with
  | Some bytes => length bytes = ((length (hex_digits text) + 1) / 2)%nat /\ Forall (fun b => 0 <= b < 256) bytes /\
      hex_number 0 (hex_digits text) = Some (from_be_bytes bytes)
  | None => hex_number 0 (hex_digits text) = None
  end.
Proof.
  unfold decode_hex. fold (hex_digits text). set (digits := hex_digits text). clearbody digits.
  destruct (Nat.even (length digits)) eqn:He.
  - apply Nat.even_spec in He as [k Hk]. eexists. split; [done|]. rewrite hex_decodes. pose proof (reference_decode_spec k digits 0 Hk) as Hs.
    destruct (reference_hex_decode digits); [|done]. destruct Hs as (-> & Hs). rewrite from_be_bytes_foldl. split; [|done]. rewrite Hk. apply (Nat.div_unique _ _ _ 1); lia.
  - assert (Ho : Nat.Odd (length digits)) by (apply Nat.odd_spec; unfold Nat.odd; by rewrite He). destruct Ho as [k Hk].
    destruct digits as [|d digits]; [cbn in Hk; lia|]. unfold vec_get. cbn [lookup list_lookup expect obind drop]. eexists. split; [done|].
    rewrite !hex_decodes. cbn [reference_hex_decode]. change (hex_digit 48) with (Some 0). cbn [mbind option_bind hex_number].
    rewrite drop_0. destruct (hex_digit d) as [v|] eqn:Ed; cbn [mbind option_bind]; [|done]. apply hex_digit_range in Ed.
    pose proof (reference_decode_spec k digits (0 * 16 + v) ltac:(cbn in Hk; lia)) as Hs.
    destruct (reference_hex_decode digits) as [bytes|]; [|exact Hs]. destruct Hs as (Hl & Hb & Hn). cbn [mbind option_bind app length].
    cbn [length] in Hk. split; [rewrite Hl; apply (Nat.div_unique _ _ _ 0); lia|]. split; [constructor; [lia|done]|]. rewrite from_be_bytes_foldl, Hn. cbn [foldl]. do 2 f_equal; lia.
Qed.
End hex.

(** ** Rows once *)

Section dedup.
Context {X A : Type} `{EqDecision X}.

(** Of rows by their keys, the first of each. *)
Fixpoint keep_first (seen : list X) (l : list (X * A)) : list A :=
  match l with
  | [] => []
  | (key, row) :: l => if decide (key ∈ seen) then keep_first seen l else row :: keep_first (key :: seen) l
  end.
End dedup.

Lemma first_of_bytes_masked {X A} `{EqDecision X} (rows : list (list Z)) (keyed : list (X * A)) :
  length rows = length keyed ->
  (forall i j r r' k k', rows !! i = Some r -> rows !! j = Some r' -> keyed.*1 !! i = Some k -> keyed.*1 !! j = Some k' -> r = r' <-> k = k') ->
  masked (of_bools (first_of_bytes ∅ rows)) keyed.*2 = keep_first [] keyed.
Proof.
  intros Hlen Heq. unfold first_of_bytes.
  assert (Hgen : forall rows2 keyed2 rows1 keyed1 mask (seen : gset (list Z)) seen', rows = rows1 ++ rows2 -> keyed = keyed1 ++ keyed2 ->
    length rows1 = length keyed1 -> (forall r, r ∈ seen <-> r ∈ rows1) -> (forall k, k ∈ seen' <-> k ∈ keyed1.*1) ->
    exists rest, (fold_left (fun '(mask, seen) row => (mask ++ [bool_decide (row ∉ seen)], {[row]} ∪ seen)) rows2 (mask, seen) : list bool * gset (list Z)).1 = mask ++ rest /\
      masked (of_bools rest) keyed2.*2 = keep_first seen' keyed2).
  { induction rows2 as [|r rows2 IH]; intros keyed2 rows1 keyed1 mask seen seen' Er Ek Hl Hs Hs'.
    - exists []. rewrite app_nil_r in *. subst rows1. assert (keyed2 = []) as ->; [|done].
      apply (f_equal length) in Ek. rewrite length_app in Ek. destruct keyed2; [done|cbn in Ek; lia].
    - destruct keyed2 as [|[k a] keyed2].
      { exfalso. apply (f_equal length) in Er, Ek. rewrite length_app in Er, Ek. cbn in *. lia. }
      cbn [fold_left]. destruct (IH keyed2 (rows1 ++ [r]) (keyed1 ++ [(k, a)]) (mask ++ [bool_decide (r ∉ seen)]) ({[r]} ∪ seen) (if decide (k ∈ seen') then seen' else k :: seen')) as (rest & E & Hm).
      { by rewrite <- app_assoc. } { by rewrite <- app_assoc. } { rewrite !length_app. cbn. lia. }
      { intros r'. rewrite elem_of_union, elem_of_singleton, Hs, elem_of_app, list_elem_of_singleton. tauto. }
      { intros k'. rewrite fmap_app, elem_of_app, <- Hs'. change ([(k, a)].*1) with [k]. rewrite list_elem_of_singleton.
        case_decide as Hin; [|rewrite elem_of_cons; tauto]. split; [tauto|]. by intros [?| ->]. }
      exists (bool_decide (r ∉ seen) :: rest). rewrite E, <- app_assoc. split; [done|]. cbn [keep_first].
      assert (Hiff : r ∈ seen <-> k ∈ seen').
      { assert (Hr : rows !! length rows1 = Some r) by (rewrite Er, lookup_app_r, Nat.sub_diag by done; done).
        assert (Hk : keyed.*1 !! length rows1 = Some k) by (rewrite Ek, fmap_app, Hl, lookup_app_r by (rewrite length_fmap; done); by rewrite length_fmap, Nat.sub_diag).
        rewrite Hs, Hs', !list_elem_of_lookup. split; intros [i Hi].
        - assert (Hik : (i < length keyed1)%nat) by (rewrite <- Hl; by eapply lookup_lt_Some).
          destruct (lookup_lt_is_Some_2 keyed1.*1 i ltac:(by rewrite length_fmap)) as [k' Hk']. exists i. rewrite Hk'. f_equal.
          apply (Heq i (length rows1) r r k' k); [rewrite Er; by apply lookup_app_l_Some|done|rewrite Ek, fmap_app; by apply lookup_app_l_Some|done|done].
        - assert (Hik : (i < length rows1)%nat) by (rewrite Hl, <- (length_fmap fst); by eapply lookup_lt_Some).
          destruct (lookup_lt_is_Some_2 rows1 i Hik) as [r' Hr']. exists i. rewrite Hr'. f_equal.
          apply (Heq i (length rows1) r' r k k); [rewrite Er; by apply lookup_app_l_Some|done|rewrite Ek, fmap_app; by apply lookup_app_l_Some|done|done]. }
      rewrite fmap_cons. cbn [of_bools fmap list_fmap masked selects default].
      destruct (decide (k ∈ seen')) as [Hin|Hin].
      + rewrite bool_decide_eq_false_2 by tauto. cbn. exact Hm.
      + rewrite bool_decide_eq_true_2 by tauto. cbn. f_equal. exact Hm. }
  destruct (Hgen rows keyed [] [] [] ∅ []) as (rest & -> & Hm); [done..| | |exact Hm].
  - intros r. split; [by intros ?%not_elem_of_empty|by intros ?%not_elem_of_nil].
  - intros k. split; by intros ?%not_elem_of_nil.
Qed.

(** ** A table's stream *)

Section group.
Context {K : ArrowKernels} {L : ArrowLaws K} {R : RowFormat} {RL : RowFormatLaws R} {B : BatchKernels} {BL : BatchLaws B} {D : HexDecoder}.
Context {S : StreamKernels} {SL : StreamLaws S}.

Lemma batch_of_ok n cols : cols <> [] -> Forall (fun c : string * array => array_len c.2 = n) cols -> batch_of cols = Ok {| columns := cols; num_rows := n |}.
Proof.
  intros Hne Hl. unfold batch_of. rewrite (try_new_fits _ _ n).
  - cbn. do 2 f_equal. rewrite <- list_fmap_compose. clear. induction cols as [|[name a] cols IH]; [done|]. cbn. by rewrite IH.
  - by destruct cols.
  - clear Hne. induction Hl as [|[name a] cols Ha _ IH]; [constructor|]. constructor; [|done]. split; [done|]. split; [done|]. done.
Qed.

(** The columns of a batch, by their names. *)
Definition named_columns (b : RecordBatch) (names : list string) : list (string * array) := omap (fun n => pair n <$> column_by_name b n) names.

Lemma named_columns_eq b names : omap (fun n => index_of b n ≫= fun i => columns b !! i) names = named_columns b names.
Proof.
  unfold named_columns. induction names as [|n names IH]; [done|]. cbn [omap list_omap]. rewrite IH. rewrite index_of_column.
  destruct (index_of b n) as [i|] eqn:E; cbn; [|done]. apply index_of_name_lookup in E as (a & Ha). by rewrite Ha.
Qed.

Definition column_types (b : RecordBatch) (names : list string) : list (string * data_type) := (fun c => (c.1, array_type c.2)) <$> named_columns b names.

Lemma named_columns_row b names row : (fun c => (c.1, cell_at c.2 row)) <$> named_columns b names = project_row names (row_of b row).
Proof.
  unfold named_columns, project_row, row_of. rewrite list_fmap_omap. apply list_omap_ext. apply Forall2_same_length_lookup. split; [done|].
  intros i x y Hx Hy. rewrite Hx in Hy. injection Hy as <-. rewrite (assoc_map (fun a => cell_at a row)). unfold column_by_name. by destruct (assoc x (columns b)).
Qed.

Lemma project_columns_ok b names : batch_ok b -> named_columns b names <> [] ->
  exists b', project_columns b names = Ok b' /\ batch_ok b' /\ rows_of b' = project_row names <$> rows_of b /\ batch_schema b' = column_types b names /\
    columns b' = named_columns b names /\ num_rows b' = num_rows b.
Proof.
  intros Hok Hne. assert (Hc : Forall (fun c : string * array => array_ok c.2 /\ array_len c.2 = num_rows b) (named_columns b names)).
  { apply Forall_forall. intros c (n & _ & E)%list_elem_of_omap. destruct (column_by_name b n) as [a|] eqn:Ea; [|done]. injection E as <-. by apply (column_ok b n). }
  exists {| columns := named_columns b names; num_rows := num_rows b |}. split.
  - unfold project_columns. rewrite named_columns_eq. apply batch_of_ok; [done|]. eapply Forall_impl; [exact Hc|]. by intros c [_ ?].
  - split; [exact Hc|]. split; [|done]. unfold rows_of. cbn [num_rows]. rewrite <- list_fmap_compose. apply list_fmap_ext. intros _ row _. apply named_columns_row.
Qed.

(** A batch with blocks: its block-number column is of the type and has no nulls. *)
Definition blocks_column (t : int_type) (bn : string) (b : RecordBatch) : Prop :=
  exists values nulls, column_by_name b bn = Some (AInt t values nulls) /\ count_nulls nulls = O.

(** A row is of a block that is kept. *)
Definition row_kept (t : int_type) (bn : string) (keep : Z -> bool) (row : list (string * cell)) : bool :=
  match assoc bn row with Some (CInt z) => keep (block_number_of t z) | _ => false end.

Lemma masked_filter {A} (f : A -> bool) (l : list A) : masked (of_bools (f <$> l)) l = filter (fun x => f x = true) l.
Proof.
  induction l as [|x l IH]; [done|]. rewrite filter_cons, fmap_cons. change (of_bools (f x :: (f <$> l))) with (Some (f x) :: of_bools (f <$> l)).
  cbn [masked selects default]. rewrite IH. case_decide as E; [by rewrite E|]. by destruct (f x).
Qed.

Lemma filter_to_blocks_ok t bn keep b : batch_ok b -> blocks_column t bn b ->
  exists b', filter_to_blocks b bn keep = Ok b' /\ batch_ok b' /\ rows_of b' = filter (fun row => row_kept t bn keep row = true) (rows_of b) /\ batch_schema b' = batch_schema b.
Proof.
  intros Hok (values & nulls & Ea & Hn). unfold filter_to_blocks, blocks_mask. rewrite Ea. unfold BlockNumbers_resolve. cbn [IntColumn_resolve].
  unfold null_count. cbn [array_nulls]. rewrite Hn. cbn [Nat.ltb Nat.leb obind bn_reader]. destruct (column_ok b bn _ Hok Ea) as [Hc Hl]. cbn [array_len] in Hl.
  eexists. split; [done|]. unfold int_len. cbn [ic_values]. rewrite Hl.
  match goal with |- context [filter_record_batch b ?m] => set (mask := m) end.
  assert (Emask : mask = of_bools (row_kept t bn keep <$> rows_of b)).
  { subst mask. unfold rows_of. rewrite <- list_fmap_compose. f_equal. apply list_fmap_ext. intros i row Hi. apply lookup_seq in Hi as [-> Hi].
    unfold compose, row_kept, row_of. rewrite (assoc_map (fun a => cell_at a (0 + i))). unfold column_by_name in Ea. rewrite Ea. cbn [fmap option_fmap option_map].
    rewrite cell_int, (count_nulls_zero nulls (num_rows b) (0 + i)); [|rewrite <- Hl; by apply (array_ok_nulls _ Hc)|done|lia]. done. }
  destruct (filter_record_batch_rows b mask Hok) as (Hok' & _ & Hr & Hs).
  { rewrite Emask. unfold of_bools. by rewrite !length_fmap, rows_of_length. }
  split; [done|]. split; [|done]. rewrite Hr, Emask. apply masked_filter.
Qed.

(** The rows of the kept blocks, of some columns. *)
Definition kept_rows (t : int_type) (bn : string) (keep : Z -> bool) (cols : list string) (batches : list RecordBatch) : list (list (string * cell)) :=
  filter (fun row => row_kept t bn keep row = true) (project_row cols <$> (batches ≫= rows_of)).

Lemma blocks_column_named t bn b cols : bn ∈ cols -> blocks_column t bn b -> column_by_name {| columns := named_columns b cols; num_rows := num_rows b |} bn = column_by_name b bn.
Proof.
  intros Hin (values & nulls & Ea & _). unfold column_by_name at 1. cbn [columns]. rewrite Ea. unfold named_columns. induction cols as [|c cols IH]; [by apply not_elem_of_nil in Hin|].
  cbn [omap list_omap]. destruct (decide (c = bn)) as [->|Hne].
  - rewrite Ea. cbn. by rewrite decide_True.
  - apply elem_of_cons in Hin as [?|Hin]; [done|]. destruct (column_by_name b c); cbn; [rewrite decide_False by done|]; by apply IH.
Qed.

Lemma trim_batches_ok t bn keep cols batches : bn ∈ cols -> Forall (fun b => batch_ok b /\ blocks_column t bn b) batches ->
  exists trimmed, trim_batches batches cols bn keep = Ok trimmed /\ trimmed ≫= rows_of = kept_rows t bn keep cols batches /\
    Forall (fun b => batch_ok b /\ (0 < num_rows b)%nat /\ exists b0, b0 ∈ batches /\ batch_schema b = column_types b0 cols) trimmed.
Proof.
  intros Hbn Hb. unfold trim_batches, kept_rows.
  assert (Hgen : forall acc, exists trimmed, foldM (fun trimmed b => let* projected := project_columns b cols in let* f := filter_to_blocks projected bn keep in
      Ok (if (0 <? num_rows f)%nat then trimmed ++ [f] else trimmed)) batches acc = Ok (acc ++ trimmed) /\
    trimmed ≫= rows_of = filter (fun row => row_kept t bn keep row = true) (project_row cols <$> (batches ≫= rows_of)) /\
    Forall (fun b => batch_ok b /\ (0 < num_rows b)%nat /\ exists b0, b0 ∈ batches /\ batch_schema b = column_types b0 cols) trimmed).
  { induction Hb as [|b batches [Hok Hblock] Hb IH]; intros acc; [exists []; rewrite app_nil_r; split; [done|]; split; [done|constructor]|]. cbn [foldM].
    assert (Hne : named_columns b cols <> []).
    { intros E. pose proof (blocks_column_named t bn b cols Hbn Hblock) as Hc. rewrite E in Hc. destruct Hblock as (? & ? & Ea & _). by rewrite Ea in Hc. }
    destruct (project_columns_ok b cols Hok Hne) as (b1 & -> & Hok1 & Hr1 & Hs1 & Hc1 & Hn1). cbn [obind].
    destruct (filter_to_blocks_ok t bn keep b1 Hok1) as (b2 & -> & Hok2 & Hr2 & Hs2).
    { destruct Hblock as (values & nulls & Ea & Hn). exists values, nulls. split; [|done]. rewrite <- Ea, <- (blocks_column_named t bn b cols Hbn); [|by exists values, nulls].
      unfold column_by_name. by rewrite Hc1. }
    cbn [obind]. rewrite bind_cons, fmap_app, filter_app, <- Hr1, <- Hr2.
    destruct (IH (if (0 <? num_rows b2)%nat then acc ++ [b2] else acc)) as (trimmed & E & Hr & Ht). rewrite E, <- Hr.
    assert (Ht' : Forall (fun b' => batch_ok b' /\ (0 < num_rows b')%nat /\ exists b0, b0 ∈ b :: batches /\ batch_schema b' = column_types b0 cols) trimmed).
    { eapply Forall_impl; [exact Ht|]. intros b' (? & ? & b0 & ? & ?). split; [done|]. split; [done|]. exists b0. split; [by right|done]. }
    destruct (Nat.ltb_spec 0 (num_rows b2)) as [Hpos|Hzero].
    - exists (b2 :: trimmed). rewrite <- app_assoc. split; [done|]. split; [done|]. constructor; [|done]. split; [done|]. split; [done|].
      exists b. split; [by left|]. by rewrite Hs2.
    - exists trimmed. split; [done|]. split; [|done]. unfold rows_of at 2. by rewrite (proj1 (Nat.le_0_r (num_rows b2))). }
  destruct (Hgen []) as (trimmed & E & Hr & Ht). by exists trimmed.
Qed.

(** A row's key: the cells of its key columns that are there. *)
Definition key_cells (key : list string) (row : list (string * cell)) : list cell := omap (fun c => assoc c row) key.
Definition first_rows (key : list string) (rows : list (list (string * cell))) : list (list (string * cell)) :=
  keep_first [] ((fun row => (key_cells key row, row)) <$> rows).

Lemma dedup_first_ok b key : batch_ok b -> omap (column_by_name b) key <> [] ->
  match dedup_first b key with
  | Ok b' => batch_ok b' /\ rows_of b' = first_rows key (rows_of b) /\ batch_schema b' = batch_schema b
  | Err e => e = OtherError /\ row_supported (omap (fun name => assoc name (batch_schema b)) key) = false
  | Panic => False
  end.
Proof.
  intros Hok Hne. unfold dedup_first. set (arrays := omap (column_by_name b) key) in *. rewrite bool_decide_eq_false_2 by done.
  destruct (row_supported (array_type <$> arrays)) eqn:Hsup; cbn [ensure obind].
  2: { split; [done|]. rewrite <- Hsup. f_equal. subst arrays. rewrite list_fmap_omap. apply list_omap_ext, Forall2_same_length_lookup. split; [done|].
       intros n x y Hx Hy. rewrite Hx in Hy. injection Hy as <-. unfold batch_schema, column_by_name. by rewrite (assoc_map array_type). }
  assert (Harrays : row_arrays (array_type <$> arrays) (num_rows b) arrays).
  { unfold row_arrays. apply Forall2_fmap_r, Forall_Forall2_diag, Forall_forall. intros a (name & _ & Ea)%list_elem_of_omap. destruct (column_ok b name a Hok Ea). done. }
  assert (Hfne : array_type <$> arrays <> []) by by intros ?%fmap_nil_inv.
  unfold convert. rewrite bool_decide_eq_true_2 by done. cbn [ensure obind]. set (rows := convert_columns (array_type <$> arrays) arrays).
  assert (Hlen : length rows = num_rows b) by (by apply convert_columns_length).
  assert (Hget : mapM_ok (vec_get rows) (seq 0 (num_rows b)) = Ok rows :> result (list (list Z))).
  { apply mapM_ok_Forall2, Forall2_same_length_lookup. split; [by rewrite length_seq|]. intros i x y Hx Hy. apply lookup_seq in Hx as [-> _]. cbn [Nat.add]. unfold vec_get. by rewrite Hy. }
  rewrite Hget. cbn [obind].
  destruct (filter_record_batch_rows b (of_bools (first_of_bytes ∅ rows)) Hok) as (Hok' & _ & Hr & Hs).
  { unfold of_bools. rewrite length_fmap. unfold first_of_bytes. rewrite <- Hlen. clear.
    assert (Hgen : forall rows mask (seen : gset (list Z)), length (fold_left (fun '(mask, seen) row => (mask ++ [bool_decide (row ∉ seen)], {[row]} ∪ seen)) rows (mask, seen) : list bool * gset (list Z)).1 = (length mask + length rows)%nat).
    { clear rows. induction rows as [|r rows IH]; intros mask seen; cbn [fold_left]; [cbn; lia|]. rewrite IH, length_app. cbn. lia. }
    apply Hgen. }
  split; [done|]. split; [|done]. rewrite Hr. unfold first_rows. set (keyed := (fun row => (key_cells key row, row)) <$> rows_of b).
  replace (rows_of b) with keyed.*2 by (subst keyed; rewrite <- list_fmap_compose; apply list_fmap_id).
  assert (Hkeys : forall i k, keyed.*1 !! i = Some k -> (i < num_rows b)%nat /\ k = (fun a => cell_at a i) <$> arrays).
  { intros i k Hk. subst keyed. rewrite <- list_fmap_compose in Hk. apply list_lookup_fmap_Some_1 in Hk as (row & -> & Hrow). unfold rows_of in Hrow.
    apply list_lookup_fmap_Some_1 in Hrow as (j & -> & Hj). apply lookup_seq in Hj as [-> Hj]. split; [done|]. cbn. unfold key_cells. subst arrays. rewrite list_fmap_omap.
    apply list_omap_ext, Forall2_same_length_lookup. split; [done|]. intros n x y Hx Hy. rewrite Hx in Hy. injection Hy as <-. unfold row_of. by rewrite (assoc_map (fun a => cell_at a i)). }
  apply first_of_bytes_masked.
  - subst keyed. by rewrite length_fmap, rows_of_length.
  - intros i j r r' k k' Hi Hj [Hi' ->]%Hkeys [Hj' ->]%Hkeys.
    rewrite <- (convert_columns_eq _ (num_rows b) (num_rows b) arrays arrays i j Hsup Hfne Harrays Harrays Hi' Hj'). subst rows. rewrite Hi, Hj. by rewrite (inj_iff Some).
Qed.

(** ** Hex text *)

(** A text column of a table that its catalog declares hex. *)
Definition declared_hex (desc : TableDescription) (name : string) (t : data_type) : bool :=
  bool_decide (t = DText Utf8) && bool_decide ((assoc name (td_columns desc) ≫= cd_encoding) = Some HexBytes).

(** A text's bytes, a null being no text. *)
Definition hex_cell (c : cell) : option cell :=
  match c with
  | CText s => match decode_hex s with Ok (Some bytes) => Some (CBytes bytes) | _ => None end
  | _ => Some c
  end.

(** A row with its hex texts as their bytes; none where a text is not hex. *)
Definition hex_row (desc : TableDescription) (types : list (string * data_type)) (row : list (string * cell)) : option (list (string * cell)) :=
  mapM (fun c => pair c.1 <$> (if from_option (declared_hex desc c.1) false (assoc c.1 types) then hex_cell c.2 else Some c.2)) row.

Lemma decode_hex_total text : exists decoded, decode_hex text = Ok decoded.
Proof.
  unfold decode_hex. generalize (text_bytes (default text (strip_prefix "0x" text))). intros digits.
  destruct (Nat.even (length digits)) eqn:He; [by eexists|]. destruct digits as [|d digits]; [discriminate He|]. by eexists.
Qed.

Lemma hexify_value_ok t values nulls row : (row < length values)%nat ->
  match hexify_value values nulls row with
  | Ok bytes => hex_cell (cell_at (AText t values nulls) row) = Some (if is_valid_in nulls row then CBytes bytes else CNull)
  | Err e => e = EngineError MalformedChunkData /\ hex_cell (cell_at (AText t values nulls) row) = None
  | Panic => False
  end.
Proof.
  intros Hrow. unfold hexify_value. cbn [cell_at]. unfold is_null. cbn [array_nulls]. destruct (is_valid_in nulls row); cbn [negb]; [|done].
  destruct (lookup_lt_is_Some_2 _ _ Hrow) as [text Ht]. unfold vec_get. rewrite Ht. cbn [expect obind default hex_cell].
  destruct (decode_hex_total text) as [decoded E]. cbn [from_option]. unfold id. rewrite E. by destruct decoded.
Qed.

(** One column: its texts, each as its bytes. *)
Definition hexify_column (idxs : gset nat) (e : nat * (string * array)) : result (string * array) :=
  let '(i, (name, col)) := e in
  match bool_decide (i ∈ idxs), col with
  | true, AText Utf8 values nulls =>
      let* bytes := mapM_ok (hexify_value values nulls) (seq 0 (length values)) in
      Ok (name, AOther "Binary" bytes nulls)
  | _, _ => Ok (name, col)
  end.

(** What a column's cell is in the binary stream. *)
Definition hex_cell_of (hex : bool) (c : cell) : option cell := if hex then hex_cell c else Some c.

(** A column in step with another: each row's cell as the stream has it. *)
Definition column_hexed (hex : bool) (c c' : string * array) : Prop :=
  c'.1 = c.1 /\ array_ok c'.2 /\ array_len c'.2 = array_len c.2 /\
  forall row, (row < array_len c.2)%nat -> hex_cell_of hex (cell_at c.2 row) = Some (cell_at c'.2 row).

Lemma hexify_column_ok idxs i name col hex : array_ok col -> (i ∈ idxs <-> hex = true) -> (hex = true -> array_type col = DText Utf8) ->
  match hexify_column idxs (i, (name, col)) with
  | Ok c' => column_hexed hex (name, col) c'
  | Err e => e = EngineError MalformedChunkData /\ exists row, (row < array_len col)%nat /\ hex_cell_of hex (cell_at col row) = None
  | Panic => False
  end.
Proof.
  intros Hok Hi Ht. unfold hexify_column. rewrite (bool_decide_ext _ _ Hi). destruct hex; cbn [bool_decide]; [|by split_and!].
  rewrite bool_decide_eq_true_2 by done. specialize (Ht eq_refl). destruct col; try discriminate Ht. injection Ht as ->.
  assert (Hv : forall l, (forall row, row ∈ l -> (row < length values)%nat) -> match mapM_ok (hexify_value values nulls) l with
    | Ok bytes => Forall2 (fun row b => hex_cell (cell_at (AText Utf8 values nulls) row) = Some (if is_valid_in nulls row then CBytes b else CNull)) l bytes
    | Err e => e = EngineError MalformedChunkData /\ exists row, (row < length values)%nat /\ hex_cell (cell_at (AText Utf8 values nulls) row) = None
    | Panic => False end).
  { induction l as [|row l IH]; intros Hl; cbn [mapM_ok]; [constructor|]. assert (Hrow : (row < length values)%nat) by (apply Hl; by left).
    pose proof (hexify_value_ok Utf8 values nulls row Hrow) as Hr. destruct (hexify_value values nulls row) as [b|e|]; cbn [obind]; [| |done].
    2: { destruct Hr as [-> Hr]. split; [done|]. by exists row. }
    specialize (IH ltac:(intros; apply Hl; by right)). destruct (mapM_ok _ l) as [bytes|e|]; cbn [obind]; [|done..]. by constructor. }
  specialize (Hv (seq 0 (length values)) ltac:(intros row Hin; apply elem_of_seq in Hin; lia)).
  destruct (mapM_ok _ _) as [bytes|e|]; cbn [obind]; [|exact Hv|done]. pose proof (Forall2_length _ _ _ Hv) as Hl. rewrite length_seq in Hl.
  split_and!; [done| |done|].
  - split; [|done]. pose proof (array_ok_nulls _ Hok) as Hn. cbn [array_nulls array_len] in Hn |- *. by rewrite <- Hl.
  - cbn [snd array_len hex_cell_of]. intros row Hrow. destruct (Forall2_lookup_l _ _ _ row row Hv) as (b & Hb & ->); [by apply lookup_seq_lt|].
    cbn [cell_at]. unfold is_null. cbn [array_nulls]. destruct (is_valid_in nulls row); cbn [negb]; [|done]. by rewrite Hb.
Qed.

(** The columns of a batch. *)
Definition hex_of (desc : TableDescription) (c : string * array) : bool := declared_hex desc c.1 (array_type c.2).

Lemma hexify_columns_ok desc idxs cols :
  Forall (fun c => array_ok c.2) cols -> (forall i c, cols !! i = Some c -> (i ∈ idxs <-> hex_of desc c = true)) ->
  match mapM_ok (hexify_column idxs) (enumerate cols) with
  | Ok cols' => Forall2 (fun c c' => column_hexed (hex_of desc c) c c') cols cols'
  | Err e => e = EngineError MalformedChunkData /\
      exists c row, c ∈ cols /\ (row < array_len c.2)%nat /\ hex_cell_of (hex_of desc c) (cell_at c.2 row) = None
  | Panic => False
  end.
Proof.
  unfold enumerate. intros Hok. assert (Hgen : forall k, (forall i c, cols !! i = Some c -> ((k + i)%nat ∈ idxs <-> hex_of desc c = true)) ->
    match mapM_ok (hexify_column idxs) (zip (seq k (length cols)) cols) with
    | Ok cols' => Forall2 (fun c c' => column_hexed (hex_of desc c) c c') cols cols'
    | Err e => e = EngineError MalformedChunkData /\
        exists c row, c ∈ cols /\ (row < array_len c.2)%nat /\ hex_cell_of (hex_of desc c) (cell_at c.2 row) = None
    | Panic => False
    end); [|apply (Hgen O)].
  induction Hok as [|[name col] cols Hc _ IH]; intros k Hi; [constructor|]. cbn [length seq zip zip_with mapM_ok]. cbn [snd] in Hc.
  pose proof (hexify_column_ok idxs k name col (hex_of desc (name, col)) Hc) as Hh.
  specialize (Hh ltac:(rewrite <- (Hi O (name, col) eq_refl); by rewrite Nat.add_0_r)).
  specialize (Hh ltac:(by intros [Ht%bool_decide_eq_true _]%andb_true_iff)).
  destruct (hexify_column _ _) as [c'|e|]; cbn [obind]; [| |done].
  2: { destruct Hh as (-> & row & Hrow & Hn). split; [done|]. exists (name, col), row. split; [by left|done]. }
  specialize (IH (Datatypes.S k) ltac:(intros i c Hl; rewrite <- (Hi (Datatypes.S i) c Hl); by rewrite Nat.add_succ_comm)).
  destruct (mapM_ok _ _) as [cols'|e|]; cbn [obind]; [by constructor| |done].
  destruct IH as (-> & c & row & Hin & Hrow). split; [done|]. exists c, row. split; [by right|done].
Qed.

(** Columns under the types a stream has them at. *)
Definition typed (types : list (string * data_type)) (b : RecordBatch) : Prop := Forall (fun c => assoc c.1 types = Some c.2) (batch_schema b).

Lemma typed_column types b c : typed types b -> c ∈ columns b -> assoc c.1 types = Some (array_type c.2).
Proof. unfold typed, batch_schema. rewrite Forall_fmap, Forall_forall. intros Ht Hc. exact (Ht c Hc). Qed.

Lemma hex_row_ok desc types b cols' row : typed types b -> batch_ok b -> (row < num_rows b)%nat ->
  Forall2 (fun c c' => column_hexed (hex_of desc c) c c') (columns b) cols' ->
  hex_row desc types (row_of b row) = Some ((fun c => (c.1, cell_at c.2 row)) <$> cols').
Proof.
  intros Ht Hok Hrow Hc. unfold hex_row, row_of. apply mapM_Some, Forall2_fmap. apply Forall2_same_length_lookup. split; [by eapply Forall2_length|].
  intros i c c' Hi Hi'. destruct (Forall2_lookup_lr _ _ _ _ _ _ Hc Hi Hi') as (E & _ & _ & Hcell). cbn [fst snd].
  rewrite (typed_column types b c) by (done || by eapply list_elem_of_lookup_2). cbn [from_option]. unfold batch_ok in Hok. rewrite Forall_lookup in Hok.
  destruct (Hok i c Hi) as [_ Hl]. specialize (Hcell row ltac:(lia)). unfold hex_cell_of, hex_of in Hcell. rewrite Hcell. cbn. by rewrite E.
Qed.

Lemma hex_rows_ok desc types b cols' : typed types b -> batch_ok b ->
  Forall2 (fun c c' => column_hexed (hex_of desc c) c c') (columns b) cols' ->
  mapM (hex_row desc types) (rows_of b) = Some (rows_of {| columns := cols'; num_rows := num_rows b |}).
Proof.
  intros Ht Hok Hc. unfold rows_of. cbn [num_rows]. apply mapM_Some, Forall2_fmap, Forall_Forall2_diag, Forall_forall. intros row Hrow%elem_of_seq.
  apply hex_row_ok; [done|done|lia|done].
Qed.

Lemma hexify_batch_ok desc types b idxs : batch_ok b -> columns b <> [] -> typed types b ->
  (forall i c, columns b !! i = Some c -> (i ∈ idxs <-> hex_of desc c = true)) ->
  match hexify_batch b idxs with
  | Ok b' => batch_ok b' /\ mapM (hex_row desc types) (rows_of b) = Some (rows_of b')
  | Err e => e = EngineError MalformedChunkData /\ mapM (hex_row desc types) (rows_of b) = None
  | Panic => False
  end.
Proof.
  intros Hok Hne Ht Hi. unfold hexify_batch. fold (hexify_column idxs). assert (Hcols : Forall (fun c => array_ok c.2) (columns b)).
  { eapply Forall_impl; [exact Hok|]. by intros c [? _]. }
  pose proof (hexify_columns_ok desc idxs (columns b) Hcols Hi) as Hh.
  match goal with |- context [mapM_ok ?f (enumerate (columns b))] => change (mapM_ok f (enumerate (columns b))) with (mapM_ok (hexify_column idxs) (enumerate (columns b))) end.
  destruct (mapM_ok _ _) as [cols'|e|]; cbn [obind]; [| |done].
  - assert (Hl : Forall (fun c : string * array => array_ok c.2 /\ array_len c.2 = num_rows b) cols').
    { apply Forall_lookup. intros i c' Hc'. destruct (Forall2_lookup_r _ _ _ _ _ Hh Hc') as (c & Hc & _ & Ha & -> & _). split; [done|].
      unfold batch_ok in Hok. rewrite Forall_lookup in Hok. by apply (Hok i c). }
    rewrite (batch_of_ok (num_rows b)); [| |eapply Forall_impl; [exact Hl|]; by intros c [_ ?]].
    + split; [exact Hl|]. by apply hex_rows_ok.
    + intros ->. by apply Forall2_nil_inv_r in Hh.
  - destruct Hh as (-> & c & row & Hin & Hrow & Hn). split; [done|]. unfold batch_ok in Hok. rewrite Forall_forall in Hok. destruct (Hok c Hin) as [_ Hl].
    apply mapM_None, Exists_exists. exists (row_of b row). split; [apply list_elem_of_fmap; exists row; split; [done|]; apply elem_of_seq; lia|].
    apply mapM_None, Exists_exists. exists (c.1, cell_at c.2 row). split; [apply list_elem_of_fmap; by exists c|]. cbn [fst snd].
    rewrite (typed_column types b c Ht Hin). cbn [from_option]. unfold hex_cell_of, hex_of in Hn. by rewrite Hn.
Qed.

(** The rows of a stream: as they are, or with their hex texts as bytes. *)
Definition stream_texts (binary : bool) (desc : TableDescription) (types : list (string * data_type)) (rows : list (list (string * cell)))
    : option (list (list (string * cell))) :=
  if binary then mapM (hex_row desc types) rows else Some rows.

Lemma hex_columns_elem b desc i : i ∈ hex_columns b desc <-> exists c, columns b !! i = Some c /\ hex_of desc c = true.
Proof.
  unfold hex_columns. rewrite elem_of_list_to_set, list_elem_of_omap. unfold hex_of, declared_hex. split.
  - intros ([j [name col]] & Hin%elem_of_enumerate & Hi). destruct (_ && _) eqn:E; [|done]. injection Hi as ->. by exists (name, col).
  - intros ([name col] & Hc & E). exists (i, (name, col)). split; [by apply elem_of_enumerate|]. cbn [fst snd] in E. by rewrite E.
Qed.

Lemma hex_of_schema desc b b' i c : batch_schema b = batch_schema b' -> columns b !! i = Some c ->
  (exists c', columns b' !! i = Some c' /\ hex_of desc c' = true) <-> hex_of desc c = true.
Proof.
  unfold batch_schema, hex_of. intros E Hc. assert (Hi : (fun c => (c.1, array_type c.2)) <$> columns b !! i = (fun c => (c.1, array_type c.2)) <$> columns b' !! i)
    by by rewrite <- !list_lookup_fmap, E.
  rewrite Hc in Hi. destruct (columns b' !! i) as [c'|]; [|done]. injection Hi as En Et. rewrite En, Et.
  split; [by intros (? & [= <-] & ?)|]. intros ?. by exists c'.
Qed.

Lemma stream_texts_app binary desc types rows rows' :
  stream_texts binary desc types (rows ++ rows') =
    match stream_texts binary desc types rows, stream_texts binary desc types rows' with Some l, Some l' => Some (l ++ l') | _, _ => None end.
Proof.
  destruct binary; [|done]. cbn [stream_texts]. induction rows as [|row rows IH]; cbn; [by destruct (mapM _ rows')|].
  destruct (hex_row desc types row); [|done]. cbn. rewrite IH. by destruct (mapM _ rows), (mapM _ rows').
Qed.

(** Batches of one schema, hexified. *)
Lemma hexify_ok binary desc types schema batches : schema <> [] ->
  Forall (fun b => batch_ok b /\ (binary = true -> typed types b /\ batch_schema b = schema)) batches ->
  match hexify binary batches desc with
  | Ok out => Forall batch_ok out /\ stream_texts binary desc types (batches ≫= rows_of) = Some (out ≫= rows_of)
  | Err e => e = EngineError MalformedChunkData /\ stream_texts binary desc types (batches ≫= rows_of) = None
  | Panic => False
  end.
Proof.
  intros Hne Hb. unfold hexify. destruct binary; [|split; [|done]; eapply Forall_impl; [exact Hb|]; by intros b [? _]].
  destruct batches as [|first batches]; [done|]. unfold hexify_group. cbv zeta.
  pose proof Hb as [[Hokf Hf] _]%Forall_cons. destruct (Hf eq_refl) as [_ Hsf].
  assert (Hidx : forall b, batch_schema b = schema -> forall i c, columns b !! i = Some c -> (i ∈ hex_columns first desc <-> hex_of desc c = true)).
  { intros b Hs i c Hc. rewrite hex_columns_elem. apply (hex_of_schema desc b); [congruence|done]. }
  clear Hf. generalize dependent (hex_columns first desc). intros idxs Hidx. set (all := first :: batches) in *. clearbody all. clear Hokf Hsf first batches. case_bool_decide as Hnone.
  - split; [eapply Forall_impl; [exact Hb|]; by intros b [? _]|]. cbn [stream_texts]. apply mapM_Some. induction Hb as [|b all [Hok Hs] _ IH]; [constructor|].
    rewrite bind_cons. apply Forall2_app; [|exact IH]. destruct (Hs eq_refl) as [Ht Hsch]. apply mapM_Some.
    rewrite (hex_rows_ok desc types b (columns b)); [by destruct b|done..|]. apply Forall_Forall2_diag, Forall_lookup. intros i c Hc. unfold batch_ok in Hok. rewrite Forall_lookup in Hok.
    destruct (Hok i c Hc) as [Ha _]. specialize (Hidx b Hsch i c Hc). rewrite Hnone in Hidx. destruct (hex_of desc c); [by apply proj2, (fun H => H eq_refl), not_elem_of_empty in Hidx|].
    by split_and!.
  - induction Hb as [|b all [Hok Hs] _ IH]; [by split|]. destruct (Hs eq_refl) as [Ht Hsch]. rewrite bind_cons, stream_texts_app. cbn [mapM_ok].
    assert (Hcols : columns b <> []) by (intros E; unfold batch_schema in Hsch; rewrite E in Hsch; by destruct Hne).
    pose proof (hexify_batch_ok desc types b idxs Hok Hcols Ht (Hidx b Hsch)) as Hh. destruct (hexify_batch b idxs) as [b'|e|]; cbn [obind]; [| |done].
    2: { destruct Hh as [-> Hh]. split; [done|]. cbn [stream_texts]. by rewrite Hh. }
    destruct Hh as [Hok' Hr]. destruct (mapM_ok _ all) as [out|e|]; cbn [obind]; [| |done]; destruct IH as [IH1 IH2]; rewrite IH2; cbn [stream_texts]; rewrite Hr; [|done].
    by split; [constructor|].
Qed.

Lemma column_types_typed b names c : c ∈ column_types b names -> assoc c.1 (column_types b names) = Some c.2.
Proof.
  intros (c0 & -> & Hc)%list_elem_of_fmap. apply list_elem_of_omap in Hc as (n & Hn & Ec). destruct (column_by_name b n) as [a|] eqn:Ea; [|done]. injection Ec as <-. cbn [fst snd].
  unfold column_types. rewrite (assoc_map array_type). clear -Hn Ea. unfold named_columns. induction names as [|m names IH]; [by apply not_elem_of_nil in Hn|].
  cbn [omap list_omap]. destruct (decide (m = n)) as [->|Hne]; [rewrite Ea; cbn; by rewrite decide_True|].
  apply elem_of_cons in Hn as [?|Hn]; [done|]. destruct (column_by_name b m); cbn; [rewrite decide_False by done|]; by apply IH.
Qed.

Context (table : OutputTable) (keep : Z -> bool) (t : int_type).
Abbreviation bn := (td_block_number_column (out_desc table)).

Definition table_batches : list RecordBatch := out_sources table ≫= fun source => rw_batches (os_rows source).

(** The columns of a table's stream, and those its rows are told apart by. *)
Definition stream_columns : list string := push_unique [bn] (from_option (fun s => rp_rendered (os_projection s)) [] (head (out_sources table))).
Definition merged_columns : list string := push_unique stream_columns (row_key (out_desc table)).
Definition merges : bool := (1 <? length (out_sources table))%nat.

(** The rows of a table's stream: those of the page's blocks; of several sources, the first of each key. *)
Definition stream_rows : list (list (string * cell)) :=
  if merges then project_row stream_columns <$> first_rows (row_key (out_desc table)) (kept_rows t bn keep merged_columns table_batches)
  else kept_rows t bn keep stream_columns table_batches.

Lemma row_key_block td : td_block_number_column td ∈ row_key td.
Proof. apply row_key_elem. by left. Qed.

Lemma schema_column b name : is_Some (column_by_name b name) <-> is_Some (assoc name (batch_schema b)).
Proof. unfold batch_schema, column_by_name. rewrite (assoc_map array_type). by rewrite fmap_is_Some. Qed.

(** The columns a table's batches are trimmed to. *)
Definition trimmed_columns : list string := if merges then merged_columns else stream_columns.

(** Arrow refuses the rows of several sources: as one batch, or as keys in its row format. *)
Definition arrow_refuses (types : list (string * data_type)) : Prop :=
  (exists trimmed, trim_batches table_batches merged_columns bn keep = Ok trimmed /\ concat_batches types trimmed = None) \/
  row_supported (omap (fun name => assoc name types) (row_key (out_desc table))) = false.

(** C10: A table's stream holds its rows of the page's blocks, with the block number and the columns rendered, in the order its sources
    offer them; a row that several sources offer, by its block, keys and address, is there once. Where bytes are asked for, a column the
    catalog declares hex and the chunk stores as text holds the bytes its texts spell. A table with no row there has no stream. Nothing
    panics; several sources' rows are refused where Arrow does not make one batch of them or has no row format for their keys' types, and
    bytes are refused, as [MalformedChunkData], exactly where a text of such a column is not hex. Where the rows are merged or bytes
    are asked for, every batch has the same columns at the same types. *)
Theorem table_group_spec types binary :
  out_sources table <> [] -> Forall (fun b => batch_ok b /\ blocks_column t bn b) table_batches ->
  (merges || binary = true -> Forall (fun b => column_types b trimmed_columns = types) table_batches) ->
  match table_group table keep binary with
  | Ok None => stream_rows = []
  | Ok (Some (name, batches)) =>
      name = out_name table /\ stream_texts binary (out_desc table) types stream_rows = Some (batches ≫= rows_of) /\ Forall batch_ok batches
  | Err e =>
      merges = true /\ e = OtherError /\ arrow_refuses types \/
      binary = true /\ e = EngineError MalformedChunkData /\ stream_texts binary (out_desc table) types stream_rows = None
  | Panic => False
  end.
Proof.
  intros Hne Hb Htypes. unfold table_group, arrow_refuses. unfold trimmed_columns in Htypes. destruct (out_sources table) as [|first sources] eqn:Es; [done|].
  unfold vec_get. cbn [lookup list_lookup expect obind].
  rewrite <- Es. fold merges. fold table_batches. replace (push_unique [bn] (rp_rendered (os_projection first))) with stream_columns by (unfold stream_columns; by rewrite Es).
  fold merged_columns. unfold stream_rows. set (m := merges) in *. clearbody m.
  assert (Hbn : bn ∈ stream_columns) by (apply push_unique_elem; left; by left).
  assert (Hbm : bn ∈ merged_columns) by (apply push_unique_elem; by left).
  destruct (trim_batches_ok t bn keep (if m then merged_columns else stream_columns) table_batches) as (trimmed & Et & Hr & Ht); [by destruct m|done|]. rewrite Et. cbn [obind].
  destruct trimmed as [|p trimmed].
  { cbn in Hr. destruct m; [by rewrite <- Hr|done]. }
  assert (Hsame : m || binary = true -> Forall (fun b => batch_ok b /\ typed types b /\ batch_schema b = types) (p :: trimmed)).
  { intros Hm. specialize (Htypes Hm). rewrite Forall_forall in Htypes. eapply Forall_impl; [exact Ht|]. intros b (Hok & _ & b0 & Hin & Hsch). rewrite <- (Htypes b0 Hin).
    split; [done|]. split; [|done]. unfold typed. rewrite Hsch. apply Forall_forall. intros c. apply column_types_typed. }
  assert (Hpn : batch_schema p <> []).
  { apply Forall_cons in Ht as [(_ & _ & b0 & Hin & ->) _]. rewrite Forall_forall in Hb. destruct (Hb b0 Hin) as [_ Hblock].
    pose proof (blocks_column_named t bn b0 (if m then merged_columns else stream_columns) ltac:(by destruct m) Hblock) as Hc.
    destruct Hblock as (? & ? & Ea & _). rewrite Ea in Hc. unfold column_types. intros En%fmap_nil_inv. by rewrite En in Hc. }
  destruct m.
  2: { cbn [obind]. pose proof (hexify_ok binary (out_desc table) types (batch_schema p) (p :: trimmed) Hpn) as Hh. rewrite Hr in Hh.
       assert (Hall : Forall (fun b => batch_ok b /\ (binary = true -> typed types b /\ batch_schema b = batch_schema p)) (p :: trimmed)).
       { destruct binary; [|eapply Forall_impl; [exact Ht|]; by intros b [? _]]. specialize (Hsame eq_refl). pose proof Hsame as [(_ & _ & ->) _]%Forall_cons.
         eapply Forall_impl; [exact Hsame|]. by intros b (? & ? & ?). }
       specialize (Hh Hall). destruct (hexify binary (p :: trimmed) (out_desc table)) as [out|e|]; cbn [obind]; [| |done].
       - by destruct Hh.
       - destruct Hh as [-> Hh]. right. split; [by destruct binary|]. done. }
  specialize (Hsame eq_refl).
  assert (Hp : batch_schema p = types) by by apply Forall_cons in Hsame as [(_ & _ & ?) _].
  destruct (concat_batches (batch_schema p) (p :: trimmed)) as [merged|] eqn:Ec; cbn [ok_or obind]; rewrite Hp in Ec; [|left; split; [done|]; split; [done|]; left; by eexists].
  assert (Hsame' : Forall (fun b => batch_ok b /\ batch_schema b = types) (p :: trimmed)) by (eapply Forall_impl; [exact Hsame|]; by intros b (? & _ & ?)).
  destruct (concat_batches_rows types (p :: trimmed) merged ltac:(done) Hsame' Ec) as (Hok & Hsch & Hrows). rewrite Hr in Hrows.
  assert (Hcol : is_Some (column_by_name merged bn)).
  { apply schema_column. rewrite Hsch, <- Hp. apply Forall_cons in Ht as [(_ & _ & b0 & Hin & ->) _]. unfold column_types. rewrite (assoc_map array_type). apply fmap_is_Some.
    rewrite Forall_forall in Hb. destruct (Hb b0 Hin) as [_ Hblock]. pose proof (blocks_column_named t bn b0 merged_columns Hbm Hblock) as Hc.
    unfold column_by_name in Hc at 1. cbn [columns] in Hc. rewrite Hc. destruct Hblock as (? & ? & -> & _). by eexists. }
  assert (Hkey : omap (column_by_name merged) (row_key (out_desc table)) <> []).
  { intros E. destruct Hcol as [a Ea]. assert (Ha : a ∈ omap (column_by_name merged) (row_key (out_desc table))).
    - apply list_elem_of_omap. exists bn. split; [|done]. by apply row_key_block.
    - rewrite E in Ha. by apply not_elem_of_nil in Ha. }
  pose proof (dedup_first_ok merged (row_key (out_desc table)) Hok Hkey) as Hd. destruct (dedup_first merged _) as [deduped|e|]; cbn [obind]; [| |done].
  2: { destruct Hd as [-> Hd]. left. split; [done|]. split; [done|]. right. by rewrite <- Hsch. }
  destruct Hd as (Hok' & Hr' & Hs').
  assert (Hcol' : named_columns deduped stream_columns <> []).
  { intros E. apply schema_column in Hcol. rewrite <- Hs' in Hcol. apply schema_column in Hcol as [a Ea].
    assert (Ha : (bn, a) ∈ named_columns deduped stream_columns); [|rewrite E in Ha; by apply not_elem_of_nil in Ha].
    apply list_elem_of_omap. exists bn. by rewrite Ea. }
  destruct (project_columns_ok deduped stream_columns Hok' Hcol') as (emitted & -> & Hoke & Hre & Hse & _).
  cbn [obind]. pose proof (hexify_ok binary (out_desc table) types (batch_schema emitted) [emitted]) as Hh. rewrite bind_cons, app_nil_r, Hre, Hr', Hrows in Hh.
  assert (Hte : typed types emitted).
  { unfold typed. rewrite Hse. apply Forall_forall. intros c (c0 & -> & (n & _ & Ec0)%list_elem_of_omap)%list_elem_of_fmap.
    destruct (column_by_name deduped n) as [a|] eqn:Ea; [|done]. injection Ec0 as <-. cbn [fst snd]. rewrite <- Hsch, <- Hs'. unfold batch_schema. rewrite (assoc_map array_type).
    unfold column_by_name in Ea. by rewrite Ea. }
  specialize (Hh ltac:(rewrite Hse; unfold column_types; by intros ?%fmap_nil_inv) ltac:(by repeat constructor)).
  destruct (hexify binary [emitted] (out_desc table)) as [out|e|]; cbn [obind]; [by destruct Hh| |done].
  destruct Hh as [-> Hh]. right. split; [by destruct binary|]. done.
Qed.
End group.

(** ** The reference streams *)

Section reference.
Context {K : ArrowKernels} {L : ArrowLaws K}.

(** Columns of cells, as rows. *)
Definition transposed (n : nat) (columns : list (list cell)) : list (list cell) :=
  (fun k => (fun c => default CNull (c !! k)) <$> columns) <$> seq 0 n.

Lemma transposed_app n m (cs ds : list (list cell)) : Forall (fun c => length c = n) cs -> length cs = length ds ->
  transposed (n + m) (zip_with app cs ds) = transposed n cs ++ transposed m ds.
Proof.
  intros Hn Hl. unfold transposed. rewrite seq_app, fmap_app. f_equal.
  - apply list_fmap_ext. intros _ k Hk%list_elem_of_lookup_2%elem_of_seq. revert ds Hl. induction Hn as [|c cs Hc _ IH]; intros [|d ds] Hl; try done.
    cbn [zip_with]. rewrite !fmap_cons, IH by (cbn in Hl; lia). by rewrite lookup_app_l by lia.
  - replace (seq (0 + n) m) with (Nat.add n <$> seq 0 m) by (rewrite fmap_add_seq; f_equal; lia). rewrite <- list_fmap_compose. apply list_fmap_ext. intros _ k _. unfold compose. revert ds Hl. induction Hn as [|c cs Hc _ IH]; intros [|d ds] Hl; try done.
    cbn [zip_with]. rewrite !fmap_cons, IH by (cbn in Hl; lia). rewrite lookup_app_r by lia. by rewrite Hc, Nat.add_comm, Nat.add_sub.
Qed.

Lemma rows_transposed b : batch_ok b -> rows_of b = zip (columns b).*1 <$> transposed (num_rows b) ((fun c => cells c.2) <$> columns b).
Proof.
  intros Hok. unfold rows_of, transposed. rewrite <- list_fmap_compose. apply list_fmap_ext. intros _ k Hk%list_elem_of_lookup_2%elem_of_seq. unfold compose, row_of.
  unfold batch_ok in Hok. induction Hok as [|[name a] cols [_ Ha] _ IH]; [done|]. cbn. rewrite IH. f_equal. f_equal. unfold cells. cbn in Ha.
  rewrite list_lookup_fmap, lookup_seq_lt by lia. done.
Qed.

(** The cells of a column, one batch after another. *)
Definition column_of (i : nat) (b : RecordBatch) : option array := snd <$> columns b !! i.
Definition column_cells (batches : list RecordBatch) (i : nat) : list cell := concat (cells <$> omap (column_of i) batches).

Lemma batches_transposed schema batches : Forall (fun b => batch_ok b /\ batch_schema b = schema) batches ->
  batches ≫= rows_of = zip schema.*1 <$> transposed (sum_list (num_rows <$> batches)) (column_cells batches <$> seq 0 (length schema)).
Proof.
  induction 1 as [|b batches [Hok Hs] _ IH]; [done|]. rewrite bind_cons, IH, rows_transposed by done. cbn [fmap list_fmap sum_list].
  assert (Hnames : (columns b).*1 = schema.*1) by (rewrite <- Hs; unfold batch_schema; rewrite <- list_fmap_compose; by apply list_fmap_ext).
  assert (Hlen : length (columns b) = length schema) by (rewrite <- Hs; unfold batch_schema; by rewrite length_fmap).
  rewrite Hnames, <- fmap_app, <- transposed_app.
  - f_equal. f_equal. apply list_eq_same_length with (length schema); [by rewrite length_fmap, length_seq|rewrite length_zip_with, !length_fmap, length_seq; lia|].
    intros i y x Hi Hy Hx. rewrite list_lookup_fmap, lookup_seq_lt in Hx by done. injection Hx as <-.
    apply lookup_zip_with_Some in Hy as (c & d & -> & Hc & Hd). rewrite list_lookup_fmap, lookup_seq_lt in Hd by done. injection Hd as <-.
    rewrite list_lookup_fmap in Hc. unfold column_cells, column_of. cbn [omap list_omap]. destruct (columns b !! i) as [e|]; [|done]. injection Hc as <-. done.
  - rewrite Forall_fmap. eapply Forall_impl; [exact Hok|]. intros c [_ Hc]. cbn. unfold cells. by rewrite length_fmap, length_seq.
  - by rewrite !length_fmap, length_seq.
Qed.

Lemma column_cells_length schema batches i : Forall (fun b => batch_ok b /\ batch_schema b = schema) batches -> (i < length schema)%nat ->
  length (column_cells batches i) = sum_list (num_rows <$> batches).
Proof.
  intros Hb Hi. unfold column_cells, column_of. induction Hb as [|b batches [Hok <-] _ IH]; [done|]. cbn [omap list_omap fmap list_fmap sum_list].
  unfold batch_schema in Hi. rewrite length_fmap in Hi. destruct (lookup_lt_is_Some_2 _ _ Hi) as [c Hc]. rewrite Hc. cbn. rewrite length_app, IH.
  eapply Forall_lookup_1 in Hok as [_ Hl]; [|exact Hc]. unfold cells. rewrite length_fmap, length_seq. lia.
Qed.

#[export] Instance reference_stream_laws : StreamLaws StreamInstances.reference_streams.
Proof.
  intros schema batches merged Hne Hb E. cbn in E. destruct (mapM _ _) as [cols|] eqn:Em; [|done]. injection E as <-. apply mapM_Some in Em.
  assert (Hcols : forall i a, cols !! i = Some a -> array_ok a /\ cells a = column_cells batches i /\ snd <$> schema !! i = Some (array_type a)).
  { intros i a Ha. destruct (Forall2_lookup_r _ _ _ _ _ Em Ha) as (j & [-> Hi]%lookup_seq & Hc). cbn [Nat.add] in Hc. fold (column_of i) in Hc.
    assert (Hin : forall a', a' ∈ omap (column_of i) batches <-> exists b, b ∈ batches /\ column_of i b = Some a') by (intros; apply list_elem_of_omap).
    rewrite Forall_forall in Hb. apply concat_arrays_cells in Hc as (Hok & Hcells & Ht).
    - split; [done|]. split; [done|]. destruct batches as [|b batches]; [done|]. destruct (Hb b ltac:(by left)) as [Hb0 <-]. unfold batch_schema.
      unfold batch_schema in *. rewrite list_lookup_fmap. destruct (lookup_lt_is_Some_2 (columns b) i) as [c Hc]; [by rewrite length_fmap in Hi|].
      rewrite Hc. cbn. rewrite Forall_forall in Ht. rewrite (Ht c.2); [done|]. apply Hin. exists b. split; [by left|]. unfold column_of. by rewrite Hc.
    - apply Forall_forall. intros a' (b & Hin' & Hc')%Hin. destruct (Hb b Hin') as [Hok _]. unfold column_of in Hc'. destruct (columns b !! i) as [c|] eqn:Ec; [|done].
      injection Hc' as <-. by eapply Forall_lookup_1 in Hok as [? _]. }
  assert (Hlen : length cols = length schema) by (apply Forall2_length in Em; by rewrite length_seq in Em).
  assert (Hsplit : (zip schema.*1 cols).*1 = schema.*1 /\ (zip schema.*1 cols).*2 = cols) by (rewrite fst_zip, snd_zip by (rewrite length_fmap; lia); done).
  destruct Hsplit as [Hfst Hsnd].
  assert (Hok : batch_ok {| columns := zip schema.*1 cols; num_rows := sum_list (num_rows <$> batches) |}).
  { unfold batch_ok. cbn [columns num_rows]. apply Forall_lookup. intros i c Hc. assert (Ha : cols !! i = Some c.2) by (rewrite <- Hsnd, list_lookup_fmap, Hc; done).
    destruct (Hcols i c.2 Ha) as (Ho & Hcells & _). split; [done|]. apply (f_equal length) in Hcells.
    rewrite (column_cells_length schema) in Hcells; [|done|rewrite <- Hlen; by eapply lookup_lt_Some]. unfold cells in Hcells. by rewrite length_fmap, length_seq in Hcells. }
  split; [done|]. split.
  - unfold batch_schema. cbn [columns]. apply list_eq_same_length with (length schema); [done|rewrite length_fmap, length_zip_with, length_fmap; lia|].
    intros i x y Hi Hx Hy. rewrite list_lookup_fmap in Hx. destruct (zip _ _ !! i) as [c|] eqn:Ec; [|done]. injection Hx as <-.
    assert (Ha : cols !! i = Some c.2) by (rewrite <- Hsnd, list_lookup_fmap, Ec; done). assert (Hn : schema.*1 !! i = Some c.1) by (rewrite <- Hfst, list_lookup_fmap, Ec; done).
    destruct (Hcols i c.2 Ha) as (_ & _ & Ht). rewrite Hy in Ht. rewrite list_lookup_fmap, Hy in Hn. destruct y as [n t]. cbn in *. congruence.
  - rewrite rows_transposed by done. cbn [columns num_rows]. rewrite Hfst, (batches_transposed schema) by done. f_equal. f_equal.
    apply list_eq_same_length with (length schema); [rewrite length_fmap, length_seq; done|rewrite length_fmap, length_zip_with, length_fmap; lia|].
    intros i x y Hi Hx Hy. rewrite list_lookup_fmap, lookup_seq_lt in Hy by done. injection Hy as <-. rewrite list_lookup_fmap in Hx. destruct (zip _ _ !! i) as [c|] eqn:Ec; [|done]. injection Hx as <-.
    apply Hcols. rewrite <- Hsnd, list_lookup_fmap, Ec. done.
Qed.
End reference.

(** ** A stream of two sources *)

Import ArrowInstances. Import RowFormatInstances. Import BatchInstances. Import HexDecoderInstances. Import StreamInstances.

Lemma decode_hex_spec_witness :
  exists decoded, decode_hex "0xabc" = Ok decoded /\ decoded = Some [10; 188] /\
    match decoded with
    | Some bytes => length bytes = ((length (hex_digits "0xabc") + 1) / 2)%nat /\ Forall (fun b => 0 <= b < 256) bytes /\
        hex_number 0 (hex_digits "0xabc") = Some (from_be_bytes bytes)
    | None => hex_number 0 (hex_digits "0xabc") = None
    end.
Proof. destruct (decode_hex_spec "0xabc") as (decoded & E & Hd). exists decoded. split; [exact E|]. split; [|exact Hd]. vm_compute in E. by injection E as <-. Defined.

Definition stream_column (t : ColumnType) : ColumnDescription :=
  {| cd_data_type := t; cd_encoding := None; cd_weight := None; cd_system := false; cd_fold_case := false; cd_members := None |}.

Definition hex_stream_column : ColumnDescription :=
  {| cd_data_type := CtString; cd_encoding := Some HexBytes; cd_weight := None; cd_system := false; cd_fold_case := false; cd_members := None |}.

(** Items by their block and sequence number, with a name in hex. *)
Definition stream_desc : TableDescription :=
  {| td_request_surface := None; td_output := {| os_name := None; os_fields := []; os_virtual_fields := []; os_variant_column := None; os_variants := [] |};
     td_block_number_column := "block_number"; td_parent_hash_column := None; td_parent_number_column := None; td_address_column := None;
     td_item_order_keys := ["seq"%string]; td_declared_weight_key := None; td_sort_key := [];
     td_columns := [("block_number"%string, stream_column CtUInt64); ("seq"%string, stream_column CtUInt32); ("name"%string, hex_stream_column)] |}.

Definition stream_projection (rendered : list string) : ResolvedProjection :=
  {| rp_table := "items"; rp_desc := stream_desc; rp_names := rendered; rp_fields := []; rp_rendered := rendered; rp_required := rendered;
     rp_weight := {| rw_fixed := 0; rw_columns := [] |}; rp_row_columns := rendered; rp_size_columns := [] |}.

Definition stream_items (block seq : list Z) (name : list string) : RecordBatch :=
  {| columns := [("seq"%string, AInt UInt32 seq None); ("name"%string, AText Utf8 name None); ("block_number"%string, AInt UInt64 block None)]; num_rows := length block |}.

Definition stream_table_of (name : string) : OutputTable :=
  {| out_name := "items"; out_desc := stream_desc;
     out_sources := [{| os_projection := stream_projection ["name"%string]; os_rows := Rows_new [stream_items [7; 7; 9] [2; 0; 5] ["0x01"; "0x02"; "0x3"]%string; stream_items [8] [0] ["w"%string]] |};
                     {| os_projection := stream_projection ["name"%string]; os_rows := Rows_new [stream_items [7; 9] [2; 6] ["0x01"; name]%string] |}] |}.

Definition stream_table : OutputTable := stream_table_of "0xff".

Definition stream_keep (b : Z) : bool := bool_decide (b <> 8).

Lemma stream_batches_ok : Forall (fun b => batch_ok b /\ blocks_column UInt64 "block_number" b) (table_batches stream_table).
Proof. repeat constructor; try (by eexists _, None); cbn; try done; unfold in_int_type; cbn; lia. Qed.

(** The row of block 7 that both sources offer is there once, and the block that is not of the page is not. *)
Example stream_rows_once : stream_rows stream_table stream_keep UInt64 =
  [[("block_number", CInt 7); ("name", CText "0x01")]; [("block_number", CInt 7); ("name", CText "0x02")]; [("block_number", CInt 9); ("name", CText "0x3")];
   [("block_number", CInt 9); ("name", CText "0xff")]]%string.
Proof. vm_compute. reflexivity. Qed.

Definition stream_types : list (string * data_type) := [("block_number", DInt UInt64); ("name", DText Utf8); ("seq", DInt UInt32)]%string.

(** As bytes; the text that is not hex is of the block that is not of the page. *)
Example stream_bytes : stream_texts true stream_desc stream_types (stream_rows stream_table stream_keep UInt64) =
  Some [[("block_number", CInt 7); ("name", CBytes [1])]; [("block_number", CInt 7); ("name", CBytes [2])]; [("block_number", CInt 9); ("name", CBytes [3])];
        [("block_number", CInt 9); ("name", CBytes [255])]]%string.
Proof. vm_compute. reflexivity. Qed.

Example stream_not_hex : table_group (stream_table_of "0xzz") stream_keep true = Err (EngineError MalformedChunkData).
Proof. vm_compute. reflexivity. Qed.

Lemma table_group_spec_witness :
  match table_group stream_table stream_keep true with
  | Ok (Some (name, batches)) =>
      name = "items"%string /\ stream_texts true stream_desc stream_types (stream_rows stream_table stream_keep UInt64) = Some (batches ≫= rows_of)
  | _ => False
  end.
Proof.
  pose proof (table_group_spec stream_table stream_keep UInt64 stream_types true ltac:(done) stream_batches_ok) as Hs.
  assert (E : match table_group stream_table stream_keep true with Ok (Some _) => true | _ => false end = true) by (vm_compute; reflexivity).
  destruct (table_group _ _ _) as [[[name batches]|]|e|]; [|discriminate E..].
  destruct Hs as (Hn & Hr & _); [intros _; repeat constructor|]. split; [exact Hn|exact Hr].
Defined.

(** A page of one table, framed and read back. *)
Example stream_frames :
  (let* out := arrow_output [7; 9] {| oh_projection := stream_projection []; oh_batches := [stream_items [7; 9] [0; 0] ["a"; "b"]%string] |} [stream_table] false true in
   Ok (read_frames 2 (ao_data out), ao_first_block out, ao_last_block out, ao_num_blocks out)) =
  Ok (Some [(text_bytes "items", [1; 1]); (text_bytes "items", [1; 1; 1; 1])], 7, 9, 2%nat).
Proof. vm_compute. reflexivity. Qed.
