(* ===== verification/RowWriter.v ===== *)
(** Rows written as JSON (src/output/row_writer.rs): a projection's fields as writers,
    resolved once a batch, and the tables of a response, each written block by block.
    [buf.push] and [extend_from_slice] append; an item's fields are each written with a
    comma after, and the close takes the last one's place. *)
From stdpp Require Import base strings list gmap.
From Stdlib Require Import ZArith Lia.
From S2P Require Import Prelude Machine ListLib Errors Arrow Catalog Integers Counting BlockIndex Rows Projection Render Names Encoder Sources RowOrder.

#[local] Open Scope Z_scope.

Section writer.
Context {F : JsonFormats} {H : HexKernel}.

(** ** Writers *)

(** [src/src/output/row_writer.rs:273-278] RollSourceColumn. *)
Record RollSourceColumn := {
  rsc_name : string;
  rsc_encoding : option JsonEncoding;
  rsc_declared_type : option ColumnType;
}.

(** [src/src/output/row_writer.rs:253-271] FieldWriter. *)
Inductive FieldWriter :=
  | FwRoll (json_key_prefix : list Z) (sources : list RollSourceColumn)
  | FwRegular (json_key_prefix : list Z) (column_name : string) (encoding : option JsonEncoding)
      (declared_type : option ColumnType) (members : option (list (string * MemberDescription))).

(** [src/src/output/row_writer.rs:289-296] ResolvedIndices. *)
Inductive ResolvedIndices :=
  | Single (column : option (nat * Encoder))
  | Multi (indices : list nat).

(** [src/src/output/row_writer.rs:280-287] ResolvedFieldWriter. *)
Record ResolvedFieldWriter := {
  rfw_json_key_prefix : list Z;
  rfw_indices : ResolvedIndices;
  rfw_roll_encoder : option (list RollColumn);
}.

(** [src/src/output/row_writer.rs:298-303] VariantGroups. *)
Definition VariantGroups (W : Type) : Type := list (string * list (list Z * list W)).

(** [src/src/output/row_writer.rs:305-312] GroupedWriters. *)
Record GroupedWriters := {
  gw_base_writers : list FieldWriter;
  gw_variant_column : string;
  gw_variant_writers : VariantGroups FieldWriter;
}.

(** [src/src/output/row_writer.rs:314-319] ResolvedGroupedWriters. *)
Record ResolvedGroupedWriters := {
  rgw_base_resolved : list ResolvedFieldWriter;
  rgw_variant_col_idx : option nat;
  rgw_variant_resolved : VariantGroups ResolvedFieldWriter;
}.

(** [src/src/output/row_writer.rs:400-407] unrenderable: a column no encoder renders is malformed chunk
    data. *)
Definition unrenderable {A} (r : outcome data_type A) : result A :=
  match r with
  | Ok a => Ok a
  | Err _ => Err (EngineError MalformedChunkData)
  | Panic => Panic
  end.

(** [src/src/output/row_writer.rs:L334-387] resolve_writers: one writer. *)
Definition resolve_writer (batch : RecordBatch) (writer : FieldWriter) : result ResolvedFieldWriter :=
  match writer with
  | FwRoll prefix sources =>
      let present := omap (fun s => (fun index => (index, s)) <$> index_of batch (rsc_name s)) sources in
      let roll_sources := (fun '(index, s) =>
        {| rs_column_index := index; rs_encoding := rsc_encoding s; rs_declared_type := rsc_declared_type s |}) <$> present in
      let* roll_encoder := unrenderable (resolve_roll batch roll_sources) in
      Ok {| rfw_json_key_prefix := prefix; rfw_indices := Multi present.*1; rfw_roll_encoder := Some roll_encoder |}
  | FwRegular prefix column_name encoding declared_type members =>
      let* resolved :=
        match index_of batch column_name with
        | Some i =>
            let* column := expect (columns batch !! i) in
            let* encoder := unrenderable (resolve_encoder (array_type column.2) encoding declared_type members) in
            Ok (Some (i, encoder))
        | None => Ok None
        end in
      Ok {| rfw_json_key_prefix := prefix; rfw_indices := Single resolved; rfw_roll_encoder := None |}
  end.

(** [src/src/output/row_writer.rs:321-390] resolve_writers. *)
Definition resolve_writers (writers : list FieldWriter) (batch : RecordBatch) : result (list ResolvedFieldWriter) :=
  mapM_ok (resolve_writer batch) writers.

(** What the catalog declares of a column. *)
Definition declared_encoding (desc : TableDescription) (name : string) : option JsonEncoding := column desc name ≫= cd_encoding.
Definition declared_type (desc : TableDescription) (name : string) : option ColumnType := cd_data_type <$> column desc name.
Definition declared_members (desc : TableDescription) (name : string) : option (list (string * MemberDescription)) :=
  column desc name ≫= cd_members.

(** A regular column's writer under a key. *)
Definition regular_writer (desc : TableDescription) (prefix : list Z) (name : string) : FieldWriter :=
  FwRegular prefix name (declared_encoding desc name) (declared_type desc name) (declared_members desc name).

(** [src/src/output/row_writer.rs:421-457] build_field_writer. *)
Definition build_field_writer (field : SelectedField) (desc : TableDescription) : FieldWriter :=
  let prefix := json_key (snake_to_camel (sf_name field)) in
  match sf_source field with
  | SourceRoll columns =>
      FwRoll prefix ((fun name =>
        {| rsc_name := name; rsc_encoding := declared_encoding desc name; rsc_declared_type := declared_type desc name |}) <$> columns)
  | SourceColumn name => regular_writer desc prefix name
  end.

(** [src/src/output/row_writer.rs:409-419] build_field_writers. *)
Definition build_field_writers (projection : ResolvedProjection) : list FieldWriter :=
  (fun field => build_field_writer field (rp_desc projection)) <$> rp_fields projection.

(** [src/src/output/row_writer.rs:L469-472] build_grouped_writers: which group of which variant takes a field, under
    which name and from which column. *)
Record GroupOf := { go_variant : string; go_group : string; go_json_name : string; go_column : string }.

(** [src/src/output/row_writer.rs:L472-487] build_grouped_writers: [field_to_group]. *)
Definition field_to_group (output : OutputSurface) : gmap string GroupOf :=
  fold_left (fun fields (variant : string * list (string * list FieldMapping)) =>
    fold_left (fun fields (group : string * list FieldMapping) =>
      fold_left (fun fields mapping =>
        <[mapping_field mapping := {| go_variant := variant.1; go_group := group.1; go_json_name := fm_json_name mapping; go_column := fm_column mapping |}]> fields)
        group.2 fields)
      variant.2 fields)
    (os_variants output) ∅.

(** [src/src/output/row_writer.rs:L489-515] build_grouped_writers: the fields, flat and by their groups. *)
Definition group_fields (projection : ResolvedProjection) : list FieldWriter * gmap (string * string) (list FieldWriter) :=
  let desc := rp_desc projection in
  let groups_of := field_to_group (td_output desc) in
  fold_left (fun (acc : list FieldWriter * gmap (string * string) (list FieldWriter)) field =>
    let '(base, groups) := acc in
    match groups_of !! sf_name field with
    | None => (base ++ [build_field_writer field desc], groups)
    | Some g =>
        let writer := regular_writer desc (json_key (go_json_name g)) (go_column g) in
        let key := (go_variant g, go_group g) in
        (base, <[key := default [] (groups !! key) ++ [writer]]> groups)
    end) (rp_fields projection) ([], ∅).

(** [src/src/output/row_writer.rs:L519-536] build_grouped_writers: a variant's groups in catalog order, those with
    writers, each removed as it is taken. *)
Definition take_groups (variant : string) (groups : list (string * list FieldMapping)) (taken : gmap (string * string) (list FieldWriter))
    : list (list Z * list FieldWriter) * gmap (string * string) (list FieldWriter) :=
  fold_left (fun (acc : list (list Z * list FieldWriter) * gmap (string * string) (list FieldWriter)) (group : string * list FieldMapping) =>
    let '(group_list, taken) := acc in
    match taken !! (variant, group.1) with
    | None => (group_list, taken)
    | Some writers =>
        let key := if bool_decide (group.1 = "_"%string) then [] else json_key group.1 in
        (group_list ++ [(key, writers)], delete (variant, group.1) taken)
    end) groups ([], taken).

(** [src/src/output/row_writer.rs:459-547] build_grouped_writers. *)
Definition build_grouped_writers (projection : ResolvedProjection) : option GroupedWriters :=
  let output := td_output (rp_desc projection) in
  variant_column ← os_variant_column output;
  let '(base, groups) := group_fields projection in
  let '(variant_writers, _) :=
    fold_left (fun (acc : VariantGroups FieldWriter * gmap (string * string) (list FieldWriter)) (variant : string * list (string * list FieldMapping)) =>
      let '(variant_writers, taken) := acc in
      let '(group_list, taken) := take_groups variant.1 variant.2 taken in
      (if bool_decide (group_list = []) then variant_writers else variant_writers ++ [(variant.1, group_list)], taken))
      (os_variants output) ([], groups) in
  Some {| gw_base_writers := base; gw_variant_column := variant_column; gw_variant_writers := variant_writers |}.

(** [src/src/output/row_writer.rs:549-583] resolve_grouped_writers. *)
Definition resolve_grouped_writers (gw : GroupedWriters) (batch : RecordBatch) : result ResolvedGroupedWriters :=
  let* base_resolved := resolve_writers (gw_base_writers gw) batch in
  let variant_col_idx := index_of batch (gw_variant_column gw) in
  let* _ :=
    match variant_col_idx with
    | Some idx =>
        let* column := expect (columns batch !! idx) in
        ensure (match StringColumn_resolve column.2 with Some _ => true | None => false end) (EngineError MalformedChunkData)
    | None => Ok tt
    end in
  let* variant_resolved := mapM_ok (fun '(variant, groups) =>
    let* resolved_groups := mapM_ok (fun '(key, writers) =>
      let* writers := resolve_writers writers batch in Ok (key, writers)) groups in
    Ok (variant, resolved_groups)) (gw_variant_writers gw) in
  Ok {| rgw_base_resolved := base_resolved; rgw_variant_col_idx := variant_col_idx; rgw_variant_resolved := variant_resolved |}.

(** ** Writing a row *)

(** [src/src/output/row_writer.rs:659-670] json_close. *)
Definition json_close (end_ : Z) (buf : list Z) : list Z :=
  match last buf with
  | Some b => if b =? comma then take (length buf - 1) buf ++ [end_] else buf ++ [end_]
  | None => buf ++ [end_]
  end.

(** [src/src/output/row_writer.rs:L593-612] write_row_fields_resolved: one writer. *)
Definition write_row_field (batch : RecordBatch) (row : nat) (buf : list Z) (rw : ResolvedFieldWriter) : result (list Z) :=
  match rfw_indices rw with
  | Multi indices =>
      if bool_decide (indices = []) then Ok buf
      else
        let buf := buf ++ rfw_json_key_prefix rw in
        let* buf :=
          match rfw_roll_encoder rw with
          | Some roll => encode_resolved_roll roll batch row buf
          | None => encode_roll batch row indices buf
          end in
        Ok (buf ++ [comma])
  | Single (Some (idx, encoder)) =>
      let* column := expect (columns batch !! idx) in
      let* buf := encode encoder column.2 row (buf ++ rfw_json_key_prefix rw) in
      Ok (buf ++ [comma])
  | Single None => Ok buf
  end.

(** [src/src/output/row_writer.rs:585-614] write_row_fields_resolved. *)
Definition write_row_fields_resolved (buf : list Z) (batch : RecordBatch) (row : nat) (resolved : list ResolvedFieldWriter) : result (list Z) :=
  foldM (write_row_field batch row) resolved buf.

(** [src/src/output/row_writer.rs:L639-654] write_row_grouped: one group of the row's variant. *)
Definition write_row_group (batch : RecordBatch) (row : nat) (buf : list Z) (group : list Z * list ResolvedFieldWriter) : result (list Z) :=
  let '(group_key, writers) := group in
  if bool_decide (writers = []) then Ok buf
  else if bool_decide (group_key = []) then write_row_fields_resolved buf batch row writers
  else
    let* buf := write_row_fields_resolved (buf ++ group_key ++ [123]) batch row writers in
    Ok (json_close 125 buf ++ [comma]).

(** [src/src/output/row_writer.rs:616-657] write_row_grouped. *)
Definition write_row_grouped (buf : list Z) (batch : RecordBatch) (row : nat) (resolved : ResolvedGroupedWriters) : result (list Z) :=
  let* buf := write_row_fields_resolved buf batch row (rgw_base_resolved resolved) in
  let* tag_value :=
    match rgw_variant_col_idx resolved with
    | Some idx =>
        let* column := expect (columns batch !! idx) in
        let* reader := expect (StringColumn_resolve column.2) in
        Ok (string_value reader row)
    | None => Ok None
    end in
  match tag_value with
  | Some tag =>
      match assoc tag (rgw_variant_resolved resolved) with
      | Some groups => foldM (write_row_group batch row) groups buf
      | None => Ok buf
      end
  | None => Ok buf
  end.

(** ** Tables *)

(** [src/src/output/row_writer.rs:17-24] PreparedHeader. *)
Record PreparedHeader := {
  ph_batches : list RecordBatch;
  ph_index : BlockIndex;
  ph_resolved : list (list ResolvedFieldWriter);
  ph_number_prefix : list Z;
}.

(** [src/src/output/row_writer.rs:27-48] PreparedHeader::new. *)
Definition PreparedHeader_new (header : OutputHeader) (positions : BlockPositions) : result PreparedHeader :=
  let batches := oh_batches header in
  let number_column := td_block_number_column (rp_desc (oh_projection header)) in
  let* index := BlockIndex_build batches number_column positions in
  let writers := build_field_writers (oh_projection header) in
  let* resolved := mapM_ok (resolve_writers writers) batches in
  Ok {| ph_batches := batches; ph_index := index; ph_resolved := resolved; ph_number_prefix := json_key (snake_to_camel number_column) |}.

(** [src/src/output/row_writer.rs:50-68] PreparedHeader::write. *)
Definition header_write (self : PreparedHeader) (buf : list Z) (block_num : Z) (position : nat) : result (list Z) :=
  let buf := buf ++ json_key "header" ++ [123] in
  let* rows := index_rows (ph_index self) position in
  let* buf :=
    match head rows with
    | Some (batch, row) =>
        let* b := expect (ph_batches self !! batch) in
        let* resolved := expect (ph_resolved self !! batch) in
        write_row_fields_resolved buf b row resolved
    | None => Ok (buf ++ ph_number_prefix self ++ format_int block_num)
    end in
  Ok (json_close 125 buf ++ [comma]).

(** [src/src/output/row_writer.rs:89-93] SourceWriters. *)
Inductive SourceWriters :=
  | Flat (resolved : list (list ResolvedFieldWriter))
  | Grouped (resolved : list ResolvedGroupedWriters).

(** [src/src/output/row_writer.rs:79-87] PreparedSource. *)
Record PreparedSource := {
  ps_batches : list RecordBatch;
  ps_index : BlockIndex;
  ps_order : RowOrder;
  ps_writers : SourceWriters;
}.

(** [src/src/output/row_writer.rs:71-77] PreparedTable. *)
Record PreparedTable := { prt_prefix : list Z; prt_sources : list PreparedSource }.

(** [src/src/output/block_index.rs:151-159] BlockIndex::runs_mut: what [f] makes of each block's rows, in their place. *)
Fixpoint on_runs (f : list place -> list place) (starts : list nat) (rest : list place) : result (list place) :=
  match starts with
  | start :: ((stop :: _) as starts) =>
      if (stop - start <=? length rest)%nat then
        let* tail := on_runs f starts (drop (stop - start) rest) in
        Ok (f (take (stop - start) rest) ++ tail)
      else Panic
  | _ => Ok rest
  end.

(** [src/src/output/row_writer.rs:179-215] PreparedSource::new. *)
Definition PreparedSource_new (batches : list RecordBatch) (projection : ResolvedProjection) (positions : BlockPositions) : result PreparedSource :=
  let desc := rp_desc projection in
  let* index := BlockIndex_build batches (td_block_number_column desc) positions in
  let order := RowOrder_new batches desc in
  let* rows := on_runs (ro_sort order) (bi_starts index) (bi_rows index) in
  let index := {| bi_starts := bi_starts index; bi_rows := rows |} in
  let* writers :=
    match build_grouped_writers projection with
    | Some grouped => let* resolved := mapM_ok (resolve_grouped_writers grouped) batches in Ok (Grouped resolved)
    | None => let* resolved := mapM_ok (resolve_writers (build_field_writers projection)) batches in Ok (Flat resolved)
    end in
  Ok {| ps_batches := batches; ps_index := index; ps_order := order; ps_writers := writers |}.

(** [src/src/output/row_writer.rs:240-250] PreparedSource::write_row. *)
Definition write_row (self : PreparedSource) (buf : list Z) (batch row : nat) : result (list Z) :=
  let* b := expect (ps_batches self !! batch) in
  match ps_writers self with
  | Flat resolved => let* resolved := expect (resolved !! batch) in write_row_fields_resolved buf b row resolved
  | Grouped resolved => let* resolved := expect (resolved !! batch) in write_row_grouped buf b row resolved
  end.

(** An item: the row's fields in braces, after a comma but for the first. *)
Definition write_item (self : PreparedSource) (first : bool) (buf : list Z) (batch row : nat) : result (list Z) :=
  let* buf := write_row self (separate first buf ++ [123]) batch row in
  Ok (json_close 125 buf).

(** [src/src/output/row_writer.rs:217-238] PreparedSource::write_items. *)
Definition source_write_items (self : PreparedSource) (buf : list Z) (position : nat) (prefix : list Z) : result (list Z) :=
  let* rows := index_rows (ps_index self) position in
  if bool_decide (rows = []) then Ok buf
  else
    let* (_, buf) := foldM (fun '(first, buf) '(batch, row) =>
      let* buf := write_item self first buf batch row in Ok (false, buf)) rows (true, buf ++ prefix) in
    Ok (buf ++ [93; comma]).

(** A row of one of a table's sources: the source, and its place there. *)
Definition item : Type := nat * place.

(** [src/src/output/row_writer.rs:L154-157] PreparedTable::write_merged_items: [order]. *)
Definition item_order (sources : list PreparedSource) (a b : item) : comparison :=
  match sources !! a.1, sources !! b.1 with
  | Some x, Some y => ro_compare (ps_order x) a.2 (ps_order y) b.2
  | _, _ => Eq
  end.

(** [Vec::dedup_by]: an element goes when it matches the last one kept. *)
Fixpoint dedup_after {A} (same : A -> A -> bool) (kept : A) (l : list A) : list A :=
  match l with
  | [] => []
  | b :: l => if same kept b then dedup_after same kept l else b :: dedup_after same b l
  end.
Definition dedup_by {A} (same : A -> A -> bool) (l : list A) : list A :=
  match l with [] => [] | a :: l => a :: dedup_after same a l end.

(** [(a.0, a.1, a.2).cmp(&(b.0, b.1, b.2))]. *)
Definition item_cmp (a b : item) : comparison := then_cmp (a.1 ?= b.1)%nat (place_cmp a.2 b.2).

(** [src/src/output/row_writer.rs:L152-160] PreparedTable::write_merged_items: the rows of the sources in
    order, a row that a source before also has left out. *)
Definition merge_items (sources : list PreparedSource) (rows : list item) : list item :=
  match head sources with
  | Some first =>
      if is_keyed (ps_order first) then
        dedup_by (fun a b => negb (a.1 =? b.1)%nat && bool_decide (item_order sources a b = Eq))
          (sort_by (fun a b => negb (bool_decide (then_cmp (item_order sources a b) (item_cmp a b) = Gt))) rows)
      else rows
  | None => rows
  end.

(** [src/src/output/row_writer.rs:134-175] PreparedTable::write_merged_items. The rows of a merge are cleared
    first and kept from block to block only for their space ([RowScratch]), which is not modelled. *)
Definition write_merged_items (self : PreparedTable) (buf : list Z) (position : nat) : result (list Z) :=
  let sources := prt_sources self in
  let* rows := mapM_ok (fun '(si, source) =>
    let* refs := index_rows (ps_index source) position in Ok ((fun p => (si, p)) <$> refs)) (enumerate sources) in
  let rows := mjoin rows in
  if bool_decide (rows = []) then Ok buf
  else
    let rows := merge_items sources rows in
    let* (_, buf) := foldM (fun '(first, buf) '(si, (batch, row)) =>
      let* source := expect (sources !! si) in
      let* buf := write_item source first buf batch row in Ok (false, buf)) rows (true, buf ++ prt_prefix self) in
    Ok (buf ++ [93; comma]).

(** [src/src/output/row_writer.rs:126-132] PreparedTable::write_items. *)
Definition table_write_items (self : PreparedTable) (buf : list Z) (position : nat) : result (list Z) :=
  match prt_sources self with
  | [source] => source_write_items source buf position (prt_prefix self)
  | _ => write_merged_items self buf position
  end.

(** [src/src/output/row_writer.rs:103-124] PreparedTable::new. *)
Definition PreparedTable_new (table : OutputTable) (positions : BlockPositions) : result (option PreparedTable) :=
  let* sources := mapM_ok (fun source => PreparedSource_new (rw_batches (os_rows source)) (os_projection source) positions)
    (filter (fun source => (0 < rows_num_rows (os_rows source))%nat) (out_sources table)) in
  if bool_decide (sources = []) then Ok None
  else Ok (Some {| prt_prefix := json_key (out_name table) ++ [91]; prt_sources := sources |}).
End writer.
