(* ===== verification/RowWriterSpec.v ===== *)
(** What the rows of a response are written as (src/output/row_writer.rs): each row's
    fields under their names, a row of a variant with its variant's groups, and a
    block's rows in order. *)
From stdpp Require Import base strings list gmap.
From Stdlib Require Import ZArith Lia Sorting.Sorted.
From S2P Require Import Prelude Machine ListLib Errors Arrow Catalog Integers Counting BlockIndex Rows Projection Render Names Encoder Escape EncoderSpec Sources RowOrder RowWriter.

#[local] Open Scope Z_scope.

Section spec.
Context {F : JsonFormats} {FL : JsonFormatsLaws F} {H : HexKernel}.

(** ** What a row holds *)

(** A value under a name. *)
Definition keyed (name : string) (value : list Z) : list Z := json_text name ++ [colon] ++ value.

(** A column's value under a name, if the chunk has the column. *)
Definition column_member (desc : TableDescription) (batch : RecordBatch) (row : nat) (name : string) (col : string) : option (list Z) :=
  (fun a => keyed name (column_text (array_type a) (declared_encoding desc col) (declared_type desc col) (declared_members desc col) (cell_at a row)))
    <$> column_by_name batch col.

(** The columns of a roll the chunk has. *)
Definition roll_sources (desc : TableDescription) (batch : RecordBatch) (cols : list string) : list RollSource :=
  omap (fun col => (fun i => {| rs_column_index := i; rs_encoding := declared_encoding desc col; rs_declared_type := declared_type desc col |})
    <$> index_of batch col) cols.

(** A field of a row, under its camelCase name. *)
Definition field_member (desc : TableDescription) (batch : RecordBatch) (row : nat) (field : SelectedField) : option (list Z) :=
  let name := snake_to_camel (sf_name field) in
  match sf_source field with
  | SourceColumn col => column_member desc batch row name col
  | SourceRoll cols =>
      match roll_sources desc batch cols with
      | [] => None
      | sources => Some (keyed name (enclose 91 93 (roll_texts batch row sources)))
      end
  end.

(** Every mapping of every variant's groups, by the field it takes, in catalog order. *)
Definition claims (output : OutputSurface) : list (string * GroupOf) :=
  os_variants output ≫= fun variant => variant.2 ≫= fun group => (fun mapping =>
    (mapping_field mapping, {| go_variant := variant.1; go_group := group.1; go_json_name := fm_json_name mapping; go_column := fm_column mapping |})) <$> group.2.

(** The group that takes a field: the last that claims it. *)
Definition claim (output : OutputSurface) (field : string) : option GroupOf :=
  snd <$> last (filter (fun c => c.1 = field) (claims output)).

(** The fields of a selection that a group of a variant takes, as it names them. *)
Definition group_claims (projection : ResolvedProjection) (variant group : string) : list GroupOf :=
  filter (fun g => go_variant g = variant /\ go_group g = group) (omap (fun field => claim (td_output (rp_desc projection)) (sf_name field)) (rp_fields projection)).

(** A group of the row's variant: an object under the group's name, or its members as they are for [_];
    nothing when none of its fields is selected. *)
Definition group_members (projection : ResolvedProjection) (batch : RecordBatch) (row : nat) (variant : string) (group : string * list FieldMapping) : list (list Z) :=
  match group_claims projection variant group.1 with
  | [] => []
  | taken =>
      let members := omap (fun g => column_member (rp_desc projection) batch row (go_json_name g) (go_column g)) taken in
      if decide (group.1 = "_"%string) then members else [keyed group.1 (enclose 123 125 members)]
  end.

(** The variant a row is of. *)
Definition variant_tag (batch : RecordBatch) (row : nat) (variant_column : string) : option string :=
  a ← column_by_name batch variant_column;
  reader ← StringColumn_resolve a;
  string_value reader row.

(** A row's members in the order they are written: the fields no variant claims, then the groups of its own variant. *)
Definition row_members (projection : ResolvedProjection) (batch : RecordBatch) (row : nat) : list (list Z) :=
  let desc := rp_desc projection in
  match os_variant_column (td_output desc) with
  | None => omap (field_member desc batch row) (rp_fields projection)
  | Some variant_column =>
      omap (field_member desc batch row) (filter (fun field => claim (td_output desc) (sf_name field) = None) (rp_fields projection)) ++
      match variant_tag batch row variant_column with
      | Some tag =>
          match assoc tag (os_variants (td_output desc)) with
          | Some groups => groups ≫= group_members projection batch row tag
          | None => []
          end
      | None => []
      end
  end.

(** A row as an item. *)
Definition row_text (projection : ResolvedProjection) (batch : RecordBatch) (row : nat) : list Z :=
  enclose 123 125 (row_members projection batch row).

(** ** Members written one after another *)

(** Each with a comma after it. *)
Definition ended (texts : list (list Z)) : list Z := concat ((fun t => t ++ [comma]) <$> texts).

Lemma ended_app t u : ended (t ++ u) = ended t ++ ended u.
Proof. unfold ended. by rewrite fmap_app, concat_app. Qed.

Lemma ended_some t : ended (option_list (Some t)) = t ++ [comma].
Proof. cbn. by rewrite app_nil_r. Qed.

Lemma commas_ended t texts : commas (t :: texts) ++ [comma] = ended (t :: texts).
Proof.
  unfold ended. rewrite fmap_cons. cbn [commas concat]. revert t. induction texts as [|u texts IH]; intros t; [cbn; by rewrite !app_nil_r|].
  rewrite !fmap_cons. cbn [concat]. specialize (IH u). cbn [commas] in IH. rewrite <- IH. rewrite <- !app_assoc. cbn [app]. by rewrite <- ?app_assoc.
Qed.

Lemma json_close_comma end_ buf : json_close end_ (buf ++ [comma]) = buf ++ [end_].
Proof.
  unfold json_close. rewrite last_snoc, Z.eqb_refl, length_app. cbn [length].
  replace (length buf + 1 - 1)%nat with (length buf) by lia. by rewrite take_app_length.
Qed.

(** The close of what was opened: it takes the last comma's place, or follows the opening. *)
Lemma json_close_enclose open_ close_ texts buf : open_ <> comma -> json_close close_ (buf ++ open_ :: ended texts) = buf ++ enclose open_ close_ texts.
Proof.
  intros Ho. destruct texts as [|t texts].
  - unfold json_close, enclose. change (ended []) with (@nil Z). rewrite last_snoc. destruct (Z.eqb_spec open_ comma); [done|]. by rewrite <- app_assoc.
  - rewrite <- commas_ended. replace (buf ++ open_ :: commas (t :: texts) ++ [comma]) with ((buf ++ open_ :: commas (t :: texts)) ++ [comma]) by by rewrite <- app_assoc.
    rewrite json_close_comma. unfold enclose. by rewrite <- !app_assoc.
Qed.

Lemma json_key_keyed name value buf : (buf ++ json_key name) ++ value = buf ++ keyed name value.
Proof. unfold json_key, keyed. rewrite json_string_text. cbn [app]. by rewrite <- !app_assoc. Qed.

(** ** Writers *)

(** What a writer writes of a row. *)
Definition writer_member (batch : RecordBatch) (row : nat) (writer : FieldWriter) : option (list Z) :=
  match writer with
  | FwRoll prefix sources =>
      match omap (fun s => (fun i => {| rs_column_index := i; rs_encoding := rsc_encoding s; rs_declared_type := rsc_declared_type s |}) <$> index_of batch (rsc_name s)) sources with
      | [] => None
      | sources => Some (prefix ++ enclose 91 93 (roll_texts batch row sources))
      end
  | FwRegular prefix name encoding declared members =>
      (fun a => prefix ++ column_text (array_type a) encoding declared members (cell_at a row)) <$> column_by_name batch name
  end.

(** A step that writes a text for every row of a batch, or is refused as malformed. *)
Definition writes (batch : RecordBatch) {W} (write : W -> nat -> list Z -> result (list Z)) (texts : nat -> list Z) (r : result W) : Prop :=
  match r with
  | Ok w => forall row buf, (row < num_rows batch)%nat -> write w row buf = Ok (buf ++ texts row)
  | Err e => e = EngineError MalformedChunkData
  | Panic => False
  end.

Lemma index_of_lookup batch name i : index_of batch name = Some i -> exists a, columns batch !! i = Some (name, a) /\ column_by_name batch name = Some a.
Proof.
  intros Hi. rewrite index_of_column, Hi. unfold index_of in Hi. cbn [mbind option_bind]. revert i Hi. induction (columns batch) as [|[n a] cols IH]; intros i Hi; [done|].
  cbn [index_of_name] in Hi. case_decide as Hn; [injection Hi as <-; subst n; by exists a|].
  destruct (index_of_name name cols) as [j|]; [|done]. injection Hi as <-. apply (IH j eq_refl).
Qed.

Lemma resolve_writer_ok batch writer :
  batch_ok batch -> writes batch (fun rw row buf => write_row_field batch row buf rw) (fun row => ended (option_list (writer_member batch row writer))) (resolve_writer batch writer).
Proof.
  intros Hok. destruct writer as [prefix sources|prefix name encoding declared members]; cbn [resolve_writer writer_member].
  - set (present := omap (fun s => (fun index => (index, s)) <$> index_of batch (rsc_name s)) sources).
    set (rolls := (fun '(index, s) => {| rs_column_index := index; rs_encoding := rsc_encoding s; rs_declared_type := rsc_declared_type s |}) <$> present).
    assert (Hrolls : omap (fun s => (fun i => {| rs_column_index := i; rs_encoding := rsc_encoding s; rs_declared_type := rsc_declared_type s |}) <$> index_of batch (rsc_name s)) sources = rolls).
    { subst rolls present. clear. induction sources as [|s sources IH]; [done|]. cbn [omap list_omap]. destruct (index_of batch (rsc_name s)); cbn; [by f_equal|done]. }
    rewrite Hrolls.
    assert (Hin : Forall (fun s => (rs_column_index s < length (columns batch))%nat) rolls).
    { rewrite <- Hrolls. apply Forall_forall. intros s (x & _ & Hx)%list_elem_of_omap. destruct (index_of batch (rsc_name x)) as [i|] eqn:Hi; [|done].
      injection Hx as <-. apply index_of_lookup in Hi as (a & Ha & _). by eapply lookup_lt_Some. }
    pose proof (resolve_roll_refused batch rolls Hin) as Hr. destruct (resolve_roll batch rolls) as [roll|part|] eqn:He; cbn [unrenderable obind]; [|done|done].
    intros row buf Hrow. unfold write_row_field. cbn [rfw_indices rfw_roll_encoder rfw_json_key_prefix].
    assert (Hnil : present.*1 = [] <-> rolls = []) by (subst rolls; by destruct present).
    destruct rolls as [|source rolls'] eqn:Hrs; [rewrite bool_decide_eq_true_2 by tauto; cbn; by rewrite app_nil_r|].
    rewrite bool_decide_eq_false_2 by (rewrite Hnil; done). rewrite (encode_resolved_roll_ok batch (source :: rolls') roll) by done. cbn [obind].
    rewrite ended_some. by rewrite <- !app_assoc.
  - destruct (index_of batch name) as [i|] eqn:Hi.
    + destruct (index_of_lookup _ _ _ Hi) as (a & Ha & Hc). rewrite Ha, Hc. cbn [expect obind snd].
      pose proof (resolve_refused (array_type a) encoding declared members) as Hr. destruct (resolve_encoder (array_type a) _ _ _) as [e|part|] eqn:He; cbn [unrenderable obind]; [|done|done].
      intros row buf Hrow. unfold write_row_field. cbn [rfw_indices rfw_json_key_prefix]. rewrite Ha. cbn [expect obind snd].
      destruct (column_ok _ _ _ Hok Hc) as [Hca Hlen]. rewrite (encode_ok a Hca encoding declared members e) by (done || lia).
      cbn [obind fmap option_fmap option_map]. rewrite ended_some. by rewrite <- !app_assoc.
    + intros row buf Hrow. rewrite index_of_column, Hi. cbn. by rewrite app_nil_r.
Qed.

(** A column the chunk has is rendered as it is declared. *)
Definition encodes (batch : RecordBatch) (name : string) (encoding : option JsonEncoding) (declared : option ColumnType) (members : option (list (string * MemberDescription))) : Prop :=
  forall a, column_by_name batch name = Some a -> exists encoder, resolve_encoder (array_type a) encoding declared members = Ok encoder.

(** What a writer reads of a batch is rendered. *)
Definition writer_renders (batch : RecordBatch) (writer : FieldWriter) : Prop :=
  match writer with
  | FwRoll _ sources =>
      exists roll, resolve_roll batch (omap (fun s => (fun i => {| rs_column_index := i; rs_encoding := rsc_encoding s; rs_declared_type := rsc_declared_type s |}) <$> index_of batch (rsc_name s)) sources) = Ok roll
  | FwRegular _ name encoding declared members => encodes batch name encoding declared members
  end.

(** Malformed chunk data: what a column nothing renders is refused as. *)
Definition malformed (e : error) : Prop := e = EngineError MalformedChunkData.

(** The sources of a roll that a batch has. *)
Lemma present_rolls batch (sources : list RollSourceColumn) :
  omap (fun s => (fun i => {| rs_column_index := i; rs_encoding := rsc_encoding s; rs_declared_type := rsc_declared_type s |}) <$> index_of batch (rsc_name s)) sources =
  (fun '(index, s) => {| rs_column_index := index; rs_encoding := rsc_encoding s; rs_declared_type := rsc_declared_type s |}) <$>
    omap (fun s => (fun index => (index, s)) <$> index_of batch (rsc_name s)) sources.
Proof. induction sources as [|s sources IH]; [done|]. cbn [omap list_omap]. destruct (index_of batch (rsc_name s)); cbn; [by f_equal|done]. Qed.

Lemma resolve_writer_settles batch writer : settles (writer_renders batch writer) malformed (resolve_writer batch writer).
Proof.
  destruct writer as [prefix sources|prefix name encoding declared members]; cbn [resolve_writer writer_renders].
  - rewrite <- present_rolls. set (rolls := omap _ sources).
    assert (Hin : Forall (fun s => (rs_column_index s < length (columns batch))%nat) rolls).
    { apply Forall_forall. intros s (x & _ & Hx)%list_elem_of_omap. destruct (index_of batch (rsc_name x)) as [i|] eqn:Hi; [|done].
      injection Hx as <-. apply index_of_lookup in Hi as (a & Ha & _). by eapply lookup_lt_Some. }
    pose proof (resolve_roll_refused batch rolls Hin) as Hr. destruct (resolve_roll batch rolls) as [roll|part|]; cbn; [by eexists| |done].
    split; [by intros [? ?]|done].
  - unfold encodes. destruct (index_of batch name) as [i|] eqn:Hi.
    + destruct (index_of_lookup _ _ _ Hi) as (a & Ha & Hc). rewrite Ha, Hc. cbn [expect obind snd].
      pose proof (resolve_refused (array_type a) encoding declared members) as Hr. destruct (resolve_encoder (array_type a) _ _ _) as [e|part|] eqn:He; cbn; [| |done].
      * intros a' [= <-]. by exists e.
      * split; [|done]. intros Hc'. destruct (Hc' a eq_refl) as [? Hc'']. congruence.
    + intros a. rewrite index_of_column, Hi. done.
Qed.

Lemma resolve_writers_settles batch writers : settles (Forall (writer_renders batch) writers) malformed (resolve_writers writers batch).
Proof. apply settles_map. intros w _. apply resolve_writer_settles. Qed.

Lemma mapM_writes batch {A W} (resolve : A -> result W) (write : W -> nat -> list Z -> result (list Z)) (texts : A -> nat -> list Z) (l : list A) :
  (forall a, a ∈ l -> writes batch write (texts a) (resolve a)) ->
  writes batch (fun ws row buf => foldM (fun buf w => write w row buf) ws buf) (fun row => concat ((fun a => texts a row) <$> l)) (mapM_ok resolve l).
Proof.
  induction l as [|a l IH]; intros Ha; cbn [mapM_ok].
  { intros row buf _. cbn. by rewrite app_nil_r. }
  pose proof (Ha a ltac:(left)) as Hw. destruct (resolve a) as [w|e|]; cbn [obind]; [|done|done].
  specialize (IH (fun a Hin => Ha a ltac:(by right))). destruct (mapM_ok resolve l) as [ws|e|]; cbn [obind]; [|done|done].
  intros row buf Hrow. cbn [foldM]. rewrite Hw by done. cbn [obind]. rewrite IH by done. rewrite fmap_cons. cbn [concat]. by rewrite <- app_assoc.
Qed.

Lemma ended_omap {A} (f : A -> option (list Z)) l : concat ((fun a => ended (option_list (f a))) <$> l) = ended (omap f l).
Proof.
  induction l as [|a l IH]; [done|]. rewrite fmap_cons. cbn [concat omap list_omap]. rewrite IH. destruct (f a); [|done].
  by rewrite ended_some.
Qed.

Lemma resolve_writers_ok batch writers :
  batch_ok batch ->
  writes batch (fun rws row buf => write_row_fields_resolved buf batch row rws) (fun row => ended (omap (writer_member batch row) writers)) (resolve_writers writers batch).
Proof.
  intros Hok. pose proof (mapM_writes batch (resolve_writer batch) _ _ writers (fun w _ => resolve_writer_ok batch w Hok)) as Hw.
  unfold resolve_writers. destruct (mapM_ok _ writers) as [rws|e|]; [|exact Hw..]. intros row buf Hrow. unfold write_row_fields_resolved.
  rewrite <- ended_omap. by apply Hw.
Qed.

(** ** Fields *)

Lemma regular_member desc batch row name col :
  writer_member batch row (regular_writer desc (json_key name) col) = column_member desc batch row name col.
Proof.
  unfold regular_writer, column_member, writer_member. destruct (column_by_name batch col); [|done]. cbn. f_equal.
  by rewrite <- (app_nil_l (json_key name)), json_key_keyed.
Qed.

Lemma field_writer_member desc batch row field : writer_member batch row (build_field_writer field desc) = field_member desc batch row field.
Proof.
  unfold build_field_writer, field_member. destruct (sf_source field) as [col|cols]; [apply regular_member|]. cbn [writer_member].
  assert (E : omap (fun s => (fun i => {| rs_column_index := i; rs_encoding := rsc_encoding s; rs_declared_type := rsc_declared_type s |}) <$> index_of batch (rsc_name s))
    ((fun name => {| rsc_name := name; rsc_encoding := declared_encoding desc name; rsc_declared_type := declared_type desc name |}) <$> cols) = roll_sources desc batch cols).
  { unfold roll_sources. induction cols as [|col cols IH]; [done|]. rewrite fmap_cons. cbn [omap list_omap rsc_name rsc_encoding rsc_declared_type]. by destruct (index_of batch col); cbn; rewrite IH. }
  rewrite E. destruct (roll_sources desc batch cols); [done|]. f_equal. by rewrite <- (app_nil_l (json_key _)), json_key_keyed.
Qed.

Lemma field_writers_members projection batch row :
  omap (writer_member batch row) (build_field_writers projection) = omap (field_member (rp_desc projection) batch row) (rp_fields projection).
Proof.
  unfold build_field_writers. induction (rp_fields projection) as [|f fields IH]; [done|]. rewrite fmap_cons. cbn [omap list_omap]. by rewrite field_writer_member, IH.
Qed.

(** ** Groups *)

Lemma fold_left_bind {A B S} (f : S -> B -> S) (g : A -> list B) l s : fold_left (fun s a => fold_left f (g a) s) l s = fold_left f (l ≫= g) s.
Proof. revert s. induction l as [|a l IH]; intros s; [done|]. cbn [fold_left]. rewrite bind_cons, fold_left_app. apply IH. Qed.

Lemma fold_left_fmap {A B S} (f : S -> B -> S) (g : A -> B) l s : fold_left (fun s a => f s (g a)) l s = fold_left f (g <$> l) s.
Proof. revert s. induction l as [|a l IH]; intros s; [done|]. cbn [fold_left]. rewrite fmap_cons. apply IH. Qed.

Lemma fold_left_same {A S} (f g : S -> A -> S) l s : (forall s a, f s a = g s a) -> fold_left f l s = fold_left g l s.
Proof. intros E. revert s. induction l as [|a l IH]; intros s; [done|]. cbn [fold_left]. by rewrite E, IH. Qed.

Lemma field_to_group_list output : field_to_group output = fold_left (fun fields (c : string * GroupOf) => <[c.1 := c.2]> fields) (claims output) ∅.
Proof.
  unfold field_to_group, claims. rewrite <- fold_left_bind. apply fold_left_same. intros s variant. rewrite <- fold_left_bind.
  apply fold_left_same. intros s' group. by rewrite <- fold_left_fmap.
Qed.

Lemma inserted_last (l : list (string * GroupOf)) (m : gmap string GroupOf) field :
  fold_left (fun fields (c : string * GroupOf) => <[c.1 := c.2]> fields) l m !! field =
  match last (filter (fun c => c.1 = field) l) with Some c => Some c.2 | None => m !! field end.
Proof.
  revert m. induction l as [|c l IH] using rev_ind; intros m; [done|]. rewrite fold_left_app, filter_app. cbn [fold_left].
  rewrite filter_cons. cbn [filter list_filter]. destruct (decide (c.1 = field)) as [<-|Hne].
  - by rewrite lookup_insert_eq, last_snoc.
  - rewrite lookup_insert_ne by done. rewrite app_nil_r. apply IH.
Qed.

Lemma field_to_group_claim output field : field_to_group output !! field = claim output field.
Proof. rewrite field_to_group_list, inserted_last. unfold claim. by destruct (last _). Qed.

Definition group_writer (desc : TableDescription) (g : GroupOf) : FieldWriter := regular_writer desc (json_key (go_json_name g)) (go_column g).

(** The fields no group takes, and each group's. *)
Lemma group_fields_spec projection :
  let '(base, groups) := group_fields projection in
  base = (fun field => build_field_writer field (rp_desc projection)) <$> filter (fun field => claim (td_output (rp_desc projection)) (sf_name field) = None) (rp_fields projection) /\
  forall variant group, groups !! (variant, group) =
    match group_claims projection variant group with [] => None | taken => Some (group_writer (rp_desc projection) <$> taken) end.
Proof.
  unfold group_fields, group_claims. induction (rp_fields projection) as [|field fields IH] using rev_ind; [done|].
  rewrite fold_left_app, filter_app, omap_app, fmap_app. cbn [fold_left].
  destruct (fold_left _ fields _) as [base groups]. destruct IH as [-> Hg]. rewrite field_to_group_claim, filter_cons, filter_nil. cbn [omap list_omap].
  destruct (claim _ (sf_name field)) as [g|] eqn:Hc; cbn [mbind option_bind].
  - rewrite decide_False by done. cbn. rewrite app_nil_r. split; [done|]. intros variant group. rewrite filter_app, filter_cons, filter_nil.
    destruct (decide (go_variant g = variant /\ go_group g = group)) as [[<- <-]|Hne].
    + rewrite lookup_insert_eq, Hg. destruct (filter _ _); cbn; by rewrite ?fmap_app.
    + rewrite lookup_insert_ne by (intros [= E1 E2]; tauto). rewrite app_nil_r. apply Hg.
  - rewrite decide_True by done. split; [done|]. intros variant group. rewrite app_nil_r. apply Hg.
Qed.

(** A catalog's variants and their groups are maps: no name twice. *)
Definition variants_ok (output : OutputSurface) : Prop :=
  NoDup (os_variants output).*1 /\ Forall (fun variant => NoDup variant.2.*1) (os_variants output).

Definition group_key (group : string) : list Z := if bool_decide (group = "_"%string) then [] else json_key group.

(** The groups of a variant that have writers. *)
Definition taken_groups (groups : gmap (string * string) (list FieldWriter)) (variant : string) (l : list (string * list FieldMapping)) : list (list Z * list FieldWriter) :=
  omap (fun group => (fun writers => (group_key group.1, writers)) <$> groups !! (variant, group.1)) l.

Lemma take_groups_spec variant l groups taken :
  NoDup l.*1 -> (forall g, g ∈ l.*1 -> taken !! (variant, g) = groups !! (variant, g)) ->
  exists taken', take_groups variant l taken = (taken_groups groups variant l, taken') /\
    forall v g, v <> variant -> taken' !! (v, g) = taken !! (v, g).
Proof.
  intros Hnd Hg. unfold take_groups.
  assert (Hgen : forall acc, exists taken',
    fold_left (fun (acc : list (list Z * list FieldWriter) * gmap (string * string) (list FieldWriter)) (group : string * list FieldMapping) =>
      let '(group_list, taken) := acc in
      match taken !! (variant, group.1) with
      | None => (group_list, taken)
      | Some writers => (group_list ++ [(group_key group.1, writers)], delete (variant, group.1) taken)
      end) l (acc, taken) = (acc ++ taken_groups groups variant l, taken') /\ forall v g, v <> variant -> taken' !! (v, g) = taken !! (v, g)).
  { revert taken Hg. induction l as [|group l IH]; intros taken Hg acc; cbn [fold_left].
    { exists taken. cbn. by rewrite app_nil_r. }
    rewrite fmap_cons in Hnd. apply NoDup_cons in Hnd as [Hni Hnd]. rewrite (Hg group.1) by (rewrite fmap_cons; left).
    unfold taken_groups. cbn [omap list_omap]. destruct (groups !! (variant, group.1)) as [writers|]; cbn [fmap option_fmap option_map].
    - destruct (IH Hnd (delete (variant, group.1) taken)) with (acc := acc ++ [(group_key group.1, writers)]) as (taken' & E & Hv).
      { intros g Hin. rewrite lookup_delete_ne by congruence. apply Hg. rewrite fmap_cons. by right. }
      exists taken'. rewrite E, <- app_assoc. split; [done|]. intros v g Hne. rewrite Hv by done. apply lookup_delete_ne. congruence.
    - apply IH; [done|]. intros g Hin. apply Hg. rewrite fmap_cons. by right. }
  apply (Hgen []).
Qed.

Lemma grouped_writers_spec projection variant_column :
  os_variant_column (td_output (rp_desc projection)) = Some variant_column -> variants_ok (td_output (rp_desc projection)) ->
  let groups := (group_fields projection).2 in
  build_grouped_writers projection = Some {|
    gw_base_writers := (group_fields projection).1;
    gw_variant_column := variant_column;
    gw_variant_writers := filter (fun v => v.2 <> []) ((fun v => (v.1, taken_groups groups v.1 v.2)) <$> os_variants (td_output (rp_desc projection)));
  |}.
Proof.
  intros Hvc [Hnd Hgs]. cbn zeta. unfold build_grouped_writers. rewrite Hvc. cbn [mbind option_bind].
  destruct (group_fields projection) as [base groups]. cbn [fst snd].
  assert (Hgen : forall l acc taken, NoDup l.*1 -> Forall (fun variant : string * list (string * list FieldMapping) => NoDup variant.2.*1) l ->
    (forall v g, v ∈ l.*1 -> taken !! (v, g) = groups !! (v, g)) ->
    exists taken', fold_left (fun (acc : VariantGroups FieldWriter * gmap (string * string) (list FieldWriter)) (variant : string * list (string * list FieldMapping)) =>
      let '(variant_writers, taken) := acc in
      let '(group_list, taken) := take_groups variant.1 variant.2 taken in
      (if bool_decide (group_list = []) then variant_writers else variant_writers ++ [(variant.1, group_list)], taken)) l (acc, taken) =
    (acc ++ filter (fun v => v.2 <> []) ((fun v => (v.1, taken_groups groups v.1 v.2)) <$> l), taken')).
  { clear. induction l as [|variant l IH]; intros acc taken Hnd Hgs Htaken; cbn [fold_left].
    { exists taken. cbn. by rewrite app_nil_r. }
    rewrite fmap_cons in Hnd, Htaken. apply NoDup_cons in Hnd as [Hni Hnd]. apply Forall_cons in Hgs as [Hg Hgs].
    destruct (take_groups_spec variant.1 variant.2 groups taken Hg) as (taken' & -> & Hother); [intros g _; apply Htaken; left|].
    rewrite fmap_cons, filter_cons. cbn [snd].
    destruct (IH (if bool_decide (taken_groups groups variant.1 variant.2 = []) then acc else acc ++ [(variant.1, taken_groups groups variant.1 variant.2)]) taken' Hnd Hgs) as [taken'' E].
    { intros v g Hin. rewrite Hother by (intros ->; done). apply Htaken. by right. }
    exists taken''. rewrite E. case_bool_decide as Hnil.
    - rewrite Hnil, decide_False by tauto. done.
    - rewrite decide_True by done. by rewrite <- app_assoc. }
  destruct (Hgen (os_variants (td_output (rp_desc projection))) [] groups Hnd Hgs (fun _ _ _ => eq_refl)) as [taken' E].
  match type of E with ?x = _ => match goal with |- context [fold_left ?f ?l ?s] => change (fold_left f l s) with x end end. by rewrite E.
Qed.

(** What a group's writers write: its members as they are, or an object under its key. *)
Definition group_text (batch : RecordBatch) (row : nat) (group : list Z * list FieldWriter) : list Z :=
  let members := omap (writer_member batch row) group.2 in
  if decide (group.1 = []) then ended members else ended [group.1 ++ enclose 123 125 members].

Definition resolve_group (batch : RecordBatch) (group : list Z * list FieldWriter) : result (list Z * list ResolvedFieldWriter) :=
  let '(key, writers) := group in let* writers := resolve_writers writers batch in Ok (key, writers).

Lemma resolve_group_ok batch group :
  batch_ok batch -> group.2 <> [] ->
  writes batch (fun g row buf => write_row_group batch row buf g) (fun row => group_text batch row group) (resolve_group batch group).
Proof.
  intros Hok Hne. destruct group as [key writers]. cbn [resolve_group snd] in *. pose proof (resolve_writers_ok batch writers Hok) as Hw.
  destruct (resolve_writers writers batch) as [ws|e|] eqn:He; cbn [obind]; [|exact Hw..]. intros row buf Hrow. cbn [write_row_group].
  assert (Hws : ws <> []). { intros ->. apply mapM_ok_Forall2 in He. by inversion He. }
  rewrite bool_decide_eq_false_2 by done. unfold group_text. cbn [fst snd]. case_bool_decide as Hk.
  - rewrite decide_True by done. by apply Hw.
  - rewrite decide_False by done. rewrite Hw by done. cbn [obind].
    replace ((buf ++ key ++ [123]) ++ ended (omap (writer_member batch row) writers)) with ((buf ++ key) ++ 123 :: ended (omap (writer_member batch row) writers)) by by rewrite <- !app_assoc.
    rewrite json_close_enclose by done. change (ended [?t]) with (ended (option_list (Some t))). rewrite ended_some. by rewrite <- !app_assoc.
Qed.

Lemma group_writer_members projection batch row (taken : list GroupOf) :
  omap (writer_member batch row) (group_writer (rp_desc projection) <$> taken) =
  omap (fun g => column_member (rp_desc projection) batch row (go_json_name g) (go_column g)) taken.
Proof. induction taken as [|g taken IH]; [done|]. rewrite fmap_cons. cbn [omap list_omap]. unfold group_writer at 1. by rewrite regular_member, IH. Qed.

Lemma json_key_nonempty name : json_key name <> [].
Proof. unfold json_key. intros E. by apply app_eq_nil in E as [_ E]. Qed.

(** A variant's groups written one after another. *)
Lemma taken_text projection batch row variant l :
  concat (group_text batch row <$> taken_groups (group_fields projection).2 variant l) = ended (l ≫= group_members projection batch row variant).
Proof.
  pose proof (group_fields_spec projection) as Hg. destruct (group_fields projection) as [base groups]. destruct Hg as [_ Hg]. cbn [snd].
  unfold taken_groups. induction l as [|group l IH]; [done|]. rewrite bind_cons, ended_app, <- IH. cbn [omap list_omap].
  rewrite Hg. unfold group_members at 1. destruct (group_claims projection variant group.1) as [|g taken] eqn:Ht; [done|].
  cbn [fmap option_fmap option_map]. rewrite fmap_cons. cbn [concat]. f_equal. unfold group_text. cbn [fst snd].
  change (group_writer (rp_desc projection) g :: (fix go l := match l with [] => [] | x :: l => group_writer (rp_desc projection) x :: go l end) taken)
    with (group_writer (rp_desc projection) <$> (g :: taken)).
  rewrite group_writer_members. unfold group_key. case_bool_decide as Hn.
  - by rewrite !decide_True.
  - rewrite !decide_False by (done || apply json_key_nonempty). f_equal. f_equal. by rewrite <- (app_nil_l (json_key _)), json_key_keyed.
Qed.

Lemma taken_nonempty projection variant l group :
  group ∈ taken_groups (group_fields projection).2 variant l -> group.2 <> [].
Proof.
  pose proof (group_fields_spec projection) as Hg. destruct (group_fields projection) as [base groups]. destruct Hg as [_ Hg]. cbn [snd].
  intros (x & _ & Hx)%list_elem_of_omap. rewrite Hg in Hx. destruct (group_claims _ _ _); [done|]. by injection Hx as <-.
Qed.

Lemma assoc_Forall2 {A B} (R : A -> B -> Prop) tag (l : list (string * A)) (l' : list (string * B)) :
  Forall2 (fun x y => x.1 = y.1 /\ R x.2 y.2) l l' ->
  match assoc tag l, assoc tag l' with Some a, Some b => R a b | None, None => True | _, _ => False end.
Proof.
  induction 1 as [|[n a] [m b] l l' [E Hr] _ IH]; [done|]. cbn [fst snd] in *. subst m. cbn [assoc]. by case_decide.
Qed.

Lemma assoc_groups {A} tag (f : string -> A -> list (list Z * list FieldWriter)) (l : list (string * A)) :
  NoDup l.*1 -> assoc tag (filter (fun v : string * list (list Z * list FieldWriter) => v.2 <> []) ((fun v => (v.1, f v.1 v.2)) <$> l)) =
    match assoc tag l with Some a => if decide (f tag a = []) then None else Some (f tag a) | None => None end.
Proof.
  induction l as [|[n a] l IH]; intros Hnd; [done|]. change (NoDup (n :: l.*1)) in Hnd. apply NoDup_cons in Hnd as [Hni Hnd]. rewrite fmap_cons, filter_cons. cbn [fst snd assoc].
  destruct (decide (n = tag)) as [<-|Hne].
  - destruct (decide (f n a = [])) as [E|E]; cbn [snd].
    + rewrite decide_False by tauto. rewrite IH by done. destruct (assoc n l) eqn:Ha; [|done]. apply assoc_elem_of in Ha. destruct Hni. by apply (list_elem_of_fmap_2 fst) in Ha.
    + rewrite decide_True by done. cbn [assoc]. by rewrite decide_True.
  - case_decide; cbn [assoc]; [rewrite decide_False by done|]; by apply IH.
Qed.

(** ** Rows *)

(** A variant's groups resolved: the variant, and what its groups write of a row. *)
Definition groups_write (batch : RecordBatch) (groups : list (list Z * list FieldWriter)) (resolved : list (list Z * list ResolvedFieldWriter)) : Prop :=
  forall row buf, (row < num_rows batch)%nat -> foldM (write_row_group batch row) resolved buf = Ok (buf ++ concat (group_text batch row <$> groups)).

Lemma resolve_variants_ok batch (vs : VariantGroups FieldWriter) :
  batch_ok batch -> Forall (fun v => forall g, g ∈ v.2 -> g.2 <> []) vs ->
  match mapM_ok (fun '(variant, groups) =>
      let* resolved_groups := mapM_ok (fun '(key, writers) => let* writers := resolve_writers writers batch in Ok (key, writers)) groups in
      Ok (variant, resolved_groups)) vs with
  | Ok rs => Forall2 (fun v r => v.1 = r.1 /\ groups_write batch v.2 r.2) vs rs
  | Err e => e = EngineError MalformedChunkData
  | Panic => False
  end.
Proof.
  intros Hok. induction 1 as [|[variant groups] vs Hg _ IH]; cbn [mapM_ok]; [constructor|]. cbn [snd] in Hg.
  pose proof (mapM_writes batch (resolve_group batch) _ _ groups (fun g Hin => resolve_group_ok batch g Hok (Hg g Hin))) as Hw.
  change (mapM_ok (fun '(key, writers) => let* writers := resolve_writers writers batch in Ok (key, writers)) groups) with (mapM_ok (resolve_group batch) groups).
  destruct (mapM_ok (resolve_group batch) groups) as [rgs|e|]; cbn [obind]; [|exact Hw..].
  destruct (mapM_ok _ vs) as [rs|e|]; cbn [obind]; [|exact IH..]. constructor; [|exact IH]. split; [done|]. intros row buf Hrow. by apply Hw.
Qed.

Lemma base_members projection batch row :
  omap (writer_member batch row) (group_fields projection).1 =
  omap (field_member (rp_desc projection) batch row) (filter (fun field => claim (td_output (rp_desc projection)) (sf_name field) = None) (rp_fields projection)).
Proof.
  pose proof (group_fields_spec projection) as Hg. destruct (group_fields projection) as [base groups]. destruct Hg as [-> _]. cbn [fst].
  induction (filter _ _) as [|f fields IH]; [done|]. rewrite fmap_cons. cbn [omap list_omap]. by rewrite field_writer_member, IH.
Qed.

(** The reading of a row's variant, the column being text. *)
Lemma tag_read batch row variant_column :
  (forall a, column_by_name batch variant_column = Some a -> is_Some (StringColumn_resolve a)) ->
  (match index_of batch variant_column with
   | Some idx =>
       let* column := expect (columns batch !! idx) in
       let* reader := expect (StringColumn_resolve column.2) in
       Ok (string_value reader row)
   | None => Ok None
   end : result (option string)) = Ok (variant_tag batch row variant_column).
Proof.
  intros Ht. unfold variant_tag. destruct (index_of batch variant_column) as [i|] eqn:Hi.
  - destruct (index_of_lookup _ _ _ Hi) as (a & Ha & Hc). rewrite Ha, Hc. cbn [expect obind snd mbind option_bind].
    destruct (Ht a Hc) as [reader ->]. done.
  - rewrite index_of_column, Hi. done.
Qed.

Lemma resolve_grouped_ok projection gw batch :
  batch_ok batch -> variants_ok (td_output (rp_desc projection)) -> build_grouped_writers projection = Some gw ->
  writes batch (fun rgw row buf => write_row_grouped buf batch row rgw) (fun row => ended (row_members projection batch row)) (resolve_grouped_writers gw batch).
Proof.
  intros Hok Hv Hgw. destruct (os_variant_column (td_output (rp_desc projection))) as [vc|] eqn:Hvc; [|unfold build_grouped_writers in Hgw; by rewrite Hvc in Hgw].
  rewrite (grouped_writers_spec projection vc) in Hgw by done. injection Hgw as <-. unfold resolve_grouped_writers. cbn [gw_base_writers gw_variant_column gw_variant_writers].
  pose proof (resolve_writers_ok batch (group_fields projection).1 Hok) as Hbase. destruct (resolve_writers _ _) as [base|e|]; cbn [obind]; [|exact Hbase..].
  assert (Htag : (exists a, column_by_name batch vc = Some a /\ StringColumn_resolve a = None) \/ (forall a, column_by_name batch vc = Some a -> is_Some (StringColumn_resolve a))).
  { destruct (column_by_name batch vc) as [a|]; [|by right]. destruct (StringColumn_resolve a) eqn:E; [right; intros b [= <-]; by rewrite E|left; by exists a]. }
  destruct Htag as [(a & Ha & Hn)|Htag].
  { destruct (index_of batch vc) as [i|] eqn:Hi; [|rewrite index_of_column, Hi in Ha; done].
    destruct (index_of_lookup _ _ _ Hi) as (a' & Ha' & Hc). rewrite Hc in Ha. injection Ha as ->. rewrite Ha'. cbn [expect obind snd]. by rewrite Hn. }
  match goal with |- writes _ _ _ (obind ?r _) => replace r with (Ok (E := error) tt) end.
  2: { destruct (index_of batch vc) as [i|] eqn:Hi; [|done]. destruct (index_of_lookup _ _ _ Hi) as (a & Ha & Hc). rewrite Ha. cbn [expect obind snd]. destruct (Htag a Hc) as [reader ->]. done. }
  cbn [obind]. set (vs := filter _ _).
  assert (Hne : Forall (fun v : string * list (list Z * list FieldWriter) => forall g, g ∈ v.2 -> g.2 <> []) vs).
  { apply Forall_forall. intros v [_ Hin]%list_elem_of_filter g Hg. apply list_elem_of_fmap in Hin as (x & -> & _). cbn [snd] in Hg. by eapply taken_nonempty. }
  pose proof (resolve_variants_ok batch vs Hok Hne) as Hvs. destruct (mapM_ok _ vs) as [rs|e|]; cbn [obind]; [|exact Hvs..].
  intros row buf Hrow. unfold write_row_grouped. cbn [rgw_base_resolved rgw_variant_col_idx rgw_variant_resolved].
  rewrite Hbase by done. cbn [obind]. rewrite tag_read by done. cbn [obind]. rewrite base_members. unfold row_members. rewrite Hvc, ended_app.
  destruct (variant_tag batch row vc) as [tag|]; [|by rewrite app_nil_r].
  pose proof (assoc_Forall2 (groups_write batch) tag vs rs Hvs) as Ha. subst vs.
  rewrite (assoc_groups tag (fun v l => taken_groups (group_fields projection).2 v l)) in Ha by apply Hv.
  destruct (assoc tag (os_variants (td_output (rp_desc projection)))) as [groups|]; [|destruct (assoc tag rs); [done|by rewrite app_nil_r]].
  rewrite <- taken_text. destruct (decide _) as [E|_] in Ha.
  - rewrite E. destruct (assoc tag rs); [done|]. by rewrite app_nil_r.
  - destruct (assoc tag rs) as [rgs|]; [|done]. rewrite (Ha row) by done. by rewrite <- app_assoc.
Qed.

(** The writers of a projection, grouped or not, write a row as an item. *)
Lemma resolve_flat_ok projection batch :
  batch_ok batch -> os_variant_column (td_output (rp_desc projection)) = None ->
  writes batch (fun rws row buf => write_row_fields_resolved buf batch row rws) (fun row => ended (row_members projection batch row))
    (resolve_writers (build_field_writers projection) batch).
Proof.
  intros Hok Hvc. pose proof (resolve_writers_ok batch (build_field_writers projection) Hok) as Hw.
  destruct (resolve_writers _ batch) as [rws|e|]; [|exact Hw..]. intros row buf Hrow. unfold row_members. rewrite Hvc, <- field_writers_members. by apply Hw.
Qed.
(** ** What a row reads *)

(** A column of a table, as its catalog declares it. *)
Definition column_encodes (desc : TableDescription) (batch : RecordBatch) (name : string) : Prop :=
  encodes batch name (declared_encoding desc name) (declared_type desc name) (declared_members desc name).

(** What a field reads is rendered: the column of the group that takes it, or its own column or roll. *)
Definition field_renders (projection : ResolvedProjection) (batch : RecordBatch) (field : SelectedField) : Prop :=
  let desc := rp_desc projection in
  match os_variant_column (td_output desc), claim (td_output desc) (sf_name field) with
  | Some _, Some g => column_encodes desc batch (go_column g)
  | _, _ =>
      match sf_source field with
      | SourceColumn col => column_encodes desc batch col
      | SourceRoll cols => exists roll, resolve_roll batch (roll_sources desc batch cols) = Ok roll
      end
  end.

(** Rows that can be written: every field rendered, and the variant text. *)
Definition batch_renders (projection : ResolvedProjection) (batch : RecordBatch) : Prop :=
  Forall (field_renders projection batch) (rp_fields projection) /\
  forall variant a, os_variant_column (td_output (rp_desc projection)) = Some variant -> column_by_name batch variant = Some a -> is_text (array_type a) = true.

Lemma field_writer_renders desc batch field :
  writer_renders batch (build_field_writer field desc) <->
  match sf_source field with
  | SourceColumn col => column_encodes desc batch col
  | SourceRoll cols => exists roll, resolve_roll batch (roll_sources desc batch cols) = Ok roll
  end.
Proof.
  unfold build_field_writer. destruct (sf_source field) as [col|cols]; [done|]. cbn [writer_renders].
  assert (E : omap (fun s => (fun i => {| rs_column_index := i; rs_encoding := rsc_encoding s; rs_declared_type := rsc_declared_type s |}) <$> index_of batch (rsc_name s))
    ((fun name => {| rsc_name := name; rsc_encoding := declared_encoding desc name; rsc_declared_type := declared_type desc name |}) <$> cols) = roll_sources desc batch cols); [|by rewrite E].
  unfold roll_sources. induction cols as [|col cols IH]; [done|]. rewrite fmap_cons. cbn [omap list_omap rsc_name rsc_encoding rsc_declared_type].
  by destruct (index_of batch col); cbn; rewrite IH.
Qed.

Lemma text_resolves a : (match StringColumn_resolve a with Some _ => true | None => false end) = true <-> is_text (array_type a) = true.
Proof. by destruct a. Qed.

(** A claim is a mapping of the catalog. *)
Lemma claim_listed output name g : claim output name = Some g ->
  exists groups, (go_variant g, groups) ∈ os_variants output /\ go_group g ∈ groups.*1.
Proof.
  unfold claim. destruct (last _) as [c|] eqn:El; [|done]. intros [= <-]. apply last_Some in El as [l El].
  assert (Hc : c ∈ filter (fun c => c.1 = name) (claims output)) by (rewrite El; apply elem_of_app; right; by left).
  apply list_elem_of_filter in Hc as [_ Hc]. unfold claims in Hc. apply list_elem_of_bind in Hc as (variant & Hc & Hv).
  apply list_elem_of_bind in Hc as (group & Hc & Hg). apply list_elem_of_fmap in Hc as (mapping & -> & _). cbn [snd go_variant go_group].
  exists variant.2. split; [by destruct variant|]. by apply list_elem_of_fmap_2.
Qed.

(** The writers of a table with variants read what its fields read. *)
Lemma grouped_renders projection batch variant_column :
  os_variant_column (td_output (rp_desc projection)) = Some variant_column ->
  let groups := (group_fields projection).2 in
  Forall (writer_renders batch) (group_fields projection).1 /\
  Forall (fun v => Forall (fun g => Forall (writer_renders batch) g.2) v.2)
    (filter (fun v => v.2 <> []) ((fun v => (v.1, taken_groups groups v.1 v.2)) <$> os_variants (td_output (rp_desc projection)))) <->
  Forall (field_renders projection batch) (rp_fields projection).
Proof.
  intros Hvc. pose proof (group_fields_spec projection) as Hg. destruct (group_fields projection) as [base groups]. destruct Hg as [-> Hg]. cbn [fst snd].
  rewrite Forall_fmap, !Forall_forall. split.
  - intros [Hb Hs] field Hf. unfold field_renders. rewrite Hvc. destruct (claim _ (sf_name field)) as [g|] eqn:Hc.
    2: { apply (field_writer_renders (rp_desc projection) batch field), (Hb field). by apply list_elem_of_filter. }
    destruct (claim_listed _ _ _ Hc) as (l & Hl & Hin). apply list_elem_of_fmap in Hin as (group & Eg & Hin).
    assert (Ht : g ∈ group_claims projection (go_variant g) (go_group g)).
    { unfold group_claims. apply list_elem_of_filter. split; [done|]. apply list_elem_of_omap. by exists field. }
    assert (Hw : groups !! (go_variant g, go_group g) = Some (group_writer (rp_desc projection) <$> group_claims projection (go_variant g) (go_group g))).
    { rewrite Hg. by destruct (group_claims _ _ _); [apply not_elem_of_nil in Ht|]. }
    assert (Htaken : (group_key (go_group g), group_writer (rp_desc projection) <$> group_claims projection (go_variant g) (go_group g)) ∈ taken_groups groups (go_variant g) l).
    { unfold taken_groups. apply list_elem_of_omap. exists group. split; [done|]. rewrite <- Eg, Hw. done. }
    specialize (Hs (go_variant g, taken_groups groups (go_variant g) l)). rewrite Forall_forall in Hs.
    specialize (fun H => Hs H _ Htaken). cbn [snd] in Hs. rewrite Forall_fmap, Forall_forall in Hs.
    refine (Hs _ g Ht). apply list_elem_of_filter. split; [cbn; intros E; rewrite E in Htaken; by apply not_elem_of_nil in Htaken|].
    apply list_elem_of_fmap. by exists (go_variant g, l).
  - intros Hf. split.
    + intros field [Hc Hin]%list_elem_of_filter. apply (field_writer_renders (rp_desc projection) batch field). specialize (Hf field Hin).
      unfold field_renders in Hf. by rewrite Hvc, Hc in Hf.
    + intros v [_ (x & -> & _)%list_elem_of_fmap]%list_elem_of_filter. cbn [snd]. apply Forall_forall. intros group (y & _ & Hy)%list_elem_of_omap.
      rewrite Hg in Hy. assert (Hy' : group = (group_key y.1, group_writer (rp_desc projection) <$> group_claims projection x.1 y.1)) by (by destruct (group_claims _ _ _); [discriminate Hy|injection Hy as <-]).
      rewrite Hy'. cbn [snd]. rewrite Forall_fmap, Forall_forall. intros g Hin. unfold group_claims in Hin. apply list_elem_of_filter in Hin as [_ (field & Hc & Hin)%list_elem_of_omap].
      specialize (Hf field Hc). unfold field_renders in Hf. by rewrite Hvc, Hin in Hf.
Qed.

Lemma resolve_grouped_settles projection gw batch :
  batch_ok batch -> variants_ok (td_output (rp_desc projection)) -> build_grouped_writers projection = Some gw ->
  settles (batch_renders projection batch) malformed (resolve_grouped_writers gw batch).
Proof.
  intros Hok Hv Hgw. destruct (os_variant_column (td_output (rp_desc projection))) as [vc|] eqn:Hvc; [|unfold build_grouped_writers in Hgw; by rewrite Hvc in Hgw].
  rewrite (grouped_writers_spec projection vc) in Hgw by done. injection Hgw as <-. unfold resolve_grouped_writers. cbn [gw_base_writers gw_variant_column gw_variant_writers].
  set (vs := filter _ _). eapply settles_iff; [apply (settles_bind (Forall (writer_renders batch) (group_fields projection).1)
    ((forall a, column_by_name batch vc = Some a -> is_text (array_type a) = true) /\ Forall (fun v => Forall (fun g => Forall (writer_renders batch) g.2) v.2) vs))|].
  - apply resolve_writers_settles.
  - intros base _. apply settles_bind.
    + destruct (index_of batch vc) as [i|] eqn:Hi; [|intros a; by rewrite index_of_column, Hi].
      destruct (index_of_lookup _ _ _ Hi) as (a & Ha & Hc). rewrite Ha, Hc. cbn [expect obind snd].
      apply settles_ensure; [|done]. rewrite text_resolves. split; [by intros Ht ? [= <-]|auto].
    + intros [] _. eapply settles_iff; [apply (settles_bind (Forall (fun v => Forall (fun g => Forall (writer_renders batch) g.2) v.2) vs) True); [|done]|tauto].
      apply settles_map. intros [variant l] _. eapply settles_iff; [apply (settles_bind (Forall (fun g => Forall (writer_renders batch) g.2) l) True); [|done]|tauto].
      apply settles_map. intros [key writers] _. eapply settles_iff; [apply (settles_bind (Forall (writer_renders batch) writers) True); [apply resolve_writers_settles|done]|tauto].
  - unfold batch_renders. rewrite <- (grouped_renders projection batch vc) by done. fold vs. rewrite Hvc. split; [intros (? & ? & ?)|intros [[? ?] Ht]]; split_and!; try done.
    + intros ? ? [= <-]. auto.
    + intros a. by apply Ht.
Qed.

Lemma resolve_flat_settles projection batch :
  os_variant_column (td_output (rp_desc projection)) = None ->
  settles (batch_renders projection batch) malformed (resolve_writers (build_field_writers projection) batch).
Proof.
  intros Hvc. eapply settles_iff; [apply resolve_writers_settles|]. unfold batch_renders, build_field_writers. rewrite Forall_fmap, Hvc, !Forall_forall.
  setoid_rewrite field_writer_renders. unfold field_renders. rewrite Hvc. split; [intros Hf; split; [exact Hf|done]|]. by intros [Hf _].
Qed.
End spec.
