(* ===== verification/Writer.v ===== *)
(** A response written as JSON lines (src/output/writer.rs): the selected blocks, one
    object a line, encoded one at a time or all at once. *)
From stdpp Require Import base strings list gmap.
From Stdlib Require Import ZArith Lia.
From S2P Require Import Prelude Machine ListLib Errors Arrow Catalog Integers Counting BlockIndex Rows Projection Render Names Encoder Sources RowOrder RowWriter.

#[local] Open Scope Z_scope.

Section output.
Context {F : JsonFormats} {H : HexKernel}.

(** [src/src/output/writer.rs:6-7] INITIAL_CAPACITY. *)
Definition INITIAL_CAPACITY : Z := 256 * 1024.

(** [src/src/output/writer.rs:9-11] SAMPLE_BYTES. *)
Definition SAMPLE_BYTES : Z := INITIAL_CAPACITY / 2.

(** [src/src/output/writer.rs:13-33] QueryOutput. *)
Record QueryOutput := {
  qo_selected_blocks : list Z;
  qo_next : nat;
  qo_header : PreparedHeader;
  qo_tables : list PreparedTable;
  qo_read_through : option Z;
  qo_weights : list Z;
}.

(** [src/src/output/writer.rs:36-61] QueryOutput::prepare. *)
Definition prepare_output (selected_blocks : list Z) (header : OutputHeader) (tables : list OutputTable) (read_through : option Z) (weights : list Z)
    : result QueryOutput :=
  let* positions := BlockPositions_new selected_blocks in
  let* header := PreparedHeader_new header positions in
  let* tables := mapM_ok (fun table => PreparedTable_new table positions) tables in
  Ok {| qo_selected_blocks := selected_blocks; qo_next := 0; qo_header := header; qo_tables := omap id tables;
        qo_read_through := read_through; qo_weights := weights |}.

(** [src/src/output/writer.rs:63-65] QueryOutput::num_blocks. *)
Definition num_blocks (self : QueryOutput) : nat := length (qo_selected_blocks self).

(** [src/src/output/writer.rs:72-74] QueryOutput::first_block. *)
Definition first_block (self : QueryOutput) : result Z := expect (head (qo_selected_blocks self)).

(** [src/src/output/writer.rs:76-78] QueryOutput::last_block. *)
Definition last_block (self : QueryOutput) : result Z := expect (last (qo_selected_blocks self)).

(** [src/src/output/writer.rs:80-82] QueryOutput::has_next_block. *)
Definition has_next_block (self : QueryOutput) : bool := (qo_next self <? length (qo_selected_blocks self))%nat.

(** The output at a block. *)
Definition at_block (self : QueryOutput) (next : nat) : QueryOutput :=
  {| qo_selected_blocks := qo_selected_blocks self; qo_next := next; qo_header := qo_header self; qo_tables := qo_tables self;
     qo_read_through := qo_read_through self; qo_weights := qo_weights self |}.

(** [src/src/output/writer.rs:84-98] QueryOutput::write_next_block. *)
Definition write_next_block (self : QueryOutput) (out : list Z) : result (QueryOutput * list Z) :=
  let position := qo_next self in
  let* block_num := expect (qo_selected_blocks self !! position) in
  let* out := header_write (qo_header self) (out ++ [123]) block_num position in
  let* out := foldM (fun out table => table_write_items table out position) (qo_tables self) out in
  Ok (at_block self (S position), json_close 125 out).

(** [src/src/output/writer.rs:124-134] QueryOutput::bytes_left. *)
Definition bytes_left (self : QueryOutput) (written weighed : Z) : Z :=
  let left := foldl (fun sum w => as_unsigned 128 (sum + w)) 0 (drop (qo_next self) (qo_weights self)) in
  let bytes := Z.min (as_unsigned 128 (left * written) / weighed) (as_unsigned 128 (left * 2)) in
  let bytes := as_unsigned 128 (bytes + bytes / 8) in
  if bytes <? 2 ^ 64 then bytes else u64_max.

(** [Vec::reserve]: a capacity past what an allocation may be panics. *)
Definition reserve (out : list Z) (additional : Z) : result () :=
  if Z.of_nat (length out) + additional <? 2 ^ 63 then Ok tt else Panic.

(** [src/src/output/writer.rs:L111-120] QueryOutput::into_json_lines: the blocks that are left. *)
Fixpoint json_lines (fuel : nat) (self : QueryOutput) (out : list Z) (weighed : Z) (sized : bool) : result (list Z) :=
  match fuel with
  | O => Panic
  | S fuel =>
      if has_next_block self then
        let* weight := expect (qo_weights self !! qo_next self) in
        let weighed := sat_add weighed weight in
        let* (self, out) := write_next_block self out in
        let out := out ++ [10] in
        if negb sized && (SAMPLE_BYTES <=? Z.of_nat (length out)) && (0 <? weighed) then
          let* _ := reserve out (bytes_left self (Z.of_nat (length out)) weighed) in
          json_lines fuel self out weighed true
        else json_lines fuel self out weighed sized
      else Ok out
  end.

(** [src/src/output/writer.rs:100-122] QueryOutput::into_json_lines. In as many turns as there are blocks and
    one that finds none left. *)
Definition into_json_lines (self : QueryOutput) : result (list Z) :=
  json_lines (S (num_blocks self)) (at_block self 0) [] 0 false.
End output.
