(* ===== verification/WriterSpec.v ===== *)
(** What a response is as text (src/output/writer.rs, row_writer.rs): a line for every
    selected block, an object with its header and, for each table with rows there, its
    items in order. *)
From stdpp Require Import base strings list gmap.
From Stdlib Require Import ZArith Lia Sorting.Sorted DecimalString.
From S2P Require Import Prelude Machine ListLib Errors Arrow Catalog Integers Counting BlockIndex Rows Projection Render Names Encoder Escape EncoderSpec Sources RowOrder RowWriter RowWriterSpec Writer.

#[local] Open Scope Z_scope.

Section spec.
Context {F : JsonFormats} {FL : JsonFormatsLaws F} {H : HexKernel}.

(** ** Blocks' rows *)

(** The rows of a block, in file order. *)
Definition block_rows (batches : list RecordBatch) (bn_column : string) (block : Z) : list place :=
  match for_each_block_number batches bn_column with Ok visits => rows_of_block visits block | _ => [] end.

Lemma block_rows_valid batches bn block p :
  Forall batch_ok batches -> p ∈ block_rows batches bn block -> valid_place batches p.
Proof.
  intros Hok Hp. unfold block_rows in Hp. destruct (for_each_block_number batches bn) as [visits| |] eqn:Hv; [|by apply not_elem_of_nil in Hp..].
  apply list_elem_of_fmap in Hp as (v & -> & [_ Hin]%list_elem_of_filter). by eapply visits_rows.
Qed.

Lemma on_runs_step f start stop starts rest :
  on_runs f (start :: stop :: starts) rest =
  if (stop - start <=? length rest)%nat then
    let* tail := on_runs f (stop :: starts) (drop (stop - start) rest) in Ok (f (take (stop - start) rest) ++ tail)
  else Panic.
Proof. done. Qed.

(** Each run in its place, reordered. *)
Lemma on_runs_ok (f : list place -> list place) base rows n :
  (forall l, length (f l) = length l) -> base O = O -> base n = length rows -> (forall i j, (i <= j)%nat -> (base i <= base j)%nat) ->
  exists rows', on_runs f (base <$> seq 0 (S n)) rows = Ok rows' /\
    forall i, (i < n)%nat -> slice rows' (base i) (base (S i)) = f (slice rows (base i) (base (S i))).
Proof.
  intros Hf H0 Hn Hmono.
  assert (Hgen : forall m k rest, (k + m = n)%nat -> rest = drop (base k) rows ->
    exists rows', on_runs f (base <$> seq k (S m)) rest = Ok rows' /\
      forall i, (k <= i < n)%nat -> slice rows' (base i - base k) (base (S i) - base k) = f (slice rows (base i) (base (S i)))).
  { induction m as [|m IH]; intros k rest Hk ->; [eexists; split; [done|]; intros; lia|].
    pose proof (Hmono k (S k) ltac:(lia)). pose proof (Hmono (S k) n ltac:(lia)).
    change (seq k (S (S m))) with (k :: S k :: seq (S (S k)) m). rewrite !fmap_cons, on_runs_step.
    rewrite length_drop. destruct (Nat.leb_spec (base (S k) - base k) (length rows - base k)); [|lia].
    destruct (IH (S k) (drop (base (S k)) rows)) as (rows' & E & Hr); [lia|done|].
    rewrite drop_drop. replace (base k + (base (S k) - base k))%nat with (base (S k)) by lia.
    change (base (S k) :: (base <$> seq (S (S k)) m)) with (base <$> seq (S k) (S m)). rewrite E. cbn [obind].
    eexists. split; [done|]. intros i Hi. set (run := f _). assert (Hrun : length run = (base (S k) - base k)%nat).
    { subst run. rewrite Hf, length_take, length_drop. lia. }
    pose proof (Hmono i (S i) ltac:(lia)). destruct (decide (i = k)) as [->|Hne].
    - rewrite Nat.sub_diag. unfold slice. rewrite Nat.sub_0_r, drop_0, take_app_le by lia. rewrite take_ge by lia. done.
    - rewrite <- Hr by lia. pose proof (Hmono (S k) i ltac:(lia)). unfold slice. rewrite drop_app_ge by lia. rewrite Hrun. f_equal; [lia|]. f_equal. lia. }
  destruct (Hgen n O rows) as (rows' & E & Hr); [lia|by rewrite H0, drop_0|]. exists rows'. split; [exact E|].
  intros i Hi. specialize (Hr i ltac:(lia)). by rewrite H0, !Nat.sub_0_r in Hr.
Qed.

Lemma ro_sort_perm order rows : ro_sort order rows ≡ₚ rows.
Proof.
  unfold ro_sort, sort_rows_by_order_keys_indexed. case_bool_decide; [done|].
  destruct (ro_keys order); [apply sort_by_Permutation|]. destruct (negb _); apply sort_by_Permutation.
Qed.

(** ** Sources *)

(** The rows of a block that a source writes, in the order it writes them. *)
Definition source_rows (batches : list RecordBatch) (desc : TableDescription) (block : Z) : list place :=
  ro_sort (RowOrder_new batches desc) (block_rows batches (td_block_number_column desc) block).

(** What is refused of a response: a column nothing renders, a variant that is no text, block numbers that are no
    integers. *)
Definition output_refusal (e : error) : Prop := e = EngineError MalformedChunkData \/ e = EngineError UnsupportedKeyType.

(** A source prepared for a page: each block's rows in order, and each row written as an item of its projection. *)
Definition source_prepared (blocks : list Z) (batches : list RecordBatch) (projection : ResolvedProjection) (s : PreparedSource) : Prop :=
  ps_batches s = batches /\ ps_order s = RowOrder_new batches (rp_desc projection) /\
  (forall i b, blocks !! i = Some b -> index_rows (ps_index s) i = Ok (source_rows batches (rp_desc projection) b)) /\
  forall bi batch row buf, batches !! bi = Some batch -> (row < num_rows batch)%nat -> write_row s buf bi row = Ok (buf ++ ended (row_members projection batch row)).

Lemma mapM_batches {W} (resolve : RecordBatch -> result W) (write : RecordBatch -> W -> nat -> list Z -> result (list Z)) texts (batches : list RecordBatch) :
  Forall batch_ok batches -> (forall b, batch_ok b -> writes b (write b) (texts b) (resolve b)) ->
  match mapM_ok resolve batches with
  | Ok ws => forall bi batch, batches !! bi = Some batch -> exists w, ws !! bi = Some w /\
      forall row buf, (row < num_rows batch)%nat -> write batch w row buf = Ok (buf ++ texts batch row)
  | Err e => e = EngineError MalformedChunkData
  | Panic => False
  end.
Proof.
  intros Hok Hw. induction Hok as [|b batches Hb _ IH]; cbn [mapM_ok]; [by intros|].
  specialize (Hw b Hb). destruct (resolve b) as [w|e|]; cbn [obind]; [|done|done].
  destruct (mapM_ok resolve batches) as [ws|e|]; cbn [obind]; [|done|done].
  intros [|bi] batch Hbi; [injection Hbi as <-; by exists w|by apply IH].
Qed.

Lemma PreparedSource_new_ok blocks p batches projection :
  page_ok blocks -> BlockPositions_new blocks = Ok p -> Forall batch_ok batches -> variants_ok (td_output (rp_desc projection)) ->
  match PreparedSource_new batches projection p with
  | Ok s => source_prepared blocks batches projection s
  | Err e => output_refusal e
  | Panic => False
  end.
Proof.
  intros Hp Hpos Hok Hv. unfold PreparedSource_new. set (desc := rp_desc projection).
  pose proof (for_each_block_number_refused batches (td_block_number_column desc)) as Hn.
  destruct (for_each_block_number batches (td_block_number_column desc)) as [visits|e|] eqn:Hvis; [|unfold BlockIndex_build; rewrite Hvis; by right|done].
  destruct (BlockIndex_build_runs blocks p batches _ visits Hp Hpos Hvis) as (base & rows & -> & H0 & Hlen & Hmono & Hrows). cbn [obind bi_starts bi_rows].
  destruct (on_runs_ok (ro_sort (RowOrder_new batches desc)) base rows (length blocks)) as (rows' & -> & Hrows');
    [intros l; by rewrite ro_sort_perm|done..|]. cbn [obind].
  assert (Hindex : forall i b, blocks !! i = Some b ->
    index_rows {| bi_starts := base <$> seq 0 (S (length blocks)); bi_rows := rows' |} i = Ok (source_rows batches desc b)).
  { intros i b Hi. rewrite index_rows_runs by by eapply lookup_lt_Some. rewrite Hrows' by by eapply lookup_lt_Some.
    rewrite (Hrows i b Hi). unfold source_rows, block_rows. by rewrite Hvis. }
  destruct (build_grouped_writers projection) as [gw|] eqn:Hgw.
  - pose proof (mapM_batches (resolve_grouped_writers gw) (fun b rgw row buf => write_row_grouped buf b row rgw) (fun b row => ended (row_members projection b row)) batches Hok
      (fun b Hb => resolve_grouped_ok projection gw b Hb Hv Hgw)) as Hw.
    destruct (mapM_ok _ batches) as [ws|e|]; cbn [obind]; [|by left|done]. split_and!; [done|done|exact Hindex|].
    intros bi batch row buf Hbi Hrow. unfold write_row. cbn [ps_batches ps_writers]. rewrite Hbi. cbn [expect obind].
    destruct (Hw bi batch Hbi) as (w & -> & Hww). by apply Hww.
  - assert (Hvc : os_variant_column (td_output desc) = None).
    { destruct (os_variant_column (td_output desc)) as [vc|] eqn:E; [|done]. by rewrite (grouped_writers_spec projection vc) in Hgw. }
    pose proof (mapM_batches (resolve_writers (build_field_writers projection)) (fun b rws row buf => write_row_fields_resolved buf b row rws) (fun b row => ended (row_members projection b row)) batches Hok
      (fun b Hb => resolve_flat_ok projection b Hb Hvc)) as Hw.
    destruct (mapM_ok _ batches) as [ws|e|]; cbn [obind]; [|by left|done]. split_and!; [done|done|exact Hindex|].
    intros bi batch row buf Hbi Hrow. unfold write_row. cbn [ps_batches ps_writers]. rewrite Hbi. cbn [expect obind].
    destruct (Hw bi batch Hbi) as (w & -> & Hww). by apply Hww.
Qed.

(** ** Items *)

(** A row of batches, written as an item. *)
Definition place_text (batches : list RecordBatch) (projection : ResolvedProjection) (p : place) : list Z :=
  match batches !! p.1 with Some batch => row_text projection batch p.2 | None => [] end.

Lemma write_item_ok blocks batches projection s p first buf :
  source_prepared blocks batches projection s -> valid_place batches p ->
  write_item s first buf p.1 p.2 = Ok (separate first buf ++ place_text batches projection p).
Proof.
  intros (_ & _ & _ & Hw) (batch & Hb & Hrow). unfold write_item, place_text. rewrite Hb, (Hw _ batch) by done. cbn [obind].
  rewrite <- app_assoc. cbn [app]. rewrite json_close_enclose by done. done.
Qed.

Lemma source_rows_valid batches desc b p : Forall batch_ok batches -> p ∈ source_rows batches desc b -> valid_place batches p.
Proof. intros Hok Hp. unfold source_rows in Hp. rewrite ro_sort_perm in Hp. by eapply block_rows_valid. Qed.

(** A table's items in its array, or nothing for a block without any. *)
Definition table_text (name : string) (texts : list (list Z)) : list Z :=
  match texts with [] => [] | _ => ended [keyed name (enclose 91 93 texts)] end.

Lemma array_text name t texts buf :
  ((buf ++ json_key name ++ [91]) ++ commas (t :: texts)) ++ [93; comma] = buf ++ table_text name (t :: texts).
Proof.
  unfold table_text. change (ended [?t]) with (ended (option_list (Some t))). rewrite ended_some, (app_assoc buf (json_key name)).
  rewrite <- (app_assoc (buf ++ json_key name)), <- app_assoc, app_assoc. rewrite (app_assoc buf (keyed _ _)), <- json_key_keyed. unfold enclose. by rewrite <- !app_assoc.
Qed.

Lemma source_write_items_ok blocks batches projection s name buf i b :
  source_prepared blocks batches projection s -> Forall batch_ok batches -> blocks !! i = Some b ->
  source_write_items s buf i (json_key name ++ [91]) =
    Ok (buf ++ table_text name (place_text batches projection <$> source_rows batches (rp_desc projection) b)).
Proof.
  intros Hs Hok Hi. unfold source_write_items. pose proof Hs as (_ & _ & Hrows & _). rewrite (Hrows i b Hi). cbn [obind].
  assert (Hv : Forall (valid_place batches) (source_rows batches (rp_desc projection) b)).
  { apply Forall_forall. intros p. by apply source_rows_valid. }
  destruct (source_rows batches (rp_desc projection) b) as [|p rows]; [by rewrite app_nil_r|].
  rewrite bool_decide_eq_false_2 by done.
  destruct (foldM_members (E := error) (fun p buf => write_item s true buf p.1 p.2) (place_text batches projection) (p :: rows) true (buf ++ json_key name ++ [91])) as [last E].
  { eapply Forall_impl; [exact Hv|]. intros q Hq b'. by rewrite (write_item_ok blocks batches projection). }
  match goal with |- context [foldM ?g (p :: rows) ?st] => replace (foldM g (p :: rows) st) with (Ok (E := error) (last, (buf ++ json_key name ++ [91]) ++ commas (place_text batches projection <$> (p :: rows)))) end.
  - cbn [obind]. by rewrite fmap_cons, array_text.
  - rewrite <- E. apply foldM_ext. intros [first b'] [bi ri] _. cbn [fst snd]. by destruct first.
Qed.

(** ** Several sources *)

(** The rows of the sources of a table, each by its source. *)
Definition all_items (sources : list OutputSource) (b : Z) : list item :=
  mjoin ((fun '(si, s) => (fun p => (si, p)) <$> source_rows (rw_batches (os_rows s)) (rp_desc (os_projection s)) b) <$> enumerate sources).

(** What an item sorts by. *)
Definition item_values (sources : list OutputSource) (it : item) : list sort_value :=
  match sources !! it.1 with
  | Some s => place_values (rw_batches (os_rows s)) (build_full_sort_columns (rp_desc (os_projection s))) it.2
  | None => []
  end.

Definition items_compare (sources : list OutputSource) (a b : item) : comparison := values_cmp (item_values sources a) (item_values sources b).

(** The items of a block: of one source, its rows; of several, all their rows by their values, one that a source before has
    left out; a table without order keys has its sources' rows one source after another. *)
Definition table_items (desc : TableDescription) (sources : list OutputSource) (b : Z) : list item :=
  match sources with
  | [_] => all_items sources b
  | _ =>
      if bool_decide (build_full_sort_columns desc = []) then all_items sources b
      else
        dedup_by (fun x y => negb (x.1 =? y.1)%nat && bool_decide (items_compare sources x y = Eq))
          (sort_by (fun x y => negb (bool_decide (then_cmp (items_compare sources x y) (item_cmp x y) = Gt))) (all_items sources b))
  end.

Definition item_text (sources : list OutputSource) (it : item) : list Z :=
  match sources !! it.1 with Some s => place_text (rw_batches (os_rows s)) (os_projection s) it.2 | None => [] end.

Definition source_ok (desc : TableDescription) (s : OutputSource) : Prop :=
  rp_desc (os_projection s) = desc /\ Forall batch_ok (rw_batches (os_rows s)).

Definition valid_item (sources : list OutputSource) (it : item) : Prop :=
  exists s, sources !! it.1 = Some s /\ valid_place (rw_batches (os_rows s)) it.2.

Lemma all_items_valid desc sources b it : Forall (source_ok desc) sources -> it ∈ all_items sources b -> valid_item sources it.
Proof.
  intros Hok Hit. unfold all_items in Hit. apply list_elem_of_join in Hit as (l & Hit & Hl).
  apply list_elem_of_fmap in Hl as ([si s] & -> & Hs%elem_of_enumerate). apply list_elem_of_fmap in Hit as (p & -> & Hp).
  exists s. split; [exact Hs|]. rewrite Forall_lookup in Hok. destruct (Hok _ _ Hs) as [_ Hb]. by eapply source_rows_valid.
Qed.

Lemma dedup_after_elem {A} (same : A -> A -> bool) a l x : x ∈ dedup_after same a l -> x ∈ l.
Proof.
  revert a. induction l as [|y l IH]; intros a; cbn [dedup_after]; [done|]. destruct (same a y); [intros Hx; right; by eapply IH|].
  intros [->|Hx]%elem_of_cons; [by left|right; by eapply IH].
Qed.

Lemma dedup_by_elem {A} (same : A -> A -> bool) l x : x ∈ dedup_by same l -> x ∈ l.
Proof. destruct l as [|a l]; [done|]. cbn. intros [->|Hx]%elem_of_cons; [by left|right; by eapply dedup_after_elem]. Qed.

Lemma dedup_after_ext {A} (f g : A -> A -> bool) a l : (forall x y, x ∈ a :: l -> y ∈ a :: l -> f x y = g x y) -> dedup_after f a l = dedup_after g a l.
Proof.
  revert a. induction l as [|y l IH]; intros a Hfg; [done|]. cbn [dedup_after]. rewrite (Hfg a y) by (rewrite !elem_of_cons; tauto). destruct (g a y).
  - apply IH. intros u v Hu Hv. apply Hfg; rewrite !elem_of_cons in *; tauto.
  - f_equal. apply IH. intros u v Hu Hv. apply Hfg; rewrite !elem_of_cons in *; tauto.
Qed.

Lemma dedup_by_ext {A} (f g : A -> A -> bool) l : (forall x y, x ∈ l -> y ∈ l -> f x y = g x y) -> dedup_by f l = dedup_by g l.
Proof. destruct l as [|a l]; [done|]. intros Hfg. cbn. f_equal. by apply dedup_after_ext. Qed.

Lemma table_items_elem desc sources b it : it ∈ table_items desc sources b -> it ∈ all_items sources b.
Proof.
  unfold table_items. destruct sources as [|s1 [|s2 sources]]; try done; case_bool_decide; try done; intros Hit%dedup_by_elem; by rewrite elem_of_sort_by in Hit.
Qed.

Definition sources_prepared (blocks : list Z) (sources : list OutputSource) (prepared : list PreparedSource) : Prop :=
  Forall2 (fun s ps => source_prepared blocks (rw_batches (os_rows s)) (os_projection s) ps) sources prepared.

Lemma item_order_ok blocks desc sources prepared x y :
  sources_prepared blocks sources prepared -> Forall (source_ok desc) sources -> valid_item sources x -> valid_item sources y ->
  item_order prepared x y = items_compare sources x y.
Proof.
  intros Hp Hok (sx & Hx & Hvx) (sy & Hy & Hvy). unfold item_order, items_compare, item_values. rewrite Hx, Hy.
  destruct (Forall2_lookup_l _ _ _ _ _ Hp Hx) as (px & -> & _ & Ex & _), (Forall2_lookup_l _ _ _ _ _ Hp Hy) as (py & -> & _ & Ey & _).
  rewrite Forall_lookup in Hok. destruct (Hok _ _ Hx) as [Dx Bx], (Hok _ _ Hy) as [Dy By]. rewrite Ex, Ey, Dx, Dy.
  apply ro_compare_ok; done.
Qed.

Lemma merge_items_ok blocks desc sources prepared b :
  sources_prepared blocks sources prepared -> Forall (source_ok desc) sources -> length sources <> 1%nat ->
  merge_items prepared (all_items sources b) = table_items desc sources b.
Proof.
  intros Hp Hok Hlen. unfold merge_items. destruct sources as [|s1 [|s2 sources]]; [by inversion Hp; cbn; case_bool_decide|done|].
  destruct prepared as [|p1 prepared]; [by inversion Hp|]. pose proof Hp as (Hp1 & _)%Forall2_cons_1. destruct Hp1 as (_ & E1 & _).
  pose proof Hok as (H1 & _)%Forall_cons. destruct H1 as [D1 _]. cbn [head]. unfold is_keyed. rewrite E1, D1. cbn [ro_columns RowOrder_new].
  unfold table_items. case_bool_decide; [done|]. cbn [negb].
  assert (Hall : forall x, x ∈ all_items (s1 :: s2 :: sources) b -> valid_item (s1 :: s2 :: sources) x) by (intros x; by apply (all_items_valid desc)).
  rewrite (sort_by_ext _ (fun x y => negb (bool_decide (then_cmp (items_compare (s1 :: s2 :: sources) x y) (item_cmp x y) = Gt)))).
  2: { intros x y Hx Hy. by rewrite (item_order_ok blocks desc (s1 :: s2 :: sources)) by auto. }
  apply dedup_by_ext. intros x y Hx Hy. rewrite elem_of_sort_by in Hx, Hy. by rewrite (item_order_ok blocks desc (s1 :: s2 :: sources)) by auto.
Qed.

Lemma collect_items blocks sources prepared i b :
  sources_prepared blocks sources prepared -> blocks !! i = Some b ->
  omap_ok mjoin (mapM_ok (fun '(si, source) => let* refs := index_rows (ps_index source) i in Ok ((fun p => (si, p)) <$> refs)) (enumerate prepared)) =
    Ok (all_items sources b).
Proof.
  intros Hp Hi. unfold all_items, enumerate. generalize O at 1 2. induction Hp as [|s ps sources prepared (_ & _ & Hr & _) Hp IH]; intros k; [done|].
  cbn [length seq zip zip_with mapM_ok]. rewrite (Hr i b Hi). cbn [obind]. specialize (IH (S k)).
  destruct (mapM_ok _ _) as [l| |]; [|done..]. cbn [obind omap_ok] in *. injection IH as IH. f_equal.
  rewrite fmap_cons. match goal with |- mjoin (?x :: ?l) = _ => transitivity (x ++ mjoin l) end; [done|]. by rewrite IH.
Qed.

Lemma table_items_nil desc sources b : table_items desc sources b = [] <-> all_items sources b = [].
Proof.
  assert (Hsort : forall (leb : item -> item -> bool) l same, dedup_by same (sort_by leb l) = [] <-> l = []).
  { intros leb l same. pose proof (length_sort_by leb l) as Hl. destruct l as [|x l]; [done|]. split; [|done]. destruct (sort_by leb (x :: l)); [done|]. done. }
  unfold table_items. destruct sources as [|s1 [|s2 sources]]; [|done|]; (case_bool_decide; [done|apply Hsort]).
Qed.

Lemma write_merged_items_ok blocks desc sources prepared name buf i b :
  sources_prepared blocks sources prepared -> Forall (source_ok desc) sources -> length sources <> 1%nat -> blocks !! i = Some b ->
  write_merged_items {| prt_prefix := json_key name ++ [91]; prt_sources := prepared |} buf i =
    Ok (buf ++ table_text name (item_text sources <$> table_items desc sources b)).
Proof.
  intros Hp Hok Hlen Hi. unfold write_merged_items. cbn [prt_sources prt_prefix].
  pose proof (collect_items blocks sources prepared i b Hp Hi) as Hc. destruct (mapM_ok _ _) as [l| |]; [|done..]. cbn [omap_ok obind] in Hc |- *. injection Hc as ->.
  rewrite (merge_items_ok blocks desc) by done. pose proof (table_items_nil desc sources b) as Hnil.
  assert (Hv : Forall (valid_item sources) (table_items desc sources b)).
  { apply Forall_forall. intros x Hx%table_items_elem. by eapply all_items_valid. }
  case_bool_decide as Hall; [rewrite (proj2 Hnil Hall); by rewrite app_nil_r|].
  destruct (table_items desc sources b) as [|it items]; [tauto|].
  set (write := fun (it : item) buf => let* source := expect (prepared !! it.1) in write_item source true buf it.2.1 it.2.2).
  destruct (foldM_members (E := error) write (item_text sources) (it :: items) true (buf ++ json_key name ++ [91])) as [last E].
  { eapply Forall_impl; [exact Hv|]. intros q (s & Hs & Hq) b'. subst write. cbn beta. unfold item_text. rewrite Hs.
    destruct (Forall2_lookup_l _ _ _ _ _ Hp Hs) as (ps & -> & Hps). cbn [expect obind]. by rewrite (write_item_ok blocks (rw_batches (os_rows s)) (os_projection s)). }
  match goal with |- context [foldM ?g (it :: items) ?st] => replace (foldM g (it :: items) st) with (Ok (E := error) (last, (buf ++ json_key name ++ [91]) ++ commas (item_text sources <$> (it :: items)))) end.
  - cbn [obind]. by rewrite fmap_cons, array_text.
  - rewrite <- E. apply foldM_ext. intros [first b'] [si [bi ri]] _. subst write. cbn [fst snd]. destruct (prepared !! si); cbn [expect obind]; [|done]. by destruct first.
Qed.

(** ** Tables *)

(** The sources of a table that have rows. *)
Definition live_sources (t : OutputTable) : list OutputSource := filter (fun source => (0 < rows_num_rows (os_rows source))%nat) (out_sources t).

(** A table's items of a block, as the block's member. *)
Definition table_block (t : OutputTable) (b : Z) : list Z :=
  table_text (out_name t) (item_text (live_sources t) <$> table_items (out_desc t) (live_sources t) b).

Definition table_ok (t : OutputTable) : Prop :=
  Forall (source_ok (out_desc t)) (out_sources t) /\ variants_ok (td_output (out_desc t)).

Lemma prepared_sources_ok blocks p desc sources :
  page_ok blocks -> BlockPositions_new blocks = Ok p -> Forall (source_ok desc) sources -> variants_ok (td_output desc) ->
  match mapM_ok (fun source => PreparedSource_new (rw_batches (os_rows source)) (os_projection source) p) sources with
  | Ok prepared => sources_prepared blocks sources prepared
  | Err e => output_refusal e
  | Panic => False
  end.
Proof.
  intros Hp Hpos Hok Hv. induction Hok as [|s sources [Hd Hb] _ IH]; cbn [mapM_ok]; [constructor|].
  pose proof (PreparedSource_new_ok blocks p (rw_batches (os_rows s)) (os_projection s) Hp Hpos Hb) as Hs. rewrite Hd in Hs. specialize (Hs Hv).
  destruct (PreparedSource_new _ _ _) as [ps|e|]; cbn [obind]; [|done..]. destruct (mapM_ok _ sources) as [prepared|e|]; cbn [obind]; [|done..]. by constructor.
Qed.

(** A table prepared for a page writes each block's items; one that is not prepared has none. *)
Lemma PreparedTable_new_ok blocks p t :
  page_ok blocks -> BlockPositions_new blocks = Ok p -> table_ok t ->
  match PreparedTable_new t p with
  | Ok (Some table) => forall i b buf, blocks !! i = Some b -> table_write_items table buf i = Ok (buf ++ table_block t b)
  | Ok None => forall b, table_block t b = []
  | Err e => output_refusal e
  | Panic => False
  end.
Proof.
  intros Hp Hpos [Hok Hv]. unfold PreparedTable_new, table_block. fold (live_sources t).
  assert (Hlive : Forall (source_ok (out_desc t)) (live_sources t)).
  { rewrite Forall_forall in Hok. apply Forall_forall. intros s [_ Hs]%list_elem_of_filter. by apply Hok. }
  pose proof (prepared_sources_ok blocks p (out_desc t) (live_sources t) Hp Hpos Hlive Hv) as Hs.
  destruct (mapM_ok _ (live_sources t)) as [prepared|e|]; cbn [obind]; [|done..].
  case_bool_decide as Hnil; [subst prepared; inversion Hs; intros b; cbn; by case_bool_decide|].
  intros i b buf Hi. unfold table_write_items. cbn [prt_sources prt_prefix].
  destruct (live_sources t) as [|s [|s2 sources]] eqn:Hl; [by inversion Hs|..].
  - apply Forall2_cons_inv_l in Hs as (ps & rest & Hps & Hrest & ->). inversion Hrest; subst rest.
    rewrite Forall_singleton in Hlive. destruct Hlive as [Hd Hb]. rewrite (source_write_items_ok blocks (rw_batches (os_rows s)) (os_projection s) ps (out_name t) buf i b) by done.
    do 3 f_equal. unfold table_items, all_items, enumerate. cbn. rewrite app_nil_r, <- list_fmap_compose. done.
  - pose proof Hs as (ps & rest & _ & Hrest & Eq)%Forall2_cons_inv_l. apply Forall2_cons_inv_l in Hrest as (ps2 & rest' & _ & _ & Eq2). rewrite Eq, Eq2 in Hs |- *.
    apply (write_merged_items_ok blocks (out_desc t)); done.
Qed.

(** ** Merged rows *)

Section dedup.
Context {A : Type} (values places : A -> A -> comparison) `{!TotalCmp values, !TotalCmp places} (source : A -> nat).
Hypothesis places_source : forall x y, places x y <> Gt -> (source x <= source y)%nat.

Definition dup (x y : A) : bool := negb (source x =? source y)%nat && bool_decide (values x y = Eq).
Definition in_order (x y : A) : Prop := then_cmp (values x y) (places x y) <> Gt.

Lemma values_between x y z : in_order x y -> in_order y z -> values x z = Eq -> values x y = Eq.
Proof.
  unfold in_order. intros Hxy Hyz Hxz. destruct (values x y) eqn:E; [done| |done].
  rewrite (total_flip (cmp:=values) z y), <- (total_eq (cmp:=values) x z y Hxz), E in Hyz. done.
Qed.

Lemma dedup_after_sublist x l : dedup_after dup x l `sublist_of` l.
Proof. revert x. induction l as [|y l IH]; intros x; cbn [dedup_after]; [constructor|]. destruct (dup x y); [by apply sublist_cons|by apply sublist_skip]. Qed.

(** Of equal rows those of the first source are kept. *)
Lemma dedup_after_spec x l : StronglySorted in_order (x :: l) ->
  let kept := dedup_after dup x l in
  (forall y, y ∈ l -> y ∈ kept \/ exists z, z ∈ x :: kept /\ (source z < source y)%nat /\ values z y = Eq) /\
  (forall y z, y ∈ x :: kept -> z ∈ x :: kept -> values y z = Eq -> source y = source z).
Proof.
  cbn zeta. revert x. induction l as [|b l IH]; intros x Hs; cbn [dedup_after].
  { split; [by intros y ?%not_elem_of_nil|]. by intros y z ->%list_elem_of_singleton ->%list_elem_of_singleton. }
  inversion Hs as [|? ? Hs' Hx]; subst. apply Forall_cons in Hx as [Hxb Hx]. inversion Hs' as [|? ? Hl Hb]; subst.
  destruct (dup x b) eqn:Hd; unfold dup in Hd.
  - apply andb_true_iff in Hd as [Hne%negb_true_iff%Nat.eqb_neq Ev%bool_decide_eq_true].
    destruct (IH x) as [H1 H2]; [by constructor|]. split; [|exact H2]. intros y [->|Hy]%elem_of_cons; [|by apply H1].
    right. exists x. split_and!; [by left| |done]. unfold in_order in Hxb. rewrite Ev in Hxb. cbn in Hxb. apply places_source in Hxb. lia.
  - destruct (IH b Hs') as [H1 H2].
    assert (Hfirst : forall z, z ∈ b :: dedup_after dup b l -> values x z = Eq -> source x = source z).
    { intros z Hz Hxz. assert (Hxb' : values x b = Eq).
      { apply elem_of_cons in Hz as [->|Hz]; [done|]. apply (values_between x b z Hxb); [|done]. rewrite Forall_forall in Hb. apply Hb.
        exact (elem_of_submseteq _ _ _ Hz (sublist_submseteq _ _ (dedup_after_sublist b l))). }
      rewrite Hxb', bool_decide_eq_true_2, andb_true_r in Hd by done. apply negb_false_iff, Nat.eqb_eq in Hd. rewrite Hd.
      apply H2; [by left|done|]. by rewrite <- (total_eq (cmp:=values) x b z Hxb'). }
    split.
    + intros y [->|Hy]%elem_of_cons; [left; by left|]. destruct (H1 y Hy) as [Hin|(z & Hz & Hzy)]; [left; by right|right; exists z; split; [by right|done]].
    + intros y z [->|Hy]%elem_of_cons [->|Hz]%elem_of_cons Hyz; [done|by apply Hfirst| |by apply H2].
      symmetry. apply Hfirst; [done|]. by rewrite (total_flip (cmp:=values) y x), Hyz.
Qed.
End dedup.

#[local] Instance item_cmp_total : TotalCmp item_cmp.
Proof. apply (then_total (fun x y : item => (x.1 ?= y.1)%nat) (fun x y : item => place_cmp x.2 y.2)). Qed.

(** The rows' key columns are of the same types in every source. *)
Definition items_one_kind (sources : list OutputSource) (b : Z) : Prop :=
  forall x y, x ∈ all_items sources b -> y ∈ all_items sources b -> sort_kind <$> item_values sources x = sort_kind <$> item_values sources y.

(** Items in the order a table writes them: by their keys, then by source, then in file order. *)
Definition item_le (sources : list OutputSource) (x y : item) : Prop := then_cmp (items_compare sources x y) (item_cmp x y) <> Gt.

Lemma table_items_merged desc sources b :
  build_full_sort_columns desc <> [] -> length sources <> 1%nat -> items_one_kind sources b ->
  let items := table_items desc sources b in
  StronglySorted (item_le sources) items /\
  (forall x, x ∈ items -> x ∈ all_items sources b) /\
  (forall x, x ∈ all_items sources b -> x ∈ items \/ exists y, y ∈ items /\ (y.1 < x.1)%nat /\ items_compare sources y x = Eq) /\
  (forall x y, x ∈ items -> y ∈ items -> items_compare sources x y = Eq -> x.1 = y.1).
Proof.
  intros Hcols Hlen Hkind. cbn zeta. set (codes := fun x : item => sort_code <$> item_values sources x).
  set (values := fun x y : item => lex_compare slice_cmp (codes x) (codes y)).
  assert (Hv : forall x y, x ∈ all_items sources b -> y ∈ all_items sources b -> items_compare sources x y = values x y).
  { intros x y Hx Hy. unfold items_compare. by apply values_cmp_code, Hkind. }
  assert (Ht : table_items desc sources b = dedup_by (fun x y => negb (x.1 =? y.1)%nat && bool_decide (items_compare sources x y = Eq))
    (sort_by (fun x y => negb (bool_decide (then_cmp (items_compare sources x y) (item_cmp x y) = Gt))) (all_items sources b))).
  { unfold table_items. destruct sources as [|s1 [|s2 sources]]; by rewrite ?bool_decide_eq_false_2. }
  rewrite Ht.
  destruct (sort_by_cmp (fun x y => then_cmp (items_compare sources x y) (item_cmp x y)) (fun x y => then_cmp (values x y) (item_cmp x y)) (all_items sources b)) as [Hperm Hsorted].
  { intros x y Hx Hy. by rewrite Hv. }
  set (l := sort_by _ _) in *. assert (Hin : forall x, x ∈ l <-> x ∈ all_items sources b) by (intros x; by rewrite Hperm).
  rewrite (dedup_by_ext _ (dup values fst)). 2: { intros x y Hx Hy. unfold dup. rewrite Hv by by apply Hin. done. }
  assert (Hsub : dedup_by (dup values fst) l `sublist_of` l).
  { destruct l; [done|]. apply sublist_skip, dedup_after_sublist. }
  split; [by apply (sorted_sublist _ _ l)|]. split; [intros x Hx%dedup_by_elem; by apply Hin|].
  assert (Hsorted' : StronglySorted (in_order values item_cmp) l).
  { eapply sorted_weaken; [|exact Hsorted]. intros x y Hx Hy. unfold in_order. by rewrite Hv by by apply Hin. }
  clearbody l. clear Ht Hperm Hsub Hsorted. destruct l as [|x l].
  { split; [|by intros ? ? ?%not_elem_of_nil]. intros x Hx%Hin. by apply not_elem_of_nil in Hx. }
  destruct (dedup_after_spec values item_cmp fst) with (x := x) (l := l) as [H1 H2]; [|exact Hsorted'|].
  { intros y z Hyz. unfold item_cmp in Hyz. destruct (Nat.compare_spec y.1 z.1); [lia|lia|]. done. }
  cbn [dedup_by]. assert (Hel : forall y, y ∈ x :: dedup_after (dup values fst) x l -> y ∈ all_items sources b).
  { intros y [->|Hy%dedup_after_elem]%elem_of_cons; apply Hin; [by left|by right]. }
  split.
  - intros y Hy. pose proof (proj2 (Hin y) Hy) as [->|Hyl]%elem_of_cons; [left; by left|]. destruct (H1 y Hyl) as [Hk|(z & Hz & Hzy & Ez)]; [left; by right|].
    right. exists z. split_and!; [done|done|]. rewrite Hv by auto. done.
  - intros y z Hy Hz Hyz. apply H2; [done..|]. by rewrite <- Hv by auto.
Qed.

(** C15: [PreparedTable::write_merged_items]: of several sources of one table, each prepared for the page, a block's items
    are merged into one list in the order of the table's keys, then of the sources. No row is made up and none lost: a
    row is left out only where a source before it has one with the same keys, and rows of two sources are never the same
    item. *)
Theorem merge_items_spec blocks p desc sources prepared b i :
  page_ok blocks -> BlockPositions_new blocks = Ok p -> Forall (source_ok desc) sources -> variants_ok (td_output desc) ->
  mapM_ok (fun source => PreparedSource_new (rw_batches (os_rows source)) (os_projection source) p) sources = Ok prepared ->
  build_full_sort_columns desc <> [] -> length sources <> 1%nat -> items_one_kind sources b -> blocks !! i = Some b ->
  exists rows, mapM_ok (fun '(si, source) => let* refs := index_rows (ps_index source) i in Ok ((fun p => (si, p)) <$> refs)) (enumerate prepared) = Ok rows /\
  let items := merge_items prepared (mjoin rows) in
  StronglySorted (item_le sources) items /\
  (forall x, x ∈ items -> x ∈ all_items sources b) /\
  (forall x, x ∈ all_items sources b -> x ∈ items \/ exists y, y ∈ items /\ (y.1 < x.1)%nat /\ items_compare sources y x = Eq) /\
  (forall x y, x ∈ items -> y ∈ items -> items_compare sources x y = Eq -> x.1 = y.1).
Proof.
  intros Hp Hpos Hok Hv Hprep Hcols Hlen Hkind Hi. pose proof (prepared_sources_ok blocks p desc sources Hp Hpos Hok Hv) as Hs. rewrite Hprep in Hs.
  pose proof (collect_items blocks sources prepared i b Hs Hi) as Hc. destruct (mapM_ok _ (enumerate prepared)) as [rows| |]; [|done..].
  cbn [omap_ok obind] in Hc. injection Hc as Hc. exists rows. split; [done|]. cbn zeta.
  match goal with |- context [merge_items prepared ?l] => replace l with (all_items sources b) by (symmetry; exact Hc) end.
  rewrite (merge_items_ok blocks desc) by done. by apply table_items_merged.
Qed.

(** ** The header *)

(** A block's header: its row's fields, or its number alone when the table has no row for it. *)
Definition header_fields (header : OutputHeader) (b : Z) : list (list Z) :=
  let desc := rp_desc (oh_projection header) in
  match head (block_rows (oh_batches header) (td_block_number_column desc) b) with
  | Some (bi, row) =>
      match oh_batches header !! bi with
      | Some batch => omap (field_member desc batch row) (rp_fields (oh_projection header))
      | None => []
      end
  | None => [keyed (snake_to_camel (td_block_number_column desc)) (print_int b)]
  end.

Definition header_member (header : OutputHeader) (b : Z) : list Z := keyed "header" (enclose 123 125 (header_fields header b)).

(** A number ends with a digit, so no comma is closed over. *)
Lemma print_int_last z : exists t d, print_int z = t ++ [d] /\ d <> comma.
Proof.
  assert (Hd : forall n, exists t d, text_bytes (print_usize n) = t ++ [d] /\ 48 <= d <= 57).
  { intros n. unfold print_usize. generalize (N.to_uint (Z.to_N n)). intros u.
    assert (Hall : Forall (fun d => 48 <= d <= 57) (text_bytes (NilZero.string_of_uint u)) /\ text_bytes (NilZero.string_of_uint u) <> []).
    { assert (Hgen : forall u, Forall (fun d => 48 <= d <= 57) (text_bytes (NilEmpty.string_of_uint u))).
      { clear. induction u; cbn; constructor; (exact IHu || (vm_compute; split; discriminate)). }
      destruct u; [split; [constructor; [vm_compute; split; discriminate|constructor]|done]|..];
        match goal with |- context [NilZero.string_of_uint ?v] => change (NilZero.string_of_uint v) with (NilEmpty.string_of_uint v) end; (split; [apply Hgen|done]). }
    revert Hall. generalize (text_bytes (NilZero.string_of_uint u)). intros l [Hall Hne]. destruct l as [|d t _] using rev_ind; [done|]. exists t, d. split; [done|].
    apply Forall_app in Hall as [_ Hall]. by rewrite Forall_singleton in Hall. }
  unfold print_int. destruct (z <? 0).
  - destruct (Hd (- z)) as (t & d & -> & Hr). exists (45 :: t), d. split; [done|]. unfold comma. lia.
  - destruct (Hd z) as (t & d & -> & Hr). exists t, d. split; [done|]. unfold comma. lia.
Qed.

Lemma PreparedHeader_new_ok blocks p header :
  page_ok blocks -> BlockPositions_new blocks = Ok p -> Forall batch_ok (oh_batches header) ->
  match PreparedHeader_new header p with
  | Ok h => forall i b buf, blocks !! i = Some b -> header_write h buf b i = Ok (buf ++ ended [header_member header b])
  | Err e => output_refusal e
  | Panic => False
  end.
Proof.
  intros Hp Hpos Hok. unfold PreparedHeader_new. set (bn := td_block_number_column (rp_desc (oh_projection header))).
  pose proof (for_each_block_number_refused (oh_batches header) bn) as Hn.
  destruct (for_each_block_number (oh_batches header) bn) as [visits|e|] eqn:Hvis; [|unfold BlockIndex_build; rewrite Hvis; by right|done].
  destruct (BlockIndex_build_spec_rows blocks p (oh_batches header) bn visits Hp Hpos Hvis) as (index & -> & Hrows). cbn [obind].
  pose proof (mapM_batches (resolve_writers (build_field_writers (oh_projection header))) (fun b rws row buf => write_row_fields_resolved buf b row rws)
    (fun b row => ended (omap (writer_member b row) (build_field_writers (oh_projection header)))) (oh_batches header) Hok (fun b Hb => resolve_writers_ok b _ Hb)) as Hw.
  destruct (mapM_ok _ (oh_batches header)) as [ws|e|]; cbn [obind]; [|by left|done]. intros i b buf Hi. unfold header_write. cbn [ph_index ph_batches ph_resolved ph_number_prefix].
  rewrite (Hrows i b Hi). cbn [obind]. unfold header_member, header_fields. fold bn. unfold block_rows. rewrite Hvis.
  change (ended [?t]) with (ended (option_list (Some t))). rewrite ended_some.
  destruct (head (rows_of_block visits b)) as [[bi row]|] eqn:Hh.
  - assert (Hvalid : valid_place (oh_batches header) (bi, row)).
    { apply (block_rows_valid _ bn b); [done|]. unfold block_rows. rewrite Hvis. destruct (rows_of_block visits b); [done|]. injection Hh as ->. by left. }
    destruct Hvalid as (batch & Hb & Hrow). cbn [fst snd] in Hb, Hrow. rewrite Hb. destruct (Hw bi batch Hb) as (w & -> & Hww). cbn [expect obind].
    rewrite Hww by done. cbn [obind]. rewrite field_writers_members. rewrite (app_assoc buf), <- app_assoc. cbn [app]. rewrite json_close_enclose by done.
    rewrite json_key_keyed. by rewrite <- app_assoc.
  - cbn [obind]. rewrite format_int_decimal. destruct (print_int_last b) as (t & d & E & Hd). unfold json_close.
    rewrite (app_assoc _ (json_key _)), json_key_keyed. unfold keyed at 1. rewrite E. rewrite !app_assoc, last_snoc. destruct (Z.eqb_spec d comma); [done|].
    unfold keyed, enclose, json_key. rewrite json_string_text. cbn [commas fmap list_fmap concat]. by rewrite app_nil_r, <- !app_assoc.
Qed.

(** ** Blocks *)

(** A table's member of a block, if it has items there. *)
Definition table_member (t : OutputTable) (b : Z) : option (list Z) :=
  match item_text (live_sources t) <$> table_items (out_desc t) (live_sources t) b with
  | [] => None
  | texts => Some (keyed (out_name t) (enclose 91 93 texts))
  end.

(** A block as a line's object: its header, and its tables in the order of the response. *)
Definition block_text (header : OutputHeader) (tables : list OutputTable) (b : Z) : list Z :=
  enclose 123 125 (header_member header b :: omap (fun t => table_member t b) tables).

Lemma table_block_member t b : table_block t b = ended (option_list (table_member t b)).
Proof. unfold table_block, table_member, table_text. by destruct (item_text (live_sources t) <$> _). Qed.

Lemma prepared_tables_ok blocks p tables :
  page_ok blocks -> BlockPositions_new blocks = Ok p -> Forall table_ok tables ->
  match mapM_ok (fun table => PreparedTable_new table p) tables with
  | Ok prepared => forall i b buf, blocks !! i = Some b ->
      foldM (fun out table => table_write_items table out i) (omap id prepared) buf = Ok (buf ++ ended (omap (fun t => table_member t b) tables))
  | Err e => output_refusal e
  | Panic => False
  end.
Proof.
  intros Hp Hpos Hok. induction Hok as [|t tables Ht _ IH]; cbn [mapM_ok]; [intros; cbn; by rewrite app_nil_r|].
  pose proof (PreparedTable_new_ok blocks p t Hp Hpos Ht) as Hw. destruct (PreparedTable_new t p) as [table|e|]; cbn [obind]; [|done..].
  destruct (mapM_ok _ tables) as [prepared|e|]; cbn [obind]; [|done..]. intros i b buf Hi. cbn [omap list_omap].
  destruct table as [table|]; cbn [id foldM].
  - rewrite (Hw i b) by done. cbn [obind]. rewrite (IH i b) by done. rewrite table_block_member. destruct (table_member t b); cbn [option_list]; [|by rewrite app_nil_r].
    by rewrite <- app_assoc, <- ended_app.
  - pose proof (table_block_member t b) as Hm. rewrite Hw in Hm. rewrite (IH i b) by done. destruct (table_member t b); [|done]. rewrite ended_some in Hm. by apply symmetry, app_nil in Hm as [_ Hm].
Qed.

(** An output writes each of its blocks as the block's text, one after another. *)
Definition writes_blocks (header : OutputHeader) (tables : list OutputTable) (out : QueryOutput) : Prop :=
  forall i b buf, qo_selected_blocks out !! i = Some b -> write_next_block (at_block out i) buf = Ok (at_block out (S i), buf ++ block_text header tables b).

Lemma prepare_output_ok blocks header tables read_through weights :
  page_ok blocks -> Forall batch_ok (oh_batches header) -> Forall table_ok tables ->
  match prepare_output blocks header tables read_through weights with
  | Ok out => qo_selected_blocks out = blocks /\ qo_next out = O /\ qo_weights out = weights /\ writes_blocks header tables out
  | Err e => output_refusal e
  | Panic => False
  end.
Proof.
  intros Hp Hh Ht. unfold prepare_output. destruct (BlockPositions_new_ok blocks Hp) as (p & Hpos & _). rewrite Hpos. cbn [obind].
  pose proof (PreparedHeader_new_ok blocks p header Hp Hpos Hh) as Hheader. destruct (PreparedHeader_new header p) as [h|e|]; cbn [obind]; [|done..].
  pose proof (prepared_tables_ok blocks p tables Hp Hpos Ht) as Htables. destruct (mapM_ok _ tables) as [prepared|e|]; cbn [obind]; [|done..].
  split_and!; [done..|]. intros i b buf Hi. cbn [qo_selected_blocks] in Hi. unfold write_next_block. cbn [at_block qo_next qo_selected_blocks qo_header qo_tables].
  rewrite Hi. cbn [expect obind]. rewrite (Hheader i b) by done. cbn [obind]. rewrite (Htables i b) by done. cbn [obind].
  rewrite <- !app_assoc, <- ended_app. cbn [app]. rewrite json_close_enclose by done. done.
Qed.

(** ** What is refused *)

(** Block numbers that are integers, where the batches have them. *)
Definition numbered (batches : list RecordBatch) (bn_column : string) : Prop :=
  Forall (fun batch => forall a, column_by_name batch bn_column = Some a -> is_integer (array_type a) = true) batches.

(** A refusal for one of its causes. *)
Definition refused_for (numbers rows : Prop) (e : error) : Prop :=
  e = EngineError UnsupportedKeyType /\ ~ numbers \/ e = EngineError MalformedChunkData /\ ~ rows.

Lemma refused_for_mono (numbers rows numbers' rows' : Prop) e :
  (numbers' -> numbers) -> (rows' -> rows) -> refused_for numbers rows e -> refused_for numbers' rows' e.
Proof. unfold refused_for. tauto. Qed.

(** A check of one half, as a check of both. *)
Lemma settles_numbers {A} (P numbers rows : Prop) (x : result A) :
  (numbers -> P) -> settles P (fun e => e = EngineError UnsupportedKeyType) x -> settles P (refused_for numbers rows) x.
Proof. unfold refused_for. destruct x; cbn; tauto. Qed.

Lemma settles_rows {A} (P numbers rows : Prop) (x : result A) :
  (rows -> P) -> settles P malformed x -> settles P (refused_for numbers rows) x.
Proof. unfold refused_for, malformed. destruct x; cbn; tauto. Qed.

Lemma for_each_block_number_settles batches bn : settles (numbered batches bn) (fun e => e = EngineError UnsupportedKeyType) (for_each_block_number batches bn).
Proof.
  unfold for_each_block_number, numbered. assert (Hgen : forall k, settles (Forall (fun batch => forall a, column_by_name batch bn = Some a -> is_integer (array_type a) = true) batches)
    (fun e => e = EngineError UnsupportedKeyType) (mapM_ok (batch_visits bn) (zip (seq k (length batches)) batches))).
  { induction batches as [|batch batches IH]; intros k; [constructor|]. cbn [length seq zip zip_with mapM_ok].
    eapply settles_iff; [|symmetry; apply Forall_cons]. apply settles_bind.
    - unfold batch_visits. cbn [snd]. destruct (column_by_name batch bn) as [a|]; [|done].
      destruct a; cbn; first [intros ? [= <-]; reflexivity|split; [|done]; intros Hc; by specialize (Hc _ eq_refl)].
    - intros visits _. eapply settles_iff; [apply (settles_bind (Forall (fun batch => forall a, column_by_name batch bn = Some a -> is_integer (array_type a) = true) batches) True); [apply IH|done]|tauto]. }
  specialize (Hgen O). unfold enumerate. destruct (mapM_ok _ _); exact Hgen.
Qed.

Lemma BlockIndex_build_settles blocks p batches bn : page_ok blocks -> BlockPositions_new blocks = Ok p ->
  settles (numbered batches bn) (fun e => e = EngineError UnsupportedKeyType) (BlockIndex_build batches bn p).
Proof.
  intros Hp Hpos. pose proof (for_each_block_number_settles batches bn) as Hn. destruct (for_each_block_number batches bn) as [visits|e|] eqn:Hv; [| |done].
  - by destruct (BlockIndex_build_runs blocks p batches bn visits Hp Hpos Hv) as (base & rows & -> & _).
  - unfold BlockIndex_build. by rewrite Hv.
Qed.

(** A projection's batches: numbered, and every row of theirs written. *)
Definition batches_numbered (projection : ResolvedProjection) (batches : list RecordBatch) : Prop :=
  numbered batches (td_block_number_column (rp_desc projection)).

Lemma PreparedSource_new_settles blocks p batches projection :
  page_ok blocks -> BlockPositions_new blocks = Ok p -> Forall batch_ok batches -> variants_ok (td_output (rp_desc projection)) ->
  settles (batches_numbered projection batches /\ Forall (batch_renders projection) batches)
    (refused_for (batches_numbered projection batches) (Forall (batch_renders projection) batches)) (PreparedSource_new batches projection p).
Proof.
  intros Hp Hpos Hok Hv. unfold PreparedSource_new. apply settles_bind.
  { apply settles_numbers; [done|]. by eapply BlockIndex_build_settles. }
  intros index Hindex.
  pose proof (for_each_block_number_settles batches (td_block_number_column (rp_desc projection))) as Hn.
  destruct (for_each_block_number batches (td_block_number_column (rp_desc projection))) as [visits|e|] eqn:Hvis; [|unfold BlockIndex_build in Hindex; by rewrite Hvis in Hindex|done].
  destruct (BlockIndex_build_runs blocks p batches _ visits Hp Hpos Hvis) as (base & rows & E & H0 & Hlen & Hmono & _). rewrite E in Hindex.
  assert (Ei : index = {| bi_starts := base <$> seq 0 (S (length blocks)); bi_rows := rows |}) by congruence. subst index. cbv zeta. cbn [bi_starts bi_rows]. destruct (on_runs_ok (ro_sort (RowOrder_new batches (rp_desc projection))) base rows (length blocks)) as (rows' & -> & _); [intros l; by rewrite ro_sort_perm|done..|].
  cbn [obind]. eapply settles_iff; [apply (settles_bind (Forall (batch_renders projection) batches) True); [|done]|tauto].
  apply settles_rows; [done|]. destruct (build_grouped_writers projection) as [gw|] eqn:Hgw.
  - eapply settles_iff; [apply (settles_bind (Forall (batch_renders projection) batches) True); [|done]|tauto].
    apply settles_map. intros batch Hin. rewrite Forall_forall in Hok. by apply resolve_grouped_settles; [apply Hok|..].
  - eapply settles_iff; [apply (settles_bind (Forall (batch_renders projection) batches) True); [|done]|tauto].
    apply settles_map. intros batch _. apply resolve_flat_settles.
    destruct (os_variant_column (td_output (rp_desc projection))) as [vc|] eqn:Hvc; [|done]. by rewrite (grouped_writers_spec projection vc) in Hgw.
Qed.

(** The rows of a table that are written. *)
Definition table_numbered (t : OutputTable) : Prop := Forall (fun s => batches_numbered (os_projection s) (rw_batches (os_rows s))) (live_sources t).
Definition table_renders (t : OutputTable) : Prop := Forall (fun s => Forall (batch_renders (os_projection s)) (rw_batches (os_rows s))) (live_sources t).

Lemma PreparedTable_new_settles blocks p t :
  page_ok blocks -> BlockPositions_new blocks = Ok p -> table_ok t ->
  settles (table_numbered t /\ table_renders t) (refused_for (table_numbered t) (table_renders t)) (PreparedTable_new t p).
Proof.
  intros Hp Hpos [Hok Hv]. unfold PreparedTable_new, table_numbered, table_renders. fold (live_sources t).
  eapply settles_iff; [apply (settles_bind (Forall (fun s => batches_numbered (os_projection s) (rw_batches (os_rows s)) /\
    Forall (batch_renders (os_projection s)) (rw_batches (os_rows s))) (live_sources t)) True)|rewrite Forall_and; tauto].
  - apply settles_map. intros s Hs. assert (Hso : source_ok (out_desc t) s) by (apply list_elem_of_filter in Hs as [_ Hs]; rewrite Forall_forall in Hok; by apply Hok).
    destruct Hso as [Hd Hb]. eapply settles_weaken; [|eapply PreparedSource_new_settles; [done..|by rewrite Hd]].
    intros e. apply refused_for_mono; intros Hall; rewrite Forall_forall in Hall; by apply Hall.
  - intros sources _. by case_bool_decide.
Qed.

(** The fields of a header row, which takes no groups. *)
Definition header_renders (header : OutputHeader) : Prop :=
  Forall (fun batch => Forall (fun field =>
    match sf_source field with
    | SourceColumn col => column_encodes (rp_desc (oh_projection header)) batch col
    | SourceRoll cols => exists roll, resolve_roll batch (roll_sources (rp_desc (oh_projection header)) batch cols) = Ok roll
    end) (rp_fields (oh_projection header))) (oh_batches header).

(** Every block number of a response an integer, and every column it writes one its encoder renders. *)
Definition response_numbered (header : OutputHeader) (tables : list OutputTable) : Prop :=
  batches_numbered (oh_projection header) (oh_batches header) /\ Forall table_numbered tables.
Definition response_renders (header : OutputHeader) (tables : list OutputTable) : Prop := header_renders header /\ Forall table_renders tables.

Lemma prepare_output_settles blocks header tables read_through weights :
  page_ok blocks -> Forall batch_ok (oh_batches header) -> Forall table_ok tables ->
  settles (response_numbered header tables /\ response_renders header tables) (refused_for (response_numbered header tables) (response_renders header tables))
    (prepare_output blocks header tables read_through weights).
Proof.
  intros Hp Hh Ht. unfold prepare_output. destruct (BlockPositions_new_ok blocks Hp) as (p & Hpos & _). rewrite Hpos. cbn [obind].
  unfold response_numbered, response_renders. eapply settles_iff; [apply (settles_bind (batches_numbered (oh_projection header) (oh_batches header) /\ header_renders header)
    (Forall table_numbered tables /\ Forall table_renders tables))|tauto].
  - unfold PreparedHeader_new. apply settles_bind; [apply settles_numbers; [tauto|]; by eapply BlockIndex_build_settles|]. intros index _.
    eapply settles_iff; [apply (settles_bind (header_renders header) True); [|done]|tauto]. apply settles_rows; [tauto|]. apply settles_map. intros batch _.
    eapply settles_iff; [apply resolve_writers_settles|]. unfold build_field_writers. rewrite Forall_fmap. apply Forall_proper; [|done].
    intros field. apply field_writer_renders.
  - intros h _. eapply settles_iff; [apply (settles_bind (Forall (fun t => table_numbered t /\ table_renders t) tables) True)|rewrite Forall_and; tauto].
    + apply settles_map. intros t Hin. rewrite Forall_forall in Ht.
      eapply settles_weaken; [|eapply PreparedTable_new_settles; by auto]. intros e. apply refused_for_mono; intros [_ Hall]; rewrite Forall_forall in Hall; by apply Hall.
    + done.
Qed.

(** C13: A response prepared for a page writes the page's blocks in order, each as one JSON object, whatever the
    buffer holds before: under [header] the fields of the block's row, or its number where the table has none; then each
    table that has rows in the block, under its name, an array of the rows' objects. Of a row there are the fields
    the chunk has, camelCase, and the groups of its own variant; of a table's sources, every row, once, in the order of the
    table's keys. It is prepared exactly where every block number of its batches is an integer, every column and roll its
    fields read has an encoder, and every variant is text; it is refused as [UnsupportedKeyType] only where the first fails, as
    [MalformedChunkData] only where one of the others does, and nothing panics. *)
Theorem write_next_block_spec blocks header tables read_through weights :
  page_ok blocks -> Forall batch_ok (oh_batches header) -> Forall table_ok tables ->
  match prepare_output blocks header tables read_through weights with
  | Ok out => response_numbered header tables /\ response_renders header tables /\ qo_selected_blocks out = blocks /\ qo_next out = O /\
      forall i b buf, blocks !! i = Some b -> write_next_block (at_block out i) buf = Ok (at_block out (S i), buf ++ block_text header tables b)
  | Err e => e = EngineError UnsupportedKeyType /\ ~ response_numbered header tables \/ e = EngineError MalformedChunkData /\ ~ response_renders header tables
  | Panic => False
  end.
Proof.
  intros Hp Hh Ht. pose proof (prepare_output_ok blocks header tables read_through weights Hp Hh Ht) as Ho.
  pose proof (prepare_output_settles blocks header tables read_through weights Hp Hh Ht) as Hs.
  destruct (prepare_output _ _ _ _ _) as [out|e|]; [|apply Hs|done]. destruct Ho as (<- & H0 & _ & Hw), Hs. by split_and!.
Qed.

(** ** All the blocks *)

Definition line_text (header : OutputHeader) (tables : list OutputTable) (b : Z) : list Z := block_text header tables b ++ [10].

Lemma bytes_left_range out written weighed :
  Forall (Z.le 0) (qo_weights out) -> sum_z (qo_weights out) <= 2 ^ 60 -> 0 <= written < 2 ^ 62 -> 0 < weighed ->
  0 <= bytes_left out written weighed < 2 ^ 62.
Proof.
  intros Hw Hs Hr Hp. unfold bytes_left.
  assert (Hleft : forall l acc, Forall (Z.le 0) l -> 0 <= acc -> acc + sum_z l <= 2 ^ 60 -> foldl (fun sum w => as_unsigned 128 (sum + w)) acc l = acc + sum_z l).
  { induction l as [|w l IH]; intros acc Hl Ha Hsum; cbn [foldl sum_z foldr] in *; [lia|]. apply Forall_cons in Hl as [Hw0 Hl].
    assert (0 <= foldr Z.add 0 l) by (clear - Hl; induction Hl; cbn; lia). rewrite as_unsigned_id by lia. unfold sum_z in IH. rewrite IH by (done || lia). lia. }
  assert (Hd : Forall (Z.le 0) (drop (qo_next out) (qo_weights out)) /\ 0 <= sum_z (drop (qo_next out) (qo_weights out)) <= 2 ^ 60).
  { split; [by apply Forall_drop|]. rewrite <- (take_drop (qo_next out) (qo_weights out)) in Hw, Hs. apply Forall_app in Hw as [H1 H2].
    unfold sum_z in *. rewrite foldr_app in Hs. assert (Hn : forall l x, Forall (Z.le 0) l -> x <= foldr Z.add x l) by (clear; induction 1; cbn; lia).
    pose proof (Hn _ (foldr Z.add 0 (drop (qo_next out) (qo_weights out))) H1). pose proof (Hn _ 0 H2). lia. }
  destruct Hd as [Hd1 Hd2]. rewrite Hleft by (done || lia). rewrite Z.add_0_l.
  revert Hd2. generalize (sum_z (drop (qo_next out) (qo_weights out))). intros left Hd2.
  assert (H128 : 2 ^ 122 < 2 ^ 128) by done.
  assert (Hm : 0 <= left * written < 2 ^ 122) by (split; [nia|apply Z.le_lt_trans with (2 ^ 60 * written); [nia|lia]]).
  rewrite (as_unsigned_id 128 (left * written)) by lia. rewrite (as_unsigned_id 128 (left * 2)) by lia.
  assert (0 <= left * written / weighed) by (apply Z.div_pos; lia). set (q := left * written / weighed) in *.
  set (bytes := Z.min q (left * 2)). assert (Hb : 0 <= bytes <= 2 ^ 61) by lia. pose proof (Z.div_le_upper_bound bytes 8 bytes ltac:(lia) ltac:(lia)).
  assert (0 <= bytes / 8 <= 2 ^ 58) by (split; [apply Z.div_pos; lia|apply Z.div_le_upper_bound; lia]).
  rewrite as_unsigned_id by lia. destruct (Z.ltb_spec (bytes + bytes / 8) (2 ^ 64)); lia.
Qed.

(** The lines of blocks. *)
Definition lines (header : OutputHeader) (tables : list OutputTable) (blocks : list Z) : list Z := concat (line_text header tables <$> blocks).

(** The loop ends, having written the blocks that are left. *)
Lemma json_lines_ok header tables out : writes_blocks header tables out ->
  length (qo_weights out) = length (qo_selected_blocks out) -> Forall (Z.le 0) (qo_weights out) -> sum_z (qo_weights out) <= 2 ^ 60 ->
  forall fuel i buf weighed sized, (i <= length (qo_selected_blocks out) < fuel + i)%nat -> 0 <= weighed ->
  Z.of_nat (length (buf ++ lines header tables (drop i (qo_selected_blocks out)))) < 2 ^ 62 ->
  json_lines fuel (at_block out i) buf weighed sized = Ok (buf ++ lines header tables (drop i (qo_selected_blocks out))).
Proof.
  intros Hw Hlen Hweights Hsum. induction fuel as [|fuel IH]; intros i buf weighed sized Hf H0 Hsize; [lia|].
  cbn [json_lines]. unfold has_next_block. cbn [at_block qo_next qo_selected_blocks qo_weights].
  destruct (Nat.ltb_spec i (length (qo_selected_blocks out))) as [Hi|Hi].
  2: { rewrite drop_ge by lia. unfold lines. cbn. by rewrite app_nil_r. }
  destruct (lookup_lt_is_Some_2 _ _ Hi) as [b Hb]. destruct (lookup_lt_is_Some_2 (qo_weights out) i) as [w Hwi]; [lia|].
  rewrite Hwi. cbn [expect obind]. rewrite (Hw i b) by done. cbn [obind].
  rewrite (drop_S _ _ _ Hb) in Hsize |- *. unfold lines in Hsize |- *. rewrite fmap_cons in Hsize |- *. cbn [concat] in Hsize |- *.
  set (rest := concat _) in *.
  assert (Hb' : (buf ++ block_text header tables b) ++ [10] = buf ++ line_text header tables b) by by rewrite <- app_assoc. rewrite Hb'.
  assert (Hsize' : Z.of_nat (length ((buf ++ line_text header tables b) ++ rest)) < 2 ^ 62) by by rewrite <- app_assoc.
  rewrite Forall_lookup in Hweights. pose proof (Hweights _ _ Hwi) as Hw0.
  assert (0 <= sat_add weighed w) by (unfold sat_add, u64_max; lia).
  assert (Hnext : forall sized, json_lines fuel (at_block out (S i)) (buf ++ line_text header tables b) (sat_add weighed w) sized = Ok (buf ++ line_text header tables b ++ rest)).
  { intros sized'. rewrite IH; [by rewrite <- app_assoc|lia|lia|exact Hsize']. }
  destruct (_ && _) eqn:Hs; [|apply Hnext]. rewrite !andb_true_iff in Hs. destruct Hs as [_ Hpos]. apply Z.ltb_lt in Hpos.
  change (at_block (at_block out i) (S i)) with (at_block out (S i)).
  rewrite length_app in Hsize'. unfold reserve.
  pose proof (bytes_left_range (at_block out (S i)) (Z.of_nat (length (buf ++ line_text header tables b))) (sat_add weighed w)
    ltac:(by apply Forall_lookup) Hsum ltac:(lia) Hpos) as Hr.
  rewrite (proj2 (Z.ltb_lt _ _)) by (assert (2 ^ 63 = 2 ^ 62 + 2 ^ 62) by done; lia). apply Hnext.
Qed.

(** C14: A prepared response written whole: [into_json_lines] ends, and what it returns is a line for every block of the
    page in order, however many were written before. It holds for weights that sum to no more than 2^60 and a
    response below 2^62 bytes, where the reservation of the rest is one that can be made. *)
Theorem into_json_lines_spec blocks header tables read_through weights out next :
  page_ok blocks -> Forall batch_ok (oh_batches header) -> Forall table_ok tables ->
  length weights = length blocks -> Forall (Z.le 0) weights -> sum_z weights <= 2 ^ 60 ->
  Z.of_nat (length (lines header tables blocks)) < 2 ^ 62 ->
  prepare_output blocks header tables read_through weights = Ok out ->
  into_json_lines (at_block out next) = Ok (lines header tables blocks).
Proof.
  intros Hp Hh Ht Hlen Hweights Hsum Hsize Hprep. pose proof (prepare_output_ok blocks header tables read_through weights Hp Hh Ht) as Ho.
  rewrite Hprep in Ho. destruct Ho as (E & _ & Ew & Hw). unfold into_json_lines, num_blocks. cbn [at_block qo_selected_blocks].
  change (at_block (at_block out next) 0) with (at_block out 0).
  rewrite (json_lines_ok header tables out) by (done || rewrite ?E, ?Ew; done || lia). by rewrite drop_0, E.
Qed.
End spec.

(** ** A response *)

Section demo.
Import HexInstances JsonFormatInstances.

Definition demo_column (t : ColumnType) (encoding : option JsonEncoding) : ColumnDescription :=
  {| cd_data_type := t; cd_encoding := encoding; cd_weight := None; cd_system := false; cd_fold_case := false; cd_members := None |}.

Definition demo_surface (name : string) (variants : list (string * list (string * list FieldMapping))) : OutputSurface :=
  {| os_name := Some name; os_fields := []; os_virtual_fields := [("accounts"%string, Roll ["a0"%string; "rest"%string])];
     os_variant_column := (fun _ => "kind"%string) <$> head variants; os_variants := variants |}.

Definition demo_mapping (column json_name : string) : FieldMapping := {| fm_column := column; fm_field_key := None; fm_json_name := json_name |}.

Definition demo_table (name number : string) (keys : list string) (variants : list (string * list (string * list FieldMapping))) : TableDescription :=
  {| td_request_surface := None; td_output := demo_surface name variants; td_block_number_column := number;
     td_parent_hash_column := None; td_parent_number_column := None; td_address_column := None; td_item_order_keys := keys;
     td_declared_weight_key := None; td_sort_key := [];
     td_columns := [("number"%string, demo_column CtUInt64 None); ("block_hash"%string, demo_column CtString (Some HexBytes));
                    ("block_number"%string, demo_column CtUInt64 None); ("seq"%string, demo_column CtUInt32 None); ("kind"%string, demo_column CtString None);
                    ("call_gas"%string, demo_column CtUInt64 (Some DecimalString)); ("call_from"%string, demo_column CtString None);
                    ("a0"%string, demo_column CtString None); ("rest"%string, demo_column CtListString None)] |}.

Definition demo_projection (desc : TableDescription) (names : list string) : ResolvedProjection :=
  match resolve "items" desc names with
  | Ok projection => projection
  | _ => {| rp_table := ""; rp_desc := desc; rp_names := []; rp_fields := []; rp_rendered := []; rp_required := [];
            rp_weight := {| rw_fixed := 0; rw_columns := [] |}; rp_row_columns := []; rp_size_columns := [] |}
  end.

Definition blocks_table : TableDescription := demo_table "block" "number" [] [].
Definition items_table : TableDescription :=
  demo_table "items" "block_number" ["seq"%string]
    [("call"%string, [("action"%string, [demo_mapping "call_from" "from"]); ("_"%string, [demo_mapping "call_gas" "gas"])])].

(** The header table has no row of block 9. *)
Definition demo_header : OutputHeader := {|
  oh_projection := demo_projection blocks_table ["number"%string; "block_hash"%string];
  oh_batches := [{| columns := [("number"%string, AInt UInt32 [8; 7] None); ("block_hash"%string, AOther "Binary" [[1]; [171; 205]] None)]; num_rows := 2 |}] |}.

Definition demo_items (block seq gas : list Z) (kind from : list string) (valid : list bool) : RecordBatch :=
  {| columns := [("block_number"%string, AInt UInt64 block None); ("seq"%string, AInt UInt32 seq None); ("kind"%string, AText Utf8 kind None);
                 ("call_gas"%string, AInt UInt64 gas None); ("call_from"%string, AText Utf8 from (Some valid)); ("a0"%string, AText Utf8 from (Some valid))];
     num_rows := length block |}.

(** Two sources with a row in common; the second sorts between. *)
Definition demo_output_table : OutputTable := {|
  out_name := "items"; out_desc := items_table;
  out_sources := [
    {| os_projection := demo_projection items_table ["seq"%string; "call_from"%string; "call_gas"%string; "accounts"%string];
       os_rows := Rows_new [demo_items [7; 7; 9] [2; 0; 5] [10; 20; 30] ["call"; "call"; "reward"]%string ["x"; "y"; "z"]%string [true; false; true]] |};
    {| os_projection := demo_projection items_table ["seq"%string; "kind"%string];
       os_rows := Rows_new [demo_items [7; 7] [1; 2] [0; 0] ["call"; "call"]%string ["u"; "v"]%string [true; true]] |};
    {| os_projection := demo_projection items_table ["seq"%string]; os_rows := Rows_new [] |}] |}.

Definition demo_blocks : list Z := [7; 9].

Lemma demo_page : page_ok demo_blocks.
Proof. split_and!; [repeat constructor; lia|repeat constructor; lia|cbn; lia]. Qed.

Lemma demo_header_ok : Forall batch_ok (oh_batches demo_header).
Proof. concrete_batch. Qed.

Lemma demo_sources_ok : Forall (source_ok items_table) (out_sources demo_output_table).
Proof. repeat constructor; try (vm_compute; reflexivity); cbn; try done; unfold in_int_type; cbn; lia. Qed.

Lemma demo_variants_ok : variants_ok (td_output items_table).
Proof. split; [apply (bool_decide_unpack _); vm_compute; done|]. repeat constructor; apply (bool_decide_unpack _); vm_compute; done. Qed.

(** Block 7 has a row of its own in the header table and rows of two sources, of which one is shared; block 9 has neither a header
    nor a variant's groups. *)
Example demo_lines :
  (let* out := prepare_output demo_blocks demo_header [demo_output_table] None [100; 50] in into_json_lines out) =
  Ok (mjoin ((fun l => json l ++ [10]) <$> [
    "{'header':{'number':7,'blockHash':'0xabcd'},'items':[{'seq':0,'accounts':[],'action':{'from':null},'gas':'20'},{'seq':1,'kind':'call'},{'seq':2,'accounts':['x'],'action':{'from':'x'},'gas':'10'}]}";
    "{'header':{'number':9},'items':[{'seq':5,'accounts':['z']}]}"]%string)).
Proof. vm_compute. reflexivity. Qed.

(** Witness of [write_next_block_spec]. *)
Lemma write_next_block_spec_witness :
  page_ok demo_blocks /\
  match prepare_output demo_blocks demo_header [demo_output_table] None [100; 50] with
  | Ok out => forall buf, write_next_block (at_block out 1) buf = Ok (at_block out 2, buf ++ block_text demo_header [demo_output_table] 9)
  | _ => False
  end.
Proof.
  split; [exact demo_page|].
  pose proof (write_next_block_spec demo_blocks demo_header [demo_output_table] None [100; 50] demo_page demo_header_ok
    ltac:(constructor; [split; [exact demo_sources_ok|exact demo_variants_ok]|constructor])) as Hs.
  assert (Hr : match prepare_output demo_blocks demo_header [demo_output_table] None [100; 50] with Ok _ => True | _ => False end) by (vm_compute; exact I).
  destruct (prepare_output _ _ _ _ _) as [out|e|]; [|destruct Hr..]. destruct Hs as (_ & _ & _ & _ & Hw). intros buf. exact (Hw 1%nat 9 buf eq_refl).
Defined.

(** Witness of [into_json_lines_spec]: after a block is written already. *)
Lemma into_json_lines_spec_witness :
  match prepare_output demo_blocks demo_header [demo_output_table] None [100; 50] with
  | Ok out => into_json_lines (at_block out 1) = Ok (lines demo_header [demo_output_table] demo_blocks)
  | _ => False
  end.
Proof.
  assert (Hr : match prepare_output demo_blocks demo_header [demo_output_table] None [100; 50] with Ok _ => True | _ => False end) by (vm_compute; exact I).
  destruct (prepare_output demo_blocks demo_header [demo_output_table] None [100; 50]) as [out|e|] eqn:E; [|destruct Hr..].
  apply (into_json_lines_spec demo_blocks demo_header [demo_output_table] None [100; 50] out 1).
  - exact demo_page.
  - exact demo_header_ok.
  - constructor; [split; [exact demo_sources_ok|exact demo_variants_ok]|constructor].
  - reflexivity.
  - repeat constructor; lia.
  - vm_compute. discriminate.
  - vm_compute. reflexivity.
  - exact E.
Defined.

(** Witness of [merge_items_spec], on the two sources that have rows. *)
Definition demo_live : list OutputSource := live_sources demo_output_table.

Lemma demo_one_kind : items_one_kind demo_live 7.
Proof.
  unfold items_one_kind. assert (Hall : Forall (fun x => sort_kind <$> item_values demo_live x = [0]%nat) (all_items demo_live 7)).
  { vm_compute. repeat constructor. }
  rewrite Forall_forall in Hall. intros x y Hx Hy. by rewrite (Hall x Hx), (Hall y Hy).
Qed.

Lemma merge_items_spec_witness :
  match BlockPositions_new demo_blocks with
  | Ok p =>
      match mapM_ok (fun source => PreparedSource_new (rw_batches (os_rows source)) (os_projection source) p) demo_live with
      | Ok prepared => exists rows, mapM_ok (fun '(si, source) => let* refs := index_rows (ps_index source) 0 in Ok ((fun p => (si, p)) <$> refs)) (enumerate prepared) = Ok rows /\
          StronglySorted (item_le demo_live) (merge_items prepared (mjoin rows))
      | _ => False
      end
  | _ => False
  end.
Proof.
  assert (Hr : match BlockPositions_new demo_blocks with
    | Ok p => match mapM_ok (fun source => PreparedSource_new (rw_batches (os_rows source)) (os_projection source) p) demo_live with Ok _ => True | _ => False end
    | _ => False end) by (vm_compute; exact I).
  destruct (BlockPositions_new demo_blocks) as [p| |] eqn:Ep; [|destruct Hr..].
  destruct (mapM_ok _ demo_live) as [prepared| |] eqn:E; [|destruct Hr..].
  destruct (merge_items_spec demo_blocks p items_table demo_live prepared 7 0) as (rows & Hrows & Hs & _).
  - exact demo_page.
  - exact Ep.
  - pose proof demo_sources_ok as Hs. apply Forall_forall. intros s [_ Hin]%list_elem_of_filter. rewrite Forall_forall in Hs. by apply Hs.
  - exact demo_variants_ok.
  - exact E.
  - discriminate.
  - discriminate.
  - exact demo_one_kind.
  - reflexivity.
  - exists rows. split; [exact Hrows|exact Hs].
Defined.
End demo.
