(* ===== verification/Execute.v ===== *)
(** A query executed (src/execution/mod.rs and the rest of src/execution/prepare.rs):
    the plan checked against the catalog and the chunk, a page selected, its payloads
    read back, and the page prepared for the output format. *)
From stdpp Require Import base strings list gmap.
From Stdlib Require Import ZArith Lia.
From S2P Require Import Prelude Machine ListLib Errors Arrow Catalog Integers Counting BlockIndex Rows Keys Addresses Predicate RowPredicate ItemLists Projection Weight RowOrder Render Names Encoder Scan Plan Reader Sources Fork Prepare Tables Retain Page Materialize ArrowOut RowWriter Writer.

#[local] Open Scope Z_scope.

Section execute.
Context {K : ArrowKernels} {R : RowFormat} {B : BatchKernels} {H : HexKernel} {F : JsonFormats} {D : HexDecoder} {S : StreamKernels}.

(** [src/src/output/arrow_out.rs:102-110] OutputFormat. *)
Inductive OutputFormat := FormatJson | FormatArrow (compress binary : bool).

Definition is_json (format : OutputFormat) : bool := match format with FormatJson => true | FormatArrow _ _ => false end.

(** [src/src/execution/mod.rs:50-55] ExecOptions::profiled. *)
Definition ExecOptions_profiled (profile : bool) : ExecOptions :=
  {| eo_profile := profile; eo_weight_budget := eo_weight_budget ExecOptions_default; eo_range_reads := eo_range_reads ExecOptions_default |}.

(** ** Fitness of the chunk *)

(** [src/src/execution/prepare.rs:L188-231] ensure_renderable: one required column. *)
Definition ensure_column_renderable (schema : Schema) (desc : TableDescription) (json : bool) (column : string) : result () :=
  let* field := ok_or (field_with_name schema column) (EngineError ColumnNotFound) in
  let declared := assoc column (td_columns desc) in
  let* _ :=
    match declared ≫= cd_weight with
    | Some (WeightColumn companion) =>
        match field_with_name schema companion with
        | Some field => ensure (is_integer (f_type field)) (EngineError MalformedChunkData)
        | None => Ok tt
        end
    | _ => Ok tt
    end in
  if json then
    match resolve_encoder (f_type field) (declared ≫= cd_encoding) (cd_data_type <$> declared) (declared ≫= cd_members) with
    | Ok _ => Ok tt
    | Err _ => Err (EngineError MalformedChunkData)
    | Panic => Panic
    end
  else Ok tt.

(** [src/src/execution/prepare.rs:L237-262] ensure_renderable: what orders and tags the rows. *)
Definition ensure_rows_renderable (schema : Schema) (desc : TableDescription) : result () :=
  let* _ := foldM (fun _ key =>
    match field_with_name schema key with
    | Some field => ensure (orders_rows (f_type field)) (EngineError MalformedChunkData)
    | None => Ok tt
    end) (build_full_sort_columns desc) tt in
  match os_variant_column (td_output desc) ≫= field_with_name schema with
  | Some field => ensure (bool_decide (is_Some (StringColumn_resolve (new_empty_array (f_type field))))) (EngineError MalformedChunkData)
  | None => Ok tt
  end.

(** [src/src/execution/prepare.rs:181-265] ensure_renderable. *)
Definition ensure_renderable (self : Execution) (projection : ResolvedProjection) (json : bool) : result () :=
  match cr_table_schema (ex_chunk self) (rp_table projection) with
  | None => Ok tt
  | Some schema =>
      let desc := rp_desc projection in
      let* _ := foldM (fun _ column => ensure_column_renderable schema desc json column) (rp_required projection) tt in
      if json then ensure_rows_renderable schema desc else Ok tt
  end.

(** [src/src/execution/prepare.rs:154-179] ensure_columns_renderable. *)
Definition ensure_columns_renderable (self : Execution) (format : OutputFormat) : result () :=
  let json := is_json format in
  let* _ := ensure_renderable self (ex_header self) json in
  foldM (fun _ table =>
    let* _ := ensure_renderable self (pt_projection table) json in
    foldM (fun _ (r : RelationPlan * ResolvedProjection) => ensure_renderable self r.2 json) (pt_relations table) tt) (ex_tables self) tt.

(** The execution with the reader its page is selected through. *)
Definition with_selection (self : Execution) (selection : option SelectionReader) : Execution :=
  {| ex_plan := ex_plan self; ex_chunk := ex_chunk self; ex_options := ex_options self; ex_blocks := ex_blocks self;
     ex_header := ex_header self; ex_tables := ex_tables self; ex_selection := selection |}.

(** [src/src/execution/prepare.rs:55-101] Execution::prepare. *)
Definition Execution_prepare (plan : Plan) (metadata : DatasetDescription) (chunk : ChunkReader) (options : ExecOptions) (format : OutputFormat)
    : result Execution :=
  let* blocks := catalog_entry metadata (pl_block_table plan) in
  let* header := resolve (pl_block_table plan) blocks (pl_block_output_columns plan) in
  let* tables := mapM_ok (fun table => PlannedTable_resolve table metadata) (pl_table_plans plan) in
  let execution := {| ex_plan := plan; ex_chunk := chunk; ex_options := options; ex_blocks := blocks; ex_header := header;
                      ex_tables := tables; ex_selection := None |} in
  let* _ := ensure_required_tables_present execution in
  let* _ := ensure_columns_renderable execution format in
  let* _ := check_parent_block plan metadata chunk in
  let defers := eo_range_reads options && defers_payloads execution in
  let* selection := if defers then SelectionReader_new chunk header tables else Ok None in
  Ok (with_selection execution selection).

(** ** The one path from a plan to a response *)

(** [src/src/execution/mod.rs:150-153] FmtOutput. *)
Inductive FmtOutput := OutJson (output : option QueryOutput) | OutArrow (output : option ArrowOutput).

(** [src/src/execution/mod.rs:L172-204] execute: a page in the output format. *)
Definition encode_page (execution : Execution) (metadata : DatasetDescription) (format : OutputFormat) (page : Page) : result FmtOutput :=
  let header := {| oh_projection := ex_header execution; oh_batches := rw_batches (pg_headers page) |} in
  let tables := output_tables metadata (output_sources execution (pg_tables page)) in
  match format with
  | FormatArrow compress binary =>
      let* output := arrow_output (pg_blocks page) header tables compress binary in Ok (OutArrow (Some output))
  | FormatJson =>
      let* output := prepare_output (pg_blocks page) header tables (pg_read_through page) (pg_weights page) in Ok (OutJson (Some output))
  end.

(** [src/src/execution/mod.rs:155-202] execute. *)
Definition execute (fuel : nat) (plan : Plan) (metadata : DatasetDescription) (chunk : ChunkReader) (options : ExecOptions) (format : OutputFormat)
    : option (result FmtOutput) :=
  match Execution_prepare plan metadata chunk options format with
  | Ok execution =>
      (fun selected =>
        let* page := selected in
        match page with
        | None => Ok (match format with FormatJson => OutJson None | FormatArrow _ _ => OutArrow None end)
        | Some page =>
            let* page := materialize_page execution page in
            encode_page execution metadata format page
        end) <$> select_page fuel execution
  | Err e => Some (Err e)
  | Panic => Some Panic
  end.

(** [src/src/execution/mod.rs:72-84] execute_chunk_with. *)
Definition execute_chunk_with (fuel : nat) (plan : Plan) (metadata : DatasetDescription) (chunk : ChunkReader) (options : ExecOptions)
    : option (result (option QueryOutput)) :=
  (fun output => let* output := output in match output with OutJson blocks => Ok blocks | OutArrow _ => Panic end) <$>
    execute fuel plan metadata chunk options FormatJson.

(** [src/src/execution/mod.rs:110-127] execute_chunk. *)
Definition execute_chunk (fuel : nat) (plan : Plan) (metadata : DatasetDescription) (chunk : ChunkReader) (profile : bool)
    : option (result (option QueryOutput)) :=
  (fun output => let* output := output in match output with OutJson blocks => Ok blocks | OutArrow _ => Panic end) <$>
    execute fuel plan metadata chunk (ExecOptions_profiled profile) FormatJson.

(** [src/src/execution/mod.rs:129-148] execute_chunk_arrow. *)
Definition execute_chunk_arrow (fuel : nat) (plan : Plan) (metadata : DatasetDescription) (chunk : ChunkReader) (compress binary : bool)
    : option (result (option ArrowOutput)) :=
  (fun output => let* output := output in match output with OutArrow output => Ok output | OutJson _ => Panic end) <$>
    execute fuel plan metadata chunk ExecOptions_default (FormatArrow compress binary).
End execute.
