(* ===== verification/ExecuteSpec.v ===== *)
(** What an accepted execution promises (src/execution/prepare.rs, mod.rs): the plan is
    the catalog's, the chunk holds every table and renders every column a row of the
    response reads, and the query returns. *)
From stdpp Require Import base strings list gmap.
From Stdlib Require Import ZArith Lia.
From S2P Require Import Prelude Machine ListLib Errors Arrow ArrowReference Catalog Integers Counting BlockIndex Rows Keys Addresses Json Sets Predicate RowPredicate ItemLists Projection Weight RowOrder Render Names Encoder EncoderSpec Scan Columnar ColumnarSpec ColumnarScan Plan Reader Sources Fork Prepare Tables TablesSpec TablesRange Retain Page PageSpec Materialize ArrowOut RowWriter Writer Execute.

#[local] Open Scope Z_scope.

Section spec.
Context {K : ArrowKernels} {R : RowFormat} {B : BatchKernels} {BL : BatchLaws B} {H : HexKernel} {F : JsonFormats} {D : HexDecoder} {S : StreamKernels}.

(** ** A chunk that answers *)

(** A column of a projection's table that its schema renders: there, with an encoder for
    its type where the response is JSON, and weighed by an integer. *)
Definition column_renders (schema : Schema) (desc : TableDescription) (json : bool) (name : string) : Prop :=
  exists field, field_with_name schema name = Some field /\
    (forall size f, (assoc name (td_columns desc) ≫= cd_weight) = Some (WeightColumn size) -> field_with_name schema size = Some f ->
       is_integer (f_type f) = true) /\
    (json = true -> exists encoder, resolve_encoder (f_type field) (assoc name (td_columns desc) ≫= cd_encoding)
       (cd_data_type <$> assoc name (td_columns desc)) (assoc name (td_columns desc) ≫= cd_members) = Ok encoder).

(** Keys that order rows, and a variant that is text. *)
Definition rows_render (schema : Schema) (desc : TableDescription) : Prop :=
  Forall (fun key => forall f, field_with_name schema key = Some f -> orders_rows (f_type f) = true) (build_full_sort_columns desc) /\
  forall variant f, os_variant_column (td_output desc) = Some variant -> field_with_name schema variant = Some f -> is_text (f_type f) = true.

(** A projection its table's schema renders. *)
Definition renders (schema : Schema) (json : bool) (projection : ResolvedProjection) : Prop :=
  Forall (column_renders schema (rp_desc projection) json) (rp_required projection) /\
  (json = true -> rows_render schema (rp_desc projection)).

Definition answers (chunk : ChunkReader) (json : bool) (projection : ResolvedProjection) : Prop :=
  forall schema, cr_table_schema chunk (rp_table projection) = Some schema -> renders schema json projection.

(** What a chunk is refused for. *)
Definition chunk_refusal (e : error) : Prop := e = EngineError ColumnNotFound \/ e = EngineError MalformedChunkData.

Lemma ensure_column_renderable_spec schema desc json name :
  settles (column_renders schema desc json name) chunk_refusal (ensure_column_renderable schema desc json name).
Proof.
  unfold ensure_column_renderable, column_renders. destruct (field_with_name schema name) as [field|]; cbn [ok_or obind].
  2: { split; [by intros (? & ? & _)|by left]. }
  set (declared := assoc name (td_columns desc)). eapply settles_iff; [apply (settles_then
    (forall size f, (declared ≫= cd_weight) = Some (WeightColumn size) -> field_with_name schema size = Some f -> is_integer (f_type f) = true)
    (json = true -> exists encoder, resolve_encoder (f_type field) (declared ≫= cd_encoding) (cd_data_type <$> declared) (declared ≫= cd_members) = Ok encoder))|].
  - destruct (declared ≫= cd_weight) as [[size|]|]; [|done..]. destruct (field_with_name schema size) as [f|] eqn:Ef; [|by intros ? ? [= <-] ?; simplify_eq].
    apply settles_ensure; [|by right]. split; [|intros Hi; by apply (Hi size f)]. intros Hi ? ? [= <-] ?. by simplify_eq.
  - destruct json; [|done]. pose proof (resolve_refused (f_type field) (declared ≫= cd_encoding) (cd_data_type <$> declared) (declared ≫= cd_members)) as Hr.
    destruct (resolve_encoder _ _ _ _) as [encoder|part|]; cbn; [intros _; by exists encoder| |done]. split; [|by right]. intros Hc. by destruct (Hc eq_refl).
  - split; [intros [? ?]; by exists field|]. by intros (? & [= <-] & ? & ?).
Qed.

Lemma ensure_rows_renderable_spec schema desc :
  settles (rows_render schema desc) chunk_refusal (ensure_rows_renderable schema desc).
Proof.
  unfold ensure_rows_renderable, rows_render. apply settles_then.
  - apply settles_each. intros key _. destruct (field_with_name schema key) as [f|]; [|done].
    apply settles_ensure; [|by right]. naive_solver.
  - destruct (os_variant_column (td_output desc)) as [variant|]; cbn [mbind option_bind]; [|done].
    destruct (field_with_name schema variant) as [f|] eqn:Ef; [|by intros ? ? [= <-] ?; simplify_eq].
    apply settles_ensure; [|by right]. rewrite bool_decide_eq_true. destruct (new_empty_array_ok (f_type f)) as (_ & Ht & _).
    transitivity (is_text (f_type f) = true).
    + destruct (new_empty_array (f_type f)); cbn in *; rewrite <- Ht; (split; [by intros [? ?]|]; intros Htext; first [discriminate Htext|by eexists]).
    + split; [intros Hi ? ? [= <-] ?; by simplify_eq|]. intros Hi. by apply (Hi variant f).
Qed.

Lemma ensure_renderable_spec ex projection json :
  settles (answers (ex_chunk ex) json projection) chunk_refusal (ensure_renderable ex projection json).
Proof.
  unfold ensure_renderable, answers. destruct (cr_table_schema (ex_chunk ex) (rp_table projection)) as [schema|]; [|done].
  eapply settles_iff; [apply (settles_then (Forall (column_renders schema (rp_desc projection) json) (rp_required projection)) (json = true -> rows_render schema (rp_desc projection)));
    [apply settles_each; intros name _; apply ensure_column_renderable_spec|]|].
  - destruct json; [|done]. eapply settles_iff; [apply ensure_rows_renderable_spec|]. split; [intros HP _; exact HP|auto].
  - split; [by intros HP ? [= <-]|]. intros HP. exact (HP schema eq_refl).
Qed.

(** ** The plan's tables *)

(** A plan resolved against the catalog: every table found, every field known. *)
Record planned (plan : Plan) (metadata : DatasetDescription) (ex : Execution) : Prop := {
  pn_plan : ex_plan ex = plan;
  pn_blocks : Catalog.table metadata (pl_block_table plan) = Some (ex_blocks ex);
  pn_header : resolve (pl_block_table plan) (ex_blocks ex) (pl_block_output_columns plan) = Ok (ex_header ex);
  pn_tables : Forall2 (fun table t => PlannedTable_resolve table metadata = Ok t) (pl_table_plans plan) (ex_tables ex);
}.

(** Everything a response renders: the headers, each table and each relation's target. *)
Definition projections (ex : Execution) : list ResolvedProjection :=
  ex_header ex :: (ex_tables ex ≫= fun t => pt_projection t :: (pt_relations t).*2).

(** Every table a plan names. *)
Definition named_tables (plan : Plan) : list string :=
  pl_block_table plan :: (pl_table_plans plan ≫= fun t => tp_table t :: (rel_target_table <$> tp_relations t)).

(** What a plan of another catalog is refused for. *)
Definition plan_refusal (e : error) : Prop := e = EngineError TableNotFound \/ e = EngineError UnknownField.

Lemma catalog_entry_refused metadata name :
  match catalog_entry metadata name with Ok desc => Catalog.table metadata name = Some desc | Err e => plan_refusal e | Panic => False end.
Proof. unfold catalog_entry. destruct (Catalog.table metadata name); cbn; [done|]. by left. Qed.

Lemma mapM_refused {A C} (E : error -> Prop) (f : A -> result C) l :
  (forall a, match f a with Ok _ => True | Err e => E e | Panic => False end) ->
  match mapM_ok f l with Ok _ => True | Err e => E e | Panic => False end.
Proof. intros Hf. induction l as [|a l IH]; cbn [mapM_ok]; [done|]. specialize (Hf a). destruct (f a); cbn; [|done..]. by destruct (mapM_ok f l). Qed.

Lemma resolve_fields_refused name desc fields :
  match resolve name desc fields with Ok _ => True | Err e => plan_refusal e | Panic => False end.
Proof.
  unfold resolve. pose proof (mapM_refused plan_refusal (fun name => let* source := ok_or (field_source desc name) (EngineError UnknownField) in
    Ok {| sf_name := name; sf_source := source |}) fields) as Hf.
  destruct (mapM_ok _ fields); cbn [obind]; [done|apply Hf..]; intros field; (destruct (field_source desc field); cbn; [done|by right]).
Qed.

Lemma PlannedTable_resolve_refused metadata plan :
  match PlannedTable_resolve plan metadata with Ok t => pt_plan t = plan | Err e => plan_refusal e | Panic => False end.
Proof.
  unfold PlannedTable_resolve. pose proof (catalog_entry_refused metadata (tp_table plan)) as Hd. destruct (catalog_entry _ _) as [desc|e|]; cbn [obind]; [|done..].
  pose proof (resolve_fields_refused (tp_table plan) desc (tp_output_columns plan)) as Hp. destruct (resolve _ _ _) as [projection|e|]; cbn [obind]; [|done..].
  match goal with |- context [mapM_ok ?f ?l] => pose proof (mapM_refused plan_refusal f l) as Ht; destruct (mapM_ok f l) as [targets|e|] end; cbn [obind];
    [done|apply Ht..]; intros relation; pose proof (catalog_entry_refused metadata (rel_target_table relation)) as He;
    (destruct (catalog_entry _ (rel_target_table relation)) as [target|e'|]; cbn [obind]; [apply resolve_fields_refused|done..]).
Qed.

(** ** The reader pages are selected through *)

(** A selection reader narrows the chunk it reads, and knows a row by its position where the chunk
    can read positions back, and by the complete key of its table otherwise. *)
Record selects_through (chunk : ChunkReader) (s : SelectionReader) : Prop := {
  st_inner : sr_inner s = chunk;
  st_positions : sr_track_positions s = cr_supports_row_positions chunk;
}.

(** Every item a relation of the plan follows is an item of its table. *)
Definition follows_items (plan : TablePlan) : Prop :=
  forall relation items, relation ∈ tp_relations plan -> rel_source_items relation = Some items ->
    Forall (fun item => (item < length (tp_predicates plan))%nat) items.

Lemma items_match_every_row_ok predicates items : Forall (fun item => (item < length predicates)%nat) items ->
  exists b, items_match_every_row predicates items = Ok b.
Proof.
  induction 1 as [|item items Hi _ IH]; [by eexists|]. apply lookup_lt_is_Some in Hi as [p Ep]. cbn. unfold vec_get. rewrite Ep. cbn.
  destruct (matches_every_row p); [done|by eexists].
Qed.

Lemma foldM_total {E A T} (f : T -> A -> outcome E T) l s : (forall s a, a ∈ l -> exists s', f s a = Ok s') -> exists s', foldM f l s = Ok s'.
Proof.
  revert s. induction l as [|a l IH]; intros s Hf; [by eexists|]. destruct (Hf s a) as [s' Es]; [by left|].
  cbn [foldM]. rewrite Es. cbn. apply IH. intros; apply Hf; by right.
Qed.

Lemma foldM_refuses {E A T} (f : T -> A -> outcome E T) l s e : (forall s a e, f s a <> Err e) -> foldM f l s <> Err e.
Proof.
  intros Hf. revert s. induction l as [|a l IH]; intros s; [done|]. cbn [foldM]. destruct (f s a) as [s'|e'|] eqn:E'; cbn; [apply IH| |done].
  by destruct (Hf s a e').
Qed.

Lemma items_match_every_row_refuses predicates items e : items_match_every_row predicates items <> Err e.
Proof.
  induction items as [|item items IH]; [done|]. cbn. unfold vec_get. destruct (predicates !! item) as [p|]; [|done]. cbn. by destruct (matches_every_row p).
Qed.

(** The scans are counted, or an item is not there. *)
Lemma broad_scans_ok tables :
  match broad_scans tables with Ok _ => True | Err _ => False | Panic => ~ Forall (fun t => follows_items (pt_plan t)) tables end.
Proof.
  destruct (broad_scans tables) as [scans|e|] eqn:Eb; [done| |].
  - revert Eb. apply foldM_refuses. clear. intros scans t e. apply foldM_refuses. intros s r e'.
    destruct (rel_source_items r) as [items|]; [|done]. destruct (items_match_every_row _ items) as [b|e1|] eqn:E; cbn; [done| |done].
    by destruct (items_match_every_row_refuses _ _ _ E).
  - intros Hf. destruct (foldM_total (E := error) count_scans tables ∅) as [s' Es]; [|unfold broad_scans in Eb; congruence].
    intros s t Ht. rewrite Forall_forall in Hf. specialize (Hf t Ht). apply foldM_total. intros s1 r Hr.
    destruct (rel_source_items r) as [items|] eqn:Ei; cbn [obind]; [|by eexists].
    destruct (items_match_every_row_ok (tp_predicates (pt_plan t)) items) as [b ->]; [by eapply Hf|]. by eexists.
Qed.

(** Choosing what to read through fails only on an item that is not there, by panicking. *)
Lemma SelectionReader_new_ok chunk header tables :
  match SelectionReader_new chunk header tables with
  | Ok selection => forall s, selection = Some s -> selects_through chunk s
  | Err _ => False
  | Panic => ~ Forall (fun t => follows_items (pt_plan t)) tables
  end.
Proof.
  unfold SelectionReader_new. pose proof (broad_scans_ok tables) as Hs. destruct (broad_scans tables) as [scans|e|]; cbn [obind]; [|done..].
  destruct (forallb _ _); [by intros s [= <-]|done].
Qed.

(** Each check of [prepare] over what the plan names. *)
Lemma required_tables_spec ex :
  settles (Forall (fun name => cr_has_table (ex_chunk ex) name = true)
      (pl_block_table (ex_plan ex) :: ((pt_plan <$> ex_tables ex) ≫= fun t => tp_table t :: (rel_target_table <$> tp_relations t))))
    (fun e => e = EngineError TableNotFound) (ensure_required_tables_present ex).
Proof.
  unfold ensure_required_tables_present. eapply settles_iff; [|symmetry; apply Forall_cons].
  apply settles_then; [by apply settles_ensure|]. eapply settles_iff; [apply (settles_each (fun t => cr_has_table (ex_chunk ex) (tp_table (pt_plan t)) = true /\
    Forall (fun relation => cr_has_table (ex_chunk ex) (rel_target_table relation) = true) (tp_relations (pt_plan t))))|].
  - intros t _. apply settles_then; [by apply settles_ensure|]. apply settles_each. intros relation _. by apply settles_ensure.
  - induction (ex_tables ex) as [|t tables IH]; [by split|]. rewrite fmap_cons, bind_cons, Forall_app, !Forall_cons, Forall_fmap, IH. tauto.
Qed.

Lemma columns_renderable_spec ex format :
  settles (Forall (answers (ex_chunk ex) (is_json format)) (projections ex)) chunk_refusal (ensure_columns_renderable ex format).
Proof.
  unfold ensure_columns_renderable, projections. eapply settles_iff; [|symmetry; apply Forall_cons].
  apply settles_then; [apply ensure_renderable_spec|]. eapply settles_iff; [apply (settles_each (fun t => answers (ex_chunk ex) (is_json format) (pt_projection t) /\
    Forall (fun r : RelationPlan * ResolvedProjection => answers (ex_chunk ex) (is_json format) r.2) (pt_relations t)))|].
  - intros t _. apply settles_then; [apply ensure_renderable_spec|]. apply settles_each. intros r _. apply ensure_renderable_spec.
  - induction (ex_tables ex) as [|t tables IH]; [by split|]. rewrite bind_cons, Forall_app, !Forall_cons, Forall_fmap, IH. tauto.
Qed.

(** The plan resolved, or refused. *)
Lemma planned_spec plan metadata chunk options :
  match (let* blocks := catalog_entry metadata (pl_block_table plan) in
         let* header := resolve (pl_block_table plan) blocks (pl_block_output_columns plan) in
         let* tables := mapM_ok (fun table => PlannedTable_resolve table metadata) (pl_table_plans plan) in
         Ok {| ex_plan := plan; ex_chunk := chunk; ex_options := options; ex_blocks := blocks; ex_header := header;
               ex_tables := tables; ex_selection := None |}) with
  | Ok ex => planned plan metadata ex /\ pt_plan <$> ex_tables ex = pl_table_plans plan
  | Err e => plan_refusal e /\ forall ex, ~ planned plan metadata ex
  | Panic => False
  end.
Proof.
  pose proof (catalog_entry_refused metadata (pl_block_table plan)) as Hb. unfold catalog_entry in *.
  destruct (Catalog.table metadata (pl_block_table plan)) as [blocks|] eqn:Eb; cbn [ok_or obind] in *.
  2: { split; [done|]. intros ex [_ Hc _ _]. by rewrite Eb in Hc. }
  pose proof (resolve_fields_refused (pl_block_table plan) blocks (pl_block_output_columns plan)) as Hh.
  destruct (resolve _ blocks _) as [header|e|] eqn:Eh; cbn [obind]; [| |done].
  2: { split; [done|]. intros ex [_ Hc Hr _]. rewrite Eb in Hc. apply (inj Some) in Hc. rewrite <- Hc, Eh in Hr. done. }
  pose proof (mapM_refused plan_refusal (fun table => PlannedTable_resolve table metadata) (pl_table_plans plan)) as Ht.
  destruct (mapM_ok _ (pl_table_plans plan)) as [tables|e|] eqn:Et; cbn [obind].
  - apply mapM_ok_Forall2 in Et. split; [by split|]. cbn [ex_tables]. clear -Et. induction Et as [|table t l tables Hr _ IH]; [done|].
    rewrite fmap_cons, IH. f_equal. pose proof (PlannedTable_resolve_refused metadata table) as Hp. by rewrite Hr in Hp.
  - split.
    + apply Ht. intros table. pose proof (PlannedTable_resolve_refused metadata table). by destruct (PlannedTable_resolve table metadata).
    + intros ex [_ _ _ Hr]. apply mapM_ok_Forall2 in Hr. by rewrite Et in Hr.
  - apply Ht. intros table. pose proof (PlannedTable_resolve_refused metadata table). by destruct (PlannedTable_resolve table metadata).
Qed.

(** The chunk checks before the parents are compared ask only which tables there are, and their schemas. *)
Record same_tables (chunk chunk' : ChunkReader) : Prop := {
  sm_has : forall name, cr_has_table chunk' name = cr_has_table chunk name;
  sm_schema : forall name, cr_table_schema chunk' name = cr_table_schema chunk name;
}.

(** An execution on another chunk. *)
Definition on_chunk (chunk : ChunkReader) (ex : Execution) : Execution :=
  {| ex_plan := ex_plan ex; ex_chunk := chunk; ex_options := ex_options ex; ex_blocks := ex_blocks ex; ex_header := ex_header ex;
     ex_tables := ex_tables ex; ex_selection := ex_selection ex |}.

Lemma required_tables_same ex chunk : same_tables (ex_chunk ex) chunk ->
  ensure_required_tables_present (on_chunk chunk ex) = ensure_required_tables_present ex.
Proof.
  intros [Hh _]. unfold ensure_required_tables_present. cbn [on_chunk ex_plan ex_chunk ex_tables]. rewrite Hh. apply obind_ext; intros u.
  apply foldM_ext. intros [] t _. rewrite Hh. apply obind_ext; intros u'. apply foldM_ext. intros [] relation _. by rewrite Hh.
Qed.

Lemma ensure_renderable_same ex chunk projection json : same_tables (ex_chunk ex) chunk ->
  ensure_renderable (on_chunk chunk ex) projection json = ensure_renderable ex projection json.
Proof. intros [_ Hs]. unfold ensure_renderable. cbn [on_chunk ex_chunk]. by rewrite Hs. Qed.

Lemma columns_renderable_same ex chunk format : same_tables (ex_chunk ex) chunk ->
  ensure_columns_renderable (on_chunk chunk ex) format = ensure_columns_renderable ex format.
Proof.
  intros Hs. unfold ensure_columns_renderable. cbn [on_chunk ex_header ex_tables]. rewrite ensure_renderable_same by done. apply obind_ext; intros u.
  apply foldM_ext. intros [] t _. rewrite ensure_renderable_same by done. apply obind_ext; intros u'. apply foldM_ext. intros [] r _.
  by apply ensure_renderable_same.
Qed.

(** C7: [Execution::prepare] accepts only a plan of this catalog, on a chunk that holds every table the plan
    names and renders everything its response reads, for a client whose chain is the chunk's: every selected column there
    with an encoder for its type, sizes that are integers, keys that order rows, a variant that is text. What it accepts is
    read through the chunk itself or through a reader that narrows it. It refuses, by the kind of its error, exactly for one
    of: a plan that names a table or a field the catalog lacks ([TableNotFound], [UnknownField]); a chunk that lacks a table
    the plan names ([TableNotFound]) or does not render what the response reads ([ColumnNotFound], [MalformedChunkData]);
    parents that conflict or cannot be read. The first three are decided by which tables the chunk has and their schemas: a
    chunk that reads its rows any other way is refused the same. It panics only where comparing the parents does, or where
    a relation follows an item its table does not have. *)
Theorem Execution_prepare_spec plan metadata chunk options format :
  match Execution_prepare plan metadata chunk options format with
  | Ok ex =>
      planned plan metadata ex /\ ex_chunk ex = chunk /\ ex_options ex = options /\
      Forall (fun name => cr_has_table chunk name = true) (named_tables plan) /\
      Forall (answers chunk (is_json format)) (projections ex) /\ check_parent_block plan metadata chunk = Ok tt /\
      forall s, ex_selection ex = Some s -> selects_through chunk s
  | Err e =>
      (plan_refusal e /\ (forall ex, ~ planned plan metadata ex) \/
       e = EngineError TableNotFound /\ Exists (fun name => cr_has_table chunk name = false) (named_tables plan) \/
       chunk_refusal e /\ (exists ex, planned plan metadata ex /\ ~ Forall (answers chunk (is_json format)) (projections ex))) /\
      (forall chunk', same_tables chunk chunk' -> Execution_prepare plan metadata chunk' options format = Err e) \/
      check_parent_block plan metadata chunk = Err e
  | Panic => check_parent_block plan metadata chunk = Panic \/ ~ Forall follows_items (pl_table_plans plan)
  end.
Proof.
  unfold Execution_prepare. pose proof (planned_spec plan metadata chunk options) as Hp.
  destruct (catalog_entry metadata (pl_block_table plan)) as [blocks|e|]; cbn [obind] in *; [|by left; split; [left|]|done].
  destruct (resolve _ blocks _) as [header|e|]; cbn [obind] in *; [|by left; split; [left|]|done].
  destruct (mapM_ok _ (pl_table_plans plan)) as [tables|e|]; cbn [obind] in *; [|by left; split; [left|]|done]. destruct Hp as [Hp Et].
  set (ex := {| ex_plan := plan |}) in *.
  set (on chunk' := {| ex_plan := plan; ex_chunk := chunk'; ex_options := options; ex_blocks := blocks; ex_header := header; ex_tables := tables; ex_selection := None |}).
  assert (Hsame : forall chunk', same_tables chunk chunk' -> ensure_required_tables_present (on chunk') = ensure_required_tables_present ex) by exact (required_tables_same ex).
  pose proof (required_tables_spec ex) as Ht. rewrite Et in Ht. fold (named_tables plan) in Ht.
  destruct (ensure_required_tables_present ex) as [u|e|]; cbn [obind]; [|left|done].
  2: { destruct Ht as [Hn ->]. split; [|by intros chunk' Hs; fold (on chunk'); rewrite (Hsame chunk' Hs)]. right; left. split; [done|].
       apply not_Forall_Exists in Hn; [|intros name; destruct (cr_has_table _ name); [by left|by right]].
       eapply Exists_impl; [exact Hn|]. intros name. cbn. by destruct (cr_has_table _ name). }
  assert (Hcols : forall chunk', same_tables chunk chunk' -> ensure_columns_renderable (on chunk') format = ensure_columns_renderable ex format)
    by (intros chunk'; exact (columns_renderable_same ex chunk' format)).
  pose proof (columns_renderable_spec ex format) as Hc. destruct (ensure_columns_renderable ex format) as [u'|e|]; cbn [obind]; [| |done].
  2: { left. destruct Hc as [Hn He]. split; [|by intros chunk' Hs; fold (on chunk'); rewrite (Hsame chunk' Hs); cbn [obind]; rewrite (Hcols chunk' Hs)].
       right; right. split; [done|]. by exists ex. }
  destruct (check_parent_block plan metadata chunk) as [[]|e|] eqn:Ef; cbn [obind]; [|by right|by left].
  destruct (_ && _); cbn [obind]; [pose proof (SelectionReader_new_ok chunk header tables) as Hsel; destruct (SelectionReader_new _ _ _) as [selection|e|]|];
    cbn [obind]; [| |right|]; [|done| |].
  - split; [by destruct Hp; split|]. by split_and!.
  - intros Hf. apply Hsel. rewrite <- Et, Forall_fmap in Hf. exact Hf.
  - split; [by destruct Hp; split|]. by split_and!.
Qed.

(** C8: A query returns: prepared, its page selected, its payloads read and its response encoded, in as many block
    ranges as there are blocks to read; and more fuel than that changes nothing. *)
Theorem execute_ends plan metadata chunk options format :
  exists output, forall fuel, match Execution_prepare plan metadata chunk options format with Ok ex => (range_fuel ex <= fuel)%nat | _ => True end ->
    execute fuel plan metadata chunk options format = Some output.
Proof.
  unfold execute. destruct (Execution_prepare plan metadata chunk options format) as [ex| |]; [|by eexists|by eexists].
  destruct (select_page_ends ex) as [selected Hs]. eexists. intros fuel Hm. by rewrite Hs.
Qed.
End spec.

(** ** A query answered *)

Import ArrowInstances.
Import HexInstances.
Import XxhInstances.
Import RowFormatInstances.
Import BatchInstances.
Import HexDecoderInstances.
Import JsonFormatInstances.
Import StreamInstances.

(** Calls, their transactions and the blocks of both. *)
Definition headers_content : RecordBatch :=
  {| columns := [("number"%string, AInt UInt64 [7; 8; 9] None); ("hash"%string, AText Utf8 ["0x07"; "0x08"; "0x09"]%string None)]; num_rows := 3 |}.
Definition headers_schema : Schema :=
  [{| f_name := "number"; f_type := DInt UInt64; f_nullable := false |}; {| f_name := "hash"; f_type := DText Utf8; f_nullable := true |}].

Definition answer_contents : chunk_contents := fun name =>
  if decide (name = "blocks"%string) then Some (memory_table headers_schema headers_content (fun _ => None), headers_content) else query_contents name.
Definition answer_chunk : ColumnarChunk := {|
  cc_has_table name := bool_decide (is_Some (answer_contents name));
  cc_open_table name := Ok (fst <$> answer_contents name);
|}.

Definition answer_surface : OutputSurface :=
  {| os_name := None; os_fields := []; os_virtual_fields := []; os_variant_column := None; os_variants := [] |}.
Definition answer_column (t : ColumnType) : ColumnDescription :=
  {| cd_data_type := t; cd_encoding := None; cd_weight := None; cd_system := false; cd_fold_case := false; cd_members := None |}.
Definition answer_table (number : string) (keys : list string) (address : option string) (columns : list (string * ColumnType)) : TableDescription :=
  {| td_request_surface := None; td_output := answer_surface; td_block_number_column := number; td_parent_hash_column := None;
     td_parent_number_column := None; td_address_column := address; td_item_order_keys := keys; td_declared_weight_key := None; td_sort_key := [];
     td_columns := (fun c : string * ColumnType => (c.1, answer_column c.2)) <$> columns |}.
Definition answer_metadata : DatasetDescription :=
  {| dd_version := SCHEMA_VERSION; dd_name := "answers"; dd_aliases := [];
     dd_tables := [("blocks"%string, answer_table "number" [] None [("number", CtUInt64); ("hash", CtString)]%string);
                   ("transactions"%string, answer_table "block_number" ["transaction_index"%string] None [("block_number", CtUInt64); ("transaction_index", CtUInt32)]%string);
                   ("traces"%string, answer_table "block_number" ["transaction_index"%string] (Some "trace_address"%string)
                      [("block_number", CtUInt64); ("transaction_index", CtUInt32); ("trace_address", CtListUInt32)]%string)] |}.

(** The calls of first transactions, the calls below them, and their transactions. *)
Definition answer_plan (from : Z) (to : option Z) : Plan := {|
  pl_from_block := from; pl_to_block := to; pl_include_all_blocks := false; pl_parent_block_hash := None; pl_block_table := "blocks";
  pl_block_output_columns := ["number"; "hash"]%string;
  pl_table_plans := [{|
    tp_table := "traces"; tp_output_columns := ["transaction_index"; "trace_address"]%string; tp_predicates := tp_predicates traces_plan;
    tp_relations := (fun r => {| rel_target_table := rel_target_table r; rel_kind := rel_kind r; rel_left_key := rel_left_key r; rel_right_key := rel_right_key r;
      rel_output_columns := if bool_decide (rel_target_table r = "traces"%string) then ["transaction_index"; "trace_address"]%string else ["transaction_index"%string];
      rel_source_items := rel_source_items r |}) <$> tp_relations traces_plan |}] |}.

Definition answered (range_reads : bool) (from : Z) (to : option Z) : option (result (option (list Z))) :=
  (fun output => let* output := output in
     match output with None => Ok None | Some output => let* lines := into_json_lines output in Ok (Some lines) end) <$>
    execute_chunk_with 5 (answer_plan from to) answer_metadata (columnar_reader answer_chunk ∅)
      {| eo_profile := false; eo_weight_budget := MAX_RESPONSE_BYTES; eo_range_reads := range_reads |}.

(** Selected first and read back, or read in one pass: the same lines, one for each block with a call of a first
    transaction and one for the last block of the chunk. *)
Definition answer_lines : list Z := mjoin ((fun l => json l ++ [10]) <$> [
  "{'header':{'number':7,'hash':'0x07'},'transactions':[{'transactionIndex':0}],'traces':[{'transactionIndex':0,'traceAddress':[]},{'transactionIndex':0,'traceAddress':[0]}]}";
  "{'header':{'number':8,'hash':'0x08'},'transactions':[{'transactionIndex':0}],'traces':[{'transactionIndex':0,'traceAddress':[1]}]}";
  "{'header':{'number':9,'hash':'0x09'}}"]%string).

Example answered_in_ranges : answered true 0 None = Some (Ok (Some answer_lines)).
Proof. vm_compute. reflexivity. Qed.

Example answered_at_once : answered false 0 None = Some (Ok (Some answer_lines)).
Proof. vm_compute. reflexivity. Qed.

(** Past the chunk there is nothing to answer. *)
Example answered_past_the_chunk : answered true 10 None = Some (Ok None).
Proof. vm_compute. reflexivity. Qed.

(** A column that is not in the chunk, and a table that is not in the catalog, are refused before a row is read. *)
Definition refused_plan (table : string) (columns : list string) : Plan := {|
  pl_from_block := 0; pl_to_block := None; pl_include_all_blocks := false; pl_parent_block_hash := None; pl_block_table := "blocks";
  pl_block_output_columns := ["number"%string];
  pl_table_plans := [{| tp_table := table; tp_output_columns := columns; tp_predicates := []; tp_relations := [] |}] |}.

Definition wider_metadata : DatasetDescription :=
  {| dd_version := SCHEMA_VERSION; dd_name := "wider"; dd_aliases := [];
     dd_tables := [("blocks"%string, answer_table "number" [] None [("number", CtUInt64); ("hash", CtString)]%string);
                   ("transactions"%string, answer_table "block_number" [] None [("block_number", CtUInt64); ("value", CtString)]%string)] |}.

Example refused_early :
  (fun p => Execution_prepare p wider_metadata (columnar_reader answer_chunk ∅) ExecOptions_default FormatJson) <$>
    [refused_plan "transactions" ["value"%string]; refused_plan "traces" []; refused_plan "transactions" ["no_such_field"%string]] =
  [Err (EngineError ColumnNotFound); Err (EngineError TableNotFound); Err (EngineError UnknownField)].
Proof. vm_compute. reflexivity. Qed.

Lemma Execution_prepare_spec_witness :
  match Execution_prepare (answer_plan 0 None) answer_metadata (columnar_reader answer_chunk ∅) ExecOptions_default FormatJson with
  | Ok ex => Forall (answers (columnar_reader answer_chunk ∅) true) (projections ex) /\
      (exists s, ex_selection ex = Some s /\ selects_through (columnar_reader answer_chunk ∅) s)
  | _ => False
  end.
Proof.
  pose proof (Execution_prepare_spec (answer_plan 0 None) answer_metadata (columnar_reader answer_chunk ∅) ExecOptions_default FormatJson) as Hs.
  assert (Hr : match Execution_prepare (answer_plan 0 None) answer_metadata (columnar_reader answer_chunk ∅) ExecOptions_default FormatJson with
    Ok ex => bool_decide (is_Some (ex_selection ex)) | _ => false end = true) by (vm_compute; reflexivity).
  destruct (Execution_prepare _ _ _ _ _) as [ex|e|]; [|discriminate Hr..]. destruct Hs as (_ & _ & _ & _ & Ha & _ & Hsel). apply bool_decide_eq_true in Hr as [s Es].
  split; [exact Ha|]. exists s. split; [exact Es|by apply Hsel].
Defined.
